(* ===== verification/_CoqProject ===== *)
-Q . S2P
Prelude.v
PpuState.v
PpuInt.v
PpuBranch.v
PpuMem.v
PpuDecode.v
PpuTable.v
PpuStep.v
PpuIntProofs.v
PpuBranchProofs.v
PpuMemProofs.v
PpuDecodeProofs.v
PpuTableProofs.v
PpuStepProofs.v
Threads.v
CellSync.v
CellMutex.v
CellBarrier.v
CellRwm.v
CellQueue.v
CellRtc.v
CellRtcProofs.v
CellRtcText.v
StdMap.v
MemoryTable.v
MemoryTableProofs.v
V128.v
SpuState.v
SpuInt.v
SpuShift.v
SpuCtl.v
SpuDecode.v
SpuStep.v
SpuLoops.v
SpuRegs.v
SpuTypes.v
SpuBranchProofs.v
SpuAluProofs.v
SpuMulProofs.v
SpuShuffleProofs.v
SpuShiftProofs.v
IdManager.v
IdManagerProofs.v
Lv2Queue.v
Lv2Create.v
Lv2CreateProofs.v
Lv2CreateRun.v
Lv2Sema.v
Lv2SemaProofs.v
Lv2Rwlock.v
Lv2RwlockProofs.v
Lv2EventFlag.v
Lv2EventFlagProofs.v
CpuState.v
Lv2Scheduler.v
Lv2SchedulerProofs.v
Lv2Mutex.v
Lv2MutexProofs.v
FileStream.v
Psf.v
PsfProofs.v
Vm.v
VmTables.v
VmProofs.v
VmShare.v
VmAlloc.v
VmBlock.v
VmAreas.v
VmRun.v
VmMemory.v
