(* ===== verification/Prelude.v ===== *)
(** * Verification of the RPCSX PlayStation 3 emulator core

    ** The program

    [src/app/src/main/cpp/rpcsx] is an emulator of the PlayStation 3: a PowerPC
    core (PPU) and vector cores (SPU) run guest code, a re-implementation of
    the system libraries ([ps3fw]) and of the kernel ([kernel/cellos]) serves
    their calls, and the graphics processor is translated to Vulkan.  The
    development models the parts whose meaning is in the repository itself:
    the two instruction sets as their interpreters execute them, library and
    kernel objects that guest threads share, the kernel's scheduler, the
    calendar library, the manager of object ids, the loader of PSF files, the
    guest's virtual memory, and the interval map of address ranges.  All paths below are relative to that
    directory.

    ** Parts and files

    [Prelude] holds machine integers of a given width ([wrap], [sext], with the
    names u8 to s128), their bit lemmas, and the tactics ([word_lia],
    [split_cmp]) every other file uses.

    - PPU interpreter, [rpcs3/Emu/Cell/PPUInterpreter.cpp] and [PPUOpcodes.h].
      [PpuState]: registers, opcode fields, carry and overflow helpers, the
      outcome of a handler.  [PpuInt], [PpuBranch], [PpuMem]: one definition
      per handler, named as the handler.  [PpuDecode]: the groups of the
      decoder and the construction of its table.  [PpuTable]: which handler
      pointers the constructor assigns.  [PpuStep]: decode and dispatch.  The
      files with [Proofs] in their name hold their theorems.
    - cellSync, [ps3fw/cellSync.cpp].  [Threads]: threads interleaved over a
      shared object, one atomic operation per step.  [CellSync]: error codes.
      [CellMutex], [CellBarrier], [CellRwm], [CellQueue]: the objects, their
      atomic operations and calls, and their theorems.
    - cellRtc, [ps3fw/cellRtc.cpp].  [CellRtc]: ticks, dates and their
      arithmetic; [CellRtcProofs]; [CellRtcText]: RFC 3339 text.
    - [rx::MemoryAreaTable], [rx/include/rx/MemoryTable.hpp].  [StdMap]: the
      ordered map it is built on; [MemoryTable]: its operations;
      [MemoryTableProofs].
    - SPU interpreter, [rpcs3/Emu/Cell/SPUInterpreter.cpp], [SPUOpcodes.h],
      [SPUAnalyser.h], parts of [SPUThread.cpp] and of
      [SPUCommonRecompiler.cpp].  [V128]: 128-bit registers as lanes, the host
      vector instructions; [SpuState]: thread, opcode fields, outcomes;
      [SpuInt], [SpuShift], [SpuCtl]: the handlers; [SpuDecode]: opcode
      table, classes of opcodes, register and branch targets; [SpuStep]:
      dispatch and the interpreter loop.  [SpuLoops] gives the handlers
      written as loops a closed form; [SpuRegs], [SpuTypes],
      [SpuBranchProofs], [SpuAluProofs], [SpuMulProofs], [SpuShuffleProofs],
      [SpuShiftProofs] hold the theorems.

    - LV2 kernel, [kernel/cellos/src] and [kernel/cellos/include/cellos].
      [Lv2Queue]: [schedule], [unqueue] and [emplace] of [sys_sync.h], the
      wait queues of all objects.  [Lv2Sema] ([sys_semaphore.cpp]), [Lv2Rwlock]
      ([sys_rwlock.cpp]), [Lv2EventFlag] ([sys_event_flag.cpp]) and [Lv2Mutex]
      ([sys_mutex.cpp], [sys_cond.cpp]): the objects and their system calls as
      threads (Threads), with the abstract object each implements; the files
      with [Proofs] in their name hold the refinements.  [CpuState]: the state
      flags of a thread and the atomic operation of [cpu_thread::check_state]
      ([rpcs3/Emu/CPU/CPUThread.cpp]).  [Lv2Scheduler]: the scheduler of
      [lv2.cpp] (run queue, suspension, timeouts, priorities),
      [ppu_thread::cpu_sleep], and the exit, join and detach of
      [sys_ppu_thread.cpp] up to the waits of the host;
      [Lv2SchedulerProofs].
    - Ids, [rpcs3/Emu/IdManager.h].  [IdManager]: the container of the objects
      with an id and its operations, the finite map it implements;
      [IdManagerProofs].
    - Life of kernel objects.  [Lv2Create]: [lv2_obj::create] and
      [on_id_destroy] of [sys_sync.h], the keys shared between processes
      ([rpcs3/Emu/IPC.h]), memory containers ([sys_memory.h]), and the system
      calls that create and destroy objects, over the ids of [IdManager];
      [Lv2CreateProofs]: the counts and names a step keeps; [Lv2CreateRun]:
      sequences of calls.
    - PSF files (PARAM.SFO), [rpcs3/Loader/PSF.cpp] and [PSF.h].  [FileStream]:
      the container streams of [rpcs3/util/File.h] it reads and writes; [Psf]:
      entries, registries, [load_object] and [save_object]; [PsfProofs].
    - Virtual memory, [rpcs3/Emu/Memory/vm.cpp] and [vm.h].  [Vm]: the page
      table, the areas ([block_t]), the marks of shared memory and the
      operations on them.  [VmTables]: tables, ordered maps and alignment;
      [VmProofs]: the allocations of a state as one finite map, and when page
      table and areas agree with it; [VmShare]: the marks of mirrors;
      [VmAlloc], [VmBlock], [VmAreas]: the operations keep all of this;
      [VmRun]: sequences of calls; [VmMemory]: what users rely on.

    A handler is a function from the opcode and the thread state to an outcome;
    a record of the thread has the C++ fields the handlers touch.  Calls that
    leave the modelled code (system calls, channels, the memory flow
    controller) are outcomes, the SPU's with a continuation that receives the
    answer and the thread the callee leaves.  Shared objects of cellSync are
    words changed by one atomic read-modify-write per step; kernel objects are
    records changed by one compare and swap or one section under the object's
    mutex per step.  The kernel objects meet the scheduler where they awaken
    and put to sleep a thread: there they keep the set of signalled threads,
    while the scheduler's own operations are the steps of [Lv2Scheduler].  A
    thread waits in a list ordered by the tags the code gives it.  C++ undefined
    behaviour (stepping before [begin()], dereferencing [end()]) is [None].

    ** Theorems

    - Invariants and types: any run of the PPU interpreter keeps register and
      memory values in range ([run_keeps]), any run of the SPU interpreter too,
      with an aligned program counter ([interpreter_typed]).
    - Decoders: the PPU table equals a search of the groups ([decode_spec]), no
      word matches two entries ([encoding_unambiguous]), which pointers are
      assigned and which stay null; the SPU's static analyses agree with what
      the handlers read, write and where they branch
      ([register_targets_sound], [branch_targets_sound]).
    - Arithmetic: carries, overflow, products, quotients, rotates and shifts
      equal mathematical expressions, on both processors.
    - Memory: loads return what stores left, unaligned vector pairs compose,
      multiple and string instructions terminate and copy, the SPU's sequence
      for storing a scalar changes exactly its bytes ([scalar_store_exact]).
    - Shared objects: interleaved threads refine a queue lock, a FIFO, an
      atomic register and a barrier of generations; the mutex makes progress.
    - Kernel objects: under every interleaving of system calls, timeouts and
      savestate stops, semaphores, reader-writer locks, event flags and mutexes
      with condition variables refine an abstract semaphore, lock, flag and
      monitor ([sema_refines], [rwlock_refines], [event_flag_refines],
      [mutex_monitor_refines]); a pass of [sys_event_flag_set] equals serving
      the threads one by one ([set_single_pass]); a retried pass may wake a
      thread whose condition does not hold ([stale_wakeup]).
    - Scheduler: at most as many PPU threads that have not exited run as there
      are hardware threads, they are the most urgent ones, a switch ends once
      the threads it waits for have stopped ([at_most_n_run],
      [most_urgent_run], [switch_completes]); of its assertions only two can
      fail, for a priority out of range and for a timed sleep with a
      notification left over ([scheduler_fails_only]); when [check_state]
      returns, stays or stops the thread ([check_state_exit]).
    - Ids: the id manager is a map from types and ids to objects
      ([id_map_refines]); a withdrawn id stays unknown until its counter has
      gone around ([stale_id_not_found]).
    - Creation and destruction: whatever sequence of calls the guest makes, an
      object counts its ids, a mutex its condition variables, a container the
      memory of its live objects, and a key leads to the live object of that
      key; only two kinds of call dereference a null pointer, under stated
      conditions ([kernel_objects_consistent]).
    - PSF: loading what was saved gives the registry back ([psf_roundtrip]), and
      whatever the loader accepts is well formed ([psf_load_well_formed]).
    - Virtual memory: calls with arguments in order never throw and keep areas,
      allocations and page table consistent ([memory_consistent]); units of
      shared memory have the same mark exactly if they show the same unit of
      the same object ([mirrors_agree]); [alloc] takes the lowest vacant place,
      with the shared memory it was given, and [dealloc] undoes it
      ([alloc_takes_lowest], [alloc_dealloc]); [find_map] makes the lowest area ([find_map_lowest]);
      skipping over large pages misses nothing where they are whole
      ([check_addr_exact]), and [check_addr_skips] shows a state where they
      are not.
    - Calendar: dates and ticks, time formats and RFC 3339 text round-trip.
    - Interval map: [map] adds and [unmap] removes exactly a range of addresses
      and keeps the areas separate and maximal; [unmap] reads before the first
      entry, which is undefined, exactly where [area_unmap_removes] says;
      [queryArea] returns the area.

    ** Bounds and fuel

    Loops of the source are structural where they count elements or registers.
    [lswi_loop] and [stswi_loop] have the byte count as fuel, at most 128;
    [map_loop] and [unmap_loop] have one more than the size of the map, and
    each step erases an entry; the theorems show that the result is the one of
    the finished loop.  [old_interpreter] runs for ever in the source: its fuel
    is the number of instructions, and the theorem holds for each.  The loops
    that empty a wait queue ([drain]) and pass over it ([pass]) have one more
    than its length, which is proved enough.  The runs of threads have no
    fuel: a schedule is a list, and the theorems hold for every list.  The
    50-bit field for the order of a thread in a queue does not wrap around.
    The searches for a place ([alloc_loop], [find_map_loop]) have the number of
    multiples of the alignment up to the last place as fuel, and [check_loop]
    the number of pages; the theorems are those of the finished loops.  The
    number of calls of a run of the memory is below the numbers of areas.

    ** Not modelled

    Floating point (both processors), because it uses the host's rounding and
    flags; the vector arithmetic of the PPU; the recompilers, which emit host
    code through LLVM and AsmJit; SPU channels and transfers; the checks of
    page protection in loads and stores; the host mappings behind the guest's
    memory, its range locks and its savestates; what follows a savestate stop, the waits of the host thread and
    reservation notifications; the other kernel objects; the graphics, audio,
    input and network subsystems; the PS4 side; the Android bindings.

    ** Plan

    Next: lightweight mutexes and conditions, event queues, the system calls
    that map memory ([sys_memory.cpp], [sys_mmapper.cpp]) over the operations of
    [Vm], the lock-free queue of cellSync, the remaining text formats of cellRtc, PPU vector instructions on
    integers. *)
From stdpp Require Export prelude.
From Stdlib Require Export ZArith Lia Bool.

#[global] Open Scope Z_scope.

(** ** Machine integers *)

(** A [w]-bit unsigned value is a [Z] in [0, 2^w); [wrap w] is the conversion
    to it, [sext w] the conversion to the signed type of the same width. *)
Definition wrap (w x : Z) : Z := x mod 2 ^ w.

Definition sext (w x : Z) : Z :=
  let y := wrap w x in
  if y <? 2 ^ (w - 1) then y else y - 2 ^ w.

Abbreviation u8 := (wrap 8).
Abbreviation u16 := (wrap 16).
Abbreviation u32 := (wrap 32).
Abbreviation u64 := (wrap 64).
Abbreviation u128 := (wrap 128).
Abbreviation s8 := (sext 8).
Abbreviation s16 := (sext 16).
Abbreviation s32 := (sext 32).
Abbreviation s64 := (sext 64).

(** [~x] on a [w]-bit unsigned operand. *)
Definition bnot (w x : Z) : Z := wrap w (Z.lnot x).

(** [std::countl_zero] on a [w]-bit operand. *)
Definition countl_zero (w x : Z) : Z :=
  if x =? 0 then w else w - 1 - Z.log2 x.

Definition is_word (w x : Z) : Prop := 0 <= x < 2 ^ w.

(** Rewriting with constant powers of two evaluated. *)
Ltac pow2_const :=
  repeat match goal with
  | |- context [2 ^ ?n] =>
      match n with
      | Z.pos _ => let v := eval vm_compute in (2 ^ n) in change (2 ^ n) with v in *
      end
  | H : context [2 ^ ?n] |- _ =>
      match n with
      | Z.pos _ => let v := eval vm_compute in (2 ^ n) in change (2 ^ n) with v in *
      end
  end.

Ltac word_unfold :=
  unfold is_word, sext, bnot, wrap in *; cbv zeta in *;
  change (8 - 1) with 7 in *; change (16 - 1) with 15 in *;
  change (32 - 1) with 31 in *; change (64 - 1) with 63 in *;
  unfold Z.lnot in *; pow2_const.

(** Arithmetic on machine words: unfold the conversions, split the
    comparisons, leave the rest to [lia] with division equations. *)
Ltac word_lia :=
  word_unfold;
  repeat match goal with
  | |- context [if ?a <? ?b then _ else _] => destruct (Z.ltb_spec a b)
  | H : context [if ?a <? ?b then _ else _] |- _ => destruct (Z.ltb_spec a b)
  end;
  Z.div_mod_to_equations; lia.

Lemma wrap_range w x : 0 <= w -> is_word w (wrap w x).
Proof. intros. apply Z.mod_pos_bound, Z.pow_pos_nonneg; lia. Qed.

Lemma wrap_small w x : is_word w x -> wrap w x = x.
Proof. apply Z.mod_small. Qed.

Lemma wrap_wrap w x : wrap w (wrap w x) = wrap w x.
Proof. apply Zmod_mod. Qed.

Lemma wrap_le w v x : 0 <= w <= v -> is_word v (wrap w x).
Proof.
  intros [Hw Hv]. destruct (wrap_range w x Hw) as [H0 H1]. split; [done|].
  apply Z.lt_le_trans with (1 := H1). apply Z.pow_le_mono_r; lia.
Qed.

Lemma sext_range w x : 0 < w -> - 2 ^ (w - 1) <= sext w x < 2 ^ (w - 1).
Proof.
  intros Hw. unfold sext. destruct (wrap_range w x) as [H0 H1]; [lia|].
  assert (H2 : 2 ^ w = 2 * 2 ^ (w - 1)) by (rewrite <- Z.pow_succ_r by lia; f_equal; lia).
  destruct (Z.ltb_spec (wrap w x) (2 ^ (w - 1))); lia.
Qed.

Lemma wrap_sext w x : 0 < w -> wrap w (sext w x) = wrap w x.
Proof.
  intros Hw. unfold sext. destruct (_ <? _).
  - apply wrap_wrap.
  - unfold wrap. rewrite Zminus_mod, Z_mod_same_full, Z.sub_0_r, !Zmod_mod. done.
Qed.

Lemma sext_wrap w x : sext w (wrap w x) = sext w x.
Proof. unfold sext. by rewrite wrap_wrap. Qed.

Lemma sext_small w x : 0 < w -> - 2 ^ (w - 1) <= x < 2 ^ (w - 1) -> sext w x = x.
Proof.
  intros Hw Hx. assert (H2 : 2 ^ w = 2 * 2 ^ (w - 1)) by (rewrite <- Z.pow_succ_r by lia; f_equal; lia).
  unfold sext, wrap. destruct (Z.lt_ge_cases x 0).
  - replace (x mod 2 ^ w) with (x + 2 ^ w).
    + destruct (Z.ltb_spec (x + 2 ^ w) (2 ^ (w - 1))); lia.
    + apply Z.mod_unique with (q := -1); lia.
  - rewrite Z.mod_small by lia. destruct (Z.ltb_spec x (2 ^ (w - 1))); lia.
Qed.

(** ** Bit-level equality

    [zbits] rewrites [Z.testbit] of every operation of the models to a boolean
    expression on the bits of the operands. *)
Create Rewrite HintDb zbits.
#[export] Hint Rewrite Z.land_spec Z.lor_spec Z.lxor_spec Z.bits_0 : zbits.
#[export] Hint Rewrite Z.shiftr_spec Z.shiftl_spec Z.lnot_spec Z.testbit_mod_pow2
  using lia : zbits.

Lemma testbit_wrap w x i : 0 <= w -> Z.testbit (wrap w x) i = (i <? w) && Z.testbit x i.
Proof. apply Z.testbit_mod_pow2. Qed.

Lemma testbit_m1 i : 0 <= i -> Z.testbit (-1) i = true.
Proof. apply Z.bits_m1. Qed.

Lemma testbit_bnot w x i :
  0 <= w -> 0 <= i -> Z.testbit (bnot w x) i = (i <? w) && negb (Z.testbit x i).
Proof. intros. unfold bnot. by rewrite testbit_wrap, Z.lnot_spec by done. Qed.

Lemma testbit_above w x i : is_word w x -> 0 <= w <= i -> Z.testbit x i = false.
Proof.
  intros Hx Hi. rewrite <- (wrap_small w x Hx), testbit_wrap by lia.
  by destruct (Z.ltb_spec i w); [lia|].
Qed.
#[export] Hint Rewrite testbit_wrap testbit_m1 testbit_bnot using lia : zbits.

(** Split on every integer comparison of the goal. *)
Ltac split_cmp :=
  repeat match goal with
  | |- context [?a <? ?b] => destruct (Z.ltb_spec a b); try lia
  | |- context [?a <=? ?b] => destruct (Z.leb_spec a b); try lia
  | |- context [?a =? ?b] => destruct (Z.eqb_spec a b); try lia
  end.

Lemma word_bits_eq w x y :
  is_word w x -> is_word w y ->
  (forall i, 0 <= i < w -> Z.testbit x i = Z.testbit y i) -> x = y.
Proof.
  intros Hx Hy H. apply Z.bits_inj'. intros i Hi.
  destruct (Z.lt_ge_cases i w); [by apply H|].
  destruct (Z.lt_ge_cases w 0) as [Hw|Hw].
  { unfold is_word in *. rewrite Z.pow_neg_r in * by done. lia. }
  rewrite !(testbit_above w) by (done || lia). done.
Qed.

Lemma is_word_testbit w x :
  0 <= w -> 0 <= x -> (forall i, w <= i -> Z.testbit x i = false) -> is_word w x.
Proof.
  intros Hw Hx H. split; [done|]. destruct (Z.eq_dec x 0) as [->|]; [by apply Z.pow_pos_nonneg|].
  apply Z.log2_lt_pow2; [lia|]. destruct (Z.lt_ge_cases (Z.log2 x) w) as [|Hge]; [done|].
  apply H in Hge. rewrite Z.bit_log2 in Hge by lia. done.
Qed.

Lemma land_word w x y : 0 <= w -> is_word w x -> 0 <= y -> is_word w (Z.land x y).
Proof.
  intros Hw Hx Hy. apply is_word_testbit; [done| |].
  - apply Z.land_nonneg. by right.
  - intros i Hi. rewrite Z.land_spec, (testbit_above w x i Hx) by lia. done.
Qed.

Lemma lor_word w x y : 0 <= w -> is_word w x -> is_word w y -> is_word w (Z.lor x y).
Proof.
  intros Hw Hx Hy. apply is_word_testbit; [done| |].
  - apply Z.lor_nonneg. split; [apply Hx|apply Hy].
  - intros i Hi. by rewrite Z.lor_spec, (testbit_above w x i Hx), (testbit_above w y i Hy) by lia.
Qed.

Lemma lxor_word w x y : 0 <= w -> is_word w x -> is_word w y -> is_word w (Z.lxor x y).
Proof.
  intros Hw Hx Hy. apply is_word_testbit; [done| |].
  - apply Z.lxor_nonneg. split; intros _; [apply Hy|apply Hx].
  - intros i Hi. by rewrite Z.lxor_spec, (testbit_above w x i Hx), (testbit_above w y i Hy) by lia.
Qed.

Lemma shiftr_word w x n : 0 <= w -> 0 <= n -> is_word w x -> is_word w (Z.shiftr x n).
Proof.
  intros Hw Hn Hx. apply is_word_testbit; [done|apply Z.shiftr_nonneg, Hx|].
  intros i Hi. rewrite Z.shiftr_spec by lia. apply (testbit_above w); [done|lia].
Qed.

(** ** Masks and shifts on bits *)

Lemma land_pow2m1 x n : 0 <= n -> Z.land x (2 ^ n - 1) = x mod 2 ^ n.
Proof. intros. rewrite <- Z.land_ones by lia. rewrite Z.ones_equiv. done. Qed.

Lemma land_63 x : Z.land x 63 = x mod 64.
Proof. apply (Z.land_ones x 6). lia. Qed.

Lemma land_31 x : Z.land x 31 = x mod 32.
Proof. apply (Z.land_ones x 5). lia. Qed.

Lemma land_127 x : Z.land x 127 = x mod 128.
Proof. apply (Z.land_ones x 7). lia. Qed.

Lemma land_pow2_test x k : 0 <= k -> negb (Z.land x (2 ^ k) =? 0) = Z.testbit x k.
Proof.
  intros Hk. destruct (Z.testbit x k) eqn:Ht.
  - apply negb_true_iff, Z.eqb_neq. intros H.
    assert (Hb : Z.testbit (Z.land x (2 ^ k)) k = false) by (rewrite H; apply Z.bits_0).
    rewrite Z.land_spec, Ht, Z.pow2_bits_true in Hb by done. done.
  - apply negb_false_iff, Z.eqb_eq, Z.bits_inj'. intros i Hi. rewrite Z.land_spec, Z.bits_0, Z.pow2_bits_eqb by done.
    destruct (Z.eqb_spec k i) as [<-|]; [by rewrite Ht|apply andb_false_r].
Qed.

Lemma testbit_ones64 i : 0 <= i -> Z.testbit (2 ^ 64 - 1) i = (i <? 64).
Proof.
  intros. change (2 ^ 64 - 1) with (Z.ones 64).
  destruct (Z.ltb_spec i 64); [apply Z.ones_spec_low|apply Z.ones_spec_high]; lia.
Qed.

Lemma testbit_shiftl x n i : 0 <= i -> 0 <= n -> Z.testbit (Z.shiftl x n) i = (n <=? i) && Z.testbit x (i - n).
Proof.
  intros. rewrite Z.shiftl_spec by lia. destruct (Z.leb_spec n i); [done|].
  by rewrite Z.testbit_neg_r by lia.
Qed.

Lemma b2z_shiftl_bit b k i : 0 <= k -> 0 <= i -> Z.testbit (Z.shiftl (Z.b2z b) k) i = (i =? k) && b.
Proof.
  intros Hk Hi. rewrite testbit_shiftl by lia. destruct (Z.leb_spec k i).
  - destruct (Z.eqb_spec i k) as [->|]; [rewrite Z.sub_diag; by destruct b|].
    destruct b; cbn [Z.b2z andb]; [|apply Z.bits_0]. apply (testbit_above 1); [split; done|lia].
  - destruct (Z.eqb_spec i k); [lia|done].
Qed.

Lemma rotate_bits w x n i :
  is_word w x -> 0 <= n < w -> 0 <= i < w ->
  Z.testbit (Z.lor (wrap w (Z.shiftl x n)) (Z.shiftr x ((- n) mod w))) i =
  Z.testbit x ((i - n) mod w).
Proof.
  intros Hx Hn Hi. assert (0 <= (- n) mod w < w) by (apply Z.mod_pos_bound; lia).
  rewrite Z.lor_spec, Z.shiftr_spec, testbit_wrap, testbit_shiftl by lia.
  destruct (Z.eqb_spec n 0) as [->|].
  - rewrite Z.sub_0_r, Z.mod_0_l, Z.add_0_r, (Z.mod_small i) by lia. split_cmp; cbn.
    by destruct (Z.testbit x i).
  - replace ((- n) mod w) with (w - n) by (apply Z.mod_unique with (q := -1); lia).
    destruct (Z.lt_ge_cases i n).
    + replace ((i - n) mod w) with (i - n + w) by (apply Z.mod_unique with (q := -1); lia).
      replace (i + (w - n)) with (i - n + w) by lia. split_cmp; done.
    + rewrite (Z.mod_small (i - n)), (testbit_above w x (i + (w - n))) by (done || lia).
      rewrite orb_false_r. split_cmp; done.
Qed.

Lemma lxor_63 x : 0 <= x < 64 -> Z.lxor x 63 = 63 - x.
Proof.
  intros Hx. assert (Hw : is_word 6 x) by done.
  assert (Hl : Z.lxor x 63 = Z.ldiff 63 x).
  { apply Z.bits_inj'. intros i Hi. rewrite Z.lxor_spec, Z.ldiff_spec.
    change 63 with (Z.ones 6). destruct (Z.lt_ge_cases i 6).
    - rewrite Z.ones_spec_low by lia. apply xorb_true_r.
    - by rewrite Z.ones_spec_high, (testbit_above 6) by (done || lia). }
  rewrite Hl. symmetry. apply Z.sub_nocarry_ldiff. apply Z.bits_inj'. intros i Hi.
  rewrite Z.ldiff_spec, Z.bits_0. change 63 with (Z.ones 6). destruct (Z.lt_ge_cases i 6).
  - by rewrite Z.ones_spec_low, andb_false_r by lia.
  - by rewrite (testbit_above 6) by (done || lia).
Qed.

Lemma shiftl_u64 x n : 0 <= n -> u64 (Z.shiftl (u64 x) n) = u64 (Z.shiftl x n).
Proof. intros. unfold wrap. rewrite !Z.shiftl_mul_pow2 by lia. by rewrite Zmult_mod_idemp_l. Qed.

Lemma u32_u64 x : u32 (u64 x) = u32 x.
Proof. apply Z.mod_mod_divide. by exists (2 ^ 32). Qed.

Lemma s64_range x : - 2 ^ 63 <= s64 x < 2 ^ 63.
Proof. apply (sext_range 64). lia. Qed.

Lemma s32_range x : - 2 ^ 31 <= s32 x < 2 ^ 31.
Proof. apply (sext_range 32). lia. Qed.

Lemma s64_eq a : is_word 64 a -> s64 a = if a <? 2 ^ 63 then a else a - 2 ^ 64.
Proof. intros Ha. unfold sext. by rewrite wrap_small. Qed.

Lemma bnot64_eq a : is_word 64 a -> bnot 64 a = 2 ^ 64 - 1 - a.
Proof. intros. word_lia. Qed.

Lemma bnot64_word a : is_word 64 (bnot 64 a).
Proof. by apply wrap_range. Qed.

Lemma s64_bnot a : is_word 64 a -> s64 (bnot 64 a) = -1 - s64 a.
Proof. intros. rewrite bnot64_eq by done. word_lia. Qed.

Lemma shiftr_fits w x n : 0 < w -> 0 <= n -> - 2 ^ (w - 1) <= x < 2 ^ (w - 1) ->
  - 2 ^ (w - 1) <= Z.shiftr x n < 2 ^ (w - 1).
Proof.
  intros Hw Hn Hx. rewrite Z.shiftr_div_pow2 by lia.
  assert (0 < 2 ^ n) by (apply Z.pow_pos_nonneg; lia).
  split; [apply Z.div_le_lower_bound|apply Z.div_lt_upper_bound]; nia.
Qed.

(** Shifting back compares the word without its low [n] bits with the word. *)
Lemma shift_back_wrap w x n :
  0 <= n -> 0 < w -> - 2 ^ (w - 1) <= x < 2 ^ (w - 1) ->
  (wrap w (Z.shiftl (Z.shiftr x n) n) =? wrap w x) = (x mod 2 ^ n =? 0).
Proof.
  intros Hn Hw Hx. rewrite Z.shiftr_div_pow2, Z.shiftl_mul_pow2 by lia.
  assert (Hp : 0 < 2 ^ n) by (apply Z.pow_pos_nonneg; lia).
  assert (H2 : 2 ^ w = 2 * 2 ^ (w - 1)) by (rewrite <- Z.pow_succ_r by lia; f_equal; lia).
  pose proof (Z.div_mod x (2 ^ n) ltac:(lia)) as Hd. pose proof (Z.mod_pos_bound x (2 ^ n) Hp) as Hm.
  destruct (Z.eqb_spec (x mod 2 ^ n) 0) as [H0|H0].
  - apply Z.eqb_eq. f_equal. lia.
  - apply Z.eqb_neq. intros Heq. apply H0. unfold wrap in Heq.
    destruct (Z.lt_ge_cases n w) as [Hlt|Hge].
    + assert (Hd2 : (2 ^ n | 2 ^ w)).
      { exists (2 ^ (w - n)). rewrite <- Z.pow_add_r by lia. f_equal. lia. }
      assert (H1 : (x / 2 ^ n * 2 ^ n) mod 2 ^ n = x mod 2 ^ n).
      { rewrite <- (Z.mod_mod_divide (x / 2 ^ n * 2 ^ n) (2 ^ w) (2 ^ n)), Heq by done.
        by apply Z.mod_mod_divide. }
      by rewrite Z.mod_mul in H1 by lia.
    + assert (Hd2 : (2 ^ w | x / 2 ^ n * 2 ^ n)).
      { exists (x / 2 ^ n * 2 ^ (n - w)). rewrite <- Z.mul_assoc, <- Z.pow_add_r by lia. do 2 f_equal. lia. }
      apply Z.mod_divide in Hd2; [|lia]. rewrite Hd2 in Heq. symmetry in Heq. 
      apply Z.mod_divide in Heq as [k Hk]; [|lia].
      assert (k = 0) by nia. subst k. rewrite Hk. by rewrite Z.mod_0_l by lia.
Qed.

Lemma div_quot a b : b <> 0 -> a = b * Z.quot a b + Z.rem a b /\ Z.abs (Z.rem a b) < Z.abs b /\ 0 <= Z.rem a b * a.
Proof.
  intros Hb. split_and!.
  - apply Z.quot_rem. done.
  - pose proof (Z.rem_bound_abs a b Hb). lia.
  - apply Z.rem_sign_mul. done.
Qed.

Lemma quot_range w a b : 0 < w -> b <> 0 -> - 2 ^ w <= a < 2 ^ w -> ~ (a = - 2 ^ w /\ b = -1) ->
  - 2 ^ w <= Z.quot a b < 2 ^ w.
Proof.
  intros Hw Hb Ha Hn. destruct (div_quot a b Hb) as (H1 & H2 & H3).
  set (q := Z.quot a b) in *. set (r := Z.rem a b) in *. clearbody q r.
  assert (Hq : Z.abs q <= Z.abs a).
  { destruct (Z.eq_dec q 0); [lia|]. assert (Z.abs (b * q) <= Z.abs a); [|rewrite Z.abs_mul in *; nia]. nia. }
  destruct (Z.eq_dec (Z.abs q) (2 ^ w)) as [He|]; [|lia].
  destruct (Z.eq_dec q (- 2 ^ w)); [lia|]. exfalso. assert (q = 2 ^ w) by lia. assert (a = - 2 ^ w) by lia.
  assert (b = -1); [nia|lia].
Qed.

Lemma quot_floor_fix a n : 0 < n ->
  Z.quot a n = a / n + Z.b2z ((a <? 0) && negb (a mod n =? 0)).
Proof.
  intros Hn. pose proof (Z.quot_rem' a n) as Hq.
  assert (Hr : Z.rem a n = a mod n - n * Z.b2z ((a <? 0) && negb (a mod n =? 0))).
  2:{ pose proof (Z.div_mod a n ltac:(lia)). nia. }
  pose proof (Z.mod_pos_bound a n Hn) as Hm. pose proof (Z.div_mod a n ltac:(lia)) as Hdm.
  destruct (Z.ltb_spec a 0); cbn [andb].
  - rewrite <- (Z.opp_involutive a), Z.rem_opp_l, Z.rem_mod_nonneg, Z.opp_involutive by lia.
    destruct (Z.eqb_spec (a mod n) 0) as [H0|H0]; cbn [negb Z.b2z].
    + rewrite Z.mod_opp_l_z, H0 by lia. lia.
    + rewrite Z.mod_opp_l_nz by lia. lia.
  - rewrite Z.rem_mod_nonneg by lia. cbn [Z.b2z]. lia.
Qed.

Lemma lor_concat x k z : 0 <= k -> is_word k z -> Z.lor (x * 2 ^ k) z = x * 2 ^ k + z.
Proof.
  intros Hk Hz. rewrite <- Z.shiftl_mul_pow2 by done.
  assert (H : Z.land (Z.shiftl x k) z = 0).
  { apply Z.bits_inj'. intros i Hi. rewrite Z.land_spec, testbit_shiftl, Z.bits_0 by done.
    destruct (Z.leb_spec k i); [|done]. by rewrite (testbit_above k z), andb_false_r by (done || lia). }
  rewrite Z.add_nocarry_lxor by done. symmetry. by apply Z.lxor_lor.
Qed.

Create HintDb word.
#[export] Hint Resolve wrap_range land_word lor_word lxor_word shiftr_word : word.
#[export] Hint Extern 1 (0 <= _) => lia : word.

(** ** Arrays of fixed extent, indexed by a machine integer *)

Definition upd {A} (f : Z -> A) (k : Z) (v : A) : Z -> A :=
  fun x => if x =? k then v else f x.

(** What a run leaves, as far as [f] shows it. *)
Lemma run_view {A B} (r : option A) (f : A -> B) v : f <$> r = Some v -> exists s, r = Some s /\ f s = v.
Proof. destruct r as [s|]; [|done]. intros [= <-]. by exists s. Qed.

Lemma upd_eq {A} (f : Z -> A) k v : upd f k v k = v.
Proof. unfold upd. by rewrite Z.eqb_refl. Qed.

Lemma upd_ne {A} (f : Z -> A) k v x : x <> k -> upd f k v x = f x.
Proof. unfold upd. intros. by destruct (Z.eqb_spec x k). Qed.

Lemma upd_all {A} (P : A -> Prop) (f : Z -> A) k v :
  (forall i, P (f i)) -> P v -> forall i, P (upd f k v i).
Proof. intros Hf Hv i. unfold upd. by destruct (_ =? _). Qed.

Create Rewrite HintDb upd.
#[export] Hint Rewrite @upd_eq : upd.
#[export] Hint Rewrite @upd_ne using (done || lia) : upd.

(** ** The entries of a list of options *)

Lemma omap_insert_perm {A} i (x : A) l : l !! i = Some None -> omap id (<[i := Some x]> l) ≡ₚ x :: omap id l.
Proof.
  intros Hi. rewrite <- (take_drop_middle l i None Hi) at 2. rewrite insert_take_drop by (eapply lookup_lt_Some; exact Hi).
  rewrite !omap_app. cbn. now rewrite Permutation_middle.
Qed.

Lemma omap_delete_perm {A} i (x : A) l : l !! i = Some (Some x) -> omap id l ≡ₚ x :: omap id (<[i := None]> l).
Proof.
  intros Hi. rewrite <- (take_drop_middle l i (Some x) Hi) at 1. rewrite insert_take_drop by (eapply lookup_lt_Some; exact Hi).
  rewrite !omap_app. cbn. now rewrite Permutation_middle.
Qed.
