(* ===== verification/PpuState.v ===== *)
(** * PPU interpreter: thread state, opcode fields, condition and overflow updates

    Models the parts of [rpcs3/Emu/Cell/PPUInterpreter.cpp] that all
    instruction handlers share ([ppu_cr_set], [ppu_ov_set], [add64_flags],
    [ppu_record_call]), the register file of
    [rpcsx/cpu/cell/ppu/.../PPUContext.hpp] and the opcode accessors and
    [ppu_rotate_mask] of [rpcs3/Emu/Cell/PPUOpcodes.h].

    Integers are [Z] with the width's wrap-around written out: a register of
    type [u64] holds a value in [0, 2^64), conversions are [u64], [s64], [u32]
    and so on of the prelude.  Signed multiplication is two's complement. *)
From S2P Require Import Prelude.

(** ** Settings read by the handlers

    [g_cfg.core.ppu_debug] and the run-time selected template flags
    [set_call_history] and [use_feed_data] of [ppu_interpreter_rt_base]. *)
Class PpuConfig := {
  ppu_debug : bool;
  set_call_history : bool;
  use_feed_data : bool
}.

(** The template flags that the decoder chooses per instruction. *)
Record exec_flags := Flags { has_oe : bool; has_rc : bool }.

(** ** Thread state *)

Record call_history_t := CallHistory {
  ch_data : list Z;
  ch_index : Z;
  ch_last_r1 : Z;
  ch_last_r2 : Z
}.

Definition call_history_max_size : Z := 4096.

Record ppu_thread := MkPpu {
  gpr : Z -> Z; (* u64 gpr[32] *)
  fpr : Z -> Z; (* bit patterns of double fpr[32] *)
  vr : Z -> Z; (* v128 vr[32] *)
  cr : Z -> Z; (* u8 cr.bits[32] *)
  lr : Z;
  ctr : Z;
  vrsave : Z;
  cia : Z;
  xer_so : bool;
  xer_ov : bool;
  xer_ca : bool;
  xer_cnt : Z;
  raddr : Z;
  res_cached : Z;
  rdata : Z -> Z; (* std::byte rdata[128] *)
  use_full_rdata : bool;
  state : Z; (* cpu_thread::state, non-zero when the thread must stop *)
  exec_bytes : Z;
  call_history : call_history_t;
  mem : Z -> Z; (* guest memory, one byte per address *)
  stat : Z -> Z (* the u32 statistics cells at vm::g_stat_addr *)
}.

Definition set_gpr (v : Z -> Z) (s : ppu_thread) : ppu_thread :=
  MkPpu v (fpr s) (vr s) (cr s) (lr s) (ctr s) (vrsave s) (cia s) (xer_so s) (xer_ov s) (xer_ca s)
    (xer_cnt s) (raddr s) (res_cached s) (rdata s) (use_full_rdata s) (state s) (exec_bytes s)
    (call_history s) (mem s) (stat s).

Definition set_fpr (v : Z -> Z) (s : ppu_thread) : ppu_thread :=
  MkPpu (gpr s) v (vr s) (cr s) (lr s) (ctr s) (vrsave s) (cia s) (xer_so s) (xer_ov s) (xer_ca s)
    (xer_cnt s) (raddr s) (res_cached s) (rdata s) (use_full_rdata s) (state s) (exec_bytes s)
    (call_history s) (mem s) (stat s).

Definition set_vr (v : Z -> Z) (s : ppu_thread) : ppu_thread :=
  MkPpu (gpr s) (fpr s) v (cr s) (lr s) (ctr s) (vrsave s) (cia s) (xer_so s) (xer_ov s) (xer_ca
    s) (xer_cnt s) (raddr s) (res_cached s) (rdata s) (use_full_rdata s) (state s) (exec_bytes
    s) (call_history s) (mem s) (stat s).

Definition set_cr (v : Z -> Z) (s : ppu_thread) : ppu_thread :=
  MkPpu (gpr s) (fpr s) (vr s) v (lr s) (ctr s) (vrsave s) (cia s) (xer_so s) (xer_ov s) (xer_ca
    s) (xer_cnt s) (raddr s) (res_cached s) (rdata s) (use_full_rdata s) (state s) (exec_bytes
    s) (call_history s) (mem s) (stat s).

Definition set_lr (v : Z) (s : ppu_thread) : ppu_thread :=
  MkPpu (gpr s) (fpr s) (vr s) (cr s) v (ctr s) (vrsave s) (cia s) (xer_so s) (xer_ov s) (xer_ca
    s) (xer_cnt s) (raddr s) (res_cached s) (rdata s) (use_full_rdata s) (state s) (exec_bytes
    s) (call_history s) (mem s) (stat s).

Definition set_ctr (v : Z) (s : ppu_thread) : ppu_thread :=
  MkPpu (gpr s) (fpr s) (vr s) (cr s) (lr s) v (vrsave s) (cia s) (xer_so s) (xer_ov s) (xer_ca s)
    (xer_cnt s) (raddr s) (res_cached s) (rdata s) (use_full_rdata s) (state s) (exec_bytes s)
    (call_history s) (mem s) (stat s).

Definition set_vrsave (v : Z) (s : ppu_thread) : ppu_thread :=
  MkPpu (gpr s) (fpr s) (vr s) (cr s) (lr s) (ctr s) v (cia s) (xer_so s) (xer_ov s) (xer_ca s)
    (xer_cnt s) (raddr s) (res_cached s) (rdata s) (use_full_rdata s) (state s) (exec_bytes s)
    (call_history s) (mem s) (stat s).

Definition set_cia (v : Z) (s : ppu_thread) : ppu_thread :=
  MkPpu (gpr s) (fpr s) (vr s) (cr s) (lr s) (ctr s) (vrsave s) v (xer_so s) (xer_ov s) (xer_ca s)
    (xer_cnt s) (raddr s) (res_cached s) (rdata s) (use_full_rdata s) (state s) (exec_bytes s)
    (call_history s) (mem s) (stat s).

Definition set_xer_so (v : bool) (s : ppu_thread) : ppu_thread :=
  MkPpu (gpr s) (fpr s) (vr s) (cr s) (lr s) (ctr s) (vrsave s) (cia s) v (xer_ov s) (xer_ca s)
    (xer_cnt s) (raddr s) (res_cached s) (rdata s) (use_full_rdata s) (state s) (exec_bytes s)
    (call_history s) (mem s) (stat s).

Definition set_xer_ov (v : bool) (s : ppu_thread) : ppu_thread :=
  MkPpu (gpr s) (fpr s) (vr s) (cr s) (lr s) (ctr s) (vrsave s) (cia s) (xer_so s) v (xer_ca s)
    (xer_cnt s) (raddr s) (res_cached s) (rdata s) (use_full_rdata s) (state s) (exec_bytes s)
    (call_history s) (mem s) (stat s).

Definition set_xer_ca (v : bool) (s : ppu_thread) : ppu_thread :=
  MkPpu (gpr s) (fpr s) (vr s) (cr s) (lr s) (ctr s) (vrsave s) (cia s) (xer_so s) (xer_ov s) v
    (xer_cnt s) (raddr s) (res_cached s) (rdata s) (use_full_rdata s) (state s) (exec_bytes s)
    (call_history s) (mem s) (stat s).

Definition set_xer_cnt (v : Z) (s : ppu_thread) : ppu_thread :=
  MkPpu (gpr s) (fpr s) (vr s) (cr s) (lr s) (ctr s) (vrsave s) (cia s) (xer_so s) (xer_ov s)
    (xer_ca s) v (raddr s) (res_cached s) (rdata s) (use_full_rdata s) (state s) (exec_bytes
    s) (call_history s) (mem s) (stat s).

Definition set_raddr (v : Z) (s : ppu_thread) : ppu_thread :=
  MkPpu (gpr s) (fpr s) (vr s) (cr s) (lr s) (ctr s) (vrsave s) (cia s) (xer_so s) (xer_ov s)
    (xer_ca s) (xer_cnt s) v (res_cached s) (rdata s) (use_full_rdata s) (state s) (exec_bytes
    s) (call_history s) (mem s) (stat s).

Definition set_res_cached (v : Z) (s : ppu_thread) : ppu_thread :=
  MkPpu (gpr s) (fpr s) (vr s) (cr s) (lr s) (ctr s) (vrsave s) (cia s) (xer_so s) (xer_ov s)
    (xer_ca s) (xer_cnt s) (raddr s) v (rdata s) (use_full_rdata s) (state s) (exec_bytes s)
    (call_history s) (mem s) (stat s).

Definition set_exec_bytes (v : Z) (s : ppu_thread) : ppu_thread :=
  MkPpu (gpr s) (fpr s) (vr s) (cr s) (lr s) (ctr s) (vrsave s) (cia s) (xer_so s) (xer_ov s)
    (xer_ca s) (xer_cnt s) (raddr s) (res_cached s) (rdata s) (use_full_rdata s) (state s) v
    (call_history s) (mem s) (stat s).

Definition set_history (v : call_history_t) (s : ppu_thread) : ppu_thread :=
  MkPpu (gpr s) (fpr s) (vr s) (cr s) (lr s) (ctr s) (vrsave s) (cia s) (xer_so s) (xer_ov s)
    (xer_ca s) (xer_cnt s) (raddr s) (res_cached s) (rdata s) (use_full_rdata s) (state s)
    (exec_bytes s) v (mem s) (stat s).

Definition set_mem (v : Z -> Z) (s : ppu_thread) : ppu_thread :=
  MkPpu (gpr s) (fpr s) (vr s) (cr s) (lr s) (ctr s) (vrsave s) (cia s) (xer_so s) (xer_ov s)
    (xer_ca s) (xer_cnt s) (raddr s) (res_cached s) (rdata s) (use_full_rdata s) (state s)
    (exec_bytes s) (call_history s) v (stat s).

Definition set_stat (v : Z -> Z) (s : ppu_thread) : ppu_thread :=
  MkPpu (gpr s) (fpr s) (vr s) (cr s) (lr s) (ctr s) (vrsave s) (cia s) (xer_so s) (xer_ov s)
    (xer_ca s) (xer_cnt s) (raddr s) (res_cached s) (rdata s) (use_full_rdata s) (state s)
    (exec_bytes s) (call_history s) (mem s) v.

(** Register writes of the handlers. *)
Definition set_gpr_at (i v : Z) (s : ppu_thread) : ppu_thread := set_gpr (upd (gpr s) i v) s.
Definition set_vr_at (i v : Z) (s : ppu_thread) : ppu_thread := set_vr (upd (vr s) i v) s.
Definition set_fpr_at (i v : Z) (s : ppu_thread) : ppu_thread := set_fpr (upd (fpr s) i v) s.
Definition set_cr_at (i v : Z) (s : ppu_thread) : ppu_thread := set_cr (upd (cr s) i v) s.

(** ** Opcode fields ([ppu_opcode_t]); bit 0 is the most significant *)

Definition ppu_bf (op i n : Z) : Z := Z.land (Z.shiftr op (32 - n - i)) (2 ^ n - 1).
Definition ppu_bf_s (op i n : Z) : Z := sext n (ppu_bf op i n).

Definition op_main (op : Z) := ppu_bf op 0 6.
Definition op_sh64 (op : Z) := Z.lor (Z.shiftl (ppu_bf op 30 1) 5) (ppu_bf op 16 5).
Definition op_mbe64 (op : Z) := Z.lor (Z.shiftl (ppu_bf op 26 1) 5) (ppu_bf op 21 5).
Definition op_vs (op : Z) := ppu_bf op 6 5.
Definition op_oe (op : Z) : bool := negb (ppu_bf op 21 1 =? 0).
Definition op_spr (op : Z) := ppu_bf op 11 10.
Definition op_vd (op : Z) := ppu_bf op 6 5.
Definition op_lk (op : Z) : bool := negb (ppu_bf op 31 1 =? 0).
Definition op_aa (op : Z) : bool := negb (ppu_bf op 30 1 =? 0).
Definition op_rb (op : Z) := ppu_bf op 16 5.
Definition op_ra (op : Z) := ppu_bf op 11 5.
Definition op_rd (op : Z) := ppu_bf op 6 5.
Definition op_uimm16 (op : Z) := ppu_bf op 16 16.
Definition op_l11 (op : Z) : bool := negb (ppu_bf op 11 1 =? 0).
Definition op_rs (op : Z) := ppu_bf op 6 5.
Definition op_simm16 (op : Z) := ppu_bf_s op 16 16.
Definition op_crfs (op : Z) := ppu_bf op 11 3.
Definition op_l10 (op : Z) : bool := negb (ppu_bf op 10 1 =? 0).
Definition op_crfd (op : Z) := ppu_bf op 6 3.
Definition op_crbb (op : Z) := ppu_bf op 16 5.
Definition op_crba (op : Z) := ppu_bf op 11 5.
Definition op_crbd (op : Z) := ppu_bf op 6 5.
Definition op_rc (op : Z) : bool := negb (ppu_bf op 31 1 =? 0).
Definition op_me32 (op : Z) := ppu_bf op 26 5.
Definition op_mb32 (op : Z) := ppu_bf op 21 5.
Definition op_sh32 (op : Z) := ppu_bf op 16 5.
Definition op_bi (op : Z) := ppu_bf op 11 5.
Definition op_bo (op : Z) := ppu_bf op 6 5.
Definition op_frd (op : Z) := ppu_bf op 6 5.
Definition op_crm (op : Z) := ppu_bf op 12 8.
Definition op_frs (op : Z) := ppu_bf op 6 5.
(** The branch displacements: signed field followed by two zero bits. *)
Definition op_bt14 (op : Z) := Z.shiftl (ppu_bf_s op 16 14) 2.
Definition op_bt24 (op : Z) := Z.shiftl (ppu_bf_s op 6 24) 2.

(** ** Bit helpers *)

Definition ppu_rotate_mask (mb me : Z) : Z :=
  let mask := u64 (Z.shiftl (2 ^ 64 - 1) (Z.land (bnot 32 (u32 (me - mb))) 63)) in
  Z.lor (Z.shiftr mask (Z.land mb 63)) (u64 (Z.shiftl mask (Z.land (u32 (64 - mb)) 63))).

Definition dup32 (x : Z) : Z := Z.lor x (Z.shiftl x 32).

Definition rol32 (x n : Z) : Z :=
  Z.lor (u32 (Z.shiftl x (Z.land n 31))) (Z.shiftr x (Z.land (u32 (0 - n)) 31)).

Definition rol64 (x n : Z) : Z :=
  Z.lor (u64 (Z.shiftl x (Z.land n 63))) (Z.shiftr x (Z.land (u64 (0 - n)) 63)).

(** High halves of the 128-bit products; [mulh64] takes signed operands. *)
Definition umulh64 (x y : Z) : Z := u64 (Z.shiftr (x * y) 64).
Definition mulh64 (x y : Z) : Z := s64 (Z.shiftr (x * y) 64).

(** [add_flags_result_t<u64>] (result, carry): the two and three operand forms. *)
Definition add64_flags (a b : Z) : Z * bool :=
  let r := u64 (a + b) in (r, r <? a).

Definition add64_flags_c (a b : Z) (c : bool) : Z * bool :=
  let '(r0, c0) := add64_flags a b in
  let '(r1, c1) := add64_flags r0 (Z.b2z c) in
  (r1, c0 || c1).

(** ** Condition register and XER updates *)

Definition cr_word (s : ppu_thread) (field : Z) : Z :=
  Z.lor (Z.lor (cr s (field * 4)) (Z.shiftl (cr s (field * 4 + 1)) 8))
        (Z.lor (Z.shiftl (cr s (field * 4 + 2)) 16) (Z.shiftl (cr s (field * 4 + 3)) 24)).

Section Updates.
Context `{Cfg : PpuConfig}.

Definition ppu_cr_set (field : Z) (le gt eq so : bool) (s : ppu_thread) : ppu_thread :=
  let s := set_cr_at (field * 4 + 0) (Z.b2z le) s in
  let s := set_cr_at (field * 4 + 1) (Z.b2z gt) s in
  let s := set_cr_at (field * 4 + 2) (Z.b2z eq) s in
  let s := set_cr_at (field * 4 + 3) (Z.b2z so) s in
  if ppu_debug
  then set_stat (upd (stat s) (cia s) (Z.lor (stat s (cia s)) (cr_word s field))) s
  else s.

(** [ppu_cr_set<T>]: [a] and [b] are already converted to [T]. *)
Definition ppu_cr_cmp (field a b : Z) (s : ppu_thread) : ppu_thread :=
  ppu_cr_set field (a <? b) (b <? a) (a =? b) (xer_so s) s.

(** [if constexpr (has_rc) ppu_cr_set<s64>(ppu, 0, v, 0)]. *)
Definition record_cr0 (fl : exec_flags) (v : Z) (s : ppu_thread) : ppu_thread :=
  if has_rc fl then ppu_cr_cmp 0 (s64 v) 0 s else s.

Definition ppu_ov_set (bit : bool) (s : ppu_thread) : ppu_thread :=
  let s := set_xer_ov bit s in
  set_xer_so (xer_so s || bit) s.

(** [if constexpr (has_oe) ppu_ov_set(ppu, bit)]. *)
Definition record_ov (fl : exec_flags) (bit : bool) (s : ppu_thread) : ppu_thread :=
  if has_oe fl then ppu_ov_set bit s else s.

(** [ppu_record_call]; the vector write happens at [index % 4096]. *)
Definition ppu_record_call (new_cia op : Z) (indirect : bool) (s : ppu_thread) : ppu_thread :=
  let h := call_history s in
  if negb set_call_history then s
  else match ch_data h with
  | [] => s
  | _ =>
    let slot := Z.to_nat (ch_index h mod call_history_max_size) in
    let push := <[slot := new_cia]> (ch_data h) in
    if negb (op_lk op) then
      if indirect && (gpr s 1 =? ch_last_r1 h) && negb (gpr s 2 =? ch_last_r2 h)
      then set_history
             (CallHistory push (u64 (ch_index h + 1)) (2 ^ 64 - 1) (gpr s 2)) s
      else s
    else set_history
           (CallHistory push (u64 (ch_index h + 1)) (gpr s 1) (gpr s 2)) s
  end.
End Updates.

(** ** Outcome of one handler *)

Inductive ppu_error :=
| NarrowingError (addr : Z)
| UnknownSpr (n : Z)
| IllegalSyscall (opcode : Z)
| IllegalOpcode (opcode : Z)
| InvalidR0Base (opcode : Z)
| InvalidMfocrf (crm : Z)
| Unimplemented (opcode : Z)
| BufferOverread (offset : Z). (* [memcmp] past the end of a local buffer: undefined behaviour *)

Inductive outcome :=
| Next (s : ppu_thread)              (* tail call of the next instruction's handler *)
| Return (s : ppu_thread)            (* back to the dispatcher, which continues at [cia] *)
| NextUpdate (s : ppu_thread) (addr : Z) (* [vm::reservation_update(addr)], then the next handler *)
| Trap (s : ppu_thread) (addr : Z)   (* [ppu_trap], then back to the dispatcher *)
| Syscall (s : ppu_thread) (code : Z) (* [ppu_execute_syscall] *)
| Throw (s : ppu_thread) (e : ppu_error). (* C++ exception *)

Definition out_state (o : outcome) : ppu_thread :=
  match o with
  | Next s | Return s | NextUpdate s _ | Trap s _ | Syscall s _ | Throw s _ => s
  end.

(** ** Reasoning about states *)

Ltac state_cbn :=
  cbn [gpr fpr vr cr lr ctr vrsave cia xer_so xer_ov xer_ca xer_cnt raddr res_cached rdata
       use_full_rdata state exec_bytes call_history mem stat
       set_gpr set_fpr set_vr set_cr set_lr set_ctr set_vrsave set_cia set_xer_so set_xer_ov
       set_xer_ca set_xer_cnt set_raddr set_res_cached set_exec_bytes set_history set_mem set_stat
       set_gpr_at set_vr_at set_fpr_at set_cr_at ppu_ov_set fst snd].

Definition gpr_wf (s : ppu_thread) : Prop := forall i, is_word 64 (gpr s i).
Definition cr_wf (s : ppu_thread) : Prop := forall i, cr s i = 0 \/ cr s i = 1.

Section UpdateLemmas.
Context `{Cfg : PpuConfig}.
Implicit Types (fl : exec_flags) (s : ppu_thread).

Lemma gpr_cr_cmp f a b s : gpr (ppu_cr_cmp f a b s) = gpr s.
Proof. unfold ppu_cr_cmp, ppu_cr_set. by destruct ppu_debug. Qed.
Lemma xer_cr_cmp f a b s :
  xer_so (ppu_cr_cmp f a b s) = xer_so s /\ xer_ov (ppu_cr_cmp f a b s) = xer_ov s /\
  xer_ca (ppu_cr_cmp f a b s) = xer_ca s.
Proof. unfold ppu_cr_cmp, ppu_cr_set. by destruct ppu_debug. Qed.
Lemma gpr_record_cr0 fl v s : gpr (record_cr0 fl v s) = gpr s.
Proof. unfold record_cr0. destruct (has_rc fl); [apply gpr_cr_cmp|done]. Qed.
Lemma xer_so_record_cr0 fl v s : xer_so (record_cr0 fl v s) = xer_so s.
Proof. unfold record_cr0. destruct (has_rc fl); [apply xer_cr_cmp|done]. Qed.
Lemma xer_ov_record_cr0 fl v s : xer_ov (record_cr0 fl v s) = xer_ov s.
Proof. unfold record_cr0. destruct (has_rc fl); [apply xer_cr_cmp|done]. Qed.
Lemma xer_ca_record_cr0 fl v s : xer_ca (record_cr0 fl v s) = xer_ca s.
Proof. unfold record_cr0. destruct (has_rc fl); [apply xer_cr_cmp|done]. Qed.
Lemma gpr_record_ov fl b s : gpr (record_ov fl b s) = gpr s.
Proof. unfold record_ov. by destruct (has_oe fl). Qed.
Lemma xer_ca_record_ov fl b s : xer_ca (record_ov fl b s) = xer_ca s.
Proof. unfold record_ov. by destruct (has_oe fl). Qed.
End UpdateLemmas.

Create Rewrite HintDb ppu.
#[export] Hint Rewrite @gpr_record_cr0 @xer_so_record_cr0 @xer_ov_record_cr0 @xer_ca_record_cr0
  @gpr_record_ov @xer_ca_record_ov @upd_eq : ppu.
Ltac ppu_simpl := repeat (state_cbn; autorewrite with ppu).

(** ** Ranges of opcode fields *)

Lemma ppu_bf_range op i n : 0 <= n -> 0 <= ppu_bf op i n < 2 ^ n.
Proof. intros. unfold ppu_bf. rewrite land_pow2m1 by done. apply Z.mod_pos_bound, Z.pow_pos_nonneg; lia. Qed.
Lemma ppu_bf_small op i n k : 0 <= n -> 2 ^ n <= k -> 0 <= ppu_bf op i n < k.
Proof. intros. pose proof (ppu_bf_range op i n). lia. Qed.
Lemma field6_range a b : 0 <= a < 2 -> 0 <= b < 32 -> 0 <= Z.lor (Z.shiftl a 5) b < 64.
Proof.
  intros Ha Hb. apply (lor_word 6); [lia| |unfold is_word; lia].
  rewrite Z.shiftl_mul_pow2 by lia. unfold is_word. lia.
Qed.
Lemma op_sh32_range op : 0 <= op_sh32 op < 32.
Proof. by apply ppu_bf_small. Qed.
Lemma op_sh64_range op : 0 <= op_sh64 op < 64.
Proof. apply field6_range; by apply ppu_bf_small. Qed.
Lemma op_mbe64_range op : 0 <= op_mbe64 op < 64.
Proof. apply field6_range; by apply ppu_bf_small. Qed.
Lemma op_mb32_range op : 0 <= op_mb32 op < 32.
Proof. by apply ppu_bf_small. Qed.
Lemma op_me32_range op : 0 <= op_me32 op < 32.
Proof. by apply ppu_bf_small. Qed.

(** ** A concrete thread and configuration, for evaluation *)

Definition config (debug history feed : bool) : PpuConfig :=
  {| ppu_debug := debug; set_call_history := history; use_feed_data := feed |}.

Definition blank_thread : ppu_thread :=
  MkPpu (fun _ => 0) (fun _ => 0) (fun _ => 0) (fun _ => 0) 0 0 (2 ^ 32 - 1) 0 false false false 0 0 0
    (fun _ => 0) false 0 0 (CallHistory [] 0 0 0) (fun _ => 0) (fun _ => 0).

(** Registers from a list of (index, value) pairs. *)
Definition with_gpr (l : list (Z * Z)) (s : ppu_thread) : ppu_thread :=
  fold_left (fun s iv => set_gpr_at iv.1 iv.2 s) l s.

Lemma with_gpr_wf l s :
  gpr_wf s -> forallb (fun iv : Z * Z => (0 <=? iv.2) && (iv.2 <? 2 ^ 64)) l = true -> gpr_wf (with_gpr l s).
Proof.
  revert s. induction l as [|[i v] l IH]; intros s Hs Hl; [done|]. cbn [forallb snd] in Hl.
  apply andb_prop in Hl as [Hv Hl]. apply IH; [|done]. unfold gpr_wf. cbn [gpr set_gpr_at set_gpr fst snd].
  apply upd_all; [done|]. unfold is_word. lia.
Qed.

Lemma blank_gpr_wf : gpr_wf blank_thread.
Proof. split; done. Qed.
