(* ===== verification/PpuInt.v ===== *)
(** * PPU interpreter: fixed-point instructions

    The integer handlers of [rpcs3/Emu/Cell/PPUInterpreter.cpp], one definition
    per handler: immediate arithmetic and compares, traps, condition register
    logic, rotates, carrying arithmetic, multiply, divide, shifts, extensions
    and the special purpose register moves. *)
From S2P Require Import Prelude PpuState.

Section Int.
Context `{Cfg : PpuConfig}.
Implicit Types (op : Z) (fl : exec_flags) (s : ppu_thread).

(** ** Traps *)

Definition TDI (this_op op : Z) s : outcome :=
  let a := s64 (gpr s (op_ra op)) in
  let b := op_simm16 op in
  let a_ := u64 a in let b_ := u64 b in
  if (Z.testbit (op_bo op) 4 && (a <? b)) ||
     (Z.testbit (op_bo op) 3 && (b <? a)) ||
     (Z.testbit (op_bo op) 2 && (a =? b)) ||
     (Z.testbit (op_bo op) 1 && (a_ <? b_)) ||
     (Z.testbit (op_bo op) 0 && (b_ <? a_))
  then Trap s this_op else Next s.

Definition TWI (this_op op : Z) s : outcome :=
  let a := s32 (u32 (gpr s (op_ra op))) in
  let b := op_simm16 op in
  let a_ := u32 a in let b_ := u32 b in
  if (Z.testbit (op_bo op) 4 && (a <? b)) ||
     (Z.testbit (op_bo op) 3 && (b <? a)) ||
     (Z.testbit (op_bo op) 2 && (a =? b)) ||
     (Z.testbit (op_bo op) 1 && (a_ <? b_)) ||
     (Z.testbit (op_bo op) 0 && (b_ <? a_))
  then Trap s this_op else Next s.

Definition TW (this_op op : Z) s : outcome :=
  let a := s32 (gpr s (op_ra op)) in
  let b := s32 (gpr s (op_rb op)) in
  if ((a <? b) && Z.testbit (op_bo op) 4) ||
     ((b <? a) && Z.testbit (op_bo op) 3) ||
     ((a =? b) && Z.testbit (op_bo op) 2) ||
     ((u32 a <? u32 b) && Z.testbit (op_bo op) 1) ||
     ((u32 b <? u32 a) && Z.testbit (op_bo op) 0)
  then Trap s this_op else Next s.

Definition TD (this_op op : Z) s : outcome :=
  let a := s64 (gpr s (op_ra op)) in
  let b := s64 (gpr s (op_rb op)) in
  let a_ := u64 a in let b_ := u64 b in
  if (Z.testbit (op_bo op) 4 && (a <? b)) ||
     (Z.testbit (op_bo op) 3 && (b <? a)) ||
     (Z.testbit (op_bo op) 2 && (a =? b)) ||
     (Z.testbit (op_bo op) 1 && (a_ <? b_)) ||
     (Z.testbit (op_bo op) 0 && (b_ <? a_))
  then Trap s this_op else Next s.

(** ** Immediate arithmetic and compares *)

Definition MULLI op s :=
  set_gpr_at (op_rd op) (u64 (s64 (gpr s (op_ra op)) * op_simm16 op)) s.

Definition SUBFIC op s :=
  let a := gpr s (op_ra op) in
  let i := op_simm16 op in
  let r := add64_flags_c (bnot 64 a) (u64 i) true in
  let s := set_gpr_at (op_rd op) r.1 s in
  set_xer_ca r.2 s.

Definition CMPLI op s :=
  if op_l10 op
  then ppu_cr_cmp (op_crfd op) (gpr s (op_ra op)) (op_uimm16 op) s
  else ppu_cr_cmp (op_crfd op) (u32 (gpr s (op_ra op))) (op_uimm16 op) s.

Definition CMPI op s :=
  if op_l10 op
  then ppu_cr_cmp (op_crfd op) (s64 (gpr s (op_ra op))) (op_simm16 op) s
  else ppu_cr_cmp (op_crfd op) (s32 (u32 (gpr s (op_ra op)))) (op_simm16 op) s.

Definition ADDIC op s :=
  let a := s64 (gpr s (op_ra op)) in
  let i := op_simm16 op in
  let r := add64_flags (u64 a) (u64 i) in
  let s := set_gpr_at (op_rd op) r.1 s in
  let s := set_xer_ca r.2 s in
  if negb (Z.land (op_main op) 1 =? 0) then ppu_cr_cmp 0 (s64 r.1) 0 s else s.

Definition ADDI op s :=
  set_gpr_at (op_rd op)
    (if negb (op_ra op =? 0) then u64 (gpr s (op_ra op) + op_simm16 op)
     else u64 (op_simm16 op)) s.

Definition ADDIS op s :=
  set_gpr_at (op_rd op)
    (if negb (op_ra op =? 0) then u64 (gpr s (op_ra op) + op_simm16 op * 65536)
     else u64 (op_simm16 op * 65536)) s.

(** ** Condition register logic *)

Definition MCRF op s :=
  let d := op_crfd op * 4 in let f := op_crfs op * 4 in
  set_cr (upd (upd (upd (upd (cr s) (d + 0) (cr s (f + 0))) (d + 1) (cr s (f + 1)))
                   (d + 2) (cr s (f + 2))) (d + 3) (cr s (f + 3))) s.

Definition CRNOR op s :=
  set_cr_at (op_crbd op) (Z.lxor (Z.lor (cr s (op_crba op)) (cr s (op_crbb op))) 1) s.
Definition CRANDC op s :=
  set_cr_at (op_crbd op) (Z.land (cr s (op_crba op)) (Z.lxor (cr s (op_crbb op)) 1)) s.
Definition CRXOR op s :=
  set_cr_at (op_crbd op) (Z.lxor (cr s (op_crba op)) (cr s (op_crbb op))) s.
Definition CRNAND op s :=
  set_cr_at (op_crbd op) (Z.lxor (Z.land (cr s (op_crba op)) (cr s (op_crbb op))) 1) s.
Definition CRAND op s :=
  set_cr_at (op_crbd op) (Z.land (cr s (op_crba op)) (cr s (op_crbb op))) s.
Definition CREQV op s :=
  set_cr_at (op_crbd op) (Z.lxor (Z.lxor (cr s (op_crba op)) (cr s (op_crbb op))) 1) s.
Definition CRORC op s :=
  set_cr_at (op_crbd op) (Z.lor (cr s (op_crba op)) (Z.lxor (cr s (op_crbb op)) 1)) s.
Definition CROR op s :=
  set_cr_at (op_crbd op) (Z.lor (cr s (op_crba op)) (cr s (op_crbb op))) s.

(** ** Rotates *)

Definition RLWIMI fl op s :=
  let mask := ppu_rotate_mask (32 + op_mb32 op) (32 + op_me32 op) in
  let v := Z.lor (Z.land (gpr s (op_ra op)) (bnot 64 mask))
                 (Z.land (dup32 (rol32 (u32 (gpr s (op_rs op))) (op_sh32 op))) mask) in
  record_cr0 fl v (set_gpr_at (op_ra op) v s).

Definition RLWINM fl op s :=
  let v := Z.land (dup32 (rol32 (u32 (gpr s (op_rs op))) (op_sh32 op)))
                  (ppu_rotate_mask (32 + op_mb32 op) (32 + op_me32 op)) in
  record_cr0 fl v (set_gpr_at (op_ra op) v s).

Definition RLWNM fl op s :=
  let v := Z.land (dup32 (rol32 (u32 (gpr s (op_rs op))) (Z.land (gpr s (op_rb op)) 0x1f)))
                  (ppu_rotate_mask (32 + op_mb32 op) (32 + op_me32 op)) in
  record_cr0 fl v (set_gpr_at (op_ra op) v s).

Definition RLDICL fl op s :=
  let v := Z.land (rol64 (gpr s (op_rs op)) (op_sh64 op))
                  (Z.shiftr (2 ^ 64 - 1) (op_mbe64 op)) in
  record_cr0 fl v (set_gpr_at (op_ra op) v s).

Definition RLDICR fl op s :=
  let v := Z.land (rol64 (gpr s (op_rs op)) (op_sh64 op))
                  (u64 (Z.shiftl (2 ^ 64 - 1) (Z.lxor (op_mbe64 op) 63))) in
  record_cr0 fl v (set_gpr_at (op_ra op) v s).

Definition RLDIC fl op s :=
  let v := Z.land (rol64 (gpr s (op_rs op)) (op_sh64 op))
                  (ppu_rotate_mask (op_mbe64 op) (Z.lxor (op_sh64 op) 63)) in
  record_cr0 fl v (set_gpr_at (op_ra op) v s).

Definition RLDIMI fl op s :=
  let mask := ppu_rotate_mask (op_mbe64 op) (Z.lxor (op_sh64 op) 63) in
  let v := Z.lor (Z.land (gpr s (op_ra op)) (bnot 64 mask))
                 (Z.land (rol64 (gpr s (op_rs op)) (op_sh64 op)) mask) in
  record_cr0 fl v (set_gpr_at (op_ra op) v s).

Definition RLDCL fl op s :=
  let v := Z.land (rol64 (gpr s (op_rs op)) (Z.land (gpr s (op_rb op)) 0x3f))
                  (Z.shiftr (2 ^ 64 - 1) (op_mbe64 op)) in
  record_cr0 fl v (set_gpr_at (op_ra op) v s).

Definition RLDCR fl op s :=
  let v := Z.land (rol64 (gpr s (op_rs op)) (Z.land (gpr s (op_rb op)) 0x3f))
                  (u64 (Z.shiftl (2 ^ 64 - 1) (Z.lxor (op_mbe64 op) 63))) in
  record_cr0 fl v (set_gpr_at (op_ra op) v s).

(** ** Logic *)

Definition ORI op s := set_gpr_at (op_ra op) (Z.lor (gpr s (op_rs op)) (op_uimm16 op)) s.
Definition ORIS op s :=
  set_gpr_at (op_ra op) (Z.lor (gpr s (op_rs op)) (Z.shiftl (op_uimm16 op) 16)) s.
Definition XORI op s := set_gpr_at (op_ra op) (Z.lxor (gpr s (op_rs op)) (op_uimm16 op)) s.
Definition XORIS op s :=
  set_gpr_at (op_ra op) (Z.lxor (gpr s (op_rs op)) (Z.shiftl (op_uimm16 op) 16)) s.
Definition ANDI op s :=
  let v := Z.land (gpr s (op_rs op)) (op_uimm16 op) in
  ppu_cr_cmp 0 (s64 v) 0 (set_gpr_at (op_ra op) v s).
Definition ANDIS op s :=
  let v := Z.land (gpr s (op_rs op)) (Z.shiftl (op_uimm16 op) 16) in
  ppu_cr_cmp 0 (s64 v) 0 (set_gpr_at (op_ra op) v s).

(** [ppu.gpr[op.ra] = v; if (has_rc) ppu_cr_set<s64>(ppu, 0, v, 0)]. *)
Definition put_ra fl op (v : Z) s := record_cr0 fl v (set_gpr_at (op_ra op) v s).

Definition AND fl op s := put_ra fl op (Z.land (gpr s (op_rs op)) (gpr s (op_rb op))) s.
Definition ANDC fl op s :=
  put_ra fl op (Z.land (gpr s (op_rs op)) (bnot 64 (gpr s (op_rb op)))) s.
Definition NOR fl op s :=
  put_ra fl op (bnot 64 (Z.lor (gpr s (op_rs op)) (gpr s (op_rb op)))) s.
Definition EQV fl op s :=
  put_ra fl op (bnot 64 (Z.lxor (gpr s (op_rs op)) (gpr s (op_rb op)))) s.
Definition XOR fl op s := put_ra fl op (Z.lxor (gpr s (op_rs op)) (gpr s (op_rb op))) s.
Definition ORC fl op s :=
  put_ra fl op (Z.lor (gpr s (op_rs op)) (bnot 64 (gpr s (op_rb op)))) s.
Definition OR fl op s := put_ra fl op (Z.lor (gpr s (op_rs op)) (gpr s (op_rb op))) s.
Definition NAND fl op s :=
  put_ra fl op (bnot 64 (Z.land (gpr s (op_rs op)) (gpr s (op_rb op)))) s.
Definition CNTLZW fl op s := put_ra fl op (countl_zero 32 (u32 (gpr s (op_rs op)))) s.
Definition CNTLZD fl op s := put_ra fl op (countl_zero 64 (gpr s (op_rs op))) s.
Definition EXTSH fl op s := put_ra fl op (u64 (s16 (gpr s (op_rs op)))) s.
Definition EXTSB fl op s := put_ra fl op (u64 (s8 (gpr s (op_rs op)))) s.
Definition EXTSW fl op s := put_ra fl op (u64 (s32 (gpr s (op_rs op)))) s.

(** ** Shifts *)

Definition SLW fl op s :=
  put_ra fl op (u32 (u64 (Z.shiftl (gpr s (op_rs op)) (Z.land (gpr s (op_rb op)) 0x3f)))) s.
Definition SRW fl op s :=
  put_ra fl op (Z.shiftr (Z.land (gpr s (op_rs op)) 0xffffffff)
                         (Z.land (gpr s (op_rb op)) 0x3f)) s.
Definition SLD fl op s :=
  let n := Z.land (gpr s (op_rb op)) 0x7f in
  put_ra fl op (if negb (Z.land n 0x40 =? 0) then 0
                else u64 (Z.shiftl (gpr s (op_rs op)) n)) s.
Definition SRD fl op s :=
  let n := Z.land (gpr s (op_rb op)) 0x7f in
  put_ra fl op (if negb (Z.land n 0x40 =? 0) then 0 else Z.shiftr (gpr s (op_rs op)) n) s.

Definition SRAW fl op s :=
  let RS := s32 (gpr s (op_rs op)) in
  let shift := Z.land (gpr s (op_rb op)) 63 in
  if 31 <? shift then
    let v := u64 (0 - Z.b2z (RS <? 0)) in
    record_cr0 fl v (set_xer_ca (RS <? 0) (set_gpr_at (op_ra op) v s))
  else
    let v := u64 (Z.shiftr RS shift) in
    record_cr0 fl v
      (set_xer_ca ((RS <? 0) && negb (u64 (Z.shiftl v shift) =? u64 RS))
        (set_gpr_at (op_ra op) v s)).

Definition SRAD fl op s :=
  let RS := s64 (gpr s (op_rs op)) in
  let shift := Z.land (gpr s (op_rb op)) 127 in
  if 63 <? shift then
    let v := u64 (0 - Z.b2z (RS <? 0)) in
    record_cr0 fl v (set_xer_ca (RS <? 0) (set_gpr_at (op_ra op) v s))
  else
    let v := u64 (Z.shiftr RS shift) in
    record_cr0 fl v
      (set_xer_ca ((RS <? 0) && negb (u64 (Z.shiftl v shift) =? u64 RS))
        (set_gpr_at (op_ra op) v s)).

Definition SRAWI fl op s :=
  let RS := s32 (u32 (gpr s (op_rs op))) in
  let v := u64 (Z.shiftr RS (op_sh32 op)) in
  record_cr0 fl v
    (set_xer_ca ((RS <? 0) && negb (u32 (u64 (Z.shiftl v (op_sh32 op))) =? u32 RS))
      (set_gpr_at (op_ra op) v s)).

Definition SRADI fl op s :=
  let sh := op_sh64 op in
  let RS := s64 (gpr s (op_rs op)) in
  let v := u64 (Z.shiftr RS sh) in
  record_cr0 fl v
    (set_xer_ca ((RS <? 0) && negb (u64 (Z.shiftl v sh) =? u64 RS))
      (set_gpr_at (op_ra op) v s)).

(** ** Register compares *)

Definition CMP op s :=
  if op_l10 op
  then ppu_cr_cmp (op_crfd op) (s64 (gpr s (op_ra op))) (s64 (gpr s (op_rb op))) s
  else ppu_cr_cmp (op_crfd op) (s32 (u32 (gpr s (op_ra op)))) (s32 (u32 (gpr s (op_rb op)))) s.

Definition CMPL op s :=
  if op_l10 op
  then ppu_cr_cmp (op_crfd op) (gpr s (op_ra op)) (gpr s (op_rb op)) s
  else ppu_cr_cmp (op_crfd op) (u32 (gpr s (op_ra op))) (u32 (gpr s (op_rb op))) s.

(** ** Add and subtract *)

(** Bit 63, [x >> 63]. *)
Definition sign64 (x : Z) : Z := Z.shiftr x 63.

(** The overflow test of the add and subtract handlers on the two addends. *)
Definition add_ov (a b r : Z) : bool :=
  (sign64 a =? sign64 b) && negb (sign64 a =? sign64 r).

Definition ADD fl op s :=
  let RA := gpr s (op_ra op) in let RB := gpr s (op_rb op) in
  let v := u64 (RA + RB) in
  let s := set_gpr_at (op_rd op) v s in
  let s := record_ov fl (add_ov RA RB v) s in
  record_cr0 fl v s.

Definition SUBF fl op s :=
  let RA := gpr s (op_ra op) in let RB := gpr s (op_rb op) in
  let v := u64 (RB - RA) in
  let s := set_gpr_at (op_rd op) v s in
  let s := record_ov fl (add_ov (bnot 64 RA) RB v) s in
  record_cr0 fl v s.

Definition NEG fl op s :=
  let RA := gpr s (op_ra op) in
  let v := u64 (0 - RA) in
  let s := set_gpr_at (op_rd op) v s in
  let s := record_ov fl (RA =? 2 ^ 63) s in
  record_cr0 fl v s.

(** [gpr[rd] = r.result; xer_ca = r.carry; OV; CR0], shared by the carrying forms. *)
Definition put_carry fl op (r : Z * bool) (ov : bool) s :=
  let s := set_gpr_at (op_rd op) r.1 s in
  let s := set_xer_ca r.2 s in
  let s := record_ov fl ov s in
  record_cr0 fl r.1 s.

Definition ADDC fl op s :=
  let RA := gpr s (op_ra op) in let RB := gpr s (op_rb op) in
  let r := add64_flags RA RB in
  put_carry fl op r (add_ov RA RB r.1) s.

Definition ADDE fl op s :=
  let RA := gpr s (op_ra op) in let RB := gpr s (op_rb op) in
  let r := add64_flags_c RA RB (xer_ca s) in
  put_carry fl op r (add_ov RA RB r.1) s.

Definition ADDZE fl op s :=
  let RA := gpr s (op_ra op) in
  let r := add64_flags_c RA 0 (xer_ca s) in
  put_carry fl op r ((sign64 RA =? 0) && negb (sign64 RA =? sign64 r.1)) s.

Definition ADDME fl op s :=
  let RA := s64 (gpr s (op_ra op)) in
  let r := add64_flags_c (u64 RA) (2 ^ 64 - 1) (xer_ca s) in
  put_carry fl op r ((sign64 (u64 RA) =? 1) && negb (sign64 (u64 RA) =? sign64 r.1)) s.

Definition SUBFC fl op s :=
  let RA := gpr s (op_ra op) in let RB := gpr s (op_rb op) in
  let r := add64_flags_c (bnot 64 RA) RB true in
  put_carry fl op r (add_ov (bnot 64 RA) RB r.1) s.

Definition SUBFE fl op s :=
  let RA := gpr s (op_ra op) in let RB := gpr s (op_rb op) in
  let r := add64_flags_c (bnot 64 RA) RB (xer_ca s) in
  put_carry fl op r (add_ov (bnot 64 RA) RB r.1) s.

Definition SUBFZE fl op s :=
  let RA := gpr s (op_ra op) in
  let r := add64_flags_c (bnot 64 RA) 0 (xer_ca s) in
  put_carry fl op r
    ((sign64 (bnot 64 RA) =? 0) && negb (sign64 (bnot 64 RA) =? sign64 r.1)) s.

Definition SUBFME fl op s :=
  let RA := gpr s (op_ra op) in
  let r := add64_flags_c (bnot 64 RA) (2 ^ 64 - 1) (xer_ca s) in
  put_carry fl op r
    ((sign64 (bnot 64 RA) =? 1) && negb (sign64 (bnot 64 RA) =? sign64 r.1)) s.

(** ** Multiply and divide *)

Definition put_rd fl op (v : Z) s := record_cr0 fl v (set_gpr_at (op_rd op) v s).

Definition MULHDU fl op s := put_rd fl op (umulh64 (gpr s (op_ra op)) (gpr s (op_rb op))) s.
Definition MULHWU fl op s :=
  let a := u32 (gpr s (op_ra op)) in let b := u32 (gpr s (op_rb op)) in
  put_rd fl op (Z.shiftr (u64 (a * b)) 32) s.
Definition MULHD fl op s :=
  put_rd fl op (u64 (mulh64 (s64 (gpr s (op_ra op))) (s64 (gpr s (op_rb op))))) s.
Definition MULHW fl op s :=
  let a := s32 (gpr s (op_ra op)) in let b := s32 (gpr s (op_rb op)) in
  put_rd fl op (u64 (Z.shiftr (a * b) 32)) s.

Definition MULLD fl op s :=
  let RA := s64 (gpr s (op_ra op)) in let RB := s64 (gpr s (op_rb op)) in
  let v := u64 (RA * RB) in
  let s := set_gpr_at (op_rd op) v s in
  let s := if op_oe op
           then ppu_ov_set (negb (mulh64 RA RB =? Z.shiftr (s64 v) 63)) s else s in
  record_cr0 fl v s.

Definition MULLW fl op s :=
  let v := u64 (s32 (gpr s (op_ra op)) * s32 (gpr s (op_rb op))) in
  let s := set_gpr_at (op_rd op) v s in
  let s := record_ov fl ((s64 v <? - 2 ^ 31) || (2 ^ 31 - 1 <? s64 v)) s in
  record_cr0 fl v s.

Definition DIVDU fl op s :=
  let RA := gpr s (op_ra op) in let RB := gpr s (op_rb op) in
  let v := if RB =? 0 then 0 else RA / RB in
  let s := set_gpr_at (op_rd op) v s in
  record_cr0 fl v (record_ov fl (RB =? 0) s).

Definition DIVWU fl op s :=
  let RA := u32 (gpr s (op_ra op)) in let RB := u32 (gpr s (op_rb op)) in
  let v := if RB =? 0 then 0 else RA / RB in
  let s := set_gpr_at (op_rd op) v s in
  record_cr0 fl v (record_ov fl (RB =? 0) s).

Definition DIVD fl op s :=
  let RA := s64 (gpr s (op_ra op)) in let RB := s64 (gpr s (op_rb op)) in
  let o := (RB =? 0) || ((RA =? - 2 ^ 63) && (RB =? -1)) in
  let v := if o then 0 else u64 (Z.quot RA RB) in
  let s := set_gpr_at (op_rd op) v s in
  record_cr0 fl v (record_ov fl o s).

Definition DIVW fl op s :=
  let RA := s32 (gpr s (op_ra op)) in let RB := s32 (gpr s (op_rb op)) in
  let o := (RB =? 0) || ((RA =? - 2 ^ 31) && (RB =? -1)) in
  let v := if o then 0 else u32 (Z.quot RA RB) in
  let s := set_gpr_at (op_rd op) v s in
  record_cr0 fl v (record_ov fl o s).

(** ** Condition register and special purpose register moves *)

Definition MFOCRF (N op : Z) s :=
  let p := N * 4 in
  let v := Z.lor (Z.lor (Z.lor (Z.shiftl (cr s (p + 0)) 3) (Z.shiftl (cr s (p + 1)) 2))
                        (Z.shiftl (cr s (p + 2)) 1)) (Z.shiftl (cr s (p + 3)) 0) in
  set_gpr_at (op_rd op) (u32 (Z.shiftl v (Z.lxor p 0x1c))) s.

(** [cr_bits::pack]. *)
Definition cr_pack (bits : Z -> Z) : Z :=
  fold_left (fun result i => Z.lor (u32 (Z.shiftl result 1)) (bits i)) (seqZ 0 32) 0.

Definition MFCR op s := set_gpr_at (op_rd op) (cr_pack (cr s)) s.

(** [s_table], as (lt, gt, eq, so). *)
Definition mtocrf_table : list (bool * bool * bool * bool) :=
  [(false, false, false, false); (false, false, false, true);
   (false, false, true, false); (false, false, true, true);
   (false, true, false, false); (false, true, false, true);
   (false, true, true, false); (false, true, true, true);
   (true, false, false, false); (true, false, false, true);
   (true, false, true, false); (true, false, true, true);
   (true, true, false, false); (true, true, false, true);
   (true, true, true, false); (true, true, true, true)].

Definition cr_put_field (f : Z) (e : bool * bool * bool * bool) (bits : Z -> Z) : Z -> Z :=
  let '(lt, gt, eq, so) := e in
  upd (upd (upd (upd bits (f * 4) (Z.b2z lt)) (f * 4 + 1) (Z.b2z gt))
           (f * 4 + 2) (Z.b2z eq)) (f * 4 + 3) (Z.b2z so).

Definition mtocrf_entry (v : Z) := nth (Z.to_nat v) mtocrf_table (false, false, false, false).

Definition MTOCRF op s :=
  let v := gpr s (op_rs op) in
  if op_l11 op then
    let n := Z.land (countl_zero 32 (op_crm op)) 7 in
    let x := Z.land (Z.shiftr v (Z.lxor (n * 4) 0x1c)) 0xf in
    set_cr (cr_put_field n (mtocrf_entry x) (cr s)) s
  else
    set_cr (fold_left (fun bits i =>
      if negb (Z.land (op_crm op) (Z.shiftr 128 i) =? 0) then
        let x := Z.land (Z.shiftr v (Z.lxor (i * 4) 0x1c)) 0xf in
        cr_put_field i (mtocrf_entry x) bits
      else bits) (seqZ 0 8) (cr s)) s.

Definition spr_number op : Z :=
  Z.lor (Z.shiftr (op_spr op) 5) (Z.shiftl (Z.land (op_spr op) 0x1f) 5).

Definition xer_word s : Z :=
  Z.lor (Z.lor (Z.lor (Z.shiftl (Z.b2z (xer_so s)) 31) (Z.shiftl (Z.b2z (xer_ov s)) 30))
               (Z.shiftl (Z.b2z (xer_ca s)) 29)) (xer_cnt s).

(** [tb] is the value [get_timebased_time()] returns. *)
Definition MFSPR (tb op : Z) s : outcome :=
  let n := spr_number op in
  let put v := Next (set_gpr_at (op_rd op) v s) in
  if n =? 0x001 then put (xer_word s)
  else if n =? 0x008 then put (lr s)
  else if n =? 0x009 then put (ctr s)
  else if n =? 0x100 then put (vrsave s)
  else if n =? 0x10C then put tb
  else if n =? 0x10D then put (Z.shiftr tb 32)
  else Throw s (UnknownSpr n).

Definition MFTB (tb op : Z) s : outcome :=
  let n := spr_number op in
  let put v := Next (set_gpr_at (op_rd op) v s) in
  if n =? 0x10C then put tb
  else if n =? 0x10D then put (Z.shiftr tb 32)
  else Throw s (UnknownSpr n).

Definition MTSPR op s : outcome :=
  let n := spr_number op in
  let value := gpr s (op_rs op) in
  if n =? 0x001 then
    let s := set_xer_so (negb (Z.land value 0x80000000 =? 0)) s in
    let s := set_xer_ov (negb (Z.land value 0x40000000 =? 0)) s in
    let s := set_xer_ca (negb (Z.land value 0x20000000 =? 0)) s in
    Next (set_xer_cnt (Z.land value 0x7f) s)
  else if n =? 0x008 then Next (set_lr value s)
  else if n =? 0x009 then Next (set_ctr value s)
  else if n =? 0x100 then Next (set_vrsave (u32 value) s)
  else Throw s (UnknownSpr n).

End Int.
