(* ===== verification/PpuBranch.v ===== *)
(** * PPU interpreter: branches and system call

    [BC], [B], [BCLR], [BCCTR] and [SC] of [rpcs3/Emu/Cell/PPUInterpreter.cpp].
    [pc] is [vm::get_addr(this_op)]; a branch that is taken ends the run of
    directly chained handlers ([Return]), one that is not continues with the
    following instruction ([Next]) unless the thread was asked to stop. *)
From S2P Require Import Prelude PpuState.

Section Branch.
Context `{Cfg : PpuConfig}.
Implicit Types (op pc : Z) (s : ppu_thread).

Definition ctr_ok op (ctr : Z) : bool :=
  negb (Z.land (op_bo op) 0x04 =? 0) ||
  xorb (negb (ctr =? 0)) (negb (Z.land (op_bo op) 0x02 =? 0)).

Definition cond_ok op s : bool :=
  negb (Z.land (op_bo op) 0x10 =? 0) ||
  xorb (negb (cr s (op_bi op) =? 0)) (xorb (negb (Z.land (op_bo op) 0x08 =? 0)) true).

(** [ppu.ctr -= (bo2 ^ true)] *)
Definition dec_ctr op s : ppu_thread :=
  set_ctr (u64 (ctr s - Z.b2z (xorb (negb (Z.land (op_bo op) 0x04 =? 0)) true))) s.

(** [ppu.exec_bytes += link - old_cia] *)
Definition add_exec_bytes (link old_cia : Z) s : ppu_thread :=
  set_exec_bytes (u64 (exec_bytes s + u32 (link - old_cia))) s.

Definition set_link op (link : Z) s : ppu_thread := if op_lk op then set_lr link s else s.

(** The [else if (!ppu.state) ... else] branches shared by the conditional forms. *)
Definition not_taken (link old_cia : Z) s : outcome :=
  if state s =? 0 then Next s else Return (add_exec_bytes link old_cia (set_cia link s)).

Definition BC pc op s : outcome :=
  let s := dec_ctr op s in
  let link := u32 (pc + 4) in
  let s := set_link op link s in
  let old_cia := cia s in
  if ctr_ok op (ctr s) && cond_ok op s then
    let s := set_cia pc s in
    let s := ppu_record_call (cia s) op false s in
    let s := set_cia (u32 ((if op_aa op then 0 else cia s) + op_bt14 op)) s in
    Return (add_exec_bytes link old_cia s)
  else not_taken link old_cia s.

Definition B pc op s : outcome :=
  let old_cia := cia s in
  let s := set_cia pc s in
  let link := u32 (pc + 4) in
  let s := ppu_record_call (cia s) op false s in
  let s := set_cia (u32 ((if op_aa op then 0 else cia s) + op_bt24 op)) s in
  let s := set_link op link s in
  Return (add_exec_bytes link old_cia s).

Definition BCLR pc op s : outcome :=
  let s := dec_ctr op s in
  let taken := ctr_ok op (ctr s) && cond_ok op s in
  let target := Z.land (u32 (lr s)) (bnot 32 3) in
  let link := u32 (pc + 4) in
  let s := set_link op link s in
  let old_cia := cia s in
  if taken then
    let s := ppu_record_call target op true s in
    Return (add_exec_bytes link old_cia (set_cia target s))
  else not_taken link old_cia s.

Definition BCCTR pc op s : outcome :=
  let link := u32 (pc + 4) in
  let s := set_link op link s in
  let old_cia := cia s in
  if negb (Z.land (op_bo op) 0x10 =? 0) ||
     (cr s (op_bi op) =? Z.b2z (negb (Z.land (op_bo op) 0x8 =? 0))) then
    let target := Z.land (u32 (ctr s)) (bnot 32 3) in
    let s := ppu_record_call target op true s in
    Return (add_exec_bytes link old_cia (set_cia target s))
  else not_taken link old_cia s.

(** [ppu_instructions::SC(0)] *)
Definition sc_opcode : Z := 0x44000002.

Definition SC pc op s : outcome :=
  let old_cia := cia s in
  let s := set_cia pc s in
  let s := add_exec_bytes (cia s) old_cia s in
  if negb (op =? sc_opcode) then Throw s (IllegalSyscall op)
  else Syscall s (gpr s 11).

End Branch.
