(* ===== verification/PpuMem.v ===== *)
(** * PPU interpreter: memory access

    The load and store handlers of [rpcs3/Emu/Cell/PPUInterpreter.cpp] together
    with [ppu_feed_data] and the address conversion [vm::cast] of
    [rpcs3/Emu/Memory/vm.h].  Guest memory is big-endian; a load that goes
    through [ppu_feed_data] compares the bytes it read with the thread's
    reservation and drops the reservation when they differ.  Handlers that can
    throw run in a state and error monad. *)
From S2P Require Import Prelude PpuState.

(** ** A state and error monad over the thread *)

Inductive result (A : Type) :=
| Ok (a : A) (s : ppu_thread)
| Fail (e : ppu_error) (s : ppu_thread).
Arguments Ok {A}.
Arguments Fail {A}.

Definition M (A : Type) : Type := ppu_thread -> result A.

#[export] Instance M_ret : MRet M := fun A a s => Ok a s.
#[export] Instance M_bind : MBind M := fun A B f m s =>
  match m s with Ok a s' => f a s' | Fail e s' => Fail e s' end.

Definition get : M ppu_thread := fun s => Ok s s.
Definition modify (f : ppu_thread -> ppu_thread) : M unit := fun s => Ok tt (f s).
Definition fail {A} (e : ppu_error) : M A := fun s => Fail e s.

(** A handler written with [RETURN_]: run, then continue with the next one. *)
Definition exec (m : M unit) (s : ppu_thread) : outcome :=
  match m s with Ok _ s' => Next s' | Fail e s' => Throw s' e end.

(** ** Bytes *)

Definition be_val (l : list Z) : Z := fold_left (fun acc b => acc * 256 + b) l 0.
Definition le_val (l : list Z) : Z := be_val (rev l).

(** The [n] low-order bytes of [v], most significant first. *)
Fixpoint be_bytes (n : nat) (v : Z) : list Z :=
  match n with
  | O => []
  | S k => be_bytes k (Z.shiftr v 8) ++ [Z.land v 255]
  end.
Definition le_bytes (n : nat) (v : Z) : list Z := rev (be_bytes n v).

Definition read_bytes (m : Z -> Z) (addr : Z) (n : nat) : list Z :=
  map (fun i => m (addr + Z.of_nat i)) (seq 0 n).

Definition write_bytes (m : Z -> Z) (addr : Z) (l : list Z) : Z -> Z :=
  fun a => if (addr <=? a) && (a <? addr + Z.of_nat (length l))
           then nth (Z.to_nat (a - addr)) l 0 else m a.

(** ** Address conversion *)

(** [vm::cast] of a 64-bit address: [narrow<u32>] throws when it does not fit. *)
Definition vm_cast (addr : Z) : M Z :=
  if addr <? 2 ^ 32 then mret addr else fail (NarrowingError addr).

Section Mem.
Context `{Cfg : PpuConfig}.
Implicit Types (op : Z) (s : ppu_thread).

(** ** [ppu_feed_data]: the bytes of [T] at [addr], [n = sizeof(T)] *)

Definition lose_reservation : M unit := modify (fun s => set_res_cached 0 (set_raddr 0 s)).

Definition bytes_eqb (a b : list Z) : bool := bool_decide (a = b).

Definition ppu_feed_data (n : nat) (addr : Z) : M (list Z) :=
  a ← vm_cast addr;
  s ← get;
  let value := read_bytes (mem s) a n in
  let sz := Z.of_nat n in
  let rd off len := read_bytes (rdata s) off len in
  if negb use_feed_data then mret value
  else if negb (use_full_rdata s) then mret value
  else if (raddr s / 128 <? addr / 128) || (u64 (addr + sz - 1) / 128 <? raddr s / 128)
  then mret value
  else if (sz =? 1) || (addr / 128 =? u64 (addr + sz - 1) / 128) then
    if negb (bytes_eqb value (rd (Z.land addr 127) n))
    then lose_reservation ≫= (fun _ => mret value) else mret value
  else
    let '(src, size, offs) :=
      if raddr s / 128 =? addr / 128
      then (Z.land addr 127, Z.min (128 - addr mod 128) sz, 0)
      else let size := u32 (u64 (addr + sz) mod 127) in (0, size, u32 (sz - size)) in
    if sz <? offs + size then fail (BufferOverread offs)
    else if negb (bytes_eqb (read_bytes (fun i => nth (Z.to_nat i) value 0) offs (Z.to_nat size))
                            (rd src (Z.to_nat size)))
    then lose_reservation ≫= (fun _ => mret value) else mret value.

Definition load_be (n : nat) (addr : Z) : M Z := l ← ppu_feed_data n addr; mret (be_val l).
Definition load_le (n : nat) (addr : Z) : M Z := l ← ppu_feed_data n addr; mret (le_val l).

(** [vm::write8..64] and [vm::_ref<T>(..) = v], after [vm::cast]. *)
Definition store_be (n : nat) (addr v : Z) : M unit :=
  a ← vm_cast addr; modify (fun s => set_mem (write_bytes (mem s) a (be_bytes n v)) s).
Definition store_le (n : nat) (addr v : Z) : M unit :=
  a ← vm_cast addr; modify (fun s => set_mem (write_bytes (mem s) a (le_bytes n v)) s).

Definition put_gpr (i v : Z) : M unit := modify (set_gpr_at i v).
Definition put_vr (i v : Z) : M unit := modify (set_vr_at i v).
Definition put_fpr (i v : Z) : M unit := modify (set_fpr_at i v).

(** ** Effective addresses *)

(** [op.ra || 1 ? gpr[ra] + simm16 : simm16], and the update forms. *)
Definition ea_d op s : Z := u64 (gpr s (op_ra op) + op_simm16 op).
(** [(op.simm16 & ~3) + (op.ra ? gpr[ra] : 0)] *)
Definition ea_ds op s : Z :=
  u64 (Z.land (op_simm16 op) (-4) + (if op_ra op =? 0 then 0 else gpr s (op_ra op))).
(** [gpr[ra] + (simm16 & ~3)] *)
Definition ea_dsu op s : Z := u64 (gpr s (op_ra op) + Z.land (op_simm16 op) (-4)).
(** [op.ra ? gpr[ra] + gpr[rb] : gpr[rb]] *)
Definition ea_x op s : Z :=
  if op_ra op =? 0 then gpr s (op_rb op) else u64 (gpr s (op_ra op) + gpr s (op_rb op)).
(** [gpr[ra] + gpr[rb]] *)
Definition ea_xu op s : Z := u64 (gpr s (op_ra op) + gpr s (op_rb op)).
(** [& ~0xfull] *)
Definition align16 (a : Z) : Z := Z.land a (bnot 64 15).

(** ** Loads *)

Definition LBZ op : M unit :=
  s ← get; v ← load_be 1 (ea_d op s);
  put_gpr (op_rd op) v.

Definition LBZU op : M unit :=
  s ← get; v ← load_be 1 (ea_d op s);
  put_gpr (op_rd op) v ;; put_gpr (op_ra op) (ea_d op s).

Definition LHZ op : M unit :=
  s ← get; v ← load_be 2 (ea_d op s);
  put_gpr (op_rd op) v.

Definition LHZU op : M unit :=
  s ← get; v ← load_be 2 (ea_d op s);
  put_gpr (op_rd op) v ;; put_gpr (op_ra op) (ea_d op s).

Definition LHA op : M unit :=
  s ← get; v ← load_be 2 (ea_d op s);
  put_gpr (op_rd op) (u64 (s16 v)).

Definition LHAU op : M unit :=
  s ← get; v ← load_be 2 (ea_d op s);
  put_gpr (op_rd op) (u64 (s16 v)) ;; put_gpr (op_ra op) (ea_d op s).

Definition LWZ op : M unit :=
  s ← get; v ← load_be 4 (ea_d op s);
  put_gpr (op_rd op) v.

Definition LWZU op : M unit :=
  s ← get; v ← load_be 4 (ea_d op s);
  put_gpr (op_rd op) v ;; put_gpr (op_ra op) (ea_d op s).

Definition LD op : M unit :=
  s ← get; v ← load_be 8 (ea_ds op s);
  put_gpr (op_rd op) v.

Definition LDU op : M unit :=
  s ← get; v ← load_be 8 (ea_dsu op s);
  put_gpr (op_rd op) v ;; put_gpr (op_ra op) (ea_dsu op s).

Definition LWA op : M unit :=
  s ← get; v ← load_be 4 (ea_ds op s);
  put_gpr (op_rd op) (u64 (s32 v)).

(** [LHZUX], [LHAUX] and [LWAUX] test [op.ra] for zero as the non-updating forms do. *)

Definition LBZX op : M unit :=
  s ← get; v ← load_be 1 (ea_x op s);
  put_gpr (op_rd op) v.

Definition LHZX op : M unit :=
  s ← get; v ← load_be 2 (ea_x op s);
  put_gpr (op_rd op) v.

Definition LHAX op : M unit :=
  s ← get; v ← load_be 2 (ea_x op s);
  put_gpr (op_rd op) (u64 (s16 v)).

Definition LWZX op : M unit :=
  s ← get; v ← load_be 4 (ea_x op s);
  put_gpr (op_rd op) v.

Definition LWAX op : M unit :=
  s ← get; v ← load_be 4 (ea_x op s);
  put_gpr (op_rd op) (u64 (s32 v)).

Definition LDX op : M unit :=
  s ← get; v ← load_be 8 (ea_x op s);
  put_gpr (op_rd op) v.

Definition LBZUX op : M unit :=
  s ← get; v ← load_be 1 (ea_xu op s);
  put_gpr (op_rd op) v ;; put_gpr (op_ra op) (ea_xu op s).

Definition LHZUX op : M unit :=
  s ← get; v ← load_be 2 (ea_x op s);
  put_gpr (op_rd op) v ;; put_gpr (op_ra op) (ea_x op s).

Definition LHAUX op : M unit :=
  s ← get; v ← load_be 2 (ea_x op s);
  put_gpr (op_rd op) (u64 (s16 v)) ;; put_gpr (op_ra op) (ea_x op s).

Definition LWZUX op : M unit :=
  s ← get; v ← load_be 4 (ea_xu op s);
  put_gpr (op_rd op) v ;; put_gpr (op_ra op) (ea_xu op s).

Definition LWAUX op : M unit :=
  s ← get; v ← load_be 4 (ea_x op s);
  put_gpr (op_rd op) (u64 (s32 v)) ;; put_gpr (op_ra op) (ea_x op s).

Definition LDUX op : M unit :=
  s ← get; v ← load_be 8 (ea_xu op s);
  put_gpr (op_rd op) v ;; put_gpr (op_ra op) (ea_xu op s).

Definition LHBRX op : M unit :=
  s ← get; v ← load_le 2 (ea_x op s);
  put_gpr (op_rd op) v.

Definition LWBRX op : M unit :=
  s ← get; v ← load_le 4 (ea_x op s);
  put_gpr (op_rd op) v.

Definition LDBRX op : M unit :=
  s ← get; v ← load_le 8 (ea_x op s);
  put_gpr (op_rd op) v.

(** ** Stores *)

Definition STB op : M unit :=
  s ← get; store_be 1 (ea_d op s) (u8 (gpr s (op_rs op))).

Definition STBU op : M unit :=
  s ← get; store_be 1 (ea_d op s) (u8 (gpr s (op_rs op))) ;;
  put_gpr (op_ra op) (ea_d op s).

Definition STH op : M unit :=
  s ← get; store_be 2 (ea_d op s) (u16 (gpr s (op_rs op))).

Definition STHU op : M unit :=
  s ← get; store_be 2 (ea_d op s) (u16 (gpr s (op_rs op))) ;;
  put_gpr (op_ra op) (ea_d op s).

(** [STW] notifies the reservation of the line when it writes [0xAAAAAAAA]. *)
Definition STW op s : outcome :=
  let addr := ea_d op s in
  let value := u32 (gpr s (op_rs op)) in
  match store_be 4 addr value s with
  | Fail e s' => Throw s' e
  | Ok _ s' => if value =? 0xAAAAAAAA then NextUpdate s' addr else Next s'
  end.

Definition STWU op : M unit :=
  s ← get; store_be 4 (ea_d op s) (u32 (gpr s (op_rs op))) ;;
  put_gpr (op_ra op) (ea_d op s).

Definition STD op : M unit :=
  s ← get; store_be 8 (ea_ds op s) (gpr s (op_rs op)).

Definition STDU op : M unit :=
  s ← get; store_be 8 (ea_dsu op s) (gpr s (op_rs op)) ;;
  put_gpr (op_ra op) (ea_dsu op s).

Definition STBX op : M unit :=
  s ← get; store_be 1 (ea_x op s) (u8 (gpr s (op_rs op))).

Definition STHX op : M unit :=
  s ← get; store_be 2 (ea_x op s) (u16 (gpr s (op_rs op))).

Definition STWX op : M unit :=
  s ← get; store_be 4 (ea_x op s) (u32 (gpr s (op_rs op))).

Definition STDX op : M unit :=
  s ← get; store_be 8 (ea_x op s) (gpr s (op_rs op)).

Definition STBUX op : M unit :=
  s ← get; store_be 1 (ea_xu op s) (u8 (gpr s (op_rs op))) ;;
  put_gpr (op_ra op) (ea_xu op s).

Definition STHUX op : M unit :=
  s ← get; store_be 2 (ea_xu op s) (u16 (gpr s (op_rs op))) ;;
  put_gpr (op_ra op) (ea_xu op s).

Definition STWUX op : M unit :=
  s ← get; store_be 4 (ea_xu op s) (u32 (gpr s (op_rs op))) ;;
  put_gpr (op_ra op) (ea_xu op s).

Definition STDUX op : M unit :=
  s ← get; store_be 8 (ea_xu op s) (gpr s (op_rs op)) ;;
  put_gpr (op_ra op) (ea_xu op s).

Definition STHBRX op : M unit :=
  s ← get; store_le 2 (ea_x op s) (u16 (gpr s (op_rs op))).

Definition STWBRX op : M unit :=
  s ← get; store_le 4 (ea_x op s) (u32 (gpr s (op_rs op))).

Definition STDBRX op : M unit :=
  s ← get; store_le 8 (ea_x op s) (gpr s (op_rs op)).

(** ** Floating-point registers as bit patterns *)

Definition LFD op : M unit := s ← get; v ← load_be 8 (ea_d op s); put_fpr (op_frd op) v.
Definition LFDU op : M unit :=
  s ← get; v ← load_be 8 (ea_d op s); put_fpr (op_frd op) v ;; put_gpr (op_ra op) (ea_d op s).
Definition LFDX op : M unit := s ← get; v ← load_be 8 (ea_x op s); put_fpr (op_frd op) v.
Definition LFDUX op : M unit :=
  s ← get; v ← load_be 8 (ea_xu op s); put_fpr (op_frd op) v ;; put_gpr (op_ra op) (ea_xu op s).
Definition STFD op : M unit := s ← get; store_be 8 (ea_d op s) (fpr s (op_frs op)).
Definition STFDU op : M unit :=
  s ← get; store_be 8 (ea_d op s) (fpr s (op_frs op)) ;; put_gpr (op_ra op) (ea_d op s).
Definition STFDX op : M unit := s ← get; store_be 8 (ea_x op s) (fpr s (op_frs op)).
Definition STFDUX op : M unit :=
  s ← get; store_be 8 (ea_xu op s) (fpr s (op_frs op)) ;; put_gpr (op_ra op) (ea_xu op s).
Definition STFIWX op : M unit := s ← get; store_be 4 (ea_x op s) (u32 (fpr s (op_frs op))).

(** ** Multiple words *)

(** [for (u32 i = op.rd; i < 32; ++i, addr += 4)]; [k] is the number of registers left. *)
Fixpoint lmw_loop (k : nat) (i addr : Z) : M unit :=
  match k with
  | O => mret tt
  | S k => v ← load_be 4 addr; put_gpr i v ;; lmw_loop k (i + 1) (u64 (addr + 4))
  end.

(** [op.ra ? gpr[ra] + simm16 : simm16] *)
Definition ea_m op s : Z :=
  if op_ra op =? 0 then u64 (op_simm16 op) else u64 (gpr s (op_ra op) + op_simm16 op).

Definition LMW op : M unit :=
  s ← get; lmw_loop (Z.to_nat (32 - op_rd op)) (op_rd op) (ea_m op s).

Fixpoint stmw_loop (k : nat) (i addr : Z) : M unit :=
  match k with
  | O => mret tt
  | S k => s ← get; store_be 4 addr (u32 (gpr s i)) ;; stmw_loop k (i + 1) (u64 (addr + 4))
  end.

Definition STMW op : M unit :=
  s ← get; stmw_loop (Z.to_nat (32 - op_rs op)) (op_rs op) (ea_m op s).

(** ** Strings *)

(** The trailing bytes of a word, left-justified: [byte] counts up to [count]. *)
Fixpoint lsw_tail (k : nat) (byte addr value : Z) : M Z :=
  match k with
  | O => mret value
  | S k =>
    b ← load_be 1 (u64 (addr + byte));
    lsw_tail k (byte + 1) addr (Z.lor value (u32 (Z.shiftl b (Z.lxor 3 byte * 8))))
  end.

Fixpoint lswx_loop (fuel : nat) (rd count addr : Z) : M unit :=
  match fuel with
  | O => mret tt
  | S fuel =>
    if 4 <=? count then
      v ← load_be 4 addr; put_gpr rd v ;;
      lswx_loop fuel (Z.land (rd + 1) 31) (count - 4) (u64 (addr + 4))
    else if count =? 0 then mret tt
    else value ← lsw_tail (Z.to_nat count) 0 addr 0; put_gpr rd value
  end.

(** [count <= 127]: 31 words and one partial word. *)
Definition LSWX op : M unit :=
  s ← get; lswx_loop 33 (op_rd op) (Z.land (xer_cnt s) 0x7f) (ea_x op s).

Fixpoint stsw_tail (k : nat) (byte addr value : Z) : M unit :=
  match k with
  | O => mret tt
  | S k =>
    store_be 1 (u64 (addr + byte)) (u8 (Z.shiftr value (Z.lxor 3 byte * 8))) ;;
    stsw_tail k (byte + 1) addr value
  end.

Fixpoint stswx_loop (fuel : nat) (rs count addr : Z) : M unit :=
  match fuel with
  | O => mret tt
  | S fuel =>
    s ← get;
    if 4 <=? count then
      store_be 4 addr (u32 (gpr s rs)) ;;
      stswx_loop fuel (Z.land (rs + 1) 31) (count - 4) (u64 (addr + 4))
    else if count =? 0 then mret tt
    else stsw_tail (Z.to_nat count) 0 addr (u32 (gpr s rs))
  end.

Definition STSWX op : M unit :=
  s ← get; stswx_loop 33 (op_rs op) (Z.land (xer_cnt s) 0x7f) (ea_x op s).

(** The byte loop of [LSWI]: [i] counts down from 3. *)
Fixpoint lswi_tail (k : nat) (i addr buf : Z) : M Z :=
  match k with
  | O => mret buf
  | S k =>
    b ← load_be 1 addr;
    lswi_tail k (i - 1) (u64 (addr + 1)) (Z.lor buf (u32 (Z.shiftl b (i * 8))))
  end.

Fixpoint lswi_loop (fuel : nat) (reg N addr : Z) : M unit :=
  match fuel with
  | O => mret tt
  | S fuel =>
    if N <=? 0 then mret tt
    else if 3 <? N then
      v ← load_be 4 addr; put_gpr reg v ;;
      lswi_loop fuel ((reg + 1) mod 32) (N - 4) (u64 (addr + 4))
    else
      buf ← lswi_tail (Z.to_nat N) 3 addr 0; put_gpr reg buf ;;
      lswi_loop fuel ((reg + 1) mod 32) 0 (u64 (addr + N))
  end.

(** [op.ra ? gpr[ra] : 0] and [op.rb ? op.rb : 32] *)
Definition ea_i op s : Z := if op_ra op =? 0 then 0 else gpr s (op_ra op).
Definition string_length op : Z := if op_rb op =? 0 then 32 else op_rb op.

(** [N <= 32]: at most 8 words, or 7 and a partial one, and the final test. *)
Definition LSWI op : M unit :=
  s ← get; lswi_loop 9 (op_rd op) (string_length op) (ea_i op s).

Fixpoint stswi_tail (k : nat) (addr buf : Z) : M unit :=
  match k with
  | O => mret tt
  | S k =>
    store_be 1 addr (Z.shiftr (Z.land 0xFF000000 buf) 24) ;;
    stswi_tail k (u64 (addr + 1)) (u32 (Z.shiftl buf 8))
  end.

Fixpoint stswi_loop (fuel : nat) (reg N addr : Z) : M unit :=
  match fuel with
  | O => mret tt
  | S fuel =>
    if N <=? 0 then mret tt
    else s ← get;
    if 3 <? N then
      store_be 4 addr (u32 (gpr s reg)) ;;
      stswi_loop fuel ((reg + 1) mod 32) (N - 4) (u64 (addr + 4))
    else
      stswi_tail (Z.to_nat N) addr (u32 (gpr s reg)) ;;
      stswi_loop fuel ((reg + 1) mod 32) 0 (u64 (addr + N))
  end.

Definition STSWI op : M unit :=
  s ← get; stswi_loop 9 (op_rd op) (string_length op) (ea_i op s).

(** ** Vector registers: a 128-bit integer, element 0 in the high bits *)

(** [_u8[i]], [_u16[i]], [_u32[i]] of a [v128], and [u8r[i]]. *)
Definition v_u8 (v i : Z) : Z := u8 (Z.shiftr v (8 * i)).
Definition v_u16 (v i : Z) : Z := u16 (Z.shiftr v (16 * i)).
Definition v_u32 (v i : Z) : Z := u32 (Z.shiftr v (32 * i)).
Definition v_u8r (v i : Z) : Z := v_u8 v (15 - i).

Definition LVX op : M unit := s ← get; v ← load_be 16 (align16 (ea_x op s)); put_vr (op_vd op) v.
Definition LVXL op : M unit := s ← get; v ← load_be 16 (align16 (ea_x op s)); put_vr (op_vd op) v.
Definition LVEBX op : M unit := s ← get; v ← load_be 16 (align16 (ea_x op s)); put_vr (op_vd op) v.
Definition LVEHX op : M unit := s ← get; v ← load_be 16 (align16 (ea_x op s)); put_vr (op_vd op) v.
Definition LVEWX op : M unit := s ← get; v ← load_be 16 (align16 (ea_x op s)); put_vr (op_vd op) v.
Definition STVX op : M unit := s ← get; store_be 16 (align16 (ea_x op s)) (vr s (op_vs op)).
Definition STVXL op : M unit := s ← get; store_be 16 (align16 (ea_x op s)) (vr s (op_vs op)).

Definition STVEBX op : M unit :=
  s ← get;
  let addr := ea_x op s in
  let eb := Z.land addr 0xf in
  store_be 1 addr (v_u8 (vr s (op_vs op)) (15 - eb)).

Definition STVEHX op : M unit :=
  s ← get;
  let addr := Z.land (ea_x op s) (bnot 64 1) in
  let eb := Z.shiftr (Z.land addr 0xf) 1 in
  store_be 2 addr (v_u16 (vr s (op_vs op)) (7 - eb)).

Definition STVEWX op : M unit :=
  s ← get;
  let addr := Z.land (ea_x op s) (bnot 64 3) in
  let eb := Z.shiftr (Z.land addr 0xf) 2 in
  store_be 4 addr (v_u32 (vr s (op_vs op)) (3 - eb)).

Definition LVLX op : M unit :=
  s ← get;
  let addr := ea_x op s in
  data ← load_be 16 (align16 addr);
  put_vr (op_vd op) (u128 (Z.shiftl data (Z.land addr 15 * 8))).

(** Reads at the instruction's own address when the offset is zero. *)
Definition LVRX op : M unit :=
  s ← get;
  let addr := ea_x op s in
  data ← load_be 16 (align16 (if Z.land addr 15 =? 0 then cia s else addr));
  put_vr (op_vd op) (Z.shiftr (Z.shiftr data (Z.land (bnot 64 addr) 15 * 8)) 8).

Definition LVLXL op : M unit := LVLX op.
Definition LVRXL op : M unit := LVRX op.

(** [for (u32 j = 0; j < 16 - tail; j++) ptr[j] = s.u8r[j]] *)
Definition STVLX op : M unit :=
  s ← get;
  let addr := ea_x op s in
  let tail := Z.land addr 15 in
  a ← vm_cast addr;
  modify (fun s => set_mem (fold_left (fun m j => upd m (a + j) (v_u8r (vr s (op_vs op)) j))
                              (seqZ 0 (16 - tail)) (mem s)) s).

(** [for (u32 i = 15; i > 15 - tail; i--) ptr[i] = s.u8r[i]] with [ptr] at [addr - 16] *)
Definition STVRX op : M unit :=
  s ← get;
  let addr := ea_x op s in
  let tail := Z.land addr 15 in
  a ← vm_cast (u64 (addr - 16));
  modify (fun s => set_mem (fold_left (fun m i => upd m (a + i) (v_u8r (vr s (op_vs op)) i))
                              (rev (seqZ (16 - tail) tail)) (mem s)) s).

Definition STVLXL op : M unit := STVLX op.
Definition STVRXL op : M unit := STVRX op.

(** [gv_add8(s_lvsl_base, gv_bcst8(n))] *)
Definition lvsl_base : Z := be_val (seqZ 0 16).
Definition gv_add8_bcst (v n : Z) : Z :=
  be_val (map (fun i => u8 (v_u8r v i + n)) (seqZ 0 16)).
Definition s_lvsl_consts : list Z := map (gv_add8_bcst lvsl_base) (seqZ 0 16).
Definition s_lvsr_consts : list Z := map (gv_add8_bcst lvsl_base) (rev (seqZ 1 16)).

Definition LVSL op s : ppu_thread :=
  set_vr_at (op_vd op) (nth (Z.to_nat (ea_x op s mod 16)) s_lvsl_consts 0) s.
Definition LVSR op s : ppu_thread :=
  set_vr_at (op_vd op) (nth (Z.to_nat (ea_x op s mod 16)) s_lvsr_consts 0) s.

(** [ECIWX] and [ECOWX] throw; the cache hints do nothing. *)
Definition ECIWX op : M unit := fail (Unimplemented op).
Definition ECOWX op : M unit := fail (Unimplemented op).
Definition DCBST op s : ppu_thread := s.
Definition DCBF op s : ppu_thread := s.
Definition DCBT op s : ppu_thread := s.
Definition DCBTST op s : ppu_thread := s.
Definition DCBI op s : ppu_thread := s.
Definition DST op s : ppu_thread := s.
Definition DSTST op s : ppu_thread := s.
Definition DSS op s : ppu_thread := s.
Definition ICBI op s : ppu_thread := s.

End Mem.
