(* ===== verification/PpuDecode.v ===== *)
(** * PPU instruction decoder

    [ppu_decode] and the table builder of [ppu_decoder] in
    [rpcs3/Emu/Cell/PPUOpcodes.h], and [ppu_interpreter_rt::decode] of
    [rpcs3/Emu/Cell/PPUInterpreter.cpp].  A decoded pointer is the name of the
    member it was taken from; [m_table] is a function of the table index. *)
From S2P Require Import Prelude PpuState.
From Stdlib Require Import String.
#[local] Open Scope string_scope.
#[local] Open Scope Z_scope.

(** Rotate left by 6 and keep 17 bits: extended opcode above the main one. *)
Definition ppu_decode (inst : Z) : Z :=
  Z.land (Z.lor (Z.shiftr inst 26) (u32 (Z.shiftl inst 6))) 0x1ffff.

Record instruction_info := Info {
  value : Z;
  ptr0 : string;
  ptr_rc : string;
  magn : Z
}.

(** [GET(name)], [GETRC(name)] *)
Definition GET (v : Z) (name : string) (m : Z) : instruction_info := Info v name name m.
Definition GETRC (v : Z) (name : string) (m : Z) : instruction_info :=
  Info v name (String.append name "_") m.

Definition pick (k : Z) (v : instruction_info) : string :=
  if negb (Z.land k 1 =? 0) then ptr_rc v else ptr0 v.

(** The indices and pointers one entry writes, in the order of the loops;
    [sh] is a [u32], so the main table's [-1] takes the second branch. *)
Definition entry_writes (main_op count sh : Z) (v : instruction_info) : list (Z * string) :=
  if u32 sh <? 11 then
    i ← seqZ 0 (2 ^ (magn v + (11 - sh - count)));
    j ← seqZ 0 (2 ^ sh);
    let k := Z.lor (Z.shiftl (Z.lor (Z.shiftl i (count - magn v)) (value v)) sh) j in
    [(Z.lor (Z.shiftl k 6) main_op, pick k v)]
  else
    i ← seqZ 0 (2 ^ 11); [(Z.lor (Z.shiftl i 6) (value v), pick i v)].

Definition apply_writes (ws : list (Z * string)) (t : Z -> string) : Z -> string :=
  fold_left (fun t w => upd t w.1 w.2) ws t.

Definition fill_table (main_op count sh : Z) (entries : list instruction_info)
    (t : Z -> string) : Z -> string :=
  fold_left (fun t v => apply_writes (entry_writes main_op count sh v) t) entries t.

Definition group_main : list instruction_info :=
  [GET 0x02 "TDI" 0; GET 0x03 "TWI" 0; GET 0x07 "MULLI" 0; GET 0x08 "SUBFIC" 0;
   GET 0x0a "CMPLI" 0; GET 0x0b "CMPI" 0; GET 0x0c "ADDIC" 0; GET 0x0d "ADDIC" 0;
   GET 0x0e "ADDI" 0; GET 0x0f "ADDIS" 0; GET 0x10 "BC" 0; GET 0x11 "SC" 0; GET 0x12 "B" 0;
   GETRC 0x14 "RLWIMI" 0; GETRC 0x15 "RLWINM" 0; GETRC 0x17 "RLWNM" 0; GET 0x18 "ORI" 0;
   GET 0x19 "ORIS" 0; GET 0x1a "XORI" 0; GET 0x1b "XORIS" 0; GET 0x1c "ANDI" 0;
   GET 0x1d "ANDIS" 0; GET 0x20 "LWZ" 0; GET 0x21 "LWZU" 0; GET 0x22 "LBZ" 0; GET 0x23 "LBZU" 0;
   GET 0x24 "STW" 0; GET 0x25 "STWU" 0; GET 0x26 "STB" 0; GET 0x27 "STBU" 0; GET 0x28 "LHZ" 0;
   GET 0x29 "LHZU" 0; GET 0x2a "LHA" 0; GET 0x2b "LHAU" 0; GET 0x2c "STH" 0; GET 0x2d "STHU" 0;
   GET 0x2e "LMW" 0; GET 0x2f "STMW" 0; GET 0x30 "LFS" 0; GET 0x31 "LFSU" 0; GET 0x32 "LFD" 0;
   GET 0x33 "LFDU" 0; GET 0x34 "STFS" 0; GET 0x35 "STFSU" 0; GET 0x36 "STFD" 0;
   GET 0x37 "STFDU" 0].

Definition group_04_a : list instruction_info :=
  [GET 0x0 "VADDUBM" 0; GET 0x2 "VMAXUB" 0; GET 0x4 "VRLB" 0; GET 0x006 "VCMPEQUB" 0;
   GET 0x406 "VCMPEQUB_" 0; GET 0x8 "VMULOUB" 0; GET 0xa "VADDFP" 0; GET 0xc "VMRGHB" 0;
   GET 0xe "VPKUHUM" 0; GET 0x20 "VMHADDSHS" 5; GET 0x21 "VMHRADDSHS" 5; GET 0x22 "VMLADDUHM" 5;
   GET 0x24 "VMSUMUBM" 5; GET 0x25 "VMSUMMBM" 5; GET 0x26 "VMSUMUHM" 5; GET 0x27 "VMSUMUHS" 5;
   GET 0x28 "VMSUMSHM" 5; GET 0x29 "VMSUMSHS" 5; GET 0x2a "VSEL" 5; GET 0x2b "VPERM" 5;
   GET 0x2c "VSLDOI" 5; GET 0x2e "VMADDFP" 5; GET 0x2f "VNMSUBFP" 5; GET 0x40 "VADDUHM" 0;
   GET 0x42 "VMAXUH" 0; GET 0x44 "VRLH" 0; GET 0x046 "VCMPEQUH" 0; GET 0x446 "VCMPEQUH_" 0;
   GET 0x48 "VMULOUH" 0; GET 0x4a "VSUBFP" 0; GET 0x4c "VMRGHH" 0; GET 0x4e "VPKUWUM" 0;
   GET 0x80 "VADDUWM" 0; GET 0x82 "VMAXUW" 0; GET 0x84 "VRLW" 0; GET 0x086 "VCMPEQUW" 0;
   GET 0x486 "VCMPEQUW_" 0; GET 0x8c "VMRGHW" 0; GET 0x8e "VPKUHUS" 0; GET 0x0c6 "VCMPEQFP" 0;
   GET 0x4c6 "VCMPEQFP_" 0; GET 0xce "VPKUWUS" 0; GET 0x102 "VMAXSB" 0; GET 0x104 "VSLB" 0;
   GET 0x108 "VMULOSB" 0; GET 0x10a "VREFP" 0; GET 0x10c "VMRGLB" 0; GET 0x10e "VPKSHUS" 0;
   GET 0x142 "VMAXSH" 0; GET 0x144 "VSLH" 0; GET 0x148 "VMULOSH" 0; GET 0x14a "VRSQRTEFP" 0;
   GET 0x14c "VMRGLH" 0; GET 0x14e "VPKSWUS" 0; GET 0x180 "VADDCUW" 0; GET 0x182 "VMAXSW" 0;
   GET 0x184 "VSLW" 0; GET 0x18a "VEXPTEFP" 0; GET 0x18c "VMRGLW" 0; GET 0x18e "VPKSHSS" 0;
   GET 0x1c4 "VSL" 0; GET 0x1c6 "VCMPGEFP" 0; GET 0x5c6 "VCMPGEFP_" 0; GET 0x1ca "VLOGEFP" 0;
   GET 0x1ce "VPKSWSS" 0; GET 0x200 "VADDUBS" 0; GET 0x202 "VMINUB" 0; GET 0x204 "VSRB" 0;
   GET 0x206 "VCMPGTUB" 0; GET 0x606 "VCMPGTUB_" 0; GET 0x208 "VMULEUB" 0; GET 0x20a "VRFIN" 0;
   GET 0x20c "VSPLTB" 0; GET 0x20e "VUPKHSB" 0; GET 0x240 "VADDUHS" 0; GET 0x242 "VMINUH" 0;
   GET 0x244 "VSRH" 0; GET 0x246 "VCMPGTUH" 0].

Definition group_04_b : list instruction_info :=
  [GET 0x646 "VCMPGTUH_" 0; GET 0x248 "VMULEUH" 0; GET 0x24a "VRFIZ" 0; GET 0x24c "VSPLTH" 0;
   GET 0x24e "VUPKHSH" 0; GET 0x280 "VADDUWS" 0; GET 0x282 "VMINUW" 0; GET 0x284 "VSRW" 0;
   GET 0x286 "VCMPGTUW" 0; GET 0x686 "VCMPGTUW_" 0; GET 0x28a "VRFIP" 0; GET 0x28c "VSPLTW" 0;
   GET 0x28e "VUPKLSB" 0; GET 0x2c4 "VSR" 0; GET 0x2c6 "VCMPGTFP" 0; GET 0x6c6 "VCMPGTFP_" 0;
   GET 0x2ca "VRFIM" 0; GET 0x2ce "VUPKLSH" 0; GET 0x300 "VADDSBS" 0; GET 0x302 "VMINSB" 0;
   GET 0x304 "VSRAB" 0; GET 0x306 "VCMPGTSB" 0; GET 0x706 "VCMPGTSB_" 0; GET 0x308 "VMULESB" 0;
   GET 0x30a "VCFUX" 0; GET 0x30c "VSPLTISB" 0; GET 0x30e "VPKPX" 0; GET 0x340 "VADDSHS" 0;
   GET 0x342 "VMINSH" 0; GET 0x344 "VSRAH" 0; GET 0x346 "VCMPGTSH" 0; GET 0x746 "VCMPGTSH_" 0;
   GET 0x348 "VMULESH" 0; GET 0x34a "VCFSX" 0; GET 0x34c "VSPLTISH" 0; GET 0x34e "VUPKHPX" 0;
   GET 0x380 "VADDSWS" 0; GET 0x382 "VMINSW" 0; GET 0x384 "VSRAW" 0; GET 0x386 "VCMPGTSW" 0;
   GET 0x786 "VCMPGTSW_" 0; GET 0x38a "VCTUXS" 0; GET 0x38c "VSPLTISW" 0; GET 0x3c6 "VCMPBFP" 0;
   GET 0x7c6 "VCMPBFP_" 0; GET 0x3ca "VCTSXS" 0; GET 0x3ce "VUPKLPX" 0; GET 0x400 "VSUBUBM" 0;
   GET 0x402 "VAVGUB" 0; GET 0x404 "VAND" 0; GET 0x40a "VMAXFP" 0; GET 0x40c "VSLO" 0;
   GET 0x440 "VSUBUHM" 0; GET 0x442 "VAVGUH" 0; GET 0x444 "VANDC" 0; GET 0x44a "VMINFP" 0;
   GET 0x44c "VSRO" 0; GET 0x480 "VSUBUWM" 0; GET 0x482 "VAVGUW" 0; GET 0x484 "VOR" 0;
   GET 0x4c4 "VXOR" 0; GET 0x502 "VAVGSB" 0; GET 0x504 "VNOR" 0; GET 0x542 "VAVGSH" 0;
   GET 0x580 "VSUBCUW" 0; GET 0x582 "VAVGSW" 0; GET 0x600 "VSUBUBS" 0; GET 0x604 "MFVSCR" 0;
   GET 0x608 "VSUM4UBS" 0; GET 0x640 "VSUBUHS" 0; GET 0x644 "MTVSCR" 0; GET 0x648 "VSUM4SHS" 0;
   GET 0x680 "VSUBUWS" 0; GET 0x688 "VSUM2SWS" 0; GET 0x700 "VSUBSBS" 0; GET 0x708 "VSUM4SBS" 0;
   GET 0x740 "VSUBSHS" 0; GET 0x780 "VSUBSWS" 0; GET 0x788 "VSUMSWS" 0].

Definition group_04 : list instruction_info := group_04_a ++ group_04_b.

Definition group_13 : list instruction_info :=
  [GET 0x000 "MCRF" 0; GET 0x010 "BCLR" 0; GET 0x021 "CRNOR" 0; GET 0x081 "CRANDC" 0;
   GET 0x096 "ISYNC" 0; GET 0x0c1 "CRXOR" 0; GET 0x0e1 "CRNAND" 0; GET 0x101 "CRAND" 0;
   GET 0x121 "CREQV" 0; GET 0x1a1 "CRORC" 0; GET 0x1c1 "CROR" 0; GET 0x210 "BCCTR" 0].

Definition group_1e : list instruction_info :=
  [GETRC 0x0 "RLDICL" 0; GETRC 0x1 "RLDICL" 0; GETRC 0x2 "RLDICR" 0; GETRC 0x3 "RLDICR" 0;
   GETRC 0x4 "RLDIC" 0; GETRC 0x5 "RLDIC" 0; GETRC 0x6 "RLDIMI" 0; GETRC 0x7 "RLDIMI" 0;
   GETRC 0x8 "RLDCL" 0; GETRC 0x9 "RLDCR" 0].

Definition group_1f_a : list instruction_info :=
  [GET 0x000 "CMP" 0; GET 0x004 "TW" 0; GET 0x006 "LVSL" 0; GET 0x007 "LVEBX" 0;
   GETRC 0x008 "SUBFC" 0; GETRC 0x208 "SUBFCO" 0; GETRC 0x009 "MULHDU" 0; GETRC 0x00a "ADDC" 0;
   GETRC 0x20a "ADDCO" 0; GETRC 0x00b "MULHWU" 0; GET 0x013 "MFOCRF" 0; GET 0x014 "LWARX" 0;
   GET 0x015 "LDX" 0; GET 0x017 "LWZX" 0; GETRC 0x018 "SLW" 0; GETRC 0x01a "CNTLZW" 0;
   GETRC 0x01b "SLD" 0; GETRC 0x01c "AND" 0; GET 0x020 "CMPL" 0; GET 0x026 "LVSR" 0;
   GET 0x027 "LVEHX" 0; GETRC 0x028 "SUBF" 0; GETRC 0x228 "SUBFO" 0; GET 0x035 "LDUX" 0;
   GET 0x036 "DCBST" 0; GET 0x037 "LWZUX" 0; GETRC 0x03a "CNTLZD" 0; GETRC 0x03c "ANDC" 0;
   GET 0x044 "TD" 0; GET 0x047 "LVEWX" 0; GETRC 0x049 "MULHD" 0; GETRC 0x04b "MULHW" 0;
   GET 0x054 "LDARX" 0; GET 0x056 "DCBF" 0; GET 0x057 "LBZX" 0; GET 0x067 "LVX" 0;
   GETRC 0x068 "NEG" 0; GETRC 0x268 "NEGO" 0; GET 0x077 "LBZUX" 0; GETRC 0x07c "NOR" 0;
   GET 0x087 "STVEBX" 0; GETRC 0x088 "SUBFE" 0; GETRC 0x288 "SUBFEO" 0; GETRC 0x08a "ADDE" 0;
   GETRC 0x28a "ADDEO" 0; GET 0x090 "MTOCRF" 0; GET 0x095 "STDX" 0; GET 0x096 "STWCX" 0;
   GET 0x097 "STWX" 0; GET 0x0a7 "STVEHX" 0; GET 0x0b5 "STDUX" 0; GET 0x0b7 "STWUX" 0;
   GET 0x0c7 "STVEWX" 0; GETRC 0x0c8 "SUBFZE" 0; GETRC 0x2c8 "SUBFZEO" 0; GETRC 0x0ca "ADDZE" 0;
   GETRC 0x2ca "ADDZEO" 0; GET 0x0d6 "STDCX" 0; GET 0x0d7 "STBX" 0; GET 0x0e7 "STVX" 0;
   GETRC 0x0e8 "SUBFME" 0; GETRC 0x2e8 "SUBFMEO" 0; GETRC 0x0e9 "MULLD" 0;
   GETRC 0x2e9 "MULLDO" 0; GETRC 0x0ea "ADDME" 0; GETRC 0x2ea "ADDMEO" 0; GETRC 0x0eb "MULLW" 0;
   GETRC 0x2eb "MULLWO" 0; GET 0x0f6 "DCBTST" 0; GET 0x0f7 "STBUX" 0; GETRC 0x10a "ADD" 0;
   GETRC 0x30a "ADDO" 0; GET 0x116 "DCBT" 0].

Definition group_1f_b : list instruction_info :=
  [GET 0x117 "LHZX" 0; GETRC 0x11c "EQV" 0; GET 0x136 "ECIWX" 0; GET 0x137 "LHZUX" 0;
   GETRC 0x13c "XOR" 0; GET 0x153 "MFSPR" 0; GET 0x155 "LWAX" 0; GET 0x156 "DST" 0;
   GET 0x157 "LHAX" 0; GET 0x167 "LVXL" 0; GET 0x173 "MFTB" 0; GET 0x175 "LWAUX" 0;
   GET 0x176 "DSTST" 0; GET 0x177 "LHAUX" 0; GET 0x197 "STHX" 0; GETRC 0x19c "ORC" 0;
   GET 0x1b6 "ECOWX" 0; GET 0x1b7 "STHUX" 0; GETRC 0x1bc "OR" 0; GETRC 0x1c9 "DIVDU" 0;
   GETRC 0x3c9 "DIVDUO" 0; GETRC 0x1cb "DIVWU" 0; GETRC 0x3cb "DIVWUO" 0; GET 0x1d3 "MTSPR" 0;
   GET 0x1d6 "DCBI" 0; GETRC 0x1dc "NAND" 0; GET 0x1e7 "STVXL" 0; GETRC 0x1e9 "DIVD" 0;
   GETRC 0x3e9 "DIVDO" 0; GETRC 0x1eb "DIVW" 0; GETRC 0x3eb "DIVWO" 0; GET 0x207 "LVLX" 0;
   GET 0x214 "LDBRX" 0; GET 0x215 "LSWX" 0; GET 0x216 "LWBRX" 0; GET 0x217 "LFSX" 0;
   GETRC 0x218 "SRW" 0; GETRC 0x21b "SRD" 0; GET 0x227 "LVRX" 0; GET 0x237 "LFSUX" 0;
   GET 0x255 "LSWI" 0; GET 0x256 "SYNC" 0; GET 0x257 "LFDX" 0; GET 0x277 "LFDUX" 0;
   GET 0x287 "STVLX" 0; GET 0x294 "STDBRX" 0; GET 0x295 "STSWX" 0; GET 0x296 "STWBRX" 0;
   GET 0x297 "STFSX" 0; GET 0x2a7 "STVRX" 0; GET 0x2b7 "STFSUX" 0; GET 0x2d5 "STSWI" 0;
   GET 0x2d7 "STFDX" 0; GET 0x2f7 "STFDUX" 0; GET 0x307 "LVLXL" 0; GET 0x316 "LHBRX" 0;
   GETRC 0x318 "SRAW" 0; GETRC 0x31a "SRAD" 0; GET 0x327 "LVRXL" 0; GET 0x336 "DSS" 0;
   GETRC 0x338 "SRAWI" 0; GETRC 0x33a "SRADI" 0; GETRC 0x33b "SRADI" 0; GET 0x356 "EIEIO" 0;
   GET 0x387 "STVLXL" 0; GET 0x396 "STHBRX" 0; GETRC 0x39a "EXTSH" 0; GET 0x3a7 "STVRXL" 0;
   GETRC 0x3ba "EXTSB" 0; GET 0x3d7 "STFIWX" 0; GETRC 0x3da "EXTSW" 0; GET 0x3d6 "ICBI" 0;
   GET 0x3f6 "DCBZ" 0].

Definition group_1f : list instruction_info := group_1f_a ++ group_1f_b.

Definition group_3a : list instruction_info :=
  [GET 0x0 "LD" 0; GET 0x1 "LDU" 0; GET 0x2 "LWA" 0].

Definition group_3b : list instruction_info :=
  [GETRC 0x12 "FDIVS" 5; GETRC 0x14 "FSUBS" 5; GETRC 0x15 "FADDS" 5; GETRC 0x16 "FSQRTS" 5;
   GETRC 0x18 "FRES" 5; GETRC 0x19 "FMULS" 5; GETRC 0x1c "FMSUBS" 5; GETRC 0x1d "FMADDS" 5;
   GETRC 0x1e "FNMSUBS" 5; GETRC 0x1f "FNMADDS" 5].

Definition group_3e : list instruction_info :=
  [GET 0x0 "STD" 0; GET 0x1 "STDU" 0].

Definition group_3f : list instruction_info :=
  [GETRC 0x026 "MTFSB1" 0; GET 0x040 "MCRFS" 0; GETRC 0x046 "MTFSB0" 0; GETRC 0x086 "MTFSFI" 0;
   GETRC 0x247 "MFFS" 0; GETRC 0x2c7 "MTFSF" 0; GET 0x000 "FCMPU" 0; GETRC 0x00c "FRSP" 0;
   GETRC 0x00e "FCTIW" 0; GETRC 0x00f "FCTIWZ" 0; GETRC 0x012 "FDIV" 5; GETRC 0x014 "FSUB" 5;
   GETRC 0x015 "FADD" 5; GETRC 0x016 "FSQRT" 5; GETRC 0x017 "FSEL" 5; GETRC 0x019 "FMUL" 5;
   GETRC 0x01a "FRSQRTE" 5; GETRC 0x01c "FMSUB" 5; GETRC 0x01d "FMADD" 5;
   GETRC 0x01e "FNMSUB" 5; GETRC 0x01f "FNMADD" 5; GET 0x020 "FCMPO" 0; GETRC 0x028 "FNEG" 0;
   GETRC 0x048 "FMR" 0; GETRC 0x088 "FNABS" 0; GETRC 0x108 "FABS" 0; GETRC 0x32e "FCTID" 0;
   GETRC 0x32f "FCTIDZ" 0; GETRC 0x34e "FCFID" 0].

(** The constructor's calls, in order, over a table full of [UNK]. *)
Record group_info := Group { g_main : Z; g_count : Z; g_sh : Z; g_entries : list instruction_info }.

Definition ppu_groups : list group_info :=
  [Group 0 6 (-1) group_main;
   Group 0x04 11 0 group_04;
   Group 0x13 10 1 group_13;
   Group 0x1e 4 1 group_1e;
   Group 0x1f 10 1 group_1f;
   Group 0x3a 2 0 group_3a;
   Group 0x3b 10 1 group_3b;
   Group 0x3e 2 0 group_3e;
   Group 0x3f 10 1 group_3f].

Definition m_table : Z -> string :=
  fold_left (fun t g => fill_table (g_main g) (g_count g) (g_sh g) (g_entries g) t)
    ppu_groups (fun _ => "UNK").

Definition decode (inst : Z) : string := m_table (ppu_decode inst).

(** [ppu_interpreter_rt::decode]: the handler of one opcode word, or one of
    the two lambdas that throw.  [ppu_itype::X] is the type of member [X]. *)
Inductive rt_func :=
| RtFunc (name : string)
| RtMFOCRF (n : Z)
| RtVSLDOI (sh : Z)
| RtThrow (e : ppu_error).

Definition absolute_forms : list string :=
  ["LWZ"; "LBZ"; "STW"; "STB"; "LHZ"; "LHA"; "STH"; "LFS"; "LFD"; "STFS"; "STFD"].

Definition rt_decode (op : Z) : rt_func :=
  let itype := decode op in
  if existsb (String.eqb itype) absolute_forms && (op_ra op =? 0) then RtThrow (InvalidR0Base op)
  else if String.eqb itype "VSLDOI" then RtVSLDOI (ppu_bf op 22 4)
  else if String.eqb itype "MFOCRF" then
    if op_l11 op then
      let n := Z.land (countl_zero 32 (op_crm op)) 7 in
      if negb (Z.shiftr 0x80 n =? op_crm op) then RtThrow (InvalidMfocrf (op_crm op))
      else RtMFOCRF n
    else RtFunc "MFCR"
  else RtFunc (decode op).
