(* ===== verification/PpuTable.v ===== *)
(** * Pointer table of the run-time interpreter

    The members of [ppu_interpreter_t] and the initialisation list of
    [ppu_interpreter_rt_base::ppu_interpreter_rt_base] in
    [rpcs3/Emu/Cell/PPUInterpreter.cpp], in source order.  [make_unique] sets
    every member to null before the list runs; a member keeps that value unless
    one of the [INIT] macros assigns it. *)
From S2P Require Import Prelude.
From Stdlib Require Import String.
#[local] Open Scope Z_scope.

(** One line of the list. *)
Inductive init :=
| INIT (name : string)
| INIT_RC (name : string)
| INIT_OV (name : string)
| INIT_RC_OV (name : string)
| INIT_VCMP (name : string)
| INIT_PACK8 (name : string)
| INIT_PACK16 (name : string).

(** The members the macro assigns; the packs fill an array [name_]. *)
Definition init_members (i : init) : list string :=
  match i with
  | INIT n => [n]
  | INIT_RC n => [n; String.append n "_"]
  | INIT_OV n => [n; String.append n "O"]
  | INIT_RC_OV n => [n; String.append n "O"; String.append n "_"; String.append n "O_"]
  | INIT_VCMP n => [n; String.append n "_"]
  | INIT_PACK8 n | INIT_PACK16 n => [String.append n "_[]"]
  end.

Definition ppu_members_1 : list string :=
  ["MFVSCR"; "MTVSCR"; "VADDCUW"; "VADDFP"; "VADDSBS"; "VADDSHS"; "VADDSWS"; "VADDUBM";
   "VADDUBS"; "VADDUHM"; "VADDUHS"; "VADDUWM"; "VADDUWS"; "VAND"; "VANDC"; "VAVGSB"; "VAVGSH";
   "VAVGSW"; "VAVGUB"; "VAVGUH"; "VAVGUW"; "VCFSX"; "VCFUX"; "VCMPBFP"; "VCMPBFP_";
   "VCMPEQFP"; "VCMPEQFP_"; "VCMPEQUB"; "VCMPEQUB_"; "VCMPEQUH"; "VCMPEQUH_"; "VCMPEQUW";
   "VCMPEQUW_"; "VCMPGEFP"; "VCMPGEFP_"; "VCMPGTFP"; "VCMPGTFP_"; "VCMPGTSB"; "VCMPGTSB_";
   "VCMPGTSH"; "VCMPGTSH_"; "VCMPGTSW"; "VCMPGTSW_"; "VCMPGTUB"; "VCMPGTUB_"; "VCMPGTUH";
   "VCMPGTUH_"; "VCMPGTUW"; "VCMPGTUW_"; "VCTSXS"; "VCTUXS"; "VEXPTEFP"; "VLOGEFP"; "VMADDFP";
   "VMAXFP"; "VMAXSB"; "VMAXSH"; "VMAXSW"; "VMAXUB"; "VMAXUH"; "VMAXUW"; "VMHADDSHS";
   "VMHRADDSHS"; "VMINFP"; "VMINSB"; "VMINSH"; "VMINSW"; "VMINUB"; "VMINUH"; "VMINUW";
   "VMLADDUHM"; "VMRGHB"; "VMRGHH"; "VMRGHW"; "VMRGLB"; "VMRGLH"; "VMRGLW"; "VMSUMMBM";
   "VMSUMSHM"; "VMSUMSHS"; "VMSUMUBM"; "VMSUMUHM"; "VMSUMUHS"; "VMULESB"; "VMULESH";
   "VMULEUB"; "VMULEUH"; "VMULOSB"; "VMULOSH"; "VMULOUB"; "VMULOUH"; "VNMSUBFP"; "VNOR";
   "VOR"; "VPERM"; "VPKPX"; "VPKSHSS"; "VPKSHUS"; "VPKSWSS"; "VPKSWUS"; "VPKUHUM"; "VPKUHUS";
   "VPKUWUM"; "VPKUWUS"; "VREFP"; "VRFIM"; "VRFIN"; "VRFIP"; "VRFIZ"; "VRLB"; "VRLH"; "VRLW";
   "VRSQRTEFP"; "VSEL"; "VSL"; "VSLB"; "VSLDOI"; "VSLDOI_[]"; "VSLH"; "VSLO"; "VSLW";
   "VSPLTB"; "VSPLTH"; "VSPLTISB"; "VSPLTISH"; "VSPLTISW"; "VSPLTW"; "VSR"; "VSRAB"; "VSRAH";
   "VSRAW"; "VSRB"; "VSRH"; "VSRO"; "VSRW"; "VSUBCUW"; "VSUBFP"; "VSUBSBS"; "VSUBSHS";
   "VSUBSWS"]%string.

Definition ppu_members_2 : list string :=
  ["VSUBUBM"; "VSUBUBS"; "VSUBUHM"; "VSUBUHS"; "VSUBUWM"; "VSUBUWS"; "VSUMSWS"; "VSUM2SWS";
   "VSUM4SBS"; "VSUM4SHS"; "VSUM4UBS"; "VUPKHPX"; "VUPKHSB"; "VUPKHSH"; "VUPKLPX"; "VUPKLSB";
   "VUPKLSH"; "VXOR"; "TDI"; "TWI"; "MULLI"; "SUBFIC"; "CMPLI"; "CMPI"; "ADDIC"; "ADDI";
   "ADDIS"; "BC"; "SC"; "B"; "MCRF"; "BCLR"; "CRNOR"; "CRANDC"; "ISYNC"; "CRXOR"; "CRNAND";
   "CRAND"; "CREQV"; "CRORC"; "CROR"; "BCCTR"; "RLWIMI"; "RLWINM"; "RLWNM"; "ORI"; "ORIS";
   "XORI"; "XORIS"; "ANDI"; "ANDIS"; "RLDICL"; "RLDICR"; "RLDIC"; "RLDIMI"; "RLDCL"; "RLDCR";
   "CMP"; "TW"; "LVSL"; "LVEBX"; "SUBFC"; "ADDC"; "MULHDU"; "MULHWU"; "MFOCRF"; "MFOCRF_[]";
   "MFCR"; "LWARX"; "LDX"; "LWZX"; "SLW"; "CNTLZW"; "SLD"; "AND"; "CMPL"; "LVSR"; "LVEHX";
   "SUBF"; "LDUX"; "DCBST"; "LWZUX"; "CNTLZD"; "ANDC"; "TD"; "LVEWX"; "MULHD"; "MULHW";
   "LDARX"; "DCBF"; "LBZX"; "LVX"; "NEG"; "LBZUX"; "NOR"; "STVEBX"; "SUBFE"; "ADDE"; "MTOCRF";
   "STDX"; "STWCX"; "STWX"; "STVEHX"; "STDUX"; "STWUX"; "STVEWX"; "SUBFZE"; "ADDZE"; "STDCX";
   "STBX"; "STVX"; "SUBFME"; "MULLD"; "ADDME"; "MULLW"; "DCBTST"; "STBUX"; "ADD"; "DCBT";
   "LHZX"; "EQV"; "ECIWX"; "LHZUX"; "XOR"; "MFSPR"; "LWAX"; "DST"; "LHAX"; "LVXL"; "MFTB";
   "LWAUX"; "DSTST"; "LHAUX"; "STHX"; "ORC"; "ECOWX"; "STHUX"; "OR"; "DIVDU"; "DIVWU"]%string.

Definition ppu_members_3 : list string :=
  ["MTSPR"; "DCBI"; "NAND"; "STVXL"; "DIVD"; "DIVW"; "LVLX"; "LDBRX"; "LSWX"; "LWBRX"; "LFSX";
   "SRW"; "SRD"; "LVRX"; "LSWI"; "LFSUX"; "SYNC"; "LFDX"; "LFDUX"; "STVLX"; "STDBRX"; "STSWX";
   "STWBRX"; "STFSX"; "STVRX"; "STFSUX"; "STSWI"; "STFDX"; "STFDUX"; "LVLXL"; "LHBRX"; "SRAW";
   "SRAD"; "LVRXL"; "DSS"; "SRAWI"; "SRADI"; "EIEIO"; "STVLXL"; "STHBRX"; "EXTSH"; "STVRXL";
   "EXTSB"; "STFIWX"; "EXTSW"; "ICBI"; "DCBZ"; "LWZ"; "LWZU"; "LBZ"; "LBZU"; "STW"; "STWU";
   "STB"; "STBU"; "LHZ"; "LHZU"; "LHA"; "LHAU"; "STH"; "STHU"; "LMW"; "STMW"; "LFS"; "LFSU";
   "LFD"; "LFDU"; "STFS"; "STFSU"; "STFD"; "STFDU"; "LD"; "LDU"; "LWA"; "STD"; "STDU";
   "FDIVS"; "FSUBS"; "FADDS"; "FSQRTS"; "FRES"; "FMULS"; "FMADDS"; "FMSUBS"; "FNMSUBS";
   "FNMADDS"; "MTFSB1"; "MCRFS"; "MTFSB0"; "MTFSFI"; "MFFS"; "MTFSF"; "FCMPU"; "FRSP";
   "FCTIW"; "FCTIWZ"; "FDIV"; "FSUB"; "FADD"; "FSQRT"; "FSEL"; "FMUL"; "FRSQRTE"; "FMSUB";
   "FMADD"; "FNMSUB"; "FNMADD"; "FCMPO"; "FNEG"; "FMR"; "FNABS"; "FABS"; "FCTID"; "FCTIDZ";
   "FCFID"; "UNK"; "SUBFCO"; "ADDCO"; "SUBFO"; "NEGO"; "SUBFEO"; "ADDEO"; "SUBFZEO"; "ADDZEO";
   "SUBFMEO"; "MULLDO"; "ADDMEO"; "MULLWO"; "ADDO"; "DIVDUO"; "DIVWUO"; "DIVDO"; "DIVWO";
   "SUBFCO_"; "ADDCO_"; "SUBFO_"; "NEGO_"; "SUBFEO_"; "ADDEO_"; "SUBFZEO_"]%string.

Definition ppu_members_4 : list string :=
  ["ADDZEO_"; "SUBFMEO_"; "MULLDO_"; "ADDMEO_"; "MULLWO_"; "ADDO_"; "DIVDUO_"; "DIVWUO_";
   "DIVDO_"; "DIVWO_"; "RLWIMI_"; "RLWINM_"; "RLWNM_"; "RLDICL_"; "RLDICR_"; "RLDIC_";
   "RLDIMI_"; "RLDCL_"; "RLDCR_"; "SUBFC_"; "MULHDU_"; "ADDC_"; "MULHWU_"; "SLW_"; "CNTLZW_";
   "SLD_"; "AND_"; "SUBF_"; "CNTLZD_"; "ANDC_"; "MULHD_"; "MULHW_"; "NEG_"; "NOR_"; "SUBFE_";
   "ADDE_"; "SUBFZE_"; "ADDZE_"; "MULLD_"; "SUBFME_"; "ADDME_"; "MULLW_"; "ADD_"; "EQV_";
   "XOR_"; "ORC_"; "OR_"; "DIVDU_"; "DIVWU_"; "NAND_"; "DIVD_"; "DIVW_"; "SRW_"; "SRD_";
   "SRAW_"; "SRAD_"; "SRAWI_"; "SRADI_"; "EXTSH_"; "EXTSB_"; "EXTSW_"; "FDIVS_"; "FSUBS_";
   "FADDS_"; "FSQRTS_"; "FRES_"; "FMULS_"; "FMADDS_"; "FMSUBS_"; "FNMSUBS_"; "FNMADDS_";
   "MTFSB1_"; "MTFSB0_"; "MTFSFI_"; "MFFS_"; "MTFSF_"; "FRSP_"; "FCTIW_"; "FCTIWZ_"; "FDIV_";
   "FSUB_"; "FADD_"; "FSQRT_"; "FSEL_"; "FMUL_"; "FRSQRTE_"; "FMSUB_"; "FMADD_"; "FNMSUB_";
   "FNMADD_"; "FNEG_"; "FMR_"; "FNABS_"; "FABS_"; "FCTID_"; "FCTIDZ_"; "FCFID_"]%string.

Definition ppu_members : list string :=
  ppu_members_1 ++ ppu_members_2 ++ ppu_members_3 ++ ppu_members_4.

Definition ppu_inits_1 : list init :=
  [INIT "MFVSCR"; INIT "MTVSCR"; INIT "VADDCUW"; INIT "VADDFP"; INIT "VADDSBS";
   INIT "VADDSHS"; INIT "VADDSWS"; INIT "VADDUBM"; INIT "VADDUBS"; INIT "VADDUHM";
   INIT "VADDUHS"; INIT "VADDUWM"; INIT "VADDUWS"; INIT "VAND"; INIT "VANDC"; INIT "VAVGSB";
   INIT "VAVGSH"; INIT "VAVGSW"; INIT "VAVGUB"; INIT "VAVGUH"; INIT "VAVGUW"; INIT "VCFSX";
   INIT "VCFUX"; INIT_VCMP "VCMPBFP"; INIT_VCMP "VCMPEQFP"; INIT_VCMP "VCMPEQUB";
   INIT_VCMP "VCMPEQUH"; INIT_VCMP "VCMPEQUW"; INIT_VCMP "VCMPGEFP"; INIT_VCMP "VCMPGTFP";
   INIT_VCMP "VCMPGTSB"; INIT_VCMP "VCMPGTSH"; INIT_VCMP "VCMPGTSW"; INIT_VCMP "VCMPGTUB";
   INIT_VCMP "VCMPGTUH"; INIT_VCMP "VCMPGTUW"; INIT "VCTSXS"; INIT "VCTUXS"; INIT "VEXPTEFP";
   INIT "VLOGEFP"; INIT "VMADDFP"; INIT "VMAXFP"; INIT "VMAXSB"; INIT "VMAXSH"; INIT "VMAXSW";
   INIT "VMAXUB"; INIT "VMAXUH"; INIT "VMAXUW"; INIT "VMHADDSHS"; INIT "VMHRADDSHS";
   INIT "VMINFP"; INIT "VMINSB"; INIT "VMINSH"; INIT "VMINSW"; INIT "VMINUB"; INIT "VMINUH";
   INIT "VMINUW"; INIT "VMLADDUHM"; INIT "VMRGHB"; INIT "VMRGHH"; INIT "VMRGHW";
   INIT "VMRGLB"; INIT "VMRGLH"; INIT "VMRGLW"; INIT "VMSUMMBM"; INIT "VMSUMSHM";
   INIT "VMSUMSHS"; INIT "VMSUMUBM"; INIT "VMSUMUHM"; INIT "VMSUMUHS"; INIT "VMULESB";
   INIT "VMULESH"; INIT "VMULEUB"; INIT "VMULEUH"; INIT "VMULOSB"; INIT "VMULOSH";
   INIT "VMULOUB"; INIT "VMULOUH"; INIT "VNMSUBFP"; INIT "VNOR"; INIT "VOR"; INIT "VPERM";
   INIT "VPKPX"; INIT "VPKSHSS"; INIT "VPKSHUS"; INIT "VPKSWSS"; INIT "VPKSWUS";
   INIT "VPKUHUM"; INIT "VPKUHUS"; INIT "VPKUWUM"; INIT "VPKUWUS"; INIT "VREFP"; INIT "VRFIM";
   INIT "VRFIN"; INIT "VRFIP"; INIT "VRFIZ"; INIT "VRLB"; INIT "VRLH"; INIT "VRLW";
   INIT "VRSQRTEFP"; INIT "VSEL"; INIT "VSL"; INIT "VSLB"; INIT_PACK16 "VSLDOI"; INIT "VSLH";
   INIT "VSLO"; INIT "VSLW"; INIT "VSPLTB"; INIT "VSPLTH"; INIT "VSPLTISB"; INIT "VSPLTISH";
   INIT "VSPLTISW"; INIT "VSPLTW"; INIT "VSR"; INIT "VSRAB"; INIT "VSRAH"; INIT "VSRAW";
   INIT "VSRB"; INIT "VSRH"; INIT "VSRO"; INIT "VSRW"; INIT "VSUBCUW"; INIT "VSUBFP";
   INIT "VSUBSBS"; INIT "VSUBSHS"]%string.

Definition ppu_inits_2 : list init :=
  [INIT "VSUBSWS"; INIT "VSUBUBM"; INIT "VSUBUBS"; INIT "VSUBUHM"; INIT "VSUBUHS";
   INIT "VSUBUWM"; INIT "VSUBUWS"; INIT "VSUMSWS"; INIT "VSUM2SWS"; INIT "VSUM4SBS";
   INIT "VSUM4SHS"; INIT "VSUM4UBS"; INIT "VUPKHPX"; INIT "VUPKHSB"; INIT "VUPKHSH";
   INIT "VUPKLPX"; INIT "VUPKLSB"; INIT "VUPKLSH"; INIT "VXOR"; INIT "TDI"; INIT "TWI";
   INIT "MULLI"; INIT "SUBFIC"; INIT "CMPLI"; INIT "CMPI"; INIT "ADDIC"; INIT "ADDI";
   INIT "ADDIS"; INIT "BC"; INIT "SC"; INIT "B"; INIT "MCRF"; INIT "BCLR"; INIT "CRNOR";
   INIT "CRANDC"; INIT "ISYNC"; INIT "CRXOR"; INIT "CRNAND"; INIT "CRAND"; INIT "CREQV";
   INIT "CRORC"; INIT "CROR"; INIT "BCCTR"; INIT_RC "RLWIMI"; INIT_RC "RLWINM";
   INIT_RC "RLWNM"; INIT "ORI"; INIT "ORIS"; INIT "XORI"; INIT "XORIS"; INIT "ANDI";
   INIT "ANDIS"; INIT_RC "RLDICL"; INIT_RC "RLDICR"; INIT_RC "RLDIC"; INIT_RC "RLDIMI";
   INIT_RC "RLDCL"; INIT_RC "RLDCR"; INIT "CMP"; INIT "TW"; INIT "LVSL"; INIT "LVEBX";
   INIT_RC_OV "SUBFC"; INIT_RC_OV "ADDC"; INIT_RC "MULHDU"; INIT_RC "MULHWU";
   INIT_PACK8 "MFOCRF"; INIT "MFCR"; INIT "LWARX"; INIT "LDX"; INIT "LWZX"; INIT_RC "SLW";
   INIT_RC "CNTLZW"; INIT_RC "SLD"; INIT_RC "AND"; INIT "CMPL"; INIT "LVSR"; INIT "LVEHX";
   INIT_RC_OV "SUBF"; INIT "LDUX"; INIT "DCBST"; INIT "LWZUX"; INIT_RC "CNTLZD";
   INIT_RC "ANDC"; INIT "TD"; INIT "LVEWX"; INIT_RC "MULHD"; INIT_RC "MULHW"; INIT "LDARX";
   INIT "DCBF"; INIT "LBZX"; INIT "LVX"; INIT_RC_OV "NEG"; INIT "LBZUX"; INIT_RC "NOR";
   INIT "STVEBX"; INIT_OV "SUBFE"; INIT_OV "ADDE"; INIT "MTOCRF"; INIT "STDX"; INIT "STWCX";
   INIT "STWX"; INIT "STVEHX"; INIT "STDUX"; INIT "STWUX"; INIT "STVEWX"; INIT_RC_OV "SUBFZE";
   INIT_RC_OV "ADDZE"; INIT "STDCX"; INIT "STBX"; INIT "STVX"; INIT_RC_OV "SUBFME";
   INIT_RC_OV "MULLD"; INIT_RC_OV "ADDME"; INIT_RC_OV "MULLW"; INIT "DCBTST"; INIT "STBUX";
   INIT_RC_OV "ADD"; INIT "DCBT"; INIT "LHZX"; INIT_RC "EQV"; INIT "ECIWX"; INIT "LHZUX";
   INIT_RC "XOR"; INIT "MFSPR"]%string.

Definition ppu_inits_3 : list init :=
  [INIT "LWAX"; INIT "DST"; INIT "LHAX"; INIT "LVXL"; INIT "MFTB"; INIT "LWAUX"; INIT "DSTST";
   INIT "LHAUX"; INIT "STHX"; INIT_RC "ORC"; INIT "ECOWX"; INIT "STHUX"; INIT_RC "OR";
   INIT_RC_OV "DIVDU"; INIT_RC_OV "DIVWU"; INIT "MTSPR"; INIT "DCBI"; INIT_RC "NAND";
   INIT "STVXL"; INIT_RC_OV "DIVD"; INIT_RC_OV "DIVW"; INIT "LVLX"; INIT "LDBRX"; INIT "LSWX";
   INIT "LWBRX"; INIT "LFSX"; INIT_RC "SRW"; INIT_RC "SRD"; INIT "LVRX"; INIT "LSWI";
   INIT "LFSUX"; INIT "SYNC"; INIT "LFDX"; INIT "LFDUX"; INIT "STVLX"; INIT "STDBRX";
   INIT "STSWX"; INIT "STWBRX"; INIT "STFSX"; INIT "STVRX"; INIT "STFSUX"; INIT "STSWI";
   INIT "STFDX"; INIT "STFDUX"; INIT "LVLXL"; INIT "LHBRX"; INIT_RC "SRAW"; INIT_RC "SRAD";
   INIT "LVRXL"; INIT "DSS"; INIT_RC "SRAWI"; INIT_RC "SRADI"; INIT "EIEIO"; INIT "STVLXL";
   INIT "STHBRX"; INIT_RC "EXTSH"; INIT "STVRXL"; INIT_RC "EXTSB"; INIT "STFIWX";
   INIT_RC "EXTSW"; INIT "ICBI"; INIT "DCBZ"; INIT "LWZ"; INIT "LWZU"; INIT "LBZ";
   INIT "LBZU"; INIT "STW"; INIT "STWU"; INIT "STB"; INIT "STBU"; INIT "LHZ"; INIT "LHZU";
   INIT "LHA"; INIT "LHAU"; INIT "STH"; INIT "STHU"; INIT "LMW"; INIT "STMW"; INIT "LFS";
   INIT "LFSU"; INIT "LFD"; INIT "LFDU"; INIT "STFS"; INIT "STFSU"; INIT "STFD"; INIT "STFDU";
   INIT "LD"; INIT "LDU"; INIT "LWA"; INIT "STD"; INIT "STDU"; INIT_RC "FDIVS";
   INIT_RC "FSUBS"; INIT_RC "FADDS"; INIT_RC "FSQRTS"; INIT_RC "FRES"; INIT_RC "FMULS";
   INIT_RC "FMADDS"; INIT_RC "FMSUBS"; INIT_RC "FNMSUBS"; INIT_RC "FNMADDS"; INIT_RC "MTFSB1";
   INIT "MCRFS"; INIT_RC "MTFSB0"; INIT_RC "MTFSFI"; INIT_RC "MFFS"; INIT_RC "MTFSF";
   INIT "FCMPU"; INIT_RC "FRSP"; INIT_RC "FCTIW"; INIT_RC "FCTIWZ"; INIT_RC "FDIV";
   INIT_RC "FSUB"; INIT_RC "FADD"; INIT_RC "FSQRT"; INIT_RC "FSEL"; INIT_RC "FMUL";
   INIT_RC "FRSQRTE"; INIT_RC "FMSUB"; INIT_RC "FMADD"; INIT_RC "FNMSUB"; INIT_RC "FNMADD";
   INIT "FCMPO"; INIT_RC "FNEG"; INIT_RC "FMR"]%string.

Definition ppu_inits_4 : list init :=
  [INIT_RC "FNABS"; INIT_RC "FABS"; INIT_RC "FCTID"; INIT_RC "FCTIDZ"; INIT_RC "FCFID";
   INIT "UNK"]%string.

Definition ppu_inits : list init :=
  ppu_inits_1 ++ ppu_inits_2 ++ ppu_inits_3 ++ ppu_inits_4.

Definition initialised (name : string) : bool :=
  existsb (String.eqb name) (ppu_inits ≫= init_members).

(** The members that are still null after the constructor. *)
Definition null_members : list string :=
  List.filter (fun n => negb (initialised n)) ppu_members.
