(* ===== verification/PpuStep.v ===== *)
(** * PPU interpreter: one instruction

    Composition of the decoder with the modelled handlers: [rt_decode] names
    the handler of an opcode word, [handlers] maps the names that
    [ppu_interpreter_rt_base] assigns to the handler with its template flags,
    and [step] runs it.  Names of handlers outside the model (vector and
    floating-point arithmetic, reservations) are absent from the table. *)
From S2P Require Import Prelude PpuState PpuInt PpuBranch PpuMem PpuDecode.
From Stdlib Require Import String.
#[local] Open Scope Z_scope.

Section Step.
Context `{Cfg : PpuConfig}.

(** A handler: address of the instruction, opcode word, thread. *)
Definition handler : Type := Z -> Z -> ppu_thread -> outcome.

Definition plain_h (f : Z -> ppu_thread -> ppu_thread) : handler := fun _ op s => Next (f op s).
Definition flags_h (f : exec_flags -> Z -> ppu_thread -> ppu_thread) (oe rc : bool) : handler :=
  fun _ op s => Next (f (Flags oe rc) op s).
Definition mem_h (m : Z -> M unit) : handler := fun _ op s => exec (m op) s.

(** The pointers [INIT_RC] and [INIT_RC_OV] assign. *)
Definition init_rc (n : string) (f : exec_flags -> Z -> ppu_thread -> ppu_thread) : list (string * handler) :=
  [(n, flags_h f false false); (String.append n "_", flags_h f false true)].
Definition init_ov (n : string) (f : exec_flags -> Z -> ppu_thread -> ppu_thread) : list (string * handler) :=
  [(n, flags_h f false false); (String.append n "O", flags_h f true false)].
Definition init_rc_ov (n : string) (f : exec_flags -> Z -> ppu_thread -> ppu_thread) : list (string * handler) :=
  init_ov n f ++ [(String.append n "_", flags_h f false true); (String.append n "O_", flags_h f true true)].

Definition plain_handlers : list (string * handler) :=
  [("MULLI", plain_h MULLI); ("SUBFIC", plain_h SUBFIC); ("CMPLI", plain_h CMPLI);
   ("CMPI", plain_h CMPI); ("ADDIC", plain_h ADDIC); ("ADDI", plain_h ADDI);
   ("ADDIS", plain_h ADDIS); ("MCRF", plain_h MCRF); ("CRNOR", plain_h CRNOR);
   ("CRANDC", plain_h CRANDC); ("CRXOR", plain_h CRXOR); ("CRNAND", plain_h CRNAND);
   ("CRAND", plain_h CRAND); ("CREQV", plain_h CREQV); ("CRORC", plain_h CRORC);
   ("CROR", plain_h CROR); ("ORI", plain_h ORI); ("ORIS", plain_h ORIS);
   ("XORI", plain_h XORI); ("XORIS", plain_h XORIS); ("ANDI", plain_h ANDI);
   ("ANDIS", plain_h ANDIS); ("CMP", plain_h CMP); ("CMPL", plain_h CMPL);
   ("MFCR", plain_h MFCR); ("MTOCRF", plain_h MTOCRF); ("LVSL", plain_h LVSL);
   ("LVSR", plain_h LVSR); ("DCBST", plain_h DCBST); ("DCBF", plain_h DCBF);
   ("DCBT", plain_h DCBT); ("DCBTST", plain_h DCBTST); ("DCBI", plain_h DCBI);
   ("DST", plain_h DST); ("DSTST", plain_h DSTST); ("DSS", plain_h DSS);
   ("ICBI", plain_h ICBI)]%string.

Definition mem_handlers : list (string * handler) :=
  [("LBZ", mem_h LBZ); ("LBZU", mem_h LBZU); ("LHZ", mem_h LHZ); ("LHZU", mem_h LHZU);
   ("LHA", mem_h LHA); ("LHAU", mem_h LHAU); ("LWZ", mem_h LWZ); ("LWZU", mem_h LWZU);
   ("LD", mem_h LD); ("LDU", mem_h LDU); ("LWA", mem_h LWA); ("LBZX", mem_h LBZX);
   ("LHZX", mem_h LHZX); ("LHAX", mem_h LHAX); ("LWZX", mem_h LWZX); ("LWAX", mem_h LWAX);
   ("LDX", mem_h LDX); ("LBZUX", mem_h LBZUX); ("LHZUX", mem_h LHZUX);
   ("LHAUX", mem_h LHAUX); ("LWZUX", mem_h LWZUX); ("LWAUX", mem_h LWAUX);
   ("LDUX", mem_h LDUX); ("LHBRX", mem_h LHBRX); ("LWBRX", mem_h LWBRX);
   ("LDBRX", mem_h LDBRX); ("STB", mem_h STB); ("STBU", mem_h STBU); ("STH", mem_h STH);
   ("STHU", mem_h STHU); ("STWU", mem_h STWU); ("STD", mem_h STD); ("STDU", mem_h STDU);
   ("STBX", mem_h STBX); ("STHX", mem_h STHX); ("STWX", mem_h STWX); ("STDX", mem_h STDX);
   ("STBUX", mem_h STBUX); ("STHUX", mem_h STHUX); ("STWUX", mem_h STWUX);
   ("STDUX", mem_h STDUX); ("STHBRX", mem_h STHBRX); ("STWBRX", mem_h STWBRX);
   ("STDBRX", mem_h STDBRX); ("LFD", mem_h LFD); ("LFDU", mem_h LFDU); ("LFDX", mem_h LFDX);
   ("LFDUX", mem_h LFDUX); ("STFD", mem_h STFD); ("STFDU", mem_h STFDU);
   ("STFDX", mem_h STFDX); ("STFDUX", mem_h STFDUX); ("STFIWX", mem_h STFIWX);
   ("LMW", mem_h LMW); ("STMW", mem_h STMW); ("LSWX", mem_h LSWX); ("STSWX", mem_h STSWX);
   ("LSWI", mem_h LSWI); ("STSWI", mem_h STSWI); ("LVX", mem_h LVX); ("LVXL", mem_h LVXL);
   ("LVEBX", mem_h LVEBX); ("LVEHX", mem_h LVEHX); ("LVEWX", mem_h LVEWX);
   ("STVX", mem_h STVX); ("STVXL", mem_h STVXL); ("STVEBX", mem_h STVEBX);
   ("STVEHX", mem_h STVEHX); ("STVEWX", mem_h STVEWX); ("LVLX", mem_h LVLX);
   ("LVRX", mem_h LVRX); ("LVLXL", mem_h LVLXL); ("LVRXL", mem_h LVRXL);
   ("STVLX", mem_h STVLX); ("STVRX", mem_h STVRX); ("STVLXL", mem_h STVLXL);
   ("STVRXL", mem_h STVRXL); ("ECIWX", mem_h ECIWX); ("ECOWX", mem_h ECOWX)]%string.

Definition rc_handlers : list (string * (exec_flags -> Z -> ppu_thread -> ppu_thread)) :=
  [("RLWIMI", RLWIMI); ("RLWINM", RLWINM); ("RLWNM", RLWNM); ("RLDICL", RLDICL);
   ("RLDICR", RLDICR); ("RLDIC", RLDIC); ("RLDIMI", RLDIMI); ("RLDCL", RLDCL);
   ("RLDCR", RLDCR); ("MULHDU", MULHDU); ("MULHWU", MULHWU); ("SLW", SLW);
   ("CNTLZW", CNTLZW); ("SLD", SLD); ("AND", AND); ("CNTLZD", CNTLZD); ("ANDC", ANDC);
   ("MULHD", MULHD); ("MULHW", MULHW); ("NOR", NOR); ("EQV", EQV); ("XOR", XOR);
   ("ORC", ORC); ("OR", OR); ("NAND", NAND); ("SRW", SRW); ("SRD", SRD); ("SRAW", SRAW);
   ("SRAD", SRAD); ("SRAWI", SRAWI); ("SRADI", SRADI); ("EXTSH", EXTSH); ("EXTSB", EXTSB);
   ("EXTSW", EXTSW)]%string.

Definition rc_ov_handlers : list (string * (exec_flags -> Z -> ppu_thread -> ppu_thread)) :=
  [("SUBFC", SUBFC); ("ADDC", ADDC); ("SUBF", SUBF); ("NEG", NEG); ("SUBFZE", SUBFZE);
   ("ADDZE", ADDZE); ("SUBFME", SUBFME); ("MULLD", MULLD); ("ADDME", ADDME);
   ("MULLW", MULLW); ("ADD", ADD); ("DIVDU", DIVDU); ("DIVWU", DIVWU); ("DIVD", DIVD);
   ("DIVW", DIVW)]%string.

Definition ov_handlers : list (string * (exec_flags -> Z -> ppu_thread -> ppu_thread)) :=
  [("SUBFE", SUBFE); ("ADDE", ADDE)]%string.

(** Handlers with their own control flow; [tb] is the time base. *)
Definition control_handlers (tb : Z) : list (string * handler) :=
  [("TDI", TDI); ("TWI", TWI); ("TD", TD); ("TW", TW); ("BC", BC); ("B", B); ("BCLR", BCLR);
   ("BCCTR", BCCTR); ("SC", SC); ("MFSPR", fun _ => MFSPR tb); ("MFTB", fun _ => MFTB tb);
   ("MTSPR", fun _ => MTSPR); ("STW", fun _ => STW)]%string.

Definition handlers (tb : Z) : list (string * handler) :=
  plain_handlers ++ mem_handlers ++ (rc_handlers ≫= fun nf => init_rc nf.1 nf.2) ++
  (rc_ov_handlers ≫= fun nf => init_rc_ov nf.1 nf.2) ++
  (ov_handlers ≫= fun nf => init_ov nf.1 nf.2) ++ control_handlers tb.

Fixpoint lookup_handler (name : string) (l : list (string * handler)) : option handler :=
  match l with
  | [] => None
  | (n, h) :: l => if String.eqb name n then Some h else lookup_handler name l
  end.

(** Run the instruction word [op] at [pc]; [None] outside the model. *)
Definition step (tb pc op : Z) (s : ppu_thread) : option outcome :=
  match rt_decode op with
  | RtThrow e => Some (Throw s e)
  | RtMFOCRF n => Some (Next (MFOCRF n op s))
  | RtVSLDOI _ => None
  | RtFunc name => h ← lookup_handler name (handlers tb); Some (h pc op s)
  end.

(** ** Running from memory *)

(** The four bytes at [pc], as the instruction stream is read. *)
Definition fetch (s : ppu_thread) (pc : Z) : Z := be_val (read_bytes (mem s) pc 4).

(** A run of instructions: [Next] falls through to [pc + 4], [Return] goes on
    at [cia]; everything else stops the run. *)
Fixpoint run (fuel : nat) (tb pc : Z) (s : ppu_thread) : option (Z * outcome) :=
  match fuel with
  | O => Some (pc, Next s)
  | S fuel =>
    o ← step tb pc (fetch s pc) s;
    match o with
    | Next s' => run fuel tb (u32 (pc + 4)) s'
    | NextUpdate s' _ => run fuel tb (u32 (pc + 4)) s'
    | Return s' => run fuel tb (cia s') s'
    | _ => Some (pc, o)
    end
  end.

End Step.
