(* ===== verification/PpuIntProofs.v ===== *)
(** * Fixed-point instructions: correctness

    Theorems about the handlers of [PpuInt]: carries and overflow against exact
    integer arithmetic, multi-word sequences, products and quotients, shifts,
    rotates bit by bit, leading-zero counts and the CR and XER transfers. *)
From S2P Require Import Prelude PpuState PpuInt.

(** ** Specifications *)

(** The value an instruction leaves in [rd], with the carry as bit 64. *)
Definition carry_result (s : ppu_thread) (op : Z) : Z := gpr s (op_rd op) + 2 ^ 64 * Z.b2z (xer_ca s).

(** [x] does not fit a signed [w]-bit integer. *)
Definition signed_ov (w x : Z) : bool := negb ((- 2 ^ (w - 1) <=? x) && (x <? 2 ^ (w - 1))).

(** [OV] and [SO] of an instruction executed with [OE] set whose exact signed result is [x]. *)
Definition ov_reports (w : Z) (s s' : ppu_thread) (x : Z) : Prop :=
  xer_ov s' = signed_ov w x /\ xer_so s' = xer_so s || signed_ov w x.

(** A 128-bit quantity held in two registers. *)
Definition pair128 (hi lo : Z) : Z := hi * 2 ^ 64 + lo.

(** Signed division: 0 where undefined, else truncated. *)
Definition div_traps (w a b : Z) : bool := (b =? 0) || ((a =? - 2 ^ (w - 1)) && (b =? -1)).
Definition div_result (w a b r : Z) : Prop :=
  if div_traps w a b then r = 0
  else a = b * r + Z.rem a b /\ Z.abs (Z.rem a b) < Z.abs b /\ 0 <= Z.rem a b * a.

(** Result and carry of an algebraic right shift of [rs] by [n]. *)
Definition sra_spec (rs n r : Z) (ca : bool) : Prop :=
  s64 r = rs / 2 ^ n /\ ca = (rs <? 0) && negb (rs mod 2 ^ n =? 0).

(** Bit [j] of a doubleword counted from the most significant end, and
    membership in the circular range [mb..me] of such positions. *)
Definition pbit (x j : Z) : bool := Z.testbit x (63 - j).
Definition in_range (mb me j : Z) : bool :=
  if mb <=? me then (mb <=? j) && (j <=? me) else (j <=? me) || (mb <=? j).

Section IntProofs.
Context `{Cfg : PpuConfig}.
Implicit Types (op : Z) (fl : exec_flags) (s : ppu_thread).

(** ** Carries *)

Ltac word_arg := first [done | apply bnot64_word | by apply wrap_range | split; lia].

Lemma add64_flags_exact a b :
  is_word 64 a -> is_word 64 b ->
  let r := add64_flags a b in is_word 64 r.1 /\ r.1 + 2 ^ 64 * Z.b2z r.2 = a + b.
Proof.
  intros Ha Hb r. subst r. unfold add64_flags. cbn -[Z.ltb wrap].
  split; [by apply wrap_range|]. unfold Z.b2z. word_lia.
Qed.

Lemma add64_flags_c_exact a b c :
  is_word 64 a -> is_word 64 b ->
  let r := add64_flags_c a b c in is_word 64 r.1 /\ r.1 + 2 ^ 64 * Z.b2z r.2 = a + b + Z.b2z c.
Proof.
  intros Ha Hb r. subst r. unfold add64_flags_c.
  pose proof (add64_flags_exact a b Ha Hb) as [Hr0 H0].
  destruct (add64_flags a b) as [r0 c0]. cbn [fst snd] in *.
  assert (Hc : is_word 64 (Z.b2z c)) by (destruct c; cbn; word_lia).
  pose proof (add64_flags_exact r0 (Z.b2z c) Hr0 Hc) as [Hr1 H1].
  destruct (add64_flags r0 (Z.b2z c)) as [r1 c1]. cbn [fst snd] in *.
  split; [done|]. unfold is_word in *. destruct c0, c1, c; cbn [Z.b2z orb] in *; lia.
Qed.

Lemma add64_flags_c_eq a b c :
  is_word 64 a -> is_word 64 b ->
  (add64_flags_c a b c).1 + 2 ^ 64 * Z.b2z (add64_flags_c a b c).2 = a + b + Z.b2z c.
Proof. apply add64_flags_c_exact. Qed.

Lemma add64_flags_c_wrap a b c : (add64_flags_c a b c).1 = u64 (a + b + Z.b2z c).
Proof. unfold add64_flags_c, add64_flags. cbn [fst snd]. unfold wrap. by rewrite Zplus_mod_idemp_l. Qed.

Lemma put_carry_gpr fl op r ov s : gpr (put_carry fl op r ov s) (op_rd op) = r.1.
Proof. unfold put_carry. ppu_simpl. done. Qed.

Lemma put_carry_ca fl op r ov s : xer_ca (put_carry fl op r ov s) = r.2.
Proof. unfold put_carry. ppu_simpl. done. Qed.

Lemma put_carry_ov fl op r ov s :
  let s' := put_carry fl op r ov s in
  (xer_ov s', xer_so s') =
  if has_oe fl then (ov, xer_so s || ov) else (xer_ov s, xer_so s).
Proof. unfold put_carry. cbv zeta. ppu_simpl. unfold record_ov. by destruct (has_oe fl). Qed.

Lemma carry_result_put fl op r ov s :
  carry_result (put_carry fl op r ov s) op = r.1 + 2 ^ 64 * Z.b2z r.2.
Proof. unfold carry_result. by rewrite put_carry_gpr, put_carry_ca. Qed.

Lemma gpr_put_carry fl op r ov s i :
  gpr (put_carry fl op r ov s) i = if i =? op_rd op then r.1 else gpr s i.
Proof. unfold put_carry. rewrite !gpr_record_cr0, gpr_record_ov. done. Qed.

Lemma gpr_put_rd fl op v s i : gpr (put_rd fl op v s) i = if i =? op_rd op then v else gpr s i.
Proof. unfold put_rd. by rewrite gpr_record_cr0. Qed.

Lemma gpr_put_ra fl op v s i : gpr (put_ra fl op v s) i = if i =? op_ra op then v else gpr s i.
Proof. unfold put_ra. by rewrite gpr_record_cr0. Qed.

(** C16: the carrying instructions are exact: result plus 2^64 times CA is the sum of the two addends and the carry in, for ADDC, ADDE, ADDZE, ADDME, SUBFC, SUBFE, SUBFZE, SUBFME, SUBFIC and ADDIC. *)
Theorem carrying_ops_exact fl op s :
  gpr_wf s ->
  let a := gpr s (op_ra op) in let b := gpr s (op_rb op) in let c := Z.b2z (xer_ca s) in
  carry_result (ADDC fl op s) op = a + b /\
  carry_result (ADDE fl op s) op = a + b + c /\
  carry_result (ADDZE fl op s) op = a + c /\
  carry_result (ADDME fl op s) op = a + (2 ^ 64 - 1) + c /\
  carry_result (SUBFC fl op s) op = (2 ^ 64 - 1 - a) + b + 1 /\
  carry_result (SUBFE fl op s) op = (2 ^ 64 - 1 - a) + b + c /\
  carry_result (SUBFZE fl op s) op = (2 ^ 64 - 1 - a) + c /\
  carry_result (SUBFME fl op s) op = (2 ^ 64 - 1 - a) + (2 ^ 64 - 1) + c /\
  carry_result (SUBFIC op s) op = (2 ^ 64 - 1 - a) + u64 (op_simm16 op) + 1 /\
  carry_result (ADDIC op s) op = a + u64 (op_simm16 op).
Proof.
  intros Hwf a b c. subst a b c.
  assert (Ha := Hwf (op_ra op)). assert (Hb := Hwf (op_rb op)).
  assert (Hs : u64 (s64 (gpr s (op_ra op))) = gpr s (op_ra op)).
  { rewrite wrap_sext by lia. by apply wrap_small. }
  rewrite <- (bnot64_eq _ Ha).
  repeat split.
  all: unfold ADDC, ADDE, ADDZE, ADDME, SUBFC, SUBFE, SUBFZE, SUBFME, SUBFIC, ADDIC; rewrite ?Hs, ?carry_result_put.
  all: try (rewrite add64_flags_c_eq by word_arg; cbn [Z.b2z]; lia).
  - by apply add64_flags_exact.
  - unfold carry_result. ppu_simpl.
    rewrite add64_flags_c_eq by word_arg. cbn [Z.b2z]. lia.
  - transitivity ((add64_flags (gpr s (op_ra op)) (u64 (op_simm16 op))).1 + 2 ^ 64 * Z.b2z (add64_flags (gpr s (op_ra op)) (u64 (op_simm16 op))).2).
    + unfold carry_result. cbv zeta. destruct (negb _).
      * rewrite gpr_cr_cmp, (proj2 (proj2 (xer_cr_cmp _ _ _ _))). ppu_simpl. done.
      * ppu_simpl. done.
    + apply add64_flags_exact; [done|by apply wrap_range].
Qed.

Lemma addc_adde_128 fl1 fl2 op1 op2 s :
  gpr_wf s -> op_rd op1 <> op_rd op2 -> op_ra op2 <> op_rd op1 -> op_rb op2 <> op_rd op1 ->
  let s' := ADDE fl2 op2 (ADDC fl1 op1 s) in
  pair128 (gpr s' (op_rd op2)) (gpr s' (op_rd op1)) + 2 ^ 128 * Z.b2z (xer_ca s') =
  pair128 (gpr s (op_ra op2)) (gpr s (op_ra op1)) + pair128 (gpr s (op_rb op2)) (gpr s (op_rb op1)).
Proof.
  intros Hwf Hd Ha Hb s'. subst s'.
  pose proof (add64_flags_exact _ _ (Hwf (op_ra op1)) (Hwf (op_rb op1))) as [_ H0].
  unfold ADDE. cbv zeta. rewrite !gpr_put_carry, put_carry_ca. unfold ADDC. cbv zeta.
  rewrite !gpr_put_carry, put_carry_ca. rewrite !Z.eqb_refl.
  rewrite (proj2 (Z.eqb_neq _ _) Hd), (proj2 (Z.eqb_neq _ _) Ha), (proj2 (Z.eqb_neq _ _) Hb).
  pose proof (add64_flags_c_eq _ _ (add64_flags (gpr s (op_ra op1)) (gpr s (op_rb op1))).2 (Hwf (op_ra op2)) (Hwf (op_rb op2))).
  unfold pair128. lia.
Qed.

Lemma subfc_subfe_128 fl1 fl2 op1 op2 s :
  gpr_wf s -> op_rd op1 <> op_rd op2 -> op_ra op2 <> op_rd op1 -> op_rb op2 <> op_rd op1 ->
  let a := pair128 (gpr s (op_ra op2)) (gpr s (op_ra op1)) in
  let b := pair128 (gpr s (op_rb op2)) (gpr s (op_rb op1)) in
  let s' := SUBFE fl2 op2 (SUBFC fl1 op1 s) in
  pair128 (gpr s' (op_rd op2)) (gpr s' (op_rd op1)) = u128 (b - a) /\ xer_ca s' = (a <=? b).
Proof.
  intros Hwf Hd Ha Hb a b s'.
  assert (He : pair128 (gpr s' (op_rd op2)) (gpr s' (op_rd op1)) + 2 ^ 128 * Z.b2z (xer_ca s') = b - a + 2 ^ 128
    /\ is_word 64 (gpr s' (op_rd op1)) /\ is_word 64 (gpr s' (op_rd op2))).
  { subst s' a b.
    pose proof (add64_flags_c_exact _ _ true (bnot64_word (gpr s (op_ra op1))) (Hwf (op_rb op1))) as [Hw H0].
    unfold SUBFE. cbv zeta. rewrite !gpr_put_carry, put_carry_ca. unfold SUBFC. cbv zeta.
    rewrite !gpr_put_carry, put_carry_ca. rewrite !Z.eqb_refl.
    rewrite (proj2 (Z.eqb_neq _ _) Hd), (proj2 (Z.eqb_neq _ _) Ha), (proj2 (Z.eqb_neq _ _) Hb).
    pose proof (add64_flags_c_exact _ _ (add64_flags_c (bnot 64 (gpr s (op_ra op1))) (gpr s (op_rb op1)) true).2
      (bnot64_word (gpr s (op_ra op2))) (Hwf (op_rb op2))) as [Hw2 H2].
    rewrite (bnot64_eq _ (Hwf _)) in *. rewrite (bnot64_eq _ (Hwf (op_ra op1))) in *.
    split_and!; [|done|done]. unfold pair128. cbn [Z.b2z] in *. lia. }
  destruct He as (He & H1 & H2).
  assert (Hr : 0 <= a < 2 ^ 128 /\ 0 <= b < 2 ^ 128).
  { subst a b. pose proof (Hwf (op_ra op1)). pose proof (Hwf (op_ra op2)).
    pose proof (Hwf (op_rb op1)). pose proof (Hwf (op_rb op2)). unfold is_word, pair128 in *. lia. }
  unfold is_word in *. set (p := pair128 (gpr s' (op_rd op2)) (gpr s' (op_rd op1))) in *.
  assert (0 <= p < 2 ^ 128) by (subst p; unfold pair128; lia).
  unfold wrap. destruct (xer_ca s'); cbn [Z.b2z] in *; split.
  - symmetry. rewrite Z.mod_small; lia.
  - symmetry. apply Z.leb_le. lia.
  - apply Z.mod_unique with (q := -1); lia.
  - symmetry. apply Z.leb_gt. lia.
Qed.

(** ** Signed overflow *)

Lemma sign64_eq a : is_word 64 a -> sign64 a = if a <? 2 ^ 63 then 0 else 1.
Proof.
  intros Ha. unfold sign64. rewrite Z.shiftr_div_pow2 by lia. destruct (Z.ltb_spec a (2 ^ 63)); word_lia.
Qed.

Lemma add_ov_signed a b c :
  is_word 64 a -> is_word 64 b ->
  add_ov a b (u64 (a + b + Z.b2z c)) = signed_ov 64 (s64 a + s64 b + Z.b2z c).
Proof.
  intros Ha Hb. assert (Hr : is_word 64 (u64 (a + b + Z.b2z c))) by (by apply wrap_range).
  unfold add_ov, signed_ov. rewrite !sign64_eq, !s64_eq by done.
  assert (0 <= Z.b2z c <= 1) by (destruct c; cbn; lia). revert Hr.
  generalize dependent (Z.b2z c). intros d Hd _. word_unfold.
  assert ((a + b + d) mod 18446744073709551616 = a + b + d \/
          (a + b + d) mod 18446744073709551616 = a + b + d - 18446744073709551616) as Hm
    by (Z.div_mod_to_equations; lia).
  pose proof (Z.mod_pos_bound (a + b + d) 18446744073709551616 ltac:(lia)).
  generalize dependent ((a + b + d) mod 18446744073709551616). intros r Hm Hr.
  split_cmp; cbn; try done; lia.
Qed.

Lemma put_carry_reports fl op r ov s x :
  has_oe fl = true -> ov = signed_ov 64 x -> ov_reports 64 s (put_carry fl op r ov s) x.
Proof.
  intros Ho ->. pose proof (put_carry_ov fl op r (signed_ov 64 x) s) as H.
  rewrite Ho in H. cbv zeta in H. by injection H.
Qed.

Lemma add_reports fl op s v a b c x :
  has_oe fl = true -> is_word 64 a -> is_word 64 b -> v = u64 (a + b + Z.b2z c) ->
  x = s64 a + s64 b + Z.b2z c ->
  ov_reports 64 s (record_cr0 fl v (record_ov fl (add_ov a b v) (set_gpr_at (op_rd op) v s))) x.
Proof.
  intros Ho Ha Hb -> ->. rewrite add_ov_signed by done. unfold ov_reports, record_ov. rewrite Ho.
  ppu_simpl. done.
Qed.

Lemma carry_reports fl op s a b c x :
  has_oe fl = true -> is_word 64 a -> is_word 64 b -> x = s64 a + s64 b + Z.b2z c ->
  let r := add64_flags_c a b c in
  ov_reports 64 s (put_carry fl op r (add_ov a b r.1) s) x.
Proof.
  intros Ho Ha Hb -> r. apply put_carry_reports; [done|]. subst r. by rewrite add64_flags_c_wrap, add_ov_signed.
Qed.

(** The handlers with one operand test its sign only. *)
Lemma add_ov_zero a r : (sign64 a =? 0) && negb (sign64 a =? sign64 r) = add_ov a 0 r.
Proof. done. Qed.

Lemma add_ov_ones a r : (sign64 a =? 1) && negb (sign64 a =? sign64 r) = add_ov a (2 ^ 64 - 1) r.
Proof. done. Qed.

(** With OE set, OV tells whether the exact signed result leaves the 64-bit range and SO accumulates it, for the eleven add and subtract instructions. *)
Theorem overflow_ops_exact fl op s :
  has_oe fl = true -> gpr_wf s ->
  let a := s64 (gpr s (op_ra op)) in let b := s64 (gpr s (op_rb op)) in
  let c := Z.b2z (xer_ca s) in
  ov_reports 64 s (ADD fl op s) (a + b) /\
  ov_reports 64 s (SUBF fl op s) (b - a) /\
  ov_reports 64 s (NEG fl op s) (- a) /\
  ov_reports 64 s (ADDC fl op s) (a + b) /\
  ov_reports 64 s (ADDE fl op s) (a + b + c) /\
  ov_reports 64 s (ADDZE fl op s) (a + c) /\
  ov_reports 64 s (ADDME fl op s) (a - 1 + c) /\
  ov_reports 64 s (SUBFC fl op s) (b - a) /\
  ov_reports 64 s (SUBFE fl op s) (b - a - 1 + c) /\
  ov_reports 64 s (SUBFZE fl op s) (- a - 1 + c) /\
  ov_reports 64 s (SUBFME fl op s) (- a - 2 + c).
Proof.
  intros Ho Hwf a b c. subst a b c.
  assert (Ha := Hwf (op_ra op)). assert (Hb := Hwf (op_rb op)).
  assert (Hs : u64 (s64 (gpr s (op_ra op))) = gpr s (op_ra op)).
  { rewrite wrap_sext by lia. by apply wrap_small. }
  assert (Hn := s64_bnot _ Ha).
  split_and!; unfold ADD, SUBF, NEG, ADDC, ADDE, ADDZE, ADDME, SUBFC, SUBFE, SUBFZE, SUBFME;
    cbv zeta; rewrite ?Hs, ?add_ov_zero, ?add_ov_ones.
  - apply add_reports with (c := false); cbn [Z.b2z]; rewrite ?Z.add_0_r; try done.
  - apply add_reports with (c := true); try word_arg; cbn [Z.b2z]; [|lia].
    rewrite bnot64_eq by done. word_lia.
  - unfold ov_reports, record_ov. rewrite Ho. ppu_simpl.
    enough ((gpr s (op_ra op) =? 2 ^ 63) = signed_ov 64 (- s64 (gpr s (op_ra op)))) as -> by done.
    rewrite s64_eq by done. unfold signed_ov. word_unfold. split_cmp; cbn; try done; lia.
  - apply put_carry_reports; [done|]. unfold add64_flags. cbn [fst].
    rewrite <- (Z.add_0_r (gpr s (op_ra op) + gpr s (op_rb op))) at 1.
    rewrite <- (Z.add_0_r (_ + s64 _)). by apply (add_ov_signed _ _ false).
  - by apply carry_reports.
  - apply carry_reports; try word_arg; change (s64 0) with 0; lia.
  - apply carry_reports; try word_arg; change (s64 (2 ^ 64 - 1)) with (-1); lia.
  - apply carry_reports; try word_arg; cbn [Z.b2z]; lia.
  - apply carry_reports; try word_arg; lia.
  - apply carry_reports; try word_arg; change (s64 0) with 0; lia.
  - apply carry_reports; try word_arg; change (s64 (2 ^ 64 - 1)) with (-1); lia.
Qed.

(** ** Products and quotients *)

Lemma mulh64_eq a b : - 2 ^ 63 <= a < 2 ^ 63 -> - 2 ^ 63 <= b < 2 ^ 63 ->
  mulh64 a b = a * b / 2 ^ 64.
Proof.
  intros Ha Hb. unfold mulh64. rewrite Z.shiftr_div_pow2 by lia. apply sext_small; [lia|].
  assert (- 2 ^ 126 <= a * b <= 2 ^ 126) by nia. change (64 - 1) with 63.
  split; [apply Z.div_le_lower_bound|apply Z.div_lt_upper_bound]; lia.
Qed.

Lemma mulld_exact fl op s :
  has_oe fl = op_oe op ->
  let a := s64 (gpr s (op_ra op)) in let b := s64 (gpr s (op_rb op)) in
  let s' := MULLD fl op s in
  gpr s' (op_rd op) = u64 (a * b) /\
  (has_oe fl = true -> ov_reports 64 s s' (a * b)).
Proof.
  intros Ho a b s'. subst s'. unfold MULLD. fold a b. cbv zeta. split.
  - rewrite gpr_record_cr0. destruct (op_oe op); state_cbn; apply upd_eq.
  - intros Ht. rewrite <- Ho, Ht. unfold ov_reports.
    rewrite xer_ov_record_cr0, xer_so_record_cr0. state_cbn.
    enough (negb (mulh64 a b =? Z.shiftr (s64 (u64 (a * b))) 63) = signed_ov 64 (a * b)) as -> by done.
    unfold a, b. rewrite mulh64_eq by apply s64_range. rewrite Z.shiftr_div_pow2 by lia.
    unfold signed_ov. generalize (s64 (gpr s (op_ra op)) * s64 (gpr s (op_rb op))) as x. intros x.
    word_unfold.
    repeat match goal with |- context [if ?a <? ?b then _ else _] => destruct (Z.ltb_spec a b) end;
    split_cmp; cbn; try done; exfalso; Z.div_mod_to_equations; lia.
Qed.

Lemma mulh_mulld_product fl1 fl2 op1 op2 s :
  op_ra op1 = op_ra op2 -> op_rb op1 = op_rb op2 -> op_rd op1 <> op_ra op2 -> op_rd op1 <> op_rb op2 ->
  op_rd op1 <> op_rd op2 ->
  let a := s64 (gpr s (op_ra op1)) in let b := s64 (gpr s (op_rb op1)) in
  let s' := MULLD fl2 op2 (MULHD fl1 op1 s) in
  s64 (gpr s' (op_rd op1)) * 2 ^ 64 + gpr s' (op_rd op2) = a * b.
Proof.
  intros Hra Hrb H1 H2 H3 a b s'.
  assert (Hg : forall i, gpr s' i = if i =? op_rd op2 then u64 (a * b) else if i =? op_rd op1 then u64 (mulh64 a b) else gpr s i).
  { intros i. subst s' a b. unfold MULLD, MULHD. cbv zeta. rewrite gpr_record_cr0.
    rewrite <- Hra, <- Hrb in *.
    assert (Hw : forall v t, gpr (if op_oe op2 then ppu_ov_set v t else t) = gpr t)
      by (intros; by destruct (op_oe op2)).
    rewrite Hw. state_cbn. unfold upd. rewrite !gpr_put_rd.
    rewrite (proj2 (Z.eqb_neq (op_ra op1) (op_rd op1))), (proj2 (Z.eqb_neq (op_rb op1) (op_rd op1))) by done.
    done. }
  rewrite !Hg, !Z.eqb_refl, (proj2 (Z.eqb_neq _ _) H3).
  assert (Ha : - 2 ^ 63 <= a < 2 ^ 63) by apply s64_range.
  assert (Hb : - 2 ^ 63 <= b < 2 ^ 63) by apply s64_range.
  clearbody a b.
  rewrite mulh64_eq by done.
  assert (- 2 ^ 126 <= a * b <= 2 ^ 126) by nia.
  assert (- 2 ^ 63 <= a * b / 2 ^ 64 < 2 ^ 63).
  { split; [apply Z.div_le_lower_bound|apply Z.div_lt_upper_bound]; lia. }
  assert (Hx : s64 (u64 (a * b / 2 ^ 64)) = a * b / 2 ^ 64).
  { unfold sext. rewrite wrap_wrap. fold (sext 64 (a * b / 2 ^ 64)). apply sext_small; lia. }
  rewrite Hx. unfold wrap. pose proof (Z.div_mod (a * b) (2 ^ 64)). lia.
Qed.

(** Signed results as the architecture states them. *)
Lemma ov_reports_put_rd fl op v b s w x :
  has_oe fl = true -> b = signed_ov w x ->
  ov_reports w s (record_cr0 fl v (record_ov fl b (set_gpr_at (op_rd op) v s))) x.
Proof.
  intros Ho ->. unfold ov_reports, record_ov. rewrite Ho, xer_ov_record_cr0, xer_so_record_cr0. done.
Qed.

Lemma gpr_put_rd_ov fl op v b s :
  gpr (record_cr0 fl v (record_ov fl b (set_gpr_at (op_rd op) v s))) (op_rd op) = v.
Proof. rewrite gpr_record_cr0, gpr_record_ov. apply upd_eq. Qed.

Lemma mullw_exact fl op s :
  let a := s32 (gpr s (op_ra op)) in let b := s32 (gpr s (op_rb op)) in
  let s' := MULLW fl op s in
  s64 (gpr s' (op_rd op)) = a * b /\ (has_oe fl = true -> ov_reports 32 s s' (a * b)).
Proof.
  intros a b s'.
  assert (Ha : - 2 ^ 31 <= a < 2 ^ 31) by apply s32_range.
  assert (Hb : - 2 ^ 31 <= b < 2 ^ 31) by apply s32_range.
  assert (Hx : s64 (u64 (a * b)) = a * b).
  { rewrite sext_wrap. apply sext_small; nia. }
  unfold MULLW in s'. fold a b in s'. subst s'. cbv zeta. rewrite gpr_put_rd_ov. split; [done|].
  intros Ho. apply ov_reports_put_rd; [done|]. rewrite Hx. unfold signed_ov.
  generalize (a * b). intros x. change (32 - 1) with 31. split_cmp; done.
Qed.

Lemma signed_div_spec w a b :
  1 < w -> - 2 ^ (w - 1) <= a < 2 ^ (w - 1) ->
  let q := if div_traps w a b then 0 else Z.quot a b in
  div_result w a b q /\ - 2 ^ (w - 1) <= q < 2 ^ (w - 1) /\
  div_traps w a b = (b =? 0) || signed_ov w (Z.quot a b).
Proof.
  intros Hw Ha q. subst q. unfold div_result, div_traps, signed_ov.
  assert (0 < 2 ^ (w - 1)) by (apply Z.pow_pos_nonneg; lia).
  destruct (Z.eqb_spec b 0) as [->|Hb0]; cbn [orb]; [split; [done|split; [lia|done]]|].
  destruct (decide (a = - 2 ^ (w - 1) /\ b = -1)) as [[Ha' ->]|Hn].
  - rewrite (proj2 (Z.eqb_eq _ _) Ha'), Ha'. cbn [andb Z.eqb Pos.eqb]. split; [done|split; [lia|]].
    rewrite (Z.quot_opp_r _ 1), Z.quot_1_r by done. split_cmp; done.
  - replace ((a =? - 2 ^ (w - 1)) && (b =? -1)) with false by (symmetry; apply andb_false_iff; split_cmp; auto).
    pose proof (quot_range (w - 1) a b ltac:(lia) Hb0 Ha ltac:(lia)).
    split; [by apply div_quot|split; [lia|]]. split_cmp; done.
Qed.

Lemma divd_exact fl op s :
  let a := s64 (gpr s (op_ra op)) in let b := s64 (gpr s (op_rb op)) in
  let s' := DIVD fl op s in
  div_result 64 a b (s64 (gpr s' (op_rd op))) /\
  (has_oe fl = true -> xer_ov s' = (b =? 0) || signed_ov 64 (Z.quot a b)).
Proof.
  intros a b s'. subst s'.
  pose proof (signed_div_spec 64 a b ltac:(lia) (s64_range _)) as (H1 & H2 & H3).
  unfold DIVD. fold a b. cbv zeta. change ((b =? 0) || (_ && _)) with (div_traps 64 a b). rewrite gpr_put_rd_ov, xer_ov_record_cr0. split.
  - destruct (div_traps 64 a b); [done|]. by rewrite sext_wrap, sext_small.
  - intros Ho. unfold record_ov. by rewrite Ho, <- H3.
Qed.

Lemma divw_exact fl op s :
  let a := s32 (gpr s (op_ra op)) in let b := s32 (gpr s (op_rb op)) in
  let s' := DIVW fl op s in
  div_result 32 a b (s32 (gpr s' (op_rd op))) /\ gpr s' (op_rd op) < 2 ^ 32 /\
  (has_oe fl = true -> xer_ov s' = (b =? 0) || signed_ov 32 (Z.quot a b)).
Proof.
  intros a b s'. subst s'.
  pose proof (signed_div_spec 32 a b ltac:(lia) (s32_range _)) as (H1 & H2 & H3).
  unfold DIVW. fold a b. cbv zeta. change ((b =? 0) || (_ && _)) with (div_traps 32 a b). rewrite gpr_put_rd_ov, xer_ov_record_cr0.
  split_and!.
  - destruct (div_traps 32 a b); [done|]. by rewrite sext_wrap, sext_small.
  - destruct (div_traps 32 a b); [done|]. by apply wrap_range.
  - intros Ho. unfold record_ov. by rewrite Ho, <- H3.
Qed.

Lemma divu_exact fl op s :
  gpr_wf s ->
  let a := gpr s (op_ra op) in let b := gpr s (op_rb op) in
  (b <> 0 -> a = b * gpr (DIVDU fl op s) (op_rd op) + a mod b) /\
  (b = 0 -> gpr (DIVDU fl op s) (op_rd op) = 0) /\
  (u32 b <> 0 -> u32 a = u32 b * gpr (DIVWU fl op s) (op_rd op) + u32 a mod u32 b) /\
  (u32 b = 0 -> gpr (DIVWU fl op s) (op_rd op) = 0).
Proof.
  intros Hwf a b. subst a b. unfold DIVDU, DIVWU. cbv zeta. rewrite !gpr_put_rd_ov.
  split_and!; intros H; try (rewrite H; done);
    rewrite (proj2 (Z.eqb_neq _ _) H); apply Z.div_mod; done.
Qed.

(** ** Algebraic shifts *)

Lemma sra_small rs n :
  0 <= n -> - 2 ^ 63 <= rs < 2 ^ 63 ->
  let v := u64 (Z.shiftr rs n) in
  sra_spec rs n v ((rs <? 0) && negb (u64 (Z.shiftl v n) =? u64 rs)).
Proof.
  intros Hn Hrs v. subst v. split.
  - rewrite sext_wrap, sext_small; [apply Z.shiftr_div_pow2; lia|lia|]. by apply (shiftr_fits 64); try lia.
  - rewrite shiftl_u64 by lia. by rewrite (shift_back_wrap 64) by lia.
Qed.

Lemma sra_large rs w n :
  0 < w -> w <= n -> - 2 ^ (w - 1) <= rs < 2 ^ (w - 1) ->
  sra_spec rs n (u64 (0 - Z.b2z (rs <? 0))) (rs <? 0).
Proof.
  intros Hw Hn Hrs. unfold sra_spec.
  assert (H2 : 2 ^ w = 2 * 2 ^ (w - 1)) by (rewrite <- Z.pow_succ_r by lia; f_equal; lia).
  assert (2 ^ w <= 2 ^ n) by (apply Z.pow_le_mono_r; lia).
  destruct (Z.ltb_spec rs 0); cbn [Z.b2z andb].
  - change (s64 (u64 (0 - 1))) with (-1). split.
    + apply Z.div_unique with (r := rs + 2 ^ n); lia.
    + symmetry. apply negb_true_iff, Z.eqb_neq.
      rewrite <- (Z.mod_unique rs (2 ^ n) (-1) (rs + 2 ^ n)); lia.
  - change (s64 (u64 (0 - 0))) with 0. split; [symmetry; apply Z.div_small; lia|done].
Qed.

Lemma shift_ra_spec fl op s rs n v ca :
  sra_spec rs n v ca ->
  let s' := record_cr0 fl v (set_xer_ca ca (set_gpr_at (op_ra op) v s)) in
  sra_spec rs n (gpr s' (op_ra op)) (xer_ca s').
Proof. intros H s'. subst s'. ppu_simpl. done. Qed.

Lemma srawi_exact fl op s :
  sra_spec (s32 (gpr s (op_rs op))) (op_sh32 op)
    (gpr (SRAWI fl op s) (op_ra op)) (xer_ca (SRAWI fl op s)).
Proof.
  set (rs := s32 (gpr s (op_rs op))).
  assert (Hrs : - 2 ^ 31 <= rs < 2 ^ 31) by apply s32_range.
  unfold SRAWI. cbv zeta. rewrite sext_wrap. fold rs. apply shift_ra_spec. split.
  - apply (sra_small rs (op_sh32 op)); [apply op_sh32_range|lia].
  - rewrite u32_u64, <- (u32_u64 (Z.shiftl _ _)), shiftl_u64, u32_u64 by apply op_sh32_range.
    by rewrite (shift_back_wrap 32) by (apply op_sh32_range || lia).
Qed.

(** The algebraic right shifts divide by a power of two rounding down, and CA is set exactly when the operand is negative and a one bit was shifted out. *)
Theorem sra_exact fl op s :
  let rsw := s32 (gpr s (op_rs op)) in let rsd := s64 (gpr s (op_rs op)) in
  let sw := gpr s (op_rb op) mod 64 in let sd := gpr s (op_rb op) mod 128 in
  sra_spec rsw sw (gpr (SRAW fl op s) (op_ra op)) (xer_ca (SRAW fl op s)) /\
  sra_spec rsd sd (gpr (SRAD fl op s) (op_ra op)) (xer_ca (SRAD fl op s)) /\
  sra_spec rsw (op_sh32 op) (gpr (SRAWI fl op s) (op_ra op)) (xer_ca (SRAWI fl op s)) /\
  sra_spec rsd (op_sh64 op) (gpr (SRADI fl op s) (op_ra op)) (xer_ca (SRADI fl op s)).
Proof.
  intros rsw rsd sw sd.
  assert (Hw : - 2 ^ 31 <= rsw < 2 ^ 31) by apply s32_range.
  assert (Hd : - 2 ^ 63 <= rsd < 2 ^ 63) by apply s64_range.
  assert (0 <= sw < 64) by (subst sw; Z.div_mod_to_equations; lia).
  assert (0 <= sd < 128) by (subst sd; Z.div_mod_to_equations; lia).
  split; [|split; [|split; [apply srawi_exact|]]]; unfold SRAW, SRAD, SRADI; cbv zeta;
    rewrite ?land_63, ?land_127; fold rsw rsd sw sd.
  - destruct (Z.ltb_spec 31 sw); apply shift_ra_spec; [by apply (sra_large _ 32); lia|apply sra_small; lia].
  - destruct (Z.ltb_spec 63 sd); apply shift_ra_spec; [by apply (sra_large _ 64); lia|apply sra_small; lia].
  - apply shift_ra_spec. apply sra_small; [apply op_sh64_range|done].
Qed.

(** The compiler idiom SRAWI followed by ADDZE is the signed division by 2^sh rounded towards zero. *)
Theorem srawi_addze_divides fl1 fl2 op1 op2 s :
  gpr_wf s -> op_ra op2 = op_ra op1 ->
  let rs := s32 (gpr s (op_rs op1)) in
  s64 (gpr (ADDZE fl2 op2 (SRAWI fl1 op1 s)) (op_rd op2)) = Z.quot rs (2 ^ op_sh32 op1).
Proof.
  intros Hwf Hra rs.
  destruct (srawi_exact fl1 op1 s) as [H1 H2]. fold rs in H1, H2.
  unfold ADDZE. cbv zeta. rewrite gpr_put_carry, Z.eqb_refl, add64_flags_c_wrap, Hra, H2, sext_wrap.
  assert (Hn : 0 < 2 ^ op_sh32 op1) by (apply Z.pow_pos_nonneg; [lia|apply op_sh32_range]).
  rewrite quot_floor_fix by done. rewrite <- H1.
  assert (Hrs : - 2 ^ 31 <= rs < 2 ^ 31) by apply s32_range.
  assert (Hq : - 2 ^ 31 <= rs / 2 ^ op_sh32 op1 < 2 ^ 31).
  { rewrite <- Z.shiftr_div_pow2 by apply op_sh32_range. apply (shiftr_fits 32); [lia|apply op_sh32_range|done]. }
  rewrite <- H1 in Hq. set (c := (rs <? 0) && _). assert (0 <= Z.b2z c <= 1) by (destruct c; cbn; lia).
  rewrite <- (sext_wrap 64 (_ + _)).
  assert (Hs : s64 (s64 (gpr (SRAWI fl1 op1 s) (op_ra op1)) + 0 + Z.b2z c) =
               s64 (gpr (SRAWI fl1 op1 s) (op_ra op1)) + Z.b2z c) by (rewrite sext_small; lia).
  rewrite <- Hs. rewrite <- (sext_wrap 64 (s64 _ + 0 + _)). f_equal. unfold wrap.
  rewrite <- (Zplus_mod_idemp_l (gpr _ _ + 0)), <- (Zplus_mod_idemp_l (s64 _ + 0)).
  do 2 f_equal. rewrite !Z.add_0_r. symmetry. by apply (wrap_sext 64).
Qed.

(** ** Rotates *)

Lemma rotate_mask_shift mb me :
  0 <= mb < 64 -> 0 <= me < 64 ->
  Z.land (bnot 32 (u32 (me - mb))) 63 = (mb - me - 1) mod 64.
Proof. intros. rewrite land_63. word_lia. Qed.

Lemma rotate_mask_bits mb me i :
  0 <= mb < 64 -> 0 <= me < 64 -> 0 <= i < 64 ->
  Z.testbit (ppu_rotate_mask mb me) (63 - i) =
  if mb <=? me then (mb <=? i) && (i <=? me) else (i <=? me) || (mb <=? i).
Proof.
  intros Hb He Hi. unfold ppu_rotate_mask. cbv zeta.
  rewrite rotate_mask_shift, !land_63 by done.
  set (k := (mb - me - 1) mod 64).
  assert (Hk : 0 <= k < 64) by (subst k; Z.div_mod_to_equations; lia).
  assert (Hk' : k = if mb <=? me then 63 - (me - mb) else mb - me - 1).
  { subst k. split_cmp; Z.div_mod_to_equations; lia. }
  assert (Hw : u32 (64 - mb) mod 64 = if mb =? 0 then 0 else 64 - mb).
  { split_cmp; word_lia. }
  rewrite Z.mod_small, Hw by lia.
  assert (Hm : forall j, 0 <= j -> Z.testbit (u64 (Z.shiftl (2 ^ 64 - 1) k)) j = (j <? 64) && (k <=? j)).
  { intros j Hj. rewrite testbit_wrap, testbit_shiftl by lia.
    destruct (Z.leb_spec k j); [rewrite testbit_ones64 by lia|]; split_cmp; done. }
  clearbody k. revert Hm. generalize (u64 (Z.shiftl (2 ^ 64 - 1) k)) as mask. intros mask Hm.
  rewrite Z.lor_spec, Z.shiftr_spec, testbit_wrap, testbit_shiftl, Hm by (split_cmp; lia).
  destruct (Z.eqb_spec mb 0).
  - rewrite Hm by lia. subst mb. revert Hk'. split_cmp; intros; split_cmp; done.
  - destruct (Z.leb_spec (64 - mb) (63 - i)); [rewrite Hm by lia|]; revert Hk'; split_cmp; intros; split_cmp; done.
Qed.

Lemma rotate_mask_pbit mb me j :
  0 <= mb < 64 -> 0 <= me < 64 -> 0 <= j < 64 ->
  pbit (ppu_rotate_mask mb me) j = in_range mb me j.
Proof. apply rotate_mask_bits. Qed.

Lemma rol64_bit x n j :
  is_word 64 x -> 0 <= n < 64 -> 0 <= j < 64 -> pbit (rol64 x n) j = pbit x ((j + n) mod 64).
Proof.
  intros Hx Hn Hj. unfold pbit, rol64. rewrite !land_63, (Z.mod_small n) by done.
  replace (u64 (0 - n) mod 64) with ((- n) mod 64) by word_lia.
  rewrite rotate_bits by (done || lia). f_equal. Z.div_mod_to_equations; lia.
Qed.

Lemma rol32_word x n : is_word 32 x -> is_word 32 (rol32 x n).
Proof.
  intros Hx. unfold rol32. apply lor_word; [lia|by apply wrap_range|].
  apply shiftr_word; [lia|apply Z.land_nonneg; lia|done].
Qed.

Lemma dup32_rol32_bit x n j :
  0 <= n < 32 -> 0 <= j < 64 ->
  pbit (dup32 (rol32 (u32 x) n)) j = pbit x (32 + (j + n) mod 32).
Proof.
  intros Hn Hj. unfold pbit, dup32.
  assert (Hw : is_word 32 (u32 x)) by (by apply wrap_range).
  assert (Hb : forall i, 0 <= i < 32 -> Z.testbit (rol32 (u32 x) n) i = Z.testbit x ((i - n) mod 32)).
  { intros i Hi. unfold rol32. rewrite !land_31, (Z.mod_small n) by done.
    replace (u32 (0 - n) mod 32) with ((- n) mod 32) by word_lia.
    rewrite rotate_bits, testbit_wrap by (done || lia).
    destruct (Z.ltb_spec ((i - n) mod 32) 32); [done|Z.div_mod_to_equations; lia]. }
  pose proof (rol32_word _ n Hw) as Hr.
  rewrite Z.lor_spec, testbit_shiftl by lia. destruct (Z.leb_spec 32 (63 - j)).
  - rewrite (testbit_above 32 _ (63 - j)), Hb by (done || lia). cbn [andb orb]. f_equal.
    Z.div_mod_to_equations; lia.
  - rewrite Hb, orb_false_r by lia. f_equal. Z.div_mod_to_equations; lia.
Qed.

Lemma pbit_land x y j : pbit (Z.land x y) j = pbit x j && pbit y j.
Proof. apply Z.land_spec. Qed.

Lemma pbit_lor x y j : pbit (Z.lor x y) j = pbit x j || pbit y j.
Proof. apply Z.lor_spec. Qed.

Lemma pbit_bnot x j : 0 <= j < 64 -> pbit (bnot 64 x) j = negb (pbit x j).
Proof. intros. unfold pbit. rewrite testbit_bnot by lia. split_cmp; done. Qed.

Lemma pbit_ones_shiftr n j : 0 <= n < 64 -> 0 <= j < 64 -> pbit (Z.shiftr (2 ^ 64 - 1) n) j = (n <=? j).
Proof.
  intros. unfold pbit. rewrite Z.shiftr_spec, testbit_ones64 by lia. split_cmp; done.
Qed.

Lemma pbit_ones_shiftl n j :
  0 <= n < 64 -> 0 <= j < 64 -> pbit (u64 (Z.shiftl (2 ^ 64 - 1) (Z.lxor n 63))) j = (j <=? n).
Proof.
  intros. unfold pbit. rewrite lxor_63, testbit_wrap, testbit_shiftl by lia.
  destruct (Z.leb_spec (63 - n) (63 - j)); [rewrite testbit_ones64 by lia|]; split_cmp; done.
Qed.

(** The word rotates, bit by bit in the numbering of the architecture: inside the circular mask MB..ME bit j of the result is bit 32 + (j + shift) mod 32 of the source, outside it zero (RLWINM, RLWNM) or the old bit (RLWIMI). *)
Theorem word_rotates_spec fl op s j :
  0 <= j < 64 ->
  let rs := gpr s (op_rs op) in
  let m := in_range (32 + op_mb32 op) (32 + op_me32 op) j in
  let rot n := pbit rs (32 + (j + n) mod 32) in
  pbit (gpr (RLWINM fl op s) (op_ra op)) j = m && rot (op_sh32 op) /\
  pbit (gpr (RLWNM fl op s) (op_ra op)) j = m && rot (gpr s (op_rb op) mod 32) /\
  pbit (gpr (RLWIMI fl op s) (op_ra op)) j =
    if m then rot (op_sh32 op) else pbit (gpr s (op_ra op)) j.
Proof.
  intros Hj rs m rot. pose proof (op_mb32_range op). pose proof (op_me32_range op).
  pose proof (Z.mod_pos_bound (gpr s (op_rb op)) 32 ltac:(lia)).
  unfold RLWINM, RLWNM, RLWIMI. cbv zeta. rewrite !gpr_record_cr0. state_cbn. rewrite !upd_eq.
  change 0x1f with 31. rewrite land_31.
  rewrite pbit_lor, !pbit_land, pbit_bnot, !rotate_mask_pbit, !dup32_rol32_bit
    by (done || lia || apply op_sh32_range).
  unfold rot, m, rs. rewrite !(andb_comm _ (in_range _ _ _)).
  split; [done|split; [done|]]. destruct (in_range _ _ _); cbn; [by rewrite andb_false_r|by rewrite andb_true_r, orb_false_r].
Qed.

(** The doubleword rotates, bit by bit: clear left, clear right, clear, insert, and the two register forms. *)
Theorem doubleword_rotates_spec fl op s j :
  gpr_wf s -> 0 <= j < 64 ->
  let rs := gpr s (op_rs op) in
  let sh := op_sh64 op in let mbe := op_mbe64 op in
  let n := gpr s (op_rb op) mod 64 in
  let rot n := pbit rs ((j + n) mod 64) in
  pbit (gpr (RLDICL fl op s) (op_ra op)) j = (mbe <=? j) && rot sh /\
  pbit (gpr (RLDICR fl op s) (op_ra op)) j = (j <=? mbe) && rot sh /\
  pbit (gpr (RLDIC fl op s) (op_ra op)) j = in_range mbe (63 - sh) j && rot sh /\
  pbit (gpr (RLDCL fl op s) (op_ra op)) j = (mbe <=? j) && rot n /\
  pbit (gpr (RLDCR fl op s) (op_ra op)) j = (j <=? mbe) && rot n /\
  pbit (gpr (RLDIMI fl op s) (op_ra op)) j =
    if in_range mbe (63 - sh) j then rot sh else pbit (gpr s (op_ra op)) j.
Proof.
  intros Hwf Hj rs sh mbe n rot.
  assert (0 <= sh < 64) by apply op_sh64_range. assert (0 <= mbe < 64) by apply op_mbe64_range.
  assert (0 <= n < 64) by (subst n; Z.div_mod_to_equations; lia).
  unfold RLDICL, RLDICR, RLDIC, RLDCL, RLDCR, RLDIMI. cbv zeta. rewrite !gpr_record_cr0. state_cbn.
  rewrite !upd_eq. change 0x3f with 63. rewrite !land_63, (lxor_63 (op_sh64 op)) by done.
  fold rs sh mbe n.
  assert (Hr : forall k, 0 <= k < 64 -> pbit (rol64 rs k) j = rot k) by (intros; by apply rol64_bit; [apply Hwf|..]).
  clearbody rot sh mbe n.
  rewrite pbit_lor, !pbit_land, pbit_bnot, !rotate_mask_pbit, !pbit_ones_shiftr, !pbit_ones_shiftl, !Hr
    by lia.
  do 5 (split; [apply andb_comm|]).
  destruct (in_range _ _ _); [by rewrite andb_false_r, andb_true_r|by rewrite andb_true_r, andb_false_r, orb_false_r].
Qed.

(** ** Leading zeros *)

Lemma cntlz_spec fl op s :
  gpr_wf s ->
  let x := gpr s (op_rs op) in
  let nd := gpr (CNTLZD fl op s) (op_ra op) in
  let nw := gpr (CNTLZW fl op s) (op_ra op) in
  (x = 0 -> nd = 64) /\
  (x <> 0 -> 0 <= nd < 64 /\ pbit x nd = true) /\
  (forall j, 0 <= j < nd -> pbit x j = false) /\
  (u32 x = 0 -> nw = 32) /\
  (u32 x <> 0 -> 0 <= nw < 32 /\ pbit x (32 + nw) = true) /\
  (forall j, 32 <= j < 32 + nw -> pbit x j = false).
Proof.
  assert (Hgen : forall w x, is_word w x -> 0 < w ->
    (x = 0 -> countl_zero w x = w) /\
    (x <> 0 -> 0 <= countl_zero w x < w /\ Z.testbit x (w - 1 - countl_zero w x) = true) /\
    (forall j, 0 <= j < countl_zero w x -> Z.testbit x (w - 1 - j) = false)).
  { intros w x [Hx0 Hx] Hw. unfold countl_zero. destruct (Z.eqb_spec x 0) as [->|Hn].
    - split_and!; [done|done|]. intros. apply Z.bits_0.
    - assert (0 <= Z.log2 x < w) by (split; [apply Z.log2_nonneg|apply Z.log2_lt_pow2; lia]).
      split_and!; [done| |].
      + intros _. split; [lia|]. replace (w - 1 - (w - 1 - Z.log2 x)) with (Z.log2 x) by lia.
        apply Z.bit_log2. lia.
      + intros j Hj. apply Z.bits_above_log2; lia. }
  intros Hwf x nd nw. unfold CNTLZD, CNTLZW in *. subst nd nw. rewrite !gpr_put_ra, !Z.eqb_refl.
  fold x. pose proof (Hgen 64 x (Hwf _) ltac:(lia)) as (D1 & D2 & D3).
  pose proof (Hgen 32 (u32 x) ltac:(by apply wrap_range) ltac:(lia)) as (W1 & W2 & W3).
  assert (Hle : u32 x <> 0 \/ u32 x = 0) by lia.
  assert (Hc : countl_zero 32 (u32 x) <= 32).
  { destruct Hle as [H|H]; [apply W2 in H|apply W1 in H]; lia. }
  clearbody x. split; [done|split; [done|split; [|split; [done|split]]]].
  - intros j Hj. apply D3. done.
  - intros Hn. destruct (W2 Hn) as [H1 H2]. split; [done|]. unfold pbit. 
    rewrite testbit_wrap in H2 by lia. apply andb_prop in H2 as [_ H2]. rewrite <- H2. f_equal. lia.
  - intros j Hj. specialize (W3 (j - 32) ltac:(lia)). rewrite testbit_wrap in W3 by lia. unfold pbit.
    replace (63 - j) with (32 - 1 - (j - 32)) by lia. revert W3. split_cmp. done.
Qed.

(** ** Condition register and XER transfers *)

Lemma cr_pack_prefix (bits : Z -> Z) n i :
  (forall k, bits k = 0 \/ bits k = 1) -> 0 <= n <= 32 -> 0 <= i ->
  Z.testbit (fold_left (fun result i => Z.lor (u32 (Z.shiftl result 1)) (bits i)) (seqZ 0 n) 0) i =
  (i <? n) && (bits (n - 1 - i) =? 1).
Proof.
  intros Hb Hn. revert i.
  refine (natlike_ind (fun n => n <= 32 -> forall i, 0 <= i -> Z.testbit _ i = _) _ _ n _ _); [| |lia|lia].
  - intros _ i Hi. rewrite seqZ_nil by lia. cbn. rewrite Z.bits_0. split_cmp; done.
  - intros m Hm IH Hle i Hi. rewrite <- (Z.add_1_r m), seqZ_app, fold_left_app by lia.
    change (seqZ (0 + m) 1) with [0 + m]. cbn [fold_left].
    rewrite Z.lor_spec, testbit_wrap, testbit_shiftl by lia.
    destruct (Z.leb_spec 1 i).
    + rewrite IH by lia. rewrite (Z.add_0_l m).
      assert (Hz : Z.testbit (bits m) i = false).
      { apply (testbit_above 1); [|lia]. unfold is_word. destruct (Hb m) as [-> | ->]; lia. }
      rewrite Hz. replace (m + 1 - 1 - i) with (m - 1 - (i - 1)) by lia. rewrite orb_false_r.
      split_cmp; cbn; done.
    + assert (i = 0) as -> by lia. rewrite !andb_false_l, andb_false_r. cbn [orb].
      replace (m + 1 - 1 - 0) with (0 + m) by lia. destruct (Z.ltb_spec 0 (m + 1)); [|lia].
      by destruct (Hb (0 + m)) as [-> | ->].
Qed.

Lemma cr_pack_bit bits i :
  (forall k, bits k = 0 \/ bits k = 1) -> 0 <= i < 32 ->
  Z.testbit (cr_pack bits) (31 - i) = (bits i =? 1).
Proof.
  intros Hb Hi. unfold cr_pack. rewrite cr_pack_prefix by (done || lia).
  replace (32 - 1 - (31 - i)) with i by lia. split_cmp; done.
Qed.

Lemma cr_pack_word bits : (forall k, bits k = 0 \/ bits k = 1) -> is_word 32 (cr_pack bits).
Proof.
  intros Hb. assert (H : forall i, 32 <= i -> Z.testbit (cr_pack bits) i = false).
  { intros i Hi. unfold cr_pack. rewrite cr_pack_prefix by (done || lia). split_cmp; done. }
  apply is_word_testbit; [lia| |done]. apply Z.bits_iff_nonneg_ex. exists 32. intros. apply H. lia.
Qed.

Lemma mtocrf_entry_bits x :
  0 <= x < 16 ->
  mtocrf_entry x = (Z.testbit x 3, Z.testbit x 2, Z.testbit x 1, Z.testbit x 0).
Proof.
  intros Hx. assert (H : Forall (fun x => mtocrf_entry x = (Z.testbit x 3, Z.testbit x 2, Z.testbit x 1, Z.testbit x 0)) (seqZ 0 16)).
  { repeat constructor. }
  rewrite Forall_forall in H. apply H, elem_of_seqZ. lia.
Qed.

(** One field of [MTOCRF]: the four bits of field [f] come from the word [v]. *)
Lemma cr_put_field_spec v f bits i :
  0 <= f < 8 -> 0 <= i < 32 ->
  cr_put_field f (mtocrf_entry (Z.land (Z.shiftr v (Z.lxor (f * 4) 0x1c)) 0xf)) bits i =
  if i / 4 =? f then Z.b2z (Z.testbit v (31 - i)) else bits i.
Proof.
  intros Hf Hi.
  assert (Hs : Z.lxor (f * 4) 0x1c = 28 - f * 4).
  { assert (H : Forall (fun f => Z.lxor (f * 4) 0x1c = 28 - f * 4) (seqZ 0 8)) by (repeat constructor).
    rewrite Forall_forall in H. apply H, elem_of_seqZ. lia. }
  rewrite Hs. assert (Hw : 0 <= Z.land (Z.shiftr v (28 - f * 4)) 15 < 16).
  { rewrite (land_pow2m1 _ 4) by lia. apply Z.mod_pos_bound. lia. }
  rewrite mtocrf_entry_bits by done. unfold cr_put_field, upd.
  assert (Hb : forall k, 0 <= k < 4 -> Z.testbit (Z.land (Z.shiftr v (28 - f * 4)) 15) k = Z.testbit v (28 - f * 4 + k)).
  { intros k Hk. change 15 with (Z.ones 4). rewrite Z.land_spec, Z.ones_spec_low, Z.shiftr_spec, andb_true_r by lia.
    f_equal. lia. }
  rewrite !Hb by lia. destruct (Z.eqb_spec (i / 4) f) as [<-|Hn].
  - assert (Hi4 : i = i / 4 * 4 + 3 \/ i = i / 4 * 4 + 2 \/ i = i / 4 * 4 + 1 \/ i = i / 4 * 4)
      by (Z.div_mod_to_equations; lia).
    split_cmp; do 2 f_equal; lia.
  - assert (forall k, 0 <= k < 4 -> i <> f * 4 + k) by (intros; Z.div_mod_to_equations; lia).
    pose proof (H 0). pose proof (H 1). pose proof (H 2). pose proof (H 3). split_cmp; done.
Qed.

Lemma mtocrf_all_spec op s i :
  op_l11 op = false -> 0 <= i < 32 ->
  cr (MTOCRF op s) i =
  if Z.testbit (op_crm op) (7 - i / 4) then Z.b2z (Z.testbit (gpr s (op_rs op)) (31 - i))
  else cr s i.
Proof.
  intros Hl Hi. unfold MTOCRF. rewrite Hl. cbv zeta. state_cbn.
  assert (H : forall n bits, 0 <= n <= 8 ->
    fold_left (fun (bits0 : Z -> Z) (i0 : Z) =>
      if negb (Z.land (op_crm op) (Z.shiftr 128 i0) =? 0)
      then cr_put_field i0 (mtocrf_entry (Z.land (Z.shiftr (gpr s (op_rs op)) (Z.lxor (i0 * 4) 28)) 15)) bits0
      else bits0) (seqZ 0 n) bits i =
    if (i / 4 <? n) && Z.testbit (op_crm op) (7 - i / 4) then Z.b2z (Z.testbit (gpr s (op_rs op)) (31 - i))
    else bits i).
  { intros n bits Hn. revert bits.
    refine (natlike_ind (fun n => n <= 8 -> forall bits, _ = _) _ _ n _ _); [| |lia|lia].
    - intros _ bits. rewrite seqZ_nil by lia. cbn. destruct (Z.ltb_spec (i / 4) 0); [Z.div_mod_to_equations; lia|done].
    - intros m Hm IH Hle bits. rewrite <- (Z.add_1_r m), seqZ_app, fold_left_app by lia.
      change (seqZ (0 + m) 1) with [0 + m]. cbn [fold_left]. rewrite Z.add_0_l.
      assert (Hbit : negb (Z.land (op_crm op) (Z.shiftr 128 m) =? 0) = Z.testbit (op_crm op) (7 - m)).
      { replace (Z.shiftr 128 m) with (2 ^ (7 - m)); [apply land_pow2_test; lia|].
        change 128 with (2 ^ 7). rewrite Z.shiftr_div_pow2, Z.pow_sub_r by lia. done. }
      rewrite Hbit. destruct (Z.testbit (op_crm op) (7 - m)) eqn:Ht.
      + rewrite cr_put_field_spec by lia. rewrite IH by lia.
        destruct (Z.eqb_spec (i / 4) m) as [->|]; [rewrite Ht; split_cmp; done|].
        split_cmp; done.
      + rewrite IH by lia. destruct (Z.eqb_spec (i / 4) m) as [->|]; [rewrite Ht, !andb_false_r; done|].
        split_cmp; done. }
  rewrite H by lia. destruct (Z.ltb_spec (i / 4) 8); [done|Z.div_mod_to_equations; lia].
Qed.

Lemma mtocrf_one_spec op s n i :
  op_l11 op = true -> op_crm op = 2 ^ (7 - n) -> 0 <= n < 8 -> 0 <= i < 32 ->
  cr (MTOCRF op s) i =
  if i / 4 =? n then Z.b2z (Z.testbit (gpr s (op_rs op)) (31 - i)) else cr s i.
Proof.
  intros Hl Hc Hn Hi. unfold MTOCRF. rewrite Hl. cbv zeta. state_cbn.
  assert (Hz : Z.land (countl_zero 32 (op_crm op)) 7 = n).
  { rewrite Hc. assert (H : Forall (fun n => Z.land (countl_zero 32 (2 ^ (7 - n))) 7 = n) (seqZ 0 8)) by (repeat constructor).
    rewrite Forall_forall in H. apply H, elem_of_seqZ. lia. }
  rewrite Hz. by apply cr_put_field_spec.
Qed.

(** MFCR followed by MTCRF with a full mask restores every condition bit. *)
Theorem mfcr_mtcrf_roundtrip op1 op2 s :
  op_l11 op2 = false -> op_crm op2 = 0xff -> op_rs op2 = op_rd op1 -> cr_wf s ->
  forall i, 0 <= i < 32 -> cr (MTOCRF op2 (MFCR op1 s)) i = cr s i.
Proof.
  intros Hl Hc Hr Hwf i Hi. rewrite mtocrf_all_spec, Hc, Hr by done.
  unfold MFCR. state_cbn. rewrite upd_eq, cr_pack_bit by done.
  assert (Ht : Z.testbit 0xff (7 - i / 4) = true) by (apply (Z.ones_spec_low 8); Z.div_mod_to_equations; lia).
  rewrite Ht. by destruct (Hwf i) as [-> | ->].
Qed.

Lemma xer_roundtrip (tb : Z) op1 op2 s v :
  spr_number op1 = 1 -> spr_number op2 = 1 -> gpr s (op_rs op1) = v ->
  exists s', MTSPR op1 s = Next s' /\
  exists s'', MFSPR tb op2 s' = Next s'' /\ gpr s'' (op_rd op2) = Z.land v 0xe000007f.
Proof.
  intros H1 H2 Hv. unfold MTSPR. rewrite H1, Hv. cbn [Z.eqb Pos.eqb]. eexists. split; [done|].
  unfold MFSPR. rewrite H2. cbn [Z.eqb Pos.eqb]. eexists. split; [done|].
  state_cbn. rewrite upd_eq. unfold xer_word. state_cbn.
  change 0x80000000 with (2 ^ 31). change 0x40000000 with (2 ^ 30). change 0x20000000 with (2 ^ 29).
  rewrite !land_pow2_test by lia.
  change 0xe000007f with (Z.lor (Z.lor (Z.lor (2 ^ 31) (2 ^ 30)) (2 ^ 29)) 0x7f).
  apply Z.bits_inj'. intros i Hi. rewrite !Z.lor_spec, !b2z_shiftl_bit, !Z.land_spec, !Z.lor_spec by lia.
  rewrite !Z.pow2_bits_eqb, !(Z.eqb_sym _ i) by lia.
  assert (Hk : forall k, (i =? k) && Z.testbit v k = (i =? k) && Z.testbit v i).
  { intros k. by destruct (Z.eqb_spec i k) as [->|]. }
  rewrite !Hk. generalize (i =? 31), (i =? 30), (i =? 29), (Z.testbit v i), (Z.testbit 0x7f i).
  by intros [] [] [] [] [].
Qed.

(** ADDC followed by ADDE adds, and SUBFC followed by SUBFE subtracts, two
    128-bit integers held in register pairs; CA is the carry out, or the
    absence of a borrow. *)
Theorem multiword_add_sub fl1 fl2 op1 op2 s :
  gpr_wf s -> op_rd op1 <> op_rd op2 -> op_ra op2 <> op_rd op1 -> op_rb op2 <> op_rd op1 ->
  let a := pair128 (gpr s (op_ra op2)) (gpr s (op_ra op1)) in
  let b := pair128 (gpr s (op_rb op2)) (gpr s (op_rb op1)) in
  let add := ADDE fl2 op2 (ADDC fl1 op1 s) in
  let sub := SUBFE fl2 op2 (SUBFC fl1 op1 s) in
  pair128 (gpr add (op_rd op2)) (gpr add (op_rd op1)) + 2 ^ 128 * Z.b2z (xer_ca add) = a + b /\
  pair128 (gpr sub (op_rd op2)) (gpr sub (op_rd op1)) = u128 (b - a) /\ xer_ca sub = (a <=? b).
Proof. intros. split; [by apply addc_adde_128|by apply subfc_subfe_128]. Qed.

(** MULHD and MULLD together give the exact signed 128-bit product. *)
Theorem multiply_high_low fl1 fl2 op1 op2 s :
  op_ra op1 = op_ra op2 -> op_rb op1 = op_rb op2 -> op_rd op1 <> op_ra op2 -> op_rd op1 <> op_rb op2 ->
  op_rd op1 <> op_rd op2 ->
  let a := s64 (gpr s (op_ra op1)) in let b := s64 (gpr s (op_rb op1)) in
  let s' := MULLD fl2 op2 (MULHD fl1 op1 s) in
  s64 (gpr s' (op_rd op1)) * 2 ^ 64 + gpr s' (op_rd op2) = a * b.
Proof. by apply mulh_mulld_product. Qed.

(** MULLD leaves the low 64 bits of the signed product and MULLW the exact
    product of the low words; with OE set their OV tells whether the product
    fits 64, or 32, bits. *)
Theorem multiply_low_exact fl op s :
  has_oe fl = op_oe op ->
  let a := s64 (gpr s (op_ra op)) in let b := s64 (gpr s (op_rb op)) in
  let aw := s32 (gpr s (op_ra op)) in let bw := s32 (gpr s (op_rb op)) in
  (gpr (MULLD fl op s) (op_rd op) = u64 (a * b) /\
   (has_oe fl = true -> ov_reports 64 s (MULLD fl op s) (a * b))) /\
  (s64 (gpr (MULLW fl op s) (op_rd op)) = aw * bw /\
   (has_oe fl = true -> ov_reports 32 s (MULLW fl op s) (aw * bw))).
Proof. intros. split; [by apply mulld_exact|apply mullw_exact]. Qed.

(** C17: DIVD and DIVW truncate towards zero; a zero divisor and the quotient
    that does not fit give 0, and with OE set exactly those cases set OV. *)
Theorem signed_division_exact fl op s :
  let a := s64 (gpr s (op_ra op)) in let b := s64 (gpr s (op_rb op)) in
  let aw := s32 (gpr s (op_ra op)) in let bw := s32 (gpr s (op_rb op)) in
  (div_result 64 a b (s64 (gpr (DIVD fl op s) (op_rd op))) /\
   (has_oe fl = true -> xer_ov (DIVD fl op s) = (b =? 0) || signed_ov 64 (Z.quot a b))) /\
  (div_result 32 aw bw (s32 (gpr (DIVW fl op s) (op_rd op))) /\
   (has_oe fl = true -> xer_ov (DIVW fl op s) = (bw =? 0) || signed_ov 32 (Z.quot aw bw))).
Proof.
  destruct (divw_exact fl op s) as (H1 & _ & H2). split; [apply divd_exact|done].
Qed.

End IntProofs.

(** ** Concrete instances *)

Definition cfg0 : PpuConfig := config false false false.
Definition oe_rc : exec_flags := Flags true true.

(** Registers 3 and 4 hold the operands, rd is 5: [rd <<21 | ra << 16 | rb << 11]. *)
Definition xo (rd ra rb : Z) : Z := Z.lor (Z.shiftl rd 21) (Z.lor (Z.shiftl ra 16) (Z.shiftl rb 11)).
Definition sample (a b : Z) : ppu_thread := with_gpr [(3, a); (4, b)] blank_thread.

Lemma sample_wf a b : is_word 64 a -> is_word 64 b -> gpr_wf (sample a b).
Proof.
  intros Ha Hb. apply with_gpr_wf; [apply blank_gpr_wf|]. cbn [forallb snd]. unfold is_word in *.
  rewrite !andb_true_iff, !Z.leb_le, !Z.ltb_lt. lia.
Qed.

Lemma carrying_ops_exact_witness :
  carry_result (ADDC (Cfg := cfg0) oe_rc (xo 5 3 4) (sample (2 ^ 64 - 1) 2)) (xo 5 3 4) = 2 ^ 64 - 1 + 2.
Proof.
  apply (carrying_ops_exact (Cfg := cfg0) oe_rc (xo 5 3 4) (sample (2 ^ 64 - 1) 2)).
  apply sample_wf; split; done.
Defined.

Lemma multiword_add_sub_witness :
  exists s, pair128 (gpr s 6) (gpr s 5) + 2 ^ 128 * Z.b2z (xer_ca s) =
    pair128 (gpr (sample (2 ^ 64 - 1) 1) 3) (gpr (sample (2 ^ 64 - 1) 1) 3) +
    pair128 (gpr (sample (2 ^ 64 - 1) 1) 4) (gpr (sample (2 ^ 64 - 1) 1) 4).
Proof.
  exists (ADDE (Cfg := cfg0) oe_rc (xo 6 3 4) (ADDC (Cfg := cfg0) oe_rc (xo 5 3 4) (sample (2 ^ 64 - 1) 1))).
  apply (multiword_add_sub (Cfg := cfg0) oe_rc oe_rc (xo 5 3 4) (xo 6 3 4) (sample (2 ^ 64 - 1) 1));
    [apply sample_wf; split; done|done|done|done].
Defined.

Lemma overflow_ops_exact_witness :
  ov_reports 64 (sample (2 ^ 63 - 1) 1) (ADD (Cfg := cfg0) oe_rc (xo 5 3 4) (sample (2 ^ 63 - 1) 1))
    (s64 (2 ^ 63 - 1) + s64 1).
Proof.
  apply (overflow_ops_exact (Cfg := cfg0) oe_rc (xo 5 3 4) (sample (2 ^ 63 - 1) 1)); [done|apply sample_wf; split; done].
Defined.

Lemma multiply_high_low_witness :
  let s' := MULLD (Cfg := cfg0) oe_rc (xo 6 3 4) (MULHD (Cfg := cfg0) oe_rc (xo 5 3 4) (sample (2 ^ 63) (2 ^ 64 - 7))) in
  s64 (gpr s' 5) * 2 ^ 64 + gpr s' 6 = s64 (2 ^ 63) * s64 (2 ^ 64 - 7).
Proof.
  apply (multiply_high_low (Cfg := cfg0) oe_rc oe_rc (xo 5 3 4) (xo 6 3 4) (sample (2 ^ 63) (2 ^ 64 - 7))); done.
Defined.

Lemma multiply_low_exact_witness :
  s64 (gpr (MULLW (Cfg := cfg0) (Flags false true) (xo 5 3 4) (sample (2 ^ 31) 3)) 5) = s32 (2 ^ 31) * s32 3.
Proof. apply (multiply_low_exact (Cfg := cfg0) (Flags false true) (xo 5 3 4) (sample (2 ^ 31) 3)). done. Defined.

Lemma srawi_addze_divides_witness :
  s64 (gpr (ADDZE (Cfg := cfg0) oe_rc (xo 6 5 0) (SRAWI (Cfg := cfg0) oe_rc (xo 3 5 2) (sample (2 ^ 32 - 7) 0))) 6) =
  Z.quot (s32 (2 ^ 32 - 7)) (2 ^ 2).
Proof.
  apply (srawi_addze_divides (Cfg := cfg0) oe_rc oe_rc (xo 3 5 2) (xo 6 5 0) (sample (2 ^ 32 - 7) 0));
    [apply sample_wf; split; done|done].
Defined.

Lemma word_rotates_spec_witness :
  pbit (gpr (RLWINM (Cfg := cfg0) oe_rc (Z.lor (xo 3 5 8) 62) (sample 0xff000000 0)) 5) 32 =
  in_range 32 63 32 && pbit 0xff000000 (32 + (32 + 8) mod 32).
Proof. apply (word_rotates_spec (Cfg := cfg0) oe_rc (Z.lor (xo 3 5 8) 62) (sample 0xff000000 0) 32). lia. Defined.

Lemma doubleword_rotates_spec_witness :
  pbit (gpr (RLDICL (Cfg := cfg0) oe_rc (xo 3 5 8) (sample 0xff00 0)) 5) 40 = (0 <=? 40) && pbit 0xff00 ((40 + 8) mod 64).
Proof.
  apply (doubleword_rotates_spec (Cfg := cfg0) oe_rc (xo 3 5 8) (sample 0xff00 0) 40); [apply sample_wf; split; done|lia].
Defined.

Lemma mfcr_mtcrf_roundtrip_witness :
  cr (MTOCRF (Z.lor (xo 5 0 0) 0xff000) (MFCR (xo 5 0 0) (set_cr_at 2 1 blank_thread))) 2 = cr (set_cr_at 2 1 blank_thread) 2.
Proof.
  apply (mfcr_mtcrf_roundtrip (xo 5 0 0) (Z.lor (xo 5 0 0) 0xff000) (set_cr_at 2 1 blank_thread)); try done.
  intros i. cbn [cr set_cr_at set_cr]. unfold upd. destruct (i =? 2); auto.
Defined.
