(* ===== verification/PpuBranchProofs.v ===== *)
(** * Branches: correctness

    The counted loop, call and return, compare and branch, the byte counter
    and the call history. *)
From S2P Require Import Prelude PpuState PpuInt PpuBranch.

Section BranchProofs.
Context `{Cfg : PpuConfig}.
Implicit Types (op pc : Z) (s : ppu_thread).

(** ** Counted loops *)

(** [body] followed by the branch [op] at [pc], until the branch falls through;
    returns how often the body ran. *)
Fixpoint bdnz_loop (fuel : nat) pc op (body : ppu_thread -> ppu_thread) s : option (Z * ppu_thread) :=
  match fuel with
  | O => None
  | S fuel =>
    match BC pc op (body s) with
    | Return s' => r ← bdnz_loop fuel pc op body s'; Some (r.1 + 1, r.2)
    | Next s' => Some (1, s')
    | _ => None
    end
  end.

(** [BO = 16]: decrement [ctr] and branch when it is not zero. *)
Definition is_bdnz op : Prop := op_bo op = 16.

Lemma record_call_obs c op i s :
  let s' := ppu_record_call c op i s in
  gpr s' = gpr s /\ ctr s' = ctr s /\ lr s' = lr s /\ cr s' = cr s /\ cia s' = cia s /\ state s' = state s /\
  exec_bytes s' = exec_bytes s /\ mem s' = mem s /\ xer_so s' = xer_so s.
Proof. unfold ppu_record_call. cbv zeta. repeat case_match; done. Qed.

Lemma bdnz_taken pc op s :
  is_bdnz op -> u64 (ctr s - 1) <> 0 ->
  exists s', BC pc op s = Return s' /\ ctr s' = u64 (ctr s - 1) /\ state s' = state s.
Proof.
  unfold is_bdnz. intros Hb Hc. unfold BC. cbv zeta.
  assert (Hok : ctr_ok op (ctr (set_link op (u32 (pc + 4)) (dec_ctr op s))) &&
                cond_ok op (set_link op (u32 (pc + 4)) (dec_ctr op s)) = true).
  { unfold ctr_ok, cond_ok, dec_ctr, set_link. rewrite Hb. change (Z.b2z (xorb (negb (Z.land 16 0x04 =? 0)) true)) with 1.
    destruct (op_lk op); state_cbn; rewrite (proj2 (Z.eqb_neq _ _) Hc); done. }
  rewrite Hok. eexists. split; [done|]. unfold add_exec_bytes. state_cbn.
  match goal with |- context [ppu_record_call ?a ?b ?c ?d] =>
    destruct (record_call_obs a b c d) as (_ & -> & _ & _ & _ & -> & _) end.
  unfold set_link, dec_ctr. rewrite Hb. destruct (op_lk op); done.
Qed.

Lemma bdnz_falls_through pc op s :
  is_bdnz op -> u64 (ctr s - 1) = 0 -> state s = 0 ->
  exists s', BC pc op s = Next s' /\ ctr s' = 0.
Proof.
  unfold is_bdnz. intros Hb Hc Hs. unfold BC. cbv zeta.
  assert (Hok : ctr_ok op (ctr (set_link op (u32 (pc + 4)) (dec_ctr op s))) = false).
  { unfold ctr_ok, dec_ctr, set_link. rewrite Hb. change (Z.b2z (xorb (negb (Z.land 16 0x04 =? 0)) true)) with 1.
    destruct (op_lk op); state_cbn; rewrite Hc; done. }
  rewrite Hok. unfold not_taken.
  assert (Hst : state (set_link op (u32 (pc + 4)) (dec_ctr op s)) = 0) by (unfold set_link; by destruct (op_lk op)).
  rewrite Hst. eexists. split; [done|]. unfold set_link, dec_ctr. rewrite Hb. by destruct (op_lk op).
Qed.

(** A loop closed by bdnz (BO = 16) runs its body exactly CTR times and leaves CTR zero, for any body that preserves CTR and the stop flag; CTR iterations of fuel are enough. *)
Theorem bdnz_loop_count fuel : forall pc op body s,
  is_bdnz op -> (forall t, ctr (body t) = ctr t) -> (forall t, state (body t) = state t) ->
  state s = 0 -> 0 < ctr s < 2 ^ 64 -> ctr s <= Z.of_nat fuel ->
  exists s', bdnz_loop fuel pc op body s = Some (ctr s, s') /\ ctr s' = 0.
Proof.
  induction fuel as [|fuel IH]; intros pc op body s Hb Hbc Hbs Hs Hc Hf; [lia|]. cbn [bdnz_loop].
  assert (Hu : u64 (ctr s - 1) = ctr s - 1) by (apply wrap_small; unfold is_word; lia).
  destruct (Z.eq_dec (ctr s) 1) as [H1|H1].
  - destruct (bdnz_falls_through pc op (body s)) as (s' & -> & H0); [done|by rewrite Hbc, H1|by rewrite Hbs|].
    exists s'. by rewrite H1.
  - destruct (bdnz_taken pc op (body s)) as (s1 & -> & E1 & E2); [done|rewrite Hbc, Hu; lia|].
    rewrite Hbc, Hu in E1. rewrite Hbs, Hs in E2.
    destruct (IH pc op body s1 Hb Hbc Hbs E2) as (s' & E & H0); [lia|lia|].
    rewrite E. cbn. exists s'. split; [|done]. do 2 f_equal. lia.
Qed.

(** ** Calls and returns *)

Lemma bl_sets_link pc op s :
  op_lk op = true ->
  exists s', B pc op s = Return s' /\ lr s' = u32 (pc + 4) /\
  cia s' = u32 ((if op_aa op then 0 else pc) + op_bt24 op).
Proof.
  intros Hl. unfold B. cbv zeta. eexists. split; [done|].
  unfold add_exec_bytes, set_link. rewrite Hl. state_cbn.
  match goal with |- context [ppu_record_call ?a ?b ?c ?d] =>
    destruct (record_call_obs a b c d) as (_ & _ & _ & _ & -> & _) end. done.
Qed.

(** [BO = 20]: branch always. *)
Lemma blr_jumps pc op s :
  op_bo op = 20 ->
  exists s', BCLR pc op s = Return s' /\ cia s' = Z.land (u32 (lr s)) (bnot 32 3) /\
  ctr s' = ctr s mod 2 ^ 64 /\ lr s' = if op_lk op then u32 (pc + 4) else lr s.
Proof.
  intros Hb. unfold BCLR. cbv zeta.
  assert (Hok : ctr_ok op (ctr (dec_ctr op s)) && cond_ok op (dec_ctr op s) = true).
  { unfold ctr_ok, cond_ok. by rewrite Hb. }
  rewrite Hok. eexists. split; [done|]. unfold add_exec_bytes. state_cbn.
  match goal with |- context [ppu_record_call ?a ?b ?c ?d] => destruct (record_call_obs a b c d) as (_ & -> & -> & _) end.
  unfold set_link, dec_ctr. rewrite Hb. split; [done|]. destruct (op_lk op); state_cbn; rewrite Z.sub_0_r; done.
Qed.

Lemma land_not3 x : is_word 32 x -> x mod 4 = 0 -> Z.land x (bnot 32 3) = x.
Proof.
  intros Hx Hm. apply Z.bits_inj'. intros i Hi. rewrite Z.land_spec, testbit_bnot by lia.
  destruct (Z.ltb_spec i 32); [|by rewrite (testbit_above 32) by (done || lia)]. cbn [andb].
  change 3 with (Z.ones 2). destruct (Z.lt_ge_cases i 2).
  - assert (Ht : Z.testbit x i = false).
    { rewrite <- (Z.mod_pow2_bits_low x 2 i) by lia. change (2 ^ 2) with 4. by rewrite Hm, Z.bits_0. }
    by rewrite Ht.
  - by rewrite Z.ones_spec_high, andb_true_r by lia.
Qed.

(** A branch with LK set followed by a callee that preserves LR and an unconditional BCLR continues at the instruction after the call. *)
Theorem call_return pc1 op1 pc2 op2 s s1 (callee : ppu_thread -> ppu_thread) :
  op_lk op1 = true -> op_bo op2 = 20 -> 0 <= pc1 -> pc1 + 4 < 2 ^ 32 -> pc1 mod 4 = 0 ->
  B pc1 op1 s = Return s1 -> (forall t, lr (callee t) = lr t) ->
  exists s2, BCLR pc2 op2 (callee s1) = Return s2 /\ cia s2 = pc1 + 4.
Proof.
  intros Hl Hb H0 H1 Hm HB Hc. destruct (bl_sets_link pc1 op1 s Hl) as (s1' & HB' & Hlr & _).
  rewrite HB in HB'. injection HB' as <-.
  destruct (blr_jumps pc2 op2 (callee s1) Hb) as (s2 & H2 & Hcia & _). exists s2. split; [done|].
  assert (Hu : u32 (pc1 + 4) = pc1 + 4) by (apply wrap_small; unfold is_word; lia).
  rewrite Hcia, Hc, Hlr, wrap_wrap, Hu. apply land_not3; [unfold is_word; lia|].
  Z.div_mod_to_equations; lia.
Qed.

(** ** The byte counter *)

Lemma exec_bytes_add link old s : exec_bytes (add_exec_bytes link old s) = u64 (exec_bytes s + u32 (link - old)).
Proof. done. Qed.
Lemma exec_bytes_record c op i s : exec_bytes (ppu_record_call c op i s) = exec_bytes s.
Proof. apply record_call_obs. Qed.
Lemma set_link_obs op l s : exec_bytes (set_link op l s) = exec_bytes s /\ cia (set_link op l s) = cia s.
Proof. unfold set_link. by destruct (op_lk op). Qed.
Lemma dec_ctr_obs op s : exec_bytes (dec_ctr op s) = exec_bytes s /\ cia (dec_ctr op s) = cia s.
Proof. done. Qed.
Lemma not_taken_bytes link old s s' :
  not_taken link old s = Return s' -> exec_bytes s' = u64 (exec_bytes s + u32 (link - old)).
Proof. unfold not_taken. destruct (_ =? 0); [done|]. by intros [= <-]. Qed.

Lemma branch_exec_bytes pc op s s' :
  (BC pc op s = Return s' \/ B pc op s = Return s' \/ BCLR pc op s = Return s' \/ BCCTR pc op s = Return s') ->
  exec_bytes s' = u64 (exec_bytes s + u32 (u32 (pc + 4) - cia s)).
Proof.
  assert (Hl : forall t, exec_bytes (set_link op (u32 (pc + 4)) t) = exec_bytes t) by (intros; apply set_link_obs).
  assert (Hc : forall t, cia (set_link op (u32 (pc + 4)) t) = cia t) by (intros; apply set_link_obs).
  intros [H|[H|[H|H]]]; revert H; unfold BC, B, BCLR, BCCTR; cbv zeta.
  - destruct (_ && _); [intros [= <-]|intros H%not_taken_bytes; rewrite H, Hl, Hc; done].
    rewrite exec_bytes_add, Hc. cbn [exec_bytes set_cia]. rewrite exec_bytes_record. cbn [exec_bytes set_cia]. by rewrite Hl.
  - intros [= <-]. rewrite exec_bytes_add, Hl. cbn [exec_bytes set_cia]. by rewrite exec_bytes_record.
  - destruct (_ && _); [intros [= <-]|intros H%not_taken_bytes; rewrite H, Hl, Hc; done].
    rewrite exec_bytes_add, Hc. cbn [exec_bytes set_cia]. by rewrite exec_bytes_record, Hl.
  - destruct (_ || _); [intros [= <-]|intros H%not_taken_bytes; rewrite H, Hl, Hc; done].
    rewrite exec_bytes_add, Hc. cbn [exec_bytes set_cia]. by rewrite exec_bytes_record, Hl.
Qed.

(** ** Compare and branch *)

Definition cmp_bit (k a b : Z) (so : bool) : bool :=
  if k =? 0 then a <? b else if k =? 1 then b <? a else if k =? 2 then a =? b else so.

Lemma cr_cmp_bit f a b s k :
  0 <= k < 4 -> cr (ppu_cr_cmp f a b s) (f * 4 + k) = Z.b2z (cmp_bit k a b (xer_so s)).
Proof.
  intros Hk. unfold ppu_cr_cmp, ppu_cr_set, cmp_bit.
  assert (H : cr (set_cr_at (f * 4 + 3) (Z.b2z (xer_so s)) (set_cr_at (f * 4 + 2) (Z.b2z (a =? b))
    (set_cr_at (f * 4 + 1) (Z.b2z (b <? a)) (set_cr_at (f * 4 + 0) (Z.b2z (a <? b)) s)))) (f * 4 + k) =
    Z.b2z (if k =? 0 then a <? b else if k =? 1 then b <? a else if k =? 2 then a =? b else xer_so s)).
  { state_cbn. unfold upd.
    destruct (Z.eqb_spec (f * 4 + k) (f * 4 + 3)); destruct (Z.eqb_spec (f * 4 + k) (f * 4 + 2));
    destruct (Z.eqb_spec (f * 4 + k) (f * 4 + 1)); destruct (Z.eqb_spec (f * 4 + k) (f * 4 + 0));
    destruct (Z.eqb_spec k 0); destruct (Z.eqb_spec k 1); destruct (Z.eqb_spec k 2); try lia; done. }
  by destruct ppu_debug.
Qed.

(** The operands a compare instruction compares. *)
Definition cmp_operands (op : Z) s : Z * Z :=
  if op_l10 op then (s64 (gpr s (op_ra op)), s64 (gpr s (op_rb op)))
  else (s32 (gpr s (op_ra op)), s32 (gpr s (op_rb op))).

(** [BO = 12] branches when the bit is set, [BO = 4] when it is clear. *)
Lemma bc_cond pc op s :
  state s = 0 -> cr s (op_bi op) = 0 \/ cr s (op_bi op) = 1 ->
  (op_bo op = 12 \/ op_bo op = 4) ->
  (exists s', BC pc op s = if Bool.eqb (cr s (op_bi op) =? 1) (op_bo op =? 12) then Return s' else Next s').
Proof.
  intros Hs Hc Hb. unfold BC. cbv zeta.
  assert (Hok : ctr_ok op (ctr (set_link op (u32 (pc + 4)) (dec_ctr op s))) &&
                cond_ok op (set_link op (u32 (pc + 4)) (dec_ctr op s)) = Bool.eqb (cr s (op_bi op) =? 1) (op_bo op =? 12)).
  { assert (Hcr : cr (set_link op (u32 (pc + 4)) (dec_ctr op s)) = cr s) by (unfold set_link; by destruct (op_lk op)).
    unfold ctr_ok, cond_ok. rewrite Hcr. destruct Hb as [-> | ->], Hc as [-> | ->]; done. }
  rewrite Hok. destruct (Bool.eqb _ _); [by eexists|]. unfold not_taken.
  assert (Hst : state (set_link op (u32 (pc + 4)) (dec_ctr op s)) = 0) by (unfold set_link; by destruct (op_lk op)).
  rewrite Hst. by eexists.
Qed.

(** A signed register compare followed by a conditional branch on its field takes the branch exactly when the relation the bit stands for holds (BO = 12) or fails (BO = 4). *)
Theorem cmp_bc pc op1 op2 s k :
  state s = 0 -> 0 <= k < 4 -> op_bi op2 = op_crfd op1 * 4 + k -> (op_bo op2 = 12 \/ op_bo op2 = 4) ->
  let '(a, b) := cmp_operands op1 s in
  exists s', BC pc op2 (CMP op1 s) =
    if Bool.eqb (cmp_bit k a b (xer_so s)) (op_bo op2 =? 12) then Return s' else Next s'.
Proof.
  intros Hs Hk Hbi Hbo. destruct (cmp_operands op1 s) as [a b] eqn:Hop.
  assert (HC : CMP op1 s = ppu_cr_cmp (op_crfd op1) a b s).
  { unfold CMP, cmp_operands in *. rewrite !sext_wrap. by destruct (op_l10 op1); injection Hop as <- <-. }
  assert (Hst : state (CMP op1 s) = 0).
  { rewrite HC. unfold ppu_cr_cmp, ppu_cr_set. by destruct ppu_debug. }
  assert (Hbit : cr (CMP op1 s) (op_bi op2) = Z.b2z (cmp_bit k a b (xer_so s))).
  { rewrite HC, Hbi. by apply cr_cmp_bit. }
  destruct (bc_cond pc op2 (CMP op1 s) Hst) as (s' & E); [rewrite Hbit; destruct (cmp_bit _ _ _ _); auto|done|].
  exists s'. rewrite E, Hbit. by destruct (cmp_bit k a b (xer_so s)).
Qed.

(** ** Call history *)

Lemma call_history_ring new_cia op indirect s :
  let h := call_history s in let s' := ppu_record_call new_cia op indirect s in let h' := call_history s' in
  length (ch_data h') = length (ch_data h) /\
  (ch_index h' = ch_index h /\ ch_data h' = ch_data h \/
   ch_index h' = u64 (ch_index h + 1) /\
   ch_data h' = <[Z.to_nat (ch_index h mod call_history_max_size) := new_cia]> (ch_data h)).
Proof.
  cbv zeta. unfold ppu_record_call. destruct set_call_history; [|by auto]. cbn [negb].
  destruct (ch_data (call_history s)) as [|d l] eqn:Hd; [rewrite ?Hd; auto|].
  repeat case_match; cbn [call_history set_history ch_data ch_index]; rewrite ?length_insert, ?Hd; auto.
Qed.
End BranchProofs.

(** ** Concrete instances *)

Definition cfg0 : PpuConfig := config false true false.
Definition bdnz_op : Z := 0x4200fffc.

Lemma bdnz_loop_count_witness :
  exists s', bdnz_loop (Cfg := cfg0) 10 0x1000 bdnz_op (set_gpr_at 3 1) (set_ctr 10 blank_thread) = Some (10, s') /\ ctr s' = 0.
Proof.
  apply (bdnz_loop_count (Cfg := cfg0) 10 0x1000 bdnz_op (set_gpr_at 3 1) (set_ctr 10 blank_thread)); done.
Defined.

Lemma call_return_witness :
  exists s2, BCLR (Cfg := cfg0) 0x2000 0x4e800020
    (set_gpr_at 3 1 (out_state (B (Cfg := cfg0) 0x1000 0x48001001 blank_thread))) = Return s2 /\ cia s2 = 0x1000 + 4.
Proof.
  apply (call_return (Cfg := cfg0) 0x1000 0x48001001 0x2000 0x4e800020 blank_thread
           (out_state (B (Cfg := cfg0) 0x1000 0x48001001 blank_thread)) (set_gpr_at 3 1)); done.
Defined.

(** [cmpd cr7, r3, r4] and [blt cr7]. *)
Lemma cmp_bc_witness :
  exists s', BC (Cfg := cfg0) 0x1000 0x419c0010 (CMP (Cfg := cfg0) 0x7fa32000 (with_gpr [(3, 2 ^ 64 - 1); (4, 1)] blank_thread)) =
    if Bool.eqb (cmp_bit 0 (s64 (2 ^ 64 - 1)) (s64 1) false) true then Return s' else Next s'.
Proof.
  apply (cmp_bc (Cfg := cfg0) 0x1000 0x7fa32000 0x419c0010 (with_gpr [(3, 2 ^ 64 - 1); (4, 1)] blank_thread) 0);
    [done|lia|done|by left].
Defined.
