(* ===== verification/PpuMemProofs.v ===== *)
(** * Memory access: correctness

    Byte lists and big-endian values, the reservation check of
    [ppu_feed_data], store/load round trips on every width, unaligned vector
    access by pairs of left/right instructions, and the multiple-word and
    string instructions. *)
From S2P Require Import Prelude PpuState PpuMem.

(** ** Specifications *)

Section Specs.
Context `{Cfg : PpuConfig}.
Implicit Types (op : Z) (s : ppu_thread).

Definition bytes_ok (l : list Z) : Prop := Forall (is_word 8) l.

(** Equality of states up to the reservation fields. *)
Definition same_but_reservation s s' : Prop :=
  s' = s \/ s' = set_res_cached 0 (set_raddr 0 s).

Definition no_cross (n : nat) (a : Z) : Prop := (0 < n)%nat /\ a / 128 = (a + Z.of_nat n - 1) / 128.

(** What [ppu_feed_data] leaves of the reservation: lost when the line is
    reserved and its bytes differ from the thread's copy. *)
Definition feed_state (n : nat) (a : Z) s : ppu_thread :=
  if use_feed_data && use_full_rdata s && (raddr s / 128 =? a / 128) &&
     negb (bytes_eqb (read_bytes (mem s) a n) (read_bytes (rdata s) (a mod 128) n))
  then set_res_cached 0 (set_raddr 0 s) else s.

(** [m] followed by the load into [rd] succeeds and leaves [v] there. *)
Definition leaves s (m : M unit) (rd v : Z) : Prop :=
  exists s', m s = Ok tt s' /\ gpr s' rd = v.

Definition mem_wf s : Prop := forall a, is_word 8 (mem s a).
Lemma read_bytes_ok s a n : mem_wf s -> bytes_ok (read_bytes (mem s) a n).
Proof. intros H. unfold read_bytes. apply Forall_map, Forall_true. intros. apply H. Qed.

Definition lvrx_line op s : Z := align16 (if ea_x op s mod 16 =? 0 then cia s else ea_x op s).

(** Loads do not consult the reservation. *)
Definition plain s : Prop := use_feed_data && use_full_rdata s = false.

(** Word [j] of the [N]-byte string at [a], padded with zero bytes. *)
Definition str_byte (m : Z -> Z) (a N k : Z) : Z := if k <? N then m (a + k) else 0.
Definition str_word (m : Z -> Z) (a N j : Z) : Z :=
  be_val (map (fun i => str_byte m a N (4 * j + i)) [0; 1; 2; 3]).

(** The registers [(reg + j) mod 32] of a string of [N] bytes. *)
Definition string_regs (reg N r : Z) : Prop := exists j, 0 <= j /\ 4 * j < N /\ r = (reg + j) mod 32.

(** The effect of loading the [N]-byte string at [a] into the registers from [reg]. *)
Definition string_loaded s s' (reg N a : Z) : Prop :=
  mem s' = mem s /\ use_full_rdata s' = use_full_rdata s /\
  (forall j, 0 <= j -> 4 * j < N -> gpr s' ((reg + j) mod 32) = str_word (mem s) a N j) /\
  (forall r, ~ string_regs reg N r -> gpr s' r = gpr s r).

(** Byte [k] of the string held in the registers from [reg]. *)
Definition reg_byte (g : Z -> Z) (reg k : Z) : Z :=
  Z.land (Z.shiftr (g ((reg + k / 4) mod 32)) (8 * (3 - k mod 4))) 255.

Definition string_stored s s' (reg N b : Z) : Prop :=
  gpr s' = gpr s /\
  forall x, mem s' x = if (b <=? x) && (x <? b + N) then reg_byte (gpr s) reg (x - b) else mem s x.

End Specs.

(** ** Bytes *)

Lemma be_val_snoc l b : be_val (l ++ [b]) = be_val l * 256 + b.
Proof. unfold be_val. by rewrite fold_left_app. Qed.

Lemma length_be_bytes n v : length (be_bytes n v) = n.
Proof. revert v. induction n; intros; [done|]. cbn. rewrite length_app, IHn. cbn. lia. Qed.

Lemma land_255 x : Z.land x 255 = x mod 256.
Proof. apply (Z.land_ones x 8). lia. Qed.

Lemma be_val_bytes n v : be_val (be_bytes n v) = wrap (8 * Z.of_nat n) v.
Proof.
  revert v. induction n as [|n IH]; intros v.
  - cbn. unfold wrap. by rewrite Z.mod_1_r.
  - cbn [be_bytes]. rewrite be_val_snoc, IH, land_255, Z.shiftr_div_pow2 by lia. unfold wrap.
    change (2 ^ 8) with 256. replace (8 * Z.of_nat (S n)) with (8 * Z.of_nat n + 8) by lia.
    rewrite Z.pow_add_r by lia. change (2 ^ 8) with 256.
    assert (0 < 2 ^ (8 * Z.of_nat n)) by (apply Z.pow_pos_nonneg; lia).
    rewrite (Z.mul_comm (2 ^ _) 256), Z.rem_mul_r by lia. lia.
Qed.

Lemma be_bytes_ok n v : bytes_ok (be_bytes n v).
Proof.
  revert v. induction n; intros v; cbn; [constructor|].
  apply Forall_app. split; [apply IHn|]. constructor; [|constructor].
  rewrite land_255. apply Z.mod_pos_bound. lia.
Qed.

Lemma be_bytes_val l : bytes_ok l -> be_bytes (length l) (be_val l) = l.
Proof.
  unfold bytes_ok. induction l as [|b l IH] using rev_ind; [done|].
  intros [Hl Hb]%Forall_app. rewrite Forall_singleton in Hb.
  rewrite length_app, Nat.add_comm. cbn [length plus be_bytes].
  rewrite be_val_snoc, land_255, Z.shiftr_div_pow2 by lia. change (2 ^ 8) with 256.
  unfold is_word in Hb. change (2 ^ 8) with 256 in Hb.
  rewrite Z.div_add_l by lia. rewrite (Z.div_small b) by lia. rewrite Z.add_0_r. rewrite IH by done.
  f_equal. f_equal. rewrite Z.add_comm, Z.mod_add, Z.mod_small by lia. done.
Qed.

Lemma be_val_range l : bytes_ok l -> is_word (8 * Z.of_nat (length l)) (be_val l).
Proof.
  intros Hl. rewrite <- (be_bytes_val l Hl) at 2. rewrite be_val_bytes. apply wrap_range. lia.
Qed.

Lemma length_read_bytes m a n : length (read_bytes m a n) = n.
Proof. unfold read_bytes. by rewrite length_map, length_seq. Qed.
Lemma nth_read_bytes m a n i : (i < n)%nat -> nth i (read_bytes m a n) 0 = m (a + Z.of_nat i).
Proof.
  intros Hi. unfold read_bytes. rewrite nth_indep with (d' := m (a + Z.of_nat 0)) by (by rewrite length_map, length_seq).
  rewrite (map_nth (fun i => m (a + Z.of_nat i)) (seq 0 n) O i), seq_nth by done. done.
Qed.

Lemma list_nth_eq (l k : list Z) : length l = length k -> (forall i, (i < length l)%nat -> nth i l 0 = nth i k 0) -> l = k.
Proof. intros. by apply (nth_ext _ _ 0 0). Qed.

Lemma read_write_same m a l : read_bytes (write_bytes m a l) a (length l) = l.
Proof.
  apply list_nth_eq; rewrite length_read_bytes; [done|]. intros i Hi. rewrite nth_read_bytes by done.
  unfold write_bytes. destruct (Z.leb_spec a (a + Z.of_nat i)); [|lia].
  destruct (Z.ltb_spec (a + Z.of_nat i) (a + Z.of_nat (length l))); [|lia]. cbn. f_equal. lia.
Qed.

Lemma read_write_disjoint m a l b n :
  b + Z.of_nat n <= a \/ a + Z.of_nat (length l) <= b ->
  read_bytes (write_bytes m a l) b n = read_bytes m b n.
Proof.
  intros Hd. apply list_nth_eq; rewrite !length_read_bytes; [done|]. intros i Hi.
  rewrite !nth_read_bytes by done. unfold write_bytes.
  destruct (Z.leb_spec a (b + Z.of_nat i)); [|done].
  destruct (Z.ltb_spec (b + Z.of_nat i) (a + Z.of_nat (length l))); [lia|done].
Qed.

Lemma read_bytes_app m a n k : read_bytes m a (n + k) = read_bytes m a n ++ read_bytes m (a + Z.of_nat n) k.
Proof.
  apply list_nth_eq; [by rewrite length_app, !length_read_bytes|].
  rewrite length_read_bytes. intros i Hi. rewrite nth_read_bytes by done.
  destruct (decide (i < n)%nat).
  - rewrite app_nth1 by (by rewrite length_read_bytes). by rewrite nth_read_bytes.
  - rewrite app_nth2 by (rewrite length_read_bytes; lia). rewrite length_read_bytes, nth_read_bytes by lia.
    f_equal. lia.
Qed.

Lemma write_bytes_app m a l k :
  forall x, write_bytes m a (l ++ k) x = write_bytes (write_bytes m a l) (a + Z.of_nat (length l)) k x.
Proof.
  intros x. unfold write_bytes. rewrite length_app.
  destruct (Z.leb_spec a x); destruct (Z.ltb_spec x (a + Z.of_nat (length l + length k)));
  destruct (Z.leb_spec (a + Z.of_nat (length l)) x);
  destruct (Z.ltb_spec x (a + Z.of_nat (length l) + Z.of_nat (length k)));
  destruct (Z.ltb_spec x (a + Z.of_nat (length l))); try lia; cbn; try done.
  - rewrite app_nth2 by lia. f_equal. lia.
  - by rewrite app_nth1 by lia.
Qed.

(** ** [ppu_feed_data] *)

Lemma be_val_app l k : be_val (l ++ k) = be_val l * 2 ^ (8 * Z.of_nat (length k)) + be_val k.
Proof.
  induction k as [|b k IH] using rev_ind.
  - rewrite app_nil_r. cbn. lia.
  - rewrite app_assoc, !be_val_snoc, IH, length_app, Nat.add_comm.
    replace (8 * Z.of_nat (length [b] + length k)) with (8 * Z.of_nat (length k) + 8) by (cbn [length]; lia).
    rewrite Z.pow_add_r by lia. change (2 ^ 8) with 256. lia.
Qed.

Lemma align16_eq a : 0 <= a < 2 ^ 64 -> align16 a = a - a mod 16.
Proof.
  intros Ha. unfold align16, bnot. assert (H : Z.land a (u64 (Z.lnot 15)) = Z.ldiff a 15).
  { apply Z.bits_inj'. intros i Hi. rewrite Z.land_spec, Z.ldiff_spec, testbit_wrap, Z.lnot_spec by lia.
    destruct (Z.ltb_spec i 64); [done|]. by rewrite (testbit_above 64) by (done || lia). }
  rewrite H. change 15 with (Z.ones 4). rewrite Z.ldiff_ones_r, Z.shiftr_div_pow2, Z.shiftl_mul_pow2 by lia.
  change (2 ^ 4) with 16. Z.div_mod_to_equations; lia.
Qed.

Lemma land_15 x : Z.land x 15 = x mod 16.
Proof. apply (Z.land_ones x 4). lia. Qed.

(** Two neighbouring aligned quadwords shifted together. *)
Lemma unaligned_merge m A t D :
  (forall a, is_word 8 (m a)) -> 0 <= t < 16 ->
  is_word 128 D -> (t <> 0 -> D = be_val (read_bytes m (A + 16) 16)) ->
  Z.lor (u128 (be_val (read_bytes m A 16) * 2 ^ (8 * t))) (D / 2 ^ (8 * (16 - t))) =
  be_val (read_bytes m (A + t) 16).
Proof.
  intros Hm Ht HD HDt.
  assert (Hok : forall a n, is_word (8 * Z.of_nat n) (be_val (read_bytes m a n))).
  { intros a n. rewrite <- (length_read_bytes m a n) at 1. apply be_val_range.
    unfold read_bytes. apply Forall_map, Forall_true. intros. apply Hm. }
  destruct (Z.eq_dec t 0) as [->|Ht0].
  - rewrite Z.mul_0_r, Z.sub_0_r, Z.pow_0_r, Z.mul_1_r, Z.add_0_r, Z.div_small, Z.lor_0_r by done.
    apply (wrap_small 128), (Hok A 16%nat).
  - rewrite HDt by done. set (n := Z.to_nat t). set (k := Z.to_nat (16 - t)).
    assert (Hk : 16%nat = (k + n)%nat) by lia. assert (Hn : 16%nat = (n + k)%nat) by lia.
    pose proof (read_bytes_app m A n k) as R1. pose proof (read_bytes_app m (A + 16) n k) as R2.
    pose proof (read_bytes_app m (A + t) k n) as R3. rewrite <- Hn in R1, R2. rewrite <- Hk in R3.
    rewrite R1, R2, R3, !be_val_app, !length_read_bytes. clear R1 R2 R3.
    replace (A + t + Z.of_nat k) with (A + 16) by lia. replace (A + Z.of_nat n) with (A + t) by lia.
    pose proof (Hok (A + 16) n) as Hx. pose proof (Hok (A + 16 + Z.of_nat n) k) as Hy.
    pose proof (Hok (A + t) k) as Hz. pose proof (Hok A n) as Hw.
    generalize dependent (be_val (read_bytes m (A + 16) n)). intros x Hx.
    generalize dependent (be_val (read_bytes m (A + 16 + Z.of_nat n) k)). intros y Hy.
    generalize dependent (be_val (read_bytes m (A + t) k)). intros z Hz.
    generalize dependent (be_val (read_bytes m A n)). intros w Hw.
    replace (8 * (16 - t)) with (8 * Z.of_nat k) by lia. replace (8 * t) with (8 * Z.of_nat n) by lia.
    rewrite Z.div_add_l, (Z.div_small y), Z.add_0_r by (done || apply Z.pow_nonzero; lia).
    rewrite <- (lor_concat z) by (done || lia). f_equal. unfold wrap.
    replace 128 with (8 * Z.of_nat k + 8 * Z.of_nat n) by lia. rewrite Z.pow_add_r by lia.
    rewrite Z.mul_mod_distr_r by (apply Z.pow_nonzero; lia). f_equal.
    rewrite Z.add_comm, Z.mod_add by (apply Z.pow_nonzero; lia). by apply Z.mod_small.
Qed.

Lemma byte_of_snoc x b : is_word 8 b -> Z.land (x * 256 + b) 255 = b /\ Z.shiftr (x * 256 + b) 8 = x.
Proof.
  intros Hb. rewrite land_255, Z.shiftr_div_pow2 by lia. unfold is_word in Hb.
  change (2 ^ 8) with 256 in *. split; Z.div_mod_to_equations; lia.
Qed.

Lemma nth_be_bytes n v i : (i < n)%nat -> nth i (be_bytes n v) 0 = Z.land (Z.shiftr v (8 * (Z.of_nat n - 1 - Z.of_nat i))) 255.
Proof.
  revert v i. induction n as [|n IH]; intros v i Hi; [lia|]. cbn [be_bytes].
  destruct (decide (i < n)%nat).
  - rewrite app_nth1, IH, Z.shiftr_shiftr by (rewrite ?length_be_bytes; lia). do 2 f_equal. lia.
  - assert (i = n) as -> by lia. rewrite app_nth2, length_be_bytes, Nat.sub_diag by (rewrite length_be_bytes; lia).
    cbn [nth]. replace (8 * (Z.of_nat (S n) - 1 - Z.of_nat n)) with 0 by lia. by rewrite Z.shiftr_0_r.
Qed.

Lemma fold_upd_lookup (f : Z -> Z) a l m x :
  fold_left (fun m j => upd m (a + j) (f j)) l m x = if bool_decide ((x - a) ∈ l) then f (x - a) else m x.
Proof.
  revert m. induction l as [|j l IH] using rev_ind; intros m; [done|].
  rewrite fold_left_app. cbn [fold_left]. unfold upd at 1. rewrite IH.
  destruct (Z.eqb_spec x (a + j)) as [->|Hne].
  - replace (a + j - a) with j by lia. rewrite bool_decide_true by set_solver. done.
  - destruct (bool_decide_reflect (x - a ∈ l)).
    + by rewrite bool_decide_true by set_solver.
    + rewrite bool_decide_false; [done|]. rewrite elem_of_app, list_elem_of_singleton. intros [?|?]; [done|lia].
Qed.

Section MemProofs.
Context `{Cfg : PpuConfig}.
Implicit Types (op : Z) (s : ppu_thread).

Lemma feed_value n a s l s' :
  ppu_feed_data n a s = Ok l s' -> a < 2 ^ 32 /\ l = read_bytes (mem s) a n /\ same_but_reservation s s'.
Proof.
  unfold ppu_feed_data, mbind, M_bind, vm_cast. destruct (Z.ltb_spec a (2 ^ 32)) as [Ha|]; [|done].
  unfold mret, M_ret, get, lose_reservation, modify, same_but_reservation.
  repeat case_match; intros; simplify_eq; auto.
Qed.

Lemma no_cross_sum n a : 0 <= a -> a < 2 ^ 32 -> no_cross n a -> u64 (a + Z.of_nat n - 1) = a + Z.of_nat n - 1.
Proof.
  intros H0 Ha [Hn Hc]. apply wrap_small. unfold is_word. 
  assert (a + Z.of_nat n - 1 < 2 ^ 32 + 128) by (Z.div_mod_to_equations; lia). lia.
Qed.

Lemma feed_in_line n a s :
  0 <= a < 2 ^ 32 -> no_cross n a ->
  ppu_feed_data n a s = Ok (read_bytes (mem s) a n) (feed_state n a s).
Proof.
  intros Ha Hc. unfold ppu_feed_data, mbind, M_bind, vm_cast.
  destruct (Z.ltb_spec a (2 ^ 32)); [|lia]. unfold mret, M_ret, get, feed_state.
  rewrite (no_cross_sum n a) by (done || lia). destruct Hc as [Hn Hc].
  destruct use_feed_data; [|done]. destruct (use_full_rdata s); [|done]. cbn [negb andb].
  destruct (Z.eqb_spec (raddr s / 128) (a / 128)) as [He|He].
  - rewrite <- !Hc, He, Z.ltb_irrefl, Z.eqb_refl, orb_true_r. cbn [orb andb].
    rewrite land_127. destruct (negb _); done.
  - rewrite <- !Hc. destruct (Z.ltb_spec (raddr s / 128) (a / 128)); [done|].
    destruct (Z.ltb_spec (a / 128) (raddr s / 128)); [done|lia].
Qed.

(** A load of [n] bytes and the matching store, on every width. *)
Lemma load_be_in_line n a s :
  0 <= a < 2 ^ 32 -> no_cross n a -> load_be n a s = Ok (be_val (read_bytes (mem s) a n)) (feed_state n a s).
Proof. intros Ha Hc. unfold load_be, mbind, M_bind. by rewrite feed_in_line. Qed.
Lemma load_le_in_line n a s :
  0 <= a < 2 ^ 32 -> no_cross n a -> load_le n a s = Ok (le_val (read_bytes (mem s) a n)) (feed_state n a s).
Proof. intros Ha Hc. unfold load_le, mbind, M_bind. by rewrite feed_in_line. Qed.

Lemma store_be_ok n a v s : a < 2 ^ 32 -> store_be n a v s = Ok tt (set_mem (write_bytes (mem s) a (be_bytes n v)) s).
Proof. intros Ha. unfold store_be, mbind, M_bind, vm_cast. by destruct (Z.ltb_spec a (2 ^ 32)); [|lia]. Qed.
Lemma store_le_ok n a v s : a < 2 ^ 32 -> store_le n a v s = Ok tt (set_mem (write_bytes (mem s) a (le_bytes n v)) s).
Proof. intros Ha. unfold store_le, mbind, M_bind, vm_cast. by destruct (Z.ltb_spec a (2 ^ 32)); [|lia]. Qed.

Lemma feed_state_obs n a s :
  gpr (feed_state n a s) = gpr s /\ mem (feed_state n a s) = mem s /\ vr (feed_state n a s) = vr s /\
  fpr (feed_state n a s) = fpr s /\ cia (feed_state n a s) = cia s.
Proof. unfold feed_state. by destruct (_ && _). Qed.

Lemma read_written_be m a n v : be_val (read_bytes (write_bytes m a (be_bytes n v)) a n) = wrap (8 * Z.of_nat n) v.
Proof. rewrite <- (length_be_bytes n v) at 2. by rewrite read_write_same, be_val_bytes. Qed.
Lemma length_le_bytes n v : length (le_bytes n v) = n.
Proof. unfold le_bytes. by rewrite length_rev, length_be_bytes. Qed.
Lemma read_written_le m a n v : le_val (read_bytes (write_bytes m a (le_bytes n v)) a n) = wrap (8 * Z.of_nat n) v.
Proof.
  rewrite <- (length_le_bytes n v) at 2. rewrite read_write_same. unfold le_val, le_bytes.
  by rewrite rev_involutive, be_val_bytes.
Qed.
Lemma read_written_swap m a n v :
  le_val (read_bytes (write_bytes m a (be_bytes n v)) a n) = be_val (le_bytes n v).
Proof. rewrite <- (length_be_bytes n v) at 2. by rewrite read_write_same. Qed.

Lemma gpr_set_at i v s : gpr (set_gpr_at i v s) i = v.
Proof. apply upd_eq. Qed.

Ltac run_mem :=
  unfold leaves, mbind, M_bind, get, put_gpr, modify;
  rewrite ?store_be_ok, ?store_le_ok by lia;
  cbn [gpr set_mem];
  lazymatch goal with H : ?f ?op (set_mem _ _) = _ |- _ => rewrite H | _ => idtac end.

(** C18: a store followed by the load of the same width at the same address returns the stored value (truncated, sign-extended or byte-reversed as the pair says); the load may drop the reservation but never fails inside one line. *)
Theorem store_load_roundtrip op1 op2 s a :
  ea_x op1 s = a -> ea_x op2 s = a -> 0 <= a < 2 ^ 32 -> no_cross 8 a -> gpr_wf s ->
  let v := gpr s (op_rs op1) in
  leaves s (STBX op1 ;; LBZX op2) (op_rd op2) (u8 v) /\
  leaves s (STHX op1 ;; LHZX op2) (op_rd op2) (u16 v) /\
  leaves s (STHX op1 ;; LHAX op2) (op_rd op2) (u64 (s16 v)) /\
  leaves s (STWX op1 ;; LWZX op2) (op_rd op2) (u32 v) /\
  leaves s (STWX op1 ;; LWAX op2) (op_rd op2) (u64 (s32 v)) /\
  leaves s (STDX op1 ;; LDX op2) (op_rd op2) v /\
  leaves s (STHBRX op1 ;; LHBRX op2) (op_rd op2) (u16 v) /\
  leaves s (STWBRX op1 ;; LWBRX op2) (op_rd op2) (u32 v) /\
  leaves s (STDBRX op1 ;; LDBRX op2) (op_rd op2) v /\
  leaves s (STDX op1 ;; LDBRX op2) (op_rd op2) (be_val (le_bytes 8 v)).
Proof.
  intros H1 H2 Ha Hc Hwf v.
  assert (Hc' : forall k, (0 < k <= 8)%nat -> no_cross k a).
  { intros k Hk. destruct Hc as [_ Hc]. split; [lia|]. Z.div_mod_to_equations; lia. }
  assert (Hea : forall m, ea_x op2 (set_mem m s) = a) by done.
  assert (Hv : u64 v = v) by (apply wrap_small, Hwf).
  split_and!; eexists; (split;
    [unfold STBX, STHX, STWX, STDX, STHBRX, STWBRX, STDBRX, mbind, M_bind, get;
     rewrite H1, ?store_be_ok, ?store_le_ok by lia;
     unfold LBZX, LHZX, LHAX, LWZX, LWAX, LDX, LHBRX, LWBRX, LDBRX, mbind, M_bind, get;
     rewrite Hea, ?load_be_in_line, ?load_le_in_line by (done || apply Hc'; lia); reflexivity|];
    rewrite gpr_set_at; cbn [mem set_mem]; fold v;
    rewrite ?read_written_be, ?read_written_le, ?read_written_swap;
    cbn [Z.of_nat Pos.of_succ_nat Pos.succ Z.mul Pos.mul]; rewrite ?sext_wrap, ?wrap_wrap; try done).
Qed.

Lemma align16_no_cross a : 0 <= a < 2 ^ 32 -> 0 <= align16 a < 2 ^ 32 /\ no_cross 16 (align16 a).
Proof.
  intros Ha. rewrite align16_eq by lia. split; [Z.div_mod_to_equations; lia|]. split; [lia|].
  Z.div_mod_to_equations; lia.
Qed.

Lemma LVLX_run op s :
  0 <= ea_x op s < 2 ^ 32 ->
  LVLX op s = Ok tt (set_vr_at (op_vd op)
     (u128 (be_val (read_bytes (mem s) (align16 (ea_x op s)) 16) * 2 ^ (8 * (ea_x op s mod 16))))
     (feed_state 16 (align16 (ea_x op s)) s)).
Proof.
  intros Ha. unfold LVLX, mbind, M_bind, get. destruct (align16_no_cross _ Ha).
  rewrite load_be_in_line, land_15 by done. unfold put_vr, modify.
  rewrite Z.shiftl_mul_pow2, (Z.mul_comm 8) by (Z.div_mod_to_equations; lia). done.
Qed.

Lemma LVRX_run op s :
  0 <= ea_x op s < 2 ^ 32 -> 0 <= cia s < 2 ^ 32 ->
  LVRX op s = Ok tt (set_vr_at (op_vd op)
     (be_val (read_bytes (mem s) (lvrx_line op s) 16) / 2 ^ (8 * (16 - ea_x op s mod 16)))
     (feed_state 16 (lvrx_line op s) s)).
Proof.
  intros Ha Hcia. unfold LVRX, mbind, M_bind, get. rewrite !land_15. fold (lvrx_line op s).
  assert (H : 0 <= lvrx_line op s < 2 ^ 32 /\ no_cross 16 (lvrx_line op s)).
  { unfold lvrx_line. destruct (_ =? 0); by apply align16_no_cross. }
  destruct H. rewrite load_be_in_line by done. unfold put_vr, modify.
  assert (Hm : bnot 64 (ea_x op s) mod 16 = 15 - ea_x op s mod 16) by word_lia.
  rewrite Hm, !Z.shiftr_div_pow2, Z.div_div, <- Z.pow_add_r by
    (apply Z.pow_nonzero || apply Z.pow_pos_nonneg || idtac; Z.div_mod_to_equations; lia).
  do 5 f_equal. lia.
Qed.

(** LVLX at an address and LVRX sixteen bytes above it, merged with or, load the sixteen bytes at the unaligned address. *)
Theorem lvlx_lvrx_unaligned op1 op2 s a :
  mem_wf s -> ea_x op1 s = a -> ea_x op2 s = a + 16 -> 0 <= a -> a + 16 < 2 ^ 32 ->
  0 <= cia s < 2 ^ 32 -> op_vd op1 <> op_vd op2 ->
  exists s', (LVLX op1 ;; LVRX op2) s = Ok tt s' /\
  Z.lor (vr s' (op_vd op1)) (vr s' (op_vd op2)) = be_val (read_bytes (mem s) a 16).
Proof.
  intros Hm H1 H2 Ha Ha' Hcia Hd. unfold mbind, M_bind. rewrite LVLX_run by lia.
  set (s1 := set_vr_at _ _ _).
  destruct (feed_state_obs 16 (align16 (ea_x op1 s)) s) as (Hg & Hmem & _ & _ & Hc).
  assert (E2 : ea_x op2 s1 = a + 16) by (rewrite <- H2; unfold ea_x, s1; cbn [gpr set_vr_at set_vr]; by rewrite Hg).
  assert (Ec : cia s1 = cia s) by done. assert (Em : mem s1 = mem s) by done.
  rewrite LVRX_run by (rewrite ?E2, ?Ec; lia). eexists. split; [done|].
  set (t := a mod 16). assert (Ht : 0 <= t < 16) by (subst t; Z.div_mod_to_equations; lia).
  assert (Ht2 : (a + 16) mod 16 = t) by (subst t; Z.div_mod_to_equations; lia).
  cbn [vr set_vr_at set_vr]. rewrite upd_eq, upd_ne by done.
  destruct (feed_state_obs 16 (lvrx_line op2 s1) s1) as (_ & _ & Hv & _). rewrite Hv.
  unfold s1 at 1. cbn [vr set_vr_at set_vr]. rewrite upd_eq, Em, H1, E2, Ht2. fold t.
  rewrite (align16_eq a) by lia. fold t. assert (Hat : a - t + t = a) by lia. rewrite <- Hat at 2.
  apply unaligned_merge; [apply Hm|done| |].
  - apply (be_val_range (read_bytes (mem s) (lvrx_line op2 s1) 16)). by apply read_bytes_ok.
  - intros Ht0. unfold lvrx_line. rewrite E2, Ht2. destruct (Z.eqb_spec t 0); [done|].
    rewrite align16_eq, Ht2 by lia. do 2 f_equal. lia.
Qed.

(** STVLX at an address and STVRX sixteen bytes above it store exactly the sixteen bytes of the vector at the unaligned address and no other byte. *)
Theorem stvlx_stvrx_unaligned op1 op2 s a :
  ea_x op1 s = a -> ea_x op2 s = a + 16 -> 0 <= a -> a + 16 < 2 ^ 32 -> op_vs op1 = op_vs op2 ->
  exists s', (STVLX op1 ;; STVRX op2) s = Ok tt s' /\
  forall x, mem s' x = write_bytes (mem s) a (be_bytes 16 (vr s (op_vs op1))) x.
Proof.
  intros H1 H2 Ha Ha' Hv.
  assert (Hc : forall b (st : ppu_thread), b < 2 ^ 32 -> vm_cast b st = Ok b st).
  { intros b st Hb. unfold vm_cast. by destruct (Z.ltb_spec b (2 ^ 32)); [|lia]. }
  set (t := a mod 16). assert (Ht : 0 <= t < 16) by (subst t; Z.div_mod_to_equations; lia).
  assert (Ht2 : (a + 16) mod 16 = t) by (subst t; Z.div_mod_to_equations; lia).
  eexists. split.
  - unfold STVLX, STVRX, mbind, M_bind, get, modify. rewrite H1, Hc by lia.
    change (ea_x op2 (set_mem ?m s)) with (ea_x op2 s). rewrite H2, !land_15, Ht2. fold t.
    replace (u64 (a + 16 - 16)) with a by (rewrite Z.add_simpl_r; symmetry; apply wrap_small; unfold is_word; lia).
    rewrite Hc by lia. reflexivity.
  - intros x. cbn [mem set_mem vr]. rewrite !fold_upd_lookup. rewrite <- Hv. unfold write_bytes.
    rewrite length_be_bytes.
    assert (Hb : forall j, 0 <= j < 16 -> v_u8r (vr s (op_vs op1)) j = nth (Z.to_nat j) (be_bytes 16 (vr s (op_vs op1))) 0).
    { intros j Hj. rewrite nth_be_bytes, land_255 by lia. unfold v_u8r, v_u8, wrap. change (2 ^ 8) with 256.
      do 3 f_equal. lia. }
    assert (Hr : (x - a ∈ rev (seqZ (16 - t) t)) <-> 16 - t <= x - a < 16).
    { rewrite list_elem_of_In, <- in_rev, <- list_elem_of_In, elem_of_seqZ. lia. }
    destruct (bool_decide_reflect (x - a ∈ rev (seqZ (16 - t) t))) as [Hx|Hx].
    + rewrite Hr in Hx. rewrite Hb by lia. split_cmp; done.
    + destruct (bool_decide_reflect (x - a ∈ seqZ 0 (16 - t))) as [Hy|Hy]; rewrite elem_of_seqZ in Hy.
      * rewrite Hb by lia. split_cmp; done.
      * rewrite Hr in Hx. split_cmp; done.
Qed.

(** ** String instructions *)

Lemma load_be_plain n a s : plain s -> a < 2 ^ 32 -> load_be n a s = Ok (be_val (read_bytes (mem s) a n)) s.
Proof.
  unfold plain. intros Hp Ha. unfold load_be, ppu_feed_data, mbind, M_bind, vm_cast.
  destruct (Z.ltb_spec a (2 ^ 32)); [|lia]. unfold mret, M_ret, get.
  destruct use_feed_data; [|done]. cbn in Hp. by rewrite Hp.
Qed.

Lemma be_val4 a b c d : be_val [a; b; c; d] = a * 2 ^ 24 + b * 2 ^ 16 + c * 2 ^ 8 + d.
Proof. cbn. lia. Qed.

Lemma lor_byte x k b : 0 <= k -> is_word 8 b -> x mod 2 ^ (k + 8) = 0 -> 0 <= x ->
  Z.lor x (Z.shiftl b k) = x + b * 2 ^ k.
Proof.
  intros Hk Hb Hx Hx0. rewrite Z.shiftl_mul_pow2 by done.
  assert (Hp : 0 < 2 ^ (k + 8)) by (apply Z.pow_pos_nonneg; lia).
  pose proof (Z.div_mod x (2 ^ (k + 8)) ltac:(lia)) as Hd. rewrite Hx in Hd.
  replace x with (x / 2 ^ (k + 8) * 2 ^ (k + 8)) at 1 2 by lia.
  rewrite lor_concat; [lia|lia|]. unfold is_word in *. rewrite Z.pow_add_r in * by lia.
  assert (0 < 2 ^ k) by (apply Z.pow_pos_nonneg; lia). nia.
Qed.

Lemma lswi_tail_spec m a N s :
  plain s -> mem_wf s -> 0 <= a -> 0 < N < 4 -> a + N <= 2 ^ 32 -> m = mem s ->
  lswi_tail (Z.to_nat N) 3 a 0 s = Ok (str_word m a N 0) s.
Proof.
  intros Hp Hm Ha HN HaN ->.
  assert (Hl : forall k, 0 <= k < N -> load_be 1 (a + k) s = Ok (mem s (a + k)) s).
  { intros k Hk. rewrite load_be_plain by (done || lia). unfold read_bytes. cbn [seq map].
    rewrite Z.add_0_r. done. }
  assert (Hu : forall k, 0 <= k <= N -> u64 (a + k) = a + k) by (intros; apply wrap_small; unfold is_word; lia).
  assert (Hs : forall k, 0 <= k < N -> forall i, 0 <= i <= 24 -> u32 (Z.shiftl (mem s (a + k)) i) = Z.shiftl (mem s (a + k)) i).
  { intros k Hk i Hi. apply wrap_small. rewrite Z.shiftl_mul_pow2 by lia. specialize (Hm (a + k)). unfold is_word in *.
    assert (2 ^ i <= 2 ^ 24) by (apply Z.pow_le_mono_r; lia). assert (0 < 2 ^ i) by (apply Z.pow_pos_nonneg; lia). nia. }
  assert (Hstep : forall k i buf n, 0 <= k < N -> 0 <= i <= 3 -> 0 <= buf -> buf mod 2 ^ (i * 8 + 8) = 0 ->
    lswi_tail (S n) i (a + k) buf s = lswi_tail n (i - 1) (a + (k + 1)) (buf + mem s (a + k) * 2 ^ (i * 8)) s).
  { intros k i buf n Hk Hi Hb Hb2. cbn [lswi_tail]. unfold mbind, M_bind. rewrite Hl, Hs by lia.
    rewrite lor_byte by (done || lia || apply Hm). f_equal. rewrite <- Z.add_assoc. apply Hu. lia. }
  unfold str_word, str_byte. cbn [map]. rewrite be_val4.
  pose proof (Hm (a + 0)). pose proof (Hm (a + 1)). unfold is_word in *.
  change (4 * 0 + 0) with 0. change (4 * 0 + 1) with 1. change (4 * 0 + 2) with 2. change (4 * 0 + 3) with 3.
  rewrite <- (Z.add_0_r a) at 1.
  assert (Hcase : N = 1 \/ N = 2 \/ N = 3) by lia. destruct Hcase as [-> | [-> | ->]];
    [change (Z.to_nat 1) with 1%nat|change (Z.to_nat 2) with 2%nat|change (Z.to_nat 3) with 3%nat].
  - rewrite Hstep by (done || lia). cbn [lswi_tail]. unfold mret, M_ret. f_equal. split_cmp.
  - rewrite Hstep by (done || lia). rewrite Z.add_0_l. change (3 - 1) with 2. change (0 + 1) with 1.
    rewrite Hstep by (lia || (pow2_const; Z.div_mod_to_equations; lia)). cbn [lswi_tail]. unfold mret, M_ret. f_equal. split_cmp.
  - rewrite Hstep by (done || lia). rewrite Z.add_0_l. change (3 - 1) with 2. change (0 + 1) with 1.
    rewrite Hstep by (lia || (pow2_const; Z.div_mod_to_equations; lia)). change (1 + 1) with 2. change (2 - 1) with 1.
    rewrite Hstep by (lia || (pow2_const; Z.div_mod_to_equations; lia)). cbn [lswi_tail]. unfold mret, M_ret. f_equal. split_cmp.
Qed.

Lemma str_word_full m a N : 4 <= N -> be_val (read_bytes m a 4) = str_word m a N 0.
Proof.
  intros HN. unfold str_word, str_byte, read_bytes. cbn [map seq]. rewrite Z.mul_0_r, !Z.add_0_l.
  split_cmp. done.
Qed.

Lemma str_word_shift m a N j : str_word m (a + 4) (N - 4) j = str_word m a N (j + 1).
Proof.
  unfold str_word, str_byte. f_equal. apply map_ext. intros i.
  replace (4 * j + i <? N - 4) with (4 * (j + 1) + i <? N) by split_cmp.
  destruct (_ <? _); [|done]. f_equal. lia.
Qed.

Lemma string_loaded_put s reg N a w :
  0 <= reg < 32 -> 0 < N <= 4 -> w = str_word (mem s) a N 0 ->
  string_loaded s (set_gpr_at reg w s) reg N a.
Proof.
  intros Hr HN ->. split_and!; [done|done| |].
  - intros j Hj HjN. assert (j = 0) as -> by lia. rewrite Z.add_0_r, Z.mod_small by lia. apply upd_eq.
  - intros r Hn. cbn. apply upd_ne. intros ->. apply Hn. exists 0. rewrite Z.add_0_r, Z.mod_small by lia. lia.
Qed.

Lemma lswi_loop_spec fuel : forall reg N a s,
  plain s -> mem_wf s -> 0 <= reg < 32 -> 0 < N <= 32 -> N <= 4 * Z.of_nat fuel -> 0 <= a -> a + N <= 2 ^ 32 ->
  exists s', lswi_loop fuel reg N a s = Ok tt s' /\ string_loaded s s' reg N a.
Proof.
  induction fuel as [|fuel IH]; intros reg N a s Hp Hm Hr HN Hf Ha HaN; [lia|].
  cbn [lswi_loop]. destruct (Z.leb_spec N 0); [lia|]. destruct (Z.ltb_spec 3 N).
  - unfold mbind, M_bind. rewrite load_be_plain by (done || lia). unfold put_gpr, modify.
    rewrite (str_word_full _ _ N) by lia.
    replace (u64 (a + 4)) with (a + 4) by (symmetry; apply wrap_small; unfold is_word; lia).
    set (s1 := set_gpr_at _ _ _).
    destruct (Z.eq_dec N 4) as [->|Hne].
    { exists s1. split; [|apply string_loaded_put; (done || lia)].
      destruct fuel; [done|]. cbn [lswi_loop]. done. }
    destruct (IH ((reg + 1) mod 32) (N - 4) (a + 4) s1) as (s' & Hs' & (Hmem & Hu & Hin & Hout));
      [done|done|Z.div_mod_to_equations; lia|lia..|].
    exists s'. split; [done|]. change (mem s1) with (mem s) in *. split_and!; [done|by rewrite Hu| |].
    + intros j Hj HjN. destruct (Z.eq_dec j 0) as [->|Hj0].
      * rewrite Z.add_0_r, Z.mod_small by lia. rewrite Hout; [apply upd_eq|].
        intros (k & Hk0 & Hk & He). Z.div_mod_to_equations. lia.
      * specialize (Hin (j - 1) ltac:(lia) ltac:(lia)). rewrite str_word_shift, Z.sub_add in Hin.
        rewrite <- Hin. f_equal. rewrite Zplus_mod_idemp_l. f_equal. lia.
    + intros r Hn. rewrite Hout.
      * cbn. apply upd_ne. intros ->. apply Hn. exists 0. rewrite Z.add_0_r, Z.mod_small by lia. lia.
      * intros (k & Hk0 & Hk & ->). apply Hn. exists (k + 1). split_and!; [lia|lia|].
        rewrite Zplus_mod_idemp_l. f_equal. lia.
  - unfold mbind, M_bind. rewrite (lswi_tail_spec (mem s)) by (done || lia). unfold put_gpr, modify.
    eexists. split; [destruct fuel; cbn; reflexivity|]. by apply string_loaded_put; [|lia|].
Qed.

(** ** Storing a string *)

Lemma land_ff x : Z.land (u32 x) 255 = Z.land x 255.
Proof. rewrite !land_255. apply Z.mod_mod_divide. by exists (2 ^ 24). Qed.

Lemma byte_of_u32 x i : 0 <= i <= 24 -> Z.land (Z.shiftr (u32 x) i) 255 = Z.land (Z.shiftr x i) 255.
Proof.
  intros Hi. apply Z.bits_inj'. intros k Hk. change 255 with (Z.ones 8). rewrite !Z.land_spec, !Z.shiftr_spec, testbit_wrap by lia.
  destruct (Z.lt_ge_cases k 8).
  - split_cmp. done.
  - by rewrite Z.ones_spec_high, !andb_false_r by lia.
Qed.

Lemma store_word_bytes m b v x :
  write_bytes m b (be_bytes 4 (u32 v)) x =
  if (b <=? x) && (x <? b + 4) then Z.land (Z.shiftr v (8 * (3 - (x - b)))) 255 else m x.
Proof.
  unfold write_bytes. rewrite length_be_bytes. change (Z.of_nat 4) with 4.
  destruct (Z.leb_spec b x); [|done]. destruct (Z.ltb_spec x (b + 4)); [|done]. cbn [andb].
  rewrite nth_be_bytes by lia. rewrite byte_of_u32 by lia. do 2 f_equal. lia.
Qed.

(** The byte loop stores the leading bytes of the word. *)
Lemma stswi_tail_spec n : forall b w s,
  0 <= b -> b + Z.of_nat n <= 2 ^ 32 -> is_word 32 w -> (n <= 4)%nat ->
  exists s', stswi_tail n b w s = Ok tt s' /\ gpr s' = gpr s /\
  forall x, mem s' x = if (b <=? x) && (x <? b + Z.of_nat n) then Z.land (Z.shiftr w (8 * (3 - (x - b)))) 255 else mem s x.
Proof.
  induction n as [|n IH]; intros b w s Hb Hbn Hw Hn.
  - exists s. split_and!; [done|done|]. intros x. split_cmp; done.
  - cbn [stswi_tail]. unfold mbind, M_bind. rewrite store_be_ok by lia.
    replace (u64 (b + 1)) with (b + 1) by (symmetry; apply wrap_small; unfold is_word; lia).
    set (s1 := set_mem _ _).
    destruct (IH (b + 1) (u32 (Z.shiftl w 8)) s1) as (s' & Hs' & Hg & Hm'); [lia|lia|by apply wrap_range|lia|].
    exists s'. split_and!; [done|by rewrite Hg|]. intros x. rewrite Hm'. unfold s1. cbn [mem set_mem].
    assert (Hfirst : Z.land (Z.shiftr (Z.land 0xFF000000 w) 24) 255 = Z.land (Z.shiftr w 24) 255).
    { apply Z.bits_inj'. intros k Hk. rewrite !Z.land_spec, !Z.shiftr_spec, Z.land_spec by lia.
      change 255 with (Z.ones 8). change 0xFF000000 with (Z.shiftl (Z.ones 8) 24).
      rewrite testbit_shiftl, Z.add_simpl_r by lia. destruct (Z.leb_spec 24 (k + 24)); [|lia].
      by destruct (Z.testbit (Z.ones 8) k); rewrite ?andb_false_r. }
    unfold write_bytes. rewrite length_be_bytes. change (Z.of_nat 1) with 1.
    destruct (Z.leb_spec (b + 1) x); destruct (Z.ltb_spec x (b + 1 + Z.of_nat n)); destruct (Z.leb_spec b x);
      destruct (Z.ltb_spec x (b + Z.of_nat (S n))); try lia; cbn [andb]; destruct (Z.ltb_spec x (b + 1)); try lia; try done.
    + rewrite byte_of_u32 by lia. rewrite Z.shiftr_shiftl_r by lia. do 2 f_equal. lia.
    + assert (x = b) as -> by lia. rewrite Z.sub_diag. cbn [Z.to_nat be_bytes app nth].
      rewrite Hfirst. done.
Qed.

Lemma stswi_loop_spec fuel : forall reg N b s,
  0 <= reg < 32 -> 0 < N <= 32 -> N <= 4 * Z.of_nat fuel -> 0 <= b -> b + N <= 2 ^ 32 ->
  exists s', stswi_loop fuel reg N b s = Ok tt s' /\ string_stored s s' reg N b.
Proof.
  induction fuel as [|fuel IH]; intros reg N b s Hr HN Hf Hb HbN; [lia|].
  cbn [stswi_loop]. destruct (Z.leb_spec N 0); [lia|]. unfold mbind, M_bind, get. destruct (Z.ltb_spec 3 N).
  - rewrite store_be_ok by lia.
    replace (u64 (b + 4)) with (b + 4) by (symmetry; apply wrap_small; unfold is_word; lia).
    set (s1 := set_mem _ _).
    assert (Hword : forall k, 0 <= k < 4 -> reg_byte (gpr s) reg k = Z.land (Z.shiftr (gpr s reg) (8 * (3 - k))) 255).
    { intros k Hk. unfold reg_byte. rewrite Z.div_small, Z.add_0_r, (Z.mod_small k), (Z.mod_small reg) by lia. done. }
    destruct (Z.eq_dec N 4) as [->|Hne].
    { exists s1. split; [destruct fuel; done|]. split; [done|]. intros x. unfold s1. cbn [mem set_mem].
      rewrite store_word_bytes. destruct (Z.leb_spec b x); [|done]. destruct (Z.ltb_spec x (b + 4)); [|done].
      by rewrite Hword by lia. }
    destruct (IH ((reg + 1) mod 32) (N - 4) (b + 4) s1) as (s' & Hs' & Hg & Hm');
      [Z.div_mod_to_equations; lia|lia..|].
    exists s'. split; [done|]. split; [by rewrite Hg|]. intros x. rewrite Hm'. unfold s1. cbn [mem gpr set_mem].
    rewrite store_word_bytes.
    assert (Hnext : forall k, 4 <= k -> reg_byte (gpr s) ((reg + 1) mod 32) (k - 4) = reg_byte (gpr s) reg k).
    { intros k Hk. unfold reg_byte. replace ((k - 4) mod 4) with (k mod 4) by (Z.div_mod_to_equations; lia).
      rewrite Zplus_mod_idemp_l. do 4 f_equal. Z.div_mod_to_equations; lia. }
    destruct (Z.leb_spec (b + 4) x); destruct (Z.ltb_spec x (b + 4 + (N - 4))); destruct (Z.leb_spec b x);
      destruct (Z.ltb_spec x (b + N)); destruct (Z.ltb_spec x (b + 4)); try lia; cbn [andb]; try done.
    + rewrite <- Hnext by lia. f_equal. lia.
    + by rewrite Hword by lia.
  - destruct (stswi_tail_spec (Z.to_nat N) b (u32 (gpr s reg)) s) as (s' & Hs' & Hg & Hm');
      [lia|lia|by apply wrap_range|lia|].
    rewrite Hs'. exists s'. split; [destruct fuel; done|]. split; [done|]. intros x. rewrite Hm'.
    rewrite Z2Nat.id by lia. destruct (Z.leb_spec b x); [|done]. destruct (Z.ltb_spec x (b + N)); [|done]. cbn [andb].
    unfold reg_byte. rewrite byte_of_u32 by lia.
    rewrite Z.div_small, Z.add_0_r, (Z.mod_small (x - b)), (Z.mod_small reg) by lia. done.
Qed.

Lemma string_length_range op : 0 < string_length op <= 32.
Proof. unfold string_length. pose proof (ppu_bf_range op 16 5 ltac:(lia)). unfold op_rb. destruct (Z.eqb_spec (ppu_bf op 16 5) 0); lia. Qed.

Lemma op_rd_range op : 0 <= op_rd op < 32.
Proof. by apply ppu_bf_small. Qed.

(** Byte [k] of a loaded string. *)
Lemma str_word_byte m a N k :
  (forall x, is_word 8 (m x)) -> 0 <= k < N ->
  Z.land (Z.shiftr (str_word m a N (k / 4)) (8 * (3 - k mod 4))) 255 = m (a + k).
Proof.
  intros Hm Hk. unfold str_word.
  assert (Hok : bytes_ok (map (fun i => str_byte m a N (4 * (k / 4) + i)) [0; 1; 2; 3])).
  { apply Forall_map, Forall_true. intros i. unfold compose, str_byte. destruct (_ <? _); [apply Hm|done]. }
  assert (Hr : 0 <= k mod 4 < 4) by (Z.div_mod_to_equations; lia).
  pose proof (nth_be_bytes 4 (be_val (map (fun i => str_byte m a N (4 * (k / 4) + i)) [0; 1; 2; 3])) (Z.to_nat (k mod 4)) ltac:(lia)) as Hn.
  pose proof (be_bytes_val _ Hok) as Hbv. rewrite length_map in Hbv. cbn [length] in Hbv. rewrite Hbv in Hn.
  replace (8 * (Z.of_nat 4 - 1 - Z.of_nat (Z.to_nat (k mod 4)))) with (8 * (3 - k mod 4)) in Hn by lia.
  rewrite <- Hn.
  assert (Hk4 : k = 4 * (k / 4) + k mod 4) by (Z.div_mod_to_equations; lia).
  assert (Hc : k mod 4 = 0 \/ k mod 4 = 1 \/ k mod 4 = 2 \/ k mod 4 = 3) by lia.
  destruct Hc as [E | [E | [E | E]]]; rewrite E; cbn [map nth Z.to_nat Pos.to_nat Pos.iter_op Nat.add];
    unfold str_byte; rewrite E in Hk4; rewrite <- Hk4; split_cmp; done.
Qed.

(** LSWI followed by STSWI with the same count copies exactly that many bytes, through the wrapping sequence of registers, and writes nothing else; both loops terminate within their fuel. *)
Theorem lswi_stswi_copies op1 op2 s b :
  let N := string_length op1 in let a := ea_i op1 s in
  plain s -> mem_wf s -> op_rd op2 = op_rd op1 -> op_rb op2 = op_rb op1 ->
  ea_i op2 s = b -> op_ra op2 = 0 \/ ~ string_regs (op_rd op1) N (op_ra op2) ->
  0 <= a -> a + N <= 2 ^ 32 -> 0 <= b -> b + N <= 2 ^ 32 ->
  exists s', (LSWI op1 ;; STSWI op2) s = Ok tt s' /\
  forall x, mem s' x = if (b <=? x) && (x <? b + N) then mem s (a + (x - b)) else mem s x.
Proof.
  intros N a Hp Hm Hrd Hrb Hb2 Hra Ha HaN Hb HbN.
  pose proof (string_length_range op1) as HN. fold N in HN.
  destruct (lswi_loop_spec 9 (op_rd op1) N a s) as (s1 & H1 & (Hmem & _ & Hin & Hout));
    [done|done|apply op_rd_range|lia|lia|done|done|].
  assert (Hb1 : ea_i op2 s1 = b).
  { rewrite <- Hb2. unfold ea_i. destruct (Z.eqb_spec (op_ra op2) 0); [done|].
    destruct Hra as [?|Hra]; [done|]. by apply Hout. }
  assert (HN2 : string_length op2 = N) by (unfold N, string_length; by rewrite Hrb).
  destruct (stswi_loop_spec 9 (op_rd op2) N b s1) as (s2 & H2 & _ & Hst);
    [apply op_rd_range|lia|lia|done|done|].
  exists s2. split.
  - unfold mbind, M_bind, LSWI, STSWI. unfold mbind, M_bind, get. fold N a. rewrite H1, Hb1, HN2. done.
  - intros x. rewrite Hst, Hmem. destruct (Z.leb_spec b x); [|done]. destruct (Z.ltb_spec x (b + N)); [|done]. cbn [andb].
    unfold reg_byte. rewrite Hrd, Hin by (Z.div_mod_to_equations; lia).
    by rewrite str_word_byte by (done || lia).
Qed.

Lemma lmw_loop_spec k : forall i a s,
  plain s -> 0 <= a -> a + 4 * Z.of_nat k <= 2 ^ 32 ->
  exists s', lmw_loop k i a s = Ok tt s' /\ mem s' = mem s /\
  forall r, gpr s' r = if (i <=? r) && (r <? i + Z.of_nat k)
                       then be_val (read_bytes (mem s) (a + 4 * (r - i)) 4) else gpr s r.
Proof.
  induction k as [|k IH]; intros i a s Hp Ha Hk; cbn [lmw_loop].
  - exists s. split_and!; [done|done|]. intros r. split_cmp; done.
  - unfold mbind, M_bind. rewrite load_be_plain by (done || lia). unfold put_gpr, modify.
    replace (u64 (a + 4)) with (a + 4) by (symmetry; apply wrap_small; unfold is_word; lia).
    set (s1 := set_gpr_at _ _ _).
    destruct (IH (i + 1) (a + 4) s1) as (s' & Hs' & Hm & Hg); [done|lia|lia|].
    exists s'. split_and!; [done|done|]. intros r. rewrite Hg. unfold s1. cbn [mem gpr set_gpr_at set_gpr]. unfold upd.
    destruct (Z.leb_spec (i + 1) r); destruct (Z.ltb_spec r (i + 1 + Z.of_nat k)); destruct (Z.leb_spec i r);
      destruct (Z.ltb_spec r (i + Z.of_nat (S k))); destruct (Z.eqb_spec r i); try lia; cbn [andb]; try done;
      do 2 f_equal; lia.
Qed.

Lemma stmw_loop_spec k : forall i a s,
  0 <= a -> a + 4 * Z.of_nat k <= 2 ^ 32 ->
  exists s', stmw_loop k i a s = Ok tt s' /\ gpr s' = gpr s /\ use_full_rdata s' = use_full_rdata s /\
  (forall r, i <= r < i + Z.of_nat k -> read_bytes (mem s') (a + 4 * (r - i)) 4 = be_bytes 4 (u32 (gpr s r))) /\
  (forall x, x < a \/ a + 4 * Z.of_nat k <= x -> mem s' x = mem s x).
Proof.
  induction k as [|k IH]; intros i a s Ha Hk; cbn [stmw_loop].
  - exists s. split_and!; [done|done|done| |done]. intros r Hr. lia.
  - unfold mbind, M_bind, get. rewrite store_be_ok by lia.
    replace (u64 (a + 4)) with (a + 4) by (symmetry; apply wrap_small; unfold is_word; lia).
    set (s1 := set_mem _ _).
    destruct (IH (i + 1) (a + 4) s1) as (s' & Hs' & Hg & Hu & Hin & Hout); [lia|lia|].
    exists s'. split_and!; [done|done|done| |].
    + intros r Hr. destruct (Z.eq_dec r i) as [->|].
      * rewrite Z.sub_diag, Z.mul_0_r, Z.add_0_r.
        transitivity (read_bytes (mem s1) a 4).
        { apply list_nth_eq; rewrite !length_read_bytes; [done|]. intros n Hn. rewrite !nth_read_bytes by done.
          apply Hout. lia. }
        unfold s1. cbn [mem set_mem]. rewrite <- (length_be_bytes 4 (u32 (gpr s i))) at 2. apply read_write_same.
      * specialize (Hin r ltac:(lia)). change (gpr s1) with (gpr s) in Hin. rewrite <- Hin. f_equal. lia.
    + intros x Hx. rewrite Hout by lia. unfold s1. cbn [mem set_mem]. unfold write_bytes.
      rewrite length_be_bytes. split_cmp; done.
Qed.

Lemma op_rs_range op : 0 <= op_rs op < 32.
Proof. by apply ppu_bf_small. Qed.

(** STMW followed by LMW restores the low words of registers rs to 31 and leaves the others alone. *)
Theorem stmw_lmw_roundtrip op1 op2 s a :
  plain s -> gpr_wf s -> op_rd op2 = op_rs op1 -> ea_m op1 s = a -> ea_m op2 s = a ->
  0 <= a -> a + 4 * (32 - op_rs op1) <= 2 ^ 32 ->
  exists s', (STMW op1 ;; LMW op2) s = Ok tt s' /\
  forall r, 0 <= r < 32 -> gpr s' r = if op_rs op1 <=? r then u32 (gpr s r) else gpr s r.
Proof.
  intros Hp Hwf Hr H1 H2 Ha Hend. pose proof (op_rs_range op1) as Hrs.
  destruct (stmw_loop_spec (Z.to_nat (32 - op_rs op1)) (op_rs op1) a s) as (s1 & E1 & Hg & Hu & Hin & _); [lia|lia|].
  destruct (lmw_loop_spec (Z.to_nat (32 - op_rs op1)) (op_rs op1) a s1) as (s2 & E2 & _ & Hg2);
    [unfold plain in *; by rewrite Hu|lia|lia|].
  exists s2. split.
  - unfold mbind, M_bind, STMW, LMW. unfold mbind, M_bind, get. rewrite H1, E1.
    replace (ea_m op2 s1) with a by (rewrite <- H2; unfold ea_m; by rewrite Hg). by rewrite Hr.
  - intros r Hr32. rewrite Hg2. destruct (Z.leb_spec (op_rs op1) r); [|cbn; by rewrite Hg].
    destruct (Z.ltb_spec r (op_rs op1 + Z.of_nat (Z.to_nat (32 - op_rs op1)))); [|lia]. cbn [andb].
    rewrite Hin, be_val_bytes by lia. apply (wrap_wrap 32).
Qed.

Lemma lvsl_lvsr_spec op s i :
  0 <= i < 16 ->
  v_u8r (vr (LVSL op s) (op_vd op)) i = ea_x op s mod 16 + i /\
  v_u8r (vr (LVSR op s) (op_vd op)) i = 16 - ea_x op s mod 16 + i.
Proof.
  intros Hi. unfold LVSL, LVSR. cbn [vr set_vr_at set_vr]. rewrite !upd_eq.
  assert (Hs : 0 <= ea_x op s mod 16 < 16) by (Z.div_mod_to_equations; lia).
  generalize dependent (ea_x op s mod 16). intros sh Hsh.
  assert (H : forallb (fun sh => forallb (fun i =>
    (v_u8r (nth (Z.to_nat sh) s_lvsl_consts 0) i =? sh + i) &&
    (v_u8r (nth (Z.to_nat sh) s_lvsr_consts 0) i =? 16 - sh + i)) (seqZ 0 16)) (seqZ 0 16) = true) by (vm_compute; reflexivity).
  rewrite forallb_forall in H. specialize (H sh). rewrite <- list_elem_of_In, elem_of_seqZ in H. specialize (H ltac:(lia)).
  rewrite forallb_forall in H. specialize (H i). rewrite <- list_elem_of_In, elem_of_seqZ in H. specialize (H ltac:(lia)).
  apply andb_prop in H as [H1 H2]. by split; apply Z.eqb_eq.
Qed.

(** An effective address above 4 GiB throws before anything changes. *)
Lemma high_address_throws n a v s :
  2 ^ 32 <= a ->
  ppu_feed_data n a s = Fail (NarrowingError a) s /\
  store_be n a v s = Fail (NarrowingError a) s /\ store_le n a v s = Fail (NarrowingError a) s.
Proof.
  intros Ha. unfold ppu_feed_data, store_be, store_le, mbind, M_bind, vm_cast.
  destruct (Z.ltb_spec a (2 ^ 32)); [lia|]. done.
Qed.

(** With reservation checking on, a load inside one 128-byte line returns memory and drops the reservation exactly when the line is the reserved one and its bytes differ from the saved copy. *)
Theorem feed_reservation n a s l s' :
  use_feed_data = true -> use_full_rdata s = true -> 0 <= a < 2 ^ 32 -> no_cross n a ->
  ppu_feed_data n a s = Ok l s' ->
  l = read_bytes (mem s) a n /\
  (raddr s' = raddr s /\ res_cached s' = res_cached s \/ raddr s' = 0 /\ res_cached s' = 0) /\
  (raddr s / 128 <> a / 128 -> s' = s) /\
  (raddr s / 128 = a / 128 ->
     (l = read_bytes (rdata s) (a mod 128) n -> s' = s) /\
     (l <> read_bytes (rdata s) (a mod 128) n -> raddr s' = 0 /\ res_cached s' = 0)).
Proof.
  intros Hf Hu Ha Hc. rewrite feed_in_line by done. intros [= <- <-]. unfold feed_state. rewrite Hf, Hu. cbn [andb].
  split; [done|]. unfold bytes_eqb.
  destruct (Z.eqb_spec (raddr s / 128) (a / 128)) as [He|He]; cbn [andb].
  - case_bool_decide; cbn [negb]; split_and!; auto; try done.
  - split_and!; auto; done.
Qed.

End MemProofs.

(** ** Concrete instances *)

Definition cfg0 : PpuConfig := config false false false.
Definition cfg_feed : PpuConfig := config false false true.

(** Memory holding its own addresses, and a copy of line 1 as reservation. *)
Definition ramp (x : Z) : Z := u8 x.
Definition reserved (line : Z) : ppu_thread :=
  MkPpu (fun _ => 0) (fun _ => 0) (fun _ => 0) (fun _ => 0) 0 0 (2 ^ 32 - 1) 0 false false false 0 (128 * line) 1
    (fun i => ramp (128 * line + i)) true 0 0 (CallHistory [] 0 0 0) ramp (fun _ => 0).

(** In the crossing case [ppu_feed_data] sizes the comparison with
    [% 127]: a load that ends in the reserved line loses a reservation whose
    bytes are unchanged, or compares past the end of its buffer. *)
Theorem feed_crossing_false_loss :
  (forall i, 0 <= i < 128 -> mem (reserved 1) (128 + i) = rdata (reserved 1) i) /\
  (exists l s', ppu_feed_data (Cfg := cfg_feed) 4 126 (reserved 1) = Ok l s' /\ raddr s' = 0) /\
  (exists off, ppu_feed_data (Cfg := cfg_feed) 4 382 (reserved 3) = Fail (BufferOverread off) (reserved 3)).
Proof.
  split; [done|]. split.
  - eexists _, _. split; [vm_compute; reflexivity|reflexivity].
  - eexists. vm_compute. reflexivity.
Qed.

(** X-form word with rd/rs = 5, ra = 3, rb = 4. *)
Definition xw (rd ra rb : Z) : Z := Z.lor (Z.shiftl rd 21) (Z.lor (Z.shiftl ra 16) (Z.shiftl rb 11)).
Definition base (a v : Z) : ppu_thread := with_gpr [(3, a); (5, v)] blank_thread.
Lemma base_wf a v : is_word 64 a -> is_word 64 v -> gpr_wf (base a v).
Proof.
  intros Ha Hb. apply with_gpr_wf; [apply blank_gpr_wf|]. cbn [forallb snd]. unfold is_word in *.
  rewrite !andb_true_iff, !Z.leb_le, !Z.ltb_lt. lia.
Qed.

Lemma store_load_roundtrip_witness :
  leaves (base 0x1000 0x1122334455667788)
    (STDX (xw 5 3 0) ;; LDX (Cfg := cfg_feed) (xw 6 3 0)) 6 0x1122334455667788.
Proof.
  apply (store_load_roundtrip (Cfg := cfg_feed) (xw 5 3 0) (xw 6 3 0) (base 0x1000 0x1122334455667788) 0x1000);
    [done|done|lia|split; [lia|done]|apply base_wf; split; done].
Defined.

Lemma lvlx_lvrx_unaligned_witness :
  exists s', (LVLX (Cfg := cfg_feed) (xw 1 3 0) ;; LVRX (Cfg := cfg_feed) (xw 2 4 0)) (with_gpr [(3, 0x1003); (4, 0x1013)] (reserved 1)) = Ok tt s' /\
  Z.lor (vr s' 1) (vr s' 2) = be_val (read_bytes ramp 0x1003 16).
Proof.
  apply (lvlx_lvrx_unaligned (Cfg := cfg_feed) (xw 1 3 0) (xw 2 4 0) (with_gpr [(3, 0x1003); (4, 0x1013)] (reserved 1)) 0x1003);
    try done.
  intros a. by apply (wrap_range 8).
Defined.

Lemma stvlx_stvrx_unaligned_witness :
  exists s', (STVLX (xw 1 3 0) ;; STVRX (xw 1 4 0)) (with_gpr [(3, 0x1003); (4, 0x1013)] blank_thread) = Ok tt s' /\
  forall x, mem s' x = write_bytes (fun _ => 0) 0x1003 (be_bytes 16 0) x.
Proof.
  apply (stvlx_stvrx_unaligned (xw 1 3 0) (xw 1 4 0) (with_gpr [(3, 0x1003); (4, 0x1013)] blank_thread) 0x1003); done.
Defined.

(** 23 bytes from 0x1001 to 0x2002 through registers 28 to 1. *)
Lemma lswi_stswi_copies_witness :
  exists s', (LSWI (Cfg := cfg0) (xw 28 3 23) ;; STSWI (xw 28 4 23)) (with_gpr [(3, 0x1001); (4, 0x2002)] (reserved 1)) = Ok tt s' /\
  forall x, mem s' x = if (0x2002 <=? x) && (x <? 0x2002 + 23) then ramp (0x1001 + (x - 0x2002)) else ramp x.
Proof.
  apply (lswi_stswi_copies (Cfg := cfg0) (xw 28 3 23) (xw 28 4 23) (with_gpr [(3, 0x1001); (4, 0x2002)] (reserved 1)) 0x2002);
    try done.
  - intros a. by apply (wrap_range 8).
  - right. intros (j & H0 & H1 & H2). change (4 = (28 + j) mod 32) in H2. change (4 * j < 23) in H1.
    Z.div_mod_to_equations; lia.
Defined.

Lemma stmw_lmw_roundtrip_witness :
  exists s', (STMW (Z.lor (xw 30 3 0) 8) ;; LMW (Cfg := cfg0) (Z.lor (xw 30 3 0) 8)) (with_gpr [(3, 0x1001); (31, 0x123456789)] blank_thread) = Ok tt s' /\
  forall r, 0 <= r < 32 -> gpr s' r = if 30 <=? r then u32 (gpr (with_gpr [(3, 0x1001); (31, 0x123456789)] blank_thread) r)
                                     else gpr (with_gpr [(3, 0x1001); (31, 0x123456789)] blank_thread) r.
Proof.
  apply (stmw_lmw_roundtrip (Cfg := cfg0) (Z.lor (xw 30 3 0) 8) (Z.lor (xw 30 3 0) 8)
           (with_gpr [(3, 0x1001); (31, 0x123456789)] blank_thread) 0x1009); try done.
  apply with_gpr_wf; [apply blank_gpr_wf|done].
Defined.

Lemma feed_reservation_witness :
  exists l s', ppu_feed_data (Cfg := cfg_feed) 4 130 (reserved 1) = Ok l s' /\ l = read_bytes ramp 130 4.
Proof.
  eexists _, _. split; [reflexivity|].
  apply (feed_reservation (Cfg := cfg_feed) 4 130 (reserved 1) _ (reserved 1)); [done|done|lia|split; [lia|done]|].
  vm_compute. reflexivity.
Defined.
