(* ===== verification/PpuDecodeProofs.v ===== *)
(** * Instruction decoder: correctness

    The lookup table that [fill_table] builds agrees with a reference decoder
    stated on the instruction's fields, every write stays inside the table and
    no two entries claim the same instruction word. *)
From S2P Require Import Prelude PpuState PpuDecode.
From Stdlib Require Import String.
#[local] Open Scope Z_scope.

(** Reference decoder on the fields of the instruction word: the entry's value
    is the extended opcode field that ends [sh] bits above the least significant
    one, less the [magn] leading bits that belong to an operand. *)
Definition entry_selects (g : group_info) (e : instruction_info) (inst : Z) : bool :=
  if u32 (g_sh g) <? 11 then
    let n := g_count g - magn e in
    (op_main inst =? g_main g) && (ppu_bf inst (32 - g_sh g - n) n =? value e)
  else op_main inst =? value e.

Definition entry_pointer (e : instruction_info) (inst : Z) : string :=
  if op_rc inst then ptr_rc e else ptr0 e.

Definition table_entries : list (group_info * instruction_info) :=
  g ← ppu_groups; e ← g_entries g; [(g, e)].

Definition select (inst : Z) (acc : string) (ge : group_info * instruction_info) : string :=
  if entry_selects ge.1 ge.2 inst then entry_pointer ge.2 inst else acc.

Definition decode_ref (inst : Z) : string := fold_left (select inst) table_entries "UNK"%string.

Definition group_wf (g : group_info) (e : instruction_info) : bool :=
  if u32 (g_sh g) <? 11 then
    (0 <=? g_sh g) && (g_sh g <? 11) && (0 <=? magn e) && (magn e <=? g_count g) && (g_sh g + g_count g <=? 11) &&
    (0 <=? value e) && (value e <? 2 ^ (g_count g - magn e)) && (0 <=? g_main g) && (g_main g <? 64)
  else (0 <=? value e) && (value e <? 64).

Definition index_selects (g : group_info) (e : instruction_info) (x : Z) : bool :=
  if u32 (g_sh g) <? 11 then
    (x mod 64 =? g_main g) && ((x / 64 / 2 ^ g_sh g) mod 2 ^ (g_count g - magn e) =? value e)
  else x mod 64 =? value e.

(** The opcode bits an entry fixes, as a mask and a pattern. *)
Definition entry_bits (ge : group_info * instruction_info) : Z * Z :=
  let '(g, e) := ge in
  if u32 (g_sh g) <? 11 then
    (Z.lor (Z.shiftl 63 26) (Z.shiftl (Z.ones (g_count g - magn e)) (g_sh g)),
     Z.lor (Z.shiftl (g_main g) 26) (Z.shiftl (value e) (g_sh g)))
  else (Z.shiftl 63 26, Z.shiftl (value e) 26).

Fixpoint pairwise_distinct (l : list (Z * Z)) : bool :=
  match l with
  | [] => true
  | (ma, pa) :: l =>
    forallb (fun '(mb, pb) => negb (Z.land (Z.lxor pa pb) (Z.land ma mb) =? 0)) l && pairwise_distinct l
  end.

(** ** The table index *)

Lemma ppu_bf_eq op i n : 0 <= n -> i + n <= 32 -> ppu_bf op i n = op / 2 ^ (32 - n - i) mod 2 ^ n.
Proof. intros. unfold ppu_bf. rewrite land_pow2m1, Z.shiftr_div_pow2 by lia. done. Qed.

Lemma ppu_decode_eq inst : is_word 32 inst -> ppu_decode inst = (inst mod 2 ^ 11) * 2 ^ 6 + inst / 2 ^ 26.
Proof.
  intros Hw. assert (Hq : is_word 6 (inst / 2 ^ 26)) by (unfold is_word in *; Z.div_mod_to_equations; lia).
  rewrite <- lor_concat, <- Z.shiftl_mul_pow2, <- Z.shiftr_div_pow2 by (done || lia).
  apply Z.bits_inj'. intros i Hi. unfold ppu_decode. change 0x1ffff with (Z.ones 17).
  rewrite Z.land_spec, !Z.lor_spec, !Z.shiftr_spec, testbit_wrap, !testbit_shiftl by lia.
  destruct (Z.lt_ge_cases i 17).
  - rewrite Z.ones_spec_low, andb_true_r, orb_comm by lia. f_equal.
    destruct (Z.leb_spec 6 i); [|by rewrite andb_false_r]. rewrite Z.testbit_mod_pow2 by lia. split_cmp. done.
  - rewrite Z.ones_spec_high, andb_false_r, (testbit_above 32 inst) by (done || lia).
    rewrite Z.testbit_mod_pow2 by lia. split_cmp.
Qed.

(** ** One entry *)

Lemma apply_writes_spec ws t x p :
  (forall w, w ∈ ws -> w.1 = x -> w.2 = p) ->
  apply_writes ws t x = if bool_decide (x ∈ ws.*1) then p else t x.
Proof.
  revert t. induction ws as [|w ws IH] using rev_ind; intros t Hp; [done|].
  unfold apply_writes in *. rewrite fold_left_app. cbn [fold_left]. unfold upd.
  rewrite fmap_app. cbn [fmap list_fmap]. destruct (Z.eqb_spec x w.1) as [->|Hne].
  - rewrite bool_decide_true by set_solver. apply Hp; [set_solver|done].
  - rewrite IH by (intros; apply Hp; set_solver).
    destruct (bool_decide_reflect (x ∈ ws.*1)).
    + rewrite bool_decide_true; [done|]. apply elem_of_app. by left.
    + rewrite bool_decide_false; [done|]. rewrite elem_of_app, list_elem_of_singleton. intros [?|?]; done.
Qed.

(** The index written for one pair of loop counters. *)
Lemma entry_key i j v n sh main :
  0 <= n -> 0 <= sh -> is_word n v -> is_word sh j -> 0 <= main < 64 ->
  Z.lor (Z.shiftl (Z.lor (Z.shiftl (Z.lor (Z.shiftl i n) v) sh) j) 6) main =
  ((i * 2 ^ n + v) * 2 ^ sh + j) * 64 + main.
Proof.
  intros Hn Hsh Hv Hj Hm. rewrite !Z.shiftl_mul_pow2 by lia.
  rewrite (lor_concat i n v), (lor_concat _ sh j), (lor_concat _ 6 main) by done. done.
Qed.

Lemma index_split N S i v j m :
  0 < N -> 0 < S -> 0 <= v < N -> 0 <= j < S -> 0 <= m < 64 ->
  let x := ((i * N + v) * S + j) * 64 + m in
  x mod 64 = m /\ x / 64 mod S = j /\ x / 64 / S mod N = v /\ x / 64 / S / N = i.
Proof.
  intros HN HS Hv Hj Hm x. subst x.
  rewrite (Z.add_comm (_ * 64)), Z.mod_add, Z.div_add, (Z.mod_small m), (Z.div_small m), Z.add_0_l by lia.
  rewrite (Z.add_comm (_ * S)), Z.mod_add, Z.div_add, (Z.mod_small j), (Z.div_small j), Z.add_0_l by lia.
  rewrite (Z.add_comm (i * N)), Z.mod_add, Z.div_add, (Z.mod_small v), (Z.div_small v), Z.add_0_l by lia.
  done.
Qed.

Lemma index_join N S x : 0 < N -> 0 < S ->
  x = ((x / 64 / S / N * N + x / 64 / S mod N) * S + x / 64 mod S) * 64 + x mod 64.
Proof.
  intros HN HS. rewrite (Z.mul_comm _ N), <- Z.div_mod by lia.
  rewrite (Z.mul_comm _ S), <- Z.div_mod by lia. rewrite (Z.mul_comm _ 64). apply Z.div_mod. lia.
Qed.

Lemma group_wf_facts g e :
  group_wf g e = true -> (u32 (g_sh g) <? 11) = true ->
  0 <= g_sh g < 11 /\ 0 <= magn e <= g_count g /\ g_sh g + g_count g <= 11 /\
  0 <= value e < 2 ^ (g_count g - magn e) /\ 0 <= g_main g < 64.
Proof.
  unfold group_wf. intros Hwf Hs. rewrite Hs in Hwf. rewrite !andb_true_iff, !Z.leb_le, !Z.ltb_lt in Hwf. lia.
Qed.

Lemma entry_writes_elem g e w :
  group_wf g e = true ->
  w ∈ entry_writes (g_main g) (g_count g) (g_sh g) e <->
  0 <= w.1 < 2 ^ 17 /\ index_selects g e w.1 = true /\ w.2 = pick (w.1 / 64) e.
Proof.
  intros Hwf. unfold index_selects, entry_writes. destruct (u32 (g_sh g) <? 11) eqn:Hsh.
  - destruct (group_wf_facts g e Hwf Hsh) as (H1 & H2 & H3 & H4 & H5).
    set (n := g_count g - magn e) in *. set (sh := g_sh g) in *.
    assert (HN : 0 < 2 ^ n) by (apply Z.pow_pos_nonneg; lia). assert (HS : 0 < 2 ^ sh) by (apply Z.pow_pos_nonneg; lia).
    assert (HI : 2 ^ (magn e + (11 - sh - g_count g)) * 2 ^ n * 2 ^ sh = 2 ^ 11).
    { rewrite <- !Z.pow_add_r by lia. f_equal. lia. }
    assert (Hn : 0 <= n) by lia. clearbody sh n.
    assert (Hk : forall i j, Z.lor (Z.shiftl (Z.lor (Z.shiftl i n) (value e)) sh) j = (i * 2 ^ n + value e) * 2 ^ sh + j \/ ~ (0 <= j < 2 ^ sh)).
    { intros i j. destruct (decide (0 <= j < 2 ^ sh)); [left|by right]. rewrite !Z.shiftl_mul_pow2 by lia.
      rewrite (lor_concat i n), (lor_concat _ sh j) by (done || lia). done. }
    rewrite list_elem_of_bind. setoid_rewrite list_elem_of_bind. setoid_rewrite list_elem_of_singleton.
    setoid_rewrite elem_of_seqZ. rewrite andb_true_iff, !Z.eqb_eq. split.
    + intros (i & (j & -> & Hj) & Hi). cbn [fst snd]. rewrite Z.add_0_l in Hi, Hj. destruct (Hk i j) as [->|]; [|done].
      rewrite Z.shiftl_mul_pow2, (lor_concat _ 6) by (done || lia). change (2 ^ 6) with 64.
      destruct (index_split (2 ^ n) (2 ^ sh) i (value e) j (g_main g)) as (E1 & E2 & E3 & E4); try done; try lia.
      rewrite E1, E3.
      assert (Ha : i * 2 ^ n + value e <= 2 ^ (magn e + (11 - sh - g_count g)) * 2 ^ n - 1) by nia.
      assert (Hb : (i * 2 ^ n + value e) * 2 ^ sh + j <= 2 ^ 11 - 1) by nia.
      split_and!; [nia|lia|done|done|].
      f_equal. rewrite (Z.add_comm (_ * 64)), Z.div_add, Z.div_small by lia. lia.
    + destruct w as [x p]. cbn [fst snd]. intros (Hx & (Hm & Hv) & ->).
      assert (Hxj := index_join (2 ^ n) (2 ^ sh) x HN HS). rewrite Hv, Hm in Hxj.
      exists (x / 64 / 2 ^ sh / 2 ^ n). split; [exists (x / 64 mod 2 ^ sh); split|].
      * destruct (Hk (x / 64 / 2 ^ sh / 2 ^ n) (x / 64 mod 2 ^ sh)) as [->|Hc]; [|destruct Hc; by apply Z.mod_pos_bound].
        rewrite Z.shiftl_mul_pow2, (lor_concat _ 6) by (done || lia). change (2 ^ 6) with 64.
        rewrite <- Hxj. f_equal. f_equal. rewrite Hxj at 1.
        rewrite (Z.add_comm (_ * 64)), Z.div_add, Z.div_small by lia. lia.
      * pose proof (Z.mod_pos_bound (x / 64) (2 ^ sh) HS). lia.
      * rewrite !Z.div_div by lia. split; [apply Z.div_pos; nia|]. apply Z.div_lt_upper_bound; [nia|]. nia.
  - unfold group_wf in Hwf. rewrite Hsh, andb_true_iff, Z.leb_le, Z.ltb_lt in Hwf.
    rewrite list_elem_of_bind. setoid_rewrite list_elem_of_singleton. setoid_rewrite elem_of_seqZ. rewrite Z.eqb_eq.
    assert (Hk : forall i, Z.lor (Z.shiftl i 6) (value e) = i * 64 + value e).
    { intros i. rewrite Z.shiftl_mul_pow2, (lor_concat _ 6) by (done || lia). done. }
    split.
    + intros (i & -> & Hi). cbn [fst snd]. rewrite Hk. split_and!; [lia|lia|Z.div_mod_to_equations; lia|].
      f_equal. Z.div_mod_to_equations; lia.
    + destruct w as [x p]. cbn [fst snd]. intros (Hx & Hm & ->). exists (x / 64). rewrite Hk. split.
      * f_equal. Z.div_mod_to_equations; lia.
      * Z.div_mod_to_equations; lia.
Qed.

Lemma apply_entry g e t x :
  group_wf g e = true -> 0 <= x < 2 ^ 17 ->
  apply_writes (entry_writes (g_main g) (g_count g) (g_sh g) e) t x =
  if index_selects g e x then pick (x / 64) e else t x.
Proof.
  intros Hwf Hx. rewrite (apply_writes_spec _ t x (pick (x / 64) e)).
  - destruct (index_selects g e x) eqn:Hs.
    + rewrite bool_decide_true; [done|]. apply list_elem_of_fmap. exists (x, pick (x / 64) e).
      split; [done|]. by apply entry_writes_elem.
    + rewrite bool_decide_false; [done|]. intros Hin. apply list_elem_of_fmap in Hin as (w & -> & Hw).
      apply entry_writes_elem in Hw as (_ & Hs' & _); [|done]. congruence.
  - intros w Hw <-. by apply entry_writes_elem in Hw as (_ & _ & ?).
Qed.

Lemma fill_table_lookup g t x :
  forallb (group_wf g) (g_entries g) = true -> 0 <= x < 2 ^ 17 ->
  fill_table (g_main g) (g_count g) (g_sh g) (g_entries g) t x =
  fold_left (fun acc e => if index_selects g e x then pick (x / 64) e else acc) (g_entries g) (t x).
Proof.
  intros Hwf Hx. unfold fill_table. revert t. induction (g_entries g) as [|e l IH]; intros t; [done|].
  cbn [forallb] in Hwf. apply andb_prop in Hwf as [He Hl]. cbn [fold_left].
  rewrite IH by done. by rewrite apply_entry.
Qed.

Lemma groups_wf : forallb (fun g => forallb (group_wf g) (g_entries g)) ppu_groups = true.
Proof. vm_compute. reflexivity. Qed.

Lemma groups_lookup gs t x :
  forallb (fun g => forallb (group_wf g) (g_entries g)) gs = true -> 0 <= x < 2 ^ 17 ->
  fold_left (fun t g => fill_table (g_main g) (g_count g) (g_sh g) (g_entries g) t) gs t x =
  fold_left (fun acc (ge : group_info * instruction_info) =>
      if index_selects ge.1 ge.2 x then pick (x / 64) ge.2 else acc)
    (g ← gs; e ← g_entries g; [(g, e)]) (t x).
Proof.
  intros Hwf Hx. revert t. induction gs as [|g gs IH]; intros t; [done|].
  cbn [forallb] in Hwf. apply andb_prop in Hwf as [Hg Hgs]. cbn [fold_left]. rewrite IH by done.
  rewrite fill_table_lookup by done. rewrite bind_cons, fold_left_app. f_equal.
  clear Hg. generalize (t x). induction (g_entries g) as [|e l IHl]; intros acc; [done|].
  rewrite bind_cons. cbn [fold_left app fst snd]. apply IHl.
Qed.

Lemma ppu_decode_parts inst :
  is_word 32 inst ->
  0 <= ppu_decode inst < 2 ^ 17 /\ ppu_decode inst mod 64 = op_main inst /\ ppu_decode inst / 64 = inst mod 2 ^ 11.
Proof.
  intros Hw. rewrite ppu_decode_eq by done. unfold op_main. rewrite ppu_bf_eq by lia.
  unfold is_word in Hw. change (32 - 6 - 0) with 26. change (2 ^ 6) with 64.
  split_and!; Z.div_mod_to_equations; lia.
Qed.

Lemma mod_div_mod x n s m : 0 <= n -> 0 <= s -> s + n <= m -> x mod 2 ^ m / 2 ^ s mod 2 ^ n = x / 2 ^ s mod 2 ^ n.
Proof.
  intros Hn Hs Hm. apply Z.bits_inj'. intros i Hi.
  rewrite <- !Z.shiftr_div_pow2, !Z.testbit_mod_pow2, !Z.shiftr_spec, Z.testbit_mod_pow2 by lia.
  destruct (Z.ltb_spec i n); [|done]. split_cmp. done.
Qed.

Lemma index_selects_fields g e inst :
  group_wf g e = true -> is_word 32 inst -> index_selects g e (ppu_decode inst) = entry_selects g e inst.
Proof.
  intros Hwf Hw. destruct (ppu_decode_parts inst Hw) as (_ & Hm & Hd).
  unfold index_selects, entry_selects. rewrite Hm. destruct (u32 (g_sh g) <? 11) eqn:Hs; [|done].
  destruct (group_wf_facts g e Hwf Hs) as (H1 & H2 & H3 & _). rewrite Hd.
  rewrite mod_div_mod by lia. cbv zeta. rewrite ppu_bf_eq by lia. do 5 f_equal. lia.
Qed.

Lemma pick_pointer e inst : is_word 32 inst -> pick (ppu_decode inst / 64) e = entry_pointer e inst.
Proof.
  intros Hw. destruct (ppu_decode_parts inst Hw) as (_ & _ & ->). unfold pick, entry_pointer, op_rc.
  rewrite ppu_bf_eq by lia. replace (Z.land (inst mod 2 ^ 11) 1) with (inst / 2 ^ (32 - 1 - 31) mod 2 ^ 1); [by destruct (_ =? 0)|].
  change (32 - 1 - 31) with 0. rewrite Z.pow_0_r, Z.div_1_r. change 1 with (Z.ones 1) at 2. rewrite Z.land_ones by lia.
  change (2 ^ 1) with 2. Z.div_mod_to_equations; lia.
Qed.

Lemma fold_left_ext {A B} (f g : A -> B -> A) l a :
  (forall a b, b ∈ l -> f a b = g a b) -> fold_left f l a = fold_left g l a.
Proof.
  revert a. induction l as [|b l IH]; intros a H; [done|]. cbn [fold_left].
  rewrite H by constructor. apply IH. intros. apply H. by constructor.
Qed.

Lemma table_entries_wf ge : ge ∈ table_entries -> group_wf ge.1 ge.2 = true.
Proof.
  intros H. unfold table_entries in H. apply list_elem_of_bind in H as (g & H & Hg).
  apply list_elem_of_bind in H as (e & H & He). apply list_elem_of_singleton in H. subst ge.
  pose proof groups_wf as Hwf. rewrite forallb_forall in Hwf. apply list_elem_of_In in Hg, He.
  specialize (Hwf g Hg). cbv beta in Hwf. rewrite forallb_forall in Hwf. by apply Hwf.
Qed.

Lemma decode_correct inst : is_word 32 inst -> decode inst = decode_ref inst.
Proof.
  intros Hw. unfold decode, m_table, decode_ref. destruct (ppu_decode_parts inst Hw) as (Hr & _).
  rewrite groups_lookup by (apply groups_wf || done). apply fold_left_ext. intros acc ge Hge.
  unfold select. by rewrite index_selects_fields, pick_pointer by (done || by apply table_entries_wf).
Qed.

(** The indices written stay inside [m_table]. *)
Lemma fill_table_in_bounds g e w :
  g ∈ ppu_groups -> e ∈ g_entries g ->
  w ∈ entry_writes (g_main g) (g_count g) (g_sh g) e -> 0 <= w.1 < 0x20000.
Proof.
  intros Hg He Hw. apply entry_writes_elem in Hw as [H _]; [done|].
  apply (table_entries_wf (g, e)). unfold table_entries. apply list_elem_of_bind. exists g. split; [|done].
  apply list_elem_of_bind. exists e. split; [|done]. by apply list_elem_of_singleton.
Qed.

(** ** No two entries claim the same instruction word *)

Lemma encodings_distinct : pairwise_distinct (map entry_bits table_entries) = true.
Proof. vm_compute. reflexivity. Qed.

Lemma pairwise_lookup l i j a b :
  pairwise_distinct l = true -> l !! i = Some a -> l !! j = Some b ->
  Z.land (Z.lxor a.2 b.2) (Z.land a.1 b.1) = 0 -> i = j.
Proof.
  revert i j. induction l as [|[m p] l IH]; intros i j Hd Hi Hj Hz; [done|].
  cbn [pairwise_distinct] in Hd. apply andb_prop in Hd as [Hh Hd].
  assert (Hcmp : forall k c, l !! k = Some c -> Z.land (Z.lxor p c.2) (Z.land m c.1) <> 0).
  { intros k [mc pc] Hk. rewrite forallb_forall in Hh.
    specialize (Hh (mc, pc) (proj1 (list_elem_of_In _ _) (list_elem_of_lookup_2 _ _ _ Hk))).
    cbn in Hh. by apply negb_true_iff, Z.eqb_neq in Hh. }
  destruct i as [|i], j as [|j]; cbn in Hi, Hj; simplify_eq; [done| | |f_equal; by eapply IH].
  - by destruct (Hcmp j b Hj).
  - destruct (Hcmp i a Hi). by rewrite Z.lxor_comm, (Z.land_comm m).
Qed.

Lemma entry_selects_bits ge inst :
  group_wf ge.1 ge.2 = true -> entry_selects ge.1 ge.2 inst = true ->
  Z.land inst (entry_bits ge).1 = (entry_bits ge).2.
Proof.
  destruct ge as [g e]. cbn [fst snd]. intros Hwf Hs. unfold entry_selects, entry_bits in *.
  assert (Hf : forall i n, 0 <= n -> 0 <= 32 - n - i -> Z.land inst (Z.shiftl (Z.ones n) (32 - n - i)) = Z.shiftl (ppu_bf inst i n) (32 - n - i)).
  { intros i n Hn Hi. unfold ppu_bf. replace (2 ^ n - 1) with (Z.ones n) by (rewrite Z.ones_equiv; lia).
    apply Z.bits_inj'. intros k Hk. rewrite Z.land_spec, !testbit_shiftl, Z.land_spec by lia.
    destruct (Z.leb_spec (32 - n - i) k); [|apply andb_false_r]. cbn [andb].
    rewrite Z.shiftr_spec by lia. do 2 f_equal. lia. }
  pose proof (Hf 0 6 ltac:(lia) ltac:(lia)) as Hm. change (32 - 6 - 0) with 26 in Hm. change (Z.ones 6) with 63 in Hm.
  fold (op_main inst) in Hm.
  destruct (u32 (g_sh g) <? 11) eqn:Hsh; cbn [fst snd].
  - destruct (group_wf_facts g e Hwf Hsh) as (H1 & H2 & H3 & _).
    apply andb_prop in Hs as [Hs1 Hs2]. apply Z.eqb_eq in Hs1, Hs2.
    rewrite Z.land_lor_distr_r, Hm, Hs1. f_equal.
    set (n := g_count g - magn e) in *.
    specialize (Hf (32 - g_sh g - n) n ltac:(lia) ltac:(lia)).
    replace (32 - n - (32 - g_sh g - n)) with (g_sh g) in Hf by lia. by rewrite Hf, Hs2.
  - apply Z.eqb_eq in Hs. by rewrite Hm, Hs.
Qed.

Lemma same_bits_compatible inst ma pa mb pb :
  Z.land inst ma = pa -> Z.land inst mb = pb -> Z.land (Z.lxor pa pb) (Z.land ma mb) = 0.
Proof.
  intros <- <-. apply Z.bits_inj'. intros i Hi. rewrite !Z.land_spec, Z.lxor_spec, !Z.land_spec, Z.bits_0.
  by destruct (Z.testbit inst i), (Z.testbit ma i), (Z.testbit mb i).
Qed.

Lemma selection_unique inst i j a b :
  table_entries !! i = Some a -> table_entries !! j = Some b ->
  entry_selects a.1 a.2 inst = true -> entry_selects b.1 b.2 inst = true -> i = j.
Proof.
  intros Hi Hj Ha Hb.
  apply entry_selects_bits in Ha; [|apply table_entries_wf; by eapply list_elem_of_lookup_2].
  apply entry_selects_bits in Hb; [|apply table_entries_wf; by eapply list_elem_of_lookup_2].
  apply (pairwise_lookup _ i j (entry_bits a) (entry_bits b) encodings_distinct).
  - change (map entry_bits table_entries) with (entry_bits <$> table_entries). by rewrite list_lookup_fmap, Hi.
  - change (map entry_bits table_entries) with (entry_bits <$> table_entries). by rewrite list_lookup_fmap, Hj.
  - by eapply same_bits_compatible.
Qed.

(** The entry that matches the word gives the decoded pointer. *)
Lemma select_fold inst l acc :
  fold_left (select inst) l acc = acc /\ (forall ge, ge ∈ l -> entry_selects ge.1 ge.2 inst = false) \/
  exists ge, ge ∈ l /\ entry_selects ge.1 ge.2 inst = true /\ fold_left (select inst) l acc = entry_pointer ge.2 inst.
Proof.
  revert acc. induction l as [|ge l IH]; intros acc.
  - left. split; [done|]. intros ge Hge. by apply not_elem_of_nil in Hge.
  - cbn [fold_left]. destruct (IH (select inst acc ge)) as [[He Hn]|(ge' & H1 & H2 & H3)].
    + rewrite He. unfold select. destruct (entry_selects ge.1 ge.2 inst) eqn:Hs.
      * right. exists ge. split; [constructor|done].
      * left. split; [done|]. intros ge' Hge'. apply elem_of_cons in Hge' as [->|]; auto.
    + right. exists ge'. split; [by constructor|done].
Qed.

Lemma decode_entry inst ge :
  is_word 32 inst -> ge ∈ table_entries -> entry_selects ge.1 ge.2 inst = true ->
  decode inst = entry_pointer ge.2 inst.
Proof.
  intros Hw Hin Hs. rewrite decode_correct by done. unfold decode_ref.
  destruct (select_fold inst table_entries "UNK"%string) as [[_ Hn]|(ge' & H1 & H2 & ->)].
  - rewrite Hn in Hs by done. done.
  - apply list_elem_of_lookup in Hin as [i Hi]. apply list_elem_of_lookup in H1 as [j Hj].
    assert (i = j) as -> by (by eapply selection_unique). congruence.
Qed.

(** C2: decoding an instruction word gives the pointer of the table entry whose
    opcode fields match it, the Rc variant when bit 31 is set, and UNK when no
    entry matches. *)
Theorem decode_spec inst :
  is_word 32 inst ->
  (forall ge, ge ∈ table_entries -> entry_selects ge.1 ge.2 inst = true -> decode inst = entry_pointer ge.2 inst) /\
  ((forall ge, ge ∈ table_entries -> entry_selects ge.1 ge.2 inst = false) -> decode inst = "UNK"%string).
Proof.
  intros Hw. split; [intros ge; by apply decode_entry|]. intros Hn. rewrite decode_correct by done.
  unfold decode_ref. destruct (select_fold inst table_entries "UNK"%string) as [[-> _]|(ge & Hin & Hs & _)]; [done|].
  by rewrite Hn in Hs.
Qed.

(** C15: the encoding is unambiguous: no instruction word matches two entries of
    the tables, so the order in which they are filled does not matter. *)
Theorem encoding_unambiguous inst i j a b :
  table_entries !! i = Some a -> table_entries !! j = Some b ->
  entry_selects a.1 a.2 inst = true -> entry_selects b.1 b.2 inst = true -> i = j.
Proof. apply selection_unique. Qed.

(** [addi r3, r0, 7] *)
Lemma decode_spec_witness : decode 0x38600007 = "ADDI"%string.
Proof.
  apply (decode_spec 0x38600007 ltac:(split; done)) with (ge := (Group 0 6 (-1) group_main, GET 0x0e "ADDI" 0)); [|done].
  apply list_elem_of_In. cbn. tauto.
Defined.

Lemma encoding_unambiguous_witness :
  exists i, table_entries !! i = Some (Group 0 6 (-1) group_main, GET 0x0e "ADDI" 0) /\ i = 8%nat.
Proof.
  exists 8%nat. split; [reflexivity|].
  apply (encoding_unambiguous 0x38600007 8 8 (Group 0 6 (-1) group_main, GET 0x0e "ADDI" 0)
           (Group 0 6 (-1) group_main, GET 0x0e "ADDI" 0)); reflexivity.
Defined.
