(* ===== verification/PpuTableProofs.v ===== *)
(** * Pointer table: what is initialised

    Which members of [ppu_interpreter_t] the constructor leaves null, and which
    instruction words decode to them. *)
From Stdlib Require Import String.
From S2P Require Import Prelude PpuState PpuDecode PpuDecodeProofs PpuTable.
#[local] Open Scope Z_scope.

Definition never_assigned : list string :=
  ["VSLDOI"; "MFOCRF"; "SUBFEO_"; "ADDEO_"; "SUBFE_"; "ADDE_"]%string.

(** The members of the extended arithmetic with [Rc] set. *)
Definition missing_rc : list string := ["SUBFEO_"; "ADDEO_"; "SUBFE_"; "ADDE_"]%string.

Lemma null_members_eq : null_members = never_assigned.
Proof. vm_compute. reflexivity. Qed.

(** A name is either assigned by the constructor or one of the six. *)
Definition known (n : string) : bool := initialised n || existsb (String.eqb n) never_assigned.

Lemma entries_known :
  forallb (fun ge : group_info * instruction_info => known (ptr0 ge.2) && known (ptr_rc ge.2)) table_entries = true.
Proof. vm_compute. reflexivity. Qed.

Lemma decode_known inst : is_word 32 inst -> known (decode inst) = true.
Proof.
  intros Hw. rewrite decode_correct by done. unfold decode_ref.
  destruct (select_fold inst table_entries "UNK"%string) as [[-> _]|(ge & Hge & _ & ->)].
  - vm_compute. reflexivity.
  - pose proof entries_known as H. rewrite forallb_forall in H. apply list_elem_of_In in Hge.
    specialize (H ge Hge). apply andb_prop in H as [H0 H1]. unfold entry_pointer. by destruct (op_rc inst).
Qed.

Lemma decode_group_1f op v n :
  is_word 32 op -> op_main op = 0x1f -> ppu_bf op 21 10 = v -> GETRC v n 0 ∈ group_1f ->
  decode op = if op_rc op then String.append n "_" else n.
Proof.
  intros Hw Hm Hv Hin. rewrite (decode_entry op (Group 0x1f 10 1 group_1f, GETRC v n 0)); [done|done| |].
  - unfold table_entries. apply list_elem_of_bind. exists (Group 0x1f 10 1 group_1f). split.
    + apply list_elem_of_bind. exists (GETRC v n 0). split; [by apply list_elem_of_singleton|done].
    + apply list_elem_of_In. cbn. tauto.
  - unfold entry_selects. cbn [fst snd g_sh g_main g_count value magn GETRC].
    rewrite Hm. change (32 - 1 - (10 - 0)) with 21. change (10 - 0) with 10. rewrite Hv. by rewrite !Z.eqb_refl.
Qed.

(** The four extended opcodes and the members they decode to with [Rc] set. *)
Definition missing_opcodes : list (Z * string) :=
  [(0x088, "SUBFE"); (0x288, "SUBFEO"); (0x08a, "ADDE"); (0x28a, "ADDEO")]%string.

Lemma missing_entries :
  forallb (fun vn : Z * string => existsb (fun e => (value e =? vn.1) && String.eqb (ptr0 e) vn.2 &&
     String.eqb (ptr_rc e) (String.append vn.2 "_") && (magn e =? 0)) group_1f &&
     negb (initialised (String.append vn.2 "_"))) missing_opcodes = true.
Proof. vm_compute. reflexivity. Qed.

(** Every handler pointer that the run-time decoder returns is one the constructor assigned, except the four extended add and subtract members with Rc set. *)
Theorem rt_pointer_assigned op n :
  is_word 32 op -> rt_decode op = RtFunc n -> initialised n = true \/ n ∈ missing_rc.
Proof.
  intros Hw Hd. pose proof (decode_known op Hw) as Hk. unfold rt_decode in Hd.
  destruct (_ && _); [done|]. destruct (String.eqb_spec (decode op) "VSLDOI") as [|Hv]; [done|].
  destruct (String.eqb_spec (decode op) "MFOCRF") as [|Hm].
  - destruct (op_l11 op); [by destruct (negb _)|]. injection Hd as <-. left. vm_compute. reflexivity.
  - injection Hd as <-. clear Hw. revert Hk Hv Hm. generalize (decode op). intros d Hk Hv Hm. unfold known in Hk. apply orb_prop in Hk as [Hk|Hk]; [by left|right].
    apply existsb_exists in Hk as (m & Hin & He). apply String.eqb_eq in He. subst m.
    apply list_elem_of_In. cbn in Hin |- *. destruct Hin as [E|[E|Hin]]; [congruence|congruence|tauto].
Qed.

(** Adde., addeo., subfe. and subfeo. decode to members that no INIT macro assigns, so their handler pointer is null. *)
Theorem rc_extended_null op v n :
  is_word 32 op -> op_main op = 0x1f -> ppu_bf op 21 10 = v -> (v, n) ∈ missing_opcodes -> op_rc op = true ->
  rt_decode op = RtFunc (String.append n "_") /\ initialised (String.append n "_") = false.
Proof.
  intros Hw Hm Hv Hin Hrc. pose proof missing_entries as H. rewrite forallb_forall in H.
  apply list_elem_of_In in Hin. specialize (H (v, n) Hin). cbn [fst snd] in H.
  apply andb_prop in H as [He Hi]. apply negb_true_iff in Hi. split; [|done].
  apply existsb_exists in He as (e & Hine & He). rewrite !andb_true_iff, !Z.eqb_eq, !String.eqb_eq in He.
  destruct He as (((E1 & E2) & E3) & E4).
  assert (e = GETRC v n 0) as -> by (destruct e; cbn in *; unfold GETRC; congruence).
  assert (Hd : decode op = String.append n "_").
  { rewrite (decode_group_1f op v n) by (done || by apply list_elem_of_In). by rewrite Hrc. }
  unfold rt_decode. rewrite Hd.
  cbn in Hin. destruct Hin as [[= <- <-]|[[= <- <-]|[[= <- <-]|[[= <- <-]|[]]]]]; done.
Qed.

(** [adde. r3, r3, r5] *)
Definition adde_rc_word : Z := 0x7c632915.

Lemma rc_extended_null_witness : rt_decode adde_rc_word = RtFunc "ADDE_" /\ initialised "ADDE_" = false.
Proof.
  apply (rc_extended_null adde_rc_word 0x08a "ADDE"); [split; done|done|done| |done].
  apply list_elem_of_In. cbn. tauto.
Defined.

(** [addi r3, r0, 7] *)
Lemma rt_decode_addi : rt_decode 0x38600007 = RtFunc "ADDI".
Proof.
  assert (H : decode 0x38600007 = "ADDI"%string).
  { apply (decode_entry 0x38600007 (Group 0 6 (-1) group_main, GET 0x0e "ADDI" 0)); [split; done| |done].
    apply list_elem_of_In. cbn. tauto. }
  unfold rt_decode. rewrite H. reflexivity.
Qed.

Lemma rt_pointer_assigned_witness : initialised "ADDI" = true \/ "ADDI"%string ∈ missing_rc.
Proof. apply (rt_pointer_assigned 0x38600007 "ADDI"); [split; done|exact rt_decode_addi]. Defined.
