(* ===== verification/PpuStepProofs.v ===== *)
(** * One instruction keeps the thread well formed

    Every handler of [PpuInt], [PpuBranch] and [PpuMem] keeps each register,
    flag and memory byte inside its C++ type, also when it throws; so do [step]
    and [run]. *)
From Stdlib Require Import String.
From S2P Require Import Prelude PpuState PpuInt PpuBranch PpuMem PpuDecode PpuIntProofs PpuMemProofs PpuDecodeProofs PpuStep.
#[local] Open Scope Z_scope.

(** Every field of the thread holds a value of its C++ type. *)
Record ppu_wf (s : ppu_thread) : Prop := PpuWf {
  wf_gpr : forall i, is_word 64 (gpr s i);
  wf_fpr : forall i, is_word 64 (fpr s i);
  wf_vr : forall i, is_word 128 (vr s i);
  wf_cr : forall i, is_word 1 (cr s i);
  wf_lr : is_word 64 (lr s);
  wf_ctr : is_word 64 (ctr s);
  wf_vrsave : is_word 32 (vrsave s);
  wf_cia : is_word 32 (cia s);
  wf_xer_cnt : is_word 7 (xer_cnt s);
  wf_raddr : is_word 32 (raddr s);
  wf_res_cached : is_word 32 (res_cached s);
  wf_exec_bytes : is_word 64 (exec_bytes s);
  wf_mem : forall a, is_word 8 (mem s a)
}.

Create HintDb ppu_wf.

Section Wf.
Context `{Cfg : PpuConfig}.
Implicit Types (op : Z) (fl : exec_flags) (s : ppu_thread).

Ltac wf_tac := intros []; constructor; state_cbn; auto.

Lemma wf_set_gpr_at i v s : ppu_wf s -> is_word 64 v -> ppu_wf (set_gpr_at i v s).
Proof. intros [] ?; constructor; state_cbn; auto; by apply upd_all. Qed.
Lemma wf_set_fpr_at i v s : ppu_wf s -> is_word 64 v -> ppu_wf (set_fpr_at i v s).
Proof. intros [] ?; constructor; state_cbn; auto; by apply upd_all. Qed.
Lemma wf_set_vr_at i v s : ppu_wf s -> is_word 128 v -> ppu_wf (set_vr_at i v s).
Proof. intros [] ?; constructor; state_cbn; auto; by apply upd_all. Qed.
Lemma wf_set_cr_at i v s : ppu_wf s -> is_word 1 v -> ppu_wf (set_cr_at i v s).
Proof. intros [] ?; constructor; state_cbn; auto; by apply upd_all. Qed.
Lemma wf_set_cr f s : ppu_wf s -> (forall i, is_word 1 (f i)) -> ppu_wf (set_cr f s).
Proof. intros [] ?; constructor; state_cbn; auto. Qed.
Lemma wf_set_lr v s : ppu_wf s -> is_word 64 v -> ppu_wf (set_lr v s).
Proof. intros [] ?; constructor; state_cbn; auto. Qed.
Lemma wf_set_ctr v s : ppu_wf s -> is_word 64 v -> ppu_wf (set_ctr v s).
Proof. intros [] ?; constructor; state_cbn; auto. Qed.
Lemma wf_set_vrsave v s : ppu_wf s -> is_word 32 v -> ppu_wf (set_vrsave v s).
Proof. intros [] ?; constructor; state_cbn; auto. Qed.
Lemma wf_set_cia v s : ppu_wf s -> is_word 32 v -> ppu_wf (set_cia v s).
Proof. intros [] ?; constructor; state_cbn; auto. Qed.
Lemma wf_set_exec_bytes v s : ppu_wf s -> is_word 64 v -> ppu_wf (set_exec_bytes v s).
Proof. intros [] ?; constructor; state_cbn; auto. Qed.
Lemma wf_set_xer_cnt v s : ppu_wf s -> is_word 7 v -> ppu_wf (set_xer_cnt v s).
Proof. intros [] ?; constructor; state_cbn; auto. Qed.
Lemma wf_set_mem m s : ppu_wf s -> (forall a, is_word 8 (m a)) -> ppu_wf (set_mem m s).
Proof. intros [] ?; constructor; state_cbn; auto. Qed.
Lemma wf_set_xer_so b s : ppu_wf s -> ppu_wf (set_xer_so b s).
Proof. wf_tac. Qed.
Lemma wf_set_xer_ov b s : ppu_wf s -> ppu_wf (set_xer_ov b s).
Proof. wf_tac. Qed.
Lemma wf_set_xer_ca b s : ppu_wf s -> ppu_wf (set_xer_ca b s).
Proof. wf_tac. Qed.
Lemma wf_set_stat m s : ppu_wf s -> ppu_wf (set_stat m s).
Proof. wf_tac. Qed.
Lemma wf_set_history h s : ppu_wf s -> ppu_wf (set_history h s).
Proof. wf_tac. Qed.
Lemma wf_lose s : ppu_wf s -> ppu_wf (set_res_cached 0 (set_raddr 0 s)).
Proof. intros []; constructor; state_cbn; auto; done. Qed.

Lemma b2z_word b : is_word 1 (Z.b2z b).
Proof. by destruct b. Qed.
Hint Resolve wf_set_gpr_at wf_set_fpr_at wf_set_vr_at wf_set_cr_at wf_set_lr wf_set_ctr wf_set_vrsave
  wf_set_cia wf_set_exec_bytes wf_set_xer_cnt wf_set_xer_so wf_set_xer_ov wf_set_xer_ca wf_set_stat
  wf_set_history wf_lose b2z_word : ppu_wf.

Lemma wf_cr_cmp f a b s : ppu_wf s -> ppu_wf (ppu_cr_cmp f a b s).
Proof. intros H. unfold ppu_cr_cmp, ppu_cr_set. destruct ppu_debug; auto 10 with ppu_wf. Qed.
Hint Resolve wf_cr_cmp : ppu_wf.
Lemma wf_record_cr0 fl v s : ppu_wf s -> ppu_wf (record_cr0 fl v s).
Proof. intros H. unfold record_cr0. destruct (has_rc fl); auto with ppu_wf. Qed.
Lemma wf_ov_set b s : ppu_wf s -> ppu_wf (ppu_ov_set b s).
Proof. intros H. unfold ppu_ov_set. auto with ppu_wf. Qed.
Hint Resolve wf_record_cr0 wf_ov_set : ppu_wf.
Lemma wf_record_ov fl b s : ppu_wf s -> ppu_wf (record_ov fl b s).
Proof. intros H. unfold record_ov. destruct (has_oe fl); auto with ppu_wf. Qed.
Lemma wf_record_call c op i s : ppu_wf s -> ppu_wf (ppu_record_call c op i s).
Proof. intros H. unfold ppu_record_call. repeat case_match; auto with ppu_wf. Qed.
Hint Resolve wf_record_ov wf_record_call : ppu_wf.

(** ** Values computed by the handlers *)

Lemma dup32_word x : is_word 32 x -> is_word 64 (dup32 x).
Proof.
  intros Hx. unfold dup32. apply lor_word; [lia|unfold is_word in *; lia|].
  rewrite Z.shiftl_mul_pow2 by lia. unfold is_word in *. lia.
Qed.
Lemma rol64_word x n : is_word 64 x -> is_word 64 (rol64 x n).
Proof.
  intros Hx. unfold rol64. apply lor_word; [lia|by apply wrap_range|].
  apply shiftr_word; [lia|apply Z.land_nonneg; lia|done].
Qed.
Lemma rotate_mask_word mb me : is_word 64 (ppu_rotate_mask mb me).
Proof.
  unfold ppu_rotate_mask. apply lor_word; [lia| |by apply wrap_range].
  apply shiftr_word; [lia|apply Z.land_nonneg; lia|by apply wrap_range].
Qed.
Lemma field_word64 op i n : 0 <= n <= 64 -> is_word 64 (ppu_bf op i n).
Proof.
  intros Hn. pose proof (ppu_bf_range op i n ltac:(lia)). unfold is_word.
  assert (2 ^ n <= 2 ^ 64) by (apply Z.pow_le_mono_r; lia). lia.
Qed.
Lemma countl_zero_word w x : is_word w x -> 0 <= w <= 64 -> is_word 64 (countl_zero w x).
Proof.
  intros Hx Hw. unfold countl_zero. unfold is_word in *.
  destruct (Z.eqb_spec x 0); [lia|]. pose proof (Z.log2_nonneg x).
  assert (Z.log2 x < w) by (apply Z.log2_lt_pow2; lia). lia.
Qed.
Lemma quot_word a b : is_word 64 a -> 0 <= b -> is_word 64 (a / b).
Proof.
  intros Ha Hb. unfold is_word in *. destruct (Z.eq_dec b 0) as [->|]; [by rewrite Z.div_0_r|].
  split; [apply Z.div_pos; lia|]. apply Z.div_lt_upper_bound; [lia|]. nia.
Qed.
Lemma word32_64 x : is_word 32 x -> is_word 64 x.
Proof. unfold is_word. lia. Qed.

Lemma rol32_word' x n : is_word 32 (rol32 (u32 x) n).
Proof. apply rol32_word. by apply wrap_range. Qed.
Lemma uimm16_shift_word op : is_word 64 (Z.shiftl (op_uimm16 op) 16).
Proof.
  pose proof (ppu_bf_range op 16 16 ltac:(lia)) as H. fold (op_uimm16 op) in H.
  rewrite Z.shiftl_mul_pow2 by lia. unfold is_word. lia.
Qed.
Lemma land_word_r w x y : 0 <= w -> 0 <= x -> is_word w y -> is_word w (Z.land x y).
Proof. intros. rewrite Z.land_comm. by apply land_word. Qed.
Lemma wrap_nonneg w x : 0 <= w -> 0 <= wrap w x.
Proof. intros. by apply wrap_range. Qed.
Lemma word_nonneg w x : is_word w x -> 0 <= x.
Proof. intros []; done. Qed.

(** Solve [is_word] goals on the expressions of the handlers. *)
Ltac solve_word :=
  lazymatch goal with
  | |- is_word _ (if ?b then _ else _) => destruct b; solve_word
  | |- is_word ?w (wrap ?w _) => apply wrap_range; lia
  | |- is_word 64 (wrap 32 _) => apply (wrap_le 32 64); lia
  | |- is_word ?w (bnot ?w _) => apply wrap_range; lia
  | |- is_word _ (gpr _ _) => apply wf_gpr; assumption
  | |- is_word _ (vr _ _) => apply wf_vr; assumption
  | |- is_word _ (fpr _ _) => apply wf_fpr; assumption
  | |- is_word _ (cr _ _) => apply wf_cr; assumption
  | |- is_word 64 (lr _) => apply wf_lr; assumption
  | |- is_word 64 (ctr _) => apply wf_ctr; assumption
  | |- is_word 64 (vrsave _) => apply word32_64, wf_vrsave; assumption
  | |- is_word 64 (ppu_rotate_mask _ _) => apply rotate_mask_word
  | |- is_word 64 (dup32 _) => apply dup32_word; solve_word
  | |- is_word 32 (rol32 (wrap 32 _) _) => apply rol32_word'
  | |- is_word 64 (rol64 _ _) => apply rol64_word; solve_word
  | |- is_word 64 (Z.shiftl (op_uimm16 _) 16) => apply uimm16_shift_word
  | |- is_word 64 (op_uimm16 _) => apply field_word64; lia
  | |- is_word 64 (countl_zero 64 _) => apply (countl_zero_word 64); [solve_word|lia]
  | |- is_word 64 (countl_zero 32 _) => apply (countl_zero_word 32); [solve_word|lia]
  | |- is_word 64 (umulh64 _ _) => apply wrap_range; lia
  | |- is_word ?w (Z.land _ (Z.shiftr (2 ^ 64 - 1) _)) => apply land_word; [lia|solve_word|apply Z.shiftr_nonneg; lia]
  | |- is_word ?w (Z.land _ _) => apply land_word; [lia|solve_word|solve_nonneg]
  | |- is_word ?w (Z.lor _ _) => apply lor_word; [lia|solve_word|solve_word]
  | |- is_word ?w (Z.lxor _ _) => apply lxor_word; [lia|solve_word|solve_word]
  | |- is_word ?w (Z.shiftr _ _) => apply shiftr_word; [lia|solve_nonneg|solve_word]
  | |- is_word 64 (_ / _) => apply quot_word; [solve_word|solve_nonneg]
  | |- is_word _ _ => first [assumption | split; done | idtac]
  end
with solve_nonneg :=
  first [lia | apply wrap_nonneg; lia | apply op_mbe64_range | apply op_sh64_range | apply Z.land_nonneg; right; lia
        | apply (word_nonneg 64), rotate_mask_word | apply (word_nonneg 64); solve [solve_word]
        | apply (word_nonneg 1); solve [solve_word]].

Ltac wf_handler :=
  intros; cbv zeta; repeat match goal with |- ppu_wf (if ?b then _ else _) => destruct b end;
  repeat (eauto with ppu_wf; match goal with
    | |- ppu_wf (record_cr0 _ _ _) => apply wf_record_cr0
    | |- ppu_wf (record_ov _ _ _) => apply wf_record_ov
    | |- ppu_wf (ppu_cr_cmp _ _ _ _) => apply wf_cr_cmp
    | |- ppu_wf (ppu_ov_set _ _) => apply wf_ov_set
    | |- ppu_wf (if ?b then _ else _) => destruct b
    | |- ppu_wf (set_gpr_at _ _ _) => apply wf_set_gpr_at
    | |- ppu_wf (set_cr_at _ _ _) => apply wf_set_cr_at
    | |- ppu_wf (set_xer_ca _ _) => apply wf_set_xer_ca
    end); try solve_word.

Definition keeps (f : ppu_thread -> ppu_thread) : Prop := forall s, ppu_wf s -> ppu_wf (f s).

Lemma add64_flags_word a b : is_word 64 (add64_flags a b).1.
Proof. by apply wrap_range. Qed.
Lemma add64_flags_c_word a b c : is_word 64 (add64_flags_c a b c).1.
Proof. rewrite add64_flags_c_wrap. by apply wrap_range. Qed.

Lemma put_carry_keeps fl op r ov : is_word 64 r.1 -> keeps (put_carry fl op r ov).
Proof. unfold keeps, put_carry. wf_handler. Qed.
Lemma put_ra_keeps fl op v s : ppu_wf s -> is_word 64 v -> ppu_wf (put_ra fl op v s).
Proof. unfold put_ra. wf_handler. Qed.
Lemma put_rd_keeps fl op v s : ppu_wf s -> is_word 64 v -> ppu_wf (put_rd fl op v s).
Proof. unfold put_rd. wf_handler. Qed.

Lemma rc_ov_keeps : Forall (fun nf => forall fl op, keeps (nf.2 fl op)) rc_ov_handlers.
Proof.
  unfold rc_ov_handlers. repeat first [apply Forall_nil_2 | apply Forall_cons_2]; intros fl op s Hs; cbn [snd].
  all: unfold SUBFC, ADDC, SUBF, NEG, SUBFZE, ADDZE, SUBFME, MULLD, ADDME, MULLW, ADD, DIVDU, DIVWU, DIVD, DIVW; cbv zeta.
  all: lazymatch goal with |- ppu_wf (put_carry _ _ _ _ _) => apply put_carry_keeps; [apply add64_flags_word || apply add64_flags_c_word|done] | _ => idtac end.
  all: wf_handler.
Qed.

Lemma ov_keeps : Forall (fun nf => forall fl op, keeps (nf.2 fl op)) ov_handlers.
Proof.
  unfold ov_handlers. repeat first [apply Forall_nil_2 | apply Forall_cons_2]; intros fl op s Hs; cbn [snd].
  all: unfold SUBFE, ADDE; cbv zeta; apply put_carry_keeps; [apply add64_flags_c_word|done].
Qed.

Lemma rc_keeps : Forall (fun nf => forall fl op, keeps (nf.2 fl op)) rc_handlers.
Proof.
  unfold rc_handlers. repeat first [apply Forall_nil_2 | apply Forall_cons_2]; intros fl op s Hs; cbn [snd].
  all: unfold RLWIMI, RLWINM, RLWNM, RLDICL, RLDICR, RLDIC, RLDIMI, RLDCL, RLDCR, MULHDU, MULHWU, SLW, CNTLZW, SLD,
   AND, CNTLZD, ANDC, MULHD, MULHW, NOR, EQV, XOR, ORC, OR, NAND, SRW, SRD, SRAW, SRAD, SRAWI, SRADI, EXTSH, EXTSB, EXTSW,
   put_ra, put_rd.
  all: wf_handler.
Qed.

(** ** Condition register moves *)

Lemma cr_put_field_word f e bits : (forall i, is_word 1 (bits i)) -> forall i, is_word 1 (cr_put_field f e bits i).
Proof.
  intros Hb i. destruct e as [[[lt gt] eq] so]. unfold cr_put_field, upd.
  repeat case_match; try apply b2z_word; apply Hb.
Qed.

Lemma cr_bool s : ppu_wf s -> cr_wf s.
Proof. intros H i. pose proof (wf_cr s H i). unfold is_word in *. lia. Qed.

Lemma mtocrf_keeps op : keeps (MTOCRF op).
Proof.
  intros s Hs. unfold MTOCRF. destruct (op_l11 op); cbv zeta.
  - apply wf_set_cr; [done|]. apply cr_put_field_word, Hs.
  - apply wf_set_cr; [done|]. generalize (seqZ 0 8). intros l.
    assert (H : forall i, is_word 1 (cr s i)) by apply Hs. revert H. generalize (cr s).
    induction l as [|f l IH]; intros bits H; [done|]. cbn [fold_left]. apply IH.
    destruct (negb _); [|done]. by apply cr_put_field_word.
Qed.

Lemma mcrf_keeps op : keeps (MCRF op).
Proof. intros s Hs. unfold MCRF. apply wf_set_cr; [done|]. repeat apply upd_all; apply Hs. Qed.

Lemma Forall_nth_word (P : Z -> Prop) l n d : P d -> Forall P l -> P (nth n l d).
Proof. intros Hd Hl. revert n. induction Hl; intros [|n]; cbn; auto. Qed.

Lemma lvs_consts_word : Forall (is_word 128) s_lvsl_consts /\ Forall (is_word 128) s_lvsr_consts.
Proof.
  assert (H : forallb (fun v => (0 <=? v) && (v <? 2 ^ 128)) (s_lvsl_consts ++ s_lvsr_consts) = true) by (vm_compute; reflexivity).
  rewrite forallb_app in H. apply andb_prop in H as [H1 H2].
  split; apply Forall_forall; intros v Hv; apply list_elem_of_In in Hv.
  - rewrite forallb_forall in H1. specialize (H1 v Hv). unfold is_word. lia.
  - rewrite forallb_forall in H2. specialize (H2 v Hv). unfold is_word. lia.
Qed.

Lemma plain_keeps : Forall (fun nh => forall pc op s, ppu_wf s -> ppu_wf (out_state (nh.2 pc op s))) plain_handlers.
Proof.
  unfold plain_handlers. repeat first [apply Forall_nil_2 | apply Forall_cons_2]; intros pc op s Hs; cbn [snd plain_h out_state].
  all: unfold plain_h; cbn [out_state].
  all: lazymatch goal with
    | |- ppu_wf (MTOCRF _ _) => by apply mtocrf_keeps
    | |- ppu_wf (MCRF _ _) => by apply mcrf_keeps
    | _ => idtac end.
  all: unfold MULLI, SUBFIC, CMPLI, CMPI, ADDIC, ADDI, ADDIS, CRNOR, CRANDC, CRXOR, CRNAND, CRAND, CREQV, CRORC, CROR,
    ORI, ORIS, XORI, XORIS, ANDI, ANDIS, CMP, CMPL, MFCR, DCBST, DCBF, DCBT, DCBTST, DCBI, DST, DSTST, DSS, ICBI.
  all: lazymatch goal with
    | |- ppu_wf (LVSL _ _) => unfold LVSL; apply wf_set_vr_at; [done|]; apply Forall_nth_word; [split; done|exact (proj1 lvs_consts_word)]
    | |- ppu_wf (LVSR _ _) => unfold LVSR; apply wf_set_vr_at; [done|]; apply Forall_nth_word; [split; done|exact (proj2 lvs_consts_word)]
    | _ => wf_handler end.
  all: first [apply add64_flags_c_word | apply add64_flags_word | by apply word32_64, cr_pack_word, cr_bool].
Qed.

(** ** The monadic handlers *)

(** [m] keeps the state well formed, also when it fails, and returns values in [P]. *)
Definition M_keeps {A} (P : A -> Prop) (m : M A) : Prop :=
  forall s, ppu_wf s -> match m s with Ok a s' => ppu_wf s' /\ P a | Fail _ s' => ppu_wf s' end.

Lemma keeps_bind {A B} (P : A -> Prop) (Q : B -> Prop) (m : M A) (f : A -> M B) :
  M_keeps P m -> (forall a, P a -> M_keeps Q (f a)) -> M_keeps Q (m ≫= f).
Proof.
  intros Hm Hf s Hs. unfold mbind, M_bind. specialize (Hm s Hs). destruct (m s) as [a s'|e s']; [|done].
  destruct Hm as [H1 H2]. by apply Hf.
Qed.
Lemma keeps_ret {A} (P : A -> Prop) a : P a -> M_keeps P (mret a : M A).
Proof. intros HP s Hs. by split. Qed.
Lemma keeps_get : M_keeps ppu_wf get.
Proof. intros s Hs. by split. Qed.
Lemma keeps_modify f : keeps f -> M_keeps (fun _ => True) (modify f).
Proof. intros Hf s Hs. split; [by apply Hf|done]. Qed.
Lemma keeps_fail {A} (P : A -> Prop) e : M_keeps P (fail e : M A).
Proof. intros s Hs. done. Qed.
Lemma keeps_weaken {A} (P Q : A -> Prop) m : M_keeps P m -> (forall a, P a -> Q a) -> M_keeps Q m.
Proof. intros Hm HPQ s Hs. specialize (Hm s Hs). destruct (m s); [|done]. destruct Hm; auto. Qed.

Lemma keeps_put_gpr i v : is_word 64 v -> M_keeps (fun _ => True) (put_gpr i v).
Proof. intros Hv. apply keeps_modify. intros s Hs. by apply wf_set_gpr_at. Qed.
Lemma keeps_put_fpr i v : is_word 64 v -> M_keeps (fun _ => True) (put_fpr i v).
Proof. intros Hv. apply keeps_modify. intros s Hs. by apply wf_set_fpr_at. Qed.
Lemma keeps_put_vr i v : is_word 128 v -> M_keeps (fun _ => True) (put_vr i v).
Proof. intros Hv. apply keeps_modify. intros s Hs. by apply wf_set_vr_at. Qed.

Lemma keeps_vm_cast a : M_keeps (fun b => b = a /\ a < 2 ^ 32) (vm_cast a).
Proof. intros s Hs. unfold vm_cast. destruct (Z.ltb_spec a (2 ^ 32)); done. Qed.

Lemma keeps_feed n a : M_keeps (fun l => bytes_ok l /\ length l = n) (ppu_feed_data n a).
Proof.
  intros s Hs. destruct (ppu_feed_data n a s) as [l s'|e s'] eqn:Hf.
  - apply feed_value in Hf as (_ & -> & Hs'). split.
    + destruct Hs' as [-> | ->]; [done|]. by apply wf_lose.
    + split; [apply read_bytes_ok; intros x; by apply wf_mem|apply length_read_bytes].
  - unfold ppu_feed_data, mbind, M_bind, vm_cast, mret, M_ret, get, lose_reservation, modify, fail in Hf. repeat case_match; simplify_eq; done.
Qed.

Lemma keeps_load_be n a : M_keeps (is_word (8 * Z.of_nat n)) (load_be n a).
Proof.
  eapply keeps_bind; [apply keeps_feed|]. intros l [Hl Hn]. apply keeps_ret. rewrite <- Hn. by apply be_val_range.
Qed.
Lemma keeps_load_le n a : M_keeps (is_word (8 * Z.of_nat n)) (load_le n a).
Proof.
  eapply keeps_bind; [apply keeps_feed|]. intros l [Hl Hn]. apply keeps_ret. unfold le_val.
  rewrite <- Hn, <- (length_rev l). apply be_val_range. unfold bytes_ok. by apply Forall_rev.
Qed.

Lemma write_bytes_word m a l : (forall x, is_word 8 (m x)) -> bytes_ok l -> forall x, is_word 8 (write_bytes m a l x).
Proof.
  intros Hm Hl x. unfold write_bytes. destruct (_ && _); [|done]. apply Forall_nth_word; [split; done|done].
Qed.

Lemma keeps_store_be n a v : M_keeps (fun _ => True) (store_be n a v).
Proof.
  eapply keeps_bind; [apply keeps_vm_cast|]. intros b _. apply keeps_modify. intros s Hs.
  apply wf_set_mem; [done|]. apply write_bytes_word; [apply Hs|apply be_bytes_ok].
Qed.
Lemma keeps_store_le n a v : M_keeps (fun _ => True) (store_le n a v).
Proof.
  eapply keeps_bind; [apply keeps_vm_cast|]. intros b _. apply keeps_modify. intros s Hs.
  apply wf_set_mem; [done|]. apply write_bytes_word; [apply Hs|]. unfold bytes_ok, le_bytes. apply Forall_rev, be_bytes_ok.
Qed.

Lemma small_word w v x : w <= v -> is_word w x -> is_word v x.
Proof. intros Hw [H0 H]. split; [done|]. apply Z.lt_le_trans with (1 := H). by apply Z.pow_le_mono_r. Qed.

Lemma ea_word op s : ppu_wf s ->
  is_word 64 (ea_d op s) /\ is_word 64 (ea_ds op s) /\ is_word 64 (ea_dsu op s) /\ is_word 64 (ea_x op s) /\ is_word 64 (ea_xu op s).
Proof.
  intros Hs. unfold ea_d, ea_ds, ea_dsu, ea_x, ea_xu. split_and!; try (by apply wrap_range).
  all: destruct (_ =? 0); [apply Hs|by apply wrap_range].
Qed.

Ltac solve_mem :=
  repeat lazymatch goal with
  | |- M_keeps _ (get ≫= _) => eapply keeps_bind; [apply keeps_get|intros ? ?]
  | |- M_keeps _ (load_be _ _ ≫= _) => eapply keeps_bind; [apply keeps_load_be|cbv beta; intros ? ?]
  | |- M_keeps _ (load_le _ _ ≫= _) => eapply keeps_bind; [apply keeps_load_le|cbv beta; intros ? ?]
  | |- M_keeps _ (store_be _ _ _ ≫= _) => eapply keeps_bind; [apply keeps_store_be|intros ? _]
  | |- M_keeps _ (store_be _ _ _) => apply keeps_store_be
  | |- M_keeps _ (store_le _ _ _) => apply keeps_store_le
  | |- M_keeps _ (put_gpr _ _ ≫= _) => eapply keeps_bind; [apply keeps_put_gpr|intros ? _]
  | |- M_keeps _ (put_fpr _ _ ≫= _) => eapply keeps_bind; [apply keeps_put_fpr|intros ? _]
  | |- M_keeps _ (put_gpr _ _) => apply keeps_put_gpr
  | |- M_keeps _ (put_fpr _ _) => apply keeps_put_fpr
  | |- M_keeps _ (put_vr _ _) => apply keeps_put_vr
  | |- M_keeps _ (fail _) => apply keeps_fail
  | |- M_keeps _ (let _ := _ in _) => cbv zeta
  | |- is_word _ (ea_d _ _) => by apply ea_word
  | |- is_word _ (ea_ds _ _) => by apply ea_word
  | |- is_word _ (ea_dsu _ _) => by apply ea_word
  | |- is_word _ (ea_x _ _) => by apply ea_word
  | |- is_word _ (ea_xu _ _) => by apply ea_word
  | |- is_word _ (wrap _ _) => by apply wrap_range
  | H : is_word ?w ?x |- is_word ?v ?x => apply (small_word w v); [done|exact H]
  end.

Lemma lmw_keeps k : forall i a, M_keeps (fun _ => True) (lmw_loop k i a).
Proof. induction k as [|k IH]; intros i a; cbn [lmw_loop]; [by apply keeps_ret|]. solve_mem. apply IH. Qed.
Lemma stmw_keeps k : forall i a, M_keeps (fun _ => True) (stmw_loop k i a).
Proof. induction k as [|k IH]; intros i a; cbn [stmw_loop]; [by apply keeps_ret|]. solve_mem. apply IH. Qed.

Lemma lsw_tail_keeps k : forall b a v, is_word 32 v -> M_keeps (is_word 32) (lsw_tail k b a v).
Proof.
  induction k as [|k IH]; intros b a v Hv; cbn [lsw_tail]; [by apply keeps_ret|]. solve_mem.
  apply IH, lor_word; [lia|done|by apply wrap_range].
Qed.
Lemma lswx_keeps k : forall r c a, M_keeps (fun _ => True) (lswx_loop k r c a).
Proof.
  induction k as [|k IH]; intros r c a; cbn [lswx_loop]; [by apply keeps_ret|].
  destruct (4 <=? c); [solve_mem; apply IH|]. destruct (c =? 0); [by apply keeps_ret|].
  eapply keeps_bind; [by apply lsw_tail_keeps|]. intros v Hv. solve_mem.
Qed.
Lemma stsw_tail_keeps k : forall b a v, M_keeps (fun _ => True) (stsw_tail k b a v).
Proof. induction k as [|k IH]; intros b a v; cbn [stsw_tail]; [by apply keeps_ret|]. solve_mem. apply IH. Qed.
Lemma stswx_keeps k : forall r c a, M_keeps (fun _ => True) (stswx_loop k r c a).
Proof.
  induction k as [|k IH]; intros r c a; cbn [stswx_loop]; [by apply keeps_ret|]. solve_mem.
  destruct (4 <=? c); [solve_mem; apply IH|]. destruct (c =? 0); [by apply keeps_ret|]. apply stsw_tail_keeps.
Qed.
Lemma lswi_tail_keeps k : forall i a v, is_word 32 v -> M_keeps (is_word 32) (lswi_tail k i a v).
Proof.
  induction k as [|k IH]; intros b a v Hv; cbn [lswi_tail]; [by apply keeps_ret|]. solve_mem.
  apply IH, lor_word; [lia|done|by apply wrap_range].
Qed.
Lemma lswi_keeps k : forall r c a, M_keeps (fun _ => True) (lswi_loop k r c a).
Proof.
  induction k as [|k IH]; intros r c a; cbn [lswi_loop]; [by apply keeps_ret|].
  destruct (c <=? 0); [by apply keeps_ret|]. destruct (3 <? c); [solve_mem; apply IH|].
  eapply keeps_bind; [by apply lswi_tail_keeps|]. intros v Hv. solve_mem. apply IH.
Qed.
Lemma stswi_tail_keeps k : forall a v, M_keeps (fun _ => True) (stswi_tail k a v).
Proof. induction k as [|k IH]; intros a v; cbn [stswi_tail]; [by apply keeps_ret|]. solve_mem. apply IH. Qed.
Lemma stswi_keeps k : forall r c a, M_keeps (fun _ => True) (stswi_loop k r c a).
Proof.
  induction k as [|k IH]; intros r c a; cbn [stswi_loop]; [by apply keeps_ret|].
  destruct (c <=? 0); [by apply keeps_ret|]. solve_mem. destruct (3 <? c); [solve_mem; apply IH|].
  eapply keeps_bind; [apply stswi_tail_keeps|]. intros _ _. apply IH.
Qed.

Lemma v_u8r_word v i : is_word 8 (v_u8r v i).
Proof. by apply wrap_range. Qed.

Lemma fold_upd_word (f : Z -> Z) a l m :
  (forall i, is_word 8 (f i)) -> (forall x, is_word 8 (m x)) ->
  forall x, is_word 8 (fold_left (fun m j => upd m (a + j) (f j)) l m x).
Proof. intros Hf Hm x. rewrite fold_upd_lookup. destruct (bool_decide _); auto. Qed.

Definition M_handler (m : Z -> M unit) : Prop := forall op, M_keeps (fun _ => True) (m op).

Lemma mem_handler_keeps m pc op s : M_handler m -> ppu_wf s -> ppu_wf (out_state (mem_h m pc op s)).
Proof.
  intros Hm Hs. unfold mem_h, exec. specialize (Hm op s Hs). destruct (m op s); cbn; [apply Hm|done].
Qed.

Lemma mem_keeps : Forall (fun nh => forall pc op s, ppu_wf s -> ppu_wf (out_state (nh.2 pc op s))) mem_handlers.
Proof.
  unfold mem_handlers. repeat first [apply Forall_nil_2 | apply Forall_cons_2]; intros pc op s Hs; cbn [snd];
    (apply mem_handler_keeps; [clear pc op s Hs; intros op|exact Hs]).
  all: unfold LBZ, LBZU, LHZ, LHZU, LHA, LHAU, LWZ, LWZU, LD, LDU, LWA, LBZX, LHZX, LHAX, LWZX, LWAX, LDX, LBZUX, LHZUX,
    LHAUX, LWZUX, LWAUX, LDUX, LHBRX, LWBRX, LDBRX, STB, STBU, STH, STHU, STWU, STD, STDU, STBX, STHX, STWX, STDX,
    STBUX, STHUX, STWUX, STDUX, STHBRX, STWBRX, STDBRX, LFD, LFDU, LFDX, LFDUX, STFD, STFDU, STFDX, STFDUX, STFIWX,
    LMW, STMW, LSWX, STSWX, LSWI, STSWI, LVX, LVXL, LVEBX, LVEHX, LVEWX, STVX, STVXL, STVEBX, STVEHX, STVEWX,
    LVLXL, LVRXL, LVLX, LVRX, STVLXL, STVRXL, STVLX, STVRX, ECIWX, ECOWX; solve_mem.
  all: lazymatch goal with
    | |- M_keeps _ (lmw_loop _ _ _) => apply lmw_keeps
    | |- M_keeps _ (stmw_loop _ _ _) => apply stmw_keeps
    | |- M_keeps _ (lswx_loop _ _ _ _) => apply lswx_keeps
    | |- M_keeps _ (stswx_loop _ _ _ _) => apply stswx_keeps
    | |- M_keeps _ (lswi_loop _ _ _ _) => apply lswi_keeps
    | |- M_keeps _ (stswi_loop _ _ _ _) => apply stswi_keeps
    | |- is_word 128 (Z.shiftr _ _) =>
        apply shiftr_word; [lia|lia|apply shiftr_word; [lia|apply Z.mul_nonneg_nonneg; [apply Z.land_nonneg|]; lia|done]]
    | |- M_keeps _ (vm_cast _ ≫= _) =>
        eapply keeps_bind; [apply keeps_vm_cast|]; intros b _; apply keeps_modify; intros st Hst;
        apply wf_set_mem; [done|]; apply fold_upd_word; [intros; apply v_u8r_word|apply Hst]
    end.
Qed.

(** ** Control flow *)

Lemma pc_word x : is_word 64 (u32 x).
Proof. by apply (wrap_le 32 64). Qed.

Ltac wf_branch :=
  repeat lazymatch goal with
  | |- ppu_wf (out_state (if ?b then _ else _)) => destruct b
  | |- ppu_wf (out_state (not_taken _ _ _)) => unfold not_taken
  | |- ppu_wf (out_state (Next _)) => cbn [out_state]
  | |- ppu_wf (out_state (Return _)) => cbn [out_state]
  | |- ppu_wf (out_state (Throw _ _)) => cbn [out_state]
  | |- ppu_wf (out_state (Trap _ _)) => cbn [out_state]
  | |- ppu_wf (out_state (Syscall _ _)) => cbn [out_state]
  | |- ppu_wf (add_exec_bytes _ _ _) => unfold add_exec_bytes; apply wf_set_exec_bytes; [|by apply wrap_range]
  | |- ppu_wf (set_link _ _ _) => unfold set_link
  | |- ppu_wf (dec_ctr _ _) => unfold dec_ctr
  | |- ppu_wf (if ?b then _ else _) => destruct b
  | |- ppu_wf (set_cia _ _) => apply wf_set_cia
  | |- ppu_wf (set_lr _ _) => apply wf_set_lr; [|apply pc_word]
  | |- ppu_wf (set_ctr (wrap _ _) _) => apply wf_set_ctr; [|by apply wrap_range]
  | |- ppu_wf (ppu_record_call _ _ _ _) => apply wf_record_call
  | |- is_word 32 (wrap 32 _) => by apply wrap_range
  | |- is_word 32 (Z.land (wrap 32 _) _) => apply land_word; [lia|by apply wrap_range|by apply wrap_range]
  | |- is_word _ _ => assumption
  | |- ppu_wf _ => assumption
  end.

Lemma spr_value_word tb s : ppu_wf s -> is_word 64 tb ->
  is_word 64 (xer_word s) /\ is_word 64 (Z.shiftr tb 32).
Proof.
  intros Hs Ht. split; [|apply shiftr_word; done].
  unfold xer_word. assert (H : forall b k, 0 <= k < 63 -> is_word 64 (Z.shiftl (Z.b2z b) k)).
  { intros b k Hk. rewrite Z.shiftl_mul_pow2 by lia. unfold is_word.
    assert (0 < 2 ^ k) by (apply Z.pow_pos_nonneg; lia). assert (2 ^ k < 2 ^ 64) by (apply Z.pow_lt_mono_r; lia).
    destruct b; cbn [Z.b2z]; lia. }
  repeat apply lor_word; try (apply H; lia); try lia. apply (small_word 7); [done|apply Hs].
Qed.

Definition handler_keeps (h : handler) : Prop :=
  forall pc op s, is_word 32 pc -> ppu_wf s -> ppu_wf (out_state (h pc op s)).

Lemma control_keeps tb : is_word 64 tb -> Forall (fun nh => handler_keeps nh.2) (control_handlers tb).
Proof.
  intros Ht. unfold control_handlers, handler_keeps.
  repeat first [apply Forall_nil_2 | apply Forall_cons_2]; intros pc op s Hpc Hs; cbn [snd].
  1-9: unfold TDI, TWI, TD, TW, BC, B, BCLR, BCCTR, SC; cbv zeta; wf_branch.
  - unfold MFSPR. cbv zeta. destruct (spr_value_word tb s Hs Ht).
    repeat case_match; cbn [out_state]; try done; apply wf_set_gpr_at; try done; first [apply Hs | apply (small_word 32); [done|apply Hs]].
  - unfold MFTB. cbv zeta. destruct (spr_value_word tb s Hs Ht).
    repeat case_match; cbn [out_state]; try done; by apply wf_set_gpr_at.
  - unfold MTSPR. cbv zeta. repeat case_match; cbn [out_state]; try done.
    + apply wf_set_xer_cnt; [|apply land_word_r; [lia| |done]; apply Hs]. by apply wf_set_xer_ca, wf_set_xer_ov, wf_set_xer_so.
    + apply wf_set_lr; [done|apply Hs].
    + apply wf_set_ctr; [done|apply Hs].
    + apply wf_set_vrsave; [done|by apply wrap_range].
  - unfold STW. pose proof (keeps_store_be 4 (ea_d op s) (u32 (gpr s (op_rs op))) s Hs) as H.
    cbv zeta. destruct (store_be _ _ _ _); [|done]. destruct (_ =? _); apply H.
Qed.

Lemma flags_keeps n h (l : list (string * (exec_flags -> Z -> ppu_thread -> ppu_thread)))
    (init : string -> (exec_flags -> Z -> ppu_thread -> ppu_thread) -> list (string * handler)) :
  Forall (fun nf => forall fl op, keeps (nf.2 fl op)) l ->
  (forall m f x, x ∈ init m f -> exists oe rc, x.2 = flags_h f oe rc) ->
  (n, h) ∈ (l ≫= fun nf => init nf.1 nf.2) -> handler_keeps h.
Proof.
  intros Hl Hi Hin. apply list_elem_of_bind in Hin as (nf & Hx & Hnf).
  apply Hi in Hx as (oe & rc & Hx). cbn in Hx. subst h.
  rewrite Forall_forall in Hl. intros pc op s _ Hs. unfold flags_h. cbn [out_state]. by apply Hl.
Qed.

Ltac init_cases H :=
  repeat (apply elem_of_cons in H as [->|H]; [by eexists _, _|]); by apply not_elem_of_nil in H.

Lemma lookup_handler_elem n l h : lookup_handler n l = Some h -> exists m, (m, h) ∈ l.
Proof.
  induction l as [|[m k] l IH]; [done|]. cbn. destruct (String.eqb n m).
  - intros [= ->]. exists m. constructor.
  - intros H. destruct (IH H) as [m' Hm]. exists m'. by constructor.
Qed.

Lemma handlers_keep tb n h : is_word 64 tb -> lookup_handler n (handlers tb) = Some h -> handler_keeps h.
Proof.
  intros Ht Hl. apply lookup_handler_elem in Hl as [m Hin]. unfold handlers in Hin.
  rewrite !elem_of_app in Hin. destruct Hin as [Hin|[Hin|[Hin|[Hin|[Hin|Hin]]]]].
  - pose proof plain_keeps as H. rewrite Forall_forall in H. intros pc op s _. apply (H _ Hin).
  - pose proof mem_keeps as H. rewrite Forall_forall in H. intros pc op s _. apply (H _ Hin).
  - eapply flags_keeps; [apply rc_keeps| |apply Hin]. intros k f x Hx. unfold init_rc in Hx. init_cases Hx.
  - eapply flags_keeps; [apply rc_ov_keeps| |apply Hin]. intros k f x Hx. unfold init_rc_ov, init_ov in Hx. cbn [app] in Hx. init_cases Hx.
  - eapply flags_keeps; [apply ov_keeps| |apply Hin]. intros k f x Hx. unfold init_ov in Hx. init_cases Hx.
  - pose proof (control_keeps tb Ht) as H. rewrite Forall_forall in H. apply (H _ Hin).
Qed.

Lemma mfocrf_keeps n op : 0 <= n < 8 -> keeps (MFOCRF n op).
Proof. intros Hn s Hs. unfold MFOCRF. cbv zeta. apply wf_set_gpr_at; [done|apply pc_word]. Qed.

Lemma step_keeps tb pc op s o :
  is_word 64 tb -> is_word 32 pc -> ppu_wf s -> step tb pc op s = Some o -> ppu_wf (out_state o).
Proof.
  intros Ht Hpc Hs Hst. unfold step in Hst. destruct (rt_decode op) as [name|n|n|e]; try done.
  - destruct (lookup_handler name (handlers tb)) as [h|] eqn:Hl; [|done]. cbn in Hst. injection Hst as <-.
    by apply (handlers_keep tb name h).
  - injection Hst as <-. cbn [out_state]. unfold MFOCRF. cbv zeta. apply wf_set_gpr_at; [done|apply pc_word].
  - injection Hst as <-. done.
Qed.

(** C1: running any number of instructions from a well-formed thread keeps every register, condition bit, special register and memory byte inside its C++ type, on every outcome, and the address stays a 32-bit word. *)
Theorem run_keeps fuel tb : forall pc s pc' o,
  is_word 64 tb -> is_word 32 pc -> ppu_wf s -> run fuel tb pc s = Some (pc', o) ->
  is_word 32 pc' /\ ppu_wf (out_state o).
Proof.
  induction fuel as [|fuel IH]; intros pc s pc' o Ht Hpc Hs Hr; cbn [run] in Hr; [by injection Hr as <- <-|].
  destruct (step tb pc (fetch s pc) s) as [o'|] eqn:Hst; [|done]. cbn in Hr.
  apply step_keeps in Hst; [|done..]. destruct o'; cbn [out_state] in Hst; try (by injection Hr as <- <-).
  - eapply IH; [done| |exact Hst|exact Hr]. by apply wrap_range.
  - eapply IH; [done| |exact Hst|exact Hr]. apply Hst.
  - eapply IH; [done| |exact Hst|exact Hr]. by apply wrap_range.
Qed.
End Wf.

(** ** A concrete run: [addi r3, r0, 7] at address 0 *)

Definition li_thread : ppu_thread :=
  set_mem (fun a => if a =? 0 then 0x38 else if a =? 1 then 0x60 else if a =? 3 then 7 else 0) blank_thread.

Lemma li_thread_wf : ppu_wf li_thread.
Proof. constructor; intros; try (split; done). cbn. repeat case_match; split; done. Qed.

Lemma li_step : step (Cfg := config false false false) 0 0 0x38600007 li_thread = Some (Next (set_gpr_at 3 7 li_thread)).
Proof.
  unfold step. assert (H : decode 0x38600007 = "ADDI"%string).
  { apply (decode_entry 0x38600007 (Group 0 6 (-1) group_main, GET 0x0e "ADDI" 0)); [split; done| |done].
    apply list_elem_of_In. cbn. tauto. }
  unfold rt_decode. rewrite H. reflexivity.
Qed.

Lemma run_keeps_witness :
  run (Cfg := config false false false) 1 0 0 li_thread = Some (4, Next (set_gpr_at 3 7 li_thread)) /\
  ppu_wf (set_gpr_at 3 7 li_thread).
Proof.
  assert (Hr : run (Cfg := config false false false) 1 0 0 li_thread = Some (4, Next (set_gpr_at 3 7 li_thread))).
  { cbn [run]. change (fetch li_thread 0) with 0x38600007. by rewrite li_step. }
  split; [exact Hr|].
  apply (run_keeps (Cfg := config false false false) 1 0 0 li_thread 4 (Next (set_gpr_at 3 7 li_thread)));
    [split; done|split; done|apply li_thread_wf|exact Hr].
Defined.
