(* ===== verification/Threads.v ===== *)
(** * Interleavings of threads over a shared object

    A library call that waits is a sequence of atomic operations on the shared
    object, each one step of the calling thread.  [tstep a o pc] is one step of
    a thread at [pc] that takes the action [a]; it yields the events to record,
    the object after the step and the thread's next [pc], or nothing when the
    thread cannot take that action there.  A schedule names the thread of every
    step, so a run is a function of the schedule and a property of all runs is
    a property of all interleavings. *)
From S2P Require Import Prelude.

Section threads.
Context {O PC A E : Type}.
Variable tstep : A -> O -> PC -> option (list E * O * PC).

Record system := System { obj : O; pcs : list PC }.

(** Thread [t] takes action [a]; its events carry the thread's number. *)
Definition sched_step (s : system) (t : nat) (a : A) : option (list (nat * E) * system) :=
  match pcs s !! t with
  | None => None
  | Some pc =>
      match tstep a (obj s) pc with
      | None => None
      | Some (es, o, pc') => Some (map (fun e => (t, e)) es, System o (<[t := pc']> (pcs s)))
      end
  end.

Fixpoint run_schedule (s : system) (sch : list (nat * A)) : option (list (nat * E) * system) :=
  match sch with
  | [] => Some ([], s)
  | (t, a) :: sch =>
      match sched_step s t a with
      | None => None
      | Some (es, s1) =>
          match run_schedule s1 sch with
          | None => None
          | Some (es', s2) => Some (es ++ es', s2)
          end
      end
  end.

Lemma sched_step_inv s t a es s' :
  sched_step s t a = Some (es, s') ->
  exists pc es0 o pc', pcs s !! t = Some pc /\ tstep a (obj s) pc = Some (es0, o, pc') /\
    es = map (fun e => (t, e)) es0 /\ s' = System o (<[t := pc']> (pcs s)).
Proof.
  unfold sched_step. destruct (pcs s !! t) as [pc|] eqn:Hp; [|done]. simpl.
  destruct (tstep a (obj s) pc) as [[[es0 o] pc']|] eqn:Ht; [|done]. simpl.
  intros [= <- <-]. by exists pc, es0, o, pc'.
Qed.

(** Rule induction over a run. *)
Lemma run_invariant (I : system -> Prop) s sch es s' :
  (forall s t a es s', I s -> sched_step s t a = Some (es, s') -> I s') ->
  I s -> run_schedule s sch = Some (es, s') -> I s'.
Proof.
  intros Hstep. revert s es. induction sch as [|[t a] sch IH]; intros s es Hs; simpl.
  - by intros [= _ <-].
  - destruct (sched_step s t a) as [[es1 s1]|] eqn:H1; [|done]. simpl.
    destruct (run_schedule s1 sch) as [[es2 s2]|] eqn:H2; [|done]. simpl.
    intros [= _ <-]. eapply IH; [|done]. by eapply Hstep.
Qed.

(** The number of threads is fixed. *)
Lemma run_length s sch es s' : run_schedule s sch = Some (es, s') -> length (pcs s') = length (pcs s).
Proof.
  intros H. apply (run_invariant (fun x => length (pcs x) = length (pcs s)) s sch es s'); [|done|done].
  intros x t a es' x' Hx (pc & es0 & o & pc' & _ & _ & _ & ->)%sched_step_inv. simpl.
  by rewrite length_insert.
Qed.

(** ** Refinement of an abstract object

    [spec q te q'] is one event of the abstract object; a forward simulation
    shows every event trace of the threads to be one of the abstract object. *)
Context {Q : Type} (spec : Q -> nat * E -> Q -> Prop).

Inductive spec_run : Q -> list (nat * E) -> Q -> Prop :=
| spec_nil q : spec_run q [] q
| spec_cons q e q1 es q2 : spec q e q1 -> spec_run q1 es q2 -> spec_run q (e :: es) q2.

Lemma spec_run_app q es1 q1 es2 q2 : spec_run q es1 q1 -> spec_run q1 es2 q2 -> spec_run q (es1 ++ es2) q2.
Proof. induction 1; [done|]. intros. econstructor; eauto. Qed.

Lemma spec_run_one q e q' : spec q e q' -> spec_run q [e] q'.
Proof. intros H. econstructor; [done|constructor]. Qed.

Lemma run_refines (R : system -> Q -> Prop) s q sch es s' :
  (forall s q t a es s', R s q -> sched_step s t a = Some (es, s') ->
     exists q', spec_run q es q' /\ R s' q') ->
  R s q -> run_schedule s sch = Some (es, s') -> exists q', spec_run q es q' /\ R s' q'.
Proof.
  intros Hstep. revert s q es. induction sch as [|[t a] sch IH]; intros s q es Hs; simpl.
  - intros [= <- <-]. exists q. split; [constructor|done].
  - destruct (sched_step s t a) as [[es1 s1]|] eqn:H1; [|done]. simpl.
    destruct (run_schedule s1 sch) as [[es2 s2]|] eqn:H2; [|done]. simpl.
    intros [= <- <-]. destruct (Hstep _ _ _ _ _ _ Hs H1) as (q1 & Hq1 & HR1).
    destruct (IH _ _ _ HR1 H2) as (q2 & Hq2 & HR2). exists q2. split; [by eapply spec_run_app|done].
Qed.

(** One step of thread [i], before its events are labelled. *)
Definition simulated (R : system -> Q -> Prop) s q (i : nat) (r : list E * O * PC) : Prop :=
  exists q', spec_run q (map (fun e => (i, e)) r.1.1) q' /\ R (System r.1.2 (<[i := r.2]> (pcs s))) q'.

Lemma simulated_none R s q i o pc : R (System o (<[i := pc]> (pcs s))) q -> simulated R s q i ([], o, pc).
Proof. intros H. exists q. split; [constructor|done]. Qed.

Lemma simulated_one R s q q' i o pc e : spec q (i, e) q' -> R (System o (<[i := pc]> (pcs s))) q' ->
  simulated R s q i ([e], o, pc).
Proof. intros He H. exists q'. split; [by apply spec_run_one|done]. Qed.

(** Steps that are simulated make runs that refine. *)
Lemma simulated_refines (R : system -> Q -> Prop) s q sch es s' :
  (forall s q i a pc r, R s q -> pcs s !! i = Some pc -> tstep a (obj s) pc = Some r -> simulated R s q i r) ->
  R s q -> run_schedule s sch = Some (es, s') -> exists q', spec_run q es q' /\ R s' q'.
Proof.
  intros Hstep. apply run_refines. intros s0 q0 i a es0 s1 HR (pc & es1 & o & pc' & Hi & Ht & -> & ->)%sched_step_inv.
  exact (Hstep s0 q0 i a pc _ HR Hi Ht).
Qed.

End threads.

(** Two specifications followed by the same events, together. *)
Lemma spec_run_both {E Q1 Q2} (spec1 : Q1 -> nat * E -> Q1 -> Prop) (spec2 : Q2 -> nat * E -> Q2 -> Prop) q1 q2 es q1' q2' :
  spec_run spec1 q1 es q1' -> spec_run spec2 q2 es q2' ->
  spec_run (fun q e q' => spec1 q.1 e q'.1 /\ spec2 q.2 e q'.2) (q1, q2) es (q1', q2').
Proof.
  intros H. revert q2. induction H as [q|q e q1 es q' He H IH]; intros q2 H2; inversion H2; subst; [constructor|].
  econstructor; [|by apply IH]. by split.
Qed.

Arguments System {O PC} obj pcs.
Arguments obj {O PC}.
Arguments pcs {O PC}.

(** ** Runs without some events *)

(** The steps whose events are all [ok]. *)
Definition restrict {O PC A E} (ok : E -> bool) (tstep : A -> O -> PC -> option (list E * O * PC)) (a : A) (o : O) (pc : PC) :
    option (list E * O * PC) :=
  r ← tstep a o pc;
  if forallb ok r.1.1 then Some r else None.

Lemma run_restrict {O PC A E} (ok : E -> bool) (tstep : A -> O -> PC -> option (list E * O * PC)) s sch es s' :
  run_schedule tstep s sch = Some (es, s') -> forallb (fun e => ok e.2) es = true ->
  run_schedule (restrict ok tstep) s sch = Some (es, s').
Proof.
  revert s es. induction sch as [|[t a] sch IH]; intros s es; [done|]. cbn [run_schedule]. unfold sched_step.
  destruct (pcs s !! t) as [pc|]; [|done]. unfold restrict at 1. destruct (tstep a (obj s) pc) as [[[es0 o] pc']|]; [|done]. cbn [mbind option_bind fst].
  destruct (run_schedule tstep _ sch) as [[es2 s2]|] eqn:E2; [|done]. intros [= <- <-]. rewrite forallb_app. intros [H1 H2]%andb_true_iff.
  assert (forallb ok es0 = true) as -> by (clear -H1; induction es0 as [|e es0 IHe]; cbn in *; [done|]; by destruct (ok e); [apply IHe|]). by rewrite (IH _ _ E2 H2).
Qed.

(** ** What names a thread *)

Lemma map_insert_same {PC B} (f : PC -> B) l i x y : l !! i = Some x -> f y = f x -> map f (<[i := y]> l) = map f l.
Proof.
  intros H E. change (f <$> <[i := y]> l = f <$> l). rewrite list_fmap_insert. apply list_insert_id.
  by rewrite list_lookup_fmap, H, E.
Qed.

Lemma map_nodup_differ {PC B} (f : PC -> B) l i j x y :
  NoDup (map f l) -> l !! i = Some x -> l !! j = Some y -> j <> i -> f y <> f x.
Proof.
  intros Hnd Hi Hj Hne E. apply Hne. change (map f l) with (f <$> l) in Hnd.
  apply (NoDup_lookup (f <$> l) j i (f y)); [done| |]; rewrite list_lookup_fmap; [by rewrite Hj|rewrite Hi; cbn; by rewrite E].
Qed.

Lemma map_lookup_elem {PC B} (f : PC -> B) l i x : l !! i = Some x -> f x ∈ map f l.
Proof. intros H. apply list_elem_of_fmap. exists x. split; [done|]. by eapply list_elem_of_lookup_2. Qed.

(** ** Counting threads *)
Fixpoint countb {PC} (P : PC -> bool) (l : list PC) : Z :=
  match l with [] => 0 | x :: l => Z.b2z (P x) + countb P l end.

Lemma countb_range {PC} (P : PC -> bool) l : 0 <= countb P l <= Z.of_nat (length l).
Proof. induction l as [|x l IH]; cbn [countb length]; [lia|]. destruct (P x); cbn; lia. Qed.

Lemma countb_insert {PC} (P : PC -> bool) l t x y :
  l !! t = Some x -> countb P (<[t := y]> l) = countb P l - Z.b2z (P x) + Z.b2z (P y).
Proof.
  revert t; induction l as [|z l IH]; intros [|t] H; cbn in H; simplify_eq; [cbn; lia|].
  change (<[S t:=y]> (z :: l)) with (z :: <[t:=y]> l). cbn [countb]. rewrite (IH t H). lia.
Qed.

Lemma countb_replicate {PC} (P : PC -> bool) n x : P x = false -> countb P (replicate n x) = 0.
Proof. intros H. induction n as [|n IH]; [done|]. cbn. by rewrite H, IH. Qed.

Lemma countb_pos {PC} (P : PC -> bool) l t x : l !! t = Some x -> P x = true -> 1 <= countb P l.
Proof.
  revert t; induction l as [|z l IH]; intros [|t] H HP; cbn in H; simplify_eq; cbn.
  - rewrite HP. pose proof (countb_range P l). cbn. lia.
  - specialize (IH t H HP). destruct (P z); cbn; lia.
Qed.

Lemma countb_exists {PC} (P : PC -> bool) l : 0 < countb P l -> exists t x, l !! t = Some x /\ P x = true.
Proof.
  induction l as [|z l IH]; cbn; [lia|]. destruct (P z) eqn:E; cbn; intros H.
  - by exists 0%nat, z.
  - destruct IH as (t & x & Ht & Hx); [lia|]. by exists (S t), x.
Qed.

(** A class of threads that counts at most one has at most one member. *)
Lemma countb_unique {PC} (P : PC -> bool) l t1 t2 x1 x2 :
  countb P l <= 1 -> l !! t1 = Some x1 -> l !! t2 = Some x2 -> P x1 = true -> P x2 = true -> t1 = t2.
Proof.
  intros Hc H1 H2 P1 P2. destruct (decide (t1 = t2)) as [|Hne]; [done|exfalso].
  revert t1 t2 Hc H1 H2 Hne. induction l as [|z l IH]; intros [|t1] [|t2] Hc H1 H2 Hne; cbn in H1, H2, Hc;
    simplify_eq.
  - pose proof (countb_pos P l t2 x2 H2 P2). rewrite P1 in Hc. cbn in Hc. lia.
  - pose proof (countb_pos P l t1 x1 H1 P1). rewrite P2 in Hc. cbn in Hc. lia.
  - apply (IH t1 t2); try done; [|congruence]. destruct (P z); cbn in Hc; lia.
Qed.

(** What every thread satisfies, after one of them moved. *)
Lemma threads_insert {PC} (I : nat -> PC -> Prop) (l : list PC) t y :
  (forall t' x, l !! t' = Some x -> t' <> t -> I t' x) -> I t y ->
  forall t' x, <[t := y]> l !! t' = Some x -> I t' x.
Proof.
  intros Hl Hy t' x. rewrite list_lookup_insert_Some. intros [(-> & -> & _)|(Hne & H)]; [done|].
  apply Hl; [done|]. intros ->. done.
Qed.
