(* ===== verification/CellSync.v ===== *)
(** * cellSync: what the four objects share

    Error codes and pointer checks of [ps3fw/cellSync.cpp].  The objects are
    in CellMutex, CellBarrier, CellRwm and CellQueue; each models the atomic
    operations of [include/rpcsx/fw/ps3/cellSync.h] on its control word and the
    calls as threads over it (Threads).  The lock-free queue of the second half
    of the file is not modelled. *)
From S2P Require Import Prelude.

Definition CELL_OK : Z := 0.
Definition CELL_SYNC_ERROR_INVAL : Z := 0x80410102.
Definition CELL_SYNC_ERROR_BUSY : Z := 0x8041010A.
Definition CELL_SYNC_ERROR_ABORT : Z := 0x8041010C.
Definition CELL_SYNC_ERROR_ALIGN : Z := 0x80410110.
Definition CELL_SYNC_ERROR_NULL_POINTER : Z := 0x80410111.

(** The pointer checks every call starts with: [!p], then [!p.aligned()]. *)
Definition check_pointer (p align : Z) : option Z :=
  if p =? 0 then Some CELL_SYNC_ERROR_NULL_POINTER
  else if negb (p mod align =? 0) then Some CELL_SYNC_ERROR_ALIGN
  else None.

(** The calls with a second pointer test both for null first. *)
Definition check_pointers (p buffer align : Z) : option Z :=
  if (p =? 0) || (buffer =? 0) then Some CELL_SYNC_ERROR_NULL_POINTER
  else if negb (p mod align =? 0) then Some CELL_SYNC_ERROR_ALIGN
  else None.

Lemma check_pointer_ok p align : p <> 0 -> p mod align = 0 -> check_pointer p align = None.
Proof. unfold check_pointer. intros H ->. by rewrite (proj2 (Z.eqb_neq p 0) H). Qed.

Lemma check_pointer_error p align e :
  check_pointer p align = Some e -> e = CELL_SYNC_ERROR_NULL_POINTER \/ e = CELL_SYNC_ERROR_ALIGN.
Proof. unfold check_pointer. intros. repeat case_match; naive_solver. Qed.

Lemma check_pointers_error p b align e :
  check_pointers p b align = Some e -> e = CELL_SYNC_ERROR_NULL_POINTER \/ e = CELL_SYNC_ERROR_ALIGN.
Proof. unfold check_pointers. intros. repeat case_match; naive_solver. Qed.
