(* ===== verification/CellMutex.v ===== *)
(** * CellSyncMutex: a ticket lock

    The control word has two 16-bit counters: [acq] hands out tickets and
    [rel] names the ticket that may enter.  Theorems: the calls refine a fair
    queue lock, and a waiting thread whose turn it is gets in. *)
From S2P Require Import Prelude Threads CellSync.

(** ** The control word *)

Record Counter := MkCounter { rel : Z; acq : Z }.

Definition lock_begin (c : Counter) : Z * Counter := (acq c, MkCounter (rel c) (u16 (acq c + 1))).

Definition try_lock (c : Counter) : bool * Counter :=
  if negb (rel c =? acq c) then (false, c) else (true, MkCounter (rel c) (u16 (acq c + 1))).

Definition unlock (c : Counter) : Counter := MkCounter (u16 (rel c + 1)) (acq c).

(** ** The calls

    A thread that entered [cellSyncMutexLock] holds a ticket and polls; one
    that finds itself stopped returns without the lock.  The events tell what
    became of the caller; [MReturn] is a call that had no effect. *)
Inductive mutex_pc :=
| MIdle
| MWaiting (order : Z)
| MHolding
| MStopped (order : Z).

#[global] Instance mutex_pc_eq_dec : EqDecision mutex_pc.
Proof. solve_decision. Defined.

Inductive mutex_event :=
| MTicket
| MAcquired
| MReleased
| MReturn (code : Z).

Definition cellSyncMutexInitialize (mutex : Z) (c : Counter) : Z * Counter :=
  match check_pointer mutex 4 with
  | Some e => (e, c)
  | None => (CELL_OK, MkCounter 0 0)
  end.

Definition cellSyncMutexLock (mutex : Z) (c : Counter) : list mutex_event * Counter * mutex_pc :=
  match check_pointer mutex 4 with
  | Some e => ([MReturn e], c, MIdle)
  | None => let '(order, c) := lock_begin c in ([MTicket], c, MWaiting order)
  end.

(** One round of the waiting loop; [stopped] is what [test_stopped] answers. *)
Definition cellSyncMutexLock_poll (order : Z) (stopped : bool) (c : Counter) :
    list mutex_event * Counter * mutex_pc :=
  if negb (rel c =? order) then
    if stopped then ([MReturn 0], c, MStopped order) else ([], c, MWaiting order)
  else ([MAcquired], c, MHolding).

Definition cellSyncMutexTryLock (mutex : Z) (c : Counter) : list mutex_event * Counter * mutex_pc :=
  match check_pointer mutex 4 with
  | Some e => ([MReturn e], c, MIdle)
  | None =>
      let '(ok, c) := try_lock c in
      if negb ok then ([MReturn CELL_SYNC_ERROR_BUSY], c, MIdle)
      else ([MTicket; MAcquired], c, MHolding)
  end.

Definition cellSyncMutexUnlock (mutex : Z) (c : Counter) : list mutex_event * Counter * mutex_pc :=
  match check_pointer mutex 4 with
  | Some e => ([MReturn e], c, MHolding)
  | None => ([MReleased], unlock c, MIdle)
  end.

(** A thread locks when it does not hold the mutex and unlocks when it does. *)
Inductive mutex_action := MLock | MTryLock | MUnlock | MPoll (stopped : bool).

Definition mutex_tstep (mutex : Z) (a : mutex_action) (c : Counter) (pc : mutex_pc) :
    option (list mutex_event * Counter * mutex_pc) :=
  match pc, a with
  | MIdle, MLock => Some (cellSyncMutexLock mutex c)
  | MIdle, MTryLock => Some (cellSyncMutexTryLock mutex c)
  | MWaiting order, MPoll stopped => Some (cellSyncMutexLock_poll order stopped c)
  | MHolding, MUnlock => Some (cellSyncMutexUnlock mutex c)
  | _, _ => None
  end.

(** [n] threads on a mutex that was just initialised. *)
Definition mutex_initial (n : nat) : system := System (MkCounter 0 0) (replicate n MIdle).

Definition mutex_run (mutex : Z) (n : nat) := run_schedule (mutex_tstep mutex) (mutex_initial n).

(** ** The abstract object: a queue lock

    The queue holds the threads in the order of their tickets; only its head
    may acquire and only its head, once it has acquired, releases. *)
Record queue_lock := QueueLock { waiting : list nat; held : bool }.

Inductive lock_spec : queue_lock -> nat * mutex_event -> queue_lock -> Prop :=
| spec_ticket q h t : t ∉ q -> lock_spec (QueueLock q h) (t, MTicket) (QueueLock (q ++ [t]) h)
| spec_acquired t q : lock_spec (QueueLock (t :: q) false) (t, MAcquired) (QueueLock (t :: q) true)
| spec_released t q : lock_spec (QueueLock (t :: q) true) (t, MReleased) (QueueLock q false)
| spec_return q h t code : lock_spec (QueueLock q h) (t, MReturn code) (QueueLock q h).

(** ** The simulation *)

(** The thread at place [i] of the queue has ticket [rel + i]. *)
Definition ticket_pc (c : Counter) (h : bool) (i : nat) (pc : mutex_pc) : Prop :=
  match pc with
  | MIdle => False
  | MWaiting order => order = u16 (rel c + Z.of_nat i) /\ (h = true -> i <> 0%nat)
  | MStopped order => order = u16 (rel c + Z.of_nat i) /\ (h = true -> i <> 0%nat)
  | MHolding => i = 0%nat /\ h = true
  end.

Record mutex_rel (s : system) (q : queue_lock) : Prop := MutexRel {
  mr_nodup : NoDup (waiting q);
  mr_rel : is_word 16 (rel (obj s));
  mr_acq : acq (obj s) = u16 (rel (obj s) + Z.of_nat (length (waiting q)));
  mr_threads : forall t, t ∈ waiting q -> (t < length (pcs s))%nat;
  mr_idle : forall t, pcs s !! t = Some MIdle -> t ∉ waiting q;
  mr_pc : forall t pc, pcs s !! t = Some pc -> pc <> MIdle ->
    exists i, waiting q !! i = Some t /\ ticket_pc (obj s) (held q) i pc;
  mr_held : held q = true -> exists t, waiting q !! 0%nat = Some t /\ pcs s !! t = Some MHolding }.

Lemma mutex_rel_initial n : mutex_rel (mutex_initial n) (QueueLock [] false).
Proof.
  split; cbn; try done; try set_solver; [constructor|].
  intros t pc [<- _]%lookup_replicate Hne. done.
Qed.

(** The queue is never longer than the number of threads. *)
Lemma mutex_rel_bound s q : mutex_rel s q -> (length (waiting q) <= length (pcs s))%nat.
Proof.
  intros H. rewrite <- (length_seq (length (pcs s)) 0).
  apply submseteq_length, NoDup_submseteq; [apply H|].
  intros t Ht. apply elem_of_seq. pose proof (mr_threads _ _ H t Ht). lia.
Qed.

Lemma u16_offset r i : is_word 16 r -> Z.of_nat i < 65536 -> u16 (r + Z.of_nat i) = r -> i = 0%nat.
Proof. unfold u16, wrap, is_word. intros Hr Hi H. pow2_const. Z.div_mod_to_equations. lia. Qed.

Lemma u16_succ r i : u16 (u16 (r + 1) + Z.of_nat i) = u16 (r + Z.of_nat (S i)).
Proof. unfold u16, wrap. rewrite Zplus_mod_idemp_l. f_equal. lia. Qed.

(** Reflexive steps: neither the mutex nor the queue changes and the thread
    keeps its ticket. *)
Lemma mutex_rel_keep s q t pc pc' :
  mutex_rel s q -> pcs s !! t = Some pc -> pc <> MHolding ->
  (pc' = MIdle -> pc = MIdle) -> (pc = MIdle -> pc' = MIdle) ->
  (forall i, ticket_pc (obj s) (held q) i pc -> ticket_pc (obj s) (held q) i pc') ->
  mutex_rel (System (obj s) (<[t := pc']> (pcs s))) q.
Proof.
  intros H Ht Hh Hi Hi' Hp. destruct H as [H1 H2 H3 H4 H5 H6 H7]. split; cbn; try done.
  - rewrite length_insert. done.
  - intros t'. rewrite list_lookup_insert_Some. intros [(<- & -> & _)|(_ & E)]; [|eauto].
    apply H5. rewrite Ht. f_equal. auto.
  - apply (threads_insert (fun t' pc => pc <> MIdle -> exists i, waiting q !! i = Some t' /\ _)).
    + intros t' x E _ Hne. by apply H6.
    + intros Hne. destruct (H6 t pc Ht) as (i & Hi1 & Hi2); [naive_solver|]. exists i. eauto.
  - intros E. destruct (H7 E) as (t0 & E1 & E2). exists t0. split; [done|].
    rewrite list_lookup_insert_ne; [done|]. intros ->. congruence.
Qed.

(** Taking a ticket appends to the queue. *)
Lemma mutex_rel_ticket s q t pc :
  mutex_rel s q -> pcs s !! t = Some MIdle ->
  pc = MWaiting (acq (obj s)) /\ (held q = true -> waiting q <> []) ->
  mutex_rel (System (lock_begin (obj s)).2 (<[t := pc]> (pcs s))) (QueueLock (waiting q ++ [t]) (held q)).
Proof.
  intros H Ht [-> Hh]. pose proof (mr_idle _ _ H t Ht) as Hnt. destruct H as [H1 H2 H3 H4 H5 H6 H7].
  split; cbn in *; try done.
  - apply NoDup_app. split; [done|]. split; [intros x Hx Hx2; apply Hnt; set_solver|apply NoDup_singleton].
  - rewrite length_app. cbn. rewrite H3. unfold u16, wrap. rewrite Zplus_mod_idemp_l. f_equal. lia.
  - intros t' [E|E%list_elem_of_singleton]%elem_of_app; rewrite length_insert; [by apply H4|].
    subst t'. by eapply lookup_lt_Some.
  - intros t'. rewrite list_lookup_insert_Some. intros [(_ & E & _)|(Hne & E)]; [done|].
    apply H5 in E. set_solver.
  - apply (threads_insert (fun t' pc => pc <> MIdle -> exists i, (waiting q ++ [t]) !! i = Some t' /\ _)).
    + intros t' x E _ Hne. destruct (H6 t' x E Hne) as (i & Hi & Hx). exists i. split; [|done].
      by apply lookup_app_l_Some.
    + intros _. exists (length (waiting q)). rewrite lookup_app_r, Nat.sub_diag by lia. split; [done|].
      cbn. rewrite H3. split; [done|]. intros E. specialize (Hh E). by destruct (waiting q).
  - intros E. destruct (H7 E) as (t0 & E1 & E2). exists t0. split.
    + by apply lookup_app_l_Some.
    + rewrite list_lookup_insert_ne; [done|]. intros ->. congruence.
Qed.

(** The head of an unheld queue may enter. *)
Lemma mutex_rel_acquire s q t order :
  mutex_rel s (QueueLock (t :: q) false) -> pcs s !! t = Some (MWaiting order) ->
  mutex_rel (System (obj s) (<[t := MHolding]> (pcs s))) (QueueLock (t :: q) true).
Proof.
  intros H Ht. destruct H as [H1 H2 H3 H4 H5 H6 H7]. cbn in *. split; cbn; try done.
  - rewrite length_insert. done.
  - intros t'. rewrite list_lookup_insert_Some. intros [(_ & E & _)|(Hne & E)]; [done|]. by apply H5.
  - apply (threads_insert (fun t' pc => pc <> MIdle -> exists i, (t :: q) !! i = Some t' /\ _)).
    + intros t' x E Hne Hx. destruct (H6 t' x E Hx) as (i & Hi & Hp). exists i. split; [done|].
      destruct x; cbn in *; naive_solver.
    + intros _. by exists 0%nat.
  - intros _. exists t. split; [done|]. apply list_lookup_insert_eq. by eapply lookup_lt_Some.
Qed.

(** Releasing removes the head: every other ticket is one step closer. *)
Lemma mutex_rel_release s q t :
  mutex_rel s q -> pcs s !! t = Some MHolding ->
  exists q', q = QueueLock (t :: q') true /\
    mutex_rel (System (unlock (obj s)) (<[t := MIdle]> (pcs s))) (QueueLock q' false).
Proof.
  intros H Ht. destruct (mr_pc _ _ H t _ Ht ltac:(done)) as (i & Hi & -> & Hh).
  destruct q as [w h]. cbn in *. subst h. destruct w as [|t0 w]; [done|]. cbn in Hi. simplify_eq.
  exists w. split; [done|]. destruct H as [H1 H2 H3 H4 H5 H6 H7]. cbn in *.
  apply NoDup_cons in H1 as [Hnt H1]. split; cbn; try done.
  - apply wrap_range. lia.
  - rewrite u16_succ. exact H3.
  - intros t' E. rewrite length_insert. apply H4. set_solver.
  - intros t'. rewrite list_lookup_insert_Some. intros [(<- & _)|(Hne & E)]; [done|].
    apply H5 in E. set_solver.
  - apply (threads_insert (fun t' pc => pc <> MIdle -> exists i, w !! i = Some t' /\ _)); [|done].
    intros t' x E Hne Hx. destruct (H6 t' x E Hx) as (i & Hi & Hp).
    destruct i as [|i]; [cbn in Hi; congruence|]. exists i. split; [done|].
    destruct x; cbn in *; try rewrite u16_succ; naive_solver.
Qed.

(** ** Refinement *)

Lemma spec_lock_return q t code : lock_spec q (t, MReturn code) q.
Proof. destruct q. constructor. Qed.
#[local] Hint Resolve spec_lock_return : core.
#[local] Hint Constructors lock_spec spec_run : core.

(** The thread whose ticket is called is the head of an unheld queue. *)
Lemma mutex_rel_turn s q t order :
  mutex_rel s q -> Z.of_nat (length (pcs s)) < 65536 ->
  pcs s !! t = Some (MWaiting order) -> rel (obj s) = order ->
  exists q', q = QueueLock (t :: q') false.
Proof.
  intros H Hn Ht <-. destruct (mr_pc _ _ H t _ Ht ltac:(done)) as (i & Hi & Ho & Hh).
  pose proof (mutex_rel_bound _ _ H). pose proof (lookup_lt_Some _ _ _ Hi).
  assert (i = 0%nat) as -> by (apply (u16_offset (rel (obj s))); [apply H|lia|done]).
  destruct q as [[|t0 w] [|]]; cbn in *; simplify_eq; [naive_solver|eauto].
Qed.

(** [try_lock] succeeds only on an empty queue. *)
Lemma mutex_rel_free s q :
  mutex_rel s q -> Z.of_nat (length (pcs s)) < 65536 -> rel (obj s) = acq (obj s) -> q = QueueLock [] false.
Proof.
  intros H Hn E. rewrite (mr_acq _ _ H) in E. symmetry in E.
  pose proof (mutex_rel_bound _ _ H).
  assert (length (waiting q) = 0%nat) by (apply (u16_offset (rel (obj s))); [apply H|lia|done]).
  destruct q as [[|t w] [|]]; cbn in *; try done.
  destruct (mr_held _ _ H eq_refl) as (? & ? & _). done.
Qed.

Lemma mutex_rel_id s q t pc : mutex_rel s q -> pcs s !! t = Some pc ->
  mutex_rel (System (obj s) (<[t := pc]> (pcs s))) q.
Proof. intros H Ht. rewrite list_insert_id by done. by destruct s. Qed.

Lemma mutex_simulation mutex s q t a es s' :
  mutex_rel s q /\ Z.of_nat (length (pcs s)) < 65536 -> sched_step (mutex_tstep mutex) s t a = Some (es, s') ->
  exists q', spec_run lock_spec q es q' /\ mutex_rel s' q' /\ Z.of_nat (length (pcs s')) < 65536.
Proof.
  intros [H Hn] (pc & es0 & o & pc' & Ht & Hs & -> & ->)%sched_step_inv. cbn [obj pcs].
  rewrite length_insert. cut (exists q', spec_run lock_spec q (map (λ e, (t, e)) es0) q' /\
    mutex_rel (System o (<[t:=pc']> (pcs s))) q'); [naive_solver|].
  destruct pc, a; cbn in Hs; try done; injection Hs as Hs.
  - unfold cellSyncMutexLock in Hs. destruct (check_pointer mutex 4); simplify_eq/=.
    + exists q. split; [by apply spec_run_one|by apply mutex_rel_id].
    + exists (QueueLock (waiting q ++ [t]) (held q)). split.
      * apply spec_run_one. destruct q. constructor. by apply (mr_idle _ _ H).
      * apply (mutex_rel_ticket s q t); [done..|]. split; [done|]. intros Hh Hw.
        destruct (mr_held _ _ H Hh) as (? & E & _). by rewrite Hw in E.
  - unfold cellSyncMutexTryLock, try_lock in Hs. destruct (check_pointer mutex 4); simplify_eq/=.
    + exists q. split; [by apply spec_run_one|by apply mutex_rel_id].
    + destruct (Z.eqb_spec (rel (obj s)) (acq (obj s))) as [E|E]; simplify_eq/=.
      * pose proof (mutex_rel_free s q H Hn E) as ->. exists (QueueLock [t] true). split.
        { econstructor; [constructor; by apply (mr_idle _ _ H)|]. apply spec_run_one. constructor. }
        pose proof (mutex_rel_ticket s _ t _ H Ht ltac:(done)) as H1. cbn in H1.
        apply (mutex_rel_acquire _ [] t (acq (obj s))) in H1; cbn in *.
        -- by rewrite list_insert_insert_eq in H1.
        -- apply list_lookup_insert_eq. by eapply lookup_lt_Some.
      * exists q. split; [by apply spec_run_one|by apply mutex_rel_id].
  - unfold cellSyncMutexLock_poll in Hs.
    destruct (Z.eqb_spec (rel (obj s)) order) as [E|E]; simplify_eq/=.
    + destruct (mutex_rel_turn _ _ _ _ H Hn Ht eq_refl) as (q' & ->). exists (QueueLock (t :: q') true).
      split; [apply spec_run_one; constructor|by eapply mutex_rel_acquire].
    + destruct stopped; simplify_eq/=; exists q.
      * split; [by apply spec_run_one|]. by eapply mutex_rel_keep.
      * split; [constructor|by apply mutex_rel_id].
  - unfold cellSyncMutexUnlock in Hs. destruct (check_pointer mutex 4); simplify_eq/=.
    + exists q. split; [by apply spec_run_one|by apply mutex_rel_id].
    + destruct (mutex_rel_release _ _ _ H Ht) as (q' & -> & HR). exists (QueueLock q' false).
      split; [apply spec_run_one; constructor|done].
Qed.

Lemma mutex_run_rel mutex n sch es s :
  Z.of_nat n < 65536 -> mutex_run mutex n sch = Some (es, s) ->
  exists q, spec_run lock_spec (QueueLock [] false) es q /\ mutex_rel s q /\ Z.of_nat (length (pcs s)) < 65536.
Proof.
  intros Hn H. eapply (run_refines _ lock_spec
    (fun s q => mutex_rel s q /\ Z.of_nat (length (pcs s)) < 65536)); [apply mutex_simulation| |exact H].
  split; [apply mutex_rel_initial|]. cbn. by rewrite length_replicate.
Qed.

(** C5: under every interleaving of at most 65535 threads on an initialised
    mutex, the calls behave as a fair queue lock: tickets queue up in order,
    only the head of the queue acquires, only the holder releases, and no two
    threads ever hold the mutex. *)
Theorem mutex_refines_queue_lock mutex n sch es s :
  Z.of_nat n < 65536 -> mutex_run mutex n sch = Some (es, s) ->
  (exists q, spec_run lock_spec (QueueLock [] false) es q) /\
  (forall t1 t2, pcs s !! t1 = Some MHolding -> pcs s !! t2 = Some MHolding -> t1 = t2).
Proof.
  intros Hn H. destruct (mutex_run_rel _ _ _ _ _ Hn H) as (q & Hq & HR & _). split; [eauto|].
  intros t1 t2 H1 H2.
  destruct (mr_pc _ _ HR _ _ H1 ltac:(done)) as (? & E1 & -> & _).
  destruct (mr_pc _ _ HR _ _ H2 ltac:(done)) as (? & E2 & -> & _). congruence.
Qed.

(** C19: as long as no thread was stopped while it waited, a mutex that nobody
    holds is never stuck: some waiting thread enters at its next poll, and
    when nobody waits TryLock succeeds. *)
Theorem mutex_progress mutex n sch es s :
  mutex <> 0 -> mutex mod 4 = 0 -> Z.of_nat n < 65536 -> mutex_run mutex n sch = Some (es, s) ->
  (forall t, pcs s !! t <> Some MHolding) -> (forall t order, pcs s !! t <> Some (MStopped order)) ->
  (exists t order, pcs s !! t = Some (MWaiting order) /\ forall stopped,
     cellSyncMutexLock_poll order stopped (obj s) = ([MAcquired], obj s, MHolding)) \/
  (forall t pc, pcs s !! t = Some pc -> pc = MIdle /\
     cellSyncMutexTryLock mutex (obj s) = ([MTicket; MAcquired], (lock_begin (obj s)).2, MHolding)).
Proof.
  intros Hp Ha Hn H Hh Hst. destruct (mutex_run_rel _ _ _ _ _ Hn H) as (q & _ & HR & _).
  destruct q as [[|t w] h]; cbn in *.
  - right. intros t pc Ht. split.
    + destruct (decide (pc = MIdle)) as [|Hne]; [done|].
      destruct (mr_pc _ _ HR _ _ Ht Hne) as (i & Hi & _). done.
    + unfold cellSyncMutexTryLock, try_lock. rewrite check_pointer_ok by done.
      rewrite (mr_acq _ _ HR). cbn [waiting length]. change (Z.of_nat 0) with 0.
      rewrite Z.add_0_r, wrap_small by apply HR.
      by rewrite Z.eqb_refl.
  - left. exists t.
    destruct (lookup_lt_is_Some_2 (pcs s) t) as [pc Ht]; [by apply (mr_threads _ _ HR); left|].
    assert (pc <> MIdle) as Hne by (intros ->; apply (mr_idle _ _ HR t Ht); cbn; left).
    destruct (mr_pc _ _ HR _ _ Ht Hne) as (i & Hi & Hpc).
    assert (i = 0%nat) as ->.
    { apply (NoDup_lookup (t :: w) i 0 t); [apply HR|done|done]. }
    destruct pc as [|order| |order]; try done; try by destruct (Hh t); try by destruct (Hst t order).
    exists order. split; [done|]. intros stopped. unfold cellSyncMutexLock_poll.
    destruct Hpc as [-> _]. change (Z.of_nat 0) with 0.
    rewrite Z.add_0_r, wrap_small by apply HR.
    by rewrite Z.eqb_refl.
Qed.

(** Three threads: 0 locks, 1 and 2 queue behind it, 2 before 1; 0 unlocks and
    2 enters. *)
Definition mutex_demo : list (nat * mutex_action) :=
  [(0%nat, MLock); (2%nat, MLock); (0%nat, MPoll false); (1%nat, MLock); (1%nat, MPoll false);
   (0%nat, MUnlock); (1%nat, MPoll false); (2%nat, MPoll false)].

Lemma mutex_refines_queue_lock_witness :
  exists es s, mutex_run 0x1000 3 mutex_demo = Some (es, s) /\
    pcs s = [MIdle; MWaiting 2; MHolding] /\
    (exists q, spec_run lock_spec (QueueLock [] false) es q) /\
    (forall t1 t2, pcs s !! t1 = Some MHolding -> pcs s !! t2 = Some MHolding -> t1 = t2).
Proof.
  destruct (mutex_run 0x1000 3 mutex_demo) as [[es s]|] eqn:E; [|discriminate].
  exists es, s. split; [done|]. split; [vm_compute in E; by injection E as <- <-|].
  exact (mutex_refines_queue_lock 0x1000 3 mutex_demo es s eq_refl E).
Defined.

Lemma mutex_progress_witness :
  let s := System (MkCounter 1 3) [MIdle; MWaiting 2; MWaiting 1] in
  (exists t order, pcs s !! t = Some (MWaiting order) /\ forall stopped,
     cellSyncMutexLock_poll order stopped (obj s) = ([MAcquired], obj s, MHolding)) \/
  (forall t pc, pcs s !! t = Some pc -> pc = MIdle /\ cellSyncMutexTryLock 0x1000 (obj s) = ([MTicket; MAcquired], (lock_begin (obj s)).2, MHolding)).
Proof.
  assert (exists es, mutex_run 0x1000 3 (take 7 mutex_demo) =
            Some (es, System (MkCounter 1 3) [MIdle; MWaiting 2; MWaiting 1])) as [es E]
    by (eexists; vm_compute; reflexivity).
  apply (mutex_progress 0x1000 3 (take 7 mutex_demo) es); try done.
  - intros [|[|[|t]]]; done.
  - intros [|[|[|t]]] order; done.
Defined.
