(* ===== verification/CellBarrier.v ===== *)
(** * CellSyncBarrier

    The control word counts notifications up to the total, then sets its top
    bit and counts the waiters back down.  Theorem: under every interleaving
    the barrier alternates between collecting all notifications of a
    generation and releasing all its waiters. *)
From S2P Require Import Prelude Threads CellSync.

(** ** The control word: a signed 16-bit value and the total *)

Record barrier_ctrl := MkBarrier { value : Z; count : Z }.

Definition closed (v : Z) : bool := negb (Z.land (u16 v) 0x8000 =? 0).

Definition try_notify (c : barrier_ctrl) : bool * barrier_ctrl :=
  if closed (value c) then (false, c)
  else
    let v := s16 (value c + 1) in
    if v =? count c then (true, MkBarrier (s16 (Z.lor (u16 v) 0x8000)) (count c))
    else (true, MkBarrier v (count c)).

Definition try_wait (c : barrier_ctrl) : bool * barrier_ctrl :=
  if negb (closed (value c)) then (false, c)
  else
    let v := s16 (value c - 1) in
    if v =? - 0x8000 then (true, MkBarrier 0 (count c)) else (true, MkBarrier v (count c)).

(** ** The calls *)

(** A thread spins inside [cellSyncBarrierNotify] or [cellSyncBarrierWait]. *)
Inductive barrier_pc := BIdle | BNotifying | BWaiting.

Inductive barrier_event := BNotified | BWaited | BReturn (code : Z).

Definition cellSyncBarrierInitialize (barrier total_count : Z) (c : barrier_ctrl) : Z * barrier_ctrl :=
  match check_pointer barrier 4 with
  | Some e => (e, c)
  | None =>
      if (total_count =? 0) || (32767 <? total_count) then (CELL_SYNC_ERROR_INVAL, c)
      else (CELL_OK, MkBarrier 0 total_count)
  end.

(** The entry of the spinning calls. *)
Definition barrier_enter (barrier : Z) (c : barrier_ctrl) (pc : barrier_pc) :
    list barrier_event * barrier_ctrl * barrier_pc :=
  match check_pointer barrier 4 with
  | Some e => ([BReturn e], c, BIdle)
  | None => ([], c, pc)
  end.

(** One round of the loops; [stopped] is what [test_stopped] answers. *)
Definition cellSyncBarrierNotify_round (stopped : bool) (c : barrier_ctrl) :
    list barrier_event * barrier_ctrl * barrier_pc :=
  let '(ok, c) := try_notify c in
  if negb ok then if stopped then ([BReturn 0], c, BIdle) else ([], c, BNotifying)
  else ([BNotified], c, BIdle).

Definition cellSyncBarrierWait_round (stopped : bool) (c : barrier_ctrl) :
    list barrier_event * barrier_ctrl * barrier_pc :=
  let '(ok, c) := try_wait c in
  if negb ok then if stopped then ([BReturn 0], c, BIdle) else ([], c, BWaiting)
  else ([BWaited], c, BIdle).

Definition cellSyncBarrierTryNotify (barrier : Z) (c : barrier_ctrl) :
    list barrier_event * barrier_ctrl * barrier_pc :=
  match check_pointer barrier 4 with
  | Some e => ([BReturn e], c, BIdle)
  | None =>
      let '(ok, c) := try_notify c in
      if negb ok then ([BReturn CELL_SYNC_ERROR_BUSY], c, BIdle) else ([BNotified], c, BIdle)
  end.

Definition cellSyncBarrierTryWait (barrier : Z) (c : barrier_ctrl) :
    list barrier_event * barrier_ctrl * barrier_pc :=
  match check_pointer barrier 4 with
  | Some e => ([BReturn e], c, BIdle)
  | None =>
      let '(ok, c) := try_wait c in
      if negb ok then ([BReturn CELL_SYNC_ERROR_BUSY], c, BIdle) else ([BWaited], c, BIdle)
  end.

Inductive barrier_action :=
| ANotify | AWait | ATryNotify | ATryWait | ARound (stopped : bool).

Definition barrier_tstep (barrier : Z) (a : barrier_action) (c : barrier_ctrl) (pc : barrier_pc) :
    option (list barrier_event * barrier_ctrl * barrier_pc) :=
  match pc, a with
  | BIdle, ANotify => Some (barrier_enter barrier c BNotifying)
  | BIdle, AWait => Some (barrier_enter barrier c BWaiting)
  | BIdle, ATryNotify => Some (cellSyncBarrierTryNotify barrier c)
  | BIdle, ATryWait => Some (cellSyncBarrierTryWait barrier c)
  | BNotifying, ARound stopped => Some (cellSyncBarrierNotify_round stopped c)
  | BWaiting, ARound stopped => Some (cellSyncBarrierWait_round stopped c)
  | _, _ => None
  end.

Definition barrier_run (barrier : Z) (n : nat) (total : Z) :=
  run_schedule (barrier_tstep barrier) (System (MkBarrier 0 total) (replicate n BIdle)).

(** ** The abstract object

    [Collect k]: [k] of this generation's notifications are in.  [Release k]:
    all are in and [k] waiters are still to come. *)
Inductive generation := Collect (k : Z) | Release (k : Z).

Inductive barrier_spec (total : Z) : generation -> nat * barrier_event -> generation -> Prop :=
| spec_notify k t : 0 <= k -> k + 1 < total -> barrier_spec total (Collect k) (t, BNotified) (Collect (k + 1))
| spec_notify_last t : barrier_spec total (Collect (total - 1)) (t, BNotified) (Release total)
| spec_wait k t : 1 < k <= total -> barrier_spec total (Release k) (t, BWaited) (Release (k - 1))
| spec_wait_last t : barrier_spec total (Release 1) (t, BWaited) (Collect 0)
| spec_breturn g t code : barrier_spec total g (t, BReturn code) g.

Definition barrier_rel (total : Z) (c : barrier_ctrl) (g : generation) : Prop :=
  count c = total /\
  match g with
  | Collect k => 0 <= k < total /\ value c = k
  | Release k => 1 <= k <= total /\ value c = k - 0x8000
  end.

Lemma closed_spec v : - 0x8000 <= v < 0x8000 -> closed v = (v <? 0).
Proof.
  intros Hv. unfold closed. rewrite (land_pow2_test _ 15) by lia.
  rewrite Z.testbit_eqb by lia. word_unfold. destruct (Z.ltb_spec v 0);
    [apply Z.eqb_eq|apply Z.eqb_neq]; Z.div_mod_to_equations; lia.
Qed.

Lemma close_value k : 0 < k < 0x8000 -> s16 (Z.lor (u16 k) 0x8000) = k - 0x8000.
Proof.
  intros Hk. rewrite wrap_small by (unfold is_word; lia). rewrite Z.lor_comm.
  change 0x8000 with (1 * 2 ^ 15) at 1. rewrite lor_concat by (unfold is_word; lia). word_lia.
Qed.

Lemma try_notify_spec total c g t :
  total <= 32767 -> barrier_rel total c g ->
  match try_notify c with
  | (true, c') => exists g', barrier_spec total g (t, BNotified) g' /\ barrier_rel total c' g'
  | (false, c') => c' = c /\ exists k, g = Release k
  end.
Proof.
  intros Ht [Hc Hg]. unfold try_notify. destruct g as [k|k], Hg as [Hk Hv]; rewrite closed_spec by lia; rewrite Hv.
  - rewrite (proj2 (Z.ltb_ge k 0)) by lia. cbv zeta.
    rewrite sext_small by lia. rewrite Hc. destruct (Z.eqb_spec (k + 1) total) as [E|E].
    + exists (Release total). replace k with (total - 1) by lia. split; [constructor|].
      replace (total - 1 + 1) with total by lia. rewrite close_value by lia. unfold barrier_rel; cbn; lia.
    + exists (Collect (k + 1)). split; [constructor; lia|]. unfold barrier_rel; cbn; lia.
  - rewrite (proj2 (Z.ltb_lt (k - 0x8000) 0)) by lia. cbn. eauto.
Qed.

Lemma try_wait_spec total c g t :
  total <= 32767 -> barrier_rel total c g ->
  match try_wait c with
  | (true, c') => exists g', barrier_spec total g (t, BWaited) g' /\ barrier_rel total c' g'
  | (false, c') => c' = c /\ exists k, g = Collect k
  end.
Proof.
  intros Ht [Hc Hg]. unfold try_wait. destruct g as [k|k], Hg as [Hk Hv]; rewrite closed_spec by lia; rewrite Hv.
  - rewrite (proj2 (Z.ltb_ge k 0)) by lia. cbn. eauto.
  - rewrite (proj2 (Z.ltb_lt (k - 0x8000) 0)) by lia. cbv zeta. cbn [negb].
    rewrite sext_small by lia. destruct (Z.eqb_spec (k - 0x8000 - 1) (- 0x8000)) as [E|E].
    + exists (Collect 0). replace k with 1 by lia. split; [constructor|]. unfold barrier_rel; cbn; lia.
    + exists (Release (k - 1)). split; [constructor; lia|]. unfold barrier_rel; cbn; lia.
Qed.

Lemma barrier_simulation barrier total s g t a es s' :
  total <= 32767 -> barrier_rel total (obj s) g -> sched_step (barrier_tstep barrier) s t a = Some (es, s') ->
  exists g', spec_run (barrier_spec total) g es g' /\ barrier_rel total (obj s') g'.
Proof.
  intros Ht HR (pc & es0 & o & pc' & _ & Hs & -> & ->)%sched_step_inv. cbn [obj].
  pose proof (try_notify_spec total (obj s) g t Ht HR) as Hn.
  pose proof (try_wait_spec total (obj s) g t Ht HR) as Hw.
  destruct pc, a; cbn in Hs; try done; injection Hs as Hs;
    unfold barrier_enter, cellSyncBarrierTryNotify, cellSyncBarrierTryWait, cellSyncBarrierNotify_round,
      cellSyncBarrierWait_round in Hs;
    destruct (check_pointer barrier 4), (try_notify (obj s)) as [[|] cn], (try_wait (obj s)) as [[|] cw];
    try destruct stopped; cbn in Hs; simplify_eq; cbn;
    first [by eauto using spec_nil, spec_run_one, spec_breturn
          |destruct Hn as (g' & Hg & HR'); by eauto using spec_run_one
          |destruct Hw as (g' & Hg & HR'); by eauto using spec_run_one
          |destruct Hn as (-> & _); by eauto using spec_nil, spec_run_one, spec_breturn
          |destruct Hw as (-> & _); by eauto using spec_nil, spec_run_one, spec_breturn].
Qed.

Lemma barrier_run_rel barrier n total sch es s :
  1 <= total <= 32767 -> barrier_run barrier n total sch = Some (es, s) ->
  exists g, spec_run (barrier_spec total) (Collect 0) es g /\ barrier_rel total (obj s) g.
Proof.
  intros Ht H. eapply (run_refines _ (barrier_spec total) (fun s g => barrier_rel total (obj s) g)); [|split; cbn|exact H].
  - intros. eapply barrier_simulation; [|done..]. lia.
  - done.
  - split; [lia|done].
Qed.

(** What the abstract object counts: [notified] and [waited] so far. *)
Definition notified (es : list (nat * barrier_event)) : Z :=
  countb (fun e => match e.2 with BNotified => true | _ => false end) es.
Definition waited (es : list (nat * barrier_event)) : Z :=
  countb (fun e => match e.2 with BWaited => true | _ => false end) es.

Lemma barrier_counts total g es g' g0 :
  0 < total -> spec_run (barrier_spec total) g es g' ->
  let pos g := match g with Collect k => (k, 0) | Release k => (total, total - k) end in
  forall n w, n = g0 * total + (pos g).1 -> w = g0 * total + (pos g).2 ->
  exists g1, n + notified es = g1 * total + (pos g').1 /\ w + waited es = g1 * total + (pos g').2.
Proof.
  intros Ht Hr. cbv zeta. revert g0. induction Hr as [g|g e g1 es g2 Hstep _ IH]; intros g0 n w Hn Hw.
  - exists g0. cbn. lia.
  - cbn [notified waited countb]. unfold notified, waited in IH.
    destruct Hstep; cbn in *; rewrite ?Z.add_assoc.
    + apply (IH g0); lia.
    + apply (IH g0); lia.
    + apply (IH g0); lia.
    + apply (IH (g0 + 1)); lia.
    + apply (IH g0); lia.
Qed.

(** C20: under every interleaving of notifiers and waiters on a barrier with a
    valid total, each generation first collects all its notifications and then
    releases all its waiters: a waiter passes only when its generation is
    complete, and no notification of the next generation is accepted before
    the last waiter has left.  In every state exactly one of the two
    operations succeeds. *)
Theorem barrier_generations barrier n total sch es s :
  1 <= total <= 32767 -> barrier_run barrier n total sch = Some (es, s) ->
  (exists g, spec_run (barrier_spec total) (Collect 0) es g) /\
  waited es <= notified es / total * total /\ notified es <= waited es / total * total + total /\
  (try_notify (obj s)).1 = negb (try_wait (obj s)).1.
Proof.
  intros Ht H. destruct (barrier_run_rel _ _ _ _ _ _ Ht H) as (g & Hg & HR). split; [eauto|].
  destruct (barrier_counts total _ _ _ 0 ltac:(lia) Hg 0 0 eq_refl eq_refl) as (g1 & Hn & Hw).
  rewrite !Z.add_0_l in Hn, Hw. rewrite Hn, Hw. destruct HR as [Hc HR].
  assert (forall k, 0 <= k < total -> (g1 * total + k) / total = g1) as Hdiv.
  { intros k Hk. rewrite Z.add_comm, Z.div_add by lia. rewrite Z.div_small; lia. }
  destruct g as [k|k], HR as [Hk Hv]; cbn [fst snd].
  - rewrite !Hdiv by lia. split; [lia|]. split; [lia|]. unfold try_notify, try_wait.
    rewrite !closed_spec by lia. rewrite (proj2 (Z.ltb_ge (value (obj s)) 0)) by lia. by case_match.
  - rewrite (Hdiv (total - k)) by lia. replace (g1 * total + total) with ((g1 + 1) * total) by lia.
    rewrite Z.div_mul by lia. split; [lia|]. split; [lia|]. unfold try_notify, try_wait.
    rewrite !closed_spec by lia. rewrite (proj2 (Z.ltb_lt (value (obj s)) 0)) by lia. cbn. by case_match.
Qed.

(** Two threads meet twice; thread 1 tries to run ahead. *)
Definition barrier_demo : list (nat * barrier_action) :=
  [(0%nat, ANotify); (0%nat, ARound false); (1%nat, AWait); (1%nat, ARound false); (0%nat, ATryNotify);
   (1%nat, ARound false); (0%nat, ATryNotify); (0%nat, ATryWait); (0%nat, ATryNotify)].

Lemma barrier_generations_witness :
  exists es s, barrier_run 0x40 2 2 barrier_demo = Some (es, s) /\
    (notified es, waited es) = (3, 2) /\ es !! 3%nat = Some (0%nat, BReturn CELL_SYNC_ERROR_BUSY) /\
    (exists g, spec_run (barrier_spec 2) (Collect 0) es g) /\
    waited es <= notified es / 2 * 2 /\ notified es <= waited es / 2 * 2 + 2 /\
    (try_notify (obj s)).1 = negb (try_wait (obj s)).1.
Proof.
  destruct (barrier_run 0x40 2 2 barrier_demo) as [[es s]|] eqn:E; [|discriminate].
  exists es, s. split; [done|].
  split; [vm_compute in E; by injection E as <- <-|]. split; [vm_compute in E; by injection E as <- <-|].
  exact (barrier_generations 0x40 2 2 barrier_demo es s ltac:(lia) E).
Defined.
