(* ===== verification/CellRwm.v ===== *)
(** * CellSyncRwm: memory shared by readers and one writer

    The control word counts readers and has a writer flag; the calls copy the
    buffer byte by byte between their atomic operations.  Theorem: under every
    interleaving the object is an atomic register: a read returns exactly the
    last value written, never a mixture of two writes. *)
From S2P Require Import Prelude Threads CellSync.

(** ** The control word *)

Record rwm_ctrl := MkRwmCtrl { readers : Z; writers : Z }.

Definition try_read_begin (c : rwm_ctrl) : bool * rwm_ctrl :=
  if negb (writers c =? 0) then (false, c) else (true, MkRwmCtrl (u16 (readers c + 1)) (writers c)).

Definition try_read_end (c : rwm_ctrl) : bool * rwm_ctrl :=
  if readers c =? 0 then (false, c) else (true, MkRwmCtrl (u16 (readers c - 1)) (writers c)).

Definition try_write_begin (c : rwm_ctrl) : bool * rwm_ctrl :=
  if negb (writers c =? 0) then (false, c) else (true, MkRwmCtrl (readers c) 1).

(** [compare_and_swap_test({0, 0}, {0, 1})] of [cellSyncRwmTryWrite]. *)
Definition try_write_cas (c : rwm_ctrl) : bool * rwm_ctrl :=
  if (readers c =? 0) && (writers c =? 0) then (true, MkRwmCtrl 0 1) else (false, c).

(** The object with the [size] bytes at [buffer]. *)
Record rwm := MkRwm { rwm_word : rwm_ctrl; rwm_buffer : list Z }.

Definition with_word (o : rwm) (c : rwm_ctrl) : rwm := MkRwm c (rwm_buffer o).

(** ** The calls *)

Inductive rwm_pc :=
| RIdle
| RReadWait                          (* waits until [writers] is zero *)
| RReading (acc : list Z)            (* copies the data out *)
| RWriteWait (data : list Z)         (* waits until [writers] is zero *)
| RDrain (data : list Z)             (* waits until [readers] is zero *)
| RWriting (data : list Z) (i : nat) (* copies the data in *)
| RAbandoned.                        (* stopped while it drained: the flag stays set *)

Inductive rwm_event :=
| RRead (data : list Z)
| RWritten (data : list Z)
| RReturn (code : Z).

(** [Some (control word, size, buffer)] is stored when the arguments are good. *)
Definition cellSyncRwmInitialize (p buffer buffer_size : Z) : Z * option (rwm_ctrl * Z * Z) :=
  if (p =? 0) || (buffer =? 0) then (CELL_SYNC_ERROR_NULL_POINTER, None)
  else if negb (p mod 16 =? 0) || negb (buffer mod 128 =? 0) then (CELL_SYNC_ERROR_ALIGN, None)
  else if negb (buffer_size mod 128 =? 0) || (0x4000 <? buffer_size) then (CELL_SYNC_ERROR_INVAL, None)
  else (CELL_OK, Some (MkRwmCtrl 0 0, buffer_size, buffer)).

Definition rwm_enter (p buffer : Z) (o : rwm) (pc : rwm_pc) : list rwm_event * rwm * rwm_pc :=
  match check_pointers p buffer 16 with
  | Some e => ([RReturn e], o, RIdle)
  | None => ([], o, pc)
  end.

Definition cellSyncRwmRead_round (stopped : bool) (o : rwm) : list rwm_event * rwm * rwm_pc :=
  let '(ok, c) := try_read_begin (rwm_word o) in
  if negb ok then if stopped then ([RReturn 0], with_word o c, RIdle) else ([], with_word o c, RReadWait)
  else ([], with_word o c, RReading []).

Definition cellSyncRwmTryRead (p buffer : Z) (o : rwm) : list rwm_event * rwm * rwm_pc :=
  match check_pointers p buffer 16 with
  | Some e => ([RReturn e], o, RIdle)
  | None =>
      let '(ok, c) := try_read_begin (rwm_word o) in
      if negb ok then ([RReturn CELL_SYNC_ERROR_BUSY], with_word o c, RIdle)
      else ([], with_word o c, RReading [])
  end.

(** One byte of [memcpy], or [try_read_end] after the last one. *)
Definition rwm_read_copy (acc : list Z) (o : rwm) : list rwm_event * rwm * rwm_pc :=
  match rwm_buffer o !! length acc with
  | Some b => ([], o, RReading (acc ++ [b]))
  | None =>
      let '(ok, c) := try_read_end (rwm_word o) in
      if negb ok then ([RReturn CELL_SYNC_ERROR_ABORT], with_word o c, RIdle)
      else ([RRead acc], with_word o c, RIdle)
  end.

Definition cellSyncRwmWrite_round (stopped : bool) (data : list Z) (o : rwm) : list rwm_event * rwm * rwm_pc :=
  let '(ok, c) := try_write_begin (rwm_word o) in
  if negb ok then
    if stopped then ([RReturn 0], with_word o c, RIdle) else ([], with_word o c, RWriteWait data)
  else ([], with_word o c, RDrain data).

Definition cellSyncRwmWrite_drain (stopped : bool) (data : list Z) (o : rwm) : list rwm_event * rwm * rwm_pc :=
  if negb (readers (rwm_word o) =? 0) then
    if stopped then ([RReturn 0], o, RAbandoned) else ([], o, RDrain data)
  else ([], o, RWriting data 0).

Definition cellSyncRwmTryWrite (p buffer : Z) (data : list Z) (o : rwm) : list rwm_event * rwm * rwm_pc :=
  match check_pointers p buffer 16 with
  | Some e => ([RReturn e], o, RIdle)
  | None =>
      let '(ok, c) := try_write_cas (rwm_word o) in
      if negb ok then ([RReturn CELL_SYNC_ERROR_BUSY], with_word o c, RIdle)
      else ([], with_word o c, RWriting data 0)
  end.

(** One byte of [memcpy], or the final [exchange({0, 0})]. *)
Definition rwm_write_copy (data : list Z) (i : nat) (o : rwm) : list rwm_event * rwm * rwm_pc :=
  match data !! i with
  | Some b => ([], MkRwm (rwm_word o) (<[i := b]> (rwm_buffer o)), RWriting data (S i))
  | None => ([RWritten data], with_word o (MkRwmCtrl 0 0), RIdle)
  end.

Inductive rwm_action :=
| ARead (buffer : Z) | ATryRead (buffer : Z)
| AWrite (buffer : Z) (data : list Z) | ATryWrite (buffer : Z) (data : list Z)
| AContinue (stopped : bool).

(** The data of a write are the [size] bytes at the caller's buffer. *)
Definition rwm_tstep (p : Z) (a : rwm_action) (o : rwm) (pc : rwm_pc) :
    option (list rwm_event * rwm * rwm_pc) :=
  let sized data := Nat.eqb (length data) (length (rwm_buffer o)) in
  match pc, a with
  | RIdle, ARead buffer => Some (rwm_enter p buffer o RReadWait)
  | RIdle, ATryRead buffer => Some (cellSyncRwmTryRead p buffer o)
  | RIdle, AWrite buffer data => if sized data then Some (rwm_enter p buffer o (RWriteWait data)) else None
  | RIdle, ATryWrite buffer data => if sized data then Some (cellSyncRwmTryWrite p buffer data o) else None
  | RReadWait, AContinue stopped => Some (cellSyncRwmRead_round stopped o)
  | RReading acc, AContinue _ => Some (rwm_read_copy acc o)
  | RWriteWait data, AContinue stopped => Some (cellSyncRwmWrite_round stopped data o)
  | RDrain data, AContinue stopped => Some (cellSyncRwmWrite_drain stopped data o)
  | RWriting data i, AContinue _ => Some (rwm_write_copy data i o)
  | _, _ => None
  end.

Definition rwm_run (p : Z) (n : nat) (init : list Z) :=
  run_schedule (rwm_tstep p) (System (MkRwm (MkRwmCtrl 0 0) init) (replicate n RIdle)).

(** ** The abstract object: an atomic register *)

Inductive register_spec : list Z -> nat * rwm_event -> list Z -> Prop :=
| spec_read v t : register_spec v (t, RRead v) v
| spec_written v t data : length data = length v -> register_spec v (t, RWritten data) data
| spec_rreturn v t code : code <> CELL_SYNC_ERROR_ABORT -> register_spec v (t, RReturn code) v.

(** ** The simulation *)

Definition is_reading (pc : rwm_pc) : bool := match pc with RReading _ => true | _ => false end.
Definition is_writing (pc : rwm_pc) : bool := match pc with RWriting _ _ => true | _ => false end.
Definition is_writer (pc : rwm_pc) : bool :=
  match pc with RDrain _ | RWriting _ _ | RAbandoned => true | _ => false end.

(** What thread [t] knows about the buffer and the value [v]. *)
Definition rwm_pc_ok (o : rwm) (v : list Z) (pc : rwm_pc) : Prop :=
  match pc with
  | RReading acc => acc = take (length acc) v /\ (length acc <= length v)%nat
  | RWriteWait data | RDrain data => length data = length v
  | RWriting data i =>
      length data = length v /\ (i <= length v)%nat /\ take i (rwm_buffer o) = take i data /\
      readers (rwm_word o) = 0
  | _ => True
  end.

Record rwm_rel (s : system) (v : list Z) : Prop := RwmRel {
  rr_readers : readers (rwm_word (obj s)) = countb is_reading (pcs s);
  rr_writers : writers (rwm_word (obj s)) = countb is_writer (pcs s);
  rr_one : writers (rwm_word (obj s)) <= 1;
  rr_length : length (rwm_buffer (obj s)) = length v;
  rr_value : (forall t data i, pcs s !! t <> Some (RWriting data i)) -> rwm_buffer (obj s) = v;
  rr_pc : forall t pc, pcs s !! t = Some pc -> rwm_pc_ok (obj s) v pc;
  rr_threads : Z.of_nat (length (pcs s)) < 65536 }.

Lemma no_writing_update (l : list rwm_pc) t pc pc' :
  l !! t = Some pc -> is_writing pc = false ->
  (forall t' data i, <[t := pc']> l !! t' <> Some (RWriting data i)) ->
  forall t' data i, l !! t' <> Some (RWriting data i).
Proof.
  intros Ht Hw H t' data i E. destruct (decide (t' = t)) as [->|Hne]; [by simplify_eq|].
  apply (H t' data i). by rewrite list_lookup_insert_ne.
Qed.

(** A step that does not copy into the buffer. *)
Lemma rwm_rel_update s v t pc pc' o' :
  rwm_rel s v -> pcs s !! t = Some pc -> rwm_buffer o' = rwm_buffer (obj s) -> is_writing pc = false ->
  readers (rwm_word o') = readers (rwm_word (obj s)) - Z.b2z (is_reading pc) + Z.b2z (is_reading pc') ->
  writers (rwm_word o') = writers (rwm_word (obj s)) - Z.b2z (is_writer pc) + Z.b2z (is_writer pc') ->
  writers (rwm_word o') <= 1 ->
  (readers (rwm_word o') <> 0 -> forall t' data i, pcs s !! t' <> Some (RWriting data i)) ->
  rwm_pc_ok o' v pc' -> rwm_rel (System o' (<[t := pc']> (pcs s))) v.
Proof.
  intros H Ht Hb Hnw Hr Hw Hone Hex Hpc. destruct H as [H1 H2 H3 H4 H5 H6 H7]. split; cbn.
  - rewrite (countb_insert _ _ _ pc) by done. lia.
  - rewrite (countb_insert _ _ _ pc) by done. lia.
  - done.
  - by rewrite Hb.
  - intros Hno. rewrite Hb. apply H5. by eapply no_writing_update.
  - apply (threads_insert (fun _ => rwm_pc_ok o' v)); [|done]. intros t' x E Hne.
    pose proof (H6 t' x E) as Hx. destruct x; cbn in *; try done. rewrite Hb.
    destruct (Z.eq_dec (readers (rwm_word o')) 0) as [E0|E0]; [tauto|]. by destruct (Hex E0 t' data i).
  - by rewrite length_insert.
Qed.

Lemma rwm_rel_id s v t pc : rwm_rel s v -> pcs s !! t = Some pc ->
  rwm_rel (System (obj s) (<[t := pc]> (pcs s))) v.
Proof. intros H Ht. rewrite list_insert_id by done. by destruct s. Qed.

(** A writer at work keeps the readers out, and the other way round. *)
Lemma rwm_no_writing s v : rwm_rel s v -> writers (rwm_word (obj s)) = 0 \/ readers (rwm_word (obj s)) <> 0 ->
  forall t data i, pcs s !! t <> Some (RWriting data i).
Proof.
  intros H Hc t data i Ht. pose proof (countb_pos is_writer _ _ _ Ht eq_refl).
  pose proof (rr_pc _ _ H _ _ Ht) as (_ & _ & _ & Hr). pose proof (rr_writers _ _ H). lia.
Qed.

Lemma rwm_reader_count s v t acc : rwm_rel s v -> pcs s !! t = Some (RReading acc) ->
  0 < readers (rwm_word (obj s)) < 65536.
Proof.
  intros H Ht. rewrite (rr_readers _ _ H). pose proof (countb_pos is_reading _ _ _ Ht eq_refl).
  pose proof (countb_range is_reading (pcs s)). pose proof (rr_threads _ _ H). lia.
Qed.

(** With readers about, the buffer is the value of the register. *)
Lemma rwm_reading_value s v t acc : rwm_rel s v -> pcs s !! t = Some (RReading acc) -> rwm_buffer (obj s) = v.
Proof.
  intros H Ht. apply (rr_value _ _ H), (rwm_no_writing _ _ H). pose proof (rwm_reader_count _ _ _ _ H Ht). lia.
Qed.

Lemma rwm_writers_range s v : rwm_rel s v -> 0 <= writers (rwm_word (obj s)) <= 1.
Proof. intros H. pose proof (rr_one _ _ H). rewrite (rr_writers _ _ H) in *. pose proof (countb_range is_writer (pcs s)). lia. Qed.

(** A read begins. *)
Lemma rwm_rel_read_begin s v t pc :
  rwm_rel s v -> pcs s !! t = Some pc -> is_reading pc = false -> is_writer pc = false ->
  writers (rwm_word (obj s)) = 0 ->
  rwm_rel (System (with_word (obj s) (MkRwmCtrl (u16 (readers (rwm_word (obj s)) + 1)) (writers (rwm_word (obj s)))))
                  (<[t := RReading []]> (pcs s))) v.
Proof.
  intros H Ht Hr Hw H0. pose proof (countb_range is_reading (<[t := RReading []]> (pcs s))) as Hb.
  rewrite length_insert, (countb_insert _ _ _ pc), Hr in Hb by done. cbn in Hb.
  pose proof (countb_range is_reading (pcs s)). pose proof (rr_threads _ _ H). pose proof (rr_readers _ _ H).
  apply (rwm_rel_update s v t pc); cbn; try done; rewrite ?Hr, ?Hw; cbn; try lia.
  - by destruct pc.
  - rewrite wrap_small by (unfold is_word; lia). lia.
  - intros _. apply (rwm_no_writing _ _ H). by left.
  - split; [done|lia].
Qed.

(** One byte is read: the prefix grows along the value of the register. *)
Lemma rwm_rel_read_byte s v t acc b :
  rwm_rel s v -> pcs s !! t = Some (RReading acc) -> rwm_buffer (obj s) !! length acc = Some b ->
  rwm_rel (System (obj s) (<[t := RReading (acc ++ [b])]> (pcs s))) v.
Proof.
  intros H Ht Hb. pose proof (rwm_writers_range _ _ H). pose proof (rwm_reading_value _ _ _ _ H Ht) as Hv.
  rewrite Hv in Hb. destruct (rr_pc _ _ H _ _ Ht) as [Ha Hl].
  apply (rwm_rel_update s v t (RReading acc)); cbn; try done; try lia.
  - intros Hr. apply (rwm_no_writing _ _ H). by right.
  - rewrite length_app. cbn. rewrite Nat.add_1_r. apply lookup_lt_Some in Hb as Hlt. split; [|lia].
    rewrite (take_S_r v (length acc) b) by done. by rewrite <- Ha.
Qed.

(** The read ends: it has the whole value and the count was not zero. *)
Lemma rwm_rel_read_end s v t acc :
  rwm_rel s v -> pcs s !! t = Some (RReading acc) -> rwm_buffer (obj s) !! length acc = None ->
  acc = v /\ try_read_end (rwm_word (obj s)) =
    (true, MkRwmCtrl (readers (rwm_word (obj s)) - 1) (writers (rwm_word (obj s)))) /\
  rwm_rel (System (with_word (obj s) (MkRwmCtrl (readers (rwm_word (obj s)) - 1) (writers (rwm_word (obj s)))))
                  (<[t := RIdle]> (pcs s))) v.
Proof.
  intros H Ht Hb. pose proof (rwm_reader_count _ _ _ _ H Ht) as Hr. pose proof (rwm_writers_range _ _ H).
  rewrite (rwm_reading_value _ _ _ _ H Ht) in Hb. apply lookup_ge_None in Hb.
  destruct (rr_pc _ _ H _ _ Ht) as [Ha Hl]. split_and!.
  - rewrite Ha. by apply take_ge.
  - unfold try_read_end. rewrite (proj2 (Z.eqb_neq _ 0)) by lia. by rewrite wrap_small by (unfold is_word; lia).
  - apply (rwm_rel_update s v t (RReading acc)); cbn; try done; try lia.
    intros _. apply (rwm_no_writing _ _ H). right. lia.
Qed.

(** The writer at work is the only one. *)
Lemma rwm_writing_unique s v t data i t' data' i' :
  rwm_rel s v -> pcs s !! t = Some (RWriting data i) -> pcs s !! t' = Some (RWriting data' i') -> t' = t.
Proof.
  intros H Ht Ht'. apply (countb_unique is_writer (pcs s) t' t (RWriting data' i') (RWriting data i)); try done.
  rewrite <- (rr_writers _ _ H). apply H.
Qed.

(** One byte is written. *)
Lemma rwm_rel_write_byte s v t data i b :
  rwm_rel s v -> pcs s !! t = Some (RWriting data i) -> data !! i = Some b ->
  rwm_rel (System (MkRwm (rwm_word (obj s)) (<[i := b]> (rwm_buffer (obj s))))
                  (<[t := RWriting data (S i)]> (pcs s))) v.
Proof.
  intros H Ht Hb. pose proof (rwm_writing_unique s v t data i) as Hu.
  destruct (rr_pc _ _ H _ _ Ht) as (Hd & Hi & Htake & Hr0). apply lookup_lt_Some in Hb as Hlt.
  pose proof (rr_length _ _ H) as Hlen. destruct H as [H1 H2 H3 H4 H5 H6 H7] eqn:E. split; cbn.
  - rewrite (countb_insert _ _ _ _ _ Ht). cbn. lia.
  - rewrite (countb_insert _ _ _ _ _ Ht). cbn. lia.
  - done.
  - by rewrite length_insert.
  - intros Hno. destruct (Hno t data (S i)). apply list_lookup_insert_eq. by eapply lookup_lt_Some.
  - apply (threads_insert (fun _ => rwm_pc_ok _ v)).
    + intros t' x Ex Hne. pose proof (H6 t' x Ex) as Hx. destruct x as [| | | | |d j|]; cbn in *; try done.
      destruct Hne. by apply (Hu t' d j H).
    + cbn. split; [done|]. split; [lia|]. split; [|done].
      rewrite (take_S_r _ i b), (take_S_r data i b) by (done || by apply list_lookup_insert_eq; lia).
      by rewrite take_insert_ge, Htake by lia.
  - by rewrite length_insert.
Qed.

(** The write ends: the buffer holds exactly the data and becomes the value. *)
Lemma rwm_rel_write_end s v t data i :
  rwm_rel s v -> pcs s !! t = Some (RWriting data i) -> data !! i = None ->
  length data = length v /\
  rwm_rel (System (with_word (obj s) (MkRwmCtrl 0 0)) (<[t := RIdle]> (pcs s))) data.
Proof.
  intros H Ht Hb. pose proof (rwm_writing_unique s v t data i) as Hu.
  pose proof (countb_pos is_writer _ _ _ Ht eq_refl) as Hpos. pose proof (rwm_writers_range _ _ H).
  destruct (rr_pc _ _ H _ _ Ht) as (Hd & Hi & Htake & Hr0). apply lookup_ge_None in Hb.
  pose proof (rr_length _ _ H) as Hlen.
  assert (rwm_buffer (obj s) = data) as Hbuf by (rewrite !take_ge in Htake by lia; done).
  pose proof (rwm_reader_count s v) as Hrc. destruct H as [H1 H2 H3 H4 H5 H6 H7] eqn:E.
  split; [done|]. split; cbn.
  - rewrite (countb_insert _ _ _ _ _ Ht). cbn. lia.
  - rewrite (countb_insert _ _ _ _ _ Ht). cbn. lia.
  - lia.
  - by rewrite Hbuf.
  - done.
  - apply (threads_insert (fun _ => rwm_pc_ok _ data)); [|done].
    intros t' x Ex Hne. pose proof (H6 t' x Ex) as Hx. destruct x as [| |acc| | |d j|]; cbn in *; try done.
    + specialize (Hrc t' acc H Ex). lia.
    + congruence.
    + congruence.
    + destruct Hne. by apply (Hu t' d j H).
  - by rewrite length_insert.
Qed.

(** A write begins: with [drain] it still waits for the readers. *)
Lemma rwm_rel_write_begin s v t pc pc' :
  rwm_rel s v -> pcs s !! t = Some pc -> is_reading pc = false -> is_writer pc = false ->
  writers (rwm_word (obj s)) = 0 -> is_writer pc' = true ->
  rwm_pc_ok (with_word (obj s) (MkRwmCtrl (readers (rwm_word (obj s))) 1)) v pc' ->
  rwm_rel (System (with_word (obj s) (MkRwmCtrl (readers (rwm_word (obj s))) 1)) (<[t := pc']> (pcs s))) v.
Proof.
  intros H Ht Hr Hw H0 Hw' Hok. apply (rwm_rel_update s v t pc); cbn; try done; rewrite ?Hr, ?Hw, ?Hw'; cbn; try lia.
  - by destruct pc.
  - destruct pc'; cbn in *; try done; lia.
  - intros _. apply (rwm_no_writing _ _ H). by left.
Qed.

(** A step that leaves the object alone. *)
Lemma rwm_rel_pc s v t pc pc' :
  rwm_rel s v -> pcs s !! t = Some pc -> is_writing pc = false -> is_reading pc = is_reading pc' ->
  is_writer pc = is_writer pc' -> rwm_pc_ok (obj s) v pc' ->
  rwm_rel (System (obj s) (<[t := pc']> (pcs s))) v.
Proof.
  intros H Ht Hn Hr Hw Hok. apply (rwm_rel_update s v t pc); try done; rewrite ?Hr, ?Hw; try lia.
  - apply H.
  - intros ?. apply (rwm_no_writing _ _ H). by right.
Qed.

Lemma with_word_id o : with_word o (rwm_word o) = o.
Proof. by destruct o. Qed.

(** ** The steps, call by call *)

#[local] Hint Resolve spec_nil spec_run_one rwm_rel_id : core.
#[local] Hint Constructors register_spec : core.

Definition rwm_step_ok (s : system (O := rwm)) (v : list Z) (t : nat) (r : list rwm_event * rwm * rwm_pc) : Prop :=
  let '(es, o, pc) := r in
  exists v', spec_run register_spec v (map (fun e => (t, e)) es) v' /\ rwm_rel (System o (<[t := pc]> (pcs s))) v'.

Lemma check_pointers_not_abort p b a e : check_pointers p b a = Some e -> e <> CELL_SYNC_ERROR_ABORT.
Proof. intros [-> | ->]%check_pointers_error; done. Qed.

Lemma rwm_read_ok s v t : rwm_rel s v ->
  (forall p b, pcs s !! t = Some RIdle -> rwm_step_ok s v t (cellSyncRwmTryRead p b (obj s))) /\
  (forall stopped, pcs s !! t = Some RReadWait -> rwm_step_ok s v t (cellSyncRwmRead_round stopped (obj s))) /\
  (forall acc, pcs s !! t = Some (RReading acc) -> rwm_step_ok s v t (rwm_read_copy acc (obj s))).
Proof.
  intros H. split_and!; intros.
  - unfold cellSyncRwmTryRead, try_read_begin. destruct (check_pointers p b 16) eqn:Ec.
    { exists v. apply check_pointers_not_abort in Ec. split; [by apply spec_run_one; constructor|by apply rwm_rel_id]. }
    destruct (Z.eqb_spec (writers (rwm_word (obj s))) 0); cbn; rewrite ?with_word_id; exists v.
    + split; [constructor|]. by apply (rwm_rel_read_begin s v t RIdle).
    + split; [by apply spec_run_one; constructor|by apply rwm_rel_id].
  - unfold cellSyncRwmRead_round, try_read_begin.
    destruct (Z.eqb_spec (writers (rwm_word (obj s))) 0); cbn; rewrite ?with_word_id.
    + exists v. split; [constructor|]. by apply (rwm_rel_read_begin s v t RReadWait).
    + destruct stopped; exists v; (split; [try (apply spec_run_one; by constructor); constructor|]).
      * by apply (rwm_rel_pc s v t RReadWait).
      * by apply rwm_rel_id.
  - unfold rwm_read_copy. destruct (rwm_buffer (obj s) !! length acc) as [b|] eqn:Eb; cbn.
    + exists v. split; [constructor|]. by apply rwm_rel_read_byte.
    + destruct (rwm_rel_read_end s v t acc H H0 Eb) as (-> & -> & HR). cbn. exists v.
      split; [by apply spec_run_one; constructor|done].
Qed.

Lemma rwm_write_ok s v t : rwm_rel s v ->
  (forall p b data, length data = length v -> pcs s !! t = Some RIdle ->
     rwm_step_ok s v t (cellSyncRwmTryWrite p b data (obj s))) /\
  (forall stopped data, pcs s !! t = Some (RWriteWait data) ->
     rwm_step_ok s v t (cellSyncRwmWrite_round stopped data (obj s))) /\
  (forall stopped data, pcs s !! t = Some (RDrain data) ->
     rwm_step_ok s v t (cellSyncRwmWrite_drain stopped data (obj s))) /\
  (forall data i, pcs s !! t = Some (RWriting data i) -> rwm_step_ok s v t (rwm_write_copy data i (obj s))).
Proof.
  intros H. split_and!; intros.
  - unfold cellSyncRwmTryWrite, try_write_cas. destruct (check_pointers p b 16) eqn:Ec.
    { exists v. apply check_pointers_not_abort in Ec. split; [by apply spec_run_one; constructor|by apply rwm_rel_id]. }
    destruct (Z.eqb_spec (readers (rwm_word (obj s))) 0) as [E0|], (Z.eqb_spec (writers (rwm_word (obj s))) 0);
      cbn; rewrite ?with_word_id; exists v;
      try (split; [by apply spec_run_one; constructor|by apply rwm_rel_id]).
    split; [constructor|]. rewrite <- E0 at 1. apply (rwm_rel_write_begin s v t RIdle); try done.
    cbn. split; [done|]. split; [lia|]. done.
  - pose proof (rr_pc _ _ H _ _ H0) as Hok. unfold cellSyncRwmWrite_round, try_write_begin.
    destruct (Z.eqb_spec (writers (rwm_word (obj s))) 0); cbn; rewrite ?with_word_id.
    + exists v. split; [constructor|]. by apply (rwm_rel_write_begin s v t (RWriteWait data)).
    + destruct stopped; exists v; (split; [try (apply spec_run_one; by constructor); constructor|]).
      * by apply (rwm_rel_pc s v t (RWriteWait data)).
      * by apply rwm_rel_id.
  - pose proof (rr_pc _ _ H _ _ H0) as Hok. unfold cellSyncRwmWrite_drain.
    destruct (Z.eqb_spec (readers (rwm_word (obj s))) 0); cbn; [|destruct stopped]; exists v;
      (split; [try (apply spec_run_one; by constructor); constructor|]).
    + apply (rwm_rel_pc s v t (RDrain data)); try done. cbn. split; [done|]. split; [lia|]. done.
    + by apply (rwm_rel_pc s v t (RDrain data)).
    + by apply rwm_rel_id.
  - unfold rwm_write_copy. destruct (data !! i) as [b|] eqn:Eb.
    + exists v. split; [constructor|]. by apply rwm_rel_write_byte.
    + destruct (rwm_rel_write_end s v t data i H H0 Eb) as (Hl & HR). exists data.
      split; [by apply spec_run_one; constructor|done].
Qed.

Lemma rwm_simulation p s v t a es s' :
  rwm_rel s v -> sched_step (rwm_tstep p) s t a = Some (es, s') ->
  exists v', spec_run register_spec v es v' /\ rwm_rel s' v'.
Proof.
  intros H (pc & es0 & o & pc' & Ht & Hs & -> & ->)%sched_step_inv.
  cut (rwm_step_ok s v t (es0, o, pc')); [done|].
  destruct (rwm_read_ok s v t H) as (K1 & K2 & K3), (rwm_write_ok s v t H) as (K4 & K5 & K6 & K7).
  assert (forall b pc, rwm_pc_ok (obj s) v pc -> is_reading pc = false -> is_writer pc = false ->
            pcs s !! t = Some RIdle -> rwm_step_ok s v t (rwm_enter p b (obj s) pc)) as K0.
  { intros b x Hx Hr Hw E. unfold rwm_enter. destruct (check_pointers p b 16) eqn:Ec; exists v.
    - apply check_pointers_not_abort in Ec. split; [by apply spec_run_one; constructor|by apply rwm_rel_id].
    - split; [constructor|]. by apply (rwm_rel_pc s v t RIdle). }
  pose proof (rr_length _ _ H) as Hlen.
  destruct pc, a; cbn -[Nat.eqb] in Hs; try done;
    try match type of Hs with context [Nat.eqb ?x ?y] => destruct (Nat.eqb_spec x y); [|done] end;
    injection Hs as <-; auto; first [apply K0|apply K4]; cbn; done || congruence.
Qed.

(** C4: under every interleaving of at most 65535 readers and writers the
    shared memory is an atomic register: every completed read returns exactly
    the value of the last completed write, a read never fails with ABORT, and
    no thread writes while another reads or writes. *)
Theorem rwm_atomic_register p n init sch es s :
  Z.of_nat n < 65536 -> rwm_run p n init sch = Some (es, s) ->
  (exists v, spec_run register_spec init es v) /\
  (forall t data i t' pc, pcs s !! t = Some (RWriting data i) -> pcs s !! t' = Some pc ->
     is_reading pc = false /\ (is_writing pc = true -> t' = t)).
Proof.
  intros Hn H. apply (run_refines _ register_spec rwm_rel _ init) in H as (v & Hv & HR).
  - split; [eauto|]. intros t data i t' pc Ht Ht'. split.
    + destruct pc; try done. pose proof (rwm_reader_count _ _ _ _ HR Ht').
      pose proof (rr_pc _ _ HR _ _ Ht) as (_ & _ & _ & E). lia.
    + destruct pc; try done. intros _. by eapply rwm_writing_unique.
  - apply rwm_simulation.
  - split; cbn; try done; rewrite ?countb_replicate, ?length_replicate by done; try done.
    intros t pc [-> _]%lookup_replicate. done.
Qed.

(** A reader is half way when a writer raises the flag; the writer waits, and
    a second reader waits for the writer. *)
Definition rwm_demo : list (nat * rwm_action) :=
  let go t := (t, AContinue false) in
  [(0%nat, ATryRead 0x80); go 0%nat; (1%nat, AWrite 0x80 [3; 4]); go 1%nat; go 1%nat;
   (2%nat, ARead 0x80); go 2%nat; go 0%nat; go 0%nat; go 1%nat; go 1%nat; go 2%nat; go 1%nat; go 1%nat;
   go 2%nat; go 2%nat; go 2%nat; go 2%nat].

Lemma rwm_atomic_register_witness :
  exists s, rwm_run 0x100 3 [1; 2] rwm_demo =
      Some ([(0%nat, RRead [1; 2]); (1%nat, RWritten [3; 4]); (2%nat, RRead [3; 4])], s) /\
    (exists v, spec_run register_spec [1; 2]
       [(0%nat, RRead [1; 2]); (1%nat, RWritten [3; 4]); (2%nat, RRead [3; 4])] v) /\
    (forall t data i t' pc, pcs s !! t = Some (RWriting data i) -> pcs s !! t' = Some pc ->
       is_reading pc = false /\ (is_writing pc = true -> t' = t)).
Proof.
  assert (exists s, rwm_run 0x100 3 [1; 2] rwm_demo =
      Some ([(0%nat, RRead [1; 2]); (1%nat, RWritten [3; 4]); (2%nat, RRead [3; 4])], s)) as [s E]
    by (eexists; vm_compute; reflexivity).
  exists s. split; [exact E|]. exact (rwm_atomic_register 0x100 3 [1; 2] rwm_demo _ s eq_refl E).
Defined.
