(* ===== verification/CellQueue.v ===== *)
(** * CellSyncQueue: a bounded queue in shared memory

    The control word has the insertion index, the item count and one busy flag
    per direction; the items lie in a ring of [depth] slots of [size] bytes and
    are copied byte by byte between the atomic operations.  Theorem: under
    every interleaving the object is a bounded FIFO queue. *)
From S2P Require Import Prelude Threads CellSync.

(** ** The control word: two 24-bit and two 8-bit fields *)

Record queue_ctrl := MkQueueCtrl { q_next : Z; q_pop : Z; q_count : Z; q_push : Z }.

Definition bits24 (x : Z) : Z := wrap 24 x.

Record queue := MkQueue { q_ctrl : queue_ctrl; q_size : Z; q_depth : Z; q_buffer : Z -> Z }.

Definition set_ctrl (o : queue) (c : queue_ctrl) : queue := MkQueue c (q_size o) (q_depth o) (q_buffer o).

(** [None] is the exception "Invalid queue pointers". *)
Definition check_depth (o : queue) : option Z :=
  if (q_depth o <? q_next (q_ctrl o)) || (q_depth o <? q_count (q_ctrl o)) then None else Some (q_depth o).

(** The operations that can fail yield the new control word and, where they
    have one, the position; [None] is [false], with the word unchanged. *)
Definition try_push_begin (c : queue_ctrl) (depth : Z) : option (queue_ctrl * Z) :=
  let count := q_count c in
  if negb (q_push c =? 0) || (depth <=? u32 (count + q_pop c)) then None
  else
    let position := q_next c in
    Some (MkQueueCtrl (bits24 (if negb (u32 (position + 1) =? depth) then u32 (position + 1) else 0))
                      (q_pop c) (bits24 (u32 (count + 1))) 1, position).

Definition push_end (c : queue_ctrl) : queue_ctrl := MkQueueCtrl (q_next c) (q_pop c) (q_count c) 0.

Definition try_pop_begin (c : queue_ctrl) (depth : Z) : option (queue_ctrl * Z) :=
  let count := q_count c in
  if negb (q_pop c =? 0) || (count <=? q_push c) then None
  else Some (MkQueueCtrl (q_next c) 1 (bits24 (u32 (count - 1))) (q_push c),
             u32 (u32 (q_next c + depth) - count)).

Definition try_peek_begin (c : queue_ctrl) (depth : Z) : option (queue_ctrl * Z) :=
  let count := q_count c in
  if negb (q_pop c =? 0) || (count <=? q_push c) then None
  else Some (MkQueueCtrl (q_next c) 1 count (q_push c), u32 (u32 (q_next c + depth) - count)).

Definition pop_end (c : queue_ctrl) : queue_ctrl := MkQueueCtrl (q_next c) 0 (q_count c) (q_push c).

Definition try_clear_begin_1 (c : queue_ctrl) : option queue_ctrl :=
  if negb (q_pop c =? 0) then None else Some (MkQueueCtrl (q_next c) 1 (q_count c) (q_push c)).

Definition try_clear_begin_2 (c : queue_ctrl) : option queue_ctrl :=
  if negb (q_push c =? 0) then None else Some (MkQueueCtrl (q_next c) (q_pop c) (q_count c) 1).

(** ** The calls *)

Inductive queue_pc :=
| QIdle
| QPush (data : list Z)
| QPushCopy (position : Z) (data : list Z) (i : nat)
| QPop
| QPopCopy (position : Z) (acc : list Z)
| QPeek
| QPeekCopy (position : Z) (acc : list Z)
| QClear1                        (* waits for the pop flag *)
| QClear2                        (* waits for the push flag *)
| QClear3                        (* has both *)
| QAbandoned                     (* stopped in between: the pop flag stays set *)
| QThrown.

Inductive queue_event :=
| EPushed (data : list Z)
| EPopped (data : list Z)
| EPeeked (data : list Z)
| ECleared
| ESize (n : Z)
| EReturn (code : Z)
| EThrown.

Definition queue_result : Type := list queue_event * queue * queue_pc.

(** [Some (control word, size, depth, buffer)] is stored when the arguments are good. *)
Definition cellSyncQueueInitialize (p buffer size depth : Z) : Z * option (queue_ctrl * Z * Z * Z) :=
  if p =? 0 then (CELL_SYNC_ERROR_NULL_POINTER, None)
  else if negb (size =? 0) && (buffer =? 0) then (CELL_SYNC_ERROR_NULL_POINTER, None)
  else if negb (p mod 32 =? 0) || negb (buffer mod 16 =? 0) then (CELL_SYNC_ERROR_ALIGN, None)
  else if (depth =? 0) || negb (size mod 16 =? 0) then (CELL_SYNC_ERROR_INVAL, None)
  else (CELL_OK, Some (MkQueueCtrl 0 0 0 0, size, depth, buffer)).

(** The checks of every call, then [check_depth], then [body]. *)
Definition queue_enter (err : option Z) (o : queue) (body : Z -> queue_result) : queue_result :=
  match err with
  | Some e => ([EReturn e], o, QIdle)
  | None => match check_depth o with None => ([EThrown], o, QThrown) | Some depth => body depth end
  end.

(** A failed attempt: the waiting calls try again unless the thread was
    stopped ([Some stopped]), the others return BUSY ([None]). *)
Definition queue_fail (mode : option bool) (again : queue_pc) (o : queue) : queue_result :=
  match mode with
  | None => ([EReturn CELL_SYNC_ERROR_BUSY], o, QIdle)
  | Some stopped => if stopped then ([EReturn 0], o, QIdle) else ([], o, again)
  end.

Definition push_attempt (mode : option bool) (data : list Z) (o : queue) (depth : Z) : queue_result :=
  match try_push_begin (q_ctrl o) depth with
  | None => queue_fail mode (QPush data) o
  | Some (c, position) => ([EPushed data], set_ctrl o c, QPushCopy position data 0)
  end.

Definition pop_attempt (mode : option bool) (o : queue) (depth : Z) : queue_result :=
  match try_pop_begin (q_ctrl o) depth with
  | None => queue_fail mode QPop o
  | Some (c, position) => ([], set_ctrl o c, QPopCopy position [])
  end.

Definition peek_attempt (mode : option bool) (o : queue) (depth : Z) : queue_result :=
  match try_peek_begin (q_ctrl o) depth with
  | None => queue_fail mode QPeek o
  | Some (c, position) => ([], set_ctrl o c, QPeekCopy position [])
  end.

Definition cellSyncQueuePush (p buffer : Z) (data : list Z) (o : queue) : queue_result :=
  queue_enter (check_pointers p buffer 32) o (fun _ => ([], o, QPush data)).
Definition cellSyncQueueTryPush (p buffer : Z) (data : list Z) (o : queue) : queue_result :=
  queue_enter (check_pointers p buffer 32) o (push_attempt None data o).
Definition cellSyncQueuePop (p buffer : Z) (o : queue) : queue_result :=
  queue_enter (check_pointers p buffer 32) o (fun _ => ([], o, QPop)).
Definition cellSyncQueueTryPop (p buffer : Z) (o : queue) : queue_result :=
  queue_enter (check_pointers p buffer 32) o (pop_attempt None o).
Definition cellSyncQueuePeek (p buffer : Z) (o : queue) : queue_result :=
  queue_enter (check_pointers p buffer 32) o (fun _ => ([], o, QPeek)).
Definition cellSyncQueueTryPeek (p buffer : Z) (o : queue) : queue_result :=
  queue_enter (check_pointers p buffer 32) o (peek_attempt None o).
Definition cellSyncQueueSize (p : Z) (o : queue) : queue_result :=
  queue_enter (check_pointer p 32) o (fun _ => ([ESize (Z.land (q_count (q_ctrl o)) 0xffffff)], o, QIdle)).
Definition cellSyncQueueClear (p : Z) (o : queue) : queue_result :=
  queue_enter (check_pointer p 32) o (fun _ => ([], o, QClear1)).

(** One byte of the [memcpy] into the slot, or [push_end] after the last. *)
Definition push_copy (position : Z) (data : list Z) (i : nat) (o : queue) : queue_result :=
  match data !! i with
  | Some b =>
      ([], MkQueue (q_ctrl o) (q_size o) (q_depth o)
             (upd (q_buffer o) (u32 (position * q_size o) + Z.of_nat i) b), QPushCopy position data (S i))
  | None => ([], set_ctrl o (push_end (q_ctrl o)), QIdle)
  end.

(** One byte of the [memcpy] out of the slot [position % depth]. *)
Definition slot_byte (o : queue) (position : Z) (acc : list Z) : Z :=
  q_buffer o (u32 (position mod q_depth o * q_size o) + Z.of_nat (length acc)).

Definition pop_copy (position : Z) (acc : list Z) (o : queue) : queue_result :=
  if Z.of_nat (length acc) <? q_size o then ([], o, QPopCopy position (acc ++ [slot_byte o position acc]))
  else ([EPopped acc], set_ctrl o (pop_end (q_ctrl o)), QIdle).

Definition peek_copy (position : Z) (acc : list Z) (o : queue) : queue_result :=
  if Z.of_nat (length acc) <? q_size o then ([], o, QPeekCopy position (acc ++ [slot_byte o position acc]))
  else ([EPeeked acc], set_ctrl o (pop_end (q_ctrl o)), QIdle).

Definition clear_round_1 (stopped : bool) (o : queue) : queue_result :=
  match try_clear_begin_1 (q_ctrl o) with
  | None => if stopped then ([EReturn 0], o, QIdle) else ([], o, QClear1)
  | Some c => ([], set_ctrl o c, QClear2)
  end.

Definition clear_round_2 (stopped : bool) (o : queue) : queue_result :=
  match try_clear_begin_2 (q_ctrl o) with
  | None => if stopped then ([EReturn 0], o, QAbandoned) else ([], o, QClear2)
  | Some c => ([], set_ctrl o c, QClear3)
  end.

Definition clear_store (o : queue) : queue_result := ([ECleared], set_ctrl o (MkQueueCtrl 0 0 0 0), QIdle).

Inductive queue_action :=
| CPush (buffer : Z) (data : list Z) | CTryPush (buffer : Z) (data : list Z)
| CPop (buffer : Z) | CTryPop (buffer : Z) | CPeek (buffer : Z) | CTryPeek (buffer : Z)
| CSize | CClear
| CContinue (stopped : bool).

(** The data of a push are the [size] bytes at the caller's buffer.  [depth]
    was read by [check_depth]; the field changes only in Initialize. *)
Definition queue_tstep (p : Z) (a : queue_action) (o : queue) (pc : queue_pc) : option queue_result :=
  let sized data := Z.of_nat (length data) =? q_size o in
  match pc, a with
  | QIdle, CPush buffer data => if sized data then Some (cellSyncQueuePush p buffer data o) else None
  | QIdle, CTryPush buffer data => if sized data then Some (cellSyncQueueTryPush p buffer data o) else None
  | QIdle, CPop buffer => Some (cellSyncQueuePop p buffer o)
  | QIdle, CTryPop buffer => Some (cellSyncQueueTryPop p buffer o)
  | QIdle, CPeek buffer => Some (cellSyncQueuePeek p buffer o)
  | QIdle, CTryPeek buffer => Some (cellSyncQueueTryPeek p buffer o)
  | QIdle, CSize => Some (cellSyncQueueSize p o)
  | QIdle, CClear => Some (cellSyncQueueClear p o)
  | QPush data, CContinue stopped => Some (push_attempt (Some stopped) data o (q_depth o))
  | QPop, CContinue stopped => Some (pop_attempt (Some stopped) o (q_depth o))
  | QPeek, CContinue stopped => Some (peek_attempt (Some stopped) o (q_depth o))
  | QPushCopy position data i, CContinue _ => Some (push_copy position data i o)
  | QPopCopy position acc, CContinue _ => Some (pop_copy position acc o)
  | QPeekCopy position acc, CContinue _ => Some (peek_copy position acc o)
  | QClear1, CContinue stopped => Some (clear_round_1 stopped o)
  | QClear2, CContinue stopped => Some (clear_round_2 stopped o)
  | QClear3, CContinue _ => Some (clear_store o)
  | _, _ => None
  end.

Definition queue_run (p : Z) (n : nat) (size depth : Z) (memory : Z -> Z) :=
  run_schedule (queue_tstep p) (System (MkQueue (MkQueueCtrl 0 0 0 0) size depth memory) (replicate n QIdle)).

(** ** The abstract object: a bounded FIFO queue of items *)

Inductive fifo_spec (size depth : Z) : list (list Z) -> nat * queue_event -> list (list Z) -> Prop :=
| spec_push q t data : Z.of_nat (length data) = size -> Z.of_nat (length q) < depth ->
    fifo_spec size depth q (t, EPushed data) (q ++ [data])
| spec_pop q t data : fifo_spec size depth (data :: q) (t, EPopped data) q
| spec_peek q t data : fifo_spec size depth (data :: q) (t, EPeeked data) (data :: q)
| spec_clear q t : fifo_spec size depth q (t, ECleared) []
| spec_size q t n : n = Z.of_nat (length q) \/ n + 1 = Z.of_nat (length q) ->
    fifo_spec size depth q (t, ESize n) q     (* an item on its way out is no longer counted *)
| spec_qreturn q t code : fifo_spec size depth q (t, EReturn code) q.

(** ** The simulation *)

Definition holds_pop (pc : queue_pc) : bool :=
  match pc with QPopCopy _ _ | QPeekCopy _ _ | QClear2 | QClear3 | QAbandoned => true | _ => false end.
Definition holds_push (pc : queue_pc) : bool :=
  match pc with QPushCopy _ _ _ | QClear3 => true | _ => false end.
Definition is_popping (pc : queue_pc) : bool := match pc with QPopCopy _ _ => true | _ => false end.

Section simulation.
Context (size depth : Z).
Hypothesis (Hsize : 0 <= size) (Hdepth : 0 < depth < 2 ^ 24) (Hring : depth * size <= 2 ^ 32).

(** Slot [p] starts with the first [i] bytes of [item]. *)
Definition slot_holds (buf : Z -> Z) (p : Z) (item : list Z) (i : nat) : Prop :=
  forall j b, (j < i)%nat -> item !! j = Some b -> buf (p * size + Z.of_nat j) = b.

(** [h] numbers the head of the queue; item [k] is in slot [(h + k) % depth]. *)
Definition front_ok (h : Z) (v : list (list Z)) (push position : Z) (acc : list Z) : Prop :=
  position mod depth = h mod depth /\
  exists item v', v = item :: v' /\ acc = take (length acc) item /\
    Z.of_nat (length acc) <= size /\ (push <> 0 -> v' <> []).

Definition queue_pc_ok (o : queue) (h : Z) (v : list (list Z)) (pc : queue_pc) : Prop :=
  match pc with
  | QPush data => Z.of_nat (length data) = size
  | QPushCopy position data i =>
      position = (h + Z.of_nat (length v) - 1) mod depth /\ last v = Some data /\
      (i <= length data)%nat /\ slot_holds (q_buffer o) position data i
  | QPopCopy position acc | QPeekCopy position acc => front_ok h v (q_push (q_ctrl o)) position acc
  | QThrown => False
  | _ => True
  end.

Record queue_rel (h : Z) (s : system (O := queue)) (v : list (list Z)) : Prop := QueueRel {
  qr_head : 0 <= h;
  qr_size : q_size (obj s) = size;
  qr_depth : q_depth (obj s) = depth;
  qr_next : q_next (q_ctrl (obj s)) = (h + Z.of_nat (length v)) mod depth;
  qr_bound : Z.of_nat (length v) <= depth;
  qr_count : q_count (q_ctrl (obj s)) = Z.of_nat (length v) - countb is_popping (pcs s);
  qr_pop : q_pop (q_ctrl (obj s)) = countb holds_pop (pcs s);
  qr_push : q_push (q_ctrl (obj s)) = countb holds_push (pcs s);
  qr_one : q_pop (q_ctrl (obj s)) <= 1 /\ q_push (q_ctrl (obj s)) <= 1;
  qr_items : forall k item, v !! k = Some item -> Z.of_nat (length item) = size /\
    ((S k < length v)%nat \/ (forall t p d i, pcs s !! t <> Some (QPushCopy p d i)) ->
     slot_holds (q_buffer (obj s)) ((h + Z.of_nat k) mod depth) item (length item));
  qr_pc : forall t pc, pcs s !! t = Some pc -> queue_pc_ok (obj s) h v pc }.

(** Distinct items are in distinct slots, and slots do not overlap. *)
Lemma slot_inj a b : a mod depth = b mod depth -> Z.abs (a - b) < depth -> a = b.
Proof.
  intros H Ha. pose proof (Z.div_mod a depth ltac:(lia)). pose proof (Z.div_mod b depth ltac:(lia)).
  assert (a / depth = b / depth) by nia. nia.
Qed.

Lemma slot_byte_inj p p' i i' :
  0 <= i < size -> 0 <= i' < size -> p * size + i = p' * size + i' -> p = p' /\ i = i'.
Proof. intros. assert (p = p') by nia. subst. lia. Qed.

Lemma slot_offset p : 0 <= p < depth -> 0 < size -> u32 (p * size) = p * size.
Proof. intros Hp Hs. apply wrap_small. unfold is_word. nia. Qed.

Lemma slot_range a : 0 <= a mod depth < depth.
Proof. apply Z.mod_pos_bound. lia. Qed.

Lemma next_slot a : 0 <= a ->
  bits24 (if negb (u32 (a mod depth + 1) =? depth) then u32 (a mod depth + 1) else 0) = (a + 1) mod depth.
Proof.
  intros Ha. pose proof (slot_range a). pose proof (slot_range (a + 1)). unfold bits24.
  rewrite (wrap_small 32) by (unfold is_word; lia). rewrite <- (Zplus_mod_idemp_l a 1 depth).
  destruct (Z.eqb_spec (a mod depth + 1) depth) as [E|E]; cbn [negb].
  - by rewrite E, Z.mod_same by lia.
  - rewrite wrap_small by (unfold is_word; lia). symmetry. apply Z.mod_small. lia.
Qed.

(** The position a pop computes is the slot of the head. *)
Lemma front_slot h n : 0 <= h -> 0 <= n <= depth ->
  u32 (u32 ((h + n) mod depth + depth) - n) mod depth = h mod depth.
Proof.
  intros Hh Hn. pose proof (slot_range (h + n)).
  rewrite (wrap_small 32 (_ + _)), wrap_small by (unfold is_word; lia).
  replace ((h + n) mod depth + depth - n) with ((h + n) mod depth + (depth - n)) by lia.
  rewrite Zplus_mod_idemp_l. replace (h + n + (depth - n)) with (h + 1 * depth) by lia.
  apply Z.mod_add. lia.
Qed.

Lemma queue_flags h s v : queue_rel h s v ->
  0 <= q_pop (q_ctrl (obj s)) <= 1 /\ 0 <= q_push (q_ctrl (obj s)) <= 1.
Proof.
  intros H. pose proof (qr_one _ _ _ H). pose proof (countb_range holds_pop (pcs s)).
  pose proof (countb_range holds_push (pcs s)). rewrite (qr_pop _ _ _ H), (qr_push _ _ _ H) in *. lia.
Qed.

Lemma popping_holds (l : list queue_pc) : 0 <= countb is_popping l <= countb holds_pop l.
Proof. induction l as [|[] l IH]; cbn; lia. Qed.

Lemma queue_count_range h s v : queue_rel h s v ->
  0 <= q_count (q_ctrl (obj s)) <= Z.of_nat (length v) /\
  Z.of_nat (length v) <= q_count (q_ctrl (obj s)) + q_pop (q_ctrl (obj s)).
Proof.
  intros H. pose proof (popping_holds (pcs s)). pose proof (queue_flags _ _ _ H) as [Hf _].
  rewrite (qr_count _ _ _ H), (qr_pop _ _ _ H) in *.
  assert (countb is_popping (pcs s) <= Z.of_nat (length v)); [|lia].
  destruct (decide (countb is_popping (pcs s) = 0)); [lia|].
  destruct (countb_exists is_popping (pcs s)) as (t & [] & Ht & ?); [lia|try done..].
  destruct (qr_pc _ _ _ H _ _ Ht) as (_ & item & v' & -> & _). cbn [length]. lia.
Qed.

Lemma pop_unique h s v t t' x x' : queue_rel h s v -> pcs s !! t = Some x -> pcs s !! t' = Some x' ->
  holds_pop x = true -> holds_pop x' = true -> t = t'.
Proof. intros H. apply countb_unique. rewrite <- (qr_pop _ _ _ H). apply H. Qed.

Lemma push_unique h s v t t' x x' : queue_rel h s v -> pcs s !! t = Some x -> pcs s !! t' = Some x' ->
  holds_push x = true -> holds_push x' = true -> t = t'.
Proof. intros H. apply countb_unique. rewrite <- (qr_push _ _ _ H). apply H. Qed.

Lemma pop_held h s v t x : queue_rel h s v -> pcs s !! t = Some x -> holds_pop x = true ->
  q_pop (q_ctrl (obj s)) = 1.
Proof.
  intros H Ht Hx. pose proof (countb_pos _ _ _ _ Ht Hx). pose proof (queue_flags _ _ _ H).
  rewrite (qr_pop _ _ _ H) in *. lia.
Qed.

Lemma push_held h s v t x : queue_rel h s v -> pcs s !! t = Some x -> holds_push x = true ->
  q_push (q_ctrl (obj s)) = 1.
Proof.
  intros H Ht Hx. pose proof (countb_pos _ _ _ _ Ht Hx). pose proof (queue_flags _ _ _ H).
  rewrite (qr_push _ _ _ H) in *. lia.
Qed.

Definition reads_front (pc : queue_pc) : bool :=
  match pc with QPopCopy _ _ | QPeekCopy _ _ => true | _ => false end.

(** A step of a thread that does not push and leaves the items alone. *)
Lemma queue_rel_update h s v t pc pc' o' :
  queue_rel h s v -> pcs s !! t = Some pc ->
  q_size o' = size -> q_depth o' = depth -> q_buffer o' = q_buffer (obj s) ->
  q_next (q_ctrl o') = q_next (q_ctrl (obj s)) ->
  q_count (q_ctrl o') = q_count (q_ctrl (obj s)) + Z.b2z (is_popping pc) - Z.b2z (is_popping pc') ->
  q_pop (q_ctrl o') = q_pop (q_ctrl (obj s)) - Z.b2z (holds_pop pc) + Z.b2z (holds_pop pc') ->
  q_push (q_ctrl o') = q_push (q_ctrl (obj s)) - Z.b2z (holds_push pc) + Z.b2z (holds_push pc') ->
  q_pop (q_ctrl o') <= 1 -> q_push (q_ctrl o') <= 1 -> (forall p d i, pc <> QPushCopy p d i) ->
  (q_push (q_ctrl o') = q_push (q_ctrl (obj s)) \/
   forall t' x, t' <> t -> pcs s !! t' = Some x -> reads_front x = false) ->
  queue_pc_ok o' h v pc' -> queue_rel h (System o' (<[t := pc']> (pcs s))) v.
Proof.
  intros H Ht Hs Hd Hb Hn Hc Hpo Hpu Hpo1 Hpu1 Hnp Hf Hok. pose proof H as [H1 H2 H3 H4 H5 H6 H7 H8 H9 H10 H11].
  split; cbn [obj pcs]; try done.
  - by rewrite Hn.
  - rewrite (countb_insert _ _ _ pc) by done. lia.
  - rewrite (countb_insert _ _ _ pc) by done. lia.
  - rewrite (countb_insert _ _ _ pc) by done. lia.
  - intros k item Hk. destruct (H10 k item Hk) as [Hl Hslot]. split; [done|]. rewrite Hb. intros [Hk'|Hno].
    + apply Hslot. by left.
    + apply Hslot. right. intros t' p d i E. destruct (decide (t' = t)) as [->|Hne].
      * rewrite Ht in E. injection E as E. by apply (Hnp p d i).
      * apply (Hno t' p d i). by rewrite list_lookup_insert_ne.
  - apply (threads_insert (fun _ => queue_pc_ok o' h v)); [|done]. intros t' x E Hne.
    pose proof (H11 t' x E) as Hx. destruct x; cbn in *; rewrite ?Hb; try done;
      (destruct Hf as [-> | Hf]; [done|by specialize (Hf t' _ Hne E)]).
Qed.

Lemma queue_rel_id h s v t pc : queue_rel h s v -> pcs s !! t = Some pc ->
  queue_rel h (System (obj s) (<[t := pc]> (pcs s))) v.
Proof. intros H Ht. rewrite list_insert_id by done. by destruct s. Qed.

(** A step that changes only the place of a thread. *)
Lemma queue_rel_pc h s v t pc pc' :
  queue_rel h s v -> pcs s !! t = Some pc -> (forall p d i, pc <> QPushCopy p d i) ->
  is_popping pc = is_popping pc' -> holds_pop pc = holds_pop pc' -> holds_push pc = holds_push pc' ->
  queue_pc_ok (obj s) h v pc' -> queue_rel h (System (obj s) (<[t := pc']> (pcs s))) v.
Proof.
  intros H Ht Hnp E1 E2 E3 Hok. pose proof (qr_one _ _ _ H) as [? ?].
  apply (queue_rel_update h s v t pc); try done; rewrite ?E1, ?E2, ?E3; try lia; try apply H; by left.
Qed.

(** An item is reserved at the back. *)
Lemma queue_rel_push_begin h s v t pc data c position :
  queue_rel h s v -> pcs s !! t = Some pc -> pc = QIdle \/ pc = QPush data -> Z.of_nat (length data) = size ->
  try_push_begin (q_ctrl (obj s)) (q_depth (obj s)) = Some (c, position) ->
  Z.of_nat (length v) < depth /\
  queue_rel h (System (set_ctrl (obj s) c) (<[t := QPushCopy position data 0]> (pcs s))) (v ++ [data]).
Proof.
  intros H Ht Hpc Hdata. pose proof (queue_flags _ _ _ H) as [Hfo Hfu]. pose proof (queue_count_range _ _ _ H) as [Hc Hc'].
  assert (is_popping pc = false /\ holds_pop pc = false /\ holds_push pc = false) as (P1 & P2 & P3)
    by (by destruct Hpc as [-> | ->]).
  pose proof (qr_bound _ _ _ H) as Hb. pose proof (qr_depth _ _ _ H) as Hd. pose proof (qr_head _ _ _ H).
  unfold try_push_begin. rewrite Hd. rewrite wrap_small by (unfold is_word; lia).
  destruct (Z.eqb_spec (q_push (q_ctrl (obj s))) 0) as [E0|]; [|done].
  destruct (Z.leb_spec depth (q_count (q_ctrl (obj s)) + q_pop (q_ctrl (obj s)))) as [|Hlt]; [done|].
  intros [= <- <-]. rewrite (qr_next _ _ _ H). rewrite next_slot by lia.
  unfold bits24. rewrite (wrap_small 24 (u32 _)), (wrap_small 32 (_ + 1)) by (rewrite ?(wrap_small 32) by (unfold is_word; lia); unfold is_word; lia).
  split; [lia|]. pose proof H as [H1 H2 H3 H4 H5 H6 H7 H8 H9 H10 H11]. split; cbn [obj pcs set_ctrl q_ctrl q_next q_pop q_count q_push q_size q_depth q_buffer]; try done.
  - rewrite length_app. cbn [length]. f_equal. lia.
  - rewrite length_app. cbn [length]. lia.
  - rewrite (countb_insert _ _ _ pc), P1, length_app by done. cbn. lia.
  - rewrite (countb_insert _ _ _ pc), P2 by done. cbn. lia.
  - rewrite (countb_insert _ _ _ pc), P3 by done. cbn. lia.
  - lia.
  - intros k item [Hk|[Hk Hi]]%lookup_app_Some.
    + destruct (H10 k item Hk) as [Hl Hslot]. split; [done|]. intros _. apply Hslot. right.
      intros t' p d i E. pose proof (push_held _ _ _ _ _ H E eq_refl). lia.
    + apply list_lookup_singleton_Some in Hi as [Hi <-]. split; [done|]. rewrite length_app. cbn [length].
      intros [?|Hno]; [lia|]. destruct (Hno t ((h + Z.of_nat (length v)) mod depth) data 0%nat). apply list_lookup_insert_eq. by eapply lookup_lt_Some.
  - apply (threads_insert (fun _ => queue_pc_ok _ h (v ++ [data]))).
    + intros t' x E Hne. pose proof (H11 t' x E) as Hx.
      destruct x; cbn in *; try done; try (pose proof (push_held _ _ _ _ _ H E eq_refl); lia);
        destruct Hx as (Hp & item & v' & -> & Ha & Hs & _); (split; [done|]); exists item, (v' ++ [data]);
        (split; [done|split; [done|split; [done|]]]); intros _ ?%(f_equal length); rewrite length_app in *; cbn in *; lia.
    + cbn. rewrite length_app. cbn [length]. split; [f_equal; lia|]. split; [by rewrite last_snoc|].
      split; [lia|]. intros j b Hj. lia.
Qed.

(** One byte goes into the reserved slot; the other slots keep theirs. *)
Lemma queue_rel_push_byte h s v t position data i b :
  queue_rel h s v -> pcs s !! t = Some (QPushCopy position data i) -> data !! i = Some b ->
  queue_rel h (System (MkQueue (q_ctrl (obj s)) (q_size (obj s)) (q_depth (obj s))
      (upd (q_buffer (obj s)) (u32 (position * q_size (obj s)) + Z.of_nat i) b))
    (<[t := QPushCopy position data (S i)]> (pcs s))) v.
Proof.
  intros H Ht Hb. pose proof (qr_pc _ _ _ H _ _ Ht) as (Hp & Hlast & Hi & Hslot).
  apply lookup_lt_Some in Hb as Hlt. pose proof (qr_size _ _ _ H) as Hsz. rewrite Hsz.
  pose proof (slot_range (h + Z.of_nat (length v) - 1)). rewrite last_lookup in Hlast.
  destruct (qr_items _ _ _ H _ _ Hlast) as [Hl _]. rewrite slot_offset by lia.
  pose proof H as [H1 H2 H3 H4 H5 H6 H7 H8 H9 H10 H11]. split; cbn [obj pcs q_ctrl q_size q_depth q_buffer]; try done.
  - rewrite (countb_insert _ _ _ _ _ Ht). cbn. lia.
  - rewrite (countb_insert _ _ _ _ _ Ht). cbn. lia.
  - rewrite (countb_insert _ _ _ _ _ Ht). cbn. lia.
  - intros k item Hk. destruct (H10 k item Hk) as [Hlk Hsk]. split; [done|]. intros [Hkv|Hno].
    + intros j b' Hj Hjb. rewrite upd_ne; [by apply Hsk; [left|..]|].
      intros E. apply slot_byte_inj in E as [E _]; [|lia..]. rewrite Hp in E.
      apply slot_inj in E; lia.
    + destruct (Hno t position data (S i)). apply list_lookup_insert_eq. by eapply lookup_lt_Some.
  - apply (threads_insert (fun _ => queue_pc_ok _ h v)).
    + intros t' x E Hne. pose proof (H11 t' x E) as Hx. destruct x; cbn in *; try done.
      destruct Hne. by apply (push_unique h s v t' t _ _ H E Ht).
    + cbn. split; [done|]. split; [by rewrite last_lookup|]. split; [lia|]. intros j b' Hj Hjb.
      destruct (decide (j = i)) as [->|Hne]; [rewrite upd_eq; congruence|].
      rewrite upd_ne by lia. apply (Hslot j b'); [lia|done].
Qed.

(** The item is complete. *)
Lemma queue_rel_push_end h s v t position data i :
  queue_rel h s v -> pcs s !! t = Some (QPushCopy position data i) -> data !! i = None ->
  queue_rel h (System (set_ctrl (obj s) (push_end (q_ctrl (obj s)))) (<[t := QIdle]> (pcs s))) v.
Proof.
  intros H Ht Hb. pose proof (qr_pc _ _ _ H _ _ Ht) as (Hp & Hlast & Hi & Hslot).
  apply lookup_ge_None in Hb. pose proof (push_held _ _ _ _ _ H Ht eq_refl) as Hpu.
  rewrite last_lookup in Hlast. pose proof H as [H1 H2 H3 H4 H5 H6 H7 H8 H9 H10 H11].
  split; cbn [obj pcs set_ctrl push_end q_ctrl q_next q_pop q_count q_push q_size q_depth q_buffer]; try done.
  - rewrite (countb_insert _ _ _ _ _ Ht). cbn. lia.
  - rewrite (countb_insert _ _ _ _ _ Ht). cbn. lia.
  - rewrite (countb_insert _ _ _ _ _ Ht). cbn. lia.
  - lia.
  - intros k item Hk. destruct (H10 k item Hk) as [Hlk Hsk]. split; [done|]. intros _.
    apply lookup_lt_Some in Hk as Hkl. destruct (decide (S k < length v)%nat) as [|Hge]; [apply Hsk; by left|].
    replace (Init.Nat.pred (length v)) with k in Hlast by lia. rewrite Hk in Hlast. injection Hlast as ->.
    replace (h + Z.of_nat k) with (h + Z.of_nat (length v) - 1) by lia. rewrite <- Hp.
    intros j b Hj. apply Hslot. lia.
  - apply (threads_insert (fun _ => queue_pc_ok _ h v)); [|done].
    intros t' x E Hne. pose proof (H11 t' x E) as Hx. destruct x; cbn in *; try done.
    + destruct Hx as (? & item & v' & ? & ? & ? & _). split; [done|]. exists item, v'. done.
    + destruct Hx as (? & item & v' & ? & ? & ? & _). split; [done|]. exists item, v'. done.
Qed.

(** The head is claimed: for good by a pop, for reading by a peek. *)
Lemma queue_rel_front_begin h s v t pc pc' c position :
  queue_rel h s v -> pcs s !! t = Some pc -> is_popping pc = false -> holds_pop pc = false -> holds_push pc = false ->
  (pc' = QPopCopy position [] /\ try_pop_begin (q_ctrl (obj s)) (q_depth (obj s)) = Some (c, position) \/
   pc' = QPeekCopy position [] /\ try_peek_begin (q_ctrl (obj s)) (q_depth (obj s)) = Some (c, position)) ->
  queue_rel h (System (set_ctrl (obj s) c) (<[t := pc']> (pcs s))) v.
Proof.
  intros H Ht P1 P2 P3 Hbeg. pose proof (queue_flags _ _ _ H) as [Hfo Hfu].
  pose proof (queue_count_range _ _ _ H) as [Hc Hc']. pose proof (qr_bound _ _ _ H) as Hb.
  pose proof (qr_depth _ _ _ H) as Hd. pose proof (qr_head _ _ _ H) as Hh. pose proof (qr_next _ _ _ H) as Hn.
  pose proof (qr_size _ _ _ H) as Hsz.
  set (cnt := q_count (q_ctrl (obj s))) in *.
  assert (q_pop (q_ctrl (obj s)) = 0 /\ q_push (q_ctrl (obj s)) < cnt /\
          position = u32 (u32 (q_next (q_ctrl (obj s)) + depth) - cnt) /\
          c = MkQueueCtrl (q_next (q_ctrl (obj s))) 1 (cnt - Z.b2z (is_popping pc')) (q_push (q_ctrl (obj s))))
    as (E0 & Hlt & Hpos & ->).
  { unfold try_pop_begin, try_peek_begin in Hbeg. fold cnt in Hbeg. rewrite Hd in Hbeg.
    destruct (Z.eqb_spec (q_pop (q_ctrl (obj s))) 0); [|naive_solver].
    destruct (Z.leb_spec cnt (q_push (q_ctrl (obj s)))); [naive_solver|].
    destruct Hbeg as [(-> & E)|(-> & E)]; injection E as <- <-; cbn; (split; [done|]; split; [lia|]; split; [done|]); f_equal; [|lia].
    unfold bits24. rewrite (wrap_small 32), wrap_small by (unfold is_word; lia). lia. }
  assert (Z.of_nat (length v) = cnt) as Hlen by lia.
  assert (front_ok h v (q_push (q_ctrl (obj s))) position []) as Hfront.
  { split; [rewrite Hpos, Hn, Hlen; apply front_slot; lia|]. destruct v as [|item v']; [cbn in Hlen; lia|].
    exists item, v'. split; [done|]. split; [done|]. split; [cbn; lia|]. intros ? ->. cbn in Hlen. lia. }
  assert (holds_pop pc' = true /\ holds_push pc' = false) as [P4 P5] by (destruct Hbeg as [(-> & _)|(-> & _)]; done).
  apply (queue_rel_update h s v t pc); cbn [set_ctrl q_ctrl q_next q_pop q_count q_push q_size q_depth q_buffer];
    rewrite ?P1, ?P2, ?P3, ?P4, ?P5; cbn [Z.b2z]; try done; try lia; try (fold cnt; lia).
  - intros p d i ->. done.
  - by destruct Hbeg as [(-> & _)|(-> & _)].
Qed.

(** A byte of the head item is read. *)
Lemma front_ok_byte h s v t pc position acc :
  queue_rel h s v -> pcs s !! t = Some pc -> front_ok h v (q_push (q_ctrl (obj s))) position acc ->
  Z.of_nat (length acc) < size ->
  front_ok h v (q_push (q_ctrl (obj s))) position (acc ++ [slot_byte (obj s) position acc]).
Proof.
  intros H Ht (Hpos & item & v' & -> & Ha & Hle & Hne) Hlt. split; [done|]. exists item, v'. split; [done|].
  destruct (qr_items _ _ _ H 0%nat item eq_refl) as [Hl Hslot].
  destruct (lookup_lt_is_Some_2 item (length acc)) as [b Hb]; [lia|].
  assert (slot_byte (obj s) position acc = b) as ->.
  { unfold slot_byte. rewrite (qr_depth _ _ _ H), (qr_size _ _ _ H), Hpos.
    rewrite slot_offset by (lia || apply slot_range). change (Z.of_nat 0) with 0 in Hslot. rewrite Z.add_0_r in Hslot.
    apply Hslot; [|lia|done]. destruct v' as [|item' v'].
    - right. intros t' p d i E. apply Hne; [|done]. pose proof (push_held _ _ _ _ _ H E eq_refl). lia.
    - left. cbn. lia. }
  rewrite length_app. cbn [length]. split; [|split; [lia|done]].
  rewrite Nat.add_1_r, (take_S_r item (length acc) b) by done. by rewrite <- Ha.
Qed.

(** The copy is complete: it is the head item. *)
Lemma front_ok_end h v push position acc : front_ok h v push position acc ->
  (forall item, item ∈ v -> Z.of_nat (length item) = size) -> size <= Z.of_nat (length acc) ->
  exists v', v = acc :: v' /\ (push <> 0 -> v' <> []).
Proof.
  intros (_ & item & v' & -> & Ha & Hle & Hne) Hitems Hge. exists v'. split; [|done]. f_equal.
  rewrite Ha. symmetry. apply take_ge. assert (Z.of_nat (length item) = size) by (apply Hitems; left). lia.
Qed.

Lemma items_size h s v : queue_rel h s v -> forall item, item ∈ v -> Z.of_nat (length item) = size.
Proof. intros H item [k Hk]%list_elem_of_lookup. by apply (qr_items _ _ _ H k). Qed.

(** A pop ends: the head is removed and every item moves up. *)
Lemma queue_rel_pop_end h s v t position acc :
  queue_rel h s v -> pcs s !! t = Some (QPopCopy position acc) -> size <= Z.of_nat (length acc) ->
  exists v', v = acc :: v' /\
    queue_rel (h + 1) (System (set_ctrl (obj s) (pop_end (q_ctrl (obj s)))) (<[t := QIdle]> (pcs s))) v'.
Proof.
  intros H Ht Hge. pose proof (pop_held _ _ _ _ _ H Ht eq_refl) as Hpo.
  destruct (front_ok_end _ _ _ _ _ (qr_pc _ _ _ H _ _ Ht) (items_size _ _ _ H) Hge) as (v' & -> & Hne).
  exists v'. split; [done|]. pose proof H as [H1 H2 H3 H4 H5 H6 H7 H8 H9 H10 H11]. cbn [length] in *.
  split; cbn [obj pcs set_ctrl pop_end q_ctrl q_next q_pop q_count q_push q_size q_depth q_buffer]; try done; try lia.
  - rewrite H4. f_equal. lia.
  - rewrite (countb_insert _ _ _ _ _ Ht). cbn. lia.
  - rewrite (countb_insert _ _ _ _ _ Ht). cbn. lia.
  - rewrite (countb_insert _ _ _ _ _ Ht). cbn. lia.
  - intros k item Hk. destruct (H10 (S k) item Hk) as [Hl Hs]. split; [done|].
    replace (h + 1 + Z.of_nat k) with (h + Z.of_nat (S k)) by lia. intros [Hlt|Hno]; apply Hs; [left; lia|right].
    intros t' p d i E. destruct (decide (t' = t)) as [->|Hn]; [by simplify_eq|].
    apply (Hno t' p d i). by rewrite list_lookup_insert_ne.
  - apply (threads_insert (fun _ => queue_pc_ok _ (h + 1) v')); [|done].
    intros t' x E Hn. pose proof (H11 t' x E) as Hx.
    destruct x; cbn in *; try done; try (destruct Hn; by apply (pop_unique _ _ _ _ _ _ _ H E Ht)).
    destruct Hx as (Hp & Hlast & Hi & Hs). split; [rewrite Hp; f_equal; lia|]. split; [|done].
    destruct v'; [|done]. destruct Hne; [|done]. rewrite (push_held _ _ _ _ _ H E eq_refl). lia.
Qed.

(** A peek ends: the head stays. *)
Lemma queue_rel_peek_end h s v t position acc :
  queue_rel h s v -> pcs s !! t = Some (QPeekCopy position acc) -> size <= Z.of_nat (length acc) ->
  exists v', v = acc :: v' /\
    queue_rel h (System (set_ctrl (obj s) (pop_end (q_ctrl (obj s)))) (<[t := QIdle]> (pcs s))) v.
Proof.
  intros H Ht Hge. pose proof (pop_held _ _ _ _ _ H Ht eq_refl) as Hpo.
  destruct (front_ok_end _ _ _ _ _ (qr_pc _ _ _ H _ _ Ht) (items_size _ _ _ H) Hge) as (v' & E & _).
  exists v'. split; [done|]. pose proof (qr_one _ _ _ H).
  apply (queue_rel_update h s v t (QPeekCopy position acc));
    cbn [set_ctrl pop_end q_ctrl q_next q_pop q_count q_push q_size q_depth q_buffer is_popping holds_pop holds_push Z.b2z];
    try done; try lia; try apply H; by left.
Qed.

(** Clear takes both flags and then resets the control word. *)
Lemma queue_rel_clear_begin h s v t pc pc' c :
  queue_rel h s v -> pcs s !! t = Some pc ->
  (pc = QClear1 /\ pc' = QClear2 /\ try_clear_begin_1 (q_ctrl (obj s)) = Some c \/
   pc = QClear2 /\ pc' = QClear3 /\ try_clear_begin_2 (q_ctrl (obj s)) = Some c) ->
  queue_rel h (System (set_ctrl (obj s) c) (<[t := pc']> (pcs s))) v.
Proof.
  intros H Ht Hc. pose proof (qr_one _ _ _ H). unfold try_clear_begin_1, try_clear_begin_2 in Hc.
  destruct (Z.eqb_spec (q_pop (q_ctrl (obj s))) 0), (Z.eqb_spec (q_push (q_ctrl (obj s))) 0);
    destruct Hc as [(-> & -> & Hc)|(-> & -> & Hc)]; try done; injection Hc as <-;
    (eapply queue_rel_update; [done|exact Ht|..]);
    cbn [set_ctrl q_ctrl q_next q_pop q_count q_push q_size q_depth q_buffer is_popping holds_pop holds_push Z.b2z];
    try done; try lia; try apply H; try (by left); right; intros t' x Hne E;
    destruct x; try done; destruct Hne; by apply (pop_unique _ _ _ _ _ _ _ H E Ht).
Qed.

Lemma queue_rel_clear h s v t :
  queue_rel h s v -> pcs s !! t = Some QClear3 ->
  queue_rel 0 (System (set_ctrl (obj s) (MkQueueCtrl 0 0 0 0)) (<[t := QIdle]> (pcs s))) [].
Proof.
  intros H Ht. pose proof (pop_held _ _ _ _ _ H Ht eq_refl) as Hpo. pose proof (push_held _ _ _ _ _ H Ht eq_refl) as Hpu.
  assert (forall t' x, pcs s !! t' = Some x -> t' <> t -> holds_pop x = false /\ holds_push x = false) as Hothers.
  { intros t' x E Hne. split; [destruct (holds_pop x) eqn:P|destruct (holds_push x) eqn:P]; try done; destruct Hne.
    - by apply (pop_unique _ _ _ _ _ _ _ H E Ht).
    - by apply (push_unique _ _ _ _ _ _ _ H E Ht). }
  assert (countb is_popping (pcs s) = 0) as Hnp.
  { destruct (Z.eq_dec (countb is_popping (pcs s)) 0); [done|].
    pose proof (countb_range is_popping (pcs s)). destruct (countb_exists is_popping (pcs s)) as (t' & x & E & P); [lia|].
    destruct (decide (t' = t)) as [->|Hne]; [by simplify_eq|]. destruct (Hothers t' x E Hne). by destruct x. }
  pose proof H as [H1 H2 H3 H4 H5 H6 H7 H8 H9 H10 H11].
  split; cbn [obj pcs set_ctrl q_ctrl q_next q_pop q_count q_push q_size q_depth q_buffer length]; try done; try lia.
  - rewrite (countb_insert _ _ _ _ _ Ht), Hnp. done.
  - rewrite (countb_insert _ _ _ _ _ Ht). cbn. lia.
  - rewrite (countb_insert _ _ _ _ _ Ht). cbn. lia.
  - apply (threads_insert (fun _ => queue_pc_ok _ 0 [])); [|done].
    intros t' x E Hne. destruct (Hothers t' x E Hne). pose proof (H11 t' x E) as Hx. by destruct x.
Qed.

(** [check_depth] does not throw. *)
Lemma check_depth_ok h s v : queue_rel h s v -> check_depth (obj s) = Some depth.
Proof.
  intros H. pose proof (queue_count_range _ _ _ H). pose proof (qr_bound _ _ _ H).
  unfold check_depth. rewrite (qr_depth _ _ _ H), (qr_next _ _ _ H).
  pose proof (slot_range (h + Z.of_nat (length v))).
  rewrite (proj2 (Z.ltb_ge _ _)), (proj2 (Z.ltb_ge _ _)) by lia. done.
Qed.

(** ** The steps, call by call *)

#[local] Hint Resolve spec_nil spec_run_one queue_rel_id : core.

Definition queue_step_ok (s : system (O := queue)) (v : list (list Z)) (t : nat) (r : queue_result) : Prop :=
  let '(es, o, pc) := r in
  exists h' v', spec_run (fifo_spec size depth) v (map (fun e => (t, e)) es) v' /\
    queue_rel h' (System o (<[t := pc]> (pcs s))) v'.

Lemma queue_step_return h s v t code pc : queue_rel h s v -> pcs s !! t = Some pc ->
  holds_pop pc = false -> holds_push pc = false -> queue_step_ok s v t ([EReturn code], obj s, QIdle).
Proof.
  intros H Ht P1 P2. exists h, v. split; [by apply spec_run_one; constructor|].
  apply (queue_rel_pc h s v t pc); try done; by destruct pc.
Qed.

Lemma queue_step_pc h s v t pc pc' : queue_rel h s v -> pcs s !! t = Some pc ->
  holds_pop pc = false -> holds_push pc = false -> holds_pop pc' = false -> holds_push pc' = false ->
  queue_pc_ok (obj s) h v pc' -> queue_step_ok s v t ([], obj s, pc').
Proof.
  intros H Ht P1 P2 P3 P4 Hok. exists h, v. split; [constructor|].
  apply (queue_rel_pc h s v t pc); try done; destruct pc, pc'; done.
Qed.

Lemma queue_fail_ok h s v t mode again pc : queue_rel h s v -> pcs s !! t = Some pc ->
  holds_pop pc = false -> holds_push pc = false -> holds_pop again = false -> holds_push again = false ->
  queue_pc_ok (obj s) h v again -> queue_step_ok s v t (queue_fail mode again (obj s)).
Proof.
  intros H Ht P1 P2 P3 P4 Hok. unfold queue_fail. destruct mode as [[|]|];
    by first [eapply queue_step_return|eapply queue_step_pc].
Qed.

Lemma queue_enter_ok h s v t err body : queue_rel h s v -> pcs s !! t = Some QIdle ->
  queue_step_ok s v t (body depth) -> queue_step_ok s v t (queue_enter err (obj s) body).
Proof.
  intros H Ht Hb. unfold queue_enter. destruct err; [by eapply queue_step_return|].
  by rewrite (check_depth_ok _ _ _ H).
Qed.

Lemma push_attempt_ok h s v t mode data pc : queue_rel h s v -> pcs s !! t = Some pc ->
  pc = QIdle \/ pc = QPush data -> Z.of_nat (length data) = size ->
  queue_step_ok s v t (push_attempt mode data (obj s) depth).
Proof.
  intros H Ht Hpc Hd. unfold push_attempt. pose proof (qr_depth _ _ _ H) as Hdep.
  destruct (try_push_begin (q_ctrl (obj s)) depth) as [[c position]|] eqn:E.
  - rewrite <- Hdep in E. destruct (queue_rel_push_begin _ _ _ _ _ _ _ _ H Ht Hpc Hd E) as [Hlt HR].
    exists h, (v ++ [data]). split; [by apply spec_run_one; constructor|done].
  - eapply queue_fail_ok; try done; by destruct Hpc as [-> | ->].
Qed.

Lemma front_attempt_ok h s v t mode pc : queue_rel h s v -> pcs s !! t = Some pc ->
  is_popping pc = false -> holds_pop pc = false -> holds_push pc = false ->
  queue_step_ok s v t (pop_attempt mode (obj s) depth) /\ queue_step_ok s v t (peek_attempt mode (obj s) depth).
Proof.
  intros H Ht P1 P2 P3. unfold pop_attempt, peek_attempt. pose proof (qr_depth _ _ _ H) as Hdep. split.
  - destruct (try_pop_begin (q_ctrl (obj s)) depth) as [[c position]|] eqn:E; [|by eapply queue_fail_ok].
    rewrite <- Hdep in E. exists h, v. split; [constructor|]. eapply queue_rel_front_begin; try done. left. done.
  - destruct (try_peek_begin (q_ctrl (obj s)) depth) as [[c position]|] eqn:E; [|by eapply queue_fail_ok].
    rewrite <- Hdep in E. exists h, v. split; [constructor|]. eapply queue_rel_front_begin; try done. right. done.
Qed.

Lemma front_copy_ok h s v t position acc : queue_rel h s v ->
  (pcs s !! t = Some (QPopCopy position acc) -> queue_step_ok s v t (pop_copy position acc (obj s))) /\
  (pcs s !! t = Some (QPeekCopy position acc) -> queue_step_ok s v t (peek_copy position acc (obj s))).
Proof.
  intros H. unfold pop_copy, peek_copy. rewrite (qr_size _ _ _ H).
  split; intros Ht; destruct (Z.ltb_spec (Z.of_nat (length acc)) size).
  - exists h, v. split; [constructor|]. eapply queue_rel_pc; try done.
    eapply front_ok_byte; try done. exact (qr_pc _ _ _ H _ _ Ht).
  - destruct (queue_rel_pop_end _ _ _ _ _ _ H Ht) as (v' & -> & HR); [lia|].
    exists (h + 1), v'. split; [by apply spec_run_one; constructor|done].
  - exists h, v. split; [constructor|]. eapply queue_rel_pc; try done.
    eapply front_ok_byte; try done. exact (qr_pc _ _ _ H _ _ Ht).
  - destruct (queue_rel_peek_end _ _ _ _ _ _ H Ht) as (v' & -> & HR); [lia|].
    exists h, (acc :: v'). split; [by apply spec_run_one; constructor|done].
Qed.

Lemma push_copy_ok h s v t position data i : queue_rel h s v -> pcs s !! t = Some (QPushCopy position data i) ->
  queue_step_ok s v t (push_copy position data i (obj s)).
Proof.
  intros H Ht. unfold push_copy. destruct (data !! i) as [b|] eqn:E; exists h, v; (split; [constructor|]).
  - by apply queue_rel_push_byte.
  - by eapply queue_rel_push_end.
Qed.

Lemma clear_ok h s v t stopped : queue_rel h s v ->
  (pcs s !! t = Some QClear1 -> queue_step_ok s v t (clear_round_1 stopped (obj s))) /\
  (pcs s !! t = Some QClear2 -> queue_step_ok s v t (clear_round_2 stopped (obj s))) /\
  (pcs s !! t = Some QClear3 -> queue_step_ok s v t (clear_store (obj s))).
Proof.
  intros H. unfold clear_round_1, clear_round_2. split_and!; intros Ht.
  - destruct (try_clear_begin_1 (q_ctrl (obj s))) as [c|] eqn:E.
    + exists h, v. split; [constructor|]. eapply queue_rel_clear_begin; try done. left. done.
    + destruct stopped; [by eapply queue_step_return|by eapply queue_step_pc].
  - destruct (try_clear_begin_2 (q_ctrl (obj s))) as [c|] eqn:E.
    + exists h, v. split; [constructor|]. eapply queue_rel_clear_begin; try done. right. done.
    + destruct stopped; exists h, v.
      * split; [by apply spec_run_one; constructor|]. by eapply queue_rel_pc.
      * split; [constructor|]. by apply queue_rel_id.
  - exists 0, []. split; [by apply spec_run_one; constructor|]. by eapply queue_rel_clear.
Qed.

Lemma size_ok h s v t p : queue_rel h s v -> pcs s !! t = Some QIdle ->
  queue_step_ok s v t (cellSyncQueueSize p (obj s)).
Proof.
  intros H Ht. eapply queue_enter_ok; try done. exists h, v. split; [|by apply queue_rel_id].
  apply spec_run_one. constructor. pose proof (queue_count_range _ _ _ H). pose proof (queue_flags _ _ _ H).
  pose proof (qr_bound _ _ _ H). change 0xffffff with (2 ^ 24 - 1). rewrite land_pow2m1, Z.mod_small by lia. lia.
Qed.

Lemma queue_simulation p h s v t a es s' :
  queue_rel h s v -> sched_step (queue_tstep p) s t a = Some (es, s') ->
  exists v', spec_run (fifo_spec size depth) v es v' /\ exists h', queue_rel h' s' v'.
Proof.
  intros H (pc & es0 & o & pc' & Ht & Hs & -> & ->)%sched_step_inv.
  cut (queue_step_ok s v t (es0, o, pc')); [intros (h' & v' & ? & ?); eauto|].
  pose proof (qr_size _ _ _ H) as Hsz. pose proof (qr_depth _ _ _ H) as Hdep. pose proof (qr_pc _ _ _ H _ _ Ht) as Hok.
  destruct pc, a; cbn in Hs; try done; rewrite ?Hsz, ?Hdep in Hs;
    try match type of Hs with context [Z.eqb ?x ?y] => destruct (Z.eqb_spec x y); [|done] end; apply (inj Some) in Hs as <-;
    try (by eapply size_ok);
    try (eapply queue_enter_ok; [done..|]);
    first [by eapply queue_step_pc
          |by eapply push_attempt_ok; eauto
          |by eapply front_attempt_ok; eauto
          |by eapply push_copy_ok
          |by eapply (front_copy_ok h)
          |by eapply (clear_ok h)].
Qed.

End simulation.

Lemma queue_rel_initial size depth n memory : 0 <= size -> 0 < depth < 2 ^ 24 ->
  queue_rel size depth 0 (System (MkQueue (MkQueueCtrl 0 0 0 0) size depth memory) (replicate n QIdle)) [].
Proof.
  intros Hs Hd. split; cbn; try done; rewrite ?countb_replicate by done; try done; try lia.
  intros t pc [-> _]%lookup_replicate. done.
Qed.

(** C3: under every interleaving of producers, consumers, peekers, clears and
    size queries, an initialised queue whose depth fits its 24-bit fields is a
    bounded FIFO queue: items come out whole, in the order they went in, never
    more than the depth, and no call throws. *)
Theorem queue_refines_fifo p n size depth memory sch es s :
  0 <= size -> 0 < depth < 2 ^ 24 -> depth * size <= 2 ^ 32 ->
  queue_run p n size depth memory sch = Some (es, s) ->
  (exists v, spec_run (fifo_spec size depth) [] es v /\ Z.of_nat (length v) <= depth) /\
  (forall t, pcs s !! t <> Some QThrown).
Proof.
  intros Hs Hd Hr H. apply (run_refines _ (fifo_spec size depth) (fun s v => exists h, queue_rel size depth h s v) _ [])
    in H as (v & Hv & h & HR).
  - split; [exists v; split; [done|apply HR]|]. intros t Ht. exact (qr_pc _ _ _ _ _ HR t _ Ht).
  - intros s0 v0 t a es0 s1 [h Hrel] Hstep. by eapply queue_simulation.
  - exists 0. by apply queue_rel_initial.
Qed.

(** Two slots of one byte: thread 0 pushes three items, thread 1 peeks and
    pops in between. *)
Definition queue_demo : list (nat * queue_action) :=
  let go t := (t, CContinue false) in
  [(0%nat, CTryPush 0x10 [7]); (1%nat, CTryPop 0x10); go 0%nat; go 0%nat; (0%nat, CTryPush 0x10 [8]);
   (1%nat, CPeek 0x10); go 1%nat; go 1%nat; (1%nat, CContinue true); (1%nat, CPop 0x10); go 1%nat;
   go 0%nat; go 0%nat; (0%nat, CTryPush 0x10 [9]); go 1%nat; go 1%nat; (0%nat, CTryPush 0x10 [9]); (1%nat, CSize)].

Definition queue_demo_events : list (nat * queue_event) :=
  [(0%nat, EPushed [7]); (1%nat, EReturn CELL_SYNC_ERROR_BUSY); (0%nat, EPushed [8]); (1%nat, EPeeked [7]);
   (0%nat, EReturn CELL_SYNC_ERROR_BUSY); (1%nat, EPopped [7]); (0%nat, EPushed [9]); (1%nat, ESize 2)].

Lemma queue_refines_fifo_witness :
  exists s, queue_run 0x40 2 1 2 (fun _ => 0) queue_demo = Some (queue_demo_events, s) /\
    (exists v, spec_run (fifo_spec 1 2) [] queue_demo_events v /\ Z.of_nat (length v) <= 2) /\
    (forall t, pcs s !! t <> Some QThrown).
Proof.
  eexists. assert (queue_run 0x40 2 1 2 (fun _ => 0) queue_demo = Some (queue_demo_events, _)) as E
    by (vm_compute; reflexivity).
  split; [exact E|]. apply (queue_refines_fifo 0x40 2 1 2 (fun _ => 0) queue_demo queue_demo_events _); [lia..|exact E].
Defined.

(** Initialize accepts a depth of 2^24, which the count cannot represent: the
    push of the last item makes a full queue look empty. *)
Lemma queue_depth_unchecked :
  (cellSyncQueueInitialize 0x40 0x100 0 (2 ^ 24)).1 = CELL_OK /\
  try_push_begin (MkQueueCtrl (2 ^ 24 - 1) 0 (2 ^ 24 - 1) 0) (2 ^ 24) = Some (MkQueueCtrl 0 0 0 1, 2 ^ 24 - 1).
Proof. split; vm_compute; reflexivity. Qed.
