(* ===== verification/CellRtc.v ===== *)
(** * cellRtc: the real-time clock library

    Ticks (microseconds since 0001-01-01) and calendar dates of
    [ps3fw/cellRtc.cpp], the conversions between them, date arithmetic, and the
    DOS, Unix, system and Win32 time formats.  A call yields its error code and
    the value it stores, if it stores one.  Text formats are in CellRtcText. *)
From S2P Require Import Prelude.

Definition CELL_OK : Z := 0.
Definition CELL_RTC_ERROR_NOT_INITIALIZED : Z := 0x80010601.
Definition CELL_RTC_ERROR_INVALID_POINTER : Z := 0x80010602.
Definition CELL_RTC_ERROR_INVALID_VALUE : Z := 0x80010603.
Definition CELL_RTC_ERROR_INVALID_ARG : Z := 0x80010604.
Definition CELL_RTC_ERROR_NO_CLOCK : Z := 0x80010606.
Definition CELL_RTC_ERROR_BAD_PARSE : Z := 0x80010607.
Definition CELL_RTC_ERROR_INVALID_YEAR : Z := 0x80010621.
Definition CELL_RTC_ERROR_INVALID_MONTH : Z := 0x80010622.
Definition CELL_RTC_ERROR_INVALID_DAY : Z := 0x80010623.
Definition CELL_RTC_ERROR_INVALID_HOUR : Z := 0x80010624.
Definition CELL_RTC_ERROR_INVALID_MINUTE : Z := 0x80010625.
Definition CELL_RTC_ERROR_INVALID_SECOND : Z := 0x80010626.
Definition CELL_RTC_ERROR_INVALID_MICROSECOND : Z := 0x80010627.

(** ** Data *)

(** Six [u16] fields and a [u32]. *)
Record CellRtcDateTime := DateTime {
  year : Z; month : Z; day : Z; hour : Z; minute : Z; second : Z; microsecond : Z }.

#[global] Instance CellRtcDateTime_eq_dec : EqDecision CellRtcDateTime.
Proof. solve_decision. Defined.

Definition RTC_MAGIC_OFFSET : Z := 62135596800000000.
Definition RTC_FILETIME_OFFSET : Z := 50491123200000000.
Definition RTC_SYSTEM_TIME_MIN : Z := 63082281600000000.
Definition RTC_SYSTEM_TIME_MAX : Z := 66238041599999999.

Definition DAYS_IN_400_YEARS : Z := 365 * 400 + 97.
Definition DAYS_IN_100_YEARS : Z := 365 * 100 + 24.
Definition DAYS_IN_4_YEARS : Z := 365 * 4 + 1.

Definition DAYS_IN_MONTH : list Z := [31; 28; 31; 30; 31; 30; 31; 31; 30; 31; 30; 31].
Definition DAYS_IN_MONTH_LEAP : list Z := [31; 29; 31; 30; 31; 30; 31; 31; 30; 31; 30; 31].
Definition MONTH_OFFSET : list Z := [0; 31; 59; 90; 120; 151; 181; 212; 243; 273; 304; 334; 0xffff].
Definition MONTH_OFFSET_LEAP : list Z := [0; 31; 60; 91; 121; 152; 182; 213; 244; 274; 305; 335; 0xffff].

(** [a[i]] of a constant array; every index the code uses is in range. *)
Definition arr (a : list Z) (i : Z) : Z := nth (Z.to_nat i) a 0.

Definition is_leap_year (y : Z) : bool := (y mod 4 =? 0) && (negb (y mod 100 =? 0) || (y mod 400 =? 0)).

Definition cellRtcGetTickResolution : Z := 1000000.

(** ** Ticks and dates *)

Definition tick_to_date_time (tick : Z) : CellRtcDateTime :=
  let microseconds := u32 (tick mod 1000000) in
  let seconds := u16 (tick / 1000000 mod 60) in
  let minutes := u16 (tick / (60 * 1000000) mod 60) in
  let hours := u16 (tick / (60 * 60 * 1000000) mod 24) in
  let days_tmp := u32 (tick / (24 * 60 * 60 * 1000000)) in
  let year_400 := days_tmp / DAYS_IN_400_YEARS in
  let days_tmp := u32 (days_tmp - year_400 * DAYS_IN_400_YEARS) in
  let year_within_400_interval :=
    u32 (u32 (u32 (days_tmp - days_tmp / (DAYS_IN_4_YEARS - 1)) + days_tmp / DAYS_IN_100_YEARS)
         - days_tmp / (DAYS_IN_400_YEARS - 1)) / 365 in
  let days_tmp :=
    u32 (days_tmp - (year_within_400_interval * 365 + year_within_400_interval / 4
                     - year_within_400_interval / 100 + year_within_400_interval / 400)) in
  let years := u16 (year_400 * 400 + year_within_400_interval + 1) in
  let month_offset := if is_leap_year years then MONTH_OFFSET_LEAP else MONTH_OFFSET in
  let month_approx := days_tmp / 29 in
  let month_approx := if days_tmp <? arr month_offset month_approx then month_approx - 1 else month_approx in
  let months := u16 (month_approx + 1) in
  let days_tmp := u32 (days_tmp - arr month_offset month_approx) in
  (* narrow<u16>(days_tmp + 1): the value fits, see day_narrow *)
  DateTime years months (days_tmp + 1) hours minutes seconds microseconds.

Definition date_time_to_tick (d : CellRtcDateTime) : Z :=
  let days_in_previous_years :=
    u32 (year d * 365 + (year d + 3) / 4 - (year d + 99) / 100 + (year d + 399) / 400 - 366) in
  let m := if month d =? 0 then 1 else if 12 <? month d then 12 else month d in
  let days_in_previous_months :=
    if is_leap_year (year d) then arr MONTH_OFFSET_LEAP (m - 1) else arr MONTH_OFFSET (m - 1) in
  let days := u32 (days_in_previous_years + days_in_previous_months + day d - 1) in
  u64 (microsecond d + second d * 1000000 + minute d * 60 * 1000000
       + hour d * 60 * 60 * 1000000 + days * 24 * 60 * 60 * 1000000).

Definition cellRtcCheckValid (d : CellRtcDateTime) : Z :=
  if (year d =? 0) || (10000 <=? year d) then CELL_RTC_ERROR_INVALID_YEAR
  else if (month d <? 1) || (12 <? month d) then CELL_RTC_ERROR_INVALID_MONTH
  else
    let days_in_month := if is_leap_year (year d) then DAYS_IN_MONTH_LEAP else DAYS_IN_MONTH in
    if (day d =? 0) || (arr days_in_month (month d - 1) <? day d) then CELL_RTC_ERROR_INVALID_DAY
    else if 24 <=? hour d then CELL_RTC_ERROR_INVALID_HOUR
    else if 60 <=? minute d then CELL_RTC_ERROR_INVALID_MINUTE
    else if 60 <=? second d then CELL_RTC_ERROR_INVALID_SECOND
    else if cellRtcGetTickResolution <=? microsecond d then CELL_RTC_ERROR_INVALID_MICROSECOND
    else CELL_OK.

Definition cellRtcIsLeapYear (y : Z) : Z :=
  if y <? 1 then CELL_RTC_ERROR_INVALID_ARG else Z.b2z (is_leap_year y).

Definition cellRtcGetDaysInMonth (y m : Z) : Z :=
  if (y <=? 0) || (m <=? 0) || (12 <? m) then CELL_RTC_ERROR_INVALID_ARG
  else if is_leap_year y then arr DAYS_IN_MONTH_LEAP (m - 1) else arr DAYS_IN_MONTH (m - 1).

(** C++ division and remainder truncate. *)
Definition cellRtcGetDayOfWeek (y m d : Z) : Z :=
  let '(y, m) := if (m =? 1) || (m =? 2) then (y - 1, m + 12) else (y, m) in
  Z.rem (Z.quot (m * 13 + 8) 5 + y + Z.quot y 4 - Z.quot y 100 + Z.quot y 400 + d) 7.

(** [a < b], [a = b], [a > b] give -1, 0 and 1. *)
Definition cellRtcCompareTick (tick0 tick1 : Z) : Z :=
  if tick1 <=? tick0 then Z.b2z (tick1 <? tick0) else -1.

(** ** Calls on guest memory

    [mapped] is [vm::check_addr]: whether an address lies in mapped memory.  A
    [vm::var] of the library is on the thread's stack, which is mapped, and
    starts out zero. *)
Definition SPU_FAKE_BASE_ADDR : Z := 0xE8000000.

Section calls.
Context (mapped : Z -> bool).

(** [sys_memory_get_page_attribute] gives CELL_OK. *)
Definition page_ok (addr : Z) : bool := negb (negb (mapped addr) || (SPU_FAKE_BASE_ADDR <=? addr)).

Definition checked {A} (p q : Z) (body : Z * option A) : Z * option A :=
  if negb (page_ok p) then (CELL_RTC_ERROR_INVALID_POINTER, None)
  else if negb (page_ok q) then (CELL_RTC_ERROR_INVALID_POINTER, None)
  else body.

(** The part of [cellRtcGetTick] after the pointer checks. *)
Definition get_tick (d : CellRtcDateTime) : Z * option Z :=
  if (10000 <=? year d) || (year d =? 0) then (CELL_RTC_ERROR_INVALID_VALUE, None)
  else (CELL_OK, Some (date_time_to_tick d)).

Definition cellRtcGetTick (pTime pTick : Z) (d : CellRtcDateTime) : Z * option Z :=
  checked pTime pTick (get_tick d).

Definition cellRtcSetTick (pTime pTick tick : Z) : Z * option CellRtcDateTime :=
  checked pTime pTick (CELL_OK, Some (tick_to_date_time tick)).

(** A [vm::var<CellRtcTick>] after [cellRtcGetTick]: zero when that failed. *)
Definition tick_var (d : CellRtcDateTime) : Z := from_option id 0 (get_tick d).2.

Definition cellRtcTickAddTicks (pTick0 pTick1 tick lAdd : Z) : Z * option Z :=
  checked pTick0 pTick1 (CELL_OK, Some (u64 (tick + lAdd))).
Definition cellRtcTickAddMicroseconds (pTick0 pTick1 tick lAdd : Z) : Z * option Z :=
  checked pTick0 pTick1 (CELL_OK, Some (u64 (tick + lAdd))).
Definition cellRtcTickAddSeconds (pTick0 pTick1 tick lAdd : Z) : Z * option Z :=
  checked pTick0 pTick1 (CELL_OK, Some (u64 (tick + lAdd * cellRtcGetTickResolution))).
Definition cellRtcTickAddMinutes (pTick0 pTick1 tick lAdd : Z) : Z * option Z :=
  checked pTick0 pTick1 (CELL_OK, Some (u64 (tick + lAdd * 60 * cellRtcGetTickResolution))).
Definition cellRtcTickAddHours (pTick0 pTick1 tick iAdd : Z) : Z * option Z :=
  checked pTick0 pTick1 (CELL_OK, Some (u64 (tick + iAdd * 60 * 60 * cellRtcGetTickResolution))).
Definition cellRtcTickAddDays (pTick0 pTick1 tick iAdd : Z) : Z * option Z :=
  checked pTick0 pTick1 (CELL_OK, Some (u64 (tick + iAdd * 60 * 60 * 24 * cellRtcGetTickResolution))).
Definition cellRtcTickAddWeeks (pTick0 pTick1 tick iAdd : Z) : Z * option Z :=
  checked pTick0 pTick1 (CELL_OK, Some (u64 (tick + iAdd * 60 * 60 * 24 * 7 * cellRtcGetTickResolution))).

(** Days in the new month; for a date that does not exist the error code ends
    up in the variable, as a negative [s32]. *)
Definition month_days (new_year new_month : Z) : Z :=
  if (new_year =? 0) || (new_month <? 1) || (12 <? new_month) then s32 CELL_RTC_ERROR_INVALID_ARG
  else if is_leap_year new_year then arr DAYS_IN_MONTH_LEAP (new_month - 1)
  else arr DAYS_IN_MONTH (new_month - 1).

Definition clamp_day (days d : Z) : Z := if days <? d then u16 days else d.

(** The error of the inner [cellRtcGetTick] is dropped: then nothing is stored. *)
Definition cellRtcTickAddMonths (pTick0 pTick1 tick iAdd : Z) : Z * option Z :=
  checked pTick0 pTick1 (
    let d := tick_to_date_time tick in
    let total_months := s32 (year d * 12 + month d + iAdd - 1) in
    let new_year := u16 (Z.quot total_months 12) in
    let new_month := u16 (total_months - new_year * 12 + 1) in
    let day' := clamp_day (month_days new_year new_month) (day d) in
    (CELL_OK, (get_tick (DateTime new_year new_month day' (hour d) (minute d) (second d) (microsecond d))).2)).

Definition cellRtcTickAddYears (pTick0 pTick1 tick iAdd : Z) : Z * option Z :=
  checked pTick0 pTick1 (
    let d := tick_to_date_time tick in
    let new_year := u16 (year d + iAdd) in
    let day' := clamp_day (month_days new_year (month d)) (day d) in
    (CELL_OK, (get_tick (DateTime new_year (month d) day' (hour d) (minute d) (second d) (microsecond d))).2)).

(** ** Other time formats *)

Definition cellRtcGetDosTime (pDateTime puiDosTime : Z) (d : CellRtcDateTime) : Z * option Z :=
  checked pDateTime puiDosTime (
    if year d <? 1980 then (-1, Some 0)
    else if 2108 <=? year d then (-1, Some 0xff9fbf7d)
    else
      let y := Z.shiftl (Z.land (year d - 1980) 0x7F) 9 in
      let mo := Z.shiftl (Z.land (month d) 0xF) 5 in
      let h := Z.shiftl (Z.land (hour d) 0x1F) 11 in
      let mi := Z.shiftl (Z.land (minute d) 0x3F) 5 in
      let da := Z.land (day d) 0x1F in
      let se := Z.land (Z.shiftr (second d) 1) 0x1F in
      let ymd := Z.lor (Z.lor y mo) da in
      let hms := Z.lor (Z.lor h mi) se in
      (CELL_OK, Some (u32 (Z.lor (Z.shiftl ymd 16) hms)))).

Definition cellRtcSetDosTime (pDateTime uiDosTime : Z) : Z * option CellRtcDateTime :=
  checked pDateTime pDateTime (
    let hms := Z.land uiDosTime 0xffff in
    let ymd := Z.shiftr uiDosTime 16 in
    (CELL_OK, Some (DateTime (u16 (Z.shiftr ymd 9 + 1980)) (Z.land (Z.shiftr ymd 5) 0xf) (Z.land ymd 0x1f)
                             (u16 (Z.shiftr hms 11)) (Z.land (Z.shiftr hms 5) 0x3f)
                             (Z.land (Z.shiftl hms 1) 0x3e) 0))).

Definition cellRtcGetSystemTime (pDateTime pTimeStamp : Z) (d : CellRtcDateTime) : Z * option Z :=
  checked pDateTime pTimeStamp (
    let tick := tick_var d in
    if tick <? RTC_SYSTEM_TIME_MIN then (CELL_RTC_ERROR_INVALID_VALUE, Some 0)
    else if RTC_SYSTEM_TIME_MAX + cellRtcGetTickResolution <=? tick then
      (CELL_RTC_ERROR_INVALID_VALUE, Some ((RTC_SYSTEM_TIME_MAX - RTC_SYSTEM_TIME_MIN) / cellRtcGetTickResolution))
    else (CELL_OK, Some ((tick - RTC_SYSTEM_TIME_MIN) / cellRtcGetTickResolution))).

Definition cellRtcGetTime_t (pDateTime piTime : Z) (d : CellRtcDateTime) : Z * option Z :=
  checked pDateTime piTime (
    let tick := tick_var d in
    if tick <? RTC_MAGIC_OFFSET then (CELL_RTC_ERROR_INVALID_VALUE, Some 0)
    else (CELL_OK, Some ((tick - RTC_MAGIC_OFFSET) / cellRtcGetTickResolution))).

Definition cellRtcGetWin32FileTime (pDateTime pulWin32FileTime : Z) (d : CellRtcDateTime) : Z * option Z :=
  checked pDateTime pulWin32FileTime (
    let tick := tick_var d in
    if tick <? RTC_FILETIME_OFFSET then (CELL_RTC_ERROR_INVALID_VALUE, Some 0)
    else (CELL_OK, Some (u64 ((tick - RTC_FILETIME_OFFSET) * 10)))).

Definition cellRtcSetTime_t (pDateTime iTime : Z) : Z * option CellRtcDateTime :=
  checked pDateTime pDateTime
    (CELL_OK, Some (tick_to_date_time (u64 (u64 (iTime * cellRtcGetTickResolution) + RTC_MAGIC_OFFSET)))).

Definition cellRtcSetSystemTime (pDateTime iTime : Z) : Z * option CellRtcDateTime :=
  checked pDateTime pDateTime
    (CELL_OK, Some (tick_to_date_time (u64 (u64 (iTime * cellRtcGetTickResolution) + RTC_SYSTEM_TIME_MIN)))).

Definition cellRtcSetWin32FileTime (pDateTime ulWin32FileTime : Z) : Z * option CellRtcDateTime :=
  checked pDateTime pDateTime
    (CELL_OK, Some (tick_to_date_time (u64 (ulWin32FileTime / 10 + RTC_FILETIME_OFFSET)))).

(** ** Calls on the system clock

    What [sys_time_get_current_time] and [sys_time_get_timezone] return is an
    argument: the error code with the two values. *)
Definition clock_tick (sec nsec : Z) : Z :=
  u64 (Z.quot nsec 1000 + sec * cellRtcGetTickResolution + RTC_MAGIC_OFFSET).

Definition cellRtcGetCurrentTick (now : Z * Z * Z) (pTick : Z) : Z * option Z :=
  checked pTick pTick (
    let '(ret, sec, nsec) := now in
    if ret <? CELL_OK then (ret, None) else (CELL_OK, Some (clock_tick sec nsec))).

Definition cellRtcGetCurrentClock (now : Z * Z * Z) (pClock iTimeZone : Z) : Z * option CellRtcDateTime :=
  checked pClock pClock (
    let '(ret, sec, nsec) := now in
    if ret <? CELL_OK then (ret, None)
    else (CELL_OK, Some (tick_to_date_time
            (u64 (clock_tick sec nsec + iTimeZone * 60 * cellRtcGetTickResolution))))).

Definition cellRtcGetCurrentClockLocalTime (now zone : Z * Z * Z) (pClock : Z) : Z * option CellRtcDateTime :=
  checked pClock pClock (
    let '(zret, timezone, summertime) := zone in
    if zret <? CELL_OK then (zret, None)
    else cellRtcGetCurrentClock now pClock (s32 (timezone + summertime))).

Definition cellRtcConvertUtcToLocalTime (zone : Z * Z * Z) (pUtc pLocalTime tick : Z) : Z * option Z :=
  let '(ret, timezone, summertime) := zone in
  if -1 <? ret then cellRtcTickAddMinutes pLocalTime pUtc tick (s32 (timezone + summertime)) else (ret, None).

Definition cellRtcConvertLocalTimeToUtc (zone : Z * Z * Z) (pLocalTime pUtc tick : Z) : Z * option Z :=
  let '(ret, timezone, summertime) := zone in
  if -1 <? ret then cellRtcTickAddMinutes pUtc pLocalTime tick (s32 (- s32 (timezone + summertime))) else (ret, None).

End calls.
