(* ===== verification/CellRtcProofs.v ===== *)
(** * cellRtc: the calendar is right

    The arithmetic of [tick_to_date_time] is matched with the rule "day [d] of
    the 400-year cycle is in year [y] when [year_start y <= d < year_start
    (y + 1)]".  The year formula is monotone in the day, so it is enough to
    evaluate it at both ends of the 400 years; the months are evaluated on all
    days of both kinds of year. *)
From S2P Require Import Prelude CellRtc.

Example tick_epoch : date_time_to_tick (DateTime 1970 1 1 0 0 0 0) = RTC_MAGIC_OFFSET.
Proof. reflexivity. Qed.
Example date_leap : tick_to_date_time (date_time_to_tick (DateTime 2000 12 31 23 59 59 999999)) = DateTime 2000 12 31 23 59 59 999999.
Proof. reflexivity. Qed.

(** ** Years within a 400-year cycle *)

(** Days before year [y] of the cycle, counting from 0. *)
Definition year_start (y : Z) : Z := 365 * y + y / 4 - y / 100 + y / 400.

(** The expression of [tick_to_date_time]. *)
Definition year_estimate (d : Z) : Z := d - d / 1460 + d / 36524 - d / 146096.

Lemma year_estimate_mono d : 0 <= d < 146096 -> year_estimate d <= year_estimate (d + 1).
Proof. intros Hd. unfold year_estimate. Z.div_mod_to_equations. lia. Qed.

Lemma year_estimate_le a b : 0 <= a -> b < 146097 -> a <= b -> year_estimate a <= year_estimate b.
Proof.
  intros Ha Hb Hab. replace b with (a + Z.of_nat (Z.to_nat (b - a))) by lia.
  assert (Z.of_nat (Z.to_nat (b - a)) <= b - a) as Hn by lia. revert Hn.
  induction (Z.to_nat (b - a)) as [|n IH]; intros Hn.
  - rewrite Z.add_0_r. lia.
  - replace (a + Z.of_nat (S n)) with (a + Z.of_nat n + 1) by lia.
    etrans; [apply IH; lia|]. apply year_estimate_mono. lia.
Qed.

(** All [n] from 0 up to a bound. *)
Definition forall_below (n : nat) (P : Z -> bool) : bool := forallb (fun i => P (Z.of_nat i)) (seq 0 n).

Lemma forall_below_spec n P i : forall_below n P = true -> 0 <= i < Z.of_nat n -> P i = true.
Proof.
  unfold forall_below. rewrite forallb_forall. intros H Hi. replace i with (Z.of_nat (Z.to_nat i)) by lia.
  apply H, in_seq. lia.
Qed.

Lemma year_ends : forall_below 400 (fun y =>
  (year_estimate (year_start y) / 365 =? y) && (year_estimate (year_start (y + 1) - 1) / 365 =? y)) = true.
Proof. vm_compute. reflexivity. Qed.

Lemma year_start_lt a b : 0 <= a -> a < b -> year_start (a + 1) <= year_start b.
Proof. intros Ha Hab. unfold year_start. Z.div_mod_to_equations. lia. Qed.

Lemma year_start_range y : 0 <= y < 400 -> 0 <= year_start y /\ year_start (y + 1) <= 146097.
Proof. intros Hy. unfold year_start. Z.div_mod_to_equations. lia. Qed.

(** Inside a year the estimate is that year. *)
Lemma year_of_day y d : 0 <= y < 400 -> year_start y <= d < year_start (y + 1) -> year_estimate d / 365 = y.
Proof.
  intros Hy Hd. pose proof (forall_below_spec _ _ y year_ends ltac:(lia)) as He.
  apply andb_prop in He as [H1%Z.eqb_eq H2%Z.eqb_eq]. pose proof (year_start_range y Hy).
  pose proof (year_estimate_le (year_start y) d). pose proof (year_estimate_le d (year_start (y + 1) - 1)).
  Z.div_mod_to_equations. lia.
Qed.

(** Every day of the cycle is in one of its years. *)
Lemma day_in_year d : 0 <= d < 146097 -> exists y, 0 <= y < 400 /\ year_start y <= d < year_start (y + 1).
Proof.
  intros Hd. assert (forall n : nat, (n <= 400)%nat -> d < year_start (Z.of_nat n) ->
    exists y, 0 <= y < 400 /\ year_start y <= d < year_start (y + 1)) as H.
  { induction n as [|n IH]; intros Hn Hlt; [change (year_start (Z.of_nat 0)) with 0 in Hlt; lia|].
    destruct (Z_lt_dec d (year_start (Z.of_nat n))); [apply IH; lia|].
    exists (Z.of_nat n). replace (Z.of_nat n + 1) with (Z.of_nat (S n)) by lia. lia. }
  apply (H 400%nat); [lia|]. change (year_start (Z.of_nat 400)) with 146097. lia.
Qed.

Lemma year_length y : 0 <= y -> year_start (y + 1) = year_start y + 365 + Z.b2z (is_leap_year (y + 1)).
Proof.
  intros Hy. unfold year_start, is_leap_year.
  destruct (Z.eqb_spec ((y + 1) mod 4) 0), (Z.eqb_spec ((y + 1) mod 100) 0), (Z.eqb_spec ((y + 1) mod 400) 0);
    cbn [negb andb orb Z.b2z]; Z.div_mod_to_equations; lia.
Qed.

Lemma leap_cycle c y : is_leap_year (400 * c + y) = is_leap_year y.
Proof.
  unfold is_leap_year. replace (400 * c + y) with (y + (100 * c) * 4) at 1 by lia. rewrite Z_mod_plus_full.
  replace (400 * c + y) with (y + (4 * c) * 100) at 1 by lia. rewrite Z_mod_plus_full.
  replace (400 * c + y) with (y + c * 400) by lia. by rewrite Z_mod_plus_full.
Qed.

(** ** Months within a year *)

Definition offsets (leap : bool) : list Z := if leap then MONTH_OFFSET_LEAP else MONTH_OFFSET.
Definition month_lengths (leap : bool) : list Z := if leap then DAYS_IN_MONTH_LEAP else DAYS_IN_MONTH.

(** The month the code finds for day [d] of a year, from 0. *)
Definition month_of (leap : bool) (d : Z) : Z :=
  if d <? arr (offsets leap) (d / 29) then d / 29 - 1 else d / 29.

Lemma months_checked : forallb (fun leap : bool =>
  forall_below (if leap then 366 else 365) (fun d =>
    let m := month_of leap d in
    (0 <=? m) && (m <? 12) && (arr (offsets leap) m <=? d) &&
    (d <? arr (offsets leap) m + arr (month_lengths leap) m))) [true; false] = true.
Proof. vm_compute. reflexivity. Qed.

Lemma month_of_spec leap d : 0 <= d < 365 + Z.b2z leap ->
  0 <= month_of leap d < 12 /\
  arr (offsets leap) (month_of leap d) <= d < arr (offsets leap) (month_of leap d) + arr (month_lengths leap) (month_of leap d).
Proof.
  intros Hd. assert (0 <= d < Z.of_nat (if leap then 366 else 365)) as Hn by (destruct leap; cbn [Z.b2z] in Hd; lia).
  pose proof months_checked as H. rewrite forallb_forall in H.
  specialize (H leap ltac:(destruct leap; [left|right; left]; done)). cbv beta in H.
  pose proof (forall_below_spec _ _ d H Hn) as Hm. cbv beta zeta in Hm. lia.
Qed.

Lemma days_checked : forallb (fun leap : bool => forall_below 12 (fun m => forall_below 31 (fun d =>
  (arr (month_lengths leap) m <=? d) ||
  ((month_of leap (arr (offsets leap) m + d) =? m) && (arr (offsets leap) m + d <? 365 + Z.b2z leap) &&
   (0 <=? arr (offsets leap) m) && (arr (month_lengths leap) m <=? 31))))) [true; false] = true.
Proof. vm_compute. reflexivity. Qed.

Lemma month_of_day leap m d : 0 <= m < 12 -> 0 <= d < arr (month_lengths leap) m -> d < 31 ->
  month_of leap (arr (offsets leap) m + d) = m /\ 0 <= arr (offsets leap) m /\
  arr (offsets leap) m + d < 365 + Z.b2z leap.
Proof.
  intros Hm Hd Hd'. pose proof days_checked as H. rewrite forallb_forall in H.
  specialize (H leap ltac:(destruct leap; [left|right; left]; done)). cbv beta in H.
  pose proof (forall_below_spec _ _ m H ltac:(lia)) as H1. cbv beta in H1.
  pose proof (forall_below_spec _ _ d H1 ltac:(lia)) as H2. cbv beta in H2. lia.
Qed.

Lemma month_lengths_range leap m : 0 <= m < 12 -> 28 <= arr (month_lengths leap) m <= 31.
Proof.
  intros Hm. assert (forall_below 12 (fun m => (28 <=? arr (month_lengths leap) m) && (arr (month_lengths leap) m <=? 31)) = true)
    as H by (by destruct leap).
  pose proof (forall_below_spec _ _ m H ltac:(lia)) as Hb. cbv beta in Hb. lia.
Qed.

(** ** Dates and day numbers *)

Definition ticks_per_day : Z := 86400000000.

(** The microseconds of the day. *)
Definition time_of_day (d : CellRtcDateTime) : Z :=
  ((hour d * 60 + minute d) * 60 + second d) * 1000000 + microsecond d.

(** The days before day [d] of month [m] (from 0) of the year [y + 1] of cycle [c]. *)
Definition day_number (c y m d : Z) : Z :=
  146097 * c + year_start y + arr (offsets (is_leap_year (y + 1))) m + d.

Record valid_date (d : CellRtcDateTime) : Prop := ValidDate {
  vd_year : 1 <= year d <= 9999;
  vd_month : 1 <= month d <= 12;
  vd_day : 1 <= day d <= arr (month_lengths (is_leap_year (year d))) (month d - 1);
  vd_hour : 0 <= hour d < 24;
  vd_minute : 0 <= minute d < 60;
  vd_second : 0 <= second d < 60;
  vd_microsecond : 0 <= microsecond d < 1000000 }.

(** The fields are unsigned. *)
Definition fields_wf (d : CellRtcDateTime) : Prop :=
  0 <= year d /\ 0 <= month d /\ 0 <= day d /\ 0 <= hour d /\ 0 <= minute d /\ 0 <= second d /\ 0 <= microsecond d.

Lemma check_valid_spec d : fields_wf d -> cellRtcCheckValid d = CELL_OK <-> valid_date d.
Proof.
  intros (?&?&?&?&?&?&?). unfold cellRtcCheckValid, cellRtcGetTickResolution. cbv zeta. fold (month_lengths (is_leap_year (year d))).
  split.
  - intros Hv. repeat match type of Hv with context [if ?b then _ else _] => destruct b eqn:? end; try discriminate Hv.
    split; lia.
  - intros [V1 V2 V3 V4 V5 V6 V7]. repeat match goal with |- context [if ?b then _ else _] => destruct b eqn:? end; try done; lia.
Qed.

Lemma tick_parts tick : 0 <= tick ->
  exists n h mi s us, tick = n * ticks_per_day + ((h * 60 + mi) * 60 + s) * 1000000 + us /\
    0 <= n /\ 0 <= h < 24 /\ 0 <= mi < 60 /\ 0 <= s < 60 /\ 0 <= us < 1000000.
Proof.
  intros Ht. unfold ticks_per_day.
  exists (tick / 86400000000), (tick / 3600000000 mod 24), (tick / 60000000 mod 60), (tick / 1000000 mod 60), (tick mod 1000000).
  Z.div_mod_to_equations. lia.
Qed.

Lemma day_parts n : 0 <= n ->
  exists c y m d, n = day_number c y m d /\ 0 <= c /\ 0 <= y < 400 /\ 0 <= m < 12 /\
    0 <= d < arr (month_lengths (is_leap_year (y + 1))) m.
Proof.
  intros Hn. destruct (day_in_year (n mod 146097)) as (y & Hy & Hd); [apply Z.mod_pos_bound; lia|].
  pose proof (year_length y). set (leap := is_leap_year (y + 1)) in *.
  destruct (month_of_spec leap (n mod 146097 - year_start y)) as [Hm Hday]; [lia|].
  exists (n / 146097), y, (month_of leap (n mod 146097 - year_start y)),
    (n mod 146097 - year_start y - arr (offsets leap) (month_of leap (n mod 146097 - year_start y))).
  unfold day_number. fold leap. pose proof (Z.div_mod n 146097). pose proof (Z.div_pos n 146097). lia.
Qed.

(** [tick_to_date_time] inverts the day number, up to the last 16-bit year. *)
Lemma tick_to_date_time_spec c y m d h mi s us :
  0 <= c < 163 -> 0 <= y < 400 -> 0 <= m < 12 -> 0 <= d < arr (month_lengths (is_leap_year (y + 1))) m ->
  0 <= h < 24 -> 0 <= mi < 60 -> 0 <= s < 60 -> 0 <= us < 1000000 ->
  tick_to_date_time (day_number c y m d * ticks_per_day + ((h * 60 + mi) * 60 + s) * 1000000 + us) =
  DateTime (400 * c + y + 1) (m + 1) (d + 1) h mi s us.
Proof.
  intros Hc Hy Hm Hd Hh Hmi Hs Hus. set (leap := is_leap_year (y + 1)) in *.
  pose proof (month_lengths_range leap m Hm). destruct (month_of_day leap m d Hm Hd) as (Hmo & Ho & Hdoy); [lia|].
  pose proof (year_length y) as Hyl. fold leap in Hyl. pose proof (year_start_range y Hy).
  unfold day_number. fold leap. set (doy := arr (offsets leap) m + d) in *.
  pose proof (year_of_day y (year_start y + doy) Hy) as Hest.
  set (tick := _ + us). unfold ticks_per_day in tick.
  assert (tick mod 1000000 = us /\ tick / 1000000 mod 60 = s /\ tick / (60 * 1000000) mod 60 = mi /\
          tick / (60 * 60 * 1000000) mod 24 = h /\
          tick / (24 * 60 * 60 * 1000000) = 146097 * c + (year_start y + doy)) as (E1 & E2 & E3 & E4 & E5)
    by (subst tick; cbn [Z.mul]; Z.div_mod_to_equations; lia).
  unfold tick_to_date_time. rewrite E1, E2, E3, E4, E5. clearbody tick. clear E1 E2 E3 E4 E5.
  rewrite (wrap_small 32 us), (wrap_small 16 s), (wrap_small 16 mi), (wrap_small 16 h),
    (wrap_small 32 (146097 * c + _)) by (unfold is_word; lia).
  change DAYS_IN_400_YEARS with 146097. change DAYS_IN_100_YEARS with 36524. change (DAYS_IN_4_YEARS - 1) with 1460.
  change (146097 - 1) with 146096. cbv zeta.
  replace ((146097 * c + (year_start y + doy)) / 146097) with c by (Z.div_mod_to_equations; lia).
  replace (146097 * c + (year_start y + doy) - c * 146097) with (year_start y + doy) by lia.
  rewrite (wrap_small 32 (year_start y + doy)) by (unfold is_word; lia).
  set (dc := year_start y + doy) in *. assert (0 <= dc < 146097) as Hdc by lia.
  rewrite (wrap_small 32 (dc - dc / 1460)) by (unfold is_word; Z.div_mod_to_equations; lia).
  rewrite (wrap_small 32 (dc - dc / 1460 + dc / 36524)) by (unfold is_word; Z.div_mod_to_equations; lia).
  rewrite (wrap_small 32 (dc - dc / 1460 + dc / 36524 - dc / 146096)) by (unfold is_word; Z.div_mod_to_equations; lia).
  fold (year_estimate dc). rewrite Hest by (unfold dc; lia).
  replace (y * 365 + y / 4 - y / 100 + y / 400) with (year_start y) by (unfold year_start; lia).
  replace (dc - year_start y) with doy by (unfold dc; lia).
  rewrite (wrap_small 32 doy) by (unfold is_word; lia).
  replace (c * 400 + y + 1) with (400 * c + (y + 1)) by lia.
  rewrite (wrap_small 16 (400 * c + (y + 1))) by (unfold is_word; lia).
  rewrite leap_cycle. fold leap. fold (offsets leap). fold (month_of leap doy). rewrite Hmo.
  rewrite (wrap_small 16 (m + 1)), (wrap_small 32 (doy - _)) by (unfold is_word, doy; lia).
  f_equal; unfold doy; lia.
Qed.

(** [date_time_to_tick] is the day number and the time of the day. *)
Lemma date_time_to_tick_spec c y m d h mi s us :
  0 <= c < 163 -> 0 <= y < 400 -> 0 <= m < 12 -> 0 <= d < arr (month_lengths (is_leap_year (y + 1))) m ->
  0 <= h < 24 -> 0 <= mi < 60 -> 0 <= s < 60 -> 0 <= us < 1000000 ->
  date_time_to_tick (DateTime (400 * c + y + 1) (m + 1) (d + 1) h mi s us) =
  day_number c y m d * ticks_per_day + ((h * 60 + mi) * 60 + s) * 1000000 + us.
Proof.
  intros Hc Hy Hm Hd Hh Hmi Hs Hus. set (leap := is_leap_year (y + 1)) in *.
  pose proof (month_lengths_range leap m Hm). destruct (month_of_day leap m d Hm Hd) as (_ & Ho & Hdoy); [lia|].
  pose proof (year_length y) as Hyl. fold leap in Hyl. pose proof (year_start_range y Hy).
  unfold date_time_to_tick. cbn [year month day hour minute second microsecond].
  replace ((400 * c + y + 1) * 365 + (400 * c + y + 1 + 3) / 4 - (400 * c + y + 1 + 99) / 100 + (400 * c + y + 1 + 399) / 400 - 366)
    with (146097 * c + year_start y) by (unfold year_start; Z.div_mod_to_equations; lia).
  rewrite (proj2 (Z.eqb_neq (m + 1) 0)), (proj2 (Z.ltb_ge 12 (m + 1))) by lia.
  replace (400 * c + y + 1) with (400 * c + (y + 1)) by lia. rewrite leap_cycle. fold leap.
  replace (m + 1 - 1) with m by lia.
  replace (if leap then arr MONTH_OFFSET_LEAP m else arr MONTH_OFFSET m) with (arr (offsets leap) m) by (by destruct leap).
  unfold day_number. fold leap. unfold ticks_per_day. cbv zeta.
  rewrite (wrap_small 32 (146097 * c + _)) by (unfold is_word; lia).
  rewrite (wrap_small 32) by (unfold is_word; lia). rewrite wrap_small by (unfold is_word; lia). lia.
Qed.

(** ** Round trips *)

(** The tick of 10000-01-01. *)
Definition rtc_end : Z := 3652059 * ticks_per_day.

Lemma day_number_end c y m d :
  0 <= c -> 0 <= y < 400 -> 0 <= m < 12 -> 0 <= d < arr (month_lengths (is_leap_year (y + 1))) m ->
  0 <= day_number c y m d /\ (day_number c y m d < 3652059 <-> 400 * c + y + 1 <= 9999).
Proof.
  intros Hc Hy Hm Hd. pose proof (month_lengths_range (is_leap_year (y + 1)) m Hm).
  destruct (month_of_day (is_leap_year (y + 1)) m d Hm Hd) as (_ & Ho & Hdoy); [lia|].
  pose proof (year_length y). pose proof (year_start_range y Hy). unfold day_number. split; [lia|].
  assert (year_start 399 = 145731 /\ (y < 399 -> year_start (y + 1) <= year_start 399)) as [H399 Hlt]
    by (split; [reflexivity|intros; apply year_start_lt; lia]).
  assert (y = 399 -> year_start y = 145731) by (intros ->; done). lia.
Qed.

Lemma valid_date_parts d : valid_date d -> exists c y m dd,
  d = DateTime (400 * c + y + 1) (m + 1) (dd + 1) (hour d) (minute d) (second d) (microsecond d) /\
  0 <= c < 163 /\ 0 <= y < 400 /\ 0 <= m < 12 /\ 0 <= dd < arr (month_lengths (is_leap_year (y + 1))) m.
Proof.
  intros [V1 V2 V3 _ _ _ _]. exists ((year d - 1) / 400), ((year d - 1) mod 400), (month d - 1), (day d - 1).
  pose proof (Z.div_mod (year d - 1) 400 ltac:(lia)) as Hdm. pose proof (Z.mod_pos_bound (year d - 1) 400 ltac:(lia)).
  replace (is_leap_year (year d)) with (is_leap_year ((year d - 1) mod 400 + 1)) in V3
    by (rewrite <- (leap_cycle ((year d - 1) / 400)); f_equal; lia).
  split; [destruct d; cbn in *; f_equal; lia|]. split; [Z.div_mod_to_equations; lia|]. lia.
Qed.

Lemma valid_date_tick d : valid_date d ->
  0 <= date_time_to_tick d < rtc_end /\ tick_to_date_time (date_time_to_tick d) = d /\
  date_time_to_tick d mod ticks_per_day = time_of_day d.
Proof.
  intros V. destruct (valid_date_parts d V) as (c & y & m & dd & E & Hc & Hy & Hm & Hd).
  pose proof V as [V1 V2 V3 V4 V5 V6 V7].
  pose proof (day_number_end c y m dd ltac:(lia) Hy Hm Hd) as [Hn0 Hn].
  assert (year d = 400 * c + y + 1) as Ey by (by rewrite E).
  rewrite E. rewrite date_time_to_tick_spec by assumption. unfold rtc_end, time_of_day. cbn [hour minute second microsecond].
  split; [unfold ticks_per_day; lia|]. split; [by apply tick_to_date_time_spec|].
  unfold ticks_per_day. Z.div_mod_to_equations. lia.
Qed.

Lemma tick_valid_date tick : 0 <= tick < rtc_end ->
  valid_date (tick_to_date_time tick) /\ date_time_to_tick (tick_to_date_time tick) = tick.
Proof.
  intros Ht. destruct (tick_parts tick) as (n & h & mi & s & us & -> & Hn & Hh & Hmi & Hs & Hus); [lia|].
  destruct (day_parts n Hn) as (c & y & m & d & -> & Hc & Hy & Hm & Hd).
  pose proof (day_number_end c y m d Hc Hy Hm Hd) as [_ He].
  assert (400 * c + y + 1 <= 9999) by (apply He; unfold rtc_end, ticks_per_day in Ht; lia).
  rewrite tick_to_date_time_spec by (assumption || lia). split; [|apply date_time_to_tick_spec; lia].
  split; cbn [year month day hour minute second microsecond]; try lia.
  replace (400 * c + y + 1) with (400 * c + (y + 1)) by lia. rewrite leap_cycle.
  replace (m + 1 - 1) with m by lia. lia.
Qed.

Lemma valid_fields d : valid_date d -> fields_wf d.
Proof. intros []. unfold fields_wf. lia. Qed.

(** The argument of [narrow<u16>] in [tick_to_date_time]. *)
Lemma day_narrow tick : 0 <= tick < rtc_end -> is_word 16 (day (tick_to_date_time tick)).
Proof.
  intros Ht. destruct (tick_valid_date tick Ht) as [[_ V2 V3 _ _ _ _] _].
  pose proof (month_lengths_range (is_leap_year (year (tick_to_date_time tick))) (month (tick_to_date_time tick) - 1)).
  unfold is_word. lia.
Qed.

(** C14: up to the year 9999 ticks and valid dates correspond one to one: every
    tick gives a date that cellRtcCheckValid accepts and that converts back to
    the tick, and every accepted date converts to a tick and back. *)
Theorem tick_date_roundtrip tick d :
  0 <= tick < rtc_end -> fields_wf d -> cellRtcCheckValid d = CELL_OK ->
  (cellRtcCheckValid (tick_to_date_time tick) = CELL_OK /\ date_time_to_tick (tick_to_date_time tick) = tick) /\
  (0 <= date_time_to_tick d < rtc_end /\ tick_to_date_time (date_time_to_tick d) = d).
Proof.
  intros Ht Hf Hd. destruct (tick_valid_date tick Ht) as [V E]. split.
  - split; [|done]. apply check_valid_spec; [by apply valid_fields|done].
  - apply check_valid_spec in Hd; [|done]. pose proof (valid_date_tick d Hd). tauto.
Qed.

Lemma tick_date_roundtrip_witness :
  let tick := 63550000000123456 in let d := DateTime 2024 2 29 23 59 59 999999 in
  (cellRtcCheckValid (tick_to_date_time tick) = CELL_OK /\ date_time_to_tick (tick_to_date_time tick) = tick) /\
  (0 <= date_time_to_tick d < rtc_end /\ tick_to_date_time (date_time_to_tick d) = d).
Proof.
  apply tick_date_roundtrip.
  - unfold rtc_end, ticks_per_day. lia.
  - unfold fields_wf. cbn. lia.
  - reflexivity.
Defined.

(** Leap days before the year [z + 1]. *)
Definition leap_days (z : Z) : Z := z / 4 - z / 100 + z / 400.

Lemma leap_days_cycle c z : leap_days (400 * c + z) = 97 * c + leap_days z.
Proof. unfold leap_days. Z.div_mod_to_equations. lia. Qed.

Lemma year_start_leap_days y : year_start y = 365 * y + leap_days y.
Proof. unfold year_start, leap_days. lia. Qed.

Lemma mod7_shift a b k : a = b + k * 7 -> a mod 7 = b mod 7.
Proof. intros ->. apply Z_mod_plus_full. Qed.

(** The month term of the congruence against the month offset. *)
Lemma weekday_months : forallb (fun leap : bool => forall_below 12 (fun m =>
  ((if m <? 2 then ((m + 13) * 13 + 8) / 5 else ((m + 1) * 13 + 8) / 5 + 1 + Z.b2z leap)
   - arr (offsets leap) m) mod 7 =? 0)) [true; false] = true.
Proof. vm_compute. reflexivity. Qed.

Lemma weekday_formula c y m d :
  0 <= c -> 0 <= y < 400 -> 0 <= m < 12 -> 0 <= d ->
  cellRtcGetDayOfWeek (400 * c + y + 1) (m + 1) (d + 1) = (day_number c y m d + 1) mod 7.
Proof.
  intros Hc Hy Hm Hd. pose proof (year_length y ltac:(lia)) as Hyl. rewrite !year_start_leap_days in Hyl.
  pose proof weekday_months as Hw. rewrite forallb_forall in Hw.
  specialize (Hw (is_leap_year (y + 1)) ltac:(destruct (is_leap_year _); [left|right; left]; done)). cbv beta in Hw.
  pose proof (forall_below_spec _ _ m Hw ltac:(lia)) as Hmm. clear Hw. cbv beta in Hmm. apply Z.eqb_eq in Hmm.
  assert (forall a b, 0 <= a -> 0 < b -> Z.quot a b = a / b) as Hq by (intros; apply Z.quot_div_nonneg; lia).
  pose proof (leap_days_cycle c y). pose proof (leap_days_cycle c (y + 1)) as Hl1.
  replace (400 * c + (y + 1)) with (400 * c + y + 1) in Hl1 by lia.
  assert (0 <= leap_days (400 * c + y) /\ 0 <= leap_days (400 * c + y + 1)) by (unfold leap_days; Z.div_mod_to_equations; lia).
  unfold cellRtcGetDayOfWeek, day_number. rewrite year_start_leap_days.
  replace ((m + 1 =? 1) || (m + 1 =? 2)) with (m <? 2) by lia.
  destruct (Z.ltb_spec m 2); rewrite !Hq by lia.
  - replace (400 * c + y + 1 - 1) with (400 * c + y) by lia. replace (m + 1 + 12) with (m + 13) by lia.
    assert (0 <= ((m + 13) * 13 + 8) / 5) by (apply Z.div_pos; lia).
    unfold leap_days in *. rewrite Z.rem_mod_nonneg by lia.
    apply (mod7_shift _ _ ((((m + 13) * 13 + 8) / 5 - arr (offsets (is_leap_year (y + 1))) m) / 7 - 20800 * c - 52 * y)).
    pose proof (Z.div_mod (((m + 13) * 13 + 8) / 5 - arr (offsets (is_leap_year (y + 1))) m) 7 ltac:(lia)). lia.
  - assert (0 <= ((m + 1) * 13 + 8) / 5) by (apply Z.div_pos; lia).
    unfold leap_days in *. rewrite Z.rem_mod_nonneg by lia.
    apply (mod7_shift _ _ ((((m + 1) * 13 + 8) / 5 + 1 + Z.b2z (is_leap_year (y + 1)) - arr (offsets (is_leap_year (y + 1))) m) / 7 - 20800 * c - 52 * y)).
    pose proof (Z.div_mod (((m + 1) * 13 + 8) / 5 + 1 + Z.b2z (is_leap_year (y + 1)) - arr (offsets (is_leap_year (y + 1))) m) 7 ltac:(lia)). lia.
Qed.

(** The day of the week of a valid date is the one obtained by counting
    days from Monday, 0001-01-01. *)
Theorem day_of_week_counts_days d :
  fields_wf d -> cellRtcCheckValid d = CELL_OK ->
  cellRtcGetDayOfWeek (year d) (month d) (day d) = (date_time_to_tick d / ticks_per_day + 1) mod 7.
Proof.
  intros Hf Hd. apply check_valid_spec in Hd; [|done].
  destruct (valid_date_parts d Hd) as (c & y & m & dd & E & Hc & Hy & Hm & Hdd). pose proof Hd as [_ _ _ V4 V5 V6 V7].
  rewrite E. rewrite date_time_to_tick_spec by assumption. cbn [year month day].
  replace ((day_number c y m dd * ticks_per_day + ((hour d * 60 + minute d) * 60 + second d) * 1000000 + microsecond d) / ticks_per_day)
    with (day_number c y m dd) by (unfold ticks_per_day; Z.div_mod_to_equations; lia).
  apply weekday_formula; lia.
Qed.

Lemma day_of_week_counts_days_witness :
  let d := DateTime 2024 2 29 23 59 59 999999 in
  cellRtcGetDayOfWeek (year d) (month d) (day d) = (date_time_to_tick d / ticks_per_day + 1) mod 7 /\
  cellRtcGetDayOfWeek 2024 2 29 = 4.
Proof.
  intros d. split; [|reflexivity]. apply day_of_week_counts_days; [unfold fields_wf; cbn; lia|reflexivity].
Defined.

(** ** Adding months and years *)

(** The date [n] months later, on the last day of the month at most. *)
Definition shift_months (d : CellRtcDateTime) (n : Z) : CellRtcDateTime :=
  let t := (year d - 1) * 12 + (month d - 1) + n in
  let y := t / 12 + 1 in
  let m := t mod 12 in
  DateTime y (m + 1) (Z.min (day d) (arr (month_lengths (is_leap_year y)) m))
           (hour d) (minute d) (second d) (microsecond d).

(** The tick of that date, if it is in the years 1 to 9999. *)
Definition shifted_tick (d : CellRtcDateTime) (n : Z) : option Z :=
  let t := (year d - 1) * 12 + (month d - 1) + n in
  if (0 <=? t) && (t <? 9999 * 12) then Some (date_time_to_tick (shift_months d n)) else None.

Lemma shift_months_valid d n : valid_date d ->
  0 <= (year d - 1) * 12 + (month d - 1) + n < 9999 * 12 -> valid_date (shift_months d n).
Proof.
  intros [V1 V2 V3 V4 V5 V6 V7] Ht. unfold shift_months. set (t := (year d - 1) * 12 + (month d - 1) + n) in *.
  pose proof (month_lengths_range (is_leap_year (t / 12 + 1)) (t mod 12) ltac:(apply Z.mod_pos_bound; lia)).
  split; cbn [year month day hour minute second microsecond]; try lia.
  - Z.div_mod_to_equations. lia.
  - Z.div_mod_to_equations. lia.
  - replace (t mod 12 + 1 - 1) with (t mod 12) by lia. lia.
Qed.

Lemma clamp_day_spec y m d : 1 <= y <= 9999 -> 0 <= m < 12 -> 0 <= d ->
  clamp_day (month_days y (m + 1)) d = Z.min d (arr (month_lengths (is_leap_year y)) m).
Proof.
  intros Hy Hm Hd. unfold month_days. pose proof (month_lengths_range (is_leap_year y) m Hm).
  rewrite (proj2 (Z.eqb_neq y 0)), (proj2 (Z.ltb_ge (m + 1) 1)), (proj2 (Z.ltb_ge 12 (m + 1))) by lia. cbn [orb].
  replace (m + 1 - 1) with m by lia.
  replace (if is_leap_year y then arr DAYS_IN_MONTH_LEAP m else arr DAYS_IN_MONTH m)
    with (arr (month_lengths (is_leap_year y)) m) by (by destruct (is_leap_year y)).
  unfold clamp_day. destruct (Z.ltb_spec (arr (month_lengths (is_leap_year y)) m) d); [|lia].
  rewrite wrap_small by (unfold is_word; lia). lia.
Qed.

Lemma get_tick_year d : year d = 0 \/ 10000 <= year d -> (get_tick d).2 = None.
Proof. intros H. unfold get_tick. by replace ((10000 <=? year d) || (year d =? 0)) with true by lia. Qed.

Lemma get_tick_ok d : valid_date d -> get_tick d = (CELL_OK, Some (date_time_to_tick d)).
Proof. intros []. unfold get_tick. by replace ((10000 <=? year d) || (year d =? 0)) with false by lia. Qed.

(** The two computations of the new date agree with [shift_months]. *)
Lemma shifted_months_tick d n : valid_date d -> -600000 <= n <= 600000 ->
  let total := s32 (year d * 12 + month d + n - 1) in
  let y := u16 (Z.quot total 12) in
  let m := u16 (total - y * 12 + 1) in
  (get_tick (DateTime y m (clamp_day (month_days y m) (day d)) (hour d) (minute d) (second d) (microsecond d))).2 =
  shifted_tick d n.
Proof.
  intros V Hn total y m. pose proof V as [V1 V2 V3 V4 V5 V6 V7]. unfold shifted_tick.
  pose proof (shift_months_valid d n V) as Hvalid. unfold shift_months in *.
  assert (total = year d * 12 + month d + n - 1) as Et by (apply sext_small; lia). clearbody total.
  set (t := (year d - 1) * 12 + (month d - 1) + n) in *. assert (total = t + 12) as Ett by (unfold t; lia).
  destruct (Z.leb_spec 0 t), (Z.ltb_spec t (9999 * 12)); cbn [andb].
  - assert (Z.quot total 12 = t / 12 + 1) as Eq by (rewrite Z.quot_div_nonneg by lia; Z.div_mod_to_equations; lia).
    pose proof (Z.div_mod t 12 ltac:(lia)). pose proof (Z.mod_pos_bound t 12 ltac:(lia)).
    assert (y = t / 12 + 1) as Ey by (unfold y; rewrite Eq; apply wrap_small; unfold is_word; lia).
    assert (m = t mod 12 + 1) as Em by (unfold m; rewrite wrap_small by (unfold is_word; lia); lia).
    clearbody m y. subst m y. rewrite clamp_day_spec by lia. by rewrite get_tick_ok by (apply Hvalid; lia).
  - apply get_tick_year. right. cbn [year]. unfold y, wrap. rewrite Z.quot_div_nonneg by lia.
    rewrite Z.mod_small by (Z.div_mod_to_equations; lia). Z.div_mod_to_equations; lia.
  - apply get_tick_year. cbn [year]. unfold y, wrap. change (2 ^ 16) with 65536.
    assert (-600000 <= t) by (unfold t; lia).
    assert (-55000 <= Z.quot total 12 <= 0).
    { destruct (Z_lt_dec total 0); [|rewrite Z.quot_div_nonneg by lia; Z.div_mod_to_equations; lia].
      pose proof (Z.quot_rem' total 12). pose proof (Z.rem_bound_abs total 12 ltac:(lia)). lia. }
    Z.div_mod_to_equations. lia.
  - lia.
Qed.

Lemma shifted_years_tick d n : valid_date d -> -50000 <= n <= 50000 ->
  let y := u16 (year d + n) in
  (get_tick (DateTime y (month d) (clamp_day (month_days y (month d)) (day d))
               (hour d) (minute d) (second d) (microsecond d))).2 = shifted_tick d (12 * n).
Proof.
  intros V Hn y. pose proof V as [V1 V2 V3 V4 V5 V6 V7]. unfold shifted_tick.
  pose proof (shift_months_valid d (12 * n) V) as Hvalid. unfold shift_months in *.
  set (t := (year d - 1) * 12 + (month d - 1) + 12 * n) in *.
  assert (t / 12 = year d + n - 1 /\ t mod 12 = month d - 1) as [Ed Em] by (unfold t; Z.div_mod_to_equations; lia).
  rewrite Ed, Em in *. replace (year d + n - 1 + 1) with (year d + n) in * by lia.
  replace (month d - 1 + 1) with (month d) in * by lia.
  destruct (Z.leb_spec 0 t), (Z.ltb_spec t (9999 * 12)); cbn [andb]; [|apply get_tick_year..|lia].
  - assert (y = year d + n) as Ey by (apply wrap_small; unfold is_word; lia). clearbody y. subst y.
    pose proof (clamp_day_spec (year d + n) (month d - 1) (day d)) as Hc.
    replace (month d - 1 + 1) with (month d) in Hc by lia. rewrite Hc by lia. by rewrite get_tick_ok by (apply Hvalid; lia).
  - right. cbn [year]. unfold y. rewrite wrap_small by (unfold is_word; lia). lia.
  - cbn [year]. unfold y, wrap. change (2 ^ 16) with 65536. Z.div_mod_to_equations. lia.
Qed.

(** Adding months moves the date by whole months and keeps the time of
    day; the day is clamped to the length of the new month.  Adding years is
    adding twelve times as many months.  When the result would leave the years
    1 to 9999 nothing is stored, and the calls still return CELL_OK. *)
Theorem add_months_years mapped p0 p1 tick n k :
  page_ok mapped p0 = true -> page_ok mapped p1 = true -> 0 <= tick < rtc_end ->
  -600000 <= n <= 600000 -> -50000 <= k <= 50000 ->
  let d := tick_to_date_time tick in
  cellRtcTickAddMonths mapped p0 p1 tick n = (CELL_OK, shifted_tick d n) /\
  cellRtcTickAddYears mapped p0 p1 tick k = (CELL_OK, shifted_tick d (12 * k)) /\
  (forall tick', shifted_tick d n = Some tick' -> tick_to_date_time tick' = shift_months d n).
Proof.
  intros Hp0 Hp1 Ht Hn Hk d. destruct (tick_valid_date tick Ht) as [V _]. fold d in V.
  unfold cellRtcTickAddMonths, cellRtcTickAddYears, checked. rewrite Hp0, Hp1. cbn [negb]. fold d. split; [|split].
  - cbv zeta. f_equal. by apply shifted_months_tick.
  - cbv zeta. f_equal. by apply shifted_years_tick.
  - intros tick'. unfold shifted_tick. destruct ((0 <=? _) && _) eqn:E; [|done]. intros [= <-].
    apply valid_date_tick, shift_months_valid; [done|lia].
Qed.

Lemma add_months_years_witness :
  let d := tick_to_date_time (date_time_to_tick (DateTime 2024 1 31 12 30 15 7)) in
  let tick := date_time_to_tick (DateTime 2024 1 31 12 30 15 7) in
  cellRtcTickAddMonths (fun _ => true) 16 32 tick 13 = (CELL_OK, shifted_tick d 13) /\
  cellRtcTickAddYears (fun _ => true) 16 32 tick (-2024) = (CELL_OK, shifted_tick d (12 * -2024)) /\
  (forall tick', shifted_tick d 13 = Some tick' -> tick_to_date_time tick' = shift_months d 13) /\
  shift_months d 13 = DateTime 2025 2 28 12 30 15 7 /\ shifted_tick d (12 * -2024) = None.
Proof.
  intros d tick. destruct (add_months_years (fun _ => true) 16 32 tick 13 (-2024)) as (H1 & H2 & H3);
    [reflexivity|reflexivity|vm_compute; split; congruence|lia|lia|].
  split; [exact H1|]. split; [exact H2|]. split; [exact H3|]. split; reflexivity.
Defined.

(** Far outside the range the 16-bit year wraps around to a valid one: 65536
    years back or forth is the same date. *)
Lemma add_months_wraps :
  let tick := date_time_to_tick (DateTime 2024 1 31 0 0 0 0) in
  cellRtcTickAddMonths (fun _ => true) 16 32 tick (-786432) = (CELL_OK, Some tick) /\
  cellRtcTickAddMonths (fun _ => true) 16 32 tick 786432 = (CELL_OK, Some tick).
Proof. split; vm_compute; reflexivity. Qed.

(** ** Other time formats *)

Definition drop_microsecond (d : CellRtcDateTime) : CellRtcDateTime :=
  DateTime (year d) (month d) (day d) (hour d) (minute d) (second d) 0.

Lemma drop_microsecond_valid d : valid_date d -> valid_date (drop_microsecond d).
Proof. intros []. by split; cbn; try lia. Qed.

Lemma drop_microsecond_tick d : valid_date d ->
  date_time_to_tick (drop_microsecond d) = date_time_to_tick d - date_time_to_tick d mod 1000000.
Proof.
  intros V. destruct (valid_date_parts d V) as (c & y & m & dd & E & Hc & Hy & Hm & Hd).
  pose proof V as [_ _ _ V4 V5 V6 V7]. rewrite E. unfold drop_microsecond. cbn [year month day hour minute second].
  rewrite !date_time_to_tick_spec by (assumption || lia). unfold ticks_per_day. Z.div_mod_to_equations. lia.
Qed.

Lemma tick_var_valid d : valid_date d -> tick_var d = date_time_to_tick d.
Proof. intros V. unfold tick_var. by rewrite get_tick_ok. Qed.

(** Reading back whole seconds counted from [base]. *)
Lemma seconds_roundtrip d base : valid_date d -> 0 <= base -> base mod 1000000 = 0 -> base <= date_time_to_tick d ->
  tick_to_date_time (u64 (u64 ((date_time_to_tick d - base) / 1000000 * cellRtcGetTickResolution) + base)) =
  drop_microsecond d.
Proof.
  intros V Hb Hm Hle. destruct (valid_date_tick d V) as [Hr _]. unfold rtc_end, ticks_per_day in Hr.
  unfold cellRtcGetTickResolution.
  rewrite (wrap_small 64 (_ * _)) by (unfold is_word; Z.div_mod_to_equations; lia).
  rewrite wrap_small by (unfold is_word; Z.div_mod_to_equations; lia).
  replace ((date_time_to_tick d - base) / 1000000 * 1000000 + base)
    with (date_time_to_tick d - date_time_to_tick d mod 1000000) by (Z.div_mod_to_equations; lia).
  rewrite <- drop_microsecond_tick by done. by apply valid_date_tick, drop_microsecond_valid.
Qed.

(** Storing a valid date as Unix time, as system time or as Win32 time and
    setting a date from that value gives the date back, without the
    microseconds for the two formats in seconds and exactly for Win32 time.
    Dates before the epoch of the format are refused. *)
Theorem time_formats_roundtrip mapped p q d :
  page_ok mapped p = true -> page_ok mapped q = true -> fields_wf d -> cellRtcCheckValid d = CELL_OK ->
  let tick := date_time_to_tick d in
  (if tick <? RTC_MAGIC_OFFSET then cellRtcGetTime_t mapped p q d = (CELL_RTC_ERROR_INVALID_VALUE, Some 0)
   else exists t, cellRtcGetTime_t mapped p q d = (CELL_OK, Some t) /\
     cellRtcSetTime_t mapped p t = (CELL_OK, Some (drop_microsecond d))) /\
  (RTC_SYSTEM_TIME_MIN <= tick <= RTC_SYSTEM_TIME_MAX ->
   exists t, cellRtcGetSystemTime mapped p q d = (CELL_OK, Some t) /\
     cellRtcSetSystemTime mapped p t = (CELL_OK, Some (drop_microsecond d))) /\
  (if tick <? RTC_FILETIME_OFFSET then cellRtcGetWin32FileTime mapped p q d = (CELL_RTC_ERROR_INVALID_VALUE, Some 0)
   else exists t, cellRtcGetWin32FileTime mapped p q d = (CELL_OK, Some t) /\
     cellRtcSetWin32FileTime mapped p t = (CELL_OK, Some d)).
Proof.
  intros Hp Hq Hf Hv tick. apply check_valid_spec in Hv; [|done]. destruct (valid_date_tick d Hv) as (Hr & Hback & _).
  unfold rtc_end, ticks_per_day in Hr. fold tick in Hr, Hback.
  unfold cellRtcGetTime_t, cellRtcSetTime_t, cellRtcGetSystemTime, cellRtcSetSystemTime, cellRtcGetWin32FileTime,
    cellRtcSetWin32FileTime, checked. rewrite Hp, Hq, tick_var_valid by done. cbn [negb]. cbv zeta. fold tick. split_and!.
  - destruct (Z.ltb_spec tick RTC_MAGIC_OFFSET); [done|]. eexists. split; [done|]. do 2 f_equal.
    unfold RTC_MAGIC_OFFSET in *. by apply seconds_roundtrip.
  - intros [Hmin Hmax]. rewrite (proj2 (Z.ltb_ge _ _)) by lia.
    rewrite (proj2 (Z.leb_gt _ _)) by (unfold cellRtcGetTickResolution; lia). eexists. split; [done|]. do 2 f_equal.
    unfold RTC_SYSTEM_TIME_MIN in *. by apply seconds_roundtrip.
  - destruct (Z.ltb_spec tick RTC_FILETIME_OFFSET); [done|]. eexists. split; [done|]. do 2 f_equal.
    unfold RTC_FILETIME_OFFSET in *. rewrite (wrap_small 64 (_ * 10)) by (unfold is_word; lia).
    rewrite Z.div_mul by lia. rewrite wrap_small by (unfold is_word; lia).
    by replace (tick - 50491123200000000 + 50491123200000000) with tick by lia.
Qed.

Lemma time_formats_roundtrip_witness :
  let d := DateTime 2024 2 29 23 59 59 999999 in let tick := date_time_to_tick d in
  let mapped := fun a => (a =? 16) || (a =? 32) in
  (if tick <? RTC_MAGIC_OFFSET then cellRtcGetTime_t mapped 16 32 d = (CELL_RTC_ERROR_INVALID_VALUE, Some 0)
   else exists t, cellRtcGetTime_t mapped 16 32 d = (CELL_OK, Some t) /\
     cellRtcSetTime_t mapped 16 t = (CELL_OK, Some (drop_microsecond d))) /\
  (RTC_SYSTEM_TIME_MIN <= tick <= RTC_SYSTEM_TIME_MAX ->
   exists t, cellRtcGetSystemTime mapped 16 32 d = (CELL_OK, Some t) /\
     cellRtcSetSystemTime mapped 16 t = (CELL_OK, Some (drop_microsecond d))) /\
  (if tick <? RTC_FILETIME_OFFSET then cellRtcGetWin32FileTime mapped 16 32 d = (CELL_RTC_ERROR_INVALID_VALUE, Some 0)
   else exists t, cellRtcGetWin32FileTime mapped 16 32 d = (CELL_OK, Some t) /\
     cellRtcSetWin32FileTime mapped 16 t = (CELL_OK, Some d)).
Proof.
  apply time_formats_roundtrip; [reflexivity|reflexivity|unfold fields_wf; cbn; lia|reflexivity].
Defined.

(** The DOS fields side by side. *)
Definition dos_value (y mo da h mi s : Z) : Z :=
  y * 2 ^ 25 + mo * 2 ^ 21 + da * 2 ^ 16 + h * 2 ^ 11 + mi * 2 ^ 5 + s.

Lemma dos_pack y mo da h mi s :
  is_word 7 y -> is_word 4 mo -> is_word 5 da -> is_word 5 h -> is_word 6 mi -> is_word 5 s ->
  u32 (Z.lor (Z.shiftl (Z.lor (Z.lor (Z.shiftl y 9) (Z.shiftl mo 5)) da) 16)
             (Z.lor (Z.lor (Z.shiftl h 11) (Z.shiftl mi 5)) s)) = dos_value y mo da h mi s.
Proof.
  unfold is_word, dos_value. pow2_const. intros Hy Hmo Hda Hh Hmi Hs. rewrite !Z.shiftl_mul_pow2 by lia.
  rewrite (lor_concat y 9) by (unfold is_word; pow2_const; lia).
  rewrite (lor_concat h 11) by (unfold is_word; pow2_const; lia).
  replace (y * 2 ^ 9 + mo * 2 ^ 5) with ((y * 16 + mo) * 2 ^ 5) by lia. rewrite (lor_concat (y * 16 + mo) 5 da) by (unfold is_word; lia).
  replace (h * 2 ^ 11 + mi * 2 ^ 5) with ((h * 64 + mi) * 2 ^ 5) by lia. rewrite (lor_concat (h * 64 + mi) 5 s) by (unfold is_word; lia).
  rewrite lor_concat by (unfold is_word; lia). rewrite wrap_small by (unfold is_word; lia). lia.
Qed.

Lemma dos_unpack y mo da h mi s :
  is_word 7 y -> is_word 4 mo -> is_word 5 da -> is_word 5 h -> is_word 6 mi -> is_word 5 s ->
  let x := dos_value y mo da h mi s in
  let hms := Z.land x 0xffff in let ymd := Z.shiftr x 16 in
  Z.shiftr ymd 9 = y /\ Z.land (Z.shiftr ymd 5) 0xf = mo /\ Z.land ymd 0x1f = da /\
  Z.shiftr hms 11 = h /\ Z.land (Z.shiftr hms 5) 0x3f = mi /\ Z.land (Z.shiftl hms 1) 0x3e = 2 * s.
Proof.
  intros Hy Hmo Hda Hh Hmi Hs x hms ymd. unfold is_word in *.
  assert (hms = h * 2048 + mi * 32 + s) as ->.
  { unfold hms, x, dos_value. change 0xffff with (2 ^ 16 - 1). rewrite land_pow2m1 by lia. pow2_const. Z.div_mod_to_equations. lia. }
  assert (ymd = y * 512 + mo * 32 + da) as ->.
  { unfold ymd, x, dos_value. rewrite Z.shiftr_div_pow2 by lia. pow2_const. Z.div_mod_to_equations. lia. }
  change 0xf with (2 ^ 4 - 1). change 0x1f with (2 ^ 5 - 1). change 0x3f with (2 ^ 6 - 1).
  rewrite !Z.shiftr_div_pow2, !land_pow2m1 by lia.
  replace (Z.land (Z.shiftl (h * 2048 + mi * 32 + s) 1) 62) with (2 * ((h * 2048 + mi * 32 + s) mod 2 ^ 5)).
  - pow2_const. Z.div_mod_to_equations. lia.
  - change 62 with (Z.shiftl (2 ^ 5 - 1) 1). rewrite <- Z.shiftl_land, land_pow2m1 by lia.
    rewrite Z.shiftl_mul_pow2 by lia. lia.
Qed.

(** The masks of [cellRtcGetDosTime]. *)
Lemma dos_masks y mo h mi da s :
  is_word 7 y -> is_word 4 mo -> is_word 5 da -> is_word 5 h -> is_word 6 mi -> is_word 5 (s / 2) ->
  Z.land y 0x7F = y /\ Z.land mo 0xF = mo /\ Z.land h 0x1F = h /\ Z.land mi 0x3F = mi /\ Z.land da 0x1F = da /\
  Z.land (Z.shiftr s 1) 0x1F = s / 2.
Proof.
  intros. change 0x7F with (2 ^ 7 - 1). change 0xF with (2 ^ 4 - 1). change 0x1F with (2 ^ 5 - 1).
  change 0x3F with (2 ^ 6 - 1). rewrite !land_pow2m1, Z.shiftr_div_pow2 by lia. change (2 ^ 1) with 2.
  unfold is_word in *. by rewrite !Z.mod_small by lia.
Qed.

(** A valid date of the years 1980 to 2107 comes back from its DOS time with
    the seconds rounded down to even and no microseconds, and every 32-bit
    value set as a DOS time is returned unchanged. *)
Theorem dos_time_roundtrip mapped p q d x :
  page_ok mapped p = true -> page_ok mapped q = true ->
  fields_wf d -> cellRtcCheckValid d = CELL_OK -> 1980 <= year d < 2108 -> is_word 32 x ->
  (exists t, cellRtcGetDosTime mapped p q d = (CELL_OK, Some t) /\
     cellRtcSetDosTime mapped p t =
       (CELL_OK, Some (DateTime (year d) (month d) (day d) (hour d) (minute d) (2 * (second d / 2)) 0))) /\
  (exists d', cellRtcSetDosTime mapped p x = (CELL_OK, Some d') /\ cellRtcGetDosTime mapped p q d' = (CELL_OK, Some x)).
Proof.
  intros Hp Hq Hf Hv Hy Hx. apply check_valid_spec in Hv; [|done]. destruct Hv as [V1 V2 V3 V4 V5 V6 V7].
  pose proof (month_lengths_range (is_leap_year (year d)) (month d - 1) ltac:(lia)).
  unfold cellRtcGetDosTime, cellRtcSetDosTime, checked. rewrite Hp, Hq. cbn [negb]. cbv zeta. split.
  - rewrite (proj2 (Z.ltb_ge _ _)), (proj2 (Z.leb_gt _ _)) by lia. eexists. split; [done|].
    assert (is_word 7 (year d - 1980) /\ is_word 4 (month d) /\ is_word 5 (day d) /\ is_word 5 (hour d) /\
      is_word 6 (minute d) /\ is_word 5 (second d / 2)) as (W1 & W2 & W3 & W4 & W5 & W6)
      by (unfold is_word; pow2_const; split_and!; Z.div_mod_to_equations; lia).
    destruct (dos_masks _ _ _ _ _ _ W1 W2 W3 W4 W5 W6) as (-> & -> & -> & -> & -> & ->).
    rewrite dos_pack by done.
    destruct (dos_unpack _ _ _ _ _ _ W1 W2 W3 W4 W5 W6) as (-> & -> & -> & -> & -> & ->).
    do 2 f_equal. f_equal; rewrite ?wrap_small by (unfold is_word; lia); lia.
  - eexists. split; [done|]. cbn [year month day hour minute second].
    set (y := x / 2 ^ 25). set (mo := x / 2 ^ 21 mod 2 ^ 4). set (da := x / 2 ^ 16 mod 2 ^ 5).
    set (h := x / 2 ^ 11 mod 2 ^ 5). set (mi := x / 2 ^ 5 mod 2 ^ 6). set (s := x mod 2 ^ 5).
    unfold is_word in Hx.
    assert (is_word 7 y /\ is_word 4 mo /\ is_word 5 da /\ is_word 5 h /\ is_word 6 mi /\ is_word 5 s)
      as (W1 & W2 & W3 & W4 & W5 & W6)
      by (unfold is_word; subst y mo da h mi s; pow2_const; split_and!; Z.div_mod_to_equations; lia).
    assert (x = dos_value y mo da h mi s) as Ex
      by (unfold dos_value; subst y mo da h mi s; pow2_const; Z.div_mod_to_equations; lia).
    clearbody y mo da h mi s. rewrite Ex.
    destruct (dos_unpack _ _ _ _ _ _ W1 W2 W3 W4 W5 W6) as (-> & -> & -> & -> & -> & ->).
    unfold is_word in W1, W4. rewrite (wrap_small 16 (y + 1980)), (wrap_small 16 h) by (unfold is_word; lia).
    rewrite (proj2 (Z.ltb_ge _ _)), (proj2 (Z.leb_gt _ _)) by lia.
    replace (y + 1980 - 1980) with y by lia.
    assert (is_word 5 (2 * s / 2)) as W7 by (by rewrite Z.mul_comm, Z.div_mul by lia).
    destruct (dos_masks y mo h mi da (2 * s) W1 W2 W3 W4 W5 W7) as (-> & -> & -> & -> & -> & ->).
    rewrite (Z.mul_comm 2 s), Z.div_mul by lia. by rewrite dos_pack by done.
Qed.

Lemma dos_time_roundtrip_witness :
  let d := DateTime 2024 2 29 23 59 59 999999 in
  (exists t, cellRtcGetDosTime (fun _ => true) 16 32 d = (CELL_OK, Some t) /\
     cellRtcSetDosTime (fun _ => true) 16 t = (CELL_OK, Some (DateTime 2024 2 29 23 59 58 0))) /\
  (exists d', cellRtcSetDosTime (fun _ => true) 16 0xffffffff = (CELL_OK, Some d') /\
     cellRtcGetDosTime (fun _ => true) 16 32 d' = (CELL_OK, Some 0xffffffff)).
Proof.
  intros d. apply (dos_time_roundtrip (fun _ => true) 16 32 d 0xffffffff);
    [reflexivity|reflexivity|unfold fields_wf; cbn; lia|reflexivity|cbn; lia|unfold is_word; lia].
Defined.
