(* ===== verification/CellRtcText.v ===== *)
(** * cellRtc: RFC 3339 text

    [cellRtcFormatRfc3339] and [cellRtcParseRfc3339].  A text is guest memory
    from [pszDateTime] on, a character per offset.  Theorem: parsing what was
    formatted gives the tick back, to the hundredth of a second. *)
From S2P Require Import Prelude CellRtc CellRtcProofs.

(** [char] as an unsigned byte; [std::isdigit] and the two helpers. *)
Definition ascii (num : Z) : Z := wrap 8 (wrap 8 num + 48).
Definition digit (c : Z) : Z := c - 48.
Definition isdigit (c : Z) : bool := (48 <=? c) && (c <=? 57).

(** Local names of the characters. *)
Definition ch_nul := 0.
Definition ch_plus := 43.
Definition ch_minus := 45.
Definition ch_dot := 46.
Definition ch_colon := 58.
Definition ch_T := 84.
Definition ch_Z := 90.
Definition ch_t := 116.
Definition ch_z := 122.

Section text.
Context (mapped : Z -> bool).

(** A [vm::var<CellRtcTick>] after [cellRtcGetCurrentTick]. *)
Definition current_tick (now : Z * Z * Z) : Z :=
  let '(ret, sec, nsec) := now in if ret <? CELL_OK then 0 else clock_tick sec nsec.

(** The zone suffix: [Z], or the sign and hh:mm. *)
Definition zone_text (iTimeZone : Z) : list Z :=
  if iTimeZone =? 0 then [ch_Z; ch_nul]
  else
    let '(sign, tz) := if iTimeZone <? 0 then (ch_minus, s32 (- iTimeZone)) else (ch_plus, iTimeZone) in
    let time_zone_hours := u32 (Z.rem (Z.quot tz 60) 100) in
    let time_zone_minutes := u32 (Z.rem tz 60) in
    [sign; ascii (time_zone_hours / 10); ascii (time_zone_hours mod 10); ch_colon;
     ascii (time_zone_minutes / 10); ascii (time_zone_minutes mod 10); ch_nul].

(** The characters from offset 0 on, or the error. *)
Definition cellRtcFormatRfc3339 (now : Z * Z * Z) (pszDateTime pUtc utc iTimeZone : Z) : Z * option (list Z) :=
  checked mapped pszDateTime pUtc (
    let rtc_tick := if pUtc =? 0 then current_tick now else utc in
    let rtc_tick := u64 (rtc_tick + iTimeZone * 60 * cellRtcGetTickResolution) in
    let d := tick_to_date_time rtc_tick in
    let ret := cellRtcCheckValid d in
    if negb (ret =? CELL_OK) then (ret, None)
    else (CELL_OK, Some (
      [ascii (year d / 1000); ascii (year d / 100 mod 10); ascii (year d / 10 mod 10); ascii (year d mod 10); ch_minus;
       ascii (month d / 10); ascii (month d mod 10); ch_minus;
       ascii (day d / 10); ascii (day d mod 10); ch_T;
       ascii (hour d / 10); ascii (hour d mod 10); ch_colon;
       ascii (minute d / 10); ascii (minute d mod 10); ch_colon;
       ascii (second d / 10); ascii (second d mod 10); ch_dot;
       ascii (microsecond d / 100000); ascii (microsecond d / 10000 mod 10)] ++ zone_text iTimeZone))).

Definition cellRtcFormatRfc3339LocalTime (now zone : Z * Z * Z) (pszDateTime pUtc utc : Z) : Z * option (list Z) :=
  checked mapped pszDateTime pUtc (
    let '(ret, timezone, summertime) := zone in
    if ret <? CELL_OK then (ret, None)
    else cellRtcFormatRfc3339 now pszDateTime pUtc utc (s32 (timezone + summertime))).

(** ** Parsing *)

(** Two digits, or 0xffff. *)
Definition two_digits (text : Z -> Z) (i : Z) : Z :=
  if isdigit (text i) && isdigit (text (i + 1)) then u16 (digit (text i) * 10 + digit (text (i + 1))) else 0xffff.

Definition four_digits (text : Z -> Z) (i : Z) : Z :=
  if isdigit (text i) && isdigit (text (i + 1)) && isdigit (text (i + 2)) && isdigit (text (i + 3)) then
    u16 (digit (text i) * 1000 + digit (text (i + 1)) * 100 + digit (text (i + 2)) * 10 + digit (text (i + 3)))
  else 0xffff.

(** The digits after the point; [pos] is the first of them.  [None]: out of fuel. *)
Fixpoint parse_fraction (fuel : nat) (text : Z -> Z) (pos mul microsecond : Z) : option (Z * Z) :=
  match fuel with
  | O => None
  | S fuel =>
      let c := text pos in
      if isdigit c then parse_fraction fuel text (u32 (pos + 1)) (mul / 10) (u32 (microsecond + u32 (digit c * mul)))
      else Some (microsecond, pos)
  end.

(** Minutes east of UTC are to be subtracted: [Some minutes_to_add], or a parse error. *)
Definition parse_zone (text : Z -> Z) (pos : Z) : option Z :=
  let sign := text pos in
  if negb (sign =? ch_Z) && negb (sign =? ch_z) && negb (sign =? ch_plus) && negb (sign =? ch_minus) then None
  else if (sign =? ch_plus) || (sign =? ch_minus) then
    if negb (isdigit (text (pos + 1))) || negb (isdigit (text (pos + 2))) || negb (text (pos + 3) =? ch_colon) ||
       negb (isdigit (text (pos + 4))) || negb (isdigit (text (pos + 5))) then None
    else
      let hours := digit (text (pos + 1)) * 10 + digit (text (pos + 2)) in
      let minutes := digit (text (pos + 4)) * 10 + digit (text (pos + 5)) in
      let minutes_to_add := hours * 60 + minutes in
      Some (if sign =? ch_plus then - minutes_to_add else minutes_to_add)
  else Some 0.

(** After the seconds: the fraction, the zone, the tick.  [old] is the tick at [pUtc]; a date [cellRtcGetTick] refuses leaves it
    there and the zone is still added. *)
Definition parse_rfc3339_tail (fuel : nat) (old : Z) (text : Z -> Z) (y mo da h mi s : Z) : option (Z * option Z) :=
  match (if text 19 =? ch_dot then parse_fraction fuel text 20 100000 0 else Some (0, 19)) with
  | None => None
  | Some (us, pos) =>
      match parse_zone text pos with
      | None => Some (CELL_RTC_ERROR_BAD_PARSE, None)
      | Some minutes_to_add =>
          let tick := from_option id old (get_tick (DateTime y mo da h mi s us)).2 in
          Some (CELL_OK, Some (u64 (tick + minutes_to_add * 60 * cellRtcGetTickResolution)))
      end
  end.

Definition cellRtcParseRfc3339 (fuel : nat) (pUtc pszDateTime : Z) (old : Z) (text : Z -> Z) : option (Z * option Z) :=
  if negb (page_ok mapped pUtc) then Some (CELL_RTC_ERROR_INVALID_POINTER, None)
  else if negb (page_ok mapped pszDateTime) then Some (CELL_RTC_ERROR_INVALID_POINTER, None)
  else
    let y := four_digits text 0 in
    if negb (text 4 =? ch_minus) then Some (CELL_RTC_ERROR_INVALID_YEAR, None)
    else
      let mo := two_digits text 5 in
      if negb (text 7 =? ch_minus) then Some (CELL_RTC_ERROR_INVALID_MONTH, None)
      else
        let da := two_digits text 8 in
        if negb (text 10 =? ch_T) && negb (text 10 =? ch_t) then Some (CELL_RTC_ERROR_INVALID_DAY, None)
        else
          let h := two_digits text 11 in
          if negb (text 13 =? ch_colon) then Some (CELL_RTC_ERROR_INVALID_HOUR, None)
          else
            let mi := two_digits text 14 in
            if negb (text 16 =? ch_colon) then Some (CELL_RTC_ERROR_INVALID_MINUTE, None)
            else parse_rfc3339_tail fuel old text y mo da h mi (two_digits text 17).

End text.

(** Memory that holds [s] from offset 0 on. *)
Definition holds_text (text : Z -> Z) (s : list Z) : Prop :=
  forall i c, s !! i = Some c -> text (Z.of_nat i) = c.

(** ** Digits *)

Lemma ascii_digit x : 0 <= x < 10 -> ascii x = 48 + x /\ isdigit (ascii x) = true /\ digit (ascii x) = x.
Proof.
  intros Hx. assert (ascii x = 48 + x) as -> by (unfold ascii; word_lia).
  unfold isdigit, digit. lia.
Qed.

Lemma two_digits_ascii text i x : 0 <= x < 100 -> text i = ascii (x / 10) -> text (i + 1) = ascii (x mod 10) ->
  two_digits text i = x.
Proof.
  intros Hx H0 H1. unfold two_digits. rewrite H0, H1.
  destruct (ascii_digit (x / 10)) as (_ & -> & ->); [Z.div_mod_to_equations; lia|].
  destruct (ascii_digit (x mod 10)) as (_ & -> & ->); [Z.div_mod_to_equations; lia|]. cbn [andb].
  rewrite wrap_small by (unfold is_word; Z.div_mod_to_equations; lia). Z.div_mod_to_equations; lia.
Qed.

Lemma four_digits_ascii text i x : 0 <= x < 10000 ->
  text i = ascii (x / 1000) -> text (i + 1) = ascii (x / 100 mod 10) -> text (i + 2) = ascii (x / 10 mod 10) ->
  text (i + 3) = ascii (x mod 10) -> four_digits text i = x.
Proof.
  intros Hx H0 H1 H2 H3. unfold four_digits. rewrite H0, H1, H2, H3.
  destruct (ascii_digit (x / 1000)) as (_ & -> & ->); [Z.div_mod_to_equations; lia|].
  destruct (ascii_digit (x / 100 mod 10)) as (_ & -> & ->); [Z.div_mod_to_equations; lia|].
  destruct (ascii_digit (x / 10 mod 10)) as (_ & -> & ->); [Z.div_mod_to_equations; lia|].
  destruct (ascii_digit (x mod 10)) as (_ & -> & ->); [Z.div_mod_to_equations; lia|]. cbn [andb].
  rewrite wrap_small by (unfold is_word; Z.div_mod_to_equations; lia). Z.div_mod_to_equations; lia.
Qed.

(** ** Fraction and zone *)

Lemma parse_fraction_two fuel text us :
  0 <= us < 1000000 -> text 20 = ascii (us / 100000) -> text 21 = ascii (us / 10000 mod 10) ->
  isdigit (text 22) = false ->
  parse_fraction (3 + fuel) text 20 100000 0 = Some (us - us mod 10000, 22).
Proof.
  intros Hus H0 H1 H2.
  destruct (ascii_digit (us / 100000)) as (_ & D0 & E0); [Z.div_mod_to_equations; lia|].
  destruct (ascii_digit (us / 10000 mod 10)) as (_ & D1 & E1); [Z.div_mod_to_equations; lia|].
  cbn [Nat.add parse_fraction]. rewrite H0, D0, E0. change (u32 (20 + 1)) with 21. rewrite H1, D1, E1.
  change (u32 (21 + 1)) with 22. rewrite H2. change (100000 / 10) with 10000. do 2 f_equal.
  rewrite (wrap_small 32 (us / 100000 * 100000)) by (unfold is_word; Z.div_mod_to_equations; lia).
  rewrite (wrap_small 32 (0 + _)) by (unfold is_word; Z.div_mod_to_equations; lia).
  rewrite (wrap_small 32 (us / 10000 mod 10 * 10000)) by (unfold is_word; Z.div_mod_to_equations; lia).
  rewrite wrap_small by (unfold is_word; Z.div_mod_to_equations; lia). Z.div_mod_to_equations; lia.
Qed.

(** The digits end within the text: the loop stops. *)
Lemma parse_fraction_total text n : forall fuel pos mul us,
  isdigit (text n) = false -> 0 <= pos <= n -> n < 2 ^ 32 -> n - pos < Z.of_nat fuel ->
  exists us' pos', parse_fraction fuel text pos mul us = Some (us', pos').
Proof.
  induction fuel as [|fuel IH]; intros pos mul us Hn Hpos H32 Hf; [lia|]. cbn [parse_fraction].
  destruct (isdigit (text pos)) eqn:E; [|eauto].
  destruct (Z.eq_dec pos n) as [->|Hne]; [congruence|].
  rewrite (wrap_small 32 (pos + 1)) by (unfold is_word; lia). apply IH; [done|lia..].
Qed.

Lemma zone_text_sign tz : exists c rest, zone_text tz = c :: rest /\ isdigit c = false.
Proof. unfold zone_text. destruct (tz =? 0), (tz <? 0); eexists _, _; done. Qed.

Lemma parse_zone_text text pos tz :
  -6000 < tz < 6000 -> (forall i c, zone_text tz !! i = Some c -> text (pos + Z.of_nat i) = c) ->
  parse_zone text pos = Some (- tz).
Proof.
  intros Htz Ht. unfold parse_zone, zone_text in *. destruct (Z.eqb_spec tz 0) as [->|Hne].
  - pose proof (Ht 0%nat _ eq_refl) as E. change (Z.of_nat 0) with 0 in E. rewrite Z.add_0_r in E. by rewrite E.
  - assert (exists sign a, (if tz <? 0 then (ch_minus, s32 (- tz)) else (ch_plus, tz)) = (sign, a) /\ 0 < a < 6000 /\
      (sign = ch_minus /\ a = - tz \/ sign = ch_plus /\ a = tz)) as (sign & a & E & Ha & Hs).
    { destruct (Z.ltb_spec tz 0).
      - exists ch_minus, (- tz). rewrite sext_small by lia. split; [done|lia].
      - exists ch_plus, tz. split; [done|lia]. }
    rewrite E in Ht. rewrite Z.quot_div_nonneg in Ht by lia. rewrite !Z.rem_mod_nonneg in Ht by (Z.div_mod_to_equations; lia).
    set (hh := a / 60 mod 100) in *. set (mm := a mod 60) in *.
    assert (0 <= hh < 100 /\ 0 <= mm < 60 /\ hh * 60 + mm = a) as (Hh & Hm & Hsum)
      by (unfold hh, mm; Z.div_mod_to_equations; lia).
    rewrite !wrap_small in Ht by (unfold is_word; lia). clearbody hh mm.
    pose proof (Ht 0%nat _ eq_refl) as T0. pose proof (Ht 1%nat _ eq_refl) as T1. pose proof (Ht 2%nat _ eq_refl) as T2.
    pose proof (Ht 3%nat _ eq_refl) as T3. pose proof (Ht 4%nat _ eq_refl) as T4. pose proof (Ht 5%nat _ eq_refl) as T5.
    change (Z.of_nat 0) with 0 in T0. change (Z.of_nat 1) with 1 in T1. change (Z.of_nat 2) with 2 in T2.
    change (Z.of_nat 3) with 3 in T3. change (Z.of_nat 4) with 4 in T4. change (Z.of_nat 5) with 5 in T5.
    rewrite Z.add_0_r in T0. rewrite T0, T1, T2, T3, T4, T5.
    destruct (ascii_digit (hh / 10)) as (_ & -> & ->); [Z.div_mod_to_equations; lia|].
    destruct (ascii_digit (hh mod 10)) as (_ & -> & ->); [Z.div_mod_to_equations; lia|].
    destruct (ascii_digit (mm / 10)) as (_ & -> & ->); [Z.div_mod_to_equations; lia|].
    destruct (ascii_digit (mm mod 10)) as (_ & -> & ->); [Z.div_mod_to_equations; lia|].
    destruct Hs as [[-> Hs]|[-> Hs]]; cbn -[Z.mul Z.add Z.div Z.modulo]; f_equal; Z.div_mod_to_equations; lia.
Qed.

(** ** The round trip *)

(** The date with the microseconds the text keeps. *)
Definition to_hundredths (d : CellRtcDateTime) : CellRtcDateTime :=
  DateTime (year d) (month d) (day d) (hour d) (minute d) (second d) (microsecond d - microsecond d mod 10000).

Lemma to_hundredths_tick d : valid_date d ->
  valid_date (to_hundredths d) /\
  date_time_to_tick (to_hundredths d) = date_time_to_tick d - date_time_to_tick d mod 10000.
Proof.
  intros V. split; [destruct V; split; cbn; try lia; Z.div_mod_to_equations; lia|].
  destruct (valid_date_parts d V) as (c & y & m & dd & E & Hc & Hy & Hm & Hd). pose proof V as [_ _ _ V4 V5 V6 V7].
  rewrite E. unfold to_hundredths. cbn [year month day hour minute second microsecond].
  rewrite !date_time_to_tick_spec by (assumption || lia || (Z.div_mod_to_equations; lia)).
  unfold ticks_per_day. Z.div_mod_to_equations. lia.
Qed.

(** The fixed-width part of the text. *)
Definition date_text (d : CellRtcDateTime) : list Z :=
  [ascii (year d / 1000); ascii (year d / 100 mod 10); ascii (year d / 10 mod 10); ascii (year d mod 10); ch_minus;
   ascii (month d / 10); ascii (month d mod 10); ch_minus;
   ascii (day d / 10); ascii (day d mod 10); ch_T;
   ascii (hour d / 10); ascii (hour d mod 10); ch_colon;
   ascii (minute d / 10); ascii (minute d mod 10); ch_colon;
   ascii (second d / 10); ascii (second d mod 10); ch_dot;
   ascii (microsecond d / 100000); ascii (microsecond d / 10000 mod 10)].

(** The header of a valid date is read back field by field. *)
Lemma parse_date_text mapped fuel p q old text d :
  page_ok mapped p = true -> page_ok mapped q = true -> valid_date d -> holds_text text (date_text d) ->
  cellRtcParseRfc3339 mapped fuel p q old text =
  parse_rfc3339_tail fuel old text (year d) (month d) (day d) (hour d) (minute d) (second d).
Proof.
  intros Hp Hq V T. pose proof V as [V1 V2 V3 V4 V5 V6 V7].
  pose proof (month_lengths_range (is_leap_year (year d)) (month d - 1) ltac:(lia)).
  unfold cellRtcParseRfc3339. rewrite Hp, Hq. cbn [negb].
  rewrite (T 4%nat _ eq_refl : text 4 = ch_minus), (T 7%nat _ eq_refl : text 7 = ch_minus),
    (T 10%nat _ eq_refl : text 10 = ch_T), (T 13%nat _ eq_refl : text 13 = ch_colon),
    (T 16%nat _ eq_refl : text 16 = ch_colon). rewrite !Z.eqb_refl. cbn [negb andb]. cbv zeta.
  f_equal.
  - apply four_digits_ascii; [lia|exact (T 0%nat _ eq_refl)|exact (T 1%nat _ eq_refl)|exact (T 2%nat _ eq_refl)|exact (T 3%nat _ eq_refl)].
  - apply two_digits_ascii; [lia|exact (T 5%nat _ eq_refl)|exact (T 6%nat _ eq_refl)].
  - apply two_digits_ascii; [lia|exact (T 8%nat _ eq_refl)|exact (T 9%nat _ eq_refl)].
  - apply two_digits_ascii; [lia|exact (T 11%nat _ eq_refl)|exact (T 12%nat _ eq_refl)].
  - apply two_digits_ascii; [lia|exact (T 14%nat _ eq_refl)|exact (T 15%nat _ eq_refl)].
  - apply two_digits_ascii; [lia|exact (T 17%nat _ eq_refl)|exact (T 18%nat _ eq_refl)].
Qed.

(** Fraction and zone are read back. *)
Lemma parse_tail_text fuel old text d tz :
  valid_date d -> -6000 < tz < 6000 -> holds_text text (date_text d ++ zone_text tz) ->
  parse_rfc3339_tail (3 + fuel) old text (year d) (month d) (day d) (hour d) (minute d) (second d) =
  Some (CELL_OK, Some (u64 (date_time_to_tick d - date_time_to_tick d mod 10000 + - tz * 60 * cellRtcGetTickResolution))).
Proof.
  intros V Htz T. unfold parse_rfc3339_tail. rewrite (T 19%nat _ eq_refl : text 19 = ch_dot), Z.eqb_refl.
  assert (forall i c, zone_text tz !! i = Some c -> text (22 + Z.of_nat i) = c) as Tz.
  { intros i c Hi. replace (22 + Z.of_nat i) with (Z.of_nat (22 + i)) by lia. by apply T. }
  rewrite (parse_fraction_two fuel text (microsecond d));
    [|destruct V; lia|exact (T 20%nat _ eq_refl)|exact (T 21%nat _ eq_refl)|].
  - rewrite (parse_zone_text text 22 tz Htz Tz). destruct (to_hundredths_tick d V) as [Vh Eh].
    fold (to_hundredths d). rewrite get_tick_ok by done. cbv zeta. unfold id. cbn [snd from_option]. by rewrite Eh.
  - destruct (zone_text_sign tz) as (c & rest & Ez & Hc). specialize (Tz 0%nat c). rewrite Ez in Tz.
    specialize (Tz eq_refl). change (22 + Z.of_nat 0) with 22 in Tz. by rewrite Tz.
Qed.

(** C26: parsing the RFC 3339 text of a tick gives the tick back, truncated to
    hundredths of a second, for every zone offset that fits hh:mm and whatever
    else is in memory; in particular the parser stops. *)
Theorem rfc3339_roundtrip mapped now psz utc_ptr tick tz text old fuel :
  page_ok mapped psz = true -> page_ok mapped utc_ptr = true -> utc_ptr <> 0 ->
  -6000 < tz < 6000 -> 0 <= tick < 2 ^ 64 -> 0 <= tick + tz * 60000000 < rtc_end ->
  exists s, cellRtcFormatRfc3339 mapped now psz utc_ptr tick tz = (CELL_OK, Some s) /\
    (holds_text text s ->
     cellRtcParseRfc3339 mapped (3 + fuel) utc_ptr psz old text = Some (CELL_OK, Some (tick - tick mod 10000))).
Proof.
  intros Hp Hq Hnull Htz Htick Hlocal. unfold cellRtcFormatRfc3339, checked. rewrite Hp, Hq. cbn [negb].
  rewrite (proj2 (Z.eqb_neq utc_ptr 0)) by done.
  replace (tick + tz * 60 * cellRtcGetTickResolution) with (tick + tz * 60000000) by (unfold cellRtcGetTickResolution; lia).
  pose proof Hlocal as Hlocal'. unfold rtc_end, ticks_per_day in Hlocal'.
  rewrite wrap_small by (unfold is_word; lia). destruct (tick_valid_date _ Hlocal) as [V Et].
  set (d := tick_to_date_time (tick + tz * 60000000)) in *. clearbody d. cbv zeta.
  rewrite (proj2 (check_valid_spec d (valid_fields d V)) V), Z.eqb_refl. cbn [negb]. fold (date_text d).
  eexists. split; [done|]. intros T.
  rewrite (parse_date_text mapped _ utc_ptr psz old text d) by (try done; intros i c Hi; by apply T, lookup_app_l_Some).
  rewrite (parse_tail_text fuel old text d tz) by done. do 3 f_equal. rewrite Et. unfold cellRtcGetTickResolution.
  rewrite wrap_small by (unfold is_word; Z.div_mod_to_equations; lia). Z.div_mod_to_equations. lia.
Qed.

(** The text at the start of blank memory. *)
Definition text_at (s : list Z) (i : Z) : Z := if i <? 0 then 0 else nth (Z.to_nat i) s 0.

Lemma rfc3339_roundtrip_witness :
  let tick := date_time_to_tick (DateTime 2024 2 29 23 59 59 998877) in
  exists s, cellRtcFormatRfc3339 (fun _ => true) (0, 0, 0) 64 128 tick (-90) = (CELL_OK, Some s) /\
    (holds_text (text_at s) s ->
     cellRtcParseRfc3339 (fun _ => true) 3 128 64 0 (text_at s) = Some (CELL_OK, Some (tick - tick mod 10000))).
Proof.
  intros tick.
  assert (exists s, cellRtcFormatRfc3339 (fun _ => true) (0, 0, 0) 64 128 tick (-90) = (CELL_OK, Some s)) as [s E]
    by (eexists; vm_compute; reflexivity).
  destruct (rfc3339_roundtrip (fun _ => true) (0, 0, 0) 64 128 tick (-90) (text_at s) 0 0) as (s' & E' & H);
    [reflexivity|reflexivity|lia|lia|vm_compute; split; congruence|vm_compute; split; congruence|].
  exists s'. split; [exact E'|]. assert (s' = s) as -> by congruence. exact H.
Defined.

(** The text itself. *)
Example rfc3339_text :
  cellRtcFormatRfc3339 (fun _ => true) (0, 0, 0) 64 128 (date_time_to_tick (DateTime 1995 12 3 13 23 0 0)) 0 =
  (CELL_OK, Some [49; 57; 57; 53; 45; 49; 50; 45; 48; 51; 84; 49; 51; 58; 50; 51; 58; 48; 48; 46; 48; 48; 90; 0]).
Proof. vm_compute. reflexivity. Qed.

(** The parser stops on every text whose digits end. *)
Lemma parse_rfc3339_total mapped fuel p q old text n :
  isdigit (text n) = false -> 20 <= n < 2 ^ 32 -> n - 20 < Z.of_nat fuel ->
  cellRtcParseRfc3339 mapped fuel p q old text <> None.
Proof.
  intros Hn Hr Hf. unfold cellRtcParseRfc3339, parse_rfc3339_tail. cbv zeta.
  repeat match goal with
  | |- (if ?b then Some _ else _) <> None => destruct b; [done|]
  end.
  destruct (parse_fraction_total text n fuel 20 100000 0 Hn ltac:(lia) ltac:(lia) Hf) as (us & pos & E).
  rewrite E. destruct (text 19 =? ch_dot); by case_match.
Qed.

(** A year the library refuses is not reported: the zone is added to whatever
    was at [pUtc], and the call returns CELL_OK. *)
Lemma parse_rfc3339_year_zero :
  let text := [48; 48; 48; 48; 45; 48; 49; 45; 48; 49; 84; 48; 48; 58; 48; 48; 58; 48; 48; 43; 48; 49; 58; 48; 48; 0] in
  cellRtcParseRfc3339 (fun _ => true) 1 128 64 7200000000 (text_at text) = Some (CELL_OK, Some 3600000000).
Proof. vm_compute. reflexivity. Qed.
