(* ===== verification/StdMap.v ===== *)
(** * [std::map] with 64-bit keys

    An ordered map is its list of entries in increasing key order.  An iterator
    is the key of its entry, or [None] for [end()]: insertions and erasures of
    other keys leave it valid, as the C++ container promises.  Dereferencing
    [end()] or stepping before [begin()] has no result. *)
From S2P Require Import Prelude.

Section std_map.
Context {V : Type}.
Implicit Types (m P Q : list (Z * V)) (k : Z) (v : V).

(** [lower_bound]: the first key not below [k]. *)
Fixpoint lower_bound m k : option Z :=
  match m with
  | [] => None
  | (k', _) :: m => if k' <? k then lower_bound m k else Some k'
  end.

(** [std::next] of an iterator. *)
Definition next m k : option Z := lower_bound m (k + 1).

(** [std::prev]: the last key below [k]; [None] when the iterator is [begin()]. *)
Fixpoint prev m k : option Z :=
  match m with
  | [] => None
  | (k', _) :: m => if k' <? k then match prev m k with Some k'' => Some k'' | None => Some k' end else None
  end.

(** The value at an iterator. *)
Fixpoint at_key m k : option V :=
  match m with
  | [] => None
  | (k', v) :: m => if k' =? k then Some v else at_key m k
  end.

(** [emplace]: the entry is kept if the key is there; the flag tells whether it
    was inserted. *)
Fixpoint insert_entry m k v : list (Z * V) :=
  match m with
  | [] => [(k, v)]
  | (k', v') :: m' =>
      if k <? k' then (k, v) :: m else if k' =? k then m else (k', v') :: insert_entry m' k v
  end.

Definition emplace m k v : list (Z * V) * bool :=
  match at_key m k with Some _ => (m, false) | None => (insert_entry m k v, true) end.

(** Assignment through an iterator. *)
Definition set_at m k v : list (Z * V) := map (fun '(k', v') => if k' =? k then (k', v) else (k', v')) m.

(** [erase] of an iterator; it returns the next one. *)
Definition erase m k : list (Z * V) := base.filter (fun e => e.1 <> k) m.

(** ** Ordered maps *)

(** Every key of [P] is below [k], every key of [Q] at least [k]. *)
Definition keys_below P k : Prop := forall e, e ∈ P -> e.1 < k.
Definition keys_from Q k : Prop := forall e, e ∈ Q -> k <= e.1.

Fixpoint ordered m : Prop :=
  match m with [] => True | (k, _) :: m => keys_from m (k + 1) /\ ordered m end.

(** [begin()]. *)
Definition first_key m : option Z := match m with [] => None | (k, _) :: _ => Some k end.

Lemma keys_below_nil k : keys_below [] k.
Proof. intros e He. set_solver. Qed.

Lemma keys_below_cons k k' v P : keys_below ((k', v) :: P) k <-> k' < k /\ keys_below P k.
Proof.
  unfold keys_below. split.
  - intros H. split; [apply (H (k', v)); left|intros e He; apply H; by right].
  - intros [H1 H2] e [->|He]%elem_of_cons; [done|by apply H2].
Qed.

Lemma keys_below_app k P Q : keys_below (P ++ Q) k <-> keys_below P k /\ keys_below Q k.
Proof. unfold keys_below. setoid_rewrite elem_of_app. naive_solver. Qed.

Lemma keys_below_mono k k' P : keys_below P k -> k <= k' -> keys_below P k'.
Proof. intros H Hk e He. specialize (H e He). lia. Qed.

Lemma keys_from_cons k k' v Q : keys_from ((k', v) :: Q) k <-> k <= k' /\ keys_from Q k.
Proof.
  unfold keys_from. split.
  - intros H. split; [apply (H (k', v)); left|intros e He; apply H; by right].
  - intros [H1 H2] e [->|He]%elem_of_cons; [done|by apply H2].
Qed.

Lemma keys_from_app k P Q : keys_from (P ++ Q) k <-> keys_from P k /\ keys_from Q k.
Proof. unfold keys_from. setoid_rewrite elem_of_app. naive_solver. Qed.

Lemma keys_from_mono k k' P : keys_from P k -> k' <= k -> keys_from P k'.
Proof. intros H Hk e He. specialize (H e He). lia. Qed.

(** ** Skipping a prefix of smaller keys *)

Lemma lower_bound_app P Q k : keys_below P k -> lower_bound (P ++ Q) k = lower_bound Q k.
Proof.
  induction P as [|[k' v] P IH]; [done|]. intros [H1 H2]%keys_below_cons. cbn.
  rewrite (proj2 (Z.ltb_lt k' k)) by done. by apply IH.
Qed.

Lemma at_key_app P Q k : keys_below P k -> at_key (P ++ Q) k = at_key Q k.
Proof.
  induction P as [|[k' v] P IH]; [done|]. intros [H1 H2]%keys_below_cons. cbn.
  rewrite (proj2 (Z.eqb_neq k' k)) by lia. by apply IH.
Qed.

Lemma at_key_from Q k : keys_from Q (k + 1) -> at_key Q k = None.
Proof.
  induction Q as [|[k' v] Q IH]; [done|]. intros [H1 H2]%keys_from_cons. cbn.
  rewrite (proj2 (Z.eqb_neq k' k)) by lia. by apply IH.
Qed.

Lemma insert_entry_app P Q k v : keys_below P k -> insert_entry (P ++ Q) k v = P ++ insert_entry Q k v.
Proof.
  induction P as [|[k' v'] P IH]; [done|]. intros [H1 H2]%keys_below_cons. cbn.
  rewrite (proj2 (Z.ltb_ge k k')), (proj2 (Z.eqb_neq k' k)) by lia. by rewrite IH.
Qed.

Lemma insert_entry_from Q k v : keys_from Q (k + 1) -> insert_entry Q k v = (k, v) :: Q.
Proof.
  destruct Q as [|[k' v'] Q]; [done|]. intros [H1 H2]%keys_from_cons. cbn.
  by rewrite (proj2 (Z.ltb_lt k k')) by lia.
Qed.

Lemma prev_from Q k : keys_from Q k -> prev Q k = None.
Proof.
  destruct Q as [|[k' v'] Q]; [done|]. intros [H1 H2]%keys_from_cons. cbn.
  by rewrite (proj2 (Z.ltb_ge k' k)) by lia.
Qed.

Lemma prev_app P k' v Q k : keys_below P k -> k' < k -> keys_from Q k -> prev (P ++ (k', v) :: Q) k = Some k'.
Proof.
  intros HP Hk HQ. induction P as [|[k0 v0] P IH]; cbn.
  - rewrite (proj2 (Z.ltb_lt k' k)) by lia. by rewrite prev_from.
  - apply keys_below_cons in HP as [H1 H2]. rewrite (proj2 (Z.ltb_lt k0 k)) by lia. by rewrite IH.
Qed.

Lemma lower_bound_from Q k k' v : k <= k' -> lower_bound ((k', v) :: Q) k = Some k'.
Proof. intros H. cbn. by rewrite (proj2 (Z.ltb_ge k' k)) by lia. Qed.

Lemma erase_notin P k : (forall e, e ∈ P -> e.1 <> k) -> erase P k = P.
Proof.
  unfold erase. induction P as [|[k' v] P IH]; [done|]. intros H. rewrite filter_cons_True.
  - f_equal. apply IH. intros e He. apply H. by right.
  - apply (H (k', v)). left.
Qed.

Lemma erase_app P Q k : erase (P ++ Q) k = erase P k ++ erase Q k.
Proof. unfold erase. by rewrite filter_app. Qed.

Lemma erase_below P k : keys_below P k -> erase P k = P.
Proof. intros H. apply erase_notin. intros e He. specialize (H e He). lia. Qed.

Lemma erase_from Q k : keys_from Q (k + 1) -> erase Q k = Q.
Proof. intros H. apply erase_notin. intros e He. specialize (H e He). lia. Qed.

Lemma erase_here k v Q : erase ((k, v) :: Q) k = erase Q k.
Proof. unfold erase. rewrite filter_cons_False; [done|]. cbn. tauto. Qed.

Lemma erase_mid P k v Q : keys_below P k -> keys_from Q (k + 1) -> erase (P ++ (k, v) :: Q) k = P ++ Q.
Proof. intros HP HQ. by rewrite erase_app, erase_here, erase_below, erase_from. Qed.

Lemma lower_bound_first Q k : keys_from Q k -> lower_bound Q k = first_key Q.
Proof. destruct Q as [|[k' v] Q]; [done|]. intros [H _]%keys_from_cons. by apply lower_bound_from. Qed.

(** There is something before a key that is not the first. *)
Lemma prev_some P Q k : P <> [] -> keys_below P k -> keys_from Q k -> exists p, prev (P ++ Q) k = Some p.
Proof.
  destruct P as [|[p v] P] using rev_ind; [done|]. intros _ [HP [Hp _]%keys_below_cons]%keys_below_app HQ. exists p.
  rewrite <- app_assoc. by apply prev_app.
Qed.

End std_map.
