(* ===== verification/MemoryTableProofs.v ===== *)
(** * [rx::MemoryAreaTable]: correctness

    A table is split at the ends of the range: [P] has the keys before it and
    [Q] the keys after it.  Whatever lies between, [map] leaves [P], opened if
    need be, and [Q], closed if need be; [unmap] the other way round. *)
From S2P Require Import Prelude StdMap MemoryTable.

(** ** Two small runs *)
Definition demo_areas (ops : list (bool * Z * Z)) : option (list (Z * Kind)) :=
  mAreas <$> fold_left (fun t '(f, b, e) => match t with None => None | Some t => if f : bool then area_map t b e else area_unmap t b e end)
               ops (Some (Table [] [])).
Example demo1 : demo_areas [(true, 0, 10); (true, 20, 30); (true, 5, 25)] = Some [(0, O); (30, X)].
Proof. reflexivity. Qed.
Example demo2 : demo_areas [(true, 0, 10); (false, 3, 5); (false, 5, 10); (true, 3, 4)] = Some [(0, O); (4, X)].
Proof. reflexivity. Qed.

(** ** Well-formed tables and the addresses they cover *)

(** Marks alternate; [st] tells whether an area is open. *)
Fixpoint alt_run (st : bool) (m : list (Z * Kind)) : option bool :=
  match m with
  | [] => Some st
  | (_, O) :: m => if st then None else alt_run true m
  | (_, X) :: m => if st then alt_run false m else None
  end.

Definition table_wf (m : list (Z * Kind)) : Prop := ordered m /\ alt_run false m = Some false.

Fixpoint covers (st : bool) (m : list (Z * Kind)) (a : Z) : bool :=
  match m with
  | [] => st
  | (k, kd) :: m => if a <? k then st else covers (bool_decide (kd = O)) m a
  end.

(** Address [a] is in one of the areas. *)
Definition covered (t : MemoryAreaTable) (a : Z) : bool := covers false (mAreas t) a.

Lemma alt_run_app st P Q : alt_run st (P ++ Q) = st' ← alt_run st P; alt_run st' Q.
Proof. revert st. induction P as [|[k []] P IH]; intros []; cbn; try done; apply IH. Qed.

Lemma covers_app st P Q a : keys_below P (a + 1) -> covers st (P ++ Q) a = covers (covers st P a) Q a.
Proof.
  revert st. induction P as [|[k kd] P IH]; intros st H; [done|]. apply keys_below_cons in H as [Hk HP]. cbn.
  rewrite (proj2 (Z.ltb_ge a k)) by lia. by apply IH.
Qed.

Lemma covers_from st Q a : keys_from Q (a + 1) -> covers st Q a = st.
Proof. destruct Q as [|[k kd] Q]; [done|]. intros [Hk _]%keys_from_cons. cbn. by rewrite (proj2 (Z.ltb_lt a k)) by lia. Qed.

Lemma covers_from_app st P Q a : keys_from Q (a + 1) -> covers st (P ++ Q) a = covers st P a.
Proof.
  revert st. induction P as [|[k kd] P IH]; intros st H; [by apply covers_from|]. cbn. destruct (a <? k); [done|by apply IH].
Qed.

(** Past all its marks a list covers what its last mark says. *)
Lemma covers_alt st P a st' : keys_below P (a + 1) -> alt_run st P = Some st' -> covers st P a = st'.
Proof.
  revert st. induction P as [|[k []] P IH]; intros st H Ha; cbn in *; [congruence|..];
    apply keys_below_cons in H as [Hk HP]; rewrite (proj2 (Z.ltb_ge a k)) by lia;
    destruct st; try done; by apply IH.
Qed.

(** The first mark decides from its key on. *)
Lemma covers_head st st' k kd Q a : k <= a -> covers st ((k, kd) :: Q) a = covers st' ((k, kd) :: Q) a.
Proof. intros H. cbn. by rewrite (proj2 (Z.ltb_ge a k)) by lia. Qed.

Lemma ordered_app (P Q : list (Z * Kind)) k : ordered P -> ordered Q -> keys_below P k -> keys_from Q k -> ordered (P ++ Q).
Proof.
  induction P as [|[k' v] P IH]; [done|]. intros [H1 H2] HQ [Hk HP]%keys_below_cons HQk. cbn. split.
  - apply keys_from_app. split; [done|]. eapply keys_from_mono; [done|]. lia.
  - by apply IH.
Qed.

Lemma ordered_app_inv (P Q : list (Z * Kind)) : ordered (P ++ Q) ->
  ordered P /\ ordered Q /\ (forall p q, p ∈ P -> q ∈ Q -> p.1 < q.1).
Proof.
  induction P as [|[k v] P IH]; cbn.
  - intros H. split; [done|]. split; [done|]. intros p q Hp. set_solver.
  - intros [[H1 H2]%keys_from_app Ho]. destruct (IH Ho) as (HP & HQ & Hlt). split; [done|]. split; [done|].
    intros p q [->|Hp]%elem_of_cons Hq; [specialize (H2 q Hq); cbn; lia|by apply Hlt].
Qed.

(** ** Splitting at a key *)

(** The entry at [k], if there is one. *)
Definition mark (k : Z) (o : option Kind) : list (Z * Kind) := match o with Some kd => [(k, kd)] | None => [] end.

Lemma split_at_key (m : list (Z * Kind)) k :
  ordered m -> exists P Q, m = P ++ Q /\ keys_below P k /\ keys_from Q k.
Proof.
  induction m as [|[k' v] m IH].
  - intros _. exists [], []. split; [done|]. split; intros e He; set_solver.
  - intros [H1 H2]. destruct (decide (k' < k)).
    + destruct (IH H2) as (P & Q & -> & HP & HQ). exists ((k', v) :: P), Q.
      split; [done|]. split; [by apply keys_below_cons|done].
    + exists [], ((k', v) :: m). split; [done|]. split; [apply keys_below_nil|]. apply keys_from_cons.
      split; [lia|]. eapply keys_from_mono; [done|lia].
Qed.

Lemma split_mark (m : list (Z * Kind)) k :
  ordered m -> keys_from m k -> exists o Q, m = mark k o ++ Q /\ keys_from Q (k + 1).
Proof.
  destruct m as [|[k' v] Q].
  - intros _ _. exists None, []. split; [done|]. intros e He. set_solver.
  - intros [H1 H2] [Hk HQ]%keys_from_cons. destruct (decide (k' = k)) as [->|].
    + by exists (Some v), Q.
    + exists None, ((k', v) :: Q). split; [done|]. apply keys_from_cons. split; [lia|]. eapply keys_from_mono; [exact H1|lia].
Qed.

(** A table around a range. *)
Record split_table (m : list (Z * Kind)) (b e : Z) (P : list (Z * Kind)) (mb : option Kind) (M : list (Z * Kind))
    (me : option Kind) (Q : list (Z * Kind)) : Prop := Split {
  split_eq : m = P ++ mark b mb ++ M ++ mark e me ++ Q;
  split_P : keys_below P b; split_M1 : keys_from M (b + 1); split_M2 : keys_below M e;
  split_Q : keys_from Q (e + 1);
  split_oP : ordered P; split_oM : ordered M; split_oQ : ordered Q }.

Lemma split_exists (m : list (Z * Kind)) b e : ordered m -> b < e -> exists P mb M me Q, split_table m b e P mb M me Q.
Proof.
  intros Ho Hbe. destruct (split_at_key m b Ho) as (P & R & -> & HP & HR).
  apply ordered_app_inv in Ho as (HoP & HoR & _). destruct (split_mark R b HoR HR) as (mb & R' & -> & HR').
  apply ordered_app_inv in HoR as (_ & HoR & _). destruct (split_at_key R' e HoR) as (M & S & -> & HM & HS).
  apply ordered_app_inv in HoR as (HoM & HoS & _). destruct (split_mark S e HoS HS) as (me & Q & -> & HQ).
  apply ordered_app_inv in HoS as (_ & HoQ & _). apply keys_from_app in HR' as [HM' _].
  by exists P, mb, M, me, Q.
Qed.

Lemma mark_below k o k' : k < k' -> keys_below (mark k o) k'.
Proof. intros H. destruct o; cbn; [apply keys_below_cons; split; [done|]|]; apply keys_below_nil. Qed.

Lemma mark_from k o k' : k' <= k -> keys_from (mark k o) k'.
Proof. intros H. destruct o; cbn; intros e He; [apply list_elem_of_singleton in He as ->; done|set_solver]. Qed.

Lemma mark_ordered k o : ordered (mark k o).
Proof. destruct o; cbn; [|done]. split; [|done]. intros e He. set_solver. Qed.

(** ** [map] *)

(** [P] followed by an open area, [Q] preceded by one. *)
Definition opened (st : bool) (P : list (Z * Kind)) (b : Z) : list (Z * Kind) := if st then P else P ++ [(b, O)].
Definition closed (st : bool) (e : Z) (Q : list (Z * Kind)) : list (Z * Kind) := if st then Q else (e, X) :: Q.

Lemma alt_open_last P : alt_run false P = Some true -> exists P' p, P = P' ++ [(p, O)].
Proof.
  destruct P as [|[p kd] P'] using rev_ind; [done|]. rewrite alt_run_app. intros H. exists P', p.
  destruct kd; [done|]. by destruct (alt_run false P') as [[]|].
Qed.

Lemma alt_closed_last P : alt_run false P = Some false -> P = [] \/ exists P' p, P = P' ++ [(p, X)].
Proof.
  destruct P as [|[p kd] P'] using rev_ind; [by left|]. rewrite alt_run_app. intros H. right. exists P', p.
  destruct kd; [|done]. by destruct (alt_run false P') as [[]|].
Qed.

Lemma alt_head_X Q : alt_run true Q = Some false -> exists q Q', Q = (q, X) :: Q'.
Proof. destruct Q as [|[q []] Q']; [done..|]. intros _. by exists q, Q'. Qed.

Lemma alt_head_O Q : alt_run false Q = Some false -> Q = [] \/ exists q Q', Q = (q, O) :: Q'.
Proof. destruct Q as [|[q []] Q']; [by left| |done]. intros _. right. by exists q, Q'. Qed.

Lemma emplace_mark P k o v Q :
  keys_below P k -> keys_from Q (k + 1) ->
  emplace (P ++ mark k o ++ Q) k v = (P ++ (k, default v o) :: Q, bool_decide (o = None)).
Proof.
  intros HP HQ. unfold emplace. rewrite at_key_app by done. destruct o as [kd|]; cbn [mark app].
  - cbn. by rewrite Z.eqb_refl.
  - rewrite at_key_from by done. by rewrite insert_entry_app, insert_entry_from.
Qed.

Lemma is_kind_at P k kd kd' Q : keys_below P k -> is_kind (P ++ (k, kd) :: Q) k kd' = bool_decide (kd = kd').
Proof.
  intros HP. unfold is_kind. rewrite at_key_app by done. cbn. rewrite Z.eqb_refl. by destruct kd, kd'.
Qed.

Lemma ordered_last_below (P : list (Z * Kind)) p v : ordered (P ++ [(p, v)]) -> keys_below P p /\ keys_below (P ++ [(p, v)]) (p + 1).
Proof.
  intros (HP & _ & Hlt)%ordered_app_inv. assert (keys_below P p) as HPp by (intros e He; apply (Hlt e (p, v)); [done|left]).
  split; [done|]. apply keys_below_app. split; [eapply keys_below_mono; [done|lia]|].
  apply keys_below_cons. split; [lia|apply keys_below_nil].
Qed.

Lemma first_key_app P b (v : Kind) R : keys_below P b -> Some b = first_key (P ++ (b, v) :: R) -> P = [].
Proof.
  destruct P as [|[p w] P]; [done|]. intros [H _]%keys_below_cons. cbn. intros [= ->]. lia.
Qed.

Lemma map_begin_spec P b o R st st' inv :
  ordered P -> keys_below P b -> keys_from R (b + 1) ->
  alt_run false P = Some st -> alt_run st (mark b o) = Some st' ->
  exists pb inv',
    map_begin (P ++ (b, default O o) :: R) (bool_decide (o = None)) b inv =
      Some (opened st P b ++ (if st then mark b o else []) ++ R, pb, inv') /\
    pb <= b /\ keys_from (if st then mark b o else []) (pb + 1) /\ keys_below (opened st P b) (pb + 1).
Proof.
  intros HoP HP HR Ha Hm. unfold map_begin. assert (keys_below P (b + 1)) by (eapply keys_below_mono; [done|lia]).
  assert (forall k, keys_from ([] : list (Z * Kind)) k) as Hnil by (intros k e He; set_solver).
  assert (st = true -> exists P' p, P = P' ++ [(p, O)] /\ p < b /\ keys_below P' p /\ keys_below P (p + 1) /\
            forall kd, prev (P ++ (b, kd) :: R) b = Some p) as Hopen.
  { intros ->. destruct (alt_open_last P Ha) as (P' & p & ->). exists P', p.
    apply ordered_last_below in HoP as [HP1 HP2]. apply keys_below_app in HP as [HPb [Hp _]%keys_below_cons].
    do 4 (split; [done|]). intros kd. rewrite <- app_assoc. apply prev_app; [done|done|].
    apply keys_from_cons. split; [lia|]. eapply keys_from_mono; [done|lia]. }
  destruct o as [[]|]; cbn [default bool_decide mark alt_run] in *.
  - destruct st; [done|]. rewrite bool_decide_false by done. cbn [negb]. rewrite is_kind_at by done. cbn.
    exists b, inv. rewrite <- app_assoc. split_and!; [done|lia|done|].
    apply keys_below_app. split; [done|]. apply keys_below_cons. split; [lia|apply keys_below_nil].
  - destruct st; [|done]. destruct (Hopen eq_refl) as (P' & p & HPe & Hp & _ & HPp & Hprev).
    rewrite bool_decide_false by done. cbn [negb]. rewrite is_kind_at by done. cbn. rewrite Hprev.
    exists p, inv. split_and!; [done|lia| |done]. apply (mark_from b (Some X)). lia.
  - rewrite bool_decide_true by done. cbn [negb]. destruct st.
    + destruct (Hopen eq_refl) as (P' & p & HPe & Hp & HP' & HPp & Hprev).
      rewrite decide_False by (intros Hf%first_key_app; [by subst; destruct P'|done]).
      rewrite Hprev, erase_mid by done.
      assert (forall S, is_kind (P ++ S) p O = true) as ->.
      { intros S. rewrite HPe, <- app_assoc. cbn [app]. by rewrite is_kind_at. }
      exists p, (b :: inv). split_and!; [done|lia|done|done].
    + assert (keys_below (opened false P b) (b + 1)).
      { cbn. apply keys_below_app. split; [done|]. apply keys_below_cons. split; [lia|apply keys_below_nil]. }
      destruct (alt_closed_last P Ha) as [->|(P' & p & ->)].
      * cbn [app first_key]. rewrite decide_True by done. exists b, inv. split_and!; [done|lia|done|done].
      * apply ordered_last_below in HoP as [HP1 HP2]. pose proof HP as [HPb [Hp _]%keys_below_cons]%keys_below_app.
        rewrite decide_False by (intros Hf%first_key_app; [by destruct P'|done]).
        rewrite <- app_assoc. cbn [app]. rewrite prev_app; [|done|done|].
        2:{ apply keys_from_cons. split; [lia|]. eapply keys_from_mono; [done|lia]. }
        rewrite is_kind_at by done. cbn. exists b, inv. split_and!; [by rewrite <- !app_assoc|lia|done|done].
Qed.

Lemma map_end_spec P M e o Q st st' inv :
  P <> [] -> keys_below P e -> keys_below M e -> keys_from Q (e + 1) -> ordered Q ->
  alt_run st (mark e o) = Some st' -> alt_run st' Q = Some false ->
  exists ei inv' e',
    map_end (P ++ M ++ (e, default X o) :: Q) (bool_decide (o = None)) e inv =
      Some (P ++ (M ++ if st' then mark e o else []) ++ closed st' e Q, ei, inv') /\
    ei = first_key (closed st' e Q) /\ e <= e' /\
    keys_below (M ++ if st' then mark e o else []) e' /\ keys_from (closed st' e Q) e'.
Proof.
  intros HPn HP HM HQ HoQ Hm Ha. unfold map_end. set (L := P ++ M). assert (keys_below L e) as HL by by apply keys_below_app.
  assert (forall T, P ++ M ++ T = L ++ T) as HLe by (intros T; unfold L; by rewrite app_assoc). rewrite HLe.
  assert (keys_below L (e + 1)) by (eapply keys_below_mono; [done|lia]).
  assert (forall kd, next (L ++ (e, kd) :: Q) e = first_key Q) as Hnext.
  { intros kd. unfold next. rewrite lower_bound_app by done. cbn [lower_bound].
    rewrite (proj2 (Z.ltb_lt e (e + 1))) by lia. by apply lower_bound_first. }
  assert (keys_from ((e, X) :: Q) e) by (apply keys_from_cons; split; [lia|eapply keys_from_mono; [done|lia]]).
  assert (keys_below (M ++ []) e) by by rewrite app_nil_r.
  destruct o as [[]|]; cbn [default bool_decide mark alt_run] in *.
  - destruct st; [done|]. injection Hm as <-. rewrite bool_decide_false by done. cbn [negb]. rewrite is_kind_at by done. cbn.
    rewrite Hnext. exists (first_key Q), inv, (e + 1). rewrite <- (app_assoc M), HLe. split_and!; [done|done|lia| |done].
    apply keys_below_app. split; [eapply keys_below_mono; [done|lia]|]. apply keys_below_cons. split; [lia|apply keys_below_nil].
  - destruct st; [|done]. injection Hm as <-. rewrite bool_decide_false by done. cbn [negb]. rewrite is_kind_at by done. cbn.
    exists (Some e), inv, e. rewrite app_nil_r, HLe. split_and!; [done|done|lia|by rewrite app_nil_r in *|done].
  - injection Hm as <-. rewrite bool_decide_true by done. cbn [negb]. rewrite Hnext. destruct st; cbn [closed].
    + destruct (alt_head_X Q Ha) as (q & Q' & ->). cbn [first_key]. pose proof HQ as [Hq HQ']%keys_from_cons. destruct HoQ as [HQo _].
      assert (is_kind (L ++ (e, X) :: (q, X) :: Q') q X = true) as ->.
      { rewrite cons_middle, app_assoc. rewrite is_kind_at; [done|]. apply keys_below_app.
        split; [eapply keys_below_mono; [done|lia]|]. apply keys_below_cons. split; [lia|apply keys_below_nil]. }
      destruct (prev_some L ((e, X) :: (q, X) :: Q') e) as [p Hp]; [unfold L; by destruct P|done|by apply keys_from_cons; split; [lia|eapply keys_from_mono; [exact HQ|lia]]|].
      rewrite Hp. cbn [mbind option_bind]. rewrite erase_mid by done. exists (Some q), (p :: inv), e.
      rewrite <- (app_assoc M), HLe. split_and!; [done|done|lia|done|eapply keys_from_mono; [done|lia]].
    + assert (match first_key Q with Some n => if is_kind (L ++ (e, X) :: Q) n X
         then p ← prev (L ++ (e, X) :: Q) e; Some (erase (L ++ (e, X) :: Q) e, Some n, p :: inv) else Some (L ++ (e, X) :: Q, Some e, inv)
         | None => Some (L ++ (e, X) :: Q, Some e, inv) end = Some (L ++ (e, X) :: Q, Some e, inv)) as ->.
      { destruct (alt_head_O Q Ha) as [->|(q & Q' & ->)]; [done|]. cbn [first_key]. pose proof HQ as [Hq HQ']%keys_from_cons.
        rewrite cons_middle, app_assoc, is_kind_at; [done|]. apply keys_below_app.
        split; [eapply keys_below_mono; [done|lia]|]. apply keys_below_cons. split; [lia|apply keys_below_nil]. }
      exists (Some e), inv, e. rewrite <- (app_assoc M), HLe. split_and!; [done|done|lia|done|done].
Qed.

(** The loop removes exactly the entries between the two iterators. *)
Lemma map_loop_spec P q w Q : forall M fuel inv b,
  P <> [] -> keys_below P b -> keys_from M b -> keys_below M q -> keys_from Q q -> b <= q -> ordered M -> (length M < fuel)%nat ->
  exists inv', map_loop fuel (P ++ M ++ (q, w) :: Q) (lower_bound (M ++ (q, w) :: Q) b) (Some q) inv = Some (P ++ (q, w) :: Q, inv').
Proof.
  induction M as [|[k v] M IH]; intros fuel inv b HPn HP HM HMe HQ Hbe Ho Hf; (destruct fuel as [|fuel]; [cbn in Hf; lia|]).
  - cbn [app]. rewrite lower_bound_from by done. cbn [map_loop]. rewrite decide_True by done. by exists inv.
  - apply keys_from_cons in HM as [Hk HM]. apply keys_below_cons in HMe as [Hke HMe]. destruct Ho as [Hko Ho].
    assert (keys_from ((q, w) :: Q) q) as HqQ by by apply keys_from_cons.
    assert (keys_below P k) by (by eapply keys_below_mono).
    destruct (prev_some (P ++ (k, v) :: M) ((q, w) :: Q) q) as [p Hp]; [by destruct P| |done|].
    { apply keys_below_app. split; [eapply keys_below_mono; [done|lia]|]. by apply keys_below_cons. }
    rewrite <- app_assoc in Hp. cbn [app] in Hp |- *. rewrite lower_bound_from by done. cbn [map_loop prev_it].
    rewrite decide_False by (intros [= ->]; lia). rewrite Hp. cbn [mbind option_bind].
    assert (keys_from (M ++ (q, w) :: Q) (k + 1)) by (apply keys_from_app; split; [done|eapply keys_from_mono; [done|lia]]).
    rewrite erase_mid by done. unfold next. rewrite lower_bound_app by (eapply keys_below_mono; [done|lia]). cbn [lower_bound].
    rewrite (proj2 (Z.ltb_lt k (k + 1))) by lia.
    apply IH; [done|eapply keys_below_mono; [done|lia]|done|done|done|lia|done|cbn in Hf; lia].
Qed.

(** [map]: the part before the range, opened; the part after it, closed. *)
Lemma area_map_split t b e P mb M me Q s1 s2 :
  b < e -> split_table (mAreas t) b e P mb M me Q ->
  alt_run false P = Some s1 -> alt_run s1 (mark b mb ++ M ++ mark e me) = Some s2 -> alt_run s2 Q = Some false ->
  exists inv, area_map t b e = Some (Table (opened s1 P b ++ closed s2 e Q) inv).
Proof.
  intros Hbe [Hm HP HM1 HM2 HQ HoP HoM HoQ] H1 H2 H3. unfold area_map. rewrite Hm.
  assert (keys_from (mark e me ++ Q) (b + 1)) by (apply keys_from_app; split; [apply mark_from; lia|eapply keys_from_mono; [done|lia]]).
  rewrite emplace_mark; [|done|apply keys_from_app; done].
  assert (P ++ (b, default O mb) :: M ++ mark e me ++ Q = (P ++ (b, default O mb) :: M) ++ mark e me ++ Q) as ->
    by (rewrite <- app_assoc; done).
  rewrite emplace_mark; [|apply keys_below_app; split; [eapply keys_below_mono; [done|lia]|apply keys_below_cons; split; [lia|done]]|done].
  rewrite <- app_assoc. change (((b, default O mb) :: M) ++ ?T) with ((b, default O mb) :: M ++ T).
  rewrite alt_run_app in H2. destruct (alt_run s1 (mark b mb)) as [s1'|] eqn:Hs1; [|done]. cbn in H2.
  rewrite alt_run_app in H2. destruct (alt_run s1' M) as [s2'|] eqn:Hs2; [|done]. cbn in H2.
  assert (keys_from (M ++ (e, default X me) :: Q) (b + 1)) as HR.
  { apply keys_from_app. split; [done|]. apply keys_from_cons. split; [lia|eapply keys_from_mono; [done|lia]]. }
  destruct (map_begin_spec P b mb _ s1 s1' (invalidated t) HoP HP HR H1 Hs1) as (pb & inv1 & -> & Hpb & HM0 & HO).
  set (M0 := if s1 then mark b mb else []) in *. rewrite (app_assoc M0).
  assert (keys_below M0 (b + 1) /\ ordered M0) as [HM0b HoM0].
  { unfold M0. destruct s1; [split; [apply mark_below; lia|apply mark_ordered]|split; [apply keys_below_nil|done]]. }
  assert (keys_below (M0 ++ M) e) as HMe by (apply keys_below_app; split; [eapply keys_below_mono; [done|lia]|done]).
  assert (ordered (M0 ++ M)) as HoMM by (by eapply ordered_app).
  assert (opened s1 P b <> []) as HPn by (unfold opened; destruct s1; [by destruct P|by destruct P]).
  cbn [mbind option_bind].
  destruct (map_end_spec (opened s1 P b) (M0 ++ M) e me Q s2' s2 inv1) as (ei & inv2 & e' & -> & -> & He' & HMe' & HQe');
    [done|eapply keys_below_mono; [done|lia]|done..|]. cbn [mbind option_bind].
  set (M1 := (M0 ++ M) ++ (if s2 then mark e me else [])) in *.
  assert (keys_from M1 (pb + 1)) as HM1p.
  { apply keys_from_app; split; [apply keys_from_app; split; [done|eapply keys_from_mono; [done|lia]]|].
    destruct s2; [apply mark_from; lia|intros q Hq; set_solver]. }
  assert (ordered M1) as HoM1.
  { eapply (ordered_app _ _ e); [done|destruct s2; [apply mark_ordered|done]|done|].
    destruct s2; [apply mark_from; lia|intros q Hq; set_solver]. }
  assert (next (opened s1 P b ++ M1 ++ closed s2 e Q) pb = lower_bound (M1 ++ closed s2 e Q) (pb + 1)) as ->.
  { unfold next. by apply lower_bound_app. }
  assert (exists q w Q', closed s2 e Q = (q, w) :: Q' /\ keys_from Q' q) as (q & w & Q' & Eq & HQ').
  { destruct s2; cbn [closed] in *; [destruct (alt_head_X Q H3) as (q & Q' & ->); exists q, X, Q'; split; [done|]|exists e, X, Q; split; [done|]].
    - destruct HoQ as [Hq _]. eapply keys_from_mono; [exact Hq|lia].
    - eapply keys_from_mono; [exact HQ|lia]. }
  rewrite Eq in HQe' |- *. apply keys_from_cons in HQe' as [Hq _]. cbn [first_key].
  destruct (map_loop_spec (opened s1 P b) q w Q' M1 (S (length (opened s1 P b ++ M1 ++ (q, w) :: Q'))) inv2 (pb + 1)) as [inv3 ->];
    [done|done|done|eapply keys_below_mono; [done|lia]|done|lia|done|rewrite !length_app; lia|]. by exists inv3.
Qed.

(** ** [unmap] *)

Definition kind_of (st : bool) : Kind := if st then O else X.

(** [P] is closed at [b]; [Q] is opened again at [e]. *)
Definition shut (st : bool) (b : Z) : list (Z * Kind) := if st then [(b, X)] else [].
Definition reopened (st : bool) (e : Z) : list (Z * Kind) := if st then [(e, O)] else [].

Fixpoint last_kind (d : Kind) (S : list (Z * Kind)) : Kind :=
  match S with [] => d | (_, kd) :: S' => last_kind kd S' end.

Lemma alt_last_kind S st st' : alt_run st S = Some st' -> last_kind (kind_of st) S = kind_of st'.
Proof.
  revert st. induction S as [|[k []] S IH]; intros st; cbn; [by intros [= ->]|..];
    (destruct st; [|]; intros H; try done; by apply (IH _ H)).
Qed.

Lemma unmap_loop_spec P Q e : forall S fuel b d inv,
  P <> [] -> keys_below P b -> keys_from S b -> keys_below S (e + 1) -> keys_from Q (e + 1) -> b <= e + 1 -> ordered S ->
  (length S < fuel)%nat ->
  exists inv', unmap_loop fuel (P ++ S ++ Q) (lower_bound (S ++ Q) b) e d inv = Some (P ++ Q, last_kind d S, inv').
Proof.
  induction S as [|[k kd] S IH]; intros fuel b d inv HPn HP HS HSe HQ Hbe Ho Hf; (destruct fuel as [|fuel]; [cbn in Hf; lia|]).
  - exists inv. cbn [app]. rewrite lower_bound_first by (eapply keys_from_mono; [done|lia]).
    destruct Q as [|[q w] Q]; [done|]. apply keys_from_cons in HQ as [Hq _]. cbn. by rewrite (proj2 (Z.leb_gt q e)) by lia.
  - apply keys_from_cons in HS as [Hk HS]. apply keys_below_cons in HSe as [Hke HSe]. destruct Ho as [Hko Ho].
    change (((k, kd) :: S) ++ Q) with ((k, kd) :: S ++ Q). rewrite lower_bound_from by done. cbn [unmap_loop].
    rewrite (proj2 (Z.leb_le k e)) by lia.
    assert (keys_below P k) by (by eapply keys_below_mono).
    assert (keys_from (S ++ Q) (k + 1)) by (apply keys_from_app; split; [done|eapply keys_from_mono; [done|lia]]).
    rewrite erase_mid by done. unfold next. rewrite lower_bound_app by (eapply keys_below_mono; [done|lia]).
    rewrite at_key_app by done. cbn [lower_bound at_key]. rewrite (proj2 (Z.ltb_lt k (k + 1))), Z.eqb_refl by lia. cbn [mbind option_bind].
    destruct (prev_some P ((k, kd) :: S ++ Q) k) as [p Hp]; [done|done|by apply keys_from_cons; split; [lia|eapply keys_from_mono; [done|lia]]|].
    rewrite Hp. assert (exists inv1, (if bool_decide (kd = O) then p ← Some p; Some (p :: inv) else Some inv) = Some inv1) as [inv1 ->] by (case_bool_decide; eauto).
    cbn [mbind option_bind]. apply IH; [done|eapply keys_below_mono; [done|lia]|done|done|done|lia|done|cbn in Hf; lia].
Qed.

(** The end of [unmap]: the rest of the marks go, the last of them decides. *)
Lemma unmap_rest P Q S b' e inv :
  P <> [] -> keys_below P b' -> keys_from S b' -> keys_below S (e + 1) -> keys_from Q (e + 1) -> ordered S ->
  b' <= e + 1 -> (last_kind X S = O -> keys_below P e) ->
  exists inv',
    ('(m, lastKind, inv) ← unmap_loop (Datatypes.S (length (P ++ S ++ Q))) (P ++ S ++ Q) (lower_bound (S ++ Q) b') e X inv;
     Some (if bool_decide (lastKind = O) then Table (insert_entry m e O) inv else Table m inv)) =
    Some (Table (P ++ reopened (bool_decide (last_kind X S = O)) e ++ Q) inv').
Proof.
  intros HPn HP HS HSe HQ Ho Hb Hl.
  destruct (unmap_loop_spec P Q e S (Datatypes.S (length (P ++ S ++ Q))) b' X inv)
    as [inv' ->]; [done..|rewrite !length_app; lia|].
  exists inv'. cbn [mbind option_bind]. case_bool_decide; cbn; [|done]. do 2 f_equal. by rewrite insert_entry_app, insert_entry_from by auto.
Qed.

(** From the first mark [k] of the range on. *)
Lemma unmap_tail_spec P Q k kd S b e inv :
  P <> [] \/ (kd = X /\ k = b) -> b < e -> keys_below P b -> b <= k < e -> ordered ((k, kd) :: S) -> keys_below S (e + 1) -> keys_from Q (e + 1) ->
  exists inv',
    unmap_tail (P ++ (k, kd) :: S ++ Q) k b e inv =
      Some (Table (P ++ shut (bool_decide (kd = X)) b ++ reopened (bool_decide (last_kind kd S = O)) e ++ Q) inv').
Proof.
  intros HPn Hbe HP Hk [Hko HoS] HS HQ. unfold unmap_tail.
  assert (keys_below P k) by (eapply keys_below_mono; [done|lia]).
  assert (keys_from (S ++ Q) (k + 1)) as HSQ by (apply keys_from_app; split; [done|eapply keys_from_mono; [done|lia]]).
  assert (keys_below (P ++ [(b, X)]) (b + 1)) as HPb.
  { apply keys_below_app. split; [eapply keys_below_mono; [exact HP|lia]|apply keys_below_cons; split; [lia|apply keys_below_nil]]. }
  rewrite is_kind_at by done. destruct kd; cbn.
  - rewrite andb_false_r. cbn -[unmap_loop]. assert (P <> []) by (by destruct HPn as [|[? _]]). replace (Some k) with (lower_bound ((k, O) :: S ++ Q) k) by (by apply lower_bound_from).
    apply (unmap_rest P Q ((k, O) :: S) k e); [done|done| | |done|done|lia|].
    + apply keys_from_cons. split; [lia|eapply keys_from_mono; [done|lia]].
    + apply keys_below_cons. split; [lia|done].
    + intros _. eapply keys_below_mono; [done|lia].
  - rewrite andb_true_r.
    assert (forall inv, exists inv',
      ('(m, lastKind, inv) ← unmap_loop (Datatypes.S (length (P ++ (b, X) :: S ++ Q))) (P ++ (b, X) :: S ++ Q)
          (next (P ++ (b, X) :: S ++ Q) b) e X inv;
       Some (if bool_decide (lastKind = O) then Table (insert_entry m e O) inv else Table m inv)) =
      Some (Table (P ++ (b, X) :: reopened (bool_decide (last_kind X S = O)) e ++ Q) inv')) as Hrest.
    { intros inv0. rewrite !cons_middle, !(app_assoc P). unfold next. rewrite lower_bound_app by done.
      apply unmap_rest; [by destruct P|done|eapply keys_from_mono; [exact Hko|lia]|done|done|done|lia|].
      intros _. eapply keys_below_mono; [done|lia]. }
    destruct (Z.ltb_spec b k).
    + destruct (prev_some P ((k, X) :: S ++ Q) k) as [p ->]; [by destruct HPn as [|[_ ?]]; [|lia]|done|by apply keys_from_cons; split; [lia|eapply keys_from_mono; [done|lia]]|].
      cbn [mbind option_bind]. assert (emplace (P ++ (k, X) :: S ++ Q) b X = (P ++ (b, X) :: (k, X) :: S ++ Q, true)) as ->.
      { apply (emplace_mark P b None X); [done|]. apply keys_from_cons. split; [lia|eapply keys_from_mono; [done|lia]]. }
      cbn [fst]. rewrite (cons_middle (b, X)), (app_assoc P), erase_mid by (done || by eapply keys_below_mono; [done|lia]).
      rewrite <- app_assoc. apply Hrest.
    + replace k with b by lia. apply Hrest.
Qed.

(** [unmap]: the part before the range, closed; the part after it, opened. *)
Lemma area_unmap_split t b e P S Q s1 s2 :
  (forall k, P = [] -> first_key S = Some k -> e <= k) -> b < e -> mAreas t = P ++ S ++ Q -> keys_below P b -> keys_from S b -> keys_below S (e + 1) -> keys_from Q (e + 1) ->
  ordered P -> ordered S -> ordered Q ->
  alt_run false P = Some s1 -> alt_run s1 S = Some s2 -> alt_run s2 Q = Some false ->
  exists inv, area_unmap t b e = Some (Table (P ++ shut s1 b ++ reopened s2 e ++ Q) inv).
Proof.
  intros Hfirst Hbe Hm HP HS HSe HQ HoP HoS HoQ H1 H2 H3. unfold area_unmap. rewrite Hm, lower_bound_app by done.
  assert (s1 = true -> forall k kd (R : list (Z * Kind)), b <= k -> keys_from R (k + 1) ->
      exists p, prev (P ++ (k, kd) :: R) k = Some p /\ p < b) as Hprev.
  { intros -> k kd R Hk HR. destruct (alt_open_last P H1) as (P' & p & ->). pose proof HP as [HP' [Hp _]%keys_below_cons]%keys_below_app.
    exists p. split; [|done]. rewrite <- app_assoc. cbn [app]. apply prev_app; [eapply keys_below_mono; [exact HP'|lia]|lia|].
    apply keys_from_cons. split; [lia|]. eapply keys_from_mono; [done|lia]. }
  assert (forall k R, b <= k -> keys_from R (k + 1) -> emplace (P ++ (k, X) :: R) b X = (P ++ (if k =? b then [] else [(b, X)]) ++ (k, X) :: R, negb (k =? b)))
    as Hemp.
  { intros k R Hk HR. destruct (Z.eqb_spec k b) as [->|].
    - apply (emplace_mark P b (Some X) X); done.
    - apply (emplace_mark P b None X); [done|]. apply keys_from_cons. split; [lia|]. eapply keys_from_mono; [done|lia]. }
  assert (forall k kd R, keys_below P k -> is_kind (P ++ (k, kd) :: R) k X = bool_decide (kd = X)) as Hkind by (intros; by apply is_kind_at).
  destruct S as [|[k kd] S]; cbn [app].
  - injection H2 as <-. destruct Q as [|[q kd] Q].
    + injection H3 as ->. cbn. cbn in Hm. rewrite <- Hm. exists (invalidated t). by destruct t.
    + apply keys_from_cons in HQ as [Hq HQ]. destruct HoQ as [Hqo HoQ]. rewrite lower_bound_from by lia.
      rewrite (proj2 (Z.leb_le e q)) by lia. rewrite Hkind by (eapply keys_below_mono; [done|lia]).
      destruct kd; cbn [bool_decide decide negb].
      * destruct s1; [done|]. cbn. cbn in Hm. rewrite <- Hm. exists (invalidated t). by destruct t.
      * destruct s1; [|done]. destruct (Hprev eq_refl q X Q) as (p & -> & Hp); [lia|done|].
        cbn. rewrite (proj2 (Z.leb_gt e p)), (proj2 (Z.ltb_lt p b)), (proj2 (Z.ltb_lt e q)) by lia.
        rewrite Hemp by (lia || done). rewrite (proj2 (Z.eqb_neq q b)) by lia. cbn [fst app].
        pose proof (emplace_mark (P ++ [(b, X)]) e None O ((q, X) :: Q)) as He. cbn [mark app] in He.
        rewrite cons_middle, app_assoc, He.
        -- eexists. cbn. by rewrite <- app_assoc.
        -- apply keys_below_app. split; [eapply keys_below_mono; [done|lia]|apply keys_below_cons; split; [lia|apply keys_below_nil]].
        -- apply keys_from_cons. split; [lia|]. eapply keys_from_mono; [exact Hqo|lia].
  - apply keys_from_cons in HS as [Hk HS]. apply keys_below_cons in HSe as [Hke HSe]. rewrite lower_bound_from by done.
    assert (s1 = bool_decide (kd = X) /\ last_kind kd S = kind_of s2) as [-> Hl].
    { destruct kd, s1; try done; (split; [done|]); cbn in H2; by apply alt_last_kind in H2. }
    assert (s2 = bool_decide (last_kind kd S = O)) as Hs2 by (rewrite Hl; by destruct s2).
    destruct (Z.leb_spec e k).
    + assert (k = e) as -> by lia. assert (S = []) as ->.
      { destruct S as [|[k' v] S]; [done|]. destruct HoS as [[Hk' _]%keys_from_cons _]. apply keys_below_cons in HSe as [? _]. lia. }
      rewrite Hkind by (eapply keys_below_mono; [done|lia]).
      destruct kd; [change (bool_decide (O = X)) with false in *|change (bool_decide (X = X)) with true in *]; cbn.
      * injection H2 as <-. cbn. cbn in Hm. rewrite <- Hm. exists (invalidated t). by destruct t.
      * injection H2 as <-. destruct (Hprev eq_refl e X Q) as (p & -> & Hp); [lia|done|].
        rewrite (proj2 (Z.leb_gt e p)), (proj2 (Z.ltb_lt p b)), (proj2 (Z.ltb_ge e e)) by lia.
        rewrite Hemp by (lia || done). rewrite (proj2 (Z.eqb_neq e b)) by lia. cbn [fst app].
        destruct (unmap_tail_spec P Q b X [(e, X)] b e (p :: invalidated t)) as [inv' Ht]; [by right|done..|lia| | |done|].
        -- cbn. split; [|split; [intros x Hx; set_solver|done]]. apply keys_from_cons. split; [lia|intros x Hx; set_solver].
        -- apply keys_below_cons. split; [lia|apply keys_below_nil].
        -- cbn [app] in Ht. rewrite Ht. by exists inv'.
    + assert (P <> []) as HPn by (intros HPn; specialize (Hfirst k HPn eq_refl); lia).
      destruct (unmap_tail_spec P Q k kd S b e (invalidated t)) as [inv' Ht]; [by left|done..|].
      rewrite Ht, <- Hs2. by exists inv'.
Qed.

(** When the lowest area begins in the range, [unmap] reads the key before
    [begin()]. *)
Lemma area_unmap_first t b e k m : mAreas t = (k, O) :: m -> b <= k < e -> area_unmap t b e = None.
Proof.
  intros Hm Hk. unfold area_unmap. rewrite Hm, lower_bound_from, (proj2 (Z.leb_gt e k)) by lia. unfold unmap_tail.
  assert (is_kind ((k, O) :: m) k X = false) as -> by (unfold is_kind; cbn; by rewrite Z.eqb_refl). rewrite andb_false_r. cbn -[unmap_loop].
  cbn [unmap_loop length]. rewrite (proj2 (Z.leb_le k e)) by lia. cbn. by rewrite Z.eqb_refl, Z.ltb_irrefl.
Qed.

(** ** The set of addresses *)

Lemma covers_low P R a b : keys_from R b -> a < b -> covers false (P ++ R) a = covers false P a.
Proof. intros HR Ha. apply covers_from_app. eapply keys_from_mono; [done|lia]. Qed.

Lemma covers_high P Q a e st : keys_below P (e + 1) -> alt_run false P = Some st -> e <= a ->
  covers false (P ++ Q) a = covers st Q a.
Proof.
  intros HP Hst Ha. assert (keys_below P (a + 1)) by (eapply keys_below_mono; [done|lia]).
  rewrite covers_app by done. by rewrite (covers_alt false P a st).
Qed.

(** What a well-formed table looks like around a range. *)
Lemma wf_around (t : MemoryAreaTable) b e : table_wf (mAreas t) -> b < e ->
  exists P mb M me Q s1 s2,
    split_table (mAreas t) b e P mb M me Q /\ alt_run false P = Some s1 /\
    alt_run s1 (mark b mb ++ M ++ mark e me) = Some s2 /\ alt_run s2 Q = Some false /\
    (forall a, a < b -> covered t a = covers false P a) /\
    (forall a, e <= a -> covered t a = covers s2 Q a).
Proof.
  intros [Ho Ha] Hbe. destruct (split_exists _ b e Ho Hbe) as (P & mb & M & me & Q & Hs).
  pose proof Hs as [Hm HP HM1 HM2 HQ HoP HoM HoQ]. rewrite Hm in Ha.
  replace (P ++ mark b mb ++ M ++ mark e me ++ Q) with ((P ++ mark b mb ++ M ++ mark e me) ++ Q) in Ha by by rewrite <- !app_assoc.
  rewrite alt_run_app in Ha. destruct (alt_run false (P ++ _)) as [s2|] eqn:H2; [|done].
  pose proof H2 as H2'. rewrite alt_run_app in H2'. destruct (alt_run false P) as [s1|] eqn:H1; [|done].
  exists P, mb, M, me, Q, s1, s2. split; [done|]. split; [done|]. split; [done|]. split; [done|]. split.
  - intros a Hab. unfold covered. rewrite Hm. apply (covers_low _ _ _ b); [|done].
    rewrite !keys_from_app. split_and!; [apply mark_from; lia| |apply mark_from; lia|]; (eapply keys_from_mono; [done|lia]).
  - intros a Hea. unfold covered. rewrite Hm.
    replace (P ++ mark b mb ++ M ++ mark e me ++ Q) with ((P ++ mark b mb ++ M ++ mark e me) ++ Q) by by rewrite <- !app_assoc.
    apply (covers_high _ _ _ e); [|done|done]. rewrite !keys_below_app.
    split_and!; [| apply mark_below; lia | | apply mark_below; lia]; (eapply keys_below_mono; [done|lia]).
Qed.

(** Both operations leave [P ++ N ++ Q] for a few new marks [N] of the range. *)
Lemma wf_assemble P N Q b e s1 s2 inv :
  b < e -> ordered P -> ordered N -> ordered Q -> keys_below P b -> keys_from N b -> keys_below N (e + 1) -> keys_from Q (e + 1) ->
  alt_run false P = Some s1 -> alt_run s1 N = Some s2 -> alt_run s2 Q = Some false ->
  table_wf (P ++ N ++ Q) /\
  forall a, covered (Table (P ++ N ++ Q) inv) a =
    if a <? b then covers false P a else if e <=? a then covers s2 Q a else covers s1 N a.
Proof.
  intros Hbe HoP HoN HoQ HP HN HNe HQ H1 H2 H3. assert (keys_from (N ++ Q) b) as HNQ.
  { apply keys_from_app. split; [done|]. eapply keys_from_mono; [done|lia]. }
  split; [split|].
  - eapply ordered_app; [done| |done|done]. by eapply ordered_app.
  - rewrite !alt_run_app, H1. cbn. by rewrite alt_run_app, H2.
  - intros a. unfold covered. cbn [mAreas]. destruct (Z.ltb_spec a b); [by apply (covers_low _ _ _ b)|].
    destruct (Z.leb_spec e a).
    + rewrite app_assoc. apply (covers_high _ _ _ e); [|by rewrite alt_run_app, H1|done].
      apply keys_below_app. split; [eapply keys_below_mono; [done|lia]|done].
    + rewrite app_assoc, covers_from_app by (eapply keys_from_mono; [done|lia]).
      rewrite covers_app by (eapply keys_below_mono; [done|lia]).
      by rewrite (covers_alt false P a s1) by (done || by eapply keys_below_mono; [done|lia]).
Qed.

(** The marks the operations leave in the range are at its ends. *)
Lemma edges_spec b e o1 o2 : b < e ->
  ordered (mark b o1 ++ mark e o2) /\ keys_from (mark b o1 ++ mark e o2) b /\ keys_below (mark b o1 ++ mark e o2) (e + 1).
Proof.
  intros Hbe. split_and!.
  - apply (ordered_app _ _ e); [apply mark_ordered|apply mark_ordered|by apply mark_below|by apply mark_from].
  - apply keys_from_app. split; apply mark_from; lia.
  - apply keys_below_app. split; apply mark_below; lia.
Qed.

Lemma edges_cover b e st o1 o2 a : b <= a < e ->
  covers st (mark b o1 ++ mark e o2) a = match o1 with Some kd => bool_decide (kd = O) | None => st end.
Proof.
  intros Ha. destruct o1 as [kd|], o2 as [kd'|]; cbn [mark app covers];
    rewrite ?(proj2 (Z.ltb_ge a b)), ?(proj2 (Z.ltb_lt a e)) by lia; done.
Qed.

(** C30: [map(b, e)] of a table of separate ranges returns, leaves the table a
    list of separate ranges in increasing order, and adds exactly the addresses
    of [b, e): overlapping and touching ranges are merged, no address is lost. *)
Theorem area_map_adds (t : MemoryAreaTable) b e :
  table_wf (mAreas t) -> b < e ->
  exists t', area_map t b e = Some t' /\ table_wf (mAreas t') /\
    forall a, covered t' a = covered t a || ((b <=? a) && (a <? e)).
Proof.
  intros Hwf Hbe. destruct (wf_around t b e Hwf Hbe) as (P & mb & M & me & Q & s1 & s2 & Hs & H1 & H2 & H3 & Hlo & Hhi).
  destruct (area_map_split t b e P mb M me Q s1 s2 Hbe Hs H1 H2 H3) as [inv Hmap].
  destruct Hs as [Hm HP HM1 HM2 HQ HoP HoM HoQ]. eexists. split; [exact Hmap|].
  set (o1 := if s1 then None else Some O). set (o2 := if s2 then None else Some X).
  assert (opened s1 P b ++ closed s2 e Q = P ++ (mark b o1 ++ mark e o2) ++ Q) as ->.
  { unfold o1, o2, opened, closed. destruct s1, s2; cbn; by rewrite <- ?app_assoc. }
  destruct (edges_spec b e o1 o2 Hbe) as (E1 & E2 & E3).
  destruct (wf_assemble P _ Q b e s1 s2 inv Hbe HoP E1 HoQ HP E2 E3 HQ H1) as [Hwf' Hcov]; [by destruct s1, s2|done|].
  split; [done|]. intros a. rewrite Hcov. destruct (Z.ltb_spec a b); [rewrite Hlo, (proj2 (Z.leb_gt b a)) by lia|
    destruct (Z.leb_spec e a); [rewrite Hhi, (proj2 (Z.ltb_ge a e)), andb_false_r by lia|]]; [by rewrite orb_false_r..|].
  rewrite edges_cover, (proj2 (Z.leb_le b a)), (proj2 (Z.ltb_lt a e)) by lia. rewrite orb_true_r. by destruct s1.
Qed.

Definition demo_table : MemoryAreaTable := Table [(4096, O); (8192, X); (16384, O); (20480, X)] [].

Lemma demo_table_wf : table_wf (mAreas demo_table).
Proof.
  split; [|done]. cbn. split_and!; try done; intros e He; repeat (apply elem_of_cons in He as [->|He]; [cbn; lia|]);
    by apply elem_of_nil in He.
Defined.

Lemma area_map_adds_witness :
  exists t', area_map demo_table 6000 16384 = Some t' /\ table_wf (mAreas t') /\
    forall a, covered t' a = covered demo_table a || ((6000 <=? a) && (a <? 16384)).
Proof. apply (area_map_adds demo_table 6000 16384); [exact demo_table_wf|lia]. Defined.

(** C31: [unmap(b, e)] of a table of separate ranges has undefined behaviour (it
    reads the key before [begin()]) exactly when the lowest range begins in
    [b, e).  Otherwise it returns, leaves the table a list of separate ranges,
    and removes exactly the addresses of [b, e): a range that sticks out on
    either side keeps the part outside. *)
Theorem area_unmap_removes (t : MemoryAreaTable) b e :
  table_wf (mAreas t) -> b < e ->
  (area_unmap t b e = None <-> exists k, first_key (mAreas t) = Some k /\ b <= k < e) /\
  forall t', area_unmap t b e = Some t' ->
    table_wf (mAreas t') /\ forall a, covered t' a = covered t a && negb ((b <=? a) && (a <? e)).
Proof.
  intros Hwf Hbe. assert ((exists k, first_key (mAreas t) = Some k /\ b <= k < e) \/ ~ (exists k, first_key (mAreas t) = Some k /\ b <= k < e)) as [(k & Hf & Hk)|Hno].
  { destruct (first_key (mAreas t)) as [k|]; [destruct (decide (b <= k < e)); [left; by exists k|right; by intros (? & [= <-] & ?)]|right; by intros (? & ? & _)]. }
  { assert (area_unmap t b e = None) as ->; [|split; [by split; [exists k|]|done]].
    destruct Hwf as [_ Ha]. destruct (mAreas t) as [|[k' kd] m] eqn:Em; [done|]. injection Hf as ->. destruct kd; [|done]. by eapply area_unmap_first. }
  destruct (wf_around t b e Hwf Hbe) as (P & mb & M & me & Q & s1 & s2 & [Hm HP HM1 HM2 HQ HoP HoM HoQ] & H1 & H2 & H3 & Hlo & Hhi).
  set (S := mark b mb ++ M ++ mark e me) in *.
  assert (keys_from S b /\ keys_below S (e + 1) /\ ordered S) as (HS & HSe & HoS).
  { assert (keys_from (M ++ mark e me) (b + 1)) by (apply keys_from_app; split; [done|apply mark_from; lia]). unfold S. split_and!.
    - apply keys_from_app. split; [by apply mark_from|]. eapply keys_from_mono; [done|lia].
    - rewrite !keys_below_app. split_and!; [apply mark_below; lia|eapply keys_below_mono; [exact HM2|lia]|apply mark_below; lia].
    - apply (ordered_app _ _ (b + 1)); [apply mark_ordered| |apply mark_below; lia|done].
      apply (ordered_app _ _ e); [done|apply mark_ordered|done|by apply mark_from]. }
  assert (mAreas t = P ++ S ++ Q) as HmS by (rewrite Hm; unfold S; by rewrite <- !app_assoc).
  destruct (area_unmap_split t b e P S Q s1 s2) as [inv Hmap]; try done.
  { intros k HPn Hk. rewrite HPn in HmS. cbn [app] in HmS. destruct (decide (k < e)); [|lia]. exfalso. apply Hno. exists k.
    rewrite HmS. destruct S as [|[k' v] S']; [done|]. split; [exact Hk|]. injection Hk as ->. apply keys_from_cons in HS as [? _]. lia. }
  rewrite Hmap. split; [by split|]. intros t' [= <-]. set (o1 := if s1 then Some X else None). set (o2 := if s2 then Some O else None).
  assert (P ++ shut s1 b ++ reopened s2 e ++ Q = P ++ (mark b o1 ++ mark e o2) ++ Q) as ->.
  { unfold o1, o2. rewrite <- !app_assoc. by destruct s1, s2. }
  destruct (edges_spec b e o1 o2 Hbe) as (E1 & E2 & E3).
  destruct (wf_assemble P _ Q b e s1 s2 inv Hbe HoP E1 HoQ HP E2 E3 HQ H1) as [Hwf' Hcov]; [by destruct s1, s2|done|].
  split; [done|]. intros a. rewrite Hcov. destruct (Z.ltb_spec a b); [rewrite Hlo, (proj2 (Z.leb_gt b a)) by lia|
    destruct (Z.leb_spec e a); [rewrite Hhi, (proj2 (Z.ltb_ge a e)), andb_false_r by lia|]]; [by rewrite andb_true_r..|].
  rewrite edges_cover, (proj2 (Z.leb_le b a)), (proj2 (Z.ltb_lt a e)) by lia. rewrite andb_false_r. by destruct s1.
Qed.

Lemma area_unmap_removes_witness :
  (exists t', area_unmap demo_table 6000 18000 = Some t' /\ table_wf (mAreas t') /\
    forall a, covered t' a = covered demo_table a && negb ((6000 <=? a) && (a <? 18000))) /\
  area_unmap demo_table 4096 6000 = None.
Proof.
  split.
  - destruct (area_unmap demo_table 6000 18000) as [t'|] eqn:E; [|vm_compute in E; discriminate E]. exists t'. split; [reflexivity|].
    apply (area_unmap_removes demo_table 6000 18000); [exact demo_table_wf|lia|exact E].
  - apply (area_unmap_removes demo_table 4096 6000); [exact demo_table_wf|lia|]. exists 4096. split; [reflexivity|lia].
Defined.

(** ** Queries *)

(** [[b, e)] is one of the ranges: covered, and neither neighbour is. *)
Definition is_area (t : MemoryAreaTable) (b e : Z) : Prop :=
  b < e /\ (forall x, b <= x < e -> covered t x = true) /\ covered t (b - 1) = false /\ covered t e = false.

Lemma area_shape P p q Q inv :
  table_wf (P ++ (p, O) :: (q, X) :: Q) -> is_area (Table (P ++ (p, O) :: (q, X) :: Q) inv) p q.
Proof.
  intros [Ho Ha]. rewrite alt_run_app in Ha. destruct (alt_run false P) as [[]|] eqn:HP; [done| |done]. cbn in Ha.
  apply ordered_app_inv in Ho as (HoP & [Hp [Hq HoQ]] & Hlt).
  assert (keys_below P p) as HPp by (intros x Hx; apply (Hlt x (p, O)); [done|left]).
  apply keys_from_cons in Hp as [Hpq Hp].
  assert (forall x, p <= x -> keys_below P (x + 1)) as HPx by (intros x Hx; eapply keys_below_mono; [done|lia]).
  unfold is_area, covered. cbn [mAreas]. split_and!; [lia|..].
  - intros x Hx. rewrite covers_app by (apply HPx; lia). cbn.
    by rewrite (proj2 (Z.ltb_ge x p)), (proj2 (Z.ltb_lt x q)) by lia.
  - rewrite covers_from_app.
    + apply covers_alt; [|done]. eapply keys_below_mono; [done|lia].
    + apply keys_from_cons. split; [lia|]. apply keys_from_cons. split; [lia|]. eapply keys_from_mono; [done|lia].
  - rewrite covers_app by (apply HPx; lia). cbn. rewrite (proj2 (Z.ltb_ge q p)), Z.ltb_irrefl by lia. by apply covers_from.
Qed.

(** [queryArea] of an address in one of the ranges returns that range, the
    whole of it, and of an address in none of them ends in a failed assertion. *)
Theorem query_returns_area (t : MemoryAreaTable) a :
  table_wf (mAreas t) ->
  match queryArea t a with
  | Some (b, e) => covered t a = true /\ is_area t b e /\ b <= a < e
  | None => covered t a = false
  end.
Proof.
  intros Hwf. pose proof Hwf as [Ho Ha]. destruct t as [m inv]. cbn [mAreas] in *.
  destruct (split_at_key m a Ho) as (P & Q & -> & HP & HQ).
  rewrite alt_run_app in Ha. destruct (alt_run false P) as [s|] eqn:HsP; [|done]. cbn in Ha.
  assert (keys_below P (a + 1)) as HPa by (eapply keys_below_mono; [done|lia]).
  assert (forall R, covered (Table (P ++ R) inv) a = covers s R a) as Hcov.
  { intros R. unfold covered. cbn. rewrite covers_app by done. by rewrite (covers_alt false P a s). }
  rewrite Hcov. unfold queryArea. cbn [mAreas]. rewrite lower_bound_app by done.
  destruct Q as [|[k kd] Q]; [by injection Ha as ->|]. apply keys_from_cons in HQ as [Hk HQ].
  apply ordered_app_inv in Ho as (HoP & [Hko HoQ] & _).
  rewrite lower_bound_from by done. rewrite is_kind_at, is_kind_at by (eapply keys_below_mono; [exact HP|lia]).
  destruct (Z.eqb_spec k a) as [->|]; cbn [negb].
  - destruct kd; [change (bool_decide (O = O)) with true|change (bool_decide (X = O)) with false]; cbn; rewrite Z.ltb_irrefl, covers_from by done; [|done].
    destruct s; [done|]. destruct (alt_head_X Q Ha) as (q & Q' & ->). unfold next.
    rewrite lower_bound_app by done. cbn. rewrite (proj2 (Z.ltb_lt a (a + 1))) by lia.
    apply keys_from_cons in Hko as [Hq _]. rewrite (proj2 (Z.ltb_ge q (a + 1))) by lia.
    split; [done|]. split; [by apply area_shape|lia].
  - destruct kd; [change (bool_decide (O = X)) with false|change (bool_decide (X = X)) with true]; cbn;
      rewrite (proj2 (Z.ltb_lt a k)) by lia; (destruct s; [done || idtac|done || idtac]); try done.
    destruct (alt_open_last P HsP) as (P' & p & ->). apply keys_below_app in HP as [HP' [Hp _]%keys_below_cons].
    rewrite <- app_assoc in Hwf |- *. cbn [app] in Hwf |- *. rewrite prev_app.
    + split; [done|]. split; [by apply area_shape|lia].
    + eapply keys_below_mono; [done|lia].
    + lia.
    + apply keys_from_cons. split; [lia|]. eapply keys_from_mono; [exact Hko|lia].
Qed.

Lemma query_returns_area_witness :
  match queryArea demo_table 17000 with
  | Some (b, e) => covered demo_table 17000 = true /\ is_area demo_table b e /\ b <= 17000 < e
  | None => covered demo_table 17000 = false
  end.
Proof. apply (query_returns_area demo_table 17000). exact demo_table_wf. Defined.

(** Unmapping from the very start of the first range reads the key before
    [begin()]. *)
Lemma unmap_reads_before_begin : area_unmap (Table [(4096, O); (8192, X)] []) 4096 6000 = None.
Proof. reflexivity. Qed.
