(* ===== verification/V128.v ===== *)
(** * 128-bit vectors

    [rx/include/rx/v128.hpp] and the parts of [rx/include/rx/simd.hpp] the SPU
    interpreter uses.  A vector is a 128-bit word; lane [i] of width [w] is its
    bits [w * i] up to [w * (i + 1)], the element [_u8[i]], [_u16[i]] ... of the
    union on a little-endian host.  The [_mm_] intrinsics of the compiler act
    lane by lane as documented; the [gv_] wrappers are those of the source. *)
From S2P Require Import Prelude.

(** ** Lanes *)

Definition lane (w v i : Z) : Z := wrap w (Z.shiftr v (w * i)).

(** The vector whose lane [i] is [f i]. *)
Fixpoint pack_upto (w : Z) (n : nat) (f : Z -> Z) : Z :=
  match n with
  | O => 0
  | S k => Z.lor (pack_upto w k f) (Z.shiftl (wrap w (f (Z.of_nat k))) (w * Z.of_nat k))
  end.

Definition lanes (w : Z) : nat := Z.to_nat (128 / w).
Definition pack (w : Z) (f : Z -> Z) : Z := pack_upto w (lanes w) f.

Definition map1 (w : Z) (f : Z -> Z) (a : Z) : Z := pack w (fun i => f (lane w a i)).
Definition map2 (w : Z) (f : Z -> Z -> Z) (a b : Z) : Z := pack w (fun i => f (lane w a i) (lane w b i)).

(** Assignment to an element of the union. *)
Definition set_lane (w v i x : Z) : Z := pack w (fun j => if j =? i then x else lane w v j).

(** ** Constructors *)

Definition from32r (x : Z) : Z := pack 32 (fun i => if i =? 3 then x else 0).
Definition from32p (x : Z) : Z := pack 32 (fun _ => x).
Definition from64 (x0 x1 : Z) : Z := pack 64 (fun i => if i =? 0 then x0 else x1).

(** ** Intrinsics *)

Definition mask_of (w : Z) (b : bool) : Z := if b then 2 ^ w - 1 else 0.

Definition _mm_and_si128 (a b : Z) : Z := Z.land a b.
Definition _mm_or_si128 (a b : Z) : Z := Z.lor a b.
Definition _mm_xor_si128 (a b : Z) : Z := Z.lxor a b.
(** [~a & b] *)
Definition _mm_andnot_si128 (a b : Z) : Z := Z.land (bnot 128 a) b.
Definition _mm_setzero_si128 : Z := 0.

Definition mm_set1 (w x : Z) : Z := pack w (fun _ => x).
Definition mm_add (w a b : Z) : Z := map2 w Z.add a b.
Definition mm_sub (w a b : Z) : Z := map2 w Z.sub a b.
Definition mm_cmpeq (w a b : Z) : Z := map2 w (fun x y => mask_of w (x =? y)) a b.
(** Signed greater-than. *)
Definition mm_cmpgt (w a b : Z) : Z := map2 w (fun x y => mask_of w (sext w y <? sext w x)) a b.
Definition mm_min_epu (w a b : Z) : Z := map2 w Z.min a b.
Definition mm_max_epu (w a b : Z) : Z := map2 w Z.max a b.
(** Saturating unsigned subtraction. *)
Definition mm_subs_epu (w a b : Z) : Z := map2 w (fun x y => Z.max 0 (x - y)) a b.
(** Rounded average. *)
Definition mm_avg_epu (w a b : Z) : Z := map2 w (fun x y => (x + y + 1) / 2) a b.

(** Shifts by an immediate: counts past the width clear the lane or fill it
    with the sign. *)
Definition mm_slli (w a n : Z) : Z := map1 w (fun x => if w <=? n then 0 else Z.shiftl x n) a.
Definition mm_srli (w a n : Z) : Z := map1 w (fun x => if w <=? n then 0 else Z.shiftr x n) a.
Definition mm_srai (w a n : Z) : Z := map1 w (fun x => Z.shiftr (sext w x) (Z.min n (w - 1))) a.
(** Whole-vector shifts by bytes. *)
Definition _mm_slli_si128 (a n : Z) : Z := u128 (Z.shiftl a (8 * n)).
Definition _mm_srli_si128 (a n : Z) : Z := Z.shiftr a (8 * n).

Definition _mm_mullo_epi16 (a b : Z) : Z := map2 16 (fun x y => s16 x * s16 y) a b.
Definition _mm_mulhi_epi16 (a b : Z) : Z := map2 16 (fun x y => Z.shiftr (s16 x * s16 y) 16) a b.
Definition _mm_mulhi_epu16 (a b : Z) : Z := map2 16 (fun x y => Z.shiftr (x * y) 16) a b.
(** Products of signed 16-bit lanes added in pairs. *)
Definition _mm_madd_epi16 (a b : Z) : Z :=
  pack 32 (fun i => s16 (lane 16 a (2 * i)) * s16 (lane 16 b (2 * i)) +
                    s16 (lane 16 a (2 * i + 1)) * s16 (lane 16 b (2 * i + 1))).

(** Two bits of the immediate select the source of each 32-bit lane. *)
Definition _mm_shuffle_epi32 (a imm : Z) : Z := pack 32 (fun i => lane 32 a (Z.land (Z.shiftr imm (2 * i)) 3)).
Definition _mm_shufflehi_epi16 (a imm : Z) : Z :=
  pack 16 (fun i => if i <? 4 then lane 16 a i else lane 16 a (4 + Z.land (Z.shiftr imm (2 * (i - 4))) 3)).
Definition _mm_shufflelo_epi16 (a imm : Z) : Z :=
  pack 16 (fun i => if i <? 4 then lane 16 a (Z.land (Z.shiftr imm (2 * i)) 3) else lane 16 a i).
(** Interleaved high or low halves. *)
Definition mm_unpackhi (w a b : Z) : Z :=
  pack w (fun i => lane w (if Z.even i then a else b) (i / 2 + 128 / w / 2)).
Definition mm_unpacklo (w a b : Z) : Z := pack w (fun i => lane w (if Z.even i then a else b) (i / 2)).

(** Signed 16-bit lanes saturated to bytes. *)
Definition _mm_packs_epi16 (a b : Z) : Z :=
  pack 8 (fun i => let x := s16 (if i <? 8 then lane 16 a i else lane 16 b (i - 8)) in Z.max (-128) (Z.min 127 x)).

(** The sign bits of the lanes. *)
Definition mm_movemask (w a : Z) : Z :=
  fold_left (fun acc k => Z.lor acc (Z.shiftl (Z.b2z (Z.testbit (lane w a (Z.of_nat k)) (w - 1))) (Z.of_nat k)))
    (seq 0 (lanes w)) 0.
Definition _mm_movemask_epi8 (a : Z) : Z := mm_movemask 8 a.
Definition _mm_movemask_ps (a : Z) : Z := mm_movemask 32 a.

(** Lanes listed from the highest to the lowest. *)
Definition mm_set (w : Z) (l : list Z) : Z := pack w (fun i => nth (Z.to_nat i) (rev l) 0).

(** ** [simd.hpp] *)

Definition gv_add16 (a b : Z) : Z := mm_add 16 a b.
Definition gv_add32 (a b : Z) : Z := mm_add 32 a b.
Definition gv_sub8 (a b : Z) : Z := mm_sub 8 a b.
Definition gv_sub16 (a b : Z) : Z := mm_sub 16 a b.
Definition gv_sub32 (a b : Z) : Z := mm_sub 32 a b.
Definition gv_maxu8 (a b : Z) : Z := mm_max_epu 8 a b.
Definition gv_minu8 (a b : Z) : Z := mm_min_epu 8 a b.
Definition gv_andn (a b : Z) : Z := _mm_andnot_si128 a b.
Definition gv_gtu8 (a b : Z) : Z := mm_cmpeq 8 (mm_cmpeq 8 a (mm_min_epu 8 a b)) _mm_setzero_si128.
Definition gv_gtu16 (a b : Z) : Z :=
  mm_cmpeq 16 (mm_cmpeq 16 (mm_subs_epu 16 a b) _mm_setzero_si128) _mm_setzero_si128.
Definition gv_gtu32 (a b : Z) : Z :=
  let sign := mm_set1 32 (2 ^ 31) in mm_cmpgt 32 (_mm_xor_si128 a sign) (_mm_xor_si128 b sign).

Definition v128_or (a b : Z) : Z := _mm_or_si128 a b.
Definition v128_and (a b : Z) : Z := _mm_and_si128 a b.
Definition v128_xor (a b : Z) : Z := _mm_xor_si128 a b.
Definition v128_not (a : Z) : Z := bnot 128 a.

(** ** Lane algebra *)

Lemma testbit_pack_upto w n f i : 0 < w -> 0 <= i ->
  Z.testbit (pack_upto w n f) i = (i <? w * Z.of_nat n) && Z.testbit (f (i / w)) (i mod w).
Proof.
  intros Hw Hi. induction n as [|n IH]; cbn [pack_upto].
  - rewrite Z.bits_0. destruct (Z.ltb_spec i (w * Z.of_nat 0)); [lia|done].
  - rewrite Z.lor_spec, IH, testbit_shiftl, testbit_wrap by lia. pose proof (Z.div_mod i w ltac:(lia)) as Hd.
    pose proof (Z.mod_pos_bound i w Hw) as Hm. destruct (Z.ltb_spec i (w * Z.of_nat n)) as [Hlt|Hge].
    + rewrite (proj2 (Z.leb_gt (w * Z.of_nat n) i)), (proj2 (Z.ltb_lt i (w * Z.of_nat (S n)))) by lia. apply orb_false_r.
    + rewrite (proj2 (Z.leb_le (w * Z.of_nat n) i)) by lia. cbn [andb orb].
      destruct (Z.ltb_spec i (w * Z.of_nat (S n))) as [Hlt|Hge'].
      * assert (i / w = Z.of_nat n) as -> by (symmetry; apply Z.div_unique with (r := i - w * Z.of_nat n); lia).
        assert (i mod w = i - w * Z.of_nat n) as -> by (symmetry; apply Z.mod_unique with (q := Z.of_nat n); lia).
        by rewrite (proj2 (Z.ltb_lt (i - w * Z.of_nat n) w)) by lia.
      * by rewrite (proj2 (Z.ltb_ge (i - w * Z.of_nat n) w)) by lia.
Qed.

(** The widths of the elements. *)
Definition lane_width (w : Z) : Prop := w = 8 \/ w = 16 \/ w = 32 \/ w = 64.

Lemma testbit_pack w f i : lane_width w -> 0 <= i ->
  Z.testbit (pack w f) i = (i <? 128) && Z.testbit (f (i / w)) (i mod w).
Proof.
  intros Hw Hi. unfold pack, lanes. rewrite testbit_pack_upto by (destruct Hw as [->|[->|[->| ->]]]; lia).
  by destruct Hw as [->|[->|[->| ->]]].
Qed.

Lemma testbit_lane w v i j : lane_width w -> 0 <= i -> 0 <= j ->
  Z.testbit (lane w v i) j = (j <? w) && Z.testbit v (w * i + j).
Proof.
  intros Hw Hi Hj. unfold lane. rewrite testbit_wrap by (destruct Hw as [->|[->|[->| ->]]]; lia).
  rewrite Z.shiftr_spec by lia. by rewrite Z.add_comm.
Qed.

Lemma lane_range w v i : lane_width w -> is_word w (lane w v i).
Proof. intros Hw. apply wrap_range. destruct Hw as [->|[->|[->| ->]]]; lia. Qed.

Lemma pack_word w f : lane_width w -> is_word 128 (pack w f).
Proof.
  intros Hw. apply is_word_testbit; [lia| |].
  - unfold pack. generalize (lanes w). intros n. induction n as [|n IH]; cbn; [done|].
    apply Z.lor_nonneg. split; [done|]. apply Z.shiftl_nonneg. unfold wrap. apply Z.mod_pos_bound.
    apply Z.pow_pos_nonneg; destruct Hw as [->|[->|[->| ->]]]; lia.
  - intros i Hi. rewrite testbit_pack by (done || lia). by rewrite (proj2 (Z.ltb_ge i 128)).
Qed.

Lemma lane_fits w i : lane_width w -> 0 <= i < 128 / w -> w * i + w <= 128.
Proof.
  intros Hw [Hi H]. destruct Hw as [->|[->|[->| ->]]];
    [change (128 / 8) with 16 in H|change (128 / 16) with 8 in H|change (128 / 32) with 4 in H|change (128 / 64) with 2 in H]; lia.
Qed.

Lemma lane_pack w f i : lane_width w -> 0 <= i < 128 / w -> lane w (pack w f) i = wrap w (f i).
Proof.
  intros Hw Hi. assert (0 < w) by (destruct Hw as [->|[->|[->| ->]]]; lia).
  assert (w * i + w <= 128) by (by apply lane_fits).
  apply (word_bits_eq w); [by apply lane_range|apply wrap_range; lia|]. intros j Hj.
  rewrite testbit_lane, testbit_pack, testbit_wrap by (done || lia).
  rewrite (proj2 (Z.ltb_lt j w)), (proj2 (Z.ltb_lt (w * i + j) 128)) by lia. cbn [andb].
  rewrite (Z.add_comm (w * i)), (Z.mul_comm w), Z.div_add, Z.mod_add, Z.div_small, Z.mod_small by lia. done.
Qed.

(** Vectors are equal when their lanes are. *)
Lemma lanes_eq w a b : lane_width w -> is_word 128 a -> is_word 128 b ->
  (forall i, 0 <= i < 128 / w -> lane w a i = lane w b i) -> a = b.
Proof.
  intros Hw Ha Hb H. assert (0 < w) by (destruct Hw as [->|[->|[->| ->]]]; lia).
  apply (word_bits_eq 128); [done..|]. intros j Hj. pose proof (Z.div_mod j w ltac:(lia)) as Hd.
  pose proof (Z.mod_pos_bound j w ltac:(lia)) as Hm.
  assert (0 <= j / w < 128 / w) as Hi.
  { split; [apply Z.div_pos; lia|]. apply Z.div_lt_upper_bound; [lia|].
    assert (w * (128 / w) = 128) as -> by (by destruct Hw as [->|[->|[->| ->]]]). lia. }
  pose proof (H _ Hi) as E. apply (f_equal (fun x => Z.testbit x (j mod w))) in E.
  rewrite !testbit_lane in E by (done || lia). rewrite (proj2 (Z.ltb_lt (j mod w) w)) in E by lia.
  by rewrite <- Hd in E.
Qed.

(** A narrow lane of a wide lane. *)
Lemma lane_lane w v k i j : lane_width w -> lane_width (k * w) -> 0 <= i -> 0 <= j < k ->
  lane w (lane (k * w) v i) j = lane w v (k * i + j).
Proof.
  intros Hw Hkw Hi Hj. assert (0 < w) by (destruct Hw as [->|[->|[->| ->]]]; lia).
  apply (word_bits_eq w); [by apply lane_range..|]. intros b Hb.
  rewrite !testbit_lane by (done || nia). rewrite (proj2 (Z.ltb_lt b w)), (proj2 (Z.ltb_lt (w * j + b) (k * w))) by nia.
  cbn [andb]. f_equal. lia.
Qed.

Lemma lane_lo w v i : lane_width w -> lane_width (2 * w) -> 0 <= i -> lane w v (2 * i) = lane (2 * w) v i mod 2 ^ w.
Proof.
  intros Hw H2 Hi. rewrite <- (Z.add_0_r (2 * i)), <- lane_lane by (done || lia). unfold lane at 1.
  by rewrite Z.mul_0_r, Z.shiftr_0_r.
Qed.

Lemma lane_hi w v i : lane_width w -> lane_width (2 * w) -> 0 <= i -> lane w v (2 * i + 1) = lane (2 * w) v i / 2 ^ w.
Proof.
  intros Hw H2 Hi. rewrite <- lane_lane by (done || lia). unfold lane at 1. rewrite Z.mul_1_r.
  assert (0 < w) by (destruct Hw as [->|[->|[->| ->]]]; lia).
  rewrite Z.shiftr_div_pow2 by lia. apply wrap_small. destruct (lane_range (2 * w) v i H2) as [H0 H1]. split.
  - apply Z.div_pos; [done|]. apply Z.pow_pos_nonneg; lia.
  - apply Z.div_lt_upper_bound; [apply Z.pow_pos_nonneg; lia|]. rewrite <- Z.pow_add_r by lia. by replace (w + w) with (2 * w) by lia.
Qed.

(** Bitwise operations act on lanes. *)
Lemma lane_land w a b i : lane_width w -> 0 <= i -> lane w (Z.land a b) i = Z.land (lane w a i) (lane w b i).
Proof.
  intros Hw Hi. unfold lane. rewrite Z.shiftr_land. apply Z.bits_inj'. intros j Hj.
  rewrite Z.land_spec, !testbit_wrap, Z.land_spec by (destruct Hw as [->|[->|[->| ->]]]; lia). by destruct (j <? w).
Qed.

Lemma lane_lor w a b i : lane_width w -> 0 <= i -> lane w (Z.lor a b) i = Z.lor (lane w a i) (lane w b i).
Proof.
  intros Hw Hi. unfold lane. rewrite Z.shiftr_lor. apply Z.bits_inj'. intros j Hj.
  rewrite Z.lor_spec, !testbit_wrap, Z.lor_spec by (destruct Hw as [->|[->|[->| ->]]]; lia). by destruct (j <? w).
Qed.

Lemma lane_lxor w a b i : lane_width w -> 0 <= i -> lane w (Z.lxor a b) i = Z.lxor (lane w a i) (lane w b i).
Proof.
  intros Hw Hi. unfold lane. rewrite Z.shiftr_lxor. apply Z.bits_inj'. intros j Hj.
  rewrite Z.lxor_spec, !testbit_wrap, Z.lxor_spec by (destruct Hw as [->|[->|[->| ->]]]; lia). by destruct (j <? w).
Qed.

Lemma lane_bnot w a i : lane_width w -> 0 <= i < 128 / w -> lane w (bnot 128 a) i = bnot w (lane w a i).
Proof.
  intros Hw Hi. assert (0 < w) by (destruct Hw as [->|[->|[->| ->]]]; lia).
  assert (w * i + w <= 128) by (by apply lane_fits).
  apply (word_bits_eq w); [by apply lane_range|apply wrap_range; lia|]. intros j Hj.
  rewrite testbit_lane, !testbit_bnot, testbit_lane by (done || lia).
  rewrite (proj2 (Z.ltb_lt j w)), (proj2 (Z.ltb_lt (w * i + j) 128)) by lia. done.
Qed.

Lemma lane_0 w i : lane_width w -> lane w 0 i = 0.
Proof. intros Hw. unfold lane. by rewrite Z.shiftr_0_l. Qed.

Lemma width8 : lane_width 8. Proof. by left. Qed.
Lemma width16 : lane_width 16. Proof. right; by left. Qed.
Lemma width32 : lane_width 32. Proof. right; right; by left. Qed.
Lemma width64 : lane_width 64. Proof. by do 3 right. Qed.
#[export] Hint Resolve width8 width16 width32 width64 lane_range pack_word : word.

(** ** Lanes of the operations *)

Lemma lane_bound w i : lane_width w -> 0 <= i -> w * i + w <= 128 -> 0 <= i < 128 / w.
Proof.
  intros Hw Hi H. split; [done|]. destruct Hw as [->|[->|[->| ->]]];
    [change (128 / 8) with 16|change (128 / 16) with 8|change (128 / 32) with 4|change (128 / 64) with 2]; lia.
Qed.

Section LaneOps.
Context (w : Z) (Hw : lane_width w) (a b i : Z) (Hi : 0 <= i) (Hwi : w * i + w <= 128).

Lemma lane_pack' f : lane w (pack w f) i = wrap w (f i).
Proof. apply lane_pack; [done|by apply lane_bound]. Qed.

Lemma lane_map1 f : lane w (map1 w f a) i = wrap w (f (lane w a i)).
Proof. apply lane_pack'. Qed.

Lemma lane_map2 f : lane w (map2 w f a b) i = wrap w (f (lane w a i) (lane w b i)).
Proof. apply lane_pack'. Qed.

Lemma lane_set1 x : lane w (mm_set1 w x) i = wrap w x.
Proof. apply lane_pack'. Qed.

Lemma lane_add : lane w (mm_add w a b) i = wrap w (lane w a i + lane w b i).
Proof. apply lane_map2. Qed.

Lemma lane_sub : lane w (mm_sub w a b) i = wrap w (lane w a i - lane w b i).
Proof. apply lane_map2. Qed.

Lemma mask_of_word c : is_word w (mask_of w c).
Proof.
  assert (0 < 2 ^ w) by (destruct Hw as [->|[->|[->| ->]]]; done). unfold mask_of, is_word. destruct c; lia.
Qed.

Lemma lane_cmpeq : lane w (mm_cmpeq w a b) i = mask_of w (lane w a i =? lane w b i).
Proof. unfold mm_cmpeq. rewrite lane_map2. apply wrap_small, mask_of_word. Qed.

Lemma lane_cmpgt : lane w (mm_cmpgt w a b) i = mask_of w (sext w (lane w b i) <? sext w (lane w a i)).
Proof. unfold mm_cmpgt. rewrite lane_map2. apply wrap_small, mask_of_word. Qed.

Lemma lane_bnot' : lane w (bnot 128 a) i = bnot w (lane w a i).
Proof. apply lane_bnot; [done|by apply lane_bound]. Qed.

Lemma lane_srli n : 0 <= n -> lane w (mm_srli w a n) i = Z.shiftr (lane w a i) n.
Proof.
  intros Hn. unfold mm_srli. rewrite lane_map1. pose proof (lane_range w a i Hw) as Hr.
  destruct (Z.leb_spec w n).
  - symmetry. unfold wrap. rewrite Z.mod_0_l by (destruct Hw as [->|[->|[->| ->]]]; done).
    rewrite Z.shiftr_div_pow2 by done. apply Z.div_small. destruct Hr as [H0 H1]. split; [done|].
    eapply Z.lt_le_trans; [done|]. apply Z.pow_le_mono_r; lia.
  - apply wrap_small, shiftr_word; [destruct Hw as [->|[->|[->| ->]]]; lia|done|done].
Qed.

Lemma lane_slli n : 0 <= n -> lane w (mm_slli w a n) i = wrap w (Z.shiftl (lane w a i) n).
Proof.
  intros Hn. unfold mm_slli. rewrite lane_map1. destruct (Z.leb_spec w n); [|done].
  unfold wrap. rewrite Z.mod_0_l by (destruct Hw as [->|[->|[->| ->]]]; done). symmetry.
  rewrite Z.shiftl_mul_pow2 by done. replace n with (n - w + w) by lia.
  rewrite Z.pow_add_r, Z.mul_assoc by (destruct Hw as [->|[->|[->| ->]]]; lia).
  apply Z.mod_mul. destruct Hw as [->|[->|[->| ->]]]; done.
Qed.

Lemma lane_srai n : 0 <= n -> lane w (mm_srai w a n) i = wrap w (Z.shiftr (sext w (lane w a i)) n).
Proof.
  intros Hn. unfold mm_srai. rewrite lane_map1. destruct (Z.le_gt_cases n (w - 1)); [by rewrite Z.min_l|].
  rewrite Z.min_r by lia. assert (0 < w) as Hw0 by (destruct Hw as [->|[->|[->| ->]]]; lia).
  pose proof (sext_range w (lane w a i) Hw0) as Hs. f_equal.
  assert (2 ^ (w - 1) <= 2 ^ n) by (apply Z.pow_le_mono_r; lia). assert (0 < 2 ^ (w - 1)) by (apply Z.pow_pos_nonneg; lia).
  rewrite !Z.shiftr_div_pow2 by lia. destruct (Z.lt_ge_cases (sext w (lane w a i)) 0).
  - transitivity (-1); [|symmetry]; symmetry.
    + apply Z.div_unique with (r := sext w (lane w a i) + 2 ^ (w - 1)); lia.
    + apply Z.div_unique with (r := sext w (lane w a i) + 2 ^ n); lia.
  - by rewrite !Z.div_small by lia.
Qed.

End LaneOps.

Create Rewrite HintDb lanes.
#[export] Hint Rewrite lane_pack' lane_map1 lane_map2 lane_set1 lane_add lane_sub lane_cmpeq lane_cmpgt lane_bnot'
  lane_srli lane_slli lane_srai lane_land lane_lor lane_lxor lane_0 using (auto with word; lia) : lanes.
