(* ===== verification/SpuState.v ===== *)
(** * SPU interpreter: thread state, opcode fields, outcome of a handler

    The parts of [spu_thread] ([rpcs3/Emu/Cell/SPUThread.h]) that the handlers
    of [rpcs3/Emu/Cell/SPUInterpreter.cpp] read and write, the bit fields of
    [spu_opcode_t] and the address helpers of [rpcs3/Emu/Cell/SPUOpcodes.h]. *)
From S2P Require Import Prelude V128.

(** ** Thread state *)

Record spu_thread := MkSpu {
  gpr : Z -> Z; (* v128 gpr[128] *)
  pc : Z;
  ls : Z -> Z; (* local storage, one byte per address *)
  srr0 : Z;
  ch_count : bool; (* ch_events.count: an enabled event is present *)
  ch_mask : Z; (* ch_events.mask *)
  interrupts_enabled : bool;
  allow_interrupts_in_cpu_work : bool;
  state : Z (* cpu_thread::state, a set of cpu_flag *)
}.

Definition SPU_LS_SIZE : Z := 0x40000.

Definition set_gpr (v : Z -> Z) (s : spu_thread) : spu_thread :=
  MkSpu v (pc s) (ls s) (srr0 s) (ch_count s) (ch_mask s) (interrupts_enabled s) (allow_interrupts_in_cpu_work s) (state s).
Definition set_pc (v : Z) (s : spu_thread) : spu_thread :=
  MkSpu (gpr s) v (ls s) (srr0 s) (ch_count s) (ch_mask s) (interrupts_enabled s) (allow_interrupts_in_cpu_work s) (state s).
Definition set_ls (v : Z -> Z) (s : spu_thread) : spu_thread :=
  MkSpu (gpr s) (pc s) v (srr0 s) (ch_count s) (ch_mask s) (interrupts_enabled s) (allow_interrupts_in_cpu_work s) (state s).
Definition set_srr0 (v : Z) (s : spu_thread) : spu_thread :=
  MkSpu (gpr s) (pc s) (ls s) v (ch_count s) (ch_mask s) (interrupts_enabled s) (allow_interrupts_in_cpu_work s) (state s).
Definition set_interrupts_enabled (v : bool) (s : spu_thread) : spu_thread :=
  MkSpu (gpr s) (pc s) (ls s) (srr0 s) (ch_count s) (ch_mask s) v (allow_interrupts_in_cpu_work s) (state s).
Definition set_allow_interrupts (v : bool) (s : spu_thread) : spu_thread :=
  MkSpu (gpr s) (pc s) (ls s) (srr0 s) (ch_count s) (ch_mask s) (interrupts_enabled s) v (state s).
Definition set_state (v : Z) (s : spu_thread) : spu_thread :=
  MkSpu (gpr s) (pc s) (ls s) (srr0 s) (ch_count s) (ch_mask s) (interrupts_enabled s) (allow_interrupts_in_cpu_work s) v.

Definition set_gpr_at (i v : Z) (s : spu_thread) : spu_thread := set_gpr (upd (gpr s) i v) s.

(** ** What a handler does

    It returns whether the program counter is to be advanced, throws, halts
    the thread, or calls into another part of the SPU thread (channels, the
    memory flow controller) and goes on with the answer and the thread that
    part leaves behind. *)
Inductive spu_error := UndefinedInterruptBits | UnexpectedSP (sp : Z).

Inductive spu_call :=
| StopAndSignal (code : Z)
| GetChValue (ch : Z)
| GetChCount (ch : Z)
| SetChValue (ch value : Z)
| GetEvents
| DoMfc.

Inductive outcome :=
| Ret (advance : bool) (s : spu_thread)
| Throw (e : spu_error) (s : spu_thread)
| Halt (s : spu_thread)
| Call (c : spu_call) (s : spu_thread) (k : Z -> spu_thread -> outcome).

(** ** Opcode fields ([spu_opcode_t]); bit 0 is the least significant *)

Definition spu_bf (op i n : Z) : Z := Z.land (Z.shiftr op i) (2 ^ n - 1).
Definition spu_bf_s (op i n : Z) : Z := sext n (spu_bf op i n).

Definition op_rt (op : Z) : Z := spu_bf op 0 7.
Definition op_rc (op : Z) : Z := spu_bf op 0 7.
Definition op_ra (op : Z) : Z := spu_bf op 7 7.
Definition op_rb (op : Z) : Z := spu_bf op 14 7.
Definition op_rt4 (op : Z) : Z := spu_bf op 21 7.
Definition op_e (op : Z) : bool := negb (spu_bf op 18 1 =? 0).
Definition op_d (op : Z) : bool := negb (spu_bf op 19 1 =? 0).
Definition op_i7 (op : Z) : Z := spu_bf op 14 7.
Definition op_i8 (op : Z) : Z := spu_bf op 14 8.
Definition op_si10 (op : Z) : Z := spu_bf_s op 14 10.
Definition op_i16 (op : Z) : Z := spu_bf op 7 16.
Definition op_si16 (op : Z) : Z := spu_bf_s op 7 16.
Definition op_i18 (op : Z) : Z := spu_bf op 7 18.

(** The registers an instruction names. *)
Definition va (op : Z) (s : spu_thread) : Z := gpr s (op_ra op).
Definition vb (op : Z) (s : spu_thread) : Z := gpr s (op_rb op).
Definition vc (op : Z) (s : spu_thread) : Z := gpr s (op_rc op).
Definition vt (op : Z) (s : spu_thread) : Z := gpr s (op_rt op).

(** [_u32[3]], the preferred slot. *)
Definition slot (v : Z) : Z := lane 32 v 3.

(** [spu.gpr[op.rt] = v; return true;] *)
Definition to_rt (op v : Z) (s : spu_thread) : outcome := Ret true (set_gpr_at (op_rt op) v s).
Definition to_rt4 (op v : Z) (s : spu_thread) : outcome := Ret true (set_gpr_at (op_rt4 op) v s).

(** A [for] loop over the elements of a register, from 0 up to [n]. *)
Fixpoint for_lanes (n : nat) (body : Z -> spu_thread -> spu_thread) (s : spu_thread) : spu_thread :=
  match n with
  | O => s
  | S k => body (Z.of_nat k) (for_lanes k body s)
  end.

(** [spu.gpr[op.rt]._uW[i] = x] *)
Definition put_lane (w op i x : Z) (s : spu_thread) : spu_thread :=
  set_gpr_at (op_rt op) (set_lane w (vt op s) i x) s.

(** ** Addresses *)

Definition spu_branch_target (pc imm : Z) : Z := Z.land (u32 (pc + Z.shiftl imm 2)) 0x3fffc.
Definition spu_ls_target (pc imm : Z) : Z := Z.land (u32 (pc + Z.shiftl imm 2)) 0x3fff0.

(** [_ref<v128>]: sixteen big-endian bytes, the address taken modulo the size
    of the local storage. *)
Definition ls_read128 (m : Z -> Z) (addr : Z) : Z := pack 8 (fun i => m (addr mod SPU_LS_SIZE + (15 - i))).
Definition ls_write128 (m : Z -> Z) (addr v : Z) : Z -> Z :=
  fun a => if (addr mod SPU_LS_SIZE <=? a) && (a <? addr mod SPU_LS_SIZE + 16)
           then lane 8 v (15 - (a - addr mod SPU_LS_SIZE)) else m a.

(** [_ref<u32>]: a big-endian word. *)
Definition ls_read32 (m : Z -> Z) (addr : Z) : Z :=
  let a := addr mod SPU_LS_SIZE in
  Z.shiftl (m a) 24 + Z.shiftl (m (a + 1)) 16 + Z.shiftl (m (a + 2)) 8 + m (a + 3).
