(* ===== verification/SpuInt.v ===== *)
(** * SPU interpreter: constants, integer, logical and compare instructions

    The handlers of [rpcs3/Emu/Cell/SPUInterpreter.cpp] of these groups, in
    the order of the decoder's table. *)
From S2P Require Import Prelude V128 SpuState.

Section Int.
Implicit Types (op : Z) (s : spu_thread).

(** ** Register operands *)

Definition SF op s := to_rt op (gv_sub32 (vb op s) (va op s)) s.
Definition OR op s := to_rt op (v128_or (va op s) (vb op s)) s.
Definition BG op s := to_rt op (mm_add 32 (gv_gtu32 (va op s) (vb op s)) (mm_set1 32 1)) s.
Definition SFH op s := to_rt op (gv_sub16 (vb op s) (va op s)) s.
Definition NOR op s := to_rt op (v128_not (v128_or (va op s) (vb op s))) s.
Definition ABSDB op s :=
  let a := va op s in let b := vb op s in to_rt op (gv_sub8 (gv_maxu8 a b) (gv_minu8 a b)) s.
Definition A op s := to_rt op (gv_add32 (va op s) (vb op s)) s.
Definition AND op s := to_rt op (v128_and (va op s) (vb op s)) s.
Definition CG op s :=
  let a := _mm_xor_si128 (va op s) (mm_set1 32 0x7fffffff) in
  let b := _mm_xor_si128 (vb op s) (mm_set1 32 0x80000000) in
  to_rt op (mm_srli 32 (mm_cmpgt 32 b a) 31) s.
Definition AH op s := to_rt op (gv_add16 (va op s) (vb op s)) s.
Definition NAND op s := to_rt op (v128_not (v128_and (va op s) (vb op s))) s.
Definition AVGB op s := to_rt op (mm_avg_epu 8 (va op s) (vb op s)) s.

(** Gather and form masks. *)
Definition GB op s := to_rt op (from32r (_mm_movemask_ps (mm_slli 32 (va op s) 31))) s.
Definition GBH op s :=
  to_rt op (from32r (_mm_movemask_epi8 (_mm_packs_epi16 (mm_slli 16 (va op s) 15) _mm_setzero_si128))) s.
Definition GBB op s := to_rt op (from32r (_mm_movemask_epi8 (mm_slli 64 (va op s) 7))) s.
Definition FSM op s :=
  let bits := _mm_shuffle_epi32 (va op s) 0xff in
  let mask := mm_set 32 [8; 4; 2; 1] in
  to_rt op (mm_cmpeq 32 (_mm_and_si128 bits mask) mask) s.
Definition FSMH op s :=
  let vsrc := va op s in
  let bits := _mm_shuffle_epi32 (mm_unpackhi 16 vsrc vsrc) 0xaa in
  let mask := mm_set 16 [128; 64; 32; 16; 8; 4; 2; 1] in
  to_rt op (mm_cmpeq 16 (_mm_and_si128 bits mask) mask) s.
Definition fsm_bytes : Z := mm_set 8 [-128; 64; 32; 16; 8; 4; 2; 1; -128; 64; 32; 16; 8; 4; 2; 1].
Definition FSMB op s :=
  let vsrc := va op s in
  let bits := _mm_shuffle_epi32 (_mm_shufflehi_epi16 (mm_unpackhi 8 vsrc vsrc) 0x50) 0xfa in
  to_rt op (mm_cmpeq 8 (_mm_and_si128 bits fsm_bytes) fsm_bytes) s.

Definition ORX op s :=
  to_rt op (from32r (Z.lor (Z.lor (Z.lor (lane 32 (va op s) 0) (lane 32 (va op s) 1)) (lane 32 (va op s) 2)) (lane 32 (va op s) 3))) s.
Definition CGT op s := to_rt op (mm_cmpgt 32 (va op s) (vb op s)) s.
Definition XOR op s := to_rt op (v128_xor (va op s) (vb op s)) s.
Definition CGTH op s := to_rt op (mm_cmpgt 16 (va op s) (vb op s)) s.
Definition EQV op s := to_rt op (v128_not (v128_xor (va op s) (vb op s))) s.
Definition CGTB op s := to_rt op (mm_cmpgt 8 (va op s) (vb op s)) s.
Definition SUMB op s :=
  let m1 := mm_set1 16 0xff in
  let m2 := mm_set1 32 0xffff in
  let a := va op s in
  let b := vb op s in
  let a1 := mm_srli 16 a 8 in
  let a2 := _mm_and_si128 a m1 in
  let b1 := mm_srli 16 b 8 in
  let b2 := _mm_and_si128 b m1 in
  let sa := mm_add 16 a1 a2 in
  let sb := mm_add 16 b1 b2 in
  let s2 := _mm_and_si128 sa m2 in
  let s1 := mm_srli 32 sa 16 in
  let s4 := _mm_andnot_si128 m2 sb in
  let s3 := mm_slli 32 sb 16 in
  to_rt op (_mm_or_si128 (mm_add 16 s1 s2) (mm_add 16 s3 s4)) s.
Definition CLZ op s :=
  Ret true (for_lanes 4 (fun i s => put_lane 32 op i (countl_zero 32 (lane 32 (va op s) i)) s) s).
Definition XSWD op s :=
  let s := put_lane 64 op 0 (s32 (lane 32 (va op s) 0)) s in
  let s := put_lane 64 op 1 (s32 (lane 32 (va op s) 2)) s in
  Ret true s.
Definition XSHW op s := to_rt op (mm_srai 32 (mm_slli 32 (va op s) 16) 16) s.
Definition CNTB op s :=
  let a := va op s in
  let mask1 := mm_set1 8 0x55 in
  let sum1 := mm_add 8 (_mm_and_si128 (mm_srli 64 a 1) mask1) (_mm_and_si128 a mask1) in
  let mask2 := mm_set1 8 0x33 in
  let sum2 := mm_add 8 (_mm_and_si128 (mm_srli 64 sum1 2) mask2) (_mm_and_si128 sum1 mask2) in
  let mask3 := mm_set1 8 0x0f in
  let sum3 := mm_add 8 (_mm_and_si128 (mm_srli 64 sum2 4) mask3) (_mm_and_si128 sum2 mask3) in
  to_rt op sum3 s.
Definition XSBH op s := to_rt op (mm_srai 16 (mm_slli 16 (va op s) 8) 8) s.
Definition CLGT op s := to_rt op (gv_gtu32 (va op s) (vb op s)) s.
Definition ANDC op s := to_rt op (gv_andn (vb op s) (va op s)) s.
Definition CLGTH op s := to_rt op (gv_gtu16 (va op s) (vb op s)) s.
Definition ORC op s := to_rt op (v128_or (va op s) (v128_not (vb op s))) s.
Definition CLGTB op s := to_rt op (gv_gtu8 (va op s) (vb op s)) s.
Definition CEQ op s := to_rt op (mm_cmpeq 32 (va op s) (vb op s)) s.
Definition CEQH op s := to_rt op (mm_cmpeq 16 (va op s) (vb op s)) s.
Definition CEQB op s := to_rt op (mm_cmpeq 8 (va op s) (vb op s)) s.

(** Carry and borrow chains. *)
Definition ADDX op s :=
  to_rt op (gv_add32 (gv_add32 (va op s) (vb op s)) (v128_and (vt op s) (from32p 1))) s.
Definition SFX op s :=
  to_rt op (gv_sub32 (gv_sub32 (vb op s) (va op s)) (gv_andn (vt op s) (from32p 1))) s.
Definition CGX op s :=
  Ret true (for_lanes 4 (fun i s =>
    let carry := Z.land (lane 32 (vt op s) i) 1 in
    put_lane 32 op i (Z.shiftr (u64 (carry + lane 32 (va op s) i + lane 32 (vb op s) i)) 32) s) s).
Definition BGX op s :=
  Ret true (for_lanes 4 (fun i s =>
    let result := s64 (lane 32 (vb op s) i - lane 32 (va op s) i - (1 - Z.land (lane 32 (vt op s) i) 1)) in
    put_lane 32 op i (Z.b2z (0 <=? result)) s) s).

(** Multiplications of halfwords. *)
Definition MPYHHU op s :=
  let a := va op s in
  let b := vb op s in
  to_rt op (_mm_or_si128 (mm_srli 32 (_mm_mullo_epi16 a b) 16) (_mm_and_si128 (_mm_mulhi_epu16 a b) (mm_set1 32 0xffff0000))) s.
Definition MPYHHA op s :=
  to_rt op (mm_add 32 (vt op s) (_mm_madd_epi16 (mm_srli 32 (va op s) 16) (mm_srli 32 (vb op s) 16))) s.
Definition MPYHHAU op s :=
  let a := va op s in
  let b := vb op s in
  to_rt op (mm_add 32 (vt op s)
    (_mm_or_si128 (mm_srli 32 (_mm_mullo_epi16 a b) 16) (_mm_and_si128 (_mm_mulhi_epu16 a b) (mm_set1 32 0xffff0000)))) s.
Definition MPY op s :=
  let mask := mm_set1 32 0xffff in
  to_rt op (_mm_madd_epi16 (_mm_and_si128 (va op s) mask) (_mm_and_si128 (vb op s) mask)) s.
Definition MPYH op s := to_rt op (mm_slli 32 (_mm_mullo_epi16 (mm_srli 32 (va op s) 16) (vb op s)) 16) s.
Definition MPYHH op s := to_rt op (_mm_madd_epi16 (mm_srli 32 (va op s) 16) (mm_srli 32 (vb op s) 16)) s.
Definition MPYS op s := to_rt op (mm_srai 32 (mm_slli 32 (_mm_mulhi_epi16 (va op s) (vb op s)) 16) 16) s.
Definition MPYU op s :=
  let a := va op s in
  let b := vb op s in
  to_rt op (_mm_or_si128 (mm_slli 32 (_mm_mulhi_epu16 a b) 16) (_mm_and_si128 (_mm_mullo_epi16 a b) (mm_set1 32 0xffff))) s.

(** ** Immediate operands *)

Definition FSMBI op s :=
  let vsrc := mm_set 32 [0; 0; 0; op_i16 op] in
  let bits := _mm_shuffle_epi32 (_mm_shufflelo_epi16 (mm_unpacklo 8 vsrc vsrc) 0x50) 0x50 in
  to_rt op (mm_cmpeq 8 (_mm_and_si128 bits fsm_bytes) fsm_bytes) s.
Definition IL op s := to_rt op (mm_set1 32 (op_si16 op)) s.
Definition ILHU op s := to_rt op (mm_set1 32 (Z.shiftl (op_i16 op) 16)) s.
Definition ILH op s := to_rt op (mm_set1 16 (op_i16 op)) s.
Definition IOHL op s := to_rt op (_mm_or_si128 (vt op s) (mm_set1 32 (op_i16 op))) s.
Definition ORI op s := to_rt op (_mm_or_si128 (va op s) (mm_set1 32 (op_si10 op))) s.
Definition ORHI op s := to_rt op (_mm_or_si128 (va op s) (mm_set1 16 (op_si10 op))) s.
Definition ORBI op s := to_rt op (_mm_or_si128 (va op s) (mm_set1 8 (op_i8 op))) s.
Definition SFI op s := to_rt op (mm_sub 32 (mm_set1 32 (op_si10 op)) (va op s)) s.
Definition SFHI op s := to_rt op (mm_sub 16 (mm_set1 16 (op_si10 op)) (va op s)) s.
Definition ANDI op s := to_rt op (_mm_and_si128 (va op s) (mm_set1 32 (op_si10 op))) s.
Definition ANDHI op s := to_rt op (_mm_and_si128 (va op s) (mm_set1 16 (op_si10 op))) s.
Definition ANDBI op s := to_rt op (_mm_and_si128 (va op s) (mm_set1 8 (op_i8 op))) s.
Definition AI op s := to_rt op (mm_add 32 (mm_set1 32 (op_si10 op)) (va op s)) s.
Definition AHI op s := to_rt op (mm_add 16 (mm_set1 16 (op_si10 op)) (va op s)) s.
Definition XORI op s := to_rt op (_mm_xor_si128 (va op s) (mm_set1 32 (op_si10 op))) s.
Definition XORHI op s := to_rt op (_mm_xor_si128 (va op s) (mm_set1 16 (op_si10 op))) s.
Definition XORBI op s := to_rt op (_mm_xor_si128 (va op s) (mm_set1 8 (op_i8 op))) s.
Definition CGTI op s := to_rt op (mm_cmpgt 32 (va op s) (mm_set1 32 (op_si10 op))) s.
Definition CGTHI op s := to_rt op (mm_cmpgt 16 (va op s) (mm_set1 16 (op_si10 op))) s.
Definition CGTBI op s := to_rt op (mm_cmpgt 8 (va op s) (mm_set1 8 (op_i8 op))) s.
Definition CLGTI op s :=
  to_rt op (mm_cmpgt 32 (_mm_xor_si128 (va op s) (mm_set1 32 0x80000000)) (mm_set1 32 (Z.lxor (op_si10 op) 0x80000000))) s.
Definition CLGTHI op s :=
  to_rt op (mm_cmpgt 16 (_mm_xor_si128 (va op s) (mm_set1 32 0x80008000)) (mm_set1 16 (Z.lxor (op_si10 op) 0x8000))) s.
Definition CLGTBI op s :=
  to_rt op (mm_cmpgt 8 (_mm_xor_si128 (va op s) (mm_set1 32 0x80808080)) (mm_set1 8 (Z.lxor (op_i8 op) 0x80))) s.
Definition MPYI op s := to_rt op (_mm_madd_epi16 (va op s) (mm_set1 32 (Z.land (op_si10 op) 0xffff))) s.
Definition MPYUI op s :=
  let a := va op s in
  let i := mm_set1 32 (Z.land (op_si10 op) 0xffff) in
  to_rt op (_mm_or_si128 (mm_slli 32 (_mm_mulhi_epu16 a i) 16) (_mm_mullo_epi16 a i)) s.
Definition CEQI op s := to_rt op (mm_cmpeq 32 (va op s) (mm_set1 32 (op_si10 op))) s.
Definition CEQHI op s := to_rt op (mm_cmpeq 16 (va op s) (mm_set1 16 (op_si10 op))) s.
Definition CEQBI op s := to_rt op (mm_cmpeq 8 (va op s) (mm_set1 8 (op_i8 op))) s.
Definition ILA op s := to_rt op (mm_set1 32 (op_i18 op)) s.

(** ** Four registers *)

Definition SELB op s := to_rt4 op (v128_or (v128_and (vc op s) (vb op s)) (gv_andn (vc op s) (va op s))) s.
Definition SHUFB op s :=
  let ab i := if i <? 16 then lane 8 (vb op s) i else lane 8 (va op s) (i - 16) in
  let c := vc op s in
  let x := _mm_andnot_si128 c (mm_set1 8 0x1f) in
  (* Select bytes *)
  let res := pack 8 (fun i => ab (lane 8 x i)) in
  (* Select special values *)
  let xc0 := mm_set1 8 0xc0 in
  let xe0 := mm_set1 8 0xe0 in
  let cmp0 := mm_cmpgt 8 _mm_setzero_si128 c in
  let cmp1 := mm_cmpeq 8 (_mm_and_si128 c xc0) xc0 in
  let cmp2 := mm_cmpeq 8 (_mm_and_si128 c xe0) xc0 in
  to_rt4 op (_mm_or_si128 (_mm_andnot_si128 cmp0 res) (mm_avg_epu 8 cmp1 cmp2)) s.
Definition MPYA op s :=
  let mask := mm_set1 32 0xffff in
  to_rt4 op (mm_add 32 (vc op s) (_mm_madd_epi16 (_mm_and_si128 (va op s) mask) (_mm_and_si128 (vb op s) mask))) s.

End Int.
