(* ===== verification/SpuShift.v ===== *)
(** * SPU interpreter: shifts, rotates and insertion controls

    The handlers of [rpcs3/Emu/Cell/SPUInterpreter.cpp] for element and
    quadword shifts, and the generators of [SHUFB] controls. *)
From S2P Require Import Prelude V128 SpuState.

(** [rx::rol16], [rx::rol32] of [rx/include/rx/asm.hpp]. *)
Definition rol16 (x n : Z) : Z := Z.lor (u16 (Z.shiftl x (Z.land n 15))) (Z.shiftr x (Z.land (- n) 15)).
Definition rol32 (x n : Z) : Z := Z.lor (u32 (Z.shiftl x (Z.land n 31))) (Z.shiftr x (Z.land (u32 (0 - n)) 31)).

Section Shift.
Implicit Types (op : Z) (s : spu_thread).

(** ** Elements, counts in a register *)

Definition ROT op s :=
  let a := va op s in
  let b := vb op s in
  Ret true (for_lanes 4 (fun i s => put_lane 32 op i (rol32 (lane 32 a i) (lane 32 b i)) s) s).
Definition ROTM op s :=
  let a := va op s in
  let b := vb op s in
  Ret true (for_lanes 4 (fun i s => put_lane 32 op i (u32 (Z.shiftr (lane 32 a i) (Z.land (u32 (0 - lane 32 b i)) 0x3f))) s) s).
Definition ROTMA op s :=
  let a := va op s in
  let b := vb op s in
  Ret true (for_lanes 4 (fun i s => put_lane 32 op i (s32 (Z.shiftr (s32 (lane 32 a i)) (Z.land (u32 (0 - lane 32 b i)) 0x3f))) s) s).
Definition SHL op s :=
  let a := va op s in
  let b := vb op s in
  Ret true (for_lanes 4 (fun i s => put_lane 32 op i (u32 (u64 (Z.shiftl (lane 32 a i) (Z.land (lane 32 b i) 0x3f)))) s) s).
Definition ROTH op s :=
  let a := va op s in
  let b := vb op s in
  Ret true (for_lanes 8 (fun i s => put_lane 16 op i (rol16 (lane 16 a i) (lane 16 b i)) s) s).
Definition ROTHM op s :=
  let a := va op s in
  let b := vb op s in
  Ret true (for_lanes 8 (fun i s => put_lane 16 op i (u16 (Z.shiftr (lane 16 a i) (Z.land (0 - lane 16 b i) 0x1f))) s) s).
Definition ROTMAH op s :=
  let a := va op s in
  let b := vb op s in
  Ret true (for_lanes 8 (fun i s => put_lane 16 op i (s16 (Z.shiftr (s16 (lane 16 a i)) (Z.land (0 - lane 16 b i) 0x1f))) s) s).
Definition SHLH op s :=
  let a := va op s in
  let b := vb op s in
  Ret true (for_lanes 8 (fun i s => put_lane 16 op i (u16 (u32 (Z.shiftl (lane 16 a i) (Z.land (lane 16 b i) 0x1f)))) s) s).

(** ** Elements, immediate counts *)

Definition ROTI op s :=
  let a := va op s in
  let n := Z.land (op_i7 op) 0x1f in
  to_rt op (_mm_or_si128 (mm_slli 32 a n) (mm_srli 32 a (32 - n))) s.
Definition ROTMI op s := to_rt op (mm_srli 32 (va op s) (Z.land (0 - op_i7 op) 0x3f)) s.
Definition ROTMAI op s := to_rt op (mm_srai 32 (va op s) (Z.land (0 - op_i7 op) 0x3f)) s.
Definition SHLI op s := to_rt op (mm_slli 32 (va op s) (Z.land (op_i7 op) 0x3f)) s.
Definition ROTHI op s :=
  let a := va op s in
  let n := Z.land (op_i7 op) 0xf in
  to_rt op (_mm_or_si128 (mm_slli 16 a n) (mm_srli 16 a (16 - n))) s.
Definition ROTHMI op s := to_rt op (mm_srli 16 (va op s) (Z.land (0 - op_i7 op) 0x1f)) s.
Definition ROTMAHI op s := to_rt op (mm_srai 16 (va op s) (Z.land (0 - op_i7 op) 0x1f)) s.
Definition SHLHI op s := to_rt op (mm_slli 16 (va op s) (Z.land (op_i7 op) 0x1f)) s.

(** ** Quadwords by bytes: sixteen bytes of a buffer of vectors, from [off] *)

Definition loadu (buf : list Z) (off : Z) : Z :=
  pack 8 (fun i => lane 8 (nth (Z.to_nat ((off + i) / 16)) buf 0) ((off + i) mod 16)).

Definition ROTQBYBI op s :=
  let a := va op s in
  to_rt op (loadu [a; a] (16 - Z.land (Z.shiftr (slot (vb op s)) 3) 0xf)) s.
Definition ROTQMBYBI op s :=
  let a := va op s in
  to_rt op (loadu [a; 0; 0] (Z.land (u32 (0 - Z.shiftr (slot (vb op s)) 3)) 0x1f)) s.
Definition SHLQBYBI op s :=
  let a := va op s in
  to_rt op (loadu [0; 0; a] (32 - Z.land (Z.shiftr (slot (vb op s)) 3) 0x1f)) s.
Definition ROTQBY op s :=
  let a := va op s in
  to_rt op (loadu [a; a] (16 - Z.land (slot (vb op s)) 0xf)) s.
Definition ROTQMBY op s :=
  let a := va op s in
  to_rt op (loadu [a; 0; 0] (Z.land (u32 (0 - slot (vb op s))) 0x1f)) s.
Definition SHLQBY op s :=
  let a := va op s in
  to_rt op (loadu [0; 0; a] (32 - Z.land (slot (vb op s)) 0x1f)) s.
Definition ROTQBYI op s :=
  let a := va op s in
  to_rt op (loadu [a; a] (16 - Z.land (op_i7 op) 0xf)) s.
Definition ROTQMBYI op s :=
  let a := va op s in
  to_rt op (loadu [a; 0; 0] (Z.land (0 - op_i7 op) 0x1f)) s.
Definition SHLQBYI op s :=
  let a := va op s in
  to_rt op (loadu [0; 0; a] (32 - Z.land (op_i7 op) 0x1f)) s.

(** ** Quadwords by bits, less than eight *)

Definition ROTQBI op s :=
  let a := va op s in
  let n := Z.land (s32 (slot (vb op s))) 0x7 in
  to_rt op (_mm_or_si128 (mm_slli 64 a n) (mm_srli 64 (_mm_shuffle_epi32 a 0x4E) (64 - n))) s.
Definition ROTQMBI op s :=
  let a := va op s in
  let n := Z.land (- s32 (slot (vb op s))) 0x7 in
  to_rt op (_mm_or_si128 (mm_srli 64 a n) (mm_slli 64 (_mm_srli_si128 a 8) (64 - n))) s.
Definition SHLQBI op s :=
  let a := va op s in
  let n := Z.land (slot (vb op s)) 0x7 in
  to_rt op (_mm_or_si128 (mm_slli 64 a n) (mm_srli 64 (_mm_slli_si128 a 8) (64 - n))) s.
Definition ROTQBII op s :=
  let a := va op s in
  let n := Z.land (op_i7 op) 0x7 in
  to_rt op (_mm_or_si128 (mm_slli 64 a n) (mm_srli 64 (_mm_shuffle_epi32 a 0x4E) (64 - n))) s.
Definition ROTQMBII op s :=
  let a := va op s in
  let n := Z.land (0 - op_i7 op) 0x7 in
  to_rt op (_mm_or_si128 (mm_srli 64 a n) (mm_slli 64 (_mm_srli_si128 a 8) (64 - n))) s.
Definition SHLQBII op s :=
  let a := va op s in
  let n := Z.land (op_i7 op) 0x7 in
  to_rt op (_mm_or_si128 (mm_slli 64 a n) (mm_srli 64 (_mm_slli_si128 a 8) (64 - n))) s.

(** ** Insertion controls *)

(** The guard on the stack pointer (register 1). *)
Definition sp_checked op s (o : outcome) : outcome :=
  if (op_ra op =? 1) && negb (Z.land (slot (gpr s 1)) 0xf =? 0)
  then Throw (UnexpectedSP (slot (gpr s 1))) s else o.

(** The identity control with element [t] of width [w] taken from the first
    operand. *)
Definition insertion_control op s (w t x : Z) : outcome :=
  let s := set_gpr_at (op_rt op) (from64 0x18191A1B1C1D1E1F 0x1011121314151617) s in
  Ret true (put_lane w op t x s).

Definition CBX op s :=
  sp_checked op s (let t := Z.land (bnot 32 (u32 (slot (vb op s) + slot (va op s)))) 0xf in
                   insertion_control op s 8 t 0x03).
Definition CHX op s :=
  sp_checked op s (let t := Z.shiftr (Z.land (bnot 32 (u32 (slot (vb op s) + slot (va op s)))) 0xe) 1 in
                   insertion_control op s 16 t 0x0203).
Definition CWX op s :=
  sp_checked op s (let t := Z.shiftr (Z.land (bnot 32 (u32 (slot (vb op s) + slot (va op s)))) 0xc) 2 in
                   insertion_control op s 32 t 0x00010203).
Definition CDX op s :=
  sp_checked op s (let t := Z.shiftr (Z.land (bnot 32 (u32 (slot (vb op s) + slot (va op s)))) 0x8) 3 in
                   insertion_control op s 64 t 0x0001020304050607).
Definition CBD op s :=
  sp_checked op s (let t := Z.land (bnot 32 (u32 (op_i7 op + slot (va op s)))) 0xf in
                   insertion_control op s 8 t 0x03).
Definition CHD op s :=
  sp_checked op s (let t := Z.shiftr (Z.land (bnot 32 (u32 (op_i7 op + slot (va op s)))) 0xe) 1 in
                   insertion_control op s 16 t 0x0203).
Definition CWD op s :=
  sp_checked op s (let t := Z.shiftr (Z.land (bnot 32 (u32 (op_i7 op + slot (va op s)))) 0xc) 2 in
                   insertion_control op s 32 t 0x00010203).
Definition CDD op s :=
  sp_checked op s (let t := Z.shiftr (Z.land (bnot 32 (u32 (op_i7 op + slot (va op s)))) 0x8) 3 in
                   insertion_control op s 64 t 0x0001020304050607).

End Shift.
