(* ===== verification/SpuCtl.v ===== *)
(** * SPU interpreter: branches, channels, local storage, halts

    The remaining integer handlers of [rpcs3/Emu/Cell/SPUInterpreter.cpp] and
    the interrupt helpers of [rpcs3/Emu/Cell/SPUThread.cpp] that branches call.
    The interpreter exists for the [_static] and [dynamic] decoders, for which
    [spu_thread::set_interrupt_status] does not throw. *)
From S2P Require Import Prelude V128 SpuState.

Section Ctl.
Implicit Types (op : Z) (s : spu_thread).

(** ** Interrupts *)

(** The bit of [cpu_flag::pending] in [state]. *)
Definition cpu_flag_pending : Z := 2 ^ 10.

Definition SPU_EVENT_LR : Z := 0x400.
Definition SPU_EVENT_S1 : Z := 0x200.
Definition SPU_EVENT_S2 : Z := 0x100.
Definition SPU_EVENT_TM : Z := 0x20.
Definition SPU_EVENT_SN : Z := 0x2.
Definition SPU_EVENT_IMPLEMENTED : Z :=
  Z.lor (Z.lor (Z.lor (Z.lor SPU_EVENT_LR SPU_EVENT_TM) SPU_EVENT_SN) SPU_EVENT_S1) SPU_EVENT_S2.
Definition SPU_EVENT_INTR_IMPLEMENTED : Z := SPU_EVENT_SN.
Definition SPU_EVENT_INTR_BUSY_CHECK : Z := Z.land SPU_EVENT_IMPLEMENTED (Z.lnot SPU_EVENT_INTR_IMPLEMENTED).

Definition spu_set_interrupt_status (enable : bool) s : spu_thread :=
  let s :=
    if enable && negb (Z.land (ch_mask s) SPU_EVENT_INTR_BUSY_CHECK =? 0) then
      if Z.land (state s) cpu_flag_pending =? 0 then set_state (Z.lor (state s) cpu_flag_pending) s else s
    else s in
  set_interrupts_enabled enable s.

Definition check_mfc_interrupts (next_pc : Z) s : bool * spu_thread :=
  if ch_count s then
    let enabled := interrupts_enabled s in
    let s := set_interrupts_enabled false s in
    if enabled then
      let s := set_srr0 next_pc s in
      (* Test for BR/BRA instructions (they are equivalent at zero pc) *)
      let br := ls_read32 (ls s) 0 in
      (true, set_pc (if Z.land br 0xfd80007f =? 0x30000000 then Z.land (Z.shiftr br 5) 0x3fffc else 0) s)
    else (false, s)
  else (false, s).

(** [spu_interpreter::set_interrupt_status], then [return false]. *)
Definition set_interrupt_status op s : outcome :=
  let check s :=
    let '(taken, s) := check_mfc_interrupts (pc s) s in
    if taken && negb (Z.land (state s) cpu_flag_pending =? 0) then Call DoMfc s (fun _ s => Ret false s)
    else Ret false s in
  if op_e op then
    if op_d op then Throw UndefinedInterruptBits s else check (spu_set_interrupt_status true s)
  else if op_d op then check (spu_set_interrupt_status false s)
  else check s.

(** ** Channels *)

Definition UNK op s : outcome := Ret false s.
Definition STOP op s : outcome :=
  let allow := allow_interrupts_in_cpu_work s in
  Call (StopAndSignal (Z.land op 0x3fff)) (set_allow_interrupts false s) (fun advance_pc s =>
    let s := set_allow_interrupts allow s in
    if advance_pc =? 0 then Ret false s
    else if negb (state s =? 0) then Ret false (set_pc (u32 (pc s + 4)) s)
    else Ret true s).
Definition LNOP op s : outcome := Ret true s.
Definition SYNC op s : outcome := Ret true s.
Definition DSYNC op s : outcome := Ret true s.
Definition MFSPR op s : outcome := to_rt op 0 s.
Definition RDCH op s : outcome :=
  let allow := allow_interrupts_in_cpu_work s in
  Call (GetChValue (op_ra op)) (set_allow_interrupts false s) (fun result s =>
    let s := set_allow_interrupts allow s in
    if result <? 0 then Ret false s
    else
      let s := set_gpr_at (op_rt op) (from32r (u32 result)) s in
      if negb (state s =? 0) then Ret false (set_pc (u32 (pc s + 4)) s)
      else Ret true s).
Definition RCHCNT op s : outcome :=
  Call (GetChCount (op_ra op)) s (fun count s => to_rt op (from32r count) s).
Definition MTSPR op s : outcome := Ret true s.
Definition WRCH op s : outcome :=
  let allow := allow_interrupts_in_cpu_work s in
  Call (SetChValue (op_ra op) (slot (vt op s))) (set_allow_interrupts false s) (fun advance_pc s =>
    let s := set_allow_interrupts allow s in
    if advance_pc =? 0 then Ret false s
    else if negb (state s =? 0) then Ret false (set_pc (u32 (pc s + 4)) s)
    else Ret true s).
Definition STOPD op s : outcome :=
  Call (StopAndSignal 0x3fff) s (fun advance_pc s => Ret (negb (advance_pc =? 0)) s).
Definition NOP op s : outcome := Ret true s.
Definition HBR op s : outcome := Ret true s.
Definition HBRA op s : outcome := Ret true s.
Definition HBRR op s : outcome := Ret true s.

(** ** Indirect branches *)

Definition branch_indirect op s : outcome :=
  set_interrupt_status op (set_pc (spu_branch_target (slot (va op s)) 0) s).

Definition BIZ op s : outcome := if slot (vt op s) =? 0 then branch_indirect op s else Ret true s.
Definition BINZ op s : outcome := if negb (slot (vt op s) =? 0) then branch_indirect op s else Ret true s.
Definition BIHZ op s : outcome := if lane 16 (vt op s) 6 =? 0 then branch_indirect op s else Ret true s.
Definition BIHNZ op s : outcome := if negb (lane 16 (vt op s) 6 =? 0) then branch_indirect op s else Ret true s.
Definition BI op s : outcome := branch_indirect op s.
Definition BISL op s : outcome :=
  let target := spu_branch_target (slot (va op s)) 0 in
  let s := set_gpr_at (op_rt op) (from32r (spu_branch_target (u32 (pc s + 4)) 0)) s in
  set_interrupt_status op (set_pc target s).
Definition IRET op s : outcome := set_interrupt_status op (set_pc (srr0 s) s).
Definition BISLED op s : outcome :=
  let target := spu_branch_target (slot (va op s)) 0 in
  let s := set_gpr_at (op_rt op) (from32r (spu_branch_target (u32 (pc s + 4)) 0)) s in
  Call GetEvents s (fun count s =>
    if negb (count =? 0) then set_interrupt_status op (set_pc target s) else Ret true s).

(** ** Relative and absolute branches *)

Definition BRZ op s : outcome :=
  if slot (vt op s) =? 0 then Ret false (set_pc (spu_branch_target (pc s) (op_i16 op)) s) else Ret true s.
Definition BRNZ op s : outcome :=
  if negb (slot (vt op s) =? 0) then Ret false (set_pc (spu_branch_target (pc s) (op_i16 op)) s) else Ret true s.
Definition BRHZ op s : outcome :=
  if lane 16 (vt op s) 6 =? 0 then Ret false (set_pc (spu_branch_target (pc s) (op_i16 op)) s) else Ret true s.
Definition BRHNZ op s : outcome :=
  if negb (lane 16 (vt op s) 6 =? 0) then Ret false (set_pc (spu_branch_target (pc s) (op_i16 op)) s) else Ret true s.
Definition BRA op s : outcome := Ret false (set_pc (spu_branch_target 0 (op_i16 op)) s).
Definition BR op s : outcome := Ret false (set_pc (spu_branch_target (pc s) (op_i16 op)) s).
Definition BRASL op s : outcome :=
  let target := spu_branch_target 0 (op_i16 op) in
  let s := set_gpr_at (op_rt op) (from32r (spu_branch_target (u32 (pc s + 4)) 0)) s in
  Ret false (set_pc target s).
Definition BRSL op s : outcome :=
  let target := spu_branch_target (pc s) (op_i16 op) in
  let s := set_gpr_at (op_rt op) (from32r (spu_branch_target (u32 (pc s + 4)) 0)) s in
  Ret false (set_pc target s).

(** ** Local storage *)

Definition store_to op (addr : Z) s : outcome := Ret true (set_ls (ls_write128 (ls s) addr (vt op s)) s).
Definition load_from op (addr : Z) s : outcome := to_rt op (ls_read128 (ls s) addr) s.

Definition STQX op s : outcome := store_to op (Z.land (u32 (slot (va op s) + slot (vb op s))) 0x3fff0) s.
Definition LQX op s : outcome := load_from op (Z.land (u32 (slot (va op s) + slot (vb op s))) 0x3fff0) s.
Definition STQA op s : outcome := store_to op (spu_ls_target 0 (op_i16 op)) s.
Definition LQA op s : outcome := load_from op (spu_ls_target 0 (op_i16 op)) s.
Definition STQR op s : outcome := store_to op (spu_ls_target (pc s) (op_i16 op)) s.
Definition LQR op s : outcome := load_from op (spu_ls_target (pc s) (op_i16 op)) s.
Definition STQD op s : outcome := store_to op (Z.land (s32 (slot (va op s)) + op_si10 op * 16) 0x3fff0) s.
Definition LQD op s : outcome := load_from op (Z.land (s32 (slot (va op s)) + op_si10 op * 16) 0x3fff0) s.

(** ** Halts *)

Definition HGT op s : outcome := if s32 (slot (vb op s)) <? s32 (slot (va op s)) then Halt s else Ret true s.
Definition HLGT op s : outcome := if slot (vb op s) <? slot (va op s) then Halt s else Ret true s.
Definition HEQ op s : outcome := if s32 (slot (va op s)) =? s32 (slot (vb op s)) then Halt s else Ret true s.
Definition HGTI op s : outcome := if op_si10 op <? s32 (slot (va op s)) then Halt s else Ret true s.
Definition HLGTI op s : outcome := if u32 (op_si10 op) <? slot (va op s) then Halt s else Ret true s.
Definition HEQI op s : outcome := if s32 (slot (va op s)) =? op_si10 op then Halt s else Ret true s.

(** ** Status and instructions that only report *)

Definition FSCRRD op s : outcome := to_rt op 0 s.
Definition FSCRWR op s : outcome := Ret true s.
Definition DFCGT op s : outcome := Ret false s.
Definition DFCMGT op s : outcome := Ret false s.
Definition DFTSV op s : outcome := Ret false s.
Definition DFCEQ op s : outcome := Ret false s.
Definition DFCMEQ op s : outcome := Ret false s.

End Ctl.
