(* ===== verification/SpuDecode.v ===== *)
(** * SPU decoder, instruction classes and register use

    [spu_decoder] of [rpcs3/Emu/Cell/SPUOpcodes.h] maps the eleven most
    significant bits of an opcode word to whatever its argument assigns to the
    instruction's name: a handler, the class [spu_itype] or the operand flags
    [spu_iflag] of [rpcs3/Emu/Cell/SPUAnalyser.h].  [op_branch_targets] and
    [op_register_targets] of [rpcs3/Emu/Cell/SPUThread.cpp] are the static
    answers built from them. *)
From S2P Require Import Prelude SpuState.

(** ** Instruction names *)

Module itype.

(** [spu_itype::type], in the order of the enumeration. *)
Inductive type :=
  | UNK | HEQ | HEQI | HGT | HGTI | HLGT | HLGTI | HBR | HBRA | HBRR | STOP | STOPD | LNOP | NOP
  | SYNC | DSYNC | MTSPR | WRCH | STQD | STQX | STQA | STQR | LQD | LQX | LQA | LQR | MFSPR | RDCH
  | RCHCNT | BR | BRA | BRNZ | BRZ | BRHNZ | BRHZ | BRSL | BRASL | IRET | BI | BISLED | BISL | BIZ
  | BINZ | BIHZ | BIHNZ | ILH | ILHU | IL | ILA | FSMBI | AH | AHI | A | AI | SFH | SFHI | SF | SFI
  | ADDX | CG | CGX | SFX | BG | BGX | MPY | MPYU | MPYI | MPYUI | MPYH | MPYS | MPYHH | MPYHHA
  | MPYHHU | MPYHHAU | CBD | CHD | CWD | CDD | CBX | CHX | CWX | CDX | CLZ | CNTB | FSMB | FSMH
  | FSM | GBB | GBH | GB | AVGB | ABSDB | SUMB | XSBH | XSHW | XSWD | AND | ANDC | ANDBI | ANDHI
  | ANDI | OR | ORC | ORBI | ORHI | IOHL | ORI | ORX | XOR | XORBI | XORHI | XORI | NAND | NOR
  | EQV | MPYA | SELB | SHUFB | FMA | FNMS | FMS | FA | FS | FM | FREST | FRSQEST | FI | CSFLT
  | CUFLT | FRDS | DFA | DFS | DFM | DFMA | DFNMS | DFMS | DFNMA | FESD | CFLTS | CFLTU | FCEQ
  | FCMEQ | FCGT | FCMGT | FSCRWR | FSCRRD | DFCEQ | DFCMEQ | DFCGT | DFCMGT | DFTSV | SHLH | SHLHI
  | SHL | SHLI | SHLQBI | SHLQBII | SHLQBY | SHLQBYI | SHLQBYBI | ROTH | ROTHI | ROT | ROTI
  | ROTQBY | ROTQBYI | ROTQBYBI | ROTQBI | ROTQBII | ROTHM | ROTHMI | ROTM | ROTMI | ROTQMBY
  | ROTQMBYI | ROTQMBYBI | ROTQMBI | ROTQMBII | ROTMAH | ROTMAHI | ROTMA | ROTMAI | CEQB | CEQBI
  | CEQH | CEQHI | CEQ | CEQI | CGTB | CGTBI | CGTH | CGTHI | CGT | CGTI | CLGTB | CLGTBI | CLGTH
  | CLGTHI | CLGT | CLGTI.

(** The value of an enumerator. *)
Definition value (t : type) : Z :=
  match t with
    | UNK => 0 | HEQ => 1 | HEQI => 2 | HGT => 3 | HGTI => 4 | HLGT => 5 | HLGTI => 6 | HBR => 7
    | HBRA => 8 | HBRR => 9 | STOP => 10 | STOPD => 11 | LNOP => 12 | NOP => 13 | SYNC => 14
    | DSYNC => 15 | MTSPR => 16 | WRCH => 17 | STQD => 18 | STQX => 19 | STQA => 20 | STQR => 21
    | LQD => 22 | LQX => 23 | LQA => 24 | LQR => 25 | MFSPR => 26 | RDCH => 27 | RCHCNT => 28
    | BR => 29 | BRA => 30 | BRNZ => 31 | BRZ => 32 | BRHNZ => 33 | BRHZ => 34 | BRSL => 35
    | BRASL => 36 | IRET => 37 | BI => 38 | BISLED => 39 | BISL => 40 | BIZ => 41 | BINZ => 42
    | BIHZ => 43 | BIHNZ => 44 | ILH => 45 | ILHU => 46 | IL => 47 | ILA => 48 | FSMBI => 49
    | AH => 50 | AHI => 51 | A => 52 | AI => 53 | SFH => 54 | SFHI => 55 | SF => 56 | SFI => 57
    | ADDX => 58 | CG => 59 | CGX => 60 | SFX => 61 | BG => 62 | BGX => 63 | MPY => 64 | MPYU => 65
    | MPYI => 66 | MPYUI => 67 | MPYH => 68 | MPYS => 69 | MPYHH => 70 | MPYHHA => 71
    | MPYHHU => 72 | MPYHHAU => 73 | CBD => 74 | CHD => 75 | CWD => 76 | CDD => 77 | CBX => 78
    | CHX => 79 | CWX => 80 | CDX => 81 | CLZ => 82 | CNTB => 83 | FSMB => 84 | FSMH => 85
    | FSM => 86 | GBB => 87 | GBH => 88 | GB => 89 | AVGB => 90 | ABSDB => 91 | SUMB => 92
    | XSBH => 93 | XSHW => 94 | XSWD => 95 | AND => 96 | ANDC => 97 | ANDBI => 98 | ANDHI => 99
    | ANDI => 100 | OR => 101 | ORC => 102 | ORBI => 103 | ORHI => 104 | IOHL => 105 | ORI => 106
    | ORX => 107 | XOR => 108 | XORBI => 109 | XORHI => 110 | XORI => 111 | NAND => 112
    | NOR => 113 | EQV => 114 | MPYA => 115 | SELB => 116 | SHUFB => 117 | FMA => 118 | FNMS => 119
    | FMS => 120 | FA => 121 | FS => 122 | FM => 123 | FREST => 124 | FRSQEST => 125 | FI => 126
    | CSFLT => 127 | CUFLT => 128 | FRDS => 129 | DFA => 130 | DFS => 131 | DFM => 132
    | DFMA => 133 | DFNMS => 134 | DFMS => 135 | DFNMA => 136 | FESD => 137 | CFLTS => 138
    | CFLTU => 139 | FCEQ => 140 | FCMEQ => 141 | FCGT => 142 | FCMGT => 143 | FSCRWR => 144
    | FSCRRD => 145 | DFCEQ => 146 | DFCMEQ => 147 | DFCGT => 148 | DFCMGT => 149 | DFTSV => 150
    | SHLH => 151 | SHLHI => 152 | SHL => 153 | SHLI => 154 | SHLQBI => 155 | SHLQBII => 156
    | SHLQBY => 157 | SHLQBYI => 158 | SHLQBYBI => 159 | ROTH => 160 | ROTHI => 161 | ROT => 162
    | ROTI => 163 | ROTQBY => 164 | ROTQBYI => 165 | ROTQBYBI => 166 | ROTQBI => 167
    | ROTQBII => 168 | ROTHM => 169 | ROTHMI => 170 | ROTM => 171 | ROTMI => 172 | ROTQMBY => 173
    | ROTQMBYI => 174 | ROTQMBYBI => 175 | ROTQMBI => 176 | ROTQMBII => 177 | ROTMAH => 178
    | ROTMAHI => 179 | ROTMA => 180 | ROTMAI => 181 | CEQB => 182 | CEQBI => 183 | CEQH => 184
    | CEQHI => 185 | CEQ => 186 | CEQI => 187 | CGTB => 188 | CGTBI => 189 | CGTH => 190
    | CGTHI => 191 | CGT => 192 | CGTI => 193 | CLGTB => 194 | CLGTBI => 195 | CLGTH => 196
    | CLGTHI => 197 | CLGT => 198 | CLGTI => 199
  end.

Definition all : list type :=
  [   UNK; HEQ; HEQI; HGT; HGTI; HLGT; HLGTI; HBR; HBRA; HBRR; STOP; STOPD; LNOP; NOP; SYNC; DSYNC;
   MTSPR; WRCH; STQD; STQX; STQA; STQR; LQD; LQX; LQA; LQR; MFSPR; RDCH; RCHCNT; BR; BRA; BRNZ;
   BRZ; BRHNZ; BRHZ; BRSL; BRASL; IRET; BI; BISLED; BISL; BIZ; BINZ; BIHZ; BIHNZ; ILH; ILHU; IL;
   ILA; FSMBI; AH; AHI; A; AI; SFH; SFHI; SF; SFI; ADDX; CG; CGX; SFX; BG; BGX; MPY; MPYU; MPYI;
   MPYUI; MPYH; MPYS; MPYHH; MPYHHA; MPYHHU; MPYHHAU; CBD; CHD; CWD; CDD; CBX; CHX; CWX; CDX; CLZ;
   CNTB; FSMB; FSMH; FSM; GBB; GBH; GB; AVGB; ABSDB; SUMB; XSBH; XSHW; XSWD; AND; ANDC; ANDBI;
   ANDHI; ANDI; OR; ORC; ORBI; ORHI; IOHL; ORI; ORX; XOR; XORBI; XORHI; XORI; NAND; NOR; EQV; MPYA;
   SELB; SHUFB; FMA; FNMS; FMS; FA; FS; FM; FREST; FRSQEST; FI; CSFLT; CUFLT; FRDS; DFA; DFS; DFM;
   DFMA; DFNMS; DFMS; DFNMA; FESD; CFLTS; CFLTU; FCEQ; FCMEQ; FCGT; FCMGT; FSCRWR; FSCRRD; DFCEQ;
   DFCMEQ; DFCGT; DFCMGT; DFTSV; SHLH; SHLHI; SHL; SHLI; SHLQBI; SHLQBII; SHLQBY; SHLQBYI;
   SHLQBYBI; ROTH; ROTHI; ROT; ROTI; ROTQBY; ROTQBYI; ROTQBYBI; ROTQBI; ROTQBII; ROTHM; ROTHMI;
   ROTM; ROTMI; ROTQMBY; ROTQMBYI; ROTQMBYBI; ROTQMBI; ROTQMBII; ROTMAH; ROTMAHI; ROTMA; ROTMAI;
   CEQB; CEQBI; CEQH; CEQHI; CEQ; CEQI; CGTB; CGTBI; CGTH; CGTHI; CGT; CGTI; CLGTB; CLGTBI; CLGTH;
   CLGTHI; CLGT; CLGTI].

Lemma value_nth t : nth_error all (Z.to_nat (value t)) = Some t.
Proof. by destruct t. Qed.

#[global] Instance eq_dec : EqDecision type.
Proof.
  refine (fun x y => match decide (value x = value y) with left H => left _ | right H => right _ end).
  - abstract (pose proof (value_nth x) as Hx; rewrite H, value_nth in Hx; congruence).
  - abstract congruence.
Defined.

Definition eqb (x y : type) : bool := value x =? value y.

Lemma eqb_eq x y : eqb x y = true <-> x = y.
Proof.
  unfold eqb. rewrite Z.eqb_eq. split; [|by intros ->]. intros H. pose proof (value_nth x) as Hx.
  rewrite H, value_nth in Hx. congruence.
Qed.

(** The classes: ranges of the enumeration. *)
Definition between (a b t : type) : bool := (value a <=? value t) && (value t <=? value b).
Definition is_branch (t : type) : bool := between BR BIHNZ t.
Definition is_floating (t : type) : bool := between FMA DFTSV t.
Definition is_quadrop (t : type) : bool := between MPYA FMS t.
Definition is_xfloat (t : type) : bool := between FMA FRDS t.
Definition is_memory (t : type) : bool := between STQD LQR t.
Definition is_compare (t : type) : bool := between CEQB CLGTI t.
Definition is_integer (t : type) : bool := between AH SHUFB t.
Definition is_shiftrot (t : type) : bool := between SHLH ROTMAI t.
Definition is_constant (t : type) : bool := between ILH FSMBI t.
Definition is_zregmod (t : type) : bool := between HEQ STQR t.

(** [spu_iflag]: the operands an instruction reads.  An enumerator without a
    value of its own is one more than the one before it. *)
Definition use_ra : Z := Z.shiftl 1 8.
Definition use_rb : Z := Z.shiftl 1 9.
Definition use_rc : Z := Z.shiftl 1 10.

Definition flag_groups : list (Z * list type) :=
  [
   (0, [
     UNK; HBR; HBRA; HBRR; STOP; STOPD; LNOP; NOP; SYNC; DSYNC; MFSPR; MTSPR; DFCEQ; DFCMEQ; DFCGT;
     DFCMGT; DFTSV; RDCH; RCHCNT; LQA; LQR; ILH; ILHU; IL; ILA; FSMBI; BR; BRA; BRSL; BRASL; IRET;
     FSCRRD]);
   (use_rc, [
     WRCH; IOHL; STQA; STQR; BRNZ; BRZ; BRHNZ; BRHZ]);
   ((Z.lor use_ra use_rc), [
     STQD; BIZ; BINZ; BIHZ; BIHNZ]);
   ((Z.lor (Z.lor use_ra use_rb) use_rc), [
     STQX; ADDX; CGX; SFX; BGX; MPYHHA; MPYHHAU; MPYA; SELB; SHUFB; DFMA; DFNMS; DFMS; DFNMA; FMA;
     FNMS; FMS]);
   (use_ra, [
     HEQI; HGTI; HLGTI; LQD; CBD; CHD; CWD; CDD; AHI; AI; SFHI; SFI; MPYI; MPYUI; CLZ; CNTB; FSMB;
     FSMH; FSM; GBB; GBH; GB; XSBH; XSHW; XSWD; ANDBI; ANDHI; ANDI; ORBI; ORHI; ORI; ORX; XORBI;
     XORHI; XORI; SHLHI; SHLI; SHLQBII; SHLQBYI; ROTHI; ROTI; ROTQBYI; ROTQBII; ROTHMI; ROTMI;
     ROTQMBYI; ROTQMBII; ROTMAHI; ROTMAI; CEQBI; CEQHI; CEQI; CGTBI; CGTHI; CGTI; CLGTBI; CLGTHI;
     CLGTI; BI; BISLED; BISL; FREST; FRSQEST; CSFLT; CFLTS; CUFLT; CFLTU; FRDS; FESD; FSCRWR]);
   ((Z.lor use_ra use_rb), [
     HEQ; HGT; HLGT; LQX; CBX; CHX; CWX; CDX; AH; A; SFH; SF; CG; BG; MPYHHU; MPY; MPYU; MPYH;
     MPYS; MPYHH; AVGB; ABSDB; SUMB; AND; ANDC; OR; ORC; XOR; NAND; NOR; EQV; SHLH; SHL; SHLQBI;
     SHLQBY; SHLQBYBI; ROTH; ROT; ROTQBY; ROTQBYBI; ROTQBI; ROTHM; ROTM; ROTQMBY; ROTQMBYBI;
     ROTQMBI; ROTMAH; ROTMA; CEQB; CEQH; CEQ; CGTB; CGTH; CGT; CLGTB; CLGTH; CLGT; FA; DFA; FS;
     DFS; FM; DFM; FI; FCEQ; FCMEQ; FCGT; FCMGT])].

Fixpoint position (t : type) (l : list type) : option Z :=
  match l with
  | [] => None
  | u :: l => if eqb u t then Some 0 else (fun n => n + 1) <$> position t l
  end.

Fixpoint flag_in (groups : list (Z * list type)) (t : type) : Z :=
  match groups with
  | [] => 0
  | (base, l) :: groups => match position t l with Some n => base + n | None => flag_in groups t end
  end.

Definition flag (t : type) : Z := flag_in flag_groups t.

End itype.

(** ** The table *)

Definition spu_decode (inst : Z) : Z := Z.shiftr inst 21.

Section Decode.
Import itype.

(** Size exponent, value and instruction of each entry. *)
Definition instructions : list (Z * Z * type) :=
  [   (0, 0x0, STOP); (0, 0x1, LNOP); (0, 0x2, SYNC); (0, 0x3, DSYNC); (0, 0xc, MFSPR);
   (0, 0xd, RDCH); (0, 0xf, RCHCNT); (0, 0x40, SF); (0, 0x41, OR); (0, 0x42, BG); (0, 0x48, SFH);
   (0, 0x49, NOR); (0, 0x53, ABSDB); (0, 0x58, ROT); (0, 0x59, ROTM); (0, 0x5a, ROTMA);
   (0, 0x5b, SHL); (0, 0x5c, ROTH); (0, 0x5d, ROTHM); (0, 0x5e, ROTMAH); (0, 0x5f, SHLH);
   (0, 0x78, ROTI); (0, 0x79, ROTMI); (0, 0x7a, ROTMAI); (0, 0x7b, SHLI); (0, 0x7c, ROTHI);
   (0, 0x7d, ROTHMI); (0, 0x7e, ROTMAHI); (0, 0x7f, SHLHI); (0, 0xc0, A); (0, 0xc1, AND);
   (0, 0xc2, CG); (0, 0xc8, AH); (0, 0xc9, NAND); (0, 0xd3, AVGB); (0, 0x10c, MTSPR);
   (0, 0x10d, WRCH); (0, 0x128, BIZ); (0, 0x129, BINZ); (0, 0x12a, BIHZ); (0, 0x12b, BIHNZ);
   (0, 0x140, STOPD); (0, 0x144, STQX); (0, 0x1a8, BI); (0, 0x1a9, BISL); (0, 0x1aa, IRET);
   (0, 0x1ab, BISLED); (0, 0x1ac, HBR); (0, 0x1b0, GB); (0, 0x1b1, GBH); (0, 0x1b2, GBB);
   (0, 0x1b4, FSM); (0, 0x1b5, FSMH); (0, 0x1b6, FSMB); (0, 0x1b8, FREST); (0, 0x1b9, FRSQEST);
   (0, 0x1c4, LQX); (0, 0x1cc, ROTQBYBI); (0, 0x1cd, ROTQMBYBI); (0, 0x1cf, SHLQBYBI);
   (0, 0x1d4, CBX); (0, 0x1d5, CHX); (0, 0x1d6, CWX); (0, 0x1d7, CDX); (0, 0x1d8, ROTQBI);
   (0, 0x1d9, ROTQMBI); (0, 0x1db, SHLQBI); (0, 0x1dc, ROTQBY); (0, 0x1dd, ROTQMBY);
   (0, 0x1df, SHLQBY); (0, 0x1f0, ORX); (0, 0x1f4, CBD); (0, 0x1f5, CHD); (0, 0x1f6, CWD);
   (0, 0x1f7, CDD); (0, 0x1f8, ROTQBII); (0, 0x1f9, ROTQMBII); (0, 0x1fb, SHLQBII);
   (0, 0x1fc, ROTQBYI); (0, 0x1fd, ROTQMBYI); (0, 0x1ff, SHLQBYI); (0, 0x201, NOP);
   (0, 0x240, CGT); (0, 0x241, XOR); (0, 0x248, CGTH); (0, 0x249, EQV); (0, 0x250, CGTB);
   (0, 0x253, SUMB); (0, 0x258, HGT); (0, 0x2a5, CLZ); (0, 0x2a6, XSWD); (0, 0x2ae, XSHW);
   (0, 0x2b4, CNTB); (0, 0x2b6, XSBH); (0, 0x2c0, CLGT); (0, 0x2c1, ANDC); (0, 0x2c2, FCGT);
   (0, 0x2c3, DFCGT); (0, 0x2c4, FA); (0, 0x2c5, FS); (0, 0x2c6, FM); (0, 0x2c8, CLGTH);
   (0, 0x2c9, ORC); (0, 0x2ca, FCMGT); (0, 0x2cb, DFCMGT); (0, 0x2cc, DFA); (0, 0x2cd, DFS);
   (0, 0x2ce, DFM); (0, 0x2d0, CLGTB); (0, 0x2d8, HLGT); (0, 0x35c, DFMA); (0, 0x35d, DFMS);
   (0, 0x35e, DFNMS); (0, 0x35f, DFNMA); (0, 0x3c0, CEQ); (0, 0x3ce, MPYHHU); (0, 0x340, ADDX);
   (0, 0x341, SFX); (0, 0x342, CGX); (0, 0x343, BGX); (0, 0x346, MPYHHA); (0, 0x34e, MPYHHAU);
   (0, 0x398, FSCRRD); (0, 0x3b8, FESD); (0, 0x3b9, FRDS); (0, 0x3ba, FSCRWR); (0, 0x3bf, DFTSV);
   (0, 0x3c2, FCEQ); (0, 0x3c3, DFCEQ); (0, 0x3c4, MPY); (0, 0x3c5, MPYH); (0, 0x3c6, MPYHH);
   (0, 0x3c7, MPYS); (0, 0x3c8, CEQH); (0, 0x3ca, FCMEQ); (0, 0x3cb, DFCMEQ); (0, 0x3cc, MPYU);
   (0, 0x3d0, CEQB); (0, 0x3d4, FI); (0, 0x3d8, HEQ); (1, 0x1d8, CFLTS); (1, 0x1d9, CFLTU);
   (1, 0x1da, CSFLT); (1, 0x1db, CUFLT); (2, 0x40, BRZ); (2, 0x41, STQA); (2, 0x42, BRNZ);
   (2, 0x44, BRHZ); (2, 0x46, BRHNZ); (2, 0x47, STQR); (2, 0x60, BRA); (2, 0x61, LQA);
   (2, 0x62, BRASL); (2, 0x64, BR); (2, 0x65, FSMBI); (2, 0x66, BRSL); (2, 0x67, LQR);
   (2, 0x81, IL); (2, 0x82, ILHU); (2, 0x83, ILH); (2, 0xc1, IOHL); (3, 0x4, ORI); (3, 0x5, ORHI);
   (3, 0x6, ORBI); (3, 0xc, SFI); (3, 0xd, SFHI); (3, 0x14, ANDI); (3, 0x15, ANDHI);
   (3, 0x16, ANDBI); (3, 0x1c, AI); (3, 0x1d, AHI); (3, 0x24, STQD); (3, 0x34, LQD);
   (3, 0x44, XORI); (3, 0x45, XORHI); (3, 0x46, XORBI); (3, 0x4c, CGTI); (3, 0x4d, CGTHI);
   (3, 0x4e, CGTBI); (3, 0x4f, HGTI); (3, 0x5c, CLGTI); (3, 0x5d, CLGTHI); (3, 0x5e, CLGTBI);
   (3, 0x5f, HLGTI); (3, 0x74, MPYI); (3, 0x75, MPYUI); (3, 0x7c, CEQI); (3, 0x7d, CEQHI);
   (3, 0x7e, CEQBI); (3, 0x7f, HEQI); (4, 0x8, HBRA); (4, 0x9, HBRR); (4, 0x21, ILA);
   (7, 0x8, SELB); (7, 0xb, SHUFB); (7, 0xc, MPYA); (7, 0xd, FNMS); (7, 0xe, FMA); (7, 0xf, FMS)].

(** The table indices an entry claims. *)
Definition entry_writes (e : Z * Z * type) : list (Z * type) :=
  let '(magn, v, p) := e in
  map (fun i => (Z.lor (Z.shiftl v magn) (Z.of_nat i), p)) (seq 0 (Z.to_nat (Z.shiftl 1 magn))).

Definition m_table : Z -> type :=
  fold_left (fun t w => upd t w.1 w.2) (instructions ≫= entry_writes) (fun _ => UNK).

Definition decode (inst : Z) : type := m_table (spu_decode inst).

(** ** Static answers about an instruction *)

Definition umax : Z := 0xffffffff.

Definition op_branch_targets (pc op : Z) : Z * Z :=
  let res := (spu_branch_target (u32 (pc + 4)) 0, umax) in
  let type := decode op in
  match type with
  | BR | BRA | BRNZ | BRZ | BRHNZ | BRHZ | BRSL | BRASL =>
      let target := spu_branch_target (if eqb type BRASL || eqb type BRA then 0 else pc) (op_i16 op) in
      let res := if eqb type BR || eqb type BRA || eqb type BRSL || eqb type BRASL then (target, res.2) else (res.1, target) in
      if res.1 =? res.2 then (res.1, umax) else res
  | IRET | BI | BISLED | BISL | BIZ | BINZ | BIHZ | BIHNZ | UNK => (umax, res.2)
  | _ => res
  end.

(** Destination (or [umax]), sources (128: none) and the opcode without its
    destination field. *)
Definition op_register_targets (op : Z) : Z * (Z * Z * Z) * Z :=
  let type := decode op in
  if is_zregmod type then (umax, (128, 128, 128), 0)
  else
    let dst := if is_quadrop type then op_rt4 op else op_rt op in
    let op_masked := if is_quadrop type then Z.land op (bnot 32 (Z.shiftl 0x7f 21)) else Z.land op (bnot 32 0x7f) in
    let iflags := flag type in
    let ra := if negb (Z.land iflags use_ra =? 0) then op_ra op else 128 in
    let rb := if negb (Z.land iflags use_rb =? 0) then op_rb op else 128 in
    let rc := if negb (Z.land iflags use_rc =? 0) then op_rc op else 128 in
    (dst, (ra, rb, rc), op_masked).

End Decode.
