(* ===== verification/SpuStep.v ===== *)
(** * SPU interpreter: one instruction and the interpreter loop

    [spu_interpreter_rt] assigns a handler to every name of the decoder;
    [old_interpreter] of [rpcs3/Emu/Cell/SPUCommonRecompiler.cpp] fetches,
    decodes and runs.  The floating-point handlers are outside the model. *)
From S2P Require Import Prelude V128 SpuState SpuDecode.
From S2P Require SpuInt SpuShift SpuCtl.

Definition handler : Type := Z -> spu_thread -> outcome.

Definition handlers (t : itype.type) : option handler :=
  match t with
  | itype.UNK => Some SpuCtl.UNK | itype.HEQ => Some SpuCtl.HEQ | itype.HEQI => Some SpuCtl.HEQI
  | itype.HGT => Some SpuCtl.HGT | itype.HGTI => Some SpuCtl.HGTI | itype.HLGT => Some SpuCtl.HLGT
  | itype.HLGTI => Some SpuCtl.HLGTI | itype.HBR => Some SpuCtl.HBR | itype.HBRA => Some SpuCtl.HBRA
  | itype.HBRR => Some SpuCtl.HBRR | itype.STOP => Some SpuCtl.STOP | itype.STOPD => Some SpuCtl.STOPD
  | itype.LNOP => Some SpuCtl.LNOP | itype.NOP => Some SpuCtl.NOP | itype.SYNC => Some SpuCtl.SYNC
  | itype.DSYNC => Some SpuCtl.DSYNC | itype.MTSPR => Some SpuCtl.MTSPR | itype.WRCH => Some SpuCtl.WRCH
  | itype.STQD => Some SpuCtl.STQD | itype.STQX => Some SpuCtl.STQX | itype.STQA => Some SpuCtl.STQA
  | itype.STQR => Some SpuCtl.STQR | itype.LQD => Some SpuCtl.LQD | itype.LQX => Some SpuCtl.LQX
  | itype.LQA => Some SpuCtl.LQA | itype.LQR => Some SpuCtl.LQR | itype.MFSPR => Some SpuCtl.MFSPR
  | itype.RDCH => Some SpuCtl.RDCH | itype.RCHCNT => Some SpuCtl.RCHCNT | itype.BR => Some SpuCtl.BR
  | itype.BRA => Some SpuCtl.BRA | itype.BRNZ => Some SpuCtl.BRNZ | itype.BRZ => Some SpuCtl.BRZ
  | itype.BRHNZ => Some SpuCtl.BRHNZ | itype.BRHZ => Some SpuCtl.BRHZ | itype.BRSL => Some SpuCtl.BRSL
  | itype.BRASL => Some SpuCtl.BRASL | itype.IRET => Some SpuCtl.IRET | itype.BI => Some SpuCtl.BI
  | itype.BISLED => Some SpuCtl.BISLED | itype.BISL => Some SpuCtl.BISL | itype.BIZ => Some SpuCtl.BIZ
  | itype.BINZ => Some SpuCtl.BINZ | itype.BIHZ => Some SpuCtl.BIHZ | itype.BIHNZ => Some SpuCtl.BIHNZ
  | itype.ILH => Some SpuInt.ILH | itype.ILHU => Some SpuInt.ILHU | itype.IL => Some SpuInt.IL
  | itype.ILA => Some SpuInt.ILA | itype.FSMBI => Some SpuInt.FSMBI | itype.AH => Some SpuInt.AH
  | itype.AHI => Some SpuInt.AHI | itype.A => Some SpuInt.A | itype.AI => Some SpuInt.AI
  | itype.SFH => Some SpuInt.SFH | itype.SFHI => Some SpuInt.SFHI | itype.SF => Some SpuInt.SF
  | itype.SFI => Some SpuInt.SFI | itype.ADDX => Some SpuInt.ADDX | itype.CG => Some SpuInt.CG
  | itype.CGX => Some SpuInt.CGX | itype.SFX => Some SpuInt.SFX | itype.BG => Some SpuInt.BG
  | itype.BGX => Some SpuInt.BGX | itype.MPY => Some SpuInt.MPY | itype.MPYU => Some SpuInt.MPYU
  | itype.MPYI => Some SpuInt.MPYI | itype.MPYUI => Some SpuInt.MPYUI | itype.MPYH => Some SpuInt.MPYH
  | itype.MPYS => Some SpuInt.MPYS | itype.MPYHH => Some SpuInt.MPYHH
  | itype.MPYHHA => Some SpuInt.MPYHHA | itype.MPYHHU => Some SpuInt.MPYHHU
  | itype.MPYHHAU => Some SpuInt.MPYHHAU | itype.CBD => Some SpuShift.CBD
  | itype.CHD => Some SpuShift.CHD | itype.CWD => Some SpuShift.CWD | itype.CDD => Some SpuShift.CDD
  | itype.CBX => Some SpuShift.CBX | itype.CHX => Some SpuShift.CHX | itype.CWX => Some SpuShift.CWX
  | itype.CDX => Some SpuShift.CDX | itype.CLZ => Some SpuInt.CLZ | itype.CNTB => Some SpuInt.CNTB
  | itype.FSMB => Some SpuInt.FSMB | itype.FSMH => Some SpuInt.FSMH | itype.FSM => Some SpuInt.FSM
  | itype.GBB => Some SpuInt.GBB | itype.GBH => Some SpuInt.GBH | itype.GB => Some SpuInt.GB
  | itype.AVGB => Some SpuInt.AVGB | itype.ABSDB => Some SpuInt.ABSDB | itype.SUMB => Some SpuInt.SUMB
  | itype.XSBH => Some SpuInt.XSBH | itype.XSHW => Some SpuInt.XSHW | itype.XSWD => Some SpuInt.XSWD
  | itype.AND => Some SpuInt.AND | itype.ANDC => Some SpuInt.ANDC | itype.ANDBI => Some SpuInt.ANDBI
  | itype.ANDHI => Some SpuInt.ANDHI | itype.ANDI => Some SpuInt.ANDI | itype.OR => Some SpuInt.OR
  | itype.ORC => Some SpuInt.ORC | itype.ORBI => Some SpuInt.ORBI | itype.ORHI => Some SpuInt.ORHI
  | itype.IOHL => Some SpuInt.IOHL | itype.ORI => Some SpuInt.ORI | itype.ORX => Some SpuInt.ORX
  | itype.XOR => Some SpuInt.XOR | itype.XORBI => Some SpuInt.XORBI | itype.XORHI => Some SpuInt.XORHI
  | itype.XORI => Some SpuInt.XORI | itype.NAND => Some SpuInt.NAND | itype.NOR => Some SpuInt.NOR
  | itype.EQV => Some SpuInt.EQV | itype.MPYA => Some SpuInt.MPYA | itype.SELB => Some SpuInt.SELB
  | itype.SHUFB => Some SpuInt.SHUFB | itype.FSCRWR => Some SpuCtl.FSCRWR
  | itype.FSCRRD => Some SpuCtl.FSCRRD | itype.DFCEQ => Some SpuCtl.DFCEQ
  | itype.DFCMEQ => Some SpuCtl.DFCMEQ | itype.DFCGT => Some SpuCtl.DFCGT
  | itype.DFCMGT => Some SpuCtl.DFCMGT | itype.DFTSV => Some SpuCtl.DFTSV
  | itype.SHLH => Some SpuShift.SHLH | itype.SHLHI => Some SpuShift.SHLHI
  | itype.SHL => Some SpuShift.SHL | itype.SHLI => Some SpuShift.SHLI
  | itype.SHLQBI => Some SpuShift.SHLQBI | itype.SHLQBII => Some SpuShift.SHLQBII
  | itype.SHLQBY => Some SpuShift.SHLQBY | itype.SHLQBYI => Some SpuShift.SHLQBYI
  | itype.SHLQBYBI => Some SpuShift.SHLQBYBI | itype.ROTH => Some SpuShift.ROTH
  | itype.ROTHI => Some SpuShift.ROTHI | itype.ROT => Some SpuShift.ROT
  | itype.ROTI => Some SpuShift.ROTI | itype.ROTQBY => Some SpuShift.ROTQBY
  | itype.ROTQBYI => Some SpuShift.ROTQBYI | itype.ROTQBYBI => Some SpuShift.ROTQBYBI
  | itype.ROTQBI => Some SpuShift.ROTQBI | itype.ROTQBII => Some SpuShift.ROTQBII
  | itype.ROTHM => Some SpuShift.ROTHM | itype.ROTHMI => Some SpuShift.ROTHMI
  | itype.ROTM => Some SpuShift.ROTM | itype.ROTMI => Some SpuShift.ROTMI
  | itype.ROTQMBY => Some SpuShift.ROTQMBY | itype.ROTQMBYI => Some SpuShift.ROTQMBYI
  | itype.ROTQMBYBI => Some SpuShift.ROTQMBYBI | itype.ROTQMBI => Some SpuShift.ROTQMBI
  | itype.ROTQMBII => Some SpuShift.ROTQMBII | itype.ROTMAH => Some SpuShift.ROTMAH
  | itype.ROTMAHI => Some SpuShift.ROTMAHI | itype.ROTMA => Some SpuShift.ROTMA
  | itype.ROTMAI => Some SpuShift.ROTMAI | itype.CEQB => Some SpuInt.CEQB
  | itype.CEQBI => Some SpuInt.CEQBI | itype.CEQH => Some SpuInt.CEQH | itype.CEQHI => Some SpuInt.CEQHI
  | itype.CEQ => Some SpuInt.CEQ | itype.CEQI => Some SpuInt.CEQI | itype.CGTB => Some SpuInt.CGTB
  | itype.CGTBI => Some SpuInt.CGTBI | itype.CGTH => Some SpuInt.CGTH | itype.CGTHI => Some SpuInt.CGTHI
  | itype.CGT => Some SpuInt.CGT | itype.CGTI => Some SpuInt.CGTI | itype.CLGTB => Some SpuInt.CLGTB
  | itype.CLGTBI => Some SpuInt.CLGTBI | itype.CLGTH => Some SpuInt.CLGTH
  | itype.CLGTHI => Some SpuInt.CLGTHI | itype.CLGT => Some SpuInt.CLGT
  | itype.CLGTI => Some SpuInt.CLGTI
  | itype.FMA | itype.FNMS | itype.FMS | itype.FA | itype.FS | itype.FM | itype.FREST | itype.FRSQEST
  | itype.FI | itype.CSFLT | itype.CUFLT | itype.FRDS | itype.DFA | itype.DFS | itype.DFM | itype.DFMA
  | itype.DFNMS | itype.DFMS | itype.DFNMA | itype.FESD | itype.CFLTS | itype.CFLTU | itype.FCEQ
  | itype.FCMEQ | itype.FCGT | itype.FCMGT => None
  end.

(** The handler of an opcode word. *)
Definition spu_step (op : Z) (s : spu_thread) : option outcome :=
  h ← handlers (decode op); Some (h op s).

(** ** Running *)

(** How a run of the interpreter ends or pauses. *)
Inductive run_result :=
| OutOfFuel (s : spu_thread)
| CheckState (s : spu_thread) (* a thread flag is set: [check_state] decides *)
| Halted (s : spu_thread)
| Thrown (e : spu_error) (s : spu_thread)
| FetchFault (s : spu_thread) (* [base + pc] is past the last mapping *)
| OutsideModel (s : spu_thread).

Section Run.
(** The channels and the memory flow controller: the answer to a call and the
    thread it leaves. *)
Variable answer : spu_call -> spu_thread -> Z * spu_thread.

Fixpoint resolve (o : outcome) : bool * spu_thread + run_result :=
  match o with
  | Ret b s => inl (b, s)
  | Throw e s => inr (Thrown e s)
  | Halt s => inr (Halted s)
  | Call c s k => let '(a, s') := answer c s in resolve (k a s')
  end.

(** The local storage is mapped once below, once at and once above its base
    ([spu_thread::map_ls]); the program counter is not wrapped. *)
Definition fetch (s : spu_thread) : option Z :=
  if pc s <? 2 * SPU_LS_SIZE then Some (ls_read32 (ls s) (pc s)) else None.

Fixpoint old_interpreter (fuel : nat) (s : spu_thread) : run_result :=
  match fuel with
  | O => OutOfFuel s
  | S fuel =>
      if negb (state s =? 0) then CheckState s
      else
        match fetch s with
        | None => FetchFault s
        | Some op =>
            match spu_step op s with
            | None => OutsideModel s
            | Some o =>
                match resolve o with
                | inl (true, s') => old_interpreter fuel (set_pc (u32 (pc s' + 4)) s')
                | inl (false, s') => old_interpreter fuel s'
                | inr r => r
                end
            end
        end
  end.

End Run.
