(* ===== verification/SpuLoops.v ===== *)
(** * SPU interpreter: handlers that assign a register element by element

    A loop over all the elements leaves the vector of the assigned values, so
    every such handler has the closed form of the others. *)
From S2P Require Import Prelude V128 SpuState SpuInt SpuShift.
From Stdlib Require Import FunctionalExtensionality.

Lemma pack_ext w f g : lane_width w ->
  (forall i, 0 <= i -> w * i + w <= 128 -> wrap w (f i) = wrap w (g i)) -> pack w f = pack w g.
Proof.
  intros Hw H. apply (lanes_eq w); [done|by apply pack_word..|]. intros i Hi.
  assert (w * i + w <= 128) by (by apply lane_fits). rewrite !lane_pack by done. apply H; [apply Hi|done].
Qed.

Lemma lane_wrap w v i : lane_width w -> wrap w (lane w v i) = lane w v i.
Proof. intros Hw. by apply wrap_small, lane_range. Qed.

Lemma set_gpr_at_twice i v v' s : set_gpr_at i v' (set_gpr_at i v s) = set_gpr_at i v' s.
Proof.
  unfold set_gpr_at, set_gpr. cbn. f_equal. extensionality x. unfold upd. by destruct (x =? i).
Qed.

Lemma vt_set op v s : vt op (set_gpr_at (op_rt op) v s) = v.
Proof. unfold vt, set_gpr_at. cbn. apply upd_eq. Qed.

Lemma put_lane_twice w op i x v s :
  put_lane w op i x (set_gpr_at (op_rt op) v s) = set_gpr_at (op_rt op) (set_lane w v i x) s.
Proof. unfold put_lane. by rewrite vt_set, set_gpr_at_twice. Qed.

(** The value of element [i] may depend on that element of the destination. *)
Lemma for_lanes_put w op (g : Z -> spu_thread -> Z) s n : lane_width w ->
  (forall i v, 0 <= i -> lane w v i = lane w (vt op s) i -> g i (set_gpr_at (op_rt op) v s) = g i s) ->
  for_lanes (S n) (fun i s => put_lane w op i (g i s) s) s =
    set_gpr_at (op_rt op) (pack w (fun j => if j <? Z.of_nat (S n) then g j s else lane w (vt op s) j)) s.
Proof.
  intros Hw Hg. induction n as [|n IH].
  - cbn [for_lanes]. unfold put_lane. f_equal. apply pack_ext; [done|]. intros i Hi _.
    destruct (Z.eqb_spec i (Z.of_nat 0)), (Z.ltb_spec i (Z.of_nat 1)); lia || done || by subst.
  - assert (forall m body s', for_lanes (S m) body s' = body (Z.of_nat m) (for_lanes m body s')) as Hstep by done.
    rewrite Hstep, IH, put_lane_twice. clear IH Hstep.
    destruct (decide (w * Z.of_nat (S n) + w <= 128)).
    + rewrite Hg by (try lia; rewrite lane_pack' by (done || lia); rewrite (proj2 (Z.ltb_ge (Z.of_nat (S n)) (Z.of_nat (S n)))) by lia;
        by apply lane_wrap).
      f_equal. apply pack_ext; [done|]. intros i Hi Hwi. destruct (Z.eqb_spec i (Z.of_nat (S n))) as [->|].
      * by rewrite (proj2 (Z.ltb_lt (Z.of_nat (S n)) (Z.of_nat (S (S n))))) by lia.
      * rewrite lane_pack' by done. rewrite wrap_wrap.
        destruct (Z.ltb_spec i (Z.of_nat (S n))), (Z.ltb_spec i (Z.of_nat (S (S n)))); lia || done.
    + assert (0 < w) by (destruct Hw as [->|[->|[->| ->]]]; lia).
      f_equal. apply pack_ext; [done|]. intros i Hi Hwi.
      rewrite (proj2 (Z.eqb_neq i (Z.of_nat (S n)))) by nia. rewrite lane_pack' by done. rewrite wrap_wrap.
      destruct (Z.ltb_spec i (Z.of_nat (S n))), (Z.ltb_spec i (Z.of_nat (S (S n)))); nia || done.
Qed.

(** A loop over every element. *)
Lemma for_lanes_all w op (g : Z -> spu_thread -> Z) s : lane_width w ->
  (forall i v, 0 <= i -> lane w v i = lane w (vt op s) i -> g i (set_gpr_at (op_rt op) v s) = g i s) ->
  for_lanes (lanes w) (fun i s => put_lane w op i (g i s) s) s = set_gpr_at (op_rt op) (pack w (fun j => g j s)) s.
Proof.
  intros Hw Hg. assert (exists n, lanes w = S n) as [n Hn] by (destruct Hw as [->|[->|[->| ->]]]; eexists; done).
  rewrite Hn, for_lanes_put by done. f_equal. apply pack_ext; [done|]. intros i Hi Hwi.
  assert (w * Z.of_nat (lanes w) = 128) by (destruct Hw as [->|[->|[->| ->]]]; done).
  rewrite (proj2 (Z.ltb_lt i (Z.of_nat (S n)))); [done|]. rewrite <- Hn.
  assert (0 < w) by (destruct Hw as [->|[->|[->| ->]]]; lia). nia.
Qed.

(** Another register is not affected, the destination only in other elements. *)
Lemma gpr_lane_kept w r i v op s : lane w v i = lane w (vt op s) i ->
  lane w (gpr (set_gpr_at (op_rt op) v s) r) i = lane w (gpr s r) i.
Proof.
  intros H. unfold set_gpr_at, set_gpr. cbn. unfold upd. destruct (Z.eqb_spec r (op_rt op)) as [->|]; [exact H|done].
Qed.

Section Closed.
Implicit Types (op : Z) (s : spu_thread).

Ltac closed w := apply (f_equal (Ret true)), (for_lanes_all w); [auto with word|]; intros i v Hi Hv;
  unfold va, vb, vt in *; cbv zeta; rewrite ?(gpr_lane_kept w) by exact Hv; done.

Lemma CLZ_closed op s : CLZ op s = to_rt op (map1 32 (countl_zero 32) (va op s)) s.
Proof. closed 32. Qed.

Lemma CGX_closed op s : CGX op s = to_rt op (pack 32 (fun i =>
  Z.shiftr (u64 (Z.land (lane 32 (vt op s) i) 1 + lane 32 (va op s) i + lane 32 (vb op s) i)) 32)) s.
Proof. closed 32. Qed.

Lemma BGX_closed op s : BGX op s = to_rt op (pack 32 (fun i =>
  Z.b2z (0 <=? s64 (lane 32 (vb op s) i - lane 32 (va op s) i - (1 - Z.land (lane 32 (vt op s) i) 1))))) s.
Proof. closed 32. Qed.

Lemma ROT_closed op s : ROT op s = to_rt op (map2 32 rol32 (va op s) (vb op s)) s.
Proof. closed 32. Qed.

Lemma ROTM_closed op s : ROTM op s =
  to_rt op (map2 32 (fun x y => u32 (Z.shiftr x (Z.land (u32 (0 - y)) 0x3f))) (va op s) (vb op s)) s.
Proof. closed 32. Qed.

Lemma ROTMA_closed op s : ROTMA op s =
  to_rt op (map2 32 (fun x y => s32 (Z.shiftr (s32 x) (Z.land (u32 (0 - y)) 0x3f))) (va op s) (vb op s)) s.
Proof. closed 32. Qed.

Lemma SHL_closed op s : SHL op s =
  to_rt op (map2 32 (fun x y => u32 (u64 (Z.shiftl x (Z.land y 0x3f)))) (va op s) (vb op s)) s.
Proof. closed 32. Qed.

Lemma ROTH_closed op s : ROTH op s = to_rt op (map2 16 rol16 (va op s) (vb op s)) s.
Proof. closed 16. Qed.

Lemma ROTHM_closed op s : ROTHM op s =
  to_rt op (map2 16 (fun x y => u16 (Z.shiftr x (Z.land (0 - y) 0x1f))) (va op s) (vb op s)) s.
Proof. closed 16. Qed.

Lemma ROTMAH_closed op s : ROTMAH op s =
  to_rt op (map2 16 (fun x y => s16 (Z.shiftr (s16 x) (Z.land (0 - y) 0x1f))) (va op s) (vb op s)) s.
Proof. closed 16. Qed.

Lemma SHLH_closed op s : SHLH op s =
  to_rt op (map2 16 (fun x y => u16 (u32 (Z.shiftl x (Z.land y 0x1f)))) (va op s) (vb op s)) s.
Proof. closed 16. Qed.

Lemma XSWD_closed op s : XSWD op s =
  to_rt op (pack 64 (fun i => s32 (lane 32 (va op s) (2 * i)))) s.
Proof.
  change (XSWD op s) with (Ret true (put_lane 64 op 1 (s32 (lane 32 (va op (put_lane 64 op 0 (s32 (lane 32 (va op s) 0)) s)) 2))
    (put_lane 64 op 0 (s32 (lane 32 (va op s) 0)) s))).
  assert (lane 32 (va op (put_lane 64 op 0 (s32 (lane 32 (va op s) 0)) s)) 2 = lane 32 (va op s) 2) as ->.
  { unfold put_lane, va. change 2 with (2 * 1 + 0). rewrite <- !(lane_lane 32 _ 2 1 0) by (done || lia || auto with word).
    change (2 * 32) with 64. f_equal. apply gpr_lane_kept. unfold set_lane. rewrite lane_pack' by (auto with word; lia).
    apply lane_wrap. auto with word. }
  unfold to_rt. f_equal. unfold put_lane at 2. rewrite put_lane_twice. f_equal. apply pack_ext; [auto with word|].
  intros i Hi Hwi. assert (i = 0 \/ i = 1) as [->| ->] by lia; [|done]. cbn [Z.eqb]. unfold set_lane.
  rewrite lane_pack' by (auto with word; lia). cbn. apply wrap_wrap.
Qed.

End Closed.
