(* ===== verification/SpuRegs.v ===== *)
(** * SPU: register use of the instructions

    The static answer of [op_register_targets] against what the interpreter
    does: a handler writes no register but the destination, and what it writes,
    the program counter, the local storage and everything else it leaves behind
    depend on no register but the sources. *)
From S2P Require Import Prelude V128 SpuState SpuInt SpuShift SpuCtl SpuDecode SpuStep SpuLoops.

(** ** Two runs of a handler *)

(** Everything but the registers. *)
Record same_rest (s s' : spu_thread) : Prop := SameRest {
  sr_pc : pc s' = pc s; sr_ls : ls s' = ls s; sr_srr0 : srr0 s' = srr0 s;
  sr_count : ch_count s' = ch_count s; sr_mask : ch_mask s' = ch_mask s;
  sr_ie : interrupts_enabled s' = interrupts_enabled s;
  sr_allow : allow_interrupts_in_cpu_work s' = allow_interrupts_in_cpu_work s;
  sr_state : state s' = state s }.

(** From [s] and [s'] two runs have come to [t] and [t']. *)
Record kept (dst : Z) (s s' t t' : spu_thread) : Prop := Kept {
  k_rest : same_rest t t';
  k_frame : forall r, r <> dst -> gpr t r = gpr s r /\ gpr t' r = gpr s' r;
  k_dst : gpr t dst = gpr t' dst \/ (gpr t dst = gpr s dst /\ gpr t' dst = gpr s' dst) }.

(** The runs end alike, or make the same call and agree on every answer to it
    that leaves the registers alone. *)
Inductive outcomes_agree (dst : Z) (s s' : spu_thread) : outcome -> outcome -> Prop :=
| agree_ret b t t' : kept dst s s' t t' -> outcomes_agree dst s s' (Ret b t) (Ret b t')
| agree_throw e t t' : kept dst s s' t t' -> outcomes_agree dst s s' (Throw e t) (Throw e t')
| agree_halt t t' : kept dst s s' t t' -> outcomes_agree dst s s' (Halt t) (Halt t')
| agree_call c t t' k k' : kept dst s s' t t' ->
    (forall a u u', gpr u = gpr t -> gpr u' = gpr t' -> same_rest u u' -> outcomes_agree dst s s' (k a u) (k' a u')) ->
    outcomes_agree dst s s' (Call c t k) (Call c t' k').

Lemma kept_none dst s s' : same_rest s s' -> kept dst s s' s s'.
Proof. intros H. split; [done|done|by right]. Qed.

Lemma kept_regs dst s s' t t' u u' : kept dst s s' t t' -> gpr u = gpr t -> gpr u' = gpr t' -> same_rest u u' ->
  kept dst s s' u u'.
Proof. intros [_ Hf Hd] H H' Hr. split; [done|by rewrite H, H'|by rewrite H, H']. Qed.

Lemma kept_write dst s s' t t' v : kept dst s s' t t' -> kept dst s s' (set_gpr_at dst v t) (set_gpr_at dst v t').
Proof.
  intros [Hr Hf Hd]. split.
  - destruct Hr. by split.
  - intros r Hne. cbn. rewrite !upd_ne by done. by apply Hf.
  - left. cbn. by rewrite !upd_eq.
Qed.

(** Changes of the rest of the state that both runs make. *)
Lemma kept_rest dst s s' t t' (f : spu_thread -> spu_thread) :
  kept dst s s' t t' -> (forall u, gpr (f u) = gpr u) -> same_rest (f t) (f t') -> kept dst s s' (f t) (f t').
Proof. intros H Hf Hr. eapply kept_regs; [exact H|apply Hf|apply Hf|done]. Qed.

Lemma kept_set_pc dst s s' t t' v : kept dst s s' t t' -> kept dst s s' (set_pc v t) (set_pc v t').
Proof. intros H. apply kept_rest; [done|done|]. destruct H as [[]]. by split. Qed.

Lemma kept_set_ls dst s s' t t' v : kept dst s s' t t' -> kept dst s s' (set_ls v t) (set_ls v t').
Proof. intros H. apply kept_rest; [done|done|]. destruct H as [[]]. by split. Qed.

Lemma kept_set_allow dst s s' t t' v :
  kept dst s s' t t' -> kept dst s s' (set_allow_interrupts v t) (set_allow_interrupts v t').
Proof. intros H. apply kept_rest; [done|done|]. destruct H as [[]]. by split. Qed.

Lemma kept_set_ie dst s s' t t' v :
  kept dst s s' t t' -> kept dst s s' (set_interrupts_enabled v t) (set_interrupts_enabled v t').
Proof. intros H. apply kept_rest; [done|done|]. destruct H as [[]]. by split. Qed.

Lemma kept_set_srr0 dst s s' t t' v : kept dst s s' t t' -> kept dst s s' (set_srr0 v t) (set_srr0 v t').
Proof. intros H. apply kept_rest; [done|done|]. destruct H as [[]]. by split. Qed.

Lemma kept_set_state dst s s' t t' v : kept dst s s' t t' -> kept dst s s' (set_state v t) (set_state v t').
Proof. intros H. apply kept_rest; [done|done|]. destruct H as [[]]. by split. Qed.

Create HintDb kept.
#[export] Hint Resolve kept_none kept_write kept_set_pc kept_set_ls kept_set_allow kept_set_ie kept_set_srr0
  kept_set_state agree_ret agree_throw agree_halt k_rest : kept.

(** The second run reads what the first one reads. *)
Ltac same_reads :=
  repeat match goal with
  | H : same_rest ?s ?s' |- context [pc ?s'] => rewrite (sr_pc s s' H)
  | H : same_rest ?s ?s' |- context [ls ?s'] => rewrite (sr_ls s s' H)
  | H : same_rest ?s ?s' |- context [srr0 ?s'] => rewrite (sr_srr0 s s' H)
  | H : same_rest ?s ?s' |- context [ch_count ?s'] => rewrite (sr_count s s' H)
  | H : same_rest ?s ?s' |- context [ch_mask ?s'] => rewrite (sr_mask s s' H)
  | H : same_rest ?s ?s' |- context [interrupts_enabled ?s'] => rewrite (sr_ie s s' H)
  | H : same_rest ?s ?s' |- context [allow_interrupts_in_cpu_work ?s'] => rewrite (sr_allow s s' H)
  | H : same_rest ?s ?s' |- context [state ?s'] => rewrite (sr_state s s' H)
  end.

Ltac split_ifs := repeat match goal with |- context [if ?c then _ else _] => destruct c end.

(** ** The helpers *)

Lemma agree_check_mfc dst s s' t t' p : kept dst s s' t t' ->
  (check_mfc_interrupts p t).1 = (check_mfc_interrupts p t').1 /\
  kept dst s s' (check_mfc_interrupts p t).2 (check_mfc_interrupts p t').2.
Proof.
  intros H. pose proof (k_rest _ _ _ _ _ H) as Hr. unfold check_mfc_interrupts. cbv zeta. same_reads.
  cbn [set_interrupts_enabled set_srr0 set_pc ls]. same_reads. split_ifs; (split; [done|]); cbn [snd]; auto with kept.
Qed.

Lemma agree_interrupt_status dst s s' t t' op : kept dst s s' t t' ->
  outcomes_agree dst s s' (set_interrupt_status op t) (set_interrupt_status op t').
Proof.
  intros H.
  assert (forall u u', kept dst s s' u u' ->
    outcomes_agree dst s s'
      (let '(taken, v) := check_mfc_interrupts (pc u) u in
       if taken && negb (Z.land (state v) cpu_flag_pending =? 0) then Call DoMfc v (fun _ v => Ret false v) else Ret false v)
      (let '(taken, v) := check_mfc_interrupts (pc u') u' in
       if taken && negb (Z.land (state v) cpu_flag_pending =? 0) then Call DoMfc v (fun _ v => Ret false v) else Ret false v)) as Hcheck.
  { intros u u' Hu. pose proof (k_rest _ _ _ _ _ Hu) as Hr. rewrite (sr_pc _ _ Hr).
    destruct (agree_check_mfc dst s s' u u' (pc u) Hu) as [H1 H2].
    destruct (check_mfc_interrupts (pc u) u) as [b v], (check_mfc_interrupts (pc u) u') as [b' v']. cbn in H1, H2. subst b'.
    rewrite (sr_state _ _ (k_rest _ _ _ _ _ H2)). destruct (_ && _); [|auto with kept].
    apply agree_call; [done|]. intros a w w' Hw Hw' Hww. apply agree_ret. by eapply kept_regs. }
  assert (forall b, kept dst s s' (spu_set_interrupt_status b t) (spu_set_interrupt_status b t')) as Hset.
  { intros b. pose proof (k_rest _ _ _ _ _ H) as Hr. unfold spu_set_interrupt_status. same_reads. split_ifs; auto with kept. }
  unfold set_interrupt_status. destruct (op_e op), (op_d op); [auto with kept|apply Hcheck..]; auto.
Qed.
#[export] Hint Resolve agree_interrupt_status : kept.

Lemma sp_checked_va op s o : sp_checked op s o =
  if (op_ra op =? 1) && negb (Z.land (slot (va op s)) 0xf =? 0) then Throw (UnexpectedSP (slot (va op s))) s else o.
Proof. unfold sp_checked, va. by destruct (Z.eqb_spec (op_ra op) 1) as [->|]. Qed.

Lemma insertion_closed op s w t x : insertion_control op s w t x =
  to_rt op (set_lane w (from64 0x18191A1B1C1D1E1F 0x1011121314151617) t x) s.
Proof. unfold insertion_control. by rewrite put_lane_twice. Qed.

(** ** Every handler *)

Lemma op_reg_range op i : 0 <= spu_bf op i 7 < 128.
Proof. unfold spu_bf. rewrite land_pow2m1 by lia. apply Z.mod_pos_bound. lia. Qed.

Definition dst_of (t : itype.type) (op : Z) : Z :=
  if itype.is_zregmod t then umax else if itype.is_quadrop t then op_rt4 op else op_rt op.

Definition reads (t : itype.type) (op : Z) (s s' : spu_thread) : Prop :=
  (itype.is_zregmod t = true \/ Z.land (itype.flag t) itype.use_ra <> 0 -> va op s' = va op s) /\
  (itype.is_zregmod t = true \/ Z.land (itype.flag t) itype.use_rb <> 0 -> vb op s' = vb op s) /\
  (itype.is_zregmod t = true \/ Z.land (itype.flag t) itype.use_rc <> 0 -> vt op s' = vt op s).

(** Fields that an update leaves alone. *)
Lemma state_set_allow v s : state (set_allow_interrupts v s) = state s. Proof. done. Qed.
Lemma pc_set_allow v s : pc (set_allow_interrupts v s) = pc s. Proof. done. Qed.
Lemma state_set_gpr_at i v s : state (set_gpr_at i v s) = state s. Proof. done. Qed.
Lemma pc_set_gpr_at i v s : pc (set_gpr_at i v s) = pc s. Proof. done. Qed.
Create Rewrite HintDb spu_proj.
#[export] Hint Rewrite state_set_allow pc_set_allow state_set_gpr_at pc_set_gpr_at : spu_proj.

Ltac agree_call_tac :=
  apply agree_call; [auto with kept|];
  let a := fresh "a" in let u := fresh "u" in let u' := fresh "u'" in
  let Hu := fresh in let Hu' := fresh in let Hr := fresh in
  intros a u u' Hu Hu' Hr;
  match goal with |- outcomes_agree ?d ?s ?s' _ _ =>
    assert (kept d s s' u u') by (eapply kept_regs; [|exact Hu|exact Hu'|exact Hr]; auto with kept) end;
  autorewrite with spu_proj; same_reads; split_ifs; auto 8 with kept.

Ltac agree_case :=
  match goal with
  | Ha : _ -> va ?op ?s' = va ?op ?s, Hb : _ -> vb ?op ?s' = vb ?op ?s, Hc : _ -> vt ?op ?s' = vt ?op ?s,
    Hr : same_rest ?s ?s' |- outcomes_agree ?dst ?s ?s' (?h ?op ?s) (?h ?op ?s') =>
      try (specialize (Ha ltac:(first [left; reflexivity | right; vm_compute; discriminate])));
      try (specialize (Hb ltac:(first [left; reflexivity | right; vm_compute; discriminate])));
      try (specialize (Hc ltac:(first [left; reflexivity | right; vm_compute; discriminate])));
      first [change dst with (op_rt4 op) | change dst with (op_rt op) | change dst with umax];
      rewrite ?CLZ_closed, ?CGX_closed, ?BGX_closed, ?ROT_closed, ?ROTM_closed, ?ROTMA_closed, ?SHL_closed,
        ?ROTH_closed, ?ROTHM_closed, ?ROTMAH_closed, ?SHLH_closed, ?XSWD_closed;
      try unfold h; rewrite ?sp_checked_va, ?insertion_closed; cbv zeta;
      change (vc op s') with (vt op s'); change (vc op s) with (vt op s);
      unfold branch_indirect, store_to, load_from, to_rt, to_rt4 in *;
      autorewrite with spu_proj; same_reads;
      try rewrite Ha; try rewrite Hb; try rewrite Hc
  end.

Lemma handler_agrees t op h s s' : handlers t = Some h -> same_rest s s' -> reads t op s s' ->
  outcomes_agree (dst_of t op) s s' (h op s) (h op s').
Proof.
  intros Hh Hr (Ha & Hb & Hc).
  destruct t; cbn in Hh; try discriminate Hh; injection Hh as <-; agree_case; split_ifs;
    first [solve [auto 6 with kept] | agree_call_tac].
Qed.

(** C28: [op_register_targets] is sound for the interpreter: from two threads
    that agree on the sources it names (on everything, when it names no
    destination), a handler ends the same way, changes no register but the
    destination, leaves the same destination if it writes it at all, and the
    same program counter, local storage and interrupt state; this holds across
    the calls a handler makes as long as those leave the registers alone. *)
Theorem register_targets_sound op s s' h :
  handlers (decode op) = Some h -> same_rest s s' ->
  let '(dst, (ra, rb, rc), _) := op_register_targets op in
  (dst = umax -> forall r, gpr s' r = gpr s r) ->
  (forall r, r ∈ [ra; rb; rc] -> r < 128 -> gpr s' r = gpr s r) ->
  outcomes_agree dst s s' (h op s) (h op s').
Proof.
  intros Hh Hr. unfold op_register_targets.
  assert (forall i, spu_bf op i 7 <> umax) as Hne by (intros i; pose proof (op_reg_range op i); unfold umax; lia).
  destruct (itype.is_zregmod (decode op)) eqn:Hz.
  - intros Hall _. specialize (Hall eq_refl). replace umax with (dst_of (decode op) op) by (unfold dst_of; by rewrite Hz).
    apply handler_agrees; [done|done|]. split_and!; intros _; apply Hall.
  - intros _ Hsrc. replace (if itype.is_quadrop (decode op) then op_rt4 op else op_rt op) with (dst_of (decode op) op)
      by (unfold dst_of; by rewrite Hz).
    apply handler_agrees; [done|done|]. unfold reads. rewrite Hz.
    split_and!; (intros [H|H]; [done|]); apply Hsrc; try apply op_reg_range; rewrite (proj2 (Z.eqb_neq _ 0) H); cbn [negb].
    + left.
    + right. left.
    + right. right. left.
Qed.

Definition demo_spu : spu_thread :=
  MkSpu (fun r => r * 2 ^ 96) 0 (fun _ => 0) 0 false 0 false true 0.

(** [sf rt=3, ra=4, rb=5] from threads that differ in register 9. *)
Lemma register_targets_sound_witness :
  outcomes_agree 3 demo_spu (set_gpr_at 9 77 demo_spu) (SF 0x08014203 demo_spu) (SF 0x08014203 (set_gpr_at 9 77 demo_spu)).
Proof.
  assert (decode 0x08014203 = itype.SF) as Hd by (vm_compute; reflexivity).
  assert (handlers (decode 0x08014203) = Some SF) as Hh by (by rewrite Hd).
  assert (op_register_targets 0x08014203 = (3, (4, 5, 128), 0x08014200)) as Ht by (vm_compute; reflexivity).
  pose proof (register_targets_sound 0x08014203 demo_spu (set_gpr_at 9 77 demo_spu) SF Hh ltac:(by split)) as H.
  rewrite Ht in H. refine (H _ _); [intros Hc; vm_compute in Hc; discriminate Hc|]. intros r Hr _. repeat (apply elem_of_cons in Hr as [->|Hr]; [reflexivity|]).
  exfalso. revert Hr. apply not_elem_of_nil.
Defined.
