(* ===== verification/SpuTypes.v ===== *)
(** * SPU interpreter: typing of the thread state

    Every value the handlers leave behind fits the C++ type that holds it: the
    registers are 128-bit vectors, the local storage holds bytes, and the
    program counter stays an aligned 32-bit address. *)
From S2P Require Import Prelude V128 SpuState SpuInt SpuShift SpuCtl SpuDecode SpuStep SpuLoops SpuRegs.

Definition is_pc (p : Z) : Prop := is_word 32 p /\ p mod 4 = 0.

Record spu_wf (s : spu_thread) : Prop := SpuWf {
  wf_gpr : forall r, is_word 128 (gpr s r);
  wf_ls : forall a, is_word 8 (ls s a);
  wf_pc : is_pc (pc s);
  wf_srr0 : is_pc (srr0 s) }.

(** The outcome is typed if the calls it makes are answered by typed threads. *)
Inductive outcome_wf : outcome -> Prop :=
| wf_ret b s : spu_wf s -> outcome_wf (Ret b s)
| wf_throw e s : spu_wf s -> outcome_wf (Throw e s)
| wf_halt s : spu_wf s -> outcome_wf (Halt s)
| wf_call c s k : spu_wf s -> (forall a s', spu_wf s' -> outcome_wf (k a s')) -> outcome_wf (Call c s k).

(** ** Values *)

Lemma land128 a b : is_word 128 a -> is_word 128 b -> is_word 128 (Z.land a b).
Proof. intros Ha [Hb _]. by apply land_word. Qed.

Lemma srli_si128_word a n : is_word 128 a -> 0 <= n -> is_word 128 (_mm_srli_si128 a n).
Proof. intros Ha Hn. apply shiftr_word; [done|lia|done]. Qed.

(** A vector built by the operations of the handlers is a 128-bit word. *)
Ltac vec_word :=
  unfold v128_and, v128_or, v128_xor, v128_not, gv_andn, _mm_and_si128, _mm_or_si128, _mm_xor_si128, _mm_andnot_si128,
    va, vb, vc, vt in *;
  repeat lazymatch goal with
  | |- is_word 128 ?v =>
      lazymatch v with
      | Z.land _ _ => apply land128
      | Z.lor _ _ => apply lor_word; [lia| |]
      | Z.lxor _ _ => apply lxor_word; [lia| |]
      | bnot 128 _ => apply wrap_range; lia
      | gpr _ _ => apply wf_gpr; assumption
      | _mm_srli_si128 _ _ => apply srli_si128_word; [|lia]
      | _mm_slli_si128 _ _ => apply wrap_range; lia
      | 0 => done
      | _ => apply pack_word; auto with word
      end
  end.

(** ** State updates *)

Lemma wf_set_gpr i v s : spu_wf s -> is_word 128 v -> spu_wf (set_gpr_at i v s).
Proof. intros [Hg Hl Hp Hs] Hv. split; [|done..]. intros r. cbn. unfold upd. by destruct (r =? i). Qed.

Lemma wf_set_pc v s : spu_wf s -> is_pc v -> spu_wf (set_pc v s).
Proof. by intros [Hg Hl Hp Hs] Hv. Qed.

Lemma wf_set_allow v s : spu_wf s -> spu_wf (set_allow_interrupts v s).
Proof. by intros [Hg Hl Hp Hs]. Qed.

Lemma wf_set_state v s : spu_wf s -> spu_wf (set_state v s).
Proof. by intros [Hg Hl Hp Hs]. Qed.

Lemma wf_set_ie v s : spu_wf s -> spu_wf (set_interrupts_enabled v s).
Proof. by intros [Hg Hl Hp Hs]. Qed.

Lemma wf_set_srr0 v s : spu_wf s -> is_pc v -> spu_wf (set_srr0 v s).
Proof. by intros [Hg Hl Hp Hs] Hv. Qed.

Lemma wf_store s addr v : spu_wf s -> spu_wf (set_ls (ls_write128 (ls s) addr v) s).
Proof.
  intros [Hg Hl Hp Hs]. split; [done| |done..]. intros a. cbn. unfold ls_write128.
  destruct (_ && _); [auto with word|done].
Qed.

Lemma is_pc_masked x : is_pc (Z.land x 0x3fffc).
Proof.
  assert (forall i, 0 <= i -> Z.testbit 0x3fffc i = (2 <=? i) && (i <? 18)) as Hb.
  { intros i Hi. change 0x3fffc with (Z.shiftl (Z.ones 16) 2). rewrite testbit_shiftl by lia.
    destruct (Z.leb_spec 2 i); [|done]. destruct (Z.ltb_spec i 18); [by rewrite Z.ones_spec_low by lia|by rewrite Z.ones_spec_high by lia]. }
  split.
  - apply is_word_testbit; [lia|apply Z.land_nonneg; by right|]. intros i Hi.
    rewrite Z.land_spec, Hb by lia. split_cmp.
  - rewrite <- (Z.land_ones _ 2) by lia. apply Z.bits_inj'. intros i Hi. rewrite !Z.land_spec, Hb, Z.bits_0 by lia.
    destruct (Z.lt_ge_cases i 2); [by rewrite (proj2 (Z.leb_gt 2 i)), andb_false_r by lia|].
    by rewrite (Z.ones_spec_high 2), andb_false_r by lia.
Qed.

Lemma is_pc_target p i : is_pc (spu_branch_target p i).
Proof. apply is_pc_masked. Qed.

Lemma is_pc_next p : is_pc p -> is_pc (u32 (p + 4)).
Proof.
  intros [[H0 H1] H4]. split; [by apply wrap_range|]. unfold wrap. rewrite Z.mod_mod_divide by (by exists (2 ^ 30)).
  rewrite <- Z.add_mod_idemp_l, H4 by lia. done.
Qed.

Create HintDb typed.
#[export] Hint Resolve wf_set_gpr wf_set_pc wf_set_allow wf_set_state wf_set_ie wf_set_srr0 wf_store is_pc_masked
  is_pc_target is_pc_next wf_pc wf_srr0 wf_ret wf_throw wf_halt : typed.
#[export] Hint Extern 5 (is_word 128 _) => vec_word : typed.

Lemma check_mfc_wf p s : spu_wf s -> is_pc p -> spu_wf (check_mfc_interrupts p s).2.
Proof.
  intros H Hp. unfold check_mfc_interrupts. cbv zeta. destruct (ch_count s), (interrupts_enabled s); cbn [snd]; auto with typed.
  apply wf_set_pc; [auto with typed|]. destruct (_ =? _); [apply is_pc_masked|done].
Qed.

Lemma interrupt_status_wf op s : spu_wf s -> outcome_wf (set_interrupt_status op s).
Proof.
  intros H. assert (forall s, spu_wf s -> outcome_wf
    (let '(taken, v) := check_mfc_interrupts (pc s) s in
     if taken && negb (Z.land (state v) cpu_flag_pending =? 0) then Call DoMfc v (fun _ v => Ret false v) else Ret false v)) as Hcheck.
  { intros s' Hs'. pose proof (check_mfc_wf (pc s') s' Hs' (wf_pc _ Hs')) as Hv.
    destruct (check_mfc_interrupts (pc s') s') as [b v]. cbn in Hv. destruct (_ && _); [|auto with typed].
    apply wf_call; auto with typed. }
  unfold set_interrupt_status. destruct (op_e op), (op_d op); [auto with typed|apply Hcheck..]; [| |done];
    unfold spu_set_interrupt_status; split_ifs; auto with typed.
Qed.
#[export] Hint Resolve interrupt_status_wf : typed.

(** ** Every handler *)

Lemma handler_typed t op h s : handlers t = Some h -> spu_wf s -> outcome_wf (h op s).
Proof.
  intros Hh Hs. destruct t; cbn in Hh; try discriminate Hh; injection Hh as <-;
    rewrite ?CLZ_closed, ?CGX_closed, ?BGX_closed, ?ROT_closed, ?ROTM_closed, ?ROTMA_closed, ?SHL_closed,
      ?ROTH_closed, ?ROTHM_closed, ?ROTMAH_closed, ?SHLH_closed, ?XSWD_closed;
    match goal with |- outcome_wf (?h op s) => try unfold h | |- _ => idtac end;
    rewrite ?sp_checked_va, ?insertion_closed; cbv zeta; unfold branch_indirect, store_to, load_from, to_rt, to_rt4 in *;
    split_ifs; first [solve [auto 6 with typed] | apply wf_call; [solve [auto 6 with typed]|]; intros a s' Hs'; split_ifs; solve [auto 8 with typed]].
Qed.

(** ** The interpreter *)

Definition final_state (r : run_result) : spu_thread :=
  match r with
  | OutOfFuel s | CheckState s | Halted s | Thrown _ s | FetchFault s | OutsideModel s => s
  end.

Section Typed.
Variable answer : spu_call -> spu_thread -> Z * spu_thread.
Hypothesis answer_wf : forall c s, spu_wf s -> spu_wf (answer c s).2.

Lemma resolve_typed o : outcome_wf o ->
  match resolve answer o with inl (_, s) => spu_wf s | inr r => spu_wf (final_state r) end.
Proof.
  induction 1 as [b s Hs|e s Hs|s Hs|c s k Hs Hk IH]; [done..|]. cbn [resolve].
  pose proof (answer_wf c s Hs) as Ha. destruct (answer c s) as [a s']. by apply IH.
Qed.

Lemma run_typed fuel s : spu_wf s -> spu_wf (final_state (old_interpreter answer fuel s)).
Proof.
  revert s. induction fuel as [|fuel IH]; intros s Hs; [done|]. cbn [old_interpreter].
  destruct (negb (state s =? 0)); [done|]. destruct (fetch s) as [op|]; [|done].
  unfold spu_step. destruct (handlers (decode op)) as [h|] eqn:Hh; cbn; [|done].
  pose proof (resolve_typed _ (handler_typed _ op h s Hh Hs)) as Hr.
  destruct (resolve answer (h op s)) as [[[] s']|r]; [|by apply IH|done].
  apply IH. auto with typed.
Qed.

End Typed.

(** C27: however long the SPU interpreter runs, over whatever instruction words
    the local storage holds, the thread it leaves is typed: 128-bit registers,
    bytes in the local storage, an aligned 32-bit program counter; provided the
    channel and DMA operations it calls leave typed threads. *)
Theorem interpreter_typed (answer : spu_call -> spu_thread -> Z * spu_thread) fuel s :
  (forall c s, spu_wf s -> spu_wf (answer c s).2) -> spu_wf s ->
  spu_wf (final_state (old_interpreter answer fuel s)).
Proof. intros Ha Hs. by apply run_typed. Qed.

(** [ila r3, 0x15; shlqbyi r4, r3, 4; br .] with channels that answer zero. *)
Definition demo_program : spu_thread :=
  set_ls (fun a => nth (Z.to_nat a) [0x42; 0x00; 0x0a; 0x83; 0x3f; 0xe1; 0x01; 0x84; 0x32; 0x00; 0x00; 0x00] 0) (set_gpr (fun _ => 0) demo_spu).

Lemma nth_byte l n : Forall (is_word 8) l -> is_word 8 (nth n l 0).
Proof. intros H. revert n. induction H as [|b l Hb Hl IH]; intros [|n]; done || apply IH. Defined.

Lemma demo_program_wf : spu_wf demo_program.
Proof. split; [done|intros a; apply nth_byte; by repeat constructor|done|done]. Defined.

Example demo_program_runs :
  let s := final_state (old_interpreter (fun _ s => (0, s)) 3 demo_program) in
  (gpr s 3, gpr s 4, pc s) = (0x15000000150000001500000015, 0x15000000150000001500000000, 8).
Proof. vm_compute. reflexivity. Qed.

Lemma interpreter_typed_witness :
  spu_wf (final_state (old_interpreter (fun _ s => (0, s)) 3 demo_program)).
Proof. apply (interpreter_typed (fun _ s => (0, s)) 3 demo_program); [done|exact demo_program_wf]. Defined.
