(* ===== verification/SpuBranchProofs.v ===== *)
(** * SPU: static branch targets

    [op_branch_targets] against the interpreter: an instruction that returns
    leaves the program counter at one of the addresses it lists, and a relative
    or absolute branch and its link register are where the architecture puts
    them. *)
From S2P Require Import Prelude V128 SpuState SpuInt SpuShift SpuCtl SpuDecode SpuStep SpuLoops SpuRegs SpuTypes.

(** Where the interpreter goes on after a handler returned. *)
Definition next_pc (advance : bool) (s : spu_thread) : Z := if advance then u32 (pc s + 4) else pc s.

Lemma target_next p : is_pc p -> p + 4 < SPU_LS_SIZE -> spu_branch_target (u32 (p + 4)) 0 = u32 (p + 4).
Proof.
  intros [[H0 H1] H4] Hls. unfold SPU_LS_SIZE in Hls. unfold spu_branch_target. rewrite Z.shiftl_0_l, Z.add_0_r, wrap_wrap.
  rewrite (wrap_small 32) by (unfold is_word; lia). change 0x3fffc with (Z.shiftl (Z.ones 16) 2).
  apply Z.bits_inj'. intros i Hi. rewrite Z.land_spec, testbit_shiftl by lia. destruct (Z.leb_spec 2 i).
  - destruct (Z.lt_ge_cases i 18); [by rewrite Z.ones_spec_low, andb_true_r by lia|].
    by rewrite (testbit_above 18 (p + 4)) by (unfold is_word; lia).
  - cbn [andb]. rewrite andb_false_r. symmetry. rewrite <- (Z.mod_pow2_bits_low (p + 4) 2 i) by lia.
    change (2 ^ 2) with 4. rewrite <- Z.add_mod_idemp_l, H4 by lia. apply Z.bits_0.
Qed.

(** What each instruction does to the program counter. *)
Lemma handler_pc t op h s b s' : handlers t = Some h -> h op s = Ret b s' -> itype.is_branch t = false ->
  pc s' = pc s.
Proof.
  intros Hh H Hb. destruct t; cbn in Hh; try discriminate Hh; try discriminate Hb; injection Hh as <-;
    rewrite ?CLZ_closed, ?CGX_closed, ?BGX_closed, ?ROT_closed, ?ROTM_closed, ?ROTMA_closed, ?SHL_closed,
      ?ROTH_closed, ?ROTHM_closed, ?ROTMAH_closed, ?SHLH_closed, ?XSWD_closed in H;
    match type of H with ?h op s = _ => try unfold h in H | _ => idtac end;
    rewrite ?sp_checked_va, ?insertion_closed in H; cbv zeta in H; unfold store_to, load_from, to_rt, to_rt4 in *;
    repeat match type of H with context [if ?c then _ else _] => destruct c end; try discriminate H;
    injection H as <- <-; done.
Qed.

Lemma target_wf p i : spu_branch_target p i <> umax.
Proof.
  assert (is_word 18 (spu_branch_target p i)) as [H0 H1]; [|unfold umax; lia].
  unfold spu_branch_target. rewrite Z.land_comm. apply land_word; [lia|done|apply (wrap_range 32); lia].
Qed.

(** A conditional or unconditional branch to a static target. *)
Lemma branch_taken t op h s b s' : handlers t = Some h -> h op s = Ret b s' ->
  match t with
  | itype.BR | itype.BRSL => b = false /\ pc s' = spu_branch_target (pc s) (op_i16 op)
  | itype.BRA | itype.BRASL => b = false /\ pc s' = spu_branch_target 0 (op_i16 op)
  | itype.BRZ | itype.BRNZ | itype.BRHZ | itype.BRHNZ =>
      (b = true /\ pc s' = pc s) \/ (b = false /\ pc s' = spu_branch_target (pc s) (op_i16 op))
  | _ => True
  end.
Proof.
  intros Hh H. destruct t; try done; cbn in Hh; injection Hh as <-;
    match type of H with ?h op s = _ => unfold h in H end; cbv zeta in H;
    repeat match type of H with context [if ?c then _ else _] => destruct c end;
    injection H as <- <-; (split; done) || (left; done) || (right; done).
Qed.

(** C29: [op_branch_targets] is sound for the interpreter: when it names targets,
    an instruction that returns goes on at one of them, the next instruction or
    the branch target.  (Instructions that are no branches and stop the
    interpreter where they are, and the end of the local storage, apart.) *)
Theorem branch_targets_sound op h s b s' t1 t2 :
  handlers (decode op) = Some h -> h op s = Ret b s' ->
  is_pc (pc s) -> pc s + 4 < SPU_LS_SIZE -> (b = false -> itype.is_branch (decode op) = true) ->
  op_branch_targets (pc s) op = (t1, t2) -> t1 <> umax ->
  next_pc b s' = t1 \/ (next_pc b s' = t2 /\ t2 <> umax).
Proof.
  intros Hh H Hpc Hls Hbr Ht Hu.
  destruct (itype.is_branch (decode op)) eqn:Hb.
  - pose proof (branch_taken _ _ _ _ _ _ Hh H) as Hp. unfold op_branch_targets in Ht.
    pose proof (target_wf (pc s) (op_i16 op)) as Hw1. pose proof (target_wf 0 (op_i16 op)) as Hw2.
    pose proof (target_next (pc s) Hpc Hls) as Hn.
    destruct (decode op); try discriminate Hb; cbn -[umax spu_branch_target] in Ht, Hp;
      repeat case_match; simplify_eq; unfold next_pc; try done;
      try (left; by destruct Hp as [-> ->]);
      destruct Hp as [[-> Hp]|[-> Hp]]; rewrite Hp;
      first [left; congruence | right; split; congruence | left; rewrite Hn; congruence | left; symmetry; by apply Z.eqb_eq].
  - pose proof (handler_pc _ _ _ _ _ _ Hh H Hb) as Hp. assert (b = true) as -> by (destruct b; [done|by discriminate (Hbr eq_refl)]).
    left. unfold next_pc. rewrite Hp, <- (target_next (pc s)) by done. unfold op_branch_targets in Ht.
    destruct (decode op); try discriminate Hb; cbn -[umax spu_branch_target] in Ht; by simplify_eq.
Qed.

(** [brnz r2, +8] in a thread whose register 2 is not zero. *)
Lemma branch_targets_sound_witness :
  let s := set_gpr_at 2 (from32r 1) demo_spu in
  next_pc false (set_pc 8 s) = 4 \/ (next_pc false (set_pc 8 s) = 8 /\ 8 <> umax).
Proof.
  intros s. assert (decode 0x21000102 = itype.BRNZ) as Hd by (vm_compute; reflexivity).
  assert (op_branch_targets (pc s) 0x21000102 = (4, 8)) as Ht by (vm_compute; reflexivity).
  assert (handlers (decode 0x21000102) = Some BRNZ) as Hh by (by rewrite Hd).
  assert (itype.is_branch (decode 0x21000102) = true) as Hb by (by rewrite Hd).
  assert (BRNZ 0x21000102 s = Ret false (set_pc 8 s)) as Hr.
  { unfold BRNZ. assert (slot (vt 0x21000102 s) = 1) as -> by reflexivity. reflexivity. }
  refine (branch_targets_sound 0x21000102 BRNZ s false (set_pc 8 s) 4 8 Hh Hr _ _ (fun _ => Hb) Ht _); [|reflexivity|done].
  split; [|reflexivity]. split; [by intros|reflexivity].
Defined.
