(* ===== verification/SpuAluProofs.v ===== *)
(** * SPU interpreter: integer arithmetic and comparisons

    Carry and borrow chains are exact, multiplications of halfwords give the
    products they name, comparisons the signed or unsigned order. *)
From S2P Require Import Prelude V128 SpuState SpuInt SpuShift SpuLoops SpuRegs SpuTypes.

(** What a handler leaves in the destination. *)
Definition rt_value (op : Z) (o : outcome) : Z := match o with Ret _ s => gpr s (op_rt op) | _ => 0 end.

Lemma rt_value_to_rt op v s : rt_value op (to_rt op v s) = v.
Proof. cbn. apply upd_eq. Qed.

(** ** Words with the sign bit flipped *)

Lemma lxor_top k x : 0 <= k -> is_word (k + 1) x -> Z.lxor x (2 ^ k) = if x <? 2 ^ k then x + 2 ^ k else x - 2 ^ k.
Proof.
  intros Hk [H0 H1]. rewrite Z.pow_add_r in H1 by lia. change (2 ^ 1) with 2 in H1.
  assert (forall y, 0 <= y < 2 ^ k -> Z.lxor y (2 ^ k) = y + 2 ^ k) as Hlow.
  { intros y Hy. symmetry. apply Z.add_nocarry_lxor. apply Z.bits_inj'. intros i Hi. rewrite Z.land_spec, Z.bits_0, Z.pow2_bits_eqb by lia.
    destruct (Z.eqb_spec k i) as [<-|]; [|apply andb_false_r]. by rewrite (testbit_above k) by (done || lia). }
  destruct (Z.ltb_spec x (2 ^ k)); [by apply Hlow|].
  replace x with ((x - 2 ^ k) + 2 ^ k) at 1 by lia. rewrite <- Hlow by lia.
  by rewrite Z.lxor_assoc, Z.lxor_nilpotent, Z.lxor_0_r.
Qed.

Lemma sext_flip w x : 0 < w -> is_word w x -> sext w (Z.lxor x (2 ^ (w - 1))) = x - 2 ^ (w - 1).
Proof.
  intros Hw Hx. rewrite lxor_top by (replace (w - 1 + 1) with w by lia; done || lia).
  assert (2 ^ w = 2 * 2 ^ (w - 1)) as E by (rewrite <- Z.pow_succ_r by lia; f_equal; lia). destruct Hx as [H0 H1].
  unfold sext, wrap. destruct (Z.ltb_spec x (2 ^ (w - 1))).
  - rewrite Z.mod_small by lia. rewrite (proj2 (Z.ltb_ge (x + 2 ^ (w - 1)) (2 ^ (w - 1)))) by lia. lia.
  - rewrite Z.mod_small by lia. by rewrite (proj2 (Z.ltb_lt (x - 2 ^ (w - 1)) (2 ^ (w - 1)))) by lia.
Qed.

Lemma lxor_not_sign x : is_word 32 x -> Z.lxor x 0x7fffffff = Z.lxor (bnot 32 x) (2 ^ 31).
Proof.
  intros Hx. apply (word_bits_eq 32).
  - apply lxor_word; [lia|done|done].
  - apply lxor_word; [lia|apply wrap_range; lia|done].
  - intros i Hi. change 0x7fffffff with (Z.ones 31). rewrite !Z.lxor_spec, testbit_bnot, Z.pow2_bits_eqb by lia.
    rewrite (proj2 (Z.ltb_lt i 32)) by lia. cbn [andb]. destruct (Z.eqb_spec 31 i) as [<-|].
    + rewrite Z.ones_spec_high by lia. by destruct (Z.testbit x 31).
    + rewrite Z.ones_spec_low by lia. by destruct (Z.testbit x i).
Qed.

Lemma ltb_sub x y k : (x - k <? y - k) = (x <? y).
Proof. destruct (Z.ltb_spec x y), (Z.ltb_spec (x - k) (y - k)); lia || done. Qed.

Lemma lane_gtu32 a b i : 0 <= i < 4 -> lane 32 (gv_gtu32 a b) i = mask_of 32 (lane 32 b i <? lane 32 a i).
Proof.
  intros Hi. unfold gv_gtu32, _mm_xor_si128. autorewrite with lanes. change (u32 (2 ^ 31)) with (2 ^ (32 - 1)).
  rewrite !sext_flip by (auto with word; lia). by rewrite ltb_sub.
Qed.

(** ** Carry and borrow chains *)

Lemma lane_BG op s i : 0 <= i < 4 ->
  lane 32 (rt_value op (BG op s)) i = Z.b2z (lane 32 (va op s) i <=? lane 32 (vb op s) i).
Proof.
  intros Hi. unfold BG. rewrite rt_value_to_rt. autorewrite with lanes. rewrite lane_gtu32 by done.
  destruct (Z.ltb_spec (lane 32 (vb op s) i) (lane 32 (va op s) i)), (Z.leb_spec (lane 32 (va op s) i) (lane 32 (vb op s) i)); lia || done.
Qed.

Lemma lane_CG op s i : 0 <= i < 4 ->
  lane 32 (rt_value op (CG op s)) i = Z.b2z (2 ^ 32 <=? lane 32 (va op s) i + lane 32 (vb op s) i).
Proof.
  intros Hi. unfold CG, _mm_xor_si128. rewrite rt_value_to_rt. autorewrite with lanes.
  change (u32 0x7fffffff) with 0x7fffffff. change (u32 0x80000000) with (2 ^ (32 - 1)).
  pose proof (lane_range 32 (va op s) i width32) as Ha. pose proof (lane_range 32 (vb op s) i width32) as Hb.
  set (a := lane 32 (va op s) i) in *. set (b := lane 32 (vb op s) i) in *.
  rewrite lxor_not_sign, !sext_flip by (done || apply wrap_range; lia).
  rewrite ltb_sub.
  assert (bnot 32 a = 2 ^ 32 - 1 - a) as -> by (unfold is_word in Ha; word_lia). unfold is_word in *.
  destruct (Z.ltb_spec (2 ^ 32 - 1 - a) b), (Z.leb_spec (2 ^ 32) (a + b)); lia || done.
Qed.

Lemma land_1 x : Z.land x 1 = x mod 2.
Proof. apply (Z.land_ones x 1). lia. Qed.

Lemma lane_ADDX op s i : 0 <= i < 4 ->
  lane 32 (rt_value op (ADDX op s)) i = u32 (lane 32 (va op s) i + lane 32 (vb op s) i + lane 32 (vt op s) i mod 2).
Proof.
  intros Hi. unfold ADDX, gv_add32, v128_and, _mm_and_si128, from32p. rewrite rt_value_to_rt. autorewrite with lanes.
  change (u32 1) with 1. rewrite land_1. unfold wrap. by rewrite Z.add_mod_idemp_l by done.
Qed.

Lemma lane_SFX op s i : 0 <= i < 4 ->
  lane 32 (rt_value op (SFX op s)) i = u32 (lane 32 (vb op s) i - lane 32 (va op s) i - (1 - lane 32 (vt op s) i mod 2)).
Proof.
  intros Hi. unfold SFX, gv_sub32, gv_andn, _mm_andnot_si128, from32p. rewrite rt_value_to_rt. autorewrite with lanes.
  change (u32 1) with 1. rewrite land_1. pose proof (lane_range 32 (vt op s) i width32) as Hc.
  assert (bnot 32 (lane 32 (vt op s) i) mod 2 = 1 - lane 32 (vt op s) i mod 2) as -> by word_lia.
  unfold wrap. by rewrite Zminus_mod_idemp_l.
Qed.

Lemma lane_CGX op s i : 0 <= i < 4 ->
  lane 32 (rt_value op (CGX op s)) i = (lane 32 (va op s) i + lane 32 (vb op s) i + lane 32 (vt op s) i mod 2) / 2 ^ 32.
Proof.
  intros Hi. rewrite CGX_closed, rt_value_to_rt. autorewrite with lanes. rewrite land_1, Z.shiftr_div_pow2 by lia.
  pose proof (lane_range 32 (va op s) i width32) as Ha. pose proof (lane_range 32 (vb op s) i width32) as Hb.
  set (a := lane 32 (va op s) i) in *. set (b := lane 32 (vb op s) i) in *. set (c := lane 32 (vt op s) i) in *. clearbody a b c.
  word_lia.
Qed.

Lemma lane_BGX op s i : 0 <= i < 4 ->
  lane 32 (rt_value op (BGX op s)) i =
    Z.b2z (lane 32 (va op s) i + (1 - lane 32 (vt op s) i mod 2) <=? lane 32 (vb op s) i).
Proof.
  intros Hi. rewrite BGX_closed, rt_value_to_rt. autorewrite with lanes. rewrite land_1.
  pose proof (lane_range 32 (va op s) i width32) as Ha. pose proof (lane_range 32 (vb op s) i width32) as Hb.
  set (a := lane 32 (va op s) i) in *. set (b := lane 32 (vb op s) i) in *. set (c := lane 32 (vt op s) i) in *. clearbody a b c.
  rewrite (sext_small 64) by (unfold is_word in *; Z.div_mod_to_equations; lia).
  assert ((0 <=? b - a - (1 - c mod 2)) = (a + (1 - c mod 2) <=? b)) as ->.
  { destruct (Z.leb_spec 0 (b - a - (1 - c mod 2))), (Z.leb_spec (a + (1 - c mod 2)) b); lia || done. }
  apply wrap_small. by destruct (_ <=? b).
Qed.

(** The carry and borrow instructions are exact in every word: [a] and [cg]
    together hold the 33-bit sum, [addx] and [cgx] the sum with the carry in
    the old destination; [sf] and [bg] hold the difference and its inverted
    borrow, [sfx] and [bgx] take a borrow in. *)
Theorem carry_chains_exact op s i :
  0 <= i < 4 ->
  let a := lane 32 (va op s) i in
  let b := lane 32 (vb op s) i in
  let c := lane 32 (vt op s) i mod 2 in
  let result o := lane 32 (rt_value op o) i in
  result (A op s) + 2 ^ 32 * result (CG op s) = a + b /\
  result (ADDX op s) + 2 ^ 32 * result (CGX op s) = a + b + c /\
  result (SF op s) - 2 ^ 32 * (1 - result (BG op s)) = b - a /\
  result (SFX op s) - 2 ^ 32 * (1 - result (BGX op s)) = b - a - (1 - c).
Proof.
  intros Hi a b c result. subst result. cbv beta.
  assert (lane 32 (rt_value op (A op s)) i = u32 (a + b)) as ->.
  { unfold A, gv_add32. rewrite rt_value_to_rt. by autorewrite with lanes. }
  assert (lane 32 (rt_value op (SF op s)) i = u32 (b - a)) as ->.
  { unfold SF, gv_sub32. rewrite rt_value_to_rt. by autorewrite with lanes. }
  rewrite lane_CG, lane_ADDX, lane_CGX, lane_BG, lane_SFX, lane_BGX by done. fold a b c.
  pose proof (lane_range 32 (va op s) i width32) as Ha. pose proof (lane_range 32 (vb op s) i width32) as Hb. fold a in Ha. fold b in Hb.
  assert (0 <= c < 2) as Hc by (apply Z.mod_pos_bound; lia). clearbody a b c.
  split_and!; [destruct (Z.leb_spec (2 ^ 32) (a + b))| |destruct (Z.leb_spec a b)|destruct (Z.leb_spec (a + (1 - c)) b)]; cbn [Z.b2z]; word_lia.
Qed.

Lemma carry_chains_exact_witness :
  let s := set_gpr_at 4 (from32p 0xffffffff) (set_gpr_at 5 (from32p 2) demo_spu) in
  lane 32 (rt_value 0x08014203 (A 0x08014203 s)) 1 + 2 ^ 32 * lane 32 (rt_value 0x08014203 (CG 0x08014203 s)) 1 = 0xffffffff + 2.
Proof.
  intros s. assert (lane 32 (va 0x08014203 s) 1 = 0xffffffff) as Ha by reflexivity.
  assert (lane 32 (vb 0x08014203 s) 1 = 2) as Hb by reflexivity.
  destruct (carry_chains_exact 0x08014203 s 1 ltac:(lia)) as [H _]. rewrite H, Ha, Hb. reflexivity.
Defined.

(** ** Comparisons *)

Lemma lane_gtu16 a b i : 0 <= i < 8 -> lane 16 (gv_gtu16 a b) i = mask_of 16 (lane 16 b i <? lane 16 a i).
Proof.
  intros Hi. unfold gv_gtu16, mm_subs_epu, _mm_setzero_si128. autorewrite with lanes.
  pose proof (lane_range 16 a i width16) as Ha. pose proof (lane_range 16 b i width16) as Hb.
  set (x := lane 16 a i) in *. set (y := lane 16 b i) in *. clearbody x y. unfold is_word in *.
  rewrite (wrap_small 16) by (unfold is_word; lia).
  destruct (Z.eqb_spec (Z.max 0 (x - y)) 0), (Z.ltb_spec y x); lia || done.
Qed.

Lemma lane_gtu8 a b i : 0 <= i < 16 -> lane 8 (gv_gtu8 a b) i = mask_of 8 (lane 8 b i <? lane 8 a i).
Proof.
  intros Hi. unfold gv_gtu8, mm_min_epu, _mm_setzero_si128. autorewrite with lanes.
  pose proof (lane_range 8 a i width8) as Ha. pose proof (lane_range 8 b i width8) as Hb.
  set (x := lane 8 a i) in *. set (y := lane 8 b i) in *. clearbody x y. unfold is_word in *.
  rewrite (wrap_small 8) by (unfold is_word; lia).
  destruct (Z.eqb_spec x (Z.min x y)), (Z.ltb_spec y x); lia || done.
Qed.

(** The immediate comparisons flip the sign of a whole word whose parts all
    have it. *)
Lemma flipped_cmp w x y : 0 < w -> is_word w x ->
  (sext w (Z.lxor y (2 ^ (w - 1))) <? sext w (Z.lxor x (2 ^ (w - 1)))) = (wrap w y <? x).
Proof.
  intros Hw Hx. rewrite (sext_flip w x) by done.
  assert (sext w (Z.lxor y (2 ^ (w - 1))) = wrap w y - 2 ^ (w - 1)) as ->; [|apply ltb_sub].
  rewrite <- sext_flip by (done || apply wrap_range; lia). rewrite <- (sext_wrap w (Z.lxor y _)). f_equal.
  apply Z.bits_inj'. intros i Hi. rewrite testbit_wrap, !Z.lxor_spec, testbit_wrap by lia.
  destruct (Z.ltb_spec i w); [done|]. cbn. rewrite Z.pow2_bits_eqb by lia. split_cmp.
Qed.

(** Every comparison instruction fills an element with ones where the
    relation it names holds and with zeros elsewhere: signed for [cgt], unsigned
    for [clgt], equality for [ceq]; the word immediates compare with the
    sign-extended field, unsigned as its 32-bit pattern. *)
Theorem compare_exact op s i :
  let a w := lane w (va op s) i in
  let b w := lane w (vb op s) i in
  let result w o := lane w (rt_value op o) i in
  (0 <= i < 4 ->
     result 32 (CGT op s) = mask_of 32 (s32 (b 32) <? s32 (a 32)) /\
     result 32 (CLGT op s) = mask_of 32 (b 32 <? a 32) /\
     result 32 (CEQ op s) = mask_of 32 (a 32 =? b 32) /\
     result 32 (CGTI op s) = mask_of 32 (op_si10 op <? s32 (a 32)) /\
     result 32 (CLGTI op s) = mask_of 32 (u32 (op_si10 op) <? a 32) /\
     result 32 (CEQI op s) = mask_of 32 (a 32 =? u32 (op_si10 op))) /\
  (0 <= i < 8 ->
     result 16 (CGTH op s) = mask_of 16 (s16 (b 16) <? s16 (a 16)) /\
     result 16 (CLGTH op s) = mask_of 16 (b 16 <? a 16) /\
     result 16 (CEQH op s) = mask_of 16 (a 16 =? b 16) /\
     result 16 (CGTHI op s) = mask_of 16 (op_si10 op <? s16 (a 16)) /\
     result 16 (CLGTHI op s) = mask_of 16 (u16 (op_si10 op) <? a 16)) /\
  (0 <= i < 16 ->
     result 8 (CGTB op s) = mask_of 8 (s8 (b 8) <? s8 (a 8)) /\
     result 8 (CLGTB op s) = mask_of 8 (b 8 <? a 8) /\
     result 8 (CEQB op s) = mask_of 8 (a 8 =? b 8) /\
     result 8 (CLGTBI op s) = mask_of 8 (op_i8 op <? a 8)).
Proof.
  intros a b result. subst a b result. cbv beta.
  assert (- 2 ^ 9 <= op_si10 op < 2 ^ 9) as Hsi by (apply (sext_range 10); lia).
  assert (is_word 8 (op_i8 op)) as Hi8.
  { unfold op_i8, spu_bf. rewrite land_pow2m1 by lia. apply (wrap_range 8). lia. }
  split_and!; intros Hi;
    unfold CGT, CLGT, CEQ, CGTI, CLGTI, CEQI, CGTH, CLGTH, CEQH, CGTHI, CLGTHI, CGTB, CLGTB, CEQB, CLGTBI, _mm_xor_si128;
    rewrite !rt_value_to_rt; autorewrite with lanes; rewrite ?sext_wrap, ?lane_gtu32, ?lane_gtu16, ?lane_gtu8 by done;
    split_and!; try done.
  - by rewrite (sext_small 32) by lia.
  - change (u32 0x80000000) with (2 ^ (32 - 1)). change 0x80000000 with (2 ^ (32 - 1)).
    by rewrite flipped_cmp by (auto with word; lia).
  - by rewrite (sext_small 16) by lia.
  - assert (lane 16 (mm_set1 32 0x80008000) i = 2 ^ (16 - 1)) as ->.
    { assert (i = 0 \/ i = 1 \/ i = 2 \/ i = 3 \/ i = 4 \/ i = 5 \/ i = 6 \/ i = 7) as Hcase by lia.
      repeat destruct Hcase as [->|Hcase]; [reflexivity..|by rewrite Hcase]. }
    change 0x8000 with (2 ^ (16 - 1)). by rewrite flipped_cmp by (auto with word; lia).
  - assert (lane 8 (mm_set1 32 0x80808080) i = 2 ^ (8 - 1)) as ->.
    { assert (Forall (fun k => lane 8 (mm_set1 32 0x80808080) (Z.of_nat k) = 128) (seq 0 16)) as Hall by (repeat constructor).
      rewrite Forall_forall in Hall. rewrite <- (Z2Nat.id i) by lia. apply Hall. apply elem_of_seq. lia. }
    change 0x80 with (2 ^ (8 - 1)). by rewrite flipped_cmp, (wrap_small 8) by (auto with word; lia).
Qed.

Lemma compare_exact_witness :
  let s := set_gpr_at 4 (from32p 0xffffffff) (set_gpr_at 5 (from32p 2) demo_spu) in
  lane 32 (rt_value 0x48014203 (CGT 0x48014203 s)) 0 = 0 /\ lane 32 (rt_value 0x58014203 (CLGT 0x58014203 s)) 0 = 0xffffffff.
Proof.
  intros s. destruct (compare_exact 0x48014203 s 0) as [H _]. destruct (H ltac:(lia)) as (H1 & _).
  destruct (compare_exact 0x58014203 s 0) as [H' _]. destruct (H' ltac:(lia)) as (_ & H2 & _).
  rewrite H1, H2. split; reflexivity.
Defined.
