(* ===== verification/SpuMulProofs.v ===== *)
(** * SPU interpreter: halfword multiplications

    The processor multiplies 16-bit halves only; the interpreter builds each
    product from the host's lane instructions.  Each instruction gives the
    product it names, and the documented three-instruction sequence gives the
    32-bit product. *)
From S2P Require Import Prelude V128 SpuState SpuInt SpuLoops SpuRegs SpuTypes SpuAluProofs.

(** The halves of a word. *)
Definition hi16 (x : Z) : Z := x / 2 ^ 16.
Definition lo16 (x : Z) : Z := x mod 2 ^ 16.

Lemma hi16_word x : is_word 32 x -> is_word 16 (hi16 x).
Proof. intros Hx. unfold hi16. word_lia. Qed.

Lemma lo16_word x : is_word 16 (lo16 x).
Proof. apply (wrap_range 16). lia. Qed.

Lemma lane16_lo v i : 0 <= i -> lane 16 v (2 * i) = lo16 (lane 32 v i).
Proof. intros Hi. apply (lane_lo 16); auto with word. Qed.

Lemma lane16_hi v i : 0 <= i -> lane 16 v (2 * i + 1) = hi16 (lane 32 v i).
Proof. intros Hi. apply (lane_hi 16); auto with word. Qed.

(** A word by its halves. *)
Lemma lane32_halves v i : 0 <= i -> lane 32 v i = lane 16 v (2 * i + 1) * 2 ^ 16 + lane 16 v (2 * i).
Proof. intros Hi. rewrite lane16_lo, lane16_hi by done. unfold lo16, hi16. Z.div_mod_to_equations; lia. Qed.

Lemma shl16_32 x : u32 (Z.shiftl x 16) = lo16 x * 2 ^ 16.
Proof. rewrite Z.shiftl_mul_pow2 by lia. unfold lo16. word_lia. Qed.

Lemma land_ffff x : Z.land x 0xffff = lo16 x.
Proof. apply (Z.land_ones x 16). lia. Qed.

Lemma land_ffff0000 x : is_word 32 x -> Z.land x 0xffff0000 = hi16 x * 2 ^ 16.
Proof.
  intros Hx. apply Z.bits_inj'. intros i Hi. change 0xffff0000 with (Z.shiftl (Z.ones 16) 16). unfold hi16.
  rewrite <- Z.shiftr_div_pow2, <- Z.shiftl_mul_pow2, Z.land_spec, !testbit_shiftl by lia.
  destruct (Z.leb_spec 16 i); [|by rewrite andb_false_r]. rewrite Z.shiftr_spec, Z.sub_add by lia. cbn [andb].
  destruct (Z.lt_ge_cases i 32); [by rewrite Z.ones_spec_low, andb_true_r by lia|].
  by rewrite (testbit_above 32 x) by (done || lia).
Qed.

Lemma lor_halves h l : is_word 16 l -> Z.lor (h * 2 ^ 16) l = h * 2 ^ 16 + l.
Proof. intros Hl. by apply lor_concat. Qed.

Lemma mul_s16_mod x y : u16 (s16 x * s16 y) = u16 (x * y).
Proof.
  unfold wrap. rewrite (Z.mul_mod (s16 x)), (Z.mul_mod x) by done.
  change (s16 x mod 2 ^ 16) with (u16 (s16 x)). change (s16 y mod 2 ^ 16) with (u16 (s16 y)). by rewrite !wrap_sext by lia.
Qed.

Lemma mul16_range x y : is_word 16 x -> is_word 16 y -> is_word 32 (x * y).
Proof. intros [? ?] [? ?]. split; nia. Qed.

(** The unsigned product from its two halves. *)
Lemma product_halves x y : is_word 16 x -> is_word 16 y ->
  u16 (Z.shiftr (x * y) 16) * 2 ^ 16 + u16 (x * y) = x * y.
Proof.
  intros Hx Hy. pose proof (mul16_range x y Hx Hy) as Hxy. set (p := x * y) in *. clearbody p.
  rewrite Z.shiftr_div_pow2 by lia. word_lia.
Qed.

Section Products.
Context (op : Z) (s : spu_thread) (i : Z) (Hi : 0 <= i < 4).

Let a := lane 32 (va op s) i.
Let b := lane 32 (vb op s) i.
Let Ha : is_word 32 a := lane_range 32 _ _ width32.
Let Hb : is_word 32 b := lane_range 32 _ _ width32.

Lemma lane_madd x y : lane 32 (_mm_madd_epi16 x y) i =
  u32 (s16 (lo16 (lane 32 x i)) * s16 (lo16 (lane 32 y i)) + s16 (hi16 (lane 32 x i)) * s16 (hi16 (lane 32 y i))).
Proof. unfold _mm_madd_epi16. autorewrite with lanes. by rewrite !lane16_lo, !lane16_hi by lia. Qed.

Lemma lo16_mullo x y : lo16 (lane 32 (_mm_mullo_epi16 x y) i) = u16 (lo16 (lane 32 x i) * lo16 (lane 32 y i)).
Proof.
  rewrite <- lane16_lo by lia. unfold _mm_mullo_epi16. autorewrite with lanes. rewrite mul_s16_mod. by rewrite !lane16_lo by lia.
Qed.

Lemma hi16_mullo x y : hi16 (lane 32 (_mm_mullo_epi16 x y) i) = u16 (hi16 (lane 32 x i) * hi16 (lane 32 y i)).
Proof.
  rewrite <- lane16_hi by lia. unfold _mm_mullo_epi16. autorewrite with lanes. rewrite mul_s16_mod. by rewrite !lane16_hi by lia.
Qed.

Lemma lo16_mulhi x y : lo16 (lane 32 (_mm_mulhi_epu16 x y) i) = u16 (Z.shiftr (lo16 (lane 32 x i) * lo16 (lane 32 y i)) 16).
Proof. rewrite <- lane16_lo by lia. unfold _mm_mulhi_epu16. autorewrite with lanes. by rewrite !lane16_lo by lia. Qed.

Lemma hi16_mulhi x y : hi16 (lane 32 (_mm_mulhi_epu16 x y) i) = u16 (Z.shiftr (hi16 (lane 32 x i) * hi16 (lane 32 y i)) 16).
Proof. rewrite <- lane16_hi by lia. unfold _mm_mulhi_epu16. autorewrite with lanes. by rewrite !lane16_hi by lia. Qed.

Lemma lane_MPYU : lane 32 (rt_value op (MPYU op s)) i = lo16 a * lo16 b.
Proof.
  unfold MPYU, _mm_or_si128, _mm_and_si128. rewrite rt_value_to_rt. autorewrite with lanes.
  change (u32 0xffff) with 0xffff. rewrite land_ffff, shl16_32, lo16_mulhi, lo16_mullo. fold a b.
  rewrite lor_halves by (apply wrap_range; lia). apply product_halves; apply lo16_word.
Qed.

Lemma lane_MPYHHU : lane 32 (rt_value op (MPYHHU op s)) i = hi16 a * hi16 b.
Proof.
  unfold MPYHHU, _mm_or_si128, _mm_and_si128. rewrite rt_value_to_rt. autorewrite with lanes.
  change (u32 0xffff0000) with 0xffff0000. rewrite land_ffff0000 by (auto with word). rewrite Z.lor_comm, Z.shiftr_div_pow2 by lia.
  change (lane 32 (_mm_mullo_epi16 (va op s) (vb op s)) i / 2 ^ 16) with (hi16 (lane 32 (_mm_mullo_epi16 (va op s) (vb op s)) i)).
  rewrite hi16_mulhi, hi16_mullo. fold a b. rewrite lor_halves by (apply wrap_range; lia).
  apply product_halves; by apply hi16_word.
Qed.

Lemma lane_MPYH : lane 32 (rt_value op (MPYH op s)) i = lo16 (hi16 a * lo16 b) * 2 ^ 16.
Proof.
  unfold MPYH. rewrite rt_value_to_rt. autorewrite with lanes. rewrite shl16_32, lo16_mullo. autorewrite with lanes.
  rewrite Z.shiftr_div_pow2 by lia. fold a b. change (a / 2 ^ 16) with (hi16 a).
  replace (lo16 (hi16 a)) with (hi16 a) by (symmetry; apply Z.mod_small, hi16_word, Ha). done.
Qed.

Lemma lane_MPY : lane 32 (rt_value op (MPY op s)) i = u32 (s16 (lo16 a) * s16 (lo16 b)).
Proof.
  unfold MPY, _mm_and_si128. rewrite rt_value_to_rt, lane_madd. autorewrite with lanes. change (u32 0xffff) with 0xffff.
  rewrite !land_ffff. fold a b. replace (lo16 (lo16 a)) with (lo16 a) by (symmetry; apply Zmod_mod).
  replace (lo16 (lo16 b)) with (lo16 b) by (symmetry; apply Zmod_mod).
  assert (forall x, hi16 (lo16 x) = 0) as Hz by (intros x; apply Z.div_small, lo16_word). rewrite !Hz. by rewrite Z.add_0_r.
Qed.

Lemma lane_MPYHH : lane 32 (rt_value op (MPYHH op s)) i = u32 (s16 (hi16 a) * s16 (hi16 b)).
Proof.
  unfold MPYHH. rewrite rt_value_to_rt, lane_madd. autorewrite with lanes. rewrite !Z.shiftr_div_pow2 by lia. fold a b.
  change (a / 2 ^ 16) with (hi16 a). change (b / 2 ^ 16) with (hi16 b).
  assert (forall x, is_word 32 x -> lo16 (hi16 x) = hi16 x) as Hlo by (intros x Hx; by apply Z.mod_small, hi16_word).
  assert (forall x, is_word 32 x -> hi16 (hi16 x) = 0) as Hz by (intros x Hx; by apply Z.div_small, hi16_word).
  rewrite !Hlo, !Hz by done. by rewrite Z.add_0_r.
Qed.

Lemma lane_MPYS : lane 32 (rt_value op (MPYS op s)) i = u32 (Z.shiftr (s16 (lo16 a) * s16 (lo16 b)) 16).
Proof.
  unfold MPYS. rewrite rt_value_to_rt. autorewrite with lanes. rewrite shl16_32, <- lane16_lo by lia.
  unfold _mm_mulhi_epi16. autorewrite with lanes. rewrite !lane16_lo by lia. fold a b.
  set (p := s16 (lo16 a) * s16 (lo16 b)).
  assert (- 2 ^ 15 <= Z.shiftr p 16 < 2 ^ 15) as Hp.
  { pose proof (sext_range 16 (lo16 a) ltac:(lia)) as H1. pose proof (sext_range 16 (lo16 b) ltac:(lia)) as H2.
    rewrite Z.shiftr_div_pow2 by lia. subst p. set (x := s16 (lo16 a)) in *. set (y := s16 (lo16 b)) in *. clearbody x y.
    change (- 2 ^ (16 - 1)) with (-32768) in *. change (2 ^ (16 - 1)) with 32768 in *.
    assert (- 2 ^ 30 <= x * y <= 2 ^ 30) by nia. Z.div_mod_to_equations; lia. }
  clearbody p. set (q := Z.shiftr p 16) in *. clearbody q. f_equal. rewrite Z.shiftr_div_pow2 by lia. word_lia.
Qed.

Lemma lane_MPYI : lane 32 (rt_value op (MPYI op s)) i = u32 (s16 (lo16 a) * op_si10 op).
Proof.
  assert (- 2 ^ 9 <= op_si10 op < 2 ^ 9) as Hsi by (apply (sext_range 10); lia).
  unfold MPYI. rewrite rt_value_to_rt, lane_madd. autorewrite with lanes. fold a. rewrite land_ffff.
  rewrite (wrap_small 32 (lo16 (op_si10 op))) by (pose proof (lo16_word (op_si10 op)) as [? ?]; split; lia).
  assert (hi16 (lo16 (op_si10 op)) = 0) as -> by apply Z.div_small, lo16_word. rewrite Z.mul_0_r, Z.add_0_r.
  f_equal. f_equal. change (lo16 (lo16 (op_si10 op))) with (u16 (u16 (op_si10 op))). rewrite !sext_wrap. apply sext_small; lia.
Qed.

End Products.

(** The halfword multiplications are exact in every word: [mpy], [mpyhh] and
    [mpyi] give the signed product of the low or high halves or of the low half
    and the immediate, [mpys] its high half sign-extended, [mpyu] and [mpyhhu]
    the unsigned 32-bit product; and [mpyh a b + mpyh b a + mpyu a b] is the
    product of the two whole words modulo 2^32. *)
Theorem multiply_exact op op' s i :
  0 <= i < 4 -> va op' s = vb op s -> vb op' s = va op s ->
  let a := lane 32 (va op s) i in
  let b := lane 32 (vb op s) i in
  let result op o := lane 32 (rt_value op o) i in
  result op (MPY op s) = u32 (s16 (lo16 a) * s16 (lo16 b)) /\
  result op (MPYHH op s) = u32 (s16 (hi16 a) * s16 (hi16 b)) /\
  result op (MPYI op s) = u32 (s16 (lo16 a) * op_si10 op) /\
  result op (MPYS op s) = u32 (Z.shiftr (s16 (lo16 a) * s16 (lo16 b)) 16) /\
  result op (MPYU op s) = lo16 a * lo16 b /\
  result op (MPYHHU op s) = hi16 a * hi16 b /\
  u32 (result op (MPYH op s) + result op' (MPYH op' s) + result op (MPYU op s)) = u32 (a * b).
Proof.
  intros Hi Ha Hb a b result. subst result. cbv beta.
  rewrite lane_MPY, lane_MPYHH, lane_MPYI, lane_MPYS, lane_MPYU, lane_MPYHHU, !lane_MPYH by done.
  rewrite Ha, Hb. fold a b. split_and!; try done.
  assert (a = hi16 a * 2 ^ 16 + lo16 a) as Ea by (unfold hi16, lo16; Z.div_mod_to_equations; lia).
  assert (b = hi16 b * 2 ^ 16 + lo16 b) as Eb by (unfold hi16, lo16; Z.div_mod_to_equations; lia).
  set (h := hi16 a) in *. set (l := lo16 a) in *. set (k := hi16 b) in *. set (m := lo16 b) in *.
  rewrite Ea, Eb. unfold wrap, lo16.
  pose proof (Z.div_mod (h * m) (2 ^ 16) ltac:(done)) as D1. pose proof (Z.div_mod (k * l) (2 ^ 16) ltac:(done)) as D2.
  replace ((h * 2 ^ 16 + l) * (k * 2 ^ 16 + m)) with
    ((h * m) mod 2 ^ 16 * 2 ^ 16 + (k * l) mod 2 ^ 16 * 2 ^ 16 + l * m + (h * k + (h * m) / 2 ^ 16 + (k * l) / 2 ^ 16) * 2 ^ 32).
  - by rewrite Z.mod_add.
  - change (2 ^ 32) with (2 ^ 16 * 2 ^ 16). nia.
Qed.

(** [mpyu r3, r4, r5] and its swapped form [mpyu r3, r5, r4]. *)
Lemma multiply_exact_witness :
  let s := set_gpr_at 4 (from32p 0x12345678) (set_gpr_at 5 (from32p 0x9abcdef0) demo_spu) in
  u32 (lane 32 (rt_value 0x78a14203 (MPYH 0x78a14203 s)) 2 + lane 32 (rt_value 0x78a10283 (MPYH 0x78a10283 s)) 2 +
       lane 32 (rt_value 0x78a14203 (MPYU 0x78a14203 s)) 2) = u32 (0x12345678 * 0x9abcdef0).
Proof.
  intros s. destruct (multiply_exact 0x78a14203 0x78a10283 s 2 ltac:(lia) eq_refl eq_refl) as (_ & _ & _ & _ & _ & _ & H).
  rewrite H. reflexivity.
Defined.
