(* ===== verification/SpuShuffleProofs.v ===== *)
(** * SPU interpreter: shuffles, insertion controls and local storage

    [SHUFB] selects bytes as the architecture defines it, the insertion
    controls of [CBD], [CHD], [CWD] and [CDD] make it insert one element, and
    with the quadword loads and stores around it the sequence stores a scalar.
    Bytes are numbered from the most significant one, as in memory. *)
From S2P Require Import Prelude V128 SpuState SpuInt SpuShift SpuCtl SpuLoops SpuRegs SpuTypes.

Definition be_byte (v k : Z) : Z := lane 8 v (15 - k).

(** Facts about one byte are checked on all of them. *)
Lemma all_bytes (P : Z -> bool) : forallb P (seqZ 0 256) = true -> forall c, is_word 8 c -> P c = true.
Proof. intros H c Hc. rewrite forallb_forall in H. apply H, list_elem_of_In, elem_of_seqZ. unfold is_word in Hc. lia. Qed.

Lemma all_below (n : Z) (P : Z -> bool) : forallb P (seqZ 0 n) = true -> forall c, 0 <= c < n -> P c = true.
Proof. intros H c Hc. rewrite forallb_forall in H. apply H, list_elem_of_In, elem_of_seqZ. lia. Qed.

(** ** [SHUFB] *)

(** The byte a control byte [c] selects from two vectors. *)
Definition shuffle_byte (a b c : Z) : Z :=
  if c <? 0x80 then (let n := c mod 32 in if n <? 16 then be_byte a n else be_byte b (n - 16))
  else if c <? 0xc0 then 0
  else if c <? 0xe0 then 0xff
  else 0x80.

Definition rt4_value (op : Z) (o : outcome) : Z := match o with Ret _ s => gpr s (op_rt4 op) | _ => 0 end.

Lemma shufb_control c : is_word 8 c ->
  Z.land (bnot 8 c) 0x1f = 31 - c mod 32 /\ (s8 c <? 0) = (0x80 <=? c) /\
  (Z.land c 0xc0 =? 0xc0) = (0xc0 <=? c) /\ (Z.land c 0xe0 =? 0xc0) = ((0xc0 <=? c) && (c <? 0xe0)).
Proof.
  intros Hc. pose proof (all_bytes (fun c => (Z.land (bnot 8 c) 0x1f =? 31 - c mod 32) && eqb (s8 c <? 0) (0x80 <=? c) &&
    eqb (Z.land c 0xc0 =? 0xc0) (0xc0 <=? c) && eqb (Z.land c 0xe0 =? 0xc0) ((0xc0 <=? c) && (c <? 0xe0)))
    ltac:(vm_compute; reflexivity) c Hc) as H. cbv beta in H.
  rewrite !andb_true_iff, !eqb_true_iff, Z.eqb_eq in H. tauto.
Qed.

Lemma lane_shufb op s i : 0 <= i < 16 ->
  lane 8 (rt4_value op (SHUFB op s)) i = shuffle_byte (va op s) (vb op s) (lane 8 (vc op s) i).
Proof.
  intros Hi. unfold SHUFB, to_rt4, rt4_value, _mm_or_si128, _mm_andnot_si128, _mm_and_si128, mm_avg_epu.
  cbn [gpr set_gpr_at set_gpr]. rewrite upd_eq. autorewrite with lanes.
  change (u8 0xc0) with 0xc0. change (u8 0xe0) with 0xe0. change (u8 0x1f) with 0x1f. change (s8 _mm_setzero_si128) with 0.
  replace (lane 8 _mm_setzero_si128 i) with 0 by (symmetry; by apply lane_0; auto with word). change (s8 0) with 0.
  pose proof (lane_range 8 (vc op s) i width8) as Hc. set (c := lane 8 (vc op s) i) in *. clearbody c.
  destruct (shufb_control c Hc) as (-> & -> & -> & ->). unfold is_word in Hc. unfold shuffle_byte, be_byte.
  pose proof (Z.mod_pos_bound c 32 ltac:(lia)) as Hm.
  destruct (Z.leb_spec 0x80 c).
  - rewrite (proj2 (Z.ltb_ge c 0x80)) by lia. change (bnot 8 (mask_of 8 true)) with 0. rewrite Z.land_0_l, Z.lor_0_l.
    destruct (Z.leb_spec 0xc0 c), (Z.ltb_spec c 0xe0), (Z.ltb_spec c 0xc0); try lia; reflexivity.
  - rewrite (proj2 (Z.ltb_lt c 0x80)), (proj2 (Z.leb_gt 0xc0 c)) by lia. cbn [andb].
    change (bnot 8 (mask_of 8 false)) with (Z.ones 8). change (u8 ((mask_of 8 false + mask_of 8 false + 1) / 2)) with 0.
    rewrite Z.lor_0_r, Z.land_comm, Z.land_ones by lia. change (?x mod 2 ^ 8) with (u8 x). rewrite wrap_wrap.
    destruct (Z.ltb_spec (31 - c mod 32) 16), (Z.ltb_spec (c mod 32) 16); try lia; rewrite lane_wrap by (auto with word); f_equal; lia.
Qed.

(** ** Insertion controls *)

(** Control byte [k] for inserting [n] bytes at the address whose low bits are
    [p]: the bytes of the preferred slot there, the second operand elsewhere. *)
Definition insert_byte (n p k : Z) : Z :=
  let k0 := p - p mod n in
  if (k0 <=? k) && (k <? k0 + n) then (if n <? 4 then 4 - n else 0) + (k - k0) else 16 + k.

Definition identity_control : Z := from64 0x18191A1B1C1D1E1F 0x1011121314151617.

Lemma control_bytes p k : 0 <= p < 16 -> 0 <= k < 16 ->
  be_byte (set_lane 8 identity_control (Z.land (15 - p) 0xf) 0x03) k = insert_byte 1 p k /\
  be_byte (set_lane 16 identity_control (Z.shiftr (Z.land (15 - p) 0xe) 1) 0x0203) k = insert_byte 2 p k /\
  be_byte (set_lane 32 identity_control (Z.shiftr (Z.land (15 - p) 0xc) 2) 0x00010203) k = insert_byte 4 p k /\
  be_byte (set_lane 64 identity_control (Z.shiftr (Z.land (15 - p) 0x8) 3) 0x0001020304050607) k = insert_byte 8 p k.
Proof.
  intros Hp Hk. pose proof (all_below 16 (fun p => forallb (fun k =>
    (be_byte (set_lane 8 identity_control (Z.land (15 - p) 0xf) 0x03) k =? insert_byte 1 p k) &&
    (be_byte (set_lane 16 identity_control (Z.shiftr (Z.land (15 - p) 0xe) 1) 0x0203) k =? insert_byte 2 p k) &&
    (be_byte (set_lane 32 identity_control (Z.shiftr (Z.land (15 - p) 0xc) 2) 0x00010203) k =? insert_byte 4 p k) &&
    (be_byte (set_lane 64 identity_control (Z.shiftr (Z.land (15 - p) 0x8) 3) 0x0001020304050607) k =? insert_byte 8 p k)) (seqZ 0 16))
    ltac:(vm_compute; reflexivity) p Hp) as H. cbv beta in H.
  rewrite forallb_forall in H. specialize (H k). rewrite !andb_true_iff, !Z.eqb_eq in H.
  destruct H as [[[? ?] ?] ?]; [|tauto]. apply list_elem_of_In, elem_of_seqZ. lia.
Qed.

Lemma land_bnot_low y c : 0 <= c < 16 -> Z.land (bnot 32 y) c = Z.land (15 - y mod 16) c.
Proof.
  intros Hc. assert (15 - y mod 16 = bnot 4 y) as ->.
  { unfold bnot, wrap, Z.lnot. change (2 ^ 4) with 16. Z.div_mod_to_equations; lia. }
  apply Z.bits_inj'. intros i Hi. rewrite !Z.land_spec, !testbit_bnot by lia.
  destruct (Z.lt_ge_cases i 4); [by split_cmp|]. rewrite (testbit_above 4 c) by (done || lia). by rewrite !andb_false_r.
Qed.

(** The handlers by size, and the control they leave when the register is not a
    misaligned stack pointer. *)
Definition insertion (n : Z) : Z -> spu_thread -> outcome :=
  if n =? 1 then CBD else if n =? 2 then CHD else if n =? 4 then CWD else CDD.

Definition control_value (op : Z) (s : spu_thread) (n : Z) : Z :=
  let t c k := Z.shiftr (Z.land (bnot 32 (u32 (op_i7 op + slot (va op s)))) c) k in
  if n =? 1 then set_lane 8 identity_control (t 0xf 0) 0x03
  else if n =? 2 then set_lane 16 identity_control (t 0xe 1) 0x0203
  else if n =? 4 then set_lane 32 identity_control (t 0xc 2) 0x00010203
  else set_lane 64 identity_control (t 0x8 3) 0x0001020304050607.

Definition element_size (n : Z) : Prop := n = 1 \/ n = 2 \/ n = 4 \/ n = 8.

Lemma insertion_value op s n : element_size n -> (op_ra op = 1 -> slot (va op s) mod 16 = 0) ->
  insertion n op s = to_rt op (control_value op s n) s.
Proof.
  intros Hn Hsp. assert (forall o, sp_checked op s o = o) as Hc.
  { intros o. rewrite sp_checked_va. destruct (Z.eqb_spec (op_ra op) 1) as [H1|]; [|done]. specialize (Hsp H1).
    change (Z.land (slot (va op s)) 15) with (Z.land (slot (va op s)) (Z.ones 4)). rewrite Z.land_ones by lia.
    change (2 ^ 4) with 16. by rewrite Hsp. }
  unfold control_value. destruct Hn as [->|[->|[->| ->]]]; cbv [insertion Z.eqb Pos.eqb];
    [unfold CBD|unfold CHD|unfold CWD|unfold CDD]; rewrite Hc, insertion_closed; done.
Qed.

Lemma control_value_bytes op s n k : element_size n -> 0 <= k < 16 ->
  be_byte (control_value op s n) k = insert_byte n ((op_i7 op + slot (va op s)) mod 16) k.
Proof.
  intros Hn Hk. set (y := op_i7 op + slot (va op s)). pose proof (Z.mod_pos_bound y 16 ltac:(lia)) as Hp.
  destruct (control_bytes (y mod 16) k Hp Hk) as (H1 & H2 & H4 & H8).
  assert (forall c, 0 <= c < 16 -> Z.land (bnot 32 (u32 y)) c = Z.land (15 - y mod 16) c) as Hl.
  { intros c Hc. rewrite land_bnot_low by done. f_equal. f_equal. unfold wrap. change (2 ^ 32) with (2 ^ 28 * 16).
    Z.div_mod_to_equations; lia. }
  unfold control_value. fold y. destruct Hn as [->|[->|[->| ->]]]; cbv [Z.eqb Pos.eqb]; rewrite Hl by lia; try done.
Qed.

(** Control bytes of an insertion select what they say. *)
Lemma shuffle_insert a b n p k : element_size n -> 0 <= p < 16 -> 0 <= k < 16 ->
  shuffle_byte a b (insert_byte n p k) =
    let k0 := p - p mod n in
    if (k0 <=? k) && (k <? k0 + n) then be_byte a ((if n <? 4 then 4 - n else 0) + (k - k0)) else be_byte b k.
Proof.
  intros Hn Hp Hk. unfold insert_byte. cbv zeta. set (k0 := p - p mod n). destruct ((k0 <=? k) && (k <? k0 + n)) eqn:Hin.
  - apply andb_true_iff in Hin as [H1%Z.leb_le H2%Z.ltb_lt]. unfold shuffle_byte. set (c := _ + _).
    assert (0 <= c < 16) by (subst c; destruct Hn as [->|[->|[->| ->]]]; cbn; lia).
    rewrite (proj2 (Z.ltb_lt c 0x80)), (Z.mod_small c) by lia. cbv zeta. by rewrite (proj2 (Z.ltb_lt c 16)) by lia.
  - unfold shuffle_byte. rewrite (proj2 (Z.ltb_lt (16 + k) 0x80)), (Z.mod_small (16 + k)) by lia. cbv zeta.
    rewrite (proj2 (Z.ltb_ge (16 + k) 16)) by lia. f_equal. lia.
Qed.

(** ** Local storage *)

Lemma be_byte_read m a k : (forall x, is_word 8 (m x)) -> 0 <= k < 16 -> be_byte (ls_read128 m a) k = m (a mod SPU_LS_SIZE + k).
Proof.
  intros Hm Hk. unfold be_byte, ls_read128. rewrite lane_pack' by (auto with word; lia).
  rewrite wrap_small by apply Hm. f_equal. lia.
Qed.

Lemma ls_write_inside m a v k : 0 <= k < 16 -> ls_write128 m a v (a mod SPU_LS_SIZE + k) = be_byte v k.
Proof.
  intros Hk. unfold ls_write128. rewrite (proj2 (Z.leb_le _ _)), (proj2 (Z.ltb_lt _ _)) by lia. cbn [andb].
  unfold be_byte. f_equal. lia.
Qed.

Lemma ls_write_outside m a v x : x < a mod SPU_LS_SIZE \/ a mod SPU_LS_SIZE + 16 <= x -> ls_write128 m a v x = m x.
Proof.
  intros Hx. unfold ls_write128. destruct (Z.leb_spec (a mod SPU_LS_SIZE) x), (Z.ltb_spec x (a mod SPU_LS_SIZE + 16)); lia || done.
Qed.

Lemma ls_write_read m a v : is_word 128 v -> ls_read128 (ls_write128 m a v) a = v.
Proof.
  intros Hv. apply (lanes_eq 8); [auto with word|apply pack_word; auto with word|done|]. intros i Hi.
  change (128 / 8) with 16 in Hi. unfold ls_read128. rewrite lane_pack' by (auto with word; lia).
  rewrite ls_write_inside by lia. unfold be_byte. replace (15 - (15 - i)) with i by lia. apply lane_wrap. auto with word.
Qed.

Lemma quad_address y : Z.land y 0x3fff0 = y mod 2 ^ 18 - y mod 16.
Proof.
  transitivity ((y / 16) mod 2 ^ 14 * 2 ^ 4).
  - rewrite <- Z.shiftl_mul_pow2 by lia. change (y / 16) with (y / 2 ^ 4). rewrite <- Z.shiftr_div_pow2 by lia.
    apply Z.bits_inj'. intros i Hi. change 0x3fff0 with (Z.shiftl (Z.ones 14) 4).
    rewrite Z.land_spec, !testbit_shiftl by lia. destruct (Z.leb_spec 4 i); [|by rewrite andb_false_r]. cbn [andb].
    rewrite Z.testbit_mod_pow2, Z.shiftr_spec, Z.sub_add by lia.
    destruct (Z.ltb_spec (i - 4) 14); [by rewrite Z.ones_spec_low, andb_true_r by lia|by rewrite Z.ones_spec_high, andb_false_r by lia].
  - Z.div_mod_to_equations; lia.
Qed.

(** ** The scalar store *)

(** [lqd q, d(a); c?d m, 0(a); shufb r, x, q, m; stqd r, d(a)] *)
Record scalar_store (a x d lq cx sh st : Z) : Prop := ScalarStore {
  ss_lq : op_ra lq = a /\ op_si10 lq = d;
  ss_cx : op_ra cx = a /\ op_i7 cx = 0;
  ss_sh : op_ra sh = x /\ op_rb sh = op_rt lq /\ op_rc sh = op_rt cx;
  ss_st : op_ra st = a /\ op_si10 st = d /\ op_rt st = op_rt4 sh;
  ss_q : op_rt lq <> a /\ op_rt lq <> x;
  ss_m : op_rt cx <> a /\ op_rt cx <> x /\ op_rt cx <> op_rt lq;
  ss_r : op_rt4 sh <> a }.

(** The thread after a handler that returned. *)
Definition returned (o : outcome) : option spu_thread := match o with Ret true s => Some s | _ => None end.

Definition run_scalar_store (n lq cx sh st : Z) (s : spu_thread) : option spu_thread :=
  s ← returned (LQD lq s); s ← returned (insertion n cx s); s ← returned (SHUFB sh s); returned (STQD st s).

Lemma returned_LQD op s :
  returned (LQD op s) =
    Some (set_gpr_at (op_rt op) (ls_read128 (ls s) (Z.land (s32 (slot (va op s)) + op_si10 op * 16) 0x3fff0)) s).
Proof. reflexivity. Qed.

Lemma returned_STQD op s :
  returned (STQD op s) =
    Some (set_ls (ls_write128 (ls s) (Z.land (s32 (slot (va op s)) + op_si10 op * 16) 0x3fff0) (vt op s)) s).
Proof. reflexivity. Qed.

Lemma returned_SHUFB op s : returned (SHUFB op s) = Some (set_gpr_at (op_rt4 op) (rt4_value op (SHUFB op s)) s).
Proof.
  unfold SHUFB, to_rt4. match goal with |- context [set_gpr_at _ ?v s] => generalize v end. intros v.
  unfold returned, rt4_value. cbn [gpr set_gpr_at set_gpr]. by rewrite upd_eq.
Qed.

Lemma run_scalar_store_steps n lq cx sh st s s1 s2 s3 s4 :
  returned (LQD lq s) = Some s1 -> returned (insertion n cx s1) = Some s2 -> returned (SHUFB sh s2) = Some s3 ->
  returned (STQD st s3) = Some s4 -> run_scalar_store n lq cx sh st s = Some s4.
Proof.
  unfold run_scalar_store. generalize LQD SHUFB STQD (insertion n). intros f1 f3 f4 f2 -> H2 H3 H4. cbn. rewrite H2. cbn.
  rewrite H3. cbn. exact H4.
Qed.

Lemma gpr_set_eq i v s : gpr (set_gpr_at i v s) i = v.
Proof. apply upd_eq. Qed.

Lemma gpr_set_ne i j v s : j <> i -> gpr (set_gpr_at i v s) j = gpr s j.
Proof. intros H. by apply upd_ne. Qed.

(** The quadword and the place in it that an address names. *)
Lemma element_place A d n : is_word 32 A -> element_size n ->
  let E := (A + 16 * d) mod SPU_LS_SIZE in
  let p := A mod 16 in
  let addr := Z.land (s32 A + d * 16) 0x3fff0 in
  addr mod SPU_LS_SIZE = addr /\ E - E mod n = addr + (p - p mod n) /\ 0 <= p - p mod n /\ p - p mod n + n <= 16.
Proof.
  intros Hw Hn. cbv zeta. rewrite quad_address.
  assert ((s32 A + d * 16) mod 2 ^ 18 = (A + 16 * d) mod SPU_LS_SIZE) as ->.
  { unfold SPU_LS_SIZE. change 0x40000 with (2 ^ 18). unfold sext. rewrite wrap_small by done.
    destruct (A <? 2 ^ (32 - 1)); [f_equal; lia|].
    replace (A - 2 ^ 32 + d * 16) with (A + 16 * d + - 2 ^ 14 * 2 ^ 18) by lia. by rewrite Z.mod_add. }
  assert ((s32 A + d * 16) mod 16 = A mod 16) as ->.
  { unfold sext. rewrite wrap_small by done. rewrite Z.mod_add by done.
    destruct (A <? 2 ^ (32 - 1)); [done|]. replace (A - 2 ^ 32) with (A + - 2 ^ 28 * 16) by lia. by rewrite Z.mod_add. }
  assert (((A + 16 * d) mod SPU_LS_SIZE) mod 16 = A mod 16) as Hlow.
  { unfold SPU_LS_SIZE. rewrite Z.mod_mod_divide by (by exists 0x4000). by rewrite Z.mul_comm, Z.mod_add. }
  assert (0 <= (A + 16 * d) mod SPU_LS_SIZE < SPU_LS_SIZE) as HE by (by apply Z.mod_pos_bound).
  set (E := (A + 16 * d) mod SPU_LS_SIZE) in *. rewrite <- Hlow. clearbody E. clear Hlow Hw. unfold SPU_LS_SIZE in *.
  split; [apply Z.mod_small; Z.div_mod_to_equations; lia|].
  destruct Hn as [->|[->|[->| ->]]]; Z.div_mod_to_equations; lia.
Qed.

(** C32: the documented sequence for storing a byte, halfword, word or doubleword
    through a pointer register - load the quadword, generate the insertion
    control, shuffle, store - completes and changes exactly the bytes of the
    element the address points into, to the element in the preferred slot of the
    stored register; the addresses wrap around the local storage. *)
Theorem scalar_store_exact n a x d lq cx sh st s :
  element_size n -> scalar_store a x d lq cx sh st -> spu_wf s ->
  (a = 1 -> slot (gpr s a) mod 16 = 0) ->
  exists s', run_scalar_store n lq cx sh st s = Some s' /\
    let address := (slot (gpr s a) + 16 * d) mod SPU_LS_SIZE in
    let first := address - address mod n in
    forall y, ls s' y =
      if (first <=? y) && (y <? first + n)
      then be_byte (gpr s x) ((if n <? 4 then 4 - n else 0) + (y - first)) else ls s y.
Proof.
  intros Hn [[Hlq1 Hlq2] [Hcx1 Hcx2] (Hsh1 & Hsh2 & Hsh3) (Hst1 & Hst2 & Hst3) [Hq1 Hq2] (Hm1 & Hm2 & Hm3) Hr] Hwf Hsp.
  destruct (element_place (slot (gpr s a)) d n) as (Hmod & Hfirst & Hk0 & Hk1); [by apply lane_range; auto with word|done|].
  pose proof (returned_LQD lq s) as E1. assert (va lq s = gpr s a) as Hva0 by (unfold va; by rewrite Hlq1). rewrite Hva0, Hlq2 in E1.
  remember (Z.land (s32 (slot (gpr s a)) + d * 16) 0x3fff0) as addr eqn:Haddr.
  set (s1 := set_gpr_at (op_rt lq) (ls_read128 (ls s) addr) s) in E1.
  assert (gpr s1 a = gpr s a) as Ha1 by (by apply gpr_set_ne; auto).
  assert (gpr s1 x = gpr s x) as Hx1 by (by apply gpr_set_ne; auto).
  assert (gpr s1 (op_rt lq) = ls_read128 (ls s) addr) as Hq by apply gpr_set_eq. assert (ls s1 = ls s) as Hl1 by done. clearbody s1.
  assert (slot (va cx s1) = slot (gpr s a)) as Hva1 by (unfold va; by rewrite Hcx1, Ha1).
  assert (returned (insertion n cx s1) = Some (set_gpr_at (op_rt cx) (control_value cx s1 n) s1)) as E2
    by (rewrite insertion_value by (done || rewrite Hva1, Hcx1; done); reflexivity).
  set (s2 := set_gpr_at (op_rt cx) (control_value cx s1 n) s1) in E2.
  assert (gpr s2 a = gpr s a) as Ha2 by (unfold s2; rewrite gpr_set_ne; auto).
  assert (va sh s2 = gpr s x) as Hva2 by (unfold va, s2; rewrite Hsh1, gpr_set_ne; auto).
  assert (vb sh s2 = ls_read128 (ls s) addr) as Hvb2 by (unfold vb, s2; rewrite Hsh2, gpr_set_ne; auto).
  assert (vc sh s2 = control_value cx s1 n) as Hvc2 by (unfold vc, s2; rewrite Hsh3; apply gpr_set_eq).
  assert (ls s2 = ls s) as Hl2 by (by rewrite <- Hl1). clearbody s2.
  pose proof (returned_SHUFB sh s2) as E3.
  assert (forall k, 0 <= k < 16 -> be_byte (rt4_value sh (SHUFB sh s2)) k =
    shuffle_byte (gpr s x) (ls_read128 (ls s) addr) (be_byte (control_value cx s1 n) k)) as Hbyte.
  { intros k Hk. unfold be_byte at 1. rewrite lane_shufb by lia. by rewrite Hva2, Hvb2, Hvc2. }
  generalize dependent (rt4_value sh (SHUFB sh s2)). intros r E3 Hbyte.
  pose proof (returned_STQD st (set_gpr_at (op_rt4 sh) r s2)) as E4.
  assert (va st (set_gpr_at (op_rt4 sh) r s2) = gpr s a) as Hva3 by (unfold va; rewrite Hst1, gpr_set_ne; auto).
  assert (vt st (set_gpr_at (op_rt4 sh) r s2) = r) as Hvt3 by (unfold vt; rewrite Hst3; apply gpr_set_eq).
  rewrite Hva3, Hvt3, Hst2, <- Haddr in E4. eexists. split; [exact (run_scalar_store_steps _ _ _ _ _ _ _ _ _ _ E1 E2 E3 E4)|].
  cbv zeta. change (ls (set_ls ?m ?t)) with m. change (ls (set_gpr_at ?i ?v s2)) with (ls s2). rewrite Hl2.
  intros y. rewrite Hfirst. clear E1 E2 E3 E4. set (k0 := slot (gpr s a) mod 16 - (slot (gpr s a) mod 16) mod n) in *.
  destruct (decide (addr <= y < addr + 16)) as [Hy|Hy].
  - replace y with (addr mod SPU_LS_SIZE + (y - addr)) at 1 by lia.
    rewrite ls_write_inside, Hbyte, control_value_bytes by (done || lia). rewrite Hcx2, Hva1, Z.add_0_l.
    rewrite shuffle_insert by (done || lia || by apply Z.mod_pos_bound). cbv zeta. fold k0.
    rewrite be_byte_read by (apply Hwf || lia). rewrite Hmod. replace (addr + (y - addr)) with y by lia.
    assert (((k0 <=? y - addr) && (y - addr <? k0 + n)) = ((addr + k0 <=? y) && (y <? addr + k0 + n))) as ->.
    { f_equal; [destruct (Z.leb_spec k0 (y - addr)), (Z.leb_spec (addr + k0) y)|
        destruct (Z.ltb_spec (y - addr) (k0 + n)), (Z.ltb_spec y (addr + k0 + n))]; lia || done. }
    destruct (_ && _); [|done]. f_equal. lia.
  - rewrite ls_write_outside by lia.
    destruct (Z.leb_spec (addr + k0) y), (Z.ltb_spec y (addr + k0 + n)); lia || done.
Qed.

(** [lqd r5, 16(r3); cwd r6, 0(r3); shufb r7, r4, r5, r6; stqd r7, 16(r3)] with
    the address 0x3fffc in r3: the word goes to 0x0c. *)
Definition store_demo : spu_thread :=
  set_gpr_at 3 (from32r 0x3fffc) (set_gpr_at 4 (from32r 0x01020304) (set_gpr (fun _ => 0) demo_spu)).

Lemma store_demo_wf : spu_wf store_demo.
Proof.
  split; [|done|done|done]. intros r. unfold store_demo, set_gpr_at, set_gpr. cbn. unfold upd.
  destruct (r =? 3); [by apply pack_word; auto with word|]. by destruct (r =? 4); [apply pack_word; auto with word|].
Defined.

Lemma scalar_store_exact_witness :
  exists s', run_scalar_store 4 0x34004185 0x3ec00186 0xb0e14206 0x24004187 store_demo = Some s' /\
    ls s' 0x0c = 1 /\ ls s' 0x0f = 4 /\ ls s' 0x10 = 0.
Proof.
  destruct (scalar_store_exact 4 3 4 1 0x34004185 0x3ec00186 0xb0e14206 0x24004187 store_demo) as (s' & Hs & H);
    [by right; right; left|by split|exact store_demo_wf|done|].
  exists s'. split; [exact Hs|]. cbv zeta in H. rewrite !H. vm_compute. done.
Defined.
