(* ===== verification/SpuShiftProofs.v ===== *)
(** * SPU interpreter: shifts and rotates

    The byte and bit instructions on a whole register compose to 128-bit
    shifts and rotates, and the immediate forms of the element shifts agree
    with the register forms on a constant count. *)
From S2P Require Import Prelude V128 SpuState SpuInt SpuShift SpuLoops SpuRegs SpuTypes SpuAluProofs.

(** ** Bits of the shifted vectors *)

Lemma testbit_map_lane w a f j : lane_width w -> 0 <= j ->
  Z.testbit (map1 w f a) j = (j <? 128) && Z.testbit (f (lane w a (j / w))) (j mod w).
Proof. intros Hw Hj. unfold map1. by rewrite testbit_pack. Qed.

Lemma width_pos w : lane_width w -> 0 < w.
Proof. intros [->|[->|[->| ->]]]; lia. Qed.

Lemma testbit_slli w a n j : lane_width w -> 0 <= n -> 0 <= j ->
  Z.testbit (mm_slli w a n) j = (j <? 128) && (n <=? j mod w) && Z.testbit a (j - n).
Proof.
  intros Hw Hn Hj. pose proof (width_pos w Hw). unfold mm_slli. rewrite testbit_map_lane by done.
  pose proof (Z.mod_pos_bound j w ltac:(lia)) as Hm. pose proof (Z.div_mod j w ltac:(lia)) as Hd.
  assert (0 <= j / w) by (apply Z.div_pos; lia). destruct (Z.ltb_spec j 128); [|done]. cbn [andb].
  destruct (Z.leb_spec w n).
  - rewrite Z.bits_0. by rewrite (proj2 (Z.leb_gt n (j mod w))) by lia.
  - rewrite testbit_shiftl by lia. destruct (Z.leb_spec n (j mod w)); [|done]. cbn [andb].
    rewrite testbit_lane by (done || lia). rewrite (proj2 (Z.ltb_lt (j mod w - n) w)) by lia. cbn [andb]. f_equal. lia.
Qed.

Lemma testbit_srli w a n j : lane_width w -> 0 <= n -> 0 <= j ->
  Z.testbit (mm_srli w a n) j = (j <? 128) && (j mod w + n <? w) && Z.testbit a (j + n).
Proof.
  intros Hw Hn Hj. pose proof (width_pos w Hw). unfold mm_srli. rewrite testbit_map_lane by done.
  pose proof (Z.mod_pos_bound j w ltac:(lia)) as Hm. pose proof (Z.div_mod j w ltac:(lia)) as Hd.
  assert (0 <= j / w) by (apply Z.div_pos; lia). destruct (Z.ltb_spec j 128); [|done]. cbn [andb].
  destruct (Z.leb_spec w n).
  - rewrite Z.bits_0. by rewrite (proj2 (Z.ltb_ge (j mod w + n) w)) by lia.
  - rewrite Z.shiftr_spec, testbit_lane by (done || lia). destruct (Z.ltb_spec (j mod w + n) w); [|done]. cbn [andb]. f_equal. lia.
Qed.

(** ** Bytes of a buffer *)

Lemma testbit_loadu buf off j : 0 <= off -> 0 <= j ->
  Z.testbit (loadu buf off) j =
    (j <? 128) && Z.testbit (nth (Z.to_nat ((8 * off + j) / 128)) buf 0) ((8 * off + j) mod 128).
Proof.
  intros Ho Hj. unfold loadu. rewrite testbit_pack by (auto with word). destruct (Z.ltb_spec j 128); [|done]. cbn [andb].
  pose proof (Z.mod_pos_bound j 8 ltac:(lia)) as Hm. pose proof (Z.div_mod j 8 ltac:(lia)) as Hd.
  assert (0 <= j / 8) by (apply Z.div_pos; lia).
  assert ((8 * off + j) / 128 = (off + j / 8) / 16) as -> by (Z.div_mod_to_equations; lia).
  pose proof (Z.mod_pos_bound (off + j / 8) 16 ltac:(lia)). rewrite testbit_lane by (auto with word; lia).
  rewrite (proj2 (Z.ltb_lt (j mod 8) 8)) by lia. cbn [andb]. f_equal. Z.div_mod_to_equations; lia.
Qed.

Definition shl128 (a n : Z) : Z := u128 (Z.shiftl a n).
Definition rotl128 (a n : Z) : Z := Z.lor (u128 (Z.shiftl a n)) (Z.shiftr a (128 - n)).

Lemma testbit_shl128 a n j : 0 <= n -> 0 <= j ->
  Z.testbit (shl128 a n) j = (j <? 128) && (n <=? j) && Z.testbit a (j - n).
Proof. intros Hn Hj. unfold shl128. rewrite testbit_wrap, testbit_shiftl by lia. by rewrite andb_assoc. Qed.

Lemma testbit_rotl128 a n j : is_word 128 a -> 0 <= n < 128 -> 0 <= j ->
  Z.testbit (rotl128 a n) j = (j <? 128) && Z.testbit a ((j - n) mod 128).
Proof.
  intros Ha Hn Hj. unfold rotl128. rewrite Z.lor_spec, testbit_wrap, testbit_shiftl, Z.shiftr_spec by lia.
  destruct (Z.ltb_spec j 128); cbn [andb orb].
  - destruct (Z.leb_spec n j); cbn [andb orb].
    + rewrite (Z.mod_small (j - n)) by lia. rewrite (testbit_above 128 a (j + (128 - n))) by (done || lia). apply orb_false_r.
    + f_equal. apply Z.mod_unique with (q := -1); lia.
  - by apply (testbit_above 128); [|lia].
Qed.

(** Left by bytes, then right by bytes, then rotated by bytes. *)
Lemma loadu_shl a n : is_word 128 a -> 0 <= n < 32 -> loadu [0; 0; a] (32 - n) = shl128 a (8 * n).
Proof.
  intros Ha Hn. apply Z.bits_inj'. intros j Hj. rewrite testbit_loadu, testbit_shl128 by lia.
  destruct (Z.ltb_spec j 128); [|done]. cbn [andb]. destruct (Z.leb_spec (8 * n) j); cbn [andb].
  - assert ((8 * (32 - n) + j) / 128 = 2) as -> by (symmetry; apply Z.div_unique with (r := j - 8 * n); lia).
    assert ((8 * (32 - n) + j) mod 128 = j - 8 * n) as -> by (symmetry; apply Z.mod_unique with (q := 2); lia). done.
  - assert ((8 * (32 - n) + j) / 128 = 0 \/ (8 * (32 - n) + j) / 128 = 1) as [-> | ->] by (Z.div_mod_to_equations; lia); apply Z.bits_0.
Qed.

Lemma loadu_shr a n : is_word 128 a -> 0 <= n < 32 -> loadu [a; 0; 0] n = Z.shiftr a (8 * n).
Proof.
  intros Ha Hn. apply Z.bits_inj'. intros j Hj. rewrite testbit_loadu, Z.shiftr_spec by lia.
  destruct (Z.ltb_spec j 128); cbn [andb].
  - destruct (Z.lt_ge_cases (j + 8 * n) 128).
    + rewrite Z.div_small, Z.mod_small by lia. cbn. f_equal. lia.
    + rewrite (testbit_above 128 a (j + 8 * n)) by (done || lia).
      assert ((8 * n + j) / 128 = 1 \/ (8 * n + j) / 128 = 2) as [-> | ->] by (Z.div_mod_to_equations; lia); apply Z.bits_0.
  - symmetry. apply (testbit_above 128); [done|lia].
Qed.

Lemma loadu_rot a n : is_word 128 a -> 0 <= n < 16 -> loadu [a; a] (16 - n) = rotl128 a (8 * n).
Proof.
  intros Ha Hn. apply Z.bits_inj'. intros j Hj. rewrite testbit_loadu, testbit_rotl128 by (done || lia).
  destruct (Z.ltb_spec j 128); [|done]. cbn [andb].
  assert ((8 * (16 - n) + j) mod 128 = (j - 8 * n) mod 128) as ->.
  { replace (8 * (16 - n) + j) with (j - 8 * n + 1 * 128) by lia. by rewrite Z.mod_add. }
  assert ((8 * (16 - n) + j) / 128 = 0 \/ (8 * (16 - n) + j) / 128 = 1) as [-> | ->] by (Z.div_mod_to_equations; lia); done.
Qed.

(** By less than eight bits: each half, and the bits that cross over. *)
Lemma bits_shl a n : is_word 128 a -> 0 <= n < 8 ->
  Z.lor (mm_slli 64 a n) (mm_srli 64 (_mm_slli_si128 a 8) (64 - n)) = shl128 a n.
Proof.
  intros Ha Hn. apply Z.bits_inj'. intros j Hj. unfold _mm_slli_si128. change (8 * 8) with 64.
  rewrite Z.lor_spec, testbit_slli, testbit_srli, testbit_shl128 by (auto with word; lia).
  change (u128 (Z.shiftl a 64)) with (shl128 a 64). rewrite testbit_shl128 by lia.
  destruct (Z.ltb_spec j 128); [|done]. cbn [andb].
  destruct (Z.lt_ge_cases j 64).
  - rewrite (Z.mod_small j) by lia.
    destruct (Z.leb_spec n j), (Z.ltb_spec (j + (64 - n)) 64), (Z.ltb_spec (j + (64 - n)) 128), (Z.leb_spec 64 (j + (64 - n))); try lia; cbn;
      rewrite ?orb_false_r; try done; rewrite Z.testbit_neg_r by lia; done.
  - assert (j mod 64 = j - 64) as -> by (symmetry; apply Z.mod_unique with (q := 1); lia).
    rewrite (proj2 (Z.leb_le n j)) by lia. replace (j + (64 - n) - 64) with (j - n) by lia.
    destruct (Z.leb_spec n (j - 64)), (Z.ltb_spec (j - 64 + (64 - n)) 64), (Z.ltb_spec (j + (64 - n)) 128), (Z.leb_spec 64 (j + (64 - n)));
      try lia; cbn; rewrite ?orb_false_r; done.
Qed.

Lemma bits_shr a n : is_word 128 a -> 0 <= n < 8 ->
  Z.lor (mm_srli 64 a n) (mm_slli 64 (_mm_srli_si128 a 8) (64 - n)) = Z.shiftr a n.
Proof.
  intros Ha Hn. apply Z.bits_inj'. intros j Hj. unfold _mm_srli_si128. change (8 * 8) with 64.
  rewrite Z.lor_spec, testbit_slli, testbit_srli, (Z.shiftr_spec a n) by (auto with word; lia).
  destruct (Z.ltb_spec j 128); cbn [andb orb]; [|symmetry; apply (testbit_above 128); [done|lia]].
  destruct (Z.lt_ge_cases j 64).
  - rewrite (Z.mod_small j) by lia. destruct (Z.ltb_spec (j + n) 64), (Z.leb_spec (64 - n) j); try lia; cbn;
      rewrite ?orb_false_r; [done|]. rewrite Z.shiftr_spec by lia. f_equal. lia.
  - assert (j mod 64 = j - 64) as -> by (symmetry; apply Z.mod_unique with (q := 1); lia).
    destruct (Z.ltb_spec (j - 64 + n) 64), (Z.leb_spec (64 - n) (j - 64)); try lia; cbn; rewrite ?orb_false_r; [done|].
    rewrite Z.shiftr_spec by lia. rewrite !(testbit_above 128 a) by (done || lia). done.
Qed.

Lemma testbit_swap_halves a j : 0 <= j -> Z.testbit (_mm_shuffle_epi32 a 0x4E) j =
  (j <? 128) && Z.testbit a ((j + 64) mod 128).
Proof.
  intros Hj. unfold _mm_shuffle_epi32. rewrite testbit_pack by (auto with word). destruct (Z.ltb_spec j 128); [|done]. cbn [andb].
  pose proof (Z.mod_pos_bound j 32 ltac:(lia)) as Hm. pose proof (Z.div_mod j 32 ltac:(lia)) as Hd.
  assert (Z.land (Z.shiftr 0x4E (2 * (j / 32))) 3 = (j / 32 + 2) mod 4) as ->.
  { assert (j / 32 = 0 \/ j / 32 = 1 \/ j / 32 = 2 \/ j / 32 = 3) as [-> |[-> |[-> | ->]]] by lia; reflexivity. }
  rewrite testbit_lane by (auto with word; apply Z.mod_pos_bound; lia). rewrite (proj2 (Z.ltb_lt (j mod 32) 32)) by lia.
  cbn [andb]. f_equal. Z.div_mod_to_equations; lia.
Qed.

Lemma bits_rot a n : is_word 128 a -> 0 <= n < 8 ->
  Z.lor (mm_slli 64 a n) (mm_srli 64 (_mm_shuffle_epi32 a 0x4E) (64 - n)) = rotl128 a n.
Proof.
  intros Ha Hn. apply Z.bits_inj'. intros j Hj.
  rewrite Z.lor_spec, testbit_slli, testbit_srli, testbit_swap_halves, testbit_rotl128 by (auto with word; lia).
  destruct (Z.ltb_spec j 128); [|done]. cbn [andb].
  destruct (Z.leb_spec n (j mod 64)), (Z.ltb_spec (j mod 64 + (64 - n)) 64); try lia; cbn [andb orb]; rewrite ?orb_false_r.
  - f_equal. symmetry. apply Z.mod_small. Z.div_mod_to_equations; lia.
  - assert (j + (64 - n) < 128 \/ j + (64 - n) >= 128) as [Hlt|Hge] by lia.
    + rewrite (proj2 (Z.ltb_lt (j + (64 - n)) 128)) by lia. cbn. f_equal. Z.div_mod_to_equations; lia.
    + Z.div_mod_to_equations; lia.
Qed.

(** ** Composition *)

Lemma shl128_shl128 a m n : 0 <= m -> 0 <= n -> shl128 (shl128 a m) n = shl128 a (m + n).
Proof.
  intros Hm Hn. apply Z.bits_inj'. intros j Hj.
  rewrite (testbit_shl128 _ n), (testbit_shl128 _ (m + n)) by lia. destruct (Z.ltb_spec j 128); [|done]. cbn [andb].
  destruct (Z.leb_spec n j), (Z.leb_spec (m + n) j); try lia; cbn [andb].
  - rewrite testbit_shl128 by lia. rewrite (proj2 (Z.ltb_lt (j - n) 128)), (proj2 (Z.leb_le m (j - n))) by lia. cbn. f_equal. lia.
  - rewrite testbit_shl128 by lia. by rewrite (proj2 (Z.leb_gt m (j - n))), andb_false_r by lia.
Qed.

Lemma rotl128_word a n : is_word 128 a -> 0 <= n < 128 -> is_word 128 (rotl128 a n).
Proof. intros Ha Hn. apply lor_word; [lia|apply wrap_range; lia|]. apply shiftr_word; lia || done. Qed.

Lemma rotl128_rotl128 a m n : is_word 128 a -> 0 <= m -> 0 <= n -> m + n < 128 -> rotl128 (rotl128 a m) n = rotl128 a (m + n).
Proof.
  intros Ha Hm Hn Hmn. apply Z.bits_inj'. intros j Hj. pose proof (Z.mod_pos_bound (j - n) 128 ltac:(lia)).
  rewrite !testbit_rotl128 by (done || lia || apply rotl128_word; done || lia).
  rewrite (proj2 (Z.ltb_lt ((j - n) mod 128) 128)) by lia. destruct (j <? 128); [|done]. cbn [andb].
  f_equal. rewrite Zminus_mod_idemp_l. f_equal. lia.
Qed.

Lemma bytes_and_bits n : 8 * Z.land (Z.shiftr n 3) 0x1f + Z.land n 0x7 = n mod 256.
Proof.
  rewrite (Z.land_ones _ 5), (Z.land_ones _ 3), Z.shiftr_div_pow2 by lia. Z.div_mod_to_equations; lia.
Qed.

Lemma bytes_and_bits_rot n : 8 * Z.land (Z.shiftr n 3) 0xf + Z.land n 0x7 = n mod 128.
Proof.
  rewrite (Z.land_ones _ 4), (Z.land_ones _ 3), Z.shiftr_div_pow2 by lia. Z.div_mod_to_equations; lia.
Qed.

Lemma land_s32 x k : 0 <= k <= 32 -> Z.land (s32 x) (Z.ones k) = Z.land x (Z.ones k).
Proof.
  intros Hk. rewrite !Z.land_ones by lia.
  assert (forall y, y mod 2 ^ k = u32 y mod 2 ^ k) as Hu.
  { intros y. unfold wrap. symmetry. apply Z.mod_mod_divide. exists (2 ^ (32 - k)). rewrite <- Z.pow_add_r by lia. f_equal. lia. }
  rewrite (Hu (s32 x)), (Hu x). by rewrite wrap_sext by lia.
Qed.

(** One instruction after another. *)
Definition then_run (o : outcome) (next : spu_thread -> outcome) : outcome :=
  match o with Ret _ s => next s | _ => o end.

Section Pair.
Context (op1 op2 : Z) (s : spu_thread).
Context (Hra : op_ra op2 = op_rt op1) (Hrb : op_rb op2 <> op_rt op1).

Lemma pair_reads v : va op2 (set_gpr_at (op_rt op1) v s) = v /\ vb op2 (set_gpr_at (op_rt op1) v s) = vb op2 s.
Proof. unfold va, vb, set_gpr_at. cbn. rewrite Hra. split; [apply upd_eq|by apply upd_ne]. Qed.

Lemma rt_value_pair v g :
  rt_value op2 (then_run (to_rt op1 v s) (fun t => to_rt op2 (g (va op2 t) (vb op2 t)) t)) = g v (vb op2 s).
Proof. cbn [then_run to_rt]. destruct (pair_reads v) as [-> ->]. apply rt_value_to_rt. Qed.

End Pair.

(** The processor has no 128-bit shift, programs compose a shift by bytes
    and a shift by bits: [shlqbybi] then [shlqbi] with one count register shift
    a quadword left by the count modulo 256, [rotqbybi] then [rotqbi] rotate it
    by the count modulo 128, and [rotqmbybi] with 7 - k then [rotqmbi] with
    - k shift it right by k. *)
Theorem quadword_shifts_exact op1 op2 s :
  op_ra op2 = op_rt op1 -> op_rb op2 <> op_rt op1 -> is_word 128 (va op1 s) ->
  let a := va op1 s in
  let n := slot (vb op1 s) in
  let m := slot (vb op2 s) in
  (n = m -> rt_value op2 (then_run (SHLQBYBI op1 s) (SHLQBI op2)) = shl128 a (n mod 256)) /\
  (n = m -> rt_value op2 (then_run (ROTQBYBI op1 s) (ROTQBI op2)) = rotl128 a (n mod 128)) /\
  (forall k, 0 <= k < 256 -> n = u32 (7 - k) -> m = u32 (- k) ->
    rt_value op2 (then_run (ROTQMBYBI op1 s) (ROTQMBI op2)) = Z.shiftr a k).
Proof.
  intros Hra Hrb Ha a n m. fold a in Ha.
  assert (forall x, 0 <= Z.land x 0x7 < 8) as H7 by (intros x; rewrite (Z.land_ones _ 3) by lia; apply Z.mod_pos_bound; lia).
  assert (forall x, 0 <= Z.land x 0x1f < 32) as H31 by (intros x; rewrite (Z.land_ones _ 5) by lia; apply Z.mod_pos_bound; lia).
  assert (forall x, 0 <= Z.land x 0xf < 16) as H15 by (intros x; rewrite (Z.land_ones _ 4) by lia; apply Z.mod_pos_bound; lia).
  split_and!.
  - intros Hnm. unfold SHLQBYBI, SHLQBI, _mm_or_si128. cbv zeta. fold a n.
    rewrite (rt_value_pair op1 op2 s Hra Hrb _ (fun x y => Z.lor (mm_slli 64 x (Z.land (slot y) 7))
      (mm_srli 64 (_mm_slli_si128 x 8) (64 - Z.land (slot y) 7)))). fold m. rewrite <- Hnm.
    pose proof (H31 (Z.shiftr n 3)). pose proof (H7 n).
    rewrite loadu_shl, bits_shl, shl128_shl128 by (done || lia || apply wrap_range; lia). by rewrite bytes_and_bits.
  - intros Hnm. unfold ROTQBYBI, ROTQBI, _mm_or_si128. cbv zeta. fold a n.
    rewrite (rt_value_pair op1 op2 s Hra Hrb _ (fun x y => Z.lor (mm_slli 64 x (Z.land (s32 (slot y)) 7))
      (mm_srli 64 (_mm_shuffle_epi32 x 0x4E) (64 - Z.land (s32 (slot y)) 7)))). fold m. rewrite <- Hnm.
    change 7 with (Z.ones 3). rewrite (land_s32 n 3) by lia. change (Z.ones 3) with 7.
    pose proof (H15 (Z.shiftr n 3)). pose proof (H7 n).
    rewrite loadu_rot, bits_rot, rotl128_rotl128 by (done || lia || apply rotl128_word; done || lia). by rewrite bytes_and_bits_rot.
  - intros k Hk Hn Hm. unfold ROTQMBYBI, ROTQMBI, _mm_or_si128. cbv zeta. fold a n.
    rewrite (rt_value_pair op1 op2 s Hra Hrb _ (fun x y => Z.lor (mm_srli 64 x (Z.land (- s32 (slot y)) 7))
      (mm_slli 64 (_mm_srli_si128 x 8) (64 - Z.land (- s32 (slot y)) 7)))). fold m. rewrite Hn, Hm.
    assert (Z.land (u32 (0 - Z.shiftr (u32 (7 - k)) 3)) 0x1f = k / 8) as ->.
    { rewrite (Z.land_ones _ 5), Z.shiftr_div_pow2 by lia. word_lia. }
    assert (Z.land (- s32 (u32 (- k))) 7 = k mod 8) as ->.
    { rewrite (Z.land_ones _ 3) by lia. unfold sext. rewrite wrap_wrap. destruct (_ <? _); word_lia. }
    assert (0 <= k / 8 < 32) by (Z.div_mod_to_equations; lia). assert (0 <= k mod 8 < 8) by (apply Z.mod_pos_bound; lia).
    rewrite loadu_shr, bits_shr by (done || lia || apply shiftr_word; done || lia).
    rewrite Z.shiftr_shiftr by lia. f_equal. Z.div_mod_to_equations; lia.
Qed.

(** Register 3 shifted, the count in register 4, results in registers 5, 6. *)
Definition shift_thread (a n m : Z) : spu_thread :=
  MkSpu (fun r => if r =? 3 then a else if r =? 4 then mm_set1 32 n else if r =? 7 then mm_set1 32 m else 0)
    0 (fun _ => 0) 0 false 0 false false 0.
Definition rr (rt ra rb : Z) : Z := rt + Z.shiftl ra 7 + Z.shiftl rb 14.

Lemma quadword_shifts_exact_witness :
  let s := shift_thread 0x80000000000000000000000000000001 13 13 in
  rt_value (rr 6 5 4) (then_run (SHLQBYBI (rr 5 3 4) s) (SHLQBI (rr 6 5 4))) = 2 ^ 13 /\
  rt_value (rr 6 5 4) (then_run (ROTQBYBI (rr 5 3 4) s) (ROTQBI (rr 6 5 4))) = 2 ^ 13 + 2 ^ 12.
Proof.
  intros s.
  assert (op_ra (rr 6 5 4) = op_rt (rr 5 3 4)) as H1 by (vm_compute; reflexivity).
  assert (op_rb (rr 6 5 4) <> op_rt (rr 5 3 4)) as H2 by (vm_compute; lia).
  assert (is_word 128 (va (rr 5 3 4) s)) as H3 by (split; vm_compute; congruence).
  destruct (quadword_shifts_exact (rr 5 3 4) (rr 6 5 4) s H1 H2 H3) as (E1 & E2 & _).
  rewrite E1, E2 by (vm_compute; reflexivity). vm_compute. split; reflexivity.
Defined.

(** ** Immediate forms *)

Lemma rol_lane w k x n : 0 < w -> 2 ^ k = w -> 0 <= k -> is_word w x ->
  Z.lor (wrap w (Z.shiftl x (n mod w))) (Z.shiftr x (w - n mod w)) =
  Z.lor (wrap w (Z.shiftl x (n mod w))) (Z.shiftr x ((- n) mod w)).
Proof.
  intros Hw Hk Hk0 Hx. destruct (Z.eq_dec (n mod w) 0) as [E|E].
  - rewrite Z.mod_opp_l_z by (done || lia). rewrite E, Z.sub_0_r, Z.shiftl_0_r, Z.shiftr_0_r, wrap_small, Z.lor_diag by done.
    rewrite Z.shiftr_div_pow2, Z.div_small by (done || lia). apply Z.lor_0_r.
  - by rewrite Z.mod_opp_l_nz by (done || lia).
Qed.

Lemma rol32_lane x n : is_word 32 x ->
  Z.lor (u32 (Z.shiftl x (Z.land n 0x1f))) (Z.shiftr x (32 - Z.land n 0x1f)) = rol32 x n.
Proof.
  intros Hx. unfold rol32. change 31 with 0x1f. rewrite !(Z.land_ones _ 5) by lia. change (2 ^ 5) with 32.
  assert (u32 (0 - n) mod 32 = (- n) mod 32) as -> by word_lia. by apply (rol_lane 32 5).
Qed.

Lemma rol16_lane x n : is_word 16 x ->
  Z.lor (u16 (Z.shiftl x (Z.land n 0xf))) (Z.shiftr x (16 - Z.land n 0xf)) = rol16 x n.
Proof. intros Hx. unfold rol16. rewrite !(Z.land_ones _ 4) by lia. by apply (rol_lane 16 4). Qed.

(** The counts reduce alike. *)
Lemma neg_count w k n : 0 <= k <= w -> Z.land (wrap w (0 - n)) (Z.ones k) = Z.land (0 - n) (Z.ones k).
Proof.
  intros Hk. rewrite !Z.land_ones by lia. apply Z.mod_mod_divide. exists (2 ^ (w - k)). rewrite <- Z.pow_add_r by lia. f_equal. lia.
Qed.

Lemma i7_range op : 0 <= op_i7 op < 128.
Proof. unfold op_i7, spu_bf. change (2 ^ 7 - 1) with (Z.ones 7). rewrite Z.land_ones by lia. apply Z.mod_pos_bound. lia. Qed.

Lemma to_rt_lanes w op op' f g s : lane_width w -> op_rt op' = op_rt op -> is_word 128 f -> is_word 128 g ->
  (forall i, 0 <= i -> w * i + w <= 128 -> lane w f i = lane w g i) -> to_rt op f s = to_rt op' g s.
Proof.
  intros Hw Hrt Hf Hg H. unfold to_rt. rewrite Hrt. do 2 f_equal. apply (lanes_eq w); [done..|].
  intros i Hi. apply H; [lia|by apply lane_fits].
Qed.

Lemma shl32_lane x n : u32 (Z.shiftl x (Z.land n 0x3f)) = u32 (u32 (u64 (Z.shiftl x (Z.land n 0x3f)))).
Proof. unfold wrap. rewrite Zmod_mod. symmetry. apply Z.mod_mod_divide. by exists (2 ^ 32). Qed.

Lemma shl16_lane x n : u16 (Z.shiftl x (Z.land n 0x1f)) = u16 (u16 (u32 (Z.shiftl x (Z.land n 0x1f)))).
Proof. unfold wrap. rewrite Zmod_mod. symmetry. apply Z.mod_mod_divide. by exists (2 ^ 16). Qed.

(** The counts of the quadword forms are in the preferred slot. *)
Lemma slot_splat n : 0 <= n < 128 -> slot (mm_set1 32 n) = n.
Proof.
  intros Hn. unfold slot. rewrite lane_set1 by (auto with word; lia). apply wrap_small. split; [lia|].
  change (2 ^ 32) with 4294967296. lia.
Qed.

Lemma land_ones_bound x k : 0 <= k -> 0 <= Z.land x (Z.ones k) <= Z.ones k.
Proof.
  intros Hk. rewrite Z.land_ones, Z.ones_equiv by done. pose proof (Z.mod_pos_bound x (2 ^ k) ltac:(apply Z.pow_pos_nonneg; lia)). lia.
Qed.

Section Immediate.
Context (op op' : Z) (s : spu_thread).
Context (Hrt : op_rt op' = op_rt op) (Hva : va op' s = va op s).

Ltac by_lanes w Hvb := apply (to_rt_lanes w); [auto with word|exact Hrt| | |];
  [vec_word..|];
  intros i Hi Hwi; rewrite Hva, Hvb; unfold _mm_or_si128; pose proof (i7_range op);
  pose proof (land_ones_bound (op_i7 op) 4 ltac:(lia)); pose proof (land_ones_bound (op_i7 op) 5 ltac:(lia));
  pose proof (land_ones_bound (op_i7 op) 6 ltac:(lia)); pose proof (land_ones_bound (0 - op_i7 op) 5 ltac:(lia));
  pose proof (land_ones_bound (0 - op_i7 op) 6 ltac:(lia));
  change (Z.ones 4) with 0xf in *; change (Z.ones 5) with 0x1f in *; change (Z.ones 6) with 0x3f in *;
  pose proof (lane_range w (va op s) i ltac:(auto with word));
  rewrite ?lane_lor, ?lane_slli, ?lane_srli, ?lane_srai, ?lane_map2, ?lane_set1 by (auto with word; lia).

Lemma word_immediates : vb op' s = mm_set1 32 (op_i7 op) ->
  ROTI op s = ROT op' s /\ ROTMI op s = ROTM op' s /\ ROTMAI op s = ROTMA op' s /\ SHLI op s = SHL op' s.
Proof.
  intros Hvb. rewrite ROT_closed, ROTM_closed, ROTMA_closed, SHL_closed.
  assert (u32 (op_i7 op) = op_i7 op) as Hu by (pose proof (i7_range op); apply wrap_small; split; [lia|word_lia]).
  split_and!.
  - unfold ROTI. by_lanes 32 Hvb. rewrite Hu, rol32_lane by done. symmetry. apply wrap_small.
    rewrite <- rol32_lane by done. apply lor_word; [lia|apply wrap_range; lia|apply shiftr_word; done || lia].
  - unfold ROTMI. by_lanes 32 Hvb. rewrite Hu. change 0x3f with (Z.ones 6). rewrite neg_count by lia. rewrite wrap_wrap.
    symmetry. apply wrap_small. change (Z.ones 6) with 0x3f. apply shiftr_word; done || lia.
  - unfold ROTMAI. by_lanes 32 Hvb. rewrite Hu. change 0x3f with (Z.ones 6). rewrite neg_count by lia. by rewrite wrap_sext by lia.
  - unfold SHLI. by_lanes 32 Hvb. rewrite Hu. apply shl32_lane.
Qed.

Lemma half_immediates : vb op' s = mm_set1 16 (op_i7 op) ->
  ROTHI op s = ROTH op' s /\ ROTHMI op s = ROTHM op' s /\ ROTMAHI op s = ROTMAH op' s /\ SHLHI op s = SHLH op' s.
Proof.
  intros Hvb. rewrite ROTH_closed, ROTHM_closed, ROTMAH_closed, SHLH_closed.
  assert (u16 (op_i7 op) = op_i7 op) as Hu by (pose proof (i7_range op); apply wrap_small; split; [lia|word_lia]).
  split_and!.
  - unfold ROTHI. by_lanes 16 Hvb. rewrite Hu, rol16_lane by done. symmetry. apply wrap_small.
    rewrite <- rol16_lane by done. apply lor_word; [lia|apply wrap_range; lia|apply shiftr_word; done || lia].
  - unfold ROTHMI. by_lanes 16 Hvb. rewrite Hu, wrap_wrap. symmetry. apply wrap_small, shiftr_word; done || lia.
  - unfold ROTMAHI. by_lanes 16 Hvb. rewrite Hu. by rewrite wrap_sext by lia.
  - unfold SHLHI. by_lanes 16 Hvb. rewrite Hu. apply shl16_lane.
Qed.

Lemma quad_immediates : vb op' s = mm_set1 32 (op_i7 op) ->
  ROTQBYI op s = ROTQBY op' s /\ ROTQMBYI op s = ROTQMBY op' s /\ SHLQBYI op s = SHLQBY op' s /\
  ROTQBII op s = ROTQBI op' s /\ ROTQMBII op s = ROTQMBI op' s /\ SHLQBII op s = SHLQBI op' s.
Proof.
  intros Hvb. pose proof (i7_range op) as Hn.
  unfold ROTQBYI, ROTQBY, ROTQMBYI, ROTQMBY, SHLQBYI, SHLQBY, ROTQBII, ROTQBI, ROTQMBII, ROTQMBI, SHLQBII, SHLQBI, to_rt.
  rewrite Hrt, Hva, Hvb, slot_splat by done. cbv zeta. rewrite (sext_small 32) by lia. change (- op_i7 op) with (0 - op_i7 op).
  change 0x1f with (Z.ones 5). rewrite neg_count by lia. done.
Qed.
End Immediate.

(** The immediate forms of the shifts and rotates, written with host
    vector instructions, do what the register forms, written element by
    element, do with the immediate as the count of every element. *)
Theorem immediate_shifts_agree op op' s :
  op_rt op' = op_rt op -> va op' s = va op s ->
  (vb op' s = mm_set1 32 (op_i7 op) ->
    ROTI op s = ROT op' s /\ ROTMI op s = ROTM op' s /\ ROTMAI op s = ROTMA op' s /\ SHLI op s = SHL op' s /\
    ROTQBYI op s = ROTQBY op' s /\ ROTQMBYI op s = ROTQMBY op' s /\ SHLQBYI op s = SHLQBY op' s /\
    ROTQBII op s = ROTQBI op' s /\ ROTQMBII op s = ROTQMBI op' s /\ SHLQBII op s = SHLQBI op' s) /\
  (vb op' s = mm_set1 16 (op_i7 op) ->
    ROTHI op s = ROTH op' s /\ ROTHMI op s = ROTHM op' s /\ ROTMAHI op s = ROTMAH op' s /\ SHLHI op s = SHLH op' s).
Proof.
  intros Hrt Hva. split; intros Hvb; [|by apply half_immediates].
  destruct (word_immediates op op' s Hrt Hva Hvb) as (H1 & H2 & H3 & H4). pose proof (quad_immediates op op' s Hrt Hva Hvb) as H. repeat (split; [done|]). exact H.
Qed.

Lemma immediate_shifts_agree_witness :
  let s := shift_thread 0x80000001 5 5 in
  ROTI (rr 6 3 5) s = ROT (rr 6 3 4) s /\ rt_value (rr 6 3 5) (ROTI (rr 6 3 5) s) = 0x30.
Proof.
  intros s.
  assert (op_rt (rr 6 3 4) = op_rt (rr 6 3 5)) as H1 by (vm_compute; reflexivity).
  assert (va (rr 6 3 4) s = va (rr 6 3 5) s) as H2 by (vm_compute; reflexivity).
  assert (vb (rr 6 3 4) s = mm_set1 32 (op_i7 (rr 6 3 5))) as H3 by (vm_compute; reflexivity).
  destruct (immediate_shifts_agree (rr 6 3 5) (rr 6 3 4) s H1 H2) as [H _]. destruct (H H3) as [E _].
  split; [exact E|vm_compute; reflexivity].
Defined.
