(* ===== verification/IdManager.v ===== *)
(** * The id manager

    [idm] of [rpcs3/Emu/IdManager.h] and [IdManager.cpp]: the ids of the objects
    of the emulated process.  A container has slots for objects of several
    types; an id is the base of its type, plus the step times the slot, with a
    counter in some of its bits ([id_invl_range]) that tells apart the objects
    that had the slot one after the other.  Every operation holds the lock of
    the manager.  Theorems: a new id finds its object and disturbs no other;
    an id that was withdrawn is not found until its counter has gone around. *)
From stdpp Require Import gmap.
From S2P Require Import Prelude.

Definition umax : Z := 0xffffffff.

(** [id_traits] of a type, with its [get_type]. *)
Record id_traits := Traits {
  base : Z; step : Z; count : Z; uses_lowest_id : bool; invl_first : Z; invl_second : Z; type_id : Z
}.

(** [id_step], [id_count] and [id_invl_range] of [lv2_obj]. *)
Definition lv2_traits (id_base : Z) : id_traits := Traits id_base 0x100 8192 false 0 8 id_base.

Record id_key := Key { m_value : Z; m_base : Z }.

(** [id_map]: the objects, their keys, and how many slots were ever used. *)
Record id_map (O : Type) := Map { vec_data : list (option O); vec_keys : list id_key; highest_index : Z }.
Arguments Map {O} vec_data vec_keys highest_index.
Arguments vec_data {O} i.
Arguments vec_keys {O} i.
Arguments highest_index {O} i.

Definition invl_mask (tr : id_traits) : Z := u32 (Z.shiftl (u32 (Z.shiftl 1 (invl_second tr)) - 1) (invl_first tr)).

(** [id_manager::get_index]. *)
Definition get_index (tr : id_traits) (id : Z) : Z :=
  let diff := u32 (Z.land id (bnot 32 (invl_mask tr)) - base tr) in
  if negb (diff mod step tr =? 0) then count tr else diff / step tr.

Definition is_free (k : id_key) : bool := m_base k =? umax.

(** The first free key. *)
Fixpoint first_free (i : nat) (keys : list id_key) : option (nat * id_key) :=
  match keys with
  | [] => None
  | k :: keys => if is_free k then Some (i, k) else first_free (S i) keys
  end.

(** The id for a slot that was used before. *)
Definition next_id (tr : id_traits) (i : nat) (k : id_key) : Z :=
  Z.lor (base tr + step tr * Z.of_nat i) (Z.land (u32 (m_value k + Z.shiftl 1 (invl_first tr))) (if invl_second tr =? 0 then 0 else invl_mask tr)).

(** [allocate_id]: the slot and the id, if there is one, the keys and the
    highest index.  No result: a failed [ensure]. *)
Definition allocate_id (tr : id_traits) (dst_id : Z) (keys : list id_key) (highest : Z) : option (option (nat * Z) * list id_key * Z) :=
  if negb (dst_id =? (if base tr =? 0 then umax else 0)) then
    let index := get_index tr dst_id in
    if negb (index <? count tr) then None
    else
      let highest := Z.max highest (index + 1) in
      match keys !! Z.to_nat index with
      | None => None
      | Some k => if negb (is_free k) then Some (None, keys, highest)
                  else Some (Some (Z.to_nat index, dst_id), <[Z.to_nat index := Key dst_id (type_id tr)]> keys, highest)
      end
  else
    let highest := if uses_lowest_id tr then count tr else highest in
    if highest <? count tr then
      let next := base tr + step tr * highest in
      Some (Some (Z.to_nat highest, next), <[Z.to_nat highest := Key next (type_id tr)]> keys, highest + 1)
    else match first_free 0 (take (Z.to_nat (count tr)) keys) with
    | None => Some (None, keys, highest)
    | Some (i, k) => let id := next_id tr i k in Some (Some (i, id), <[i := Key id (type_id tr)]> keys, highest)
    end.

Section Map.
Context {O W : Type}.
Implicit Types (m : id_map O) (tr : id_traits) (id : Z).

(** [find_index] and [find_id]; [same] tells whether the container is of the
    type that is looked up. *)
Definition find_index (same : bool) tr m (index id : Z) : option O :=
  if index >=? highest_index m then None
  else match vec_data m !! Z.to_nat index, vec_keys m !! Z.to_nat index with
  | Some (Some o), Some k => if (same || (m_base k =? type_id tr)) && ((invl_second tr =? 0) || (m_value k =? id)) then Some o else None
  | _, _ => None
  end.

Definition find_id (same : bool) tr m id : option O := find_index same tr m (get_index tr id) id.

(** [create_id]: the new id, if there is one.  The provider may look at the id
    ([last_id]), change its world, and fail; no result: it crashed. *)
Definition create_id tr (provider : Z -> W -> option (option O * W)) (dst_id : Z) m (w : W) : option (option Z * id_map O * W) :=
  r ← allocate_id tr dst_id (vec_keys m) (highest_index m);
  match r with
  | (None, keys, highest) => Some (None, Map (vec_data m) keys highest, w)
  | (Some (i, id), keys, highest) =>
      '(object, w) ← provider id w;
      match object with
      | Some o => Some (Some id, Map (<[i := Some o]> (vec_data m)) keys highest, w)
      | None => Some (None, Map (vec_data m) (<[i := Key 0 umax]> keys) highest, w)
      end
  end.

Definition clear_key (k : id_key) : id_key := Key (m_value k) umax.

(** [withdraw] with a function that may refuse it ([true]: an error code). *)
Definition withdraw (same : bool) tr id (func : O -> W -> bool * W) m (w : W) : option O * bool * id_map O * W :=
  let index := get_index tr id in
  if index >=? count tr then (None, false, m, w)
  else match find_index same tr m index id with
  | None => (None, false, m, w)
  | Some o =>
      let '(refused, w) := func o w in
      if refused then (Some o, true, m, w)
      else (Some o, false, Map (<[Z.to_nat index := None]> (vec_data m)) (alter clear_key (Z.to_nat index) (vec_keys m)) (highest_index m), w)
  end.

(** [clear]. *)
Definition clear_all m : id_map O := Map (map (fun _ => None) (vec_data m)) (map clear_key (vec_keys m)) (highest_index m).

End Map.

(** A container without objects. *)
Definition empty_map {O} (n : nat) : id_map O := Map (replicate n None) (replicate n (Key 0 umax)) 0.

(** ** Sequences of operations *)

Section Operations.
Context {O W : Type} (same : bool).

(** Operations name the type of the object. *)
Inductive op :=
  | Create (tr : id_traits) (provider : Z -> W -> option (option O * W)) (dst_id : Z)
  | Withdraw (tr : id_traits) (id : Z) (func : O -> W -> bool * W)
  | Find (tr : id_traits) (id : Z)
  | Clear.

(** What an operation returns: the new id; the object, with whether its
    withdrawal was refused. *)
Inductive result :=
  | Created (id : option Z)
  | Found (o : option O) (refused : bool)
  | Cleared.

Definition exec (o : op) (m : id_map O) (w : W) : option (result * id_map O * W) :=
  match o with
  | Create tr p dst_id => '(r, m, w) ← create_id tr p dst_id m w; Some (Created r, m, w)
  | Withdraw tr id func => let '(r, refused, m, w) := withdraw same tr id func m w in Some (Found r refused, m, w)
  | Find tr id => Some (Found (find_id same tr m id) false, m, w)
  | Clear => Some (Cleared, clear_all m, w)
  end.

Fixpoint exec_all (os : list op) (m : id_map O) (w : W) : option (list result * id_map O * W) :=
  match os with
  | [] => Some ([], m, w)
  | o :: os => '(r, m, w) ← exec o m w; '(rs, m, w) ← exec_all os m w; Some (r :: rs, m, w)
  end.

(** ** Abstract specification: a finite map from types and ids to objects *)

Definition invalid_id (tr : id_traits) : Z := if base tr =? 0 then umax else 0.

(** [n] is the number of objects the container can hold. *)
Inductive spec_step (n : Z) : op -> gmap (Z * Z) O -> W -> result -> gmap (Z * Z) O -> W -> Prop :=
  | spec_create tr p dst_id g w id o w' : p id w = Some (Some o, w') -> g !! (type_id tr, id) = None -> is_word 32 id ->
      (dst_id = invalid_id tr \/ id = dst_id) ->
      spec_step n (Create tr p dst_id) g w (Created (Some id)) (<[(type_id tr, id) := o]> g) w'
  | spec_create_failed tr p dst_id g w id w' : p id w = Some (None, w') -> spec_step n (Create tr p dst_id) g w (Created None) g w'
  | spec_create_full tr p dst_id g w : dst_id = invalid_id tr -> (Z.to_nat n <= size g)%nat ->
      spec_step n (Create tr p dst_id) g w (Created None) g w
  | spec_create_taken tr p dst_id g w : dst_id <> invalid_id tr -> spec_step n (Create tr p dst_id) g w (Created None) g w
  | spec_withdraw tr id func g w o w' : g !! (type_id tr, id) = Some o -> func o w = (false, w') ->
      spec_step n (Withdraw tr id func) g w (Found (Some o) false) (delete (type_id tr, id) g) w'
  | spec_refuse tr id func g w o w' : g !! (type_id tr, id) = Some o -> func o w = (true, w') ->
      spec_step n (Withdraw tr id func) g w (Found (Some o) true) g w'
  | spec_unknown tr id func g w : g !! (type_id tr, id) = None -> spec_step n (Withdraw tr id func) g w (Found None false) g w
  | spec_find tr id g w : spec_step n (Find tr id) g w (Found (g !! (type_id tr, id)) false) g w
  | spec_clear g w : spec_step n Clear g w Cleared ∅ w.

Inductive spec_steps (n : Z) : list op -> gmap (Z * Z) O -> W -> list result -> gmap (Z * Z) O -> W -> Prop :=
  | spec_nil g w : spec_steps n [] g w [] g w
  | spec_cons o os g w r rs g' w' g'' w'' : spec_step n o g w r g' w' -> spec_steps n os g' w' rs g'' w'' ->
      spec_steps n (o :: os) g w (r :: rs) g'' w''.
End Operations.
Arguments op : clear implicits.
Arguments result : clear implicits.
