(* ===== verification/IdManagerProofs.v ===== *)
(** * The id manager: theorems

    Creation gives an id that finds the object, withdrawal takes it back, and
    no other id is disturbed; the counter of an id keeps it from finding the
    objects that have its slot later, and a failed creation loses it. *)
From stdpp Require Import gmap.
From S2P Require Import Prelude IdManager.

(** The constraints on [id_traits]: the ids of the slots are words, leave out
    the bits of the counter, and are not the invalid id. *)
Record traits_ok (tr : id_traits) : Prop := {
  ok_step : 0 < step tr;
  ok_count : 0 < count tr;
  ok_base : 0 <= base tr;
  ok_first : 0 <= invl_first tr;
  ok_second : 0 <= invl_second tr < 32;
  ok_width : invl_first tr + invl_second tr <= 32;
  ok_ids : base tr + step tr * (count tr - 1) < (if base tr =? 0 then umax else 2 ^ 32);
  ok_type : 0 <= type_id tr < umax;
  ok_bits i : 0 <= i < count tr -> Z.land (base tr + step tr * i) (invl_mask tr) = 0
}.

Section Ids.
Context (tr : id_traits) (Hok : traits_ok tr).

Definition slot_id (i : Z) : Z := base tr + step tr * i.

Lemma slot_id_word i : 0 <= i < count tr -> is_word 32 (slot_id i).
Proof.
  intros Hi. pose proof (ok_ids _ Hok). pose proof (ok_base _ Hok). pose proof (ok_step _ Hok). unfold slot_id, is_word, umax in *.
  assert (step tr * i <= step tr * (count tr - 1)) by nia. assert (0 <= step tr * i) by nia. destruct (base tr =? 0); lia.
Qed.

Lemma mask_eq : invl_mask tr = Z.shiftl (Z.ones (invl_second tr)) (invl_first tr).
Proof.
  pose proof (ok_second _ Hok) as Hs. pose proof (ok_first _ Hok). pose proof (ok_width _ Hok) as Hw. unfold invl_mask.
  rewrite Z.shiftl_1_l, Z.ones_equiv.
  assert (1 <= 2 ^ invl_second tr < 2 ^ 32) as Hp by (split; [apply Z.lt_pred_le, Z.pow_pos_nonneg; lia|apply Z.pow_lt_mono_r; lia]).
  rewrite (wrap_small 32 (2 ^ invl_second tr)) by (unfold is_word; lia). apply wrap_small. unfold is_word.
  rewrite Z.shiftl_mul_pow2 by done. assert (0 < 2 ^ invl_first tr) by (apply Z.pow_pos_nonneg; lia).
  assert (2 ^ invl_second tr * 2 ^ invl_first tr <= 2 ^ 32) by (rewrite <- Z.pow_add_r by lia; apply Z.pow_le_mono_r; lia). nia.
Qed.

Lemma mask_bit j : 0 <= j -> Z.testbit (invl_mask tr) j = (invl_first tr <=? j) && (j <? invl_first tr + invl_second tr).
Proof.
  intros Hj. pose proof (ok_second _ Hok). pose proof (ok_first _ Hok). rewrite mask_eq, testbit_shiftl by lia.
  destruct (Z.leb_spec (invl_first tr) j); [|done]. cbn. rewrite Z.testbit_ones by lia. split_cmp; cbn; lia.
Qed.

Lemma slot_bit i j : 0 <= i < count tr -> 0 <= j -> Z.testbit (slot_id i) j && Z.testbit (invl_mask tr) j = false.
Proof. intros Hi Hj. pose proof (ok_bits _ Hok i Hi) as H. apply (f_equal (fun x => Z.testbit x j)) in H. now rewrite Z.land_spec, Z.bits_0 in H. Qed.

(** An id is the id of its slot with a counter in the masked bits. *)
Lemma land_slot i c : 0 <= i < count tr -> Z.land (Z.lor (slot_id i) (Z.land c (invl_mask tr))) (bnot 32 (invl_mask tr)) = slot_id i.
Proof.
  intros Hi. pose proof (slot_id_word i Hi) as Hw. apply Z.bits_inj'. intros j Hj.
  pose proof (slot_bit i j Hi Hj) as Hb. rewrite Z.land_spec, Z.lor_spec, Z.land_spec, testbit_bnot by lia.
  destruct (Z.leb_spec 32 j).
  - rewrite (testbit_above 32 (slot_id i) j) by (done || lia). assert ((j <? 32) = false) as -> by lia. cbn. now rewrite andb_false_r.
  - assert ((j <? 32) = true) as -> by lia. destruct (Z.testbit (slot_id i) j), (Z.testbit (invl_mask tr) j), (Z.testbit c j); done.
Qed.

Lemma index_of_slot i c : 0 <= i < count tr -> get_index tr (Z.lor (slot_id i) (Z.land c (invl_mask tr))) = i.
Proof.
  intros Hi. unfold get_index. rewrite land_slot by done. pose proof (slot_id_word i Hi) as Hw. pose proof (ok_step _ Hok). pose proof (ok_base _ Hok).
  assert (slot_id i - base tr = i * step tr) as -> by (unfold slot_id; lia).
  rewrite wrap_small by (unfold is_word, slot_id in *; nia). rewrite Z_mod_mult. cbn. apply Z.div_mul. lia.
Qed.

Lemma index_of_slot_id i : 0 <= i < count tr -> get_index tr (slot_id i) = i.
Proof. intros Hi. rewrite <- (index_of_slot i 0 Hi) at 2. now rewrite Z.land_0_l, Z.lor_0_r. Qed.

Lemma get_index_nonneg id : 0 <= get_index tr id.
Proof.
  unfold get_index. pose proof (ok_step _ Hok). pose proof (ok_count _ Hok). destruct (negb _); [lia|].
  apply Z.div_pos; [apply (wrap_range 32); lia|lia].
Qed.

Lemma slot_of_index id : is_word 32 id -> get_index tr id < count tr -> Z.land id (bnot 32 (invl_mask tr)) = slot_id (get_index tr id).
Proof.
  intros Hid Hi. pose proof (get_index_nonneg id) as Hn. pose proof (slot_id_word _ (conj Hn Hi)) as Hw. revert Hi Hw Hn.
  unfold get_index. set (x := Z.land _ _). pose proof (ok_step _ Hok). destruct (Z.eqb_spec (u32 (x - base tr) mod step tr) 0) as [Hm|]; cbn; [|lia].
  intros _ Hw _. assert (is_word 32 x) as Hx by (apply land_word; [lia|done|apply (wrap_range 32); lia]).
  set (d := u32 (x - base tr)) in *. assert (d = step tr * (d / step tr)) as Hd by (pose proof (Z_div_mod_eq_full d (step tr)); lia).
  unfold slot_id in *. rewrite <- Hd in *. unfold d in *. word_lia.
Qed.

Lemma mask_0 : invl_second tr = 0 -> invl_mask tr = 0.
Proof. intros H. rewrite mask_eq, H. apply Z.shiftl_0_l. Qed.

(** Without a counter an id is its slot's. *)
Lemma id_of_index id : invl_second tr = 0 -> is_word 32 id -> get_index tr id < count tr -> id = slot_id (get_index tr id).
Proof.
  intros H Hid Hi. rewrite <- slot_of_index by done. rewrite (mask_0 H). symmetry. apply Z.bits_inj'. intros j Hj.
  rewrite Z.land_spec, testbit_bnot, Z.bits_0 by lia. destruct (Z.leb_spec 32 j); split_cmp; try lia; cbn; rewrite ?andb_true_r, ?andb_false_r; [|done].
  symmetry. apply (testbit_above 32); [done|lia].
Qed.

Lemma next_id_eq i k : next_id tr i k = Z.lor (slot_id (Z.of_nat i)) (Z.land (u32 (m_value k + Z.shiftl 1 (invl_first tr))) (invl_mask tr)).
Proof. unfold next_id. destruct (Z.eqb_spec (invl_second tr) 0) as [H|]; [|done]. now rewrite (mask_0 H). Qed.

Lemma mask_word : is_word 32 (invl_mask tr).
Proof. apply (wrap_range 32). lia. Qed.

Lemma next_id_word i k : Z.of_nat i < count tr -> is_word 32 (next_id tr i k).
Proof.
  intros Hi. rewrite next_id_eq. apply lor_word; [lia|apply slot_id_word; lia|]. apply land_word; [lia|apply (wrap_range 32); lia|apply mask_word].
Qed.

Lemma index_of_next_id i k : Z.of_nat i < count tr -> get_index tr (next_id tr i k) = Z.of_nat i.
Proof. intros Hi. rewrite next_id_eq. apply index_of_slot. lia. Qed.
End Ids.

Lemma first_free_Some keys j i k : first_free j keys = Some (i, k) -> exists n, i = (j + n)%nat /\ keys !! n = Some k /\ is_free k = true.
Proof.
  revert j. induction keys as [|k' keys IH]; intros j; cbn; [done|]. destruct (is_free k') eqn:Hf.
  - intros [= <- <-]. exists 0%nat. now rewrite Nat.add_0_r.
  - intros (n & -> & Hn & Hk)%IH. exists (S n). split; [lia|done].
Qed.

Lemma first_free_None keys j n k : first_free j keys = None -> keys !! n = Some k -> is_free k = false.
Proof.
  revert j n. induction keys as [|k' keys IH]; intros j n; cbn; [done|]. destruct (is_free k') eqn:Hf; [done|].
  intros H. destruct n as [|n]; cbn; [now intros [= <-]|]. now apply (IH (S j)).
Qed.

(** The types of the objects in a container of [n] slots.  A container of a
    single type may be looked up with that type itself ([same]). *)
Record types_ok (types : id_traits -> Prop) (same : bool) (n : Z) : Prop := {
  ty_pos : 0 < n;
  ty_ok tr : types tr -> traits_ok tr;
  ty_count tr : types tr -> count tr = n;
  ty_inj tr tr' : types tr -> types tr' -> type_id tr = type_id tr' -> tr = tr';
  ty_same tr tr' : same = true -> types tr -> types tr' -> tr = tr'
}.

Section Container.
Context {O W : Type} (types : id_traits -> Prop) (same : bool) (n : Z) (Hty : types_ok types same n).
Implicit Types (m : id_map O) (tr : id_traits).

(** Every object has a key of one of the types. *)
Record map_ok m : Prop := {
  map_data : length (vec_data m) = Z.to_nat n;
  map_keys : length (vec_keys m) = Z.to_nat n;
  map_high : 0 <= highest_index m <= n;
  map_live i o : vec_data m !! i = Some (Some o) ->
    exists tr k, types tr /\ vec_keys m !! i = Some k /\ m_base k = type_id tr /\ Z.of_nat i < highest_index m /\
      is_word 32 (m_value k) /\ get_index tr (m_value k) = Z.of_nat i;
  map_taken i k : vec_keys m !! i = Some k -> is_free k = false -> exists o, vec_data m !! i = Some (Some o)
}.

Lemma live_key m i o k tr : map_ok m -> vec_data m !! i = Some (Some o) -> vec_keys m !! i = Some k -> types tr -> m_base k = type_id tr ->
  Z.of_nat i < highest_index m /\ is_word 32 (m_value k) /\ get_index tr (m_value k) = Z.of_nat i.
Proof.
  intros Hm Hd Hk Htr Hb. destruct (map_live _ Hm _ _ Hd) as (tr' & k' & Htr' & Hk' & Hb' & ?). rewrite Hk in Hk'. injection Hk' as <-.
  assert (tr' = tr) as -> by (apply (ty_inj _ _ _ Hty); [done..|congruence]). done.
Qed.

(** An id finds the object whose key it is. *)
Lemma find_id_spec tr m id o : types tr -> map_ok m -> is_word 32 id ->
  find_id same tr m id = Some o <->
  exists i k, vec_data m !! i = Some (Some o) /\ vec_keys m !! i = Some k /\ m_base k = type_id tr /\ m_value k = id.
Proof.
  intros Htr Hm Hid. pose proof (ty_ok _ _ _ Hty _ Htr) as Hok. pose proof (get_index_nonneg tr Hok id) as Hn. unfold find_id, find_index. split.
  - destruct (Z.geb_spec (get_index tr id) (highest_index m)) as [|Hh]; [done|].
    destruct (vec_data m !! _) as [[o'|]|] eqn:Hd; [|done|done]. destruct (map_live _ Hm _ _ Hd) as (tr' & k & Htr' & Hk & Ht & _).
    rewrite Hk. destruct (_ && _) eqn:Hv; [|done]. intros [= ->]. apply andb_true_iff in Hv as [Hs Hv].
    assert (m_base k = type_id tr) as Hb.
    { apply orb_true_iff in Hs as [Hs|Hs]; [|lia]. now rewrite (ty_same _ _ _ Hty tr tr' Hs Htr Htr'). }
    destruct (live_key m _ _ k tr Hm Hd Hk Htr Hb) as (_ & Hw & Hi). exists (Z.to_nat (get_index tr id)), k. split_and!; [done..|].
    pose proof (map_high _ Hm). pose proof (ty_count _ _ _ Hty _ Htr). apply orb_true_iff in Hv as [Hv|Hv]; [|lia]. apply Z.eqb_eq in Hv.
    rewrite (id_of_index tr Hok id Hv Hid), (id_of_index tr Hok (m_value k) Hv Hw) by lia. f_equal. lia.
  - intros (i & k & Hd & Hk & Hb & <-). destruct (live_key m _ _ k tr Hm Hd Hk Htr Hb) as (Hh & _ & Hx).
    rewrite Hx, Nat2Z.id, Hd, Hk, Hb, Z.eqb_refl, orb_true_r. destruct (Z.geb_spec (Z.of_nat i) (highest_index m)); [lia|]. now rewrite Z.eqb_refl, orb_true_r.
Qed.

Lemma free_empty m i k : map_ok m -> vec_keys m !! i = Some k -> is_free k = true -> vec_data m !! i = Some None.
Proof.
  intros Hm Hk Hf. destruct (lookup_lt_is_Some_2 (vec_data m) i) as [[o|] Hd]; [rewrite map_data by done; rewrite <- (map_keys _ Hm); now apply lookup_lt_is_Some_1|..|done].
  destruct (map_live _ Hm _ _ Hd) as (tr & k' & Htr & Hk' & Ht & _). rewrite Hk in Hk'. injection Hk' as <-.
  pose proof (ok_type _ (ty_ok _ _ _ Hty _ Htr)). unfold is_free in Hf. lia.
Qed.

Definition allocated tr m (i : nat) (id : Z) (keys : list id_key) : Prop :=
  vec_data m !! i = Some None /\ is_word 32 id /\ get_index tr id = Z.of_nat i /\ keys = <[i := Key id (type_id tr)]> (vec_keys m).

(** The slot the allocation takes is free, and it takes one if there is one. *)
Lemma allocate_spec tr m dst_id : types tr -> map_ok m -> is_word 32 dst_id -> dst_id = invalid_id tr \/ get_index tr dst_id < count tr ->
  exists r keys h, allocate_id tr dst_id (vec_keys m) (highest_index m) = Some (r, keys, h) /\ highest_index m <= h <= n /\
    match r with
    | Some (i, id) => allocated tr m i id keys /\ Z.of_nat i < h /\ (dst_id <> invalid_id tr -> id = dst_id) /\
        (dst_id = invalid_id tr -> Z.of_nat i < highest_index m -> exists k, vec_keys m !! i = Some k /\ id = next_id tr i k)
    | None => keys = vec_keys m /\ (dst_id = invalid_id tr -> forall i, (i < Z.to_nat n)%nat -> exists o, vec_data m !! i = Some (Some o))
    end.
Proof.
  intros Htr Hm Hw Hdst. pose proof (ty_ok _ _ _ Hty _ Htr) as Hok. pose proof (ty_count _ _ _ Hty _ Htr) as Hc.
  unfold allocate_id. fold (invalid_id tr). pose proof (get_index_nonneg tr Hok dst_id) as Hn. pose proof (map_high _ Hm) as Hh. rewrite Hc in *.
  destruct (Z.eqb_spec dst_id (invalid_id tr)) as [->|Hne]; cbn [negb].
  - set (h := if uses_lowest_id tr then n else highest_index m). assert (highest_index m <= h <= n) as Hh' by (unfold h; case_match; lia).
    destruct (Z.ltb_spec h n) as [Hl|Hl].
    + assert (h = highest_index m) as Hhe by (unfold h in *; destruct (uses_lowest_id tr); lia). do 3 eexists. split; [reflexivity|]. split; [lia|]. split; [|split_and!; [lia|done|lia]].
      rewrite Hhe in *. split_and!.
      * destruct (lookup_lt_is_Some_2 (vec_data m) (Z.to_nat (highest_index m))) as [[o|] Hd]; [rewrite map_data by done; lia| |done].
        destruct (map_live _ Hm _ _ Hd) as (? & ? & _ & _ & _ & ? & _). lia.
      * apply (slot_id_word tr Hok). lia.
      * rewrite Z2Nat.id by lia. apply (index_of_slot_id tr Hok). lia.
      * done.
    + assert (take (Z.to_nat n) (vec_keys m) = vec_keys m) as -> by (rewrite <- (map_keys _ Hm); apply firstn_all).
      destruct (first_free 0 _) as [[i k]|] eqn:Hf.
      * apply first_free_Some in Hf as (j & -> & Hk & Hf). pose proof (lookup_lt_Some _ _ _ Hk) as Hi. rewrite (map_keys _ Hm) in Hi.
        do 3 eexists. split; [reflexivity|]. split; [lia|]. split; [|split_and!; [lia|done|eauto]]. cbn. split_and!.
        -- eapply free_empty; eassumption.
        -- apply next_id_word; [done|lia].
        -- apply index_of_next_id; [done|lia].
        -- done.
      * do 3 eexists. split; [reflexivity|]. split; [lia|]. split; [done|]. intros _ i Hi. rewrite <- (map_keys _ Hm) in Hi.
        destruct (lookup_lt_is_Some_2 _ _ Hi) as [k Hk]. eapply map_taken; [done|exact Hk|]. eapply first_free_None; eassumption.
  - destruct Hdst as [|Hdst]; [done|]. destruct (Z.ltb_spec (get_index tr dst_id) n) as [_|]; [|lia]. cbn.
    destruct (lookup_lt_is_Some_2 (vec_keys m) (Z.to_nat (get_index tr dst_id))) as [k Hk]; [rewrite map_keys by done; lia|]. rewrite Hk.
    destruct (is_free k) eqn:Hf; cbn; do 3 eexists; (split; [reflexivity|]); (split; [lia|]); [|done]. split; [|split_and!; [lia|done|done]].
    split_and!; [eapply free_empty; eassumption|done|lia|done].
Qed.

(** *** Changes of one slot *)

Lemma live_mono m i o h : map_ok m -> vec_data m !! i = Some (Some o) -> highest_index m <= h ->
  exists tr k, types tr /\ vec_keys m !! i = Some k /\ m_base k = type_id tr /\ Z.of_nat i < h /\ is_word 32 (m_value k) /\ get_index tr (m_value k) = Z.of_nat i.
Proof. intros Hm Hd Hh. destruct (map_live _ Hm _ _ Hd) as (tr & k & ? & ? & ? & ? & ? & ?). exists tr, k. split_and!; [done..|lia|done|done]. Qed.

Lemma place_ok tr m i id o keys h : types tr -> map_ok m -> allocated tr m i id keys -> highest_index m <= h <= n -> Z.of_nat i < h ->
  map_ok (Map (<[i := Some o]> (vec_data m)) keys h).
Proof.
  intros Htr Hm (Hd & Hw & Hx & ->) Hh Hi. pose proof (lookup_lt_Some _ _ _ Hd) as Hl.
  assert (i < length (vec_keys m))%nat as Hlk by (rewrite (map_keys _ Hm), <- (map_data _ Hm); done).
  constructor; cbn; rewrite ?length_insert; [apply Hm|apply Hm|pose proof (map_high _ Hm); lia|..].
  - intros j o' Hj. destruct (decide (i = j)) as [<-|Hne].
    + rewrite list_lookup_insert_eq by done. exists tr. eexists. split; [done|]. split; [reflexivity|]. cbn. done.
    + rewrite list_lookup_insert_ne in Hj by done. rewrite list_lookup_insert_ne by done. eapply live_mono; [done..|lia].
  - intros j k Hj Hf. destruct (decide (i = j)) as [<-|Hne]; [rewrite list_lookup_insert_eq by done; eauto|].
    rewrite list_lookup_insert_ne in Hj by done. rewrite list_lookup_insert_ne by done. eapply map_taken; eassumption.
Qed.

(** A key of an empty slot that stays free does not matter. *)
Lemma free_key_ok m i k h : map_ok m -> vec_data m !! i = Some None -> is_free k = true -> highest_index m <= h <= n ->
  map_ok (Map (vec_data m) (<[i := k]> (vec_keys m)) h).
Proof.
  intros Hm Hd Hf Hh. constructor; cbn; rewrite ?length_insert; [apply Hm|apply Hm|pose proof (map_high _ Hm); lia|..].
  - intros j o' Hj. rewrite list_lookup_insert_ne by congruence. eapply live_mono; [done..|lia].
  - intros j k' [(_ & <- & _)|(Hne & Hj)]%list_lookup_insert_Some Hf'; [congruence|]. eapply map_taken; eassumption.
Qed.

Lemma high_ok m h : map_ok m -> highest_index m <= h <= n -> map_ok (Map (vec_data m) (vec_keys m) h).
Proof.
  intros Hm Hh. constructor; cbn; [apply Hm|apply Hm|pose proof (map_high _ Hm); lia| |apply Hm].
  intros j o' Hj. eapply live_mono; [done..|lia].
Qed.

Lemma take_ok m i : map_ok m -> map_ok (Map (<[i := None]> (vec_data m)) (alter clear_key i (vec_keys m)) (highest_index m)).
Proof.
  intros Hm. constructor; cbn; rewrite ?length_insert, ?length_alter; [apply Hm..| |].
  - intros j o [(_ & [=] & _)|(Hne & Hj)]%list_lookup_insert_Some. rewrite list_lookup_alter_ne by done. eapply map_live; eassumption.
  - intros j k Hj Hf. destruct (decide (i = j)) as [<-|Hne].
    + rewrite list_lookup_alter_eq in Hj. destruct (vec_keys m !! i); cbn in Hj; [|done]. injection Hj as <-. done.
    + rewrite list_lookup_alter_ne in Hj by done. rewrite list_lookup_insert_ne by done. eapply map_taken; eassumption.
Qed.

Lemma clear_all_ok m : map_ok m -> map_ok (clear_all m).
Proof.
  intros Hm. constructor; cbn; rewrite ?length_map; [apply Hm..| |].
  - intros i o. rewrite list_lookup_fmap. destruct (vec_data m !! i); done.
  - intros i k. rewrite list_lookup_fmap. destruct (vec_keys m !! i); cbn; [|done]. now intros [= <-].
Qed.

(** *** What the ids find afterwards *)

Lemma find_same_data tr m h id : types tr -> map_ok m -> map_ok (Map (vec_data m) (vec_keys m) h) -> is_word 32 id ->
  find_id same tr (Map (vec_data m) (vec_keys m) h) id = find_id same tr m id.
Proof. intros Htr Hm Hm' Hid. apply option_eq. intros o. now rewrite !find_id_spec. Qed.

Lemma find_free_key tr m i k h id : types tr -> map_ok m -> vec_data m !! i = Some None -> map_ok (Map (vec_data m) (<[i := k]> (vec_keys m)) h) -> is_word 32 id ->
  find_id same tr (Map (vec_data m) (<[i := k]> (vec_keys m)) h) id = find_id same tr m id.
Proof.
  intros Htr Hm Hd Hm' Hid. apply option_eq. intros o. rewrite !find_id_spec by done. cbn.
  split; intros (j & k' & Hj & Hk & Hv); exists j, k'; (split; [done|]); rewrite list_lookup_insert_ne in *; congruence || done.
Qed.

(** Two live keys with the same type and value are at the same slot. *)
Lemma live_inj tr m i j oi oj ki kj : types tr -> map_ok m -> vec_data m !! i = Some (Some oi) -> vec_data m !! j = Some (Some oj) ->
  vec_keys m !! i = Some ki -> vec_keys m !! j = Some kj -> m_base ki = type_id tr -> m_base kj = type_id tr -> m_value ki = m_value kj -> i = j.
Proof.
  intros Htr Hm Hi Hj Hki Hkj Hbi Hbj Hv. destruct (live_key m i oi ki tr Hm Hi Hki Htr Hbi) as (_ & _ & Hxi).
  destruct (live_key m j oj kj tr Hm Hj Hkj Htr Hbj) as (_ & _ & Hxj). apply Nat2Z.inj. congruence.
Qed.

Lemma find_placed tr tr' m i id o keys h id' : types tr -> types tr' -> map_ok m -> allocated tr m i id keys -> map_ok (Map (<[i := Some o]> (vec_data m)) keys h) -> is_word 32 id' ->
  find_id same tr' (Map (<[i := Some o]> (vec_data m)) keys h) id' = if decide ((type_id tr', id') = (type_id tr, id)) then Some o else find_id same tr' m id'.
Proof.
  intros Htr Htr' Hm (Hd & Hw & Hx & ->) Hm' Hid. pose proof (lookup_lt_Some _ _ _ Hd) as Hl.
  assert (i < length (vec_keys m))%nat as Hlk by (rewrite (map_keys _ Hm), <- (map_data _ Hm); done).
  apply option_eq. intros o'. rewrite find_id_spec by done. cbn. case_decide as Hdec.
  - injection Hdec as Ht ->. assert (tr' = tr) as -> by now apply (ty_inj _ _ _ Hty).
    split; [|intros [= ->]; exists i, (Key id (type_id tr)); now rewrite !list_lookup_insert_eq].
    intros (j & k & Hj & Hk & Hb & Hv). destruct (decide (i = j)) as [<-|Hne]; [rewrite list_lookup_insert_eq in Hj; congruence|].
    rewrite list_lookup_insert_ne in Hj by done. rewrite list_lookup_insert_ne in Hk by done.
    destruct (live_key m j _ k tr Hm Hj Hk Htr Hb) as (_ & _ & Hi). exfalso. apply Hne. apply Nat2Z.inj. congruence.
  - rewrite find_id_spec by done. split; intros (j & k & Hj & Hk & Hb & Hv); exists j, k; (destruct (decide (i = j)) as [<-|Hj']; [|revert Hj Hk; rewrite !list_lookup_insert_ne by done; done]).
    + rewrite list_lookup_insert_eq in Hk by done. injection Hk as <-. cbn in *. congruence.
    + congruence.
Qed.

Lemma find_taken tr tr' m i k o id id' : types tr -> types tr' -> map_ok m -> vec_data m !! i = Some (Some o) -> vec_keys m !! i = Some k ->
  m_base k = type_id tr -> m_value k = id -> is_word 32 id' ->
  find_id same tr' (Map (<[i := None]> (vec_data m)) (alter clear_key i (vec_keys m)) (highest_index m)) id' =
  if decide ((type_id tr', id') = (type_id tr, id)) then None else find_id same tr' m id'.
Proof.
  intros Htr Htr' Hm Hd Hk Hb Hv Hid. pose proof (lookup_lt_Some _ _ _ Hd) as Hl. pose proof (take_ok m i Hm) as Hm'.
  apply option_eq. intros o'. rewrite find_id_spec by done. cbn. case_decide as Hdec.
  - injection Hdec as Ht ->. assert (tr' = tr) as -> by now apply (ty_inj _ _ _ Hty).
    split; [|done]. intros (j & k' & Hj & Hk' & Hb' & Hv'). destruct (decide (i = j)) as [<-|Hne]; [rewrite list_lookup_insert_eq in Hj; congruence|].
    rewrite list_lookup_insert_ne in Hj by done. rewrite list_lookup_alter_ne in Hk' by done.
    destruct Hne. exact (live_inj tr m i j o o' k k' Htr Hm Hd Hj Hk Hk' Hb Hb' ltac:(congruence)).
  - rewrite find_id_spec by done. split; intros (j & k' & Hj & Hk' & Hb' & Hv'); exists j, k';
      (destruct (decide (i = j)) as [<-|Hj']; [|revert Hj Hk'; rewrite list_lookup_insert_ne, list_lookup_alter_ne by done; done]).
    + rewrite list_lookup_insert_eq in Hj by done. done.
    + congruence.
Qed.

(** ** The operations *)

Definition represents m (g : gmap (Z * Z) O) : Prop :=
  forall tr id, types tr -> g !! (type_id tr, id) = if decide (is_word 32 id) then find_id same tr m id else None.

Lemma full_size m g : map_ok m -> represents m g -> (forall i, (i < Z.to_nat n)%nat -> exists o, vec_data m !! i = Some (Some o)) ->
  (Z.to_nat n <= size g)%nat.
Proof.
  intros Hm Hg Hfull. set (name k := (m_base k, m_value k)).
  assert (forall i k, vec_keys m !! i = Some k -> exists o tr, vec_data m !! i = Some (Some o) /\ types tr /\ m_base k = type_id tr) as Hkey.
  { intros i k Hk. destruct (Hfull i) as [o Hd]; [rewrite <- (map_keys _ Hm); eapply lookup_lt_Some; eassumption|].
    destruct (map_live _ Hm _ _ Hd) as (tr & k' & ? & Hk' & ? & _). simplify_eq. eauto. }
  assert (NoDup (name <$> vec_keys m)) as Hnd.
  { apply NoDup_alt. intros i j x (ki & -> & Hi)%list_lookup_fmap_Some (kj & Hv & Hj)%list_lookup_fmap_Some. injection Hv as Hbe Hve.
    destruct (Hkey _ _ Hi) as (oi & tr & Hdi & Htr & Hb). destruct (Hkey _ _ Hj) as (oj & _ & Hdj & _).
    exact (live_inj tr m i j oi oj ki kj Htr Hm Hdi Hdj Hi Hj Hb ltac:(congruence) ltac:(congruence)). }
  rewrite <- size_dom, <- (map_keys _ Hm), <- (length_fmap name), <- (size_list_to_set (C := gset (Z * Z))) by done. apply subseteq_size.
  intros x (i & (k & -> & Hk)%list_lookup_fmap_Some)%elem_of_list_to_set%list_elem_of_lookup. apply elem_of_dom.
  destruct (Hkey _ _ Hk) as (o & tr & Hd & Htr & Hb). exists o. unfold name. rewrite Hb, Hg by done.
  destruct (live_key m i o k tr Hm Hd Hk Htr Hb) as (_ & Hw & _). rewrite decide_True by done. apply find_id_spec; [done..|]. now exists i, k.
Qed.

Lemma represents_find m m' g : (forall tr id, types tr -> is_word 32 id -> find_id same tr m' id = find_id same tr m id) -> represents m g -> represents m' g.
Proof. intros H Hg tr id Htr. rewrite Hg by done. case_decide; [|done]. now rewrite H. Qed.

Definition op_ok (o : op O W) : Prop :=
  match o with
  | Create tr p dst_id => types tr /\ is_word 32 dst_id /\ (dst_id = invalid_id tr \/ get_index tr dst_id < count tr) /\ forall id w, is_Some (p id w)
  | Withdraw tr id _ | Find tr id => types tr /\ is_word 32 id
  | Clear => True
  end.

Abbreviation simulated o m g w := (exists r m' w' g', exec same o m w = Some (r, m', w') /\ map_ok m' /\ represents m' g' /\ spec_step n o g w r g' w').

Lemma create_simulated tr (p : Z -> W -> option (option O * W)) dst_id m g w : map_ok m -> represents m g -> op_ok (Create tr p dst_id) -> simulated (Create tr p dst_id) m g w.
Proof.
  intros Hm Hg (Htr & Hw & Hdst & Hrun). destruct (allocate_spec tr m dst_id Htr Hm Hw Hdst) as (r & keys & h & Ha & Hh & Hr). cbn [exec]. unfold create_id. rewrite Ha. cbn.
  destruct r as [[i id]|].
  - destruct Hr as (Hal & Hi & Hid & _). pose proof Hal as (Hd & Hwi & Hx & Hkeys). destruct (Hrun id w) as [[[o|] w'] Hp]; rewrite Hp; cbn.
    + pose proof (place_ok tr m i id o keys h Htr Hm Hal Hh Hi) as Hm'. do 4 eexists. split_and!; [reflexivity|exact Hm'| |].
      2:{ apply (spec_create n tr p dst_id g w id o w'); [done| |done|]; [|destruct (Z.eq_dec dst_id (invalid_id tr)) as [->|]; auto].
          rewrite Hg, decide_True by done. apply eq_None_not_Some. intros [o' (j & k & Hj & Hk & Hb & Hv)%find_id_spec]; [|done..].
          destruct (live_key m j _ k tr Hm Hj Hk Htr Hb) as (_ & _ & Hi'). simplify_eq. rewrite Hi' in Hx. apply Nat2Z.inj in Hx. congruence. }
      intros tr' id' Htr'. rewrite lookup_insert, Hg by done. destruct (decide (is_word 32 id')) as [Hd'|Hd'].
      * rewrite (find_placed tr tr' m i id o keys h id') by done. repeat case_decide; congruence.
      * case_decide; congruence.
    + subst keys. rewrite list_insert_insert_eq. assert (map_ok (Map (vec_data m) (<[i := Key 0 umax]> (vec_keys m)) h)) as Hm' by now apply free_key_ok.
      do 4 eexists. split_and!; [reflexivity|exact Hm'| |eapply spec_create_failed; eassumption].
      eapply represents_find; [|exact Hg]. intros tr' id' Htr' Hid'. now apply find_free_key.
  - destruct Hr as [-> Hfull]. pose proof (high_ok m h Hm Hh) as Hm'. do 4 eexists. split_and!; [reflexivity|exact Hm'| |].
    + eapply represents_find; [|exact Hg]. intros tr' id' Htr' Hid'. now apply find_same_data.
    + destruct (Z.eq_dec dst_id (invalid_id tr)) as [->|Hne]; [|now apply spec_create_taken]. apply spec_create_full; [done|]. exact (full_size m g Hm Hg (Hfull eq_refl)).
Qed.

Lemma index_found tr m id o : types tr -> map_ok m -> find_id same tr m id = Some o -> get_index tr id < count tr.
Proof.
  intros Htr Hm. unfold find_id, find_index. pose proof (map_high _ Hm). pose proof (ty_count _ _ _ Hty _ Htr).
  destruct (Z.geb_spec (get_index tr id) (highest_index m)); [done|]. intros _. lia.
Qed.

Lemma withdraw_simulated tr id (func : O -> W -> bool * W) m g w : types tr -> map_ok m -> represents m g -> is_word 32 id -> simulated (Withdraw tr id func) m g w.
Proof.
  intros Htr Hm Hg Hw. pose proof (Hg tr id Htr) as Hid. rewrite decide_True in Hid by done. cbn [exec]. unfold withdraw. fold (find_id same tr m id).
  destruct (find_id same tr m id) as [o|] eqn:Hf.
  - pose proof (index_found _ _ _ _ Htr Hm Hf). destruct (Z.geb_spec (get_index tr id) (count tr)); [lia|]. destruct (func o w) as [[|] w'] eqn:Hfn.
    + do 4 eexists. split_and!; [reflexivity|done|exact Hg|]. now apply spec_refuse.
    + do 4 eexists. split_and!; [reflexivity|now apply take_ok| |now apply spec_withdraw]. pose proof Hf as (i & k & Hd & Hk & Hb & Hv)%find_id_spec; [|done..].
      assert (Z.to_nat (get_index tr id) = i) as ->. { destruct (live_key m i _ k tr Hm Hd Hk Htr Hb) as (_ & _ & Hx). rewrite <- Hv. lia. }
      intros tr' id' Htr'. rewrite lookup_delete, Hg by done. destruct (decide (is_word 32 id')) as [Hd'|Hd'].
      * rewrite (find_taken tr tr' m i k o id id') by done. repeat case_decide; congruence.
      * case_decide; congruence.
  - destruct (_ >=? _); do 4 eexists; (split_and!; [reflexivity|done|exact Hg|]); now apply spec_unknown.
Qed.

Lemma clear_represents m : map_ok m -> represents (clear_all m) ∅.
Proof.
  intros Hm tr id Htr. rewrite lookup_empty. case_decide as Hd; [|done]. symmetry. apply eq_None_not_Some.
  intros [o (i & k & Hi & _)%find_id_spec]; [|done|now apply clear_all_ok|done]. cbn in Hi. rewrite list_lookup_fmap in Hi. now destruct (vec_data m !! i).
Qed.

Lemma exec_simulated o m g w : map_ok m -> represents m g -> op_ok o -> simulated o m g w.
Proof.
  intros Hm Hg Ho. destruct o as [tr p dst_id|tr id func|tr id|].
  - now apply create_simulated.
  - destruct Ho. now apply withdraw_simulated.
  - do 4 eexists. split_and!; [reflexivity|done|exact Hg|]. destruct Ho as [Htr Hw]. pose proof (Hg tr id Htr) as Hid. rewrite decide_True in Hid by done. rewrite <- Hid. constructor.
  - do 4 eexists. split_and!; [reflexivity|now apply clear_all_ok|now apply clear_represents|constructor].
Qed.

Lemma empty_ok : map_ok (empty_map (Z.to_nat n)).
Proof.
  constructor; cbn; rewrite ?length_replicate; [done..| | |].
  - pose proof (ty_pos _ _ _ Hty). lia.
  - now intros i o [[=] _]%lookup_replicate.
  - intros i k [-> _]%lookup_replicate Hf. done.
Qed.
End Container.

Lemma clear_empty {O} n : clear_all (empty_map n) = empty_map (O := O) n.
Proof. unfold clear_all, empty_map. cbn. f_equal; [apply (fmap_replicate (fun _ => None))|apply (fmap_replicate clear_key)]. Qed.

(** C22: The id manager implements a finite map: from a container without
    objects, any sequence of creations (at an id the manager chooses or at a
    given one, by a provider that may fail), withdrawals (that the caller may
    refuse), lookups and clearings of objects of several types gives exactly
    the results of a map from types and ids to objects.  A new id is one that
    found nothing, a creation without a given id fails only if the provider
    does or if there are as many objects as slots, and no operation but
    [clear] disturbs another id. *)
Theorem id_map_refines {O W} types same n (os : list (op O W)) w : types_ok types same n -> Forall (op_ok types) os ->
  exists rs m w' g, exec_all same os (empty_map (Z.to_nat n)) w = Some (rs, m, w') /\
    spec_steps n os ∅ w rs g w' /\ forall tr id, types tr -> is_word 32 id -> find_id same tr m id = g !! (type_id tr, id).
Proof.
  intros Hok Hos.
  pose proof (clear_represents (O := O) types same n Hok _ (empty_ok types same n Hok)) as Hg. rewrite clear_empty in Hg.
  pose proof (empty_ok (O := O) types same n Hok) as Hm. revert Hm Hg. generalize (empty_map (O := O) (Z.to_nat n)), (∅ : gmap (Z * Z) O).
  revert w. induction Hos as [|o os Ho Hos IH]; intros w m g Hm Hg.
  - exists [], m, w, g. split_and!; [done|constructor|]. intros tr id Htr Hid. now rewrite Hg, decide_True.
  - destruct (exec_simulated types same n Hok o m g w Hm Hg Ho) as (r & m' & w' & g' & He & Hm' & Hg' & Hs).
    destruct (IH w' m' g' Hm' Hg') as (rs & m'' & w'' & g'' & He' & Hs' & Hf). exists (r :: rs), m'', w'', g''. cbn. rewrite He. cbn. rewrite He'.
    split_and!; [done|econstructor; eassumption|done].
Qed.

(** ** Ids that were withdrawn *)

Section Stale.
Context {O W : Type} (types : id_traits -> Prop) (same : bool) (n : Z) (Hty : types_ok types same n).
Context (tr : id_traits) (Htr : types tr) (Hcounter : forall tr', types tr' -> invl_first tr' = invl_first tr /\ invl_second tr' = invl_second tr).
Implicit Types (m : id_map O).

(** The counter of an id. *)
Definition counter (id : Z) : Z := Z.land (Z.shiftr id (invl_first tr)) (Z.ones (invl_second tr)).

Let Hok : traits_ok tr := ty_ok _ _ _ Hty tr Htr.

Lemma counter_mod id : counter id = (id / 2 ^ invl_first tr) mod 2 ^ invl_second tr.
Proof. pose proof (ok_first _ Hok). pose proof (ok_second _ Hok). unfold counter. now rewrite Z.land_ones, Z.shiftr_div_pow2 by lia. Qed.

Lemma counter_next tr' i k : types tr' -> Z.of_nat i < n -> counter (next_id tr' i k) = (counter (m_value k) + 1) mod 2 ^ invl_second tr.
Proof.
  intros Htr' Hi. pose proof (ok_first _ Hok) as Hf. pose proof (ok_second _ Hok). pose proof (ok_width _ Hok).
  pose proof (ty_ok _ _ _ Hty tr' Htr') as Hok'. rewrite <- (ty_count _ _ _ Hty tr' Htr') in Hi. destruct (Hcounter tr' Htr') as [Hf' Hs'].
  transitivity (counter (m_value k + 1 * 2 ^ invl_first tr)).
  - rewrite (next_id_eq tr' Hok'). unfold counter. apply Z.bits_inj'. intros j Hj. rewrite !Z.land_spec, Z.testbit_ones by lia.
    destruct (Z.ltb_spec j (invl_second tr)); [|now rewrite !andb_false_r]. rewrite !Z.shiftr_spec, Z.lor_spec, Z.land_spec, testbit_wrap, (mask_bit tr' Hok') by lia.
    rewrite Hf', Hs', Z.shiftl_mul_pow2 by lia. pose proof (slot_bit tr' Hok' (Z.of_nat i) (j + invl_first tr) ltac:(lia) ltac:(lia)) as Hs. rewrite (mask_bit tr' Hok'), Hf', Hs' in Hs by lia.
    revert Hs. split_cmp; try lia. cbn. rewrite !andb_true_r. now intros ->.
  - rewrite !counter_mod, Z.div_add by (apply Z.pow_nonzero; lia). now rewrite Z.add_mod_idemp_l by (apply Z.pow_nonzero; lia).
Qed.

(** The operations counted: creations at an id of the manager's choice, by
    providers that do not fail. *)
Definition chosen (o : op O W) : Prop :=
  match o with
  | Create tr' p dst_id => types tr' /\ dst_id = invalid_id tr' /\ forall id w, exists o w', p id w = Some (Some o, w')
  | Withdraw tr' id _ | Find tr' id => types tr'
  | Clear => True
  end.

(** The slot [i] since the object with the id [v] left it: [c] objects later. *)
Definition left_slot (i : nat) (v c : Z) m : Prop :=
  map_ok types n m /\ Z.of_nat i < highest_index m /\ 0 <= c /\
  exists k, vec_keys m !! i = Some k /\ counter (m_value k) = (counter v + c) mod 2 ^ invl_second tr /\ (c = 0 -> vec_data m !! i = Some None).

Lemma creation_left_slot i v c tr' p dst_id m w r m' w' : left_slot i v c m -> chosen (Create tr' p dst_id) ->
  exec same (Create tr' p dst_id) m w = Some (r, m', w') -> exists c', c <= c' <= c + 1 /\ left_slot i v c' m'.
Proof.
  intros (Hm & Hh & Hn & k & Hk & Hc & Hd) (Htr' & -> & Hp) He.
  assert (is_word 32 (invalid_id tr')) as Hw by (unfold invalid_id; destruct (base tr' =? 0); done).
  destruct (allocate_spec types same n Hty tr' m (invalid_id tr') Htr' Hm Hw) as (res & keys & h & Ha & Hhh & Hr); [now left|].
  cbn [exec] in He. unfold create_id in He. rewrite Ha in He. cbn in He. destruct res as [[j id]|]; cbn in He.
  - destruct Hr as (Hal & Hj & _ & Hnext). pose proof Hal as (Hdj & _ & _ & Hkeys). destruct (Hp id w) as (o & w2 & Hpw). rewrite Hpw in He. cbn in He.
    injection He as <- <- <-. pose proof (place_ok types n tr' m j id o keys h Htr' Hm Hal Hhh Hj) as Hm'. subst keys. destruct (decide (i = j)) as [<-|Hne].
    + destruct (Hnext eq_refl Hh) as (k' & Hk' & ->). rewrite Hk in Hk'. injection Hk' as <-. exists (c + 1). split; [lia|]. split_and!; [done|cbn; lia|lia|].
      exists (Key (next_id tr' i k) (type_id tr')). pose proof (lookup_lt_Some _ _ _ Hk). cbn. rewrite list_lookup_insert_eq by done. split_and!; [done| |lia].
      rewrite counter_next, Hc, Zplus_mod_idemp_l by (done || lia). f_equal. lia.
    + exists c. split; [lia|]. split_and!; [done|cbn; lia|lia|]. exists k. cbn. now rewrite !list_lookup_insert_ne by done.
  - destruct Hr as [-> _]. injection He as <- <- <-. exists c. split; [lia|]. split_and!; [now apply high_ok|cbn; lia|lia|]. now exists k.
Qed.

Lemma withdrawal_left_slot i v c tr' id (func : O -> W -> bool * W) m w r m' w' : left_slot i v c m ->
  exec same (Withdraw tr' id func) m w = Some (r, m', w') -> left_slot i v c m'.
Proof.
  intros Hl He. pose proof Hl as (Hm & Hh & Hn & k & Hk & Hc & Hd). cbn [exec] in He. unfold withdraw in He. destruct (_ >=? _); [now injection He as <- <- <-|].
  destruct (find_index _ _ _ _ _) as [o|]; [|now injection He as <- <- <-]. destruct (func o w) as [[|] w2]; injection He as <- <- <-; [done|].
  split_and!; [now apply take_ok|done|done|]. set (j := Z.to_nat _). destruct (decide (i = j)) as [<-|Hne]; cbn.
  - exists (clear_key k). rewrite list_lookup_alter_eq, Hk. split_and!; [done|done|]. intros _.
    rewrite list_lookup_insert_eq; [done|]. rewrite (map_data _ _ _ Hm), <- (map_keys _ _ _ Hm). eapply lookup_lt_Some; eassumption.
  - exists k. now rewrite list_lookup_alter_ne, list_lookup_insert_ne by done.
Qed.

Lemma clearing_left_slot i v c m : left_slot i v c m -> left_slot i v c (clear_all m).
Proof.
  intros (Hm & Hh & Hn & k & Hk & Hc & Hd). split_and!; [now apply clear_all_ok|done|done|]. exists (clear_key k). cbn. rewrite !list_lookup_fmap, Hk. split_and!; [done..|].
  intros H. now rewrite Hd.
Qed.

Definition creates (o : op O W) : bool := match o with Create _ _ _ => true | _ => false end.

Definition creations (os : list (op O W)) : Z := Z.of_nat (length (List.filter creates os)).

Lemma exec_all_left_slot i v os : forall c m w rs m' w', Forall chosen os -> left_slot i v c m ->
  exec_all same os m w = Some (rs, m', w') -> exists c', c <= c' <= c + creations os /\ left_slot i v c' m'.
Proof.
  unfold creations. induction os as [|o os IH]; intros c m w rs m' w' Hos Hl He.
  - injection He as <- <- <-. exists c. cbn. split; [lia|done].
  - apply Forall_cons in Hos as [Ho Hos]. cbn [exec_all] in He. destruct (exec same o m w) as [[[r m1] w1]|] eqn:He1; [|done]. cbn in He.
    destruct (exec_all same os m1 w1) as [[[rs1 m2] w2]|] eqn:He2; [|done]. injection He as <- <- <-.
    assert (exists c1, c <= c1 <= c + Z.b2z (creates o) /\ left_slot i v c1 m1) as (c1 & Hc1 & Hl1).
    { destruct o; cbn [creates Z.b2z].
      - eapply creation_left_slot; eassumption.
      - exists c. split; [lia|]. eapply withdrawal_left_slot; eassumption.
      - injection He1 as <- <- <-. exists c. split; [lia|done].
      - injection He1 as <- <- <-. exists c. split; [lia|]. now apply clearing_left_slot. }
    destruct (IH c1 m1 w1 rs1 m2 w2 Hos Hl1 He2) as (c2 & Hc2 & Hl2). exists c2. split; [|done]. cbn [List.filter]. destruct (creates o); cbn [Z.b2z length] in *; lia.
Qed.

Lemma withdrawn_left_slot m id func w o m1 w1 : map_ok types n m -> is_word 32 id -> withdraw same tr id func m w = (Some o, false, m1, w1 : W) ->
  left_slot (Z.to_nat (get_index tr id)) id 0 m1.
Proof.
  intros Hm Hid. unfold withdraw. fold (find_id same tr m id). destruct (_ >=? _); [done|]. destruct (find_id same tr m id) as [o'|] eqn:Hf; [|done].
  destruct (func o' w) as [[|] w2]; intros [= -> <- <-]. apply (find_id_spec types same n Hty) in Hf as (i & k & Hd & Hk & Hb & <-); [|done..].
  destruct (live_key types same n Hty m i o k tr Hm Hd Hk Htr Hb) as (Hh & _ & Hi). rewrite Hi, Nat2Z.id.
  split_and!; [now apply take_ok|done|done|]. exists (clear_key k). cbn. rewrite list_lookup_alter_eq, Hk. split_and!; [done| |].
  - rewrite Z.add_0_r, (counter_mod (m_value k)), Z.mod_mod; [done|]. pose proof (ok_second _ Hok). apply Z.pow_nonzero; lia.
  - intros _. apply list_lookup_insert_eq. eapply lookup_lt_Some; eassumption.
Qed.

Lemma left_slot_not_found i v c m : left_slot i v c m -> is_word 32 v -> get_index tr v = Z.of_nat i -> c < 2 ^ invl_second tr -> find_id same tr m v = None.
Proof.
  intros (Hm & Hh & Hn & k & Hk & Hc & Hd) Hv Hi Hlt. apply eq_None_not_Some. intros [o Hf].
  apply (find_id_spec types same n Hty) in Hf as (j & k' & Hj & Hk' & Hb & Hv'); [|done..].
  destruct (live_key types same n Hty m j o k' tr Hm Hj Hk' Htr Hb) as (_ & _ & Hx). assert (j = i) as -> by (apply Nat2Z.inj; congruence).
  rewrite Hk in Hk'. injection Hk' as <-. rewrite Hv', (counter_mod v) in Hc. pose proof (ok_second _ Hok) as Hs.
  assert (0 < 2 ^ invl_second tr) by (apply Z.pow_pos_nonneg; lia). set (e := v / _) in Hc. set (q := 2 ^ invl_second tr) in *.
  pose proof (Z.mod_pos_bound e q ltac:(lia)) as Hbd. assert (c = 0) as Hn0.
  { destruct (Z.ltb_spec (e mod q + c) q); [rewrite (Z.mod_small (e mod q + c) q) in Hc by lia; lia|].
    rewrite <- (Z_mod_plus_full (e mod q + c) (-1) q), (Z.mod_small (e mod q + c + -1 * q)) in Hc by lia. lia. }
  rewrite Hd in Hj by done. done.
Qed.
End Stale.

(** C23: An id that was withdrawn finds nothing until at least [2 ^ b] objects
    were created since, [b] being the width of the counters (256 for the
    objects of the kernel), through any creations at ids the manager chooses
    by providers that succeed, withdrawals, lookups and clearings, of objects
    of any type: the objects that have its slot later have other counters or
    another type. *)
Theorem stale_id_not_found {O W} types same n tr (m m1 m2 : id_map O) id func (w w1 w2 : W) o os rs :
  types_ok types same n -> types tr -> (forall tr', types tr' -> invl_first tr' = invl_first tr /\ invl_second tr' = invl_second tr) ->
  map_ok types n m -> is_word 32 id -> withdraw same tr id func m w = (Some o, false, m1, w1) ->
  Forall (chosen types) os -> exec_all same os m1 w1 = Some (rs, m2, w2) -> creations os < 2 ^ invl_second tr -> find_id same tr m2 id = None.
Proof.
  intros Hty Htr Hcnt Hm Hid Hw Hos He Hc. pose proof (ty_ok _ _ _ Hty tr Htr) as Hok.
  pose proof (withdrawn_left_slot types same n Hty tr Htr m id func w o m1 w1 Hm Hid Hw) as Hl.
  destruct (exec_all_left_slot types same n Hty tr Htr Hcnt _ id os 0 m1 w1 rs m2 w2 Hos Hl He) as (c & Hc' & Hl').
  eapply (left_slot_not_found types same n Hty tr Htr); [exact Hl'|done|pose proof (get_index_nonneg tr Hok id); lia|lia].
Qed.

(** ** Concrete containers *)

(** The types of the objects of the kernel: they share the slots, the step and
    the counter, and have different bases. *)
Definition lv2_bases : list Z := [0x85000000; 0x86000000; 0x88000000; 0x8d000000; 0x96000000; 0x98000000; 0x08000000].

Definition lv2_types (tr : id_traits) : Prop := exists b, b ∈ lv2_bases /\ tr = lv2_traits b.

Lemma lv2_traits_ok b : b ∈ lv2_bases -> traits_ok (lv2_traits b).
Proof.
  intros Hb. assert (b mod 256 = 0 /\ 0 < b < 0xf0000000) as [Hm Hr] by (unfold lv2_bases in Hb; set_unfold; naive_solver).
  constructor; cbn; try (unfold umax; lia).
  - destruct (Z.eqb_spec b 0); lia.
  - intros i Hi. change (Z.land (b + 256 * i) (2 ^ 8 - 1) = 0). rewrite land_pow2m1 by lia. word_lia.
Qed.

Lemma lv2_types_ok : types_ok lv2_types false 8192.
Proof.
  constructor; [done|..].
  - intros tr (b & Hb & ->). now apply lv2_traits_ok.
  - now intros tr (b & Hb & ->).
  - intros tr tr' (b & Hb & ->) (b' & Hb' & ->). cbn. congruence.
  - done.
Qed.

(** The provider of the examples makes the given object. *)
Definition makes (x : nat) : Z -> unit -> option (option nat * unit) := fun _ w => Some (Some x, w).

Definition fails : Z -> unit -> option (option nat * unit) := fun _ w => Some (None, w).

Definition accepts : nat -> unit -> bool * unit := fun _ w => (false, w).

Definition mutex_t : id_traits := lv2_traits 0x85000000.
Definition cond_t : id_traits := lv2_traits 0x86000000.

Lemma mutex_t_ok : lv2_types mutex_t.
Proof. exists 0x85000000. split; [apply list_elem_of_here|done]. Qed.

Lemma cond_t_ok : lv2_types cond_t.
Proof. exists 0x86000000. split; [apply list_elem_of_further, list_elem_of_here|done]. Qed.

(** The id of a mutex finds no condition variable, not even in its slot. *)
Definition lv2_ops : list (op nat unit) :=
  [Create mutex_t (makes 1) 0; Create cond_t (makes 2) 0; Find cond_t 0x86000100; Find mutex_t 0x85000100;
   Withdraw mutex_t 0x85000000 accepts; Create mutex_t fails 0; Find mutex_t 0x85000000].

Lemma id_map_refines_witness :
  (fst ∘ fst) <$> exec_all false lv2_ops (empty_map (Z.to_nat 8192)) tt =
    Some [Created (Some 0x85000000); Created (Some 0x86000100); Found (Some 2%nat) false; Found None false; Found (Some 1%nat) false; Created None; Found None false] /\
  exists rs m w' g, exec_all false lv2_ops (empty_map (Z.to_nat 8192)) tt = Some (rs, m, w') /\
    spec_steps 8192 lv2_ops ∅ tt rs g w' /\ forall tr id, lv2_types tr -> is_word 32 id -> find_id false tr m id = g !! (type_id tr, id).
Proof.
  split; [vm_compute; reflexivity|]. apply (id_map_refines lv2_types false 8192 lv2_ops tt lv2_types_ok).
  unfold lv2_ops. rewrite !Forall_cons. cbn. unfold is_word, makes, fails.
  split_and!; try (exact mutex_t_ok || exact cond_t_ok || lia || (now left) || done); constructor.
Defined.

(** A container of one slot. *)
Definition one_slot : id_traits := Traits 0x100 0x100 1 false 0 8 0x100.

Lemma one_slot_ok : types_ok (eq one_slot) true 1.
Proof.
  constructor; [done|..].
  - intros tr <-. constructor; cbn; try (unfold umax; lia). intros i Hi. assert (i = 0) as -> by lia. reflexivity.
  - now intros tr <-.
  - now intros tr tr' <- <-.
  - now intros tr tr' _ <- <-.
Qed.

(** A creation whose provider fails resets the key of the slot, counter
    included: the next object gets an id that was in use before, and the stale
    id finds it. *)
Lemma failed_creation_loses_counter :
  (fst ∘ fst) <$> exec_all true
    [Create one_slot (makes 1) 0; Withdraw one_slot 0x100 accepts; Create one_slot (makes 2) 0; Withdraw one_slot 0x101 accepts;
     Create one_slot fails 0; Create one_slot (makes 3) 0; Find one_slot 0x101] (empty_map 1) tt =
    Some [Created (Some 0x100); Found (Some 1%nat) false; Created (Some 0x101); Found (Some 2%nat) false; Created None; Created (Some 0x101); Found (Some 3%nat) false].
Proof. reflexivity. Qed.

Definition used_slot : id_map nat := Map [Some 1%nat] [Key 0x100 0x100] 1.

Lemma used_slot_ok : map_ok (eq one_slot) 1 used_slot.
Proof.
  constructor; cbn; [done|done|lia|..].
  - intros [|i] o; cbn; [|done]. intros [= <-]. exists one_slot. eexists. split; [done|]. split; [reflexivity|]. cbn. unfold is_word.
    split_and!; [done|lia|lia|lia|reflexivity].
  - intros [|i] k; cbn; [|done]. intros [= <-] _. eauto.
Qed.

Lemma stale_id_not_found_witness :
  exists m1 m2 rs, withdraw true one_slot 0x100 accepts used_slot tt = (Some 1%nat, false, m1, tt) /\
    exec_all true [Create one_slot (makes 2) 0; Find one_slot 0x101] m1 tt = Some (rs, m2, tt) /\ rs = [Created (Some 0x101); Found (Some 2%nat) false] /\
    find_id true one_slot m2 0x100 = None.
Proof.
  do 3 eexists. split; [reflexivity|]. split; [reflexivity|]. split; [reflexivity|].
  eapply (stale_id_not_found (eq one_slot) true 1 one_slot used_slot _ _ 0x100 accepts tt tt tt 1%nat [Create one_slot (makes 2) 0; Find one_slot 0x101]);
    [exact one_slot_ok|done|now intros tr' <-|exact used_slot_ok|done|reflexivity| |reflexivity|done].
  rewrite !Forall_cons. cbn. unfold is_word, makes. split_and!; try (lia || done || constructor); eauto.
Defined.
