(* ===== verification/Lv2Queue.v ===== *)
(** * LV2 kernel: wait queues of the synchronisation objects

    The list operations of [lv2_obj] ([kernel/cellos/include/cellos/sys_sync.h]):
    a queue of sleeping threads is a list linked from the thread that came
    last.  Theorems: [schedule] takes the thread that came first, or of the
    most urgent ones the first, and [unqueue] takes one thread out.  The
    priority of a thread is fixed while it sleeps. *)
From S2P Require Import Prelude.
From Stdlib Require Import Sorted.

(** Error codes ([rpcs3/Emu/Cell/ErrorCodes.h]). *)
Definition CELL_OK : Z := 0.
Definition CELL_EAGAIN : Z := 0x80010001.
Definition CELL_EINVAL : Z := 0x80010002.
Definition CELL_ESRCH : Z := 0x80010005.
Definition CELL_EDEADLK : Z := 0x80010008.
Definition CELL_EPERM : Z := 0x80010009.
Definition CELL_EBUSY : Z := 0x8001000A.
Definition CELL_ETIMEDOUT : Z := 0x8001000B.
Definition CELL_EFAULT : Z := 0x8001000D.
Definition CELL_EKRESOURCE : Z := 0x80010011.
Definition CELL_ECANCELED : Z := 0x80010013.
Definition CELL_EEXIST : Z := 0x80010014.

(** [lv2_protocol] *)
Definition SYS_SYNC_FIFO : Z := 1.
Definition SYS_SYNC_PRIORITY : Z := 2.
Definition SYS_SYNC_PRIORITY_INHERIT : Z := 3.
Definition SYS_SYNC_RETRY : Z := 4.

(** A thread in a queue: its id and what [prio] holds, the priority (the less
    the more urgent) and the order of entering. *)
Record waiter := Waiter { w_id : Z; w_prio : Z; w_order : Z }.

#[global] Instance waiter_eq_dec : EqDecision waiter.
Proof. solve_decision. Defined.

Implicit Types (q : list waiter) (w : waiter).

(** ** The operations *)

(** [unqueue]: whether the thread was found, and the rest of the queue. *)
Fixpoint unqueue q (object : Z) : bool * list waiter :=
  match q with
  | [] => (false, [])
  | w :: q => if w_id w =? object then (true, q) else let '(found, q) := unqueue q object in (found, w :: q)
  end.

(** The position of the last thread of a queue that starts at [it]. *)
Fixpoint find_last (it : nat) q : nat :=
  match q with
  | [] => it
  | _ :: q => find_last (S it) q
  end.

(** [_prio] against the best so far. *)
Definition more_urgent (w best : waiter) : bool :=
  (w_prio w <? w_prio best) || ((w_prio w =? w_prio best) && (w_order w <? w_order best)).

(** The position of the thread to take: [found] is the best so far, [i] the
    position of the head of the rest. *)
Fixpoint find_urgent (found : nat) (best : waiter) (i : nat) q : nat :=
  match q with
  | [] => found
  | w :: q => if more_urgent w best then find_urgent i w (S i) q else find_urgent found best (S i) q
  end.

(** [schedule]; a thread with [cpu_flag::again] is returned but stays. *)
Definition schedule (again : Z -> bool) q (protocol : Z) : option waiter * list waiter :=
  match q with
  | [] => (None, [])
  | it :: rest =>
      let found := if protocol =? SYS_SYNC_FIFO then find_last 0 rest else find_urgent 0 it 1 rest in
      match q !! found with
      | None => (None, q)
      | Some w => (Some w, if again (w_id w) then q else delete found q)
      end
  end.

(** [emplace]: the thread goes to the front with the next order tag. *)
Definition emplace q (id prio tag : Z) : list waiter := Waiter id prio (tag + 1) :: q.

(** Some thread of the queue is marked [cpu_flag::again]. *)
Definition any_again (again : Z -> bool) q : bool := existsb (fun w => again (w_id w)) q.

(** [while (auto cpu = schedule(queue, SYS_SYNC_FIFO))]: the threads taken,
    or [None] when the fuel does not suffice. *)
Fixpoint drain (again : Z -> bool) (fuel : nat) q (taken : list waiter) : option (list waiter) :=
  match fuel with
  | O => None
  | S fuel =>
      match schedule again q SYS_SYNC_FIFO with
      | (None, _) => Some taken
      | (Some w, q) => drain again fuel q (taken ++ [w])
      end
  end.

(** ** Well-formed queues *)

(** No thread is in twice, and the threads stand in the order of their tags,
    none above the last tag given. *)
Record queue_wf (tag : Z) q : Prop := QueueWf {
  qw_ids : NoDup (map w_id q);
  qw_orders : StronglySorted (fun w w' => w_order w' < w_order w) q;
  qw_tags : Forall (fun w => w_order w <= tag) q }.

(** [w] is to be taken before [w']. *)
Definition before (protocol : Z) (w w' : waiter) : Prop :=
  if protocol =? SYS_SYNC_FIFO then w_order w < w_order w'
  else w_prio w < w_prio w' \/ (w_prio w = w_prio w' /\ w_order w < w_order w').

(** The queue without a thread. *)
Definition without (id : Z) q : list waiter := filter (fun w => w_id w <> id) q.

(** The thread a protocol takes, and who is left. *)
Definition takes_first (protocol : Z) q (w : waiter) (rest : list waiter) : Prop :=
  w ∈ q /\ rest = without (w_id w) q /\ forall w', w' ∈ rest -> before protocol w w'.

(** ** [unqueue] and [emplace] *)

Lemma elem_of_ids w q : w ∈ q -> w_id w ∈ map w_id q.
Proof. intros H. apply list_elem_of_fmap. eauto. Qed.

(** An id names one thread of a queue. *)
Lemma ids_unique q w w' : NoDup (map w_id q) -> w ∈ q -> w' ∈ q -> w_id w = w_id w' -> w = w'.
Proof.
  induction q as [|x q IH]; [by intros _ ?%not_elem_of_nil|]. cbn. intros [Hx Hnd]%NoDup_cons Hw Hw' E.
  apply elem_of_cons in Hw as [->|Hw], Hw' as [->|Hw']; [done| | |by apply IH].
  - destruct Hx. rewrite E. by apply elem_of_ids.
  - destruct Hx. rewrite <- E. by apply elem_of_ids.
Qed.

Lemma without_cons w q id : without id (w :: q) = if w_id w =? id then without id q else w :: without id q.
Proof.
  unfold without. rewrite filter_cons. destruct (Z.eqb_spec (w_id w) id); case_decide; done.
Qed.

Lemma without_notin q id : id ∉ map w_id q -> without id q = q.
Proof.
  induction q as [|w q IH]; intros H; [done|]. cbn in H. apply not_elem_of_cons in H as [Hne H]. rewrite without_cons.
  rewrite (proj2 (Z.eqb_neq (w_id w) id)) by congruence. f_equal. by apply IH.
Qed.

Lemma unqueue_spec q id : NoDup (map w_id q) -> unqueue q id = (bool_decide (id ∈ map w_id q), without id q).
Proof.
  induction q as [|w q IH]; cbn [unqueue map]; intros Hnd; [done|]. apply NoDup_cons in Hnd as [Hw Hnd].
  rewrite without_cons. destruct (Z.eqb_spec (w_id w) id) as [<-|Hne].
  - rewrite bool_decide_true by left. by rewrite without_notin.
  - rewrite IH by done. f_equal. apply bool_decide_ext. rewrite elem_of_cons. split; [by right|]. by intros [E|H]; [congruence|].
Qed.

Lemma without_elem id q w : w ∈ without id q <-> w ∈ q /\ w_id w <> id.
Proof. unfold without. rewrite list_elem_of_filter. naive_solver. Qed.

Lemma without_ids id q x : x ∈ map w_id (without id q) <-> x ∈ map w_id q /\ x <> id.
Proof.
  rewrite !list_elem_of_fmap. split.
  - intros (w & -> & [Hw Hne]%without_elem). eauto.
  - intros [(w & -> & Hw) Hne]. exists w. split; [done|]. by apply without_elem.
Qed.

Lemma filter_wf (P : waiter -> Prop) `{!forall w, Decision (P w)} tag q : queue_wf tag q -> queue_wf tag (filter P q).
Proof.
  intros [Hnd Hs Ht]. induction q as [|w q IH]; [done|].
  cbn in Hnd. apply NoDup_cons in Hnd as [Hw Hnd]. apply StronglySorted_inv in Hs as [Hs Hf]. apply Forall_cons in Ht as [Ht1 Ht].
  specialize (IH Hnd Hs Ht). rewrite filter_cons. case_decide; [|done]. destruct IH as [H1 H2 H3]. split.
  - cbn. apply NoDup_cons. split; [|done]. intros (w' & E & Hw')%list_elem_of_fmap. apply list_elem_of_filter in Hw' as [_ Hw'].
    destruct Hw. rewrite E. by apply elem_of_ids.
  - constructor; [done|]. apply Forall_forall. intros x [_ Hx]%list_elem_of_filter. by eapply Forall_forall in Hf.
  - by constructor.
Qed.

Lemma without_wf tag id q : queue_wf tag q -> queue_wf tag (without id q).
Proof. apply filter_wf. Qed.

Lemma queue_wf_mono tag tag' q : tag <= tag' -> queue_wf tag q -> queue_wf tag' q.
Proof. intros Hle [H1 H2 H3]. split; [done..|]. eapply Forall_impl; [exact H3|]. cbn. lia. Qed.

Lemma emplace_wf tag q id prio : queue_wf tag q -> id ∉ map w_id q -> queue_wf (tag + 1) (emplace q id prio tag).
Proof.
  intros [H1 H2 H3] Hid. split; cbn.
  - by apply NoDup_cons.
  - constructor; [done|]. eapply Forall_impl; [exact H3|]. cbn. lia.
  - constructor; [cbn; lia|]. eapply Forall_impl; [exact H3|]. cbn. lia.
Qed.

Lemma without_length q w : NoDup (map w_id q) -> w ∈ q -> length q = S (length (without (w_id w) q)).
Proof.
  induction q as [|x q IH]; [by intros _ ?%not_elem_of_nil|]. cbn [map length]. intros [Hx Hnd]%NoDup_cons Hw. rewrite without_cons.
  destruct (Z.eqb_spec (w_id x) (w_id w)) as [E|E].
  - by rewrite <- E, without_notin.
  - cbn [length]. f_equal. apply IH; [done|]. apply elem_of_cons in Hw as [->|]; done.
Qed.

Lemma filter_ext_in (P Q : waiter -> Prop) `{!forall w, Decision (P w)} `{!forall w, Decision (Q w)} q :
  (forall w, w ∈ q -> P w <-> Q w) -> filter P q = filter Q q.
Proof.
  induction q as [|w q IH]; intros Hpq; [done|]. rewrite !filter_cons, IH by (intros; apply Hpq; by right).
  specialize (Hpq w ltac:(left)). repeat case_decide; try done; tauto.
Qed.

Lemma filter_ids (P : waiter -> Prop) `{!forall w, Decision (P w)} q id : id ∈ map w_id (filter P q) <-> exists w, w_id w = id /\ w ∈ q /\ P w.
Proof.
  rewrite list_elem_of_fmap. split.
  - intros (w & -> & [HP Hw]%list_elem_of_filter). by exists w.
  - intros (w & <- & Hw & HP). exists w. split; [done|]. by apply list_elem_of_filter.
Qed.

(** ** [schedule] *)

Lemma find_last_spec q it : find_last it q = (it + length q)%nat.
Proof. revert it. induction q as [|w q IH]; intros it; cbn; [lia|]. rewrite IH. lia. Qed.

Lemma more_urgent_spec w b : more_urgent w b = true <-> before SYS_SYNC_PRIORITY w b.
Proof.
  unfold more_urgent, before. cbn. destruct (Z.ltb_spec (w_prio w) (w_prio b)), (Z.eqb_spec (w_prio w) (w_prio b)), (Z.ltb_spec (w_order w) (w_order b));
    cbn; split; try done; lia.
Qed.

(** The search keeps the most urgent of the threads it has seen. *)
Lemma find_urgent_spec done_ found best q :
  done_ !! found = Some best -> (forall w, w ∈ done_ -> w = best \/ before SYS_SYNC_PRIORITY best w) ->
  StronglySorted (fun w w' => w_order w' < w_order w) (done_ ++ q) ->
  exists w, (done_ ++ q) !! find_urgent found best (length done_) q = Some w /\
    forall w', w' ∈ done_ ++ q -> w' = w \/ before SYS_SYNC_PRIORITY w w'.
Proof.
  revert done_ found best. induction q as [|x q IH]; intros d f b Hf Hb Hs; cbn.
  - exists b. rewrite app_nil_r. done.
  - rewrite (cons_middle x d q), (app_assoc d) in Hs |- *.
    assert (w_order x < w_order b) as Ho.
    { apply list_elem_of_lookup_2 in Hf. clear -Hf Hs. rewrite <- app_assoc in Hs. induction d as [|y d IHd]; [by apply not_elem_of_nil in Hf|].
      cbn in Hs. apply StronglySorted_inv in Hs as [Hs Hy]. apply elem_of_cons in Hf as [->|Hf]; [|by apply IHd].
      eapply Forall_forall in Hy; [exact Hy|]. set_solver. }
    assert (length (d ++ [x]) = S (length d)) as <- by (rewrite length_app; cbn; lia).
    pose proof (more_urgent_spec x b) as Hm. destruct (more_urgent x b); apply IH; try done.
    + by rewrite lookup_app_r, Nat.sub_diag by lia.
    + apply proj1 in Hm. specialize (Hm eq_refl). intros w [Hw|Hw%list_elem_of_singleton]%elem_of_app; [|by left]. right. destruct (Hb w Hw) as [->|Hbw]; [done|].
      unfold before in *. cbn in *. lia.
    + by apply lookup_app_l_Some.
    + intros w [Hw|Hw%list_elem_of_singleton]%elem_of_app; [by apply Hb|]. subst w. right.
      assert (~ before SYS_SYNC_PRIORITY x b) as Hn by (rewrite <- Hm; done). unfold before in *. cbn in *. lia.
Qed.

Lemma delete_without q i w : NoDup (map w_id q) -> q !! i = Some w -> delete i q = without (w_id w) q.
Proof.
  revert i. induction q as [|x q IH]; intros i Hnd Hi; [done|]. cbn in Hnd. apply NoDup_cons in Hnd as [Hx Hnd].
  destruct i as [|i]; cbn in Hi.
  - simplify_eq. rewrite without_cons, Z.eqb_refl. by rewrite without_notin.
  - rewrite without_cons. rewrite (proj2 (Z.eqb_neq (w_id x) (w_id w))).
    + change (delete (S i) (x :: q)) with (x :: delete i q). f_equal. by apply IH.
    + intros E. apply Hx. rewrite E. by eapply elem_of_ids, list_elem_of_lookup_2.
Qed.

Lemma before_without protocol q w : NoDup (map w_id q) -> (forall w', w' ∈ q -> w' = w \/ before protocol w w') ->
  forall w', w' ∈ without (w_id w) q -> before protocol w w'.
Proof. intros Hnd H w' [Hw Hne]%without_elem. destruct (H w' Hw) as [->|]; done. Qed.

(** [schedule] names the thread to take, and takes it unless it is marked. *)
Lemma schedule_spec again tag q protocol : queue_wf tag q -> q <> [] ->
  exists w rest, schedule again q protocol = (Some w, if again (w_id w) then q else rest) /\ takes_first protocol q w rest.
Proof.
  intros [Hnd Hs Ht] Hne. destruct q as [|it rest]; [done|]. unfold schedule. set (q := it :: rest) in *.
  set (found := if protocol =? SYS_SYNC_FIFO then _ else _).
  assert (exists w, q !! found = Some w /\ forall w', w' ∈ q -> w' = w \/ before protocol w w') as (w & Hw & Hb).
  { subst found. unfold before. destruct (Z.eqb_spec protocol SYS_SYNC_FIFO) as [E|E].
    - destruct (exists_last Hne) as (l & w & Hl). exists w. rewrite find_last_spec. cbn [Nat.add].
      assert (length rest = length l) as -> by (apply (f_equal length) in Hl; rewrite length_app in Hl; cbn in Hl; lia).
      rewrite Hl. split; [by rewrite lookup_app_r, Nat.sub_diag by lia|].
      intros w' [H|H%list_elem_of_singleton]%elem_of_app; [|by left]. right.
      rewrite Hl in Hs. clear -H Hs. induction l as [|y l IH]; [by apply not_elem_of_nil in H|].
      cbn in Hs. apply StronglySorted_inv in Hs as [Hs Hy]. apply elem_of_cons in H as [->|H]; [|by apply IH].
      eapply Forall_forall in Hy; [exact Hy|]. set_solver.
    - destruct (find_urgent_spec [it] 0 it rest) as (w & Hw & Hb); [done|by intros w ->%list_elem_of_singleton; left|done|].
      exists w. split; [exact Hw|]. intros w' H. destruct (Hb w' H) as [|Hbw]; [by left|right]. exact Hbw. }
  rewrite Hw. exists w, (delete found q). split; [done|].
  split; [by eapply list_elem_of_lookup_2|]. split; [by apply delete_without|].
  intros w'. rewrite (delete_without q found w) by done. by apply before_without.
Qed.

Lemma schedule_unmarked again tag q protocol : queue_wf tag q -> (forall w, w ∈ q -> again (w_id w) = false) -> q <> [] ->
  exists w rest, schedule again q protocol = (Some w, rest) /\ takes_first protocol q w rest.
Proof.
  intros Hq Ha Hne. destruct (schedule_spec again tag q protocol Hq Hne) as (w & rest & -> & Hf). exists w, rest.
  split; [|done]. by rewrite Ha by apply Hf.
Qed.

(** A protocol names one thread. *)
Lemma takes_first_unique protocol q w1 r1 w2 r2 : takes_first protocol q w1 r1 -> takes_first protocol q w2 r2 ->
  w_id w1 = w_id w2.
Proof.
  intros (H1 & -> & B1) (H2 & -> & B2). destruct (Z.eq_dec (w_id w1) (w_id w2)) as [|Hne]; [done|].
  assert (before protocol w1 w2) as Hb1 by (apply B1, without_elem; split; [done|congruence]).
  assert (before protocol w2 w1) as Hb2 by (apply B2, without_elem; done).
  unfold before in *. destruct (_ =? _); lia.
Qed.

(** Taking several threads, one after the other. *)
Inductive takes (protocol : Z) : list waiter -> list waiter -> list waiter -> Prop :=
| takes_none q : takes protocol q [] q
| takes_some q w rest ws q' : takes_first protocol q w rest -> takes protocol rest ws q' -> takes protocol q (w :: ws) q'.

Lemma takes_first_wf tag protocol q w rest : queue_wf tag q -> takes_first protocol q w rest ->
  queue_wf tag rest /\ length q = S (length rest).
Proof. intros H (Hw & -> & _). split; [by apply without_wf|]. apply without_length; [apply H|done]. Qed.

Lemma takes_wf tag protocol q ws q' : queue_wf tag q -> takes protocol q ws q' ->
  queue_wf tag q' /\ length q = (length ws + length q')%nat.
Proof.
  intros Hq. induction 1 as [|q w rest ws q' Hf Ht IH]; [done|].
  destruct (takes_first_wf tag protocol q w rest Hq Hf) as [H1 H2]. destruct (IH H1). split; [done|]. cbn. lia.
Qed.

Lemma takes_left protocol q ws q' w : takes protocol q ws q' -> w ∈ q' -> w ∈ q.
Proof. induction 1 as [|q w0 rest ws q' (_ & -> & _) Ht IH]; [done|]. intros H. by apply IH, without_elem in H as [H _]. Qed.

Lemma takes_taken protocol q ws q' w : takes protocol q ws q' -> w ∈ ws -> w ∈ q.
Proof.
  induction 1 as [|q w0 rest ws q' (H0 & -> & _) Ht IH]; [by intros ?%not_elem_of_nil|].
  intros [->|H]%elem_of_cons; [done|]. by apply IH, without_elem in H as [H _].
Qed.

Lemma takes_split protocol q ws q' w : takes protocol q ws q' -> w ∈ q -> w_id w ∈ map w_id ws \/ w ∈ q'.
Proof.
  induction 1 as [|q w0 rest ws q' (H0 & -> & _) Ht IH]; [by right|]. intros Hw.
  destruct (Z.eq_dec (w_id w) (w_id w0)) as [E|E]; [left; cbn; rewrite E; left|].
  destruct IH as [H|H]; [by apply without_elem|left; by right|by right].
Qed.

Lemma takes_apart protocol q ws q' w : takes protocol q ws q' -> w ∈ q' -> w_id w ∉ map w_id ws.
Proof.
  induction 1 as [|q w0 rest ws q' (H0 & -> & _) Ht IH]; [by intros _ ?%not_elem_of_nil|]. intros Hw. cbn.
  apply not_elem_of_cons. split; [|by apply IH]. by apply (takes_left _ _ _ _ _ Ht), without_elem in Hw as [_ Hne].
Qed.

Lemma any_again_false again q : any_again again q = false -> forall w, w ∈ q -> again (w_id w) = false.
Proof.
  intros Hg w Hw. unfold any_again in Hg. destruct (again (w_id w)) eqn:E; [|done].
  exfalso. assert (existsb (fun w => again (w_id w)) q = true) as E2; [|congruence].
  apply existsb_exists. exists w. split; [by apply list_elem_of_In|done].
Qed.

Lemma existsb_id q id : existsb (fun w => w_id w =? id) q = bool_decide (id ∈ map w_id q).
Proof.
  apply eq_true_iff_eq. rewrite bool_decide_eq_true, existsb_exists, list_elem_of_fmap. split.
  - intros (w & Hw & E%Z.eqb_eq). exists w. split; [done|by apply list_elem_of_In].
  - intros (w & E & Hw). exists w. split; [by apply list_elem_of_In|by apply Z.eqb_eq].
Qed.

(** The ids left after taking [ws]. *)
Lemma takes_ids protocol q ws q' : takes protocol q ws q' ->
  (forall x, x ∈ map w_id q' <-> x ∈ map w_id q /\ x ∉ map w_id ws) /\ (forall x, x ∈ map w_id ws -> x ∈ map w_id q).
Proof.
  intros H. split.
  - intros x. rewrite !list_elem_of_fmap. split.
    + intros (w & -> & Hw). split; [exists w; split; [done|by eapply takes_left]|].
      intros (w' & E & Hw'). apply (takes_apart _ _ _ _ _ H Hw). rewrite E. by apply elem_of_ids.
    + intros [(w & -> & Hw) Hx]. destruct (takes_split _ _ _ _ _ H Hw) as [E|E]; [|eauto].
      destruct Hx. apply list_elem_of_fmap in E as (w' & E & Hw'). eauto.
  - intros x (w & -> & Hw)%list_elem_of_fmap. apply elem_of_ids. by eapply takes_taken.
Qed.

(** A protocol names one order. *)
Lemma takes_unique protocol tag q ws1 ws2 : queue_wf tag q -> takes protocol q ws1 [] -> takes protocol q ws2 [] -> ws1 = ws2.
Proof.
  intros Hnd H1. remember [] as q0 eqn:E0. revert Hnd ws2. induction H1 as [q|q w rest ws q' Hf Ht IH]; intros Hnd ws2 H2.
  - subst q. inversion H2 as [|? ? ? ? ? (Hin & _) _]; [done|]. by apply not_elem_of_nil in Hin.
  - inversion H2 as [|? w' rest' ws' ? Hf' Ht']; subst; [by destruct Hf as (Hin & _); apply not_elem_of_nil in Hin|].
    pose proof (takes_first_unique _ _ _ _ _ _ Hf Hf') as E. destruct Hf as (Hin & -> & _), Hf' as (Hin' & -> & _).
    rewrite <- (ids_unique q w w' (qw_ids _ _ Hnd) Hin Hin' E) in *. f_equal. apply IH; [done|by apply without_wf|done].
Qed.

(** Nobody is taken twice. *)
Lemma takes_nodup protocol q ws q' : takes protocol q ws q' -> NoDup (map w_id ws).
Proof.
  induction 1 as [|q w rest ws q' (Hw & -> & _) Ht IH]; [constructor|]. cbn. apply NoDup_cons. split; [|done].
  by intros [_ ?]%(proj2 (takes_ids _ _ _ _ Ht))%without_ids.
Qed.

(** Membership of an id after a filter or at the end of the signaled list. *)
Lemma elem_clear (x id : Z) (l : list Z) : x ∈ filter (fun y => y <> id) l <-> x ∈ l /\ x <> id.
Proof. rewrite list_elem_of_filter. tauto. Qed.

(** ** Taking the whole queue *)

Lemma drain_spec again tag q : queue_wf tag q -> (forall w, w ∈ q -> again (w_id w) = false) ->
  forall fuel taken, (length q < fuel)%nat -> exists ws, drain again fuel q taken = Some (taken ++ ws) /\ takes SYS_SYNC_FIFO q ws [].
Proof.
  intros Hq Ha fuel. revert q Hq Ha. induction fuel as [|fuel IH]; intros q Hq Ha taken Hf; [lia|]. cbn [drain].
  destruct q as [|w0 q0].
  - exists []. rewrite app_nil_r. split; [done|constructor].
  - destruct (schedule_unmarked again tag (w0 :: q0) SYS_SYNC_FIFO Hq Ha) as (w & rest & -> & Hw); [done|].
    destruct (takes_first_wf tag _ _ w rest Hq Hw) as [Hwf Hlen].
    destruct (IH rest) with (taken := taken ++ [w]) as (ws & -> & Ht); [done| |lia|].
    { intros w' Hw'. apply Ha. destruct Hw as (_ & -> & _). by apply without_elem in Hw' as [Hw' _]. }
    exists (w :: ws). rewrite <- app_assoc. split; [done|]. by econstructor.
Qed.

(** What the loop over a queue takes when it ends. *)
Lemma drain_taken again tag q : queue_wf tag q -> forall fuel taken r, drain again fuel q taken = Some r ->
  exists ws, r = taken ++ ws /\ takes SYS_SYNC_FIFO q ws [] /\ forall w, w ∈ q -> again (w_id w) = false.
Proof.
  intros Hq fuel. revert q Hq. induction fuel as [|fuel IH]; intros q Hq taken r; [done|]. cbn [drain].
  destruct q as [|w0 q0].
  - intros [= <-]. exists []. rewrite app_nil_r. split_and!; [done|constructor|by intros w ?%not_elem_of_nil].
  - destruct (schedule_spec again tag (w0 :: q0) SYS_SYNC_FIFO Hq) as (w & rest & -> & Hw); [done|].
    destruct (takes_first_wf tag _ _ w rest Hq Hw) as [Hwf Hlen]. pose proof Hw as (Hin & Hrest & _).
    destruct (again (w_id w)) eqn:Eg; intros Hd.
    + destruct (IH _ Hq _ _ Hd) as (_ & _ & _ & Ha). by rewrite (Ha w Hin) in Eg.
    + destruct (IH _ Hwf _ _ Hd) as (ws & -> & Ht & Ha). exists (w :: ws). rewrite <- app_assoc. split_and!; [done|by econstructor|].
      intros w' Hw'. destruct (Z.eq_dec (w_id w') (w_id w)) as [->|Hne]; [done|]. apply Ha. rewrite Hrest. by apply without_elem.
Qed.

(** The loops that wake a whole queue end, and take every thread in the
    order of arrival, exactly when none of them is marked [cpu_flag::again]:
    a marked thread is returned again and again.  [sys_rwlock_wunlock] looks
    for one before the loop, the timeout of [sys_rwlock_wlock] does not. *)
Theorem drain_ends again tag q : queue_wf tag q ->
  if any_again again q then forall fuel, drain again fuel q [] = None
  else exists ws, drain again (S (length q)) q [] = Some ws /\ takes SYS_SYNC_FIFO q ws [].
Proof.
  intros Hq. destruct (any_again again q) eqn:Eg.
  - intros fuel. destruct (drain again fuel q []) as [ws|] eqn:E; [|done]. destruct (drain_taken again tag q Hq _ _ _ E) as (_ & _ & _ & Ha).
    apply existsb_exists in Eg as (w & Hw & Hm). by rewrite (Ha w) in Hm by (by apply list_elem_of_In).
  - destruct (drain_spec again tag q Hq (any_again_false _ _ Eg) (S (length q)) []) as (ws & -> & Ht); [lia|]. by exists ws.
Qed.

Lemma drain_ends_witness :
  exists ws, drain (fun id => id =? 7) 3 [Waiter 2 9 2; Waiter 1 8 1] [] = Some ws /\ map w_id ws = [1; 2] /\
    takes SYS_SYNC_FIFO [Waiter 2 9 2; Waiter 1 8 1] ws [] /\
    forall fuel, drain (fun id => id =? 1) fuel [Waiter 2 9 2; Waiter 1 8 1] [] = None.
Proof.
  assert (queue_wf 2 [Waiter 2 9 2; Waiter 1 8 1]) as Hq.
  { split; [refine (bool_decide_unpack _ _); vm_compute; exact I|repeat constructor; cbn; lia..]. }
  destruct (drain_ends (fun id => id =? 7) 2 [Waiter 2 9 2; Waiter 1 8 1] Hq) as (ws & E & Ht).
  exists ws. split; [exact E|]. split; [|split; [exact Ht|]].
  - vm_compute in E. by injection E as <-.
  - apply (drain_ends (fun id => id =? 1) 2 [Waiter 2 9 2; Waiter 1 8 1] Hq).
Defined.
