(* ===== verification/Lv2Create.v ===== *)
(** * Creation and destruction of kernel objects

    [lv2_obj::create] and [on_id_destroy] of [cellos/sys_sync.h], the manager
    of inter-process keys ([rpcs3/Emu/IPC.h]), the functions [on_id_create] of
    the objects, and the system calls that create and destroy mutexes,
    condition variables, semaphores, reader-writer locks, event flags and
    shared memory, and create event queues.  All of it runs under the lock of
    the id manager.  An object is a reference (its position in the list of all
    objects ever made) shared by its ids and its key. *)
From stdpp Require Import gmap.
From S2P Require Import Prelude IdManager Lv2Queue.

Definition CELL_ENOMEM : Z := 0x80010004.

Definition SYS_SYNC_NEWLY_CREATED : Z := 1.
Definition SYS_SYNC_NOT_CREATE : Z := 2.
Definition SYS_SYNC_NOT_CARE : Z := 3.
Definition SYS_SYNC_PRIORITY_INHERIT : Z := 3.
Definition SYS_SYNC_RECURSIVE : Z := 0x10.
Definition SYS_SYNC_NOT_RECURSIVE : Z := 0x20.
Definition SYS_SYNC_PROCESS_SHARED : Z := 0x100.
Definition SYS_SYNC_NOT_PROCESS_SHARED : Z := 0x200.
Definition SYS_SYNC_WAITER_SINGLE : Z := 0x10000.
Definition SYS_SYNC_WAITER_MULTIPLE : Z := 0x20000.
Definition SYS_MMAPPER_NO_SHM_KEY : Z := 0xffff000000000000.

(** [id_base] of the types. *)
Definition mutex_base : Z := 0x85000000.
Definition cond_base : Z := 0x86000000.
Definition rwlock_base : Z := 0x88000000.
Definition queue_base : Z := 0x8d000000.
Definition sema_base : Z := 0x96000000.
Definition flag_base : Z := 0x98000000.
Definition memory_base : Z := 0x08000000.

(** What an object is made of when it is created, and the counts that decide
    whether it may be destroyed. *)
Inductive kind :=
  | Mutex (protocol recursive adaptive key name cond_count : Z)
  | Cond (key name mtx_id : Z) (mutex : nat)
  | Rwlock (protocol key name : Z)
  | EventQueue (protocol type size name key : Z)
  | Sema (protocol key name max val : Z)
  | EventFlag (protocol key type name pattern : Z)
  | Memory (size align flags key : Z) (pshared : bool) (ct : nat) (counter : Z).

(** [exists], and whether the object is in use in a way its own calls decide:
    a mutex or lock has an owner, a queue of threads is not empty, the value of
    a semaphore is negative. *)
Record lv2_obj := Obj { exists_ : Z; busy : bool; kind_of : kind }.

Definition set_exists (e : Z) (o : lv2_obj) : lv2_obj := Obj e (busy o) (kind_of o).
Definition set_busy (b : bool) (o : lv2_obj) : lv2_obj := Obj (exists_ o) b (kind_of o).
Definition set_kind (x : kind) (o : lv2_obj) : lv2_obj := Obj (exists_ o) (busy o) x.

Record container := Container { ct_size : Z; used : Z }.

(** The objects, the keys of every type, the memory containers (the first is
    the default one). *)
Record kernel := Kernel { objs : list lv2_obj; ipc : gmap (Z * Z) (option nat); cts : list container }.

Definition set_objs (l : list lv2_obj) (k : kernel) : kernel := Kernel l (ipc k) (cts k).
Definition set_ipc (i : gmap (Z * Z) (option nat)) (k : kernel) : kernel := Kernel (objs k) i (cts k).
Definition set_cts (c : list container) (k : kernel) : kernel := Kernel (objs k) (ipc k) c.
Definition alter_obj (f : lv2_obj -> lv2_obj) (r : nat) (k : kernel) : kernel := set_objs (alter f r (objs k)) k.

(** ** Memory containers *)

(** [take] and [free]: the amount, 0 on failure. *)
Definition take (amount : Z) (c : container) : Z * container :=
  if u32 (ct_size c - used c) >=? amount then (u32 amount, Container (ct_size c) (u32 (used c + u32 amount))) else (0, c).

Definition free (amount : Z) (c : container) : option container :=
  if used c >=? amount then Some (Container (ct_size c) (u32 (used c - u32 amount))) else None.

Definition take_from (ct : nat) (amount : Z) (k : kernel) : Z * kernel :=
  match cts k !! ct with
  | Some c => let '(r, c) := take amount c in (r, set_cts (<[ct := c]> (cts k)) k)
  | None => (0, k)
  end.

Definition free_to (ct : nat) (amount : Z) (k : kernel) : option kernel :=
  c ← cts k !! ct; c ← free amount c; Some (set_cts (<[ct := c]> (cts k)) k).

(** ** Inter-process keys *)

(** [ipc_manager::add]: whether the object was added, and the object.  The
    provider may crash; the null pointer it may return is stored. *)
Definition ipc_add {E} (ty key : Z) (provider : E * kernel -> option (option nat * (E * kernel))) (peek_ptr : bool) (w : E * kernel)
    : option (bool * option nat * (E * kernel)) :=
  match ipc w.2 !! (ty, key) with
  | Some (Some r) => Some (false, if peek_ptr then Some r else None, w)
  | _ =>
      '(ptr, w) ← provider w;
      let w := (w.1, set_ipc (<[(ty, key) := ptr]> (ipc w.2)) w.2) in
      match ptr with
      | Some r => Some (true, Some r, w)
      | None => Some (false, None, w)
      end
  end.

Definition ipc_get (ty key : Z) (k : kernel) : option nat := default None (ipc k !! (ty, key)).

Definition ipc_remove (ty key : Z) (k : kernel) : kernel := set_ipc (delete (ty, key) (ipc k)) k.

(** ** Creation *)

Definition add_exists (n : Z) (o : lv2_obj) : lv2_obj := set_exists (u32 (exists_ o + n)) o.

Definition add_conds (n : Z) (o : lv2_obj) : lv2_obj :=
  match kind_of o with
  | Mutex p r a key name c => set_kind (Mutex p r a key name (u32 (c + n))) o
  | _ => o
  end.

Definition check_obj (r : nat) (k : kernel) : bool :=
  match objs k !! r with Some o => negb (exists_ o =? 0) | None => false end.

(** [on_id_create] of the object's type: 0 or the error. *)
Definition on_id_create (r : nat) (k : kernel) : Z * kernel :=
  match objs k !! r with
  | Some (Obj e _ (Memory size _ _ _ _ ct _)) =>
      if negb (e =? 0) then (CELL_OK, alter_obj (add_exists 1) r k)
      else let '(taken, k) := take_from ct size k in
           if taken =? 0 then (CELL_ENOMEM, k) else (CELL_OK, alter_obj (add_exists 1) r k)
  | Some (Obj _ _ (Cond _ _ _ mutex)) =>
      let k := alter_obj (add_exists 1) r k in
      if check_obj mutex k then (CELL_OK, alter_obj (add_conds 1) mutex k) else (CELL_ESRCH, k)
  | _ => (CELL_OK, alter_obj (add_exists 1) r k)
  end.

(** [finalize_construct]: no result where the null pointer is dereferenced. *)
Definition finalize_construct (result : option nat) (w : Z * kernel) : option (option nat * (Z * kernel)) :=
  r ← result;
  let '(error, k) := on_id_create r w.2 in
  Some (if error =? 0 then Some r else None, (error, k)).

Definition make_obj (x : kind) (k : kernel) : nat * kernel := (length (objs k), set_objs (objs k ++ [Obj 0 false x]) k).

(** The function [lv2_obj::create] gives to [idm::import]. *)
Definition create_object (ty pshared ipc_key flags : Z) (x : kind) (w : Z * kernel) : option (option nat * (Z * kernel)) :=
  let '(error, k) := w in
  let '(result, k) := make_obj x k in
  if negb (pshared =? SYS_SYNC_PROCESS_SHARED) then finalize_construct (Some result) (error, k)
  else if flags =? SYS_SYNC_NOT_CREATE then
    match ipc_get ty ipc_key k with
    | None => Some (None, (CELL_ESRCH, k))
    | Some r => finalize_construct (Some r) (error, k)
    end
  else
    '(added, result, w) ← ipc_add ty ipc_key (finalize_construct (Some result)) (negb (flags =? SYS_SYNC_NEWLY_CREATED)) (error, k);
    if negb added then
      if flags =? SYS_SYNC_NEWLY_CREATED then Some (None, (CELL_EEXIST, w.2)) else finalize_construct result w
    else Some (result, w).

(** The objects with their ids. *)
Definition state : Type := kernel * id_map nat.

(** [lv2_obj::create]: the error or [CELL_OK] with the id. *)
Definition create (ty pshared ipc_key flags : Z) (x : kind) (key_not_zero : bool) (s : state) : option (Z * Z * state) :=
  let '(k, m) := s in
  if negb ((pshared =? SYS_SYNC_PROCESS_SHARED) || (pshared =? SYS_SYNC_NOT_PROCESS_SHARED)) then Some (CELL_EINVAL, 0, s)
  else if (pshared =? SYS_SYNC_PROCESS_SHARED) && key_not_zero && (ipc_key =? 0) then Some (CELL_EINVAL, 0, s)
  else if (pshared =? SYS_SYNC_PROCESS_SHARED) &&
          negb ((flags =? SYS_SYNC_NEWLY_CREATED) || (flags =? SYS_SYNC_NOT_CARE) || (flags =? SYS_SYNC_NOT_CREATE)) then Some (CELL_EINVAL, 0, s)
  else
    '(id, m, (error, k)) ← create_id (lv2_traits ty) (fun _ => create_object ty pshared ipc_key flags x) 0 m (CELL_EAGAIN, k);
    match id with
    | Some id => Some (CELL_OK, id, (k, m))
    | None => Some (error, 0, (k, m))
    end.

(** ** Destruction *)

(** [on_id_destroy]; [pshared] is the parameter of that name, if given. *)
Definition on_id_destroy (ty : Z) (r : nat) (ipc_key : Z) (pshared : option bool) (k : kernel) : kernel :=
  let shared := match pshared with Some b => b | None => negb (ipc_key =? 0) end in
  match objs k !! r with
  | Some o =>
      let k := alter_obj (add_exists (-1)) r k in
      if (exists_ o =? 1) && shared then ipc_remove ty ipc_key k else k
  | None => k
  end.

(** A function given to [idm::withdraw] returns an error code, and may fail an
    [ensure] (no result). *)
Definition destroy (ty id : Z) (check : nat -> kernel -> option (Z * kernel)) (s : state) : option (Z * state) :=
  let func r (w : option (Z * kernel)) := let w := '(_, k) ← w; check r k in (match w with Some (e, _) => negb (e =? 0) | None => true end, w) in
  let '(found, _, m, w) := withdraw false (lv2_traits ty) id func s.2 (Some (CELL_OK, s.1)) in
  '(e, k) ← w; Some (match found with Some _ => e | None => CELL_ESRCH end, (k, m)).

Definition destroy_mutex (r : nat) (k : kernel) : option (Z * kernel) :=
  match objs k !! r with
  | Some (Obj _ b (Mutex _ _ _ key _ cond_count)) =>
      if b then Some (CELL_EBUSY, k)
      else if negb (cond_count =? 0) then Some (CELL_EPERM, k)
      else Some (CELL_OK, on_id_destroy mutex_base r key None k)
  | _ => None
  end.

Definition destroy_cond (r : nat) (k : kernel) : option (Z * kernel) :=
  match objs k !! r with
  | Some (Obj _ b (Cond key _ _ mutex)) =>
      if b then Some (CELL_EBUSY, k)
      else Some (CELL_OK, on_id_destroy cond_base r key None (alter_obj (add_conds (-1)) mutex k))
  | _ => None
  end.

Definition destroy_sema (r : nat) (k : kernel) : option (Z * kernel) :=
  match objs k !! r with
  | Some (Obj _ b (Sema _ key _ _ _)) => if b then Some (CELL_EBUSY, k) else Some (CELL_OK, on_id_destroy sema_base r key None k)
  | _ => None
  end.

Definition destroy_rwlock (r : nat) (k : kernel) : option (Z * kernel) :=
  match objs k !! r with
  | Some (Obj _ b (Rwlock _ key _)) => if b then Some (CELL_EBUSY, k) else Some (CELL_OK, on_id_destroy rwlock_base r key None k)
  | _ => None
  end.

Definition destroy_flag (r : nat) (k : kernel) : option (Z * kernel) :=
  match objs k !! r with
  | Some (Obj _ b (EventFlag _ key _ _ _)) => if b then Some (CELL_EBUSY, k) else Some (CELL_OK, on_id_destroy flag_base r key None k)
  | _ => None
  end.

Definition destroy_memory (r : nat) (k : kernel) : option (Z * kernel) :=
  match objs k !! r with
  | Some (Obj _ _ (Memory size _ _ key pshared ct counter)) =>
      if negb (counter =? 0) then Some (CELL_EBUSY, k)
      else
        let k := on_id_destroy memory_base r key (Some pshared) k in
        if check_obj r k then Some (CELL_OK, k) else k ← free_to ct size k; Some (CELL_OK, k)
  | _ => None
  end.

(** ** System calls *)

(** [sys_mutex_attribute_t] and its like; [get_key]. *)
Record attribute := Attr {
  a_protocol : Z; a_recursive : Z; a_adaptive : Z; a_type : Z; a_pshared : Z; a_ipc_key : Z; a_flags : Z; a_name : Z
}.

Definition get_key (a : attribute) : Z := if a_pshared a =? SYS_SYNC_PROCESS_SHARED then a_ipc_key a else 0.

(** A call that fails before it creates anything. *)
Definition refuse (error : Z) (s : state) : option (Z * Z * state) := Some (error, 0, s).

(** [out] tells whether the pointer to the result is not null. *)
Definition sys_mutex_create (out : bool) (attr : option attribute) (s : state) : option (Z * Z * state) :=
  match out, attr with
  | true, Some a =>
      if negb ((a_protocol a =? SYS_SYNC_FIFO) || (a_protocol a =? SYS_SYNC_PRIORITY) || (a_protocol a =? SYS_SYNC_PRIORITY_INHERIT)) then refuse CELL_EINVAL s
      else if negb ((a_recursive a =? SYS_SYNC_RECURSIVE) || (a_recursive a =? SYS_SYNC_NOT_RECURSIVE)) then refuse CELL_EINVAL s
      else create mutex_base (a_pshared a) (a_ipc_key a) (a_flags a)
             (Mutex (a_protocol a) (a_recursive a) (a_adaptive a) (get_key a) (a_name a) 0) true s
  | _, _ => refuse CELL_EFAULT s
  end.

(** [sys_cond_create] looks the mutex up first, in a step of its own. *)
Definition cond_mutex (mutex_id : Z) (s : state) : option nat := find_id false (lv2_traits mutex_base) s.2 mutex_id.

Definition cond_create (mutex_id : Z) (mutex : nat) (a : attribute) (s : state) : option (Z * Z * state) :=
  create cond_base (a_pshared a) (get_key a) (a_flags a) (Cond (get_key a) (a_name a) mutex_id mutex) true s.

Definition sys_cond_create (mutex_id : Z) (a : attribute) (s : state) : option (Z * Z * state) :=
  match cond_mutex mutex_id s with
  | None => refuse CELL_ESRCH s
  | Some mutex => cond_create mutex_id mutex a s
  end.

Definition sys_semaphore_create (out : bool) (attr : option attribute) (initial_val max_val : Z) (s : state) : option (Z * Z * state) :=
  match out, attr with
  | true, Some a =>
      if (max_val <=? 0) || (initial_val >? max_val) || (initial_val <? 0) then refuse CELL_EINVAL s
      else if negb (a_protocol a =? SYS_SYNC_FIFO) && negb (a_protocol a =? SYS_SYNC_PRIORITY) then refuse CELL_EINVAL s
      else create sema_base (a_pshared a) (get_key a) (a_flags a) (Sema (a_protocol a) (get_key a) (a_name a) max_val initial_val) true s
  | _, _ => refuse CELL_EFAULT s
  end.

Definition sys_rwlock_create (out : bool) (attr : option attribute) (s : state) : option (Z * Z * state) :=
  match out, attr with
  | true, Some a =>
      if negb (a_protocol a =? SYS_SYNC_FIFO) && negb (a_protocol a =? SYS_SYNC_PRIORITY) then refuse CELL_EINVAL s
      else create rwlock_base (a_pshared a) (get_key a) (a_flags a) (Rwlock (a_protocol a) (get_key a) (a_name a)) true s
  | _, _ => refuse CELL_EFAULT s
  end.

Definition sys_event_flag_create (out : bool) (attr : option attribute) (init : Z) (s : state) : option (Z * Z * state) :=
  match out, attr with
  | true, Some a =>
      if negb (a_protocol a =? SYS_SYNC_FIFO) && negb (a_protocol a =? SYS_SYNC_PRIORITY) then refuse CELL_EINVAL s
      else if negb (a_type a =? SYS_SYNC_WAITER_SINGLE) && negb (a_type a =? SYS_SYNC_WAITER_MULTIPLE) then refuse CELL_EINVAL s
      else create flag_base (a_pshared a) (get_key a) (a_flags a) (EventFlag (a_protocol a) (get_key a) (a_type a) (a_name a) init) true s
  | _, _ => refuse CELL_EFAULT s
  end.

Definition SYS_PPU_QUEUE : Z := 1.
Definition SYS_SPU_QUEUE : Z := 2.

(** The key of a local queue is 0. *)
Definition sys_event_queue_create (a : attribute) (ipc_key size : Z) (s : state) : option (Z * Z * state) :=
  if (size <=? 0) || (size >? 127) then refuse CELL_EINVAL s
  else if negb (a_protocol a =? SYS_SYNC_FIFO) && negb (a_protocol a =? SYS_SYNC_PRIORITY) then refuse CELL_EINVAL s
  else if negb (a_type a =? SYS_PPU_QUEUE) && negb (a_type a =? SYS_SPU_QUEUE) then refuse CELL_EINVAL s
  else create queue_base (if ipc_key =? 0 then SYS_SYNC_NOT_PROCESS_SHARED else SYS_SYNC_PROCESS_SHARED) ipc_key SYS_SYNC_NEWLY_CREATED
         (EventQueue (a_protocol a) (a_type a) size (a_name a) ipc_key) true s.

(** [create_lv2_shm]. *)
Definition create_lv2_shm (exclusive pshared : bool) (ipc_key size align flags : Z) (ct : nat) (s : state) : option (Z * Z * state) :=
  let ipc_key := if pshared then ipc_key else 0 in
  create memory_base (if pshared then SYS_SYNC_PROCESS_SHARED else SYS_SYNC_NOT_PROCESS_SHARED) ipc_key
    (if exclusive then SYS_SYNC_NEWLY_CREATED else SYS_SYNC_NOT_CARE) (Memory (u32 size) align flags ipc_key pshared ct 0) false s.

Definition SYS_MEMORY_PAGE_SIZE_64K : Z := 0x200.
Definition SYS_MEMORY_GRANULARITY_64K : Z := 0x200.
Definition SYS_MEMORY_GRANULARITY_1M : Z := 0x400.
Definition SYS_MEMORY_GRANULARITY_MASK : Z := 0xf00.

Definition CELL_EALIGN : Z := 0x80010010.

(** The check of the page granularity: 0 or the error. *)
Definition check_granularity (size flags : Z) : Z :=
  let g := Z.land flags SYS_MEMORY_GRANULARITY_MASK in
  if (g =? 0) || (g =? SYS_MEMORY_GRANULARITY_1M) then if negb (size mod 0x100000 =? 0) then CELL_EALIGN else CELL_OK
  else if g =? SYS_MEMORY_GRANULARITY_64K then if negb (size mod 0x10000 =? 0) then CELL_EALIGN else CELL_OK
  else CELL_EINVAL.

Definition page_align (flags : Z) : Z := if negb (Z.land flags SYS_MEMORY_PAGE_SIZE_64K =? 0) then 0x10000 else 0x100000.

(** The default container is the first one.  The call on a given container
    looks it up first. *)
Definition allocate_shared_memory (ipc_key size flags : Z) (ct : nat) (s : state) : option (Z * Z * state) :=
  create_lv2_shm false (negb (ipc_key =? SYS_MMAPPER_NO_SHM_KEY)) ipc_key size (page_align flags) flags ct s.

Definition sys_mmapper_allocate_shared_memory (ipc_key size flags : Z) (s : state) : option (Z * Z * state) :=
  if size =? 0 then refuse CELL_EALIGN s
  else if negb (check_granularity size flags =? CELL_OK) then refuse (check_granularity size flags) s
  else allocate_shared_memory ipc_key size flags 0%nat s.

Definition sys_mutex_destroy (id : Z) (s : state) : option (Z * state) := destroy mutex_base id destroy_mutex s.
Definition sys_cond_destroy (id : Z) (s : state) : option (Z * state) := destroy cond_base id destroy_cond s.
Definition sys_semaphore_destroy (id : Z) (s : state) : option (Z * state) := destroy sema_base id destroy_sema s.
Definition sys_rwlock_destroy (id : Z) (s : state) : option (Z * state) := destroy rwlock_base id destroy_rwlock s.
Definition sys_event_flag_destroy (id : Z) (s : state) : option (Z * state) := destroy flag_base id destroy_flag s.
Definition sys_mmapper_free_shared_memory (id : Z) (s : state) : option (Z * state) := destroy memory_base id destroy_memory s.

(** ** Sequences of calls *)

(** The system calls, the second half of [sys_cond_create] and of the
    allocation from a given container when the object they looked up may have
    changed since, and the changes other calls make to an object: whether it is
    in use, how often shared memory is mapped. *)
Inductive call :=
  | SysMutexCreate (out : bool) (attr : option attribute)
  | SysCondCreate (mutex_id : Z) (attr : attribute)
  | CondCreate (mutex_id : Z) (mutex : nat) (attr : attribute)
  | SysSemaphoreCreate (out : bool) (attr : option attribute) (initial_val max_val : Z)
  | SysRwlockCreate (out : bool) (attr : option attribute)
  | SysEventFlagCreate (out : bool) (attr : option attribute) (init : Z)
  | SysEventQueueCreate (attr : attribute) (ipc_key size : Z)
  | SysMmapperAllocate (ipc_key size flags : Z)
  | AllocateFrom (ipc_key size flags : Z) (ct : nat)
  | SysMutexDestroy (id : Z)
  | SysCondDestroy (id : Z)
  | SysSemaphoreDestroy (id : Z)
  | SysRwlockDestroy (id : Z)
  | SysEventFlagDestroy (id : Z)
  | SysMmapperFree (id : Z)
  | SetBusy (r : nat) (b : bool)
  | SetCounter (r : nat) (n : Z).

Definition set_counter (n : Z) (o : lv2_obj) : lv2_obj :=
  match kind_of o with Memory size align flags key pshared ct _ => set_kind (Memory size align flags key pshared ct n) o | _ => o end.

Definition no_id (r : option (Z * state)) : option (Z * Z * state) := '(e, s) ← r; Some (e, 0, s).

Definition step (c : call) (s : state) : option (Z * Z * state) :=
  match c with
  | SysMutexCreate out a => sys_mutex_create out a s
  | SysCondCreate id a => sys_cond_create id a s
  | CondCreate id m a => cond_create id m a s
  | SysSemaphoreCreate out a i n => sys_semaphore_create out a i n s
  | SysRwlockCreate out a => sys_rwlock_create out a s
  | SysEventFlagCreate out a i => sys_event_flag_create out a i s
  | SysEventQueueCreate a key size => sys_event_queue_create a key size s
  | SysMmapperAllocate key size flags => sys_mmapper_allocate_shared_memory key size flags s
  | AllocateFrom key size flags ct => allocate_shared_memory key size flags ct s
  | SysMutexDestroy id => no_id (sys_mutex_destroy id s)
  | SysCondDestroy id => no_id (sys_cond_destroy id s)
  | SysSemaphoreDestroy id => no_id (sys_semaphore_destroy id s)
  | SysRwlockDestroy id => no_id (sys_rwlock_destroy id s)
  | SysEventFlagDestroy id => no_id (sys_event_flag_destroy id s)
  | SysMmapperFree id => no_id (sys_mmapper_free_shared_memory id s)
  | SetBusy r b => Some (CELL_OK, 0, (alter_obj (set_busy b) r s.1, s.2))
  | SetCounter r n => Some (CELL_OK, 0, (alter_obj (set_counter n) r s.1, s.2))
  end.

Fixpoint run (cs : list call) (s : state) : option (list (Z * Z) * state) :=
  match cs with
  | [] => Some ([], s)
  | c :: cs => '(e, id, s) ← step c s; '(rs, s) ← run cs s; Some ((e, id) :: rs, s)
  end.

Definition start (containers : list container) : state := (Kernel [] ∅ containers, empty_map (Z.to_nat 8192)).
