(* ===== verification/Lv2CreateProofs.v ===== *)
(** * Creation and destruction of kernel objects: theorems

    The counts the objects keep of their ids, of the condition variables of a
    mutex and of the memory of a container are the true ones, and a name leads
    to a live object, whatever calls succeed and fail. *)
From stdpp Require Import gmap.
From S2P Require Import Prelude IdManager IdManagerProofs Lv2Queue Lv2Create.

(** ** Counting references *)

Definition cnt (P : nat -> bool) (L : list nat) : Z := Z.of_nat (length (List.filter P L)).

Lemma cnt_cons P r L : cnt P (r :: L) = Z.b2z (P r) + cnt P L.
Proof. unfold cnt. cbn [List.filter]. destruct (P r); cbn [Z.b2z length]; lia. Qed.

Lemma cnt_nonneg P L : 0 <= cnt P L.
Proof. unfold cnt. lia. Qed.

Lemma cnt_le P L : cnt P L <= Z.of_nat (length L).
Proof. induction L as [|r L IH]; [done|]. rewrite cnt_cons. cbn [length]. destruct (P r); cbn [Z.b2z]; lia. Qed.

Lemma cnt_ext P Q L : (forall r, r ∈ L -> P r = Q r) -> cnt P L = cnt Q L.
Proof.
  intros H. induction L as [|r L IH]; [done|]. rewrite !cnt_cons, IH, (H r); [done|apply list_elem_of_here|].
  intros r' Hr'. apply H. now apply list_elem_of_further.
Qed.

Lemma cnt_perm P L L' : L ≡ₚ L' -> cnt P L = cnt P L'.
Proof. induction 1; rewrite ?cnt_cons; lia. Qed.

Lemma cnt_pos P L : 0 < cnt P L <-> exists r, r ∈ L /\ P r = true.
Proof.
  induction L as [|r L IH]; [split; [done|now intros (? & []%not_elem_of_nil & _)]|]. rewrite cnt_cons. pose proof (cnt_nonneg P L). split.
  - destruct (P r) eqn:Hr; cbn [Z.b2z]; [intros _; exists r; split; [apply list_elem_of_here|done]|].
    intros Hp. assert (0 < cnt P L) as Hp' by lia. apply IH in Hp' as (r' & Hr' & ?). exists r'. split; [now apply list_elem_of_further|done].
  - intros (r' & [->|Hr']%elem_of_cons & Hp); [rewrite Hp; cbn [Z.b2z]; lia|]. assert (0 < cnt P L) by (apply IH; eauto). destruct (P r); cbn [Z.b2z]; lia.
Qed.

Abbreviation handles r L := (cnt (Nat.eqb r) L).

Lemma handles_pos r L : 0 < handles r L <-> r ∈ L.
Proof. rewrite cnt_pos. split; [intros (r' & Hr' & ->%Nat.eqb_eq); done|intros H; exists r; split; [done|apply Nat.eqb_refl]]. Qed.

Lemma handles_cons_eq r L : handles r (r :: L) = 1 + handles r L.
Proof. now rewrite cnt_cons, Nat.eqb_refl. Qed.

Lemma handles_cons_ne r r' L : r <> r' -> handles r (r' :: L) = handles r L.
Proof. intros H. rewrite cnt_cons. now rewrite (proj2 (Nat.eqb_neq r r') H). Qed.

(** ** The consistent states *)

Definition base_of (x : kind) : Z :=
  match x with
  | Mutex _ _ _ _ _ _ => mutex_base
  | Cond _ _ _ _ => cond_base
  | Rwlock _ _ _ => rwlock_base
  | EventQueue _ _ _ _ _ => queue_base
  | Sema _ _ _ _ _ => sema_base
  | EventFlag _ _ _ _ _ => flag_base
  | Memory _ _ _ _ _ _ _ => memory_base
  end.

(** The key under which other processes find the object. *)
Definition name_of (x : kind) : option Z :=
  match x with
  | Mutex _ _ _ key _ _ | Cond key _ _ _ | Rwlock _ key _ | EventQueue _ _ _ _ key | Sema _ key _ _ _ | EventFlag _ key _ _ _ =>
      if key =? 0 then None else Some key
  | Memory _ _ _ key pshared _ _ => if pshared then Some key else None
  end.

Definition conds_of (x : kind) : option Z := match x with Mutex _ _ _ _ _ c => Some c | _ => None end.

Definition mutex_of (x : kind) : option nat := match x with Cond _ _ _ m => Some m | _ => None end.

Definition memory_of (x : kind) : option (nat * Z) := match x with Memory size _ _ _ _ ct _ => Some (ct, size) | _ => None end.

(** What the calls keep of an object. *)
Definition same_kind (x y : kind) : Prop :=
  base_of x = base_of y /\ name_of x = name_of y /\ mutex_of x = mutex_of y /\ memory_of x = memory_of y /\ (is_Some (conds_of x) <-> is_Some (conds_of y)).

Definition cond_on (k : kernel) (m r : nat) : bool :=
  match objs k !! r with Some o => bool_decide (mutex_of (kind_of o) = Some m) | None => false end.

(** The memory of a container that an object holds. *)
Definition held (i : nat) (o : lv2_obj) : Z :=
  match memory_of (kind_of o) with Some (ct, size) => if (ct =? i)%nat && negb (exists_ o =? 0) then size else 0 | None => 0 end.

Definition sum_held (i : nat) (l : list lv2_obj) : Z := foldr (fun o a => held i o + a) 0 l.

(** [L] lists the references of all ids; [ext] is what others use of the
    containers. *)
Record counted (ext : nat -> Z) (k : kernel) (L : list nat) : Prop := {
  c_ref r : r ∈ L -> is_Some (objs k !! r);
  c_exists r o : objs k !! r = Some o -> exists_ o = handles r L \/ (is_Some (mutex_of (kind_of o)) /\ handles r L = 0);
  c_conds r o c : objs k !! r = Some o -> conds_of (kind_of o) = Some c -> c = cnt (cond_on k r) L;
  c_mutex r o m : objs k !! r = Some o -> mutex_of (kind_of o) = Some m ->
    (exists o', objs k !! m = Some o' /\ is_Some (conds_of (kind_of o'))) /\ (r ∈ L -> m ∈ L);
  c_used i c : cts k !! i = Some c -> 0 <= ext i /\ used c = ext i + sum_held i (objs k) /\ used c <= ct_size c < 2 ^ 32;
  c_memory r o ct size : objs k !! r = Some o -> memory_of (kind_of o) = Some (ct, size) -> is_Some (cts k !! ct) /\ is_word 32 size
}.

Record named (k : kernel) (L : list nat) : Prop := {
  c_named ty key r : ipc k !! (ty, key) = Some (Some r) ->
    r ∈ L /\ exists o, objs k !! r = Some o /\ base_of (kind_of o) = ty /\ name_of (kind_of o) = Some key;
  c_names r o key : objs k !! r = Some o -> r ∈ L -> name_of (kind_of o) = Some key -> ipc k !! (base_of (kind_of o), key) = Some (Some r)
}.

Lemma counted_perm ext k L L' : L ≡ₚ L' -> counted ext k L -> counted ext k L'.
Proof.
  intros HL H. assert (forall P, cnt P L' = cnt P L) as Hc by (intros P; now apply cnt_perm).
  assert (forall r, r ∈ L' <-> r ∈ L) as He by (intros r; now rewrite HL).
  constructor; intros *; rewrite ?Hc, ?He; [eapply c_ref|eapply c_exists|eapply c_conds|eapply c_mutex|eapply c_used|eapply c_memory]; eassumption.
Qed.

Lemma named_perm k L L' : L ≡ₚ L' -> named k L -> named k L'.
Proof.
  intros HL H. assert (forall r, r ∈ L' <-> r ∈ L) as He by (intros r; now rewrite HL).
  constructor; intros *; rewrite ?He; [eapply c_named|eapply c_names]; eassumption.
Qed.

(** ** Sums over the objects *)

Lemma sum_held_app i l l' : sum_held i (l ++ l') = sum_held i l + sum_held i l'.
Proof. unfold sum_held. induction l as [|o l IH]; cbn; [done|]. lia. Qed.

Lemma sum_held_alter i f r l o : l !! r = Some o -> sum_held i (alter f r l) = sum_held i l - held i o + held i (f o).
Proof.
  revert r. induction l as [|o' l IH]; intros [|r] Hr; [done..| |].
  - injection Hr as ->. cbn. lia.
  - cbn in Hr. change (held i o' + sum_held i (alter f r l) = held i o' + sum_held i l - held i o + held i (f o)). rewrite (IH _ Hr). lia.
Qed.

Lemma sum_held_alter_same i f r l : (forall o, l !! r = Some o -> held i (f o) = held i o) -> sum_held i (alter f r l) = sum_held i l.
Proof.
  revert r. induction l as [|o l IH]; intros [|r] H; [done..| |]; unfold sum_held; cbn; [now rewrite (H o)|].
  f_equal. apply (IH r). exact H.
Qed.

(** ** One more id *)

Section Consistent.
Context (ext : nat -> Z).
Implicit Types (k : kernel) (L : list nat) (o : lv2_obj).

Lemma lookup_alter_obj f r k j : objs (alter_obj f r k) !! j = if decide (j = r) then f <$> objs k !! j else objs k !! j.
Proof.
  cbn. case_decide as H; [subst; apply list_lookup_alter_eq|now apply list_lookup_alter_ne].
Qed.

(** Changes of objects that keep their kind. *)
Definition keeps_kind (f : lv2_obj -> lv2_obj) : Prop := forall o, same_kind (kind_of (f o)) (kind_of o).

Lemma same_kind_refl x : same_kind x x.
Proof. done. Qed.

Lemma add_exists_kind n : keeps_kind (add_exists n).
Proof. intros o. apply same_kind_refl. Qed.

Lemma add_conds_kind n : keeps_kind (add_conds n).
Proof. intros [e b []]; done. Qed.

Lemma cond_on_alter f r k m j : keeps_kind f -> cond_on (alter_obj f r k) m j = cond_on k m j.
Proof.
  intros Hf. unfold cond_on. rewrite lookup_alter_obj. case_decide; [|done]. destruct (objs k !! j) as [o|]; [|done]. cbn.
  now destruct (Hf o) as (_ & _ & -> & _).
Qed.

(** The mutex of a condition variable counts it. *)
Definition alter_mutex (n : Z) (x : kind) (k : kernel) : kernel :=
  match mutex_of x with Some m => alter_obj (add_conds n) m k | None => k end.

Lemma lookup_alter_mutex n x k j : objs (alter_mutex n x k) !! j = (if decide (mutex_of x = Some j) then add_conds n else id) <$> objs k !! j.
Proof.
  unfold alter_mutex. destruct (mutex_of x) as [m|]; [rewrite lookup_alter_obj|]; repeat case_decide; simplify_eq; try done; now destruct (objs k !! j).
Qed.

Lemma add_conds_exists n o : exists_ (add_conds n o) = exists_ o.
Proof. now destruct o as [e b []]. Qed.

Lemma held_conds i n o : held i (add_conds n o) = held i o.
Proof. now destruct o as [e b []]. Qed.

Lemma conds_of_add n o : conds_of (kind_of (add_conds n o)) = (fun c => u32 (c + n)) <$> conds_of (kind_of o).
Proof. now destruct o as [e b []]. Qed.

Lemma mutex_of_kind f o : keeps_kind f -> mutex_of (kind_of (f o)) = mutex_of (kind_of o).
Proof. intros Hf. now destruct (Hf o) as (_ & _ & ? & _). Qed.

Lemma conds_of_mutex x : is_Some (conds_of x) -> mutex_of x = None.
Proof. destruct x; done || now intros [? [=]]. Qed.

(** One id of [r] more or less: the calls change [exists] of the object, the
    count of its mutex, and the containers. *)
Definition change_id (n : Z) (r : nat) (o : lv2_obj) (cts' : list container) k : kernel :=
  set_cts cts' (alter_mutex n (kind_of o) (alter_obj (add_exists n) r k)).

Lemma lookup_change_id n r o cts' k j : objs (change_id n r o cts' k) !! j =
  (fun o' => (if decide (mutex_of (kind_of o) = Some j) then add_conds n else id) ((if decide (j = r) then add_exists n else id) o')) <$> objs k !! j.
Proof.
  unfold change_id. change (objs (set_cts cts' ?x)) with (objs x). rewrite lookup_alter_mutex, lookup_alter_obj.
  destruct (objs k !! j); repeat case_decide; done.
Qed.

Lemma change_kind n r o cts' k j o' : objs (change_id n r o cts' k) !! j = Some o' -> exists o0, objs k !! j = Some o0 /\ same_kind (kind_of o') (kind_of o0) /\
  exists_ o' = (if decide (j = r) then u32 (exists_ o0 + n) else exists_ o0) /\
  conds_of (kind_of o') = (fun c => if decide (mutex_of (kind_of o) = Some j) then u32 (c + n) else c) <$> conds_of (kind_of o0).
Proof.
  rewrite lookup_change_id. destruct (objs k !! j) as [o0|]; [|done]. cbn. intros [= <-]. exists o0. split; [done|].
  repeat case_decide; cbn [id]; rewrite ?add_conds_exists, ?conds_of_add; (split; [first [exact (add_conds_kind n _)|apply same_kind_refl]|]); cbn; destruct (conds_of (kind_of o0)); done.
Qed.

Lemma cond_on_change n r o cts' k m j : cond_on (change_id n r o cts' k) m j = cond_on k m j.
Proof.
  unfold cond_on. destruct (objs (change_id n r o cts' k) !! j) as [o'|] eqn:Hj.
  - apply change_kind in Hj as (o0 & -> & (_ & _ & -> & _) & _). done.
  - rewrite lookup_change_id in Hj. destruct (objs k !! j); done.
Qed.

Lemma small_count L P : Z.of_nat (length L) <= 8192 -> u32 (cnt P L) = cnt P L.
Proof. intros H. apply wrap_small. pose proof (cnt_le P L). pose proof (cnt_nonneg P L). unfold is_word. lia. Qed.

(** All counts but the containers' follow the list of ids. *)
Lemma counted_change n k L L' r o cts' : n = 1 \/ n = -1 -> counted ext k L -> objs k !! r = Some o -> exists_ o = handles r L ->
  (forall P, cnt P L' = cnt P L + n * Z.b2z (P r)) -> Z.of_nat (length L') <= 8192 ->
  (n = 1 -> forall m, mutex_of (kind_of o) = Some m -> m ∈ L) ->
  (n <> 1 -> forall c, conds_of (kind_of o) = Some c -> c = 0) ->
  (forall i c, cts' !! i = Some c -> 0 <= ext i /\ used c = ext i + sum_held i (objs (change_id n r o cts' k)) /\ used c <= ct_size c < 2 ^ 32) ->
  (forall i, is_Some (cts k !! i) -> is_Some (cts' !! i)) -> counted ext (change_id n r o cts' k) L'.
Proof.
  intros Hn1 Hc Hr He HL Hsmall Hgrab Hdrop Hcts Hdom.
  assert (forall j, handles j L' = handles j L + n * Z.b2z (j =? r)%nat) as Hh by (intros j; apply HL).
  assert (forall j, j ∈ L' -> j ∈ L \/ j = r) as Hin.
  { intros j Hj. destruct (decide (j = r)) as [|Hne]; [by right|left]. apply handles_pos. apply handles_pos in Hj.
    rewrite Hh, (proj2 (Nat.eqb_neq j r) Hne) in Hj. cbn in Hj. lia. }
  constructor.
  - intros j Hj. rewrite lookup_change_id. assert (is_Some (objs k !! j)) as [o' ->] by (destruct (Hin j Hj) as [| ->]; [now apply (c_ref _ _ _ Hc)|now exists o]). eauto.
  - intros j o' (o0 & Hj & (_ & _ & Hm & _) & Hex & _)%change_kind. rewrite Hex, Hm. case_decide as Hjr.
    + subst j. left. rewrite Hr in Hj. injection Hj as <-. rewrite He.
      rewrite <- (small_count L' (Nat.eqb r) Hsmall), Hh, Nat.eqb_refl. cbn. now rewrite Z.mul_1_r.
    + rewrite Hh, (proj2 (Nat.eqb_neq j r)) by done. cbn. rewrite Z.mul_0_r, Z.add_0_r. now apply (c_exists _ _ _ Hc).
  - intros j o' c (o0 & Hj & _ & _ & Hcd)%change_kind Hcc. rewrite Hcd in Hcc. destruct (conds_of (kind_of o0)) as [c0|] eqn:Hc0; [|done]. cbn in Hcc.
    injection Hcc as <-. rewrite (c_conds _ _ _ Hc _ _ _ Hj Hc0).
    assert (cnt (cond_on (change_id n r o cts' k) j) L' = cnt (cond_on k j) L + n * Z.b2z (bool_decide (mutex_of (kind_of o) = Some j))) as Hcl.
    { rewrite (cnt_ext _ (cond_on k j) L'), HL by (intros; apply cond_on_change). do 2 f_equal. unfold cond_on. now rewrite Hr. }
    case_decide as Hm; [rewrite bool_decide_true in Hcl by done|rewrite bool_decide_false in Hcl by done]; cbn in Hcl; [|lia].
    rewrite Z.mul_1_r in Hcl. rewrite <- Hcl. now apply small_count.
  - intros j o' m (o0 & Hj & (_ & _ & Hm & _) & _)%change_kind Hmm. rewrite Hm in Hmm. destruct (c_mutex _ _ _ Hc _ _ _ Hj Hmm) as [(o2 & Ho2 & Hc2) Hin2]. split.
    + destruct (objs (change_id n r o cts' k) !! m) as [o3|] eqn:Ho3.
      * exists o3. split; [done|]. apply change_kind in Ho3 as (o4 & Ho4 & (_ & _ & _ & _ & Hck) & _). rewrite Ho2 in Ho4. injection Ho4 as <-. now apply Hck.
      * rewrite lookup_change_id, Ho2 in Ho3. done.
    + intros Hj'. assert (m ∈ L) as HmL.
      { destruct (Hin j Hj') as [| ->]; [auto|]. destruct (decide (n = 1)) as [->|Hn]; [rewrite Hr in Hj; injection Hj as <-; now apply (Hgrab eq_refl)|].
        destruct (decide (r ∈ L)) as [|Hni]; [auto|]. rewrite Hr in Hj. injection Hj as <-. exfalso.
        apply handles_pos in Hj'. rewrite Hh, Nat.eqb_refl in Hj'. cbn in Hj'. assert (handles r L = 0) as Hz by (pose proof (cnt_nonneg (Nat.eqb r) L); destruct (Z.eq_dec (handles r L) 0) as [|Hnz]; [done|]; destruct Hni; apply handles_pos; lia).
        lia. }
      apply handles_pos. rewrite Hh. destruct (decide (m = r)) as [->|Hne]; [|rewrite (proj2 (Nat.eqb_neq m r)) by done; cbn; apply handles_pos in HmL; lia].
      destruct (decide (n = 1)) as [->|Hn]; [apply handles_pos in HmL; rewrite Nat.eqb_refl; cbn; lia|]. exfalso.
      rewrite Hr in Ho2. injection Ho2 as <-. destruct Hc2 as [c Hcd]. assert (cnt (cond_on k r) L = 0) as Hz by (rewrite <- (c_conds _ _ _ Hc _ _ _ Hr Hcd); now apply (Hdrop Hn)).
      assert (0 < cnt (cond_on k r) L') as Hp by (apply cnt_pos; exists j; split; [done|]; unfold cond_on; now rewrite Hj, bool_decide_true).
      assert (cond_on k r r = false) as Hf by (unfold cond_on; rewrite Hr, bool_decide_false; [done|]; now rewrite conds_of_mutex by eauto).
      rewrite HL, Hz, Hf in Hp. cbn in Hp. lia.
  - exact Hcts.
  - intros j o' ct size (o0 & Hj & (_ & _ & _ & Hme & _) & _)%change_kind Hmem. rewrite Hme in Hmem. destruct (c_memory _ _ _ Hc _ _ _ _ Hj Hmem) as [H1 H2]. split; [now apply Hdom|done].
Qed.

Lemma cnt_add r L P : cnt P (r :: L) = cnt P L + 1 * Z.b2z (P r).
Proof. rewrite cnt_cons. lia. Qed.

Lemma cnt_drop r L P : cnt P L = cnt P (r :: L) + -1 * Z.b2z (P r).
Proof. rewrite cnt_cons. lia. Qed.

(** The memory held after a change, when the changed object holds the same. *)
Lemma sum_held_change n i r o cts' k : objs k !! r = Some o ->
  sum_held i (objs (change_id n r o cts' k)) = sum_held i (objs k) - held i o + held i (add_exists n o).
Proof.
  intros Hr. unfold change_id, alter_mutex. change (objs (set_cts cts' ?x)) with (objs x).
  assert (sum_held i (objs (alter_obj (add_exists n) r k)) = sum_held i (objs k) - held i o + held i (add_exists n o)) as Ha by (cbn; now apply sum_held_alter).
  destruct (mutex_of (kind_of o)) as [m|]; [|done]. unfold alter_obj at 1. change (objs (set_objs ?l ?x)) with l. rewrite sum_held_alter_same; [done|]. intros o' _. apply held_conds.
Qed.

Lemma held_none i e o : memory_of (kind_of o) = None -> held i (set_exists e o) = held i o.
Proof. unfold held. cbn. now intros ->. Qed.

Lemma held_live i e o : exists_ o <> 0 -> e <> 0 -> held i (set_exists e o) = held i o.
Proof. intros H He. unfold held. cbn. now rewrite (proj2 (Z.eqb_neq _ _) H), (proj2 (Z.eqb_neq _ _) He). Qed.

(** An id of an object that holds no memory, or keeps the memory it holds. *)
Lemma counted_add k L r o : counted ext k L -> objs k !! r = Some o -> exists_ o = handles r L -> Z.of_nat (length L) < 8192 ->
  (forall m, mutex_of (kind_of o) = Some m -> m ∈ L) -> memory_of (kind_of o) = None \/ r ∈ L ->
  counted ext (change_id 1 r o (cts k) k) (r :: L).
Proof.
  intros Hc Hr He Hl Hm Hmem. apply (counted_change 1 k L); [now left|done..|apply cnt_add|cbn [length]; lia|auto|done| |auto].
  intros i c Hi. destruct (c_used _ _ _ Hc i c Hi) as (? & Hu & ?). split; [done|]. split; [|done]. rewrite sum_held_change by done.
  assert (held i (add_exists 1 o) = held i o) as Hh; [|lia]. destruct Hmem as [|HrL]; [now apply held_none|].
  apply handles_pos in HrL. pose proof (cnt_le (Nat.eqb r) L). apply held_live; [lia|]. rewrite wrap_small; [lia|]. unfold is_word. lia.
Qed.

(** The first id of a memory object takes the memory from its container. *)
Lemma counted_take k L r o ct size : counted ext k L -> objs k !! r = Some o -> exists_ o = handles r L -> Z.of_nat (length L) < 8192 ->
  memory_of (kind_of o) = Some (ct, size) -> exists_ o = 0 ->
  match take_from ct size k with
  | (0, k') => k' = k
  | (_, k') => k' = set_cts (cts k') k /\ counted ext (change_id 1 r o (cts k') k) (r :: L)
  end.
Proof.
  intros Hc Hr He Hl Hmem H0. destruct (c_memory _ _ _ Hc _ _ _ _ Hr Hmem) as [[c Hct] Hw]. unfold take_from. rewrite Hct. unfold take.
  destruct (c_used _ _ _ Hc ct c Hct) as (He0 & Hu & Hle). unfold is_word in Hw.
  assert (mutex_of (kind_of o) = None) as Hmx by (destruct (kind_of o); done).
  assert (0 <= sum_held ct (objs k)) as Hsum.
  { clear - Hc. assert (forall o, o ∈ objs k -> 0 <= held ct o) as Hpos.
    { intros o [r Hr]%list_elem_of_lookup. unfold held. destruct (memory_of (kind_of o)) as [[ct' sz]|] eqn:Hm; [|done].
      destruct (c_memory _ _ _ Hc _ _ _ _ Hr Hm) as [_ []]. case_match; lia. }
    unfold sum_held. induction (objs k) as [|o l IH]; cbn; [done|]. pose proof (Hpos o ltac:(apply list_elem_of_here)).
    assert (0 <= foldr (fun o a => held ct o + a) 0 l); [|lia]. apply IH. intros o' Ho'. apply Hpos. now apply list_elem_of_further. }
  rewrite (wrap_small 32 (ct_size c - used c)) by (unfold is_word; lia). destruct (Z.geb_spec (ct_size c - used c) size) as [Hge|]; [|rewrite list_insert_id by done; now destruct k].
  rewrite (wrap_small 32 size) by (unfold is_word; lia). destruct size as [|p|p] eqn:Hsz; [| |lia].
  { rewrite Z.add_0_r, wrap_small by (unfold is_word; lia). destruct c as [cs cu]. cbn. rewrite list_insert_id by done. now destruct k. }
  rewrite <- Hsz in *. clear p Hsz. split; [done|].
  rewrite wrap_small by (unfold is_word; lia). change (cts (set_cts ?x _)) with x.
  assert (forall i, sum_held i (objs (change_id 1 r o (<[ct:=Container (ct_size c) (used c + size)]> (cts k)) k)) = sum_held i (objs k) + (if (ct =? i)%nat then size else 0)) as Hch.
  { intros i. rewrite sum_held_change by done. unfold held. cbn. rewrite Hmem, H0. cbn. rewrite andb_false_r, andb_true_r. destruct (ct =? i)%nat; lia. }
  apply (counted_change 1 k L); [now left|done..|apply cnt_add|cbn [length]; lia|now rewrite Hmx|done| |].
  - intros i c' Hi. rewrite Hch. destruct (decide (ct = i)) as [<-|Hne].
    + rewrite list_lookup_insert_eq in Hi by (eapply lookup_lt_Some; eassumption). injection Hi as <-. cbn. rewrite Nat.eqb_refl. lia.
    + rewrite list_lookup_insert_ne in Hi by done. rewrite (proj2 (Nat.eqb_neq ct i) Hne). destruct (c_used _ _ _ Hc i c' Hi). lia.
  - intros i Hi. destruct (decide (ct = i)) as [<-|Hne]; [rewrite list_lookup_insert_eq by (eapply lookup_lt_Some; eassumption); eauto|now rewrite list_lookup_insert_ne].
Qed.

(** A fresh condition variable whose mutex is gone stays without an id. *)
Lemma counted_garbage k L r o : counted ext k L -> objs k !! r = Some o -> is_Some (mutex_of (kind_of o)) -> r ∉ L ->
  counted ext (alter_obj (add_exists 1) r k) L.
Proof.
  intros Hc Hr Hm HrL. assert (handles r L = 0) as Hh by (pose proof (cnt_nonneg (Nat.eqb r) L); rewrite <- handles_pos in HrL; lia).
  assert (forall j o', objs (alter_obj (add_exists 1) r k) !! j = Some o' -> exists o0, objs k !! j = Some o0 /\ kind_of o' = kind_of o0 /\ (j = r \/ o' = o0)) as Hk.
  { intros j o'. rewrite lookup_alter_obj. case_decide; [|intros; exists o'; auto]. destruct (objs k !! j); [|done]. intros [= <-]. eexists. split; [done|]. auto. }
  constructor.
  - intros j Hj. rewrite lookup_alter_obj. destruct (c_ref _ _ _ Hc j Hj) as [o' ->]. case_decide; eauto.
  - intros j o' (o0 & Hj & Hkk & [->| ->])%Hk; [|now apply (c_exists _ _ _ Hc)]. right. rewrite Hr in Hj. injection Hj as <-. now rewrite Hkk.
  - intros j o' c (o0 & Hj & Hkk & _)%Hk. rewrite Hkk. intros Hcd. rewrite (c_conds _ _ _ Hc _ _ _ Hj Hcd). apply cnt_ext. intros r' _. symmetry. apply cond_on_alter, add_exists_kind.
  - intros j o' m (o0 & Hj & Hkk & _)%Hk. rewrite Hkk. intros Hcd. destruct (c_mutex _ _ _ Hc _ _ _ Hj Hcd) as [(o2 & Ho2 & Hc2) ?]. split; [|done].
    rewrite lookup_alter_obj, Ho2. case_decide; [|now exists o2]. eexists. split; [reflexivity|]. done.
  - intros i c Hi. destruct (c_used _ _ _ Hc i c Hi) as (? & Hu & ?). split; [done|]. split; [|done].
    change (objs (alter_obj (add_exists 1) r k)) with (alter (add_exists 1) r (objs k)). rewrite sum_held_alter_same; [done|].
    intros o' Ho'. apply held_none. rewrite Hr in Ho'. injection Ho' as <-. destruct Hm as [m Hm]. now destruct (kind_of o).
  - intros j o' ct size (o0 & Hj & Hkk & _)%Hk. rewrite Hkk. now apply (c_memory _ _ _ Hc _ _ _ _ Hj).
Qed.

Lemma change_id_self n r o k : mutex_of (kind_of o) = None -> change_id n r o (cts k) k = alter_obj (add_exists n) r k.
Proof. unfold change_id, alter_mutex. now intros ->. Qed.

(** Later states have the same objects, and perhaps new ones. *)
Definition keeps_objs k k' : Prop := forall j o, objs k !! j = Some o -> exists o', objs k' !! j = Some o' /\ same_kind (kind_of o') (kind_of o).

Lemma keeps_change n r o cts' k : keeps_objs k (change_id n r o cts' k).
Proof.
  intros j o0 Hj. destruct (objs (change_id n r o cts' k) !! j) as [o'|] eqn:Hj'.
  - exists o'. split; [done|]. apply change_kind in Hj' as (o1 & Ho1 & Hs & _). rewrite Hj in Ho1. now injection Ho1 as <-.
  - rewrite lookup_change_id, Hj in Hj'. done.
Qed.

Lemma keeps_alter n r k : keeps_objs k (alter_obj (add_exists n) r k).
Proof. intros j o0 Hj. rewrite lookup_alter_obj, Hj. case_decide; eexists; (split; [reflexivity|]); apply same_kind_refl. Qed.

(** What [on_id_create] does to an object whose count of ids is true. *)
Lemma on_id_create_counted k L r o : counted ext k L -> objs k !! r = Some o -> exists_ o = handles r L -> Z.of_nat (length L) < 8192 ->
  let '(e, k') := on_id_create r k in
  ipc k' = ipc k /\ keeps_objs k k' /\ length (objs k') = length (objs k) /\
  (e = 0 -> counted ext k' (r :: L)) /\ (e <> 0 -> r ∉ L /\ counted ext k' L).
Proof.
  intros Hc Hr He Hl. unfold on_id_create. rewrite Hr.
  assert (forall k', length (objs (alter_obj (add_exists 1) r k')) = length (objs k')) as Hlen by (intros; apply length_alter).
  assert (memory_of (kind_of o) = None -> mutex_of (kind_of o) = None -> counted ext (alter_obj (add_exists 1) r k) (r :: L)) as Hplain.
  { intros Hm Hx. rewrite <- (change_id_self 1 r o k Hx). apply counted_add; [done..|now rewrite Hx|by left]. }
  destruct o as [ex b [|key name id m| | | | |size al fl key sh ct n]]; cbn [kind_of exists_] in *;
    try (split_and!; [done|apply keeps_alter|apply Hlen|intros _; now apply Hplain|done]).
  - set (o := Obj ex b (Cond key name id m)) in *.
    destruct (c_mutex _ _ _ Hc r o m Hr eq_refl) as [(om & Hom & Hcm) Hin].
    assert (m <> r) as Hne by (intros ->; rewrite Hr in Hom; injection Hom as <-; now destruct Hcm).
    assert (check_obj m (alter_obj (add_exists 1) r k) = bool_decide (m ∈ L)) as Hchk.
    { unfold check_obj. rewrite lookup_alter_obj, decide_False, Hom by done.
      destruct (c_exists _ _ _ Hc m om Hom) as [->|[Hx _]]; [|rewrite conds_of_mutex in Hx by done; now destruct Hx].
      case_bool_decide as Hm; apply handles_pos in Hm || rewrite <- handles_pos in Hm; pose proof (cnt_nonneg (Nat.eqb m) L); [rewrite (proj2 (Z.eqb_neq _ _)) by lia|rewrite (proj2 (Z.eqb_eq _ _)) by lia]; done. }
    rewrite Hchk. case_bool_decide as Hm.
    + change (alter_obj (add_conds 1) m (alter_obj (add_exists 1) r k)) with (change_id 1 r o (cts k) k).
      split_and!; [done|apply keeps_change|cbn; now rewrite !length_alter| |done]. intros _. apply counted_add; [done..|intros ? [= <-]; done|by left].
    + assert (r ∉ L) as HrL by (intros HrL; now apply Hm, Hin).
      split_and!; [done|apply keeps_alter|apply Hlen|done|]. intros _. split; [done|]. eapply counted_garbage; [done|exact Hr|now eexists|done].
  - set (o := Obj ex b (Memory size al fl key sh ct n)) in *. destruct (Z.eqb_spec ex 0) as [Hex|Hex]; cbn [negb].
    + pose proof (counted_take k L r o ct size Hc Hr He Hl eq_refl Hex) as Ht. destruct (take_from ct size k) as [[|p|p] k'].
      * cbn. subst k'. split_and!; [done|intros j o' Hj; exists o'; split; [done|apply same_kind_refl]|done|done|]. intros _. split; [|done].
        rewrite <- handles_pos. cbn in He. lia.
      * destruct Ht as [Hk Ht]. cbn. rewrite Hk. split_and!; [done|apply (keeps_change 1 r o (cts k') k)|apply length_alter|intros _; exact Ht|done].
      * destruct Ht as [Hk Ht]. cbn. rewrite Hk. split_and!; [done|apply (keeps_change 1 r o (cts k') k)|apply length_alter|intros _; exact Ht|done].
    + split_and!; [done|apply keeps_alter|apply Hlen| |done]. intros _. rewrite <- (change_id_self 1 r o k eq_refl). apply counted_add; [done..|].
      right. apply handles_pos. pose proof (cnt_nonneg (Nat.eqb r) L). cbn in He. lia.
Qed.

(** ** New objects and names *)

(** What a new object may be: no count yet, its mutex and container exist. *)
Definition new_ok k (x : kind) : Prop :=
  (forall c, conds_of x = Some c -> c = 0) /\
  (forall m, mutex_of x = Some m -> exists o, objs k !! m = Some o /\ is_Some (conds_of (kind_of o))) /\
  (forall ct size, memory_of x = Some (ct, size) -> is_Some (cts k !! ct) /\ is_word 32 size).

Lemma lookup_make x k j o : objs (make_obj x k).2 !! j = Some o <-> objs k !! j = Some o \/ (j = length (objs k) /\ o = Obj 0 false x).
Proof.
  cbn. rewrite lookup_app_Some. split.
  - intros [?|[Hj Ho]]; [by left|]. apply list_lookup_singleton_Some in Ho as [? <-]. right. split; [lia|done].
  - intros [?|[-> ->]]; [by left|right]. split; [lia|]. now rewrite Nat.sub_diag.
Qed.

Lemma not_yet k L r : counted ext k L -> r ∈ L -> r <> length (objs k).
Proof. intros Hc Hr ->. destruct (c_ref _ _ _ Hc _ Hr) as [o Ho]. apply lookup_lt_Some in Ho. lia. Qed.

Lemma make_counted k L x : counted ext k L -> new_ok k x -> counted ext (make_obj x k).2 L /\ handles (length (objs k)) L = 0.
Proof.
  intros Hc (Hc0 & Hm0 & Hmem). assert (handles (length (objs k)) L = 0) as Hh.
  { pose proof (cnt_nonneg (Nat.eqb (length (objs k))) L). destruct (Z.eq_dec (handles (length (objs k)) L) 0) as [|Hne]; [done|]. exfalso.
    refine (not_yet k L _ Hc _ eq_refl). apply handles_pos. lia. }
  assert (forall m o', objs k !! m = Some o' /\ is_Some (conds_of (kind_of o')) -> objs (make_obj x k).2 !! m = Some o' /\ is_Some (conds_of (kind_of o'))) as Hkeep.
  { intros m o' [Ho ?]. split; [|done]. apply lookup_make. by left. }
  assert (forall m r, r ∈ L -> cond_on (make_obj x k).2 m r = cond_on k m r) as Hcond.
  { intros m r Hr. unfold cond_on. destruct (c_ref _ _ _ Hc _ Hr) as [o Ho]. rewrite (proj2 (lookup_make x k r o)) by (by left). now rewrite Ho. }
  split; [|done]. constructor.
  - intros r Hr. destruct (c_ref _ _ _ Hc r Hr) as [o Ho]. exists o. apply lookup_make. by left.
  - intros r o [Ho|[-> ->]]%lookup_make; [now apply (c_exists _ _ _ Hc)|]. left. cbn. lia.
  - intros r o c [Ho|[-> ->]]%lookup_make Hcd.
    + rewrite (c_conds _ _ _ Hc _ _ _ Ho Hcd). apply cnt_ext. intros r' Hr'. symmetry. now apply Hcond.
    + rewrite (Hc0 c Hcd). symmetry. destruct (Z.eq_dec (cnt (cond_on (make_obj x k).2 (length (objs k))) L) 0) as [|Hne]; [done|]. exfalso.
      pose proof (cnt_nonneg (cond_on (make_obj x k).2 (length (objs k))) L). assert (0 < cnt (cond_on (make_obj x k).2 (length (objs k))) L) as Hp by lia.
      apply cnt_pos in Hp as (r & Hr & Hp). rewrite Hcond in Hp by done. unfold cond_on in Hp. destruct (objs k !! r) as [o|] eqn:Ho; [|done].
      apply bool_decide_eq_true in Hp. destruct (c_mutex _ _ _ Hc _ _ _ Ho Hp) as [(o' & Ho' & _) _]. apply lookup_lt_Some in Ho'. lia.
  - intros r o m [Ho|[-> ->]]%lookup_make Hm.
    + destruct (c_mutex _ _ _ Hc _ _ _ Ho Hm) as [(o' & Ho') Hin]. split; [exists o'; now apply Hkeep|done].
    + destruct (Hm0 m Hm) as (o' & Ho'). split; [exists o'; now apply Hkeep|]. intros Hr. now destruct (not_yet k L _ Hc Hr).
  - intros i c Hi. destruct (c_used _ _ _ Hc i c Hi) as (? & Hu & ?). split; [done|]. split; [|done].
    change (objs (make_obj x k).2) with (objs k ++ [Obj 0 false x]). rewrite sum_held_app, Hu. unfold sum_held at 3, held. cbn. destruct (memory_of x) as [[]|]; rewrite ?andb_false_r; lia.
  - intros r o ct size [Ho|[-> ->]]%lookup_make Hmm; [now apply (c_memory _ _ _ Hc _ _ _ _ Ho)|now apply Hmem].
Qed.

Lemma named_keeps k k' L : named k L -> ipc k' = ipc k -> (forall r, r ∈ L -> exists o o', objs k !! r = Some o /\ objs k' !! r = Some o' /\ same_kind (kind_of o') (kind_of o)) -> named k' L.
Proof.
  intros Hn Hi Ho. constructor.
  - intros ty key r. rewrite Hi. intros Hr. destruct (c_named _ _ Hn _ _ _ Hr) as (HrL & o & Hro & Hb & Hm). split; [done|].
    destruct (Ho r HrL) as (o0 & o' & H0 & H' & Hs & Hs' & _). exists o'. rewrite Hro in H0. injection H0 as <-. split_and!; [done|congruence|congruence].
  - intros r o' key Hr HrL Hk. destruct (Ho r HrL) as (o0 & o1 & H0 & H' & Hs & Hs' & _). rewrite Hr in H'. injection H' as <-. rewrite Hi, Hs.
    apply (c_names _ _ Hn r o0); [done|done|congruence].
Qed.

(** An id of an object that already has one, or has no name. *)
Lemma named_add k L r o : named k L -> objs k !! r = Some o -> r ∈ L \/ name_of (kind_of o) = None -> named k (r :: L).
Proof.
  intros Hn Hr H. constructor.
  - intros ty key j Hj. destruct (c_named _ _ Hn _ _ _ Hj) as (? & ?). split; [now apply list_elem_of_further|done].
  - intros j o' key Hj [->|Hin]%elem_of_cons Hk; [|now apply (c_names _ _ Hn)]. rewrite Hr in Hj. injection Hj as <-.
    destruct H as [Hin|Hno]; [now apply (c_names _ _ Hn)|congruence].
Qed.

(** The first id of an object, with its name. *)
Lemma named_new k L r o key : named k L -> objs k !! r = Some o -> name_of (kind_of o) = Some key ->
  ipc_get (base_of (kind_of o)) key k = None -> named (set_ipc (<[(base_of (kind_of o), key) := Some r]> (ipc k)) k) (r :: L).
Proof.
  intros Hn Hr Hk Hg. constructor; cbn.
  - intros ty key' j. rewrite lookup_insert_Some. intros [[[= <- <-] [= <-]]|[Hne Hj]].
    + split; [apply list_elem_of_here|]. eauto.
    + destruct (c_named _ _ Hn _ _ _ Hj) as (? & ?). split; [now apply list_elem_of_further|done].
  - intros j o' key' Hj Hin Hk'. destruct (decide ((base_of (kind_of o), key) = (base_of (kind_of o'), key'))) as [He|Hne].
    + rewrite He, lookup_insert_eq. do 2 f_equal. apply elem_of_cons in Hin as [->|Hin]; [done|]. exfalso.
      pose proof (c_names _ _ Hn _ _ _ Hj Hin Hk') as Hl. injection He as Hb ->. unfold ipc_get in Hg. rewrite Hb, Hl in Hg. done.
    + rewrite lookup_insert_ne by done. apply elem_of_cons in Hin as [->|Hin]; [|now apply (c_names _ _ Hn)]. rewrite Hr in Hj. injection Hj as <-. rewrite Hk in Hk'. congruence.
Qed.

(** A null pointer in the map of keys does not matter. *)
Lemma named_null k L ty key : named k L -> ipc_get ty key k = None -> named (set_ipc (<[(ty, key) := None]> (ipc k)) k) L.
Proof.
  intros Hn Hg. constructor; cbn.
  - intros ty' key' j. rewrite lookup_insert_Some. intros [[_ [=]]|[_ Hj]]. now apply (c_named _ _ Hn).
  - intros j o' key' Hj Hin Hk. pose proof (c_names _ _ Hn _ _ _ Hj Hin Hk) as Hl. rewrite lookup_insert_ne; [done|].
    intros [= -> ->]. unfold ipc_get in Hg. now rewrite Hl in Hg.
Qed.

(** ** [lv2_obj::create] *)

Lemma counted_ipc i k L : counted ext k L -> counted ext (set_ipc i k) L.
Proof. intros Hc. constructor; apply Hc. Qed.

(** The object that gets the id is of the type, and is found under the key. *)
Definition gets (ty pshared key flags : Z) k (r : nat) : Prop :=
  r = length (objs k) /\ (pshared = SYS_SYNC_PROCESS_SHARED -> ipc_get ty key k = None) \/
  pshared = SYS_SYNC_PROCESS_SHARED /\ flags <> SYS_SYNC_NEWLY_CREATED /\ ipc_get ty key k = Some r.

Definition unnamed_failure (ty pshared key flags : Z) (x : kind) k : Prop :=
  pshared = SYS_SYNC_PROCESS_SHARED /\ flags <> SYS_SYNC_NEWLY_CREATED /\ flags <> SYS_SYNC_NOT_CREATE /\ ipc_get ty key k = None /\
  (on_id_create (make_obj x k).1 (make_obj x k).2).1 <> CELL_OK.

(** [finalize_construct] of an object whose count is true. *)
Lemma finalize_ok k L r o w : counted ext k L -> objs k !! r = Some o -> exists_ o = handles r L -> Z.of_nat (length L) < 8192 ->
  exists e k', on_id_create r k = (e, k') /\ finalize_construct (Some r) (w, k) = Some (if e =? 0 then Some r else None, (e, k')) /\
    ipc k' = ipc k /\ keeps_objs k k' /\ length (objs k') = length (objs k) /\
    (e = 0 -> counted ext k' (r :: L)) /\ (e <> 0 -> r ∉ L /\ counted ext k' L).
Proof.
  intros Hc Hr He Hl. pose proof (on_id_create_counted k L r o Hc Hr He Hl) as H. unfold finalize_construct. cbn. destruct (on_id_create r k) as [e k'].
  exists e, k'. split_and!; try reflexivity; apply H.
Qed.

Lemma live_exact k L r o : counted ext k L -> objs k !! r = Some o -> r ∈ L -> exists_ o = handles r L.
Proof. intros Hc Hr HrL. destruct (c_exists _ _ _ Hc _ _ Hr) as [|[_ Hz]]; [done|]. apply handles_pos in HrL. lia. Qed.

Lemma ipc_get_some ty key k r : ipc_get ty key k = Some r -> ipc k !! (ty, key) = Some (Some r).
Proof. unfold ipc_get. destruct (ipc k !! (ty, key)) as [[?|]|]; cbn; congruence. Qed.

(** The state [create_object] leaves with the reference it returns. *)
Definition created_ok k0 L (ty pshared key flags : Z) (x : kind) (r : option (option nat * (Z * kernel))) : Prop :=
  match r with
  | None => unnamed_failure ty pshared key flags x k0
  | Some (Some r, (_, k')) =>
      counted ext k' (r :: L) /\ named k' (r :: L) /\ gets ty pshared key flags k0 r /\ keeps_objs k0 k' /\
      exists o, objs k' !! r = Some o /\ base_of (kind_of o) = ty
  | Some (None, (e, k')) => counted ext k' L /\ named k' L /\ e <> CELL_OK /\ keeps_objs k0 k'
  end.

(** Another id of an object with a name. *)
Lemma finalize_existing k0 k L ty pshared key flags x r w : keeps_objs k0 k -> counted ext k L -> named k L -> Z.of_nat (length L) < 8192 ->
  pshared = SYS_SYNC_PROCESS_SHARED -> flags <> SYS_SYNC_NEWLY_CREATED -> ipc_get ty key k0 = Some r -> ipc k = ipc k0 ->
  created_ok k0 L ty pshared key flags x (finalize_construct (Some r) (w, k)).
Proof.
  intros Hk0 Hc Hn Hl Hp Hf Hg Hi. pose proof (ipc_get_some _ _ _ _ Hg) as Hl1. rewrite <- Hi in Hl1.
  destruct (c_named _ _ Hn _ _ _ Hl1) as (HrL & o & Ho & Hb & Hnm).
  destruct (finalize_ok k L r o w Hc Ho (live_exact _ _ _ _ Hc Ho HrL) Hl) as (e & k' & _ & -> & Hik & Hko & _ & Hok & Hno). cbn.
  assert (keeps_objs k0 k') as Hk0'.
  { intros j oj Hj. destruct (Hk0 j oj Hj) as (o1 & H1 & S1). destruct (Hko j o1 H1) as (o2 & H2 & S2). exists o2. split; [done|].
    destruct S1 as (? & ? & ? & ? & ?), S2 as (? & ? & ? & ? & ?). repeat split; try congruence; tauto. }
  assert (named k' L) as Hn'.
  { eapply named_keeps; [exact Hn|done|]. intros j Hj. destruct (c_ref _ _ _ Hc j Hj) as [oj Hoj]. destruct (Hko j oj Hoj) as (oj' & ? & ?). eauto. }
  destruct (Z.eqb_spec e 0) as [->|Hne].
  - destruct (Hko r o Ho) as (o' & Ho' & Hs). split; [now apply Hok|]. split; [eapply named_add; [done|exact Ho'|by left]|].
    split; [by right|]. split; [done|]. exists o'. split; [done|]. destruct Hs as (-> & _). done.
  - destruct (Hno Hne) as [Hni _]. done.
Qed.

Lemma create_object_ok ty pshared key flags x w k L : counted ext k L -> named k L -> Z.of_nat (length L) < 8192 -> new_ok k x ->
  base_of x = ty -> name_of x = (if pshared =? SYS_SYNC_PROCESS_SHARED then Some key else None) ->
  created_ok k L ty pshared key flags x (create_object ty pshared key flags x (w, k)).
Proof.
  intros Hc Hn Hl Hx Hb Hnm. destruct (make_counted k L x Hc Hx) as [Hc1 Hh1]. pose proof (lookup_make x k) as Hmk.
  assert (keeps_objs k (make_obj x k).2) as Hk1 by (intros j o Ho; exists o; split; [apply Hmk; by left|apply same_kind_refl]).
  assert (named (make_obj x k).2 L) as Hn1.
  { eapply named_keeps; [exact Hn|done|]. intros j Hj. destruct (c_ref _ _ _ Hc j Hj) as [oj Hoj]. destruct (Hk1 j oj Hoj) as (oj' & ? & ?). eauto. }
  assert (ipc (make_obj x k).2 = ipc k) as Hi1 by done.
  unfold create_object. destruct (make_obj x k) as [r k1] eqn:Hmo. cbn [snd] in *. assert (r = length (objs k)) as Hr by (unfold make_obj in Hmo; congruence).
  assert (objs k1 !! r = Some (Obj 0 false x)) as Hro by (apply Hmk; right; done). rewrite <- Hr in Hh1.
  assert (forall k', keeps_objs k1 k' -> keeps_objs k k') as Htr.
  { intros k' H j oj Hj. apply H. apply Hmk. by left. }
  destruct (finalize_ok k1 L r _ w Hc1 Hro (eq_sym Hh1) Hl) as (e & k' & Hoc & Hfin & Hik & Hko & _ & Hok & Hno).
  assert (forall kk, ipc kk = ipc k1 -> objs kk = objs k' -> named kk L) as Hn'.
  { intros kk Hi Ho. eapply named_keeps; [exact Hn1|done|]. intros j Hj. destruct (c_ref _ _ _ Hc1 j Hj) as [oj Hoj]. destruct (Hko j oj Hoj) as (oj' & ? & ?). rewrite Ho. eauto. }
  assert (exists o, objs k' !! r = Some o /\ same_kind (kind_of o) x) as (o' & Ho' & Hs) by (destruct (Hko r _ Hro) as (o' & ? & ?); exists o'; auto).
  assert (base_of (kind_of o') = ty) as Hb' by (destruct Hs as (-> & _); done).
  assert (name_of (kind_of o') = name_of x) as Hnm' by (destruct Hs as (_ & -> & _); done).
  destruct (Z.eqb_spec pshared SYS_SYNC_PROCESS_SHARED) as [Hp|Hp]; cbn [negb].
  2:{ rewrite Hfin. destruct (Z.eqb_spec e 0) as [->|Hne]; cbn; [|split_and!; [now apply Hno|now apply Hn'|done|now apply Htr]].
      split; [now apply Hok|]. split; [eapply named_add; [now apply Hn'|exact Ho'|right; congruence]|]. split; [left; done|]. split; [now apply Htr|]. eauto. }
  assert (ipc_get ty key k1 = ipc_get ty key k) as Hg by (unfold ipc_get; now rewrite Hi1).
  destruct (Z.eqb_spec flags SYS_SYNC_NOT_CREATE) as [Hf|Hf].
  { rewrite Hg. destruct (ipc_get ty key k) as [r0|] eqn:Hr0; [|cbn; done]. apply finalize_existing; [done..|by rewrite Hf|done|done]. }
  unfold ipc_add. cbn [snd fst]. destruct (ipc k1 !! (ty, key)) as [[r0|]|] eqn:Hl1.
  { assert (ipc_get ty key k = Some r0) as Hr0 by (unfold ipc_get; rewrite <- Hi1, Hl1; done). cbn.
    destruct (Z.eqb_spec flags SYS_SYNC_NEWLY_CREATED) as [Hf1|Hf1]; cbn [negb]; [cbn; done|]. now apply finalize_existing. }
  all: assert (ipc_get ty key k = None) as Hr0 by (unfold ipc_get; rewrite <- Hi1, Hl1; done).
  all: rewrite Hfin; cbn [mbind option_bind fst snd]; destruct (Z.eqb_spec e 0) as [He|Hne]; cbn [negb].
  all: assert (ipc_get ty key k' = None) as Hg' by (unfold ipc_get in *; now rewrite Hik, Hi1).
  1, 3: split; [apply counted_ipc; now apply Hok|]; split; [rewrite <- Hb'; apply (named_new k' L r o' key); [now apply Hn'|done|congruence|congruence]|];
    split; [left; done|]; split; [apply Htr; exact Hko|]; now exists o'.
  all: destruct (Z.eqb_spec flags SYS_SYNC_NEWLY_CREATED) as [Hf1|Hf1]; cbn.
  1, 3: split; [apply counted_ipc; now apply Hno|]; split; [apply (named_null k' L ty key); [now apply Hn'|done]|]; split; [done|apply Htr; exact Hko].
  all: split_and!; try done; rewrite Hmo; cbn; now rewrite Hoc.
Qed.

(** ** Destruction *)

Lemma held_nonneg k L i o r : counted ext k L -> objs k !! r = Some o -> 0 <= held i o.
Proof.
  intros Hc Hr. unfold held. destruct (memory_of (kind_of o)) as [[ct sz]|] eqn:Hm; [|done].
  destruct (c_memory _ _ _ Hc _ _ _ _ Hr Hm) as [_ []]. case_match; lia.
Qed.

Lemma held_le_sum i l o r : (forall o', o' ∈ l -> 0 <= held i o') -> l !! r = Some o -> held i o <= sum_held i l.
Proof.
  revert r. induction l as [|o' l IH]; intros r Hp Hr; [done|].
  change (sum_held i (o' :: l)) with (held i o' + sum_held i l). pose proof (Hp o' ltac:(apply list_elem_of_here)).
  assert (forall o', o' ∈ l -> 0 <= held i o') as Hp' by (intros; apply Hp; now apply list_elem_of_further).
  destruct r as [|r]; cbn in Hr.
  - injection Hr as ->. assert (0 <= sum_held i l); [|lia]. clear - Hp'. unfold sum_held. induction l as [|o' l IH]; cbn; [done|].
    pose proof (Hp' o' ltac:(apply list_elem_of_here)). assert (0 <= foldr (fun o a => held i o + a) 0 l); [|lia]. apply IH. intros; apply Hp'. now apply list_elem_of_further.
  - pose proof (IH r Hp' Hr). lia.
Qed.

Lemma named_drop k k1 L r o : named k (r :: L) -> ipc k1 = ipc k -> keeps_objs k k1 -> length (objs k1) = length (objs k) -> counted ext k (r :: L) ->
  objs k !! r = Some o ->
  named (match name_of (kind_of o) with
         | Some key => if exists_ o =? 1 then ipc_remove (base_of (kind_of o)) key k1 else k1
         | None => k1
         end) L.
Proof.
  intros Hn Hi Hk Hlen Hc Hr.
  assert (named k1 (r :: L)) as Hn1.
  { eapply named_keeps; [exact Hn|done|]. intros j Hj. destruct (c_ref _ _ _ Hc j Hj) as [oj Hoj]. destruct (Hk j oj Hoj) as (oj' & ? & ?). eauto. }
  destruct (Hk r o Hr) as (o1 & Ho1 & Hs1 & Hs2 & _).
  pose proof (live_exact k (r :: L) r o Hc Hr ltac:(apply list_elem_of_here)) as He. rewrite handles_cons_eq in He.
  assert (named k1 L \/ exists key, name_of (kind_of o) = Some key /\ r ∉ L) as [HnL|(key & Hkey & HrL)].
  { destruct (decide (r ∈ L)) as [HrL|HrL].
    - left. constructor; intros; [|eapply (c_names _ _ Hn1); [eassumption|now apply list_elem_of_further|eassumption]].
      destruct (c_named _ _ Hn1 _ _ _ H) as ([->|]%elem_of_cons & ?); done.
    - destruct (name_of (kind_of o)) as [key|] eqn:Hkey; [right; eauto|left]. constructor; intros.
      + destruct (c_named _ _ Hn1 _ _ _ H) as ([->|]%elem_of_cons & o2 & ? & ? & ?); [|eauto]. simplify_eq; congruence.
      + eapply (c_names _ _ Hn1); [eassumption|now apply list_elem_of_further|eassumption]. }
  - destruct (name_of (kind_of o)) as [key|] eqn:Hkey; [|done]. destruct (Z.eqb_spec (exists_ o) 1) as [He1|]; [|done].
    constructor; cbn.
    + intros ty key' j [_ Hj]%lookup_delete_Some. now apply (c_named _ _ HnL).
    + intros j o' key' Hj HjL Hk'. pose proof (c_names _ _ HnL _ _ _ Hj HjL Hk') as Hl. rewrite lookup_delete_ne; [done|].
      intros [= Hb <-]. pose proof (c_names _ _ Hn1 _ _ key Ho1 ltac:(apply list_elem_of_here) ltac:(congruence)) as Hl2. rewrite Hs1, Hb, Hl in Hl2.
      injection Hl2 as ->. apply handles_pos in HjL. lia.
  - rewrite Hkey. assert (handles r L = 0) as Hh by (pose proof (cnt_nonneg (Nat.eqb r) L); rewrite <- handles_pos in HrL; lia).
    rewrite He, Hh. change (1 + 0 =? 1) with true. constructor; cbn.
    + intros ty key' j [Hne Hj]%lookup_delete_Some. destruct (c_named _ _ Hn1 _ _ _ Hj) as ([->|]%elem_of_cons & o2 & Ho2 & Hb2 & Hk2); [|eauto].
      rewrite Ho1 in Ho2. injection Ho2 as <-. destruct Hne. congruence.
    + intros j o' key' Hj HjL Hk'. pose proof (c_names _ _ Hn1 _ _ _ Hj ltac:(now apply list_elem_of_further) Hk') as Hl. rewrite lookup_delete_ne; [done|].
      intros [= Hb <-]. pose proof (c_names _ _ Hn1 _ _ key Ho1 ltac:(apply list_elem_of_here) ltac:(congruence)) as Hl2. rewrite Hs1, Hb, Hl in Hl2.
      injection Hl2 as ->. done.
Qed.

Lemma counted_drop k L r o : counted ext k (r :: L) -> objs k !! r = Some o -> Z.of_nat (length (r :: L)) <= 8192 ->
  (forall c, conds_of (kind_of o) = Some c -> c = 0) -> memory_of (kind_of o) = None -> counted ext (change_id (-1) r o (cts k) k) L.
Proof.
  intros Hc Hr Hl Hc0 Hm. cbn [length] in Hl. apply (counted_change (-1) k (r :: L)); [now right|done|done|apply (live_exact _ _ _ _ Hc Hr), list_elem_of_here|apply cnt_drop|lia|done|auto| |auto].
  intros i c Hi. destruct (c_used _ _ _ Hc i c Hi) as (? & Hu & ?). split; [done|]. split; [|done]. rewrite sum_held_change by done.
  assert (held i (add_exists (-1) o) = held i o) as Hh by now apply held_none. lia.
Qed.

(** The memory goes back to its container with the last id. *)
Lemma counted_free k L r o ct size : counted ext k (r :: L) -> objs k !! r = Some o -> Z.of_nat (length (r :: L)) <= 8192 ->
  memory_of (kind_of o) = Some (ct, size) ->
  if exists_ o =? 1 then exists k', free_to ct size k = Some k' /\ k' = set_cts (cts k') k /\ counted ext (change_id (-1) r o (cts k') k) L
  else counted ext (change_id (-1) r o (cts k) k) L.
Proof.
  intros Hc Hr Hl Hm. cbn [length] in Hl. pose proof (live_exact _ _ _ _ Hc Hr ltac:(apply list_elem_of_here)) as He.
  assert (forall c, conds_of (kind_of o) = Some c -> c = 0) as Hc0 by (destruct (kind_of o); done).
  pose proof (cnt_le (Nat.eqb r) (r :: L)) as Hle. pose proof (cnt_nonneg (Nat.eqb r) L) as Hnn. rewrite handles_cons_eq in He, Hle. cbn [length] in Hle.
  assert (forall i, held i (add_exists (-1) o) = if exists_ o =? 1 then 0 else held i o) as Hh.
  { intros i. unfold held. cbn. rewrite Hm, wrap_small by (unfold is_word; lia). destruct (Z.eqb_spec (exists_ o) 1) as [->|]; [now rewrite andb_false_r|].
    rewrite !(proj2 (Z.eqb_neq _ _)) by lia. done. }
  assert (forall cts', (forall i c, cts' !! i = Some c -> 0 <= ext i /\ used c = ext i + sum_held i (objs k) - held i o + held i (add_exists (-1) o) /\ used c <= ct_size c < 2 ^ 32) ->
    (forall i, is_Some (cts k !! i) -> is_Some (cts' !! i)) -> counted ext (change_id (-1) r o cts' k) L) as Hgo.
  { intros cts' Hcts Hdom. apply (counted_change (-1) k (r :: L)); [now right|done|done|apply (live_exact _ _ _ _ Hc Hr), list_elem_of_here|apply cnt_drop|lia|done|auto| |done].
    intros i c Hi. rewrite sum_held_change by done. destruct (Hcts i c Hi) as (? & ? & ?). split; [done|]. split; [lia|done]. }
  destruct (Z.eqb_spec (exists_ o) 1) as [He1|He1].
  2:{ apply Hgo; [|done]. intros i c Hi. rewrite Hh. destruct (c_used _ _ _ Hc i c Hi) as (? & ? & ?). split; [done|]. split; [lia|done]. }
  destruct (c_memory _ _ _ Hc _ _ _ _ Hr Hm) as [[c Hct] Hw]. destruct (c_used _ _ _ Hc ct c Hct) as (He0 & Hu & Hcs). unfold is_word in Hw.
  assert (held ct o = size) as Hho by (unfold held; rewrite Hm, He1, Nat.eqb_refl; done).
  assert (size <= sum_held ct (objs k)) as Hsz.
  { rewrite <- Hho. eapply held_le_sum; [|exact Hr]. intros o' [j Hj]%list_elem_of_lookup. eapply held_nonneg; eassumption. }
  unfold free_to. rewrite Hct. cbn. unfold free. rewrite (proj2 (Z.geb_le (used c) size)) by lia. cbn. eexists. split; [reflexivity|]. split; [done|]. cbn.
  rewrite (wrap_small 32 size), wrap_small by (unfold is_word; lia). pose proof (lookup_lt_Some _ _ _ Hct). apply Hgo.
  - intros i c' Hi. rewrite Hh. destruct (decide (ct = i)) as [<-|Hne].
    + rewrite list_lookup_insert_eq in Hi by done. injection Hi as <-. cbn. lia.
    + rewrite list_lookup_insert_ne in Hi by done. destruct (c_used _ _ _ Hc i c' Hi) as (? & ? & ?). split; [done|]. split; [|done].
      assert (held i o = 0) as -> by (unfold held; rewrite Hm, (proj2 (Nat.eqb_neq ct i) Hne); done). lia.
  - intros i Hi. destruct (decide (ct = i)) as [<-|Hne]; [rewrite list_lookup_insert_eq by done; eauto|now rewrite list_lookup_insert_ne].
Qed.
End Consistent.
