(* ===== verification/Lv2CreateRun.v ===== *)
(** * Creation and destruction of kernel objects: every sequence of calls

    The counts of Lv2CreateProofs over the ids of the id manager, and what
    becomes of a creation that fails. *)
From stdpp Require Import gmap.
From S2P Require Import Prelude IdManager IdManagerProofs Lv2Queue Lv2Create Lv2CreateProofs.

(** The references of all ids. *)
Definition refs (m : id_map nat) : list nat := omap id (vec_data m).

Lemma length_omap_id {A} (l : list (option A)) : (length (omap id l) <= length l)%nat.
Proof. induction l as [|[x|] l IH]; cbn; lia. Qed.

Section Run.
Context (ext : nat -> Z).

(** A consistent state of the kernel and the ids. *)
Record good (s : state) : Prop := {
  g_map : map_ok lv2_types 8192 s.2;
  g_counted : counted ext s.1 (refs s.2);
  g_named : named s.1 (refs s.2);
  g_typed i r k : vec_data s.2 !! i = Some (Some r) -> vec_keys s.2 !! i = Some k -> exists o, objs s.1 !! r = Some o /\ base_of (kind_of o) = m_base k
}.

Lemma refs_length m : map_ok lv2_types 8192 m -> Z.of_nat (length (refs m)) <= 8192.
Proof. intros Hm. pose proof (length_omap_id (vec_data m)) as H. rewrite (map_data _ _ _ Hm) in H. unfold refs. lia. Qed.

Lemma refs_room m i : map_ok lv2_types 8192 m -> vec_data m !! i = Some None -> Z.of_nat (length (refs m)) < 8192.
Proof.
  intros Hm Hi. pose proof (length_omap_id (<[i := Some 0%nat]> (vec_data m))) as H. rewrite (omap_insert_perm i 0%nat _ Hi) in H.
  rewrite length_insert, (map_data _ _ _ Hm) in H. cbn [length] in H. unfold refs. lia.
Qed.

Lemma typed_keeps k k' m : keeps_objs k k' ->
  (forall i r kk, vec_data m !! i = Some (Some r) -> vec_keys m !! i = Some kk -> exists o, objs k !! r = Some o /\ base_of (kind_of o) = m_base kk) ->
  forall i r kk, vec_data m !! i = Some (Some r) -> vec_keys m !! i = Some kk -> exists o, objs k' !! r = Some o /\ base_of (kind_of o) = m_base kk.
Proof.
  intros Hk H i r kk Hi Hkk. destruct (H i r kk Hi Hkk) as (o & Ho & Hb). destruct (Hk r o Ho) as (o' & Ho' & Hs & _). exists o'. split; congruence.
Qed.

(** What [create] promises, and when it dereferences a null pointer. *)
Lemma create_good ty pshared key flags x knz s : good s -> ty ∈ lv2_bases -> new_ok s.1 x -> base_of x = ty ->
  (pshared = SYS_SYNC_PROCESS_SHARED -> (knz = true -> key <> 0) -> name_of x = Some key) ->
  (pshared <> SYS_SYNC_PROCESS_SHARED -> name_of x = None) ->
  match create ty pshared key flags x knz s with
  | Some (_, _, s') => good s'
  | None => pshared = SYS_SYNC_PROCESS_SHARED /\ flags = SYS_SYNC_NOT_CARE /\ ipc_get ty key s.1 = None /\
      (on_id_create (make_obj x s.1).1 (make_obj x s.1).2).1 <> CELL_OK
  end.
Proof.
  intros Hg Hty Hx Hb Hn1 Hn2. pose proof Hg as [Hm Hc Hn Ht]. destruct s as [k m]. cbn [fst snd] in *. unfold create.
  destruct (negb (_ || _)); [done|]. destruct (_ && _ && _) eqn:Hkz; [done|]. destruct ((pshared =? _) && negb _) eqn:Hfl; [done|].
  assert (lv2_types (lv2_traits ty)) as Htr by now exists ty.
  assert (0 = invalid_id (lv2_traits ty)) as Hinv.
  { unfold invalid_id. cbn. destruct (Z.eqb_spec ty 0) as [->|]; [|done]. exfalso. clear - Hty. unfold lv2_bases in Hty. set_unfold. naive_solver. }
  destruct (allocate_spec lv2_types false 8192 lv2_types_ok (lv2_traits ty) m 0 Htr Hm ltac:(done) ltac:(now left)) as (res & keys & h & Ha & Hh & Hr).
  unfold create_id. rewrite Ha. cbn [mbind option_bind]. destruct res as [[i id]|].
  2:{ destruct Hr as [-> _]. cbn. split; cbn [fst snd]; [now apply (high_ok lv2_types 8192)|done..]. }
  destruct Hr as (Hal & Hi & _). pose proof Hal as (Hd & _ & _ & Hkeys).
  assert (name_of x = (if pshared =? SYS_SYNC_PROCESS_SHARED then Some key else None)) as Hnm.
  { destruct (Z.eqb_spec pshared SYS_SYNC_PROCESS_SHARED) as [Hp|Hp]; [|now apply Hn2]. apply Hn1; [done|]. intros -> ->. cbn in Hkz. discriminate. }
  pose proof (create_object_ok ext ty pshared key flags x CELL_EAGAIN k (refs m) Hc Hn (refs_room m i Hm Hd) Hx Hb Hnm) as Hco.
  destruct (create_object ty pshared key flags x (CELL_EAGAIN, k)) as [[[r|] [e k']]|]; cbn in Hco |- *.
  - destruct Hco as (Hc' & Hn' & _ & Hk & o & Ho & Hbo). pose proof (omap_insert_perm i r _ Hd) as Hp.
    split; cbn [fst snd].
    + exact (place_ok lv2_types 8192 (lv2_traits ty) m i id r keys h Htr Hm Hal Hh Hi).
    + eapply counted_perm; [symmetry; exact Hp|done].
    + eapply named_perm; [symmetry; exact Hp|done].
    + intros j r' kk Hj Hkk. cbn in Hj, Hkk. subst keys. pose proof (lookup_lt_Some _ _ _ Hkk) as Hlk. rewrite length_insert in Hlk.
      destruct (decide (i = j)) as [<-|Hne].
      * rewrite list_lookup_insert_eq in Hkk by done. rewrite list_lookup_insert_eq in Hj by (eapply lookup_lt_Some; exact Hd).
        injection Hj as <-. injection Hkk as <-. eauto.
      * rewrite list_lookup_insert_ne in Hj by done. rewrite list_lookup_insert_ne in Hkk by done. eapply (typed_keeps k k' m Hk Ht); eassumption.
  - destruct Hco as (Hc' & Hn' & _ & Hk). subst keys. split; cbn [fst snd].
    + rewrite list_insert_insert_eq. now apply (free_key_ok lv2_types 8192).
    + done.
    + done.
    + intros j r' kk Hj Hkk. cbn in Hj, Hkk. rewrite !list_lookup_insert_ne in Hkk by congruence. eapply (typed_keeps k k' m Hk Ht); eassumption.
  - destruct Hco as (Hp & Hf1 & Hf2 & Hrest). subst pshared. rewrite Z.eqb_refl in Hfl. cbn in Hfl.
    assert (flags = SYS_SYNC_NOT_CARE) as ->; [|split_and!; [done|done|apply Hrest..]]. destruct (Z.eqb_spec flags SYS_SYNC_NEWLY_CREATED); [done|]. destruct (Z.eqb_spec flags SYS_SYNC_NOT_CREATE); [done|].
    destruct (Z.eqb_spec flags SYS_SYNC_NOT_CARE); done.
Qed.

(** ** Destruction *)

(** What a function given to [idm::withdraw] must do: refuse and change
    nothing, or leave the counts of the other ids. *)
Definition check_ok (ty : Z) (check : nat -> kernel -> option (Z * kernel)) : Prop :=
  forall k L r o, counted ext k (r :: L) -> named k (r :: L) -> Z.of_nat (length (r :: L)) <= 8192 -> objs k !! r = Some o -> base_of (kind_of o) = ty ->
  exists e k', check r k = Some (e, k') /\ (e = CELL_OK -> counted ext k' L /\ named k' L /\ keeps_objs k k') /\ (e <> CELL_OK -> k' = k).

Lemma destroy_good ty v check s : good s -> ty ∈ lv2_bases -> is_word 32 v -> check_ok ty check ->
  exists e s', destroy ty v check s = Some (e, s') /\ good s'.
Proof.
  intros Hg Hty Hid Hck. pose proof Hg as [Hm Hc Hn Ht]. destruct s as [k m]. cbn [fst snd] in *. assert (lv2_types (lv2_traits ty)) as Htr by now exists ty.
  unfold destroy, withdraw. cbn [fst snd]. fold (find_id false (lv2_traits ty) m v). destruct (_ >=? _); [cbn; eauto|].
  destruct (find_id false (lv2_traits ty) m v) as [r|] eqn:Hf; [|cbn; eauto].
  pose proof Hf as (i & kk & Hd & Hk & Hb & Hv)%(find_id_spec lv2_types false 8192 lv2_types_ok); [|done..].
  destruct (Ht i r kk Hd Hk) as (o & Ho & Hbo). rewrite Hb in Hbo. pose proof (omap_delete_perm i r _ Hd) as Hp. fold (refs m) in Hp.
  assert (Z.of_nat (length (r :: omap id (<[i:=None]> (vec_data m)))) <= 8192) as Hlen by (rewrite <- Hp; now apply refs_length).
  destruct (Hck k _ r o (counted_perm _ _ _ _ Hp Hc) (named_perm _ _ _ Hp Hn) Hlen Ho Hbo) as (e & k' & Hce & Hok & Hno). cbn [mbind option_bind]. rewrite Hce.
  destruct (Z.eqb_spec e 0) as [He|He]; cbn.
  - destruct (Hok He) as (Hc' & Hn' & Hkeep). do 2 eexists. split; [reflexivity|].
    assert (Z.to_nat (get_index (lv2_traits ty) v) = i) as ->.
    { destruct (live_key lv2_types false 8192 lv2_types_ok m i r kk (lv2_traits ty) Hm Hd Hk Htr Hb) as (_ & _ & Hx). rewrite <- Hv. lia. }
    split; cbn [fst snd]; [now apply (take_ok lv2_types 8192)|done|done|]. intros j r' kk' Hj Hkk'. cbn in Hj, Hkk'.
    destruct (decide (i = j)) as [<-|Hne]; [rewrite list_lookup_insert_eq in Hj by (eapply lookup_lt_Some; exact Hd); done|].
    rewrite list_lookup_insert_ne in Hj by done. rewrite list_lookup_alter_ne in Hkk' by done. eapply (typed_keeps k k' m Hkeep Ht); eassumption.
  - rewrite (Hno He). eauto.
Qed.

Definition shared_of (key : Z) (pshared : option bool) : bool := match pshared with Some b => b | None => negb (key =? 0) end.

Lemma on_id_destroy_eq ty r key sh k o : objs k !! r = Some o -> name_of (kind_of o) = (if shared_of key sh then Some key else None) ->
  on_id_destroy ty r key sh k =
  match name_of (kind_of o) with
  | Some key => if exists_ o =? 1 then ipc_remove ty key (alter_obj (add_exists (-1)) r k) else alter_obj (add_exists (-1)) r k
  | None => alter_obj (add_exists (-1)) r k
  end.
Proof.
  intros Hr ->. unfold on_id_destroy. fold (shared_of key sh). rewrite Hr. destruct (shared_of key sh); [rewrite andb_true_r|rewrite andb_false_r]; done.
Qed.

Lemma counted_objs k k' L : counted ext k L -> objs k' = objs k -> cts k' = cts k -> counted ext k' L.
Proof.
  intros Hc Ho Hct. constructor; unfold cond_on; rewrite ?Ho, ?Hct; apply Hc.
Qed.

(** The counts do not see a removed name. *)
Lemma counted_removed ty (n : option Z) (b : bool) k L : counted ext k L ->
  counted ext (match n with Some key => if b then ipc_remove ty key k else k | None => k end) L.
Proof. intros Hc. destruct n; [destruct b|]; [now apply counted_ipc|done|done]. Qed.

Lemma keeps_removed ty (n : option Z) (b : bool) k k' : keeps_objs k k' ->
  keeps_objs k (match n with Some key => if b then ipc_remove ty key k' else k' | None => k' end).
Proof. intros Hc. destruct n; [destruct b|]; done. Qed.

Lemma removed_objs ty (n : option Z) (b : bool) k :
  objs (match n with Some key => if b then ipc_remove ty key k else k | None => k end) = objs k /\
  cts (match n with Some key => if b then ipc_remove ty key k else k | None => k end) = cts k.
Proof. destruct n; [destruct b|]; done. Qed.

(** Dropping an id of an object without memory. *)
Lemma drop_plain k k1 L r o key : counted ext k (r :: L) -> named k (r :: L) -> Z.of_nat (length (r :: L)) <= 8192 -> objs k !! r = Some o ->
  (forall c, conds_of (kind_of o) = Some c -> c = 0) -> memory_of (kind_of o) = None -> name_of (kind_of o) = (if key =? 0 then None else Some key) ->
  objs k1 !! r = Some o -> alter_obj (add_exists (-1)) r k1 = change_id (-1) r o (cts k) k ->
  let k' := on_id_destroy (base_of (kind_of o)) r key None k1 in counted ext k' L /\ named k' L /\ keeps_objs k k'.
Proof.
  intros Hc Hn Hl Hr Hc0 Hm Hk Hr1 He. cbn zeta. rewrite (on_id_destroy_eq _ r key None k1 o Hr1) by (cbn; destruct (key =? 0); done). rewrite He.
  pose proof (keeps_change (-1) r o (cts k) k) as Hkeep. split_and!.
  - apply counted_removed. now apply counted_drop.
  - eapply named_drop; [exact Hn| |exact Hkeep| |exact Hc|exact Hr].
    + unfold change_id, alter_mutex. now destruct (mutex_of (kind_of o)).
    + unfold change_id, alter_mutex. destruct (mutex_of (kind_of o)); cbn; now rewrite !length_alter.
  - now apply keeps_removed.
Qed.

Lemma destroy_mutex_ok : check_ok mutex_base destroy_mutex.
Proof.
  intros k L r o Hc Hn Hl Hr Hb. unfold destroy_mutex. rewrite Hr. destruct o as [e b []]; try done. set (o := Obj _ _ _) in *.
  destruct b; [do 2 eexists; split; [reflexivity|done]|]. destruct (Z.eqb_spec cond_count 0) as [->|]; cbn [negb]; [|do 2 eexists; split; [reflexivity|done]].
  do 2 eexists. split; [reflexivity|]. split; [|done]. intros _. apply (drop_plain k k L r o key); try done. now intros c [= <-].
Qed.

Lemma destroy_plain_ok ty (f : nat -> kernel -> option (Z * kernel)) :
  (forall r k o, objs k !! r = Some o -> base_of (kind_of o) = ty -> exists key, name_of (kind_of o) = (if key =? 0 then None else Some key) /\
    f r k = (if busy o then Some (CELL_EBUSY, k) else Some (CELL_OK, on_id_destroy ty r key None k)) /\
    conds_of (kind_of o) = None /\ mutex_of (kind_of o) = None /\ memory_of (kind_of o) = None) -> check_ok ty f.
Proof.
  intros Hf k L r o Hc Hn Hl Hr Hb. destruct (Hf r k o Hr Hb) as (key & Hk & -> & Hc0 & Hm0 & Hme). destruct (busy o); [do 2 eexists; split; [reflexivity|done]|].
  do 2 eexists. split; [reflexivity|]. split; [|done]. intros _. rewrite <- Hb. apply (drop_plain k k L r o key); try done; [now rewrite Hc0|]. now rewrite change_id_self.
Qed.

Lemma destroy_sema_ok : check_ok sema_base destroy_sema.
Proof. apply destroy_plain_ok. intros r k [e b []] Hr Hb; try done. eexists. unfold destroy_sema. rewrite Hr. done. Qed.

Lemma destroy_rwlock_ok : check_ok rwlock_base destroy_rwlock.
Proof. apply destroy_plain_ok. intros r k [e b []] Hr Hb; try done. eexists. unfold destroy_rwlock. rewrite Hr. done. Qed.

Lemma destroy_flag_ok : check_ok flag_base destroy_flag.
Proof. apply destroy_plain_ok. intros r k [e b []] Hr Hb; try done. eexists. unfold destroy_flag. rewrite Hr. done. Qed.

Lemma destroy_cond_ok : check_ok cond_base destroy_cond.
Proof.
  intros k L r o Hc Hn Hl Hr Hb. unfold destroy_cond. rewrite Hr. destruct o as [e b []]; try done. set (o := Obj _ _ _) in *.
  destruct b; [do 2 eexists; split; [reflexivity|done]|]. do 2 eexists. split; [reflexivity|]. split; [|done]. intros _.
  destruct (c_mutex _ _ _ Hc r o mutex Hr eq_refl) as [(om & Hom & Hcm) _].
  assert (r <> mutex) as Hne by (intros <-; rewrite Hr in Hom; injection Hom as <-; now destruct Hcm).
  apply (drop_plain k _ L r o key); try done.
  - rewrite lookup_alter_obj, decide_False by done. exact Hr.
  - unfold change_id, alter_mutex. cbn. unfold alter_obj, set_objs, set_cts. cbn. f_equal. apply list_eq. intros j. rewrite !list_lookup_alter. repeat case_decide; subst; done || now destruct (objs k !! j).
Qed.

Lemma destroy_memory_ok : check_ok memory_base destroy_memory.
Proof.
  intros k L r o Hc Hn Hl Hr Hb. unfold destroy_memory. rewrite Hr. destruct o as [e b []]; try done. set (o := Obj _ _ _) in *.
  destruct (negb (counter =? 0)); [do 2 eexists; split; [reflexivity|done]|].
  rewrite (on_id_destroy_eq memory_base r key (Some pshared) k o Hr eq_refl).
  pose proof (counted_free ext k L r o ct size Hc Hr Hl eq_refl) as Hfree. pose proof (live_exact ext k (r :: L) r o Hc Hr ltac:(apply list_elem_of_here)) as He.
  rewrite handles_cons_eq in He. pose proof (cnt_nonneg (Nat.eqb r) L). pose proof (cnt_le (Nat.eqb r) L). cbn [length] in Hl.
  set (k1 := alter_obj (add_exists (-1)) r k) in *. set (k2 := match name_of (kind_of o) with Some _ => _ | None => _ end).
  assert (objs k2 = objs k1 /\ cts k2 = cts k) as [Ho2 Hc2] by apply (removed_objs memory_base (name_of (kind_of o)) (exists_ o =? 1) k1).
  assert (check_obj r k2 = negb (exists_ o =? 1)) as ->.
  { unfold check_obj. rewrite Ho2. unfold k1. rewrite lookup_alter_obj, decide_True, Hr by done. cbn. rewrite wrap_small by (unfold is_word; cbn in He; lia).
    cbn in He. destruct (Z.eqb_spec e 1) as [->|]; [done|]. rewrite (proj2 (Z.eqb_neq _ _)) by lia. done. }
  assert (named k2 L) as Hn2.
  { apply (named_drop ext k k1 L r o Hn); [done|apply keeps_alter|apply length_alter|exact Hc|exact Hr]. }
  assert (keeps_objs k k2) as Hk2 by (apply keeps_removed, keeps_alter).
  destruct (exists_ o =? 1) eqn:He1; cbn [negb].
  - destruct Hfree as (kf & Hfr & Hkf & Hcf). unfold free_to in *. rewrite Hc2. destruct (cts k !! ct) as [c|]; [|done]. cbn in *. destruct (free size c) as [c'|]; [|done].
    injection Hfr as <-. cbn in *. do 2 eexists. split; [reflexivity|]. split; [|done]. intros _. split_and!.
    + refine (_ : counted ext (set_cts (<[ct:=c']> (cts k)) k2) L). eapply counted_objs; [exact Hcf|exact Ho2|done].
    + constructor; apply Hn2.
    + exact Hk2.
  - do 2 eexists. split; [reflexivity|]. split; [|done]. intros _. split_and!; [|exact Hn2|exact Hk2].
    eapply counted_objs; [exact Hfree|exact Ho2|exact Hc2].
Qed.

(** ** The calls *)

(** Changes of an object that the counts do not see. *)
Lemma update_good f r s : (forall o, exists_ (f o) = exists_ o /\ same_kind (kind_of (f o)) (kind_of o) /\ conds_of (kind_of (f o)) = conds_of (kind_of o)) ->
  good s -> good (alter_obj f r s.1, s.2).
Proof.
  intros Hf [Hm Hc Hn Ht]. destruct s as [k m]. cbn [fst snd] in *.
  assert (forall j o', objs (alter_obj f r k) !! j = Some o' -> exists o, objs k !! j = Some o /\ exists_ o' = exists_ o /\ same_kind (kind_of o') (kind_of o) /\ conds_of (kind_of o') = conds_of (kind_of o)) as Hk.
  { intros j o'. rewrite lookup_alter_obj. case_decide; [|intros Hj; exists o'; split_and!; done || apply same_kind_refl].
    destruct (objs k !! j) as [o|]; [|done]. intros [= <-]. exists o. split; [done|]. apply Hf. }
  assert (keeps_objs k (alter_obj f r k)) as Hkeep.
  { intros j o Hj. rewrite lookup_alter_obj, Hj. case_decide; [|exists o; split; [done|apply same_kind_refl]]. exists (f o). split; [done|]. apply Hf. }
  split; cbn [fst snd]; [done|..].
  - constructor.
    + intros j Hj. destruct (c_ref _ _ _ Hc j Hj) as [o Ho]. destruct (Hkeep j o Ho) as (o' & ? & _). eauto.
    + intros j o' (o & Ho & -> & (_ & _ & -> & _) & _)%Hk. now apply (c_exists _ _ _ Hc).
    + intros j o' c (o & Ho & _ & _ & ->)%Hk Hcd. rewrite (c_conds _ _ _ Hc _ _ _ Ho Hcd). apply cnt_ext. intros r' _. symmetry. apply cond_on_alter. intros o1. apply Hf.
    + intros j o' mx (o & Ho & _ & (_ & _ & -> & _) & _)%Hk Hmx. destruct (c_mutex _ _ _ Hc _ _ _ Ho Hmx) as [(o2 & Ho2 & Hc2) Hin]. split; [|done].
      destruct (Hkeep mx o2 Ho2) as (o3 & Ho3 & (_ & _ & _ & _ & Hcd)). exists o3. split; [done|]. now apply Hcd.
    + intros i c Hi. destruct (c_used _ _ _ Hc i c Hi) as (? & Hu & ?). split; [done|]. split; [|done].
      change (objs (alter_obj f r k)) with (alter f r (objs k)). rewrite sum_held_alter_same; [done|]. intros o _. unfold held. destruct (Hf o) as (-> & (_ & _ & _ & -> & _) & _). done.
    + intros j o' ct size (o & Ho & _ & (_ & _ & _ & -> & _) & _)%Hk. now apply (c_memory _ _ _ Hc _ _ _ _ Ho).
  - eapply named_keeps; [exact Hn|done|]. intros j Hj. destruct (c_ref _ _ _ Hc j Hj) as [oj Hoj]. destruct (Hkeep j oj Hoj) as (oj' & ? & ?). eauto.
  - eapply typed_keeps; [exact Hkeep|exact Ht].
Qed.

(** The parameters that stand for the result of an earlier step, and the width
    of an id. *)
Definition call_ok (c : call) (s : state) : Prop :=
  match c with
  | SysCondCreate id _ | SysMutexDestroy id | SysCondDestroy id | SysSemaphoreDestroy id | SysRwlockDestroy id | SysEventFlagDestroy id | SysMmapperFree id => is_word 32 id
  | CondCreate _ m _ => exists o, objs s.1 !! m = Some o /\ is_Some (conds_of (kind_of o))
  | SysMmapperAllocate _ _ _ => is_Some (cts s.1 !! 0%nat)
  | AllocateFrom _ _ _ ct => is_Some (cts s.1 !! ct)
  | _ => True
  end.

(** Where a null pointer is dereferenced: a call that creates the first object
    of a key, with [SYS_SYNC_NOT_CARE], and whose [on_id_create] fails.  That
    is the second half of [sys_cond_create] when the mutex it found is gone, and
    an allocation of shared memory when the container has no room. *)
Definition memory_fails (key size : Z) (ct : nat) (k : kernel) : Prop :=
  key <> SYS_MMAPPER_NO_SHM_KEY /\ ipc_get memory_base key k = None /\ (take_from ct (u32 size) k).1 = 0.

Definition null_dereference (c : call) (s : state) : Prop :=
  match c with
  | CondCreate _ m a =>
      a_pshared a = SYS_SYNC_PROCESS_SHARED /\ a_flags a = SYS_SYNC_NOT_CARE /\ ipc_get cond_base (a_ipc_key a) s.1 = None /\ check_obj m s.1 = false
  | SysMmapperAllocate key size _ => memory_fails key size 0 s.1
  | AllocateFrom key size _ ct => memory_fails key size ct s.1
  | _ => False
  end.

Definition stepped (c : call) (s : state) (r : option (Z * Z * state)) : Prop :=
  match r with
  | Some (_, _, s') => good s'
  | None => null_dereference c s
  end.

(** When [on_id_create] of a new object fails. *)
Lemma new_object_fails x k : (on_id_create (make_obj x k).1 (make_obj x k).2).1 <> CELL_OK ->
  match x with
  | Cond _ _ _ m => is_Some (objs k !! m) -> check_obj m k = false
  | Memory size _ _ _ _ ct _ => (take_from ct size k).1 = 0
  | _ => False
  end.
Proof.
  unfold on_id_create, make_obj. cbn [fst snd objs set_objs]. rewrite lookup_app_r, Nat.sub_diag by done. cbn [lookup list_lookup].
  destruct x; try done.
  - set (k1 := alter_obj _ _ _). intros H [o Ho]. assert (check_obj mutex k1 = check_obj mutex k) as <-; [|by destruct (check_obj mutex k1)].
    unfold check_obj, k1. rewrite lookup_alter_obj. pose proof (lookup_lt_Some _ _ _ Ho). rewrite decide_False by lia. cbn. by rewrite lookup_app_l.
  - cbn [negb Z.eqb]. unfold take_from. cbn [cts set_objs]. destruct (cts k !! ct) as [c|]; [|done]. destruct (take size c) as [taken c']. cbn.
    by destruct (Z.eqb_spec taken 0).
Qed.

Lemma create_stepped c ty pshared key flags x knz s : good s -> ty ∈ lv2_bases -> new_ok s.1 x -> base_of x = ty ->
  (pshared = SYS_SYNC_PROCESS_SHARED -> (knz = true -> key <> 0) -> name_of x = Some key) ->
  (pshared <> SYS_SYNC_PROCESS_SHARED -> name_of x = None) ->
  (pshared = SYS_SYNC_PROCESS_SHARED -> flags = SYS_SYNC_NOT_CARE -> ipc_get ty key s.1 = None ->
   match x with
   | Cond _ _ _ m => is_Some (objs s.1 !! m) -> check_obj m s.1 = false
   | Memory size _ _ _ _ ct _ => (take_from ct size s.1).1 = 0
   | _ => False
   end -> null_dereference c s) ->
  stepped c s (create ty pshared key flags x knz s).
Proof.
  intros Hg Hty Hx Hb H1 H2 Hn. pose proof (create_good ty pshared key flags x knz s Hg Hty Hx Hb H1 H2) as H.
  unfold stepped. destruct (create _ _ _ _ _ _ _) as [[[e id] s']|]; [done|]. destruct H as (Hp & Hf & Hi & Hc). apply Hn; [done..|]. by apply new_object_fails.
Qed.

(** Names of objects made with [get_key]. *)
Lemma get_key_shared a : a_pshared a = SYS_SYNC_PROCESS_SHARED -> get_key a <> 0 -> (if get_key a =? 0 then None else Some (get_key a)) = Some (get_key a).
Proof. intros _ H. now rewrite (proj2 (Z.eqb_neq _ _) H). Qed.

Lemma get_key_local a : a_pshared a <> SYS_SYNC_PROCESS_SHARED -> (if get_key a =? 0 then None else Some (get_key a)) = None.
Proof. intros H. unfold get_key. now rewrite (proj2 (Z.eqb_neq _ _) H). Qed.

Lemma no_count_ok k x : conds_of x = None -> mutex_of x = None -> memory_of x = None -> new_ok k x.
Proof. intros H1 H2 H3. unfold new_ok. rewrite H1, H2, H3. done. Qed.

Ltac in_bases := unfold lv2_bases; set_solver.

Lemma cond_create_stepped c id m a s : good s -> (exists o, objs s.1 !! m = Some o /\ is_Some (conds_of (kind_of o))) ->
  (a_pshared a = SYS_SYNC_PROCESS_SHARED -> a_flags a = SYS_SYNC_NOT_CARE -> ipc_get cond_base (a_ipc_key a) s.1 = None -> check_obj m s.1 = false ->
   null_dereference c s) -> stepped c s (cond_create id m a s).
Proof.
  intros Hg Hm Hn. apply create_stepped; [done|in_bases|unfold new_ok; cbn; split_and!; [done|now intros ? [= <-]|done]|done| | |].
  - cbn. intros Hp Hk. apply get_key_shared; auto.
  - cbn. apply get_key_local.
  - intros Hp Hf Hi Hc. apply Hn; [done..| |].
    + unfold get_key in Hi. by rewrite Hp, Z.eqb_refl in Hi.
    + apply Hc. destruct Hm as (o & -> & _). eauto.
Qed.

Lemma memory_stepped c key size flags ct s : good s -> is_Some (cts s.1 !! ct) -> (memory_fails key size ct s.1 -> null_dereference c s) -> stepped c s (allocate_shared_memory key size flags ct s).
Proof.
  intros Hg Hct Hn. unfold allocate_shared_memory, create_lv2_shm. apply create_stepped; [done|in_bases| |done|..].
  - unfold new_ok. cbn. split_and!; [done|done|]. intros ? ? [= <- <-]. split; [done|]. apply (wrap_range 32). lia.
  - cbn. destruct (negb _); done.
  - cbn. destruct (negb _); done.
  - destruct (Z.eqb_spec key SYS_MMAPPER_NO_SHM_KEY); cbn [negb]; [done|]. intros _ _ Hi Hm. by apply Hn.
Qed.

Lemma destroy_stepped c ty id check s : good s -> ty ∈ lv2_bases -> is_word 32 id -> check_ok ty check -> stepped c s (no_id (destroy ty id check s)).
Proof. intros Hg Hty Hid Hck. destruct (destroy_good ty id check s Hg Hty Hid Hck) as (e & s' & -> & Hs'). exact Hs'. Qed.

Lemma step_good c s : good s -> call_ok c s -> stepped c s (step c s).
Proof.
  intros Hg Hok. destruct c; cbn [step call_ok] in *.
  - unfold sys_mutex_create. destruct out, attr as [a|]; try exact Hg. destruct (negb (_ || _ || _)); [exact Hg|]. destruct (negb (_ || _)); [exact Hg|].
    apply create_stepped; [done|in_bases|unfold new_ok; cbn; split_and!; [now intros ? [= <-]|done|done]|done| | |done].
    + cbn. intros Hp Hk. unfold get_key. rewrite Hp, Z.eqb_refl, (proj2 (Z.eqb_neq (a_ipc_key a) 0)); auto.
    + cbn. apply get_key_local.
  - unfold sys_cond_create. destruct (cond_mutex mutex_id s) as [m|] eqn:Hf; [|exact Hg].
    unfold cond_mutex in Hf. pose proof Hg as [Hm Hc Hn Ht].
    apply (find_id_spec lv2_types false 8192 lv2_types_ok) in Hf as (i & k & Hd & Hk & Hb & Hv); [|exists mutex_base; split; [in_bases|done]|done|done].
    destruct (Ht i m k Hd Hk) as (o & Ho & Hbo). apply cond_create_stepped; [done| |].
    + exists o. split; [done|]. rewrite Hb in Hbo. destruct (kind_of o); done.
    + intros _ _ _ Hx. exfalso. assert (m ∈ refs s.2) as Hin by (apply list_elem_of_omap; exists (Some m); split; [by eapply list_elem_of_lookup_2|done]).
      pose proof (live_exact ext _ _ _ _ Hc Ho Hin) as He. apply handles_pos in Hin. unfold check_obj in Hx. rewrite Ho, He, (proj2 (Z.eqb_neq _ _)) in Hx; [done|lia].
  - now apply cond_create_stepped.
  - unfold sys_semaphore_create. destruct out, attr as [a|]; try exact Hg. destruct (_ || _ || _); [exact Hg|]. destruct (negb _ && negb _); [exact Hg|].
    apply create_stepped; [done|in_bases|now apply no_count_ok|done| | |done]; cbn; [intros; apply get_key_shared; auto|apply get_key_local].
  - unfold sys_rwlock_create. destruct out, attr as [a|]; try exact Hg. destruct (negb _ && negb _); [exact Hg|].
    apply create_stepped; [done|in_bases|now apply no_count_ok|done| | |done]; cbn; [intros; apply get_key_shared; auto|apply get_key_local].
  - unfold sys_event_flag_create. destruct out, attr as [a|]; try exact Hg. destruct (negb _ && negb _); [exact Hg|]. destruct (negb _ && negb _); [exact Hg|].
    apply create_stepped; [done|in_bases|now apply no_count_ok|done| | |done]; cbn; [intros; apply get_key_shared; auto|apply get_key_local].
  - unfold sys_event_queue_create. destruct (_ || _); [exact Hg|]. destruct (negb _ && negb _); [exact Hg|]. destruct (negb _ && negb _); [exact Hg|].
    apply create_stepped; [done|in_bases|now apply no_count_ok|done| | |done]; cbn; destruct (Z.eqb_spec ipc_key 0); done.
  - unfold sys_mmapper_allocate_shared_memory. destruct (size =? 0); [exact Hg|]. destruct (negb _); [exact Hg|]. now apply memory_stepped.
  - now apply memory_stepped.
  - apply destroy_stepped; [done|in_bases|done|apply destroy_mutex_ok].
  - apply destroy_stepped; [done|in_bases|done|apply destroy_cond_ok].
  - apply destroy_stepped; [done|in_bases|done|apply destroy_sema_ok].
  - apply destroy_stepped; [done|in_bases|done|apply destroy_rwlock_ok].
  - apply destroy_stepped; [done|in_bases|done|apply destroy_flag_ok].
  - apply destroy_stepped; [done|in_bases|done|apply destroy_memory_ok].
  - apply update_good; [|done]. now intros o.
  - apply update_good; [|done]. now intros [? ? []].
Qed.
End Run.

Fixpoint calls_ok (cs : list call) (s : state) : Prop :=
  match cs with
  | [] => True
  | c :: cs => call_ok c s /\ match step c s with Some (_, _, s) => calls_ok cs s | None => True end
  end.

(** C21: Whatever kernel objects the guest creates, opens by their key and
    destroys from a consistent state (the empty one is), with calls that succeed
    and calls that fail ([calls_ok]: ids are 32-bit words, and the second half
    of a call gets a mutex or container that was found): an object counts
    exactly its ids, a mutex exactly the ids of its condition variables and is
    not gone while it has one, a container exactly the memory of its live
    objects and never more than it has, and a key leads to the live object that
    has it.  A sequence is cut short only at a call that makes
    [lv2_obj::create] dereference a null pointer, and only two do: an allocation
    of shared memory under a new key from a container without room, and the
    creation under a new key, with [SYS_SYNC_NOT_CARE], of a condition variable
    whose mutex was destroyed since it was looked up.  Every other call returns,
    and no [ensure] of the destroying calls fails. *)
Theorem kernel_objects_consistent ext cs s : good ext s -> calls_ok cs s ->
  match run cs s with
  | Some (_, s') => good ext s'
  | None => exists pre c post rs s', cs = pre ++ c :: post /\ run pre s = Some (rs, s') /\ good ext s' /\ null_dereference c s'
  end.
Proof.
  revert s. induction cs as [|c cs IH]; intros s Hg Hok; [exact Hg|]. destruct Hok as [Hc Hok]. cbn [run].
  pose proof (step_good ext c s Hg Hc) as Hs. destruct (step c s) as [[[e id] s1]|] eqn:Hst; cbn in Hs |- *.
  - specialize (IH s1 Hs Hok). destruct (run cs s1) as [[rs s2]|]; cbn; [exact IH|].
    destruct IH as (pre & c' & post & rs & s' & -> & Hr & Hg' & Hn). exists (c :: pre), c', post, ((e, id) :: rs), s'. cbn. rewrite Hst. cbn. now rewrite Hr.
  - exists [], c, cs, [], s. done.
Qed.

(** ** Examples *)

Lemma start_good ct : used ct = 0 -> 0 <= ct_size ct < 2 ^ 32 -> good (fun _ => 0) (start [ct]).
Proof.
  intros Hu Hs. assert (refs (empty_map (Z.to_nat 8192)) = []) as Hr.
  { unfold refs, empty_map. cbn [vec_data]. generalize (Z.to_nat 8192). induction n as [|n IH]; cbn; done. }
  split; cbn [start fst snd]; rewrite ?Hr.
  - exact (empty_ok (O := nat) lv2_types false 8192 lv2_types_ok).
  - constructor; cbn; try done; [now intros r ?%not_elem_of_nil|]. intros [|i] c; [|done]. intros [= <-]. lia.
  - constructor; cbn; [intros ty key r; now rewrite lookup_empty|done].
  - intros i r k Hi. unfold empty_map in Hi. cbn [vec_data] in Hi. now apply lookup_replicate in Hi as [[=] _].
Qed.

(** A mutex with a condition variable, a semaphore opened twice by its key, and
    shared memory that fills its container. *)
Definition shared_attr (key flags : Z) : attribute := Attr SYS_SYNC_FIFO SYS_SYNC_RECURSIVE 0 0 SYS_SYNC_PROCESS_SHARED key flags 0.
Definition local_attr : attribute := Attr SYS_SYNC_FIFO SYS_SYNC_RECURSIVE 0 0 SYS_SYNC_NOT_PROCESS_SHARED 0 0 0.

Definition demo_calls : list call :=
  [SysMutexCreate true (Some local_attr); SysCondCreate 0x85000000 local_attr; SysMutexDestroy 0x85000000;
   SysSemaphoreCreate true (Some (shared_attr 7 SYS_SYNC_NOT_CARE)) 1 2; SysSemaphoreCreate true (Some (shared_attr 7 SYS_SYNC_NOT_CREATE)) 1 2;
   SysSemaphoreDestroy 0x96000200; SysSemaphoreCreate true (Some (shared_attr 7 SYS_SYNC_NEWLY_CREATED)) 1 2;
   SysMmapperAllocate SYS_MMAPPER_NO_SHM_KEY 0x100000 0; SysMmapperAllocate SYS_MMAPPER_NO_SHM_KEY 0x100000 0;
   SysCondDestroy 0x86000100; SysMutexDestroy 0x85000000].

Lemma kernel_objects_consistent_witness :
  fst <$> run demo_calls (start [Container 0x100000 0]) =
    Some [(CELL_OK, 0x85000000); (CELL_OK, 0x86000100); (CELL_EPERM, 0); (CELL_OK, 0x96000200); (CELL_OK, 0x96000300); (CELL_OK, 0);
          (CELL_EEXIST, 0); (CELL_OK, 0x08000500); (CELL_ENOMEM, 0); (CELL_OK, 0); (CELL_OK, 0)] /\
  match run demo_calls (start [Container 0x100000 0]) with
  | Some (_, s') => good (fun _ => 0) s'
  | None => exists pre c post rs s', demo_calls = pre ++ c :: post /\ run pre (start [Container 0x100000 0]) = Some (rs, s') /\ good (fun _ => 0) s' /\
      null_dereference c s'
  end.
Proof.
  split; [vm_compute; reflexivity|].
  apply (kernel_objects_consistent (fun _ => 0) demo_calls (start [Container 0x100000 0]) (start_good (Container 0x100000 0) eq_refl ltac:(cbn; lia))).
  vm_compute. repeat split; try discriminate; eauto.
Defined.

(** Shared memory with a key and no room: the program crashes where the same
    call without a key fails with [CELL_ENOMEM]. *)
Lemma shared_memory_crash :
  step (SysMmapperAllocate 5 0x200000 0) (start [Container 0x100000 0]) = None /\
  null_dereference (SysMmapperAllocate 5 0x200000 0) (start [Container 0x100000 0]) /\
  fst <$> step (SysMmapperAllocate SYS_MMAPPER_NO_SHM_KEY 0x200000 0) (start [Container 0x100000 0]) = Some (CELL_ENOMEM, 0).
Proof. split_and!; vm_compute; [reflexivity| |reflexivity]. done. Qed.

(** The 64-bit size is truncated: more than 4 GiB are granted as 1 MiB. *)
Lemma shared_memory_truncated :
  (fun r => (r.1, kind_of <$> objs r.2.1)) <$> step (SysMmapperAllocate SYS_MMAPPER_NO_SHM_KEY 0x100100000 0) (start [Container 0x100000 0]) =
    Some ((CELL_OK, 0x08000000), [Memory 0x100000 0x100000 0 0 false 0 0]).
Proof. vm_compute. reflexivity. Qed.
