(* ===== verification/Lv2Sema.v ===== *)
(** * LV2 kernel: semaphores

    [kernel/cellos/src/sys_semaphore.cpp] as threads over one [lv2_sema]
    (Threads).  [val] counts the free places, below zero the sleeping threads.
    Fast paths read [val] in one step and replace it with a compare and swap
    in another; a section under [sema.mutex] is one step, since it reads or
    changes [val] once and everything else it touches only under the mutex.
    Lookup and callback hold the id manager's lock ([idm_readers]), which
    keeps [sys_semaphore_destroy] away.  The debug cache for one game
    ("superpath") and savestates past the mark [cpu_flag::again] are not
    modelled. *)
From S2P Require Import Prelude Threads Lv2Queue.

(** ** The object *)

Record lv2_sema := MkSema {
  val : Z;
  sq : list waiter;
  order_tag : Z; (* lv2_obj::g_priority_order_tag *)
  signaled : list Z; (* threads with cpu_flag::signal *)
  again : list Z; (* threads with cpu_flag::again *)
  exists_ : bool; (* the id names the object *)
  idm_readers : Z (* callbacks that hold the id manager's lock shared *)
}.

Definition set_val (v : Z) (o : lv2_sema) : lv2_sema :=
  MkSema v (sq o) (order_tag o) (signaled o) (again o) (exists_ o) (idm_readers o).
Definition set_sq (v : list waiter) (o : lv2_sema) : lv2_sema :=
  MkSema (val o) v (order_tag o) (signaled o) (again o) (exists_ o) (idm_readers o).
Definition set_tag (v : Z) (o : lv2_sema) : lv2_sema :=
  MkSema (val o) (sq o) v (signaled o) (again o) (exists_ o) (idm_readers o).
Definition set_signaled (v : list Z) (o : lv2_sema) : lv2_sema :=
  MkSema (val o) (sq o) (order_tag o) v (again o) (exists_ o) (idm_readers o).
Definition set_again (v : list Z) (o : lv2_sema) : lv2_sema :=
  MkSema (val o) (sq o) (order_tag o) (signaled o) v (exists_ o) (idm_readers o).
Definition set_exists (v : bool) (o : lv2_sema) : lv2_sema :=
  MkSema (val o) (sq o) (order_tag o) (signaled o) (again o) v (idm_readers o).
Definition add_reader (n : Z) (o : lv2_sema) : lv2_sema :=
  MkSema (val o) (sq o) (order_tag o) (signaled o) (again o) (exists_ o) (idm_readers o + n).

(** The flag goes when the thread sees it, at the latest in [check_state]
    before its next call. *)
Definition clear_signal (id : Z) (o : lv2_sema) : lv2_sema := set_signaled (filter (fun x => x <> id) (signaled o)) o.

Definition is_again (o : lv2_sema) (id : Z) : bool := bool_decide (id ∈ again o).

(** ** Threads *)

Inductive sema_at :=
| Idle
| WaitCas (v : Z) (* read [v], a compare and swap to [v - 1] is next *)
| WaitSlow (* the section under the mutex is next *)
| Waiting (* in the loop over [ppu.state] *)
| PostCas (v count : Z)
| PostSlow (count : Z)
| Stopped. (* returned with [cpu_flag::again]: a savestate is being made *)

Record sema_thread := SemaThread { t_id : Z; t_prio : Z; t_at : sema_at }.

Definition at_pc (t : sema_thread) (pc : sema_at) : sema_thread := SemaThread (t_id t) (t_prio t) pc.

Inductive sema_event :=
| Acquired
| Slept (w : waiter)
| Posted (count : Z) (woken : list waiter)
| Refused (count : Z) (* no room *)
| TimedOut (id : Z)
| Destroyed
| Return (code : Z). (* a call that had no effect on the semaphore *)

Section Sema.
(** Constant members of the object. *)
Variable protocol max : Z.

Abbreviation step := (list sema_event * lv2_sema * sema_thread)%type.

(** *** [sys_semaphore_wait] *)

(** Lookup and the read of [val]. *)
Definition wait_begin (o : lv2_sema) (t : sema_thread) : step :=
  if exists_ o then
    ([], add_reader 1 o, at_pc t (if 0 <? val o then WaitCas (val o) else WaitSlow))
  else ([Return CELL_ESRCH], o, t).

Definition wait_cas (v : Z) (o : lv2_sema) (t : sema_thread) : step :=
  if val o =? v then ([Acquired], add_reader (-1) (set_val (v - 1) o), at_pc t Idle)
  else ([], o, at_pc t WaitSlow).

Definition wait_slow (o : lv2_sema) (t : sema_thread) : step :=
  let old := val o in
  let o := set_val (s32 (old - 1)) o in
  if old <=? 0 then
    let o := set_sq (emplace (sq o) (t_id t) (t_prio t) (order_tag o)) (set_tag (order_tag o + 1) o) in
    ([Slept (Waiter (t_id t) (t_prio t) (order_tag o))], add_reader (-1) o, at_pc t Waiting)
  else ([Acquired], add_reader (-1) o, at_pc t Idle).

(** [test_and_reset(cpu_flag::signal)] *)
Definition wait_signal (o : lv2_sema) (t : sema_thread) : option step :=
  if bool_decide (t_id t ∈ signaled o)
  then Some ([Return CELL_OK], clear_signal (t_id t) o, at_pc t Idle)
  else None.

(** [wait_timeout] has returned true.  A thread that is not in the queue any
    more has been woken. *)
Definition wait_timeout (o : lv2_sema) (t : sema_thread) : option step :=
  let '(found, q) := unqueue (sq o) (t_id t) in
  if negb found then Some ([Return CELL_OK], clear_signal (t_id t) o, at_pc t Idle)
  else if val o <? 0 then Some ([TimedOut (t_id t)], set_val (val o + 1) (set_sq q o), at_pc t Idle)
  else None. (* [ensure] *)

(** [is_stopped(state)] *)
Definition wait_stopped (o : lv2_sema) (t : sema_thread) : step :=
  if existsb (fun w => w_id w =? t_id t) (sq o)
  then ([Return 0], set_again (t_id t :: again o) o, at_pc t Stopped)
  else ([Return CELL_OK], clear_signal (t_id t) o, at_pc t Idle).

(** *** [sys_semaphore_trywait] *)

Definition sys_semaphore_trywait (o : lv2_sema) (t : sema_thread) : step :=
  if exists_ o then
    if 0 <? val o then ([Acquired], set_val (val o - 1) o, t) else ([Return CELL_EBUSY], o, t)
  else ([Return CELL_ESRCH], o, t).

(** *** [sys_semaphore_post] *)

Definition post_begin (count : Z) (o : lv2_sema) (t : sema_thread) : step :=
  if exists_ o then
    let v := val o in
    if (0 <=? v) && (0 <? count) && (count <=? s32 (max - v)) then ([], add_reader 1 o, at_pc t (PostCas v count))
    else ([], o, at_pc t (PostSlow count))
  else ([Return CELL_ESRCH], o, t).

Definition post_cas (v count : Z) (o : lv2_sema) (t : sema_thread) : step :=
  let o := add_reader (-1) o in
  if val o =? v then ([Posted count []], set_val (s32 (v + count)) o, at_pc t Idle)
  else ([], o, at_pc t (PostSlow count)).

(** The loop that wakes threads: [None] if [ensure] fails. *)
Fixpoint wake_threads (o : lv2_sema) (n : nat) (q : list waiter) (to_awake : list waiter) :
    option (list waiter * list waiter) :=
  match n with
  | O => Some (q, to_awake)
  | S n =>
      match schedule (is_again o) q protocol with
      | (None, _) => None
      | (Some w, q) => wake_threads o n q (to_awake ++ [w])
      end
  end.

Definition post_slow (count : Z) (o : lv2_sema) (t : sema_thread) : option step :=
  if count <=? 0 then Some ([Return CELL_EINVAL], o, at_pc t Idle)
  else if any_again (is_again o) (sq o) then Some ([Return 0], set_again (t_id t :: again o) o, at_pc t Stopped)
  else
    let v := val o in
    if u32 count <=? u32 (u32 max - u32 v) then
      let o := set_val (s32 (v + count)) o in
      let to_awake := Z.min (- Z.min v 0) count in
      '(q, ws) ← wake_threads o (Z.to_nat to_awake) (sq o) [];
      Some ([Posted count ws], set_signaled (signaled o ++ map w_id ws) (set_sq q o), at_pc t Idle)
    else Some ([Refused count], o, at_pc t Idle).

(** *** The other calls *)

Definition sys_semaphore_destroy (o : lv2_sema) (t : sema_thread) : option step :=
  if negb (idm_readers o =? 0) then None (* waits for the lock *)
  else if exists_ o then
    if val o <? 0 then Some ([Return CELL_EBUSY], o, t) else Some ([Destroyed], set_exists false o, t)
  else Some ([Return CELL_ESRCH], o, t).

Definition sys_semaphore_get_value (o : lv2_sema) : Z + Z :=
  if exists_ o then inr (Z.max 0 (val o)) else inl CELL_ESRCH.

(** *** One step of a thread *)

Inductive sema_action :=
| AWait | ATryWait | APost (count : Z) | ADestroy
| AGo | ATimeout | AStop.

Definition sema_tstep (a : sema_action) (o : lv2_sema) (t : sema_thread) : option step :=
  match t_at t, a with
  | Idle, AWait => Some (wait_begin o t)
  | Idle, ATryWait => Some (sys_semaphore_trywait o t)
  | Idle, APost count => Some (post_begin (s32 count) o t) (* the argument register as [s32] *)
  | Idle, ADestroy => sys_semaphore_destroy o t
  | WaitCas v, AGo => Some (wait_cas v o t)
  | WaitSlow, AGo => Some (wait_slow o t)
  | Waiting, AGo => wait_signal o t
  | Waiting, ATimeout => wait_timeout o t
  | Waiting, AStop => Some (wait_stopped o t)
  | PostCas v count, AGo => Some (post_cas v count o t)
  | PostSlow count, AGo => post_slow count o t
  | _, _ => None
  end.

End Sema.

(** Threads before their first call, on a semaphore just created. *)
Definition sema_initial (value : Z) (ts : list (Z * Z)) : system :=
  System (MkSema value [] 0 [] [] true 0) (map (fun '(id, prio) => SemaThread id prio Idle) ts).

Definition sema_run (protocol max value : Z) (ts : list (Z * Z)) :=
  run_schedule (sema_tstep protocol max) (sema_initial value ts).

(** ** The abstract semaphore *)

Record semaphore := Semaphore { tokens : Z; sleepers : list waiter; alive : bool }.

Inductive sema_spec (protocol max : Z) : semaphore -> nat * sema_event -> semaphore -> Prop :=
| spec_acquired t n q : 0 < n ->
    sema_spec protocol max (Semaphore n q true) (t, Acquired) (Semaphore (n - 1) q true)
| spec_slept t w q : w_id w ∉ map w_id q -> Forall (fun w' => w_order w' < w_order w) q ->
    sema_spec protocol max (Semaphore 0 q true) (t, Slept w) (Semaphore 0 (w :: q) true)
| spec_posted t n q b count ws q' :
    0 < count <= max - (n - Z.of_nat (length q)) -> takes protocol q ws q' ->
    Z.of_nat (length ws) = Z.min count (Z.of_nat (length q)) ->
    sema_spec protocol max (Semaphore n q b) (t, Posted count ws) (Semaphore (n + (count - Z.of_nat (length ws))) q' b)
| spec_refused t n q b count : max - (n - Z.of_nat (length q)) < count ->
    sema_spec protocol max (Semaphore n q b) (t, Refused count) (Semaphore n q b)
| spec_timed_out t n q b id : id ∈ map w_id q ->
    sema_spec protocol max (Semaphore n q b) (t, TimedOut id) (Semaphore n (without id q) b)
| spec_destroyed t n : sema_spec protocol max (Semaphore n [] true) (t, Destroyed) (Semaphore n [] false)
| spec_return t a code : sema_spec protocol max a (t, Return code) a.
