(* ===== verification/Lv2SemaProofs.v ===== *)
(** * LV2 kernel: semaphores, correctness

    Every interleaving of calls refines the abstract semaphore: tokens, a queue
    of sleeping threads that is only occupied when there are none, and threads
    woken in the order of the protocol. *)
From S2P Require Import Prelude Threads Lv2Queue Lv2Sema.

Definition in_callback (t : sema_thread) : bool :=
  match t_at t with WaitCas _ | WaitSlow | PostCas _ _ => true | _ => false end.

Section Refinement.
Context (protocol max : Z).
Implicit Types (s : @system lv2_sema sema_thread) (a : semaphore) (i : nat) (t : sema_thread).

(** Neither asleep nor woken. *)
Definition outside (o : lv2_sema) (id : Z) : Prop := (id ∉ map w_id (sq o)) /\ (id ∉ signaled o).

(** A thread in the loop is in the queue until it is woken. *)
Definition thread_ok (o : lv2_sema) (t : sema_thread) : Prop :=
  match t_at t with
  | Waiting => (t_id t ∈ map w_id (sq o)) <-> (t_id t ∉ signaled o)
  | Stopped => (t_id t ∉ signaled o) /\ (t_id t ∈ again o)
  | WaitCas v => 0 < v /\ outside o (t_id t)
  | PostCas v count => 0 <= v /\ 0 < count <= max - v /\ outside o (t_id t)
  | PostSlow count => count < 2 ^ 31 /\ outside o (t_id t)
  | _ => outside o (t_id t)
  end.

Record sema_rel (s : @system lv2_sema sema_thread) (a : semaphore) : Prop := SemaRel {
  sr_val : val (obj s) = tokens a - Z.of_nat (length (sleepers a));
  sr_sq : sq (obj s) = sleepers a;
  sr_zero : sleepers a <> [] -> tokens a = 0;
  sr_range : 0 <= tokens a <= max;
  sr_wf : queue_wf (order_tag (obj s)) (sleepers a);
  sr_alive : exists_ (obj s) = alive a;
  sr_readers : idm_readers (obj s) = countb in_callback (pcs s);
  sr_dead : alive a = false -> idm_readers (obj s) = 0;
  sr_ids : NoDup (map t_id (pcs s));
  sr_queued : forall id, id ∈ map w_id (sleepers a) -> id ∈ map t_id (pcs s);
  sr_pc : forall i t, pcs s !! i = Some t -> thread_ok (obj s) t }.

Lemma rel_length s a : sema_rel s a -> (length (sleepers a) <= length (pcs s))%nat.
Proof.
  intros H. rewrite <- (length_map w_id), <- (length_map t_id).
  apply submseteq_length, NoDup_submseteq; [apply (qw_ids _ _ (sr_wf _ _ H))|]. exact (sr_queued _ _ H).
Qed.

Lemma sema_pcs_ids (l : list sema_thread) i t pc : l !! i = Some t -> map t_id (<[i := at_pc t pc]> l) = map t_id l.
Proof. intros H. by eapply map_insert_same. Qed.

Lemma sema_ids_differ (l : list sema_thread) i j t t' :
  NoDup (map t_id l) -> l !! i = Some t -> l !! j = Some t' -> j <> i -> t_id t' <> t_id t.
Proof. apply map_nodup_differ. Qed.

Lemma sema_thread_ok_ext o o' t :
  (t_id t ∈ map w_id (sq o') <-> t_id t ∈ map w_id (sq o)) -> (t_id t ∈ signaled o' <-> t_id t ∈ signaled o) ->
  (t_id t ∈ again o -> t_id t ∈ again o') -> thread_ok o t -> thread_ok o' t.
Proof. unfold thread_ok, outside. intros H1 H2 H3. destruct (t_at t); rewrite ?H1, ?H2; intuition congruence. Qed.

(** A step that moves thread [i] to [pc]. *)
Lemma sema_rel_move s a i t pc o' a' :
  sema_rel s a -> pcs s !! i = Some t ->
  val o' = tokens a' - Z.of_nat (length (sleepers a')) -> sq o' = sleepers a' ->
  (sleepers a' <> [] -> tokens a' = 0) -> 0 <= tokens a' <= max -> queue_wf (order_tag o') (sleepers a') ->
  exists_ o' = alive a' -> (alive a' = false -> alive a = false /\ in_callback (at_pc t pc) = in_callback t) ->
  idm_readers o' = idm_readers (obj s) - Z.b2z (in_callback t) + Z.b2z (in_callback (at_pc t pc)) ->
  (forall id, id ∈ map w_id (sleepers a') -> id ∈ map w_id (sleepers a) \/ id = t_id t) ->
  (forall t', t_id t' <> t_id t -> thread_ok (obj s) t' -> thread_ok o' t') -> thread_ok o' (at_pc t pc) ->
  sema_rel (System o' (<[i := at_pc t pc]> (pcs s))) a'.
Proof.
  intros H Hi Hval Hsq Hz Hr Hwf Hal Hd Hre Hq Ho Ht. destruct H as [G1 G2 G3 G4 G5 G6 G7 G8 G9 G10 G11].
  split; cbn; try done.
  - rewrite Hre, G7. by rewrite (countb_insert in_callback _ _ _ _ Hi).
  - intros E. destruct (Hd E) as [E1 E2]. rewrite Hre, E2, G8 by done. lia.
  - by rewrite sema_pcs_ids.
  - intros id Hid. rewrite sema_pcs_ids by done. destruct (Hq id Hid) as [ | ->]; [by apply G10|].
    apply list_elem_of_fmap. exists t. split; [done|]. by eapply list_elem_of_lookup_2.
  - apply (threads_insert (fun _ t => thread_ok o' t)); [|done].
    intros j t' Hj Hne. apply Ho; [|by eapply G11]. by eapply sema_ids_differ.
Qed.

(** Steps that only move the thread. *)
Lemma sema_rel_local s a i t pc : sema_rel s a -> pcs s !! i = Some t -> in_callback t = false -> in_callback (at_pc t pc) = false ->
  thread_ok (obj s) (at_pc t pc) -> sema_rel (System (obj s) (<[i := at_pc t pc]> (pcs s))) a.
Proof.
  intros H Hi E1 E2 Ht. pose proof H as [G1 G2 G3 G4 G5 G6 G7 G8 G9 G10 G11].
  apply (sema_rel_move s a i t pc (obj s) a H Hi); try done.
  - intros E. by rewrite E1, E2.
  - rewrite E1, E2. cbn. lia.
  - intros id. by left.
Qed.

(** ** Each operation *)

Abbreviation simulated := (simulated (sema_spec protocol max) sema_rel).

Lemma sema_simulated_return s a i t o' c : sema_rel (System o' (<[i := t]> (pcs s))) a -> simulated s a i ([Return c], o', t).
Proof. intros H. eapply simulated_one; [constructor|exact H]. Qed.

Lemma wake_threads_spec tag o n q acc : queue_wf tag q -> (forall w, w ∈ q -> is_again o (w_id w) = false) -> (n <= length q)%nat ->
  exists ws q', wake_threads protocol o n q acc = Some (q', acc ++ ws) /\ takes protocol q ws q' /\ length ws = n.
Proof.
  revert q acc. induction n as [|n IH]; intros q acc Hq Ha Hn; cbn [wake_threads].
  - exists [], q. rewrite app_nil_r. split; [done|]. split; [constructor|done].
  - destruct (schedule_unmarked (is_again o) tag q protocol Hq Ha) as (w & rest & -> & Hf); [by destruct q; [cbn in Hn; lia|]|].
    destruct (takes_first_wf tag protocol q w rest Hq Hf) as [Hwf Hlen].
    destruct (IH rest (acc ++ [w])) as (ws & q' & -> & Ht & Hl); [done| |lia|].
    { intros w' Hw'. apply Ha. destruct Hf as (_ & -> & _). by apply without_elem in Hw' as [Hw' _]. }
    exists (w :: ws), q'. rewrite <- app_assoc. split; [done|]. split; [by econstructor|]. cbn. by rewrite Hl.
Qed.

Lemma room v count : 0 < max < 2 ^ 31 -> - 2 ^ 31 <= v <= max -> 0 < count < 2 ^ 31 -> (u32 count <=? u32 (u32 max - u32 v)) = (count <=? max - v).
Proof.
  intros Hm Hv Hc. assert (u32 (u32 max - u32 v) = max - v) as -> by word_lia. assert (u32 count = count) as -> by word_lia. done.
Qed.

Section Steps.
Context (s : @system lv2_sema sema_thread) (a : semaphore) (i : nat) (t : sema_thread).
Context (HR : sema_rel s a) (Hi : pcs s !! i = Some t) (Hmax : 0 < max < 2 ^ 31) (Hn : Z.of_nat (length (pcs s)) < 2 ^ 31).

Let Hok : thread_ok (obj s) t := sr_pc _ _ HR i t Hi.

Lemma queue_bound : Z.of_nat (length (sleepers a)) < 2 ^ 31.
Proof. pose proof (rel_length _ _ HR). lia. Qed.

(** What a step that leaves the queue and the flags alone needs. *)
Lemma rel_value n r pc : 0 <= n <= max -> (sleepers a <> [] -> n = 0) -> alive a = true ->
  r = Z.b2z (in_callback (at_pc t pc)) - Z.b2z (in_callback t) ->
  thread_ok (obj s) (at_pc t pc) ->
  sema_rel (System (add_reader r (set_val (n - Z.of_nat (length (sleepers a))) (obj s))) (<[i := at_pc t pc]> (pcs s)))
    (Semaphore n (sleepers a) true).
Proof.
  intros Hr Hz Ha -> Ht. pose proof HR as [G1 G2 G3 G4 G5 G6 G7 G8 G9 G10 G11].
  apply (sema_rel_move s a i t pc); cbn; try done; try lia.
  - by rewrite G6.
  - intros id. by left.
Qed.

Lemma sleepers_none : 0 < val (obj s) -> sleepers a = [] /\ tokens a = val (obj s).
Proof.
  intros H. rewrite (sr_val _ _ HR) in H |- *. destruct (sleepers a) as [|w q] eqn:E; [cbn in *; split; [done|lia]|].
  pose proof (sr_zero _ _ HR) as Hz. rewrite E in Hz. rewrite Hz in H by done. cbn in H. lia.
Qed.

(** In a callback the object exists. *)
Lemma sema_callback_alive : in_callback t = true -> alive a = true.
Proof.
  intros E. destruct (alive a) eqn:Ea; [done|]. pose proof (sr_dead _ _ HR Ea) as H0. rewrite (sr_readers _ _ HR) in H0.
  pose proof (countb_pos in_callback _ _ _ Hi E). lia.
Qed.

Ltac same_object := unfold add_reader, set_val; destruct (obj s); cbn; f_equal; lia.

Lemma sema_sim_wait_begin : t_at t = Idle -> simulated s a i (wait_begin (obj s) t).
Proof.
  intros Ht. unfold thread_ok in Hok. rewrite Ht in Hok. unfold wait_begin. destruct (exists_ (obj s)) eqn:E.
  - apply (simulated_none (sema_spec protocol max)). rewrite (sr_alive _ _ HR) in E. pose proof HR as [G1 G2 G3 G4 G5 G6 G7 G8 G9 G10 G11].
    apply (sema_rel_move s a i t); cbn; try done; try congruence.
    + unfold in_callback. rewrite Ht. cbn. destruct (0 <? val (obj s)); cbn; lia.
    + intros id. by left.
    + unfold thread_ok. cbn. destruct (Z.ltb_spec 0 (val (obj s))); [split|]; done.
  - destruct t as [id prio pc]. cbn in Ht. subst pc. apply (sema_simulated_return s a i (at_pc (SemaThread id prio Idle) Idle)).
    by eapply sema_rel_local.
Qed.

Lemma sim_wait_cas v : t_at t = WaitCas v -> simulated s a i (wait_cas v (obj s) t).
Proof.
  intros Ht. unfold thread_ok in Hok. rewrite Ht in Hok. destruct Hok as [Hv Hout]. unfold wait_cas.
  assert (in_callback t = true) as Hc by (unfold in_callback; by rewrite Ht). pose proof (sema_callback_alive Hc) as Ha.
  destruct (Z.eqb_spec (val (obj s)) v) as [E|E].
  - destruct (sleepers_none ltac:(lia)) as [Hq Htok]. pose proof (sr_range _ _ HR) as Hr.
    eapply (simulated_one _ _ s a (Semaphore (tokens a - 1) (sleepers a) true)).
    + destruct a as [n q b]. cbn in *. subst b. constructor. lia.
    + replace (v - 1) with (tokens a - 1 - Z.of_nat (length (sleepers a))) by (rewrite Hq; cbn; lia).
      apply rel_value; [lia|by rewrite Hq|done|by rewrite Hc|]. exact Hout.
  - apply (simulated_none (sema_spec protocol max)).
    assert (obj s = add_reader 0 (obj s)) as -> by (unfold add_reader; destruct (obj s); cbn; f_equal; lia).
    pose proof HR as [G1 G2 G3 G4 G5 G6 G7 G8 G9 G10 G11].
    apply (sema_rel_move s a i t); cbn; try done; try lia; try congruence.
    + rewrite Hc. cbn. lia.
    + intros id. by left.
Qed.

Lemma sema_sim_trywait : t_at t = Idle -> simulated s a i (sys_semaphore_trywait (obj s) t).
Proof.
  intros Ht. unfold thread_ok in Hok. rewrite Ht in Hok. unfold sys_semaphore_trywait.
  assert (t = at_pc t Idle) as Et by (destruct t; cbn in *; by subst). 
  assert (in_callback t = false) as Hc by (unfold in_callback; by rewrite Ht).
  destruct (exists_ (obj s)) eqn:E; [destruct (Z.ltb_spec 0 (val (obj s)))|]; rewrite Et at 1.
  - destruct (sleepers_none ltac:(lia)) as [Hq Htok]. pose proof (sr_range _ _ HR) as Hr. rewrite (sr_alive _ _ HR) in E.
    eapply (simulated_one _ _ s a (Semaphore (tokens a - 1) (sleepers a) true)).
    + destruct a as [n q b]. cbn in *. subst b. constructor. lia.
    + assert (set_val (val (obj s) - 1) (obj s) = add_reader 0 (set_val (tokens a - 1 - Z.of_nat (length (sleepers a))) (obj s))) as ->.
      { rewrite Hq, Htok. unfold add_reader, set_val. cbn. destruct (obj s); cbn. f_equal; lia. }
      apply rel_value; [lia|by rewrite Hq|done|by rewrite Hc|]. exact Hok.
  - apply sema_simulated_return. by eapply sema_rel_local.
  - apply sema_simulated_return. by eapply sema_rel_local.
Qed.

Lemma sema_sim_wait_slow : t_at t = WaitSlow -> simulated s a i (wait_slow (obj s) t).
Proof.
  intros Ht. unfold thread_ok in Hok. rewrite Ht in Hok. destruct Hok as [Hq Hsig]. unfold wait_slow. cbv zeta.
  assert (in_callback t = true) as Hc by (unfold in_callback; by rewrite Ht). pose proof (sema_callback_alive Hc) as Ha.
  pose proof queue_bound as Hlen. pose proof (sr_range _ _ HR) as Hr. pose proof (sr_val _ _ HR) as Hv. pose proof (sr_zero _ _ HR) as Hz.
  rewrite (sext_small 32) by lia. destruct (Z.leb_spec (val (obj s)) 0).
  - assert (tokens a = 0) as Htok. { destruct (sleepers a) eqn:E; [cbn in *; lia|by apply Hz]. }
    set (w := Waiter _ _ _).
    eapply (simulated_one _ _ s a (Semaphore 0 (w :: sleepers a) true)).
    + destruct a as [n q b]. cbn in *. subst n b. rewrite (sr_sq _ _ HR) in Hq. constructor; [done|].
      eapply Forall_impl; [apply (qw_tags _ _ (sr_wf _ _ HR))|]. cbn. lia.
    + pose proof HR as [G1 G2 G3 G4 G5 G6 G7 G8 G9 G10 G11]. apply (sema_rel_move s a i t); cbn -[Z.of_nat]; try done; try lia.
      * by rewrite G2.
      * apply emplace_wf; [done|]. by rewrite <- G2.
      * congruence.
      * rewrite Hc. cbn. lia.
      * intros id. rewrite elem_of_cons. intuition congruence.
      * intros t' Hne. apply sema_thread_ok_ext; cbn; [|done|done]. rewrite elem_of_cons. intuition congruence.
      * unfold thread_ok. cbn. split; [done|]. intros _. left.
  - destruct (sleepers_none ltac:(lia)) as [Hs Htok].
    eapply (simulated_one _ _ s a (Semaphore (tokens a - 1) (sleepers a) true)).
    + destruct a as [n q b]. cbn in *. subst b. constructor. lia.
    + replace (val (obj s) - 1) with (tokens a - 1 - Z.of_nat (length (sleepers a))) by (rewrite Hs; cbn; lia).
      apply rel_value; [lia|by rewrite Hs|done|by rewrite Hc|]. done.
Qed.

Lemma sema_rel_clear : in_callback t = false -> t_id t ∉ map w_id (sq (obj s)) ->
  sema_rel (System (clear_signal (t_id t) (obj s)) (<[i := at_pc t Idle]> (pcs s))) a.
Proof.
  intros Hc Hq. pose proof HR as [G1 G2 G3 G4 G5 G6 G7 G8 G9 G10 G11]. apply (sema_rel_move s a i t); cbn; try done.
  - rewrite Hc. cbn. lia.
  - intros id. by left.
  - intros t' Hne. apply sema_thread_ok_ext; cbn; [done| |done]. rewrite elem_clear. intuition congruence.
  - unfold thread_ok, outside. cbn. split; [done|]. rewrite elem_clear. intuition congruence.
Qed.

Lemma sema_sim_wait_signal r : t_at t = Waiting -> wait_signal (obj s) t = Some r -> simulated s a i r.
Proof.
  intros Ht. unfold thread_ok in Hok. rewrite Ht in Hok. unfold wait_signal. case_bool_decide as Hsig; [|done]. intros [= <-].
  apply sema_simulated_return, sema_rel_clear; [unfold in_callback; by rewrite Ht|]. intros Hq. by apply Hok in Hq.
Qed.

Lemma sema_sim_wait_timeout r : t_at t = Waiting -> wait_timeout (obj s) t = Some r -> simulated s a i r.
Proof.
  intros Ht. unfold thread_ok in Hok. rewrite Ht in Hok. unfold wait_timeout.
  assert (in_callback t = false) as Hc by (unfold in_callback; by rewrite Ht).
  pose proof HR as [G1 G2 G3 G4 G5 G6 G7 G8 G9 G10 G11]. rewrite G2, unqueue_spec by apply (qw_ids _ _ G5).
  case_bool_decide as Hq; cbn [negb].
  - destruct (Z.ltb_spec (val (obj s)) 0); [|done]. intros [= <-].
    assert (exists w, w ∈ sleepers a /\ w_id w = t_id t) as (w & Hw & Hwt). { apply list_elem_of_fmap in Hq as (w & -> & Hw). eauto. }
    pose proof (without_length (sleepers a) w (qw_ids _ _ G5) Hw) as Hlen. rewrite Hwt in Hlen.
    assert (tokens a = 0) as Htok by (apply G3; intros E; rewrite E in Hw; by apply not_elem_of_nil in Hw).
    eapply (simulated_one _ _ s a (Semaphore (tokens a) (without (t_id t) (sleepers a)) (alive a))).
    + destruct a. by constructor.
    + apply (sema_rel_move s a i t); cbn; try done.
      * lia.
      * by apply without_wf.
      * rewrite Hc. cbn. lia.
      * intros id [Hid _]%without_ids. by left.
      * intros t' Hne. apply sema_thread_ok_ext; cbn; [|done|done]. rewrite without_ids, G2. intuition congruence.
      * unfold thread_ok, outside. cbn. rewrite without_ids. split; [intuition congruence|]. apply Hok. by rewrite G2.
  - intros [= <-]. apply sema_simulated_return, sema_rel_clear; [done|]. by rewrite G2.
Qed.

Lemma sema_sim_wait_stopped : t_at t = Waiting -> simulated s a i (wait_stopped (obj s) t).
Proof.
  intros Ht. unfold thread_ok in Hok. rewrite Ht in Hok. unfold wait_stopped.
  assert (in_callback t = false) as Hc by (unfold in_callback; by rewrite Ht).
  rewrite existsb_id. case_bool_decide as Hq.
  - apply sema_simulated_return. pose proof HR as [G1 G2 G3 G4 G5 G6 G7 G8 G9 G10 G11]. apply (sema_rel_move s a i t); cbn; try done.
    + rewrite Hc. cbn. lia.
    + intros id. by left.
    + intros t' Hne. apply sema_thread_ok_ext; cbn; [done|done|]. by right.
    + unfold thread_ok. cbn. split; [by apply Hok|left].
  - by apply sema_simulated_return, sema_rel_clear.
Qed.

Lemma sim_post_begin count : count < 2 ^ 31 -> t_at t = Idle -> simulated s a i (post_begin max count (obj s) t).
Proof.
  intros Hb Ht. unfold thread_ok in Hok. rewrite Ht in Hok. unfold post_begin. cbv zeta.
  assert (in_callback t = false) as Hc by (unfold in_callback; by rewrite Ht).
  destruct (exists_ (obj s)) eqn:E; [|].
  - destruct (_ && _) eqn:Eg; [|apply (simulated_none (sema_spec protocol max)); by eapply sema_rel_local].
    apply andb_true_iff in Eg as [[Eg1%Z.leb_le Eg2%Z.ltb_lt]%andb_true_iff Eg3%Z.leb_le].
    pose proof HR as [G1 G2 G3 G4 G5 G6 G7 G8 G9 G10 G11]. rewrite (sext_small 32) in Eg3 by lia.
    apply (simulated_none (sema_spec protocol max)), (sema_rel_move s a i t); cbn; try done; try congruence.
    + rewrite Hc. cbn. lia.
    + intros id. by left.
  - destruct t as [id prio pc]. cbn in Ht. subst pc. apply (sema_simulated_return s a i (at_pc (SemaThread id prio Idle) Idle)).
    by eapply sema_rel_local.
Qed.

Lemma sim_post_cas v count : t_at t = PostCas v count -> simulated s a i (post_cas v count (obj s) t).
Proof.
  intros Ht. unfold thread_ok in Hok. rewrite Ht in Hok. destruct Hok as (Hv & Hcount & Hout). unfold post_cas. cbv zeta. cbn [val add_reader].
  assert (in_callback t = true) as Hc by (unfold in_callback; by rewrite Ht).
  pose proof HR as [G1 G2 G3 G4 G5 G6 G7 G8 G9 G10 G11].
  destruct (Z.eqb_spec (val (obj s)) v) as [E|E].
  - assert (sleepers a = []) as Hq. { destruct (sleepers a) as [|w q]; [done|]. rewrite G3 in G1 by done. cbn in G1. lia. }
    rewrite (sext_small 32) by lia. rewrite Hq in G1. cbn in G1.
    eapply (simulated_one _ _ s a (Semaphore (tokens a + (count - 0)) (sleepers a) (alive a))).
    + destruct a as [n q b]. cbn in *. rewrite Hq. apply (spec_posted _ _ i n [] b count [] []); cbn; [lia|constructor|lia].
    + apply (sema_rel_move s a i t); cbn; try done; try lia.
      * rewrite Hq. cbn. lia.
      * intros Ha. by rewrite (sema_callback_alive Hc) in Ha.
      * rewrite Hc. cbn. lia.
      * intros id. by left.
  - apply (simulated_none (sema_spec protocol max)), (sema_rel_move s a i t); cbn; try done; try lia; try congruence.
    + intros Ha. by rewrite (sema_callback_alive Hc) in Ha.
    + rewrite Hc. cbn. lia.
    + intros id. by left.
    + unfold thread_ok. cbn. split; [lia|done].
Qed.

Lemma sim_post_slow count r : t_at t = PostSlow count -> post_slow protocol max count (obj s) t = Some r -> simulated s a i r.
Proof.
  intros Ht. unfold thread_ok in Hok. rewrite Ht in Hok. destruct Hok as [Hb Hout]. unfold post_slow. cbv zeta.
  assert (in_callback t = false) as Hc by (unfold in_callback; by rewrite Ht).
  pose proof HR as [G1 G2 G3 G4 G5 G6 G7 G8 G9 G10 G11]. pose proof queue_bound as Hlen.
  destruct (Z.leb_spec count 0); [intros [= <-]; apply sema_simulated_return; by eapply sema_rel_local|].
  destruct (any_again _ _) eqn:Eg.
  { intros [= <-]. apply sema_simulated_return, (sema_rel_move s a i t); cbn; try done.
    - rewrite Hc. cbn. lia.
    - intros id. by left.
    - intros t' Hne. apply sema_thread_ok_ext; cbn; [done|done|]. by right.
    - unfold thread_ok. cbn. split; [apply Hout|left]. }
  assert (forall w, w ∈ sleepers a -> is_again (obj s) (w_id w) = false) as Ha.
  { rewrite <- G2. by apply any_again_false. }
  assert (val (obj s) <= 0 \/ sleepers a = []) as Hvq.
  { destruct (sleepers a); [by right|left]. rewrite G3 in G1 by done. cbn in *. lia. }
  rewrite room by lia. destruct (Z.leb_spec count (max - val (obj s))).
  - assert (Z.min (- Z.min (val (obj s)) 0) count = Z.min count (Z.of_nat (length (sleepers a)))) as Hmin.
    { destruct (sleepers a) as [|w q] eqn:E; [cbn in *; lia|]. rewrite G3 in G1 by done. cbn -[Z.of_nat] in *. lia. }
    cbn [sq set_val]. rewrite Hmin, G2.
    assert (forall w, w ∈ sleepers a -> is_again (set_val (s32 (val (obj s) + count)) (obj s)) (w_id w) = false) as Ha' by exact Ha.
    destruct (wake_threads_spec (order_tag (obj s)) _ (Z.to_nat (Z.min count (Z.of_nat (length (sleepers a))))) (sleepers a) [] G5 Ha' ltac:(lia))
      as (ws & q' & -> & Htakes & Hws). cbn [app mbind option_bind]. intros [= <-].
    destruct (takes_wf _ _ _ _ _ G5 Htakes) as [Hwf Hlen']. rewrite (sext_small 32) by lia.
    eapply (simulated_one _ _ s a (Semaphore (tokens a + (count - Z.of_nat (length ws))) q' (alive a))).
    + destruct a as [n q b]. cbn in *. constructor; [lia|done|lia].
    + destruct (takes_ids _ _ _ _ Htakes) as [Hids Hsub].
      apply (sema_rel_move s a i t); cbn; try done; try lia.
      * intros Hne. assert (length q' <> 0%nat) by (by destruct q').
        assert (sleepers a <> []) as Hs by (intros E; rewrite E in Hlen'; cbn in Hlen'; lia). rewrite G3 by done. lia.
      * rewrite Hc. cbn. lia.
      * intros id [Hid _]%Hids. by left.
      * intros t' Hne Ht'. unfold thread_ok, outside in *. cbn.
        assert (t_id t' ∈ signaled (obj s) ++ map w_id ws <-> t_id t' ∈ signaled (obj s) \/ t_id t' ∈ map w_id ws) as Hs by apply elem_of_app.
        specialize (Hsub (t_id t')). rewrite G2 in Ht'.
        destruct (t_at t'); rewrite ?Hids, ?Hs; try (intuition congruence).
        destruct Ht' as [Ht1 Ht2]. split; [|done]. intros [Hx|Hx]; [done|].
        apply list_elem_of_fmap in Hx as (w & E & Hw). pose proof (Ha w (takes_taken _ _ _ _ _ Htakes Hw)) as Hg.
        unfold is_again in Hg. apply bool_decide_eq_false in Hg. by rewrite E in Ht2.
      * unfold thread_ok, outside in *. cbn. rewrite Hids, elem_of_app. unfold outside in Hout. rewrite G2 in Hout. destruct Hout as [Hq Hs]. split; [tauto|].
        intros [|Hx]; [done|]. by apply Hq, Hsub.
  - intros [= <-]. eapply (simulated_one _ _ s a a).
    + destruct a as [n q b]. cbn in *. constructor. lia.
    + by eapply sema_rel_local.
Qed.

Lemma sema_sim_destroy r : t_at t = Idle -> sys_semaphore_destroy (obj s) t = Some r -> simulated s a i r.
Proof.
  intros Ht. unfold thread_ok in Hok. rewrite Ht in Hok. unfold sys_semaphore_destroy.
  assert (t = at_pc t Idle) as Et by (destruct t; cbn in *; by subst).
  assert (in_callback t = false) as Hc by (unfold in_callback; by rewrite Ht).
  pose proof HR as [G1 G2 G3 G4 G5 G6 G7 G8 G9 G10 G11].
  destruct (Z.eqb_spec (idm_readers (obj s)) 0) as [E|]; [|done]. cbn [negb].
  destruct (exists_ (obj s)) eqn:Ex; [destruct (Z.ltb_spec (val (obj s)) 0)|]; intros [= <-]; rewrite Et at 1.
  - apply sema_simulated_return. by eapply sema_rel_local.
  - assert (sleepers a = []) as Hq. { destruct (sleepers a) as [|w q]; [done|]. rewrite G3 in G1 by done. cbn in G1. lia. }
    eapply (simulated_one _ _ s a (Semaphore (tokens a) [] false)).
    + destruct a as [n q b]. cbn in *. subst b. rewrite Hq. constructor.
    + rewrite Hq in *. split; cbn; try done.
      * rewrite G7. rewrite (countb_insert in_callback _ _ _ _ Hi). rewrite Hc. cbn. lia.
      * by rewrite sema_pcs_ids.
      * by intros id ?%not_elem_of_nil.
      * apply (threads_insert (fun _ t => thread_ok (set_exists false (obj s)) t)); [|exact Hok].
        intros j t' Hj Hne. by apply (G11 j t').
  - apply sema_simulated_return. by eapply sema_rel_local.
Qed.
End Steps.

(** One step of a thread. *)
Lemma sema_step s a i act t r : 0 < max < 2 ^ 31 -> Z.of_nat (length (pcs s)) < 2 ^ 31 ->
  sema_rel s a -> pcs s !! i = Some t -> sema_tstep protocol max act (obj s) t = Some r -> simulated s a i r.
Proof.
  intros Hmax Hn HR Hi. unfold sema_tstep. destruct (t_at t) eqn:Ht, act; try done.
  - intros [= <-]. by apply sema_sim_wait_begin.
  - intros [= <-]. by apply sema_sim_trywait.
  - intros [= <-]. apply sim_post_begin; try done. pose proof (sext_range 32 count ltac:(lia)). lia.
  - by apply sema_sim_destroy.
  - intros [= <-]. by apply sim_wait_cas.
  - intros [= <-]. by apply sema_sim_wait_slow.
  - by apply sema_sim_wait_signal.
  - by apply sema_sim_wait_timeout.
  - intros [= <-]. by apply sema_sim_wait_stopped.
  - intros [= <-]. by apply sim_post_cas.
  - by apply sim_post_slow.
Qed.
End Refinement.

Lemma sema_rel_initial max value ts : 0 <= value <= max -> NoDup (map fst ts) ->
  sema_rel max (sema_initial value ts) (Semaphore value [] true).
Proof.
  intros Hv Hnd. assert (forall i t, map (fun '(id, prio) => SemaThread id prio Idle) ts !! i = Some t -> t_at t = Idle) as Hidle.
  { intros i t H. change (map ?f ts) with (f <$> ts) in H. rewrite list_lookup_fmap in H. destruct (ts !! i) as [[]|]; [|done]. by injection H as <-. }
  split; cbn; try done; try lia.
  - split; constructor.
  - clear -ts. induction ts as [|[id prio] ts IH]; [done|]. cbn. by rewrite <- IH.
  - rewrite map_map. erewrite map_ext; [exact Hnd|]. by intros [].
  - by intros id ?%not_elem_of_nil.
  - intros i t H. unfold thread_ok, outside. rewrite (Hidle i t H). cbn. split; apply not_elem_of_nil.
Qed.

Lemma sema_run_rel protocol max value ts sch es s :
  0 <= value <= max -> 0 < max < 2 ^ 31 -> NoDup (map fst ts) -> Z.of_nat (length ts) < 2 ^ 31 ->
  sema_run protocol max value ts sch = Some (es, s) ->
  exists a, spec_run (sema_spec protocol max) (Semaphore value [] true) es a /\ sema_rel max s a.
Proof.
  intros Hv Hmax Hnd Hn H.
  destruct (simulated_refines (sema_tstep protocol max) (sema_spec protocol max)
    (fun s a => sema_rel max s a /\ Z.of_nat (length (pcs s)) < 2 ^ 31) (sema_initial value ts) (Semaphore value [] true) sch es s)
    as (a & Ha & HR & _); [| |done|eauto].
  - intros s0 a0 i act t r [HR Hl] Hi Hs. destruct (sema_step protocol max s0 a0 i act t r Hmax Hl HR Hi Hs) as (a1 & H1 & H2).
    exists a1. split_and!; [done|done|]. cbn. by rewrite length_insert.
  - split; [by apply sema_rel_initial|]. cbn. by rewrite length_map.
Qed.

(** What [val] says: tokens, or below zero the number of sleeping threads. *)
Definition val_ok (max : Z) (a : semaphore) (v : Z) : Prop :=
  v = tokens a - Z.of_nat (length (sleepers a)) /\ 0 <= tokens a <= max /\ (0 < tokens a -> sleepers a = []).

(** C10: under every interleaving of calls of any number of threads, the
    semaphore object refines the abstract semaphore: no call takes a token
    that is not there, no more than the maximum is stored, posts wake as many
    sleeping threads as they bring tokens, in FIFO or priority order, and
    timeouts and destruction never lose a token or a thread. *)
Theorem sema_refines protocol max value ts sch es s :
  0 <= value <= max -> 0 < max < 2 ^ 31 -> NoDup (map fst ts) -> Z.of_nat (length ts) < 2 ^ 31 ->
  sema_run protocol max value ts sch = Some (es, s) ->
  exists a, spec_run (sema_spec protocol max) (Semaphore value [] true) es a /\
    val_ok max a (val (obj s)) /\ sq (obj s) = sleepers a /\
    (forall i t, pcs s !! i = Some t -> t_at t = Waiting -> t_id t ∈ map w_id (sleepers a) \/ t_id t ∈ signaled (obj s)).
Proof.
  intros Hv Hmax Hnd Hn H. destruct (sema_run_rel protocol max value ts sch es s Hv Hmax Hnd Hn H) as (a & Ha & HR).
  exists a. destruct HR as [G1 G2 G3 G4 G5 G6 G7 G8 G9 G10 G11]. split_and!; try done.
  - split_and!; [done|apply G4..|]. intros Ht. destruct (sleepers a); [done|]. rewrite G3 in Ht by done. lia.
  - intros i t Hi Ht. pose proof (G11 i t Hi) as Hok. unfold thread_ok in Hok. rewrite Ht, G2 in Hok.
    destruct (decide (t_id t ∈ signaled (obj s))); [by right|left]. by apply Hok.
Qed.

(** Threads 1 to 3 wait, 2 is the most urgent, 3 times out; two posts, of one
    and of three tokens; the second wakes thread 1 and leaves two. *)
Definition sema_demo : list (nat * sema_action) :=
  [(0%nat, AWait); (0%nat, AGo); (1%nat, AWait); (1%nat, AGo); (2%nat, AWait); (2%nat, AGo);
   (3%nat, APost 1); (3%nat, AGo); (1%nat, AGo); (2%nat, ATimeout); (3%nat, APost 3); (3%nat, AGo); (1%nat, ATryWait)].

Lemma sema_refines_witness :
  exists es s, sema_run SYS_SYNC_PRIORITY 4 0 [(1, 1001); (2, 1000); (3, 1001); (4, 999)] sema_demo = Some (es, s) /\
    val (obj s) = 1 /\ signaled (obj s) = [1] /\
    map snd es = [Slept (Waiter 1 1001 1); Slept (Waiter 2 1000 2); Slept (Waiter 3 1001 3); Posted 1 [Waiter 2 1000 2]; Return 0;
      TimedOut 3; Posted 3 [Waiter 1 1001 1]; Acquired] /\
    exists a, spec_run (sema_spec SYS_SYNC_PRIORITY 4) (Semaphore 0 [] true) es a.
Proof.
  destruct (sema_run SYS_SYNC_PRIORITY 4 0 [(1, 1001); (2, 1000); (3, 1001); (4, 999)] sema_demo) as [[es s]|] eqn:E; [|by vm_compute in E].
  exists es, s. split; [done|].
  assert (NoDup (map fst [(1, 1001); (2, 1000); (3, 1001); (4, 999)])) as Hnd by (refine (bool_decide_unpack _ _); vm_compute; exact I).
  destruct (sema_refines SYS_SYNC_PRIORITY 4 0 [(1, 1001); (2, 1000); (3, 1001); (4, 999)] sema_demo es s) as (a & Ha & _);
    [lia|lia|exact Hnd|done|exact E|].
  split_and!; [..|by exists a]; vm_compute in E; injection E as <- <-; done.
Defined.
