(* ===== verification/Lv2Rwlock.v ===== *)
(** * LV2 kernel: reader-writer locks

    [kernel/cellos/src/sys_rwlock.cpp] as threads over one [lv2_rwlock]
    (Threads).  [owner] is twice the id of the writer, or minus twice the
    number of readers, plus one if threads wait.  As for the semaphore, a fast
    path is a read and a compare and swap, a section under the mutex one step;
    a section that accesses [owner] twice does so while it is odd, when no
    fast path changes it (Lv2RwlockProofs.odd_owner_stable).  [owner] is not
    wrapped: it would take 2^62 readers. *)
From S2P Require Import Prelude Threads Lv2Queue.

(** ** The object *)

Record lv2_rwlock := MkRwlock {
  owner : Z;
  rq : list waiter;
  wq : list waiter;
  order_tag : Z; (* lv2_obj::g_priority_order_tag *)
  signaled : list Z; (* threads with cpu_flag::signal *)
  again : list Z; (* threads with cpu_flag::again *)
  exists_ : bool; (* the id names the object *)
  idm_readers : Z (* callbacks that hold the id manager's lock shared *)
}.

Definition set_owner (v : Z) (o : lv2_rwlock) : lv2_rwlock :=
  MkRwlock v (rq o) (wq o) (order_tag o) (signaled o) (again o) (exists_ o) (idm_readers o).
Definition set_rq (v : list waiter) (o : lv2_rwlock) : lv2_rwlock :=
  MkRwlock (owner o) v (wq o) (order_tag o) (signaled o) (again o) (exists_ o) (idm_readers o).
Definition set_wq (v : list waiter) (o : lv2_rwlock) : lv2_rwlock :=
  MkRwlock (owner o) (rq o) v (order_tag o) (signaled o) (again o) (exists_ o) (idm_readers o).
Definition set_tag (v : Z) (o : lv2_rwlock) : lv2_rwlock :=
  MkRwlock (owner o) (rq o) (wq o) v (signaled o) (again o) (exists_ o) (idm_readers o).
Definition set_signaled (v : list Z) (o : lv2_rwlock) : lv2_rwlock :=
  MkRwlock (owner o) (rq o) (wq o) (order_tag o) v (again o) (exists_ o) (idm_readers o).
Definition set_again (v : list Z) (o : lv2_rwlock) : lv2_rwlock :=
  MkRwlock (owner o) (rq o) (wq o) (order_tag o) (signaled o) v (exists_ o) (idm_readers o).
Definition set_exists (v : bool) (o : lv2_rwlock) : lv2_rwlock :=
  MkRwlock (owner o) (rq o) (wq o) (order_tag o) (signaled o) (again o) v (idm_readers o).
Definition add_reader (n : Z) (o : lv2_rwlock) : lv2_rwlock :=
  MkRwlock (owner o) (rq o) (wq o) (order_tag o) (signaled o) (again o) (exists_ o) (idm_readers o + n).

(** The flag goes when the thread sees it, at the latest in [check_state]
    before its next call. *)
Definition clear_signal (id : Z) (o : lv2_rwlock) : lv2_rwlock := set_signaled (filter (fun x => x <> id) (signaled o)) o.

Definition wake (ws : list waiter) (o : lv2_rwlock) : lv2_rwlock := set_signaled (signaled o ++ map w_id ws) o.

Definition is_again (o : lv2_rwlock) (id : Z) : bool := bool_decide (id ∈ again o).

(** [!!queue] *)
Definition nonempty (q : list waiter) : Z := match q with [] => 0 | _ => 1 end.

(** ** Threads *)

Inductive rw_at :=
| Idle
| RCas (v : Z) | RSlow | RWaiting
| RunCas (v : Z) | RunSlow
| WCas | WSlow | WWaiting
| TryWCas
| UnCas (v : Z) | UnSlow
| Stopped. (* returned with [cpu_flag::again] *)

Record rw_thread := RwThread { t_id : Z; t_prio : Z; t_at : rw_at }.

Definition at_pc (t : rw_thread) (pc : rw_at) : rw_thread := RwThread (t_id t) (t_prio t) pc.

Inductive rw_event :=
| RAcquired
| RSlept (w : waiter)
| RReleased (woken : list waiter)
| RTimedOut (id : Z)
| WAcquired (id : Z)
| WSlept (w : waiter)
| WReleased (id : Z) (woken : list waiter)
| WTimedOut (id : Z) (woken : list waiter)
| Destroyed
| Return (code : Z). (* a call that had no effect on the lock *)

Section Rwlock.
(** Constant member of the object. *)
Variable protocol : Z.

Abbreviation step := (list rw_event * lv2_rwlock * rw_thread)%type.

(** Readers may enter: [val <= 0 && !(val & 1)]. *)
Definition readable (val : Z) : bool := (val <=? 0) && (Z.land val 1 =? 0).

(** *** [sys_rwlock_rlock] *)

Definition rlock_begin (o : lv2_rwlock) (t : rw_thread) : step :=
  if exists_ o then
    let val := owner o in
    ([], add_reader 1 o, at_pc t (if readable val then RCas val else RSlow))
  else ([Return CELL_ESRCH], o, t).

Definition rlock_cas (val : Z) (o : lv2_rwlock) (t : rw_thread) : step :=
  if owner o =? val then ([RAcquired], add_reader (-1) (set_owner (val - 2) o), at_pc t Idle)
  else ([], o, at_pc t RSlow).

Definition rlock_slow (o : lv2_rwlock) (t : rw_thread) : step :=
  let old := owner o in
  let o := set_owner (if readable old then old - 2 else Z.lor old 1) o in
  if (0 <? old) || negb (Z.land old 1 =? 0) then
    let o := set_rq (emplace (rq o) (t_id t) (t_prio t) (order_tag o)) (set_tag (order_tag o + 1) o) in
    ([RSlept (Waiter (t_id t) (t_prio t) (order_tag o))], add_reader (-1) o, at_pc t RWaiting)
  else ([RAcquired], add_reader (-1) o, at_pc t Idle).

(** [test_and_reset(cpu_flag::signal)], in both loops. *)
Definition wait_signal (o : lv2_rwlock) (t : rw_thread) : option step :=
  if bool_decide (t_id t ∈ signaled o)
  then Some ([Return CELL_OK], clear_signal (t_id t) o, at_pc t Idle)
  else None.

Definition rlock_timeout (o : lv2_rwlock) (t : rw_thread) : step :=
  let '(found, q) := unqueue (rq o) (t_id t) in
  if negb found then ([Return CELL_OK], clear_signal (t_id t) o, at_pc t Idle)
  else ([RTimedOut (t_id t)], set_rq q o, at_pc t Idle).

(** [is_stopped(state)], in both loops; [q] is the queue of the call. *)
Definition wait_stopped (q : list waiter) (o : lv2_rwlock) (t : rw_thread) : step :=
  if existsb (fun w => w_id w =? t_id t) q
  then ([Return 0], set_again (t_id t :: again o) o, at_pc t Stopped)
  else ([Return CELL_OK], clear_signal (t_id t) o, at_pc t Idle).

Definition sys_rwlock_tryrlock (o : lv2_rwlock) (t : rw_thread) : step :=
  if exists_ o then
    if readable (owner o) then ([RAcquired], set_owner (owner o - 2) o, t) else ([Return CELL_EBUSY], o, t)
  else ([Return CELL_ESRCH], o, t).

(** *** [sys_rwlock_runlock] *)

Definition runlock_begin (o : lv2_rwlock) (t : rw_thread) : step :=
  if exists_ o then
    let val := owner o in
    if (val <? 0) && (Z.land val 1 =? 0) then ([], add_reader 1 o, at_pc t (RunCas val)) else ([], o, at_pc t RunSlow)
  else ([Return CELL_ESRCH], o, t).

Definition runlock_cas (val : Z) (o : lv2_rwlock) (t : rw_thread) : step :=
  let o := add_reader (-1) o in
  if owner o =? val then ([RReleased []], set_owner (val + 2) o, at_pc t Idle) else ([], o, at_pc t RunSlow).

(** [owner] for a thread taken from the queue of writers. *)
Definition hand_over (w : waiter) (wq rq : list waiter) : Z :=
  Z.lor (Z.lor (u32 (Z.shiftl (w_id w) 1)) (nonempty wq)) (nonempty rq).

(** The call gives up, to be repeated after the savestate. *)
Definition leave_again (o : lv2_rwlock) (t : rw_thread) : step :=
  ([Return 0], set_again (t_id t :: again o) o, at_pc t Stopped).

Definition runlock_slow (o : lv2_rwlock) (t : rw_thread) : option step :=
  let old := owner o in
  let o := if old <? -1 then set_owner (old + 2) o else o in
  if 0 <=? old then Some ([Return CELL_EPERM], o, at_pc t Idle)
  else if old =? -1 then
    match schedule (is_again o) (wq o) protocol with
    | (Some w, q) =>
        if is_again o (w_id w) then Some (leave_again o t)
        else
          let o := set_wq q o in
          Some ([RReleased [w]], wake [w] (set_owner (hand_over w (wq o) (rq o)) o), at_pc t Idle)
    | (None, _) =>
        match rq o with
        | [] => Some ([RReleased []], set_owner 0 o, at_pc t Idle)
        | _ => None (* [ensure] *)
        end
    end
  else Some ([RReleased []], o, at_pc t Idle).

(** *** [sys_rwlock_wlock] *)

(** [ppu.id << 1] *)
Definition writer_word (id : Z) : Z := u32 (Z.shiftl id 1).

Definition wlock_begin (o : lv2_rwlock) (t : rw_thread) : step :=
  if exists_ o then
    let val := owner o in
    if val =? 0 then ([], add_reader 1 o, at_pc t WCas)
    else if Z.shiftr val 1 =? t_id t then ([Return CELL_EDEADLK], o, t)
    else ([], add_reader 1 o, at_pc t WSlow)
  else ([Return CELL_ESRCH], o, t).

Definition wlock_cas (o : lv2_rwlock) (t : rw_thread) : step :=
  if owner o =? 0 then ([WAcquired (t_id t)], add_reader (-1) (set_owner (writer_word (t_id t)) o), at_pc t Idle)
  else ([], o, at_pc t WSlow).

Definition wlock_slow (o : lv2_rwlock) (t : rw_thread) : step :=
  let old := owner o in
  let o := add_reader (-1) (set_owner (if old =? 0 then writer_word (t_id t) else Z.lor old 1) o) in
  if old =? 0 then ([WAcquired (t_id t)], o, at_pc t Idle)
  else
    let o := set_wq (emplace (wq o) (t_id t) (t_prio t) (order_tag o)) (set_tag (order_tag o + 1) o) in
    ([WSlept (Waiter (t_id t) (t_prio t) (order_tag o))], o,
      at_pc t (if Z.shiftr old 1 =? t_id t then Idle (* CELL_EDEADLK *) else WWaiting)).

Definition wlock_timeout (o : lv2_rwlock) (t : rw_thread) : option step :=
  let '(found, q) := unqueue (wq o) (t_id t) in
  if negb found then Some ([Return CELL_OK], clear_signal (t_id t) o, at_pc t Idle)
  else
    let o := set_wq q o in
    match rq o, wq o with
    | _ :: _, [] =>
        if owner o <? 0 then
          ws ← drain (is_again o) (S (length (rq o))) (rq o) [];
          let size := Z.of_nat (length ws) in
          Some ([WTimedOut (t_id t) ws],
                wake ws (set_owner (Z.land (owner o - 2 * size) (-2)) (set_rq [] o)), at_pc t Idle)
        else Some ([WTimedOut (t_id t) []], o, at_pc t Idle)
    | [], [] => Some ([WTimedOut (t_id t) []], set_owner (Z.land (owner o) (-2)) o, at_pc t Idle)
    | _, _ => Some ([WTimedOut (t_id t) []], o, at_pc t Idle)
    end.

(** *** [sys_rwlock_trywlock] *)

Definition trywlock_result (val : Z) (t : rw_thread) : rw_event :=
  Return (if Z.shiftr val 1 =? t_id t then CELL_EDEADLK else CELL_EBUSY).

Definition trywlock_begin (o : lv2_rwlock) (t : rw_thread) : step :=
  if exists_ o then
    if negb (owner o =? 0) then ([trywlock_result (owner o) t], o, t) else ([], add_reader 1 o, at_pc t TryWCas)
  else ([Return CELL_ESRCH], o, t).

Definition trywlock_cas (o : lv2_rwlock) (t : rw_thread) : step :=
  let o := add_reader (-1) o in
  if owner o =? 0 then ([WAcquired (t_id t)], set_owner (writer_word (t_id t)) o, at_pc t Idle)
  else ([trywlock_result (owner o) t], o, at_pc t Idle).

(** *** [sys_rwlock_wunlock] *)

(** After the callback, with the value it returned. *)
Definition wunlock_rest (ret : Z) (o : lv2_rwlock) (t : rw_thread) : step :=
  if negb (Z.shiftr ret 1 =? t_id t) then ([Return CELL_EPERM], o, at_pc t Idle)
  else if negb (Z.land ret 1 =? 0) then ([], o, at_pc t UnSlow)
  else ([WReleased (t_id t) []], o, at_pc t Idle).

Definition wunlock_begin (o : lv2_rwlock) (t : rw_thread) : step :=
  if exists_ o then
    let val := owner o in
    if negb (val =? writer_word (t_id t)) then wunlock_rest val o t else ([], add_reader 1 o, at_pc t (UnCas val))
  else ([Return CELL_ESRCH], o, t).

Definition wunlock_cas (val : Z) (o : lv2_rwlock) (t : rw_thread) : step :=
  let o := add_reader (-1) o in
  let ret := owner o in
  wunlock_rest ret (if ret =? val then set_owner 0 o else o) t.

Definition wunlock_slow (o : lv2_rwlock) (t : rw_thread) : option step :=
  match schedule (is_again o) (wq o) protocol with
  | (Some w, q) =>
      if is_again o (w_id w) then Some (leave_again o t)
      else
        let o := set_wq q o in
        Some ([WReleased (t_id t) [w]], wake [w] (set_owner (hand_over w (wq o) (rq o)) o), at_pc t Idle)
  | (None, _) =>
      match rq o with
      | _ :: _ =>
          if any_again (is_again o) (rq o) then Some (leave_again o t)
          else
            ws ← drain (is_again o) (S (length (rq o))) (rq o) [];
            Some ([WReleased (t_id t) ws],
                  wake ws (set_owner (-2 * Z.of_nat (length ws)) (set_rq [] o)), at_pc t Idle)
      | [] => Some ([WReleased (t_id t) []], set_owner 0 o, at_pc t Idle)
      end
  end.

Definition sys_rwlock_destroy (o : lv2_rwlock) (t : rw_thread) : option step :=
  if negb (idm_readers o =? 0) then None (* waits for the lock *)
  else if exists_ o then
    if negb (owner o =? 0) then Some ([Return CELL_EBUSY], o, t) else Some ([Destroyed], set_exists false o, t)
  else Some ([Return CELL_ESRCH], o, t).

(** *** One step of a thread *)

Inductive rw_action :=
| ARlock | ATryRlock | ARunlock | AWlock | ATryWlock | AWunlock | ADestroy
| AGo | ATimeout | AStop.

Definition rw_tstep (a : rw_action) (o : lv2_rwlock) (t : rw_thread) : option step :=
  match t_at t, a with
  | Idle, ARlock => Some (rlock_begin o t)
  | Idle, ATryRlock => Some (sys_rwlock_tryrlock o t)
  | Idle, ARunlock => Some (runlock_begin o t)
  | Idle, AWlock => Some (wlock_begin o t)
  | Idle, ATryWlock => Some (trywlock_begin o t)
  | Idle, AWunlock => Some (wunlock_begin o t)
  | Idle, ADestroy => sys_rwlock_destroy o t
  | RCas v, AGo => Some (rlock_cas v o t)
  | RSlow, AGo => Some (rlock_slow o t)
  | RWaiting, AGo => wait_signal o t
  | RWaiting, ATimeout => Some (rlock_timeout o t)
  | RWaiting, AStop => Some (wait_stopped (rq o) o t)
  | RunCas v, AGo => Some (runlock_cas v o t)
  | RunSlow, AGo => runlock_slow o t
  | WCas, AGo => Some (wlock_cas o t)
  | WSlow, AGo => Some (wlock_slow o t)
  | WWaiting, AGo => wait_signal o t
  | WWaiting, ATimeout => wlock_timeout o t
  | WWaiting, AStop => Some (wait_stopped (wq o) o t)
  | TryWCas, AGo => Some (trywlock_cas o t)
  | UnCas v, AGo => Some (wunlock_cas v o t)
  | UnSlow, AGo => wunlock_slow o t
  | _, _ => None
  end.

End Rwlock.

(** Threads before their first call, on a lock just created. *)
Definition rw_initial (ts : list (Z * Z)) : system :=
  System (MkRwlock 0 [] [] 0 [] [] true 0) (map (fun '(id, prio) => RwThread id prio Idle) ts).

Definition rw_run (protocol : Z) (ts : list (Z * Z)) := run_schedule (rw_tstep protocol) (rw_initial ts).

(** ** The abstract lock *)

Record rwlock := Rwlock { writer : option Z; readers : Z; r_sleep : list waiter; w_sleep : list waiter; alive : bool }.

(** Nobody may enter as a reader. *)
Definition closed (a : rwlock) : Prop := is_Some (writer a) \/ w_sleep a <> [].

Inductive rw_spec (protocol : Z) : rwlock -> nat * rw_event -> rwlock -> Prop :=
| spec_racquired t n r : 0 <= n ->
    rw_spec protocol (Rwlock None n r [] true) (t, RAcquired) (Rwlock None (n + 1) r [] true)
| spec_rslept t h n r q w : closed (Rwlock h n r q true) ->
    rw_spec protocol (Rwlock h n r q true) (t, RSlept w) (Rwlock h n (w :: r) q true)
| spec_rreleased t n r q b : 0 < n -> (n = 1 -> q = []) ->
    rw_spec protocol (Rwlock None n r q b) (t, RReleased []) (Rwlock None (n - 1) r q b)
| spec_rhandover t r q w q' b : takes_first protocol q w q' ->
    rw_spec protocol (Rwlock None 1 r q b) (t, RReleased [w]) (Rwlock (Some (w_id w)) 0 r q' b)
| spec_rtimeout t h n r q b id : id ∈ map w_id r ->
    rw_spec protocol (Rwlock h n r q b) (t, RTimedOut id) (Rwlock h n (without id r) q b)
| spec_wacquired t id : rw_spec protocol (Rwlock None 0 [] [] true) (t, WAcquired id) (Rwlock (Some id) 0 [] [] true)
| spec_wslept t h n r q w : is_Some h \/ 0 < n ->
    rw_spec protocol (Rwlock h n r q true) (t, WSlept w) (Rwlock h n r (w :: q) true)
| spec_wreleased t id b : rw_spec protocol (Rwlock (Some id) 0 [] [] b) (t, WReleased id []) (Rwlock None 0 [] [] b)
| spec_whandover t id r q w q' b : takes_first protocol q w q' ->
    rw_spec protocol (Rwlock (Some id) 0 r q b) (t, WReleased id [w]) (Rwlock (Some (w_id w)) 0 r q' b)
| spec_wreaders t id r ws b : takes SYS_SYNC_FIFO r ws [] ->
    rw_spec protocol (Rwlock (Some id) 0 r [] b) (t, WReleased id ws) (Rwlock None (Z.of_nat (length ws)) [] [] b)
| spec_wtimeout t h n r q b id : id ∈ map w_id q -> (h = None -> without id q = [] -> r = []) ->
    rw_spec protocol (Rwlock h n r q b) (t, WTimedOut id []) (Rwlock h n r (without id q) b)
| spec_wtimeout_readers t n r q ws b id : id ∈ map w_id q -> without id q = [] -> takes SYS_SYNC_FIFO r ws [] ->
    rw_spec protocol (Rwlock None n r q b) (t, WTimedOut id ws) (Rwlock None (n + Z.of_nat (length ws)) [] [] b)
| spec_destroyed t : rw_spec protocol (Rwlock None 0 [] [] true) (t, Destroyed) (Rwlock None 0 [] [] false)
| spec_return t a code : rw_spec protocol a (t, Return code) a.
