(* ===== verification/Lv2RwlockProofs.v ===== *)
(** * LV2 kernel: reader-writer locks, correctness

    Every interleaving of calls refines the abstract lock: readers or one
    writer, new readers stay out while a writer waits, and whoever leaves last
    wakes the threads the lock is free for. *)
From S2P Require Import Prelude Threads Lv2Queue Lv2Rwlock.

(** ** The bits of [owner] *)

Lemma land1 x : Z.land x 1 = x mod 2.
Proof. apply (Z.land_ones x 1). lia. Qed.

Lemma shiftr1 x : Z.shiftr x 1 = x / 2.
Proof. apply (Z.shiftr_div_pow2 x 1). lia. Qed.

Lemma lor_bit h b : 0 <= b < 2 -> Z.lor (2 * h) b = 2 * h + b.
Proof. intros Hb. rewrite (Z.mul_comm 2 h). by apply (lor_concat h 1 b). Qed.

Lemma lor1_odd h : Z.lor (2 * h + 1) 1 = 2 * h + 1.
Proof. rewrite <- (lor_bit h 1) by lia. by rewrite <- Z.lor_assoc. Qed.

Lemma land_m2 x : Z.land x (-2) = 2 * (x / 2).
Proof.
  change (-2) with (Z.lnot (Z.ones 1)). rewrite <- Z.ldiff_land, Z.ldiff_ones_r by lia.
  rewrite Z.shiftl_mul_pow2, shiftr1 by lia. lia.
Qed.

Lemma readable_spec v : readable v = true <-> v <= 0 /\ v mod 2 = 0.
Proof. unfold readable. rewrite land1, andb_true_iff, Z.leb_le, Z.eqb_eq. done. Qed.

Lemma writer_word_spec id : 0 < id < 2 ^ 31 -> writer_word id = 2 * id.
Proof. intros H. unfold writer_word. rewrite Z.shiftl_mul_pow2 by lia. rewrite Z.mul_comm. apply wrap_small. unfold is_word. lia. Qed.

Lemma hand_over_spec w q r : 0 < w_id w < 2 ^ 31 ->
  hand_over w q r = 2 * w_id w + (match q, r with [], [] => 0 | _, _ => 1 end).
Proof.
  intros H. unfold hand_over. fold (writer_word (w_id w)). rewrite writer_word_spec by done. rewrite <- Z.lor_assoc.
  
  assert (0 <= Z.lor (nonempty q) (nonempty r) < 2) as Hb by (destruct q, r; vm_compute; split; congruence).
  rewrite lor_bit by exact Hb. by destruct q, r.
Qed.

Lemma add_reader_0 o : add_reader 0 o = o.
Proof. unfold add_reader. destruct o. cbn. f_equal. lia. Qed.

(** ** The relation *)

Definition in_callback (t : rw_thread) : bool :=
  match t_at t with RCas _ | RSlow | RunCas _ | WCas | WSlow | TryWCas | UnCas _ => true | _ => false end.

(** [owner] encodes the abstract state. *)
Definition owner_ok (a : rwlock) (v : Z) : Prop :=
  match writer a with
  | Some id => readers a = 0 /\ (v = 2 * id \/ v = 2 * id + 1) /\ (r_sleep a <> [] \/ w_sleep a <> [] -> v = 2 * id + 1)
  | None =>
      match w_sleep a with
      | [] => v = - 2 * readers a /\ r_sleep a = []
      | _ => v = - 2 * readers a + 1 /\ 0 < readers a
      end
  end.

Definition outside (o : lv2_rwlock) (id : Z) : Prop := (id ∉ map w_id (rq o)) /\ (id ∉ map w_id (wq o)) /\ (id ∉ signaled o).

Definition thread_ok (a : rwlock) (o : lv2_rwlock) (t : rw_thread) : Prop :=
  match t_at t with
  | RWaiting => (t_id t ∈ map w_id (rq o) <-> (t_id t ∉ signaled o)) /\ (t_id t ∉ map w_id (wq o))
  | WWaiting => (t_id t ∈ map w_id (wq o) <-> (t_id t ∉ signaled o)) /\ (t_id t ∉ map w_id (rq o))
  | Stopped => (t_id t ∉ signaled o) /\ (t_id t ∈ again o)
  | UnSlow => outside o (t_id t) /\ writer a = Some (t_id t)
  | WCas | WSlow => outside o (t_id t) /\ writer a <> Some (t_id t)
  | RCas v => outside o (t_id t) /\ readable v = true
  | RunCas v => outside o (t_id t) /\ v < 0 /\ v mod 2 = 0
  | UnCas v => outside o (t_id t) /\ v = 2 * t_id t
  | _ => outside o (t_id t)
  end.

Record rw_rel (s : @system lv2_rwlock rw_thread) (a : rwlock) : Prop := RwRel {
  rr_owner : owner_ok a (owner (obj s));
  rr_rq : rq (obj s) = r_sleep a;
  rr_wq : wq (obj s) = w_sleep a;
  rr_readers : 0 <= readers a;
  rr_rwf : queue_wf (order_tag (obj s)) (r_sleep a);
  rr_wwf : queue_wf (order_tag (obj s)) (w_sleep a);
  rr_alive : exists_ (obj s) = alive a;
  rr_callbacks : idm_readers (obj s) = countb in_callback (pcs s);
  rr_dead : alive a = false -> idm_readers (obj s) = 0;
  rr_ids : NoDup (map t_id (pcs s));
  rr_pos : Forall (fun id => 0 < id < 2 ^ 31) (map t_id (pcs s));
  rr_writer : forall id, writer a = Some id -> id ∈ map t_id (pcs s);
  rr_rqueued : forall id, id ∈ map w_id (r_sleep a) -> id ∈ map t_id (pcs s);
  rr_wqueued : forall id, id ∈ map w_id (w_sleep a) -> id ∈ map t_id (pcs s);
  rr_pc : forall i t, pcs s !! i = Some t -> thread_ok a (obj s) t }.

Lemma rw_pcs_ids (l : list rw_thread) i t pc : l !! i = Some t -> map t_id (<[i := at_pc t pc]> l) = map t_id l.
Proof. intros H. by eapply map_insert_same. Qed.

Lemma rw_ids_differ (l : list rw_thread) i j t t' :
  NoDup (map t_id l) -> l !! i = Some t -> l !! j = Some t' -> j <> i -> t_id t' <> t_id t.
Proof. apply map_nodup_differ. Qed.

Lemma thread_id (l : list rw_thread) i t : l !! i = Some t -> t_id t ∈ map t_id l.
Proof. apply map_lookup_elem. Qed.

(** What another thread needs to stay as it is. *)
Lemma rw_thread_ok_ext a a' o o' t :
  (t_id t ∈ map w_id (rq o') <-> t_id t ∈ map w_id (rq o)) -> (t_id t ∈ map w_id (wq o') <-> t_id t ∈ map w_id (wq o)) ->
  (t_id t ∈ signaled o' <-> t_id t ∈ signaled o) -> (t_id t ∈ again o -> t_id t ∈ again o') ->
  (writer a = Some (t_id t) <-> writer a' = Some (t_id t)) -> thread_ok a o t -> thread_ok a' o' t.
Proof.
  unfold thread_ok, outside. intros H1 H2 H3 H4 H5. destruct (t_at t); rewrite ?H1, ?H2, ?H3; intuition congruence.
Qed.

(** What another thread needs when [ws] are woken from one of the queues. *)
Lemma rw_thread_ok_wake a a' o o' t ws (readers_woken : bool) :
  (if readers_woken then (t_id t ∈ map w_id (rq o') <-> t_id t ∈ map w_id (rq o) /\ (t_id t ∉ map w_id ws)) /\
     (t_id t ∈ map w_id ws -> t_id t ∈ map w_id (rq o)) /\ (t_id t ∈ map w_id (wq o') <-> t_id t ∈ map w_id (wq o))
   else (t_id t ∈ map w_id (wq o') <-> t_id t ∈ map w_id (wq o) /\ (t_id t ∉ map w_id ws)) /\
     (t_id t ∈ map w_id ws -> t_id t ∈ map w_id (wq o)) /\ (t_id t ∈ map w_id (rq o') <-> t_id t ∈ map w_id (rq o))) ->
  (t_id t ∈ signaled o' <-> t_id t ∈ signaled o \/ t_id t ∈ map w_id ws) -> (t_id t ∈ again o <-> t_id t ∈ again o') ->
  (t_id t ∈ map w_id ws -> t_id t ∉ again o) ->
  (writer a = Some (t_id t) -> writer a' = Some (t_id t)) ->
  (writer a' = Some (t_id t) -> writer a = Some (t_id t) \/ t_id t ∈ map w_id ws) -> thread_ok a o t -> thread_ok a' o' t.
Proof.
  unfold thread_ok, outside. destruct readers_woken; intros (H1 & H2 & H3) H4 H5 H6 H7 H8; destruct (t_at t);
    rewrite ?H1, ?H3, ?H4, <- ?H5; try tauto; intuition congruence.
Qed.

(** A step that moves thread [i] to [pc]. *)
Lemma rw_rel_move s a i t pc o' a' :
  rw_rel s a -> pcs s !! i = Some t ->
  owner_ok a' (owner o') -> rq o' = r_sleep a' -> wq o' = w_sleep a' -> 0 <= readers a' ->
  queue_wf (order_tag o') (r_sleep a') -> queue_wf (order_tag o') (w_sleep a') ->
  exists_ o' = alive a' -> (alive a' = false -> alive a = false /\ in_callback (at_pc t pc) = in_callback t) ->
  idm_readers o' = idm_readers (obj s) - Z.b2z (in_callback t) + Z.b2z (in_callback (at_pc t pc)) ->
  (forall id, writer a' = Some id -> id ∈ map t_id (pcs s)) ->
  (forall id, id ∈ map w_id (r_sleep a') -> id ∈ map w_id (r_sleep a) \/ id = t_id t) ->
  (forall id, id ∈ map w_id (w_sleep a') -> id ∈ map w_id (w_sleep a) \/ id = t_id t) ->
  (forall t', t_id t' <> t_id t -> thread_ok a (obj s) t' -> thread_ok a' o' t') -> thread_ok a' o' (at_pc t pc) ->
  rw_rel (System o' (<[i := at_pc t pc]> (pcs s))) a'.
Proof.
  intros H Hi Hown Hrq Hwq Hn Hrw Hww Hal Hd Hre Hwr Hr Hw Ho Ht.
  destruct H as [G1 G2 G3 G4 G5 G6 G7 G8 G9 G10 G11 G12 G13 G14 G15]. pose proof (thread_id _ _ _ Hi) as Hid.
  split; cbn; rewrite ?rw_pcs_ids by done; try done.
  - rewrite Hre, G8. by rewrite (countb_insert in_callback _ _ _ _ Hi).
  - intros E. destruct (Hd E) as [E1 E2]. rewrite Hre, E2, G9 by done. lia.
  - intros id Hx. destruct (Hr id Hx) as [ | ->]; [by apply G13|done].
  - intros id Hx. destruct (Hw id Hx) as [ | ->]; [by apply G14|done].
  - apply (threads_insert (fun _ t => thread_ok a' o' t)); [|done].
    intros j t' Hj Hne. apply Ho; [|by eapply G15]. by eapply rw_ids_differ.
Qed.

(** ** Each operation *)

Section Refinement.
Context (protocol : Z).
Implicit Types (s : @system lv2_rwlock rw_thread) (a : rwlock) (i : nat) (t : rw_thread).

Abbreviation simulated := (simulated (rw_spec protocol) rw_rel).

Lemma rw_simulated_return s a i t o' c : rw_rel (System o' (<[i := t]> (pcs s))) a -> simulated s a i ([Return c], o', t).
Proof. intros H. eapply simulated_one; [constructor|exact H]. Qed.

(** An odd [owner] is only changed under the mutex. *)
Lemma odd_owner_stable o t v : owner o mod 2 = 1 -> 0 < t_id t < 2 ^ 31 -> v mod 2 = 0 ->
  readable (owner o) = false /\ owner (rlock_cas v o t).1.2 = owner o /\ owner (sys_rwlock_tryrlock o t).1.2 = owner o /\
  owner (runlock_cas v o t).1.2 = owner o /\ owner (wlock_cas o t).1.2 = owner o /\ owner (trywlock_cas o t).1.2 = owner o /\
  owner (wunlock_cas v o t).1.2 = owner o.
Proof.
  intros Ho Ht Hv. assert (readable (owner o) = false) as Hr.
  { destruct (readable (owner o)) eqn:E; [|done]. apply readable_spec in E. lia. }
  assert ((owner o =? v) = false) as Ev by (apply Z.eqb_neq; intros E; rewrite E in Ho; lia).
  assert ((owner o =? 0) = false) as E0 by (apply Z.eqb_neq; intros E; rewrite E in Ho; done).
  unfold rlock_cas, sys_rwlock_tryrlock, runlock_cas, wlock_cas, trywlock_cas, wunlock_cas, wunlock_rest. rewrite Hr. cbn.
  rewrite Ev, E0. split_and!; try done; repeat case_match; done.
Qed.

Section Steps.
Context (s : @system lv2_rwlock rw_thread) (a : rwlock) (i : nat) (t : rw_thread).
Context (HR : rw_rel s a) (Hi : pcs s !! i = Some t).

Lemma rw_own_ok : thread_ok a (obj s) t.
Proof. exact (rr_pc _ _ HR i t Hi). Qed.

Lemma own_id : 0 < t_id t < 2 ^ 31.
Proof. eapply (proj1 (Forall_forall _ _) (rr_pos _ _ HR)), thread_id, Hi. Qed.

Lemma sleeper_id w : w ∈ r_sleep a \/ w ∈ w_sleep a -> 0 < w_id w < 2 ^ 31.
Proof.
  intros H. eapply (proj1 (Forall_forall _ _) (rr_pos _ _ HR)). destruct H as [H|H].
  - apply (rr_rqueued _ _ HR). by apply elem_of_ids.
  - apply (rr_wqueued _ _ HR). by apply elem_of_ids.
Qed.

Lemma writer_id id : writer a = Some id -> 0 < id < 2 ^ 31.
Proof. intros H. eapply (proj1 (Forall_forall _ _) (rr_pos _ _ HR)). by apply (rr_writer _ _ HR). Qed.

(** What [owner] says. *)
Lemma readable_free : readable (owner (obj s)) = true ->
  writer a = None /\ w_sleep a = [] /\ r_sleep a = [] /\ owner (obj s) = - 2 * readers a.
Proof.
  intros [H0 H1]%readable_spec. pose proof (rr_owner _ _ HR) as Ho. unfold owner_ok in Ho.
  destruct (writer a) as [id|] eqn:E; [pose proof (writer_id id E); lia|].
  destruct (w_sleep a); [by destruct Ho|]. destruct Ho as [Ho _]. rewrite Ho in H1. revert H1. Z.div_mod_to_equations. lia.
Qed.

Lemma unreadable_closed : readable (owner (obj s)) = false -> closed a.
Proof.
  intros H. unfold closed. pose proof (rr_owner _ _ HR) as Ho. unfold owner_ok in Ho. destruct (writer a) as [id|]; [left; eauto|].
  destruct (w_sleep a); [|by right]. destruct Ho as [Ho _]. exfalso. pose proof (rr_readers _ _ HR).
  assert (readable (owner (obj s)) = true); [|congruence]. apply readable_spec. rewrite Ho. split; [lia|]. Z.div_mod_to_equations. lia.
Qed.

Lemma owner_zero : owner (obj s) = 0 -> writer a = None /\ readers a = 0 /\ w_sleep a = [] /\ r_sleep a = [].
Proof.
  intros H. pose proof (rr_owner _ _ HR) as Ho. unfold owner_ok in Ho.
  destruct (writer a) as [id|] eqn:E; [pose proof (writer_id id E); lia|]. destruct (w_sleep a); [|lia]. destruct Ho. split_and!; try done. lia.
Qed.

Lemma owner_nonzero : owner (obj s) <> 0 -> is_Some (writer a) \/ 0 < readers a.
Proof.
  intros H. pose proof (rr_owner _ _ HR) as Ho. unfold owner_ok in Ho. destruct (writer a) as [id|]; [left; eauto|right].
  pose proof (rr_readers _ _ HR). destruct (w_sleep a); lia.
Qed.

Lemma rw_callback_alive : in_callback t = true -> alive a = true.
Proof.
  intros E. destruct (alive a) eqn:Ea; [done|]. pose proof (rr_dead _ _ HR Ea) as H0. rewrite (rr_callbacks _ _ HR) in H0.
  pose proof (countb_pos in_callback _ _ _ Hi E). lia.
Qed.

(** Steps that only move the thread. *)
Lemma rw_rel_local pc n : n = Z.b2z (in_callback (at_pc t pc)) - Z.b2z (in_callback t) -> (alive a = false -> n = 0) ->
  thread_ok a (obj s) (at_pc t pc) -> rw_rel (System (add_reader n (obj s)) (<[i := at_pc t pc]> (pcs s))) a.
Proof.
  intros -> Hd Ht. pose proof HR as [G1 G2 G3 G4 G5 G6 G7 G8 G9 G10 G11 G12 G13 G14 G15].
  apply (rw_rel_move s a i t pc); cbn; try done; try lia; try (intros; by left).
  intros E. split; [done|]. specialize (Hd E). destruct (in_callback _), (in_callback t); cbn in Hd; done.
Qed.

Lemma rw_rel_idle pc : in_callback t = false -> in_callback (at_pc t pc) = false -> thread_ok a (obj s) (at_pc t pc) ->
  rw_rel (System (obj s) (<[i := at_pc t pc]> (pcs s))) a.
Proof.
  intros E1 E2 Ht. pose proof (rw_rel_local pc 0) as H. rewrite E1, E2 in H. specialize (H eq_refl ltac:(done) Ht).
  by rewrite add_reader_0 in H.
Qed.


(** A change of [owner], of the abstract state, and nothing in the queues. *)
Lemma rel_owner pc v h n k : owner_ok (Rwlock h n (r_sleep a) (w_sleep a) (alive a)) v -> 0 <= n ->
  (forall id, h = Some id -> id = t_id t \/ writer a = Some id) -> (forall id, writer a = Some id -> id <> t_id t -> h = Some id) ->
  k = Z.b2z (in_callback (at_pc t pc)) - Z.b2z (in_callback t) -> (alive a = false -> k = 0) ->
  thread_ok (Rwlock h n (r_sleep a) (w_sleep a) (alive a)) (obj s) (at_pc t pc) ->
  rw_rel (System (add_reader k (set_owner v (obj s))) (<[i := at_pc t pc]> (pcs s))) (Rwlock h n (r_sleep a) (w_sleep a) (alive a)).
Proof.
  intros Hv Hn Hh1 Hh2 -> Hd Ht. pose proof HR as [G1 G2 G3 G4 G5 G6 G7 G8 G9 G10 G11 G12 G13 G14 G15].
  apply (rw_rel_move s a i t pc); cbn; try done; try lia; try (intros; by left).
  - intros E. split; [done|]. specialize (Hd E). destruct (in_callback _), (in_callback t); cbn in Hd; done.
  - intros id E. destruct (Hh1 id E) as [-> | E1]; [by eapply thread_id|by apply G12].
  - intros t' Hne. apply rw_thread_ok_ext; cbn; try done. split; intros E; [by apply Hh2|]. by destruct (Hh1 _ E).
Qed.

Lemma rel_owner0 pc v h n : owner_ok (Rwlock h n (r_sleep a) (w_sleep a) (alive a)) v -> 0 <= n ->
  (forall id, h = Some id -> id = t_id t \/ writer a = Some id) -> (forall id, writer a = Some id -> id <> t_id t -> h = Some id) ->
  in_callback t = false -> in_callback (at_pc t pc) = false ->
  thread_ok (Rwlock h n (r_sleep a) (w_sleep a) (alive a)) (obj s) (at_pc t pc) ->
  rw_rel (System (set_owner v (obj s)) (<[i := at_pc t pc]> (pcs s))) (Rwlock h n (r_sleep a) (w_sleep a) (alive a)).
Proof.
  intros Hv Hn H1 H2 E1 E2 Ht. rewrite <- (add_reader_0 (set_owner v (obj s))). apply rel_owner; try done. by rewrite E1, E2.
Qed.

Lemma rw_idle_eq : t_at t = Idle -> t = at_pc t Idle.
Proof. destruct t. cbn. by intros ->. Qed.

Lemma rw_eta : a = Rwlock (writer a) (readers a) (r_sleep a) (w_sleep a) (alive a).
Proof. by destruct a. Qed.

Ltac at_ok Ht := pose proof rw_own_ok as Hok; unfold thread_ok in Hok; rewrite Ht in Hok;
  let E := fresh "Hc" in pose proof (eq_refl (in_callback t)) as E; unfold in_callback in E at 2; rewrite Ht in E.

Lemma sim_rlock_begin : t_at t = Idle -> simulated s a i (rlock_begin (obj s) t).
Proof.
  intros Ht. at_ok Ht. unfold rlock_begin. cbv zeta. destruct (exists_ (obj s)) eqn:E.
  - rewrite (rr_alive _ _ HR) in E. apply (simulated_none (rw_spec protocol)), rw_rel_local.
    + rewrite Hc. by destruct (readable _).
    + congruence.
    + unfold thread_ok. cbn. destruct (readable (owner (obj s))) eqn:Er; [by split|done].
  - rewrite (rw_idle_eq Ht) at 1. apply rw_simulated_return, rw_rel_idle; [by rewrite Hc|done|exact Hok].
Qed.

Lemma readable_acquire : readable (owner (obj s)) = true -> alive a = true -> forall pc k,
  k = Z.b2z (in_callback (at_pc t pc)) - Z.b2z (in_callback t) -> outside (obj s) (t_id t) -> (forall v, pc <> UnCas v) -> pc = Idle ->
  simulated s a i ([RAcquired], add_reader k (set_owner (owner (obj s) - 2) (obj s)), at_pc t pc).
Proof.
  intros Hr Ha pc k Hk Hout _ ->. destruct (readable_free Hr) as (E1 & E2 & E3 & E4). pose proof (rr_readers _ _ HR).
  apply (simulated_one _ _ s a (Rwlock None (readers a + 1) (r_sleep a) (w_sleep a) (alive a))).
  - rewrite rw_eta at 1. rewrite E1, E2, Ha. by constructor.
  - apply rel_owner; try done; try lia; try congruence.
    unfold owner_ok. cbn. rewrite E2. split; [lia|done].
Qed.

Lemma sim_rlock_cas v : t_at t = RCas v -> simulated s a i (rlock_cas v (obj s) t).
Proof.
  intros Ht. at_ok Ht. destruct Hok as [Hout Hr]. unfold rlock_cas. destruct (Z.eqb_spec (owner (obj s)) v) as [<-|].
  - apply readable_acquire; try done; [by apply rw_callback_alive|by rewrite Hc].
  - rewrite <- (add_reader_0 (obj s)) at 1. apply (simulated_none (rw_spec protocol)), rw_rel_local; [by rewrite Hc|done|exact Hout].
Qed.

Lemma sim_tryrlock : t_at t = Idle -> simulated s a i (sys_rwlock_tryrlock (obj s) t).
Proof.
  intros Ht. at_ok Ht. unfold sys_rwlock_tryrlock. rewrite (rr_alive _ _ HR).
  destruct (alive a) eqn:E; [destruct (readable (owner (obj s))) eqn:Er|]; rewrite (rw_idle_eq Ht) at 1.
  - rewrite <- (add_reader_0 (set_owner _ _)). apply readable_acquire; try done. by rewrite Hc.
  - apply rw_simulated_return, rw_rel_idle; [by rewrite Hc|done|exact Hok].
  - apply rw_simulated_return, rw_rel_idle; [by rewrite Hc|done|exact Hok].
Qed.

(** [owner |= 1] when threads go to sleep. *)
Lemma owner_wait_bit r w : is_Some (writer a) \/ 0 < readers a -> w <> [] ->
  owner_ok (Rwlock (writer a) (readers a) r w (alive a)) (Z.lor (owner (obj s)) 1).
Proof.
  intros Hb Hw. pose proof (rr_owner _ _ HR) as Ho. unfold owner_ok in *. cbn. destruct (writer a) as [id|].
  - destruct Ho as (H0 & H1 & _). assert (Z.lor (owner (obj s)) 1 = 2 * id + 1) as ->.
    { destruct H1 as [-> | ->]; [by apply lor_bit|apply lor1_odd]. }
    split_and!; [done|by right|done].
  - destruct w as [|x w]; [done|]. destruct Hb as [[? [=]]|Hb]. split; [|done]. destruct (w_sleep a).
    + destruct Ho as [-> _]. replace (- 2 * readers a) with (2 * - readers a) by lia. by apply lor_bit.
    + destruct Ho as [-> _]. replace (- 2 * readers a + 1) with (2 * - readers a + 1) by lia. apply lor1_odd.
Qed.

Lemma closed_busy : closed a -> is_Some (writer a) \/ 0 < readers a.
Proof.
  intros [H|H]; [by left|]. pose proof (rr_owner _ _ HR) as Ho. unfold owner_ok in Ho. destruct (writer a); [left; eauto|right].
  destruct (w_sleep a); [done|apply Ho].
Qed.

Lemma owner_wait_bit_r r : closed a -> owner_ok (Rwlock (writer a) (readers a) r (w_sleep a) (alive a)) (Z.lor (owner (obj s)) 1).
Proof.
  intros Hcl. destruct (w_sleep a) as [|x w] eqn:Ew; [|by apply owner_wait_bit; [apply closed_busy|]].
  destruct Hcl as [[id E]|]; [|done]. pose proof (owner_wait_bit r [Waiter 0 0 0] ltac:(left; rewrite E; eauto) ltac:(done)) as H.
  unfold owner_ok in *. cbn in *. rewrite E in *. destruct H as (H1 & H2 & H3). split_and!; [done|done|]. intros _. apply H3. by right.
Qed.

Lemma sim_rlock_slow : t_at t = RSlow -> simulated s a i (rlock_slow (obj s) t).
Proof.
  intros Ht. at_ok Ht. unfold rlock_slow. cbv zeta. pose proof (rw_callback_alive Hc) as Ha.
  destruct (readable (owner (obj s))) eqn:Er.
  - pose proof Er as Hr. unfold readable in Hr. apply andb_true_iff in Hr as [Hr1 Hr2].
    rewrite Hr2, (proj2 (Z.ltb_ge 0 (owner (obj s)))) by (by apply Z.leb_le). cbn [orb negb].
    apply readable_acquire; try done. by rewrite Hc.
  - assert ((0 <? owner (obj s)) || negb (Z.land (owner (obj s)) 1 =? 0) = true) as ->.
    { unfold readable in Er. rewrite Z.ltb_antisym. by destruct (owner (obj s) <=? 0), (Z.land (owner (obj s)) 1 =? 0). }
    pose proof (unreadable_closed Er) as Hcl. set (w := Waiter _ _ _).
    apply (simulated_one _ _ s a (Rwlock (writer a) (readers a) (w :: r_sleep a) (w_sleep a) (alive a))).
    { rewrite rw_eta at 1. rewrite Ha. constructor. destruct Hcl; [by left|by right]. }
    pose proof HR as [G1 G2 G3 G4 G5 G6 G7 G8 G9 G10 G11 G12 G13 G14 G15]. destruct Hok as (Ho1 & Ho2 & Ho3).
    apply (rw_rel_move s a i t); cbn; try done.
    + by apply owner_wait_bit_r.
    + by rewrite G2.
    + apply emplace_wf; [done|]. by rewrite <- G2.
    + eapply queue_wf_mono; [|exact G6]. lia.
    + congruence.
    + rewrite Hc. cbn. lia.
    + intros id. rewrite elem_of_cons. intuition congruence.
    + intros id. by left.
    + intros t' Hne. apply rw_thread_ok_ext; cbn; try done. rewrite elem_of_cons. intuition congruence.
    + unfold thread_ok. cbn. split; [|done]. split; [done|]. intros _. left.
Qed.

Lemma rw_rel_clear : in_callback t = false -> t_id t ∉ map w_id (rq (obj s)) -> t_id t ∉ map w_id (wq (obj s)) ->
  rw_rel (System (clear_signal (t_id t) (obj s)) (<[i := at_pc t Idle]> (pcs s))) a.
Proof.
  intros Hc Hr Hw. pose proof HR as [G1 G2 G3 G4 G5 G6 G7 G8 G9 G10 G11 G12 G13 G14 G15].
  apply (rw_rel_move s a i t); cbn; try done; try (intros; by left).
  - rewrite Hc. cbn. lia.
  - intros t' Hne. apply rw_thread_ok_ext; cbn; try done. rewrite elem_clear. intuition congruence.
  - unfold thread_ok, outside. cbn. rewrite elem_clear. split_and!; [done|done|intuition congruence].
Qed.

Lemma rw_sim_wait_signal r : t_at t = RWaiting \/ t_at t = WWaiting -> wait_signal (obj s) t = Some r -> simulated s a i r.
Proof.
  intros Ht. unfold wait_signal. case_bool_decide as Hsig; [|done]. intros [= <-]. pose proof rw_own_ok as Hok. unfold thread_ok in Hok.
  apply rw_simulated_return, rw_rel_clear; destruct Ht as [Ht|Ht]; rewrite Ht in Hok; try (unfold in_callback; by rewrite Ht);
    destruct Hok as [H1 H2]; try done; intros Hq; by apply H1 in Hq.
Qed.

Lemma queue_shrinks r' w' : (forall x, x ∈ map w_id r' -> x ∈ map w_id (r_sleep a)) -> (forall x, x ∈ map w_id w' -> x ∈ map w_id (w_sleep a)) ->
  (forall id, id ∈ map w_id r' -> id ∈ map w_id (r_sleep a) \/ id = t_id t) /\ (forall id, id ∈ map w_id w' -> id ∈ map w_id (w_sleep a) \/ id = t_id t).
Proof. intros H1 H2. split; intros id Hid; left; auto. Qed.

Lemma sim_rlock_timeout : t_at t = RWaiting -> simulated s a i (rlock_timeout (obj s) t).
Proof.
  intros Ht. at_ok Ht. destruct Hok as [Hq Hw]. unfold rlock_timeout.
  pose proof HR as [G1 G2 G3 G4 G5 G6 G7 G8 G9 G10 G11 G12 G13 G14 G15]. rewrite G2, unqueue_spec by apply (qw_ids _ _ G5).
  case_bool_decide as Hid; cbn [negb].
  - apply (simulated_one _ _ s a (Rwlock (writer a) (readers a) (without (t_id t) (r_sleep a)) (w_sleep a) (alive a))).
    { rewrite rw_eta at 1. by constructor. }
    apply (rw_rel_move s a i t); cbn; try done; try (intros; by left).
    + unfold owner_ok in *. cbn. destruct (writer a) as [id|].
      * destruct G1 as (H1 & H2 & H3). split_and!; [done|done|]. intros [H|H]; apply H3; [left|by right].
        intros E. rewrite E in H. done.
      * destruct (w_sleep a); [|done]. destruct G1 as [H1 H2]. split; [done|]. by rewrite H2.
    + by apply without_wf.
    + rewrite Hc. cbn. lia.
    + intros id [H _]%without_ids. by left.
    + intros t' Hne. apply rw_thread_ok_ext; cbn; try done. rewrite without_ids, G2. intuition congruence.
    + unfold thread_ok, outside. cbn. rewrite without_ids. split_and!; [intuition congruence|done|]. apply Hq. by rewrite G2.
  - apply rw_simulated_return, rw_rel_clear; [done|by rewrite G2|done].
Qed.

Lemma rw_sim_wait_stopped q : t_at t = RWaiting /\ q = rq (obj s) \/ t_at t = WWaiting /\ q = wq (obj s) ->
  simulated s a i (wait_stopped q (obj s) t).
Proof.
  intros Ht. pose proof rw_own_ok as Hok. unfold thread_ok in Hok. unfold wait_stopped. rewrite existsb_id.
  assert (in_callback t = false) as Hc by (unfold in_callback; by destruct Ht as [[-> _]|[-> _]]).
  case_bool_decide as Hq; apply rw_simulated_return.
  - pose proof HR as [G1 G2 G3 G4 G5 G6 G7 G8 G9 G10 G11 G12 G13 G14 G15].
    apply (rw_rel_move s a i t); cbn; try done; try (intros; by left).
    + rewrite Hc. cbn. lia.
    + intros t' Hne. apply rw_thread_ok_ext; cbn; try done. by right.
    + unfold thread_ok. cbn. split; [|left]. destruct Ht as [[Ht ->]|[Ht ->]]; rewrite Ht in Hok; by apply Hok.
  - destruct Ht as [[Ht ->]|[Ht ->]]; rewrite Ht in Hok; apply rw_rel_clear; try done; apply Hok.
Qed.

Lemma sim_runlock_begin : t_at t = Idle -> simulated s a i (runlock_begin (obj s) t).
Proof.
  intros Ht. at_ok Ht. unfold runlock_begin. cbv zeta. rewrite (rr_alive _ _ HR). destruct (alive a) eqn:E.
  - rewrite land1. destruct (_ && _) eqn:Ev.
    + apply andb_true_iff in Ev as [Ev1%Z.ltb_lt Ev2%Z.eqb_eq].
      apply (simulated_none (rw_spec protocol)), rw_rel_local; [by rewrite Hc|congruence|by split].
    + apply (simulated_none (rw_spec protocol)), rw_rel_idle; [by rewrite Hc|done|exact Hok].
  - rewrite (rw_idle_eq Ht) at 1. apply rw_simulated_return, rw_rel_idle; [by rewrite Hc|done|exact Hok].
Qed.

(** One reader of several leaves, or the last of an undisturbed lock. *)
Lemma reader_leaves k : in_callback t = (k =? -1) -> k = -1 \/ k = 0 -> outside (obj s) (t_id t) ->
  owner (obj s) < 0 -> owner (obj s) <> -1 ->
  simulated s a i ([RReleased []], add_reader k (set_owner (owner (obj s) + 2) (obj s)), at_pc t Idle).
Proof.
  intros Hc Hk Hout Hneg Hne. pose proof (rr_owner _ _ HR) as Ho. unfold owner_ok in Ho.
  destruct (writer a) as [id|] eqn:Ew; [pose proof (writer_id id Ew); lia|].
  apply (simulated_one _ _ s a (Rwlock None (readers a - 1) (r_sleep a) (w_sleep a) (alive a))).
  - rewrite rw_eta at 1. rewrite Ew. constructor; [destruct (w_sleep a); lia|]. destruct (w_sleep a); [done|lia].
  - assert (in_callback (at_pc t Idle) = false) as Hi0 by done.
    apply rel_owner; try done.
    + unfold owner_ok. cbn. destruct (w_sleep a); [split; [lia|apply Ho]|lia].
    + destruct (w_sleep a); lia.
    + rewrite Ew. done.
    + rewrite Hi0, Hc. destruct Hk as [-> | ->]; done.
    + intros Hd. destruct Hk as [-> | ->]; [|done]. cbn in Hc. by rewrite (rw_callback_alive Hc) in Hd.
Qed.

Lemma sim_runlock_cas v : t_at t = RunCas v -> simulated s a i (runlock_cas v (obj s) t).
Proof.
  intros Ht. at_ok Ht. destruct Hok as (Hout & Hv & Hm). unfold runlock_cas. cbv zeta. cbn [owner add_reader].
  destruct (Z.eqb_spec (owner (obj s)) v) as [<-|].
  - change (set_owner ?x (add_reader ?k ?o)) with (add_reader k (set_owner x o)).
    apply reader_leaves; [by rewrite Hc|by left|done|done|]. intros E. rewrite E in Hm. done.
  - apply (simulated_none (rw_spec protocol)), rw_rel_local; [by rewrite Hc| |exact Hout].
    intros Hd. by rewrite (rw_callback_alive Hc) in Hd.
Qed.

Lemma rel_leaves_again : in_callback t = false -> t_id t ∉ signaled (obj s) ->
  rw_rel (System (set_again (t_id t :: again (obj s)) (obj s)) (<[i := at_pc t Stopped]> (pcs s))) a.
Proof.
  intros Hc Hs. pose proof HR as [G1 G2 G3 G4 G5 G6 G7 G8 G9 G10 G11 G12 G13 G14 G15].
  apply (rw_rel_move s a i t); cbn; try done; try (intros; by left).
  - rewrite Hc. cbn. lia.
  - intros t' Hne. apply rw_thread_ok_ext; cbn; try done. by right.
  - unfold thread_ok. cbn. split; [done|left].
Qed.

(** The lock goes to a writer from the queue. *)
Lemma rel_hand_over w q : takes_first protocol (w_sleep a) w q -> is_again (obj s) (w_id w) = false -> in_callback t = false ->
  outside (obj s) (t_id t) -> readers a <= 1 -> (forall id, writer a = Some id -> id = t_id t) ->
  rw_rel (System (wake [w] (set_owner (hand_over w q (rq (obj s))) (set_wq q (obj s)))) (<[i := at_pc t Idle]> (pcs s)))
    (Rwlock (Some (w_id w)) 0 (r_sleep a) q (alive a)).
Proof.
  intros Hf Hag Hc Hout Hn Hw. pose proof HR as [G1 G2 G3 G4 G5 G6 G7 G8 G9 G10 G11 G12 G13 G14 G15].
  destruct (takes_first_wf _ _ _ _ _ G6 Hf) as [Hwf Hlen]. pose proof Hf as (Hin & Hq & _). pose proof (sleeper_id w ltac:(by right)) as Hid.
  unfold is_again in Hag. apply bool_decide_eq_false in Hag. destruct Hout as (O1 & O2 & O3).
  assert (w_id w ∈ map w_id (w_sleep a)) as Hwin by (by apply elem_of_ids).
  apply (rw_rel_move s a i t); cbn; try done; try (intros; by left).
  - unfold owner_ok. cbn. rewrite hand_over_spec, G2 by done. split_and!; [done|destruct q, (r_sleep a); lia|].
    intros [H|H]; destruct q, (r_sleep a); done.
  - rewrite Hc. cbn. lia.
  - intros id [= <-]. by apply G14.
  - intros id. rewrite Hq, without_ids. intuition.
  - intros t' Hne. apply (rw_thread_ok_wake _ _ _ _ _ [w] false); cbn; try done.
    + rewrite G3, Hq, without_ids, list_elem_of_singleton. split_and!; [done| |done]. by intros ->.
    + by rewrite elem_of_app.
    + rewrite list_elem_of_singleton. by intros ->.
    + intros E. by destruct Hne; apply Hw.
    + intros [= E]. right. rewrite E. left.
  - unfold thread_ok, outside. cbn. rewrite G3 in O2. rewrite Hq, without_ids, elem_of_app, list_elem_of_singleton. split_and!; [done|tauto|].
    intros [|E]; [done|]. by rewrite E in O2.
Qed.

Lemma sim_runlock_slow r : t_at t = RunSlow -> runlock_slow protocol (obj s) t = Some r -> simulated s a i r.
Proof.
  intros Ht. at_ok Ht. unfold runlock_slow. cbv zeta. pose proof (rr_owner _ _ HR) as Ho. unfold owner_ok in Ho.
  pose proof HR as [G1 G2 G3 G4 G5 G6 G7 G8 G9 G10 G11 G12 G13 G14 G15].
  destruct (Z.leb_spec 0 (owner (obj s))).
  { rewrite (proj2 (Z.ltb_ge (owner (obj s)) (-1))) by lia. intros [= <-]. apply rw_simulated_return, rw_rel_idle; [by rewrite Hc|done|exact Hok]. }
  destruct (Z.eqb_spec (owner (obj s)) (-1)) as [E|E].
  - rewrite (proj2 (Z.ltb_ge (owner (obj s)) (-1))) by lia.
    destruct (writer a) as [id|] eqn:Ew; [pose proof (writer_id id Ew); lia|].
    destruct (w_sleep a) as [|w0 q0] eqn:Eq; [lia|]. assert (readers a = 1) as Hn by lia. rewrite G3.
    destruct (schedule_spec (is_again (obj s)) (order_tag (obj s)) (w0 :: q0) protocol) as (w & rest & -> & Hf); [done|done|].
    destruct (is_again (obj s) (w_id w)) eqn:Eg; intros [= <-].
    + apply rw_simulated_return, rel_leaves_again; [by rewrite Hc|apply Hok].
    + cbn [rq wq set_wq]. rewrite <- Eq in Hf.
      apply (simulated_one _ _ s a (Rwlock (Some (w_id w)) 0 (r_sleep a) rest (alive a))).
      * rewrite rw_eta at 1. rewrite Ew, Hn. by constructor.
      * apply rel_hand_over; try done; [lia|by rewrite Ew].
  - rewrite (proj2 (Z.ltb_lt (owner (obj s)) (-1))) by lia. intros [= <-].
    rewrite <- (add_reader_0 (set_owner _ _)). apply reader_leaves; [by rewrite Hc|by right|exact Hok|lia|done].
Qed.
(** *** Writers *)

Lemma owner_writer : owner (obj s) / 2 = t_id t -> writer a = Some (t_id t) /\ readers a = 0.
Proof.
  pose proof own_id. pose proof (rr_owner _ _ HR) as Ho. pose proof (rr_readers _ _ HR). unfold owner_ok in Ho. destruct (writer a) as [id|].
  - intros E. split; [|apply Ho]. f_equal. revert E. destruct Ho as (_ & [-> | ->] & _); Z.div_mod_to_equations; lia.
  - destruct (w_sleep a); destruct Ho as [-> Hx]; intros E; exfalso; revert E; Z.div_mod_to_equations; lia.
Qed.

Lemma writer_owner : writer a = Some (t_id t) -> owner (obj s) / 2 = t_id t.
Proof.
  intros E. pose proof (rr_owner _ _ HR) as Ho. unfold owner_ok in Ho. rewrite E in Ho.
  destruct Ho as (_ & [-> | ->] & _); Z.div_mod_to_equations; lia.
Qed.

(** The free lock goes to the caller. *)
Lemma writer_acquire k : owner (obj s) = 0 -> alive a = true -> k = - Z.b2z (in_callback t) -> outside (obj s) (t_id t) ->
  simulated s a i ([WAcquired (t_id t)], add_reader k (set_owner (writer_word (t_id t)) (obj s)), at_pc t Idle).
Proof.
  intros E Ha Hk Hout. destruct (owner_zero E) as (E1 & E2 & E3 & E4). pose proof own_id as Hid.
  apply (simulated_one _ _ s a (Rwlock (Some (t_id t)) 0 (r_sleep a) (w_sleep a) (alive a))).
  - rewrite rw_eta at 1. rewrite E1, E2, E3, E4, Ha. constructor.
  - apply rel_owner; try done; try congruence.
    + unfold owner_ok. cbn. rewrite writer_word_spec, E3, E4 by done. split_and!; [done|by left|]. by intros [].
    + intros id [= <-]. by left.
Qed.

Lemma sim_wlock_begin : t_at t = Idle -> simulated s a i (wlock_begin (obj s) t).
Proof.
  intros Ht. at_ok Ht. unfold wlock_begin. cbv zeta. rewrite (rr_alive _ _ HR), shiftr1. destruct (alive a) eqn:E.
  - destruct (Z.eqb_spec (owner (obj s)) 0) as [E0|E0]; [|destruct (Z.eqb_spec (owner (obj s) / 2) (t_id t)) as [E1|E1]].
    + apply (simulated_none (rw_spec protocol)), rw_rel_local; [by rewrite Hc|congruence|]. split; [exact Hok|]. by rewrite (proj1 (owner_zero E0)).
    + rewrite (rw_idle_eq Ht) at 1. apply rw_simulated_return, rw_rel_idle; [by rewrite Hc|done|exact Hok].
    + apply (simulated_none (rw_spec protocol)), rw_rel_local; [by rewrite Hc|congruence|]. split; [exact Hok|].
      intros Ew. by apply E1, writer_owner.
  - rewrite (rw_idle_eq Ht) at 1. apply rw_simulated_return, rw_rel_idle; [by rewrite Hc|done|exact Hok].
Qed.

Lemma sim_wlock_cas : t_at t = WCas -> simulated s a i (wlock_cas (obj s) t).
Proof.
  intros Ht. at_ok Ht. destruct Hok as [Hout Hw]. unfold wlock_cas. destruct (Z.eqb_spec (owner (obj s)) 0) as [E|E].
  - apply writer_acquire; [done|by apply rw_callback_alive|by rewrite Hc|done].
  - rewrite <- (add_reader_0 (obj s)) at 1. apply (simulated_none (rw_spec protocol)), rw_rel_local; [by rewrite Hc|done|by split].
Qed.

Lemma sim_wlock_slow : t_at t = WSlow -> simulated s a i (wlock_slow (obj s) t).
Proof.
  intros Ht. at_ok Ht. destruct Hok as [Hout Hw]. unfold wlock_slow. cbv zeta. pose proof (rw_callback_alive Hc) as Ha.
  destruct (Z.eqb_spec (owner (obj s)) 0) as [E|E].
  - apply writer_acquire; [done|by apply rw_callback_alive|by rewrite Hc|done].
  - rewrite shiftr1. destruct (Z.eqb_spec (owner (obj s) / 2) (t_id t)) as [E1|E1]; [by apply owner_writer in E1 as [E1 _]|].
    pose proof (owner_nonzero E) as Hb. set (w := Waiter _ _ _).
    apply (simulated_one _ _ s a (Rwlock (writer a) (readers a) (r_sleep a) (w :: w_sleep a) (alive a))).
    { rewrite rw_eta at 1. rewrite Ha. by constructor. }
    pose proof HR as [G1 G2 G3 G4 G5 G6 G7 G8 G9 G10 G11 G12 G13 G14 G15]. destruct Hout as (Ho1 & Ho2 & Ho3).
    apply (rw_rel_move s a i t); cbn; try done.
    + by apply owner_wait_bit.
    + by rewrite G3.
    + eapply queue_wf_mono; [|exact G5]. lia.
    + apply emplace_wf; [done|]. by rewrite <- G3.
    + congruence.
    + rewrite Hc. cbn. lia.
    + intros id. by left.
    + intros id. rewrite elem_of_cons. intuition congruence.
    + intros t' Hne. apply rw_thread_ok_ext; cbn; try done. rewrite elem_of_cons. intuition congruence.
    + unfold thread_ok. cbn. split; [|done]. split; [done|]. intros _. left.
Qed.

Lemma sim_trywlock_begin : t_at t = Idle -> simulated s a i (trywlock_begin (obj s) t).
Proof.
  intros Ht. at_ok Ht. unfold trywlock_begin. rewrite (rr_alive _ _ HR). destruct (alive a) eqn:E; [destruct (Z.eqb_spec (owner (obj s)) 0)|].
  - apply (simulated_none (rw_spec protocol)), rw_rel_local; [by rewrite Hc|congruence|exact Hok].
  - rewrite (rw_idle_eq Ht) at 2. apply rw_simulated_return, rw_rel_idle; [by rewrite Hc|done|exact Hok].
  - rewrite (rw_idle_eq Ht) at 1. apply rw_simulated_return, rw_rel_idle; [by rewrite Hc|done|exact Hok].
Qed.

Lemma sim_trywlock_cas : t_at t = TryWCas -> simulated s a i (trywlock_cas (obj s) t).
Proof.
  intros Ht. at_ok Ht. unfold trywlock_cas. cbn [owner add_reader]. destruct (Z.eqb_spec (owner (obj s)) 0) as [E|E].
  - change (set_owner ?x (add_reader ?k ?o)) with (add_reader k (set_owner x o)).
    apply writer_acquire; [done|by apply rw_callback_alive|by rewrite Hc|done].
  - apply rw_simulated_return, rw_rel_local; [by rewrite Hc| |exact Hok]. intros Hd. by rewrite (rw_callback_alive Hc) in Hd.
Qed.

(** The callback left [owner] as it was. *)
Lemma wunlock_rest_kept k : owner (obj s) <> 2 * t_id t -> k = - Z.b2z (in_callback t) -> outside (obj s) (t_id t) ->
  simulated s a i (wunlock_rest (owner (obj s)) (add_reader k (obj s)) t).
Proof.
  intros Hne Hk Hout. unfold wunlock_rest. rewrite shiftr1, land1.
  assert (alive a = false -> k = 0) as Hd.
  { intros Hd. rewrite Hk. destruct (in_callback t) eqn:E; [|done]. by rewrite (rw_callback_alive E) in Hd. }
  destruct (Z.eqb_spec (owner (obj s) / 2) (t_id t)) as [E|E]; cbn [negb].
  - destruct (Z.eqb_spec (owner (obj s) mod 2) 0) as [E1|E1]; cbn [negb].
    + exfalso. revert E E1 Hne. Z.div_mod_to_equations. lia.
    + apply (simulated_none (rw_spec protocol)), rw_rel_local; [by rewrite Hk; destruct (in_callback t)|done|]. split; [exact Hout|]. by apply owner_writer.
  - apply rw_simulated_return, rw_rel_local; [by rewrite Hk; destruct (in_callback t)|done|exact Hout].
Qed.

Lemma sim_wunlock_begin : t_at t = Idle -> simulated s a i (wunlock_begin (obj s) t).
Proof.
  intros Ht. at_ok Ht. unfold wunlock_begin. cbv zeta. rewrite (rr_alive _ _ HR). pose proof own_id. rewrite writer_word_spec by done.
  destruct (alive a) eqn:E; [destruct (Z.eqb_spec (owner (obj s)) (2 * t_id t)) as [E1|E1]|]; cbn [negb].
  - apply (simulated_none (rw_spec protocol)), rw_rel_local; [by rewrite Hc|congruence|by split].
  - rewrite <- (add_reader_0 (obj s)) at 2. apply wunlock_rest_kept; [done|by rewrite Hc|done].
  - rewrite (rw_idle_eq Ht) at 1. apply rw_simulated_return, rw_rel_idle; [by rewrite Hc|done|exact Hok].
Qed.

(** The holder leaves, and nobody waits. *)
Lemma writer_leaves k : writer a = Some (t_id t) -> r_sleep a = [] -> w_sleep a = [] -> k = - Z.b2z (in_callback t) -> outside (obj s) (t_id t) ->
  simulated s a i ([WReleased (t_id t) []], add_reader k (set_owner 0 (obj s)), at_pc t Idle).
Proof.
  intros E1 E2 E3 Hk Hout. assert (readers a = 0) as E4 by (by apply owner_writer, writer_owner).
  apply (simulated_one _ _ s a (Rwlock None 0 (r_sleep a) (w_sleep a) (alive a))).
  - rewrite rw_eta at 1. rewrite E1, E2, E3, E4. constructor.
  - apply rel_owner; try done.
    + unfold owner_ok. cbn. by rewrite E2, E3.
    + congruence.
    + intros Hd. rewrite Hk. destruct (in_callback t) eqn:E; [|done]. by rewrite (rw_callback_alive E) in Hd.
Qed.

Lemma sim_wunlock_cas v : t_at t = UnCas v -> simulated s a i (wunlock_cas v (obj s) t).
Proof.
  intros Ht. at_ok Ht. destruct Hok as [Hout ->]. unfold wunlock_cas. cbv zeta. cbn [owner add_reader].
  destruct (Z.eqb_spec (owner (obj s)) (2 * t_id t)) as [E|E].
  - assert (owner (obj s) / 2 = t_id t) as E1 by (rewrite E; Z.div_mod_to_equations; lia). pose proof (owner_writer E1) as [Ew _].
    unfold wunlock_rest. rewrite shiftr1, land1, E1, E, Z.eqb_refl. cbn [negb]. rewrite (Z.mul_comm 2), Z_mod_mult. cbn [negb Z.eqb].
    pose proof (rr_owner _ _ HR) as Ho. unfold owner_ok in Ho. rewrite Ew in Ho. destruct Ho as (_ & _ & Ho).
    change (set_owner ?x (add_reader ?k ?o)) with (add_reader k (set_owner x o)).
    apply writer_leaves; [done| | |by rewrite Hc|done].
    + destruct (r_sleep a); [done|]. lapply Ho; [lia|by left].
    + destruct (w_sleep a); [done|]. lapply Ho; [lia|by right].
  - apply wunlock_rest_kept; [done|by rewrite Hc|done].
Qed.
(** *** Readers are let in *)

Lemma rel_wake_readers v n ws : takes SYS_SYNC_FIFO (r_sleep a) ws [] -> (forall w, w ∈ r_sleep a -> is_again (obj s) (w_id w) = false) ->
  in_callback t = false -> (t_id t ∉ signaled (obj s)) -> (t_id t ∉ map w_id (r_sleep a)) -> v = - 2 * n -> 0 <= n ->
  (forall id, id ∈ map w_id (w_sleep a) -> id = t_id t) -> (forall id, writer a = Some id -> id = t_id t) ->
  rw_rel (System (wake ws (set_owner v (set_rq [] (set_wq [] (obj s))))) (<[i := at_pc t Idle]> (pcs s))) (Rwlock None n [] [] (alive a)).
Proof.
  intros Ht Ha Hc Hs Hr Hv Hn Hw Hwr. pose proof HR as [G1 G2 G3 G4 G5 G6 G7 G8 G9 G10 G11 G12 G13 G14 G15].
  destruct (takes_ids _ _ _ _ Ht) as [Hids Hsub]. assert (forall tag, queue_wf tag []) as Hnil by (intros; split; constructor).
  apply (rw_rel_move s a i t); cbn; try done; try (intros; by left); try (by intros id ?%not_elem_of_nil).
  - rewrite Hc. cbn. lia.
  - intros t' Hne. apply (rw_thread_ok_wake _ _ _ _ _ ws true); cbn; try done.
    + rewrite G2, G3. split_and!; [apply Hids|apply Hsub|]. split; [by intros ?%not_elem_of_nil|]. intros E. by apply Hw in E.
    + by rewrite elem_of_app.
    + intros (w & E & Hin)%list_elem_of_fmap. pose proof (Ha w (takes_taken _ _ _ _ _ Ht Hin)) as Hg.
      unfold is_again in Hg. apply bool_decide_eq_false in Hg. by rewrite E.
    + intros E. by apply Hwr in E.
  - unfold thread_ok, outside. cbn. rewrite elem_of_app. split_and!; [apply not_elem_of_nil..|]. intros [|E]; [done|]. by apply Hr, Hsub.
Qed.

Lemma set_queue_same o : set_rq (rq o) o = o /\ set_wq (wq o) o = o.
Proof. by destruct o. Qed.

Lemma land_clear_even n : Z.land (2 * n) (-2) = 2 * n /\ Z.land (2 * n + 1) (-2) = 2 * n.
Proof. rewrite !land_m2. Z.div_mod_to_equations. lia. Qed.

(** A writer that timed out is gone from the queue, and nobody is woken. *)
Lemma rel_writer_gone v : t_at t = WWaiting -> t_id t ∈ map w_id (w_sleep a) ->
  owner_ok (Rwlock (writer a) (readers a) (r_sleep a) (without (t_id t) (w_sleep a)) (alive a)) v ->
  rw_rel (System (set_owner v (set_wq (without (t_id t) (w_sleep a)) (obj s))) (<[i := at_pc t Idle]> (pcs s)))
    (Rwlock (writer a) (readers a) (r_sleep a) (without (t_id t) (w_sleep a)) (alive a)).
Proof.
  intros Ht Hin Hv. at_ok Ht. destruct Hok as [Hq Hr]. pose proof HR as [G1 G2 G3 G4 G5 G6 G7 G8 G9 G10 G11 G12 G13 G14 G15].
  apply (rw_rel_move s a i t); cbn; try done; try (intros; by left).
  - by apply without_wf.
  - rewrite Hc. cbn. lia.
  - intros id [H _]%without_ids. by left.
  - intros t' Hne. apply rw_thread_ok_ext; cbn; try done. rewrite without_ids, G3. intuition congruence.
  - unfold thread_ok, outside. cbn. rewrite without_ids. split_and!; [done|intuition congruence|]. apply Hq. by rewrite G3.
Qed.

Lemma writer_gone v q : t_at t = WWaiting -> t_id t ∈ map w_id (w_sleep a) -> without (t_id t) (w_sleep a) = q ->
  (writer a = None -> q = [] -> r_sleep a = []) -> owner_ok (Rwlock (writer a) (readers a) (r_sleep a) q (alive a)) v ->
  simulated s a i ([WTimedOut (t_id t) []], set_owner v (set_wq q (obj s)), at_pc t Idle).
Proof. intros Ht Hin <- Hr Hv. eapply simulated_one; [|by apply rel_writer_gone]. rewrite rw_eta at 1. by constructor. Qed.

(** [owner] stays if somebody else waits. *)
Lemma writer_gone_kept q : t_at t = WWaiting -> t_id t ∈ map w_id (w_sleep a) -> without (t_id t) (w_sleep a) = q ->
  q <> [] \/ (r_sleep a <> [] /\ 0 <= owner (obj s)) ->
  simulated s a i ([WTimedOut (t_id t) []], set_wq q (obj s), at_pc t Idle).
Proof.
  intros Ht Hin Hq Hr. replace (set_wq _ (obj s)) with (set_owner (owner (obj s)) (set_wq q (obj s))) by done.
  pose proof (rr_owner _ _ HR) as Ho. assert (w_sleep a <> []) as Hne by (intros E; by rewrite E in Hin; apply not_elem_of_nil in Hin).
  unfold owner_ok in Ho. apply writer_gone; try done.
  - intros E1 E2. rewrite E1 in Ho. destruct (w_sleep a); [done|]. destruct Hr as [|[_ Hr]]; [done|]. lia.
  - unfold owner_ok. cbn. destruct (writer a).
    + destruct Ho as (H1 & H2 & H3). split_and!; [done|done|]. intros _. apply H3. by right.
    + destruct (w_sleep a); [done|]. destruct q; [|done]. destruct Hr as [|[_ Hr]]; [done|]. lia.
Qed.

Lemma sim_wlock_timeout r : t_at t = WWaiting -> wlock_timeout (obj s) t = Some r -> simulated s a i r.
Proof.
  intros Ht. at_ok Ht. destruct Hok as [Hq Hr]. unfold wlock_timeout. pose proof HR as [G1 G2 G3 G4 G5 G6 G7 G8 G9 G10 G11 G12 G13 G14 G15].
  rewrite G3, unqueue_spec by apply (qw_ids _ _ G6). case_bool_decide as Hid; cbn [negb].
  2: { intros [= <-]. apply rw_simulated_return, rw_rel_clear; [done|done|by rewrite G3]. }
  cbn [rq wq owner set_wq]. rewrite G2. pose proof G1 as Ho. unfold owner_ok in Ho.
  assert (w_sleep a <> []) as Hne by (intros E; by rewrite E in Hid; apply not_elem_of_nil in Hid).
  destruct (r_sleep a) as [|r0 rs] eqn:Er, (without (t_id t) (w_sleep a)) as [|w0 ws] eqn:Ew.
  - intros [= <-]. apply writer_gone; [done|done|done|done|]. unfold owner_ok. cbn. rewrite Er.
    destruct (writer a) as [id|].
    + destruct Ho as (H1 & H2 & H3). split_and!; [done|left|by intros []]. destruct H2 as [-> | ->]; apply land_clear_even.
    + destruct (w_sleep a); [done|]. destruct Ho as [-> _]. replace (- 2 * readers a + 1) with (2 * (- readers a) + 1) by lia.
      rewrite (proj2 (land_clear_even _)). split; [lia|done].
  - intros [= <-]. apply writer_gone_kept; [done|done|done|by left].
  - destruct (Z.ltb_spec (owner (obj s)) 0) as [Hn|Hn].
    + destruct (drain _ _ _ _) as [ws|] eqn:Ed; [|done]. cbn [mbind option_bind]. intros [= <-].
      destruct (drain_taken _ _ _ G5 _ _ _ Ed) as (ws' & -> & Htk & Ha). cbn [app].
      destruct (writer a) as [id|] eqn:Ewr; [pose proof (writer_id id Ewr); lia|]. destruct (w_sleep a) as [|x xs] eqn:Ews; [done|]. destruct Ho as [Ho Hn0].
      apply (simulated_one _ _ s a (Rwlock None (readers a + Z.of_nat (length ws')) [] [] (alive a))).
      * rewrite rw_eta at 1. rewrite Ewr, Er, Ews. by constructor.
      * apply rel_wake_readers; try done; try lia.
        -- by rewrite Er.
        -- by rewrite Er.
        -- apply Hq. by rewrite G3.
        -- by rewrite Er, <- G2.
        -- rewrite Ho. replace (_ - _) with (2 * (- readers a - Z.of_nat (length ws')) + 1) by lia. rewrite (proj2 (land_clear_even _)). lia.
        -- intros id Hin. destruct (Z.eq_dec id (t_id t)) as [|Hx]; [done|]. rewrite Ews in Hin.
           assert (id ∈ map w_id (without (t_id t) (x :: xs))) as Hy by (by apply without_ids). rewrite Ew in Hy. by apply not_elem_of_nil in Hy.
        -- congruence.
    + intros [= <-]. apply writer_gone_kept; [done|done|done|right; by rewrite Er].
  - intros [= <-]. apply writer_gone_kept; [done|done|done|by left].
Qed.

Lemma sim_wunlock_slow r : t_at t = UnSlow -> wunlock_slow protocol (obj s) t = Some r -> simulated s a i r.
Proof.
  intros Ht. at_ok Ht. destruct Hok as [Hout Hwr]. unfold wunlock_slow. pose proof HR as [G1 G2 G3 G4 G5 G6 G7 G8 G9 G10 G11 G12 G13 G14 G15].
  assert (readers a = 0) as Hn by (by apply owner_writer, writer_owner). rewrite G3.
  destruct (w_sleep a) as [|w0 q0] eqn:Eq; [cbn [schedule]|].
  - rewrite G2. destruct (r_sleep a) as [|r0 rs] eqn:Er; [intros [= <-]|].
    + rewrite <- (add_reader_0 (set_owner _ _)). apply writer_leaves; try done. by rewrite Hc.
    + destruct (any_again _ _) eqn:Eg; [intros [= <-]; apply rw_simulated_return, rel_leaves_again; [done|apply Hout]|].
      destruct (drain _ _ _ _) as [ws|] eqn:Ed; [|done]. cbn [mbind option_bind]. intros [= <-].
      destruct (drain_taken _ _ _ G5 _ _ _ Ed) as (ws' & -> & Htk & Ha). cbn [app].
      apply (simulated_one _ _ s a (Rwlock None (Z.of_nat (length ws')) [] [] (alive a))).
      * rewrite rw_eta at 1. rewrite Hwr, Er, Eq, Hn. by constructor.
      * rewrite <- (proj2 (set_queue_same (obj s))), G3. destruct Hout as (O1 & O2 & O3).
        apply rel_wake_readers; try done; try lia; rewrite ?Er, ?Eq; try done.
        -- by rewrite <- G2.
        -- by intros id ?%not_elem_of_nil.
        -- congruence.
  - destruct (schedule_spec (is_again (obj s)) (order_tag (obj s)) (w0 :: q0) protocol) as (w & rest & -> & Hf); [done|done|].
    destruct (is_again (obj s) (w_id w)) eqn:Eg; intros [= <-]; [apply rw_simulated_return, rel_leaves_again; [done|apply Hout]|].
    cbn [rq wq set_wq]. rewrite <- Eq in Hf. apply (simulated_one _ _ s a (Rwlock (Some (w_id w)) 0 (r_sleep a) rest (alive a))).
    + rewrite rw_eta at 1. rewrite Hwr, Hn. by constructor.
    + apply rel_hand_over; try done; [lia|congruence].
Qed.

Lemma rw_sim_destroy r : t_at t = Idle -> sys_rwlock_destroy (obj s) t = Some r -> simulated s a i r.
Proof.
  intros Ht. at_ok Ht. unfold sys_rwlock_destroy. rewrite (rr_alive _ _ HR). destruct (Z.eqb_spec (idm_readers (obj s)) 0) as [E|]; [|done]. cbn [negb].
  destruct (alive a) eqn:Ea; [destruct (Z.eqb_spec (owner (obj s)) 0) as [E0|]|]; cbn [negb]; intros [= <-]; rewrite (rw_idle_eq Ht) at 1.
  - destruct (owner_zero E0) as (E1 & E2 & E3 & E4). apply (simulated_one _ _ s a (Rwlock None 0 [] [] false)).
    + rewrite rw_eta at 1. rewrite E1, E2, E3, E4, Ea. constructor.
    + pose proof HR as [G1 G2 G3 G4 G5 G6 G7 G8 G9 G10 G11 G12 G13 G14 G15].
      split; cbn; rewrite ?rw_pcs_ids by done; try done; try congruence; try (by intros id ?%not_elem_of_nil); try (split; constructor).
      * rewrite G8, (countb_insert in_callback _ _ _ _ Hi), Hc. cbn. lia.
      * apply (threads_insert (fun _ t => thread_ok (Rwlock None 0 [] [] false) (set_exists false (obj s)) t)); [|exact Hok].
        intros j t' Hj Hne. apply (rw_thread_ok_ext a _ (obj s)); cbn; try done; [by rewrite E1|]. by apply (G15 j t').
  - apply rw_simulated_return, rw_rel_idle; [by rewrite Hc|done|exact Hok].
  - apply rw_simulated_return, rw_rel_idle; [by rewrite Hc|done|exact Hok].
Qed.
End Steps.

(** One step of a thread. *)
Lemma rw_step s a i act t r : rw_rel s a -> pcs s !! i = Some t -> rw_tstep protocol act (obj s) t = Some r -> simulated s a i r.
Proof.
  intros HR Hi. unfold rw_tstep. destruct (t_at t) eqn:Ht, act; try done;
    try (intros [= <-]); first
    [ by apply sim_rlock_begin | by apply sim_tryrlock | by apply sim_runlock_begin | by apply sim_wlock_begin
    | by apply sim_trywlock_begin | by apply sim_wunlock_begin | by apply rw_sim_destroy | by apply sim_rlock_cas
    | by apply sim_rlock_slow | by apply sim_rlock_timeout | by apply sim_runlock_cas | by apply sim_runlock_slow
    | by apply sim_wlock_cas | by apply sim_wlock_slow | by apply sim_wlock_timeout | by apply sim_trywlock_cas
    | by apply sim_wunlock_cas | by apply sim_wunlock_slow | apply rw_sim_wait_signal; by auto | apply rw_sim_wait_stopped; by auto ].
Qed.
End Refinement.

Lemma rw_rel_initial ts : NoDup (map fst ts) -> Forall (fun id => 0 < id < 2 ^ 31) (map fst ts) ->
  rw_rel (rw_initial ts) (Rwlock None 0 [] [] true).
Proof.
  intros Hnd Hpos. assert (forall i t, map (fun '(id, prio) => RwThread id prio Idle) ts !! i = Some t -> t_at t = Idle) as Hidle.
  { intros i t H. change (map ?f ts) with (f <$> ts) in H. rewrite list_lookup_fmap in H. destruct (ts !! i) as [[]|]; [|done]. by injection H as <-. }
  assert (map t_id (map (fun '(id, prio) => RwThread id prio Idle) ts) = map fst ts) as Hids.
  { rewrite map_map. apply map_ext. by intros []. }
  split; cbn; rewrite ?Hids; try done; try (by intros id ?%not_elem_of_nil); try (split; constructor).
  - clear -ts. induction ts as [|[id prio] ts IH]; [done|]. cbn. by rewrite <- IH.
  - intros i t H. unfold thread_ok, outside. rewrite (Hidle i t H). cbn. split_and!; apply not_elem_of_nil.
Qed.

(** C11: under every interleaving of calls of any number of threads, the
    reader-writer lock refines the abstract one: readers or one writer hold
    it, readers do not pass waiting writers, a lock left by its last holder
    goes to the writer the protocol names or to all sleeping readers, nobody
    sleeps on a free lock, and a thread in a wait loop is queued or woken. *)
Theorem rwlock_refines protocol ts sch es s :
  NoDup (map fst ts) -> Forall (fun id => 0 < id < 2 ^ 31) (map fst ts) -> rw_run protocol ts sch = Some (es, s) ->
  exists a, spec_run (rw_spec protocol) (Rwlock None 0 [] [] true) es a /\
    owner_ok a (owner (obj s)) /\ rq (obj s) = r_sleep a /\ wq (obj s) = w_sleep a /\ exists_ (obj s) = alive a /\
    (forall i t, pcs s !! i = Some t -> t_at t = RWaiting -> t_id t ∈ map w_id (r_sleep a) \/ t_id t ∈ signaled (obj s)) /\
    (forall i t, pcs s !! i = Some t -> t_at t = WWaiting -> t_id t ∈ map w_id (w_sleep a) \/ t_id t ∈ signaled (obj s)).
Proof.
  intros Hnd Hpos H.
  destruct (simulated_refines (rw_tstep protocol) (rw_spec protocol) rw_rel (rw_initial ts) (Rwlock None 0 [] [] true) sch es s)
    as (a & Ha & HR); [|by apply rw_rel_initial|done|].
  { intros s0 a0 i act t r HR Hi Hs. by apply (rw_step protocol s0 a0 i act t r). }
  exists a. destruct HR as [G1 G2 G3 G4 G5 G6 G7 G8 G9 G10 G11 G12 G13 G14 G15]. split_and!; try done;
    intros i t Hi Ht; pose proof (G15 i t Hi) as Hok; unfold thread_ok in Hok; rewrite Ht in Hok; destruct Hok as [Hok _];
    rewrite ?G2, ?G3 in Hok; destruct (decide (t_id t ∈ signaled (obj s))); tauto.
Qed.

(** Thread 1 reads, 2 and 4 queue to write and 3 to read; 1 hands over to 2,
    the more urgent; 2 leaves to 4, and 4 to the reader. *)
Definition rw_demo : list (nat * rw_action) :=
  [(0%nat, ARlock); (0%nat, AGo); (3%nat, AWlock); (3%nat, AGo); (1%nat, AWlock); (1%nat, AGo); (2%nat, ARlock); (2%nat, AGo);
   (2%nat, AStop); (0%nat, ARunlock); (0%nat, AGo); (1%nat, AGo); (1%nat, AWunlock); (1%nat, AGo); (3%nat, AGo)].

Lemma rwlock_refines_witness :
  exists es s, rw_run SYS_SYNC_PRIORITY [(1, 1000); (2, 1000); (3, 1001); (4, 1001)] rw_demo = Some (es, s) /\
    owner (obj s) = 9 /\ rq (obj s) = [Waiter 3 1001 3] /\
    map snd es = [RAcquired; WSlept (Waiter 4 1001 1); WSlept (Waiter 2 1000 2); RSlept (Waiter 3 1001 3); Return 0;
      RReleased [Waiter 2 1000 2]; Return 0; WReleased 2 [Waiter 4 1001 1]; Return 0] /\
    exists a, spec_run (rw_spec SYS_SYNC_PRIORITY) (Rwlock None 0 [] [] true) es a /\ owner_ok a 9.
Proof.
  destruct (rw_run SYS_SYNC_PRIORITY [(1, 1000); (2, 1000); (3, 1001); (4, 1001)] rw_demo) as [[es s]|] eqn:E; [|by vm_compute in E].
  exists es, s. split; [done|].
  assert (NoDup (map fst [(1, 1000); (2, 1000); (3, 1001); (4, 1001)])) as Hnd by (refine (bool_decide_unpack _ _); vm_compute; exact I).
  assert (Forall (fun id => 0 < id < 2 ^ 31) (map fst [(1, 1000); (2, 1000); (3, 1001); (4, 1001)])) as Hpos by (repeat constructor; cbn; lia).
  destruct (rwlock_refines SYS_SYNC_PRIORITY [(1, 1000); (2, 1000); (3, 1001); (4, 1001)] rw_demo es s Hnd Hpos E) as (a & Ha & Ho & _).
  assert (owner (obj s) = 9) as E9 by (vm_compute in E; injection E as <- <-; done). rewrite E9 in Ho.
  split; [exact E9|]. split; [vm_compute in E; injection E as <- <-; reflexivity|]. split; [vm_compute in E; injection E as <- <-; reflexivity|].
  exists a. split; [exact Ha|exact Ho].
Defined.
