(* ===== verification/Lv2EventFlag.v ===== *)
(** * LV2 kernel: event flags

    [kernel/cellos/src/sys_event_flag.cpp] as threads over one
    [lv2_event_flag] (Threads).  [pattern] is a set of 64 flags that lock-free
    calls change in one atomic operation, one step here.  [sys_event_flag_set]
    holds the mutex over several: it reads [pattern], decides in one pass over
    the sleeping threads whom to wake, and replaces [pattern] unless a flag the
    decision depends on has gone; meanwhile every step that needs the mutex has
    to wait ([locked]).  The registers 3 to 6 of a sleeping thread are shared
    with the thread that wakes it ([regs]).  [~x] is [Z.lnot x]: on words it is
    only used to mask.  The count of woken threads is not wrapped. *)
From S2P Require Import Prelude Threads Lv2Queue.

Definition SYS_SYNC_WAITER_SINGLE : Z := 0x10000.
Definition SYS_SYNC_WAITER_MULTIPLE : Z := 0x20000.
Definition SYS_EVENT_FLAG_WAIT_AND : Z := 0x01.
Definition SYS_EVENT_FLAG_WAIT_OR : Z := 0x02.
Definition SYS_EVENT_FLAG_WAIT_CLEAR : Z := 0x10.
Definition SYS_EVENT_FLAG_WAIT_CLEAR_ALL : Z := 0x20.

Definition check_mode (mode : Z) : bool :=
  let low := Z.land mode 0xf in
  let high := Z.land mode (Z.lnot 0xf) in
  ((low =? SYS_EVENT_FLAG_WAIT_AND) || (low =? SYS_EVENT_FLAG_WAIT_OR)) &&
  ((high =? 0) || (high =? SYS_EVENT_FLAG_WAIT_CLEAR) || (high =? SYS_EVENT_FLAG_WAIT_CLEAR_ALL)).

(** Whether the pattern satisfies the condition. *)
Definition satisfies (pattern bitptn mode : Z) : bool :=
  negb (((Z.land mode 0xf =? SYS_EVENT_FLAG_WAIT_AND) && negb (Z.land pattern bitptn =? bitptn)) ||
        ((Z.land mode 0xf =? SYS_EVENT_FLAG_WAIT_OR) && (Z.land pattern bitptn =? 0))).

(** The result, the pattern after it and what [*result] holds. *)
Definition check_pattern (pattern bitptn mode : Z) : bool * Z * Z :=
  if negb (satisfies pattern bitptn mode) then (false, pattern, pattern)
  else
    let high := Z.land mode (Z.lnot 0xf) in
    (true,
     if high =? SYS_EVENT_FLAG_WAIT_CLEAR then Z.land pattern (Z.lnot bitptn)
     else if high =? SYS_EVENT_FLAG_WAIT_CLEAR_ALL then 0 else pattern,
     pattern).

(** ** The object *)

Record ef_regs := Regs { gpr3 : Z; gpr4 : Z; gpr5 : Z; gpr6 : Z }.

Definition set_gpr3 (v : Z) (r : ef_regs) : ef_regs := Regs v (gpr4 r) (gpr5 r) (gpr6 r).
Definition set_gpr6 (v : Z) (r : ef_regs) : ef_regs := Regs (gpr3 r) (gpr4 r) (gpr5 r) v.

(** [ppu.gpr[3] = -1] *)
Definition PENDING : Z := 2 ^ 64 - 1.

Record lv2_event_flag := MkFlag {
  pattern : Z;
  sq : list waiter;
  regs : Z -> ef_regs;
  locked : option Z; (* the thread that holds the mutex between two steps *)
  order_tag : Z; (* lv2_obj::g_priority_order_tag *)
  signaled : list Z; (* threads with cpu_flag::signal *)
  again : list Z; (* threads with cpu_flag::again *)
  exists_ : bool; (* the id names the object *)
  idm_readers : Z (* callbacks that hold the id manager's lock shared *)
}.

Definition set_pattern (v : Z) (o : lv2_event_flag) : lv2_event_flag :=
  MkFlag v (sq o) (regs o) (locked o) (order_tag o) (signaled o) (again o) (exists_ o) (idm_readers o).
Definition set_sq (v : list waiter) (o : lv2_event_flag) : lv2_event_flag :=
  MkFlag (pattern o) v (regs o) (locked o) (order_tag o) (signaled o) (again o) (exists_ o) (idm_readers o).
Definition set_regs (v : Z -> ef_regs) (o : lv2_event_flag) : lv2_event_flag :=
  MkFlag (pattern o) (sq o) v (locked o) (order_tag o) (signaled o) (again o) (exists_ o) (idm_readers o).
Definition set_locked (v : option Z) (o : lv2_event_flag) : lv2_event_flag :=
  MkFlag (pattern o) (sq o) (regs o) v (order_tag o) (signaled o) (again o) (exists_ o) (idm_readers o).
Definition set_tag (v : Z) (o : lv2_event_flag) : lv2_event_flag :=
  MkFlag (pattern o) (sq o) (regs o) (locked o) v (signaled o) (again o) (exists_ o) (idm_readers o).
Definition set_signaled (v : list Z) (o : lv2_event_flag) : lv2_event_flag :=
  MkFlag (pattern o) (sq o) (regs o) (locked o) (order_tag o) v (again o) (exists_ o) (idm_readers o).
Definition set_again (v : list Z) (o : lv2_event_flag) : lv2_event_flag :=
  MkFlag (pattern o) (sq o) (regs o) (locked o) (order_tag o) (signaled o) v (exists_ o) (idm_readers o).
Definition set_exists (v : bool) (o : lv2_event_flag) : lv2_event_flag :=
  MkFlag (pattern o) (sq o) (regs o) (locked o) (order_tag o) (signaled o) (again o) v (idm_readers o).
Definition add_reader (n : Z) (o : lv2_event_flag) : lv2_event_flag :=
  MkFlag (pattern o) (sq o) (regs o) (locked o) (order_tag o) (signaled o) (again o) (exists_ o) (idm_readers o + n).

(** The flag goes when the thread sees it, at the latest in [check_state]
    before its next call. *)
Definition clear_signal (id : Z) (o : lv2_event_flag) : lv2_event_flag := set_signaled (filter (fun x => x <> id) (signaled o)) o.

Definition wake (ws : list waiter) (o : lv2_event_flag) : lv2_event_flag := set_signaled (signaled o ++ map w_id ws) o.

Definition is_again (o : lv2_event_flag) (id : Z) : bool := bool_decide (id ∈ again o).

Definition upd_regs (id : Z) (r : ef_regs) (o : lv2_event_flag) : lv2_event_flag := set_regs (upd (regs o) id r) o.

(** ** Threads *)

Inductive ef_at :=
| Idle
| WaitSlow (bitptn mode : Z)
| Waiting
| SetLock (bitptn : Z)
| SetCas (bitptn loaded to_write dependant_mask count : Z) (* holds the mutex *)
| CancelLock
| Stopped. (* returned with [cpu_flag::again] *)

Record ef_thread := EfThread { t_id : Z; t_prio : Z; t_at : ef_at }.

Definition at_pc (t : ef_thread) (pc : ef_at) : ef_thread := EfThread (t_id t) (t_prio t) pc.

Inductive ef_event :=
| Satisfied (bitptn mode result : Z)
| Slept (w : waiter) (bitptn mode : Z)
| SetBits (bitptn : Z) (woken : list waiter)
| Retry (broke : bool) (* whether the new pass ended on an empty pattern *)
| Cleared (mask : Z)
| Cancelled (woken : list waiter)
| TimedOut (id result : Z)
| Destroyed
| Return (code result : Z). (* of a call that had no effect, or of a woken thread *)

Section EventFlag.
(** Constant members of the object. *)
Variable protocol type : Z.

Abbreviation step := (list ef_event * lv2_event_flag * ef_thread)%type.

(** A step under the mutex. *)
Definition under_mutex (o : lv2_event_flag) (r : option step) : option step :=
  match locked o with None => r | Some _ => None end.

(** *** [sys_event_flag_wait] *)

(** The registers, the lookup and the first look at [pattern]. *)
Definition wait_begin (bitptn mode : Z) (o : lv2_event_flag) (t : ef_thread) : step :=
  let o := upd_regs (t_id t) (Regs PENDING bitptn mode 0) o in
  if negb (check_mode mode) then ([Return CELL_EINVAL 0], o, t)
  else if exists_ o then
    let '(ok, pat, result) := check_pattern (pattern o) bitptn mode in
    let o := upd_regs (t_id t) (set_gpr6 result (regs o (t_id t))) o in
    if ok then ([Satisfied bitptn mode result], set_pattern pat o, t)
    else ([], add_reader 1 o, at_pc t (WaitSlow bitptn mode))
  else ([Return CELL_ESRCH 0], o, t).

Definition wait_slow (bitptn mode : Z) (o : lv2_event_flag) (t : ef_thread) : option step :=
  under_mutex o (Some (
    let o := add_reader (-1) o in
    let '(ok, pat, result) := check_pattern (pattern o) bitptn mode in
    let o := upd_regs (t_id t) (set_gpr6 result (regs o (t_id t))) o in
    if ok then ([Satisfied bitptn mode result], set_pattern pat o, at_pc t Idle)
    else if (type =? SYS_SYNC_WAITER_SINGLE) && negb (bool_decide (sq o = [])) then ([Return CELL_EPERM 0], o, at_pc t Idle)
    else
      let o := set_sq (emplace (sq o) (t_id t) (t_prio t) (order_tag o)) (set_tag (order_tag o + 1) o) in
      ([Slept (Waiter (t_id t) (t_prio t) (order_tag o)) bitptn mode], o, at_pc t Waiting))).

(** After the loop. *)
Definition wait_done (o : lv2_event_flag) (t : ef_thread) : step :=
  ([Return (gpr3 (regs o (t_id t))) (gpr6 (regs o (t_id t)))], clear_signal (t_id t) o, at_pc t Idle).

(** [test_and_reset(cpu_flag::signal)] *)
Definition wait_signal (o : lv2_event_flag) (t : ef_thread) : option step :=
  if bool_decide (t_id t ∈ signaled o) then Some (wait_done o t) else None.

(** [wait_timeout] has returned true.  An empty queue is left after the mutex
    was free once. *)
Definition wait_timeout (o : lv2_event_flag) (t : ef_thread) : option step :=
  under_mutex o (Some (
    match sq o with
    | [] => wait_done o t
    | _ =>
        let '(found, q) := unqueue (sq o) (t_id t) in
        if negb found then wait_done o t
        else
          let r := set_gpr6 (pattern o) (set_gpr3 CELL_ETIMEDOUT (regs o (t_id t))) in
          ([TimedOut (t_id t) (pattern o)], upd_regs (t_id t) r (set_sq q o), at_pc t Idle)
    end)).

(** [is_stopped(state)] *)
Definition wait_stopped (o : lv2_event_flag) (t : ef_thread) : option step :=
  under_mutex o (Some (
    if existsb (fun w => w_id w =? t_id t) (sq o)
    then ([Return 0 0], set_again (t_id t :: again o) o, at_pc t Stopped)
    else wait_done o t)).

(** *** [sys_event_flag_trywait] *)

Definition sys_event_flag_trywait (bitptn mode : Z) (o : lv2_event_flag) (t : ef_thread) : step :=
  if negb (check_mode mode) then ([Return CELL_EINVAL 0], o, t)
  else if exists_ o then
    let '(ok, pat, result) := check_pattern (pattern o) bitptn mode in
    if ok then ([Satisfied bitptn mode result], set_pattern pat o, t) else ([Return CELL_EBUSY 0], o, t)
  else ([Return CELL_ESRCH 0], o, t).

(** *** [sys_event_flag_set] *)

Definition set_begin (bitptn : Z) (o : lv2_event_flag) (t : ef_thread) : step :=
  if exists_ o then
    if Z.land (pattern o) bitptn =? bitptn then ([SetBits bitptn []], o, t) else ([], o, at_pc t (SetLock bitptn))
  else ([Return CELL_ESRCH 0], o, t).

(** [get_next]: the last thread of the queue that is not marked ([gpr[7]]) and,
    by priority, not less urgent than those found before. *)
Fixpoint get_next (marked : list Z) (prio : Z) (it : option waiter) (q : list waiter) : option waiter :=
  match q with
  | [] => it
  | w :: q =>
      if negb (bool_decide (w_id w ∈ marked)) && (negb (protocol =? SYS_SYNC_PRIORITY) || (w_prio w <=? prio))
      then get_next marked (w_prio w) (Some w) q
      else get_next marked prio it q
  end.

(** [smax] of [s32] *)
Definition prio_max : Z := 2 ^ 31 - 1.

(** What a pass over the sleeping threads leaves. *)
Record pass_result := Pass { p_to_write : Z; p_mask : Z; p_count : Z; p_regs : Z -> ef_regs; p_broke : bool }.

(** The loop over [get_next]; [None] when the fuel does not suffice. *)
Fixpoint pass (fuel : nat) (bitptn : Z) (q : list waiter) (marked : list Z) (to_write dependant_mask count : Z)
    (r : Z -> ef_regs) : option pass_result :=
  match fuel with
  | O => None
  | S fuel =>
      match get_next marked prio_max None q with
      | None => Some (Pass to_write dependant_mask count r false)
      | Some it =>
          let id := w_id it in
          let pattern := gpr4 (r id) in
          let mode := gpr5 (r id) in
          let dependant_mask_or :=
            if (Z.land mode 0xf =? SYS_EVENT_FLAG_WAIT_OR) || (Z.land (Z.land bitptn pattern) to_write =? pattern)
            then 0 else pattern in
          let '(ok, to_write, result) := check_pattern to_write pattern mode in
          if ok then
            let r := upd r id (set_gpr3 CELL_OK (set_gpr6 result (r id))) in
            let dependant_mask := Z.lor dependant_mask dependant_mask_or in
            if to_write =? 0 then Some (Pass to_write dependant_mask (count + 1) r true)
            else pass fuel bitptn q (id :: marked) to_write dependant_mask (count + 1) r
          else
            let r := upd r id (set_gpr3 PENDING (set_gpr6 result (r id))) in
            pass fuel bitptn q (id :: marked) to_write dependant_mask count r
      end
  end.

(** The pass over the whole queue for the pattern [loaded]. *)
Definition set_pass (bitptn loaded : Z) (o : lv2_event_flag) : option pass_result :=
  pass (S (length (sq o))) bitptn (sq o) [] (Z.lor loaded bitptn) 0 0 (regs o).

Definition set_cas_pc (bitptn loaded : Z) (p : pass_result) : ef_at :=
  SetCas bitptn loaded (p_to_write p) (p_mask p) (p_count p).

(** Up to the first pass, with the mutex taken. *)
Definition set_lock (bitptn : Z) (o : lv2_event_flag) (t : ef_thread) : option step :=
  under_mutex o (
    if any_again (is_again o) (sq o) then Some ([Return CELL_EAGAIN 0], set_again (t_id t :: again o) o, at_pc t Stopped)
    else
      p ← set_pass bitptn (pattern o) o;
      Some ([], set_locked (Some (t_id t)) (set_regs (p_regs p) o), at_pc t (set_cas_pc bitptn (pattern o) p))).

(** [fetch_op]; then another pass, or the threads are woken. *)
Definition set_cas (bitptn loaded to_write dependant_mask count : Z) (o : lv2_event_flag) (t : ef_thread) : option step :=
  let dependant_mask := Z.land dependant_mask (Z.lnot bitptn) in
  let x := pattern o in
  if negb (Z.land (Z.lxor x loaded) dependant_mask =? 0) then
    p ← set_pass bitptn x o;
    Some ([Retry (p_broke p)], set_regs (p_regs p) o, at_pc t (set_cas_pc bitptn x p))
  else
    let x := Z.land (Z.lor x bitptn) (Z.lnot (Z.land (Z.lor loaded bitptn) (Z.lnot to_write))) in
    let o := set_locked None (set_pattern x o) in
    if count =? 0 then Some ([SetBits bitptn []], o, at_pc t Idle)
    else
      let ready w := gpr3 (regs o (w_id w)) = CELL_OK in
      let woken := filter ready (sq o) in
      Some ([SetBits bitptn woken], wake woken (set_sq (filter (fun w => ~ ready w) (sq o)) o), at_pc t Idle).

(** *** The other calls *)

Definition sys_event_flag_clear (bitptn : Z) (o : lv2_event_flag) (t : ef_thread) : step :=
  if exists_ o then ([Cleared bitptn], set_pattern (Z.land (pattern o) bitptn) o, t) else ([Return CELL_ESRCH 0], o, t).

Definition cancel_begin (o : lv2_event_flag) (t : ef_thread) : step :=
  if exists_ o then ([], o, at_pc t CancelLock) else ([Return CELL_ESRCH 0], o, t).

Definition cancel_lock (o : lv2_event_flag) (t : ef_thread) : option step :=
  under_mutex o (
    if any_again (is_again o) (sq o) then Some ([Return 0 0], set_again (t_id t :: again o) o, at_pc t Stopped)
    else
      ws ← drain (is_again o) (S (length (sq o))) (sq o) [];
      let r := foldl (fun r w => upd r (w_id w) (set_gpr6 (pattern o) (set_gpr3 CELL_ECANCELED (r (w_id w))))) (regs o) ws in
      Some ([Cancelled ws], wake ws (set_sq [] (set_regs r o)), at_pc t Idle)).

(** [flags]: the pointer is not null. *)
Definition sys_event_flag_get (flags : bool) (o : lv2_event_flag) (t : ef_thread) : step :=
  if exists_ o then
    if flags then ([Return CELL_OK (pattern o)], o, t) else ([Return CELL_EFAULT 0], o, t)
  else ([Return CELL_ESRCH 0], o, t).

Definition sys_event_flag_destroy (o : lv2_event_flag) (t : ef_thread) : option step :=
  if negb (idm_readers o =? 0) then None (* waits for the lock *)
  else if exists_ o then
    match sq o with
    | _ :: _ => Some ([Return CELL_EBUSY 0], o, t)
    | [] => Some ([Destroyed], set_exists false o, t)
    end
  else Some ([Return CELL_ESRCH 0], o, t).

(** *** One step of a thread *)

Inductive ef_action :=
| AWait (bitptn mode : Z) | ATryWait (bitptn mode : Z) | ASet (bitptn : Z) | AClear (bitptn : Z) | ACancel
| AGet (flags : bool) | ADestroy
| AGo | ATimeout | AStop.

Definition ef_tstep (a : ef_action) (o : lv2_event_flag) (t : ef_thread) : option step :=
  match t_at t, a with
  | Idle, AWait bitptn mode => Some (wait_begin (u64 bitptn) (u32 mode) o t)
  | Idle, ATryWait bitptn mode => Some (sys_event_flag_trywait (u64 bitptn) (u32 mode) o t)
  | Idle, ASet bitptn => Some (set_begin (u64 bitptn) o t)
  | Idle, AClear bitptn => Some (sys_event_flag_clear (u64 bitptn) o t)
  | Idle, ACancel => Some (cancel_begin o t)
  | Idle, AGet flags => Some (sys_event_flag_get flags o t)
  | Idle, ADestroy => sys_event_flag_destroy o t
  | WaitSlow bitptn mode, AGo => wait_slow bitptn mode o t
  | Waiting, AGo => wait_signal o t
  | Waiting, ATimeout => wait_timeout o t
  | Waiting, AStop => wait_stopped o t
  | SetLock bitptn, AGo => set_lock bitptn o t
  | SetCas bitptn loaded to_write dependant_mask count, AGo => set_cas bitptn loaded to_write dependant_mask count o t
  | CancelLock, AGo => cancel_lock o t
  | _, _ => None
  end.

End EventFlag.

(** Threads before their first call, on a flag just created. *)
Definition ef_initial (init : Z) (ts : list (Z * Z)) : system :=
  System (MkFlag (u64 init) [] (fun _ => Regs 0 0 0 0) None 0 [] [] true 0) (map (fun '(id, prio) => EfThread id prio Idle) ts).

Definition ef_run (protocol type init : Z) (ts : list (Z * Z)) :=
  run_schedule (ef_tstep protocol type) (ef_initial init ts).

(** ** The abstract event flag *)

Record flag := Flag { f_pattern : Z; f_sleepers : list waiter; f_cond : Z -> Z * Z; f_alive : bool }.

Definition meets (pattern : Z) (cond : Z * Z) : bool := satisfies pattern cond.1 cond.2.

(** Threads are served one by one: whoever is satisfied goes, and takes the
    flags its mode clears. *)
Fixpoint serve (cond : Z -> Z * Z) (order : list waiter) (pattern : Z) : list waiter * Z :=
  match order with
  | [] => ([], pattern)
  | w :: order =>
      let '(ok, pattern, _) := check_pattern pattern (cond (w_id w)).1 (cond (w_id w)).2 in
      let '(woken, pattern) := serve cond order pattern in
      (if ok then w :: woken else woken, pattern)
  end.

Inductive ef_spec (protocol type : Z) : flag -> nat * ef_event -> flag -> Prop :=
| spec_satisfied t p q c bitptn mode p' result : check_pattern p bitptn mode = (true, p', result) ->
    ef_spec protocol type (Flag p q c true) (t, Satisfied bitptn mode result) (Flag p' q c true)
| spec_slept t p q c w bitptn mode : satisfies p bitptn mode = false -> (type = SYS_SYNC_WAITER_SINGLE -> q = []) ->
    ef_spec protocol type (Flag p q c true) (t, Slept w bitptn mode) (Flag p (w :: q) (upd c (w_id w) (bitptn, mode)) true)
| spec_set t p q c b bitptn order woken p' :
    takes protocol q order [] -> serve c order (Z.lor p bitptn) = (woken, p') ->
    ef_spec protocol type (Flag p q c b) (t, SetBits bitptn (filter (fun w => w_id w ∈ map w_id woken) q))
      (Flag p' (filter (fun w => w_id w ∉ map w_id woken) q) c b)
| spec_retry t a broke : ef_spec protocol type a (t, Retry broke) a
| spec_cleared t p q c mask : ef_spec protocol type (Flag p q c true) (t, Cleared mask) (Flag (Z.land p mask) q c true)
| spec_cancelled t p q c b ws : takes SYS_SYNC_FIFO q ws [] ->
    ef_spec protocol type (Flag p q c b) (t, Cancelled ws) (Flag p [] c b)
| spec_timed_out t p q c b id : id ∈ map w_id q ->
    ef_spec protocol type (Flag p q c b) (t, TimedOut id p) (Flag p (without id q) c b)
| spec_destroyed t p c : ef_spec protocol type (Flag p [] c true) (t, Destroyed) (Flag p [] c false)
| spec_return t a code result : ef_spec protocol type a (t, Return code result) a.
