(* ===== verification/Lv2EventFlagProofs.v ===== *)
(** * LV2 kernel: event flags, correctness

    A pass of [sys_event_flag_set] decides as if the sleeping threads were
    served one by one from the pattern its compare and swap meets, and every
    interleaving in which no retried pass is cut short refines the abstract
    flag.  A retried pass that is cut short can wake a thread for flags that
    another thread has taken ([stale_wakeup]). *)
From S2P Require Import Prelude Threads Lv2Queue Lv2EventFlag.
From Stdlib Require Import Sorted.

(** ** Sets of flags *)

Definition sub (a b : Z) : Prop := forall i, Z.testbit a i = true -> Z.testbit b i = true.

Lemma land_sub p b : Z.land p b = b <-> sub b p.
Proof.
  split.
  - intros <- i. rewrite Z.land_spec. by intros [H _]%andb_true_iff.
  - intros H. apply Z.bits_inj'. intros i _. rewrite Z.land_spec. specialize (H i).
    destruct (Z.testbit b i); [by rewrite H|by rewrite andb_false_r].
Qed.

Lemma nonzero_bit x : x <> 0 -> exists i, Z.testbit x i = true.
Proof.
  intros Hx. destruct (Z.lt_ge_cases x 0) as [Hn|Hp].
  - exists (Z.succ (Z.log2 (Z.pred (- x)))). apply Z.bits_above_log2_neg; lia.
  - exists (Z.log2 x). apply Z.bit_log2. lia.
Qed.

Lemma land_nonzero p b : Z.land p b <> 0 <-> exists i, Z.testbit p i = true /\ Z.testbit b i = true.
Proof.
  split.
  - intros [i H]%nonzero_bit. rewrite Z.land_spec in H. apply andb_true_iff in H. by exists i.
  - intros (i & H1 & H2) E. apply (f_equal (fun x => Z.testbit x i)) in E. by rewrite Z.land_spec, H1, H2, Z.bits_0 in E.
Qed.

Lemma sub_refl a : sub a a.
Proof. by intros i. Qed.

Lemma sub_land a b : sub (Z.land a b) a.
Proof. intros i. rewrite Z.land_spec. by intros [H _]%andb_true_iff. Qed.

Lemma sub_trans a b c : sub a b -> sub b c -> sub a c.
Proof. intros H1 H2 i H. auto. Qed.

(** ** Conditions *)

Lemma satisfies_spec p b mode : satisfies p b mode = true <->
  (Z.land mode 0xf = SYS_EVENT_FLAG_WAIT_AND -> sub b p) /\
  (Z.land mode 0xf = SYS_EVENT_FLAG_WAIT_OR -> exists i, Z.testbit p i = true /\ Z.testbit b i = true).
Proof.
  unfold satisfies. rewrite negb_true_iff, orb_false_iff, !andb_false_iff, negb_false_iff, !Z.eqb_neq, Z.eqb_eq, land_sub, land_nonzero.
  destruct (Z.eq_dec (Z.land mode 0xf) SYS_EVENT_FLAG_WAIT_AND), (Z.eq_dec (Z.land mode 0xf) SYS_EVENT_FLAG_WAIT_OR); intuition congruence.
Qed.

Lemma satisfies_mono p p' b mode : sub p p' -> satisfies p b mode = true -> satisfies p' b mode = true.
Proof.
  intros Hs [H1 H2]%satisfies_spec. apply satisfies_spec. split.
  - intros E. by apply (sub_trans _ p); [apply H1|].
  - intros E. destruct (H2 E) as (i & Hp & Hb). exists i. split; [by apply Hs|done].
Qed.

Lemma unsatisfied_mono p p' b mode : sub p p' -> satisfies p' b mode = false -> satisfies p b mode = false.
Proof. intros Hs H. destruct (satisfies p b mode) eqn:E; [|done]. by rewrite (satisfies_mono p p') in H. Qed.

(** The pattern after a condition is met. *)
Definition after (p b mode : Z) : Z :=
  let high := Z.land mode (Z.lnot 0xf) in
  if high =? SYS_EVENT_FLAG_WAIT_CLEAR then Z.land p (Z.lnot b) else if high =? SYS_EVENT_FLAG_WAIT_CLEAR_ALL then 0 else p.

Lemma check_pattern_eq p b mode :
  check_pattern p b mode = if satisfies p b mode then (true, after p b mode, p) else (false, p, p).
Proof. unfold check_pattern, after. by destruct (satisfies p b mode). Qed.

Lemma after_sub p b mode : sub (after p b mode) p.
Proof. unfold after. destruct (_ =? _); [apply sub_land|]. destruct (_ =? _); [|apply sub_refl]. intros i. by rewrite Z.bits_0. Qed.

(** Clearing is pointwise. *)
Lemma after_land p p' b mode : sub p' p -> after p' b mode = Z.land p' (after p b mode).
Proof.
  intros Hs. unfold after. destruct (_ =? _); [|destruct (_ =? _)].
  - apply Z.bits_inj'. intros i _. specialize (Hs i). rewrite !Z.land_spec. destruct (Z.testbit p' i); [|done]. by rewrite Hs.
  - by rewrite Z.land_0_r.
  - apply Z.bits_inj'. intros i _. specialize (Hs i). rewrite Z.land_spec. destruct (Z.testbit p' i); [|done]. by rewrite Hs.
Qed.

(** ** Serving one by one *)

Lemma serve_cons cond w order p : serve cond (w :: order) p =
  if meets p (cond (w_id w))
  then let s := serve cond order (after p (cond (w_id w)).1 (cond (w_id w)).2) in (w :: s.1, s.2)
  else serve cond order p.
Proof.
  cbn [serve]. rewrite check_pattern_eq. unfold meets. by destruct (satisfies _ _ _), (serve cond order _).
Qed.

(** Nobody is served from a pattern that satisfies nobody. *)
Lemma serve_none cond order p : (forall w, w ∈ order -> meets p (cond (w_id w)) = false) -> serve cond order p = ([], p).
Proof.
  induction order as [|w order IH]; intros H; [done|]. rewrite serve_cons, (H w) by left. apply IH. intros w' Hw. apply H. by right.
Qed.

Lemma serve_sub cond order p : sub (serve cond order p).2 p.
Proof.
  revert p. induction order as [|w order IH]; intros p; [apply sub_refl|]. rewrite serve_cons. destruct (meets _ _); [|apply IH].
  cbn. eapply sub_trans; [apply IH|apply after_sub].
Qed.

Lemma serve_woken cond order p w : w ∈ (serve cond order p).1 -> w ∈ order.
Proof.
  revert p. induction order as [|x order IH]; intros p; [done|]. rewrite serve_cons. destruct (meets _ _).
  - intros [->|Hw]%elem_of_cons; [left|right; by eapply IH].
  - intros Hw. right. by eapply IH.
Qed.

Lemma serve_woken_ids cond order p id : id ∈ map w_id (serve cond order p).1 -> id ∈ map w_id order.
Proof. intros (w & -> & Hw)%list_elem_of_fmap. by eapply elem_of_ids, serve_woken. Qed.

(** Whoever is left over is not satisfied by what is left. *)
Lemma serve_left cond order p w : NoDup (map w_id order) -> w ∈ order -> w_id w ∉ map w_id (serve cond order p).1 ->
  meets (serve cond order p).2 (cond (w_id w)) = false.
Proof.
  revert p. induction order as [|x order IH]; intros p Hnd Hw; [by apply not_elem_of_nil in Hw|].
  cbn in Hnd. apply NoDup_cons in Hnd as [Hx Hnd]. rewrite serve_cons. destruct (meets p (cond (w_id x))) eqn:E; cbn.
  - intros [Hne Hn]%not_elem_of_cons. apply elem_of_cons in Hw as [->|Hw]; [done|]. by apply IH.
  - intros Hn. apply elem_of_cons in Hw as [->|Hw]; [|by apply IH]. eapply unsatisfied_mono; [apply serve_sub|exact E].
Qed.

(** ** The order of a pass *)

Definition unmarked (marked : list Z) (q : list waiter) : list waiter := List.filter (fun w => negb (bool_decide (w_id w ∈ marked))) q.

Lemma unmarked_nil q : unmarked [] q = q.
Proof. induction q as [|w q IH]; cbn; [done|]. by f_equal. Qed.

Lemma without_filter id q : without id q = List.filter (fun w => negb (w_id w =? id)) q.
Proof. induction q as [|w q IH]; [done|]. rewrite without_cons. cbn. destruct (_ =? _); cbn; by rewrite IH. Qed.

Lemma unmarked_cons id marked q : unmarked (id :: marked) q = without id (unmarked marked q).
Proof.
  rewrite without_filter. unfold unmarked. induction q as [|w q IH]; [done|]. cbn [List.filter].
  assert (bool_decide (w_id w ∈ id :: marked) = (w_id w =? id) || bool_decide (w_id w ∈ marked)) as ->.
  { apply eq_true_iff_eq. rewrite orb_true_iff, !bool_decide_eq_true, elem_of_cons, Z.eqb_eq. tauto. }
  destruct (bool_decide (w_id w ∈ marked)); cbn [negb List.filter]; [by rewrite orb_true_r|]. rewrite orb_false_r.
  destruct (w_id w =? id); cbn; by rewrite IH.
Qed.

(** Every queue can be served to the end. *)
Lemma takes_all protocol tag q : queue_wf tag q -> exists ws, takes protocol q ws [].
Proof.
  remember (length q) as n eqn:Hn. revert q Hn. induction n as [|n IH]; intros q Hn Hq.
  - destruct q; [|done]. exists []. constructor.
  - destruct (schedule_unmarked (fun _ => false) tag q protocol Hq) as (w & rest & _ & Hf); [done|by intros ->|].
    destruct (takes_first_wf _ _ _ _ _ Hq Hf) as [Hwf Hlen]. destruct (IH rest) as [ws Hws]; [lia|done|]. exists (w :: ws). by econstructor.
Qed.

Section Pass.
Context (protocol : Z) (Hp : protocol = SYS_SYNC_FIFO \/ protocol = SYS_SYNC_PRIORITY).

Lemma get_next_unmarked marked prio it q : get_next protocol marked prio it q = get_next protocol [] prio it (unmarked marked q).
Proof.
  revert prio it. induction q as [|w q IH]; intros prio it; [done|]. cbn [get_next unmarked List.filter].
  destruct (bool_decide (w_id w ∈ marked)); cbn [negb andb get_next]; [apply IH|]. destruct (_ || _); apply IH.
Qed.

Lemma get_next_last l w prio it : protocol = SYS_SYNC_FIFO -> get_next protocol [] prio it (l ++ [w]) = Some w.
Proof. intros ->. revert prio it. induction l as [|x l IH]; intros prio it; cbn; [done|apply IH]. Qed.

(** The search by priority keeps the best of the threads it has seen. *)
Lemma get_next_best seen best q : protocol = SYS_SYNC_PRIORITY -> best ∈ seen ->
  (forall w, w ∈ seen -> w = best \/ before protocol best w) -> StronglySorted (fun w w' => w_order w' < w_order w) (seen ++ q) ->
  exists w, get_next protocol [] (w_prio best) (Some best) q = Some w /\ w ∈ seen ++ q /\
    forall w', w' ∈ seen ++ q -> w' = w \/ before protocol w w'.
Proof.
  intros ->. revert seen best. induction q as [|x q IH]; intros seen best Hin Hb Hs.
  { exists best. rewrite app_nil_r. done. }
  rewrite (cons_middle x seen q), (app_assoc seen) in Hs |- *.
  assert (w_order x < w_order best) as Ho.
  { clear -Hin Hs. rewrite <- app_assoc in Hs. induction seen as [|y seen IHs]; [by apply not_elem_of_nil in Hin|].
    cbn in Hs. apply StronglySorted_inv in Hs as [Hs Hy]. apply elem_of_cons in Hin as [->|Hin]; [|by apply IHs].
    eapply Forall_forall in Hy; [exact Hy|]. apply elem_of_app. right. left. }
  cbn [get_next]. change (negb (bool_decide (w_id x ∈ [])) && (negb (SYS_SYNC_PRIORITY =? SYS_SYNC_PRIORITY) || (w_prio x <=? w_prio best)))
    with (w_prio x <=? w_prio best). destruct (Z.leb_spec (w_prio x) (w_prio best)); apply IH; try done; try (apply elem_of_app; by (left + (right; left))).
  - intros w [Hw|Hw%list_elem_of_singleton]%elem_of_app; [|by left]. right. destruct (Hb w Hw) as [->|Hbw]; unfold before in *; cbn in *; lia.
  - intros w [Hw|Hw%list_elem_of_singleton]%elem_of_app; [by apply Hb|]. subst w. right. unfold before. cbn. lia.
Qed.

Lemma get_next_pick tag q : queue_wf tag q -> (forall w, w ∈ q -> w_prio w <= prio_max) -> q <> [] ->
  exists w, get_next protocol [] prio_max None q = Some w /\ takes_first protocol q w (without (w_id w) q).
Proof.
  intros [Hnd Hs Ht] Hmax Hne.
  assert (exists w, get_next protocol [] prio_max None q = Some w /\ w ∈ q /\ forall w', w' ∈ q -> w' = w \/ before protocol w w') as (w & Hw & Hin & Hb).
  { destruct Hp as [E|E].
    - destruct (exists_last Hne) as (l & w & ->). exists w. rewrite get_next_last by done.
      split_and!; [done|apply elem_of_app; right; left|]. intros w' [H|H%list_elem_of_singleton]%elem_of_app; [|by left]. right. rewrite E. unfold before. cbn.
      clear -H Hs. induction l as [|y l IH]; [by apply not_elem_of_nil in H|].
      cbn in Hs. apply StronglySorted_inv in Hs as [Hs Hy]. apply elem_of_cons in H as [->|H]; [|by apply IH].
      eapply Forall_forall in Hy; [exact Hy|]. apply elem_of_app. right. left.
    - destruct q as [|x q]; [done|]. cbn [get_next]. rewrite (proj2 (Z.leb_le (w_prio x) prio_max)) by (apply Hmax; left). rewrite orb_true_r. cbn [negb andb bool_decide].
      apply (get_next_best [x] x q); [done|left|by intros w ->%list_elem_of_singleton; left|done]. }
  exists w. split; [done|]. split; [done|]. split; [done|]. by apply before_without.
Qed.

Lemma unmarked_elem marked q w : w ∈ unmarked marked q -> w ∈ q.
Proof. unfold unmarked. intros [Hw _]%list_elem_of_In%filter_In. by apply list_elem_of_In. Qed.

Lemma get_next_spec marked tag q : queue_wf tag (unmarked marked q) -> (forall w, w ∈ q -> w_prio w <= prio_max) ->
  (unmarked marked q = [] /\ get_next protocol marked prio_max None q = None) \/
  exists w, get_next protocol marked prio_max None q = Some w /\ takes_first protocol (unmarked marked q) w (unmarked (w_id w :: marked) q).
Proof.
  intros Hq Hmax. rewrite get_next_unmarked. destruct (unmarked marked q) as [|x rem] eqn:E; [by left|right].
  destruct (get_next_pick tag (x :: rem) Hq) as (w & Hw & Hf); [|done|].
  - intros w Hw. apply Hmax. rewrite <- E in Hw. by eapply unmarked_elem.
  - exists w. split; [done|]. by rewrite unmarked_cons, E.
Qed.

(** *** A decision that survives the loss of flags *)

Definition mask_or (b T : Z) (c : Z * Z) : Z :=
  if (Z.land c.2 0xf =? SYS_EVENT_FLAG_WAIT_OR) || (Z.land (Z.land b c.1) T =? c.1) then 0 else c.1.

(** A condition to wait for any of several flags holds through new flags only. *)
Definition by_new (b T : Z) (c : Z * Z) : Prop :=
  Z.land c.2 0xf = SYS_EVENT_FLAG_WAIT_OR -> forall i, Z.testbit T i = true -> Z.testbit c.1 i = true -> Z.testbit b i = true.

(** [T2] has the flags of [T] that are new or in the mask. *)
Definition keeps (b mask T T2 : Z) : Prop :=
  forall i, Z.testbit b i = true \/ Z.testbit mask i = true -> Z.testbit T i = true -> Z.testbit T2 i = true.

Lemma meets_stale b mask T T2 c : sub T2 T -> keeps b mask T T2 -> sub (mask_or b T c) mask -> by_new b T c -> meets 0 c = false ->
  meets T2 c = meets T c.
Proof.
  intros Hs Hk Hm Hn H0. destruct (meets T c) eqn:E; [|by eapply unsatisfied_mono]. unfold meets in *.
  apply satisfies_spec in E as [E1 E2]. apply satisfies_spec. split.
  - intros Hand i Hi. pose proof (E1 Hand i Hi) as HT. apply (Hk i); [|done]. unfold mask_or in Hm. rewrite Hand in Hm. cbn [orb Z.eqb SYS_EVENT_FLAG_WAIT_AND SYS_EVENT_FLAG_WAIT_OR Pos.eqb] in Hm.
    destruct (Z.eqb_spec (Z.land (Z.land b c.1) T) c.1) as [Eb|Eb]; [left|right; by apply Hm].
    rewrite <- Eb, !Z.land_spec in Hi. by destruct (Z.testbit b i).
  - intros Hor. destruct (E2 Hor) as (i & HT & Hi). exists i. split; [|done]. apply (Hk i); [left; by apply Hn|done].
Qed.

(** What a pass over [rem], served in [order], leaves. *)
Record pass_ok (b : Z) (cond : Z -> Z * Z) (rem order : list waiter) (T mask count : Z) (r : Z -> ef_regs) (p : pass_result) : Prop := PassOk {
  po_write : p_to_write p = (serve cond order T).2;
  po_count : p_count p = count + Z.of_nat (length (serve cond order T).1);
  po_cond : forall id, gpr4 (p_regs p id) = gpr4 (r id) /\ gpr5 (p_regs p id) = gpr5 (r id);
  po_other : forall id, id ∉ map w_id rem -> p_regs p id = r id;
  po_woken : forall w, w ∈ rem -> w_id w ∈ map w_id (serve cond order T).1 -> gpr3 (p_regs p (w_id w)) = CELL_OK;
  po_asleep : forall w, w ∈ rem -> w_id w ∉ map w_id (serve cond order T).1 ->
    gpr3 (p_regs p (w_id w)) = PENDING \/ (p_broke p = true /\ gpr3 (p_regs p (w_id w)) = gpr3 (r (w_id w)));
  po_mask : sub mask (p_mask p);
  po_stale : forall T2, sub T2 T -> keeps b (p_mask p) T T2 -> (forall w, w ∈ rem -> by_new b T (cond (w_id w))) ->
    serve cond order T2 = ((serve cond order T).1, Z.land T2 (serve cond order T).2) }.
Lemma pass_ok_none b cond T mask count r : pass_ok b cond [] [] T mask count r (Pass T mask count r false).
Proof.
  split; cbn; try done; try lia; try (by intros w ?%not_elem_of_nil); [apply sub_refl|].
  intros T2 Hs _ _. f_equal. symmetry. by rewrite Z.land_comm, (proj2 (land_sub T T2)).
Qed.

(** Nothing is left to give. *)
Lemma serve_zero cond order : (forall w, w ∈ order -> meets 0 (cond (w_id w)) = false) -> serve cond order 0 = ([], 0).
Proof. apply serve_none. Qed.

Lemma by_new_sub b T T' c : sub T' T -> by_new b T c -> by_new b T' c.
Proof. intros Hs H Ho i Hi. apply H; [done|by apply Hs]. Qed.

(** The registers after one thread has been looked at. *)
Definition looked (r : Z -> ef_regs) (id v result : Z) : Z -> ef_regs := upd r id (set_gpr3 v (set_gpr6 result (r id))).

Lemma looked_cond r id v x id' : gpr4 (looked r id v x id') = gpr4 (r id') /\ gpr5 (looked r id v x id') = gpr5 (r id').
Proof. unfold looked, upd. destruct (Z.eqb_spec id' id) as [->|]; done. Qed.

Section Steps.
Context (b : Z) (cond : Z -> Z * Z) (rem order : list waiter) (w : waiter) (T mask count : Z) (r : Z -> ef_regs).
Context (Hf : takes_first protocol rem w (without (w_id w) rem)) (Ht : takes protocol (without (w_id w) rem) order []).
Context (H0 : forall w', w' ∈ rem -> meets 0 (cond (w_id w')) = false).

Lemma order_rem w' : w' ∈ order -> w' ∈ rem.
Proof. intros H. eapply without_elem, takes_taken; [exact Ht|exact H]. Qed.

Lemma order_not_first p : w_id w ∉ map w_id (serve cond order p).1.
Proof. intros [_ Hne]%serve_woken_ids%(proj2 (takes_ids _ _ _ _ Ht))%without_ids. done. Qed.

Lemma rem_split w' : w' ∈ rem -> w_id w' = w_id w \/ w' ∈ without (w_id w) rem.
Proof. intros H. destruct (Z.eq_dec (w_id w') (w_id w)); [by left|right]. by apply without_elem. Qed.

(** The thread is not satisfied. *)
Lemma pass_ok_asleep p x : meets T (cond (w_id w)) = false ->
  pass_ok b cond (without (w_id w) rem) order T mask count (looked r (w_id w) PENDING x) p -> pass_ok b cond rem (w :: order) T mask count r p.
Proof.
  intros Hm [P1 P2 P3 P4 P5 P6 P7 P8]. assert (gpr3 (p_regs p (w_id w)) = PENDING) as Hw.
  { rewrite P4; [|by intros [_ ?]%without_ids]. unfold looked. by rewrite upd_eq. }
  split; rewrite ?serve_cons, ?Hm; try done.
  - intros id. destruct (P3 id) as [-> ->]. apply looked_cond.
  - intros id Hid. rewrite P4 by (by rewrite without_ids; tauto). unfold looked. rewrite upd_ne; [done|]. intros ->. destruct Hid. apply elem_of_ids, Hf.
  - intros w' Hw' Hin. destruct (rem_split w' Hw') as [E|Hr]; [|by apply P5]. rewrite E in Hin. by apply order_not_first in Hin.
  - intros w' Hw' Hin. destruct (rem_split w' Hw') as [E|Hr]; [left; by rewrite E|]. destruct (P6 w' Hr Hin) as [|[Hb E]]; [by left|right].
    split; [done|]. rewrite E. unfold looked. rewrite upd_ne; [done|]. by apply without_elem in Hr as [_ Hr].
  - intros T2 Hs Hk Hn. rewrite serve_cons. rewrite (unsatisfied_mono T2 T _ _ Hs Hm : meets T2 (cond (w_id w)) = false). apply P8; [done|done|].
    intros w' Hr. apply Hn. by apply without_elem in Hr as [Hr _].
Qed.

(** The thread is satisfied. *)
Lemma pass_ok_woken p x : let T1 := after T (cond (w_id w)).1 (cond (w_id w)).2 in meets T (cond (w_id w)) = true ->
  pass_ok b cond (without (w_id w) rem) order T1 (Z.lor mask (mask_or b T (cond (w_id w)))) (count + 1) (looked r (w_id w) CELL_OK x) p ->
  pass_ok b cond rem (w :: order) T mask count r p.
Proof.
  intros T1 Hm [P1 P2 P3 P4 P5 P6 P7 P8]. assert (gpr3 (p_regs p (w_id w)) = CELL_OK) as Hw.
  { rewrite P4; [|by intros [_ ?]%without_ids]. unfold looked. by rewrite upd_eq. }
  assert (sub mask (p_mask p) /\ sub (mask_or b T (cond (w_id w))) (p_mask p)) as [Hm1 Hm2].
  { split; intros i Hi; apply P7; rewrite Z.lor_spec, Hi; [done|by rewrite orb_true_r]. }
  split; rewrite ?serve_cons, ?Hm; cbn [fst snd map length]; fold T1; try done.
  - rewrite P2. lia.
  - intros id. destruct (P3 id) as [-> ->]. apply looked_cond.
  - intros id Hid. rewrite P4 by (by rewrite without_ids; tauto). unfold looked. rewrite upd_ne; [done|]. intros ->. destruct Hid. apply elem_of_ids, Hf.
  - intros w' Hw' Hin. destruct (rem_split w' Hw') as [E|Hr]; [by rewrite E|]. apply P5; [done|].
    apply elem_of_cons in Hin as [E|Hin]; [|done]. by apply without_elem in Hr as [_ Hr].
  - intros w' Hw' [Hne Hin]%not_elem_of_cons. destruct (rem_split w' Hw') as [E|Hr]; [done|]. destruct (P6 w' Hr Hin) as [|[Hb E]]; [by left|right].
    split; [done|]. rewrite E. unfold looked. by rewrite upd_ne.
  - intros T2 Hs Hk Hn. assert (meets T2 (cond (w_id w)) = true) as Hm'.
    { rewrite <- Hm. apply (meets_stale b (p_mask p)); [done|done|done|apply Hn, Hf|apply H0, Hf]. }
    rewrite serve_cons, Hm'. rewrite (after_land T T2) by done. fold T1. pose proof (after_sub T (cond (w_id w)).1 (cond (w_id w)).2) as Ha. fold T1 in Ha.
    rewrite (P8 (Z.land T2 T1)); cbn.
    + f_equal. rewrite <- Z.land_assoc. f_equal. rewrite Z.land_comm. apply Z.bits_inj'. intros i _. pose proof (serve_sub cond order T1 i) as Hx.
      rewrite Z.land_spec. destruct (Z.testbit _ i); [by rewrite Hx|done].
    + intros i. rewrite Z.land_spec. by intros [_ ?]%andb_true_iff.
    + intros i Hi HT1. rewrite Z.land_spec, HT1, andb_true_r. by apply Hk, Ha.
    + intros w' [Hr _]%without_elem. by apply (by_new_sub b T); [|apply Hn].
Qed.
End Steps.
Lemma pass_spec b tag q cond fuel : (forall w, w ∈ q -> w_prio w <= prio_max) ->
  forall marked T mask count r, queue_wf tag (unmarked marked q) -> (length (unmarked marked q) < fuel)%nat ->
  (forall w, w ∈ unmarked marked q -> cond (w_id w) = (gpr4 (r (w_id w)), gpr5 (r (w_id w)))) ->
  (forall w, w ∈ unmarked marked q -> meets 0 (cond (w_id w)) = false) ->
  exists p order, pass protocol fuel b q marked T mask count r = Some p /\ takes protocol (unmarked marked q) order [] /\
    pass_ok b cond (unmarked marked q) order T mask count r p.
Proof.
  intros Hmax. induction fuel as [|fuel IH]; intros marked T mask count r Hq Hlen Hc H0; [lia|]. cbn [pass].
  destruct (get_next_spec marked tag q Hq Hmax) as [[E ->]|(w & -> & Hf)].
  { rewrite E. eexists _, []. split; [done|]. split; [constructor|apply pass_ok_none]. }
  rewrite unmarked_cons in Hf. destruct (takes_first_wf _ _ _ _ _ Hq Hf) as [Hwf Hl]. pose proof Hf as (Hin & _ & _).
  pose proof (Hc w Hin) as Hcw. replace (gpr4 (r (w_id w))) with (cond (w_id w)).1 by (by rewrite Hcw).
  replace (gpr5 (r (w_id w))) with (cond (w_id w)).2 by (by rewrite Hcw).
  rewrite check_pattern_eq. fold (mask_or b T (cond (w_id w))). fold (meets T (cond (w_id w))).
  set (c := cond (w_id w)) in *. set (rem := unmarked marked q) in *.
  destruct (meets T c) eqn:Em.
  - destruct (Z.eqb_spec (after T c.1 c.2) 0) as [E|E].
    + destruct (takes_all protocol tag (without (w_id w) rem) Hwf) as [order Ht].
      eexists _, (w :: order). split; [done|]. split; [by econstructor|]. apply (pass_ok_woken b cond rem order w T mask count r Hf H0 _ T); [done|].
      assert (serve cond order 0 = ([], 0)) as Hs by (apply serve_zero; intros w' Hw'; by apply H0, (order_rem rem order w Ht)).
      fold c. rewrite E. split; rewrite ?Hs; cbn; try done.
      * lia.
      * by intros w' _ ?%not_elem_of_nil.
      * intros w' Hw' _. right. done.
      * apply sub_refl.
      * intros T2 Hs2 _ _. assert (T2 = 0) as ->.
        { apply Z.bits_inj'. intros i _. specialize (Hs2 i). rewrite Z.bits_0 in *. by destruct (Z.testbit T2 i); [discriminate Hs2|]. }
        by rewrite Hs.
    + destruct (IH (w_id w :: marked) (after T c.1 c.2) (Z.lor mask (mask_or b T c)) (count + 1) (looked r (w_id w) CELL_OK T))
        as (p & order & Hpass & Ht & Hok); rewrite ?unmarked_cons; fold rem; try done; try lia.
      * intros w' [Hw' Hne]%without_elem. destruct (looked_cond r (w_id w) CELL_OK T (w_id w')) as [-> ->]. by apply Hc.
      * intros w' [Hw' Hne]%without_elem. by apply H0.
      * rewrite unmarked_cons in Ht, Hok. fold rem in Ht, Hok. exists p, (w :: order). split; [exact Hpass|]. split; [by econstructor|].
        by apply (pass_ok_woken b cond rem order w T mask count r Hf H0 _ T).
  - destruct (IH (w_id w :: marked) T mask count (looked r (w_id w) PENDING T))
      as (p & order & Hpass & Ht & Hok); rewrite ?unmarked_cons; fold rem; try done; try lia.
    + intros w' [Hw' Hne]%without_elem. destruct (looked_cond r (w_id w) PENDING T (w_id w')) as [-> ->]. by apply Hc.
    + intros w' [Hw' Hne]%without_elem. by apply H0.
    + rewrite unmarked_cons in Ht, Hok. fold rem in Ht, Hok. exists p, (w :: order). split; [exact Hpass|]. split; [by econstructor|].
      by apply (pass_ok_asleep b cond rem order w T mask count r Hf Ht _ T).
Qed.
End Pass.

(** *** The pass of [sys_event_flag_set] *)

(** The condition a thread has left in its registers. *)
Definition reg_cond (r : Z -> ef_regs) (id : Z) : Z * Z := (gpr4 (r id), gpr5 (r id)).

(** The pattern the compare and swap writes, and when it does. *)
Definition new_pattern (b loaded to_write x : Z) : Z := Z.land (Z.lor x b) (Z.lnot (Z.land (Z.lor loaded b) (Z.lnot to_write))).
Definition unchanged (b loaded mask x : Z) : Prop := Z.land (Z.lxor x loaded) (Z.land mask (Z.lnot b)) = 0.

(** The decision of a pass: whoever is to wake up has [CELL_OK] in [gpr[3]],
    and serving the threads one by one from the pattern the compare and swap
    meets wakes the same threads and leaves the pattern it writes. *)
Definition decided (protocol b loaded to_write mask count : Z) (cond : Z -> Z * Z) (q : list waiter) (r : Z -> ef_regs) : Prop :=
  exists order woken, takes protocol q order [] /\ count = Z.of_nat (length woken) /\ (forall w, w ∈ woken -> w ∈ q) /\
    (forall w, w ∈ q -> gpr3 (r (w_id w)) = CELL_OK <-> w_id w ∈ map w_id woken) /\
    forall x, sub x loaded -> unchanged b loaded mask x -> serve cond order (Z.lor x b) = (woken, new_pattern b loaded to_write x).

Lemma unchanged_keeps b loaded mask x : unchanged b loaded mask x -> keeps b mask (Z.lor loaded b) (Z.lor x b).
Proof.
  intros Hu i Hi. rewrite !Z.lor_spec. apply (f_equal (fun z => Z.testbit z i)) in Hu.
  destruct (Z.lt_ge_cases i 0) as [Hn|Hn]; [by rewrite !Z.testbit_neg_r|].
  rewrite Z.bits_0, !Z.land_spec, Z.lxor_spec, Z.lnot_spec in Hu by done.
  destruct (Z.testbit b i); [intros _; by rewrite orb_true_r|]. destruct Hi as [Hi|Hi]; [discriminate Hi|]. rewrite Hi in Hu.
  destruct (Z.testbit x i), (Z.testbit loaded i); done.
Qed.

Lemma new_pattern_land b loaded to_write x : sub x loaded -> sub to_write (Z.lor loaded b) ->
  Z.land (Z.lor x b) to_write = new_pattern b loaded to_write x.
Proof.
  intros H1 H2. unfold new_pattern. apply Z.bits_inj'. intros i Hn. specialize (H1 i). specialize (H2 i). rewrite Z.lor_spec in H2.
  rewrite !Z.land_spec, Z.lnot_spec, Z.land_spec, Z.lnot_spec, !Z.lor_spec by done.
  destruct (Z.testbit x i), (Z.testbit loaded i), (Z.testbit b i), (Z.testbit to_write i); cbn in *;
    first [done|by specialize (H1 eq_refl)|by specialize (H2 eq_refl)].
Qed.

(** A thread asleep for any of several flags has none of them. *)
Lemma asleep_by_new b loaded c : meets loaded c = false -> by_new b (Z.lor loaded b) c.
Proof.
  intros Hm Ho i. rewrite Z.lor_spec. intros [H|H]%orb_true_iff Hc; [|done]. exfalso. assert (meets loaded c = true) as E; [|congruence].
  apply satisfies_spec. rewrite Ho. split; [done|]. intros _. by exists i.
Qed.

Lemma set_pass_decided protocol b loaded tag cond o : protocol = SYS_SYNC_FIFO \/ protocol = SYS_SYNC_PRIORITY ->
  queue_wf tag (sq o) -> (forall w, w ∈ sq o -> w_prio w <= prio_max) ->
  (forall w, w ∈ sq o -> reg_cond (regs o) (w_id w) = cond (w_id w)) -> (forall w, w ∈ sq o -> meets loaded (cond (w_id w)) = false) ->
  exists p, set_pass protocol b loaded o = Some p /\
    (forall id, reg_cond (p_regs p) id = reg_cond (regs o) id) /\
    (forall id, id ∉ map w_id (sq o) -> p_regs p id = regs o id) /\
    (p_broke p = false \/ (forall w, w ∈ sq o -> gpr3 (regs o (w_id w)) <> CELL_OK) ->
     decided protocol b loaded (p_to_write p) (p_mask p) (p_count p) cond (sq o) (p_regs p)).
Proof.
  intros Hp Hq Hmax Hc Hm. assert (forall w, w ∈ sq o -> meets 0 (cond (w_id w)) = false) as H0.
  { intros w Hw. eapply unsatisfied_mono; [|by apply Hm]. intros i. by rewrite Z.bits_0. }
  destruct (pass_spec protocol Hp b tag (sq o) cond (S (length (sq o))) Hmax [] (Z.lor loaded b) 0 0 (regs o)) as (p & order & Hpass & Ht & Hok);
    rewrite ?unmarked_nil; try done; try lia.
  { intros w Hw. symmetry. by apply Hc. }
  rewrite unmarked_nil in Ht, Hok. destruct Hok as [P1 P2 P3 P4 P5 P6 P7 P8]. exists p. split; [exact Hpass|]. split_and!.
  - intros id. unfold reg_cond. by destruct (P3 id) as [-> ->].
  - exact P4.
  - intros Hfresh. exists order, (serve cond order (Z.lor loaded b)).1. split_and!; [done|by rewrite P2| | |].
    + intros w Hw. eapply takes_taken; [exact Ht|]. by eapply serve_woken.
    + intros w Hw. split; [|by apply P5]. intros E. destruct (decide (w_id w ∈ map w_id (serve cond order (Z.lor loaded b)).1)) as [|Hn]; [done|].
      destruct (P6 w Hw Hn) as [E2|[E1 E2]]; [by rewrite E in E2|]. destruct Hfresh as [Hf|Hf]; [congruence|]. by destruct (Hf w Hw); rewrite <- E2.
    + intros x Hx Hu. rewrite P8.
      * f_equal. rewrite P1. apply new_pattern_land; [done|]. apply serve_sub.
      * intros i. rewrite !Z.lor_spec, !orb_true_iff. intros [H|H]; [left; by apply Hx|by right].
      * by apply unchanged_keeps.
      * intros w Hw. by apply asleep_by_new, Hm.
Qed.

Lemma decided_ext protocol b loaded to_write mask count cond q r r' : (forall w, w ∈ q -> r' (w_id w) = r (w_id w)) ->
  decided protocol b loaded to_write mask count cond q r -> decided protocol b loaded to_write mask count cond q r'.
Proof.
  intros Hr (order & woken & H1 & H2 & H3 & H4 & H5). exists order, woken. split_and!; try done. intros w Hw. rewrite Hr by done. by apply H4.
Qed.

(** ** The relation *)

Definition in_callback (t : ef_thread) : bool := match t_at t with WaitSlow _ _ => true | _ => false end.

Definition outside (o : lv2_event_flag) (id : Z) : Prop := (id ∉ map w_id (sq o)) /\ (id ∉ signaled o).

Section Refinement.
Context (protocol type : Z) (Hp : protocol = SYS_SYNC_FIFO \/ protocol = SYS_SYNC_PRIORITY).
Implicit Types (s : @system lv2_event_flag ef_thread) (a : flag) (i : nat) (t : ef_thread).

Definition thread_ok (a : flag) (o : lv2_event_flag) (t : ef_thread) : Prop :=
  match t_at t with
  | Waiting => t_id t ∈ map w_id (sq o) <-> (t_id t ∉ signaled o)
  | Stopped => (t_id t ∉ signaled o) /\ (t_id t ∈ again o)
  | WaitSlow b m => outside o (t_id t) /\ reg_cond (regs o) (t_id t) = (b, m) /\ gpr3 (regs o (t_id t)) = PENDING
  | SetCas b loaded to_write mask count => outside o (t_id t) /\ locked o = Some (t_id t) /\ sub (pattern o) loaded /\
      decided protocol b loaded to_write mask count (f_cond a) (sq o) (regs o)
  | _ => outside o (t_id t)
  end.

Record ef_rel (s : @system lv2_event_flag ef_thread) (a : flag) : Prop := EfRel {
  er_pattern : pattern (obj s) = f_pattern a;
  er_sq : sq (obj s) = f_sleepers a;
  er_cond : forall w, w ∈ f_sleepers a -> reg_cond (regs (obj s)) (w_id w) = f_cond a (w_id w);
  er_asleep : forall w, w ∈ f_sleepers a -> meets (f_pattern a) (f_cond a (w_id w)) = false;
  er_fresh : locked (obj s) = None -> forall w, w ∈ f_sleepers a -> gpr3 (regs (obj s) (w_id w)) <> CELL_OK;
  er_wf : queue_wf (order_tag (obj s)) (f_sleepers a);
  er_prio : forall w, w ∈ f_sleepers a -> w_prio w <= prio_max;
  er_alive : exists_ (obj s) = f_alive a;
  er_readers : idm_readers (obj s) = countb in_callback (pcs s);
  er_dead : f_alive a = false -> idm_readers (obj s) = 0;
  er_ids : NoDup (map t_id (pcs s));
  er_prios : Forall (fun prio => prio <= prio_max) (map t_prio (pcs s));
  er_queued : forall id, id ∈ map w_id (f_sleepers a) -> id ∈ map t_id (pcs s);
  er_pc : forall i t, pcs s !! i = Some t -> thread_ok a (obj s) t;
  er_unmarked : locked (obj s) <> None -> forall w, w ∈ f_sleepers a -> w_id w ∉ again (obj s) }.

(** What another thread needs when the queue keeps its threads. *)
Lemma ef_thread_ok_ext a a' o o' t :
  (locked o <> Some (t_id t) \/ (sq o' = sq o /\ f_cond a' = f_cond a /\ locked o' = locked o /\ sub (pattern o') (pattern o))) ->
  (t_id t ∈ map w_id (sq o') <-> t_id t ∈ map w_id (sq o)) -> (t_id t ∈ signaled o' <-> t_id t ∈ signaled o) ->
  (t_id t ∈ again o -> t_id t ∈ again o') -> (t_id t ∉ map w_id (sq o) -> regs o' (t_id t) = regs o (t_id t)) ->
  (locked o = Some (t_id t) -> forall w, w ∈ sq o -> regs o' (w_id w) = regs o (w_id w)) ->
  thread_ok a o t -> thread_ok a' o' t.
Proof.
  unfold thread_ok, outside, reg_cond. intros Hl H1 H2 H3 H4 H5. destruct (t_at t); rewrite ?H1, ?H2; try tauto.
  - intros (Ho & E1 & E2). rewrite H4 by apply Ho. done.
  - intros (Ho & E1 & E2 & Hd). destruct Hl as [|(E3 & E4 & E5 & E6)]; [done|]. rewrite E3, E4, E5. split_and!; [apply Ho|apply Ho|done| |].
    + by eapply sub_trans.
    + eapply decided_ext; [|exact Hd]. by apply H5.
Qed.

(** What another thread needs when [ws] are woken. *)
Lemma ef_thread_ok_wake a a' o o' t ws : locked o <> Some (t_id t) ->
  (t_id t ∈ map w_id (sq o') <-> t_id t ∈ map w_id (sq o) /\ (t_id t ∉ map w_id ws)) -> (t_id t ∈ map w_id ws -> t_id t ∈ map w_id (sq o)) ->
  (t_id t ∈ signaled o' <-> t_id t ∈ signaled o \/ t_id t ∈ map w_id ws) -> (t_id t ∈ again o <-> t_id t ∈ again o') ->
  (t_id t ∈ map w_id ws -> t_id t ∉ again o) -> (t_id t ∉ map w_id (sq o) -> regs o' (t_id t) = regs o (t_id t)) ->
  thread_ok a o t -> thread_ok a' o' t.
Proof.
  unfold thread_ok, outside, reg_cond. intros Hl H1 H2 H3 H4 H5 H6. destruct (t_at t); rewrite ?H1, ?H3, <- ?H4; try tauto.
  intros (Ho & E1 & E2). rewrite H6 by apply Ho. tauto.
Qed.

(** A step that moves thread [i] to [pc]. *)
Lemma ef_rel_move s a i t pc o' a' :
  ef_rel s a -> pcs s !! i = Some t ->
  pattern o' = f_pattern a' -> sq o' = f_sleepers a' ->
  (forall w, w ∈ f_sleepers a' -> reg_cond (regs o') (w_id w) = f_cond a' (w_id w)) ->
  (forall w, w ∈ f_sleepers a' -> meets (f_pattern a') (f_cond a' (w_id w)) = false) ->
  (locked o' = None -> forall w, w ∈ f_sleepers a' -> gpr3 (regs o' (w_id w)) <> CELL_OK) ->
  queue_wf (order_tag o') (f_sleepers a') -> (forall w, w ∈ f_sleepers a' -> w ∈ f_sleepers a \/ (w_prio w = t_prio t /\ w_id w = t_id t)) ->
  exists_ o' = f_alive a' -> (f_alive a' = false -> idm_readers o' = 0) ->
  idm_readers o' = idm_readers (obj s) - Z.b2z (in_callback t) + Z.b2z (in_callback (at_pc t pc)) ->
  (locked o' <> None -> forall w, w ∈ f_sleepers a' -> w_id w ∉ again o') ->
  (forall t', t_id t' <> t_id t -> thread_ok a (obj s) t' -> thread_ok a' o' t') -> thread_ok a' o' (at_pc t pc) ->
  ef_rel (System o' (<[i := at_pc t pc]> (pcs s))) a'.
Proof.
  intros H Hi Hpa Hsq Hco Has Hfr Hwf Hsl Hal Hd Hre Hun Ho Ht. destruct H as [G1 G2 G3 G4 G5 G6 G7 G8 G9 G10 G11 G12 G13 G14 G15].
  assert (map t_id (<[i := at_pc t pc]> (pcs s)) = map t_id (pcs s)) as E1 by (by eapply map_insert_same).
  assert (map t_prio (<[i := at_pc t pc]> (pcs s)) = map t_prio (pcs s)) as E2 by (by eapply map_insert_same).
  split; cbn; rewrite ?E1, ?E2; try done.
  - intros w Hw. destruct (Hsl w Hw) as [Hw'|[-> _]]; [by apply G7|]. by eapply (proj1 (Forall_forall _ _) G12), map_lookup_elem.
  - rewrite Hre, G9. by rewrite (countb_insert in_callback _ _ _ _ Hi).
  - intros id (w & -> & Hw)%list_elem_of_fmap. destruct (Hsl w Hw) as [Hw'|[_ ->]]; [by apply G13, elem_of_ids|]. by eapply map_lookup_elem.
  - apply (threads_insert (fun _ t => thread_ok a' o' t)); [|done].
    intros j t' Hj Hne. apply Ho; [|by eapply G14]. by eapply map_nodup_differ.
Qed.

Abbreviation simulated := (simulated (ef_spec protocol type) ef_rel).

(** ** Each operation *)

Section Steps.
Context (s : @system lv2_event_flag ef_thread) (a : flag) (i : nat) (t : ef_thread).
Context (HR : ef_rel s a) (Hi : pcs s !! i = Some t).

Lemma ef_own_ok : thread_ok a (obj s) t.
Proof. exact (er_pc _ _ HR i t Hi). Qed.

Lemma ef_callback_alive : in_callback t = true -> f_alive a = true.
Proof.
  intros E. destruct (f_alive a) eqn:Ea; [done|]. pose proof (er_dead _ _ HR Ea) as H0. rewrite (er_readers _ _ HR) in H0.
  pose proof (countb_pos in_callback _ _ _ Hi E). lia.
Qed.

Lemma ef_eta : a = Flag (f_pattern a) (f_sleepers a) (f_cond a) (f_alive a).
Proof. by destruct a. Qed.

Lemma ef_idle_eq : t_at t = Idle -> t = at_pc t Idle.
Proof. destruct t. cbn. by intros ->. Qed.

Lemma wake_id w : w ∈ f_sleepers a -> w_id w ∈ map w_id (sq (obj s)).
Proof. rewrite (er_sq _ _ HR). apply elem_of_ids. Qed.

(** Steps that leave the queue alone. *)
Lemma rel_quiet pc o' al : sub (pattern o') (pattern (obj s)) -> sq o' = sq (obj s) -> order_tag o' = order_tag (obj s) ->
  locked o' = locked (obj s) -> again o' = again (obj s) -> (forall id, id <> t_id t -> id ∈ signaled o' <-> id ∈ signaled (obj s)) ->
  (forall id, id <> t_id t -> regs o' id = regs (obj s) id) -> t_id t ∉ map w_id (sq (obj s)) ->
  exists_ o' = al -> (al = false -> idm_readers o' = 0) ->
  idm_readers o' = idm_readers (obj s) - Z.b2z (in_callback t) + Z.b2z (in_callback (at_pc t pc)) ->
  thread_ok (Flag (pattern o') (f_sleepers a) (f_cond a) al) o' (at_pc t pc) ->
  ef_rel (System o' (<[i := at_pc t pc]> (pcs s))) (Flag (pattern o') (f_sleepers a) (f_cond a) al).
Proof.
  intros H1 H2 H3 H4 H5 H6 H7 H8 H9 H10 H11 Ht. pose proof HR as [G1 G2 G3 G4 G5 G6 G7 G8 G9 G10 G11 G12 G13 G14 G15].
  assert (forall w, w ∈ f_sleepers a -> regs o' (w_id w) = regs (obj s) (w_id w)) as Hw.
  { intros w Hw. apply H7. intros E. apply H8. rewrite <- E. by apply wake_id. }
  apply (ef_rel_move s a i t); cbn; try done; try congruence.
  - intros w Hq. unfold reg_cond. rewrite Hw by done. by apply G3.
  - intros w Hq. eapply unsatisfied_mono; [|by apply G4]. by rewrite <- G1.
  - intros El w Hq. rewrite Hw by done. apply G5; [congruence|done].
  - intros w Hq. by left.
  - intros Hl w Hq. rewrite H5. apply G15; [congruence|done].
  - intros t' Hne. apply ef_thread_ok_ext; cbn.
    + right. done.
    + by rewrite H2.
    + by apply H6.
    + by rewrite H5.
    + intros _. by apply H7.
    + intros _ w Hq. apply Hw. by rewrite <- G2.
Qed.

(** Steps that change nothing but the thread's place. *)
Lemma ef_rel_idle pc : in_callback t = false -> in_callback (at_pc t pc) = false -> t_id t ∉ map w_id (sq (obj s)) ->
  thread_ok a (obj s) (at_pc t pc) -> ef_rel (System (obj s) (<[i := at_pc t pc]> (pcs s))) a.
Proof.
  intros E1 E2 Hq Ht. pose proof HR as [G1 G2 G3 G4 G5 G6 G7 G8 G9 G10 G11 G12 G13 G14 G15]. rewrite ef_eta, <- G1.
  apply rel_quiet; try done; try apply sub_refl; rewrite E1, E2; lia.
Qed.

Lemma ef_simulated_return pc o' code result : ef_rel (System o' (<[i := pc]> (pcs s))) a -> simulated s a i ([Return code result], o', pc).
Proof. intros H. eapply simulated_one; [constructor|exact H]. Qed.

Ltac at_ok Ht := pose proof ef_own_ok as Hok; unfold thread_ok in Hok; rewrite Ht in Hok;
  let E := fresh "Hc" in pose proof (eq_refl (in_callback t)) as E; unfold in_callback in E at 2; rewrite Ht in E.

Ltac quiet pc al := match goal with |- ef_rel (System ?o _) _ => apply (rel_quiet pc o al) end.

Lemma ef_sim_wait_begin b m : t_at t = Idle -> simulated s a i (wait_begin b m (obj s) t).
Proof.
  intros Ht. at_ok Ht. pose proof Hok as [Hq Hs]. pose proof HR as [G1 G2 G3 G4 G5 G6 G7 G8 G9 G10 G11 G12 G13 G14 G15].
  assert (forall r, ef_rel (System (upd_regs (t_id t) r (obj s)) (<[i := at_pc t Idle]> (pcs s))) a) as Hret.
  { intros r. rewrite ef_eta, <- G1. quiet Idle (f_alive a); try done; try apply sub_refl; cbn; [|rewrite Hc; cbn; lia].
    intros id Hid. by apply upd_ne. }
  unfold wait_begin. cbv zeta. destruct (check_mode m); cbn [negb].
  2: { rewrite (ef_idle_eq Ht) at 2. apply ef_simulated_return, Hret. }
  cbn [exists_ upd_regs set_regs pattern]. rewrite G8. destruct (f_alive a) eqn:Ea.
  2: { rewrite (ef_idle_eq Ht) at 2. apply ef_simulated_return, Hret. }
  rewrite check_pattern_eq. destruct (satisfies (pattern (obj s)) b m) eqn:Es.
  - rewrite (ef_idle_eq Ht) at 5. eapply (simulated_one _ _ s a (Flag (after (pattern (obj s)) b m) (f_sleepers a) (f_cond a) true)).
    + rewrite ef_eta at 1. rewrite Ea. constructor. rewrite <- G1. by rewrite check_pattern_eq, Es.
    + quiet Idle true; try done.
      * apply after_sub.
      * intros id Hid. cbn. by rewrite !upd_ne.
      * rewrite Hc. cbn. lia.
  - apply (simulated_none (ef_spec protocol type)). rewrite ef_eta, Ea, <- G1.
    quiet (WaitSlow b m) true; try done.
    * apply sub_refl.
    * intros id Hid. cbn. by rewrite !upd_ne.
    * rewrite Hc. cbn. lia.
    * unfold thread_ok, reg_cond. cbn. by rewrite !upd_eq.
Qed.

Lemma ef_sim_trywait b m : t_at t = Idle -> simulated s a i (sys_event_flag_trywait b m (obj s) t).
Proof.
  intros Ht. at_ok Ht. pose proof HR as [G1 G2 G3 G4 G5 G6 G7 G8 G9 G10 G11 G12 G13 G14 G15].
  assert (ef_rel (System (obj s) (<[i := at_pc t Idle]> (pcs s))) a) as Hret by (apply ef_rel_idle; [done|done|apply Hok|exact Hok]).
  unfold sys_event_flag_trywait. destruct (check_mode m); cbn [negb].
  2: { rewrite (ef_idle_eq Ht) at 1. by apply ef_simulated_return. }
  rewrite G8. destruct (f_alive a) eqn:Ea.
  2: { rewrite (ef_idle_eq Ht) at 1. by apply ef_simulated_return. }
  rewrite check_pattern_eq. destruct (satisfies (pattern (obj s)) b m) eqn:Es; rewrite (ef_idle_eq Ht) at 1.
  - eapply (simulated_one _ _ s a (Flag (after (pattern (obj s)) b m) (f_sleepers a) (f_cond a) true)).
    + rewrite ef_eta at 1. rewrite Ea. constructor. rewrite <- G1. by rewrite check_pattern_eq, Es.
    + quiet Idle true; try done; try apply Hok.
      * apply after_sub.
      * rewrite Hc. cbn. lia.
  - by apply ef_simulated_return.
Qed.

Lemma sim_clear b : t_at t = Idle -> simulated s a i (sys_event_flag_clear b (obj s) t).
Proof.
  intros Ht. at_ok Ht. pose proof HR as [G1 G2 G3 G4 G5 G6 G7 G8 G9 G10 G11 G12 G13 G14 G15].
  unfold sys_event_flag_clear. rewrite G8. destruct (f_alive a) eqn:Ea; rewrite (ef_idle_eq Ht) at 1.
  - eapply (simulated_one _ _ s a (Flag (Z.land (pattern (obj s)) b) (f_sleepers a) (f_cond a) true)).
    + rewrite ef_eta at 1. rewrite Ea, G1. constructor.
    + quiet Idle true; try done; try apply Hok.
      * apply sub_land.
      * rewrite Hc. cbn. lia.
  - apply ef_simulated_return, ef_rel_idle; [done|done|apply Hok|exact Hok].
Qed.

Lemma sim_get flags : t_at t = Idle -> simulated s a i (sys_event_flag_get flags (obj s) t).
Proof.
  intros Ht. at_ok Ht. unfold sys_event_flag_get.
  assert (ef_rel (System (obj s) (<[i := at_pc t Idle]> (pcs s))) a) as Hret by (apply ef_rel_idle; [done|done|apply Hok|exact Hok]).
  destruct (exists_ (obj s)), flags; rewrite (ef_idle_eq Ht) at 1; by apply ef_simulated_return.
Qed.

Lemma sim_cancel_begin : t_at t = Idle -> simulated s a i (cancel_begin (obj s) t).
Proof.
  intros Ht. at_ok Ht. unfold cancel_begin. destruct (exists_ (obj s)).
  - apply (simulated_none (ef_spec protocol type)), ef_rel_idle; [done|done|apply Hok|exact Hok].
  - rewrite (ef_idle_eq Ht) at 1. apply ef_simulated_return, ef_rel_idle; [done|done|apply Hok|exact Hok].
Qed.

Lemma filter_woken_nil q :
  filter (fun w => w_id w ∈ map w_id []) q = [] /\ filter (fun w => w_id w ∉ map w_id []) q = q.
Proof.
  induction q as [|w q [IH1 IH2]]; [done|].
  rewrite filter_cons_False, IH1 by apply not_elem_of_nil. by rewrite filter_cons_True, IH2 by apply not_elem_of_nil.
Qed.

(** Flags that are all set already. *)
Lemma sim_set_begin b : t_at t = Idle -> simulated s a i (set_begin b (obj s) t).
Proof.
  intros Ht. at_ok Ht. pose proof HR as [G1 G2 G3 G4 G5 G6 G7 G8 G9 G10 G11 G12 G13 G14 G15]. unfold set_begin.
  destruct (exists_ (obj s)); [destruct (Z.eqb_spec (Z.land (pattern (obj s)) b) b) as [E|E]|].
  - rewrite (ef_idle_eq Ht) at 1. destruct (takes_all protocol _ _ G6) as [order Ho].
    eapply (simulated_one _ _ s a a); [|apply ef_rel_idle; [done|done|apply Hok|exact Hok]].
    assert (Z.lor (f_pattern a) b = f_pattern a) as El.
    { rewrite <- G1, <- E. apply Z.bits_inj'. intros j _. rewrite Z.lor_spec, Z.land_spec. by destruct (Z.testbit _ j). }
    assert (serve (f_cond a) order (Z.lor (f_pattern a) b) = ([], f_pattern a)) as Hserve.
    { rewrite El. apply serve_none. intros w Hw. by apply G4, (takes_taken _ _ _ _ _ Ho). }
    pose proof (spec_set protocol type i (f_pattern a) (f_sleepers a) (f_cond a) (f_alive a) b order [] (f_pattern a) Ho Hserve) as Hspec.
    rewrite (proj1 (filter_woken_nil _)), (proj2 (filter_woken_nil _)) in Hspec. by rewrite <- !ef_eta in Hspec.
  - apply (simulated_none (ef_spec protocol type)), ef_rel_idle; [done|done|apply Hok|exact Hok].
  - rewrite (ef_idle_eq Ht) at 1. apply ef_simulated_return, ef_rel_idle; [done|done|apply Hok|exact Hok].
Qed.

Lemma not_mine id : locked (obj s) = None -> locked (obj s) <> Some id.
Proof. by intros ->. Qed.

Lemma ef_sim_wait_slow b m r : t_at t = WaitSlow b m -> wait_slow type b m (obj s) t = Some r -> simulated s a i r.
Proof.
  intros Ht. at_ok Ht. destruct Hok as ([Hq Hs] & Hreg & Hpend). pose proof HR as [G1 G2 G3 G4 G5 G6 G7 G8 G9 G10 G11 G12 G13 G14 G15].
  pose proof (ef_callback_alive Hc) as Ha. unfold wait_slow, under_mutex. destruct (locked (obj s)) eqn:El; [done|]. cbv zeta. intros [= <-].
  cbn [pattern add_reader]. rewrite check_pattern_eq. destruct (satisfies (pattern (obj s)) b m) eqn:Es; [|destruct (_ && _) eqn:Esg].
  - eapply (simulated_one _ _ s a (Flag (after (pattern (obj s)) b m) (f_sleepers a) (f_cond a) true)).
    + rewrite ef_eta at 1. rewrite Ha. constructor. rewrite <- G1. by rewrite check_pattern_eq, Es.
    + quiet Idle true; try done; cbn; try congruence.
      * apply after_sub.
      * intros id Hid. by rewrite upd_ne.
      * rewrite Hc. cbn. lia.
  - apply ef_simulated_return. rewrite ef_eta, <- G1. quiet Idle (f_alive a); try done; cbn; try congruence.
    + intros id Hid. by rewrite upd_ne.
    + rewrite Hc. cbn. lia.
  - set (w := Waiter _ _ _).
    eapply (simulated_one _ _ s a (Flag (f_pattern a) (w :: f_sleepers a) (upd (f_cond a) (w_id w) (b, m)) true)).
    { rewrite ef_eta at 1. rewrite Ha. constructor; [by rewrite <- G1|]. intros ->. cbn [sq upd_regs set_regs add_reader] in Esg. rewrite G2 in Esg.
      cbn in Esg. destruct (f_sleepers a); done. }
    assert (forall w', w' ∈ f_sleepers a -> w_id w' <> t_id t) as Hne.
    { intros w' Hw' E. apply Hq. rewrite <- E. by apply wake_id. }
    apply (ef_rel_move s a i t); cbn [f_pattern f_sleepers f_cond f_alive]; try done; cbn; try congruence.
    + by rewrite G2.
    + intros w' [->|Hw']%elem_of_cons; unfold reg_cond; cbn.
      * by rewrite !upd_eq.
      * rewrite !upd_ne by (by apply Hne). by apply G3.
    + intros w' [->|Hw']%elem_of_cons; cbn.
      * rewrite upd_eq. unfold meets. cbn. by rewrite <- G1.
      * rewrite upd_ne by (by apply Hne). by apply G4.
    + intros _ w' [->|Hw']%elem_of_cons; cbn.
      * rewrite upd_eq. cbn. by rewrite Hpend.
      * rewrite upd_ne by (by apply Hne). by apply G5.
    + apply emplace_wf; [done|]. by rewrite <- G2.
    + intros w' [->|Hw']%elem_of_cons; [by right|by left].
    + rewrite Hc. cbn. lia.
    + intros t' Hn. apply ef_thread_ok_ext; cbn; try done.
      * left. by apply not_mine.
      * rewrite elem_of_cons. intuition congruence.
      * intros _. by rewrite upd_ne.
      * intros E. by rewrite E in El.
    + unfold thread_ok. cbn. split; [done|]. intros _. left.
Qed.

Lemma sim_wait_done : in_callback t = false -> t_id t ∉ map w_id (sq (obj s)) -> simulated s a i (wait_done (obj s) t).
Proof.
  intros Hc Hq. pose proof HR as [G1 G2 G3 G4 G5 G6 G7 G8 G9 G10 G11 G12 G13 G14 G15]. apply ef_simulated_return. rewrite ef_eta, <- G1.
  quiet Idle (f_alive a); try done.
  - apply sub_refl.
  - intros id Hne. cbn. rewrite elem_clear. tauto.
  - rewrite Hc. cbn. lia.
  - unfold thread_ok, outside. cbn. rewrite elem_clear. tauto.
Qed.

Lemma ef_sim_wait_signal r : t_at t = Waiting -> wait_signal (obj s) t = Some r -> simulated s a i r.
Proof.
  intros Ht. at_ok Ht. unfold wait_signal. case_bool_decide as Hsig; [|done]. intros [= <-]. apply sim_wait_done; [done|]. intros Hq. by apply Hok in Hq.
Qed.

Lemma ef_sim_wait_timeout r : t_at t = Waiting -> wait_timeout (obj s) t = Some r -> simulated s a i r.
Proof.
  intros Ht. at_ok Ht. unfold wait_timeout, under_mutex. destruct (locked (obj s)) eqn:El; [done|]. intros [= <-].
  destruct (sq (obj s)) as [|w0 q0] eqn:Eq; [apply sim_wait_done; [done|rewrite Eq; apply not_elem_of_nil]|].
  rewrite <- Eq in Hok |- *. clear w0 q0 Eq. pose proof HR as [G1 G2 G3 G4 G5 G6 G7 G8 G9 G10 G11 G12 G13 G14 G15]. rewrite G2, unqueue_spec by apply (qw_ids _ _ G6). case_bool_decide as Hid; cbn [negb].
  - eapply (simulated_one _ _ s a (Flag (f_pattern a) (without (t_id t) (f_sleepers a)) (f_cond a) (f_alive a))).
    { rewrite ef_eta at 1. rewrite G1. by constructor. }
    apply (ef_rel_move s a i t); cbn [f_pattern f_sleepers f_cond f_alive]; try done; cbn.
    + intros w [Hw Hne]%without_elem. unfold reg_cond. rewrite upd_ne by done. by apply G3.
    + intros w [Hw Hne]%without_elem. by apply G4.
    + intros _ w [Hw Hne]%without_elem. rewrite upd_ne by done. by apply G5.
    + by apply without_wf.
    + intros w [Hw Hne]%without_elem. by left.
    + rewrite Hc. cbn. lia.
    + intros t' Hne. apply ef_thread_ok_ext; cbn; try done.
      * left. by apply not_mine.
      * rewrite without_ids, G2. intuition congruence.
      * intros _. by rewrite upd_ne.
      * intros E. by rewrite E in El.
    + unfold thread_ok, outside. cbn. rewrite without_ids. split; [intuition congruence|]. apply Hok. by rewrite G2.
  - apply sim_wait_done; [done|]. by rewrite G2.
Qed.

(** The call gives up, to be repeated after the savestate. *)
Lemma rel_stopped : in_callback t = false -> t_id t ∉ signaled (obj s) -> locked (obj s) = None ->
  ef_rel (System (set_again (t_id t :: again (obj s)) (obj s)) (<[i := at_pc t Stopped]> (pcs s))) a.
Proof.
  intros Hc Hs El. pose proof HR as [G1 G2 G3 G4 G5 G6 G7 G8 G9 G10 G11 G12 G13 G14 G15].
  apply (ef_rel_move s a i t); cbn; try done.
  - intros w Hw. by left.
  - rewrite Hc. cbn. lia.
  - intros t' Hne. apply ef_thread_ok_ext; cbn; try done; [left; by apply not_mine|by right].
  - unfold thread_ok. cbn. split; [done|left].
Qed.

Lemma ef_sim_wait_stopped r : t_at t = Waiting -> wait_stopped (obj s) t = Some r -> simulated s a i r.
Proof.
  intros Ht. at_ok Ht. unfold wait_stopped, under_mutex. destruct (locked (obj s)) eqn:El; [done|]. intros [= <-]. rewrite existsb_id.
  case_bool_decide as Hq; [|by apply sim_wait_done]. apply ef_simulated_return, rel_stopped; [done|by apply Hok|done].
Qed.

(** A pass over the queue, by the thread that holds the mutex from then on. *)
Lemma rel_pass b p : set_pass protocol b (pattern (obj s)) (obj s) = Some p -> in_callback t = false -> outside (obj s) (t_id t) ->
  locked (obj s) = None \/ locked (obj s) = Some (t_id t) -> p_broke p = false \/ locked (obj s) = None -> (forall w, w ∈ f_sleepers a -> w_id w ∉ again (obj s)) ->
  ef_rel (System (set_locked (Some (t_id t)) (set_regs (p_regs p) (obj s))) (<[i := at_pc t (set_cas_pc b (pattern (obj s)) p)]> (pcs s))) a.
Proof.
  intros Hpass Hc Hout Hl Hb Hun. pose proof HR as [G1 G2 G3 G4 G5 G6 G7 G8 G9 G10 G11 G12 G13 G14 G15].
  destruct (set_pass_decided protocol b (pattern (obj s)) (order_tag (obj s)) (f_cond a) (obj s)) as (p' & Hp' & Hcond & Hother & Hdec);
    rewrite ?G2; try done; [by rewrite G1|]. rewrite Hpass in Hp'. injection Hp' as <-.
  apply (ef_rel_move s a i t); cbn; try done.
  - intros w Hw. rewrite Hcond. by apply G3.
  - intros w Hw. by left.
  - rewrite Hc. cbn. lia.
  - intros t' Hne. assert (locked (obj s) <> Some (t_id t')) as Hl' by (destruct Hl as [-> | ->]; congruence).
    apply ef_thread_ok_ext; cbn; try done; [by left|apply Hother].
  - split_and!; [done..| |].
    + cbn. apply sub_refl.
    + rewrite ?G2 in *. apply Hdec. destruct Hb as [|Hn]; [by left|right]. by apply G5.
Qed.

Lemma sim_set_lock b r : t_at t = SetLock b -> set_lock protocol b (obj s) t = Some r -> simulated s a i r.
Proof.
  intros Ht. at_ok Ht. unfold set_lock, under_mutex. destruct (locked (obj s)) eqn:El; [done|].
  destruct (any_again _ _) eqn:Eg; [intros [= <-]; apply ef_simulated_return, rel_stopped; [done|apply Hok|done]|].
  destruct (set_pass _ _ _ _) as [p|] eqn:Epass; [|done]. cbn [mbind option_bind]. intros [= <-].
  apply (simulated_none (ef_spec protocol type)), rel_pass; auto. intros w Hw. rewrite <- (er_sq _ _ HR) in Hw.
  pose proof (any_again_false _ _ Eg w Hw) as Hg. unfold is_again in Hg. by apply bool_decide_eq_false in Hg.
Qed.

(** *** The compare and swap *)

(** Whether a pass was not cut short on a retry. *)
Definition fair (e : ef_event) : bool := match e with Retry broke => negb broke | _ => true end.

Lemma set_cas_wakes b loaded to_write mask count : t_at t = SetCas b loaded to_write mask count -> unchanged b loaded mask (pattern (obj s)) ->
  exists order woken, takes protocol (f_sleepers a) order [] /\ count = Z.of_nat (length woken) /\
    (forall w, w ∈ f_sleepers a -> gpr3 (regs (obj s) (w_id w)) = CELL_OK <-> w_id w ∈ map w_id woken) /\
    serve (f_cond a) order (Z.lor (f_pattern a) b) = (woken, new_pattern b loaded to_write (pattern (obj s))) /\
    forall w, w ∈ f_sleepers a -> w_id w ∉ map w_id woken -> meets (new_pattern b loaded to_write (pattern (obj s))) (f_cond a (w_id w)) = false.
Proof.
  intros Ht Hu. at_ok Ht. destruct Hok as ((Hq & Hs) & El & Hsub & order & woken & D1 & D2 & D3 & D4 & D5).
  pose proof HR as [G1 G2 G3 G4 G5 G6 G7 G8 G9 G10 G11 G12 G13 G14 G15]. rewrite G2 in *. specialize (D5 _ Hsub Hu). rewrite <- G1.
  exists order, woken. split_and!; try done. intros w Hw Hn.
  pose proof (serve_left (f_cond a) order (Z.lor (pattern (obj s)) b) w (takes_nodup _ _ _ _ D1)) as Hl. rewrite D5 in Hl. apply Hl; [|done].
  destruct (takes_split _ _ _ _ w D1 Hw) as [Hin|Hin]; [|by apply not_elem_of_nil in Hin].
  apply list_elem_of_fmap in Hin as (w' & E & Hw'). assert (w' = w) as ->; [|done].
  apply (ids_unique (f_sleepers a)); [apply G6|by eapply takes_taken|done|done].
Qed.

Lemma sim_set_cas b loaded to_write mask count r : t_at t = SetCas b loaded to_write mask count ->
  set_cas protocol b loaded to_write mask count (obj s) t = Some r -> forallb fair r.1.1 = true -> simulated s a i r.
Proof.
  intros Ht. at_ok Ht. destruct Hok as ((Hq & Hs) & El & Hsub & _). unfold set_cas. cbv zeta.
  pose proof HR as [G1 G2 G3 G4 G5 G6 G7 G8 G9 G10 G11 G12 G13 G14 G15].
  destruct (Z.eqb_spec (Z.land (Z.lxor (pattern (obj s)) loaded) (Z.land mask (Z.lnot b))) 0) as [Hu|Hu]; cbn [negb].
  2: { destruct (set_pass _ _ _ _) as [p|] eqn:Epass; [|done]. cbn [mbind option_bind]. intros [= <-]. cbn. rewrite andb_true_r. intros Hb%negb_true_iff.
       eapply simulated_one; [constructor|]. pose proof (rel_pass b p Epass Hc (conj Hq Hs) (or_intror El) (or_introl Hb) ltac:(apply G15; by rewrite El)) as H.
       replace (set_locked _ _) with (set_regs (p_regs p) (obj s)) in H; [done|]. unfold set_locked, set_regs. cbn. by rewrite El. }
  destruct (set_cas_wakes b loaded to_write mask count Ht Hu) as (order & woken & D1 & D2 & D4 & D5 & D6).
  fold (new_pattern b loaded to_write (pattern (obj s))).
  assert (forall t', t_id t' <> t_id t -> locked (obj s) <> Some (t_id t')) as Hl by congruence.
  destruct (Z.eqb_spec count 0) as [E|E]; intros [= <-] _.
  - destruct woken; [|cbn in D2; lia].
    eapply (simulated_one _ _ s a (Flag (new_pattern b loaded to_write (pattern (obj s))) (f_sleepers a) (f_cond a) (f_alive a))).
    { pose proof (spec_set protocol type i _ _ _ (f_alive a) b order [] _ D1 D5) as H.
      rewrite (proj1 (filter_woken_nil _)), (proj2 (filter_woken_nil _)) in H. by rewrite <- ef_eta in H. }
    apply (ef_rel_move s a i t); cbn; try done.
    + intros w Hw. apply D6; [done|apply not_elem_of_nil].
    + intros _ w Hw Hx. apply D4 in Hx; [|done]. by apply not_elem_of_nil in Hx.
    + intros w Hw. by left.
    + rewrite Hc. cbn. lia.
    + intros t' Hne. apply ef_thread_ok_ext; cbn; try done. left. by apply Hl.
  - set (ready w := gpr3 (regs (obj s) (w_id w)) = CELL_OK). cbn [regs set_locked set_pattern sq]. rewrite G2.
    assert (filter (fun w => w_id w ∈ map w_id woken) (f_sleepers a) = filter ready (f_sleepers a)) as E1.
    { apply filter_ext_in. intros w Hw. unfold ready. by rewrite D4. }
    assert (filter (fun w => w_id w ∉ map w_id woken) (f_sleepers a) = filter (fun w => ~ ready w) (f_sleepers a)) as E2.
    { apply filter_ext_in. intros w Hw. unfold ready. by rewrite D4. }
    eapply (simulated_one _ _ s a (Flag (new_pattern b loaded to_write (pattern (obj s))) (filter (fun w => ~ ready w) (f_sleepers a)) (f_cond a) (f_alive a))).
    { pose proof (spec_set protocol type i _ _ _ (f_alive a) b order woken _ D1 D5) as H. rewrite E1, E2 in H. by rewrite <- ef_eta in H. }
    assert (forall id, id ∈ map w_id (filter ready (f_sleepers a)) -> id ∈ map w_id (f_sleepers a)) as Hsub1.
    { intros id (w & <- & Hw & _)%filter_ids. by apply elem_of_ids. }
    apply (ef_rel_move s a i t); cbn; try done.
    + intros w [_ Hw]%list_elem_of_filter. by apply G3.
    + intros w [Hn Hw]%list_elem_of_filter. apply D6; [done|]. unfold ready in Hn. by rewrite <- D4.
    + intros _ w [Hn Hw]%list_elem_of_filter. exact Hn.
    + by apply filter_wf.
    + intros w [_ Hw]%list_elem_of_filter. by left.
    + rewrite Hc. cbn. lia.
    + intros t' Hne. apply (ef_thread_ok_wake _ _ _ _ _ (filter ready (f_sleepers a))); cbn; try done.
      * by apply Hl.
      * rewrite G2. split.
        -- intros (w & <- & Hw & Hn)%filter_ids. split; [by apply elem_of_ids|]. intros (w' & E3 & Hw' & Hr)%filter_ids. unfold ready in *. by rewrite E3 in Hr.
        -- intros [(w & E3 & Hw)%list_elem_of_fmap Hn]. apply filter_ids. exists w. split_and!; [done|done|]. intros Hr. apply Hn, filter_ids. by exists w.
      * rewrite G2. apply Hsub1.
      * by rewrite elem_of_app.
      * rewrite filter_ids. intros (w & <- & Hw & _). apply G15; [by rewrite El|done].
    + unfold thread_ok, outside. cbn. rewrite G2 in Hq. rewrite elem_of_app. split.
      * intros (w & E3 & Hw & _)%filter_ids. apply Hq. rewrite <- E3. by apply elem_of_ids.
      * intros [|Hx]; [done|]. by apply Hq, Hsub1.
Qed.

(** *** [sys_event_flag_cancel] and [sys_event_flag_destroy] *)

Lemma foldl_upd_other (f : waiter -> ef_regs -> ef_regs) ws (r : Z -> ef_regs) id : id ∉ map w_id ws ->
  foldl (fun r w => upd r (w_id w) (f w (r (w_id w)))) r ws id = r id.
Proof.
  revert r. induction ws as [|w ws IH]; intros r; [done|]. cbn. intros [Hne Hn]%not_elem_of_cons. rewrite IH by done. by apply upd_ne.
Qed.

Lemma sim_cancel_lock r : t_at t = CancelLock -> cancel_lock (obj s) t = Some r -> simulated s a i r.
Proof.
  intros Ht. at_ok Ht. destruct Hok as [Hq Hs]. unfold cancel_lock, under_mutex. destruct (locked (obj s)) eqn:El; [done|].
  destruct (any_again _ _) eqn:Eg; [intros [= <-]; apply ef_simulated_return, rel_stopped; done|].
  pose proof HR as [G1 G2 G3 G4 G5 G6 G7 G8 G9 G10 G11 G12 G13 G14 G15]. cbv zeta. rewrite G2 in *.
  destruct (drain_spec (is_again (obj s)) _ _ G6 (any_again_false _ _ Eg) (S (length (f_sleepers a))) []) as (ws & -> & Htk); [lia|].
  cbn [mbind option_bind app]. intros [= <-]. destruct (takes_ids _ _ _ _ Htk) as [Hids Hsub].
  eapply (simulated_one _ _ s a (Flag (f_pattern a) [] (f_cond a) (f_alive a))).
  { rewrite ef_eta at 1. by constructor. }
  apply (ef_rel_move s a i t); cbn; try done; try (by intros w ?%not_elem_of_nil); try (by intros _ w ?%not_elem_of_nil).
  - split; constructor.
  - rewrite Hc. cbn. lia.
  - intros t' Hne. apply (ef_thread_ok_wake _ _ _ _ _ ws); cbn; try done.
    + by apply not_mine.
    + rewrite G2. apply Hids.
    + rewrite G2. apply Hsub.
    + by rewrite elem_of_app.
    + intros (w & -> & Hw)%list_elem_of_fmap. pose proof (any_again_false _ _ Eg w (takes_taken _ _ _ _ _ Htk Hw)) as Hg.
      unfold is_again in Hg. by apply bool_decide_eq_false in Hg.
    + intros Hn. apply (foldl_upd_other (fun _ r => set_gpr6 (pattern (obj s)) (set_gpr3 CELL_ECANCELED r))). rewrite G2 in Hn. intros Hx. by apply Hn, Hsub.
  - unfold thread_ok, outside. cbn. rewrite elem_of_app. split; [apply not_elem_of_nil|]. intros [|Hx]; [done|]. by apply Hq, Hsub.
Qed.

Lemma ef_sim_destroy r : t_at t = Idle -> sys_event_flag_destroy (obj s) t = Some r -> simulated s a i r.
Proof.
  intros Ht. at_ok Ht. unfold sys_event_flag_destroy. pose proof HR as [G1 G2 G3 G4 G5 G6 G7 G8 G9 G10 G11 G12 G13 G14 G15].
  rewrite G8. destruct (Z.eqb_spec (idm_readers (obj s)) 0) as [E|]; [|done]. cbn [negb].
  assert (ef_rel (System (obj s) (<[i := at_pc t Idle]> (pcs s))) a) as Hret by (apply ef_rel_idle; [done|done|apply Hok|exact Hok]).
  destruct (f_alive a) eqn:Ea; [destruct (sq (obj s)) eqn:Eq|]; intros [= <-]; rewrite (ef_idle_eq Ht) at 1; [|by apply ef_simulated_return..].
  eapply (simulated_one _ _ s a (Flag (f_pattern a) [] (f_cond a) false)).
  { rewrite ef_eta at 1. rewrite <- G2, Ea. constructor. }
  rewrite <- G1, G2. quiet Idle false; try done; try apply Hok; cbn.
  - apply sub_refl.
  - rewrite Hc. cbn. lia.
Qed.
End Steps.

(** One step of a thread. *)
Lemma ef_step s a i act t r : ef_rel s a -> pcs s !! i = Some t -> ef_tstep protocol type act (obj s) t = Some r ->
  forallb fair r.1.1 = true -> simulated s a i r.
Proof.
  intros HR Hi. unfold ef_tstep. destruct (t_at t) eqn:Ht, act; try done.
  - intros [= <-] _. by eapply ef_sim_wait_begin.
  - intros [= <-] _. by eapply ef_sim_trywait.
  - intros [= <-] _. by eapply sim_set_begin.
  - intros [= <-] _. by eapply sim_clear.
  - intros [= <-] _. by eapply sim_cancel_begin.
  - intros [= <-] _. by eapply sim_get.
  - intros H _. by eapply ef_sim_destroy.
  - intros H _. by eapply ef_sim_wait_slow.
  - intros H _. by eapply ef_sim_wait_signal.
  - intros H _. by eapply ef_sim_wait_timeout.
  - intros H _. by eapply ef_sim_wait_stopped.
  - intros H _. by eapply sim_set_lock.
  - intros H Hf. by eapply sim_set_cas.
  - intros H _. by eapply sim_cancel_lock.
Qed.
End Refinement.

Lemma ef_rel_initial protocol init ts : NoDup (map fst ts) -> Forall (fun prio => prio <= prio_max) (map snd ts) ->
  ef_rel protocol (ef_initial init ts) (Flag (u64 init) [] (fun _ => (0, 0)) true).
Proof.
  intros Hnd Hpr. assert (forall i t, map (fun '(id, prio) => EfThread id prio Idle) ts !! i = Some t -> t_at t = Idle) as Hidle.
  { intros i t H. change (map ?f ts) with (f <$> ts) in H. rewrite list_lookup_fmap in H. destruct (ts !! i) as [[]|]; [|done]. by injection H as <-. }
  assert (map t_id (map (fun '(id, prio) => EfThread id prio Idle) ts) = map fst ts) as Hids.
  { rewrite map_map. apply map_ext. by intros []. }
  assert (map t_prio (map (fun '(id, prio) => EfThread id prio Idle) ts) = map snd ts) as Hprios.
  { rewrite map_map. apply map_ext. by intros []. }
  split; cbn; rewrite ?Hids, ?Hprios; try done; try (by intros w ?%not_elem_of_nil); try (by intros _ w ?%not_elem_of_nil); try (split; constructor).
  - clear -ts. induction ts as [|[id prio] ts IH]; [done|]. cbn. by rewrite <- IH.
  - intros i t H. unfold thread_ok, outside. rewrite (Hidle i t H). cbn. split; apply not_elem_of_nil.
Qed.

(** C13: the first pass of [sys_event_flag_set] over the sleeping threads: the
    protocol is FIFO or PRIORITY, the queue is ordered and its priorities are at
    most [prio_max], no sleeper's condition is met by the pattern the pass has
    read, and no sleeper's [gpr[3]] holds [CELL_OK] yet (no pass was retried;
    after one the claim fails, see [stale_wakeup]).  Then the pass wakes exactly
    the threads that would be served one by one, in the order of the protocol,
    from any pattern the compare and swap may meet that lost flags only and
    kept those the pass depends on, and leaves the pattern the compare and swap
    writes. *)
Theorem set_single_pass protocol b loaded tag cond o : protocol = SYS_SYNC_FIFO \/ protocol = SYS_SYNC_PRIORITY ->
  queue_wf tag (sq o) -> (forall w, w ∈ sq o -> w_prio w <= prio_max) ->
  (forall w, w ∈ sq o -> reg_cond (regs o) (w_id w) = cond (w_id w)) -> (forall w, w ∈ sq o -> meets loaded (cond (w_id w)) = false) ->
  (forall w, w ∈ sq o -> gpr3 (regs o (w_id w)) <> CELL_OK) ->
  exists p order woken, set_pass protocol b loaded o = Some p /\ takes protocol (sq o) order [] /\ p_count p = Z.of_nat (length woken) /\
    (forall w, w ∈ sq o -> gpr3 (p_regs p (w_id w)) = CELL_OK <-> w_id w ∈ map w_id woken) /\
    forall x, sub x loaded -> Z.land (Z.lxor x loaded) (Z.land (p_mask p) (Z.lnot b)) = 0 ->
      serve cond order (Z.lor x b) = (woken, Z.land (Z.lor x b) (Z.lnot (Z.land (Z.lor loaded b) (Z.lnot (p_to_write p))))).
Proof.
  intros Hp Hq Hmax Hc Hm Hf. destruct (set_pass_decided protocol b loaded tag cond o Hp Hq Hmax Hc Hm) as (p & E & _ & _ & Hd).
  destruct (Hd (or_intror Hf)) as (order & woken & H1 & H2 & _ & H4 & H5). by exists p, order, woken.
Qed.

(** Threads 1 and 2 wait for flags; a pass from pattern 5 that sets flag 2. *)
Definition pass_demo : lv2_event_flag :=
  MkFlag 5 [Waiter 2 1000 2; Waiter 1 1001 1] (upd (upd (fun _ => Regs 0 0 0 0) 1 (Regs PENDING 3 0x11 0)) 2 (Regs PENDING 10 2 0))
    None 2 [] [] true 0.

Lemma set_single_pass_witness :
  exists p woken, set_pass SYS_SYNC_PRIORITY 2 5 pass_demo = Some p /\ p_mask p = 3 /\ map w_id woken = [2; 1] /\
    exists order, takes SYS_SYNC_PRIORITY (sq pass_demo) order [] /\
      serve (fun id => if id =? 1 then (3, 0x11) else (10, 2)) order (Z.lor 1 2) = (woken, 0).
Proof.
  destruct (set_single_pass SYS_SYNC_PRIORITY 2 5 2 (fun id => if id =? 1 then (3, 0x11) else (10, 2)) pass_demo)
    as (p & order & woken & E & Ht & Hn & Hw & Hs).
  - by right.
  - split; [refine (bool_decide_unpack _ _); vm_compute; exact I|repeat constructor; cbn; lia..].
  - cbn. intros w Hw. apply elem_of_cons in Hw as [->|Hw]; [by vm_compute|]. apply list_elem_of_singleton in Hw as ->. by vm_compute.
  - cbn. intros w Hw. apply elem_of_cons in Hw as [->|Hw]; [by vm_compute|]. apply list_elem_of_singleton in Hw as ->. by vm_compute.
  - cbn. intros w Hw. apply elem_of_cons in Hw as [->|Hw]; [by vm_compute|]. apply list_elem_of_singleton in Hw as ->. by vm_compute.
  - cbn. intros w Hw. apply elem_of_cons in Hw as [->|Hw]; [by vm_compute|]. apply list_elem_of_singleton in Hw as ->. by vm_compute.
  - exists p, woken.
    assert (serve (fun id => if id =? 1 then (3, 0x11) else (10, 2)) order (Z.lor 1 2) = (woken, 0)) as Hserve.
    { rewrite (Hs 1).
      - f_equal. vm_compute in E. injection E as <-. reflexivity.
      - apply land_sub. reflexivity.
      - vm_compute in E. injection E as <-. reflexivity. }
    assert (order = [Waiter 2 1000 2; Waiter 1 1001 1]) as Eo.
    { apply (takes_unique SYS_SYNC_PRIORITY 2 (sq pass_demo)); [|exact Ht|].
      - split; [refine (bool_decide_unpack _ _); vm_compute; exact I|repeat constructor; cbn; lia..].
      - apply (takes_some _ _ _ [Waiter 1 1001 1]); [|apply (takes_some _ _ _ []); [|constructor]]; (split; [cbn; left|split; [reflexivity|]]).
        + intros w ->%list_elem_of_singleton. left. cbn. lia.
        + intros w Hin. by apply not_elem_of_nil in Hin. }
    split; [exact E|]. split; [vm_compute in E; injection E as <-; reflexivity|]. split; [|by exists order].
    rewrite Eo in Hserve. vm_compute in Hserve. injection Hserve as <-. reflexivity.
Defined.

(** C12: every interleaving of calls of any number of threads in which no
    retried pass of [sys_event_flag_set] is cut short refines the abstract
    event flag: waits are satisfied atomically, a set serves the sleeping
    threads one by one in the order of the protocol, nobody sleeps whose
    condition holds, and a thread in the wait loop is queued or woken. *)
Theorem event_flag_refines protocol type init ts sch es s :
  protocol = SYS_SYNC_FIFO \/ protocol = SYS_SYNC_PRIORITY -> NoDup (map fst ts) -> Forall (fun prio => prio <= prio_max) (map snd ts) ->
  ef_run protocol type init ts sch = Some (es, s) -> forallb (fun e => fair e.2) es = true ->
  exists a, spec_run (ef_spec protocol type) (Flag (u64 init) [] (fun _ => (0, 0)) true) es a /\
    pattern (obj s) = f_pattern a /\ sq (obj s) = f_sleepers a /\ exists_ (obj s) = f_alive a /\
    (forall w, w ∈ f_sleepers a -> meets (f_pattern a) (f_cond a (w_id w)) = false) /\
    (forall i t, pcs s !! i = Some t -> t_at t = Waiting -> t_id t ∈ map w_id (f_sleepers a) \/ t_id t ∈ signaled (obj s)).
Proof.
  intros Hp Hnd Hpr H Hf.
  destruct (simulated_refines (restrict fair (ef_tstep protocol type)) (ef_spec protocol type) (ef_rel protocol) (ef_initial init ts)
    (Flag (u64 init) [] (fun _ => (0, 0)) true) sch es s) as (a & Ha & HR); [|by apply ef_rel_initial|by apply run_restrict|].
  { intros s0 a0 i act t r HR Hi. unfold restrict. destruct (ef_tstep _ _ _ _ _) as [r0|] eqn:E; [|done]. cbn [mbind option_bind].
    destruct (forallb fair r0.1.1) eqn:Ef; [|done]. intros [= <-]. by apply (ef_step protocol type Hp s0 a0 i act t r0). }
  exists a. destruct HR as [G1 G2 G3 G4 G5 G6 G7 G8 G9 G10 G11 G12 G13 G14 G15]. split_and!; try done.
  intros i t Hi Ht. pose proof (G14 i t Hi) as Hok. unfold thread_ok in Hok. rewrite Ht, G2 in Hok.
  destruct (decide (t_id t ∈ signaled (obj s))); [by right|left]. by apply Hok.
Qed.

(** Three threads sleep, a fourth sets flags, a fifth takes one away between
    the read and the compare and swap. *)
Definition ef_threads : list (Z * Z) := [(1, 1000); (2, 1000); (3, 1000); (4, 1000); (5, 1000)].

Definition ef_demo (c1 c2 c3 : Z * Z) (b : Z) : list (nat * ef_action) :=
  [(0%nat, AWait c1.1 c1.2); (0%nat, AGo); (1%nat, AWait c2.1 c2.2); (1%nat, AGo); (2%nat, AWait c3.1 c3.2); (2%nat, AGo);
   (3%nat, ASet b); (3%nat, AGo); (4%nat, AClear (-2)); (3%nat, AGo); (3%nat, AGo)].

Lemma event_flag_refines_witness :
  exists es s, ef_run SYS_SYNC_FIFO SYS_SYNC_WAITER_MULTIPLE 1 ef_threads (ef_demo (3, 0x11) (4, 0x11) (8, 2) 14) = Some (es, s) /\
    pattern (obj s) = 10 /\ signaled (obj s) = [3; 2] /\
    map snd es = [Slept (Waiter 1 1000 1) 3 0x11; Slept (Waiter 2 1000 2) 4 0x11; Slept (Waiter 3 1000 3) 8 2; Cleared (2 ^ 64 - 2);
      Retry false; SetBits 14 [Waiter 3 1000 3; Waiter 2 1000 2]] /\
    exists a, spec_run (ef_spec SYS_SYNC_FIFO SYS_SYNC_WAITER_MULTIPLE) (Flag (u64 1) [] (fun _ => (0, 0)) true) es a /\ f_pattern a = 10.
Proof.
  destruct (ef_run SYS_SYNC_FIFO SYS_SYNC_WAITER_MULTIPLE 1 ef_threads (ef_demo (3, 0x11) (4, 0x11) (8, 2) 14)) as [[es s]|] eqn:E; [|by vm_compute in E].
  exists es, s. split; [done|].
  assert (NoDup (map fst ef_threads)) as Hnd by (refine (bool_decide_unpack _ _); vm_compute; exact I).
  assert (Forall (fun prio => prio <= prio_max) (map snd ef_threads)) as Hpr by (repeat constructor; vm_compute; congruence).
  assert (forallb (fun e => fair e.2) es = true) as Hf by (vm_compute in E; injection E as <- <-; reflexivity).
  destruct (event_flag_refines SYS_SYNC_FIFO SYS_SYNC_WAITER_MULTIPLE 1 ef_threads _ es s (or_introl eq_refl) Hnd Hpr E Hf) as (a & Ha & Hpat & _).
  assert (pattern (obj s) = 10) as E10 by (vm_compute in E; injection E as <- <-; reflexivity). rewrite E10 in Hpat.
  split; [exact E10|]. split; [vm_compute in E; injection E as <- <-; reflexivity|]. split; [vm_compute in E; injection E as <- <-; reflexivity|].
  exists a. split; [exact Ha|by rewrite Hpat].
Defined.

(** *** A retried pass that is cut short *)

Definition stale_queue : list waiter := [Waiter 3 1000 3; Waiter 2 1000 2; Waiter 1 1000 1].
Definition stale_order : list waiter := [Waiter 1 1000 1; Waiter 2 1000 2; Waiter 3 1000 3].

Lemma stale_takes : takes SYS_SYNC_FIFO stale_queue stale_order [] /\ queue_wf 3 stale_queue.
Proof.
  assert (queue_wf 3 stale_queue) as Hq.
  { split; [refine (bool_decide_unpack _ _); vm_compute; exact I|repeat constructor; cbn; lia..]. }
  split; [|exact Hq]. destruct (drain_spec (fun _ => false) 3 stale_queue Hq ltac:(done) 4 []) as (ws & E & Ht); [cbn; lia|].
  vm_compute in E. by injection E as <-.
Qed.

(** The events of the run, with the state of the abstract flag before the set. *)
Lemma stale_set a t woken : ef_spec SYS_SYNC_FIFO SYS_SYNC_WAITER_MULTIPLE
    (Flag 0 stale_queue (upd (upd (upd (fun _ => (0, 0)) 1 (3, 0x11)) 2 (14, 0x11)) 3 (8, 2)) true) (t, SetBits 14 woken) a ->
  woken = [Waiter 2 1000 2].
Proof.
  intros H. inversion H; subst. destruct stale_takes as [Ht Hq].
  match goal with Ho : takes _ _ ?o [] |- _ => pose proof (takes_unique _ _ _ _ _ Hq Ho Ht); subst o end.
  match goal with Hs : serve _ _ _ = _ |- _ => vm_compute in Hs; injection Hs as <- <- end. by vm_compute.
Qed.

(** C33: the property fails without that condition: if a pass is retried and
    the new one stops at an empty pattern, the threads it has not reached keep
    the verdict of the pass before; here thread 3 is woken for flag 8, which
    thread 2 has taken, and no order of serving explains it. *)
Theorem stale_wakeup :
  exists es s, ef_run SYS_SYNC_FIFO SYS_SYNC_WAITER_MULTIPLE 1 ef_threads (ef_demo (3, 0x11) (14, 0x11) (8, 2) 14) = Some (es, s) /\
    ~ exists a, spec_run (ef_spec SYS_SYNC_FIFO SYS_SYNC_WAITER_MULTIPLE) (Flag (u64 1) [] (fun _ => (0, 0)) true) es a.
Proof.
  destruct (ef_run SYS_SYNC_FIFO SYS_SYNC_WAITER_MULTIPLE 1 ef_threads (ef_demo (3, 0x11) (14, 0x11) (8, 2) 14)) as [[es s]|] eqn:E; [|by vm_compute in E].
  exists es, s. split; [done|]. vm_compute in E. injection E as <- _. intros [a H].
  repeat match goal with H : spec_run _ _ (_ :: _) _ |- _ => inversion H; subst; clear H end.
  repeat match goal with H : ef_spec _ _ _ (_, Slept _ _ _) _ |- _ => inversion H; subst; clear H
    | H : ef_spec _ _ _ (_, Cleared _) _ |- _ => inversion H; subst; clear H
    | H : ef_spec _ _ _ (_, Retry _) _ |- _ => inversion H; subst; clear H end.
  match goal with H : ef_spec _ _ _ (_, SetBits _ _) _ |- _ => by apply stale_set in H end.
Qed.
