(* ===== verification/CpuState.v ===== *)
(** * State flags of a thread

    [rpcs3/Emu/CPU/CPUThread.h]: the flags of [cpu_thread::state] and their
    tests; [CPUThread.cpp]: the atomic operation of [cpu_thread::check_state],
    which decides whether a thread goes on, stays or returns to its caller.
    Theorem: which flags make it return, stay or go on, and that a thread that
    goes on has none of the flags that hold it. *)
From Stdlib Require Import Btauto.
From S2P Require Import Prelude.

(** [enum class cpu_flag] *)
Module cpu_flag.
Inductive cpu_flag :=
  stop | exit | wait | temp | pause | suspend | ret | again | signal | memory | pending | pending_recheck | notify |
  yield | preempt | dbg_global_pause | dbg_pause | dbg_step.

#[global] Instance eq_dec : EqDecision cpu_flag.
Proof. solve_decision. Defined.
End cpu_flag.

(** [EnumBitSet<cpu_flag>], with its [+=], [-=] and [&]. *)
Definition flags := cpu_flag.cpu_flag -> bool.

Definition no_flags : flags := fun _ => false.
Definition add (f : cpu_flag.cpu_flag) (s : flags) : flags := fun g => if decide (g = f) then true else s g.
Definition sub (f : cpu_flag.cpu_flag) (s : flags) : flags := fun g => if decide (g = f) then false else s g.
Definition sub_all (fs : list cpu_flag.cpu_flag) (s : flags) : flags := fun g => if decide (g ∈ fs) then false else s g.
Definition any_of (s : flags) (fs : list cpu_flag.cpu_flag) : bool := existsb s fs.
Definition none_of (s : flags) (fs : list cpu_flag.cpu_flag) : bool := negb (any_of s fs).

Definition is_stopped (s : flags) : bool := any_of s [cpu_flag.stop; cpu_flag.exit; cpu_flag.again].

Definition is_paused (s : flags) : bool :=
  any_of s [cpu_flag.suspend; cpu_flag.dbg_global_pause; cpu_flag.dbg_pause] && negb (is_stopped s).

(** ** [check_state] *)

(** The local variables of [check_state]. *)
Record check_locals := CheckLocals {
  cpu_sleep_called : bool;
  cpu_memory_checked : bool;
  cpu_can_stop : bool;
  escape : bool;
  retval : bool
}.

Definition check_locals_init : check_locals := CheckLocals false false true false false.

(** The flags that keep a thread in [check_state]. *)
Definition holds (l : check_locals) (s : flags) : bool :=
  s cpu_flag.pause || (negb (cpu_memory_checked l) && s cpu_flag.memory) ||
  (cpu_can_stop l && any_of s [cpu_flag.dbg_global_pause; cpu_flag.dbg_pause; cpu_flag.suspend; cpu_flag.yield; cpu_flag.preempt]).

(** The step flag: [moved] compares the program counter with the one of the
    last step, [None] if there is none. *)
Definition check_dbg_step (moved : option bool) (s : flags) : flags :=
  match moved with
  | Some true => add cpu_flag.dbg_pause (sub cpu_flag.dbg_step s)
  | Some false => s
  | None => sub cpu_flag.dbg_step s
  end.

(** The first part of the function of [state.fetch_op]: the flags that are
    consumed.  [listed] tells whether the thread is in the list of
    [suspend_all] ([s_tls_thread_slot != umax]). *)
Definition check_consume (listed : bool) (moved : option bool) (l : check_locals) (s : flags) : check_locals * flags :=
  let s := if s cpu_flag.pause && negb listed then sub cpu_flag.pause s else s in
  let can_stop := cpu_can_stop l && negb (s cpu_flag.temp) in
  let s := sub cpu_flag.temp s in
  let called := cpu_sleep_called l && negb (can_stop && s cpu_flag.signal) in
  let s := if can_stop then sub cpu_flag.signal s else s in
  let s := sub cpu_flag.notify s in
  let s := if can_stop && s cpu_flag.dbg_step then check_dbg_step moved s else s in
  (CheckLocals called (cpu_memory_checked l) can_stop (escape l) (retval l), s).

(** The second part: whether the thread stays, goes on or returns. *)
Definition check_decide (l : check_locals) (s : flags) : check_locals * flags :=
  let '(CheckLocals called mem can_stop _ rv) := l in
  if negb (is_stopped s) && negb (s cpu_flag.ret) then
    if holds l s then
      let s := add cpu_flag.wait s in
      let s := if can_stop then sub_all [cpu_flag.yield; cpu_flag.preempt] s else s in
      (CheckLocals called mem can_stop false rv, s)
    else (CheckLocals called mem can_stop true false, sub_all [cpu_flag.wait; cpu_flag.memory] s)
  else (CheckLocals called mem can_stop true can_stop, sub cpu_flag.wait s).

(** The function of [state.fetch_op]. *)
Definition check_op (listed : bool) (moved : option bool) (l : check_locals) (s : flags) : check_locals * flags :=
  let '(l, s) := check_consume listed moved l s in check_decide l s.

(** What follows when [check_op] does not let the thread out: [cpu_sleep] is
    called for a suspended thread, once for each signal. *)
Definition calls_cpu_sleep (l : check_locals) (old : flags) : bool :=
  negb (escape l) && cpu_can_stop l && negb (cpu_sleep_called l) && old cpu_flag.suspend.

(** ** Theorems *)

Lemma add_has f g s : add f s g = bool_decide (g = f) || s g.
Proof. unfold add. case_decide as H; [by rewrite bool_decide_true|by rewrite bool_decide_false]. Qed.

Lemma sub_has f g s : sub f s g = negb (bool_decide (g = f)) && s g.
Proof. unfold sub. case_decide as H; [by rewrite bool_decide_true|by rewrite bool_decide_false]. Qed.

Lemma sub_all_has fs g s : sub_all fs s g = negb (bool_decide (g ∈ fs)) && s g.
Proof. unfold sub_all. case_decide as H; [by rewrite bool_decide_true|by rewrite bool_decide_false]. Qed.

(** The flags that mean that a thread must not run guest code. *)
Definition holding : list cpu_flag.cpu_flag :=
  [cpu_flag.stop; cpu_flag.exit; cpu_flag.again; cpu_flag.ret; cpu_flag.pause; cpu_flag.suspend; cpu_flag.dbg_global_pause;
   cpu_flag.dbg_pause; cpu_flag.yield; cpu_flag.preempt; cpu_flag.wait; cpu_flag.signal; cpu_flag.notify].

(** The effect of a flag operation on one flag. *)
Create Rewrite HintDb flags.
#[export] Hint Rewrite add_has sub_has sub_all_has : flags.
Ltac flags_simpl := repeat (autorewrite with flags; cbn -[add sub sub_all]).

(** What is consumed, and what stays. *)
Lemma check_consume_spec listed moved called mem esc rv s : s cpu_flag.temp = false ->
  exists s', check_consume listed moved (CheckLocals called mem true esc rv) s =
      (CheckLocals (called && negb (s cpu_flag.signal)) mem true esc rv, s') /\
    s' cpu_flag.signal = false /\ s' cpu_flag.notify = false /\
    s' cpu_flag.pause = s cpu_flag.pause && listed /\
    s' cpu_flag.dbg_pause = s cpu_flag.dbg_pause || (s cpu_flag.dbg_step && bool_decide (moved = Some true)) /\
    forall g, g ∉ [cpu_flag.pause; cpu_flag.temp; cpu_flag.signal; cpu_flag.notify; cpu_flag.dbg_step; cpu_flag.dbg_pause] -> s' g = s g.
Proof.
  intros Ht. unfold check_consume. set (s1 := if s cpu_flag.pause && negb listed then sub cpu_flag.pause s else s).
  assert (forall g, g <> cpu_flag.pause -> s1 g = s g) as H1.
  { intros g Hg. unfold s1. destruct (_ && negb listed); [|done]. rewrite sub_has. by rewrite bool_decide_false. }
  assert (s1 cpu_flag.pause = s cpu_flag.pause && listed) as H3.
  { unfold s1. destruct (s cpu_flag.pause) eqn:E, listed; cbn -[sub]; rewrite ?sub_has, ?E; done. }
  clearbody s1. cbn -[sub]. rewrite (H1 cpu_flag.temp), Ht by done. cbn -[sub]. flags_simpl. rewrite (H1 cpu_flag.signal) by done.
  eexists. split; [done|]. set (s2 := sub cpu_flag.notify (sub cpu_flag.signal (sub cpu_flag.temp s1))).
  assert (forall g, g <> cpu_flag.dbg_step -> g <> cpu_flag.dbg_pause ->
    (if s2 cpu_flag.dbg_step then check_dbg_step moved s2 else s2) g = s2 g) as H2.
  { intros g Hg1 Hg2. destruct (s2 cpu_flag.dbg_step); [|done]. unfold check_dbg_step.
    destruct moved as [[]|]; [| done|]; flags_simpl; rewrite ?bool_decide_false by done; done. }
  assert ((if s2 cpu_flag.dbg_step then check_dbg_step moved s2 else s2) cpu_flag.dbg_pause =
    s cpu_flag.dbg_pause || (s cpu_flag.dbg_step && bool_decide (moved = Some true))) as H4.
  { assert (s2 cpu_flag.dbg_step = s cpu_flag.dbg_step /\ s2 cpu_flag.dbg_pause = s cpu_flag.dbg_pause) as [E1 E2]
      by (unfold s2; flags_simpl; by rewrite !H1).
    rewrite E1. destruct (s cpu_flag.dbg_step); cbn -[check_dbg_step bool_decide]; [|by rewrite orb_false_r].
    unfold check_dbg_step. destruct moved as [[]|]; flags_simpl; rewrite ?E2; rewrite ?orb_true_r, ?orb_false_r; done. }
  split; [|split; [|split; [|split; [exact H4|]]]]; rewrite ?H2 by done; unfold s2; flags_simpl; [done..|]. intros g Hg.
  rewrite !not_elem_of_cons in Hg. destruct Hg as (? & ? & ? & ? & ? & ? & _). rewrite H2 by done. unfold s2. flags_simpl.
  rewrite !bool_decide_false by done. by apply H1.
Qed.

(** The flags that keep a thread, by what they are before [check_state]
    consumes any. *)
Definition held (listed : bool) (moved : option bool) (l : check_locals) (s : flags) : bool :=
  (s cpu_flag.pause && listed) || (negb (cpu_memory_checked l) && s cpu_flag.memory) ||
  any_of s [cpu_flag.dbg_global_pause; cpu_flag.dbg_pause; cpu_flag.suspend; cpu_flag.yield; cpu_flag.preempt] ||
  (s cpu_flag.dbg_step && bool_decide (moved = Some true)).

(** C35: what the atomic operation of [check_state] decides for a thread that
    may stop ([cpu_can_stop], no [cpu_flag::temp]).  It returns to its caller
    exactly when it is stopped or a callback returns ([ret]); otherwise it
    stays, marked [cpu_flag::wait] and with its suspension untouched, exactly
    when a flag holds it (a pause while it is listed, unchecked memory, a
    suspension, a debug pause, a yield or preemption, a debug step that moved),
    and [cpu_sleep] is called for a suspended thread once per signal; otherwise
    it goes on to run guest code, not suspended, with its signal consumed and
    with none of the flags that hold a thread. *)
Theorem check_state_exit listed moved l s :
  let '(l', s') := check_op listed moved l s in
  cpu_can_stop l = true -> s cpu_flag.temp = false ->
  if is_stopped s || s cpu_flag.ret then
    escape l' = true /\ retval l' = true /\ s' cpu_flag.wait = false /\ s' cpu_flag.suspend = s cpu_flag.suspend
  else if held listed moved l s then
    escape l' = false /\ s' cpu_flag.wait = true /\ s' cpu_flag.suspend = s cpu_flag.suspend /\
    (s cpu_flag.suspend = true -> calls_cpu_sleep l' s = negb (cpu_sleep_called l && negb (s cpu_flag.signal)))
  else escape l' = true /\ retval l' = false /\ none_of s' holding = true /\ s cpu_flag.suspend = false.
Proof.
  destruct l as [called mem can esc rv]. unfold check_op.
  destruct (s cpu_flag.temp) eqn:Et; [by destruct (check_consume _ _ _ _) as [l s0]; destruct (check_decide l s0)|].
  destruct can; [|by destruct (check_consume _ _ _ _) as [l s0]; destruct (check_decide l s0)].
  destruct (check_consume_spec listed moved called mem esc rv s Et) as (s1 & -> & Hsg & Hnt & Hpa & Hdp & Hs).
  assert (is_stopped s1 = is_stopped s) as Est by (unfold is_stopped; cbn; by rewrite !Hs by set_solver).
  assert (forall called', holds (CheckLocals called' mem true esc rv) s1 = held listed moved (CheckLocals called mem true esc rv) s) as Eh.
  { intros called'. unfold holds, held, any_of. cbn -[bool_decide]. rewrite Hpa, Hdp, !Hs by set_solver. btauto. }
  unfold check_decide. rewrite Est, Eh, (Hs cpu_flag.ret) by set_solver.
  destruct (is_stopped s) eqn:Eis; cbn -[sub sub_all add held].
  { intros _ _. flags_simpl. split_and!; try done. apply Hs. set_solver. }
  destruct (s cpu_flag.ret) eqn:Er; cbn -[sub sub_all add held].
  { intros _ _. flags_simpl. split_and!; try done. apply Hs. set_solver. }
  destruct (held listed moved _ s) eqn:Ehd; cbn -[sub sub_all add]; intros _ _.
  - flags_simpl. split_and!; [done|done|apply Hs; set_solver|]. intros Hsus. unfold calls_cpu_sleep. cbn. by rewrite Hsus, andb_true_r.
  - specialize (Eh called). unfold holds in Eh. cbn in Eh. rewrite !orb_false_iff in Eh. destruct Eh as ((Hp & _) & Hg & Hd & Hsu & Hy & Hpr & _).
    split; [done|]. split; [done|]. split; [|by rewrite <- Hs by set_solver]. unfold none_of, any_of. cbn. rewrite !sub_all_has. cbn.
    unfold is_stopped, any_of in Est. cbn in Est. rewrite !orb_false_iff in Est. destruct Est as (H1 & H2 & H3 & _).
    by rewrite H1, H2, H3, (Hs cpu_flag.ret), Er, Hp, Hsu, Hg, Hd, Hy, Hpr, Hsg, Hnt by set_solver.
Qed.

(** A signalled thread goes on; one that a callback returns from returns even
    while it is suspended. *)
Lemma check_state_exit_witness :
  let s := add cpu_flag.signal (add cpu_flag.wait no_flags) in
  let r := add cpu_flag.ret (add cpu_flag.suspend no_flags) in
  (let '(l', s') := check_op true None check_locals_init s in
   escape l' = true /\ retval l' = false /\ none_of s' holding = true) /\
  let '(l', s') := check_op true None check_locals_init r in escape l' = true /\ retval l' = true.
Proof.
  split.
  - pose proof (check_state_exit true None check_locals_init (add cpu_flag.signal (add cpu_flag.wait no_flags))) as H.
    destruct (check_op _ _ _ _) as [l' s'] eqn:E. specialize (H eq_refl eq_refl). destruct H as (H1 & H2 & H3 & _). by split.
  - pose proof (check_state_exit true None check_locals_init (add cpu_flag.ret (add cpu_flag.suspend no_flags))) as H.
    destruct (check_op _ _ _ _) as [l' s'] eqn:E. specialize (H eq_refl eq_refl). destruct H as (H1 & H2 & _). by split.
Defined.
