(* ===== verification/Lv2Scheduler.v ===== *)
(** * LV2 kernel: the scheduler of PPU threads

    [lv2_obj] in [kernel/cellos/src/lv2.cpp].  [g_ppu] lists the threads that
    are not asleep, by priority; the first [ppu_threads] of them may run, the
    others are marked [cpu_flag::suspend], and those that have not stopped yet
    are counted by [g_pending].  Every operation runs under
    [lv2_obj::g_mutex], so it is one function of the state.

    The linked list [next_ppu] is a list of ids; the thread-local [g_to_awake]
    is an argument; the two ways to notify a thread ([g_to_notify] and
    [notify_one]) are one list.  [None] is a failed [ensure].  The
    notifications of memory reservations and the log are left out. *)
From S2P Require Import Prelude CpuState.

(** [thread_class] of a thread. *)
Module thread_class.
Inductive thread_class := general | ppu | spu | rsx.

#[global] Instance eq_dec : EqDecision thread_class.
Proof. solve_decision. Defined.
End thread_class.

(** [ppu_join_status]; a value from [max] on is the id of the thread that joins. *)
Inductive ppu_join_status := joinable | detached | zombie | exited | joined (id : Z).

(** What the scheduler reads and writes of a [ppu_thread]. *)
Record thread := Thread {
  prio : Z; (* ppu_prio_t::prio, 13 bits signed *)
  order : Z; (* ppu_prio_t::order, 50 bits signed *)
  state : flags;
  ack_suspend : bool;
  cancel_sleep : Z;
  start_time : Z;
  end_time : Z;
  raddr : Z;
  hw_sleep_time : Z;
  joiner : ppu_join_status
}.

Definition with_prio (p o : Z) (x : thread) : thread :=
  Thread p o (state x) (ack_suspend x) (cancel_sleep x) (start_time x) (end_time x) (raddr x) (hw_sleep_time x) (joiner x).
Definition with_state (f : flags -> flags) (x : thread) : thread :=
  Thread (prio x) (order x) (f (state x)) (ack_suspend x) (cancel_sleep x) (start_time x) (end_time x) (raddr x) (hw_sleep_time x) (joiner x).
Definition with_ack (b : bool) (x : thread) : thread :=
  Thread (prio x) (order x) (state x) b (cancel_sleep x) (start_time x) (end_time x) (raddr x) (hw_sleep_time x) (joiner x).
Definition with_cancel (c : Z) (x : thread) : thread :=
  Thread (prio x) (order x) (state x) (ack_suspend x) c (start_time x) (end_time x) (raddr x) (hw_sleep_time x) (joiner x).
Definition with_times (b e : Z) (x : thread) : thread :=
  Thread (prio x) (order x) (state x) (ack_suspend x) (cancel_sleep x) b e (raddr x) (hw_sleep_time x) (joiner x).
Definition with_raddr (a : Z) (x : thread) : thread :=
  Thread (prio x) (order x) (state x) (ack_suspend x) (cancel_sleep x) (start_time x) (end_time x) a (hw_sleep_time x) (joiner x).
Definition with_hw_sleep (h : Z) (x : thread) : thread :=
  Thread (prio x) (order x) (state x) (ack_suspend x) (cancel_sleep x) (start_time x) (end_time x) (raddr x) h (joiner x).
Definition with_joiner (j : ppu_join_status) (x : thread) : thread :=
  Thread (prio x) (order x) (state x) (ack_suspend x) (cancel_sleep x) (start_time x) (end_time x) (raddr x) (hw_sleep_time x) j.

(** The static data of [lv2_obj] and of [lv2.cpp]. *)
Record sched := Sched {
  threads : Z -> thread;
  g_ppu : list Z;
  g_pending : Z;
  g_waiting : list (Z * Z);
  g_to_sleep : list Z;
  g_scheduler_ready : bool;
  g_priority_order_tag : Z;
  notified : list Z; (* ids whose state was notified, the last one last *)
  run_requested : bool; (* the call of FinalizeRunRequest is queued *)
  s_yield_frequency : Z;
  s_max_allowed_yield_tsc : Z;
  s_last_yield_tsc : Z;
  g_lv2_preempts_taken : Z
}.

Definition with_threads (v : Z -> thread) (s : sched) : sched :=
  Sched v (g_ppu s) (g_pending s) (g_waiting s) (g_to_sleep s) (g_scheduler_ready s) (g_priority_order_tag s) (notified s)
    (run_requested s) (s_yield_frequency s) (s_max_allowed_yield_tsc s) (s_last_yield_tsc s) (g_lv2_preempts_taken s).
Definition with_ppu (v : list Z) (s : sched) : sched :=
  Sched (threads s) v (g_pending s) (g_waiting s) (g_to_sleep s) (g_scheduler_ready s) (g_priority_order_tag s) (notified s)
    (run_requested s) (s_yield_frequency s) (s_max_allowed_yield_tsc s) (s_last_yield_tsc s) (g_lv2_preempts_taken s).
Definition with_pending (v : Z) (s : sched) : sched :=
  Sched (threads s) (g_ppu s) v (g_waiting s) (g_to_sleep s) (g_scheduler_ready s) (g_priority_order_tag s) (notified s)
    (run_requested s) (s_yield_frequency s) (s_max_allowed_yield_tsc s) (s_last_yield_tsc s) (g_lv2_preempts_taken s).
Definition with_waiting (v : list (Z * Z)) (s : sched) : sched :=
  Sched (threads s) (g_ppu s) (g_pending s) v (g_to_sleep s) (g_scheduler_ready s) (g_priority_order_tag s) (notified s)
    (run_requested s) (s_yield_frequency s) (s_max_allowed_yield_tsc s) (s_last_yield_tsc s) (g_lv2_preempts_taken s).
Definition with_to_sleep (v : list Z) (r : bool) (s : sched) : sched :=
  Sched (threads s) (g_ppu s) (g_pending s) (g_waiting s) v (g_scheduler_ready s) (g_priority_order_tag s) (notified s)
    r (s_yield_frequency s) (s_max_allowed_yield_tsc s) (s_last_yield_tsc s) (g_lv2_preempts_taken s).
Definition with_ready (v : bool) (s : sched) : sched :=
  Sched (threads s) (g_ppu s) (g_pending s) (g_waiting s) (g_to_sleep s) v (g_priority_order_tag s) (notified s)
    (run_requested s) (s_yield_frequency s) (s_max_allowed_yield_tsc s) (s_last_yield_tsc s) (g_lv2_preempts_taken s).
Definition with_tag (v : Z) (s : sched) : sched :=
  Sched (threads s) (g_ppu s) (g_pending s) (g_waiting s) (g_to_sleep s) (g_scheduler_ready s) v (notified s)
    (run_requested s) (s_yield_frequency s) (s_max_allowed_yield_tsc s) (s_last_yield_tsc s) (g_lv2_preempts_taken s).
Definition notify_one (t : Z) (s : sched) : sched :=
  Sched (threads s) (g_ppu s) (g_pending s) (g_waiting s) (g_to_sleep s) (g_scheduler_ready s) (g_priority_order_tag s)
    (notified s ++ [t]) (run_requested s) (s_yield_frequency s) (s_max_allowed_yield_tsc s) (s_last_yield_tsc s) (g_lv2_preempts_taken s).
Definition with_preempts (last taken : Z) (s : sched) : sched :=
  Sched (threads s) (g_ppu s) (g_pending s) (g_waiting s) (g_to_sleep s) (g_scheduler_ready s) (g_priority_order_tag s) (notified s)
    (run_requested s) (s_yield_frequency s) (s_max_allowed_yield_tsc s) last taken.

(** Changes one thread. *)
Definition on_thread (t : Z) (f : thread -> thread) (s : sched) : sched :=
  with_threads (upd (threads s) t (f (threads s t))) s.

Definition has_flag (s : sched) (t : Z) (f : cpu_flag.cpu_flag) : bool := state (threads s t) f.

(** [thread_cmd] *)
Definition yield_cmd : Z := - 2 ^ 31.
Definition enqueue_cmd : Z := - 2 ^ 31 + 1.

Definition umax : Z := 2 ^ 64 - 1.
Definition smax : Z := 2 ^ 31 - 1.

(** ** List operations *)

(** [unqueue] on [next_ppu], and [std::find] with [erase]. *)
Fixpoint unlink (object : Z) (q : list Z) : option (list Z) :=
  match q with
  | [] => None
  | x :: q => if x =? object then Some q else option_map (cons x) (unlink object q)
  end.

(** The place for a timeout: before the first later one. *)
Fixpoint register_timeout (wait_until t : Z) (l : list (Z * Z)) : list (Z * Z) :=
  match l with
  | [] => [(wait_until, t)]
  | p :: l => if p.1 >? wait_until then (wait_until, t) :: p :: l else p :: register_timeout wait_until t l
  end.

Fixpoint unregister_timeout (t : Z) (l : list (Z * Z)) : list (Z * Z) :=
  match l with
  | [] => []
  | p :: l => if p.2 =? t then l else p :: unregister_timeout t l
  end.

(** What stands before and after a thread. *)
Fixpoint split_at (t : Z) (q : list Z) : option (list Z * list Z) :=
  match q with
  | [] => None
  | x :: q => if x =? t then Some ([], q) else '(pre, rest) ← split_at t q; Some (x :: pre, rest)
  end.

(** The threads of priority [p] at the front, and the others. *)
Fixpoint same_prio (pr : Z -> Z) (p : Z) (q : list Z) : list Z * list Z :=
  match q with
  | [] => ([], [])
  | x :: r => if pr x =? p then let '(block, rest) := same_prio pr p r in (x :: block, rest) else ([], q)
  end.

(** The search of [emplace_thread]: [None] if the thread is found before its
    place. *)
Fixpoint place (pr : Z -> Z) (push_first : bool) (cpu : Z) (q : list Z) : option (list Z) :=
  match q with
  | [] => Some [cpu]
  | next :: q' =>
      if next =? cpu then None
      else if (if push_first then pr next >=? pr cpu else pr next >? pr cpu) then Some (cpu :: q)
      else option_map (cons next) (place pr push_first cpu q')
  end.

Definition prio_of (s : sched) (t : Z) : Z := prio (threads s t).

(** ** Sleeping *)

Section config.
(** The class of a thread, and the settings [core.ppu_threads] and whether
    [core.sleep_timers_accuracy] is [_all_timers]. *)
Context (cls : Z -> thread_class.thread_class) (ppu_threads : nat) (all_timers : bool).

Definition on_to_sleep_update (s : sched) : sched :=
  match g_to_sleep s with [] => with_to_sleep [] true s | _ => s end.

(** [start_time + std::min<u64>(timeout, ~start_time)] *)
Definition deadline (start timeout : Z) : Z := start + Z.min timeout (umax - start).

Definition drop_ack (t : Z) (s : sched) : sched :=
  if ack_suspend (threads s t) then with_pending (wrap 32 (g_pending s - 1)) (on_thread t (with_ack false) s) else s.

Definition sleep_unlocked (t timeout current_time : Z) (s : sched) : option (sched * bool) :=
  let register s :=
    if timeout =? 0 then s else with_waiting (register_timeout (deadline current_time timeout) t (g_waiting s)) s in
  match cls t with
  | thread_class.ppu =>
      let return_val := negb (cancel_sleep (threads s t) =? 2) in
      let s := on_thread t (with_cancel 0) (drop_ack t s) in
      if has_flag s t cpu_flag.signal then Some (s, false)
      else if negb (timeout =? 0) && has_flag s t cpu_flag.notify then None
      else
        let s := on_thread t (with_state (add cpu_flag.suspend)) s in
        match unlink t (g_ppu s) with
        | None =>
            match unlink t (g_to_sleep s) with
            | Some l =>
                let s := on_thread t (fun x => with_times current_time (end_time x) x) (with_to_sleep l (run_requested s) s) in
                Some (on_to_sleep_update s, true)
            | None => Some (s, false)
            end
        | Some q =>
            let e := if timeout =? 0 then umax else deadline current_time timeout in
            let s := on_thread t (fun x => with_times current_time e (with_raddr 0 x)) (with_ppu q s) in
            Some (register s, return_val)
        end
  | thread_class.spu =>
      match unlink t (g_to_sleep s) with
      | Some l => Some (on_to_sleep_update (with_to_sleep l (run_requested s) s), true)
      | None => Some (s, false)
      end
  | _ => Some (register s, true)
  end.

(** ** Awaking *)

(** [set_prio]: the new priority, and a place behind or before all sleepers of
    the same priority. *)
Definition set_prio (t value : Z) (order_last order_first : bool) (s : sched) : sched :=
  let tag := g_priority_order_tag s + 1 in
  let s := if order_first || order_last then with_tag tag s else s in
  on_thread t (fun x =>
    with_prio (sext 13 value) (if order_first then sext 50 (Z.lnot tag) else if order_last then sext 50 tag else order x) x) s.

(** The number of threads on hardware threads, and whether others are ready. *)
Fixpoint count_onproc (q : list Z) (thread_count : nat) : bool * Z :=
  match q, thread_count with
  | [], _ => (false, 0)
  | _ :: _, O => (true, 0)
  | _ :: q, S n => let '(has_running, onproc) := count_onproc q n in (has_running, onproc + 1)
  end.

Definition count_non_sleeping_threads (s : sched) : bool * Z := count_onproc (g_ppu s) ppu_threads.

(** [emplace_thread]: whether the queue changed. *)
Definition emplace_thread (push_first : bool) (cpu : Z) (s : sched) : sched * bool :=
  match place (prio_of s) push_first cpu (g_ppu s) with
  | None => (if cancel_sleep (threads s cpu) =? 1 then on_thread cpu (with_cancel 2) s else s, false)
  | Some q => (with_waiting (unregister_timeout cpu (g_waiting s)) (with_ppu q s), true)
  end.

(** The loop over [g_to_awake]; also the lowest priority value that came in. *)
Fixpoint emplace_all (cpus : list Z) (s : sched) (changed : bool) (lowest : Z) : sched * bool * Z :=
  match cpus with
  | [] => (s, changed, lowest)
  | cpu :: cpus =>
      let '(s, ok) := emplace_thread false cpu s in
      emplace_all cpus s (ok || changed) (if ok then Z.min (prio_of s cpu) lowest else lowest)
  end.

(** The loop that suspends: [i] threads come before [q]. *)
Fixpoint suspend_from (i : nat) (q : list Z) (s : sched) : sched :=
  match q with
  | [] => s
  | t :: q =>
      let s :=
        if (ppu_threads <=? i)%nat && negb (has_flag s t cpu_flag.suspend) then
          let s := with_pending (wrap 32 (g_pending s + 1)) (on_thread t (fun x => with_state (add cpu_flag.suspend) (with_ack true x)) s) in
          if is_paused (sub cpu_flag.suspend (state (threads s t))) then notify_one t s else s
        else s in
      suspend_from (S i) q s
  end.

Definition is_ppu (t : option Z) : bool :=
  match t with Some t => bool_decide (cls t = thread_class.ppu) | None => false end.

(** The current thread has stopped: it need not be waited for. *)
Definition acknowledge (current : option Z) (s : sched) : option sched :=
  match current with
  | Some t =>
      if is_ppu current && ack_suspend (threads s t) then
        let s := on_thread t (with_ack false) s in
        if g_pending s =? 0 then None else Some (with_pending (g_pending s - 1) s)
      else Some s
  | None => Some s
  end.

(** The delay of a caller that woke a more urgent thread. *)
Definition delay_caller (current : option Z) (create_thread changed has_free : bool) (lowest : Z) (s : sched) : sched :=
  match current with
  | Some t =>
      if is_ppu current && changed && has_free && (prio_of s t >? lowest) && (create_thread || all_timers) then
        if negb (has_flag s t cpu_flag.yield) || negb (hw_sleep_time (threads s t) =? 0) then
          on_thread t (fun x => with_hw_sleep (wrap 32 (hw_sleep_time x + if create_thread then 51 else 35)) (with_state (add cpu_flag.yield) x)) s
        else on_thread t (fun x => with_hw_sleep 30000 (with_state (add cpu_flag.yield) x)) s
      else s
  | None => s
  end.

(** The thread goes behind the others of its priority: the new queue and its
    place there, or nothing if there are no others. *)
Definition rotate (cpu : Z) (s : sched) : option (list Z * nat) :=
  '(pre, rest) ← split_at cpu (g_ppu s);
  match same_prio (prio_of s) (prio_of s cpu) rest with
  | ([], _) => None
  | (block, rest) => Some (pre ++ block ++ cpu :: rest, (length pre + length block)%nat)
  end.

(** From the choice of [prio] on: emplaces, suspends, acknowledges. *)
Definition awake_rest (current : option Z) (create_thread : bool) (cpu : option Z) (cmd : Z) (to_awake : list Z) (s : sched) :
    option (sched * bool) :=
  let has_free := (count_non_sleeping_threads s).2 <? Z.of_nat ppu_threads in
  let cpus := match cpu with Some cpu => if cmd =? yield_cmd then to_awake else [cpu] | None => to_awake end in
  let '(s, changed, lowest) := emplace_all cpus s (cmd =? yield_cmd) smax in
  let s := suspend_from 0 (g_ppu s) s in
  s ← acknowledge current s;
  Some (delay_caller current create_thread changed has_free lowest s, changed).

(** [now] is [get_guest_system_time()]. *)
Definition awake_unlocked (current : option Z) (create_thread : bool) (now : Z) (cpu : option Z) (cmd : Z) (to_awake : list Z) (s : sched) :
    option (sched * bool) :=
  if cmd =? yield_cmd then
    match cpu with
    | None => Some (s, false)
    | Some t =>
        match rotate t s with
        | None => Some (s, false)
        | Some (q, i) =>
            let s := with_ppu q s in
            if (i <? ppu_threads)%nat then Some (s, false)
            else awake_rest current create_thread cpu cmd to_awake (on_thread t (fun x => with_times now (end_time x) x) s)
        end
    end
  else if cmd =? enqueue_cmd then awake_rest current create_thread cpu cmd to_awake s
  else
    t ← cpu;
    let old_prio := prio_of s t in
    if (old_prio =? cmd) && bool_decide (cpu = current) then Some (set_prio t cmd false false s, true)
    else
      match unlink t (g_ppu s) with
      | None => Some (set_prio t cmd (old_prio >? cmd) (old_prio <? cmd) s, true)
      | Some q => awake_rest current create_thread cpu cmd to_awake (set_prio t cmd false false (with_ppu q s))
      end.

(** ** Choosing who runs *)

(** One thread of the first [ppu_threads]. *)
Definition wake_up (t : Z) (s : sched) : sched :=
  if has_flag s t cpu_flag.suspend then
    let old := state (threads s t) in
    let remove_yield := if start_time (threads s t) =? 0 then [cpu_flag.suspend] else [cpu_flag.yield; cpu_flag.preempt] in
    let s := on_thread t (fun x =>
      with_times 0 (end_time x) (with_state (fun st => sub_all remove_yield (sub cpu_flag.suspend (add cpu_flag.signal st))) x)) s in
    if old cpu_flag.wait && negb (old cpu_flag.signal) then notify_one t s else s
  else s.

Definition wake_first (s : sched) : sched :=
  if (g_pending s =? 0) && g_scheduler_ready s then fold_left (fun s t => wake_up t s) (take ppu_threads (g_ppu s)) s else s.

(** The loop over the timeouts. *)
Fixpoint expire (current : option Z) (current_time : Z) (l : list (Z * Z)) (s : sched) : option sched :=
  match l with
  | [] => Some (with_waiting [] s)
  | (wait_until, t) :: l' =>
      if wait_until <=? current_time then
        if bool_decide (Some t = current) then expire current current_time l' s
        else if has_flag s t cpu_flag.notify then None
        else expire current current_time l' (notify_one t (on_thread t (with_state (add cpu_flag.notify)) s))
      else Some (with_waiting l s)
  end.

(** The thread that is asked to give way to other host threads. *)
Definition preempt_candidate (current : option Z) (s : sched) : option Z :=
  match List.find (fun t => none_of (state (threads s t)) [cpu_flag.preempt; cpu_flag.wait]) (take ppu_threads (g_ppu s)) with
  | Some t => Some t
  | None =>
      match g_ppu s with
      | t :: _ => if negb (has_flag s t cpu_flag.preempt) then Some t else
          match current with Some c => if negb (has_flag s c cpu_flag.suspend) then Some c else None | None => None end
      | [] => match current with Some c => if negb (has_flag s c cpu_flag.suspend) then Some c else None | None => None end
      end
  end.

Definition preempt (current : option Z) (tsc : Z) (s : sched) : sched :=
  let last_tsc := s_last_yield_tsc s in
  if negb (s_yield_frequency s =? 0) && (last_tsc <=? tsc) && (tsc <=? s_max_allowed_yield_tsc s) &&
     (s_yield_frequency s <=? tsc - last_tsc) then
    match preempt_candidate current s with
    | Some t =>
        if negb (has_flag s t cpu_flag.preempt)
        then with_preempts tsc (wrap 32 (g_lv2_preempts_taken s + 1)) (on_thread t (with_state (add cpu_flag.preempt)) s) else s
    | None => s
    end
  else s.

(** [schedule_all]; [current_time] zero stands for [now], [tsc] is
    [rx::get_tsc()]. *)
Definition schedule_all (current : option Z) (current_time now tsc : Z) (s : sched) : option sched :=
  let s := wake_first s in
  s ← expire current (if current_time =? 0 then now else current_time) (g_waiting s) s;
  Some (preempt current tsc s).

(** ** The public operations *)

Definition sleep (current : option Z) (cpu timeout current_time tsc : Z) (to_awake : list Z) (s : sched) : option (sched * bool) :=
  '(s, result) ← sleep_unlocked cpu timeout current_time s;
  s ← match to_awake with
      | [] => Some s
      | _ => r ← awake_unlocked current false current_time None enqueue_cmd to_awake s; Some r.1
      end;
  s ← schedule_all current current_time current_time tsc s;
  Some (s, result).

Definition awake (current : option Z) (create_thread : bool) (now tsc : Z) (cpu : option Z) (cmd : Z) (to_awake : list Z) (s : sched) :
    option (sched * bool) :=
  '(s, result) ← awake_unlocked current create_thread now cpu cmd to_awake s;
  s ← schedule_all current 0 now tsc s;
  Some (s, result).

(** [next_ppu] of a thread. *)
Definition next_ppu (t : Z) (s : sched) : option Z := '(_, rest) ← split_at t (g_ppu s); head rest.

Definition yield (current : option Z) (now tsc t : Z) (to_awake : list Z) (s : sched) : option (sched * bool) :=
  match cls t with
  | thread_class.ppu =>
      let s := on_thread t (with_raddr 0) s in
      match next_ppu t s with
      | None => Some (s, false)
      | Some _ => awake current false now tsc (Some t) yield_cmd to_awake s
      end
  | _ => awake current false now tsc (Some t) yield_cmd to_awake s
  end.

(** [ensure(prio + 512u < 3712)] *)
Definition set_priority (current : option Z) (now tsc t p : Z) (to_awake : list Z) (s : sched) : option (sched * bool) :=
  if wrap 32 (p + 512) <? 3712 then awake current false now tsc (Some t) p to_awake s else None.

Definition awake_all (current : option Z) (now tsc : Z) (to_awake : list Z) (s : sched) : option (sched * bool) :=
  awake current false now tsc None enqueue_cmd to_awake s.

Definition make_scheduler_ready (current : option Z) (now tsc : Z) (to_awake : list Z) (s : sched) : option (sched * bool) :=
  awake_all current now tsc to_awake (with_ready true s).

Definition set_future_sleep (cpu : Z) (s : sched) : sched := with_to_sleep (g_to_sleep s ++ [cpu]) (run_requested s) s.

Definition is_scheduler_ready (s : sched) : bool := match g_to_sleep s with [] => true | _ => false end.

(** [ppu_thread_status] *)
Inductive ppu_thread_status :=
  PPU_THREAD_STATUS_IDLE | PPU_THREAD_STATUS_RUNNABLE | PPU_THREAD_STATUS_ONPROC | PPU_THREAD_STATUS_SLEEP |
  PPU_THREAD_STATUS_STOP | PPU_THREAD_STATUS_ZOMBIE | PPU_THREAD_STATUS_DELETED | PPU_THREAD_STATUS_UNKNOWN.

Fixpoint position (t : Z) (i : nat) (q : list Z) : option nat :=
  match q with
  | [] => None
  | x :: q => if x =? t then Some i else position t (S i) q
  end.

(** [idle]: the thread has not been started; [interrupt_thread_executing] is
    false for an interrupt thread that waits for its interrupt. *)
Definition ppu_state (idle interrupt_thread_executing : bool) (t : Z) (s : sched) : ppu_thread_status * Z :=
  if idle then (PPU_THREAD_STATUS_IDLE, 0)
  else match joiner (threads s t) with
  | zombie => (PPU_THREAD_STATUS_ZOMBIE, 0)
  | exited => (PPU_THREAD_STATUS_DELETED, 0)
  | _ =>
      match position t 0 (g_ppu s) with
      | None => if negb interrupt_thread_executing then (PPU_THREAD_STATUS_STOP, 0) else (PPU_THREAD_STATUS_SLEEP, 0)
      | Some pos => if (ppu_threads <=? pos)%nat then (PPU_THREAD_STATUS_RUNNABLE, Z.of_nat pos) else (PPU_THREAD_STATUS_ONPROC, Z.of_nat pos)
      end
  end.

Definition cleanup (s : sched) : sched :=
  Sched (threads s) [] 0 [] [] false (g_priority_order_tag s) (notified s)
    (run_requested s) 0 (s_max_allowed_yield_tsc s) (s_last_yield_tsc s) (g_lv2_preempts_taken s).

Definition set_yield_frequency (freq max_allowed_tsc : Z) (s : sched) : sched :=
  Sched (threads s) (g_ppu s) (g_pending s) (g_waiting s) (g_to_sleep s) (g_scheduler_ready s) (g_priority_order_tag s) (notified s)
    (run_requested s) freq max_allowed_tsc (s_last_yield_tsc s) 0.

(** [ppu_thread::cpu_sleep]: a thread that found itself suspended stops. *)
Definition cpu_sleep (use_rtm : bool) (now tsc t : Z) (to_awake : list Z) (s : sched) : option (sched * bool) :=
  let s := on_thread t (fun x =>
    with_state (fun st => if use_rtm then add cpu_flag.wait st else add cpu_flag.memory (add cpu_flag.wait st)) (with_raddr 0 x)) s in
  awake (Some t) false now tsc (Some t) enqueue_cmd to_awake s.

(** ** The end of a thread *)

(** [joiner] when the thread exits, and when another one joins or detaches it;
    whether the one that joins goes to sleep. *)
Definition exit_op (status : ppu_join_status) : ppu_join_status := match status with joinable => zombie | _ => exited end.

Definition join_op (id : Z) (status : ppu_join_status) : ppu_join_status * bool :=
  match status with
  | joinable => (joined id, true)
  | zombie => (exited, false)
  | _ => (status, false)
  end.

Definition detach_op (status : ppu_join_status) : ppu_join_status :=
  match status with joinable => detached | zombie => exited | _ => status end.

(** [_sys_ppu_thread_exit]: the thread that joins is awakened, the thread itself
    leaves the queue, and its suspension is removed: it has the rest of the call
    to do. *)
Definition sys_ppu_thread_exit (now tsc t : Z) (s : sched) : option sched :=
  let s := on_thread t (with_state (add cpu_flag.wait)) s in
  let old_status := joiner (threads s t) in
  let s := on_thread t (with_joiner (exit_op old_status)) s in
  r ← sleep (Some t) t 0 now tsc (match old_status with joined id => [id] | _ => [] end) s;
  Some (on_thread t (with_state (sub cpu_flag.suspend)) r.1).

(** [sys_ppu_thread_join] up to the wait for the other thread. *)
Definition sys_ppu_thread_join (now tsc t thread_id : Z) (s : sched) : option sched :=
  if thread_id =? t then Some s
  else
    let '(status, waits) := join_op t (joiner (threads s thread_id)) in
    let s := on_thread thread_id (with_joiner status) s in
    if waits then fst <$> sleep (Some t) t 0 now tsc [] s else Some s.

Definition sys_ppu_thread_detach (thread_id : Z) (s : sched) : sched := on_thread thread_id (fun x => with_joiner (detach_op (joiner x)) x) s.

(** A PPU thread made from a savestate is suspended by its constructor; a
    thread of an SPU group is made as it is. *)
Definition load_thread (t : Z) (x : thread) (s : sched) : sched :=
  let x := if bool_decide (cls t = thread_class.ppu) then with_state (add cpu_flag.suspend) x else x in
  set_future_sleep t (with_threads (upd (threads s) t x) s).

(** ** Steps *)

(** What can happen, with the data that comes from outside. *)
Inductive op :=
| Sleep (t timeout now tsc : Z) (to_awake : list Z)
| Awake (current : option Z) (create_thread : bool) (now tsc t : Z)
| AwakeAll (current : option Z) (now tsc : Z) (to_awake : list Z)
| Yield (now tsc t : Z)
| SetPriority (current : option Z) (now tsc t p : Z)
| CheckState (t : Z) (listed : bool) (moved : option bool) (l : check_locals)
| CpuSleep (use_rtm : bool) (now tsc t : Z)
| CancelSleep (t c : Z)
| Flag (t : Z) (f : cpu_flag.cpu_flag) (b : bool)
| Load (t : Z) (x : thread)
| Exit (now tsc t : Z)
| Join (now tsc t thread_id : Z)
| Detach (thread_id : Z)
| Ready (now tsc : Z) (to_awake : list Z)
| YieldFrequency (freq max_allowed_tsc : Z).

(** A step: of a PPU thread on itself or another one, of the thread that sets
    flags other than the scheduler's, of the loader of a savestate. *)
Definition step (o : op) (s : sched) : option sched :=
  match o with
  | Sleep t timeout now tsc to_awake => fst <$> sleep (Some t) t timeout now tsc to_awake s
  | Awake current create_thread now tsc t => fst <$> awake current create_thread now tsc (Some t) enqueue_cmd [] s
  | AwakeAll current now tsc to_awake => fst <$> awake_all current now tsc to_awake s
  | Yield now tsc t => fst <$> yield (Some t) now tsc t [] s
  | SetPriority current now tsc t p => fst <$> set_priority current now tsc t p [] s
  | CheckState t listed moved l => Some (on_thread t (with_state (fun st => (check_op listed moved l st).2)) s)
  | CpuSleep use_rtm now tsc t => fst <$> cpu_sleep use_rtm now tsc t [] s
  | CancelSleep t c => Some (on_thread t (with_cancel c) s)
  | Flag t f b => Some (on_thread t (with_state (if b then add f else sub f)) s)
  | Load t x => Some (load_thread t x s)
  | Exit now tsc t => sys_ppu_thread_exit now tsc t s
  | Join now tsc t thread_id => sys_ppu_thread_join now tsc t thread_id s
  | Detach thread_id => Some (sys_ppu_thread_detach thread_id s)
  | Ready now tsc to_awake => fst <$> make_scheduler_ready None now tsc to_awake s
  | YieldFrequency freq max_allowed_tsc => Some (set_yield_frequency freq max_allowed_tsc s)
  end.

(** The thread has exited: it runs no guest code any more. *)
Definition gone (s : sched) (t : Z) : bool := match joiner (threads s t) with zombie | exited => true | _ => false end.

(** Who may be awakened: PPU threads that need not sleep first and have not
    exited. *)
Definition may_awake (s : sched) (t : Z) : bool := bool_decide (cls t = thread_class.ppu /\ t ∉ g_to_sleep s) && negb (gone s t).

(** What callers keep to.  A thread that sleeps is a PPU or SPU thread; only
    threads that have not exited are awakened; a thread that finds itself
    suspended is in the queue or may be awakened; the new priority is an [s32].
    Only the scheduler and [_sys_ppu_thread_exit] change the suspension of a
    PPU thread (that of an SPU thread belongs to its group), and only the
    scheduler sets a notification.  A loaded thread is new.  A thread that exits
    is a PPU thread that has not done so before and has no signal left (with
    one [sleep] does nothing, see [exit_with_signal]), and the thread that
    joins it is another one. *)
Definition allowed (o : op) (s : sched) : bool :=
  match o with
  | Sleep t _ _ _ to_awake => bool_decide (cls t = thread_class.ppu \/ cls t = thread_class.spu) && forallb (may_awake s) to_awake
  | Awake _ _ _ _ t => may_awake s t
  | AwakeAll _ _ _ to_awake | Ready _ _ to_awake => forallb (may_awake s) to_awake
  | Yield _ _ _ => true
  | SetPriority _ _ _ _ p => (- 2 ^ 31 <=? p) && (p <? 2 ^ 31)
  | CheckState _ _ _ _ => true
  | CpuSleep _ _ _ t => may_awake s t || bool_decide (t ∈ g_ppu s)
  | CancelSleep _ _ => true
  | Flag t f b => (bool_decide (f <> cpu_flag.notify) || negb b) && (bool_decide (f <> cpu_flag.suspend) || negb (bool_decide (cls t = thread_class.ppu)))
  | Load t x => negb (ack_suspend x) && negb (ack_suspend (threads s t)) && bool_decide (t ∉ g_ppu s) && bool_decide (t ∉ g_to_sleep s) &&
      bool_decide (t ∉ map snd (g_waiting s))
  | Exit _ _ t => bool_decide (cls t = thread_class.ppu) && negb (gone s t) && negb (has_flag s t cpu_flag.signal) &&
      match joiner (threads s t) with joined id => may_awake s id && negb (id =? t) | _ => true end
  | Join _ _ t _ => bool_decide (cls t = thread_class.ppu)
  | Detach _ => true
  | YieldFrequency _ _ => true
  end.

Fixpoint run (ops : list op) (s : sched) : option sched :=
  match ops with
  | [] => Some s
  | o :: ops => if allowed o s then s ← step o s; run ops s else None
  end.

(** The scheduler before the first thread: threads are made suspended. *)
Definition initial (x : Z -> thread) : sched := Sched x [] 0 [] [] false 0 [] false 0 0 0 0.

End config.
