(* ===== verification/Lv2SchedulerProofs.v ===== *)
(** * LV2 kernel: theorems on the scheduler

    The invariant of [Lv2Scheduler]: the queue is sorted, [g_pending] counts
    the threads that were told to stop and have not, and with them at most
    [ppu_threads] threads hold a hardware thread, whatever is done in whatever
    order; and what every operation does to the queue. *)
From S2P Require Import Prelude Threads CpuState Lv2Scheduler.
From Stdlib Require Import Sorted Permutation.

(** ** Lists *)

Lemma countb_ext {A} (P Q : A -> bool) l : (forall x, x ∈ l -> P x = Q x) -> countb P l = countb Q l.
Proof.
  induction l as [|x l IH]; intros H; cbn; [done|]. rewrite (H x), IH; [done| |left]. intros y Hy. apply H. by right.
Qed.

Lemma countb_app {A} (P : A -> bool) l1 l2 : countb P (l1 ++ l2) = countb P l1 + countb P l2.
Proof. induction l1 as [|x l1 IH]; cbn; [done|]. rewrite IH. lia. Qed.

Lemma countb_perm {A} (P : A -> bool) l l' : l ≡ₚ l' -> countb P l = countb P l'.
Proof. induction 1; cbn; lia. Qed.

Lemma countb_zero {A} (P : A -> bool) l : (forall x, x ∈ l -> P x = false) -> countb P l = 0.
Proof. induction l as [|x l IH]; intros H; cbn; [done|]. rewrite (H x), IH; [done| |left]. intros y Hy. apply H. by right. Qed.

Lemma countb_le {A} (P Q : A -> bool) l : (forall x, P x = true -> Q x = true) -> countb P l <= countb Q l.
Proof.
  intros H. induction l as [|x l IH]; cbn; [done|]. specialize (H x). destruct (P x), (Q x); cbn; try (lia || naive_solver).
Qed.

(** The count after one element changed. *)
Lemma countb_one (P Q : Z -> bool) l t : NoDup l -> t ∈ l -> (forall x, x <> t -> Q x = P x) ->
  countb Q l = countb P l - Z.b2z (P t) + Z.b2z (Q t).
Proof.
  intros Hnd Hin H. apply list_elem_of_split in Hin as (l1 & l2 & ->). rewrite !countb_app. cbn.
  apply NoDup_app in Hnd as (_ & Hnd1 & Hnd2). apply NoDup_cons in Hnd2 as [Hnd2 _].
  rewrite (countb_ext Q P l1), (countb_ext Q P l2); [lia|..]; intros x Hx; apply H; [by intros ->|]. intros ->. apply (Hnd1 t Hx). left.
Qed.

Lemma countb_bound {A} (P : A -> bool) (n : nat) l : (forall x, x ∈ drop n l -> P x = false) -> countb P l <= Z.of_nat n.
Proof.
  intros H. rewrite <- (take_drop n l), countb_app, (countb_zero P (drop n l)) by done.
  pose proof (countb_range P (take n l)). rewrite length_take in *. lia.
Qed.

Lemma countb_members {A} (P : A -> bool) l q : NoDup l -> (forall x, x ∈ l -> x ∈ q /\ P x = true) -> Z.of_nat (length l) <= countb P q.
Proof.
  intros Hnd H. assert (l ⊆+ q) as [k Hk]%submseteq_Permutation by (apply NoDup_submseteq; [done|]; intros x Hx; by apply H).
  rewrite (countb_perm _ _ _ Hk), countb_app. pose proof (countb_range P k). assert (countb P l = Z.of_nat (length l)); [|lia].
  clear -H. induction l as [|x l IH]; cbn; [done|]. destruct (H x ltac:(left)) as [_ ->]. rewrite IH; [cbn; lia|]. intros y Hy. apply H. by right.
Qed.

Section sorted.
Context {A : Type} (R : A -> A -> Prop).

Lemma ssorted_app l1 l2 : StronglySorted R (l1 ++ l2) <->
  StronglySorted R l1 /\ StronglySorted R l2 /\ forall x y, x ∈ l1 -> y ∈ l2 -> R x y.
Proof.
  induction l1 as [|x l1 IH]; cbn.
  - split; [|by intros (_ & ? & _)]. intros H. split_and!; [constructor|done|]. by intros ? ? ?%not_elem_of_nil.
  - split.
    + intros [H1 H2]%StronglySorted_inv. apply IH in H1 as (H1 & H3 & H4). apply Forall_app in H2 as [H2 H5]. split_and!; [by constructor|done|].
      intros a b [->|Ha]%elem_of_cons Hb; [by eapply Forall_forall in H5|by apply H4].
    + intros ([H1 H2]%StronglySorted_inv & H3 & H4). constructor; [apply IH; split_and!; [done..|]|].
      * intros a b Ha. apply H4. by right.
      * apply Forall_app. split; [done|]. apply Forall_forall. intros b. apply H4. left.
Qed.

Lemma ssorted_cons x l : StronglySorted R (x :: l) <-> StronglySorted R l /\ forall y, y ∈ l -> R x y.
Proof.
  split; [intros [H1 H2]%StronglySorted_inv|intros [H1 H2]; constructor; [done|]; by apply Forall_forall].
  split; [done|]. intros y Hy. by eapply Forall_forall in H2.
Qed.

Lemma ssorted_remove l t r : StronglySorted R (l ++ t :: r) -> StronglySorted R (l ++ r).
Proof.
  rewrite !ssorted_app, ssorted_cons. intros (H1 & [H2 _] & H3). split_and!; [done..|]. intros. apply H3; [done|]. by right.
Qed.
End sorted.

Lemma ssorted_ext {A} (R R' : A -> A -> Prop) l : (forall x y, x ∈ l -> y ∈ l -> R x y -> R' x y) -> StronglySorted R l -> StronglySorted R' l.
Proof.
  induction l as [|x l IH]; intros H; [constructor|]. rewrite !ssorted_cons. intros [H1 H2]. split.
  - apply IH; [|done]. intros a b Ha Hb. apply H; by right.
  - intros y Hy. apply H; [left|by right|by apply H2].
Qed.

(** ** The list operations *)

Lemma unlink_some t q q' : unlink t q = Some q' -> exists l r, q = l ++ t :: r /\ q' = l ++ r /\ t ∉ l.
Proof.
  revert q'. induction q as [|x q IH]; intros q'; cbn; [done|]. destruct (Z.eqb_spec x t) as [->|Hne].
  - intros [= <-]. exists [], q. split_and!; [done..|]. apply not_elem_of_nil.
  - destruct (unlink t q) as [q0|]; [|done]. intros [= <-]. destruct (IH q0 eq_refl) as (l & r & -> & -> & Hl).
    exists (x :: l), r. split_and!; [done..|]. apply not_elem_of_cons. done.
Qed.

Lemma unlink_none t q : unlink t q = None -> t ∉ q.
Proof.
  induction q as [|x q IH]; cbn; [intros _; apply not_elem_of_nil|]. destruct (Z.eqb_spec x t) as [->|Hne]; [done|].
  destruct (unlink t q); [done|]. intros _. apply not_elem_of_cons. split; [done|by apply IH].
Qed.

Lemma unlink_in t q : t ∈ q -> exists q', unlink t q = Some q'.
Proof. intros H. destruct (unlink t q) as [q'|] eqn:E; [by exists q'|]. by apply unlink_none in E. Qed.

Abbreviation by_prio pr := (StronglySorted (fun a b => pr a <= pr b)).

(** A thread of a sorted queue is found, and a new one goes behind all that
    are as urgent. *)
Lemma place_in (pr : Z -> Z) t q : by_prio pr q -> t ∈ q -> place pr false t q = None.
Proof.
  induction q as [|x q IH]; [by intros _ ?%not_elem_of_nil|]. cbn. rewrite ssorted_cons. intros [Hs Hx] Hin.
  destruct (Z.eqb_spec x t) as [->|Hne]; [done|]. apply elem_of_cons in Hin as [->|Hin]; [done|].
  rewrite Z.gtb_ltb, (proj2 (Z.ltb_ge _ _)) by (by apply Hx). by rewrite IH.
Qed.

Lemma place_new (pr : Z -> Z) t q : by_prio pr q -> t ∉ q ->
  exists l r, q = l ++ r /\ place pr false t q = Some (l ++ t :: r) /\
    (forall x, x ∈ l -> pr x <= pr t) /\ (forall x, x ∈ r -> pr t < pr x).
Proof.
  induction q as [|x q IH]; cbn.
  - intros _ _. exists [], []. split_and!; [done..| |]; by intros ? ?%not_elem_of_nil.
  - rewrite ssorted_cons, not_elem_of_cons. intros [Hs Hx] [Hne Hin]. rewrite (proj2 (Z.eqb_neq x t)) by done.
    destruct (Z.gtb_spec (pr x) (pr t)) as [Hgt|Hle].
    + exists [], (x :: q). split_and!; [done..| |]; [by intros ? ?%not_elem_of_nil|].
      intros y [->|Hy]%elem_of_cons; [done|]. specialize (Hx y Hy). lia.
    + destruct (IH Hs Hin) as (l & r & -> & -> & Hl & Hr). exists (x :: l), r. split_and!; [done..| |done].
      intros y [->|Hy]%elem_of_cons; [done|by apply Hl].
Qed.

Lemma place_sorted (pr : Z -> Z) t l r : by_prio pr (l ++ r) -> (forall x, x ∈ l -> pr x <= pr t) -> (forall x, x ∈ r -> pr t < pr x) ->
  by_prio pr (l ++ t :: r).
Proof.
  rewrite !ssorted_app, ssorted_cons. intros (H1 & H2 & H3) Hl Hr. split_and!; [done..|by intros y Hy%Hr; lia|].
  intros x y Hx [->|Hy]%elem_of_cons; [by apply Hl|by apply H3].
Qed.

Lemma split_at_some t q pre rest : split_at t q = Some (pre, rest) -> q = pre ++ t :: rest.
Proof.
  revert pre. induction q as [|x q IH]; intros pre; cbn; [done|]. destruct (Z.eqb_spec x t) as [->|_]; [by intros [= <- <-]|].
  destruct (split_at t q) as [[p r]|]; [|done]. cbn. intros [= <- <-]. by rewrite (IH p eq_refl).
Qed.

Lemma split_at_in t q : NoDup q -> t ∈ q -> forall l r, q = l ++ t :: r -> split_at t q = Some (l, r).
Proof.
  intros Hnd Hin l. revert q Hnd Hin. induction l as [|x l IH]; intros q Hnd Hin r ->; cbn.
  - by rewrite Z.eqb_refl.
  - cbn in Hnd. apply NoDup_cons in Hnd as [Hx Hnd]. rewrite (proj2 (Z.eqb_neq x t)) by (intros ->; set_solver).
    by rewrite (IH _ Hnd ltac:(set_solver) r eq_refl).
Qed.

Lemma same_prio_spec (pr : Z -> Z) p q : let '(block, rest) := same_prio pr p q in
  q = block ++ rest /\ (forall x, x ∈ block -> pr x = p) /\ match rest with [] => True | x :: _ => pr x <> p end.
Proof.
  induction q as [|x q IH]; cbn; [split_and!; [done| |done]; by intros ? ?%not_elem_of_nil|].
  destruct (Z.eqb_spec (pr x) p) as [E|E].
  - destruct (same_prio pr p q) as [b r]. destruct IH as (-> & H1 & H2). split_and!; [done| |done].
    intros y [->|Hy]%elem_of_cons; [done|by apply H1].
  - split_and!; [done| |done]. by intros ? ?%not_elem_of_nil.
Qed.

Abbreviation by_time := (StronglySorted (fun a b : Z * Z => a.1 <= b.1)).

Lemma register_perm w t l : register_timeout w t l ≡ₚ (w, t) :: l.
Proof.
  induction l as [|p l IH]; cbn; [done|]. destruct (p.1 >? w); [done|]. rewrite IH. apply Permutation_swap.
Qed.

Lemma register_sorted w t l : by_time l -> by_time (register_timeout w t l).
Proof.
  induction l as [|p l IH]; cbn; [intros _; apply ssorted_cons; split; [constructor|by intros ? ?%not_elem_of_nil]|].
  rewrite ssorted_cons. intros [Hs Hp]. destruct (Z.gtb_spec p.1 w) as [Hgt|Hle]; rewrite !ssorted_cons.
  - split_and!; [done..|]. intros y [->|Hy]%elem_of_cons; cbn; [lia|]. specialize (Hp y Hy). lia.
  - split; [by apply IH|]. intros y. rewrite register_perm, elem_of_cons. intros [->|Hy]; [done|by apply Hp].
Qed.

Lemma unregister_elem t l p : p ∈ unregister_timeout t l -> p ∈ l.
Proof.
  induction l as [|x l IH]; cbn; [done|]. destruct (_ =? _); [by right|]. intros [->|H]%elem_of_cons; [left|right; by apply IH].
Qed.

Lemma unregister_sorted t l : by_time l -> by_time (unregister_timeout t l).
Proof.
  induction l as [|p l IH]; cbn; [done|]. rewrite ssorted_cons. intros [Hs Hp]. destruct (_ =? _); [done|].
  apply ssorted_cons. split; [by apply IH|]. intros y Hy%unregister_elem. by apply Hp.
Qed.

Lemma unregister_ids t l : NoDup (map snd l) ->
  NoDup (map snd (unregister_timeout t l)) /\ forall x, x ∈ map snd (unregister_timeout t l) <-> x ∈ map snd l /\ x <> t.
Proof.
  induction l as [|p l IH]; cbn; [intros _; split; [constructor|set_solver]|]. intros [Hp Hnd]%NoDup_cons. destruct (IH Hnd) as [H1 H2].
  destruct (Z.eqb_spec p.2 t) as [<-|Hne]; [split; [done|]; intros x; rewrite elem_of_cons; set_solver|]. cbn. split.
  - apply NoDup_cons. split; [|done]. by rewrite H2; intros [? _].
  - intros x. rewrite !elem_of_cons, H2. set_solver.
Qed.

(** ** The invariant *)

Section config.
Context (cls : Z -> thread_class.thread_class) (N : nat) (all_timers : bool).
Context (HN : Z.of_nat N < 2 ^ 32).

Definition suspended (s : sched) (t : Z) : bool := has_flag s t cpu_flag.suspend.
Definition acked (s : sched) (t : Z) : bool := ack_suspend (threads s t).

(** The thread holds a hardware thread: it may run, or it has not yet seen
    that it may not. *)
Definition holds_hw (s : sched) (t : Z) : bool := negb (suspended s t) || acked s t.

(** What holds between the parts of an operation. *)
Record inv0 (s : sched) : Prop := Inv0 {
  i_nodup : NoDup (g_ppu s);
  i_sorted : by_prio (prio_of s) (g_ppu s);
  i_ppu : forall t, t ∈ g_ppu s -> cls t = thread_class.ppu /\ t ∉ g_to_sleep s;
  i_ack : forall t, acked s t = true -> t ∈ g_ppu s /\ suspended s t = true;
  i_pending : g_pending s = countb (acked s) (g_ppu s);
  i_out : forall t, cls t = thread_class.ppu -> suspended s t = false -> t ∈ g_ppu s \/ gone s t = true;
  i_count : countb (holds_hw s) (g_ppu s) <= Z.of_nat N;
  i_ids : NoDup (map snd (g_waiting s));
  i_waiting : forall t, t ∈ map snd (g_waiting s) -> (t ∉ g_ppu s) /\ has_flag s t cpu_flag.notify = false;
  i_times : by_time (g_waiting s) }.

(** And between operations: who is not suspended is among the first. *)
Definition inv (s : sched) : Prop := inv0 s /\ forall t, t ∈ drop N (g_ppu s) -> suspended s t = true.

(** States that differ in nothing the invariant reads, except that the
    notification of a thread may be gone. *)
Record alike (s s' : sched) : Prop := Alike {
  a_ppu : g_ppu s' = g_ppu s;
  a_pending : g_pending s' = g_pending s;
  a_waiting : g_waiting s' = g_waiting s;
  a_to_sleep : g_to_sleep s' = g_to_sleep s;
  a_prio t : prio_of s' t = prio_of s t;
  a_suspended t : suspended s' t = suspended s t;
  a_acked t : acked s' t = acked s t;
  a_notify t : has_flag s t cpu_flag.notify = false -> has_flag s' t cpu_flag.notify = false;
  a_gone t : gone s' t = gone s t }.

Lemma alike_inv0 s s' : alike s s' -> inv0 s -> inv0 s'.
Proof.
  intros [E1 E2 E3 E4 E5 E6 E7 E8 Eg] [H1 H2 H3 H4 H5 H6 H7 H8 H9 H10].
  assert (forall t, holds_hw s' t = holds_hw s t) as E9 by (intros t; unfold holds_hw; by rewrite E6, E7).
  split; rewrite ?E1, ?E2, ?E3, ?E4; try done.
  - eapply ssorted_ext; [|exact H2]. intros x y _ _. by rewrite !E5.
  - intros t. rewrite E7, E6. apply H4.
  - rewrite H5. apply countb_ext. intros. by rewrite E7.
  - intros t. rewrite E6, Eg. apply H6.
  - by rewrite (countb_ext (holds_hw s') (holds_hw s)).
  - intros t Ht. destruct (H9 t Ht). split; [done|by apply E8].
Qed.

Lemma alike_inv s s' : alike s s' -> inv s -> inv s'.
Proof.
  intros Ha [H1 H2]. split; [by eapply alike_inv0|]. intros t. rewrite (a_ppu _ _ Ha), (a_suspended _ _ Ha). apply H2.
Qed.

Lemma alike_refl s : alike s s.
Proof. by split. Qed.

Lemma alike_trans s1 s2 s3 : alike s1 s2 -> alike s2 s3 -> alike s1 s3.
Proof. intros [] []. split; intros; try congruence; auto. Qed.

(** Changes of one thread. *)
Lemma threads_on t f s u : threads (on_thread t f s) u = if decide (u = t) then f (threads s t) else threads s u.
Proof. unfold on_thread. cbn. case_decide as H; [subst; by rewrite upd_eq|by rewrite upd_ne]. Qed.

Lemma on_thread_alike t f s :
  prio (f (threads s t)) = prio (threads s t) ->
  state (f (threads s t)) cpu_flag.suspend = state (threads s t) cpu_flag.suspend ->
  ack_suspend (f (threads s t)) = ack_suspend (threads s t) ->
  (state (threads s t) cpu_flag.notify = false -> state (f (threads s t)) cpu_flag.notify = false) ->
  joiner (f (threads s t)) = joiner (threads s t) ->
  alike s (on_thread t f s).
Proof.
  intros H1 H2 H3 H4 H5. split; try done; intros u; unfold prio_of, suspended, acked, has_flag, gone; rewrite threads_on; case_decide as E; subst; rewrite ?H5; done.
Qed.

(** A flag of one thread. *)
Lemma has_flag_on t f s u g : has_flag (on_thread t (with_state f) s) u g = if decide (u = t) then f (state (threads s t)) g else has_flag s u g.
Proof. unfold has_flag. rewrite threads_on. by case_decide. Qed.

(** ** Parts that leave the invariant's data alone *)

Lemma delay_alike current c ch hf lo s : alike s (delay_caller cls all_timers current c ch hf lo s).
Proof.
  unfold delay_caller. destruct current as [t|]; [|apply alike_refl]. destruct (_ && _); [|apply alike_refl].
  destruct (_ || _); apply on_thread_alike; done.
Qed.

Lemma preempt_alike current tsc s : alike s (preempt N current tsc s).
Proof.
  unfold preempt. destruct (_ && _); [|apply alike_refl]. destruct (preempt_candidate _ _ _) as [t|]; [|apply alike_refl].
  destruct (negb _); [|apply alike_refl]. eapply alike_trans; [by apply (on_thread_alike t (with_state (add cpu_flag.preempt)))|]. by split.
Qed.

Lemma cancel_alike t c s : alike s (on_thread t (with_cancel c) s).
Proof. by apply on_thread_alike. Qed.

Lemma check_consume_flag listed moved l s f : f ∈ [cpu_flag.suspend; cpu_flag.notify] ->
  (check_consume listed moved l s).2 f = (if decide (f = cpu_flag.notify) then false else s f).
Proof.
  intros Hf. unfold check_consume. cbn -[sub add].
  assert (f = cpu_flag.suspend \/ f = cpu_flag.notify) as [-> | ->] by set_solver; clear Hf;
    repeat match goal with |- context [if ?b then _ else _] => lazymatch b with decide _ => fail | _ => destruct b end end;
    unfold check_dbg_step; repeat (destruct moved as [[]|]); flags_simpl; done.
Qed.

(** [check_state] never changes the suspension, and takes the notification. *)
Lemma check_op_flag listed moved l s f : f ∈ [cpu_flag.suspend; cpu_flag.notify] ->
  (check_op listed moved l s).2 f = (if decide (f = cpu_flag.notify) then false else s f).
Proof.
  intros Hf. unfold check_op. rewrite <- (check_consume_flag listed moved l s f Hf).
  destruct (check_consume listed moved l s) as [[ca me st es rv] s0]. cbn [snd]. unfold check_decide.
  assert (f = cpu_flag.suspend \/ f = cpu_flag.notify) as [-> | ->] by set_solver; clear Hf;
    repeat match goal with |- context [if ?b then _ else _] => destruct b end; cbn [snd]; flags_simpl; done.
Qed.

(** ** Entering the queue *)

(** Threads that may get a place. *)
Definition ready (s : sched) (t : Z) : Prop := cls t = thread_class.ppu /\ (t ∉ g_to_sleep s) /\ (t ∈ g_ppu s \/ gone s t = false).

Lemma ready_keeps s s' t : ready s t -> (forall u, u ∈ g_to_sleep s' -> u ∈ g_to_sleep s) -> (t ∈ g_ppu s -> t ∈ g_ppu s') -> gone s' t = gone s t -> ready s' t.
Proof. intros (H1 & H2 & H3) Hts Hq Hg. unfold ready. rewrite Hg. naive_solver. Qed.

(** A thread gets a place: it was outside, or it was taken out before. *)
Lemma inv0_placed s s' t : inv0 s -> ready s t ->
  (g_ppu s' ≡ₚ t :: g_ppu s /\ t ∉ g_ppu s) \/ (g_ppu s' ≡ₚ g_ppu s /\ t ∈ g_ppu s) ->
  by_prio (prio_of s') (g_ppu s') -> g_pending s' = g_pending s -> g_to_sleep s' = g_to_sleep s ->
  g_waiting s' = unregister_timeout t (g_waiting s) ->
  (forall u, suspended s' u = suspended s u /\ acked s' u = acked s u /\ has_flag s' u cpu_flag.notify = has_flag s u cpu_flag.notify /\ gone s' u = gone s u) ->
  inv0 s'.
Proof.
  intros [H1 H2 H3 H4 H5 H6 H7 H8 H9 H10] (Hc & Hts & Hlive) Hq Hs Ep Et Ew Hf.
  assert (forall u, u ∈ g_ppu s' <-> u = t \/ u ∈ g_ppu s) as Hin.
  { intros u. destruct Hq as [[-> _]|[-> Hin]]; [apply elem_of_cons|]. split; [by right|]. by intros [->|]. }
  assert (forall P, (t ∉ g_ppu s -> P t = false) -> countb P (g_ppu s') = countb P (g_ppu s)) as Hcount.
  { intros P HP. destruct Hq as [[Hq Hn]|[Hq _]]; rewrite (countb_perm P _ _ Hq); [|done]. cbn. by rewrite HP. }
  assert (forall u, holds_hw s' u = holds_hw s u) as Eh by (intros u; unfold holds_hw; destruct (Hf u) as (-> & -> & _); done).
  assert (t ∉ g_ppu s -> acked s t = false) as Ha.
  { intros Hn. destruct (acked s t) eqn:E; [|done]. by destruct (H4 t E). }
  assert (t ∉ g_ppu s -> holds_hw s t = false) as Hh.
  { intros Hn. unfold holds_hw. rewrite (Ha Hn), orb_false_r. destruct (suspended s t) eqn:E; [done|]. destruct Hlive, (H6 t Hc E); congruence. }
  destruct (unregister_ids t _ H8) as [H8' Hids].
  split; rewrite ?Ep, ?Et, ?Ew; try done.
  - destruct Hq as [[-> Hn]|[-> _]]; [by apply NoDup_cons|done].
  - intros u [->|Hu]%Hin; [done|by apply H3].
  - intros u. destruct (Hf u) as (-> & -> & _). intros Hu. destruct (H4 u Hu). split; [|done]. apply Hin. by right.
  - rewrite H5, (countb_ext (acked s') (acked s)) by (intros u _; apply Hf). by rewrite Hcount.
  - intros u Hu. destruct (Hf u) as (-> & _ & _ & ->). intros Hsu. destruct (H6 u Hu Hsu); [left; apply Hin; by right|by right].
  - rewrite (countb_ext _ (holds_hw s)) by (intros; apply Eh). by rewrite Hcount.
  - intros u [Hu Hne]%Hids. destruct (Hf u) as (_ & _ & -> & _). destruct (H9 u Hu). split; [|done]. rewrite Hin. by intros [].
  - by apply unregister_sorted.
Qed.

Lemma emplace_in s t : inv0 s -> t ∈ g_ppu s ->
  emplace_thread false t s = (if cancel_sleep (threads s t) =? 1 then on_thread t (with_cancel 2) s else s, false).
Proof. intros Hi Ht. unfold emplace_thread. by rewrite place_in by (done || apply Hi). Qed.

(** The thread goes behind the ones that are as urgent. *)
Lemma emplace_new s t : inv0 s -> t ∉ g_ppu s -> exists l r, g_ppu s = l ++ r /\
  emplace_thread false t s = (with_waiting (unregister_timeout t (g_waiting s)) (with_ppu (l ++ t :: r) s), true) /\
  (forall x, x ∈ l -> prio_of s x <= prio_of s t) /\ (forall x, x ∈ r -> prio_of s t < prio_of s x).
Proof.
  intros Hi Ht. destruct (place_new (prio_of s) t (g_ppu s)) as (l & r & Hq & Hp & Hl & Hr); [apply Hi|done|].
  exists l, r. split; [done|]. split; [|done]. unfold emplace_thread. by rewrite Hp.
Qed.

Lemma emplace_inv0 s t : inv0 s -> ready s t ->
  inv0 (emplace_thread false t s).1 /\ g_to_sleep (emplace_thread false t s).1 = g_to_sleep s /\
  (forall u, u ∈ g_ppu s -> u ∈ g_ppu (emplace_thread false t s).1) /\ (forall u, gone (emplace_thread false t s).1 u = gone s u).
Proof.
  intros Hi Hc. destruct (decide (t ∈ g_ppu s)) as [Hin|Hn].
  - rewrite emplace_in by done. cbn [fst]. case_match; [|done]. pose proof (cancel_alike t 2 s) as Ha.
    split_and!; [by eapply alike_inv0|done|by rewrite (a_ppu _ _ Ha)|apply (a_gone _ _ Ha)].
  - destruct (emplace_new s t Hi Hn) as (l & r & Hq & -> & Hl & Hr). cbn [fst]. split_and!; [|done|cbn [g_ppu with_waiting with_ppu]; rewrite Hq; set_solver|done].
    apply (inv0_placed s _ t); try done.
    + left. split; [|done]. cbn. rewrite Hq. by rewrite Permutation_middle.
    + cbn [g_ppu with_waiting with_ppu]. apply (place_sorted (prio_of s)); [|done..]. rewrite <- Hq. apply Hi.
Qed.

Lemma emplace_all_inv0 cpus s ch lo : inv0 s -> (forall t, t ∈ cpus -> ready s t) ->
  exists s' ch' lo', emplace_all cpus s ch lo = (s', ch', lo') /\ inv0 s' /\ g_to_sleep s' = g_to_sleep s.
Proof.
  revert s ch lo. induction cpus as [|t cpus IH]; intros s ch lo Hi Hc; [by exists s, ch, lo|]. cbn [emplace_all].
  destruct (emplace_inv0 s t Hi (Hc t ltac:(left))) as (Hi' & Ets & Hq & Hg).
  destruct (emplace_thread false t s) as [s1 ok]. cbn [fst] in Hi', Ets, Hq, Hg.
  destruct (IH s1 (ok || ch) (if ok then Z.min (prio_of s1 t) lo else lo) Hi') as (s' & ch' & lo' & E & H1 & H2).
  { intros u Hu. apply (ready_keeps s); [apply Hc; by right|by rewrite Ets|apply Hq|apply Hg]. }
  exists s', ch', lo'. by rewrite <- Ets.
Qed.

(** A new priority for a thread in the queue. *)
Lemma reemplace_inv0 s t p q : inv0 s -> unlink t (g_ppu s) = Some q ->
  exists s', emplace_thread false t (set_prio t p false false (with_ppu q s)) = (s', true) /\ inv0 s' /\ g_to_sleep s' = g_to_sleep s.
Proof.
  intros Hi Hu. apply unlink_some in Hu as (l0 & r0 & Hq & -> & _). set (s1 := set_prio t p false false (with_ppu (l0 ++ r0) s)).
  assert (t ∉ l0 ++ r0) as Hn.
  { pose proof (i_nodup _ Hi) as Hnd. rewrite Hq, <- Permutation_middle in Hnd. by apply NoDup_cons in Hnd as [? _]. }
  assert (forall x, x <> t -> prio_of s1 x = prio_of s x) as Hpr.
  { intros x Hx. unfold prio_of, s1, set_prio. cbn [orb]. rewrite threads_on. by case_decide. }
  assert (t ∈ g_ppu s) as Hin by (rewrite Hq; set_solver).
  assert (by_prio (prio_of s1) (l0 ++ r0)) as Hs.
  { pose proof (i_sorted _ Hi) as Hs. rewrite Hq in Hs. apply ssorted_remove in Hs. eapply ssorted_ext; [|exact Hs].
    intros x y Hx Hy. by rewrite !Hpr by (by intros ->). }
  destruct (place_new (prio_of s1) t (l0 ++ r0) Hs Hn) as (l & r & Hlr & Hp & Hl & Hr).
  exists (with_waiting (unregister_timeout t (g_waiting s)) (with_ppu (l ++ t :: r) s1)). split; [|split; [|done]].
  { unfold emplace_thread. change (g_ppu s1) with (l0 ++ r0). by rewrite Hp. }
  apply (inv0_placed s _ t); try done; [by split_and!; [apply Hi|apply Hi|left]| | |].
  - right. split; [|done]. cbn [g_ppu with_waiting with_ppu]. by rewrite Hq, <- !Permutation_middle, Hlr.
  - cbn [g_ppu with_waiting with_ppu]. apply (place_sorted (prio_of s1)); [|done..]. by rewrite <- Hlr.
  - intros u. unfold suspended, acked, has_flag, gone, s1, set_prio. cbn [orb threads with_waiting with_ppu]. rewrite threads_on. case_decide; by subst.
Qed.

(** ** Leaving the processor *)

Lemma acked_holds s q : countb (acked s) q <= countb (holds_hw s) q.
Proof. apply countb_le. intros t Ht. unfold holds_hw. by rewrite Ht, orb_true_r. Qed.

Lemma pending_range s : inv0 s -> 0 <= g_pending s <= Z.of_nat N.
Proof.
  intros Hi. rewrite (i_pending _ Hi). split; [apply countb_range|]. etrans; [|apply (i_count _ Hi)].
  apply acked_holds.
Qed.

(** The state after the suspension of one running thread. *)
Definition suspend_one (t : Z) (s : sched) : sched :=
  let s := with_pending (wrap 32 (g_pending s + 1)) (on_thread t (fun x => with_state (add cpu_flag.suspend) (with_ack true x)) s) in
  if is_paused (sub cpu_flag.suspend (state (threads s t))) then notify_one t s else s.

Lemma suspend_one_view t s : g_ppu (suspend_one t s) = g_ppu s /\ g_waiting (suspend_one t s) = g_waiting s /\
  g_to_sleep (suspend_one t s) = g_to_sleep s /\ g_pending (suspend_one t s) = wrap 32 (g_pending s + 1) /\
  threads (suspend_one t s) = threads (on_thread t (fun x => with_state (add cpu_flag.suspend) (with_ack true x)) s).
Proof. unfold suspend_one. by destruct (is_paused _). Qed.

Lemma suspend_one_inv0 t s : inv0 s -> t ∈ g_ppu s -> suspended s t = false ->
  inv0 (suspend_one t s) /\ forall u, suspended (suspend_one t s) u = (bool_decide (u = t) || suspended s u).
Proof.
  intros Hi Ht Hs. destruct (suspend_one_view t s) as (E1 & E2 & E3 & E4 & E5). set (s' := suspend_one t s) in *.
  assert (forall u, prio_of s' u = prio_of s u /\ suspended s' u = (bool_decide (u = t) || suspended s u) /\
    acked s' u = (bool_decide (u = t) || acked s u) /\ has_flag s' u cpu_flag.notify = has_flag s u cpu_flag.notify /\ gone s' u = gone s u) as Hf.
  { intros u. unfold prio_of, suspended, acked, has_flag, gone. rewrite E5, threads_on. case_decide as Hu.
    - rewrite bool_decide_true by done. by subst.
    - by rewrite bool_decide_false. }
  assert (acked s t = false) as Ha.
  { destruct (acked s t) eqn:E; [|done]. destruct (i_ack _ Hi t E). congruence. }
  pose proof Hi as [H1 H2 H3 H4 H5 H6 H7 H8 H9 H10]. split; [|apply Hf].
  assert (forall u, holds_hw s' u = holds_hw s u) as Eh.
  { intros u. unfold holds_hw. destruct (Hf u) as (_ & -> & -> & _). case_bool_decide as Hu; [|done]. subst. cbn. by rewrite Hs. }
  assert (countb (acked s') (g_ppu s) = countb (acked s) (g_ppu s) + 1) as Hc.
  { rewrite (countb_one (acked s) (acked s') (g_ppu s) t H1 Ht).
    - destruct (Hf t) as (_ & _ & -> & _). rewrite bool_decide_true, Ha by done. cbn. lia.
    - intros x Hx. destruct (Hf x) as (_ & _ & -> & _). by rewrite bool_decide_false. }
  split; rewrite ?E1, ?E2, ?E3, ?E4; try done.
  - eapply ssorted_ext; [|exact H2]. intros x y _ _. by rewrite (proj1 (Hf x)), (proj1 (Hf y)).
  - intros u. destruct (Hf u) as (_ & -> & -> & _). case_bool_decide; [by subst|]. apply H4.
  - rewrite Hc, <- H5. apply wrap_small. pose proof (pending_range s Hi). pose proof (i_count _ Hi).
    assert (0 <= g_pending s + 1 <= Z.of_nat N); [|unfold is_word; lia]. split; [lia|]. rewrite H5, <- Hc. etrans; [|exact H7].
    rewrite <- (countb_ext (holds_hw s') (holds_hw s)) by (intros; apply Eh). apply acked_holds.
  - intros u Hu. destruct (Hf u) as (_ & -> & _ & _ & ->). intros [_ Hsu]%orb_false_iff. by apply H6.
  - by rewrite (countb_ext _ (holds_hw s)).
  - intros u Hu. destruct (Hf u) as (_ & _ & _ & -> & _). by apply H9.
Qed.

Lemma suspend_from_cons i t q s : suspend_from N i (t :: q) s =
  suspend_from N (S i) q (if (N <=? i)%nat && negb (suspended s t) then suspend_one t s else s).
Proof. done. Qed.

(** Afterwards the threads from place [N] on are suspended. *)
Lemma suspend_from_inv i pre q s : inv0 s -> g_ppu s = pre ++ q -> length pre = i ->
  let s' := suspend_from N i q s in
  inv0 s' /\ g_ppu s' = g_ppu s /\ g_waiting s' = g_waiting s /\ g_to_sleep s' = g_to_sleep s /\
  (forall u, suspended s u = true -> suspended s' u = true) /\ (forall u, u ∈ drop (N - i) q -> suspended s' u = true).
Proof.
  revert i pre s. induction q as [|t q IH]; intros i pre s Hi Hq Hl.
  - cbn. split_and!; try done. rewrite drop_nil. by intros u ?%not_elem_of_nil.
  - cbn zeta. rewrite suspend_from_cons. set (s1 := if (N <=? i)%nat && negb (suspended s t) then suspend_one t s else s).
    assert (inv0 s1 /\ g_ppu s1 = g_ppu s /\ g_waiting s1 = g_waiting s /\ g_to_sleep s1 = g_to_sleep s /\
      (forall u, suspended s u = true -> suspended s1 u = true) /\ ((N <= i)%nat -> suspended s1 t = true)) as (A1 & A2 & A3 & A4 & A5 & A6).
    { unfold s1. destruct (Nat.leb_spec N i) as [HNi|HNi]; cbn [andb]; [|split_and!; (done || lia)].
      destruct (suspended s t) eqn:Es; cbn [negb]; [by split_and!|].
      destruct (suspend_one_inv0 t s Hi) as [B1 B2]; [rewrite Hq; set_solver|done|].
      destruct (suspend_one_view t s) as (E1 & E2 & E3 & _). split_and!; try done.
      - intros u Hu. by rewrite B2, Hu, orb_true_r.
      - intros _. by rewrite B2, bool_decide_true. }
    clearbody s1. destruct (IH (S i) (pre ++ [t]) s1) as (B1 & B2 & B3 & B4 & B5 & B6); [done|by rewrite A2, Hq, <- app_assoc|rewrite length_app; cbn; lia|].
    split_and!; [done|congruence|congruence|congruence|by auto|]. intros u. destruct (decide (N <= i)%nat) as [HNi|HNi].
    + replace (N - i)%nat with 0%nat by lia. cbn [drop]. intros [->|Hu]%elem_of_cons; [by apply B5, A6|].
      apply B6. by replace (N - S i)%nat with 0%nat by lia.
    + replace (N - i)%nat with (S (N - S i)) by lia. cbn [drop]. apply B6.
Qed.

Lemma suspend_all_inv s : inv0 s -> let s' := suspend_from N 0 (g_ppu s) s in
  inv s' /\ g_ppu s' = g_ppu s /\ g_to_sleep s' = g_to_sleep s.
Proof.
  intros Hi. destruct (suspend_from_inv 0 [] (g_ppu s) s) as (A1 & A2 & A3 & A4 & A5 & A6); [done..|].
  cbn zeta. split_and!; [|done..]. split; [done|]. rewrite A2. intros t Ht. apply A6. by rewrite Nat.sub_0_r.
Qed.

(** If the others are suspended already, nothing happens. *)
Lemma suspend_from_idle i q s : (forall u, u ∈ drop (N - i) q -> suspended s u = true) -> suspend_from N i q s = s.
Proof.
  revert i. induction q as [|t q IH]; intros i H; [done|]. rewrite suspend_from_cons. destruct (Nat.leb_spec N i) as [HNi|HNi]; cbn [andb].
  - replace (N - i)%nat with 0%nat in H by lia. rewrite (H t) by left. apply IH. replace (N - S i)%nat with 0%nat by lia.
    intros u Hu. apply H. by right.
  - apply IH. intros u Hu. apply H. by replace (N - i)%nat with (S (N - S i)) by lia.
Qed.

(** ** Acknowledging *)

Lemma drop_one_ack t f s s' : inv s -> acked s t = true ->
  (forall x, prio (f x) = prio x /\ state (f x) = state x /\ ack_suspend (f x) = false /\ joiner (f x) = joiner x) ->
  s' = with_pending (g_pending s - 1) (on_thread t f s) -> inv s'.
Proof.
  intros [Hi Hfr] Ha Hf ->. set (s' := with_pending _ _).
  assert (forall u, prio_of s' u = prio_of s u /\ suspended s' u = suspended s u /\
    acked s' u = (negb (bool_decide (u = t)) && acked s u) /\ has_flag s' u cpu_flag.notify = has_flag s u cpu_flag.notify /\ gone s' u = gone s u) as Hu.
  { intros u. unfold prio_of, suspended, acked, has_flag, gone, s'. cbn [threads with_pending]. rewrite threads_on. destruct (Hf (threads s t)) as (F1 & F2 & F3 & F4). case_decide.
    - rewrite bool_decide_true by done. subst. by rewrite F1, F2, F3, F4.
    - by rewrite bool_decide_false. }
  destruct Hi as [H1 H2 H3 H4 H5 H6 H7 H8 H9 H10]. split; [split; try done|].
  - eapply ssorted_ext; [|exact H2]. intros x y _ _. by rewrite (proj1 (Hu x)), (proj1 (Hu y)).
  - intros u. destruct (Hu u) as (_ & -> & -> & _). intros [_ Hau]%andb_true_iff. by apply H4.
  - change (g_pending s - 1 = countb (acked s') (g_ppu s)). rewrite (countb_one (acked s) (acked s') (g_ppu s) t H1 (proj1 (H4 t Ha))), H5, Ha.
    + destruct (Hu t) as (_ & _ & -> & _). rewrite bool_decide_true by done. cbn. lia.
    + intros x Hx. destruct (Hu x) as (_ & _ & -> & _). by rewrite bool_decide_false.
  - intros u Hc. destruct (Hu u) as (_ & -> & _ & _ & ->). by apply H6.
  - etrans; [|exact H7]. change (g_ppu s') with (g_ppu s). rewrite (countb_one (holds_hw s) (holds_hw s') (g_ppu s) t H1 (proj1 (H4 t Ha))).
    + unfold holds_hw. destruct (Hu t) as (_ & -> & -> & _). rewrite bool_decide_true, Ha by done. destruct (suspended s t); cbn; lia.
    + intros x Hx. unfold holds_hw. destruct (Hu x) as (_ & -> & -> & _). by rewrite bool_decide_false.
  - intros u Hw. destruct (Hu u) as (_ & _ & _ & -> & _). by apply H9.
  - intros u Hin. destruct (Hu u) as (_ & -> & _). by apply Hfr.
Qed.

Lemma acked_pending s t : inv0 s -> acked s t = true -> 1 <= g_pending s.
Proof.
  intros Hi Ha. rewrite (i_pending _ Hi). destruct (i_ack _ Hi t Ha) as [Hin _]. apply list_elem_of_lookup_1 in Hin as [i Hx]. by eapply countb_pos.
Qed.

Lemma acknowledge_inv current s : inv s -> exists s', acknowledge cls current s = Some s' /\ inv s' /\ g_ppu s' = g_ppu s /\
  forall t, current = Some t -> is_ppu cls current = true -> acked s' t = false.
Proof.
  intros Hi. unfold acknowledge. destruct current as [t|]; [|by exists s]. destruct (is_ppu cls (Some t)) eqn:Ep; cbn [andb]; [|by exists s].
  destruct (ack_suspend (threads s t)) eqn:Ea; [|exists s; split_and!; [done..|]; by intros ? [= <-]].
  pose proof (acked_pending s t (proj1 Hi) Ea) as Hp. change (g_pending (on_thread t (with_ack false) s)) with (g_pending s).
  rewrite (proj2 (Z.eqb_neq _ _)) by lia. eexists. split; [done|]. split; [|split; [done|]].
  - by apply (drop_one_ack t (with_ack false) s).
  - intros u [= <-] _. unfold acked. cbn [threads with_pending]. rewrite threads_on. by rewrite decide_True.
Qed.

(** ** Awaking *)

Lemma awake_rest_inv current c cpu cmd l s s1 ch lo : g_to_sleep s1 = g_to_sleep s ->
  emplace_all (match cpu with Some cpu => if cmd =? yield_cmd then l else [cpu] | None => l end) s (cmd =? yield_cmd) smax = (s1, ch, lo) ->
  inv0 s1 -> exists s', awake_rest cls N all_timers current c cpu cmd l s = Some (s', ch) /\ inv s' /\ g_to_sleep s' = g_to_sleep s /\
    g_ppu s' = g_ppu s1 /\ (forall t, current = Some t -> is_ppu cls current = true -> acked s' t = false).
Proof.
  intros Ets E Hi. unfold awake_rest. rewrite E. destruct (suspend_all_inv s1 Hi) as (A1 & A2 & A3). cbn zeta in A1, A2, A3.
  destruct (acknowledge_inv current _ A1) as (s2 & E2 & B1 & B2 & B3). cbn [mbind option_bind]. rewrite E2. cbn [mbind option_bind].
  eexists. split; [done|]. set (hf := _ <? _). pose proof (delay_alike current c ch hf lo s2) as Ha.
  split; [by eapply alike_inv|]. rewrite (a_ppu _ _ Ha), (a_to_sleep _ _ Ha). split_and!; [|congruence|].
  - transitivity (g_to_sleep (suspend_from N 0 (g_ppu s1) s1)); [|congruence]. clear -E2. unfold acknowledge in E2.
    destruct current as [t|]; [|congruence]. destruct (_ && _); [|congruence]. destruct (_ =? 0); [done|]. injection E2 as <-. done.
  - intros t Ht Hp. rewrite (a_acked _ _ Ha). by apply B3.
Qed.

Lemma set_prio_out s t p a b : inv s -> t ∉ g_ppu s \/ sext 13 p = prio_of s t -> inv (set_prio t p a b s).
Proof.
  intros [Hi Hfr] Ht. unfold set_prio. set (s1 := if b || a then _ else s). set (f := fun x => _).
  assert (alike s s1) as Ha by (unfold s1; destruct (b || a); [by split|apply alike_refl]). clearbody s1.
  assert (forall u, prio_of (on_thread t f s1) u = if decide (u = t) then sext 13 p else prio_of s u) as Hp.
  { intros u. unfold prio_of at 1. rewrite threads_on. case_decide; [done|]. apply (a_prio _ _ Ha). }
  assert (forall u, suspended (on_thread t f s1) u = suspended s u /\ acked (on_thread t f s1) u = acked s u /\
    has_flag (on_thread t f s1) u cpu_flag.notify = has_flag s1 u cpu_flag.notify /\ gone (on_thread t f s1) u = gone s1 u) as Hf.
  { intros u. rewrite <- (a_suspended _ _ Ha), <- (a_acked _ _ Ha). unfold suspended, acked, has_flag, gone. rewrite threads_on. by case_decide; subst. }
  assert (inv (with_threads (threads (on_thread t f s1)) s1)) as Hinv; [|exact Hinv].
  pose proof (alike_inv0 _ _ Ha Hi) as Hi1. destruct Ha as [E1 E2 E3 E4 E5 E6 E7 E8 Eg]. destruct Hi1 as [H1 H2 H3 H4 H5 H6 H7 H8 H9 H10].
  split; [split; try done|].
  - eapply ssorted_ext; [|exact H2]. cbn [g_ppu with_threads]. rewrite E1. intros x y Hx Hy.
    change (prio_of s1 x <= prio_of s1 y -> prio_of (on_thread t f s1) x <= prio_of (on_thread t f s1) y). rewrite !E5, !Hp.
    repeat case_decide; subst; destruct Ht as [Ht|Ht]; try done; lia.
  - intros u. change (acked (on_thread t f s1) u = true -> u ∈ g_ppu s1 /\ suspended (on_thread t f s1) u = true).
    destruct (Hf u) as (-> & -> & _). rewrite <- E6, <- E7. apply H4.
  - etrans; [exact H5|]. apply countb_ext. intros u _. rewrite E7. symmetry. apply (Hf u).
  - intros u Hc. change (suspended (on_thread t f s1) u = false -> u ∈ g_ppu s1 \/ gone (on_thread t f s1) u = true).
    destruct (Hf u) as (-> & _ & _ & ->). rewrite <- E6. by apply H6.
  - etrans; [|exact H7]. apply Z.eq_le_incl, countb_ext. intros u _. unfold holds_hw. rewrite E6, E7.
    change (negb (suspended (on_thread t f s1) u) || acked (on_thread t f s1) u = negb (suspended s u) || acked s u).
    by destruct (Hf u) as (-> & -> & _).
  - intros u Hu. change ((u ∉ g_ppu s1) /\ has_flag (on_thread t f s1) u cpu_flag.notify = false). destruct (Hf u) as (_ & _ & -> & _). by apply H9.
  - intros u. change (u ∈ drop N (g_ppu s1) -> suspended (on_thread t f s1) u = true). rewrite (proj1 (Hf u)), E1. apply Hfr.
Qed.

(** The queue after [rotate] holds the same threads. *)
Lemma rotate_some t s q i : rotate t s = Some (q, i) -> exists pre block rest, g_ppu s = pre ++ t :: block ++ rest /\
  q = pre ++ block ++ t :: rest /\ i = (length pre + length block)%nat /\ block <> [] /\
  (forall x, x ∈ block -> prio_of s x = prio_of s t) /\ match rest with [] => True | x :: _ => prio_of s x <> prio_of s t end.
Proof.
  unfold rotate. destruct (split_at t (g_ppu s)) as [[pre r]|] eqn:E; [|done]. cbn [mbind option_bind].
  apply split_at_some in E. pose proof (same_prio_spec (prio_of s) (prio_of s t) r) as H.
  destruct (same_prio _ _ r) as [[|b block] rest]; [done|]. intros [= <- <-]. destruct H as (-> & H1 & H2).
  by exists pre, (b :: block), rest.
Qed.

Lemma rotate_perm (pre block rest : list Z) t : pre ++ block ++ t :: rest ≡ₚ pre ++ t :: block ++ rest.
Proof. apply Permutation_app_head. by rewrite Permutation_middle. Qed.

Lemma drop_rotate (pre block rest : list Z) t n : (length pre + length block < n)%nat ->
  drop n (pre ++ block ++ t :: rest) = drop n (pre ++ t :: block ++ rest).
Proof.
  intros Hn. replace (pre ++ block ++ t :: rest) with ((pre ++ block ++ [t]) ++ rest) by (by rewrite <- !app_assoc).
  replace (pre ++ t :: block ++ rest) with ((pre ++ t :: block) ++ rest) by (by rewrite <- app_assoc).
  rewrite !drop_app_ge by (rewrite !length_app; cbn; lia). f_equal. rewrite !length_app. cbn. lia.
Qed.

Lemma rotate_inv0 t s q i : inv0 s -> rotate t s = Some (q, i) -> inv0 (with_ppu q s).
Proof.
  intros Hi (pre & block & rest & Hq & -> & _ & _ & Hb & _)%rotate_some. pose proof (rotate_perm pre block rest t) as Hp. rewrite <- Hq in Hp.
  pose proof Hi as [H1 H2 H3 H4 H5 H6 H7 H8 H9 H10]. assert (forall u, u ∈ pre ++ block ++ t :: rest <-> u ∈ g_ppu s) as Hin by (intros u; by rewrite Hp).
  split; try done; cbn [g_ppu with_ppu].
  - by rewrite Hp.
  - change (by_prio (prio_of s) (pre ++ block ++ t :: rest)). rewrite Hq in H2. rewrite !ssorted_app, !ssorted_cons, !ssorted_app in *.
    destruct H2 as (S1 & [(S2 & S3 & S4) S5] & S6). split_and!; try done.
    + intros y Hy. apply S5. set_solver.
    + intros x y Hx [->|Hy]%elem_of_cons; [by rewrite (Hb x Hx)|by apply S4].
    + intros x y Hx Hy. apply S6; [done|]. set_solver.
  - intros u Hu%Hin. by apply H3.
  - intros u Hu%H4. by rewrite Hin.
  - cbn [g_pending with_ppu]. rewrite H5. symmetry. by apply countb_perm.
  - intros u Hc Hu. rewrite Hin. by apply H6.
  - etrans; [|exact H7]. apply Z.eq_le_incl. by apply countb_perm.
  - intros u Hu%H9. by rewrite Hin.
Qed.

Lemma drop_elem {A} (n : nat) (l : list A) x : x ∈ drop n l -> x ∈ l.
Proof. rewrite <- (take_drop n l) at 2. set_solver. Qed.

Lemma awake_unlocked_inv current c now cpu cmd l s : inv s ->
  (cmd = enqueue_cmd -> forall t, cpu = Some t -> ready s t) -> (forall t, t ∈ l -> ready s t) ->
  (cpu = None -> cmd = enqueue_cmd) -> (cmd <> yield_cmd -> cmd <> enqueue_cmd -> -512 <= cmd < 3200) ->
  exists s' ch, awake_unlocked cls N all_timers current c now cpu cmd l s = Some (s', ch) /\ inv s' /\ g_to_sleep s' = g_to_sleep s.
Proof.
  intros Hi Hcpu Hl Hnone Hcmd. unfold awake_unlocked. destruct (Z.eqb_spec cmd yield_cmd) as [Ey|Ey].
  - destruct cpu as [t|]; [|by exists s, false]. destruct (rotate t s) as [[q i]|] eqn:Er; [|by exists s, false].
    pose proof (rotate_inv0 t s q i (proj1 Hi) Er) as Hi0. destruct (Nat.ltb_spec i N) as [HiN|HiN].
    + exists (with_ppu q s), false. split_and!; [done| |done]. split; [done|]. intros u. change (u ∈ drop N q -> suspended s u = true).
      apply rotate_some in Er as (pre & block & rest & Hq & -> & -> & _). rewrite drop_rotate, <- Hq by done. by apply (proj2 Hi).
    + set (s1 := on_thread t _ (with_ppu q s)). assert (inv0 s1) as Hi1 by (eapply alike_inv0; [|exact Hi0]; by apply on_thread_alike).
      destruct (emplace_all_inv0 l s1 (cmd =? yield_cmd) smax Hi1) as (s2 & ch & lo & E & H2 & Ets).
      { intros u Hu. apply (ready_keeps s); [by apply Hl|done| |].
        - apply rotate_some in Er as (pre & block & rest & Hq & -> & _). rewrite Hq. intros Hin. change (u ∈ pre ++ block ++ t :: rest). by rewrite rotate_perm.
        - unfold gone, s1. rewrite threads_on. by case_decide; subst. }
      destruct (awake_rest_inv current c (Some t) cmd l s1 s2 ch lo) as (s' & -> & H' & Ets' & _); [done|by rewrite (proj2 (Z.eqb_eq _ _) Ey) in *|done|].
      by exists s', ch.
  - destruct (Z.eqb_spec cmd enqueue_cmd) as [Ee|Ee].
    + set (cpus := match cpu with Some cpu => if cmd =? yield_cmd then l else [cpu] | None => l end).
      destruct (emplace_all_inv0 cpus s (cmd =? yield_cmd) smax (proj1 Hi)) as (s2 & ch & lo & E & H2 & Ets).
      { unfold cpus. rewrite (proj2 (Z.eqb_neq cmd yield_cmd)) by done. destruct cpu as [t|]; [|done]. intros u ->%list_elem_of_singleton. by apply Hcpu. }
      destruct (awake_rest_inv current c cpu cmd l s s2 ch lo) as (s' & -> & H' & Ets' & _); [done..|]. by exists s', ch.
    + destruct cpu as [t|]; [|by destruct Ee; apply Hnone]. cbn [mbind option_bind]. specialize (Hcmd Ey Ee).
      assert (sext 13 cmd = cmd) as Hsx by (apply sext_small; [done|]; change (2 ^ (13 - 1)) with 4096; lia).
      destruct ((prio_of s t =? cmd) && bool_decide (Some t = current)) eqn:Esame.
      { exists (set_prio t cmd false false s), true. split_and!; [done| |done]. apply set_prio_out; [done|]. right.
        apply andb_true_iff in Esame as [<-%Z.eqb_eq _]. done. }
      destruct (unlink t (g_ppu s)) as [q|] eqn:Eu.
      * destruct (reemplace_inv0 s t cmd q (proj1 Hi) Eu) as (s1 & E & H1 & Ets).
        destruct (awake_rest_inv current c (Some t) cmd l (set_prio t cmd false false (with_ppu q s)) s1 true (Z.min (prio_of s1 t) smax))
          as (s' & -> & H' & Ets' & _); [done| |done|by exists s', true].
        rewrite (proj2 (Z.eqb_neq cmd yield_cmd)) by done. cbn [emplace_all]. by rewrite E.
      * exists (set_prio t cmd (prio_of s t >? cmd) (prio_of s t <? cmd) s), true. split_and!; [done| |].
        { apply set_prio_out; [done|]. left. by apply unlink_none. }
        unfold set_prio. by destruct (_ || _).
Qed.

(** ** Sleeping *)

Lemma drop_ack_inv t s : inv s -> inv (drop_ack t s) /\ g_ppu (drop_ack t s) = g_ppu s /\ g_to_sleep (drop_ack t s) = g_to_sleep s /\
  acked (drop_ack t s) t = false /\ g_waiting (drop_ack t s) = g_waiting s /\
  (forall u, prio_of (drop_ack t s) u = prio_of s u /\ state (threads (drop_ack t s) u) = state (threads s u) /\ gone (drop_ack t s) u = gone s u).
Proof.
  intros Hi. unfold drop_ack. destruct (ack_suspend (threads s t)) eqn:Ea; [|by split_and!].
  pose proof (acked_pending s t (proj1 Hi) Ea). pose proof (pending_range s (proj1 Hi)). split_and!; try done.
  - apply (drop_one_ack t (with_ack false) s); [done..|]. f_equal. apply wrap_small. unfold is_word. lia.
  - unfold acked. cbn [threads with_pending]. rewrite threads_on. by rewrite decide_True.
  - intros u. unfold prio_of, gone. cbn [threads with_pending]. rewrite threads_on. by case_decide; subst.
Qed.

Lemma drop_skip {A} n (l r : list A) t x : x ∈ drop n (l ++ r) -> x ∈ drop n (l ++ t :: r).
Proof.
  revert n. induction l as [|y l IH]; intros [|n]; cbn; try done.
  - intros H. by right.
  - replace (S n) with (n + 1)%nat by lia. rewrite <- drop_drop. by intros ?%drop_elem.
  - intros [->|H]%elem_of_cons; [left|right]. set_solver.
  - apply IH.
Qed.

(** The threads are as before but that [t] is suspended. *)
Definition falls_asleep (t : Z) (s s' : sched) : Prop := forall u,
  prio_of s' u = prio_of s u /\ acked s' u = acked s u /\ suspended s' u = (bool_decide (u = t) || suspended s u) /\
  has_flag s' u cpu_flag.notify = has_flag s u cpu_flag.notify /\ gone s' u = gone s u.

Lemma falls_asleep_suspend t s : falls_asleep t s (on_thread t (with_state (add cpu_flag.suspend)) s).
Proof.
  intros u. unfold prio_of, acked, suspended, has_flag, gone. rewrite threads_on.
  case_decide; subst; rewrite ?bool_decide_true, ?bool_decide_false by done; done.
Qed.

Lemma falls_asleep_on t f s s1 s2 : falls_asleep t s s1 -> threads s2 = threads (on_thread t f s1) ->
  (forall x, prio (f x) = prio x /\ state (f x) = state x /\ ack_suspend (f x) = ack_suspend x /\ joiner (f x) = joiner x) -> falls_asleep t s s2.
Proof.
  intros H E Hf u. specialize (H u). unfold prio_of, acked, suspended, has_flag, gone in *. rewrite E, threads_on.
  destruct (Hf (threads s1 t)) as (E1 & E2 & E3 & E4). destruct (decide (u = t)); subst; by rewrite ?E1, ?E2, ?E3, ?E4.
Qed.

(** A thread that falls asleep leaves the queue and stays suspended. *)
Lemma removed_inv s s' t l r : inv s -> g_ppu s = l ++ t :: r -> acked s t = false -> g_ppu s' = l ++ r ->
  g_pending s' = g_pending s -> g_to_sleep s' = g_to_sleep s ->
  falls_asleep t s s' ->
  g_waiting s' = g_waiting s \/
    (exists w, g_waiting s' = register_timeout w t (g_waiting s) /\ has_flag s t cpu_flag.notify = false) ->
  inv s'.
Proof.
  intros [Hi Hfr] Hq Ha Hq' Ep Et Hu Hw. destruct Hi as [H1 H2 H3 H4 H5 H6 H7 H8 H9 H10]. rewrite Hq in *.
  assert (forall u, u ∈ l ++ r <-> u ∈ l ++ t :: r /\ u <> t) as Hin.
  { intros u. rewrite <- Permutation_middle in H1. apply NoDup_cons in H1 as [Hn _]. split; [|set_solver]. intros H. split; [set_solver|]. by intros ->. }
  assert (forall P Q : Z -> bool, (forall u, u <> t -> P u = Q u) -> Q t = false -> countb P (l ++ r) = countb Q (l ++ t :: r)) as Hcount.
  { intros P Q H HQ. transitivity (countb Q (l ++ r)).
    - apply countb_ext. intros u [_ Hne]%Hin. by apply H.
    - rewrite !countb_app. cbn. rewrite HQ. cbn. lia. }
  split; [split|]; rewrite ?Hq', ?Ep, ?Et.
  - rewrite <- Permutation_middle in H1. by apply NoDup_cons in H1 as [_ H1].
  - eapply ssorted_ext; [|by eapply ssorted_remove]. intros x y _ _. by rewrite (proj1 (Hu x)), (proj1 (Hu y)).
  - intros u [Hu' _]%Hin. by apply H3.
  - intros u. destruct (Hu u) as (_ & -> & -> & _). intros Hau. destruct (H4 u Hau) as [A B]. split; [|by rewrite B, orb_true_r].
    apply Hin. split; [done|]. intros ->. congruence.
  - rewrite H5. symmetry. apply Hcount; [|done]. intros u _. by destruct (Hu u) as (_ & -> & _).
  - intros u Hc. destruct (Hu u) as (_ & _ & -> & _ & ->). intros [Hne%bool_decide_eq_false Hs]%orb_false_iff. rewrite Hin. destruct (H6 u Hc Hs); tauto.
  - assert (countb (holds_hw s') (l ++ r) <= countb (holds_hw s) (l ++ t :: r)) as Hle; [|lia].
    rewrite (countb_ext (holds_hw s') (holds_hw s) (l ++ r)).
    + rewrite !countb_app. cbn. destruct (holds_hw s t); cbn; lia.
    + intros u [_ Hne]%Hin. unfold holds_hw. destruct (Hu u) as (_ & -> & -> & _). by rewrite bool_decide_false.
  - destruct Hw as [->|(w & -> & _)]; [done|]. rewrite register_perm. cbn. apply NoDup_cons. split; [|done].
    intros Ht. destruct (H9 t Ht) as [[] _]. set_solver.
  - intros u. assert (u ∈ map snd (g_waiting s') -> u ∈ map snd (g_waiting s) \/ (u = t /\ has_flag s t cpu_flag.notify = false)) as Hcase.
    { destruct Hw as [->|(w & -> & Hn)]; [by left|]. rewrite register_perm. cbn. rewrite elem_of_cons. intros [->|]; [by right|by left]. }
    intros [Hin'|[-> Hn]]%Hcase; destruct (Hu t) as (_ & _ & _ & Et' & _); destruct (Hu u) as (_ & _ & _ & -> & _) || rewrite Et'.
    + destruct (H9 u Hin') as [A B]. split; [|done]. rewrite Hin. by intros [].
    + split; [|done]. rewrite Hin. by intros [].
  - destruct Hw as [->|(w & -> & _)]; [done|]. by apply register_sorted.
  - intros u Hd. destruct (Hu u) as (_ & _ & -> & _). rewrite (Hfr u), orb_true_r; [done|]. by apply drop_skip.
Qed.

(** A thread outside the queue is marked suspended, and leaves the list of
    those that must sleep first. *)
Lemma suspend_out_inv s s' t : inv s -> t ∉ g_ppu s -> g_ppu s' = g_ppu s -> g_pending s' = g_pending s -> g_waiting s' = g_waiting s ->
  (forall u, u ∈ g_to_sleep s' -> u ∈ g_to_sleep s) ->
  falls_asleep t s s' ->
  inv s'.
Proof.
  intros [Hi Hfr] Ht Eq Ep Ew Hts1 Hu. destruct Hi as [H1 H2 H3 H4 H5 H6 H7 H8 H9 H10].
  assert (forall u, u ∈ g_ppu s -> holds_hw s' u = holds_hw s u) as Eh.
  { intros u Hin. unfold holds_hw. destruct (Hu u) as (_ & -> & -> & _). rewrite bool_decide_false; [done|]. by intros ->. }
  split; [split|]; rewrite ?Eq, ?Ep, ?Ew; try done.
  - eapply ssorted_ext; [|exact H2]. intros x y _ _. by rewrite (proj1 (Hu x)), (proj1 (Hu y)).
  - intros u Hin. destruct (H3 u Hin). split; [done|]. by intros ?%Hts1.
  - intros u. destruct (Hu u) as (_ & -> & -> & _). intros Ha. destruct (H4 u Ha) as [A ->]. by rewrite orb_true_r.
  - rewrite H5. apply countb_ext. intros u _. by destruct (Hu u) as (_ & -> & _).
  - intros u Hc. destruct (Hu u) as (_ & _ & -> & _ & ->). intros [Hne%bool_decide_eq_false Hs]%orb_false_iff. by apply H6.
  - by rewrite (countb_ext _ (holds_hw s)).
  - intros u Hin. destruct (Hu u) as (_ & _ & _ & -> & _). by apply H9.
  - intros u Hd. destruct (Hu u) as (_ & _ & -> & _). by rewrite (Hfr u), orb_true_r.
Qed.

(** [sleep_unlocked] fails in one case only: a timed sleep of a thread whose
    last notification is still there. *)
Definition sleep_fails (t timeout : Z) (s : sched) : bool :=
  bool_decide (cls t = thread_class.ppu) && negb (timeout =? 0) && negb (has_flag s t cpu_flag.signal) && has_flag s t cpu_flag.notify.

(** What follows once [t] is marked. *)
Lemma sleep_queued_inv t timeout now s s2 q : inv s -> acked s t = false -> falls_asleep t s s2 ->
  ((timeout =? 0) = true \/ has_flag s t cpu_flag.notify = false) ->
  g_ppu s2 = g_ppu s -> g_pending s2 = g_pending s -> g_to_sleep s2 = g_to_sleep s -> g_waiting s2 = g_waiting s ->
  unlink t (g_ppu s) = Some q -> forall e,
  let s3 := on_thread t (fun x => with_times now e (with_raddr 0 x)) (with_ppu q s2) in
  inv (if timeout =? 0 then s3 else with_waiting (register_timeout (deadline now timeout) t (g_waiting s3)) s3).
Proof.
  intros Hi Ha Hf Hn E1 E2 E3 E4 (l & r & Hq & -> & _)%unlink_some e s3.
  assert (falls_asleep t s s3) as Hf3 by (eapply falls_asleep_on; [exact Hf|reflexivity|done]).
  destruct (timeout =? 0); [by apply (removed_inv s s3 t l r); try done; left|].
  apply (removed_inv s _ t l r); try done. right. exists (deadline now timeout). destruct Hn as [|Hn]; [done|]. split; [|done].
  cbn [g_waiting with_waiting]. change (g_waiting s3) with (g_waiting s2). by rewrite E4.
Qed.

Lemma sleep_future_inv t now s s2 l : inv s -> falls_asleep t s s2 -> t ∉ g_ppu s ->
  g_ppu s2 = g_ppu s -> g_pending s2 = g_pending s -> g_waiting s2 = g_waiting s -> unlink t (g_to_sleep s) = Some l ->
  let s3 := on_to_sleep_update (on_thread t (fun x => with_times now (end_time x) x) (with_to_sleep l (run_requested s2) s2)) in
  inv s3 /\ (forall u, u ∈ g_to_sleep s3 -> u ∈ g_to_sleep s) /\ g_ppu s3 = g_ppu s /\ forall u, gone s3 u = gone s u.
Proof.
  intros Hi Hf Ht E1 E2 E4 (l1 & l2 & El & -> & _)%unlink_some.
  set (s3 := on_thread t _ (with_to_sleep _ _ s2)).
  assert (falls_asleep t s s3) as Hf3 by (eapply falls_asleep_on; [exact Hf|reflexivity|done]).
  assert (inv s3) as H3.
  { apply (suspend_out_inv s s3 t); try done.
    rewrite El. intros u. change (u ∈ l1 ++ l2 -> u ∈ l1 ++ t :: l2). set_solver. }
  assert (alike s3 (on_to_sleep_update s3)) as Ha by (unfold on_to_sleep_update; destruct (g_to_sleep s3) eqn:E3; by split).
  split_and!; [by eapply alike_inv| |by rewrite (a_ppu _ _ Ha)|].
  - intros u. rewrite (a_to_sleep _ _ Ha). change (u ∈ l1 ++ l2 -> u ∈ g_to_sleep s). rewrite El. set_solver.
  - intros u. rewrite (a_gone _ _ Ha). by destruct (Hf3 u) as (_ & _ & _ & _ & ->).
Qed.

Lemma sleep_unlocked_inv t timeout now s : inv s -> cls t = thread_class.ppu \/ cls t = thread_class.spu ->
  match sleep_unlocked cls t timeout now s with
  | Some (s', b) => sleep_fails t timeout s = false /\ inv s' /\ (forall u, u ∈ g_to_sleep s' -> u ∈ g_to_sleep s) /\
      (forall u, gone s' u = gone s u) /\ (cls t = thread_class.ppu -> has_flag s t cpu_flag.signal = false -> t ∉ g_ppu s')
  | None => sleep_fails t timeout s = true
  end.
Proof.
  intros Hi Hc. unfold sleep_unlocked, sleep_fails. destruct (cls t) eqn:Ec; try (by destruct Hc); clear Hc; cbn [bool_decide decide_rel].
  - rewrite bool_decide_true by done. destruct (drop_ack_inv t s Hi) as (A1 & A2 & A3 & A4 & A5 & A6). set (s0 := drop_ack t s) in *.
    set (s1 := on_thread t (with_cancel 0) s0). assert (alike s0 s1) as Ha1 by apply cancel_alike. pose proof (alike_inv _ _ Ha1 A1) as B1.
    assert (forall f, has_flag s1 t f = has_flag s t f) as Ef.
    { intros f. unfold has_flag, s1. rewrite threads_on, decide_True by done. cbn [state with_cancel]. by rewrite (proj1 (proj2 (A6 t))). }
    assert (acked s1 t = false) as Hat by (by rewrite (a_acked _ _ Ha1)).
    assert (forall u, gone s1 u = gone s u) as Eg by (intros u; by rewrite (a_gone _ _ Ha1), (proj2 (proj2 (A6 u)))).
    rewrite !Ef. destruct (has_flag s t cpu_flag.signal) eqn:Esg.
    { rewrite andb_false_r. split_and!; [done..| |done|done]. rewrite (a_to_sleep _ _ Ha1), A3. done. }
    rewrite andb_true_r. cbn [andb]. destruct (negb (timeout =? 0) && has_flag s t cpu_flag.notify) eqn:Efail; [done|].
    set (s2 := on_thread t (with_state (add cpu_flag.suspend)) s1). pose proof (falls_asleep_suspend t s1) as Hf2.
    change (g_ppu s2) with (g_ppu s1). change (g_to_sleep s2) with (g_to_sleep s1).
    destruct (unlink t (g_ppu s1)) as [q|] eqn:Eu.
    + split; [done|]. set (s3 := on_thread t _ (with_ppu q s2)). assert (falls_asleep t s1 s3) as Hf3 by (eapply falls_asleep_on; [exact Hf2|reflexivity|done]).
      split_and!.
      * eapply (sleep_queued_inv t timeout now s1 s2 q); try done. rewrite Ef. destruct (timeout =? 0); [by left|by right].
      * intros u. rewrite <- A3. by destruct (timeout =? 0).
      * intros u. rewrite <- Eg. destruct (Hf3 u) as (_ & _ & _ & _ & <-). by destruct (timeout =? 0).
      * intros _ _. assert (t ∉ q) as Hq; [|by destruct (timeout =? 0)]. apply unlink_some in Eu as (l & r & Eq & -> & Hl).
        pose proof (i_nodup _ (proj1 B1)) as Hnd. rewrite Eq, <- Permutation_middle in Hnd. by apply NoDup_cons in Hnd as [? _].
    + apply unlink_none in Eu. destruct (unlink t (g_to_sleep s1)) as [l|] eqn:El.
      * split; [done|]. rewrite <- A3. destruct (sleep_future_inv t now s1 s2 l) as (C1 & C2 & C3 & C4); [done..|]. split_and!; [done|done| |].
        -- intros u. by rewrite C4.
        -- intros _ _. by rewrite C3.
      * split; [done|]. split_and!; [by apply (suspend_out_inv s1 s2 t)|by rewrite <- A3| |done].
        intros u. rewrite <- Eg. apply (Hf2 u).
  - cbn [andb]. rewrite bool_decide_false by done. destruct (unlink t (g_to_sleep s)) as [l|] eqn:El; [|done]. split; [done|].
    apply unlink_some in El as (l1 & l2 & El & -> & _). set (s3 := with_to_sleep _ _ s).
    assert (inv s3) as H3.
    { destruct Hi as [[H1 H2 H3 H4 H5 H6 H7 H8 H9 H10] Hfr]. split; [split; try done|done].
      intros u Hin. destruct (H3 u Hin) as [Hcu Hn]. split; [done|]. change (u ∉ l1 ++ l2). rewrite El in Hn. set_solver. }
    assert (alike s3 (on_to_sleep_update s3)) as Ha by (unfold on_to_sleep_update; destruct (g_to_sleep s3) eqn:E3; by split).
    split_and!; [by eapply alike_inv| |apply (a_gone _ _ Ha)|done].
    intros u. rewrite (a_to_sleep _ _ Ha). change (u ∈ l1 ++ l2 -> u ∈ g_to_sleep s). rewrite El. set_solver.
Qed.

(** ** Waking up *)

Lemma fold_wake l s : let s' := fold_left (fun s t => wake_up t s) l s in
  g_ppu s' = g_ppu s /\ g_pending s' = g_pending s /\ g_waiting s' = g_waiting s /\ g_to_sleep s' = g_to_sleep s /\
  g_scheduler_ready s' = g_scheduler_ready s /\
  forall u, prio_of s' u = prio_of s u /\ acked s' u = acked s u /\ suspended s' u = (suspended s u && negb (bool_decide (u ∈ l))) /\
    has_flag s' u cpu_flag.notify = has_flag s u cpu_flag.notify /\ cancel_sleep (threads s' u) = cancel_sleep (threads s u) /\ gone s' u = gone s u.
Proof.
  revert s. induction l as [|t l IH]; intros s; cbn zeta.
  - cbn [fold_left]. split_and!; try done. intros u. by rewrite bool_decide_false, andb_true_r by apply not_elem_of_nil.
  - cbn [fold_left]. destruct (IH (wake_up t s)) as (A1 & A2 & A3 & A4 & A5 & A6). set (s' := fold_left _ l _) in *.
    assert (g_ppu (wake_up t s) = g_ppu s /\ g_pending (wake_up t s) = g_pending s /\ g_waiting (wake_up t s) = g_waiting s /\
      g_to_sleep (wake_up t s) = g_to_sleep s /\ g_scheduler_ready (wake_up t s) = g_scheduler_ready s /\
      forall u, prio_of (wake_up t s) u = prio_of s u /\ acked (wake_up t s) u = acked s u /\
        suspended (wake_up t s) u = (suspended s u && negb (bool_decide (u = t))) /\
        has_flag (wake_up t s) u cpu_flag.notify = has_flag s u cpu_flag.notify /\
        cancel_sleep (threads (wake_up t s) u) = cancel_sleep (threads s u) /\ gone (wake_up t s) u = gone s u) as (B1 & B2 & B3 & B4 & B5 & B6).
    { unfold wake_up. destruct (has_flag s t cpu_flag.suspend) eqn:Es.
      - set (s1 := on_thread t _ s).
        assert (forall u, prio_of s1 u = prio_of s u /\ acked s1 u = acked s u /\ suspended s1 u = (suspended s u && negb (bool_decide (u = t))) /\
          has_flag s1 u cpu_flag.notify = has_flag s u cpu_flag.notify /\ cancel_sleep (threads s1 u) = cancel_sleep (threads s u) /\ gone s1 u = gone s u) as Hf.
        { intros u. unfold prio_of, acked, suspended, has_flag, gone, s1. rewrite threads_on. destruct (decide (u = t)) as [->|Hne].
          - rewrite bool_decide_true by done. cbn [prio ack_suspend state cancel_sleep joiner with_times with_state]. flags_simpl. rewrite !andb_false_r.
            by destruct (_ =? 0).
          - by rewrite bool_decide_false, andb_true_r. }
        by destruct (_ && _).
      - split_and!; try done. intros u. split_and!; try done. unfold suspended. case_bool_decide; subst; [by rewrite Es|by rewrite andb_true_r]. }
    split_and!; try congruence. intros u. destruct (A6 u) as (-> & -> & -> & -> & -> & ->), (B6 u) as (-> & -> & -> & -> & -> & ->). split_and!; try done.
    rewrite <- andb_assoc, <- negb_orb. do 2 f_equal. apply eq_true_iff_eq. by rewrite orb_true_iff, !bool_decide_eq_true, elem_of_cons.
Qed.

Lemma nobody_acked s t : inv0 s -> g_pending s = 0 -> acked s t = false.
Proof. intros Hi Hp. destruct (acked s t) eqn:E; [|done]. pose proof (acked_pending s t Hi E). lia. Qed.

(** The first [N] threads are woken when nobody is waited for. *)
Lemma wake_first_inv s : inv s -> let s' := wake_first N s in
  inv s' /\ g_ppu s' = g_ppu s /\ g_pending s' = g_pending s /\ g_waiting s' = g_waiting s /\ g_to_sleep s' = g_to_sleep s /\
  g_scheduler_ready s' = g_scheduler_ready s /\
  (forall u, acked s' u = acked s u /\ prio_of s' u = prio_of s u /\ gone s' u = gone s u) /\
  (g_pending s = 0 -> g_scheduler_ready s = true -> forall u, u ∈ take N (g_ppu s) -> suspended s' u = false) /\
  (g_pending s <> 0 \/ g_scheduler_ready s = false -> s' = s).
Proof.
  intros Hi. cbn zeta. unfold wake_first. destruct ((g_pending s =? 0) && g_scheduler_ready s) eqn:E.
  2:{ apply andb_false_iff in E. split_and!; try done. intros Hp Hr. destruct E as [E|E]; [by apply Z.eqb_neq in E|congruence]. }
  apply andb_true_iff in E as [Hp%Z.eqb_eq Hr].
  destruct (fold_wake (take N (g_ppu s)) s) as (A1 & A2 & A3 & A4 & A5 & A6). set (s' := fold_left _ _ s) in *.
  pose proof Hi as [[H1 H2 H3 H4 H5 H6 H7 H8 H9 H10] Hfr].
  assert (forall u, u ∈ drop N (g_ppu s) -> u ∉ take N (g_ppu s)) as Hdt.
  { intros u Hd Ht. rewrite <- (take_drop N (g_ppu s)) in H1. apply NoDup_app in H1 as (_ & Hn & _). by apply (Hn u). }
  assert (forall u, u ∈ drop N (g_ppu s) -> suspended s' u = true) as Hfr'.
  { intros u Hu. destruct (A6 u) as (_ & _ & -> & _). rewrite Hfr, bool_decide_false by (done || by apply Hdt). done. }
  split_and!; try done; [split; [split|]| | |]; rewrite ?A1, ?A2, ?A3, ?A4; try done.
  - eapply ssorted_ext; [|exact H2]. intros x y _ _. by rewrite (proj1 (A6 x)), (proj1 (A6 y)).
  - intros u. destruct (A6 u) as (_ & -> & _). by rewrite (nobody_acked s u (proj1 Hi) Hp).
  - rewrite H5. apply countb_ext. intros u _. by destruct (A6 u) as (_ & -> & _).
  - intros u Hc. destruct (A6 u) as (_ & _ & -> & _ & _ & ->). intros [Hs|Ht%negb_false_iff%bool_decide_eq_true]%andb_false_iff; [by apply H6|].
    left. rewrite <- (take_drop N (g_ppu s)). set_solver.
  - apply countb_bound. intros u Hu. unfold holds_hw. rewrite (Hfr' u Hu). destruct (A6 u) as (_ & -> & _). by apply nobody_acked.
  - intros u. destruct (A6 u) as (_ & _ & _ & -> & _). apply H9.
  - intros u. by destruct (A6 u) as (-> & -> & _ & _ & _ & ->).
  - intros _ _ u Hu. destruct (A6 u) as (_ & _ & -> & _). by rewrite bool_decide_true, andb_false_r.
  - intros [?|?]; [done|congruence].
Qed.

(** ** Timeouts *)

Lemma waiting_tail_inv p l s : inv (with_waiting (p :: l) s) -> inv (with_waiting l s).
Proof.
  intros [[H1 H2 H3 H4 H5 H6 H7 H8 H9 H10] Hfr]. split; [split; try done|done]; cbn [g_waiting with_waiting] in *.
  - by apply NoDup_cons in H8 as [_ H8].
  - intros t Ht. apply H9. by right.
  - by apply ssorted_cons in H10 as [H10 _].
Qed.

(** One timeout is over. *)
Lemma expire_one_inv w t l s : inv (with_waiting ((w, t) :: l) s) ->
  let s1 := notify_one t (on_thread t (with_state (add cpu_flag.notify)) s) in
  has_flag s t cpu_flag.notify = false /\ inv (with_waiting l s1) /\
  (forall u, prio_of s1 u = prio_of s u /\ acked s1 u = acked s u /\ suspended s1 u = suspended s u /\ (u <> t -> threads s1 u = threads s u) /\ gone s1 u = gone s u).
Proof.
  intros Hi. set (s1 := notify_one t _). pose proof (waiting_tail_inv _ _ _ Hi) as [Hi0 Hfr].
  assert (forall u, prio_of s1 u = prio_of s u /\ acked s1 u = acked s u /\ suspended s1 u = suspended s u /\ (u <> t -> threads s1 u = threads s u) /\ gone s1 u = gone s u) as Hf.
  { intros u. unfold prio_of, acked, suspended, has_flag, gone, s1. cbn [threads notify_one]. rewrite threads_on. by case_decide; subst. }
  assert (t ∉ map snd l) as Hn by (pose proof (i_ids _ (proj1 Hi)) as Hnd; by apply NoDup_cons in Hnd as [? _]).
  cbn zeta. split; [apply (i_waiting _ (proj1 Hi) t); left|]. split; [|done]. clear Hi. destruct Hi0 as [H1 H2 H3 H4 H5 H6 H7 H8 H9 H10].
  split; [split; try done|].
  - eapply ssorted_ext; [|exact H2]. intros x y _ _. change (prio_of s x <= prio_of s y -> prio_of s1 x <= prio_of s1 y).
    by rewrite (proj1 (Hf x)), (proj1 (Hf y)).
  - intros u. change (acked s1 u = true -> u ∈ g_ppu s /\ suspended s1 u = true). destruct (Hf u) as (_ & -> & -> & _). apply H4.
  - etrans; [exact H5|]. apply countb_ext. intros u _. symmetry. apply (Hf u).
  - intros u Hc. change (suspended s1 u = false -> u ∈ g_ppu s \/ gone s1 u = true). destruct (Hf u) as (_ & _ & -> & _ & ->). by apply H6.
  - etrans; [|exact H7]. apply Z.eq_le_incl, countb_ext. intros u _. change (holds_hw s1 u = holds_hw s u). unfold holds_hw.
    by destruct (Hf u) as (_ & -> & -> & _).
  - intros u Hu. destruct (H9 u Hu) as [B1 B2]. split; [done|]. change (has_flag s1 u cpu_flag.notify = false). unfold has_flag.
    destruct (Hf u) as (_ & _ & _ & Hfu & _). rewrite Hfu by (by intros ->). exact B2.
  - intros u Hu. change (suspended s1 u = true). destruct (Hf u) as (_ & _ & -> & _). by apply Hfr.
Qed.

Lemma filter_later now (p : Z * Z) (l : list (Z * Z)) : now < p.1 -> (forall q, q ∈ l -> p.1 <= q.1) -> List.filter (fun q => now <? q.1) l = l.
Proof.
  intros Hp Hl. induction l as [|q l IH]; [done|]. cbn. rewrite (proj2 (Z.ltb_lt now q.1)) by (specialize (Hl q ltac:(left)); lia).
  f_equal. apply IH. intros y Hy. apply Hl. by right.
Qed.

(** The timeouts that are over are taken off; who they belong to is notified. *)
Lemma expire_inv current now l s : inv (with_waiting l s) -> exists s', expire current now l s = Some s' /\ inv s' /\
  g_ppu s' = g_ppu s /\ g_pending s' = g_pending s /\ g_to_sleep s' = g_to_sleep s /\ g_scheduler_ready s' = g_scheduler_ready s /\
  g_waiting s' = List.filter (fun p => now <? p.1) l /\
  (forall u, prio_of s' u = prio_of s u /\ acked s' u = acked s u /\ suspended s' u = suspended s u /\ gone s' u = gone s u) /\
  (forall u, u ∉ map snd l -> threads s' u = threads s u) /\
  (forall p, p ∈ l -> p.1 <= now -> Some p.2 <> current -> has_flag s' p.2 cpu_flag.notify = true).
Proof.
  revert s. induction l as [|[w t] l IH]; intros s Hi; cbn [expire].
  - exists (with_waiting [] s). split_and!; try done. by intros p ?%not_elem_of_nil.
  - pose proof (i_ids _ (proj1 Hi)) as Hn. cbn [g_waiting with_waiting map snd] in Hn. apply NoDup_cons in Hn as [Hn _].
    pose proof (i_times _ (proj1 Hi)) as Hle. cbn [g_waiting with_waiting] in Hle. apply ssorted_cons in Hle as [_ Hle]. cbn [List.filter fst].
    destruct (Z.leb_spec w now) as [Hw|Hw].
    + rewrite (proj2 (Z.ltb_ge now w)) by done. case_bool_decide as Hcur.
      * destruct (IH s (waiting_tail_inv _ _ _ Hi)) as (s' & E & A1 & A2 & A3 & A4 & A5 & A6 & A7 & A8 & A9). exists s'. split_and!; try done.
        -- intros u [_ Hu]%not_elem_of_cons. by apply A8.
        -- intros p [->|Hp]%elem_of_cons; [done|by apply A9].
      * destruct (expire_one_inv w t l s Hi) as (-> & Htl & Hf). set (s1 := notify_one t _) in *.
        destruct (IH s1 Htl) as (s' & E & A1 & A2 & A3 & A4 & A5 & A6 & A7 & A8 & A9).
        exists s'. split_and!; try done.
        -- intros u. by destruct (A7 u) as (-> & -> & -> & ->), (Hf u) as (-> & -> & -> & _ & ->).
        -- intros u [Hu1 Hu]%not_elem_of_cons. rewrite A8 by done. by apply (Hf u).
        -- intros p [->|Hp]%elem_of_cons; [|by apply A9]. cbn [fst snd]. intros _ _. unfold has_flag. rewrite A8 by done.
           unfold s1. cbn [threads notify_one]. rewrite threads_on, decide_True by done. cbn [state with_state]. flags_simpl. done.
    + rewrite (proj2 (Z.ltb_lt now w)) by done. exists (with_waiting ((w, t) :: l) s). split_and!; try done.
      * cbn [g_waiting with_waiting]. f_equal. symmetry. by apply (filter_later now (w, t)).
      * intros p [->|Hp]%elem_of_cons; cbn [fst]; [lia|]. specialize (Hle p Hp). cbn in Hle. lia.
Qed.

(** ** Whole operations *)

(** Nobody is suspended without need: [settled] holds of what [schedule_all]
    leaves. *)
Definition settled (s : sched) : Prop :=
  g_pending s = 0 -> g_scheduler_ready s = true -> forall t, t ∈ take N (g_ppu s) -> suspended s t = false.

Definition inv_settled (s : sched) : Prop := inv s /\ settled s.

Lemma schedule_all_inv current ct now tsc s : inv s -> exists s', schedule_all N current ct now tsc s = Some s' /\ inv_settled s' /\
  g_ppu s' = g_ppu s /\ g_pending s' = g_pending s /\ g_to_sleep s' = g_to_sleep s /\ g_scheduler_ready s' = g_scheduler_ready s /\
  g_waiting s' = List.filter (fun p => (if ct =? 0 then now else ct) <? p.1) (g_waiting s) /\
  (forall u, prio_of s' u = prio_of s u /\ acked s' u = acked s u /\ gone s' u = gone s u).
Proof.
  intros Hi. unfold schedule_all. destruct (wake_first_inv s Hi) as (A1 & A2 & A3 & A4 & A5 & A6 & A7 & A8 & _). set (s1 := wake_first N s) in *.
  destruct (expire_inv current (if ct =? 0 then now else ct) (g_waiting s1) s1) as (s2 & E & B1 & B2 & B3 & B4 & B5 & B6 & B7 & _).
  { destruct A1 as [[H1 H2 H3 H4 H5 H6 H7 H8 H9 H10] Hfr]. split; [by split|done]. }
  rewrite <- A4, E. cbn [mbind option_bind]. pose proof (preempt_alike current tsc s2) as Ha. exists (preempt N current tsc s2).
  split; [done|]. split; [split; [by eapply alike_inv|]|].
  - intros Hp Hr t. rewrite (a_ppu _ _ Ha), (a_suspended _ _ Ha), B2, A2. destruct (B7 t) as (_ & _ & -> & _). apply A8.
    + rewrite <- A3, <- B3, <- (a_pending _ _ Ha). done.
    + rewrite <- A6, <- B5, <- Hr. unfold preempt. destruct (_ && _); [|done]. destruct (preempt_candidate _ _ _); [|done]. by destruct (negb _).
  - rewrite (a_ppu _ _ Ha), (a_pending _ _ Ha), (a_to_sleep _ _ Ha), (a_waiting _ _ Ha), B6. split_and!; try congruence.
    + transitivity (g_scheduler_ready s2); [|congruence]. unfold preempt. destruct (_ && _); [|done]. destruct (preempt_candidate _ _ _); [|done]. by destruct (negb _).
    + intros u. rewrite (a_prio _ _ Ha), (a_acked _ _ Ha), (a_gone _ _ Ha). destruct (B7 u) as (-> & -> & _ & ->). by destruct (A7 u) as (-> & -> & ->).
Qed.

Lemma awake_inv current c now tsc cpu cmd l s : inv s ->
  (cmd = enqueue_cmd -> forall t, cpu = Some t -> ready s t) -> (forall t, t ∈ l -> ready s t) ->
  (cpu = None -> cmd = enqueue_cmd) -> (cmd <> yield_cmd -> cmd <> enqueue_cmd -> -512 <= cmd < 3200) ->
  exists s', fst <$> awake cls N all_timers current c now tsc cpu cmd l s = Some s' /\ inv_settled s'.
Proof.
  intros Hi Hcpu Hl Hnone Hcmd. unfold awake.
  destruct (awake_unlocked_inv current c now cpu cmd l s Hi Hcpu Hl Hnone Hcmd) as (s1 & b & -> & H1 & _). cbn [mbind option_bind].
  destruct (schedule_all_inv current 0 now tsc s1 H1) as (s2 & -> & H2 & _). cbn [mbind option_bind]. by exists s2.
Qed.

Lemma may_awake_spec s t : may_awake cls s t = true -> ready s t /\ gone s t = false.
Proof. unfold may_awake. rewrite andb_true_iff, bool_decide_eq_true, negb_true_iff. unfold ready. naive_solver. Qed.

Lemma all_may_awake s l : forallb (may_awake cls s) l = true -> forall t, t ∈ l -> ready s t /\ gone s t = false.
Proof. intros H t Ht. apply may_awake_spec. rewrite forallb_forall in H. apply H. by apply list_elem_of_In. Qed.

(** *** Who is in the queue, and who has exited *)

Lemma gone_on t f s u : joiner (f (threads s t)) = joiner (threads s t) -> gone (on_thread t f s) u = gone s u.
Proof. intros E. unfold gone. rewrite threads_on. case_decide; subst; by rewrite ?E. Qed.

Lemma suspend_from_gone i q s u : gone (suspend_from N i q s) u = gone s u.
Proof.
  revert i s. induction q as [|t q IH]; intros i s; [done|]. rewrite suspend_from_cons, IH. destruct (_ && _); [|done].
  unfold suspend_one. destruct (is_paused _); by apply (gone_on t (fun x => with_state (add cpu_flag.suspend) (with_ack true x))).
Qed.

Lemma place_members (pr : Z -> Z) pf t q q' u : place pr pf t q = Some q' -> u ∈ q' -> u ∈ q \/ u = t.
Proof.
  revert q'. induction q as [|x q IH]; intros q'; cbn; [intros [= <-]; set_solver|]. destruct (x =? t); [done|].
  destruct (if pf then _ else _); [intros [= <-]; set_solver|]. destruct (place pr pf t q) as [q0|]; [|done]. cbn. intros [= <-].
  specialize (IH q0 eq_refl). set_solver.
Qed.

Lemma emplace_members t s u : gone (emplace_thread false t s).1 u = gone s u /\
  (u ∈ g_ppu (emplace_thread false t s).1 -> u ∈ g_ppu s \/ u = t).
Proof.
  unfold emplace_thread. destruct (place _ _ _ _) as [q|] eqn:E; cbn [fst]; [split; [done|by eapply place_members]|].
  destruct (_ =? 1); [|tauto]. split; [by apply gone_on|by left].
Qed.

Lemma emplace_all_members cpus s ch lo u : gone (emplace_all cpus s ch lo).1.1 u = gone s u /\
  (u ∈ g_ppu (emplace_all cpus s ch lo).1.1 -> u ∈ g_ppu s \/ u ∈ cpus).
Proof.
  revert s ch lo. induction cpus as [|t cpus IH]; intros s ch lo; cbn [emplace_all fst]; [tauto|].
  pose proof (emplace_members t s u) as [H1 H2]. destruct (emplace_thread false t s) as [s1 ok]. cbn [fst] in *.
  destruct (IH s1 (ok || ch) (if ok then Z.min (prio_of s1 t) lo else lo)) as [H3 H4]. split; [congruence|]. rewrite elem_of_cons. tauto.
Qed.

(** Threads that sleepers awaken come in, and nobody else. *)
Lemma awake_members current now l s : inv s -> (forall t, t ∈ l -> ready s t) ->
  exists s' b, awake_unlocked cls N all_timers current false now None enqueue_cmd l s = Some (s', b) /\ inv s' /\
    (forall u, u ∈ g_ppu s' -> u ∈ g_ppu s \/ u ∈ l) /\ forall u, gone s' u = gone s u.
Proof.
  intros Hi Hl. destruct (emplace_all_inv0 l s false smax (proj1 Hi) Hl) as (s1 & ch & lo & E & H1 & Ets).
  destruct (awake_rest_inv current false None enqueue_cmd l s s1 ch lo Ets E H1) as (s' & E' & H' & _ & Eq & _).
  exists s', ch. split; [exact E'|]. split; [done|].
  split; [intros u; rewrite Eq; pose proof (emplace_all_members l s false smax u) as [_ Hm]; by rewrite E in Hm|].
  intros u. unfold awake_rest in E'. change (enqueue_cmd =? yield_cmd) with false in E'. rewrite E in E'. cbn [mbind option_bind] in E'.
  destruct (acknowledge cls current _) as [s2|] eqn:Ea; [|done]. injection E' as <-. rewrite (a_gone _ _ (delay_alike _ _ _ _ _ _)).
  transitivity (gone (suspend_from N 0 (g_ppu s1) s1) u).
  - clear -Ea. unfold acknowledge in Ea. destruct current as [t|]; [|congruence]. destruct (_ && _); [|congruence]. destruct (_ =? 0); [done|].
    injection Ea as <-. by apply (gone_on t (with_ack false)).
  - rewrite suspend_from_gone. pose proof (emplace_all_members l s false smax u) as [Hm _]. by rewrite E in Hm.
Qed.

Lemma sleep_inv current t timeout now tsc l s : inv s -> cls t = thread_class.ppu \/ cls t = thread_class.spu ->
  (forall u, u ∈ l -> ready s u /\ gone s u = false) ->
  match sleep cls N all_timers current t timeout now tsc l s with
  | Some (s', _) => inv_settled s' /\ (forall u, gone s' u = gone s u) /\
      (cls t = thread_class.ppu -> has_flag s t cpu_flag.signal = false -> t ∉ l -> t ∉ g_ppu s')
  | None => sleep_fails t timeout s = true
  end.
Proof.
  intros Hi Hc Hl. unfold sleep. pose proof (sleep_unlocked_inv t timeout now s Hi Hc) as H.
  destruct (sleep_unlocked cls t timeout now s) as [[s1 b]|]; [|done]. destruct H as (_ & H1 & Hts & Hg & Hq). cbn [mbind option_bind].
  assert (exists s2, match l with [] => Some s1 | _ => r ← awake_unlocked cls N all_timers current false now None enqueue_cmd l s1; Some r.1 end = Some s2 /\ inv s2 /\
    (forall u, u ∈ g_ppu s2 -> u ∈ g_ppu s1 \/ u ∈ l) /\ forall u, gone s2 u = gone s1 u) as (s2 & E2 & H2 & Hm2 & Hg2).
  { destruct l as [|u l]; [exists s1; split_and!; try done; by left|].
    destruct (awake_members current now (u :: l) s1 H1) as (s2 & ch & -> & H2 & Hm & Hg2); [|by exists s2].
    intros v Hv. destruct (Hl v Hv) as [(? & Hn & _) Hgv]. split_and!; [done|by intros ?%Hts|right; by rewrite Hg]. }
  cbn zeta beta in E2 |- *. rewrite E2. cbn [mbind option_bind].
  destruct (schedule_all_inv current now now tsc s2 H2) as (s3 & -> & H3 & Eq3 & _ & _ & _ & _ & Hf3). cbn [mbind option_bind]. split_and!; [done| |].
  - intros u. destruct (Hf3 u) as (_ & _ & ->). by rewrite Hg2, Hg.
  - intros Hp Hs Ht. rewrite Eq3. intros [Hin|Hin]%Hm2; [by apply Hq in Hin|done].
Qed.

Lemma alike_settled s s' : alike s s' -> g_scheduler_ready s' = g_scheduler_ready s -> inv_settled s -> inv_settled s'.
Proof.
  intros Ha Er [H1 H2]. split; [by eapply alike_inv|]. intros Hp Hr t. rewrite (a_ppu _ _ Ha), (a_suspended _ _ Ha). apply H2.
  - by rewrite <- (a_pending _ _ Ha).
  - by rewrite <- Er.
Qed.

(** A thread outside the queue that is no PPU thread, or has exited, may be
    suspended or not. *)
Lemma out_state_inv t f s : inv_settled s -> t ∉ g_ppu s -> cls t <> thread_class.ppu \/ gone s t = true ->
  (state (threads s t) cpu_flag.notify = false -> f (state (threads s t)) cpu_flag.notify = false) ->
  inv_settled (on_thread t (with_state f) s).
Proof.
  intros [[[H1 H2 H3 H4 H5 H6 H7 H8 H9 H10] Hfr] Hst] Hq Ht Hn. set (s' := on_thread t _ s).
  assert (forall u, prio_of s' u = prio_of s u /\ acked s' u = acked s u /\ gone s' u = gone s u /\
    (has_flag s u cpu_flag.notify = false -> has_flag s' u cpu_flag.notify = false) /\ (u <> t -> suspended s' u = suspended s u)) as Hf.
  { intros u. unfold prio_of, acked, gone, has_flag, suspended, has_flag, s'. rewrite threads_on. case_decide; by subst. }
  assert (forall u, u ∈ g_ppu s -> suspended s' u = suspended s u) as Hs by (intros u Hu; apply Hf; by intros ->).
  split; [split; [split|]|]; try done.
  - eapply ssorted_ext; [|exact H2]. intros x y _ _. by rewrite (proj1 (Hf x)), (proj1 (Hf y)).
  - intros u. destruct (Hf u) as (_ & -> & _). intros Ha. destruct (H4 u Ha) as [Hu Hsu]. split; [done|]. by rewrite Hs.
  - etrans; [exact H5|]. apply countb_ext. intros u _. symmetry. apply (Hf u).
  - intros u Hc Hsu. destruct (Hf u) as (_ & _ & -> & _ & E). destruct (decide (u = t)) as [->|Hu]; [destruct Ht; [done|by right]|].
    apply H6; [done|]. by rewrite <- E.
  - etrans; [|exact H7]. apply Z.eq_le_incl, countb_ext. intros u Hu. unfold holds_hw. rewrite (Hs u Hu). by destruct (Hf u) as (_ & -> & _).
  - intros u Hu. destruct (H9 u Hu) as [A B]. split; [done|]. by apply Hf.
  - intros u Hu. rewrite Hs by (by eapply drop_elem). by apply Hfr.
  - intros Hp Hr u Hu. rewrite Hs; [by apply Hst|]. rewrite <- (take_drop N (g_ppu s)). change (u ∈ take N (g_ppu s)) in Hu. set_solver.
Qed.

(** A thread may exit, never come back. *)
Lemma joiner_inv t f s : inv_settled s -> (gone s t = true -> match f (joiner (threads s t)) with zombie | exited => True | _ => False end) ->
  inv_settled (on_thread t (fun x => with_joiner (f (joiner x)) x) s).
Proof.
  intros [[[H1 H2 H3 H4 H5 H6 H7 H8 H9 H10] Hfr] Hst] Hj. set (s' := on_thread t _ s).
  assert (forall u, prio_of s' u = prio_of s u /\ acked s' u = acked s u /\ suspended s' u = suspended s u /\
    has_flag s' u cpu_flag.notify = has_flag s u cpu_flag.notify /\ (gone s u = true -> gone s' u = true)) as Hf.
  { intros u. unfold prio_of, acked, suspended, has_flag, gone, s' in *. rewrite threads_on. case_decide; subst; split_and!; try done.
    intros Hg. specialize (Hj Hg). cbn [joiner with_joiner]. by destruct (f _). }
  split; [split; [split|]|]; try done.
  - eapply ssorted_ext; [|exact H2]. intros x y _ _. by rewrite (proj1 (Hf x)), (proj1 (Hf y)).
  - intros u. destruct (Hf u) as (_ & -> & -> & _). apply H4.
  - etrans; [exact H5|]. apply countb_ext. intros u _. symmetry. apply (Hf u).
  - intros u Hc. destruct (Hf u) as (_ & _ & -> & _ & E). intros Hs. destruct (H6 u Hc Hs); [by left|right; by apply E].
  - etrans; [|exact H7]. apply Z.eq_le_incl, countb_ext. intros u _. unfold holds_hw. by destruct (Hf u) as (_ & -> & -> & _).
  - intros u Hu. destruct (Hf u) as (_ & _ & _ & -> & _). by apply H9.
  - intros u Hu. destruct (Hf u) as (_ & _ & -> & _). by apply Hfr.
  - intros Hp Hr u Hu. destruct (Hf u) as (_ & _ & -> & _). by apply Hst.
Qed.

(** A thread of a savestate is made. *)
Lemma load_inv t x s : inv_settled s -> ack_suspend x = false -> acked s t = false -> t ∉ g_ppu s -> t ∉ g_to_sleep s -> t ∉ map snd (g_waiting s) ->
  inv_settled (load_thread cls t x s).
Proof.
  intros [[[H1 H2 H3 H4 H5 H6 H7 H8 H9 H10] Hfr] Hst] Hx Ha Hq Hts Hw. unfold load_thread. set (x' := if bool_decide (cls t = thread_class.ppu) then _ else x). set (s' := set_future_sleep _ _).
  assert (ack_suspend x' = false /\ (cls t = thread_class.ppu -> state x' cpu_flag.suspend = true)) as [Hx' Hsx].
  { unfold x'. case_bool_decide; split; try done. }
  assert (forall u, u <> t -> threads s' u = threads s u) as Ht by (intros u Hu; cbn; by rewrite upd_ne).
  assert (threads s' t = x') as Htt by (cbn; by rewrite upd_eq). clearbody x'.
  assert (forall u, acked s' u = acked s u) as Hak.
  { intros u. destruct (decide (u = t)) as [->|Hu]; [rewrite Ha; unfold acked; by rewrite Htt|]. unfold acked. by rewrite Ht. }
  assert (forall u, u ∈ g_ppu s -> u <> t) as Hne by (by intros u ? ->).
  split; [split; [split|]|]; try done.
  - eapply ssorted_ext; [|exact H2]. intros a b Hin1 Hin2. unfold prio_of. by rewrite !Ht by auto.
  - intros u Hu. destruct (H3 u Hu). split; [done|]. cbn [g_to_sleep s' set_future_sleep with_to_sleep with_threads]. rewrite not_elem_of_app. split; [done|].
    intros ->%list_elem_of_singleton. done.
  - intros u. rewrite Hak. intros Hu. destruct (H4 u Hu) as [A B]. split; [done|]. unfold suspended, has_flag. by rewrite Ht by auto.
  - etrans; [exact H5|]. apply countb_ext. intros u _. by rewrite Hak.
  - intros u Hc. unfold suspended, has_flag, gone. destruct (decide (u = t)) as [->|Hu]; [rewrite Htt, Hsx by done; done|]. rewrite Ht by done. by apply H6.
  - etrans; [|exact H7]. apply Z.eq_le_incl, countb_ext. intros u Hu. unfold holds_hw. rewrite Hak. unfold suspended, has_flag. by rewrite Ht by auto.
  - intros u Hu. destruct (H9 u Hu). split; [done|]. unfold has_flag. rewrite Ht; [done|]. by intros ->.
  - intros u Hu. unfold suspended, has_flag. rewrite Ht; [by apply Hfr|]. by apply drop_elem, Hne in Hu.
  - intros Hp Hr u Hu. unfold suspended, has_flag. rewrite Ht; [by apply Hst|]. apply Hne. change (u ∈ take N (g_ppu s)) in Hu.
    rewrite <- (take_drop N (g_ppu s)). set_solver.
Qed.

(** A thread exits. *)
Lemma exit_inv now tsc t s : inv_settled s -> allowed cls (Exit now tsc t) s = true ->
  exists s', sys_ppu_thread_exit cls N all_timers now tsc t s = Some s' /\ inv_settled s'.
Proof.
  intros Hi Ha. cbn in Ha. rewrite !andb_true_iff, bool_decide_eq_true, !negb_true_iff in Ha. destruct Ha as [[[Hc Hg] Hs] Hj].
  unfold sys_ppu_thread_exit. set (s1 := on_thread t (with_state (add cpu_flag.wait)) s).
  assert (alike s s1) as Ha1 by (apply on_thread_alike; try done; cbn [state with_state]; flags_simpl; done).
  assert (inv_settled s1) as H1 by (by apply (alike_settled s)).
  assert (joiner (threads s1 t) = joiner (threads s t)) as Ej by (unfold s1; by rewrite threads_on, decide_True).
  set (s2 := on_thread t (with_joiner _) s1). assert (inv_settled s2) as H2.
  { apply (joiner_inv t exit_op s1 H1). rewrite (a_gone _ _ Ha1), Hg. done. }
  assert (gone s2 t = true) as Hg2.
  { unfold gone, s2. rewrite threads_on, decide_True by done. cbn [joiner with_joiner]. by destruct (joiner (threads s1 t)). }
  assert (has_flag s2 t cpu_flag.signal = false) as Hs2.
  { unfold has_flag, s2. rewrite threads_on, decide_True by done. unfold s1. rewrite threads_on, decide_True by done. cbn [state with_joiner with_state]. flags_simpl. exact Hs. }
  rewrite Ej. set (l := match joiner (threads s t) with joined id => [id] | _ => [] end).
  assert (forall u, u ∈ l -> (ready s2 u /\ gone s2 u = false) /\ u <> t) as Hl.
  { unfold l. destruct (joiner (threads s t)) as [| | | |id]; try (by intros u ?%not_elem_of_nil). intros u ->%list_elem_of_singleton.
    apply andb_true_iff in Hj as [[(A & B & C) D]%may_awake_spec Hne%negb_true_iff%Z.eqb_neq]. split; [|done].
    assert (gone s2 id = false) as E; [|split; [split_and!; [done..|by right]|done]].
    unfold gone, s2. rewrite threads_on, decide_False by done. rewrite <- (a_gone _ _ Ha1 id) in D. exact D. }
  pose proof (sleep_inv (Some t) t 0 now tsc l s2 (proj1 H2) (or_introl Hc)) as H. fold s2.
  destruct (sleep cls N all_timers (Some t) t 0 now tsc l s2) as [[s3 b]|].
  - destruct H as (H3 & Hg3 & Hq3); [intros u Hu; by apply Hl|]. eexists. split; [done|]. cbn [fst]. apply out_state_inv; [done| | |].
    + apply Hq3; [done..|]. intros Ht. by destruct (Hl t Ht).
    + right. by rewrite Hg3.
    + flags_simpl. done.
  - assert (sleep_fails t 0 s2 = true) as Hbad by (apply H; intros u Hu; by apply Hl). unfold sleep_fails in Hbad. by rewrite andb_false_r in Hbad.
Qed.

(** ** Steps *)

(** The two ways to fail. *)
Definition fails (o : op) (s : sched) : bool :=
  match o with
  | Sleep t timeout _ _ _ => sleep_fails t timeout s
  | SetPriority _ _ _ _ p => (p <? -512) || (3200 <=? p)
  | _ => false
  end.

Lemma join_inv now tsc t thread_id s : inv_settled s -> cls t = thread_class.ppu ->
  exists s', sys_ppu_thread_join cls N all_timers now tsc t thread_id s = Some s' /\ inv_settled s'.
Proof.
  intros Hi Hc. unfold sys_ppu_thread_join. destruct (thread_id =? t); [by exists s|].
  destruct (join_op t (joiner (threads s thread_id))) as [status waits] eqn:Ej. set (s1 := on_thread thread_id (with_joiner status) s).
  assert (inv_settled s1) as H1.
  { apply (joiner_inv thread_id (fun _ => status) s Hi). unfold gone. destruct (joiner (threads s thread_id)); try done; cbn in Ej; by injection Ej as <- <-. }
  destruct waits; [|by exists s1].
  pose proof (sleep_inv (Some t) t 0 now tsc [] s1 (proj1 H1) (or_introl Hc)) as H.
  destruct (sleep cls N all_timers (Some t) t 0 now tsc [] s1) as [[s2 b]|].
  - exists s2. split; [done|]. apply H. by intros u ?%not_elem_of_nil.
  - assert (sleep_fails t 0 s1 = true) as Hbad by (apply H; by intros u ?%not_elem_of_nil). unfold sleep_fails in Hbad. by rewrite andb_false_r in Hbad.
Qed.

(** [ensure(prio + 512u < 3712)] for an [s32]. *)
Lemma set_priority_range p : - 2 ^ 31 <= p < 2 ^ 31 ->
  if wrap 32 (p + 512) <? 3712 then -512 <= p < 3200 else (p <? -512) || (3200 <=? p) = true.
Proof.
  intros Hp. destruct (Z.ltb_spec p (-512)) as [Hn|Hn].
  - assert (wrap 32 (p + 512) = p + 512 + 2 ^ 32) as ->; [|by destruct (Z.ltb_spec (p + 512 + 2 ^ 32) 3712); [lia|]].
    unfold wrap. symmetry. apply (Z.mod_unique _ _ (-1)); lia.
  - rewrite wrap_small by (unfold is_word; lia). destruct (Z.ltb_spec (p + 512) 3712); [lia|]. cbn [orb]. apply Z.leb_le. lia.
Qed.

Lemma flag_inv t f b s : inv_settled s -> (f <> cpu_flag.notify \/ b = false) -> (f <> cpu_flag.suspend \/ cls t <> thread_class.ppu) ->
  inv_settled (on_thread t (with_state (if b then add f else sub f)) s).
Proof.
  intros Hi Hn Hf. destruct (decide (f = cpu_flag.suspend)) as [->|Hs].
  - apply out_state_inv; [done| | |].
    + intros Hq. destruct (i_ppu _ (proj1 (proj1 Hi)) t Hq). by destruct Hf.
    + left. by destruct Hf.
    + by destruct b; flags_simpl.
  - apply (alike_settled s); [|done..]. apply on_thread_alike; try done; cbn [state with_state]; destruct b; flags_simpl.
    + by rewrite bool_decide_false.
    + by rewrite bool_decide_false.
    + intros ->. rewrite bool_decide_false; [done|]. by destruct Hn as [?|?]; [congruence|].
    + intros ->. apply andb_false_r.
Qed.

Lemma step_inv o s : inv_settled s -> allowed cls o s = true ->
  match step cls N all_timers o s with Some s' => inv_settled s' | None => fails o s = true end.
Proof.
  intros [Hi Hst] Ha. pose proof (conj Hi Hst : inv_settled s) as Hboth.
  destruct o as [t timeout now tsc l|current c now tsc t|current now tsc l|now tsc t|current now tsc t p|t listed moved lc|rtm now tsc t|t c|t f b|t x|
    now tsc t|now tsc t id|id|now tsc l|freq mx]; cbn [step fails]; try (cbn in Ha).
  - rewrite andb_true_iff, bool_decide_eq_true in Ha. destruct Ha as [Hc Hl]. pose proof (sleep_inv (Some t) t timeout now tsc l s Hi Hc (all_may_awake s l Hl)) as H.
    destruct (sleep _ _ _ _ _ _ _ _ _ _) as [[s' b]|]; [|done]. apply H.
  - apply may_awake_spec in Ha as [Ha _]. destruct (awake_inv current c now tsc (Some t) enqueue_cmd [] s Hi) as (s' & -> & H); try done.
    + by intros _ u [= <-].
    + by intros u ?%not_elem_of_nil.
  - destruct (awake_inv current false now tsc None enqueue_cmd l s Hi) as (s' & E & H); try done; [intros u Hu; by apply (all_may_awake s l)|].
    unfold awake_all. by rewrite E.
  - unfold yield. set (s1 := on_thread t (with_raddr 0) s). assert (alike s s1) as Hal by (by apply on_thread_alike).
    assert (exists s', fst <$> awake cls N all_timers (Some t) false now tsc (Some t) yield_cmd [] s1 = Some s' /\ inv_settled s') as (s' & E & H).
    { apply awake_inv; try done; [by eapply alike_inv|]. by intros u ?%not_elem_of_nil. }
    assert (exists s', fst <$> awake cls N all_timers (Some t) false now tsc (Some t) yield_cmd [] s = Some s' /\ inv_settled s') as (s'' & E' & H').
    { apply awake_inv; try done. by intros u ?%not_elem_of_nil. }
    destruct (cls t); try by rewrite E'. destruct (next_ppu t s1); [by rewrite E|]. cbn. by apply (alike_settled s).
  - rewrite andb_true_iff, Z.leb_le, Z.ltb_lt in Ha. pose proof (set_priority_range p Ha) as Hr. unfold set_priority.
    destruct (wrap 32 (p + 512) <? 3712); [|exact Hr].
    destruct (awake_inv current false now tsc (Some t) p [] s Hi) as (s' & -> & H); try done.
    + intros ->. unfold enqueue_cmd in Hr. lia.
    + by intros u ?%not_elem_of_nil.
  - apply (alike_settled s); [|done|exact Hboth]. apply on_thread_alike; try done; cbn [state with_state]; [|intros _]; by rewrite check_op_flag by set_solver.
  - assert (ready s t) as Hrt.
    { apply orb_true_iff in Ha as [[Ha _]%may_awake_spec|Hq%bool_decide_eq_true]; [exact Ha|]. destruct (i_ppu _ (proj1 Hi) t Hq). split; [done|]. split; [done|]. by left. }
    unfold cpu_sleep. set (s1 := on_thread t _ s). assert (alike s s1) as Hal.
    { apply on_thread_alike; try done; cbn [state with_state with_raddr]; destruct rtm; flags_simpl; done. }
    destruct (awake_inv (Some t) false now tsc (Some t) enqueue_cmd [] s1) as (s' & -> & H); try done.
    + by eapply alike_inv.
    + intros _ u [= <-]. apply (ready_keeps s); [done..|]. apply (a_gone _ _ Hal).
    + by intros u ?%not_elem_of_nil.
  - apply (alike_settled s); [apply cancel_alike|done|done].
  - rewrite andb_true_iff, !orb_true_iff, !negb_true_iff, !bool_decide_eq_true, bool_decide_eq_false in Ha. destruct Ha as [A1 A2].
    exact (flag_inv t f b s Hboth A1 A2).
  - rewrite !andb_true_iff, !negb_true_iff, !bool_decide_eq_true in Ha. destruct Ha as [[[[Hx Ht] Hq] Hts] Hw]. by apply load_inv.
  - destruct (exit_inv now tsc t s Hboth) as (s' & -> & H'); [exact Ha|done].
  - apply bool_decide_eq_true in Ha. destruct (join_inv now tsc t id s Hboth Ha) as (s' & -> & H'). done.
  - apply (joiner_inv id detach_op s Hboth). unfold gone. by destruct (joiner (threads s id)).
  - unfold make_scheduler_ready, awake_all. destruct (awake_inv None false now tsc None enqueue_cmd l (with_ready true s)) as (s' & -> & H); try done; [|].
    + destruct Hi as [[H1 H2 H3 H4 H5 H6 H7 H8 H9 H10] Hfr]. split; [by split|done].
    + intros u Hu. by apply (all_may_awake s l).
  - by apply (alike_settled s).
Qed.

Lemma run_inv ops s s' : inv_settled s -> run cls N all_timers ops s = Some s' -> inv_settled s'.
Proof.
  revert s. induction ops as [|o ops IH]; intros s Hi; cbn [run]; [by intros [= <-]|]. destruct (allowed cls o s) eqn:Ea; [|done].
  pose proof (step_inv o s Hi Ea) as H. destruct (step cls N all_timers o s) as [s1|]; [|done]. by apply IH.
Qed.

Lemma initial_inv x : (forall t, state (x t) cpu_flag.suspend = true /\ ack_suspend (x t) = false) -> inv_settled (initial x).
Proof.
  intros Hx. split; [split; [split|]|]; try done; try by constructor.
  - by intros t ?%not_elem_of_nil.
  - intros t. unfold acked. cbn. by destruct (Hx t) as [_ ->].
  - intros t _. unfold suspended, has_flag. cbn. by destruct (Hx t) as [-> _].
  - cbn. lia.
  - by intros t ?%not_elem_of_nil.
  - cbn [g_ppu initial]. rewrite drop_nil. by intros t ?%not_elem_of_nil.
Qed.

(** What every state reached from the start has. *)
Lemma reached_inv x ops s : (forall t, state (x t) cpu_flag.suspend = true /\ ack_suspend (x t) = false) ->
  run cls N all_timers ops (initial x) = Some s -> inv_settled s.
Proof. intros Hx. apply run_inv. by apply initial_inv. Qed.

(** ** Properties *)

(** C7: whatever threads sleep, are awakened, yield, change priority, stop,
    exit, join, are detached or are loaded, in any order that keeps to
    [allowed] (only threads that have not exited and need not sleep first are
    awakened, only the scheduler and [_sys_ppu_thread_exit] change the
    suspension of a PPU thread, a thread exits once and with no signal left,
    see [exit_with_signal], and a loaded thread is new): among all PPU threads that have not exited, in the queue or not,
    at most [ppu_threads] hold a hardware thread (they may run, or were told to
    stop and have not done so), and these are in the queue; the threads from
    place [ppu_threads] on are suspended; [g_pending] is the number of threads
    told to stop that have not; and the queue is sorted by priority and names
    no thread twice. *)
Theorem at_most_n_run x ops s : (forall t, state (x t) cpu_flag.suspend = true /\ ack_suspend (x t) = false) ->
  run cls N all_timers ops (initial x) = Some s ->
  (forall l, NoDup l -> (forall t, t ∈ l -> cls t = thread_class.ppu /\ gone s t = false /\ holds_hw s t = true) ->
    Z.of_nat (length l) <= Z.of_nat N) /\
  countb (holds_hw s) (g_ppu s) <= Z.of_nat N /\
  (forall t, cls t = thread_class.ppu -> gone s t = false -> holds_hw s t = true -> t ∈ g_ppu s) /\
  (forall t, t ∈ drop N (g_ppu s) -> suspended s t = true) /\
  g_pending s = countb (acked s) (g_ppu s) /\ NoDup (g_ppu s) /\ by_prio (prio_of s) (g_ppu s).
Proof.
  intros Hx Hr. destruct (reached_inv x ops s Hx Hr) as [[Hi Hfr] _].
  assert (forall t, cls t = thread_class.ppu -> gone s t = false -> holds_hw s t = true -> t ∈ g_ppu s) as Hq.
  { intros t Hc Hg [Hs%negb_true_iff|Ha]%orb_true_iff; [|by apply (i_ack _ Hi)]. destruct (i_out _ Hi t Hc Hs); [done|congruence]. }
  split; [|split_and!; try done; apply Hi].
  intros l Hnd Hl. etrans; [|apply (i_count _ Hi)]. apply countb_members; [done|]. intros t Ht. destruct (Hl t Ht) as (Hc & Hg & Hh). auto.
Qed.

Lemma sorted_split (pr : Z -> Z) q t u n : by_prio pr q -> t ∈ take n q -> u ∈ drop n q -> pr t <= pr u.
Proof. rewrite <- (take_drop n q) at 1. rewrite ssorted_app. intros (_ & _ & H). apply H. Qed.

(** C8: when every thread that was told to stop has stopped, and the scheduler
    is ready, the first [ppu_threads] threads of the queue run and nobody
    else: as many as there are hardware threads for, and no thread waits for
    a less urgent one. *)
Theorem most_urgent_run x ops s : (forall t, state (x t) cpu_flag.suspend = true /\ ack_suspend (x t) = false) ->
  run cls N all_timers ops (initial x) = Some s -> g_pending s = 0 -> g_scheduler_ready s = true ->
  countb (holds_hw s) (g_ppu s) = Z.of_nat (N `min` length (g_ppu s)) /\
  (forall t, t ∈ g_ppu s -> suspended s t = bool_decide (t ∈ drop N (g_ppu s))) /\
  forall t u, t ∈ g_ppu s -> u ∈ g_ppu s -> suspended s t = false -> suspended s u = true -> prio_of s t <= prio_of s u.
Proof.
  intros Hx Hr Hp Hrd. destruct (reached_inv x ops s Hx Hr) as [[Hi Hfr] Hst]. specialize (Hst Hp Hrd).
  assert (forall t, t ∈ g_ppu s -> t ∈ take N (g_ppu s) \/ t ∈ drop N (g_ppu s)) as Hcase.
  { intros t. rewrite <- (take_drop N (g_ppu s)) at 1. by rewrite elem_of_app. }
  split_and!.
  - rewrite <- (take_drop N (g_ppu s)) at 1. rewrite countb_app, (countb_zero _ (drop N (g_ppu s))).
    + rewrite (countb_ext _ (fun _ => true)); [|intros t Ht; unfold holds_hw; by rewrite Hst].
      rewrite <- length_take. generalize (take N (g_ppu s)). induction l as [|t l IH]; cbn in *; lia.
    + intros t Ht. unfold holds_hw. by rewrite Hfr, nobody_acked.
  - intros t [Ht|Ht]%Hcase; [|by rewrite bool_decide_true, Hfr]. rewrite Hst by done. symmetry. apply bool_decide_eq_false. intros Hd.
    apply Hfr in Hd. by rewrite Hst in Hd.
  - intros t u [Ht|Ht]%Hcase [Hu|Hu]%Hcase Hs1 Hs2; try (by rewrite Hst in Hs2); try (by rewrite Hfr in Hs1). by eapply sorted_split; [apply Hi|..].
Qed.

(** C34: of the assertions of the scheduler only two can fail: the check of
    the range of a new priority in [set_priority] (from -512 to 3199, and then
    it does fail), and the check in a timed sleep of a thread that has no
    signal left but has not consumed its last notification (then it fails
    too).  Every other operation that keeps to [allowed] (where a priority may be
    any [s32]) completes; in
    particular the counter of threads that have to stop never goes below
    zero, and no thread whose time is over has been notified already. *)
Theorem scheduler_fails_only x ops s o : (forall t, state (x t) cpu_flag.suspend = true /\ ack_suspend (x t) = false) ->
  run cls N all_timers ops (initial x) = Some s -> allowed cls o s = true ->
  step cls N all_timers o s = None <-> fails o s = true.
Proof.
  intros Hx Hr Ha. pose proof (reached_inv x ops s Hx Hr) as Hi. pose proof (step_inv o s Hi Ha) as H. split.
  - by destruct (step cls N all_timers o s).
  - destruct o as [t timeout now tsc l| | | |current now tsc t p| | | | | | | | | |]; try done; cbn [fails step]; intros Hf; cbn in Ha.
    2:{ rewrite andb_true_iff, Z.leb_le, Z.ltb_lt in Ha. pose proof (set_priority_range p Ha) as Hp. unfold set_priority.
      destruct (wrap 32 (p + 512) <? 3712); [lia|done]. }
    unfold sleep. rewrite andb_true_iff, bool_decide_eq_true in Ha. destruct Ha as [Hc _].
    pose proof (sleep_unlocked_inv t timeout now s (proj1 Hi) Hc) as Hs. destruct (sleep_unlocked cls t timeout now s) as [[s1 b]|]; [|done].
    destruct Hs as [Hs _]. congruence.
Qed.

(** ** Stopping *)

(** A thread of the queue that stops changes nothing else: it is no longer
    waited for. *)
Lemma cpu_sleep_stops rtm now tsc t s : inv_settled s -> t ∈ g_ppu s ->
  exists s', step cls N all_timers (CpuSleep rtm now tsc t) s = Some s' /\ inv_settled s' /\ g_ppu s' = g_ppu s /\
    g_scheduler_ready s' = g_scheduler_ready s /\ g_to_sleep s' = g_to_sleep s /\
    (forall u, acked s' u = (acked s u && negb (bool_decide (u = t)))) /\ (forall u, prio_of s' u = prio_of s u).
Proof.
  intros [Hi Hst] Ht. cbn [step]. unfold cpu_sleep. set (s1 := on_thread t _ s). assert (alike s s1) as Ha1.
  { apply on_thread_alike; try done; cbn [state with_state with_raddr]; destruct rtm; flags_simpl; done. }
  pose proof (alike_inv _ _ Ha1 Hi) as H1. destruct (i_ppu _ (proj1 Hi) t Ht) as [Hc _].
  set (s2 := if cancel_sleep (threads s1 t) =? 1 then on_thread t (with_cancel 2) s1 else s1).
  assert (alike s1 s2 /\ g_scheduler_ready s2 = g_scheduler_ready s) as [Ha2 Er2].
  { unfold s2. destruct (_ =? 1); [|split; [apply alike_refl|done]]. split; [apply cancel_alike|done]. }
  pose proof (alike_inv _ _ Ha2 H1) as H2. pose proof (alike_trans _ _ _ Ha1 Ha2) as Ha12.
  unfold awake, awake_unlocked. change (enqueue_cmd =? yield_cmd) with false. rewrite Z.eqb_refl. cbv iota. unfold awake_rest.
  change (enqueue_cmd =? yield_cmd) with false. cbn [emplace_all]. rewrite (emplace_in s1 t (proj1 H1) Ht). fold s2. cbn [orb].
  rewrite suspend_from_idle by (rewrite Nat.sub_0_r; apply H2). destruct (acknowledge_inv (Some t) s2 H2) as (s3 & E3 & H3 & Eq3 & Hack).
  rewrite E3. cbn [mbind option_bind]. unfold delay_caller. rewrite andb_false_r. cbn [andb mbind option_bind].
  destruct (schedule_all_inv (Some t) 0 now tsc s3 H3) as (s4 & -> & H4 & Eq4 & Ep4 & Ets4 & Er4 & _ & Hf4). cbn [mbind option_bind fmap option_fmap option_map fst].
  exists s4. split; [done|]. split; [done|].
  assert (forall u, prio_of s3 u = prio_of s2 u /\ (u <> t -> acked s3 u = acked s2 u) /\ g_scheduler_ready s3 = g_scheduler_ready s2 /\ g_to_sleep s3 = g_to_sleep s2) as Hf3.
  { intros u. clear -E3. unfold acknowledge in E3. destruct (_ && _); [|injection E3 as <-; done]. destruct (_ =? 0); [done|]. injection E3 as <-.
    unfold prio_of, acked. cbn [threads with_pending]. rewrite threads_on. by case_decide; subst. }
  split_and!.
  - rewrite Eq4, Eq3. apply (a_ppu _ _ Ha12).
  - rewrite Er4. destruct (Hf3 t) as (_ & _ & -> & _). done.
  - rewrite Ets4. destruct (Hf3 t) as (_ & _ & _ & ->). apply (a_to_sleep _ _ Ha12).
  - intros u. destruct (Hf4 u) as (_ & -> & _). case_bool_decide as Hu; [subst|].
    + rewrite Hack; [by rewrite andb_false_r|done|]. by apply bool_decide_eq_true.
    + destruct (Hf3 u) as (_ & Hu3 & _). rewrite (Hu3 Hu). by rewrite andb_true_r, (a_acked _ _ Ha12).
  - intros u. rewrite (proj1 (Hf4 u)), (proj1 (Hf3 u)). apply (a_prio _ _ Ha12).
Qed.

Lemma stops_run rtm now tsc l s : inv_settled s -> NoDup l -> (forall t, acked s t = true <-> t ∈ l) ->
  exists s', run cls N all_timers (map (CpuSleep rtm now tsc) l) s = Some s' /\ inv_settled s' /\ g_ppu s' = g_ppu s /\
    g_scheduler_ready s' = g_scheduler_ready s /\ g_pending s' = 0 /\ (forall u, prio_of s' u = prio_of s u).
Proof.
  revert s. induction l as [|t l IH]; intros s Hi Hnd Hl.
  - exists s. split_and!; try done. rewrite (i_pending _ (proj1 (proj1 Hi))). apply countb_zero. intros u _.
    destruct (acked s u) eqn:E; [|done]. apply Hl in E. by apply not_elem_of_nil in E.
  - apply NoDup_cons in Hnd as [Hn Hnd]. destruct (i_ack _ (proj1 (proj1 Hi)) t) as [Ht _]; [apply Hl; left|].
    destruct (cpu_sleep_stops rtm now tsc t s Hi Ht) as (s1 & E & H1 & A1 & A2 & A3 & A4 & A5).
    destruct (IH s1 H1 Hnd) as (s2 & E2 & H2 & B1 & B2 & B3 & B4).
    { intros u. rewrite A4, andb_true_iff, Hl, elem_of_cons, negb_true_iff, bool_decide_eq_false. split; [tauto|]. intros Hu. split; [by right|]. by intros ->. }
    exists s2. split_and!; try done; [|congruence|congruence|intros u; by rewrite B4].
    cbn [map run]. assert (allowed cls (CpuSleep rtm now tsc t) s = true) as ->.
    { cbn. by rewrite bool_decide_true, orb_true_r. }
    by rewrite E.
Qed.

(** C9: a context switch completes: once every thread that was told to stop
    has stopped, in whatever order, the threads at the front of the queue run,
    and the queue itself has not changed. *)
Theorem switch_completes x ops s rtm now tsc l : (forall t, state (x t) cpu_flag.suspend = true /\ ack_suspend (x t) = false) ->
  run cls N all_timers ops (initial x) = Some s -> g_scheduler_ready s = true -> NoDup l -> (forall t, acked s t = true <-> t ∈ l) ->
  exists s', run cls N all_timers (map (CpuSleep rtm now tsc) l) s = Some s' /\ g_ppu s' = g_ppu s /\ g_pending s' = 0 /\
    forall t, t ∈ take N (g_ppu s) -> suspended s' t = false.
Proof.
  intros Hx Hr Hrd Hnd Hl. pose proof (reached_inv x ops s Hx Hr) as Hi.
  destruct (stops_run rtm now tsc l s Hi Hnd Hl) as (s' & E & H' & A1 & A2 & A3 & _). exists s'. split_and!; try done.
  rewrite <- A1. apply H'; [done|congruence].
Qed.

(** A thread that is awakened gets its place behind all threads that are
    at least as urgent and before all others, and its timeout is off; one that
    is in the queue already stays where it is.  If nobody has to stop first and
    its place is among the first, it runs at once. *)
Theorem awake_places x ops s current c now tsc t : (forall t, state (x t) cpu_flag.suspend = true /\ ack_suspend (x t) = false) ->
  run cls N all_timers ops (initial x) = Some s -> may_awake cls s t = true ->
  exists s' b, awake cls N all_timers current c now tsc (Some t) enqueue_cmd [] s = Some (s', b) /\ b = negb (bool_decide (t ∈ g_ppu s)) /\
    (g_pending s' = 0 -> g_scheduler_ready s' = true -> t ∈ take N (g_ppu s') -> suspended s' t = false) /\
    if b then (t ∉ map snd (g_waiting s')) /\ exists l r, g_ppu s = l ++ r /\ g_ppu s' = l ++ t :: r /\
      (forall u, u ∈ l -> prio_of s u <= prio_of s t) /\ (forall u, u ∈ r -> prio_of s t < prio_of s u)
    else g_ppu s' = g_ppu s.
Proof.
  intros Hx Hr [Hc Hts]%may_awake_spec. destruct (reached_inv x ops s Hx Hr) as [Hi _].
  assert (exists s1 b lo, emplace_all [t] s false smax = (s1, b, lo) /\ inv0 s1 /\ g_to_sleep s1 = g_to_sleep s /\ b = negb (bool_decide (t ∈ g_ppu s)) /\
    if b then g_waiting s1 = unregister_timeout t (g_waiting s) /\ exists l r, g_ppu s = l ++ r /\ g_ppu s1 = l ++ t :: r /\
      (forall u, u ∈ l -> prio_of s u <= prio_of s t) /\ (forall u, u ∈ r -> prio_of s t < prio_of s u)
    else g_ppu s1 = g_ppu s) as (s1 & b & lo & E1 & H1 & Ets1 & -> & Hb).
  { destruct (emplace_inv0 s t (proj1 Hi) Hc) as (H1 & Ets & _). cbn [emplace_all]. destruct (decide (t ∈ g_ppu s)) as [Hin|Hn].
    - rewrite (emplace_in s t (proj1 Hi) Hin) in *. eexists _, _, _. split; [done|]. cbn [fst] in H1, Ets. split_and!; try done.
      + by rewrite bool_decide_true.
      + cbn [orb]. by destruct (_ =? 1).
    - destruct (emplace_new s t (proj1 Hi) Hn) as (l & r & Hq & E & Hl & Hg). rewrite E in *. eexists _, _, _. split; [done|]. cbn [fst] in H1, Ets. split_and!; try done.
      + by rewrite bool_decide_false.
      + cbn [orb]. split; [done|]. by exists l, r. }
  unfold awake, awake_unlocked. cbn -[awake_rest schedule_all enqueue_cmd].
  destruct (awake_rest_inv current c (Some t) enqueue_cmd [] s s1 _ lo Ets1 E1 H1) as (s2 & E2 & H2 & Ets2 & Eq2 & _).
  change (enqueue_cmd =? yield_cmd) with false. rewrite Z.eqb_refl, E2. cbn [mbind option_bind].
  destruct (schedule_all_inv current 0 now tsc s2 H2) as (s3 & E3 & H3 & Eq3 & _ & _ & _ & Ew3 & _). rewrite E3. cbn [mbind option_bind].
  exists s3, (negb (bool_decide (t ∈ g_ppu s))). split; [done|]. split; [done|]. split; [intros Hp Hrd Ht; by apply H3|]. rewrite Eq3, Eq2. destruct (negb _); [|done]. destruct Hb as [Hw Hb]. split; [|done].
  rewrite Ew3. intros (p & -> & Hp)%list_elem_of_fmap.
  assert (p ∈ g_waiting s2) as Hp2 by (apply list_elem_of_In, filter_In in Hp as [Hp _]; by apply list_elem_of_In).
  destruct (i_waiting _ (proj1 H2) p.2) as [[] _]; [apply list_elem_of_fmap; by exists p|]. rewrite Eq2.
  destruct Hb as (l & r & _ & -> & _). set_solver.
Qed.

(** What the yield command does, by what [rotate] finds. *)
Lemma awake_yield current now t s : inv s -> exists s' b,
  awake_unlocked cls N all_timers current false now (Some t) yield_cmd [] s = Some (s', b) /\ inv s' /\
  match rotate t s with None => g_ppu s' = g_ppu s /\ b = false | Some (q, i) => g_ppu s' = q /\ b = (N <=? i)%nat end.
Proof.
  intros Hi. destruct (awake_unlocked_inv current false now (Some t) yield_cmd [] s Hi) as (s' & b & E & H' & _); try done; [by intros u ?%not_elem_of_nil|].
  exists s', b. split; [done|]. split; [done|]. unfold awake_unlocked in E. rewrite Z.eqb_refl in E.
  destruct (rotate t s) as [[q i]|] eqn:Er; [|by injection E as <- <-]. destruct (Nat.ltb_spec i N) as [HiN|HiN].
  - injection E as <- <-. split; [done|]. symmetry. by apply Nat.leb_gt.
  - rewrite (proj2 (Nat.leb_le N i)) by done.
    set (s1 := on_thread t (fun x => with_times now (end_time x) x) (with_ppu q s)) in *.
    assert (inv0 s1) as H1 by (eapply alike_inv0; [|by eapply rotate_inv0; [apply Hi|]]; by apply on_thread_alike).
    destruct (awake_rest_inv current false (Some t) yield_cmd [] s1 s1 true smax) as (s2 & E2 & _ & _ & Eq2 & _); [done..|].
    rewrite E2 in E. injection E as <- <-. done.
Qed.

(** A thread that yields goes behind the other threads of its priority,
    and the call tells whether this took the processor from it; alone in its
    priority it stays. *)
Theorem yield_rotates x ops s now tsc t : (forall t, state (x t) cpu_flag.suspend = true /\ ack_suspend (x t) = false) ->
  run cls N all_timers ops (initial x) = Some s -> t ∈ g_ppu s ->
  exists pre block rest s' b, g_ppu s = pre ++ t :: block ++ rest /\ (forall u, u ∈ block -> prio_of s u = prio_of s t) /\
    match rest with [] => True | u :: _ => prio_of s u <> prio_of s t end /\
    yield cls N all_timers (Some t) now tsc t [] s = Some (s', b) /\ g_ppu s' = pre ++ block ++ t :: rest /\
    b = (match block with [] => false | _ => true end && (N <=? length pre + length block)%nat) /\ (b = true -> suspended s' t = true).
Proof.
  intros Hx Hr Hin. destruct (reached_inv x ops s Hx Hr) as [Hi _]. destruct (i_ppu _ (proj1 Hi) t Hin) as [Hc _].
  unfold yield. rewrite Hc. set (s1 := on_thread t (with_raddr 0) s). assert (alike s s1) as Ha by (by apply on_thread_alike).
  pose proof (alike_inv _ _ Ha Hi) as H1. pose proof Hin as (pre & r & Hq)%list_elem_of_split.
  assert (split_at t (g_ppu s1) = Some (pre, r)) as Es by (apply split_at_in; [apply (i_nodup _ (proj1 H1))|done..]).
  pose proof (same_prio_spec (prio_of s1) (prio_of s1 t) r) as Hsp. destruct (same_prio (prio_of s1) (prio_of s1 t) r) as [block rest] eqn:Eb.
  destruct Hsp as (-> & Hb & Hr0).
  assert (forall u, prio_of s u = prio_of s1 u) as Hpr by (intros u; by rewrite (a_prio _ _ Ha)).
  assert (rotate t s1 = match block with [] => None | _ => Some (pre ++ block ++ t :: rest, (length pre + length block)%nat) end) as Ero.
  { unfold rotate. rewrite Es. cbn [mbind option_bind]. rewrite Eb. by destruct block. }
  exists pre, block, rest. rewrite Hpr.
  assert ((forall u, u ∈ block -> prio_of s u = prio_of s1 t) /\ match rest with [] => True | u :: _ => prio_of s u <> prio_of s1 t end) as [Hb' Hr'].
  { split; [intros u Hu; rewrite Hpr; by apply Hb|]. destruct rest; [done|]. by rewrite Hpr. }
  unfold next_ppu. rewrite Es. cbn [mbind option_bind].
  destruct (awake_yield (Some t) now t s1 H1) as (s2 & b & E2 & H2 & Hb2). rewrite Ero in Hb2.
  destruct (schedule_all_inv (Some t) 0 now tsc s2 H2) as (s3 & E3 & [[_ Hfr3] _] & Eq3 & _).
  assert (awake cls N all_timers (Some t) false now tsc (Some t) yield_cmd [] s1 = Some (s3, b)) as Ea.
  { unfold awake. rewrite E2. cbn [mbind option_bind]. by rewrite E3. }
  destruct block as [|b0 block]; cbn [app] in *.
  - destruct Hb2 as [Hq2 ->]. destruct (head rest).
    + exists s3, false. split_and!; try done. by rewrite Eq3, Hq2.
    + by exists s1, false.
  - destruct Hb2 as [Hq2 ->]. exists s3, (N <=? length pre + length (b0 :: block))%nat. split_and!; try done; [by rewrite Eq3, Hq2|].
    intros Hle%Nat.leb_le. apply Hfr3. rewrite Eq3, Hq2. change (t ∈ drop N (pre ++ (b0 :: block) ++ t :: rest)).
    rewrite (app_assoc pre), drop_app_le by (by rewrite length_app). set_solver.
Qed.

End config.

(** ** Examples *)

(** Two hardware threads; thread [t] has priority [10 * (t / 2)]. *)
Definition ex_cls (_ : Z) : thread_class.thread_class := thread_class.ppu.
Definition ex_threads (t : Z) : thread := Thread (10 * (t / 2)) 0 (add cpu_flag.suspend no_flags) false 0 1 0 0 0 joinable.
Definition ex_ops : list op := Ready 1 0 [] :: map (fun t => Awake None false 1 0 t) [2; 4; 5; 3; 0].

Lemma ex_start t : state (ex_threads t) cpu_flag.suspend = true /\ ack_suspend (ex_threads t) = false.
Proof. done. Qed.

Definition ex_ops2 : list op := ex_ops ++ map (CpuSleep true 2 0) [4].

(** Thread 0 joins thread 2, which exits; threads 1 and 7 come from a savestate,
    and 1 exits before it is awakened. *)
Definition ex_ops_end : list op := ex_ops2 ++ map (fun t => CheckState t true None check_locals_init) [0; 2] ++
  [Join 3 0 0 2; Exit 4 0 2; Load 1 (ex_threads 1); Load 7 (Thread 5 0 no_flags false 0 1 0 0 0 detached); Exit 5 0 1].

Lemma at_most_n_run_witness : exists s, run ex_cls 2 false ex_ops_end (initial ex_threads) = Some s /\ g_ppu s = [0; 3; 4; 5] /\
  map (gone s) [0; 1; 2; 7] = [false; true; true; false] /\ holds_hw s 2 = true /\ holds_hw s 0 = true /\ countb (holds_hw s) (g_ppu s) <= 2 /\
  holds_hw s 7 = false.
Proof.
  destruct (run_view (run ex_cls 2 false ex_ops_end (initial ex_threads))
    (fun s => (g_ppu s, map (gone s) [0; 1; 2; 7], holds_hw s 2, holds_hw s 0)) ([0; 3; 4; 5], [false; true; true; false], true, true)) as (s & E & V);
    [vm_compute; reflexivity|]. injection V as Hq G0 G1 G2 G7 H2 H0. exists s. split; [exact E|].
  destruct (at_most_n_run ex_cls 2 false eq_refl ex_threads ex_ops_end s ex_start E) as (_ & Hc & Hin & _).
  clear E. split; [exact Hq|]. split; [cbn [map]; by rewrite G0, G1, G2, G7|]. split; [exact H2|]. split; [exact H0|]. split; [exact Hc|].
  destruct (holds_hw s 7) eqn:E7; [|done]. specialize (Hin 7 eq_refl G7 E7). rewrite Hq in Hin. cbn in Hin.
  repeat (apply elem_of_cons in Hin as [?|Hin]; [lia|]). by apply not_elem_of_nil in Hin.
Defined.

(** Why a thread that exits must have no signal left: [sleep] would leave it in
    the queue, and without its suspension three threads run on two. *)
Lemma exit_with_signal : exists s s', run ex_cls 2 false ex_ops (initial ex_threads) = Some s /\ has_flag s 4 cpu_flag.signal = true /\
  sys_ppu_thread_exit ex_cls 2 false 2 0 4 s = Some s' /\ g_ppu s' = [0; 2; 3; 4; 5] /\ map (suspended s') [0; 2; 4] = [false; false; false].
Proof.
  destruct (run_view (s ← run ex_cls 2 false ex_ops (initial ex_threads); s' ← sys_ppu_thread_exit ex_cls 2 false 2 0 4 s; Some (s, s'))
    (fun p => (has_flag p.1 4 cpu_flag.signal, g_ppu p.2, map (suspended p.2) [0; 2; 4])) (true, [0; 2; 3; 4; 5], [false; false; false])) as ([s s'] & E & V);
    [vm_compute; reflexivity|]. injection V as H1 H2 V0 V2 V4. exists s, s'. cbn [fst snd] in *.
  destruct (run ex_cls 2 false ex_ops (initial ex_threads)) as [s0|]; [|done]. cbn [mbind option_bind] in E.
  destruct (sys_ppu_thread_exit ex_cls 2 false 2 0 4 s0) as [s0'|] eqn:E'; [|done]. injection E as <- <-.
  split_and!; try done. cbn. by rewrite V0, V2, V4.
Qed.

Lemma most_urgent_run_witness : exists s, run ex_cls 2 false ex_ops2 (initial ex_threads) = Some s /\ g_ppu s = [0; 2; 3; 4; 5] /\
  countb (holds_hw s) (g_ppu s) = 2.
Proof.
  destruct (run_view (run ex_cls 2 false ex_ops2 (initial ex_threads)) (fun s => (g_ppu s, g_pending s, g_scheduler_ready s)) ([0; 2; 3; 4; 5], 0, true))
    as (s & E & V); [vm_compute; reflexivity|]. injection V as Hq Hp Hr. exists s. split; [done|]. split; [done|].
  destruct (most_urgent_run ex_cls 2 false eq_refl ex_threads ex_ops2 s ex_start E Hp Hr) as [H _]. rewrite H, Hq. reflexivity.
Defined.

(** Thread 2 sees its signal and sleeps until 103. *)
Definition ex_ops3 : list op := ex_ops2 ++ [CheckState 2 true None check_locals_init; Sleep 2 100 3 0 []].

Lemma scheduler_fails_only_witness : exists s, run ex_cls 2 false ex_ops3 (initial ex_threads) = Some s /\ g_waiting s = [(103, 2)] /\
  (exists s', step ex_cls 2 false (Awake None false 200 0 2) s = Some s') /\ step ex_cls 2 false (SetPriority None 200 0 2 3200) s = None.
Proof.
  destruct (run_view (run ex_cls 2 false ex_ops3 (initial ex_threads)) (fun s => (g_waiting s, allowed ex_cls (Awake None false 200 0 2) s)) ([(103, 2)], true))
    as (s & E & V); [vm_compute; reflexivity|]. injection V as Hw Ha. exists s. split; [done|]. split; [done|]. split.
  - pose proof (scheduler_fails_only ex_cls 2 false eq_refl ex_threads ex_ops3 s (Awake None false 200 0 2) ex_start E Ha) as H.
    destruct (step ex_cls 2 false (Awake None false 200 0 2) s) as [s'|]; [by exists s'|]. destruct H as [H _]. by specialize (H eq_refl).
  - by apply (scheduler_fails_only ex_cls 2 false eq_refl ex_threads ex_ops3 s (SetPriority None 200 0 2 3200) ex_start E).
Defined.

Lemma switch_completes_witness : exists s s', run ex_cls 2 false ex_ops (initial ex_threads) = Some s /\
  run ex_cls 2 false (map (CpuSleep true 2 0) [4]) s = Some s' /\ suspended s 0 = true /\ suspended s' 0 = false.
Proof.
  destruct (run_view (run ex_cls 2 false ex_ops (initial ex_threads))
    (fun s => (g_scheduler_ready s, suspended s 0, g_ppu s, map (acked s) [0; 2; 3; 4; 5])) (true, true, [0; 2; 3; 4; 5], [false; false; false; true; false]))
    as (s & E & V); [vm_compute; reflexivity|]. injection V as Hr Hs Hq A0 A2 A3 A4 A5.
  pose proof (reached_inv ex_cls 2 false eq_refl ex_threads ex_ops s ex_start E) as [[Hi _] _].
  destruct (switch_completes ex_cls 2 false eq_refl ex_threads ex_ops s true 2 0 [4] ex_start E Hr) as (s' & E' & _ & _ & H).
  - repeat constructor. apply not_elem_of_nil.
  - intros t. rewrite list_elem_of_singleton. split; [|by intros ->].
    intros Ht. destruct (i_ack _ _ _ Hi t Ht) as [Hin _]. rewrite Hq in Hin. clear -Hin Ht A0 A2 A3 A5.
    repeat (apply elem_of_cons in Hin as [->|Hin]; [by rewrite ?A0, ?A2, ?A3, ?A5 in Ht|]). by apply not_elem_of_nil in Hin.
  - exists s, s'. split; [exact E|]. split; [exact E'|]. split; [exact Hs|]. apply H. rewrite Hq. left.
Defined.

Lemma awake_places_witness : exists s s' b, run ex_cls 2 false ex_ops3 (initial ex_threads) = Some s /\
  awake ex_cls 2 false None false 9 0 (Some 2) enqueue_cmd [] s = Some (s', b) /\ g_ppu s = [0; 3; 4; 5] /\ 2 ∉ map snd (g_waiting s').
Proof.
  destruct (run_view (run ex_cls 2 false ex_ops3 (initial ex_threads)) (fun s => (g_ppu s, may_awake ex_cls s 2)) ([0; 3; 4; 5], true))
    as (s & E & V); [vm_compute; reflexivity|]. injection V as Hq Ha.
  destruct (awake_places ex_cls 2 false eq_refl ex_threads ex_ops3 s None false 9 0 2 ex_start E Ha) as (s' & b & E' & Hb & H).
  rewrite Hq in Hb. cbv in Hb. subst b. destruct H as [_ H]. exists s, s', true. split; [exact E|]. split; [exact E'|]. split; [exact Hq|]. apply H.
Defined.

Lemma yield_rotates_witness : exists s s' b, run ex_cls 2 false ex_ops2 (initial ex_threads) = Some s /\
  yield ex_cls 2 false (Some 2) 9 0 2 [] s = Some (s', b) /\ g_ppu s = [0; 2; 3; 4; 5] /\ g_ppu s' = [0; 3; 2; 4; 5].
Proof.
  destruct (run_view (run ex_cls 2 false ex_ops2 (initial ex_threads)) (fun s => (g_ppu s, map (prio_of s) [2; 3; 4])) ([0; 2; 3; 4; 5], [10; 10; 20]))
    as (s & E & V); [vm_compute; reflexivity|]. injection V as Hq P2 P3 P4.
  destruct (yield_rotates ex_cls 2 false eq_refl ex_threads ex_ops2 s 9 0 2 ex_start E) as (pre & block & rest & s' & b & Hs & Hb & Hr & E' & Hq' & _).
  { rewrite Hq. right. left. }
  exists s, s', b. split; [exact E|]. split; [exact E'|]. split; [exact Hq|].
  clear E E'. rewrite Hq in Hs.
  destruct pre as [|p0 [|p1 [|p2 [|p3 [|p4 pre]]]]]; cbn in Hs; try congruence.
  - injection Hs as <- Hs. rewrite Hq'. destruct block as [|b0 [|b1 block]]; cbn in Hs.
    + subst rest. by rewrite P3, P2 in Hr.
    + by injection Hs as <- <-.
    + injection Hs as <- <- _. specialize (Hb 4 ltac:(right; left)). by rewrite P4, P2 in Hb.
  - injection Hs as _ _ _ _ _ Hs. by destruct pre.
Defined.
