(* ===== verification/Lv2Mutex.v ===== *)
(** * LV2 kernel: mutexes and condition variables

    [kernel/cellos/include/cellos/sys_mutex.h], [src/sys_mutex.cpp] and
    [src/sys_cond.cpp] as threads over one [lv2_mutex] and its conditions
    (Threads).  [control] (owner and waiting threads) changes by atomic
    operations: a fast path is a load in one step and a compare and swap in
    another.  A section under [mutex.mutex] changes [control] once and is one
    step, except the loop of [sys_cond_signal_all], whose local variables are
    [bcast]: while it runs no other section can, but the fast paths and
    [try_own] of [sys_mutex_lock] can.  Between [try_own] and [sleep] of
    [sys_mutex_lock] the thread may already be handed the mutex
    ([cancel_sleep]).  Lookup and callback hold the id manager's lock.  A
    failed [ensure] is the event [AssertFailed].  The order tag is not wrapped. *)
From S2P Require Import Prelude Threads Lv2Queue.

Definition SYS_SYNC_RECURSIVE : Z := 0x10.
Definition SYS_SYNC_NOT_RECURSIVE : Z := 0x20.

(** ** The objects *)

(** [sys_cond_signal_all] inside its loop: the condition, the rest of the list
    it detached, and [result]. *)
Record broadcast := Broadcast { b_cond : Z; b_rest : list waiter; b_result : option Z }.

Record lv2_mutex := MkMutex {
  owner : Z; (* control.owner, 0: nobody *)
  sq : list waiter; (* control.sq *)
  lock_count : Z;
  conds : list Z; (* the conditions that exist *)
  cond_count : Z;
  cond_sq : Z -> list waiter; (* lv2_cond::sq *)
  bcast : option broadcast;
  order_tag : Z; (* lv2_obj::g_priority_order_tag *)
  signaled : list Z; (* threads awakened since they entered a queue *)
  again : list Z; (* threads with cpu_flag::again *)
  exists_ : bool;
  idm_readers : Z
}.

Definition set_owner (v : Z) (o : lv2_mutex) : lv2_mutex :=
  MkMutex v (sq o) (lock_count o) (conds o) (cond_count o) (cond_sq o) (bcast o) (order_tag o) (signaled o) (again o) (exists_ o) (idm_readers o).
Definition set_sq (v : list waiter) (o : lv2_mutex) : lv2_mutex :=
  MkMutex (owner o) v (lock_count o) (conds o) (cond_count o) (cond_sq o) (bcast o) (order_tag o) (signaled o) (again o) (exists_ o) (idm_readers o).
Definition set_count (v : Z) (o : lv2_mutex) : lv2_mutex :=
  MkMutex (owner o) (sq o) v (conds o) (cond_count o) (cond_sq o) (bcast o) (order_tag o) (signaled o) (again o) (exists_ o) (idm_readers o).
Definition set_conds (v : list Z) (n : Z) (o : lv2_mutex) : lv2_mutex :=
  MkMutex (owner o) (sq o) (lock_count o) v n (cond_sq o) (bcast o) (order_tag o) (signaled o) (again o) (exists_ o) (idm_readers o).
Definition set_cond_sq (c : Z) (v : list waiter) (o : lv2_mutex) : lv2_mutex :=
  MkMutex (owner o) (sq o) (lock_count o) (conds o) (cond_count o) (upd (cond_sq o) c v) (bcast o) (order_tag o) (signaled o) (again o) (exists_ o) (idm_readers o).
Definition set_bcast (v : option broadcast) (o : lv2_mutex) : lv2_mutex :=
  MkMutex (owner o) (sq o) (lock_count o) (conds o) (cond_count o) (cond_sq o) v (order_tag o) (signaled o) (again o) (exists_ o) (idm_readers o).
Definition set_tag (v : Z) (o : lv2_mutex) : lv2_mutex :=
  MkMutex (owner o) (sq o) (lock_count o) (conds o) (cond_count o) (cond_sq o) (bcast o) v (signaled o) (again o) (exists_ o) (idm_readers o).
Definition set_signaled (v : list Z) (o : lv2_mutex) : lv2_mutex :=
  MkMutex (owner o) (sq o) (lock_count o) (conds o) (cond_count o) (cond_sq o) (bcast o) (order_tag o) v (again o) (exists_ o) (idm_readers o).
Definition set_again (v : list Z) (o : lv2_mutex) : lv2_mutex :=
  MkMutex (owner o) (sq o) (lock_count o) (conds o) (cond_count o) (cond_sq o) (bcast o) (order_tag o) (signaled o) v (exists_ o) (idm_readers o).
Definition set_exists (v : bool) (o : lv2_mutex) : lv2_mutex :=
  MkMutex (owner o) (sq o) (lock_count o) (conds o) (cond_count o) (cond_sq o) (bcast o) (order_tag o) (signaled o) (again o) v (idm_readers o).
Definition add_reader (n : Z) (o : lv2_mutex) : lv2_mutex :=
  MkMutex (owner o) (sq o) (lock_count o) (conds o) (cond_count o) (cond_sq o) (bcast o) (order_tag o) (signaled o) (again o) (exists_ o) (idm_readers o + n).

(** [awake]; the flag goes when the thread sees it. *)
Definition wake (id : Z) (o : lv2_mutex) : lv2_mutex := set_signaled (signaled o ++ [id]) o.
Definition clear_signal (id : Z) (o : lv2_mutex) : lv2_mutex := set_signaled (filter (fun x => x <> id) (signaled o)) o.
Definition is_again (o : lv2_mutex) (id : Z) : bool := bool_decide (id ∈ again o).
Definition in_queue (id : Z) (q : list waiter) : bool := existsb (fun w => w_id w =? id) q.

(** [mutex.mutex] can be taken. *)
Definition free (o : lv2_mutex) : bool := match bcast o with None => true | Some _ => false end.

(** ** Threads *)

(** Which of the three signal calls. *)
Inductive signal_kind := Signal | SignalAll | SignalTo (thread_id : Z).

Inductive mutex_at :=
| Idle
| LockCas (timed : bool) (it_sq : option Z) (* a compare and swap on the control word read *)
| LockBusy (timed : bool) (* [try_lock] returned CELL_EBUSY *)
| LockSleep (timed : bool) (* queued by [try_own], [sleep] is next *)
| Waiting (timed : bool)
| TryLockCas (it_sq : option Z)
| UnlockCas
| UnlockSlow (* the section under the mutex is next *)
| CondEnter (c : Z) (timed : bool)
| CondWaiting (c count : Z) (timed : bool) (code : Z)
| SigStart (c : Z) (kind : signal_kind) (* the head of the loop *)
| SigSection (c : Z) (kind : signal_kind)
| SigEmpty (c : Z) (kind : signal_kind)
| SigAll (* in the loop over the detached list *)
| Stopped.

Record mutex_thread := MutexThread { t_id : Z; t_prio : Z; t_at : mutex_at }.

Definition at_pc (t : mutex_thread) (pc : mutex_at) : mutex_thread := MutexThread (t_id t) (t_prio t) pc.

Inductive mutex_event :=
| Locked (id : Z)
| Relocked (id : Z)
| Queued (w : waiter)
| Unlocked (id : Z)
| Released (id : Z) (next : option waiter)
| TimedOut (id : Z)
| CondWaited (id c n : Z) (w : waiter) (next : option waiter)
| Moved (c protocol : Z) (w : waiter) (dest : option waiter)
| Picked (c : Z) (w : waiter) (dest : option waiter)
| CondTimedOut (c id : Z) (dest : option waiter)
| Restored (id n code : Z)
| CondCreated (c : Z)
| CondDestroyed (c : Z)
| Destroyed
| HandedStopped (* the mutex was given to a thread that is being saved *)
| AssertFailed
| Return (code : Z).

Section Mutex.
(** Constant members of the object, and the threads that exist. *)
Variable protocol recursive : Z.
Variable thread_exists : Z -> bool.

Abbreviation step := (list mutex_event * lv2_mutex * mutex_thread)%type.

Definition done_with (e : mutex_event) (o : lv2_mutex) (t : mutex_thread) : step := ([e], add_reader (-1) o, at_pc t Idle).

(** *** [lv2_mutex] *)

(** What a load of [control] means to [try_lock]. *)
Inductive try_result := TryCas | TryRelock | TryError (code : Z).

Definition try_lock (o : lv2_mutex) (id : Z) : try_result :=
  if owner o =? 0 then TryCas
  else if owner o =? id then
    if recursive =? SYS_SYNC_RECURSIVE then
      if lock_count o =? 0xffffffff then TryError CELL_EKRESOURCE else TryRelock
    else TryError CELL_EDEADLK
  else TryError CELL_EBUSY.

Definition head_id (o : lv2_mutex) : option Z := w_id <$> head (sq o).

(** [control.compare_and_swap_test(it, store)] of [try_lock]: [it.owner] is 0. *)
Definition cas_lock (it_sq : option Z) (id : Z) (o : lv2_mutex) : option lv2_mutex :=
  if (owner o =? 0) && bool_decide (head_id o = it_sq) then Some (set_owner id o) else None.

(** [try_own] for a thread: whether it owns the mutex now, or where it waits. *)
Definition try_own (id prio : Z) (o : lv2_mutex) : option waiter * lv2_mutex :=
  if owner o =? 0 then (None, set_owner id o)
  else
    let w := Waiter id prio (order_tag o + 1) in
    (Some w, set_sq (w :: sq o) (set_tag (order_tag o + 1) o)).

(** [reown]: a thread with [cpu_flag::again] is named the owner, too, but
    stays in the queue. *)
Definition reown (o : lv2_mutex) : option waiter * lv2_mutex :=
  match schedule (is_again o) (sq o) protocol with
  | (None, _) => (None, set_owner 0 o)
  | (Some w, q) => (Some w, set_owner (w_id w) (set_sq q o))
  end.

(** *** [sys_mutex_lock] *)

Definition lock_try (timed : bool) (o : lv2_mutex) (t : mutex_thread) : step :=
  match try_lock o (t_id t) with
  | TryCas => ([], o, at_pc t (LockCas timed (head_id o)))
  | TryRelock => done_with (Relocked (t_id t)) (set_count (lock_count o + 1) o) t
  | TryError code => if code =? CELL_EBUSY then ([], o, at_pc t (LockBusy timed)) else done_with (Return code) o t
  end.

Definition lock_begin (timed : bool) (o : lv2_mutex) (t : mutex_thread) : step :=
  if exists_ o then lock_try timed (add_reader 1 o) t else ([Return CELL_ESRCH], o, t).

Definition lock_cas (timed : bool) (it_sq : option Z) (o : lv2_mutex) (t : mutex_thread) : step :=
  match cas_lock it_sq (t_id t) o with
  | Some o => done_with (Locked (t_id t)) o t
  | None => ([], o, at_pc t (LockBusy timed))
  end.

(** Another try while nobody waits. *)
Definition lock_spin (timed : bool) (o : lv2_mutex) (t : mutex_thread) : option step :=
  match sq o with [] => Some (lock_try timed o t) | _ => None end.

Definition lock_own (timed : bool) (o : lv2_mutex) (t : mutex_thread) : step :=
  match try_own (t_id t) (t_prio t) o with
  | (None, o) => done_with (Locked (t_id t)) o t
  | (Some w, o) => ([Queued w], o, at_pc t (LockSleep timed))
  end.

Definition lock_sleep (timed : bool) (o : lv2_mutex) (t : mutex_thread) : step :=
  if bool_decide (t_id t ∈ signaled o) then done_with (Return CELL_OK) (clear_signal (t_id t) o) t
  else ([], add_reader (-1) o, at_pc t (Waiting timed)).

Definition wait_signal (o : lv2_mutex) (t : mutex_thread) : option step :=
  if bool_decide (t_id t ∈ signaled o)
  then Some ([Return CELL_OK], clear_signal (t_id t) o, at_pc t Idle)
  else None.

Definition stop (o : lv2_mutex) (t : mutex_thread) : step := ([Return 0], set_again (t_id t :: again o) o, at_pc t Stopped).

Definition wait_stopped (o : lv2_mutex) (t : mutex_thread) : option step :=
  if negb (free o) then None
  else if in_queue (t_id t) (sq o) then Some (stop o t)
  else Some ([Return CELL_OK], clear_signal (t_id t) o, at_pc t Idle).

Definition wait_timeout (o : lv2_mutex) (t : mutex_thread) : option step :=
  if negb (free o) then None
  else
    let '(found, q) := unqueue (sq o) (t_id t) in
    if found then Some ([TimedOut (t_id t)], set_sq q o, at_pc t Idle)
    else Some ([Return CELL_OK], clear_signal (t_id t) o, at_pc t Idle).

(** *** [sys_mutex_trylock] *)

Definition trylock_begin (o : lv2_mutex) (t : mutex_thread) : step :=
  if exists_ o then
    match try_lock o (t_id t) with
    | TryCas => ([], add_reader 1 o, at_pc t (TryLockCas (head_id o)))
    | TryRelock => ([Relocked (t_id t)], set_count (lock_count o + 1) o, t)
    | TryError code => ([Return code], o, t)
    end
  else ([Return CELL_ESRCH], o, t).

Definition trylock_cas (it_sq : option Z) (o : lv2_mutex) (t : mutex_thread) : step :=
  match cas_lock it_sq (t_id t) o with
  | Some o => done_with (Locked (t_id t)) o t
  | None => done_with (Return CELL_EBUSY) o t
  end.

(** *** [sys_mutex_unlock] *)

(** The load of [try_unlock]. *)
Definition unlock_begin (o : lv2_mutex) (t : mutex_thread) : step :=
  if exists_ o then
    if negb (owner o =? t_id t) then ([Return CELL_EPERM], o, t)
    else if negb (lock_count o =? 0) then ([Unlocked (t_id t)], set_count (lock_count o - 1) o, t)
    else ([], add_reader 1 o, at_pc t (match sq o with [] => UnlockCas | _ => UnlockSlow end))
  else ([Return CELL_ESRCH], o, t).

Definition unlock_cas (o : lv2_mutex) (t : mutex_thread) : step :=
  if (owner o =? t_id t) && bool_decide (head_id o = None) then done_with (Released (t_id t) None) (set_owner 0 o) t
  else ([], o, at_pc t UnlockSlow).

Definition unlock_slow (o : lv2_mutex) (t : mutex_thread) : option step :=
  if negb (free o) then None
  else
    match reown o with
    | (None, o) => Some (done_with (Released (t_id t) None) o t)
    | (Some w, o) =>
        if is_again o (w_id w)
        then Some ([HandedStopped], add_reader (-1) (set_again (t_id t :: again o) o), at_pc t Stopped)
        else Some (done_with (Released (t_id t) (Some w)) (wake (w_id w) o) t)
    end.

(** *** [sys_cond_wait] *)

Definition cond_exists (o : lv2_mutex) (c : Z) : bool := bool_decide (c ∈ conds o).

Definition cond_begin (c : Z) (timed : bool) (o : lv2_mutex) (t : mutex_thread) : step :=
  if cond_exists o c then
    if negb (owner o =? t_id t) then ([Return CELL_EPERM], o, t)
    else ([], add_reader 1 o, at_pc t (CondEnter c timed))
  else ([Return CELL_ESRCH], o, t).

Definition cond_enter (c : Z) (timed : bool) (o : lv2_mutex) (t : mutex_thread) : option step :=
  if negb (free o) then None
  else
    let w := Waiter (t_id t) (t_prio t) (order_tag o + 1) in
    let o := set_cond_sq c (w :: cond_sq o c) (set_tag (order_tag o + 1) o) in
    let count := lock_count o in
    match reown (set_count 0 o) with
    | (None, o) =>
        Some ([CondWaited (t_id t) c count w None], add_reader (-1) o, at_pc t (CondWaiting c count timed CELL_OK))
    | (Some next, o) =>
        if is_again o (w_id next) then
          let '(found, q) := unqueue (cond_sq o c) (t_id t) in
          if found then Some ([HandedStopped], add_reader (-1) (set_again (t_id t :: again o) (set_cond_sq c q o)), at_pc t Stopped)
          else Some ([AssertFailed], o, t)
        else Some ([CondWaited (t_id t) c count w (Some next)], add_reader (-1) (wake (w_id next) o), at_pc t (CondWaiting c count timed CELL_OK))
    end.

(** After the loop: the ownership is verified, [lock_count] restored. *)
Definition cond_finish (count code : Z) (o : lv2_mutex) (t : mutex_thread) : step :=
  if owner o =? t_id t then ([Restored (t_id t) count code], set_count (u32 count) (clear_signal (t_id t) o), at_pc t Idle)
  else ([AssertFailed], o, t).

Definition cond_signal (count code : Z) (o : lv2_mutex) (t : mutex_thread) : option step :=
  if bool_decide (t_id t ∈ signaled o) then Some (cond_finish count code o t) else None.

Definition cond_stopped (c count code : Z) (o : lv2_mutex) (t : mutex_thread) : option step :=
  if negb (free o) then None
  else if in_queue (t_id t) (cond_sq o c) || in_queue (t_id t) (sq o) then Some (stop o t)
  else Some (cond_finish count code o t).

Definition cond_timeout (c count code : Z) (o : lv2_mutex) (t : mutex_thread) : option step :=
  if negb (free o) then None
  else
    let '(found, q) := unqueue (cond_sq o c) (t_id t) in
    if found then
      match try_own (t_id t) (t_prio t) (set_cond_sq c q o) with
      | (None, o) =>
          let '(es, o, t) := cond_finish count CELL_ETIMEDOUT o t in
          Some (CondTimedOut c (t_id t) None :: es, o, t)
      | (Some w, o) => Some ([CondTimedOut c (t_id t) (Some w)], o, at_pc t (CondWaiting c count false CELL_ETIMEDOUT))
      end
    else if owner o =? t_id t then Some (cond_finish count code o t)
    else Some ([], o, at_pc t (CondWaiting c count false code)).

(** *** [sys_cond_signal], [sys_cond_signal_all], [sys_cond_signal_to] *)

Definition signal_start (c : Z) (kind : signal_kind) (o : lv2_mutex) (t : mutex_thread) : step :=
  if negb (cond_exists o c) then ([Return CELL_ESRCH], o, at_pc t Idle)
  else if match kind with SignalTo id => negb (thread_exists id) | _ => false end then ([Return CELL_ESRCH], o, at_pc t Idle)
  else ([], add_reader 1 o, at_pc t (match cond_sq o c with [] => SigEmpty c kind | _ => SigSection c kind end)).

(** The result when nobody was found. *)
Definition nobody (kind : signal_kind) : Z := match kind with SignalTo _ => CELL_EPERM | _ => CELL_OK end.

Definition signal_empty (kind : signal_kind) (o : lv2_mutex) (t : mutex_thread) : option step :=
  if negb (free o) then None else Some (done_with (Return (nobody kind)) o t).

(** The caller is suspended: it stops and tries again. *)
Definition signal_retry (c : Z) (kind : signal_kind) (o : lv2_mutex) (t : mutex_thread) : option step :=
  if negb (free o) then None else Some ([], add_reader (-1) o, at_pc t (SigStart c kind)).

Definition stop_signal (o : lv2_mutex) (t : mutex_thread) : step :=
  ([Return 0], add_reader (-1) (set_again (t_id t :: again o) o), at_pc t Stopped).

(** A thread taken off a condition owns the mutex and wakes, or waits for it. *)
Definition requeue (e : option waiter -> mutex_event) (w : waiter) (o : lv2_mutex) (t : mutex_thread) : step :=
  match try_own (w_id w) (w_prio w) o with
  | (None, o) => done_with (e None) (wake (w_id w) o) t
  | (Some w', o) => done_with (e (Some w')) o t
  end.

Definition signal_section (c : Z) (kind : signal_kind) (o : lv2_mutex) (t : mutex_thread) : option step :=
  if negb (free o) then None
  else match kind with
  | Signal =>
      match schedule (is_again o) (cond_sq o c) protocol with
      | (None, _) => Some (done_with (Return CELL_OK) o t)
      | (Some w, q) =>
          if is_again o (w_id w) then Some (stop_signal o t)
          else Some (requeue (Moved c protocol w) w (set_cond_sq c q o) t)
      end
  | SignalAll =>
      if any_again (is_again o) (cond_sq o c) then Some (stop_signal o t)
      else Some ([], set_bcast (Some (Broadcast c (cond_sq o c) None)) (set_cond_sq c [] o), at_pc t SigAll)
  | SignalTo id =>
      match List.find (fun w => w_id w =? id) (cond_sq o c) with
      | None => Some (done_with (Return CELL_EPERM) o t)
      | Some w =>
          if is_again o (w_id w) then Some (stop_signal o t)
          else
            let '(found, q) := unqueue (cond_sq o c) (w_id w) in
            if found then Some (requeue (Picked c w) w (set_cond_sq c q o) t) else Some ([AssertFailed], o, t)
      end
  end.

(** One round of the loop of [sys_cond_signal_all]. *)
Definition signal_all_round (o : lv2_mutex) (t : mutex_thread) : option step :=
  match bcast o with
  | None => None
  | Some b =>
      match schedule (is_again o) (b_rest b) SYS_SYNC_PRIORITY with
      | (None, _) =>
          let o := set_bcast None o in
          Some (done_with (Return CELL_OK) (match b_result b with Some id => wake id o | None => o end) t)
      | (Some w, q) =>
          match try_own (w_id w) (w_prio w) o with
          | (None, o) =>
              match b_result b with
              | None => Some ([Moved (b_cond b) SYS_SYNC_PRIORITY w None], set_bcast (Some (Broadcast (b_cond b) q (Some (w_id w)))) o, t)
              | Some _ => Some ([AssertFailed], o, t)
              end
          | (Some w', o) => Some ([Moved (b_cond b) SYS_SYNC_PRIORITY w (Some w')], set_bcast (Some (Broadcast (b_cond b) q (b_result b))) o, t)
          end
      end
  end.

(** *** Creation and destruction *)

Definition cond_create (c : Z) (o : lv2_mutex) (t : mutex_thread) : option step :=
  if negb (idm_readers o =? 0) || cond_exists o c then None (* waits for the lock; ids are new *)
  else if exists_ o then Some ([CondCreated c], set_conds (c :: conds o) (cond_count o + 1) o, t)
  else Some ([Return CELL_ESRCH], o, t).

Definition sys_cond_destroy (c : Z) (o : lv2_mutex) (t : mutex_thread) : option step :=
  if negb (idm_readers o =? 0) || negb (free o) then None
  else if cond_exists o c then
    match cond_sq o c with
    | _ :: _ => Some ([Return CELL_EBUSY], o, t)
    | [] => Some ([CondDestroyed c], set_conds (filter (fun x => x <> c) (conds o)) (cond_count o - 1) o, t)
    end
  else Some ([Return CELL_ESRCH], o, t).

Definition sys_mutex_destroy (o : lv2_mutex) (t : mutex_thread) : option step :=
  if negb (idm_readers o =? 0) || negb (free o) then None
  else if exists_ o then
    if negb (owner o =? 0) then Some ([Return CELL_EBUSY], o, t)
    else if negb (cond_count o =? 0) then Some ([Return CELL_EPERM], o, t)
    else Some ([Destroyed], set_exists false o, t)
  else Some ([Return CELL_ESRCH], o, t).

(** *** One step of a thread *)

Inductive mutex_action :=
| ALock (timed : bool) | ATryLock | AUnlock | ADestroy
| ACondWait (c : Z) (timed : bool) | ASignal (c : Z) (kind : signal_kind) | ACondCreate (c : Z) | ACondDestroy (c : Z)
| AGo | ASpin | ARetry | ATimeout | AStop.

Definition mutex_tstep (a : mutex_action) (o : lv2_mutex) (t : mutex_thread) : option step :=
  match t_at t, a with
  | Idle, ALock timed => Some (lock_begin timed o t)
  | Idle, ATryLock => Some (trylock_begin o t)
  | Idle, AUnlock => Some (unlock_begin o t)
  | Idle, ADestroy => sys_mutex_destroy o t
  | Idle, ACondWait c timed => Some (cond_begin c timed o t)
  | Idle, ASignal c kind => Some ([], o, at_pc t (SigStart c kind))
  | Idle, ACondCreate c => cond_create c o t
  | Idle, ACondDestroy c => sys_cond_destroy c o t
  | LockCas timed it_sq, AGo => Some (lock_cas timed it_sq o t)
  | LockBusy timed, ASpin => lock_spin timed o t
  | LockBusy timed, AGo => Some (lock_own timed o t)
  | LockSleep timed, AGo => Some (lock_sleep timed o t)
  | Waiting _, AGo => wait_signal o t
  | Waiting _, AStop => wait_stopped o t
  | Waiting true, ATimeout => wait_timeout o t
  | TryLockCas it_sq, AGo => Some (trylock_cas it_sq o t)
  | UnlockCas, AGo => Some (unlock_cas o t)
  | UnlockSlow, AGo => unlock_slow o t
  | CondEnter c timed, AGo => cond_enter c timed o t
  | CondWaiting _ count _ code, AGo => cond_signal count code o t
  | CondWaiting c count _ code, AStop => cond_stopped c count code o t
  | CondWaiting c count true code, ATimeout => cond_timeout c count code o t
  | SigStart c kind, AGo => Some (signal_start c kind o t)
  | SigStart _ _, AStop => Some (stop o t)
  | SigSection c kind, AGo => signal_section c kind o t
  | SigSection c kind, ARetry => signal_retry c kind o t
  | SigEmpty _ kind, AGo => signal_empty kind o t
  | SigEmpty c kind, ARetry => signal_retry c kind o t
  | SigAll, AGo => signal_all_round o t
  | _, _ => None
  end.

End Mutex.

(** Threads before their first call, on a mutex just created. *)
Definition mutex_initial (ts : list (Z * Z)) : system :=
  System (MkMutex 0 [] 0 [] 0 (fun _ => []) None 0 [] [] true 0) (map (fun '(id, prio) => MutexThread id prio Idle) ts).

Definition mutex_run (protocol recursive : Z) (thread_exists : Z -> bool) (ts : list (Z * Z)) :=
  run_schedule (mutex_tstep protocol recursive thread_exists) (mutex_initial ts).

(** ** The abstract monitor *)

Record monitor := Monitor {
  holder : Z; (* 0: nobody *)
  depth : Z; (* how often the holder took it again *)
  entry : list waiter; (* threads that want the mutex *)
  waiting : Z -> list waiter; (* threads that wait for a condition *)
  known : list Z; (* conditions *)
  alive : bool
}.

(** Who holds the monitor after the holder leaves, and who still wants it. *)
Definition passed_on (protocol : Z) (q : list waiter) (next : option waiter) (h : Z) (q' : list waiter) : Prop :=
  match next with
  | None => q = [] /\ h = 0 /\ q' = []
  | Some w => takes_first protocol q w q' /\ h = w_id w
  end.

(** A thread that was taken off a condition enters: it holds the monitor if
    nobody does, or is the last to wait for it. *)
Definition enters (id prio : Z) (h : Z) (q : list waiter) (dest : option waiter) (h' : Z) (q' : list waiter) : Prop :=
  match dest with
  | None => h = 0 /\ h' = id /\ q' = q
  | Some w => h <> 0 /\ h' = h /\ q' = w :: q /\ w_id w = id /\ w_prio w = prio /\ Forall (fun x => w_order x < w_order w) q
  end.

Inductive monitor_spec (protocol recursive : Z) : monitor -> nat * mutex_event -> monitor -> Prop :=
| spec_locked t id ws cs :
    monitor_spec protocol recursive (Monitor 0 0 [] ws cs true) (t, Locked id) (Monitor id 0 [] ws cs true)
| spec_relocked t id n q ws cs : recursive = SYS_SYNC_RECURSIVE -> n < 2 ^ 32 - 1 ->
    monitor_spec protocol recursive (Monitor id n q ws cs true) (t, Relocked id) (Monitor id (n + 1) q ws cs true)
| spec_queued t w h n q ws cs : h <> 0 -> h <> w_id w -> w_id w ∉ map w_id q -> Forall (fun x => w_order x < w_order w) q ->
    monitor_spec protocol recursive (Monitor h n q ws cs true) (t, Queued w) (Monitor h n (w :: q) ws cs true)
| spec_unlocked t id n q ws cs : 0 < n ->
    monitor_spec protocol recursive (Monitor id n q ws cs true) (t, Unlocked id) (Monitor id (n - 1) q ws cs true)
| spec_released t id next q ws cs h' q' : passed_on protocol q next h' q' ->
    monitor_spec protocol recursive (Monitor id 0 q ws cs true) (t, Released id next) (Monitor h' 0 q' ws cs true)
| spec_timed_out t id h n q ws cs : id ∈ map w_id q -> h <> id ->
    monitor_spec protocol recursive (Monitor h n q ws cs true) (t, TimedOut id) (Monitor h n (without id q) ws cs true)
| spec_cond_waited t id c n w next q ws cs h' q' ws' : c ∈ cs -> w_id w = id -> Forall (fun x => w_order x < w_order w) (ws c) ->
    passed_on protocol q next h' q' -> (forall x, ws' x = upd ws c (w :: ws c) x) ->
    monitor_spec protocol recursive (Monitor id n q ws cs true) (t, CondWaited id c n w next) (Monitor h' 0 q' ws' cs true)
| spec_moved t c pr w rest dest h n q ws cs h' q' ws' : pr = protocol \/ pr = SYS_SYNC_PRIORITY ->
    takes_first pr (ws c) w rest -> (forall x, ws' x = upd ws c rest x) -> enters (w_id w) (w_prio w) h q dest h' q' ->
    monitor_spec protocol recursive (Monitor h n q ws cs true) (t, Moved c pr w dest) (Monitor h' n q' ws' cs true)
| spec_picked t c w dest h n q ws cs h' q' ws' : w ∈ ws c -> (forall x, ws' x = upd ws c (without (w_id w) (ws c)) x) ->
    enters (w_id w) (w_prio w) h q dest h' q' ->
    monitor_spec protocol recursive (Monitor h n q ws cs true) (t, Picked c w dest) (Monitor h' n q' ws' cs true)
| spec_cond_timed_out t c id prio dest h n q ws cs h' q' ws' : id ∈ map w_id (ws c) -> (forall x, ws' x = upd ws c (without id (ws c)) x) ->
    enters id prio h q dest h' q' ->
    monitor_spec protocol recursive (Monitor h n q ws cs true) (t, CondTimedOut c id dest) (Monitor h' n q' ws' cs true)
| spec_restored t id n code q ws cs : 0 <= n < 2 ^ 32 ->
    monitor_spec protocol recursive (Monitor id 0 q ws cs true) (t, Restored id n code) (Monitor id n q ws cs true)
| spec_cond_created t c h n q ws cs : c ∉ cs ->
    monitor_spec protocol recursive (Monitor h n q ws cs true) (t, CondCreated c) (Monitor h n q ws (c :: cs) true)
| spec_cond_destroyed t c h n q ws cs : c ∈ cs -> ws c = [] ->
    monitor_spec protocol recursive (Monitor h n q ws cs true) (t, CondDestroyed c) (Monitor h n q ws (filter (fun x => x <> c) cs) true)
| spec_destroyed t ws :
    monitor_spec protocol recursive (Monitor 0 0 [] ws [] true) (t, Destroyed) (Monitor 0 0 [] ws [] false)
| spec_return t a code : monitor_spec protocol recursive a (t, Return code) a.

(** What each thread keeps in [sys_cond_wait] while it waits: how often it had
    taken the mutex again ([count]), and the code it returns. *)
Definition saved_step (sv : Z -> option (Z * Z)) (e : mutex_event) : option (Z -> option (Z * Z)) :=
  match e with
  | CondWaited id _ n _ _ => match sv id with None => Some (upd sv id (Some (n, CELL_OK))) | Some _ => None end
  | CondTimedOut _ id _ => match sv id with Some (n, _) => Some (upd sv id (Some (n, CELL_ETIMEDOUT))) | None => None end
  | Restored id n code => if bool_decide (sv id = Some (n, code)) then Some (upd sv id None) else None
  | _ => Some sv
  end.

(** The monitor with what its waiting threads keep: [depth] after a wait is the
    [depth] that the thread gave up. *)
Definition mutex_spec (protocol recursive : Z) (a : monitor * (Z -> option (Z * Z))) (e : nat * mutex_event)
    (a' : monitor * (Z -> option (Z * Z))) : Prop :=
  monitor_spec protocol recursive a.1 e a'.1 /\ saved_step a.2 e.2 = Some a'.2.
