(* ===== verification/Lv2MutexProofs.v ===== *)
(** * LV2 kernel: mutexes and condition variables, correctness

    Every interleaving of calls refines the abstract monitor: one holder, the
    mutex handed from holder to waiting thread in the order of the protocol,
    no wake-up lost, and a thread that returns from [sys_cond_wait] holds the
    mutex again as often as before. *)
From S2P Require Import Prelude Threads Lv2Queue Lv2Mutex.

Definition in_callback (t : mutex_thread) : bool :=
  match t_at t with
  | LockCas _ _ | LockBusy _ | LockSleep _ | TryLockCas _ | UnlockCas | UnlockSlow | CondEnter _ _ | SigSection _ _ | SigEmpty _ _ | SigAll => true
  | _ => false
  end.

Definition in_broadcast (t : mutex_thread) : bool := match t_at t with SigAll => true | _ => false end.

(** The part of a broadcast's list that belongs to a condition. *)
Definition bcast_rest (o : lv2_mutex) (c : Z) : list waiter :=
  match bcast o with Some b => if c =? b_cond b then b_rest b else [] | None => [] end.

(** Who waits for a condition: in its queue, or in the list a broadcast has
    detached and not yet served. *)
Definition abs_sq (o : lv2_mutex) (c : Z) : list waiter := cond_sq o c ++ bcast_rest o c.

Definition is_result (o : lv2_mutex) (id : Z) : Prop := match bcast o with Some b => b_result b = Some id | None => False end.

(** ** Where a thread is *)

Definition nowhere (o : lv2_mutex) (id : Z) : Prop :=
  (id ∉ map w_id (sq o)) /\ (forall c, id ∉ map w_id (abs_sq o c)) /\ (id ∉ signaled o) /\ ~ is_result o id.

Definition in_entry (o : lv2_mutex) (id : Z) : Prop :=
  id ∈ map w_id (sq o) /\ (forall c, id ∉ map w_id (abs_sq o c)) /\ (id ∉ signaled o) /\ owner o <> id.

Definition in_cond (o : lv2_mutex) (id c : Z) : Prop :=
  (id ∉ map w_id (sq o)) /\ id ∈ map w_id (abs_sq o c) /\ (forall c', c' <> c -> id ∉ map w_id (abs_sq o c')) /\ (id ∉ signaled o) /\ owner o <> id.

(** The mutex was handed to the thread, which has not noticed yet. *)
Definition handed (o : lv2_mutex) (id : Z) : Prop :=
  (id ∉ map w_id (sq o)) /\ (forall c, id ∉ map w_id (abs_sq o c)) /\ owner o = id /\ lock_count o = 0.

Definition woken (o : lv2_mutex) (id : Z) : Prop := handed o id /\ id ∈ signaled o /\ ~ is_result o id.

(** It is the one a broadcast wakes at its end. *)
Definition to_wake (o : lv2_mutex) (id : Z) : Prop := handed o id /\ is_result o id /\ (id ∉ signaled o).

Definition thread_ok (o : lv2_mutex) (t : mutex_thread) : Prop :=
  match t_at t with
  | LockCas _ _ | LockBusy _ | TryLockCas _ => nowhere o (t_id t) /\ owner o <> t_id t
  | LockSleep _ | Waiting _ => in_entry o (t_id t) \/ woken o (t_id t)
  | UnlockCas | UnlockSlow => nowhere o (t_id t) /\ owner o = t_id t /\ lock_count o = 0
  | CondEnter c _ => nowhere o (t_id t) /\ owner o = t_id t /\ c ∈ conds o
  | CondWaiting c n _ _ => 0 <= n < 2 ^ 32 /\
      (in_cond o (t_id t) c \/ in_entry o (t_id t) \/ woken o (t_id t) \/ to_wake o (t_id t))
  | Stopped => t_id t ∈ again o
  | _ => nowhere o (t_id t)
  end.

(** ** The relation *)

Record core (o : lv2_mutex) (a : monitor) : Prop := Core {
  c_owner : owner o = holder a;
  c_depth : lock_count o = depth a;
  c_sq : sq o = entry a;
  c_wait : forall c, abs_sq o c = waiting a c;
  c_conds : conds o = known a;
  c_count : cond_count o = Z.of_nat (length (known a));
  c_nodup : NoDup (known a);
  c_free : holder a = 0 -> entry a = [] /\ depth a = 0;
  c_range : 0 <= depth a < 2 ^ 32;
  c_wf : queue_wf (order_tag o) (entry a);
  c_waits : forall c, queue_wf (order_tag o) (waiting a c);
  c_known : forall c, c ∉ known a -> waiting a c = [];
  c_alive : exists_ o = alive a;
  c_dead : alive a = false -> holder a = 0 /\ known a = [];
  c_bcast : forall b, bcast o = Some b -> cond_sq o (b_cond b) = [] /\ forall r, b_result b = Some r -> owner o = r /\ r <> 0 }.

Record pool (o : lv2_mutex) (l : list mutex_thread) : Prop := Pool {
  p_readers : idm_readers o = countb in_callback l;
  p_bcast : Z.b2z (negb (free o)) = countb in_broadcast l;
  p_ids : NoDup (map t_id l);
  p_pos : forall i t, l !! i = Some t -> t_id t <> 0;
  p_entry : forall id, id ∈ map w_id (sq o) -> id ∈ map t_id l;
  p_waits : forall c id, id ∈ map w_id (abs_sq o c) -> id ∈ map t_id l;
  p_again : forall b w, bcast o = Some b -> w ∈ b_rest b -> w_id w ∉ again o;
  p_dead : exists_ o = false -> idm_readers o = 0;
  p_ok : forall i t, l !! i = Some t -> thread_ok o t }.

Definition mutex_rel (s : @system lv2_mutex mutex_thread) (a : monitor) : Prop := core (obj s) a /\ pool (obj s) (pcs s).

(** Changes of what the abstraction does not see. *)
Lemma core_same o o' a : core o a -> owner o' = owner o -> sq o' = sq o -> lock_count o' = lock_count o -> conds o' = conds o ->
  cond_count o' = cond_count o -> cond_sq o' = cond_sq o -> bcast o' = bcast o -> order_tag o' = order_tag o -> exists_ o' = exists_ o -> core o' a.
Proof.
  intros [? ? ? Hw] E1 E2 E3 E4 E5 E6 E7 E8 E9. split; rewrite ?E1, ?E2, ?E3, ?E4, ?E5, ?E6, ?E7, ?E8, ?E9; try done.
  intros c. unfold abs_sq, bcast_rest. rewrite E6, E7. by apply Hw.
Qed.

(** The view a thread has of the object. *)
Record same_view (o o' : lv2_mutex) (id : Z) : Prop := SameView {
  v_sq : id ∈ map w_id (sq o') <-> id ∈ map w_id (sq o);
  v_abs c : id ∈ map w_id (abs_sq o' c) <-> id ∈ map w_id (abs_sq o c);
  v_signaled : id ∈ signaled o' <-> id ∈ signaled o;
  v_again : id ∈ again o -> id ∈ again o';
  v_owner : id <> 0 -> owner o' = id <-> owner o = id;
  v_count : id <> 0 -> owner o = id -> lock_count o' = lock_count o;
  v_result : is_result o' id <-> is_result o id;
  v_conds c : c ∈ conds o -> c ∈ conds o' }.

Section View.
Context (o o' : lv2_mutex) (id : Z) (Hnz : id <> 0) (HV : same_view o o' id).

Lemma nowhere_ext : nowhere o id -> nowhere o' id.
Proof. destruct HV as [H1 H2 H3 H4 H5 H6 H7 H8]. unfold nowhere. rewrite H1, H3, H7. intros (? & Hc & ? & ?). split_and!; [done| |done..]. intros c. by rewrite H2. Qed.

Lemma in_entry_ext : in_entry o id -> in_entry o' id.
Proof.
  destruct HV as [H1 H2 H3 H4 H5 H6 H7 H8]. specialize (H5 Hnz). unfold in_entry. rewrite H1, H3, H5. intros (? & Hc & ? & ?). split_and!; [done| |done..]. intros c. by rewrite H2.
Qed.

Lemma in_cond_ext c : in_cond o id c -> in_cond o' id c.
Proof.
  destruct HV as [H1 H2 H3 H4 H5 H6 H7 H8]. specialize (H5 Hnz). unfold in_cond. rewrite H1, H2, H3, H5. intros (? & ? & Hc & ? & ?). split_and!; [done..| |done|done].
  intros c'. rewrite H2. apply Hc.
Qed.

Lemma handed_ext : handed o id -> handed o' id.
Proof.
  destruct HV as [H1 H2 H3 H4 H5 H6 H7 H8]. specialize (H5 Hnz). unfold handed. rewrite H1, H5. intros (? & Hc & ? & ?). rewrite H6 by done. split_and!; [done| |done..].
  intros c. by rewrite H2.
Qed.
End View.

Lemma thread_ok_ext o o' t : t_id t <> 0 -> same_view o o' (t_id t) -> thread_ok o t -> thread_ok o' t.
Proof.
  intros Hz HV. pose proof (nowhere_ext _ _ _ HV) as Ha. pose proof (in_entry_ext _ _ _ Hz HV) as Hb.
  pose proof (fun c => in_cond_ext _ _ _ Hz HV c) as Hc. pose proof (handed_ext _ _ _ Hz HV) as Hd.
  destruct HV as [H1 H2 H3 H4 H5 H6 H7 H8]. specialize (H5 Hz). unfold thread_ok, woken, to_wake. destruct (t_at t); rewrite ?H3, ?H5, ?H7; try tauto.
  - intros (? & ? & ?). rewrite H6 by done. auto.
  - intros (? & ? & ?). rewrite H6 by done. auto.
  - intros (? & ? & ?). auto.
  - intros [? [?|[?|[?|?]]]]; auto 7; intuition auto.
Qed.

Lemma mutex_pcs_ids (l : list mutex_thread) i t pc : l !! i = Some t -> map t_id (<[i := at_pc t pc]> l) = map t_id l.
Proof. intros H. by eapply map_insert_same. Qed.

(** Thread [i] moves to [pc]. *)
Lemma pool_move o l i t pc o' : pool o l -> l !! i = Some t ->
  idm_readers o' = idm_readers o - Z.b2z (in_callback t) + Z.b2z (in_callback (at_pc t pc)) ->
  Z.b2z (negb (free o')) = Z.b2z (negb (free o)) - Z.b2z (in_broadcast t) + Z.b2z (in_broadcast (at_pc t pc)) ->
  (forall id, id ∈ map w_id (sq o') -> id ∈ map t_id l) ->
  (forall c id, id ∈ map w_id (abs_sq o' c) -> id ∈ map t_id l) ->
  (forall b w, bcast o' = Some b -> w ∈ b_rest b -> w_id w ∉ again o') ->
  (exists_ o' = false -> idm_readers o' = 0) ->
  (forall j t', l !! j = Some t' -> t_id t' <> t_id t -> thread_ok o t' -> thread_ok o' t') -> thread_ok o' (at_pc t pc) ->
  pool o' (<[i := at_pc t pc]> l).
Proof.
  intros [G1 G2 G3 G4 G5 G6 G7 G8 G9] Hi Hr Hb Hq Hw Ha Hd Ho Ht. split; try done.
  - rewrite Hr, G1. by rewrite (countb_insert in_callback _ _ _ _ Hi).
  - rewrite Hb, G2. by rewrite (countb_insert in_broadcast _ _ _ _ Hi).
  - by rewrite mutex_pcs_ids.
  - apply (threads_insert (fun _ t => t_id t <> 0)); [by intros; eapply G4|]. cbn. by eapply G4.
  - by rewrite mutex_pcs_ids.
  - by rewrite mutex_pcs_ids.
  - apply (threads_insert (fun _ t => thread_ok o' t)); [|done]. intros j t' Hj Hne. eapply Ho; [done| |by eapply G9]. by eapply map_nodup_differ.
Qed.

(** ** The object against the monitor *)

Section Core.
Context (protocol recursive : Z).

Lemma free_bcast o : free o = true -> bcast o = None.
Proof. unfold free. by destruct (bcast o). Qed.

Lemma no_result o id : free o = true -> ~ is_result o id.
Proof. unfold free, is_result. destruct (bcast o); [done|tauto]. Qed.

Lemma abs_free o c : bcast o = None -> abs_sq o c = cond_sq o c.
Proof. intros E. unfold abs_sq, bcast_rest. by rewrite E, app_nil_r. Qed.

Lemma monitor_free o a : core o a -> owner o = 0 -> alive a = true -> a = Monitor 0 0 [] (waiting a) (known a) true.
Proof.
  intros HC E Ha. rewrite (c_owner _ _ HC) in E. destruct (c_free _ _ HC E) as [E1 E2]. destruct a; cbn in *; by subst.
Qed.

Lemma monitor_eta a : alive a = true -> a = Monitor (holder a) (depth a) (entry a) (waiting a) (known a) true.
Proof. intros <-. by destruct a. Qed.

Lemma core_owned o a : core o a -> owner o <> 0 -> alive a = true.
Proof. intros HC E. rewrite (c_owner _ _ HC) in E. destruct (alive a) eqn:Ea; [done|]. by destruct (c_dead _ _ HC Ea). Qed.

Lemma core_known o a c : core o a -> c ∈ conds o -> alive a = true.
Proof.
  intros HC Hc. rewrite (c_conds _ _ HC) in Hc. destruct (alive a) eqn:Ea; [done|]. destruct (c_dead _ _ HC Ea) as [_ E]. rewrite E in Hc. by apply not_elem_of_nil in Hc.
Qed.

Lemma core_waits o a c w : core o a -> w ∈ abs_sq o c -> c ∈ conds o /\ alive a = true.
Proof.
  intros HC Hw. assert (c ∈ conds o) as Hc; [|split; [done|by eapply core_known]]. rewrite (c_conds _ _ HC). destruct (decide (c ∈ known a)) as [|Hn]; [done|].
  rewrite (c_wait _ _ HC), (c_known _ _ HC c Hn) in Hw. by apply not_elem_of_nil in Hw.
Qed.

(** A thread takes the free mutex. *)
Lemma core_locked o a id : core o a -> owner o = 0 -> alive a = true -> id <> 0 ->
  core (set_owner id o) (Monitor id 0 [] (waiting a) (known a) true).
Proof.
  intros HC E Ha Hid. pose proof (monitor_free o a HC E Ha) as Em. destruct HC as [H1 H2 H3 H4 H5 H6 H7 H8 H9 H10 H11 H12 H13 H14 H15].
  rewrite Em in *. cbn in *. split; cbn; try done. intros b Hb. destruct (H15 b Hb) as [A B]. split; [done|]. intros r Hr. destruct (B r Hr). congruence.
Qed.

(** The holder leaves. *)
Lemma core_passed o a next o' : core o a -> bcast o = None -> depth a = 0 ->
  reown protocol o = (next, o') -> match next with Some w => is_again o (w_id w) = false /\ w_id w <> 0 | None => True end -> alive a = true ->
  exists h q', passed_on protocol (entry a) next h q' /\ core o' (Monitor h 0 q' (waiting a) (known a) true) /\
    o' = set_owner h (set_sq q' o).
Proof.
  intros HC Eb Hd Hre Hn Ha. destruct HC as [H1 H2 H3 H4 H5 H6 H7 H8 H9 H10 H11 H12 H13 H14 H15]. unfold reown in Hre.
  destruct (sq o) as [|w0 q0] eqn:Eq.
  - cbn in Hre. injection Hre as <- <-. exists 0, []. split; [by rewrite <- H3|]. assert (set_owner 0 o = set_owner 0 (set_sq [] o)) as E.
    { unfold set_owner, set_sq. cbn. by rewrite Eq. }
    split; [|done]. split; cbn; try done; try congruence.
  - destruct (schedule_spec (is_again o) (order_tag o) (sq o) protocol) as (w & rest & Es & Hf); [by rewrite Eq, H3|by rewrite Eq|].
    rewrite Eq in Es. rewrite Es in Hre. injection Hre as <- <-. destruct Hn as [Hg Hz]. rewrite Hg.
    exists (w_id w), rest. split; [split; [by rewrite <- H3, <- Eq|done]|]. split; [|done].
    split; cbn; try done; try congruence.
    rewrite <- H3, <- Eq in H10. apply (takes_first_wf _ _ _ _ _ H10 Hf).
Qed.

(** A thread arrives from a condition or from [sys_mutex_lock]. *)
Lemma core_enters o a id prio dest o' : core o a -> try_own id prio o = (dest, o') -> id <> 0 -> id ∉ map w_id (sq o) -> alive a = true ->
  exists h' q', enters id prio (holder a) (entry a) dest h' q' /\ core o' (Monitor h' (depth a) q' (waiting a) (known a) true) /\
    match dest with None => owner o = 0 /\ o' = set_owner id o | Some w => owner o <> 0 /\ w_id w = id /\ o' = set_sq (w :: sq o) (set_tag (order_tag o + 1) o) end.
Proof.
  intros HC Ho Hz Hn Ha. unfold try_own in Ho. destruct (Z.eqb_spec (owner o) 0) as [E|E]; injection Ho as <- <-.
  - exists id, (entry a). split; [by rewrite <- (c_owner _ _ HC)|]. split; [|done].
    pose proof (core_locked o a id HC E Ha Hz) as H. rewrite (monitor_free o a HC E Ha) at 1 2. exact H.
  - exists (holder a), (Waiter id prio (order_tag o + 1) :: entry a). destruct HC as [H1 H2 H3 H4 H5 H6 H7 H8 H9 H10 H11 H12 H13 H14 H15].
    split; [|split; [|done]].
    + split_and!; try done; [congruence|]. eapply Forall_impl; [apply (qw_tags _ _ H10)|]. cbn. lia.
    + split; cbn; try done; try congruence.
      * apply (emplace_wf (order_tag o) (entry a) id prio H10). by rewrite <- H3.
      * intros c. eapply queue_wf_mono; [|apply H11]. lia.
Qed.

(** The queue of a condition changes while no broadcast runs. *)
Lemma core_cond_sq o a c q : core o a -> bcast o = None -> queue_wf (order_tag o) q -> (c ∉ known a -> q = []) ->
  core (set_cond_sq c q o) (Monitor (holder a) (depth a) (entry a) (upd (waiting a) c q) (known a) (alive a)).
Proof.
  intros [H1 H2 H3 H4 H5 H6 H7 H8 H9 H10 H11 H12 H13 H14 H15] Eb Hq Hk. split; cbn; try done.
  - intros x. unfold abs_sq, bcast_rest. cbn. rewrite Eb, app_nil_r. destruct (decide (x = c)) as [->|Hne]; [by rewrite !upd_eq|].
    rewrite !upd_ne by done. by rewrite <- H4, abs_free.
  - intros x. destruct (decide (x = c)) as [->|Hne]; [by rewrite upd_eq|by rewrite upd_ne].
  - intros x Hx. destruct (decide (x = c)) as [->|Hne]; [by rewrite upd_eq, Hk|rewrite upd_ne by done; by apply H12].
  - intros b. by rewrite Eb.
Qed.

Lemma core_count_reset o a : core o a -> core (set_count 0 o) (Monitor (holder a) 0 (entry a) (waiting a) (known a) (alive a)).
Proof. intros [H1 H2 H3 H4 H5 H6 H7 H8 H9 H10 H11 H12 H13 H14 H15]. split; cbn; try done. intros E. split; [by apply H8|done]. Qed.

Lemma core_count o a n : core o a -> owner o <> 0 -> 0 <= n < 2 ^ 32 ->
  core (set_count n o) (Monitor (holder a) n (entry a) (waiting a) (known a) (alive a)).
Proof. intros [H1 H2 H3 H4 H5 H6 H7 H8 H9 H10 H11 H12 H13 H14 H15] Ho Hn. split; cbn; try done. intros E. congruence. Qed.

End Core.

(** ** What a step means to a thread *)

Lemma same_view_trans o1 o2 o3 id : same_view o1 o2 id -> same_view o2 o3 id -> same_view o1 o3 id.
Proof.
  intros [A1 A2 A3 A4 A5 A6 A7 A8] [B1 B2 B3 B4 B5 B6 B7 B8]. split; try by eauto.
  - by rewrite B1.
  - intros c. by rewrite B2.
  - by rewrite B3.
  - intros H. by rewrite B5, A5.
  - intros H E. rewrite B6; [by apply A6|done|by apply A5].
  - by rewrite B7.
Qed.

(** Another thread takes the mutex or queues up. *)
Lemma view_enters o id prio dest o' x : try_own id prio o = (dest, o') -> x <> id -> same_view o o' x.
Proof.
  unfold try_own. intros E Hx. destruct (Z.eqb_spec (owner o) 0) as [E0|E0]; injection E as <- <-; split; try done; cbn.
  - rewrite E0. intuition congruence.
  - rewrite elem_of_cons. intuition congruence.
Qed.

Lemma view_cond_sq o c q x : bcast o = None -> (x ∈ map w_id q <-> x ∈ map w_id (cond_sq o c)) -> same_view o (set_cond_sq c q o) x.
Proof.
  intros Eb Hq. split; try done. intros y. rewrite !abs_free by done. cbn. destruct (decide (y = c)) as [->|Hne]; [by rewrite upd_eq|by rewrite upd_ne].
Qed.

(** A thread at the head of an enqueueing section ends in the queue or with the
    mutex. *)
Lemma entered o a id prio dest o' : core o a -> nowhere o id -> owner o <> id -> try_own id prio o = (dest, o') ->
  match dest with None => handed o' id | Some _ => in_entry o' id end.
Proof.
  intros HC (H1 & H2 & H3 & H4) Ho E. unfold try_own in E. destruct (Z.eqb_spec (owner o) 0) as [E0|E0]; injection E as <- <-.
  - split_and!; try done. cbn. rewrite (c_depth _ _ HC). apply (c_free _ _ HC). by rewrite <- (c_owner _ _ HC).
  - split_and!; try done. cbn. left.
Qed.

(** A thread leaves the queue of a condition. *)
Lemma gone o a id c : core o a -> bcast o = None -> in_cond o id c ->
  nowhere (set_cond_sq c (without id (cond_sq o c)) o) id /\ owner o <> id.
Proof.
  intros HC Eb (H1 & H2 & H3 & H4 & H5). split; [|done]. split_and!; try done; [|unfold is_result; cbn; rewrite Eb; tauto]. intros y. unfold abs_sq, bcast_rest. cbn. rewrite Eb, app_nil_r.
  destruct (decide (y = c)) as [->|Hne]; [rewrite upd_eq, without_ids; by intros []|]. rewrite upd_ne by done. rewrite <- abs_free by done. by apply H3.
Qed.

Lemma core_gone o a c id : core o a -> bcast o = None ->
  core (set_cond_sq c (without id (cond_sq o c)) o)
    (Monitor (holder a) (depth a) (entry a) (upd (waiting a) c (without id (waiting a c))) (known a) (alive a)).
Proof.
  intros HC Eb. assert (cond_sq o c = waiting a c) as E by (by rewrite <- (c_wait _ _ HC), abs_free). rewrite E.
  apply core_cond_sq; [done..|apply without_wf, (c_waits _ _ HC)|]. intros Hn. by rewrite (c_known _ _ HC c Hn).
Qed.

Lemma view_gone o c id x : bcast o = None -> x <> id -> same_view o (set_cond_sq c (without id (cond_sq o c)) o) x.
Proof. intros Eb Hx. apply view_cond_sq; [done|]. rewrite without_ids. tauto. Qed.

(** Where a queued thread is. *)
Lemma queued_entry o t : thread_ok o t -> t_id t ∈ map w_id (sq o) -> (t_id t ∉ again o) -> in_entry o (t_id t).
Proof.
  unfold thread_ok, nowhere, woken, to_wake, handed, in_cond. destruct (t_at t); intuition done.
Qed.

Lemma queued_cond o t c : thread_ok o t -> t_id t ∈ map w_id (abs_sq o c) -> (t_id t ∉ again o) -> in_cond o (t_id t) c.
Proof.
  unfold thread_ok. intros H Hin Hg. assert (nowhere o (t_id t) -> False) by (intros (_ & H' & _); by apply (H' c)).
  assert (in_entry o (t_id t) -> False) by (intros (_ & H' & _); by apply (H' c)). assert (handed o (t_id t) -> False) by (intros (_ & H' & _); by apply (H' c)).
  unfold woken, to_wake in H. destruct (t_at t) as [| | | | | | | |c0|c0 n tm code| | | | |]; try tauto.
  destruct H as [_ [H|H]]; [|tauto]. destruct (decide (c0 = c)) as [<-|Hne]; [done|].
  destruct H as (_ & _ & H & _). by destruct (H c ltac:(congruence)).
Qed.

(** A queued thread that has been given the mutex, or moved to its queue. *)
Lemma entry_handed o o' t : thread_ok o t -> t_id t ∈ map w_id (sq o) -> (t_id t ∉ again o) -> woken o' (t_id t) -> thread_ok o' t.
Proof.
  intros H Hin Hg Hw. unfold thread_ok, nowhere in *. destruct (t_at t); try tauto.
Qed.

Lemma cond_entered o o' t c : thread_ok o t -> t_id t ∈ map w_id (abs_sq o c) -> (t_id t ∉ again o) ->
  in_entry o' (t_id t) \/ woken o' (t_id t) \/ to_wake o' (t_id t) -> thread_ok o' t.
Proof.
  unfold thread_ok. intros H Hin Hg H'. assert (nowhere o (t_id t) -> False) by (intros (_ & Hx & _); by apply (Hx c)).
  assert (in_entry o (t_id t) -> False) by (intros (_ & Hx & _); by apply (Hx c)). assert (handed o (t_id t) -> False) by (intros (_ & Hx & _); by apply (Hx c)).
  assert (woken o (t_id t) -> False) by (intros []; auto). assert (to_wake o (t_id t) -> False) by (intros []; auto).
  destruct (t_at t); tauto.
Qed.

(** ** Steps *)

Definition same_core (o o' : lv2_mutex) : Prop :=
  owner o' = owner o /\ sq o' = sq o /\ lock_count o' = lock_count o /\ conds o' = conds o /\ cond_count o' = cond_count o /\
  cond_sq o' = cond_sq o /\ bcast o' = bcast o /\ order_tag o' = order_tag o /\ exists_ o' = exists_ o.

(** A run in which no mutex is given to a thread that is being saved. *)
Definition not_saved (e : mutex_event) : bool := match e with HandedStopped => false | _ => true end.

Section Refinement.
Context (protocol recursive : Z) (thread_exists : Z -> bool).
Implicit Types (s : @system lv2_mutex mutex_thread) (a : monitor) (i : nat) (t : mutex_thread).

Abbreviation simulated := (simulated (monitor_spec protocol recursive) mutex_rel).

Section Steps.
Context (s : @system lv2_mutex mutex_thread) (a : monitor) (i : nat) (t : mutex_thread).
Context (HR : mutex_rel s a) (Hi : pcs s !! i = Some t).

Let HC : core (obj s) a := proj1 HR.
Let HP : pool (obj s) (pcs s) := proj2 HR.
Let Hok : thread_ok (obj s) t := p_ok _ _ HP i t Hi.
Let Hz : t_id t <> 0 := p_pos _ _ HP i t Hi.

Lemma callback_exists : in_callback t = true -> exists_ (obj s) = true.
Proof.
  intros E. destruct (exists_ (obj s)) eqn:Ea; [done|]. pose proof (p_dead _ _ HP Ea) as H0. rewrite (p_readers _ _ HP) in H0.
  pose proof (countb_pos in_callback _ _ _ Hi E). lia.
Qed.

(** What the other threads see does not change. *)
Lemma others_same o' : (forall id, id <> t_id t -> id <> 0 -> same_view (obj s) o' id) ->
  forall j t', pcs s !! j = Some t' -> t_id t' <> t_id t -> thread_ok (obj s) t' -> thread_ok o' t'.
Proof. intros H j t' Hj Hne. pose proof (p_pos _ _ HP j t' Hj). by apply thread_ok_ext, H. Qed.

(** A step that only concerns the thread itself. *)
Lemma rel_alone o' pc : same_core (obj s) o' ->
  (forall x, x <> t_id t -> (x ∈ signaled o' <-> x ∈ signaled (obj s))) ->
  again o' = again (obj s) \/ (again o' = t_id t :: again (obj s) /\ forall c, t_id t ∉ map w_id (bcast_rest (obj s) c)) ->
  idm_readers o' = idm_readers (obj s) - Z.b2z (in_callback t) + Z.b2z (in_callback (at_pc t pc)) ->
  in_broadcast (at_pc t pc) = in_broadcast t -> (in_callback (at_pc t pc) = true -> in_callback t = true \/ exists_ (obj s) = true) ->
  thread_ok o' (at_pc t pc) -> mutex_rel (System o' (<[i := at_pc t pc]> (pcs s))) a.
Proof.
  intros (E1 & E2 & E3 & E4 & E5 & E6 & E7 & E8 & E9) Hs Hg Hr Hb Hcb Ht.
  assert (forall c, abs_sq o' c = abs_sq (obj s) c) as Habs by (intros c; unfold abs_sq, bcast_rest; by rewrite E6, E7).
  split; [by apply (core_same (obj s))|]. cbn [obj pcs]. apply (pool_move (obj s)); try done.
  - unfold free. rewrite E7, Hb. lia.
  - rewrite E2. apply HP.
  - intros c id. rewrite Habs. apply HP.
  - intros b w. rewrite E7. intros Eb Hw. pose proof (p_again _ _ HP b w Eb Hw) as Hn. destruct Hg as [->|[-> Hg]]; [done|].
    apply not_elem_of_cons. split; [|done]. intros E. apply (Hg (b_cond b)). unfold bcast_rest. rewrite Eb, Z.eqb_refl, <- E. by apply elem_of_ids.
  - rewrite E9. intros Ex. pose proof (p_dead _ _ HP Ex) as H0. rewrite Hr, H0.
    assert (in_callback t = false) as Hc by (destruct (in_callback t) eqn:Ec; [|done]; pose proof (callback_exists Ec); congruence).
    destruct (in_callback (at_pc t pc)); [|by rewrite Hc]. destruct Hcb as [|]; [done|congruence..].
  - apply others_same. intros id Hne Hid. split; rewrite ?E1, ?E2, ?E3; try done.
    + intros c. by rewrite Habs.
    + by apply Hs.
    + destruct Hg as [->|[-> _]]; [done|by right].
    + unfold is_result. by rewrite E7.
    + by rewrite E4.
Qed.

Lemma nowhere_broadcast : nowhere (obj s) (t_id t) -> forall c, t_id t ∉ map w_id (bcast_rest (obj s) c).
Proof. intros (_ & H & _ & _) c Hc. apply (H c). unfold abs_sq. rewrite map_app. set_solver. Qed.

Lemma simulated_return o' c : mutex_rel (System o' (<[i := at_pc t Idle]> (pcs s))) a -> simulated s a i ([Return c], o', at_pc t Idle).
Proof. intros H. eapply simulated_one; [constructor|exact H]. Qed.

(** A call that ends without effect, from inside or outside of a callback. *)
Lemma sim_done c : in_callback t = true -> in_broadcast t = false -> nowhere (obj s) (t_id t) ->
  simulated s a i (done_with (Return c) (obj s) t).
Proof.
  intros Hc Hb Hn. apply simulated_return, rel_alone; try done; [by left|cbn; rewrite Hc; cbn; lia].
Qed.

Lemma at_idle : t_at t = Idle -> at_pc t Idle = t.
Proof. intros Ht. destruct t; cbn in *; by subst. Qed.

Lemma sim_refused c : t_at t = Idle -> simulated s a i ([Return c], obj s, t).
Proof.
  intros Ht. assert (t = at_pc t Idle) as Et by (destruct t; cbn in *; by subst). rewrite Et at 1.
  unfold thread_ok in Hok. rewrite Ht in Hok. apply simulated_return, rel_alone; try done; [by left|..]; unfold in_callback, in_broadcast; rewrite Ht; cbn; lia || done.
Qed.

(** A step inside a callback, or into one, without effect. *)
Lemma sim_local pc r : r = Z.b2z (in_callback (at_pc t pc)) - Z.b2z (in_callback t) -> in_broadcast (at_pc t pc) = in_broadcast t ->
  (in_callback (at_pc t pc) = true -> in_callback t = true \/ exists_ (obj s) = true) -> thread_ok (obj s) (at_pc t pc) ->
  simulated s a i ([], add_reader r (obj s), at_pc t pc).
Proof.
  intros -> Hb He Ht. apply (simulated_none (monitor_spec protocol recursive)), rel_alone; try done; [by left|cbn; lia].
Qed.

Lemma add_no_reader o : add_reader 0 o = o.
Proof. unfold add_reader. rewrite Z.add_0_r. by destruct o. Qed.

Lemma sim_local0 pc : in_callback (at_pc t pc) = in_callback t -> in_broadcast (at_pc t pc) = in_broadcast t -> thread_ok (obj s) (at_pc t pc) ->
  simulated s a i ([], obj s, at_pc t pc).
Proof.
  intros Hc Hb Ht. rewrite <- (add_no_reader (obj s)). apply sim_local; [rewrite Hc; lia|done| |done]. rewrite Hc. by left.
Qed.

(** A step that concerns the thread and at most one other. *)
Lemma rel_step id o' a' pc : core o' a' ->
  (id ∈ map w_id (sq o') \/ (exists c, id ∈ map w_id (abs_sq o' c)) -> id ∈ map t_id (pcs s)) ->
  (forall x, x <> id -> x <> t_id t -> same_view (obj s) o' x) ->
  (forall t', t_id t' = id -> id <> t_id t -> thread_ok (obj s) t' -> thread_ok o' t') ->
  idm_readers o' = idm_readers (obj s) - Z.b2z (in_callback t) + Z.b2z (in_callback (at_pc t pc)) ->
  Z.b2z (negb (free o')) = Z.b2z (negb (free (obj s))) - Z.b2z (in_broadcast t) + Z.b2z (in_broadcast (at_pc t pc)) ->
  (forall b w, bcast o' = Some b -> w ∈ b_rest b -> w_id w ∉ again o') ->
  exists_ o' = exists_ (obj s) -> (in_callback (at_pc t pc) = true -> in_callback t = true) ->
  thread_ok o' (at_pc t pc) -> mutex_rel (System o' (<[i := at_pc t pc]> (pcs s))) a'.
Proof.
  intros Hc Hid Hv Hs Hr Hb Hg Ex Hcb Ht. assert (t_id t ∈ map t_id (pcs s)) as Hti.
  { apply list_elem_of_fmap. exists t. split; [done|by eapply list_elem_of_lookup_2]. }
  split; [done|]. cbn [obj pcs]. apply (pool_move (obj s)); try done.
  - intros x Hx. destruct (decide (x = id)) as [->|H1]; [auto|]. destruct (decide (x = t_id t)) as [->|H2]; [done|]. apply (p_entry _ _ HP). by apply (Hv x H1 H2).
  - intros c x Hx. destruct (decide (x = id)) as [->|H1]; [eauto|]. destruct (decide (x = t_id t)) as [->|H2]; [done|]. apply (p_waits _ _ HP c). by apply (Hv x H1 H2).
  - rewrite Ex. intros E. pose proof (p_dead _ _ HP E) as H0. rewrite Hr, H0.
    assert (in_callback t = false) as Hf by (destruct (in_callback t) eqn:Ec; [|done]; pose proof (callback_exists Ec); congruence).
    rewrite Hf in *. destruct (in_callback (at_pc t pc)); [by specialize (Hcb eq_refl)|done].
  - intros j t' Hj Hne Hok'. destruct (decide (t_id t' = id)) as [E|E]; [by apply Hs; [|congruence|]|].
    apply (thread_ok_ext (obj s)); [by eapply p_pos|by apply Hv|done].
Qed.

Lemma own_thread : t_id t ∈ map t_id (pcs s).
Proof. apply list_elem_of_fmap. exists t. split; [done|by eapply list_elem_of_lookup_2]. Qed.

Lemma ids_pos id : id ∈ map t_id (pcs s) -> id <> 0.
Proof. intros (t' & -> & [j Hj]%list_elem_of_lookup)%list_elem_of_fmap. by eapply p_pos. Qed.

(** *** Taking the mutex *)

Lemma rel_locked pc : owner (obj s) = 0 -> exists_ (obj s) = true -> in_callback t = true -> in_broadcast t = false -> nowhere (obj s) (t_id t) ->
  in_callback (at_pc t pc) = false -> in_broadcast (at_pc t pc) = false -> thread_ok (set_owner (t_id t) (obj s)) (at_pc t pc) ->
  mutex_rel (System (add_reader (-1) (set_owner (t_id t) (obj s))) (<[i := at_pc t pc]> (pcs s))) (Monitor (t_id t) 0 [] (waiting a) (known a) true).
Proof.
  intros E Ex Hc Hb Hn Hc' Hb' Ht. split.
  - eapply core_same; [apply core_locked; try done; by rewrite <- (c_alive _ _ HC)|done..].
  - cbn [obj pcs]. apply (pool_move (obj s)); try done; try apply HP.
    + cbn. rewrite Hc, Hc'. cbn. lia.
    + cbn [add_reader set_owner free bcast]. rewrite Hb, Hb'. unfold free. cbn. lia.
    + cbn. congruence.
    + apply others_same. intros id Hne Hid. split; try done; cbn; intros; intuition congruence.
Qed.

Lemma sim_locked : owner (obj s) = 0 -> in_callback t = true -> in_broadcast t = false -> nowhere (obj s) (t_id t) ->
  simulated s a i (done_with (Locked (t_id t)) (set_owner (t_id t) (obj s)) t).
Proof.
  intros E Hc Hb Hn. pose proof (callback_exists Hc) as Ex. eapply simulated_one; [|by apply (rel_locked Idle)].
  rewrite (monitor_free _ a HC E) at 1 by (by rewrite <- (c_alive _ _ HC)). constructor.
Qed.

(** The holder takes it once more. *)
Lemma rel_count n r pc : owner (obj s) = t_id t -> 0 <= n < 2 ^ 32 -> nowhere (obj s) (t_id t) ->
  r = Z.b2z (in_callback (at_pc t pc)) - Z.b2z (in_callback t) -> in_broadcast (at_pc t pc) = in_broadcast t ->
  (in_callback (at_pc t pc) = true -> in_callback t = true) -> thread_ok (set_count n (obj s)) (at_pc t pc) ->
  mutex_rel (System (add_reader r (set_count n (obj s))) (<[i := at_pc t pc]> (pcs s))) (Monitor (holder a) n (entry a) (waiting a) (known a) (alive a)).
Proof.
  intros E Hn Hnw -> Hb Hcb Ht. split.
  - eapply core_same; [apply core_count; [exact HC|congruence|exact Hn]|done..].
  - cbn [obj pcs]. apply (pool_move (obj s)); try done; try apply HP.
    + cbn. lia.
    + cbn [add_reader set_count free bcast]. rewrite Hb. unfold free. cbn. lia.
    + cbn. intros Ex. pose proof (p_dead _ _ HP Ex) as H0. rewrite H0. destruct (in_callback (at_pc t pc)); [rewrite Hcb by done; cbn; lia|].
      destruct (in_callback t) eqn:Ec; [|done]. pose proof (callback_exists Ec). congruence.
    + apply others_same. intros id Hne Hid. split; try done; cbn; intros; congruence.
Qed.

Lemma sim_relocked pc : try_lock recursive (obj s) (t_id t) = TryRelock -> nowhere (obj s) (t_id t) -> in_broadcast t = false -> pc = Idle ->
  simulated s a i ([Relocked (t_id t)], add_reader (- Z.b2z (in_callback t)) (set_count (lock_count (obj s) + 1) (obj s)), at_pc t pc).
Proof.
  unfold try_lock. destruct (Z.eqb_spec (owner (obj s)) 0); [done|]. destruct (Z.eqb_spec (owner (obj s)) (t_id t)) as [E|]; [|done].
  destruct (Z.eqb_spec recursive SYS_SYNC_RECURSIVE) as [Er|]; [|done]. destruct (Z.eqb_spec (lock_count (obj s)) 0xffffffff) as [|Hm]; [done|].
  intros _ Hn Hb ->. pose proof HC as [H1 H2 H3 H4 H5 H6 H7 H8 H9 H10 H11 H12 H13 H14 H15].
  assert (lock_count (obj s) < 2 ^ 32 - 1) by (rewrite H2 in *; lia).
  eapply simulated_one; [|apply (rel_count (lock_count (obj s) + 1))]; try done; [|lia].
  pose proof (core_owned _ _ HC ltac:(congruence)) as Hal. rewrite H2, <- H1, E. clear -H1 H2 E Er Hal H. destruct a as [h m q ws cs al]. cbn in *. subst.
  rewrite <- E. by constructor; [|lia].
Qed.

Lemma try_lock_cases : match try_lock recursive (obj s) (t_id t) with
  | TryCas => owner (obj s) = 0
  | TryRelock => owner (obj s) = t_id t
  | TryError code => if code =? CELL_EBUSY then owner (obj s) <> 0 /\ owner (obj s) <> t_id t else True
  end.
Proof.
  unfold try_lock. destruct (Z.eqb_spec (owner (obj s)) 0); [done|]. destruct (Z.eqb_spec (owner (obj s)) (t_id t)); [|done].
  destruct (_ =? _); [|done]. by destruct (_ =? _).
Qed.

(** [try_lock] from a callback ([r] is 0) or into one ([r] is 1). *)
Lemma sim_lock_try timed r : r = 1 - Z.b2z (in_callback t) -> exists_ (obj s) = true -> in_broadcast t = false -> nowhere (obj s) (t_id t) ->
  simulated s a i (lock_try recursive timed (add_reader r (obj s)) t).
Proof.
  intros -> Ex Hb Hn. unfold lock_try. set (r := 1 - _). change (try_lock recursive (add_reader r (obj s)) (t_id t)) with (try_lock recursive (obj s) (t_id t)).
  pose proof try_lock_cases as Hc. destruct (try_lock recursive (obj s) (t_id t)) as [| |code] eqn:Et.
  - apply sim_local; try done; [by right|]. split; [done|]. cbn; congruence.
  - pose proof (sim_relocked Idle Et Hn Hb eq_refl) as H. unfold done_with.
    replace (add_reader (-1) (set_count (lock_count (add_reader r (obj s)) + 1) (add_reader r (obj s))))
      with (add_reader (- Z.b2z (in_callback t)) (set_count (lock_count (obj s) + 1) (obj s))); [exact H|].
    unfold add_reader, set_count. cbn. f_equal. lia.
  - destruct (code =? CELL_EBUSY).
    + apply sim_local; try done; [by right|]. split; [done|apply Hc].
    + apply simulated_return, rel_alone; try done; [by left|]. cbn. lia.
Qed.

Lemma sim_lock_begin timed : t_at t = Idle -> simulated s a i (lock_begin recursive timed (obj s) t).
Proof.
  intros Ht. unfold lock_begin. destruct (exists_ (obj s)) eqn:Ex; [|by apply sim_refused].
  unfold thread_ok in Hok. rewrite Ht in Hok. apply sim_lock_try; try done; unfold in_callback, in_broadcast; by rewrite Ht.
Qed.

Lemma cas_lock_some it_sq id o o' : cas_lock it_sq id o = Some o' -> owner o = 0 /\ o' = set_owner id o.
Proof. unfold cas_lock. destruct (Z.eqb_spec (owner o) 0); [|done]. destruct (bool_decide _); [|done]. by intros [= <-]. Qed.

Lemma sim_lock_cas timed it_sq : t_at t = LockCas timed it_sq -> simulated s a i (lock_cas timed it_sq (obj s) t).
Proof.
  intros Ht. unfold thread_ok in Hok. rewrite Ht in Hok. destruct Hok as [Hn Ho].
  assert (in_callback t = true /\ in_broadcast t = false) as [Hc Hb] by (unfold in_callback, in_broadcast; by rewrite Ht).
  unfold lock_cas. destruct (cas_lock it_sq (t_id t) (obj s)) as [o'|] eqn:E.
  - apply cas_lock_some in E as [E ->]. by apply sim_locked.
  - by apply sim_local0.
Qed.

Lemma sim_lock_spin timed r : t_at t = LockBusy timed -> lock_spin recursive timed (obj s) t = Some r -> simulated s a i r.
Proof.
  intros Ht. unfold thread_ok in Hok. rewrite Ht in Hok. destruct Hok as [Hn Ho]. unfold lock_spin. destruct (sq (obj s)); [|done]. intros [= <-].
  assert (in_callback t = true /\ in_broadcast t = false) as [Hc Hb] by (unfold in_callback, in_broadcast; by rewrite Ht).
  pose proof (sim_lock_try timed 0) as H. rewrite add_no_reader, Hc in H. apply H; [done|by apply callback_exists|done|done].
Qed.

Lemma sim_lock_own timed : t_at t = LockBusy timed -> simulated s a i (lock_own timed (obj s) t).
Proof.
  intros Ht. unfold thread_ok in Hok. rewrite Ht in Hok. destruct Hok as [Hn Ho].
  assert (in_callback t = true /\ in_broadcast t = false) as [Hc Hb] by (unfold in_callback, in_broadcast; by rewrite Ht).
  pose proof (callback_exists Hc) as Ex. assert (alive a = true) as Hal by (by rewrite <- (c_alive _ _ HC)).
  unfold lock_own. destruct (try_own (t_id t) (t_prio t) (obj s)) as [dest o'] eqn:E.
  destruct (core_enters _ _ _ _ _ _ HC E Hz (proj1 Hn) Hal) as (h' & q' & He & Hcore & Ho'). destruct dest as [w|].
  - destruct Ho' as (Ho0 & Hw & ->). destruct He as (He1 & -> & -> & He4 & He5 & He6).
    eapply simulated_one.
    + rewrite (monitor_eta a Hal) at 1. apply spec_queued; [done|rewrite <- (c_owner _ _ HC); congruence| |done]. rewrite Hw, <- (c_sq _ _ HC). apply Hn.
    + split; [exact Hcore|]. cbn [obj pcs]. apply (pool_move (obj s)); try done; try apply HP.
      * cbn. rewrite Hc. cbn. lia.
      * cbn [set_sq set_tag free bcast]. rewrite Hb. unfold free. cbn. lia.
      * cbn. intros id. rewrite elem_of_cons. intros [->|Hid]; [|by apply HP]. rewrite Hw. apply list_elem_of_fmap. exists t. split; [done|by eapply list_elem_of_lookup_2].
      * apply others_same. intros id Hne Hid. split; try done. cbn. rewrite elem_of_cons. intuition congruence.
      * left. destruct Hn as (Hn1 & Hn2 & Hn3 & _). split_and!; try done. cbn. rewrite Hw. left.
  - destruct Ho' as [E0 ->]. by apply sim_locked.
Qed.

Lemma handed_clear o id : handed o id -> ~ is_result o id -> nowhere (clear_signal id o) id.
Proof. intros (H1 & H2 & H3 & H4) H5. split_and!; try done. cbn. rewrite elem_clear. by intros []. Qed.

(** A thread that has been given the mutex notices. *)
Lemma sim_noticed code : in_broadcast t = false -> handed (obj s) (t_id t) -> ~ is_result (obj s) (t_id t) ->
  simulated s a i ([Return code], add_reader (- Z.b2z (in_callback t)) (clear_signal (t_id t) (obj s)), at_pc t Idle).
Proof.
  intros Hb Hh Hnr. apply simulated_return, rel_alone; try done.
  - intros x Hx. cbn. rewrite elem_clear. tauto.
  - by left.
  - cbn. lia.
  - by apply handed_clear.
Qed.

Lemma sim_lock_sleep timed : t_at t = LockSleep timed -> simulated s a i (lock_sleep timed (obj s) t).
Proof.
  intros Ht. unfold thread_ok in Hok. rewrite Ht in Hok.
  assert (in_callback t = true /\ in_broadcast t = false) as [Hc Hb] by (unfold in_callback, in_broadcast; by rewrite Ht).
  unfold lock_sleep. case_bool_decide as Hs.
  - pose proof (sim_noticed CELL_OK Hb) as H. rewrite Hc in H. apply H; destruct Hok as [(_ & _ & Hns & _)|(Hh & _ & Hnr)]; done.
  - apply sim_local; try done. by rewrite Hc.
Qed.

Lemma sim_noticed0 code : in_callback t = false -> in_broadcast t = false -> handed (obj s) (t_id t) -> ~ is_result (obj s) (t_id t) ->
  simulated s a i ([Return code], clear_signal (t_id t) (obj s), at_pc t Idle).
Proof. intros Hc Hb Hh Hnr. pose proof (sim_noticed code Hb Hh Hnr) as H. rewrite Hc in H. by rewrite add_no_reader in H. Qed.

Lemma sim_wait_signal timed r : t_at t = Waiting timed -> wait_signal (obj s) t = Some r -> simulated s a i r.
Proof.
  intros Ht. unfold thread_ok in Hok. rewrite Ht in Hok.
  assert (in_callback t = false /\ in_broadcast t = false) as [Hc Hb] by (unfold in_callback, in_broadcast; by rewrite Ht).
  unfold wait_signal. case_bool_decide as Hs; [|done]. intros [= <-]. apply sim_noticed0; try done; destruct Hok as [(_ & _ & Hns & _)|(Hh & _ & Hnr)]; done.
Qed.

(** A thread that is stopped for a savestate. *)
Lemma sim_stop : in_callback t = false -> in_broadcast t = false -> (t_id t ∉ signaled (obj s)) -> (forall c, t_id t ∉ map w_id (bcast_rest (obj s) c)) ->
  simulated s a i (stop (obj s) t).
Proof.
  intros Hc Hb Hs Hr. eapply simulated_one; [constructor|]. apply rel_alone; try done.
  - by right.
  - rewrite Hc. cbn. lia.
  - left.
Qed.

Lemma in_queue_spec id q : in_queue id q = bool_decide (id ∈ map w_id q).
Proof. apply existsb_id. Qed.

Lemma free_rest : free (obj s) = true -> forall c, bcast_rest (obj s) c = [].
Proof. intros Hf c. unfold bcast_rest. by rewrite (free_bcast _ Hf). Qed.

Lemma sim_wait_stopped timed r : t_at t = Waiting timed -> wait_stopped (obj s) t = Some r -> simulated s a i r.
Proof.
  intros Ht. unfold thread_ok in Hok. rewrite Ht in Hok.
  assert (in_callback t = false /\ in_broadcast t = false) as [Hc Hb] by (unfold in_callback, in_broadcast; by rewrite Ht).
  unfold wait_stopped. destruct (free (obj s)) eqn:Ef; [|done]. cbn [negb]. rewrite in_queue_spec. case_bool_decide as Hq; intros [= <-].
  - apply sim_stop; try done; [destruct Hok as [(_ & _ & Hns & _)|((Hnq & _) & _)]; done|]. intros c. rewrite free_rest by done. apply not_elem_of_nil.
  - apply sim_noticed0; try done; destruct Hok as [(Hin & _)|(Hh & _ & Hnr)]; done.
Qed.

(** A thread leaves the queue of the mutex. *)
Lemma rel_leaves_entry pc : bcast (obj s) = None -> in_callback t = false -> in_broadcast t = false -> in_entry (obj s) (t_id t) ->
  in_callback (at_pc t pc) = false -> in_broadcast (at_pc t pc) = false ->
  thread_ok (set_sq (without (t_id t) (sq (obj s))) (obj s)) (at_pc t pc) ->
  mutex_rel (System (set_sq (without (t_id t) (sq (obj s))) (obj s)) (<[i := at_pc t pc]> (pcs s)))
    (Monitor (holder a) (depth a) (without (t_id t) (entry a)) (waiting a) (known a) (alive a)).
Proof.
  intros Ef Hc Hb (Hq & Habs & Hs & Ho) Hc' Hb' Ht. pose proof HC as [H1 H2 H3 H4 H5 H6 H7 H8 H9 H10 H11 H12 H13 H14 H15]. split.
  - split; cbn; try done; [by rewrite H3| |by apply without_wf]. intros E. destruct (H8 E) as [E1 E2]. by rewrite E1.
  - cbn [obj pcs]. apply (pool_move (obj s)); try done; try apply HP.
    + cbn. rewrite Hc, Hc'. cbn. lia.
    + cbn [set_sq free bcast]. rewrite Hb, Hb'. unfold free. cbn. lia.
    + cbn. intros id [Hid _]%without_ids. by apply HP.
    + apply others_same. intros id Hne Hid. split; try done. cbn. rewrite without_ids. tauto.
Qed.

Lemma sim_wait_timeout timed r : t_at t = Waiting timed -> wait_timeout (obj s) t = Some r -> simulated s a i r.
Proof.
  intros Ht. unfold thread_ok in Hok. rewrite Ht in Hok.
  assert (in_callback t = false /\ in_broadcast t = false) as [Hc Hb] by (unfold in_callback, in_broadcast; by rewrite Ht).
  pose proof HC as [H1 H2 H3 H4 H5 H6 H7 H8 H9 H10 H11 H12 H13 H14 H15].
  unfold wait_timeout. destruct (free (obj s)) eqn:Ef; [|done]. cbn [negb]. rewrite unqueue_spec by (rewrite H3; apply (qw_ids _ _ H10)).
  case_bool_decide as Hq; intros [= <-].
  - assert (in_entry (obj s) (t_id t)) as Hen by (destruct Hok as [|((Hnq & _) & _)]; done).
    assert (alive a = true) as Hal.
    { apply (core_owned _ _ HC). intros E. rewrite H1 in E. destruct (H8 E) as [E1 _]. rewrite H3, E1 in Hq. by apply not_elem_of_nil in Hq. }
    eapply simulated_one; [|apply (rel_leaves_entry Idle); try done; [by apply free_bcast|]].
    + destruct Hen as (_ & _ & _ & Ho). clear -H1 H3 Hal Hq Ho. destruct a as [h n q ws cs al]. cbn in *. subst. by constructor.
    + destruct Hen as (A & B & C & _). split_and!; try done; [cbn; rewrite without_ids; by intros []|by apply no_result].
  - apply sim_noticed0; try done; destruct Hok as [(Hin & _)|(Hh & _ & Hnr)]; done.
Qed.

Lemma sim_trylock_begin : t_at t = Idle -> simulated s a i (trylock_begin recursive (obj s) t).
Proof.
  intros Ht. unfold trylock_begin. destruct (exists_ (obj s)) eqn:Ex; [|by apply sim_refused].
  pose proof try_lock_cases as Hc. pose proof (fun c => sim_refused c Ht) as Href. unfold thread_ok in Hok. rewrite Ht in Hok.
  assert (in_callback t = false /\ in_broadcast t = false) as [Hcb Hb] by (unfold in_callback, in_broadcast; by rewrite Ht).
  destruct (try_lock recursive (obj s) (t_id t)) as [| |code] eqn:Et.
  - apply sim_local; try done; [by rewrite Hcb|by right|]. split; [done|cbn; congruence].
  - pose proof (sim_relocked Idle Et Hok Hb eq_refl) as H. rewrite Hcb in H. cbn [Z.b2z Z.opp] in H. rewrite add_no_reader in H.
    rewrite at_idle in H by done. exact H.
  - apply Href.
Qed.

Lemma sim_trylock_cas it_sq : t_at t = TryLockCas it_sq -> simulated s a i (trylock_cas it_sq (obj s) t).
Proof.
  intros Ht. unfold thread_ok in Hok. rewrite Ht in Hok. destruct Hok as [Hn Ho].
  assert (in_callback t = true /\ in_broadcast t = false) as [Hc Hb] by (unfold in_callback, in_broadcast; by rewrite Ht).
  unfold trylock_cas. destruct (cas_lock it_sq (t_id t) (obj s)) as [o'|] eqn:E.
  - apply cas_lock_some in E as [E ->]. by apply sim_locked.
  - by apply sim_done.
Qed.

(** *** Giving the mutex up *)

(** The mutex after its owner has left it to [next]. *)
Definition given (next : option waiter) (h : Z) (q : list waiter) (o : lv2_mutex) : lv2_mutex :=
  let o := set_owner h (set_sq q o) in
  add_reader (-1) (match next with Some w => wake (w_id w) o | None => o end).

Lemma rel_passed o1 a1 pc next o2 : core o1 a1 -> bcast o1 = None -> bcast (obj s) = None -> depth a1 = 0 -> alive a1 = true ->
  sq o1 = sq (obj s) -> again o1 = again (obj s) -> exists_ o1 = exists_ (obj s) -> idm_readers o1 = idm_readers (obj s) ->
  (forall x, x <> t_id t -> same_view (obj s) o1 x) -> owner (obj s) = t_id t ->
  in_callback t = true -> in_broadcast t = false -> t_id t ∉ map w_id (sq (obj s)) ->
  reown protocol o1 = (next, o2) -> match next with Some w => is_again (obj s) (w_id w) = false | None => True end ->
  in_callback (at_pc t pc) = false -> in_broadcast (at_pc t pc) = false ->
  (forall h q', h <> t_id t -> match next with Some w => w_id w <> t_id t | None => True end -> t_id t ∉ map w_id q' -> thread_ok (given next h q' o1) (at_pc t pc)) ->
  exists h q', passed_on protocol (entry a1) next h q' /\ o2 = set_owner h (set_sq q' o1) /\
    mutex_rel (System (given next h q' o1) (<[i := at_pc t pc]> (pcs s))) (Monitor h 0 q' (waiting a1) (known a1) true).
Proof.
  intros H1 Eb1 Eb Hd Hal Eq Eg Ex Er Hv Ho Hc Hb Hq E Hn Hc' Hb' Ht.
  assert (match next with Some w => w ∈ sq (obj s) | None => True end) as Hin.
  { clear -E H1 Eq. unfold reown in E. destruct (sq o1) as [|w0 q0] eqn:Eq1; [cbn in E; by injection E as <- _|].
    destruct (schedule_spec (is_again o1) (order_tag o1) (sq o1) protocol) as (w & rest & Es & (Hw & _)); [rewrite (c_sq _ _ H1); apply (c_wf _ _ H1)|by rewrite Eq1|].
    rewrite <- Eq1, Es in E. injection E as <- _. by rewrite <- Eq, <- Eq1. }
  destruct (core_passed protocol o1 a1 next o2 H1 Eb1 Hd E) as (h & q' & Hp & Hcore & ->); [|done|].
  { destruct next as [w|]; [|done]. split; [unfold is_again in *; by rewrite Eg|]. apply ids_pos, (p_entry _ _ HP). by apply elem_of_ids. }
  exists h, q'. split; [done|]. split; [done|].
  assert (forall x, x ∈ map w_id q' <-> x ∈ map w_id (sq (obj s)) /\ match next with Some w => x <> w_id w | None => True end) as Hq'.
  { intros x. rewrite <- Eq, (c_sq _ _ H1). unfold passed_on in Hp. destruct next as [w|].
    - destruct Hp as [(_ & -> & _) _]. rewrite without_ids. tauto.
    - destruct Hp as (-> & _ & ->). tauto. }
  assert (h <> t_id t /\ match next with Some w => w_id w <> t_id t | None => True end) as [Hh Hw].
  { unfold passed_on in Hp. destruct next as [w|]; [|by destruct Hp as (_ & -> & _)]. destruct Hp as [_ ->].
    assert (w_id w <> t_id t); [|done]. intros Ew. apply Hq. rewrite <- Ew. by apply elem_of_ids. }
  set (id := match next with Some w => w_id w | None => t_id t end).
  assert (core (given next h q' o1) (Monitor h 0 q' (waiting a1) (known a1) true)) as Hcore'.
  { eapply core_same; [exact Hcore|..]; unfold given; by destruct next. }
  apply (rel_step id); try done.
  - intros _. unfold id. destruct next as [w|]; [|apply own_thread]. apply (p_entry _ _ HP). by apply elem_of_ids.
  - intros x Hxi Hxt. eapply same_view_trans; [by apply Hv|]. subst id. unfold passed_on in Hp. split; unfold given; destruct next as [w|]; cbn; try done.
    + rewrite Hq', Eq. tauto.
    + rewrite Hq', Eq. tauto.
    + rewrite elem_of_app, list_elem_of_singleton. tauto.
    + destruct Hp as [_ ->]. intros Hx0. rewrite (v_owner _ _ _ (Hv x Hxt)) by done. rewrite Ho. split; congruence.
    + destruct Hp as (_ & -> & _). intros Hx0. rewrite (v_owner _ _ _ (Hv x Hxt)) by done. rewrite Ho. split; congruence.
  - intros t' Et Hne Hok'. destruct next as [w|]; [|done]. subst id. assert (t_id t' ∈ map w_id (sq (obj s))) as Hin' by (rewrite Et; by apply elem_of_ids).
    assert (t_id t' ∉ again (obj s)) as Hg' by (rewrite Et; unfold is_again in Hn; by case_bool_decide).
    destruct (queued_entry _ _ Hok' Hin' Hg') as (_ & Habs & Hns & Hno). apply (entry_handed (obj s)); try done. split; [|split].
    + unfold passed_on in Hp. split_and!; cbn; [rewrite Hq', Et; tauto| |destruct Hp; congruence|].
      * intros c Hc0. apply (Habs c). apply (Hv (t_id t') ltac:(congruence)). exact Hc0.
      * by rewrite (c_depth _ _ H1).
    + cbn. rewrite elem_of_app, list_elem_of_singleton. by right.
    + unfold is_result. cbn. rewrite Eb1. tauto.
  - rewrite Hc, Hc'. unfold given. destruct next; cbn; rewrite Er; lia.
  - rewrite Hb, Hb'. unfold given, free. destruct next; cbn; rewrite Eb1, Eb; done.
  - intros b w. unfold given. destruct next; cbn; by rewrite Eb1.
  - unfold given. by destruct next.
  - by apply Ht; [| |rewrite Hq'; tauto].
Qed.

Lemma sim_unlock_begin : t_at t = Idle -> simulated s a i (unlock_begin (obj s) t).
Proof.
  intros Ht. pose proof (fun c => sim_refused c Ht) as Href. unfold thread_ok in Hok. rewrite Ht in Hok.
  assert (in_callback t = false /\ in_broadcast t = false) as [Hcb Hb] by (unfold in_callback, in_broadcast; by rewrite Ht).
  unfold unlock_begin. destruct (exists_ (obj s)) eqn:Ex; [|apply Href]. destruct (Z.eqb_spec (owner (obj s)) (t_id t)) as [Eo|]; [|apply Href]. cbn [negb].
  assert (alive a = true) as Hal by (by rewrite <- (c_alive _ _ HC)). pose proof (c_range _ _ HC) as Hr. rewrite <- (c_depth _ _ HC) in Hr.
  destruct (Z.eqb_spec (lock_count (obj s)) 0) as [E0|E0]; cbn [negb].
  - apply sim_local; try done; [rewrite Hcb; by destruct (sq (obj s))|rewrite Hb; by destruct (sq (obj s))|by right|]. by destruct (sq (obj s)).
  - pose proof (rel_count (lock_count (obj s) - 1) 0 Idle Eo) as H. rewrite add_no_reader, at_idle in H by done.
    eapply simulated_one; [|apply H; try done; [lia|by rewrite Hcb|unfold thread_ok; by rewrite Ht]].
    rewrite (monitor_eta a Hal) at 1. rewrite Hal, <- (c_owner _ _ HC), <- (c_sq _ _ HC), (c_depth _ _ HC), Eo. constructor. rewrite <- (c_depth _ _ HC). lia.
Qed.

(** [reown] by the holder. *)
Lemma released next o' : owner (obj s) = t_id t -> free (obj s) = true -> nowhere (obj s) (t_id t) -> lock_count (obj s) = 0 ->
  in_callback t = true -> in_broadcast t = false -> reown protocol (obj s) = (next, o') ->
  match next with Some w => is_again (obj s) (w_id w) = false | None => True end ->
  simulated s a i (done_with (Released (t_id t) next) (match next with Some w => wake (w_id w) o' | None => o' end) t).
Proof.
  intros Eo Ef (Hn1 & Hn2 & Hn3 & Hn4) E0 Hcb Hb Hre Hg. pose proof (free_bcast _ Ef) as Eb.
  assert (alive a = true) as Hal by (rewrite <- (c_alive _ _ HC); by apply callback_exists).
  destruct (rel_passed (obj s) a Idle next o' HC Eb Eb ltac:(by rewrite <- (c_depth _ _ HC)) Hal) as (h & q' & Hp & -> & Hrel); try done.
  - intros h q' Hh Hw Hq. unfold given. destruct next as [w|]; split_and!; cbn; try done. rewrite elem_of_app, list_elem_of_singleton. by intros [|].
  - assert (holder a = t_id t /\ depth a = 0) as [Eh Ed] by (by rewrite <- (c_owner _ _ HC), <- (c_depth _ _ HC)).
    eapply simulated_one; [|exact Hrel]. rewrite (monitor_eta a Hal) at 1. rewrite Eh, Ed. by constructor.
Qed.

(** The holder leaves a mutex nobody waits for. *)
Lemma core_left : owner (obj s) = t_id t -> sq (obj s) = [] -> nowhere (obj s) (t_id t) -> lock_count (obj s) = 0 ->
  core (set_owner 0 (obj s)) (Monitor 0 0 [] (waiting a) (known a) (alive a)).
Proof.
  intros Eo Eq (_ & _ & _ & Hr) E0. destruct HC as [H1 H2 H3 H4 H5 H6 H7 H8 H9 H10 H11 H12 H13 H14 H15]. split; cbn; try done; [repeat constructor|intros E; split; [done|by apply H14]|].
  intros b Eb. destruct (H15 b Eb) as [A B]. split; [done|]. intros r Er. destruct (B r Er) as [<- _]. destruct Hr. unfold is_result. by rewrite Eb, Er, Eo.
Qed.

Lemma sim_unlock_cas : t_at t = UnlockCas -> simulated s a i (unlock_cas (obj s) t).
Proof.
  intros Ht. unfold thread_ok in Hok. rewrite Ht in Hok. destruct Hok as (Hn & Ho & E0).
  assert (in_callback t = true /\ in_broadcast t = false) as [Hc Hb] by (unfold in_callback, in_broadcast; by rewrite Ht).
  unfold unlock_cas. destruct (Z.eqb_spec (owner (obj s)) (t_id t)); [|done]. cbn [andb]. case_bool_decide as Hq; [|by apply sim_local0].
  assert (sq (obj s) = []) as Eq by (unfold head_id in Hq; by destruct (sq (obj s))).
  assert (alive a = true) as Hal by (rewrite <- (c_alive _ _ HC); by apply callback_exists).
  pose proof (core_left Ho Eq Hn E0) as Hcore. rewrite Hal in Hcore. eapply simulated_one; [|apply (rel_step (t_id t)); [eapply core_same; [exact Hcore|done..]|..]].
  - rewrite (monitor_eta a Hal) at 1. rewrite <- (c_owner _ _ HC), <- (c_depth _ _ HC), <- (c_sq _ _ HC), Ho, E0. by constructor.
  - intros _. apply own_thread.
  - intros x Hx _. split; try done; cbn; intros; try congruence. rewrite Ho. split; congruence.
  - done.
  - cbn. rewrite Hc. cbn. lia.
  - rewrite Hb. unfold free. cbn. lia.
  - apply HP.
  - done.
  - done.
  - exact Hn.
Qed.

Lemma sim_unlock_slow r : t_at t = UnlockSlow -> unlock_slow protocol (obj s) t = Some r -> forallb not_saved r.1.1 = true -> simulated s a i r.
Proof.
  intros Ht. unfold thread_ok in Hok. rewrite Ht in Hok. destruct Hok as (Hn & Ho & E0).
  assert (in_callback t = true /\ in_broadcast t = false) as [Hc Hb] by (unfold in_callback, in_broadcast; by rewrite Ht).
  unfold unlock_slow. destruct (free (obj s)) eqn:Ef; [|done]. cbn [negb]. destruct (reown protocol (obj s)) as [[w|] o'] eqn:Er.
  - assert (again o' = again (obj s)) as Ea by (unfold reown in Er; destruct (schedule _ _ _) as [[w'|] q']; [by injection Er as _ <-|done]).
    unfold is_again. rewrite Ea. case_bool_decide as Hg; intros [= <-]; [done|]. intros _.
    apply (released (Some w) o'); try done. unfold is_again. by rewrite bool_decide_false.
  - intros [= <-] _. by apply (released None o').
Qed.

(** *** Waiting for a condition *)

Lemma sim_cond_begin c timed : t_at t = Idle -> simulated s a i (cond_begin c timed (obj s) t).
Proof.
  intros Ht. pose proof (fun c => sim_refused c Ht) as Href. unfold thread_ok in Hok. rewrite Ht in Hok.
  assert (in_callback t = false /\ in_broadcast t = false) as [Hcb Hb] by (unfold in_callback, in_broadcast; by rewrite Ht).
  unfold cond_begin, cond_exists. case_bool_decide as Hc; [|apply Href]. destruct (Z.eqb_spec (owner (obj s)) (t_id t)) as [Eo|]; [|apply Href].
  apply sim_local; try done; [by rewrite Hcb|]. right. rewrite (c_alive _ _ HC). by eapply core_known.
Qed.

(** The thread is in the queue of the condition, and still holds the mutex. *)
Definition entered_cond (c : Z) : lv2_mutex :=
  set_count 0 (set_cond_sq c (Waiter (t_id t) (t_prio t) (order_tag (obj s) + 1) :: cond_sq (obj s) c) (set_tag (order_tag (obj s) + 1) (obj s))).

Lemma core_entered_cond c : bcast (obj s) = None -> nowhere (obj s) (t_id t) -> c ∈ conds (obj s) ->
  core (entered_cond c) (Monitor (holder a) 0 (entry a)
    (upd (waiting a) c (Waiter (t_id t) (t_prio t) (order_tag (obj s) + 1) :: waiting a c)) (known a) (alive a)).
Proof.
  intros Eb (_ & Hn & _) Hc. unfold entered_cond. set (w := Waiter _ _ _). set (o := set_tag _ _).
  assert (core o a) as HC'.
  { destruct HC as [H1 H2 H3 H4 H5 H6 H7 H8 H9 H10 H11 H12 H13 H14 H15]. split; cbn; try done; [|intros x]; (eapply queue_wf_mono; [|done]; lia). }
  assert (cond_sq o c = waiting a c) as E by (rewrite <- (c_wait _ _ HC c); by rewrite abs_free). change (cond_sq (obj s) c) with (cond_sq o c). rewrite E.
  pose proof (core_cond_sq o a c (w :: waiting a c) HC' Eb) as H. apply core_count_reset in H; [exact H|..].
  - apply (emplace_wf (order_tag (obj s)) (waiting a c) (t_id t) (t_prio t)); [apply (c_waits _ _ HC)|]. rewrite <- (c_wait _ _ HC). apply Hn.
  - intros Hk. by rewrite (c_conds _ _ HC) in Hc.
Qed.

Lemma sim_cond_enter c timed r : t_at t = CondEnter c timed -> cond_enter protocol c timed (obj s) t = Some r ->
  forallb not_saved r.1.1 = true -> simulated s a i r.
Proof.
  intros Ht. unfold thread_ok in Hok. rewrite Ht in Hok. destruct Hok as (Hn & Ho & Hk).
  assert (in_callback t = true /\ in_broadcast t = false) as [Hc Hb] by (unfold in_callback, in_broadcast; by rewrite Ht).
  unfold cond_enter. destruct (free (obj s)) eqn:Ef; [|done]. cbn [negb]. pose proof (free_bcast _ Ef) as Eb.
  change (set_count 0 _) with (entered_cond c). pose proof (core_entered_cond c Eb Hn Hk) as Hcore.
  assert (alive a = true) as Hal by (rewrite <- (c_alive _ _ HC); by apply callback_exists). rewrite Hal in Hcore.
  assert (holder a = t_id t) as Eh by (by rewrite <- (c_owner _ _ HC)). pose proof (c_range _ _ HC) as Hr.
  assert (forall next o', reown protocol (entered_cond c) = (next, o') -> match next with Some w => is_again (obj s) (w_id w) = false | None => True end ->
    simulated s a i ([CondWaited (t_id t) c (lock_count (obj s)) (Waiter (t_id t) (t_prio t) (order_tag (obj s) + 1)) next],
      add_reader (-1) (match next with Some w => wake (w_id w) o' | None => o' end), at_pc t (CondWaiting c (lock_count (obj s)) timed CELL_OK))) as Hgoal.
  { intros next o' E Hg. pose proof Hn as (Hn1 & Hn2 & Hn3 & Hn4).
    destruct (rel_passed (entered_cond c) _ (CondWaiting c (lock_count (obj s)) timed CELL_OK) next o' Hcore Eb Eb eq_refl eq_refl) as (h & q' & Hp & -> & Hrel); try done.
    - intros x Hx. split; try done; [|by rewrite Ho]. intros y. rewrite !abs_free by done. cbn. destruct (decide (y = c)) as [->|]; [|by rewrite upd_ne].
      rewrite upd_eq. cbn. rewrite elem_of_cons. intuition congruence.
    - intros h q' Hh Hw Hq. split; [by rewrite (c_depth _ _ HC)|]. left. unfold given.
      assert (forall y, abs_sq (entered_cond c) y = upd (abs_sq (obj s)) c (Waiter (t_id t) (t_prio t) (order_tag (obj s) + 1) :: abs_sq (obj s) c) y) as Habs.
      { intros y. rewrite abs_free by done. cbn. destruct (decide (y = c)) as [->|]; [rewrite !upd_eq|rewrite !upd_ne by done]; by rewrite abs_free. }
      destruct next as [w|]; split_and!; try done; cbn; try done.
      + change (t_id t ∈ map w_id (abs_sq (entered_cond c) c)). rewrite Habs, upd_eq. left.
      + intros y Hy. change (t_id t ∉ map w_id (abs_sq (entered_cond c) y)). rewrite Habs, upd_ne by done. apply Hn2.
      + rewrite elem_of_app, list_elem_of_singleton. by intros [|].
      + change (t_id t ∈ map w_id (abs_sq (entered_cond c) c)). rewrite Habs, upd_eq. left.
      + intros y Hy. change (t_id t ∉ map w_id (abs_sq (entered_cond c) y)). rewrite Habs, upd_ne by done. apply Hn2.
    - eapply simulated_one; [|exact Hrel]. rewrite (monitor_eta a Hal) at 1. rewrite Eh, (c_depth _ _ HC). eapply spec_cond_waited; [by rewrite <- (c_conds _ _ HC)|done| |exact Hp|done].
      eapply Forall_impl; [apply (qw_tags _ _ (c_waits _ _ HC c))|]. cbn. lia. }
  destruct (reown protocol (entered_cond c)) as [[w|] o'] eqn:Er.
  - assert (again o' = again (obj s) /\ cond_sq o' c = Waiter (t_id t) (t_prio t) (order_tag (obj s) + 1) :: cond_sq (obj s) c) as [Ea Ecs].
    { unfold reown in Er. destruct (schedule _ _ _) as [[w'|] q']; [injection Er as _ <-; cbn; by rewrite upd_eq|done]. }
    unfold is_again. rewrite Ea. case_bool_decide as Hg.
    + rewrite Ecs. cbn [unqueue w_id]. rewrite Z.eqb_refl. by intros [= <-].
    + intros [= <-] _. apply (Hgoal (Some w) o'); [done|]. unfold is_again. by rewrite bool_decide_false.
  - intros [= <-] _. by apply (Hgoal None o').
Qed.

(** The mutex is the thread's again, with the depth it had. *)
Lemma rel_finished n o1 a1 : core o1 a1 -> handed o1 (t_id t) -> ~ is_result (obj s) (t_id t) ->
  (forall x, x <> t_id t -> same_view (obj s) o1 x) -> bcast o1 = bcast (obj s) -> again o1 = again (obj s) ->
  exists_ o1 = exists_ (obj s) -> idm_readers o1 = idm_readers (obj s) -> 0 <= n < 2 ^ 32 -> in_callback t = false -> in_broadcast t = false ->
  mutex_rel (System (set_count (u32 n) (clear_signal (t_id t) o1)) (<[i := at_pc t Idle]> (pcs s)))
    (Monitor (holder a1) n (entry a1) (waiting a1) (known a1) (alive a1)).
Proof.
  intros H1 (Hh1 & Hh2 & Hh3 & Hh4) Hnr Hv Eb Eg Ex Er Hn Hc Hb. assert (u32 n = n) as -> by (unfold u32; by apply Z.mod_small).
  apply (rel_step (t_id t)); try done.
  - eapply core_same; [apply (core_count o1 a1 n H1); [by rewrite Hh3|done]|done..].
  - intros _. apply own_thread.
  - intros x Hx _. eapply same_view_trans; [by apply Hv|]. split; try done; cbn; [rewrite elem_clear; tauto|congruence].
  - cbn. rewrite Hc, Er. cbn. lia.
  - rewrite Hb. unfold free. cbn. rewrite Eb. lia.
  - cbn. rewrite Eb, Eg. apply HP.
  - split_and!; try done; [cbn; rewrite elem_clear; by intros []|]. unfold is_result in *. cbn. by rewrite Eb.
Qed.

Lemma sim_cond_finish n code : 0 <= n < 2 ^ 32 -> handed (obj s) (t_id t) -> ~ is_result (obj s) (t_id t) -> in_callback t = false -> in_broadcast t = false ->
  simulated s a i (cond_finish n code (obj s) t).
Proof.
  intros Hn Hh Hnr Hc Hb. pose proof Hh as (_ & _ & Eo & E0). unfold cond_finish. rewrite (proj2 (Z.eqb_eq _ _) Eo).
  assert (alive a = true) as Hal by (apply (core_owned _ _ HC); congruence).
  eapply simulated_one; [|by apply (rel_finished n (obj s) a HC Hh Hnr)]. rewrite (monitor_eta a Hal) at 1. rewrite Hal, <- (c_owner _ _ HC), <- (c_depth _ _ HC), Eo, E0. by constructor.
Qed.

Lemma cond_waiting_pc c n timed code : t_at t = CondWaiting c n timed code -> in_callback t = false /\ in_broadcast t = false.
Proof. intros Ht. unfold in_callback, in_broadcast. by rewrite Ht. Qed.

Lemma sim_cond_signal c n timed code r : t_at t = CondWaiting c n timed code -> cond_signal n code (obj s) t = Some r -> simulated s a i r.
Proof.
  intros Ht. destruct (cond_waiting_pc _ _ _ _ Ht) as [Hc Hb]. unfold thread_ok in Hok. rewrite Ht in Hok. destruct Hok as [Hn H].
  unfold cond_signal. case_bool_decide as Hs; [|done]. intros [= <-].
  assert (woken (obj s) (t_id t)) as (Hh & _ & Hnr) by (destruct H as [(_ & _ & _ & ? & _)|[(_ & _ & ? & _)|[?|(_ & _ & ?)]]]; done). by apply sim_cond_finish.
Qed.

Lemma sim_cond_stopped c n timed code r : t_at t = CondWaiting c n timed code -> cond_stopped c n code (obj s) t = Some r -> simulated s a i r.
Proof.
  intros Ht. destruct (cond_waiting_pc _ _ _ _ Ht) as [Hc Hb]. unfold thread_ok in Hok. rewrite Ht in Hok. destruct Hok as [Hn H].
  unfold cond_stopped. destruct (free (obj s)) eqn:Ef; [|done]. cbn [negb]. rewrite !in_queue_spec. destruct (_ || _) eqn:E; intros [= <-].
  - apply sim_stop; try done; [|intros y; rewrite free_rest by done; apply not_elem_of_nil].
    apply orb_true_iff in E. rewrite !bool_decide_eq_true in E. rewrite <- abs_free in E by (by apply free_bcast).
    destruct H as [(_ & _ & _ & ? & _)|[(_ & _ & ? & _)|[((? & Hx & _) & _)|(_ & _ & ?)]]]; try done. by destruct E as [E|E]; [destruct (Hx c)|].
  - apply orb_false_iff in E. rewrite !bool_decide_eq_false in E. rewrite <- abs_free in E by (by apply free_bcast).
    apply sim_cond_finish; try done; [|by apply no_result].
    destruct H as [(_ & ? & _)|[(? & _)|[[? _]|[? _]]]]; tauto.
Qed.

(** The wait for the condition has run out: the thread queues up for the mutex. *)
Lemma sim_cond_timeout c n code r : t_at t = CondWaiting c n true code -> cond_timeout c n code (obj s) t = Some r -> simulated s a i r.
Proof.
  intros Ht. destruct (cond_waiting_pc _ _ _ _ Ht) as [Hc Hb]. unfold thread_ok in Hok. rewrite Ht in Hok. destruct Hok as [Hn H].
  unfold cond_timeout. destruct (free (obj s)) eqn:Ef; [|done]. cbn [negb]. pose proof (free_bcast _ Ef) as Eb. pose proof (no_result _ (t_id t) Ef) as Hnr.
  assert (cond_sq (obj s) c = waiting a c) as Ew by (by rewrite <- (c_wait _ _ HC), abs_free).
  rewrite unqueue_spec by (rewrite Ew; apply (c_waits _ _ HC)). case_bool_decide as Hq.
  - assert (in_cond (obj s) (t_id t) c) as Hin.
    { rewrite <- abs_free in Hq by done. destruct H as [|[(_ & Hx & _)|[((_ & Hx & _) & _)|((_ & Hx & _) & _)]]]; [done|by destruct (Hx c)..]. }
    destruct (gone _ _ _ _ HC Eb Hin) as [Hg Hgo]. pose proof (core_gone _ _ c (t_id t) HC Eb) as Hcore.
    set (o1 := set_cond_sq c (without (t_id t) (cond_sq (obj s) c)) (obj s)) in *. set (a1 := Monitor _ _ _ _ _ _) in Hcore.
    assert (alive a = true) as Hal. { apply list_elem_of_fmap in Hq as (w & _ & Hw). rewrite <- abs_free in Hw by done. by apply (core_waits _ _ _ _ HC Hw). }
    destruct (try_own (t_id t) (t_prio t) o1) as [dest o2] eqn:E.
    destruct (core_enters _ _ _ _ _ _ Hcore E Hz (proj1 Hg) Hal) as (h' & q' & He & Hcore2 & Ho2).
    pose proof (entered _ _ _ _ _ _ Hcore Hg Hgo E) as Hen. cbn [holder depth entry waiting known a1] in He, Hcore2.
    assert (forall x, x <> t_id t -> same_view (obj s) o2 x) as Hv.
    { intros x Hx. eapply same_view_trans; [by apply (view_gone _ c (t_id t))|by eapply view_enters]. }
    unfold cond_finish. destruct dest as [w|].
    + destruct Ho2 as (_ & _ & ->). intros [= <-]. eapply simulated_one; [|apply (rel_step (t_id t)); [exact Hcore2|..]]; try done.
      * rewrite (monitor_eta a Hal) at 1. eapply spec_cond_timed_out; [by rewrite <- Ew|done|exact He].
      * intros _. apply own_thread.
      * by auto.
      * rewrite Hc. cbn. lia.
      * rewrite Hb. unfold free. cbn. lia.
      * cbn. by rewrite Eb.
      * split; [done|]. right. by left.
    + destruct Ho2 as (E0 & ->). cbn [owner set_owner]. rewrite Z.eqb_refl. intros [= <-]. destruct He as (E1 & -> & ->).
      exists (Monitor (t_id t) n (entry a) (upd (waiting a) c (without (t_id t) (waiting a c))) (known a) true). cbn [fst snd map]. split.
      * econstructor; [|apply spec_run_one].
        -- rewrite (monitor_eta a Hal) at 1. eapply (spec_cond_timed_out _ _ _ _ _ (t_prio t) None); [by rewrite <- Ew|done|done].
        -- destruct (c_free _ _ HC E1) as [_ ->]. by constructor.
      * pose proof (rel_finished n _ _ Hcore2 Hen Hnr Hv) as Hf. apply Hf; done.
  - rewrite <- abs_free in Hq by done. assert (in_entry (obj s) (t_id t) \/ handed (obj s) (t_id t)) as H'.
    { destruct H as [(_ & ? & _)|[?|[[? _]|[? _]]]]; auto. done. }
    destruct (Z.eqb_spec (owner (obj s)) (t_id t)) as [Eo|Eo]; intros [= <-].
    + apply sim_cond_finish; try done. destruct H' as [(_ & _ & _ & ?)|?]; done.
    + apply sim_local0; [by rewrite Hc|by rewrite Hb|]. split; [done|tauto].
Qed.

(** *** Signalling a condition *)

Lemma thread_of id c : id ∈ map w_id (abs_sq (obj s) c) -> (id ∉ again (obj s)) -> nowhere (obj s) (t_id t) ->
  id <> t_id t /\ id <> 0 /\ id ∈ map t_id (pcs s) /\ in_cond (obj s) id c.
Proof.
  intros Hin Hg (_ & Hn & _). pose proof (p_waits _ _ HP c id Hin) as Hid. split_and!; [intros ->; by apply (Hn c)|by apply ids_pos|done|].
  apply list_elem_of_fmap in Hid as (t' & -> & [j Hj]%list_elem_of_lookup). by apply queued_cond; [by eapply p_ok|..].
Qed.

(** Another thread is taken off a condition. *)
Lemma rel_moved id c o' a' pc : core o' a' -> id ∈ map w_id (abs_sq (obj s) c) -> (id ∉ again (obj s)) -> nowhere (obj s) (t_id t) ->
  (forall x, x <> id -> same_view (obj s) o' x) -> in_entry o' id \/ woken o' id \/ to_wake o' id ->
  idm_readers o' = idm_readers (obj s) - Z.b2z (in_callback t) + Z.b2z (in_callback (at_pc t pc)) ->
  free o' = free (obj s) -> in_broadcast (at_pc t pc) = in_broadcast t ->
  (forall b w, bcast o' = Some b -> w ∈ b_rest b -> w_id w ∉ again o') ->
  exists_ o' = exists_ (obj s) -> in_callback t = true -> thread_ok (obj s) (at_pc t pc) ->
  mutex_rel (System o' (<[i := at_pc t pc]> (pcs s))) a'.
Proof.
  intros Hcore Hin Hg Hn Hv Hw Hr Hf Hb Ha Ex Hc Ht. destruct (thread_of id c Hin Hg Hn) as (Hne & Hz0 & Hid & _). apply (rel_step id); try done.
  - intros x Hx _. by apply Hv.
  - intros t' Et _ Hok'. rewrite <- Et in *. by apply (cond_entered (obj s) o' t' c).
  - rewrite Hf, Hb. lia.
  - by apply (thread_ok_ext (obj s)); [|apply Hv; cbn; congruence|].
Qed.

Lemma sim_signal_start c kind : t_at t = SigStart c kind -> simulated s a i (signal_start thread_exists c kind (obj s) t).
Proof.
  intros Ht. assert (in_callback t = false /\ in_broadcast t = false) as [Hc Hb] by (unfold in_callback, in_broadcast; by rewrite Ht).
  unfold thread_ok in Hok. rewrite Ht in Hok.
  assert (forall code, simulated s a i ([Return code], obj s, at_pc t Idle)) as Href.
  { intros code. apply simulated_return, rel_alone; try done; [by left|]. rewrite Hc. cbn. lia. }
  unfold signal_start, cond_exists. case_bool_decide as Hk; [|apply Href]. cbn [negb]. destruct (match kind with SignalTo _ => _ | _ => _ end); [apply Href|].
  pose proof (core_known _ _ _ HC Hk) as Hal. rewrite <- (c_alive _ _ HC) in Hal.
  destruct (cond_sq (obj s) c); (apply sim_local; try done; [by rewrite Hc|by right]).
Qed.

Lemma sim_signal_empty c kind r : t_at t = SigEmpty c kind -> signal_empty kind (obj s) t = Some r -> simulated s a i r.
Proof.
  intros Ht. unfold thread_ok in Hok. rewrite Ht in Hok. unfold signal_empty. destruct (free (obj s)); [|done]. intros [= <-].
  apply sim_done; [unfold in_callback|unfold in_broadcast|done]; by rewrite Ht.
Qed.

Lemma sim_signal_retry c kind r : t_at t = SigEmpty c kind \/ t_at t = SigSection c kind -> signal_retry c kind (obj s) t = Some r -> simulated s a i r.
Proof.
  intros Ht. assert (in_callback t = true /\ in_broadcast t = false /\ nowhere (obj s) (t_id t)) as (Hc & Hb & Hn).
  { unfold in_callback, in_broadcast, thread_ok in *. by destruct Ht as [Ht|Ht]; rewrite Ht in *. }
  unfold signal_retry. destruct (free (obj s)); [|done]. intros [= <-]. apply sim_local; try done. by rewrite Hc.
Qed.

Lemma sim_stop_signal : in_callback t = true -> in_broadcast t = false -> nowhere (obj s) (t_id t) -> simulated s a i (stop_signal (obj s) t).
Proof.
  intros Hc Hb Hn. eapply simulated_one; [constructor|]. apply rel_alone; try done.
  - right. split; [done|]. by apply nowhere_broadcast.
  - rewrite Hc. cbn. lia.
  - left.
Qed.

Lemma sim_requeue (e : option waiter -> mutex_event) w c : in_callback t = true -> in_broadcast t = false -> nowhere (obj s) (t_id t) ->
  free (obj s) = true -> w ∈ cond_sq (obj s) c -> is_again (obj s) (w_id w) = false ->
  (forall dest h' q', enters (w_id w) (w_prio w) (holder a) (entry a) dest h' q' ->
    monitor_spec protocol recursive a (i, e dest) (Monitor h' (depth a) q' (upd (waiting a) c (without (w_id w) (waiting a c))) (known a) true)) ->
  simulated s a i (requeue e w (set_cond_sq c (without (w_id w) (cond_sq (obj s) c)) (obj s)) t).
Proof.
  intros Hc Hb Hn Ef Hw Hg He. pose proof (free_bcast _ Ef) as Eb. rewrite <- abs_free in Hw by done. pose proof (elem_of_ids _ _ Hw) as Hin.
  assert (w_id w ∉ again (obj s)) as Hga by (unfold is_again in Hg; by case_bool_decide).
  destruct (thread_of _ _ Hin Hga Hn) as (Hne & Hz0 & Hid & Hcond). destruct (core_waits _ _ _ _ HC Hw) as [Hk Hal].
  destruct (gone _ _ _ _ HC Eb Hcond) as [Hg1 Hgo]. pose proof (core_gone _ _ c (w_id w) HC Eb) as Hcore.
  set (o1 := set_cond_sq c _ _) in *. set (a1 := Monitor _ _ _ _ _ _) in Hcore.
  unfold requeue. destruct (try_own (w_id w) (w_prio w) o1) as [dest o2] eqn:E.
  destruct (core_enters _ _ _ _ _ _ Hcore E Hz0 (proj1 Hg1) Hal) as (h' & q' & Hent & Hcore2 & Ho2).
  pose proof (entered _ _ _ _ _ _ Hcore Hg1 Hgo E) as Hen. cbn [holder depth entry waiting known a1] in Hent, Hcore2.
  assert (forall x, x <> w_id w -> same_view (obj s) o2 x) as Hv.
  { intros x Hx. eapply same_view_trans; [by apply (view_gone _ c (w_id w))|by eapply view_enters]. }
  assert (exists_ o2 = exists_ (obj s) /\ bcast o2 = bcast (obj s) /\ idm_readers o2 = idm_readers (obj s) /\ again o2 = again (obj s)) as (Ex2 & Eb2 & Er2 & Ea2).
  { destruct dest; [destruct Ho2 as (_ & _ & ->)|destruct Ho2 as (_ & ->)]; done. }
  set (o3 := match dest with Some _ => o2 | None => wake (w_id w) o2 end).
  assert (simulated s a i (done_with (e dest) o3 t)) as H; [|by destruct dest].
  eapply simulated_one; [by eapply He|]. apply (rel_moved (w_id w) c); try done.
  - eapply core_same; [exact Hcore2|..]; by destruct dest.
  - intros x Hx. eapply same_view_trans; [by apply Hv|]. subst o3. destruct dest as [w'|]; [done|]. split; try done. cbn. rewrite elem_of_app, list_elem_of_singleton. tauto.
  - subst o3. destruct dest as [w'|]; [left; exact Hen|right; left]. split; [exact Hen|]. split; [cbn; rewrite elem_of_app, list_elem_of_singleton; by right|].
    unfold is_result. cbn. rewrite Eb2, Eb. tauto.
  - rewrite Hc. subst o3. destruct dest; cbn; rewrite Er2; lia.
  - unfold free. subst o3. destruct dest; cbn; by rewrite Eb2.
  - intros b w'. subst o3. destruct dest; cbn; by rewrite Eb2, Eb.
  - subst o3. by destruct dest.
Qed.

Lemma sim_signal_one c o : t_at t = SigSection c Signal -> signal_section protocol c Signal (obj s) t = Some o -> simulated s a i o.
Proof.
  intros Ht. assert (in_callback t = true /\ in_broadcast t = false) as [Hc Hb] by (unfold in_callback, in_broadcast; by rewrite Ht).
  pose proof Hok as Hn. unfold thread_ok in Hn. rewrite Ht in Hn. unfold signal_section. destruct (free (obj s)) eqn:Ef; [|done]. cbn [negb].
  assert (cond_sq (obj s) c = waiting a c) as Ew by (rewrite <- (c_wait _ _ HC); by rewrite abs_free by by apply free_bcast).
  destruct (decide (cond_sq (obj s) c = [])) as [En|En]; [rewrite En; cbn; intros [= <-]; by apply sim_done|].
  destruct (schedule_spec (is_again (obj s)) (order_tag (obj s)) (cond_sq (obj s) c) protocol) as (w & rest & -> & Hf); [rewrite Ew; apply (c_waits _ _ HC)|done|].
  destruct (is_again (obj s) (w_id w)) eqn:Eg; intros [= <-]; [by apply sim_stop_signal|].
  pose proof Hf as (Hw & -> & _). apply sim_requeue; try done. intros dest h' q' He. destruct (core_waits _ _ c w HC) as [Hk Hal]; [by rewrite abs_free by by apply free_bcast|].
  rewrite (monitor_eta a Hal) at 1. eapply spec_moved; [by left|rewrite <- Ew; exact Hf|by rewrite Ew|exact He].
Qed.

Lemma find_id q id w : List.find (fun w => w_id w =? id) q = Some w -> w ∈ q /\ w_id w = id.
Proof. intros [H1 H2%Z.eqb_eq]%find_some. by rewrite list_elem_of_In. Qed.

Lemma sim_signal_to c id o : t_at t = SigSection c (SignalTo id) -> signal_section protocol c (SignalTo id) (obj s) t = Some o -> simulated s a i o.
Proof.
  intros Ht. assert (in_callback t = true /\ in_broadcast t = false) as [Hc Hb] by (unfold in_callback, in_broadcast; by rewrite Ht).
  pose proof Hok as Hn. unfold thread_ok in Hn. rewrite Ht in Hn. unfold signal_section. destruct (free (obj s)) eqn:Ef; [|done]. cbn [negb].
  assert (cond_sq (obj s) c = waiting a c) as Ew by (rewrite <- (c_wait _ _ HC); by rewrite abs_free by by apply free_bcast).
  destruct (List.find _ _) as [w|] eqn:E; [|intros [= <-]; by apply sim_done]. apply find_id in E as [Hw <-].
  destruct (is_again (obj s) (w_id w)) eqn:Eg; [intros [= <-]; by apply sim_stop_signal|].
  rewrite unqueue_spec by (rewrite Ew; apply (c_waits _ _ HC)). rewrite bool_decide_true by (by apply elem_of_ids). intros [= <-].
  apply sim_requeue; try done. intros dest h' q' He. destruct (core_waits _ _ c w HC) as [Hk Hal]; [by rewrite abs_free by by apply free_bcast|].
  rewrite (monitor_eta a Hal) at 1. eapply spec_picked; [by rewrite <- Ew|done|exact He].
Qed.

(** A broadcast starts: nothing changes for anybody. *)
Lemma sim_signal_all c o : t_at t = SigSection c SignalAll -> signal_section protocol c SignalAll (obj s) t = Some o -> simulated s a i o.
Proof.
  intros Ht. assert (in_callback t = true /\ in_broadcast t = false) as [Hc Hb] by (unfold in_callback, in_broadcast; by rewrite Ht).
  pose proof Hok as Hn. unfold thread_ok in Hn. rewrite Ht in Hn. unfold signal_section. destruct (free (obj s)) eqn:Ef; [|done]. cbn [negb]. pose proof (free_bcast _ Ef) as Eb.
  destruct (any_again _ _) eqn:Eg; intros [= <-]; [by apply sim_stop_signal|]. apply (simulated_none (monitor_spec protocol recursive)).
  set (o' := set_bcast _ _). assert (forall x, abs_sq o' x = abs_sq (obj s) x) as Habs.
  { intros x. rewrite (abs_free (obj s)) by done. unfold abs_sq, bcast_rest. cbn. destruct (Z.eqb_spec x c) as [->|Hne]; [by rewrite upd_eq|]. by rewrite upd_ne, app_nil_r. }
  assert (forall x, same_view (obj s) o' x) as Hv.
  { intros x. split; try done; [intros y; by rewrite Habs|]. unfold is_result. cbn. rewrite Eb. split; done. }
  apply (rel_step (t_id t)); try done.
  - destruct HC as [H1 H2 H3 H4 H5 H6 H7 H8 H9 H10 H11 H12 H13 H14 H15]. split; cbn; try done; [intros x; etransitivity; [apply Habs|apply H4]|]. intros b [= <-]. cbn. by rewrite upd_eq.
  - intros _. apply own_thread.
  - cbn. rewrite Hc. cbn. lia.
  - rewrite Hb. unfold free. cbn. by rewrite Eb.
  - cbn. intros b w [= <-]. cbn. intros Hw. pose proof (any_again_false _ _ Eg w Hw) as Hga. unfold is_again in Hga. by case_bool_decide.
  - apply (thread_ok_ext (obj s)); [done|apply Hv|exact Hn].
Qed.

Lemma at_same : at_pc t (t_at t) = t.
Proof. by destruct t. Qed.

Lemma try_own_bcast id prio o dest o' v : try_own id prio o = (dest, o') -> try_own id prio (set_bcast v o) = (dest, set_bcast v o').
Proof. unfold try_own. cbn. destruct (owner o =? 0); by intros [= <- <-]. Qed.

(** The rest of a broadcast's list shrinks. *)
Lemma core_round b w rest : bcast (obj s) = Some b -> takes_first SYS_SYNC_PRIORITY (b_rest b) w rest ->
  core (set_bcast (Some (Broadcast (b_cond b) rest (b_result b))) (obj s))
    (Monitor (holder a) (depth a) (entry a) (upd (waiting a) (b_cond b) rest) (known a) (alive a)) /\ waiting a (b_cond b) = b_rest b.
Proof.
  intros Eb Hf. pose proof HC as [H1 H2 H3 H4 H5 H6 H7 H8 H9 H10 H11 H12 H13 H14 H15]. destruct (H15 b Eb) as [A B].
  assert (waiting a (b_cond b) = b_rest b) as Ew by (rewrite <- H4; unfold abs_sq, bcast_rest; by rewrite A, Eb, Z.eqb_refl). split; [|done].
  split; cbn; try done.
  - intros x. unfold abs_sq, bcast_rest. cbn. destruct (Z.eqb_spec x (b_cond b)) as [->|Hne]; [by rewrite A, upd_eq|].
    rewrite upd_ne by done. rewrite <- H4. unfold abs_sq, bcast_rest. rewrite Eb. by destruct (Z.eqb_spec x (b_cond b)).
  - intros x. destruct (decide (x = b_cond b)) as [->|Hne]; [|by rewrite upd_ne]. rewrite upd_eq. pose proof (H11 (b_cond b)) as Hwf. rewrite Ew in Hwf.
    apply (takes_first_wf _ _ _ _ _ Hwf Hf).
  - intros x Hx. destruct (decide (x = b_cond b)) as [->|Hne]; [|by rewrite upd_ne; auto]. pose proof (H12 _ Hx) as E. rewrite Ew in E.
    destruct Hf as (Hw & _). rewrite E in Hw. by apply not_elem_of_nil in Hw.
  - intros b' [= <-]. done.
Qed.

Lemma view_round b w rest x : bcast (obj s) = Some b -> takes_first SYS_SYNC_PRIORITY (b_rest b) w rest -> x <> w_id w ->
  same_view (obj s) (set_bcast (Some (Broadcast (b_cond b) rest (b_result b))) (obj s)) x.
Proof.
  intros Eb (_ & -> & _) Hx. split; try done.
  - intros y. unfold abs_sq, bcast_rest. rewrite Eb. cbn. destruct (y =? b_cond b); [|done]. rewrite !map_app, !elem_of_app, without_ids. tauto.
  - unfold is_result. cbn. by rewrite Eb.
Qed.

Lemma view_result b r x o : bcast o = Some b -> b_result b = None -> x <> r -> same_view o (set_bcast (Some (Broadcast (b_cond b) (b_rest b) (Some r))) o) x.
Proof.
  intros Eb Er Hx. split; try done.
  - intros y. unfold abs_sq, bcast_rest. cbn. by rewrite Eb.
  - unfold is_result. cbn. rewrite Eb, Er. split; congruence.
Qed.

(** A thread the broadcast serves is no longer waiting for the condition. *)
Lemma served b w rest : bcast (obj s) = Some b -> takes_first SYS_SYNC_PRIORITY (b_rest b) w rest -> in_cond (obj s) (w_id w) (b_cond b) ->
  let o := set_bcast (Some (Broadcast (b_cond b) rest (b_result b))) (obj s) in nowhere o (w_id w) /\ owner o <> w_id w.
Proof.
  intros Eb (_ & -> & _) (H1 & H2 & H3 & H4 & H5). destruct (c_bcast _ _ HC b Eb) as [A B]. split; [|done]. split_and!; try done.
  - intros y. unfold abs_sq, bcast_rest. cbn. destruct (Z.eqb_spec y (b_cond b)) as [->|Hne].
    + rewrite A, app_nil_l, without_ids. by intros [].
    + pose proof (H3 y Hne) as H. unfold abs_sq, bcast_rest in H. rewrite Eb in H. by destruct (Z.eqb_spec y (b_cond b)).
  - unfold is_result. cbn. intros E. by destruct (B _ E).
Qed.

(** The broadcast is over: who got the mutex wakes up. *)
Lemma sim_all_end b : t_at t = SigAll -> bcast (obj s) = Some b -> b_rest b = [] ->
  let o := set_bcast None (obj s) in
  simulated s a i (done_with (Return CELL_OK) (match b_result b with Some id => wake id o | None => o end) t).
Proof.
  intros Ht Eb En o. assert (in_callback t = true /\ in_broadcast t = true) as [Hc Hb] by (unfold in_callback, in_broadcast; by rewrite Ht).
  pose proof Hok as Hn. unfold thread_ok in Hn. rewrite Ht in Hn. destruct (c_bcast _ _ HC b Eb) as [A B].
  unfold done_with. set (o' := add_reader (-1) _).
  assert (forall x, abs_sq o' x = abs_sq (obj s) x) as Habs.
  { intros x. unfold abs_sq, bcast_rest. rewrite Eb, En. subst o'. destruct (b_result b); cbn; by destruct (x =? b_cond b). }
  assert (forall x, b_result b <> Some x -> same_view (obj s) o' x) as Hv.
  { intros x Hx. subst o'. split; try (by destruct (b_result b)).
    - intros y. by rewrite Habs.
    - destruct (b_result b); cbn; [|done]. rewrite elem_of_app, list_elem_of_singleton. intuition congruence.
    - unfold is_result. rewrite Eb. destruct (b_result b); cbn; split; try done; congruence. }
  assert (b_result b <> Some (t_id t)) as Hnt by (destruct Hn as (_ & _ & _ & Hr); unfold is_result in Hr; by rewrite Eb in Hr).
  eapply simulated_one; [constructor|]. apply (rel_step (match b_result b with Some r => r | None => t_id t end)).
  - eapply (core_same (set_bcast None (obj s))); [|subst o'; by destruct (b_result b)..].
    destruct HC as [H1 H2 H3 H4 H5 H6 H7 H8 H9 H10 H11 H12 H13 H14 H15]. split; try done. intros x. rewrite <- H4, <- Habs. unfold abs_sq, bcast_rest. subst o'. by destruct (b_result b).
  - intros H. assert (sq o' = sq (obj s)) as Eq by (subst o'; by destruct (b_result b)). destruct H as [H|[c H]].
    + apply (p_entry _ _ HP). rewrite <- Eq. exact H.
    + apply (p_waits _ _ HP c). rewrite <- Habs. exact H.
  - intros x Hx1 Hx2. apply Hv. destruct (b_result b); congruence.
  - intros t' Et Hne Hok'. destruct (b_result b) as [r|] eqn:Er; [|done].
    assert (is_result (obj s) (t_id t')) as Hr by (unfold is_result; by rewrite Eb, Et). assert (owner (obj s) = t_id t') as Eo by (rewrite Et; by apply B).
    unfold thread_ok, nowhere, woken, in_entry in Hok' |- *. destruct (t_at t'); try tauto. destruct Hok' as [Hcnt Hok']. split; [done|]. right. right. left.
    destruct Hok' as [(_ & _ & _ & _ & ?)|[?|[?|((A1 & A2 & A3 & A4) & A5 & A6)]]]; [done|tauto..|]. split; [|split].
    + split_and!; try done. intros y. rewrite Habs. apply A2.
    + cbn. rewrite elem_of_app, list_elem_of_singleton. by right.
    + tauto.
  - cbn. rewrite Hc. subst o'. destruct (b_result b); cbn; lia.
  - rewrite Hb. unfold free. rewrite Eb. subst o'. by destruct (b_result b).
  - subst o'. by destruct (b_result b).
  - subst o'. by destruct (b_result b).
  - done.
  - apply (thread_ok_ext (obj s)); [done|by apply Hv|exact Hn].
Qed.

(** The broadcast takes one thread. *)
Lemma sim_all_next b w rest r : t_at t = SigAll -> bcast (obj s) = Some b ->
  schedule (is_again (obj s)) (b_rest b) SYS_SYNC_PRIORITY = (Some w, rest) -> takes_first SYS_SYNC_PRIORITY (b_rest b) w rest ->
  signal_all_round (obj s) t = Some r -> simulated s a i r.
Proof.
  intros Ht Eb Es Hf. assert (in_callback t = true /\ in_broadcast t = true) as [Hc Hb] by (unfold in_callback, in_broadcast; by rewrite Ht).
  pose proof Hok as Hn. unfold thread_ok in Hn. rewrite Ht in Hn. destruct (c_bcast _ _ HC b Eb) as [A B]. pose proof Hf as (Hw & _ & _).
  assert (w ∈ abs_sq (obj s) (b_cond b)) as Hwa by (unfold abs_sq, bcast_rest; rewrite Eb, Z.eqb_refl; apply elem_of_app; by right).
  pose proof (elem_of_ids _ _ Hwa) as Hin. pose proof (p_again _ _ HP b w Eb Hw) as Hga.
  destruct (thread_of _ _ Hin Hga Hn) as (Hne & Hz0 & Hid & Hcond). destruct (core_waits _ _ _ _ HC Hwa) as [Hk Hal].
  destruct (core_round b w rest Eb Hf) as [Hcore Ew]. destruct (served b w rest Eb Hf Hcond) as [Hg1 Hgo]. pose proof (view_round b w rest) as Hv1.
  unfold signal_all_round. rewrite Eb, Es. destruct (try_own (w_id w) (w_prio w) (obj s)) as [dest o2] eqn:E.
  pose proof (try_own_bcast _ _ _ _ _ (Some (Broadcast (b_cond b) rest (b_result b))) E) as E'. rewrite Hal in Hcore. set (o1 := set_bcast _ _) in *. set (a1 := Monitor _ _ _ _ _ _) in Hcore.
  destruct (core_enters _ _ _ _ _ _ Hcore E' Hz0 (proj1 Hg1) eq_refl) as (h' & q' & Hent & Hcore2 & Ho2).
  pose proof (entered _ _ _ _ _ _ Hcore Hg1 Hgo E') as Hen. cbn [holder depth entry waiting known a1] in Hent, Hcore2.
  assert (forall x, x <> w_id w -> same_view (obj s) (set_bcast (Some (Broadcast (b_cond b) rest (b_result b))) o2) x) as Hv.
  { intros x Hx. eapply same_view_trans; [by apply (Hv1 x Eb Hf)|by eapply view_enters]. }
  assert (monitor_spec protocol recursive a (i, Moved (b_cond b) SYS_SYNC_PRIORITY w dest) (Monitor h' (depth a) q' (upd (waiting a) (b_cond b) rest) (known a) true)) as Hspec.
  { rewrite (monitor_eta a Hal) at 1. eapply spec_moved; [by right|by rewrite Ew|done|exact Hent]. }
  assert (exists_ o2 = exists_ (obj s) /\ idm_readers o2 = idm_readers (obj s) /\ again o2 = again (obj s) /\ signaled o2 = signaled (obj s)) as (Ex2 & Er2 & Ea2 & Es2).
  { unfold try_own in E. destruct (owner (obj s) =? 0); by injection E as <- <-. }
  assert (forall w', w' ∈ rest -> w_id w' ∉ again o2) as Hag.
  { intros w' Hw'. rewrite Ea2. destruct Hf as (_ & -> & _). apply without_elem in Hw' as [Hw' _]. by apply (p_again _ _ HP b). }
  destruct dest as [w'|].
  - intros [= <-]. rewrite <- at_same at 1. eapply simulated_one; [exact Hspec|]. apply (rel_moved (w_id w) (b_cond b)); try done.
    + by left.
    + cbn. unfold in_callback; cbn; rewrite Er2; lia.
    + unfold free. cbn. by rewrite Eb.
    + intros b' w'' [= <-]. apply Hag.
  - destruct (b_result b) as [r0|] eqn:Er.
    { destruct (B r0 eq_refl) as [E1 E2]. destruct Ho2 as [E3 _]. cbn in E3. congruence. }
    intros [= <-]. rewrite <- at_same at 1. eapply simulated_one; [exact Hspec|].
    set (o2' := set_bcast (Some (Broadcast (b_cond b) rest None)) o2) in *. destruct Ho2 as [E0 Eo2].
    apply (rel_moved (w_id w) (b_cond b)); try done.
    + destruct Hcore2 as [H1 H2 H3 H4 H5 H6 H7 H8 H9 H10 H11 H12 H13 H14 H15]. split; try done. intros b' [= <-]. cbn. split; [apply (H15 _ eq_refl)|].
      intros r0 [= <-]. split; [|done]. by destruct Hen as (_ & _ & ? & _).
    + intros x Hx. eapply same_view_trans; [by apply Hv|]. exact (view_result (Broadcast (b_cond b) rest None) (w_id w) x o2' eq_refl eq_refl Hx).
    + right. right. destruct Hg1 as (_ & _ & Hns & _). split; [exact Hen|]. split; [done|]. cbn. by rewrite Es2.
    + cbn. unfold in_callback; cbn; rewrite Er2; lia.
    + unfold free. cbn. by rewrite Eb.
    + intros b' w'' [= <-]. apply Hag.
Qed.

Lemma sim_signal_all_round r : t_at t = SigAll -> signal_all_round (obj s) t = Some r -> simulated s a i r.
Proof.
  intros Ht Hr. pose proof Hr as Hr'. unfold signal_all_round in Hr'. destruct (bcast (obj s)) as [b|] eqn:Eb; [|done].
  destruct (decide (b_rest b = [])) as [En|En].
  - rewrite En in Hr'. cbn in Hr'. injection Hr' as <-. by apply sim_all_end.
  - destruct (schedule_unmarked (is_again (obj s)) (order_tag (obj s)) (b_rest b) SYS_SYNC_PRIORITY) as (w & rest & Es & Hf); try done.
    + destruct (c_bcast _ _ HC b Eb) as [A _]. pose proof (c_waits _ _ HC (b_cond b)) as H. rewrite <- (c_wait _ _ HC) in H. unfold abs_sq, bcast_rest in H.
      by rewrite A, Eb, Z.eqb_refl in H.
    + intros w Hw. unfold is_again. apply bool_decide_false. by apply (p_again _ _ HP b).
    + by apply (sim_all_next b w rest).
Qed.

(** *** Creation and destruction *)

(** A change of what exists while nobody is in a callback. *)
Lemma rel_exclusive o' a' : core o' a' -> idm_readers (obj s) = 0 -> idm_readers o' = 0 -> owner o' = owner (obj s) -> sq o' = sq (obj s) ->
  lock_count o' = lock_count (obj s) -> cond_sq o' = cond_sq (obj s) -> bcast o' = bcast (obj s) -> signaled o' = signaled (obj s) ->
  again o' = again (obj s) -> mutex_rel (System o' (<[i := t]> (pcs s))) a'.
Proof.
  intros H1 Er Er' E1 E2 E3 E4 E5 E6 E7. split; [done|]. cbn [obj pcs]. rewrite list_insert_id by done.
  assert (forall c, abs_sq o' c = abs_sq (obj s) c) as Habs by (intros c; unfold abs_sq, bcast_rest; by rewrite E4, E5).
  destruct HP as [G1 G2 G3 G4 G5 G6 G7 G8 G9]. split; try done.
  - congruence.
  - unfold free. by rewrite E5.
  - by rewrite E2.
  - intros c id. rewrite Habs. apply G6.
  - by rewrite E5, E7.
  - intros j t' Hj. pose proof (G9 j t' Hj) as Hok'.
    assert (in_callback t' = false) as Hc.
    { destruct (in_callback t') eqn:Ec; [|done]. pose proof (countb_pos in_callback _ _ _ Hj Ec). lia. }
    assert (thread_ok (set_conds (conds (obj s)) 0 o') t') as H.
    { apply (thread_ok_ext (obj s)); [by eapply G4| |done]. split; cbn; rewrite ?E1, ?E2, ?E3, ?E6, ?E7; try done; [intros c|unfold is_result; by rewrite <- E5].
      rewrite <- Habs. done. }
    unfold in_callback in Hc. unfold thread_ok in *. destruct (t_at t'); first [exact H|done].
Qed.

Lemma length_remove (l : list Z) c : NoDup l -> c ∈ l -> Z.of_nat (length (filter (fun x => x <> c) l)) = Z.of_nat (length l) - 1.
Proof.
  intros Hl Hc. assert (l ≡ₚ c :: filter (fun x => x <> c) l) as H.
  { apply NoDup_Permutation; [done|constructor; [rewrite elem_clear; by intros []|by apply NoDup_filter]|]. intros x. rewrite elem_of_cons, elem_clear.
    destruct (decide (x = c)) as [->|]; tauto. }
  apply Permutation_length in H. cbn in H. lia.
Qed.

Lemma sim_cond_create c r : t_at t = Idle -> cond_create c (obj s) t = Some r -> simulated s a i r.
Proof.
  intros Ht. unfold cond_create, cond_exists. destruct (Z.eqb_spec (idm_readers (obj s)) 0) as [Er|]; [|done]. case_bool_decide as Hk; [done|].
  cbn [negb orb]. destruct (exists_ (obj s)) eqn:Ex; intros [= <-]; [|by apply sim_refused].
  pose proof HC as [H1 H2 H3 H4 H5 H6 H7 H8 H9 H10 H11 H12 H13 H14 H15]. assert (alive a = true) as Hal by congruence.
  eapply simulated_one; [rewrite (monitor_eta a Hal) at 1; constructor; by rewrite <- H5|]. apply rel_exclusive; try done.
  split; cbn; try done.
  - by rewrite H5.
  - rewrite H6. lia.
  - constructor; [by rewrite <- H5|done].
  - intros x Hx. apply H12. set_solver.
Qed.

Lemma sim_cond_destroy c r : t_at t = Idle -> sys_cond_destroy c (obj s) t = Some r -> simulated s a i r.
Proof.
  intros Ht. unfold sys_cond_destroy, cond_exists. destruct (Z.eqb_spec (idm_readers (obj s)) 0) as [Er|]; [|done]. destruct (free (obj s)) eqn:Ef; [|done].
  cbn [negb orb]. case_bool_decide as Hk; [|intros [= <-]; by apply sim_refused]. destruct (cond_sq (obj s) c) eqn:Eq; intros [= <-]; [|by apply sim_refused].
  pose proof (core_known _ _ _ HC Hk) as Hal. pose proof HC as [H1 H2 H3 H4 H5 H6 H7 H8 H9 H10 H11 H12 H13 H14 H15].
  assert (waiting a c = []) as Ew by (rewrite <- H4; by rewrite abs_free by by apply free_bcast).
  eapply simulated_one; [rewrite (monitor_eta a Hal) at 1; constructor; [by rewrite <- H5|done]|]. apply rel_exclusive; try done.
  split; cbn; try done; [by rewrite H5|..|congruence].
  - rewrite H6. rewrite length_remove; [done..|by rewrite <- H5].
  - by apply NoDup_filter.
  - intros x Hx. destruct (decide (x = c)) as [->|]; [done|]. apply H12. intros Hx'. apply Hx. by apply list_elem_of_filter.
Qed.

Lemma sim_mutex_destroy r : t_at t = Idle -> sys_mutex_destroy (obj s) t = Some r -> simulated s a i r.
Proof.
  intros Ht. unfold sys_mutex_destroy. destruct (Z.eqb_spec (idm_readers (obj s)) 0) as [Er|]; [|done]. destruct (free (obj s)) eqn:Ef; [|done].
  cbn [negb orb]. destruct (exists_ (obj s)) eqn:Ex; [|intros [= <-]; by apply sim_refused].
  destruct (Z.eqb_spec (owner (obj s)) 0) as [Eo|]; [|intros [= <-]; by apply sim_refused]. cbn [negb].
  destruct (Z.eqb_spec (cond_count (obj s)) 0) as [Ec|]; intros [= <-]; [|by apply sim_refused].
  assert (alive a = true) as Hal by (by rewrite <- (c_alive _ _ HC)). pose proof (monitor_free _ _ HC Eo Hal) as Em.
  pose proof HC as [H1 H2 H3 H4 H5 H6 H7 H8 H9 H10 H11 H12 H13 H14 H15].
  assert (known a = []) as Ek by (destruct (known a); [done|cbn in H6; lia]). rewrite Ek in Em.
  eapply simulated_one; [rewrite Em at 1; constructor|]. apply rel_exclusive; try done. rewrite Em in *. by split.
Qed.
End Steps.

(** Every step refines the monitor, as long as no mutex is handed to a thread
    that is being saved. *)
Lemma mutex_step s a i act t r : mutex_rel s a -> pcs s !! i = Some t ->
  restrict not_saved (mutex_tstep protocol recursive thread_exists) act (obj s) t = Some r -> simulated s a i r.
Proof.
  intros HR Hi. unfold restrict. destruct (mutex_tstep _ _ _ _ _ _) as [r0|] eqn:E; [|done]. cbn [mbind option_bind].
  destruct (forallb not_saved r0.1.1) eqn:Ef; [|done]. intros [= <-]. revert E. unfold mutex_tstep.
  destruct (t_at t) eqn:Ht, act; try done; try (destruct timed; try done).
  all: try (intros [= <-]).
  all: try match goal with |- _ = Some _ -> _ => intros Hs end.
  all: try by eauto using sim_lock_begin, sim_trylock_begin, sim_unlock_begin, sim_mutex_destroy, sim_cond_begin, sim_cond_create, sim_cond_destroy,
    sim_lock_cas, sim_lock_own, sim_lock_spin, sim_lock_sleep, sim_wait_signal, sim_wait_timeout, sim_wait_stopped, sim_trylock_cas, sim_unlock_cas.
  all: try by eauto using sim_unlock_slow, sim_cond_enter, sim_cond_signal, sim_cond_timeout, sim_cond_stopped, sim_signal_start, sim_signal_empty,
    sim_signal_retry, sim_signal_all_round.
  - pose proof (p_ok _ _ (proj2 HR) i t Hi) as Hn. unfold thread_ok in Hn. rewrite Ht in Hn.
    apply sim_local0; try done; unfold in_callback, in_broadcast; by rewrite Ht.
  - pose proof (p_ok _ _ (proj2 HR) i t Hi) as Hn. unfold thread_ok in Hn. rewrite Ht in Hn.
    apply sim_stop; try done; [unfold in_callback; by rewrite Ht|unfold in_broadcast; by rewrite Ht|apply Hn|].
    intros c0. by eapply nowhere_broadcast.
  - destruct kind; eauto using sim_signal_one, sim_signal_all, sim_signal_to.
Qed.
End Refinement.

Lemma mutex_rel_start ts : NoDup (map fst ts) -> Forall (fun id => id <> 0) (map fst ts) ->
  mutex_rel (mutex_initial ts) (Monitor 0 0 [] (fun _ => []) [] true).
Proof.
  intros Hnd Hz. assert (map t_id (pcs (mutex_initial ts)) = map fst ts) as Hids.
  { cbn. rewrite map_map. apply map_ext. by intros []. }
  split.
  - split; try done; cbn; try intros c; repeat constructor.
  - assert (forall i t, pcs (mutex_initial ts) !! i = Some t -> t_at t = Idle) as Hidle.
    { intros i t Hi. cbn in Hi. change (map _ ts) with ((fun '(id, prio) => MutexThread id prio Idle) <$> ts) in Hi.
      rewrite list_lookup_fmap in Hi. destruct (ts !! i) as [[id prio]|]; [|done]. by injection Hi as <-. }
    split; rewrite ?Hids; try done.
    + cbn. clear. induction ts as [|[id prio] ts IH]; [done|exact IH].
    + cbn. clear. induction ts as [|[id prio] ts IH]; [done|exact IH].
    + intros i t Hi. rewrite Forall_forall in Hz. apply Hz. rewrite <- Hids. apply list_elem_of_fmap. exists t. split; [done|by eapply list_elem_of_lookup_2].
    + intros id Hid. by apply not_elem_of_nil in Hid.
    + intros c id Hid. by apply not_elem_of_nil in Hid.
    + intros i t Hi. unfold thread_ok. rewrite (Hidle i t Hi). split_and!; try apply not_elem_of_nil; [intros c; apply not_elem_of_nil|by intros []].
Qed.

(** A thread asleep in a call is waiting in the monitor, or holds it and is
    about to see that. *)
Definition accounted (a : monitor) (o : lv2_mutex) (t : mutex_thread) : Prop :=
  match t_at t with
  | Waiting _ => t_id t ∈ map w_id (entry a) \/ (holder a = t_id t /\ t_id t ∈ signaled o)
  | CondWaiting c _ _ _ => t_id t ∈ map w_id (waiting a c) \/ t_id t ∈ map w_id (entry a) \/
      (holder a = t_id t /\ (t_id t ∈ signaled o \/ bcast o <> None))
  | _ => True
  end.

(** ** What a waiting thread keeps *)

(** What thread [t] keeps, by where it is. *)
Definition kept (t : mutex_thread) : option (Z * Z) :=
  match t_at t with CondWaiting _ n _ code => Some (n, code) | _ => None end.

Definition saved_spec (sv : Z -> option (Z * Z)) (e : nat * mutex_event) (sv' : Z -> option (Z * Z)) : Prop := saved_step sv e.2 = Some sv'.

Definition saved_rel (s : @system lv2_mutex mutex_thread) (sv : Z -> option (Z * Z)) : Prop :=
  NoDup (map t_id (pcs s)) /\ forall i t, pcs s !! i = Some t -> t_at t = Stopped \/ sv (t_id t) = kept t.

Definition no_failure (e : mutex_event) : bool := match e with AssertFailed => false | _ => true end.

Fixpoint saved_steps (sv : Z -> option (Z * Z)) (es : list mutex_event) : option (Z -> option (Z * Z)) :=
  match es with
  | [] => Some sv
  | e :: es => match saved_step sv e with Some sv => saved_steps sv es | None => None end
  end.

(** A step of [t] that fails no [ensure] changes what [t] keeps, and nothing
    that another thread keeps. *)
Definition keeps (t : mutex_thread) (r : list mutex_event * lv2_mutex * mutex_thread) : Prop :=
  t_id r.2 = t_id t /\
  forall sv, sv (t_id t) = kept t -> forallb no_failure r.1.1 = true -> exists sv',
    saved_steps sv r.1.1 = Some sv' /\ (t_at r.2 = Stopped \/ sv' (t_id t) = kept r.2) /\ forall x, x <> t_id t -> sv' x = sv x.

Lemma keeps_plain t es o' t' : (forall sv, saved_steps sv es = Some sv) -> t_id t' = t_id t ->
  t_at t' = Stopped \/ kept t' = kept t -> keeps t (es, o', t').
Proof. intros He Hid Hk. split; [done|]. intros sv Hsv _. exists sv. split; [apply He|]. split; [|done]. cbn [fst snd]. rewrite Hsv. intuition congruence. Qed.

Lemma keeps_failed t es o' t' : t_id t' = t_id t -> forallb no_failure es = false -> keeps t (es, o', t').
Proof. intros Hid Hf. split; [done|]. intros sv _. cbn. by rewrite Hf. Qed.

Lemma keeps_upd t es o' t' : t_id t' = t_id t ->
  (forall sv, sv (t_id t) = kept t -> exists sv0, saved_steps sv es = Some (upd sv0 (t_id t) (kept t')) /\ forall x, x <> t_id t -> sv0 x = sv x) ->
  keeps t (es, o', t').
Proof.
  intros Hid He. split; [done|]. intros sv Hsv _. destruct (He sv Hsv) as (sv0 & E & Hx). eexists. split; [exact E|]. cbn [fst snd].
  split; [right; by rewrite upd_eq|]. intros x Hne. rewrite upd_ne by done. by apply Hx.
Qed.

(** The end of a wait, and a timeout before it. *)
Lemma keeps_finish c n timed code o t : t_at t = CondWaiting c n timed code -> keeps t (cond_finish n code o t).
Proof.
  intros Ht. unfold cond_finish. destruct (owner o =? t_id t); [|by apply keeps_failed]. apply keeps_upd; [done|]. intros sv Hsv. exists sv.
  unfold kept in Hsv. rewrite Ht in Hsv. cbn. by rewrite bool_decide_true.
Qed.

Lemma keeps_timeout c n timed code o t r : t_at t = CondWaiting c n timed code -> cond_timeout c n code o t = Some r -> keeps t r.
Proof.
  intros Ht. unfold cond_timeout. destruct (negb (free o)); [done|]. destruct (unqueue _ _) as [[] q].
  - destruct (try_own _ _ _) as [[w|] o'].
    + intros [= <-]. apply keeps_upd; [done|]. intros sv Hsv. exists sv. unfold kept in Hsv. rewrite Ht in Hsv. cbn. by rewrite Hsv.
    + unfold cond_finish. destruct (owner o' =? t_id t); intros [= <-]; [|by apply keeps_failed].
      apply keeps_upd; [done|]. intros sv Hsv. exists (upd sv (t_id t) (Some (n, CELL_ETIMEDOUT))). unfold kept in Hsv. rewrite Ht in Hsv. cbn. rewrite Hsv. cbn.
      rewrite bool_decide_true by apply upd_eq. split; [done|]. intros x Hx. by rewrite upd_ne.
  - destruct (owner o =? t_id t); intros [= <-]; [by eapply keeps_finish|]. apply keeps_plain; [done..|]. right. unfold kept. by rewrite Ht.
Qed.

Lemma keeps_enter protocol c timed o t r : t_at t = CondEnter c timed -> cond_enter protocol c timed o t = Some r -> keeps t r.
Proof.
  intros Ht. unfold cond_enter. destruct (negb (free o)); [done|]. destruct (reown protocol _) as [[w|] o']; [destruct (is_again _ _); [destruct (unqueue _ _) as [[] q]|]|];
    intros [= <-]; [apply keeps_plain; auto|by apply keeps_failed|..].
  all: apply keeps_upd; [done|]; intros sv Hsv; exists sv; unfold kept in Hsv; rewrite Ht in Hsv; cbn; by rewrite Hsv.
Qed.

(** Every other step keeps no count, before and after. *)
#[local] Ltac plain_step Ht := first
  [ by apply keeps_failed
  | apply keeps_plain; [done|done|first [by left|right; unfold kept; cbn; by rewrite ?Ht]] ].
#[local] Ltac plain_cases Ht := repeat case_match; intros; simplify_eq; plain_step Ht.

Lemma tstep_keeps protocol recursive thread_exists act o t r :
  mutex_tstep protocol recursive thread_exists act o t = Some r -> keeps t r.
Proof.
  unfold mutex_tstep. destruct (t_at t) eqn:Ht, act; try done; try (destruct timed; try done).
  all: try (intros [= <-]).
  all: try match goal with |- _ = Some _ -> _ => intros Hs end.
  all: eauto using keeps_enter, keeps_timeout.
  all: try (revert Hs; unfold cond_signal, cond_stopped; repeat case_match; intros; simplify_eq; first [by eapply keeps_finish|plain_step Ht]).
  all: try (unfold lock_begin, lock_try, lock_cas, lock_own, lock_sleep, trylock_begin, trylock_cas, unlock_begin, unlock_cas, cond_begin,
    signal_start, stop, done_with; plain_cases Ht).
  all: revert Hs; unfold sys_mutex_destroy, cond_create, sys_cond_destroy, lock_spin, lock_try, wait_signal, wait_stopped, wait_timeout, unlock_slow,
    signal_retry, signal_section, requeue, signal_empty, signal_all_round, stop, stop_signal, done_with; plain_cases Ht.
Qed.

(** The saved counts follow every run in which no [ensure] fails. *)
Lemma saved_run protocol recursive thread_exists s sv sch es s' : saved_rel s sv ->
  run_schedule (mutex_tstep protocol recursive thread_exists) s sch = Some (es, s') -> forallb (fun e => no_failure e.2) es = true ->
  exists sv', spec_run saved_spec sv es sv' /\ saved_rel s' sv'.
Proof.
  intros HR H Hf. apply (run_restrict no_failure) in H; [|done]. revert HR H. apply simulated_refines.
  clear. intros s sv i act t r [Hnd HR] Hi. unfold restrict. destruct (mutex_tstep _ _ _ _ _ _) as [r0|] eqn:E; [|done]. cbn [mbind option_bind].
  destruct (forallb no_failure r0.1.1) eqn:Ef; [|done]. intros [= <-]. pose proof (tstep_keeps _ _ _ _ _ _ _ E) as [Hid Hk].
  destruct (HR i t Hi) as [Hst|Hsv].
  { unfold mutex_tstep in E. rewrite Hst in E. by destruct act. }
  destruct (Hk sv Hsv Ef) as (sv' & Es & Hnew & Hold). exists sv'. split.
  - clear -Es. revert sv Es. induction (r0.1.1) as [|e es IH]; intros sv; cbn; [intros [= <-]; constructor|].
    destruct (saved_step sv e) as [sv1|] eqn:E1; [|done]. intros Es. econstructor; [exact E1|by apply IH].
  - split; cbn [pcs]; [by rewrite (map_insert_same t_id _ i t)|]. apply threads_insert; [|by rewrite Hid]. intros j t' Hj Hne.
    rewrite Hold; [by apply (HR j)|]. by eapply map_nodup_differ.
Qed.

(** The events of the monitor are no failures. *)
Lemma monitor_no_failure protocol recursive a es a' : spec_run (monitor_spec protocol recursive) a es a' -> forallb (fun e => no_failure e.2) es = true.
Proof. induction 1 as [|q e q1 es q2 H _ IH]; [done|]. cbn. rewrite IH. by destruct H. Qed.

Lemma saved_rel_start ts : NoDup (map fst ts) -> saved_rel (mutex_initial ts) (fun _ => None).
Proof.
  intros Hnd. split; cbn [pcs mutex_initial].
  - rewrite map_map. erewrite map_ext; [exact Hnd|]. by intros [].
  - intros i t Hi. right. change (map _ ts) with ((fun '(id, prio) => MutexThread id prio Idle) <$> ts) in Hi.
    rewrite list_lookup_fmap in Hi. destruct (ts !! i) as [[id prio]|]; [|done]. by injection Hi as <-.
Qed.

(** C6: every interleaving of calls of any number of threads on a mutex and its
    condition variables, in which the mutex is not handed to a thread that is
    being saved, refines the abstract monitor: one holder at a time, the mutex
    passes to the first waiting thread in the order of the protocol, a thread
    signalled on a condition enters the mutex or its queue, a thread that
    leaves [sys_cond_wait] holds the mutex exactly as often as when it entered
    (the [depth] it gave up is the one that is restored) and returns
    [CELL_ETIMEDOUT] exactly when it timed out, no [ensure] fails and no
    wake-up is lost. *)
Theorem mutex_monitor_refines protocol recursive thread_exists ts sch es s :
  NoDup (map fst ts) -> Forall (fun id => id <> 0) (map fst ts) ->
  mutex_run protocol recursive thread_exists ts sch = Some (es, s) -> forallb (fun e => not_saved e.2) es = true ->
  exists a sv, spec_run (mutex_spec protocol recursive) (Monitor 0 0 [] (fun _ => []) [] true, fun _ => None) es (a, sv) /\
    owner (obj s) = holder a /\ lock_count (obj s) = depth a /\ sq (obj s) = entry a /\ conds (obj s) = known a /\ exists_ (obj s) = alive a /\
    (forall i t, pcs s !! i = Some t -> accounted a (obj s) t).
Proof.
  intros Hnd Hz H Hf.
  destruct (simulated_refines (restrict not_saved (mutex_tstep protocol recursive thread_exists)) (monitor_spec protocol recursive) mutex_rel (mutex_initial ts)
    (Monitor 0 0 [] (fun _ => []) [] true) sch es s) as (a & Ha & HC & HP); [|by apply mutex_rel_start|by apply run_restrict|].
  { intros s0 a0 i act t r HR Hi Hs. by apply (mutex_step protocol recursive thread_exists s0 a0 i act t r). }
  destruct (saved_run protocol recursive thread_exists (mutex_initial ts) (fun _ => None) sch es s) as (sv & Hsv & _);
    [by apply saved_rel_start|exact H|by eapply monitor_no_failure|].
  exists a, sv. split; [by apply (spec_run_both _ _ _ _ _ _ _ Ha Hsv)|]. pose proof HC as [H1 H2 H3 H4 H5 H6 H7 H8 H9 H10 H11 H12 H13 H14 H15]. split_and!; try done.
  intros i t Hi. pose proof (p_ok _ _ HP i t Hi) as Hok. unfold thread_ok in Hok. unfold accounted. destruct (t_at t); try done; rewrite <- H1, <- H3.
  - destruct Hok as [(? & _)|((_ & _ & ? & _) & ? & _)]; auto.
  - rewrite <- H4. destruct Hok as [_ [(_ & ? & _)|[(? & _)|[((_ & _ & ? & _) & ? & _)|((_ & _ & ? & _) & Hr & _)]]]]; auto 6.
    right. right. split; [done|]. right. unfold is_result in Hr. by destruct (bcast (obj s)).
Qed.

(** Threads 1 and 2 wait for condition 7, thread 1 having locked twice; thread
    3 broadcasts while thread 4 waits for the mutex, which then passes to 4, 2
    and 1. *)
Definition mutex_threads : list (Z * Z) := [(1, 1001); (2, 1000); (3, 1002); (4, 999)].

Definition mutex_demo : list (nat * mutex_action) :=
  [(0%nat, ACondCreate 7); (0%nat, ALock false); (0%nat, AGo); (0%nat, ALock false); (0%nat, ACondWait 7 true); (0%nat, AGo);
   (1%nat, ATryLock); (1%nat, AGo); (1%nat, ACondWait 7 false); (1%nat, AGo);
   (2%nat, ALock false); (2%nat, AGo); (3%nat, ALock true); (3%nat, AGo); (3%nat, AGo);
   (2%nat, ASignal 7 SignalAll); (2%nat, AGo); (2%nat, AGo); (2%nat, AGo); (2%nat, AGo); (2%nat, AGo);
   (2%nat, AUnlock); (2%nat, AGo); (3%nat, ATimeout); (3%nat, AUnlock); (3%nat, AGo);
   (1%nat, AGo); (1%nat, AUnlock); (1%nat, AGo); (0%nat, AGo)].

Definition mutex_demo_events : list mutex_event :=
  [CondCreated 7; Locked 1; Relocked 1; CondWaited 1 7 1 (Waiter 1 1001 1) None; Locked 2; CondWaited 2 7 0 (Waiter 2 1000 2) None;
   Locked 3; Queued (Waiter 4 999 3); Moved 7 SYS_SYNC_PRIORITY (Waiter 2 1000 2) (Some (Waiter 2 1000 4));
   Moved 7 SYS_SYNC_PRIORITY (Waiter 1 1001 1) (Some (Waiter 1 1001 5)); Return CELL_OK; Released 3 (Some (Waiter 4 999 3)); Return CELL_OK;
   Released 4 (Some (Waiter 2 1000 4)); Restored 2 0 CELL_OK; Released 2 (Some (Waiter 1 1001 5)); Restored 1 1 CELL_OK].

Lemma mutex_monitor_refines_witness :
  exists es s, mutex_run SYS_SYNC_PRIORITY SYS_SYNC_RECURSIVE (fun _ => true) mutex_threads mutex_demo = Some (es, s) /\
    map snd es = mutex_demo_events /\
    exists a sv, spec_run (mutex_spec SYS_SYNC_PRIORITY SYS_SYNC_RECURSIVE) (Monitor 0 0 [] (fun _ => []) [] true, fun _ => None) es (a, sv) /\ holder a = 1 /\ depth a = 1.
Proof.
  destruct (run_view (mutex_run SYS_SYNC_PRIORITY SYS_SYNC_RECURSIVE (fun _ => true) mutex_threads mutex_demo)
    (fun r => (map snd r.1, forallb (fun e => not_saved e.2) r.1, owner (obj r.2), lock_count (obj r.2))) (mutex_demo_events, true, 1, 1))
    as ([es s] & E & V); [vm_compute; reflexivity|].
  cbn [fst snd] in V. injection V as He Hf Ho Hc. exists es, s. split; [exact E|]. split; [exact He|].
  assert (NoDup (map fst mutex_threads)) as Hnd by (refine (bool_decide_unpack _ _); vm_compute; exact I).
  assert (Forall (fun id => id <> 0) (map fst mutex_threads)) as Hz by (repeat constructor; discriminate).
  destruct (mutex_monitor_refines SYS_SYNC_PRIORITY SYS_SYNC_RECURSIVE (fun _ => true) mutex_threads mutex_demo es s Hnd Hz E Hf) as (a & sv & Ha & H1 & H2 & _).
  exists a, sv. split; [exact Ha|]. rewrite <- H1, <- H2. by split.
Defined.

(** What the theorem leaves out: [reown] makes a thread that is being saved the
    owner although it stays queued, and the call that unlocks is to be
    repeated, by a thread that is no longer the owner. *)
Lemma handed_to_saved_thread :
  (fun r => (map snd r.1, owner (obj r.2), sq (obj r.2), t_at <$> pcs r.2)) <$>
    mutex_run SYS_SYNC_PRIORITY SYS_SYNC_RECURSIVE (fun _ => true) [(1, 1001); (2, 1000)]
      [(0%nat, ALock false); (0%nat, AGo); (1%nat, ALock false); (1%nat, AGo); (1%nat, AGo); (1%nat, AStop); (0%nat, AUnlock); (0%nat, AGo)] =
    Some ([Locked 1; Queued (Waiter 2 1000 1); Return 0; HandedStopped], 2, [Waiter 2 1000 1], [Stopped; Stopped]).
Proof. vm_compute. reflexivity. Qed.
