(* ===== verification/FileStream.v ===== *)
(** * Files over a byte container

    [fs::container_stream] and the typed reads and writes of [fs::file]
    ([rpcs3/util/File.h]): a sequence of bytes with a position that may lie
    behind its end.  Bytes are numbers from 0 to 255.  An overflow of the
    64-bit size of a container ends the program in the source and does not
    happen here. *)
From S2P Require Import Prelude.

Record stream := Stream { obj : list Z; pos : Z }.

Definition size (s : stream) : Z := Z.of_nat (length (obj s)).

(** [std::vector::resize]. *)
Definition resize (length_ : Z) (l : list Z) : list Z :=
  take (Z.to_nat length_) l ++ replicate (Z.to_nat (length_ - Z.of_nat (length l))) 0.

(** [container_stream::trunc]; the position stays. *)
Definition trunc (length_ : Z) (s : stream) : stream := Stream (resize length_ (obj s)) (pos s).

(** [container_stream::read]: the bytes it copies. *)
Definition read (n : Z) (s : stream) : list Z * stream :=
  if pos s <? size s then
    let max := Z.min n (size s - pos s) in
    (take (Z.to_nat max) (drop (Z.to_nat (pos s)) (obj s)), Stream (obj s) (pos s + max))
  else ([], s).

(** [container_stream::write]. *)
Definition write (src : list Z) (s : stream) : stream :=
  let obj := if size s <? pos s then resize (pos s) (obj s) else obj s in
  let at_ := Z.to_nat (pos s) in
  let overlap := Nat.min (length obj - at_) (length src) in
  Stream (take at_ obj ++ take overlap src ++ drop (at_ + overlap) obj ++ drop overlap src) (pos s + Z.of_nat (length src)).

(** [container_stream::seek]: the new position, or -1. *)
Inductive seek_mode := seek_set | seek_cur | seek_end.

Definition seek (offset : Z) (whence : seek_mode) (s : stream) : Z * stream :=
  let new_pos := s64 (match whence with seek_set => offset | seek_cur => offset + pos s | seek_end => offset + size s end) in
  if new_pos <? 0 then (u64 (-1), s) else (new_pos, Stream (obj s) new_pos).

(** [fs::file::strict_read_check]. *)
Definition strict_read_check (offset size_ type_size : Z) (s : stream) : bool :=
  negb ((if size s <=? offset then 0 else size s - offset) / type_size <? size_).

(** [fs::file::read] of [size_] elements: all of them or failure. *)
Definition file_read (size_ type_size : Z) (s : stream) : option (list Z) * stream :=
  if (0x100000 / type_size <=? size_) && negb (strict_read_check (pos s) size_ type_size s) then (None, s)
  else
    let '(bytes, s) := read (size_ * type_size) s in
    (if Z.of_nat (length bytes) =? size_ * type_size then Some bytes else None, s).

(** [fs::file::read] of one value. *)
Definition file_read_pod (type_size : Z) (s : stream) : option (list Z) * stream :=
  let '(bytes, s) := read type_size s in (if Z.of_nat (length bytes) =? type_size then Some bytes else None, s).

(** ** Little-endian fields *)

Fixpoint le_store (n : nat) (v : Z) : list Z :=
  match n with O => [] | S n => u8 v :: le_store n (Z.shiftr v 8) end.

Fixpoint le_load (l : list Z) : Z :=
  match l with [] => 0 | b :: l => b + 2 ^ 8 * le_load l end.

(** The field of [n] bytes at [off] of a structure. *)
Definition field (off n : nat) (l : list Z) : Z := le_load (take n (drop off l)).

(** ** Lemmas *)

Lemma length_le_store n v : length (le_store n v) = n.
Proof. revert v. induction n as [|n IH]; intros v; cbn; [done|]. by rewrite IH. Qed.

Lemma le_load_store n v : le_load (le_store n v) = wrap (8 * Z.of_nat n) v.
Proof.
  revert v. induction n as [|n IH]; intros v; cbn [le_store le_load].
  - unfold wrap. by rewrite Z.mod_1_r.
  - rewrite IH. unfold wrap. rewrite Z.shiftr_div_pow2 by lia. replace (8 * Z.of_nat (S n)) with (8 + 8 * Z.of_nat n) by lia.
    rewrite Z.pow_add_r, Z.rem_mul_r by lia. done.
Qed.

Lemma field_here n v l : field 0 n (le_store n v ++ l) = wrap (8 * Z.of_nat n) v.
Proof. unfold field. rewrite drop_0. rewrite <- (length_le_store n v) at 1. by rewrite take_app_length, le_load_store. Qed.

Lemma field_skip off n m v l : field (m + off) n (le_store m v ++ l) = field off n l.
Proof.
  unfold field. f_equal. f_equal. rewrite <- (length_le_store m v) at 1. rewrite <- drop_drop. by rewrite drop_app_length.
Qed.

(** Reading inside the container. *)
Lemma read_inside n s : 0 <= n -> 0 <= pos s -> pos s + n <= size s ->
  read n s = (take (Z.to_nat n) (drop (Z.to_nat (pos s)) (obj s)), Stream (obj s) (pos s + n)).
Proof.
  intros Hn Hp Hs. unfold read. destruct (Z.ltb_spec (pos s) (size s)).
  - by rewrite Z.min_l by lia.
  - replace n with 0 by lia. rewrite take_0, Z.add_0_r. by destruct s.
Qed.

Lemma read_length n s : 0 <= n -> 0 <= pos s -> pos s + n <= size s -> Z.of_nat (length (read n s).1) = n.
Proof. intros Hn Hp Hs. rewrite read_inside by done. cbn. rewrite length_take, length_drop. unfold size in Hs. lia. Qed.

Lemma file_read_inside n k s : 0 <= n -> 0 < k -> 0 <= pos s -> pos s + n * k <= size s ->
  file_read n k s = (Some (take (Z.to_nat (n * k)) (drop (Z.to_nat (pos s)) (obj s))), Stream (obj s) (pos s + n * k)).
Proof.
  intros Hn Hk Hp Hs. unfold file_read.
  assert (strict_read_check (pos s) n k s = true) as ->.
  { unfold strict_read_check. apply negb_true_iff, Z.ltb_ge. destruct (Z.leb_spec (size s) (pos s)); [|apply Z.div_le_lower_bound; lia].
    assert (n = 0) as -> by nia. by rewrite Z.div_0_l by lia. }
  rewrite andb_false_r. pose proof (read_length (n * k) s ltac:(nia) Hp Hs) as Hl. rewrite read_inside in * by nia. cbn in Hl. rewrite Hl, Z.eqb_refl. done.
Qed.

Lemma file_read_pod_inside k s : 0 <= k -> 0 <= pos s -> pos s + k <= size s ->
  file_read_pod k s = (Some (take (Z.to_nat k) (drop (Z.to_nat (pos s)) (obj s))), Stream (obj s) (pos s + k)).
Proof.
  intros Hk Hp Hs. unfold file_read_pod. pose proof (read_length k s Hk Hp Hs) as Hl. rewrite read_inside in * by done. cbn in Hl. by rewrite Hl, Z.eqb_refl.
Qed.

(** A position inside the range of a signed offset. *)
Lemma seek_to off s : 0 <= off < 2 ^ 63 -> seek off seek_set s = (off, Stream (obj s) off).
Proof.
  intros Ho. unfold seek. rewrite sext_small by lia. by destruct (Z.ltb_spec off 0); [lia|].
Qed.

Lemma seek_by off s : 0 <= off + pos s < 2 ^ 63 -> seek off seek_cur s = (off + pos s, Stream (obj s) (off + pos s)).
Proof.
  intros Ho. unfold seek. rewrite sext_small by lia. by destruct (Z.ltb_spec (off + pos s) 0); [lia|].
Qed.

(** What has been written up to the position. *)
Definition written (s : stream) (w : list Z) : Prop := pos s = Z.of_nat (length w) /\ exists rest, obj s = w ++ rest.

Lemma write_written s w src : written s w -> written (write src s) (w ++ src).
Proof.
  intros [Hp [rest Ho]]. unfold write, written, size. rewrite Ho, Hp, length_app.
  destruct (Z.ltb_spec (Z.of_nat (length w + length rest)) (Z.of_nat (length w))); [lia|]. rewrite Nat2Z.id, length_app. cbn [obj pos].
  split; [rewrite length_app; lia|]. replace (length w + length rest - length w)%nat with (length rest) by lia.
  rewrite take_app_length. destruct (Nat.le_ge_cases (length rest) (length src)) as [H'|H'].
  - rewrite Nat.min_l by done. rewrite (drop_ge (w ++ rest)) by (rewrite length_app; lia). exists []. by rewrite app_nil_r, app_nil_l, take_drop.
  - rewrite Nat.min_r by done. rewrite (take_ge src) by done. rewrite (drop_ge src) by done. rewrite app_nil_r, drop_app_add. eexists. by rewrite <- app_assoc.
Qed.

(** [trunc(seek(n))]: exactly [n] bytes, zeros where there were none. *)
Lemma trunc_written s w n : written s w -> Z.of_nat (length w) <= n ->
  exists pad, obj (trunc n s) = w ++ pad /\ Z.of_nat (length pad) = n - Z.of_nat (length w).
Proof.
  intros [Hp [rest Ho]] Hn. unfold trunc, resize. cbn. rewrite Ho. rewrite take_app. rewrite (take_ge w) by lia.
  eexists. split; [by rewrite <- app_assoc|]. rewrite length_app, length_take, length_replicate, length_app. lia.
Qed.

Lemma trunc_exact s n : Z.of_nat (length (obj s)) <= n -> obj (trunc n s) = obj s ++ replicate (Z.to_nat (n - size s)) 0.
Proof. intros Hn. unfold trunc, resize, size. cbn. by rewrite take_ge by lia. Qed.
