(* ===== verification/Psf.v ===== *)
(** * PARAM.SFO files

    [rpcs3/Loader/PSF.h] and [PSF.cpp]: a registry of named entries (text,
    bytes or a number), its binary format, and the loader that checks it.  A
    registry is the list of its entries in the order of the keys, which is the
    order of [std::map].  A failed [ensure] ends the program: the operation
    has no result.  Logging is left out. *)
From Stdlib Require Import String Ascii.
From S2P Require Import Prelude FileStream.

#[local] Close Scope string_scope.

(** The bytes of a literal. *)
Definition chars (s : string) : list Z := map (fun c => Z.of_N (N_of_ascii c)) (list_ascii_of_string s).

(** ** Entries *)

Module format.
Definition array : Z := 0x0004.
Definition string : Z := 0x0204.
Definition integer : Z := 0x0404.
End format.

Inductive error := ok | stream_missing | not_psf | corrupt.

Record entry := Entry { m_type : Z; m_max_size : Z; m_value_integer : Z; m_value_string : list Z }.

Definition is_text (type : Z) : bool := (type =? format.string) || (type =? format.array).

(** The largest size of the value, with or without the terminator. *)
Definition max (with_nts : bool) (e : entry) : Z :=
  u32 (m_max_size e - (if negb with_nts && (m_type e =? format.string) then 1 else 0)).

(** The constructor of text and byte entries. *)
Definition make_entry (type max_size : Z) (value : list Z) (allow_truncate : bool) : option entry :=
  if negb (is_text type) then None
  else if negb (max_size >? (if type =? format.string then 1 else 0)) then None
  else
    let e := Entry type max_size 0 value in
    Some (if allow_truncate && (Z.of_nat (length value) >? max false e) then Entry type max_size 0 (resize (max false e) value) else e).

(** The constructor of number entries. *)
Definition make_integer (value : Z) : entry := Entry format.integer 4 value [].

Definition as_string (e : entry) : option (list Z) := if is_text (m_type e) then Some (m_value_string e) else None.
Definition as_integer (e : entry) : option Z := if m_type e =? format.integer then Some (m_value_integer e) else None.

(** [operator=]. *)
Definition set_string (value : list Z) (e : entry) : option entry :=
  if is_text (m_type e) then Some (Entry (m_type e) (m_max_size e) (m_value_integer e) value) else None.
Definition set_integer (value : Z) (e : entry) : option entry :=
  if m_type e =? format.integer then Some (Entry (m_type e) (m_max_size e) value (m_value_string e)) else None.

(** [narrow<u32>]. *)
Definition narrow_u32 (x : Z) : option Z := if x <? 2 ^ 32 then Some x else None.

Definition entry_size (e : entry) : option Z :=
  if is_text (m_type e) then
    n ← narrow_u32 (Z.of_nat (length (m_value_string e)) + (if m_type e =? format.string then 1 else 0));
    Some (Z.min (m_max_size e) n)
  else if m_type e =? format.integer then Some 4 else None.

Definition is_valid (e : entry) : option bool :=
  if is_text (m_type e) then Some (Z.of_nat (length (m_value_string e)) <=? max false e)
  else if m_type e =? format.integer then Some true else None.

(** [psf::string], also from a character array, and [psf::array]. *)
Definition string_entry (max_size : Z) (value : list Z) (allow_truncate : bool) : option entry :=
  make_entry format.string max_size value allow_truncate.

(** The bytes of a character array or buffer up to the first terminator. *)
Fixpoint c_str (l : list Z) : list Z :=
  match l with [] => [] | b :: l => if b =? 0 then [] else b :: c_str l end.

Definition string_from_array (max_size : Z) (value_array : list Z) (allow_truncate : bool) : option entry :=
  string_entry max_size (c_str value_array) allow_truncate.

Definition array_entry (max_size : Z) (value : list Z) : option entry := make_entry format.array max_size value false.

(** ** The registry *)

(** [std::less] of strings. *)
Fixpoint key_ltb (a b : list Z) : bool :=
  match a, b with
  | _, [] => false
  | [], _ :: _ => true
  | x :: a, y :: b => if x <? y then true else if y <? x then false else key_ltb a b
  end.

Definition registry := list (list Z * entry).

Definition find (psf : registry) (key : list Z) : option entry := snd <$> List.find (fun e => bool_decide (e.1 = key)) psf.

Fixpoint emplace (psf : registry) (key : list Z) (e : entry) : registry :=
  match psf with
  | [] => [(key, e)]
  | (k, x) :: psf' => if key_ltb key k then (key, e) :: psf else if key_ltb k key then (k, x) :: emplace psf' key e else psf
  end.

(** [assign]. *)
Definition assign (psf : registry) (key : list Z) (e : entry) : registry :=
  match find psf key with
  | None => emplace psf key e
  | Some _ => map (fun x => if bool_decide (x.1 = key) then (x.1, e) else x) psf
  end.

Definition get_string (psf : registry) (key def : list Z) : list Z :=
  match find psf key with
  | None => def
  | Some e => default def (as_string e)
  end.

Definition get_integer (psf : registry) (key : list Z) (def : Z) : Z :=
  match find psf key with
  | None => def
  | Some e => default def (as_integer e)
  end.

(** [check_registry] with the caller's condition, if there is one: all entries
    are looked at.  The message about one that is not valid takes [as_string]
    of it, whatever its type. *)
Fixpoint check_registry (psf : registry) (validate : option (bool -> list Z -> entry -> bool)) : option bool :=
  match psf with
  | [] => Some true
  | (key, value) :: psf =>
      entry_ok ← is_valid value;
      let entry_ok := match validate with Some f => f entry_ok key value && entry_ok | None => entry_ok end in
      _ ← (if entry_ok then Some [] else as_string value);
      psf_ok ← check_registry psf validate;
      Some (entry_ok && psf_ok)
  end.

Definition is_cat_hdd (cat : list Z) : bool :=
  (length cat =? 2)%nat && negb (nth 1 cat 0 =? 68) && negb (bool_decide (cat = chars "DG")) && negb (bool_decide (cat = chars "MS")).

(** ** The file format *)

Record header_t := Header { magic : Z; version : Z; off_key_table : Z; off_data_table : Z; entries_num : Z }.

Record def_table_t := Def { key_off : Z; param_fmt : Z; param_len : Z; param_max : Z; data_off : Z }.

Definition PSF_magic : Z := 0x46535000.

Definition header_bytes (h : header_t) : list Z :=
  le_store 4 (magic h) ++ le_store 4 (version h) ++ le_store 4 (off_key_table h) ++ le_store 4 (off_data_table h) ++ le_store 4 (entries_num h).

Definition header_of (l : list Z) : header_t := Header (field 0 4 l) (field 4 4 l) (field 8 4 l) (field 12 4 l) (field 16 4 l).

Definition def_bytes (d : def_table_t) : list Z :=
  le_store 2 (key_off d) ++ le_store 2 (param_fmt d) ++ le_store 4 (param_len d) ++ le_store 4 (param_max d) ++ le_store 4 (data_off d).

Definition def_of (l : list Z) : def_table_t := Def (field 0 2 l) (field 2 2 l) (field 4 4 l) (field 8 4 l) (field 12 4 l).

(** The first [n] structures of a buffer. *)
Fixpoint defs_of (n : nat) (l : list Z) : list def_table_t :=
  match n with O => [] | S n => def_of l :: defs_of n (drop 16 l) end.

(** ** [load] *)

(** The outcome of a part of [load]: a value, an error that [PSF_CHECK]
    returns, or a failed [ensure]. *)
Inductive outcome (A : Type) := Done (x : A) | Failed (e : error) | Ended.
Arguments Done {A} x.
Arguments Failed {A} e.
Arguments Ended {A}.

#[local] Instance outcome_bind : MBind outcome := fun A B f m =>
  match m with Done x => f x | Failed e => Failed e | Ended => Ended end.

Definition psf_check (cond : bool) (e : error) : outcome unit := if cond then Done tt else Failed e.

Definition psf_read {A} (r : option A) : outcome A := match r with Some x => Done x | None => Failed corrupt end.

Definition ensured {A} (r : option A) : outcome A := match r with Some x => Done x | None => Ended end.

Definition valid_cats : list (list Z) :=
  map chars ["GD"; "DG"; "HG"; "AM"; "AP"; "AS"; "AT"; "AV"; "BV"; "WT"; "HM"; "CB"; "SF"; "2P"; "2G"; "1P"; "PP"; "MN"; "PE"; "2D"; "SD"; "MS"]%string.

Definition load_entry (h : header_t) (keys : list Z) (d : def_table_t) (st : stream * registry) : outcome (stream * registry) :=
  let '(s, sfo) := st in
  _ ← psf_check (key_off d <? u32 (off_data_table h - off_key_table h)) corrupt;
  let key := c_str (drop (Z.to_nat (key_off d)) keys) in
  _ ← psf_check (match find sfo key with Some _ => false | None => true end) corrupt;
  _ ← psf_check (param_len d <=? param_max d) corrupt;
  _ ← psf_check (data_off d <? u64 (size s - off_data_table h)) corrupt;
  _ ← psf_check (param_max d <? u64 (size s - data_off d)) corrupt;
  let s := (seek (u32 (off_data_table h + data_off d)) seek_set s).2 in
  if (param_fmt d =? format.integer) && (param_max d =? 4) && (param_len d =? 4) then
    let '(value, s) := file_read_pod 4 s in
    value ← psf_read value;
    Done (s, emplace sfo key (make_integer (le_load value)))
  else if is_text (param_fmt d) then
    let '(value, s) := file_read (param_len d) 1 s in
    value ← psf_read value;
    let value := if param_fmt d =? format.string then c_str value else value in
    e ← ensured (make_entry (param_fmt d) (param_max d) value false);
    Done (s, emplace sfo key e)
  else Done (s, sfo).

Fixpoint load_entries (h : header_t) (keys : list Z) (ds : list def_table_t) (st : stream * registry) : outcome (stream * registry) :=
  match ds with
  | [] => Done st
  | d :: ds => st ← load_entry h keys d st; load_entries h keys ds st
  end.

Definition load_stream (s : stream) : outcome registry :=
  let s := (seek 0 seek_set s).2 in
  let '(header, s) := file_read_pod 20 s in
  match header with
  | None => Failed not_psf
  | Some header =>
      let h := header_of header in
      _ ← psf_check (magic h =? PSF_magic) not_psf;
      _ ← psf_check (version h =? 0x101) not_psf;
      _ ← psf_check (off_key_table h >=? 20) corrupt;
      _ ← psf_check (off_key_table h <=? off_data_table h) corrupt;
      _ ← psf_check (off_data_table h <=? size s) corrupt;
      let '(indices, s) := file_read (entries_num h) 16 s in
      indices ← psf_read indices;
      let '(at_, s) := seek (off_key_table h) seek_set s in
      _ ← psf_check (at_ =? off_key_table h) corrupt;
      let '(keys, s) := file_read (u32 (off_data_table h - off_key_table h)) 1 s in
      keys ← psf_read keys;
      st ← load_entries h keys (defs_of (Z.to_nat (entries_num h)) indices) (s, []);
      let sfo := snd st in
      _ ← psf_check (bool_decide (get_string sfo (chars "CATEGORY") [] ∈ valid_cats)) corrupt;
      Done sfo
  end.

(** [load]: no result when an [ensure] fails; an error leaves an empty
    registry. *)
Definition load (s : option stream) : option (registry * error) :=
  match s with
  | None => Some ([], stream_missing)
  | Some s =>
      match load_stream s with
      | Done sfo => Some (sfo, ok)
      | Failed e => Some ([], e)
      | Ended => None
      end
  end.

(** [load_object]. *)
Definition load_object (s : option stream) : option registry := fst <$> load s.

(** ** [save_object] *)

(** The indices, with the sizes of the two tables before and after. *)
Fixpoint make_indices (psf : registry) (key_offset data_offset : Z) : option (list def_table_t * Z) :=
  match psf with
  | [] => Some ([], key_offset)
  | (key, e) :: psf =>
      ko ← narrow_u32 key_offset;
      len ← entry_size e;
      dof ← narrow_u32 data_offset;
      ks ← narrow_u32 (Z.of_nat (length key) + 1);
      r ← make_indices psf (key_offset + ks) (data_offset + max true e);
      Some (Def (u16 ko) (m_type e) len (max true e) dof :: r.1, r.2)
  end.

(** [rx::alignUp]. *)
Definition alignUp (value alignment : Z) : Z := u64 (Z.land (value + (alignment - 1)) (Z.lnot (alignment - 1))).

Fixpoint save_keys (psf : registry) (s : stream) : stream :=
  match psf with
  | [] => s
  | (key, _) :: psf => save_keys psf (write [0] (write key s))
  end.

Definition save_value (e : entry) (s : stream) : option stream :=
  let maxs := max true e in
  if (m_type e =? format.integer) && (maxs =? 4) then
    v ← as_integer e;
    Some (write (le_store 4 v) s)
  else if is_text (m_type e) then
    value ← as_string e;
    valid ← is_valid e;
    let value := if (valid : bool) then value else take (Z.to_nat (max false e)) value in
    let s := write value s in
    let '(at_, s) := seek (u64 (maxs - Z.of_nat (length value))) seek_cur s in
    Some (trunc at_ s)
  else None.

Fixpoint save_values (psf : registry) (s : stream) : option stream :=
  match psf with
  | [] => Some s
  | (_, e) :: psf => s ← save_value e s; save_values psf s
  end.

Definition save_object (psf : registry) (init : list Z) : option (list Z) :=
  let s := Stream init 0 in
  r ← make_indices psf 0 0;
  let key_offset := alignUp r.2 4 in
  off_key ← narrow_u32 (20 + 16 * Z.of_nat (length psf));
  off_data ← narrow_u32 (off_key + key_offset);
  n ← narrow_u32 (Z.of_nat (length psf));
  let s := write (header_bytes (Header PSF_magic 0x101 off_key off_data n)) s in
  let s := write (concat (map def_bytes r.1)) s in
  let s := save_keys psf s in
  let '(at_, s) := seek off_data seek_set s in
  s ← save_values psf (trunc at_ s);
  Some (obj s).
