(* ===== verification/PsfProofs.v ===== *)
(** * PARAM.SFO files: correctness

    Saving a registry and loading the file gives the registry back, values
    that are too long cut to their limit; whatever is loaded is a well-formed
    registry. *)
From Stdlib Require Import String Sorted.
From S2P Require Import Prelude FileStream Psf.

#[local] Close Scope string_scope.

(** ** The order of keys *)

Definition key_lt (a b : list Z) : Prop := key_ltb a b = true.

Lemma key_lt_irrefl a : ~ key_lt a a.
Proof. unfold key_lt. induction a as [|x a IH]; cbn; [done|]. by rewrite Z.ltb_irrefl. Qed.

Lemma key_lt_trans a b c : key_lt a b -> key_lt b c -> key_lt a c.
Proof.
  unfold key_lt. revert b c. induction a as [|x a IH]; intros [|y b] [|z c]; cbn; try done.
  destruct (Z.ltb_spec x y), (Z.ltb_spec y x), (Z.ltb_spec y z), (Z.ltb_spec z y), (Z.ltb_spec x z), (Z.ltb_spec z x); try done; try lia. apply IH.
Qed.

Lemma key_lt_total a b : key_ltb a b = false -> key_ltb b a = false -> a = b.
Proof.
  revert b. induction a as [|x a IH]; intros [|y b]; cbn; try done.
  destruct (Z.ltb_spec x y), (Z.ltb_spec y x); try done; try lia. intros H1 H2. f_equal; [lia|by apply IH].
Qed.

Lemma key_lt_asym a b : key_lt a b -> key_ltb b a = false.
Proof. intros H. destruct (key_ltb b a) eqn:E; [|done]. by destruct (key_lt_irrefl a (key_lt_trans _ _ _ H E)). Qed.

(** ** Well-formed registries *)

Definition bytes (l : list Z) : Prop := Forall (fun b => 0 <= b < 256) l.
Definition no_nul (l : list Z) : Prop := Forall (fun b => b <> 0) l.

(** What the constructors and assignments keep. *)
Definition entry_ok (e : entry) : Prop :=
  (m_type e = format.integer /\ m_max_size e = 4 /\ is_word 32 (m_value_integer e) /\ m_value_string e = []) \/
  (is_text (m_type e) = true /\ (if m_type e =? format.string then 1 else 0) < m_max_size e < 2 ^ 32 /\ m_value_integer e = 0 /\
   bytes (m_value_string e) /\ (m_type e = format.string -> no_nul (m_value_string e)) /\ Z.of_nat (length (m_value_string e)) < 2 ^ 32 - 1).

Definition sorted (psf : registry) : Prop := StronglySorted (fun x y => key_lt x.1 y.1) psf.

Definition registry_ok (psf : registry) : Prop :=
  sorted psf /\ Forall (fun x => bytes x.1 /\ no_nul x.1 /\ entry_ok x.2) psf.

(** An entry with its value cut to the limit. *)
Definition shrink_entry (e : entry) : entry :=
  if is_text (m_type e) then Entry (m_type e) (m_max_size e) (m_value_integer e) (take (Z.to_nat (max false e)) (m_value_string e)) else e.

Definition shrink (psf : registry) : registry := map (fun x => (x.1, shrink_entry x.2)) psf.

(** The sizes of the tables. *)
Definition key_bytes (psf : registry) : list Z := concat (map (fun x => x.1 ++ [0]) psf).

Definition entry_bytes (e : entry) : list Z :=
  if is_text (m_type e) then m_value_string (shrink_entry e) ++ replicate (Z.to_nat (m_max_size e - Z.of_nat (length (m_value_string (shrink_entry e))))) 0
  else le_store 4 (m_value_integer e).

Definition data_bytes (psf : registry) : list Z := concat (map (fun x => entry_bytes x.2) psf).

(** The registry fits the fields of the format: 16 bits for the place of a key,
    32 bits for everything else. *)
Definition fits (psf : registry) : Prop :=
  Z.of_nat (length (key_bytes psf)) <= 2 ^ 16 /\
  20 + 16 * Z.of_nat (length psf) + Z.of_nat (length (key_bytes psf)) + 4 + Z.of_nat (length (data_bytes psf)) < 2 ^ 32.

Definition category_ok (psf : registry) : Prop := get_string psf (chars "CATEGORY"%string) [] ∈ valid_cats.

(** ** Entries *)

Lemma text_not_integer t : is_text t = true -> (t =? format.integer) = false.
Proof. unfold is_text, format.string, format.array, format.integer. destruct (Z.eqb_spec t 0x404) as [->|]; [|done]. by vm_compute. Qed.

Section Entry.
Context (e : entry) (He : entry_ok e).

Lemma max_true : max true e = m_max_size e.
Proof. unfold max. cbn [negb andb]. rewrite Z.sub_0_r. apply wrap_small. unfold is_word. destruct He as [(_ & -> & _)|(_ & ? & _)]; [lia|]. destruct (_ =? _); lia. Qed.

Lemma max_false : is_text (m_type e) = true -> max false e = m_max_size e - (if m_type e =? format.string then 1 else 0) /\ 0 < max false e.
Proof.
  intros Ht. unfold max. cbn [negb andb]. destruct He as [(E & _)|(_ & H & _)]; [by rewrite E in Ht; vm_compute in Ht|].
  unfold wrap. rewrite Z.mod_small; destruct (_ =? _); lia.
Qed.

Lemma shrink_length : is_text (m_type e) = true -> Z.of_nat (length (m_value_string (shrink_entry e))) = Z.min (max false e) (Z.of_nat (length (m_value_string e))).
Proof. intros Ht. destruct (max_false Ht) as [_ Hm]. unfold shrink_entry. rewrite Ht. cbn. rewrite length_take. lia. Qed.

Lemma entry_bytes_length : Z.of_nat (length (entry_bytes e)) = m_max_size e.
Proof.
  unfold entry_bytes. destruct (is_text (m_type e)) eqn:Ht.
  - rewrite length_app, length_replicate. pose proof (shrink_length Ht). destruct (max_false Ht) as [Hm _]. destruct (_ =? _); lia.
  - rewrite length_le_store. destruct He as [(_ & -> & _)|(E & _)]; [done|congruence].
Qed.

(** The size stored for an entry is that of the value that is saved, with its
    terminator if there is one. *)
Lemma entry_size_ok : exists n, entry_size e = Some n /\ 0 <= n <= m_max_size e /\
  if is_text (m_type e) then n = Z.of_nat (length (m_value_string (shrink_entry e))) + (if m_type e =? format.string then 1 else 0) else n = 4.
Proof.
  unfold entry_size. destruct (is_text (m_type e)) eqn:Ht.
  - pose proof (shrink_length Ht) as Hs. destruct (max_false Ht) as [Hm Hp]. destruct He as [(E & _)|(_ & H & _ & _ & _ & Hl)]; [by rewrite E in Ht; vm_compute in Ht|].
    unfold narrow_u32. destruct (Z.ltb_spec (Z.of_nat (length (m_value_string e)) + (if m_type e =? format.string then 1 else 0)) (2 ^ 32)) as [|]; [|destruct (_ =? _); lia].
    cbn. eexists. split; [done|]. rewrite Hs, Hm. destruct (_ =? _); lia.
  - destruct He as [(-> & -> & _)|(E & _)]; [|congruence]. exists 4. split; [done|lia].
Qed.

Lemma shrink_ok : entry_ok (shrink_entry e).
Proof.
  unfold shrink_entry. destruct (is_text (m_type e)) eqn:Ht; [|done]. destruct He as [(E & _)|(_ & H & H2 & H3 & H4 & Hl)]; [by rewrite E in Ht; vm_compute in Ht|].
  right. cbn [m_type m_max_size m_value_integer m_value_string]. split; [done|]. split; [exact H|]. split; [done|]. split; [by apply Forall_take|].
  split; [intros Es; by apply Forall_take, H4|]. rewrite length_take. lia.
Qed.

(** A valid entry is saved whole. *)
Lemma shrink_valid : is_valid e = Some true -> shrink_entry e = e.
Proof.
  unfold is_valid, shrink_entry. destruct (is_text (m_type e)) eqn:Ht; [|done]. intros [= H%Z.leb_le]. destruct (max_false Ht) as [_ Hm].
  rewrite take_ge by lia. by destruct e.
Qed.
End Entry.

(** ** What [save_object] writes *)

Fixpoint indices (psf : registry) (ko dof : Z) : list def_table_t :=
  match psf with
  | [] => []
  | (k, e) :: psf => Def (u16 ko) (m_type e) (default 0 (entry_size e)) (m_max_size e) dof :: indices psf (ko + Z.of_nat (length k) + 1) (dof + m_max_size e)
  end.

Lemma key_bytes_cons k e psf : key_bytes ((k, e) :: psf) = (k ++ [0]) ++ key_bytes psf.
Proof. done. Qed.

Lemma data_bytes_cons k e psf : data_bytes ((k, e) :: psf) = entry_bytes e ++ data_bytes psf.
Proof. done. Qed.

Lemma key_bytes_length k e psf : Z.of_nat (length (key_bytes ((k, e) :: psf))) = Z.of_nat (length k) + 1 + Z.of_nat (length (key_bytes psf)).
Proof. rewrite key_bytes_cons, !length_app. cbn. lia. Qed.

Lemma data_bytes_length k e psf : entry_ok e -> Z.of_nat (length (data_bytes ((k, e) :: psf))) = m_max_size e + Z.of_nat (length (data_bytes psf)).
Proof. intros He. rewrite data_bytes_cons, length_app, Nat2Z.inj_add, entry_bytes_length; done. Qed.

Lemma make_indices_spec psf : forall ko dof, Forall (fun x => bytes x.1 /\ no_nul x.1 /\ entry_ok x.2) psf -> 0 <= ko -> 0 <= dof ->
  ko + Z.of_nat (length (key_bytes psf)) < 2 ^ 32 -> dof + Z.of_nat (length (data_bytes psf)) < 2 ^ 32 ->
  make_indices psf ko dof = Some (indices psf ko dof, ko + Z.of_nat (length (key_bytes psf))).
Proof.
  induction psf as [|[k e] psf IH]; intros ko dof Hok Hko Hdo Hk Hd; cbn [make_indices indices].
  - cbn. by rewrite Z.add_0_r.
  - apply Forall_cons in Hok as [(_ & _ & He) Hok]. cbn [fst snd] in He. rewrite key_bytes_length in *. rewrite data_bytes_length in Hd by done.
    pose proof (entry_bytes_length e He) as Hl. destruct (entry_size_ok e He) as (n & Hn & Hn' & _).
    unfold narrow_u32. rewrite (proj2 (Z.ltb_lt ko _)), (proj2 (Z.ltb_lt dof _)), (proj2 (Z.ltb_lt (Z.of_nat (length k) + 1) _)) by lia.
    rewrite Hn. cbn [mbind option_bind]. rewrite (max_true e He). rewrite IH by (done || lia). cbn. f_equal. f_equal; [|lia]. f_equal. f_equal. lia.
Qed.

Definition exactly (s : stream) (w : list Z) : Prop := obj s = w /\ pos s = Z.of_nat (length w).

Lemma write_exactly s w src : exactly s w -> exactly (write src s) (w ++ src).
Proof.
  intros [Ho Hp]. unfold write, exactly, size. rewrite Ho, Hp. destruct (Z.ltb_spec (Z.of_nat (length w)) (Z.of_nat (length w))); [lia|].
  rewrite Nat2Z.id. cbn [obj pos]. replace (length w - length w)%nat with 0%nat by lia. cbn [Nat.min].
  rewrite take_0, drop_0, Nat.add_0_r, take_ge, drop_ge, length_app by done. split; [done|lia].
Qed.

Lemma save_value_spec e s w : entry_ok e -> exactly s w -> Z.of_nat (length w) + m_max_size e < 2 ^ 63 ->
  exists s', save_value e s = Some s' /\ exactly s' (w ++ entry_bytes e).
Proof.
  intros He Hs Hw. unfold save_value. rewrite (max_true e He). unfold entry_bytes. destruct (is_text (m_type e)) eqn:Ht.
  - rewrite (text_not_integer _ Ht). cbn [andb]. unfold as_string, is_valid. rewrite Ht. cbn [mbind option_bind].
    assert ((if Z.of_nat (length (m_value_string e)) <=? max false e then m_value_string e else take (Z.to_nat (max false e)) (m_value_string e)) = m_value_string (shrink_entry e)) as ->.
    { unfold shrink_entry. rewrite Ht. cbn. destruct (Z.leb_spec (Z.of_nat (length (m_value_string e))) (max false e)); [|done]. by rewrite take_ge by lia. }
    set (v := m_value_string (shrink_entry e)). pose proof (shrink_length e He Ht) as Hl. fold v in Hl. destruct (max_false e He Ht) as [Hm Hm0].
    assert (Z.of_nat (length v) <= m_max_size e) as Hv by (destruct (_ =? _); lia).
    assert (m_max_size e < 2 ^ 32) as Hmax by (destruct He as [(E & _)|(_ & H & _)]; [by rewrite E in Ht; vm_compute in Ht|lia]).
    destruct (write_exactly s w v Hs) as [Ho Hp]. rewrite length_app in Hp.
    rewrite (wrap_small 64) by (unfold is_word; lia). rewrite seek_by by lia. eexists. split; [done|]. rewrite Hp. split.
    + rewrite trunc_exact; unfold size; cbn [obj]; rewrite Ho, length_app by lia; [|lia]. rewrite <- app_assoc. do 3 f_equal. lia.
    + cbn. rewrite !length_app, length_replicate. lia.
  - destruct He as [(E & E4 & _)|(E & _)]; [|congruence]. unfold as_integer. rewrite E, E4. cbn. eexists. split; [done|]. by apply write_exactly.
Qed.

Lemma save_values_spec psf : Forall (fun x => bytes x.1 /\ no_nul x.1 /\ entry_ok x.2) psf -> forall s w, exactly s w ->
  Z.of_nat (length w) + Z.of_nat (length (data_bytes psf)) < 2 ^ 63 -> exists s', save_values psf s = Some s' /\ exactly s' (w ++ data_bytes psf).
Proof.
  induction 1 as [|[k e] psf (_ & _ & He) Hok IH]; intros s w Hs Hw; cbn [save_values].
  - exists s. split; [done|]. cbn. by rewrite app_nil_r.
  - cbn [fst snd] in He. rewrite data_bytes_length in Hw by done. pose proof (entry_bytes_length e He) as Hl.
    destruct (save_value_spec e s w He Hs ltac:(lia)) as (s1 & -> & Hs1). cbn [mbind option_bind].
    destruct (IH s1 _ Hs1) as (s2 & -> & Hs2); [rewrite length_app; lia|]. exists s2. split; [done|]. by rewrite data_bytes_cons, app_assoc.
Qed.

Lemma save_keys_spec psf : forall s w, written s w -> written (save_keys psf s) (w ++ key_bytes psf).
Proof.
  induction psf as [|[k e] psf IH]; intros s w Hs; cbn [save_keys].
  - cbn. by rewrite app_nil_r.
  - rewrite key_bytes_cons, app_assoc, app_assoc. apply IH. by do 2 apply write_written.
Qed.

(** The header of the file of a registry, and the file. *)
Definition key_table (psf : registry) : Z := alignUp (Z.of_nat (length (key_bytes psf))) 4.

Definition header (psf : registry) : header_t :=
  Header PSF_magic 0x101 (20 + 16 * Z.of_nat (length psf)) (20 + 16 * Z.of_nat (length psf) + key_table psf) (Z.of_nat (length psf)).

Definition image (psf : registry) (pad : list Z) : list Z :=
  header_bytes (header psf) ++ concat (map def_bytes (indices psf 0 0)) ++ key_bytes psf ++ pad ++ data_bytes psf.

Lemma alignUp_4 x : 0 <= x < 2 ^ 63 -> x <= alignUp x 4 < x + 4 /\ alignUp x 4 mod 4 = 0.
Proof.
  intros Hx. unfold alignUp. replace (Z.land (x + (4 - 1)) (Z.lnot (4 - 1))) with ((x + 3) / 4 * 4).
  - unfold wrap. Z.div_mod_to_equations. lia.
  - change (Z.lnot (4 - 1)) with (Z.lnot (Z.ones 2)). rewrite <- Z.ldiff_land, Z.ldiff_ones_r, Z.shiftl_mul_pow2, Z.shiftr_div_pow2 by lia. done.
Qed.

Lemma length_header_bytes h : length (header_bytes h) = 20%nat.
Proof. unfold header_bytes. by rewrite !length_app, !length_le_store. Qed.

Lemma length_def_bytes d : length (def_bytes d) = 16%nat.
Proof. unfold def_bytes. by rewrite !length_app, !length_le_store. Qed.

Lemma length_defs ds : length (concat (map def_bytes ds)) = (16 * length ds)%nat.
Proof. induction ds as [|d ds IH]; [done|]. cbn [map concat length]. rewrite length_app, length_def_bytes, IH. lia. Qed.

Lemma length_indices psf : forall ko dof, length (indices psf ko dof) = length psf.
Proof. induction psf as [|[k e] psf IH]; intros ko dof; cbn; [done|]. by rewrite IH. Qed.

Lemma save_object_spec psf init : registry_ok psf -> fits psf ->
  exists pad, save_object psf init = Some (image psf pad) /\ Z.of_nat (length pad) = key_table psf - Z.of_nat (length (key_bytes psf)).
Proof.
  intros [_ Hok] [Hk Hf]. pose proof (alignUp_4 (Z.of_nat (length (key_bytes psf))) ltac:(lia)) as [Ha _]. fold (key_table psf) in Ha.
  unfold save_object. rewrite make_indices_spec by (done || lia). cbn [mbind option_bind fst snd]. rewrite Z.add_0_l. fold (key_table psf).
  unfold narrow_u32. rewrite (proj2 (Z.ltb_lt (20 + 16 * Z.of_nat (length psf)) _)) by lia. cbn [mbind option_bind].
  rewrite (proj2 (Z.ltb_lt (20 + 16 * Z.of_nat (length psf) + key_table psf) _)) by lia. cbn [mbind option_bind]. rewrite (proj2 (Z.ltb_lt (Z.of_nat (length psf)) _)) by lia. cbn [mbind option_bind].
  fold (header psf). set (ds := indices psf 0 0).
  assert (written (Stream init 0) []) as H0 by (split; [done|by exists init]).
  apply (write_written _ _ (header_bytes (header psf))) in H0. apply (write_written _ _ (concat (map def_bytes ds))) in H0. apply (save_keys_spec psf) in H0. rewrite app_nil_l in H0.
  set (s := save_keys psf _) in *. set (w := _ ++ key_bytes psf) in H0.
  assert (Z.of_nat (length w) = 20 + 16 * Z.of_nat (length psf) + Z.of_nat (length (key_bytes psf))) as Hw.
  { subst w ds. rewrite !length_app, length_header_bytes, length_defs, length_indices. lia. }
  rewrite seek_to by lia. set (s1 := Stream _ _).
  destruct (trunc_written s w (20 + 16 * Z.of_nat (length psf) + key_table psf) H0 ltac:(lia)) as (pad & Ho & Hpad).
  destruct (save_values_spec psf Hok (trunc (20 + 16 * Z.of_nat (length psf) + key_table psf) s1) (w ++ pad)) as (s2 & -> & [Hs2 _]).
  - split; [exact Ho|]. change (20 + 16 * Z.of_nat (length psf) + key_table psf = Z.of_nat (length (w ++ pad))). rewrite length_app. lia.
  - rewrite length_app. lia.
  - cbn. exists pad. split; [|lia]. rewrite Hs2. subst w. unfold image. by rewrite <- !app_assoc.
Qed.

(** ** What [load] reads *)

Lemma field_next m v l off n : (m <= off)%nat -> field off n (le_store m v ++ l) = field (off - m) n l.
Proof. intros H. rewrite <- (field_skip (off - m) n m v l). f_equal. lia. Qed.

Ltac fields := rewrite <- ?app_assoc; repeat (rewrite field_next by lia; cbn [Nat.sub]); rewrite field_here; cbn [Z.of_nat Pos.of_succ_nat Pos.succ Z.mul Pos.mul].

Lemma header_of_bytes h l : header_of (header_bytes h ++ l) =
  Header (u32 (magic h)) (u32 (version h)) (u32 (off_key_table h)) (u32 (off_data_table h)) (u32 (entries_num h)).
Proof. unfold header_of, header_bytes. f_equal; by fields. Qed.

Lemma def_of_bytes d l : def_of (def_bytes d ++ l) = Def (u16 (key_off d)) (u16 (param_fmt d)) (u32 (param_len d)) (u32 (param_max d)) (u32 (data_off d)).
Proof. unfold def_of, def_bytes. f_equal; by fields. Qed.

(** A structure whose fields are in range. *)
Definition def_ok (d : def_table_t) : Prop :=
  is_word 16 (key_off d) /\ is_word 16 (param_fmt d) /\ is_word 32 (param_len d) /\ is_word 32 (param_max d) /\ is_word 32 (data_off d).

Lemma defs_of_bytes ds l : Forall def_ok ds -> defs_of (length ds) (concat (map def_bytes ds) ++ l) = ds.
Proof.
  induction 1 as [|d ds (H1 & H2 & H3 & H4 & H5) Hds IH]; [done|]. cbn [length map concat defs_of]. rewrite <- app_assoc, def_of_bytes.
  rewrite (drop_app_length' _ _ 16) by (by rewrite length_def_bytes). rewrite IH. rewrite !wrap_small by done. by destruct d.
Qed.

Lemma c_str_nul k l : no_nul k -> c_str (k ++ 0 :: l) = k.
Proof. induction 1 as [|b k Hb Hk IH]; [done|]. cbn. destruct (Z.eqb_spec b 0); [done|]. by rewrite IH. Qed.

Lemma c_str_all k : no_nul k -> c_str k = k.
Proof. induction 1 as [|b k Hb Hk IH]; [done|]. cbn. destruct (Z.eqb_spec b 0); [done|]. by rewrite IH. Qed.

Lemma le_load_bytes v l : is_word 32 v -> le_load (take 4 (le_store 4 v ++ l)) = v.
Proof. intros Hv. pose proof (field_here 4 v l) as H. unfold field in H. rewrite drop_0 in H. rewrite H. by apply wrap_small. Qed.

(** *** The registry while it is loaded *)

Lemma find_none_lt psf key : Forall (fun x => key_lt x.1 key) psf -> find psf key = None.
Proof.
  unfold find. induction 1 as [|[k e] psf Hk Hpsf IH]; [done|]. cbn. rewrite bool_decide_false; [done|]. intros ->. by apply (key_lt_irrefl key).
Qed.

Lemma emplace_last psf key e : Forall (fun x => key_lt x.1 key) psf -> emplace psf key e = psf ++ [(key, e)].
Proof.
  induction 1 as [|[k x] psf Hk Hpsf IH]; [done|]. cbn [emplace fst app] in *. rewrite (key_lt_asym _ _ Hk). unfold key_lt in Hk. by rewrite Hk, IH.
Qed.

Lemma sorted_before pre k e suf : sorted (pre ++ (k, e) :: suf) -> Forall (fun x => key_lt x.1 k) pre.
Proof.
  unfold sorted. induction pre as [|x pre IH]; [constructor|]. cbn. intros [H1 H2]%StronglySorted_inv. constructor; [|by apply IH].
  rewrite Forall_app in H2. by destruct H2 as [_ [H2 _]%Forall_cons].
Qed.

Lemma shrink_before pre k : Forall (fun x => key_lt x.1 k) pre -> Forall (fun x => key_lt x.1 k) (shrink pre).
Proof. intros H. unfold shrink. rewrite Forall_map. exact H. Qed.

(** The value read back from the bytes of an entry. *)
Lemma make_shrunk e : entry_ok e -> is_text (m_type e) = true ->
  make_entry (m_type e) (m_max_size e) (m_value_string (shrink_entry e)) false = Some (shrink_entry e).
Proof.
  intros He Ht. unfold make_entry. rewrite Ht. cbn [negb andb]. unfold shrink_entry. rewrite Ht. cbn [m_value_string].
  destruct He as [(E & _)|(_ & H & H2 & _)]; [by rewrite E in Ht; vm_compute in Ht|]. rewrite H2.
  destruct (Z.gtb_spec (m_max_size e) (if m_type e =? format.string then 1 else 0)); [done|lia].
Qed.

Lemma key_bytes_app p q : key_bytes (p ++ q) = key_bytes p ++ key_bytes q.
Proof. unfold key_bytes. by rewrite map_app, concat_app. Qed.

Lemma data_bytes_app p q : data_bytes (p ++ q) = data_bytes p ++ data_bytes q.
Proof. unfold data_bytes. by rewrite map_app, concat_app. Qed.

Lemma shrink_app p q : shrink (p ++ q) = shrink p ++ shrink q.
Proof. apply map_app. Qed.

(** Up to its stored size, the bytes of an entry are its value. *)
Lemma read_value e n rest : entry_ok e -> is_text (m_type e) = true ->
  n = Z.of_nat (length (m_value_string (shrink_entry e))) + (if m_type e =? format.string then 1 else 0) ->
  (if m_type e =? format.string then c_str (take (Z.to_nat n) (entry_bytes e ++ rest)) else take (Z.to_nat n) (entry_bytes e ++ rest)) = m_value_string (shrink_entry e).
Proof.
  intros He Ht ->. unfold entry_bytes. rewrite Ht. pose proof (shrink_length e He Ht) as Hl. destruct (max_false e He Ht) as [Hm Hm0].
  pose proof (shrink_ok e He) as Hs. set (v := m_value_string (shrink_entry e)) in *. rewrite <- app_assoc.
  destruct (Z.eqb_spec (m_type e) format.string) as [E|E].
  - replace (Z.to_nat (m_max_size e - Z.of_nat (length v))) with (S (Z.to_nat (m_max_size e - Z.of_nat (length v) - 1))) by lia.
    cbn [replicate app]. replace (Z.to_nat (Z.of_nat (length v) + 1)) with (length v + 1)%nat by lia. rewrite take_app_add. cbn [take].
    rewrite take_0. apply c_str_nul. destruct Hs as [(E' & _)|(_ & _ & _ & _ & Hn & _)].
    + unfold shrink_entry in E'. rewrite Ht in E'. cbn in E'. by rewrite E in E'.
    + apply Hn. unfold shrink_entry. by rewrite Ht.
  - rewrite Z.add_0_r, Nat2Z.id. by rewrite take_app_length.
Qed.

(** *** Loading the file of a registry *)

Section Image.
Context (psf : registry) (pad : list Z).
Context (Hok : registry_ok psf) (Hf : fits psf).
Context (Hpad : Z.of_nat (length pad) = key_table psf - Z.of_nat (length (key_bytes psf))).

Let h := header psf.
Let K := key_bytes psf ++ pad.

Lemma table_sizes : off_key_table h = 20 + 16 * Z.of_nat (length psf) /\ off_data_table h = off_key_table h + Z.of_nat (length K) /\
  Z.of_nat (length (image psf pad)) = off_data_table h + Z.of_nat (length (data_bytes psf)) /\
  Z.of_nat (length (image psf pad)) < 2 ^ 32 /\ Z.of_nat (length (key_bytes psf)) <= 2 ^ 16.
Proof.
  destruct Hf as [Hk Hd]. pose proof (alignUp_4 (Z.of_nat (length (key_bytes psf))) ltac:(lia)) as [Ha _]. fold (key_table psf) in Ha.
  subst h K. unfold image. rewrite !length_app, length_header_bytes, length_defs, length_indices. cbn [off_key_table off_data_table header]. lia.
Qed.

Lemma image_data : drop (Z.to_nat (off_data_table h)) (image psf pad) = data_bytes psf.
Proof.
  destruct table_sizes as (H1 & H2 & _). unfold image. rewrite !app_assoc. apply drop_app_length'.
  rewrite <- !app_assoc, !length_app, length_header_bytes, length_defs, length_indices. subst K. rewrite length_app in H2. lia.
Qed.

Lemma image_keys : take (length K) (drop (Z.to_nat (off_key_table h)) (image psf pad)) = K.
Proof.
  destruct table_sizes as (H1 & _). unfold image. rewrite app_assoc, drop_app_length' by (rewrite length_app, length_header_bytes, length_defs, length_indices; lia).
  subst K. rewrite app_assoc. by rewrite take_app_length.
Qed.

(** One entry, after those before it. *)
Lemma load_entry_image pre k e suf s : psf = pre ++ (k, e) :: suf -> obj s = image psf pad ->
  exists s', load_entry h K (Def (u16 (Z.of_nat (length (key_bytes pre)))) (m_type e) (default 0 (entry_size e)) (m_max_size e) (Z.of_nat (length (data_bytes pre))))
    (s, shrink pre) = Done (s', shrink (pre ++ [(k, e)])) /\ obj s' = image psf pad.
Proof.
  intros E Hs. destruct table_sizes as (H1 & H2 & H3 & H4 & H5). destruct Hok as [Hsorted Hall]. rewrite E in Hsorted.
  pose proof (sorted_before _ _ _ _ Hsorted) as Hb. assert (no_nul k /\ entry_ok e) as [Hk He].
  { rewrite Forall_forall in Hall. apply (Hall (k, e)). rewrite E, elem_of_app, elem_of_cons. auto. }
  pose proof (entry_bytes_length e He) as Hl. destruct (entry_size_ok e He) as (n & Hn & Hnr & Hnt). pose proof (entry_bytes_length e He) as Hel.
  assert (key_bytes psf = key_bytes pre ++ k ++ 0 :: key_bytes suf) as EK by (rewrite E, key_bytes_app, key_bytes_cons, <- !app_assoc; done).
  assert (data_bytes psf = data_bytes pre ++ entry_bytes e ++ data_bytes suf) as ED by (by rewrite E, data_bytes_app, data_bytes_cons).
  rewrite EK, !length_app in H5. cbn [length] in H5. pose proof H3 as H3'. rewrite ED, !length_app in H3'.
  assert (Z.of_nat (length K) = Z.of_nat (length (key_bytes psf)) + Z.of_nat (length pad)) as HK by (subst K; rewrite length_app; lia).
  rewrite EK, !length_app in HK. cbn [length] in HK.
  assert (0 < m_max_size e) as Hm.
  { destruct He as [(_ & -> & _)|(_ & ? & _)]; [lia|]. destruct (_ =? _); lia. }
  assert (size s = Z.of_nat (length (image psf pad))) as Hsz by (unfold size; by rewrite Hs).
  unfold load_entry. cbn [key_off param_fmt param_len param_max data_off]. rewrite Hn. cbn [default from_option]. unfold id.
  assert (forall x, 0 <= x < 2 ^ 32 -> u32 x = x /\ u64 x = x) as Hu by (intros x Hx; split; apply wrap_small; unfold is_word; lia).
  assert (u16 (Z.of_nat (length (key_bytes pre))) = Z.of_nat (length (key_bytes pre))) as -> by (apply wrap_small; unfold is_word; lia).
  replace (off_data_table h - off_key_table h) with (Z.of_nat (length K)) by lia. rewrite (proj1 (Hu (Z.of_nat (length K)) ltac:(lia))).
  rewrite Hsz. rewrite (proj2 (Hu (Z.of_nat (length (image psf pad)) - off_data_table h) ltac:(lia))), (proj2 (Hu (Z.of_nat (length (image psf pad)) - Z.of_nat (length (data_bytes pre))) ltac:(lia))).
  rewrite (proj1 (Hu (off_data_table h + Z.of_nat (length (data_bytes pre))) ltac:(lia))).
  rewrite (proj2 (Z.ltb_lt (Z.of_nat (length (key_bytes pre))) (Z.of_nat (length K)))) by lia.
  rewrite (proj2 (Z.leb_le n (m_max_size e))), (proj2 (Z.ltb_lt (Z.of_nat (length (data_bytes pre))) _)), (proj2 (Z.ltb_lt (m_max_size e) _)) by lia.
  rewrite Nat2Z.id. assert (drop (length (key_bytes pre)) K = k ++ 0 :: key_bytes suf ++ pad) as ->.
  { subst K. by rewrite EK, <- !app_assoc, drop_app_length. }
  rewrite c_str_nul by done. rewrite find_none_lt by (by apply shrink_before). cbn [psf_check mbind outcome_bind].
  rewrite seek_to by lia. cbn [snd]. set (s1 := Stream (obj s) _).
  assert (drop (Z.to_nat (pos s1)) (obj s1) = entry_bytes e ++ data_bytes suf) as Hdrop.
  { subst s1. cbn [pos obj]. rewrite Hs, Z2Nat.inj_add, <- drop_drop, image_data, Nat2Z.id, ED by lia. apply drop_app_length. }
  rewrite shrink_app. cbn [shrink map fst snd].
  destruct (is_text (m_type e)) eqn:Ht.
  - rewrite (text_not_integer _ Ht). cbn [andb]. rewrite file_read_inside by (try lia; unfold size; subst s1; cbn [pos obj]; rewrite ?Hs; lia).
    rewrite Hdrop, Z.mul_1_r. cbn [psf_read mbind outcome_bind].
    rewrite (read_value e n (data_bytes suf) He Ht Hnt), (make_shrunk e He Ht). cbn [ensured mbind outcome_bind].
    rewrite emplace_last by (by apply shrink_before). eexists. split; [done|exact Hs].
  - destruct He as [(Et & Em & Hv & Es)|(E' & _)]; [|congruence]. rewrite Et, Em, Hnt. cbn [Z.eqb format.integer andb Pos.eqb].
    rewrite file_read_pod_inside by (try lia; unfold size; subst s1; cbn [pos obj]; rewrite ?Hs; lia). rewrite Hdrop. unfold entry_bytes. rewrite Ht.
    cbn [psf_read mbind outcome_bind]. change (Z.to_nat 4) with 4%nat. rewrite le_load_bytes by done.
    rewrite emplace_last by (by apply shrink_before).     assert (shrink_entry e = make_integer (m_value_integer e)) as ->.
    { unfold shrink_entry, make_integer. rewrite Ht. clear -Et Em Es. destruct e; cbn in *; by subst. }
    eexists. split; [done|exact Hs].
Qed.

Lemma load_entries_image suf : forall pre s, psf = pre ++ suf -> obj s = image psf pad ->
  exists s', load_entries h K (indices suf (Z.of_nat (length (key_bytes pre))) (Z.of_nat (length (data_bytes pre)))) (s, shrink pre) = Done (s', shrink psf).
Proof.
  induction suf as [|[k e] suf IH]; intros pre s E Hs; cbn [load_entries indices].
  - exists s. by rewrite E, app_nil_r.
  - destruct (load_entry_image pre k e suf s E Hs) as (s1 & -> & Hs1). cbn [mbind outcome_bind].
    destruct (IH (pre ++ [(k, e)]) s1) as (s2 & H2); [by rewrite <- app_assoc|done|]. exists s2. rewrite <- H2. f_equal. f_equal.
    + rewrite key_bytes_app, length_app, key_bytes_cons, !length_app. cbn. lia.
    + assert (entry_ok e) as He by (destruct Hok as [_ Hall]; rewrite Forall_forall in Hall; apply (Hall (k, e)); rewrite E, elem_of_app, elem_of_cons; auto).
      pose proof (entry_bytes_length e He). rewrite data_bytes_app, length_app, data_bytes_cons, length_app. cbn [data_bytes map concat length]. lia.
Qed.

Lemma indices_ok suf : forall pre, psf = pre ++ suf ->
  Forall def_ok (indices suf (Z.of_nat (length (key_bytes pre))) (Z.of_nat (length (data_bytes pre)))).
Proof.
  induction suf as [|[k e] suf IH]; intros pre E; cbn [indices]; [constructor|].
  assert (entry_ok e) as He by (destruct Hok as [_ Hall]; rewrite Forall_forall in Hall; apply (Hall (k, e)); rewrite E, elem_of_app, elem_of_cons; auto).
  pose proof (entry_bytes_length e He) as Hl. destruct (entry_size_ok e He) as (n & Hn & Hnr & _). destruct table_sizes as (_ & _ & H3 & H4 & _).
  assert (data_bytes psf = data_bytes pre ++ entry_bytes e ++ data_bytes suf) as ED by (by rewrite E, data_bytes_app, data_bytes_cons).
  rewrite ED, !length_app in H3. assert (0 <= off_data_table h) by (pose proof table_sizes; lia). constructor.
  - rewrite Hn. unfold def_ok, is_word. cbn [key_off param_fmt param_len param_max data_off default from_option]. unfold id. pose proof (wrap_range 16 (Z.of_nat (length (key_bytes pre))) ltac:(lia)) as Hw. unfold is_word in Hw.
    split; [exact Hw|]. split; [|lia]. destruct He as [(-> & _)|(Ht & _)]; [unfold format.integer; lia|]. unfold is_text in Ht. apply orb_true_iff in Ht as [->%Z.eqb_eq| ->%Z.eqb_eq]; unfold format.string, format.array; lia.
  - specialize (IH (pre ++ [(k, e)])). rewrite key_bytes_app, data_bytes_app, !length_app, key_bytes_cons, data_bytes_cons, !length_app in IH. cbn [key_bytes data_bytes map concat length] in IH.
    replace (Z.of_nat (length (key_bytes pre)) + Z.of_nat (length k) + 1) with (Z.of_nat (length (key_bytes pre) + (length k + 1 + 0))) by lia.
    replace (Z.of_nat (length (data_bytes pre)) + m_max_size e) with (Z.of_nat (length (data_bytes pre) + (length (entry_bytes e) + 0))) by lia.
    apply IH. by rewrite <- app_assoc.
Qed.

(** The whole file. *)
Lemma load_image p : category_ok (shrink psf) -> load (Some (Stream (image psf pad) p)) = Some (shrink psf, ok).
Proof.
  intros Hcat. destruct table_sizes as (H1 & H2 & H3 & H4 & H5). unfold load, load_stream. rewrite seek_to by lia. cbn [obj snd].
  assert (length (concat (map def_bytes (indices psf 0 0))) = 16 * length psf)%nat as Hdl by (by rewrite length_defs, length_indices).
  assert (size (Stream (image psf pad) 0) = Z.of_nat (length (image psf pad))) as Hsz by done.
  rewrite file_read_pod_inside by (cbn [pos]; lia). cbn [pos obj]. change (Z.to_nat 20) with 20%nat. change (Z.to_nat 0) with 0%nat. rewrite drop_0.
  assert (take 20 (image psf pad) = header_bytes h) as -> by (unfold image; rewrite <- (length_header_bytes h); apply take_app_length).
  assert (header_of (header_bytes h) = h) as ->.
  { pose proof (header_of_bytes h []) as Hh. rewrite app_nil_r in Hh. rewrite Hh. rewrite !wrap_small; [done|..]; unfold is_word; subst h; cbn [magic version off_key_table off_data_table entries_num header] in *; unfold PSF_magic; lia. }
  set (s1 := Stream _ _). assert (size s1 = Z.of_nat (length (image psf pad))) as Hs1 by done.
  change (magic h) with PSF_magic. change (version h) with 0x101. rewrite !Z.eqb_refl.
  rewrite (proj2 (Z.geb_le (off_key_table h) 20)), (proj2 (Z.leb_le (off_key_table h) (off_data_table h))), (proj2 (Z.leb_le (off_data_table h) (size s1))) by lia.
  cbn [psf_check mbind outcome_bind]. change (entries_num h) with (Z.of_nat (length psf)).
  rewrite file_read_inside by (try lia; subst s1; cbn [pos]; lia). subst s1. cbn [pos obj psf_read mbind outcome_bind].
  rewrite seek_to by lia. rewrite Z.eqb_refl. cbn [psf_check mbind outcome_bind obj].
  rewrite (wrap_small 32) by (unfold is_word; lia). replace (off_data_table h - off_key_table h) with (Z.of_nat (length K)) by lia.
  rewrite file_read_inside by (try lia; unfold size; cbn [pos obj]; lia). cbn [pos obj psf_read mbind outcome_bind].
  rewrite Z.mul_1_r, !Nat2Z.id, image_keys.
  assert (take (Z.to_nat (Z.of_nat (length psf) * 16)) (drop (Z.to_nat (0 + 20)) (image psf pad)) = concat (map def_bytes (indices psf 0 0))) as ->.
  { unfold image. change (Z.to_nat (0 + 20)) with 20%nat. rewrite drop_app_length' by (by rewrite length_header_bytes). replace (Z.to_nat (Z.of_nat (length psf) * 16)) with (length (concat (map def_bytes (indices psf 0 0)))) by lia. apply take_app_length. }
  pose proof (defs_of_bytes (indices psf 0 0) [] (indices_ok psf [] eq_refl)) as Hds. rewrite app_nil_r, length_indices in Hds. rewrite Hds.
  destruct (load_entries_image psf [] (Stream (image psf pad) (off_key_table h + Z.of_nat (length K))) eq_refl eq_refl) as (s' & Hload).
  match goal with |- context [load_entries ?a ?b ?c ?d] => replace (load_entries a b c d) with (Done (s', shrink psf)) by (symmetry; exact Hload) end. cbn [mbind outcome_bind snd].
  rewrite bool_decide_true by exact Hcat. done.
Qed.
End Image.

(** C24: saving a registry and loading the file gives the registry back, with
    every value cut to the largest size of its entry (nothing is cut from one
    that [check_registry] accepts), whatever buffer [save_object] is given and
    wherever the file stands.  Provisos: keys are in order and they and the
    texts have no terminators inside and entries keep the limits of their type
    ([registry_ok]), the key table fits its 16-bit offsets and the file is
    smaller than 4 GiB ([fits]), and [CATEGORY] as it is stored is one of those
    the loader accepts ([category_ok]). *)
Theorem psf_roundtrip psf init p : registry_ok psf -> fits psf -> category_ok (shrink psf) ->
  exists file, save_object psf init = Some file /\ load (Some (Stream file p)) = Some (shrink psf, ok) /\
    (check_registry psf None = Some true -> shrink psf = psf).
Proof.
  intros Hok Hf Hcat. destruct (save_object_spec psf init Hok Hf) as (pad & Hs & Hpad). exists (image psf pad). split; [done|].
  split; [by apply load_image|]. destruct Hok as [_ Hall]. clear -Hall. induction Hall as [|[k e] psf (_ & _ & He) Hall IH]; [done|].
  cbn. destruct (is_valid e) as [[]|] eqn:Ev; [|cbn; destruct (as_string e), (check_registry psf None); done|done]. cbn. destruct (check_registry psf None) as [b|]; [|done]. cbn. intros [= ->].
  f_equal; [by rewrite (shrink_valid e He Ev)|by apply IH].
Qed.

(** ** Whatever is loaded is well-formed *)

Lemma c_str_ok l : bytes l -> bytes (c_str l) /\ no_nul (c_str l) /\ (length (c_str l) <= length l)%nat.
Proof.
  induction 1 as [|b l Hb Hl (IH1 & IH2 & IH3)]; [by repeat constructor|]. cbn. destruct (Z.eqb_spec b 0); cbn.
  - split_and!; [constructor..|lia].
  - split_and!; [by constructor..|lia].
Qed.

Lemma le_load_range l : bytes l -> is_word (8 * Z.of_nat (length l)) (le_load l).
Proof.
  unfold is_word. induction 1 as [|b l Hb Hl IH]; cbn [le_load length]; [lia|]. replace (8 * Z.of_nat (S (length l))) with (8 + 8 * Z.of_nat (length l)) by lia.
  rewrite Z.pow_add_r by lia. change (2 ^ 8) with 256 in *. nia.
Qed.

Lemma field_range off n l : bytes l -> 0 <= field off n l < 2 ^ (8 * Z.of_nat n).
Proof.
  intros Hl. pose proof (le_load_range (take n (drop off l)) ltac:(by apply Forall_take, Forall_drop)) as [H1 H2]. split; [done|].
  eapply Z.lt_le_trans; [done|]. apply Z.pow_le_mono_r; [lia|]. rewrite length_take. lia.
Qed.

Lemma def_of_range l : bytes l -> def_ok (def_of l).
Proof. intros Hl. split_and!; by apply field_range. Qed.

Lemma defs_of_range n l : bytes l -> Forall def_ok (defs_of n l).
Proof. revert l. induction n as [|n IH]; intros l Hl; cbn [defs_of]; constructor; [by apply def_of_range|by apply IH, Forall_drop]. Qed.

(** Bytes that were read are bytes of the file, as many as were asked for. *)
Lemma read_some n s : bytes (obj s) -> bytes (read n s).1 /\ obj (read n s).2 = obj s.
Proof. intros Hs. unfold read. destruct (_ <? _); [|by split; [constructor|]]. cbn. split; [|done]. by apply Forall_take, Forall_drop. Qed.

Lemma file_read_some n k s l s' : bytes (obj s) -> file_read n k s = (Some l, s') -> bytes l /\ obj s' = obj s /\ Z.of_nat (length l) = n * k.
Proof.
  intros Hs. unfold file_read. destruct (_ && _); [done|]. pose proof (read_some (n * k) s Hs) as [H1 H2]. destruct (read (n * k) s) as [b s1]. cbn in *.
  destruct (Z.eqb_spec (Z.of_nat (length b)) (n * k)); [|done]. by intros [= <- <-].
Qed.

Lemma file_read_pod_some k s l s' : bytes (obj s) -> file_read_pod k s = (Some l, s') -> bytes l /\ obj s' = obj s /\ Z.of_nat (length l) = k.
Proof.
  intros Hs. unfold file_read_pod. pose proof (read_some k s Hs) as [H1 H2]. destruct (read k s) as [b s1]. cbn in *.
  destruct (Z.eqb_spec (Z.of_nat (length b)) k); [|done]. by intros [= <- <-].
Qed.

Lemma seek_obj off w s : obj (seek off w s).2 = obj s.
Proof. unfold seek. by destruct (_ <? 0). Qed.

Lemma registry_emplace_in psf key e x : x ∈ emplace psf key e -> x = (key, e) \/ x ∈ psf.
Proof.
  induction psf as [|[k y] psf IH]; cbn [emplace]; [by rewrite list_elem_of_singleton; left|].
  destruct (key_ltb key k); [rewrite elem_of_cons; tauto|]. destruct (key_ltb k key); [|tauto]. rewrite !elem_of_cons. tauto.
Qed.

Lemma emplace_sorted psf key e : sorted psf -> sorted (emplace psf key e).
Proof.
  unfold sorted. induction psf as [|[k y] psf IH]; cbn [emplace]; [by repeat constructor|]. intros Hs. apply StronglySorted_inv in Hs as Hs'. destruct Hs' as [H1 H2].
  destruct (key_ltb key k) eqn:E1.
  - constructor; [done|]. constructor; [done|]. eapply Forall_impl; [exact H2|]. intros x Hx. by eapply key_lt_trans.
  - destruct (key_ltb k key) eqn:E2; [|done]. constructor; [by apply IH|]. apply Forall_forall. intros x [->|Hx]%registry_emplace_in; [exact E2|].
    rewrite Forall_forall in H2. by apply H2.
Qed.

Lemma registry_emplace psf key e : registry_ok psf -> bytes key -> no_nul key -> entry_ok e -> registry_ok (emplace psf key e).
Proof.
  intros [Hs Hall] Hk Hn He. split; [by apply emplace_sorted|]. apply Forall_forall. intros x [->|Hx]%registry_emplace_in; [done|]. rewrite Forall_forall in Hall. by apply Hall.
Qed.

(** A loaded entry. *)
Lemma make_entry_ok type max_size value e : 0 <= max_size < 2 ^ 32 - 1 -> bytes value -> (type = format.string -> no_nul value) ->
  Z.of_nat (length value) <= max_size -> make_entry type max_size value false = Some e -> entry_ok e.
Proof.
  intros Hm Hb Hn Hl. unfold make_entry. destruct (is_text type) eqn:Ht; [|done]. cbn [negb andb].
  destruct (Z.gtb_spec max_size (if type =? format.string then 1 else 0)); [|done]. cbn [negb]. intros [= <-]. right. cbn [m_type m_max_size m_value_integer m_value_string].
  split; [done|]. split; [lia|]. split; [done|]. split; [done|]. split; [done|lia].
Qed.

Lemma bind_done {A B} (m : outcome A) (f : A -> outcome B) y :
  match m with Done x => f x | Failed e => Failed e | Ended => Ended end = Done y -> exists x, m = Done x /\ f x = Done y.
Proof. destruct m; [eauto|done..]. Qed.

Lemma load_entry_ok h keys d s sfo st : bytes (obj s) -> size s < 2 ^ 32 -> bytes keys -> def_ok d -> 0 <= off_data_table h <= size s -> registry_ok sfo ->
  load_entry h keys d (s, sfo) = Done st -> obj (fst st) = obj s /\ registry_ok (snd st).
Proof.
  intros Hs Hsz Hk (D1 & D2 & D3 & D4 & D5) Hoff Hr. unfold load_entry, psf_check, psf_read, ensured, mbind, outcome_bind.
  destruct (_ <? _) eqn:C1; [|done].
  destruct (find sfo _); [done|].
  destruct (Z.leb_spec (param_len d) (param_max d)) as [C3|]; [|done].
  destruct (Z.ltb_spec (data_off d) (u64 (size s - off_data_table h))) as [C4|]; [|done].
  destruct (Z.ltb_spec (param_max d) (u64 (size s - data_off d))) as [C5|]; [|done].
  unfold is_word in *. rewrite (wrap_small 64) in C4 by (unfold is_word; lia). rewrite (wrap_small 64) in C5 by (unfold is_word; lia).
  destruct (c_str_ok (drop (Z.to_nat (key_off d)) keys) ltac:(by apply Forall_drop)) as (K1 & K2 & _). set (key := c_str _) in *.
  set (s1 := (seek _ _ s).2). assert (obj s1 = obj s) as Ho by apply seek_obj. rewrite <- Ho in Hs.
  destruct (_ && _ && _).
  - destruct (file_read_pod 4 s1) as [[l|] s2] eqn:E; [|done]. intros [= <-]. cbn.
    destruct (file_read_pod_some _ _ _ _ Hs E) as (L1 & L2 & L3). split; [congruence|]. apply registry_emplace; try done. left.
    pose proof (le_load_range l L1) as Hl. rewrite L3 in Hl. split_and!; try done; apply Hl.
  - destruct (is_text (param_fmt d)); [|by intros [= <-]]. destruct (file_read (param_len d) 1 s1) as [[l|] s2] eqn:E; [|done].
    destruct (file_read_some _ _ _ _ _ Hs E) as (L1 & L2 & L3). destruct (c_str_ok l L1) as (V1 & V2 & V3).
    destruct (make_entry _ _ _ _) as [e|] eqn:Em; [|done]. intros [= <-]. cbn [fst snd]. split; [congruence|]. apply registry_emplace; try done.
    eapply make_entry_ok; [..|exact Em]; [lia| | |]; destruct (Z.eqb_spec (param_fmt d) format.string); try done; lia.
Qed.

Lemma load_entries_ok h keys ds : forall s sfo st, bytes (obj s) -> size s < 2 ^ 32 -> bytes keys -> Forall def_ok ds -> 0 <= off_data_table h <= size s -> registry_ok sfo ->
  load_entries h keys ds (s, sfo) = Done st -> registry_ok (snd st).
Proof.
  induction ds as [|d ds IH]; intros s sfo st Hs Hsz Hk Hds Hoff Hr; cbn [load_entries]; [by intros [= <-]|].
  apply Forall_cons in Hds as [Hd Hds]. intros ([s1 sfo1] & E1 & E2)%bind_done.
  destruct (load_entry_ok _ _ _ _ _ _ Hs Hsz Hk Hd Hoff Hr E1) as [Ho Hr1]. cbn [fst snd] in *. unfold size in *. rewrite <- Ho in *.
  by apply (IH s1 sfo1 st).
Qed.

Lemma load_entries_failed h keys ds : forall st e, load_entries h keys ds st = Failed e -> e = corrupt.
Proof.
  assert (forall d st e, load_entry h keys d st = Failed e -> e = corrupt) as Hone.
  { intros d [s sfo] e. unfold load_entry, psf_check, psf_read, ensured, mbind, outcome_bind.
    repeat first [done | by intros [= <-] | destruct (_ <? _) | destruct (find _ _) | destruct (_ <=? _) | destruct (_ && _) | destruct (is_text _)
      | destruct (file_read_pod _ _) as [[?|] ?] | destruct (file_read _ _ _) as [[?|] ?] | destruct (make_entry _ _ _ _)]. }
  induction ds as [|d ds IH]; intros st e; cbn [load_entries]; [done|]. unfold mbind, outcome_bind.
  destruct (load_entry h keys d st) eqn:E; [apply IH|intros [= <-]; by eapply Hone|done].
Qed.

(** What was read, exactly. *)
Lemma read_exact n s : 0 <= n -> 0 <= pos s ->
  (read n s).1 = take (Z.to_nat n) (drop (Z.to_nat (pos s)) (obj s)) /\ (Z.of_nat (length (read n s).1) = n -> pos (read n s).2 = pos s + n).
Proof.
  intros Hn Hp. unfold read. destruct (Z.ltb_spec (pos s) (size s)) as [H|H]; cbn [fst snd pos]; unfold size in H |- *.
  - destruct (Z.min_spec n (Z.of_nat (length (obj s)) - pos s)) as [[? ->]|[? ->]]; [done|]. split.
    + by rewrite !take_ge by (rewrite length_drop; lia).
    + rewrite length_take, length_drop. lia.
  - rewrite drop_ge by lia. rewrite take_nil. cbn. split; [done|lia].
Qed.

Lemma file_read_pod_exact k s l s' : 0 <= pos s -> 0 <= k -> file_read_pod k s = (Some l, s') ->
  l = take (Z.to_nat k) (drop (Z.to_nat (pos s)) (obj s)) /\ pos s' = pos s + k.
Proof.
  intros Hp Hk. unfold file_read_pod. destruct (read_exact k s Hk Hp) as [H1 H2]. destruct (read k s) as [b s1]. cbn [fst snd] in *.
  destruct (Z.eqb_spec (Z.of_nat (length b)) k) as [E|]; [|done]. intros [= <- <-]. by split; [|apply H2].
Qed.

Lemma file_read_exact n k s l s' : 0 <= pos s -> 0 <= n * k -> file_read n k s = (Some l, s') ->
  l = take (Z.to_nat (n * k)) (drop (Z.to_nat (pos s)) (obj s)).
Proof.
  intros Hp Hk. unfold file_read. destruct (_ && _); [done|]. destruct (read_exact (n * k) s Hk Hp) as [H1 _]. destruct (read (n * k) s) as [b s1]. cbn [fst] in *.
  destruct (Z.of_nat (length b) =? n * k); [|done]. by intros [= <- <-].
Qed.

(** The descriptions of the entries in the file. *)
Definition declared (file : list Z) : list def_table_t :=
  let n := entries_num (header_of (take 20 file)) in defs_of (Z.to_nat n) (take (Z.to_nat (n * 16)) (drop 20 file)).

Lemma load_entries_ended h keys ds : forall st, load_entries h keys ds st = Ended ->
  exists d, d ∈ ds /\ is_text (param_fmt d) = true /\ param_max d <= (if param_fmt d =? format.string then 1 else 0).
Proof.
  assert (forall d st, load_entry h keys d st = Ended -> is_text (param_fmt d) = true /\ param_max d <= (if param_fmt d =? format.string then 1 else 0)) as Hone.
  { intros d [s sfo]. unfold load_entry, psf_check, psf_read, ensured, mbind, outcome_bind.
    destruct (_ <? _); [|discriminate]. destruct (find _ _); [discriminate|]. destruct (_ <=? _); [|discriminate].
    destruct (_ <? _); [|discriminate]. destruct (_ <? _); [|discriminate].
    destruct (_ && _ && _); [destruct (file_read_pod _ _) as [[?|] ?]; discriminate|]. destruct (is_text (param_fmt d)) eqn:Ht; [|discriminate].
    destruct (file_read _ _ _) as [[v|] ?]; [|discriminate]. unfold make_entry. rewrite Ht. cbn [negb].
    destruct (Z.gtb_spec (param_max d) (if param_fmt d =? format.string then 1 else 0)); [discriminate|done]. }
  induction ds as [|d ds IH]; intros st; cbn [load_entries]; [done|]. unfold mbind, outcome_bind.
  destruct (load_entry h keys d st) eqn:E.
  - intros (d' & Hd & Hb)%IH. exists d'. split; [by apply list_elem_of_further|done].
  - done.
  - intros _. exists d. split; [apply list_elem_of_here|by eapply Hone].
Qed.

(** C25: for every file below 4 GiB, [load] either reports an error and returns
    an empty registry, or returns a registry whose keys are in order and without
    terminators, whose entries keep the limits of their type, and whose category
    is a known one; it does not return only where an [ensure] of the entry's
    constructor fails, and then the file declares a text or array entry whose
    largest size leaves no room for a value. *)
Theorem psf_load_well_formed s : bytes (obj s) -> size s < 2 ^ 32 ->
  match load (Some s) with
  | Some (r, e) => (e = ok /\ registry_ok r /\ category_ok r) \/ (e <> ok /\ r = [])
  | None => exists d, d ∈ declared (obj s) /\ is_text (param_fmt d) = true /\ param_max d <= (if param_fmt d =? format.string then 1 else 0)
  end.
Proof.
  intros Hs Hsz. unfold load, load_stream, psf_check, psf_read, mbind, outcome_bind. set (s0 := (seek 0 seek_set s).2). assert (obj s0 = obj s) as Ho by apply seek_obj. rewrite <- Ho in Hs.
  destruct (file_read_pod 20 s0) as [[hb|] s1] eqn:E1; [|by right].
  destruct (file_read_pod_some _ _ _ _ Hs E1) as (Hhb & Ho1 & _). set (h := header_of hb).
  assert (0 <= off_data_table h) as Hoff by (apply (field_range 12 4 hb Hhb)).
  destruct (magic h =? PSF_magic); [|by right]. destruct (version h =? 0x101); [|by right].
  destruct (off_key_table h >=? 20); [|by right]. destruct (off_key_table h <=? off_data_table h); [|by right].
  destruct (Z.leb_spec (off_data_table h) (size s1)) as [Hsize|]; [|by right]. 
  rewrite <- Ho1 in Hs. destruct (file_read (entries_num h) 16 s1) as [[ib|] s2] eqn:E2; [|by right].
  destruct (file_read_some _ _ _ _ _ Hs E2) as (Hib & Ho2 & _). 
  pose proof (seek_obj (off_key_table h) seek_set s2) as Ho3. destruct (seek (off_key_table h) seek_set s2) as [at_ s3]. cbn [snd] in Ho3.
  destruct (at_ =? off_key_table h); [|by right].  rewrite <- Ho2, <- Ho3 in Hs.
  destruct (file_read (u32 _) 1 s3) as [[keys|] s4] eqn:E4; [|by right]. destruct (file_read_some _ _ _ _ _ Hs E4) as (Hkeys & Ho4 & _).
   destruct (load_entries _ _ _ _) as [st|e0|] eqn:E5; [|apply load_entries_failed in E5 as ->; by right|].
  2:{ destruct (load_entries_ended _ _ _ _ E5) as (d & Hd & Hbad). exists d. split; [|exact Hbad].
      assert (pos s0 = 0) as Hp0 by done. pose proof (field_range 16 4 hb Hhb) as [Hen _].
      destruct (file_read_pod_exact 20 s0 hb s1 ltac:(lia) ltac:(lia) E1) as [Eh Hp1].
      pose proof (file_read_exact (entries_num h) 16 s1 ib s2 ltac:(lia) ltac:(cbn; lia) E2) as Eb.
      rewrite Hp0 in Eh. rewrite Ho1, Hp1, Hp0 in Eb. unfold declared. rewrite <- Ho. change (take 20 (obj s0)) with (take (Z.to_nat 20) (drop (Z.to_nat 0) (obj s0))).
      rewrite <- Eh. fold h. change (drop 20 (obj s0)) with (drop (Z.to_nat (0 + 20)) (obj s0)). by rewrite <- Eb. }
  case_bool_decide as Hcat; [left|by right]. split; [done|]. split; [|exact Hcat].
  rewrite <- Ho4 in Hs. assert (forall x : stream, obj x = obj s -> size x = size s) as Hsize' by (intros x Hx; unfold size; by rewrite Hx).
  rewrite (Hsize' s1) in Hsize by congruence. apply (load_entries_ok h keys (defs_of (Z.to_nat (entries_num h)) ib) s4 []); try done.
  - by rewrite (Hsize' s4) by congruence.
  - by apply defs_of_range.
  - rewrite (Hsize' s4) by congruence. lia.
  - split; constructor.
Qed.

(** ** Examples *)

(** A title that is too long for its entry. *)
Definition sfo_demo : registry :=
  [(chars "CATEGORY"%string, Entry format.string 4 0 (chars "HG"%string)); (chars "PARENTAL_LEVEL"%string, make_integer 5);
   (chars "TITLE"%string, Entry format.string 5 0 (chars "A long title"%string))].

Definition sfo_demo_loaded : registry :=
  [(chars "CATEGORY"%string, Entry format.string 4 0 (chars "HG"%string)); (chars "PARENTAL_LEVEL"%string, make_integer 5);
   (chars "TITLE"%string, Entry format.string 5 0 (chars "A lo"%string))].

Lemma sfo_demo_ok : registry_ok sfo_demo.
Proof.
  split; [repeat constructor|]. apply Forall_forall. intros x Hx.
  repeat (apply elem_of_cons in Hx as [->|Hx]; [|]); [..|by apply not_elem_of_nil in Hx].
  all: split; [refine (bool_decide_unpack _ _); vm_compute; exact I|]; split; [refine (bool_decide_unpack _ _); vm_compute; exact I|].
  - right. split; [done|]. split; [cbn; lia|]. split; [done|]. split; [refine (bool_decide_unpack _ _); vm_compute; exact I|].
    split; [intros _; refine (bool_decide_unpack _ _); vm_compute; exact I|]. cbn. lia.
  - left. split; [done|]. split; [done|]. split; [cbn; unfold is_word; lia|done].
  - right. split; [done|]. split; [cbn; lia|]. split; [done|]. split; [refine (bool_decide_unpack _ _); vm_compute; exact I|].
    split; [intros _; refine (bool_decide_unpack _ _); vm_compute; exact I|]. cbn. lia.
Qed.

Lemma psf_roundtrip_witness : exists file, save_object sfo_demo [1; 2; 3] = Some file /\ length file = 113%nat /\
  load (Some (Stream file 7)) = Some (sfo_demo_loaded, ok).
Proof.
  assert (fits sfo_demo) as Hf by (split; vm_compute; congruence).
  assert (category_ok (shrink sfo_demo)) as Hc by (refine (bool_decide_unpack _ _); vm_compute; exact I).
  destruct (psf_roundtrip sfo_demo [1; 2; 3] 7 sfo_demo_ok Hf Hc) as (file & Hs & Hl & _). exists file. split; [exact Hs|].
  split; [|exact Hl]. vm_compute in Hs. injection Hs as <-. reflexivity.
Defined.

Definition sfo_demo_file : list Z := default [] (save_object sfo_demo []).

Lemma psf_load_well_formed_witness : load (Some (Stream sfo_demo_file 0)) = Some (sfo_demo_loaded, ok) /\ registry_ok sfo_demo_loaded.
Proof.
  assert (bytes (obj (Stream sfo_demo_file 0))) as Hb by (refine (bool_decide_unpack _ _); vm_compute; exact I).
  assert (size (Stream sfo_demo_file 0) < 2 ^ 32) as Hsz by (vm_compute; reflexivity).
  assert (load (Some (Stream sfo_demo_file 0)) = Some (sfo_demo_loaded, ok)) as Hl by (vm_compute; reflexivity). split; [exact Hl|].
  pose proof (psf_load_well_formed _ Hb Hsz) as H. rewrite Hl in H. destruct H as [(_ & H & _)|[H _]]; [exact H|by destruct H].
Defined.

(** A text entry that leaves no room for a terminator ends the program instead
    of being reported: the constructor's [ensure] fails. *)
Lemma load_small_max_ends :
  load (Some (Stream (header_bytes (Header PSF_magic 0x101 36 40 1) ++ def_bytes (Def 0 format.string 1 1 0) ++ [65; 0; 0; 0] ++ [0; 0; 0; 0]) 0)) = None.
Proof. vm_compute. reflexivity. Qed.

(** A number that the caller's condition refuses ends the program: the message
    about it takes its text. *)
Lemma check_registry_refused_number :
  check_registry [(chars "PARENTAL_LEVEL"%string, make_integer 12)] (Some (fun _ _ e => m_value_integer e <? 12)) = None.
Proof. vm_compute. reflexivity. Qed.

(** The place of a key in the file has 16 bits, which [save_object] does not
    check: here the second key is stored with the offset of the first. *)
Lemma key_offset_wraps :
  let psf := [(repeat 65 (Z.to_nat 65535), make_integer 1); (chars "CATEGORY"%string, Entry format.string 4 0 (chars "HG"%string))] in
  load (flip Stream 0 <$> save_object psf []) = Some ([], corrupt).
Proof. vm_compute. reflexivity. Qed.
