(* ===== verification/Vm.v ===== *)
(** * Guest virtual memory

    The page table, the memory areas ([block_t]) and the shared-memory marks of
    [rpcs3/Emu/Memory/vm.cpp] and [vm.h].  Every function runs under the lock
    [vm::writer_lock], so it is one step.  [None] is an exception or a failed
    [ensure].  Addresses and sizes are 32-bit words; areas and shared memory
    are references, positions in the list of all that were ever made, since
    handles of both outlive an area.  The mappings of the host (and the text
    of its failures), the graphics processor's notifications and the bytes of
    the memory are not part of the state. *)
From stdpp Require Import gmap.
From S2P Require Import Prelude StdMap.

(** [page_info_t]. *)
Definition page_readable : Z := 1.
Definition page_writable : Z := 2.
Definition page_executable : Z := 4.
Definition page_64k_size : Z := 32.
Definition page_1m_size : Z := 64.
Definition page_allocated : Z := 128.

(** [block_flags_3] and [alloc_flags]. *)
Definition page_size_4k : Z := 0x100.
Definition page_size_64k : Z := 0x200.
Definition page_size_1m : Z := 0x400.
Definition page_size_mask : Z := 0xf00.
Definition stack_guarded : Z := 0x10.
Definition preallocated : Z := 0x20.
Definition bf0_0x1 : Z := 0x1.
Definition bf0_0x2 : Z := 0x2.
Definition bf0_mask : Z := 0x3.
Definition alloc_hidden : Z := 0x1000.
Definition alloc_unwritable : Z := 0x2000.
Definition alloc_executable : Z := 0x4000.
Definition alloc_prot_mask : Z := 0x7000.

(** [range_lock_flags]. *)
Definition range_locked : Z := 0x8000000000000000.

(** [memory_location_t]. *)
Definition main : Z := 0.
Definition user64k : Z := 1.
Definition user1m : Z := 2.
Definition rsx_context : Z := 3.
Definition video : Z := 4.
Definition stack : Z := 5.
Definition spu : Z := 6.
Definition memory_location_max : Z := 7.
Definition any : Z := 0xffffffff.

(** [x & flags], and [~x & flags], as conditions. *)
Definition has (x flags : Z) : bool := negb (Z.land x flags =? 0).
Definition lacks (x flags : Z) : bool := negb (Z.land (Z.lnot x) flags =? 0).

(** [rx::alignUp] of a 32-bit value. *)
Definition alignUp (value alignment : Z) : Z := Z.land (u32 (value + (alignment - 1))) (Z.lnot (alignment - 1)).

(** [utils::shm]: its flags, the user data [info] and the address of its own
    mapping (0: none yet). *)
Record shm := Shm { s_flags : Z; s_info : Z; s_ptr : Z }.

(** [block_t]: [b_id] is 0 once the block has expired; [m_map] holds the
    allocations, address to size and shared memory. *)
Record block_t := Block { b_addr : Z; b_size : Z; b_flags : Z; b_id : Z; m_map : list (Z * (Z * option nat)) }.

Abbreviation table := (gmap Z Z).
Definition word_at (t : table) (i : Z) : Z := default 0 (t !! i).

Record vm := Vm {
  g_pages : table; g_shmem : table; g_locations : list (option nat);
  blocks : list block_t; shms : list shm; s_id : Z
}.

Definition set_pages (t : table) (v : vm) : vm := Vm t (g_shmem v) (g_locations v) (blocks v) (shms v) (s_id v).
Definition set_shmem (t : table) (v : vm) : vm := Vm (g_pages v) t (g_locations v) (blocks v) (shms v) (s_id v).
Definition set_locations (l : list (option nat)) (v : vm) : vm := Vm (g_pages v) (g_shmem v) l (blocks v) (shms v) (s_id v).
Definition set_blocks (l : list block_t) (v : vm) : vm := Vm (g_pages v) (g_shmem v) (g_locations v) l (shms v) (s_id v).
Definition set_shms (l : list shm) (v : vm) : vm := Vm (g_pages v) (g_shmem v) (g_locations v) (blocks v) l (s_id v).

(** The pages, and the 64 KiB units, of a range of addresses. *)
Definition pages_of (addr size : Z) : list Z := seqZ (addr / 4096) (size / 4096).
Definition units_of (addr size : Z) : list Z := seqZ (addr / 65536) (size / 65536).

Definition guarded (b : block_t) : bool := has (b_flags b) stack_guarded.

(** The eligibility of an area in the function [try_alloc] gives to
    [_page_map]. *)
Definition eligible (b : block_t) : bool :=
  has page_size_mask (b_flags b) && negb (b_addr b <? 0x20000000) && negb (b_addr b >=? 0xC0000000).

Definition is_shm (r : nat) (e : Z * (Z * option nat)) : bool := match e.2.2 with Some r' => Nat.eqb r r' | None => false end.

Definition search_shm (b : block_t) (r : nat) : option (Z * Z) :=
  if eligible b then '(a, (s, _)) ← snd <$> list_find (is_shm r) (m_map b); Some (a, s) else None.

(** [release] on consecutive units, the address moving on. *)
Fixpoint release_from (l : list Z) (x : Z) (t : table) : table * Z :=
  match l with
  | [] => (t, x)
  | i :: l => release_from l (u64 (x + 0x10000)) (<[i := x]> t)
  end.

(** [exchange] on every page, which must give 0. *)
Fixpoint exchange_all (l : list Z) (x : Z) (t : table) : option table :=
  match l with
  | [] => Some t
  | i :: l => if word_at t i =? 0 then exchange_all l x (<[i := x]> t) else None
  end.

Definition release_all (l : list Z) (x : Z) (t : table) : table := foldl (fun t i => <[i := x]> t) t l.

(** The size [_page_unmap] determines: pages up to the first that is not
    allocated, all executable or none. *)
Fixpoint unmap_size (l : list Z) (t : table) (size : Z) (is_exec : bool) : option Z :=
  match l with
  | [] => Some size
  | i :: l =>
      if negb (has (word_at t i) page_allocated) then Some size
      else
        let exec := has (word_at t i) page_executable in
        if (size =? 0) || Bool.eqb is_exec exec then unmap_size l t (u32 (size + 4096)) (if size =? 0 then exec else is_exec) else None
  end.

Section Host.
(** The address at which the host maps a shared-memory object for
    [utils::shm::map_self], and the size of its pages. *)
Context (map_address : nat -> Z) (get_page_size : Z).

Definition map_self (r : nat) (v : vm) : vm :=
  set_shms (alter (fun s => Shm (s_flags s) (s_info s) (if s_ptr s =? 0 then map_address r else s_ptr s)) r (shms v)) v.

Definition set_info (x : Z) (s : shm) : shm := Shm (s_flags s) x (s_ptr s).

Definition check_pointer (x : Z) : bool := Z.land x 0xffff00000000ffff =? range_locked.

(** The mirrors of a shared-memory object in all areas are marked, the address
    moving on from one to the next. *)
Fixpoint mark_mirrors (ls : list (option nat)) (bs : list block_t) (r : nat) (x : Z) (t : table) : table :=
  match ls with
  | [] => t
  | Some i :: ls =>
      match b ← bs !! i; search_shm b r with
      | Some (a, s) => let '(t, x) := release_from (units_of a s) x t in mark_mirrors ls bs r x t
      | None => mark_mirrors ls bs r x t
      end
  | None :: ls => mark_mirrors ls bs r x t
  end.

(** The part of [_page_map] that counts the mappings of shared memory and marks
    them in [g_shmem] once there are two. *)
Definition share (addr size : Z) (sh : option nat) (v : vm) : option vm :=
  match sh with
  | None => Some v
  | Some r =>
      s ← shms v !! r;
      if s_flags s =? 0 then Some v
      else
        let info := u64 (s_info s + 1) in
        let v := set_shms (alter (set_info info) r (shms v)) v in
        if s_info s =? 0 then Some v
        else
          v ← (if info =? 2 then
                 let v := map_self r v in
                 s ← shms v !! r;
                 let shm_self := Z.lxor (s_ptr s) range_locked in
                 if negb (check_pointer shm_self) then None
                 else
                   let v := set_shmem (mark_mirrors (g_locations v) (blocks v) r shm_self (g_shmem v)) v in
                   Some (set_shms (alter (set_info 0xffffffff) r (shms v)) v)
               else Some v);
          s ← shms v !! r;
          let shm_self := Z.lxor (s_ptr s) range_locked in
          if negb (check_pointer shm_self) then None
          else Some (set_shmem (release_from (units_of addr size) shm_self (g_shmem v)).1 v)
  end.

Definition is_noop (bflags : Z) : bool := has bflags page_size_4k && (get_page_size >? 4096).

(** [_page_map]. *)
Definition page_map (addr flags size : Z) (sh : option nat) (bflags : Z) (v : vm) : option vm :=
  if (size =? 0) || negb (Z.lor size addr mod 4096 =? 0) || has flags page_allocated then None
  else if existsb (fun i => negb (word_at (g_pages v) i =? 0)) (pages_of addr size) then None
  else
    v ← share addr size sh v;
    let v := match sh with Some r => if is_noop bflags then v else map_self r v | None => v end in
    t ← exchange_all (pages_of addr size) (Z.lor flags page_allocated) (g_pages v);
    Some (set_pages t v).

(** The part of [_page_unmap] that takes a marked mapping back. *)
Definition unshare (addr size : Z) (sh : option nat) (v : vm) : option vm :=
  match sh with
  | None => Some v
  | Some r =>
      s ← shms v !! r;
      if negb (s_flags s =? 0) && negb (word_at (g_shmem v) (Z.shiftr addr 16) =? 0) then
        let v := set_shms (alter (set_info (u64 (s_info s - 1))) r (shms v)) v in
        Some (set_shmem (release_all (units_of addr size) 0 (g_shmem v)) v)
      else Some v
  end.

(** [_page_unmap]: the size that was unmapped. *)
Definition page_unmap (addr max_size : Z) (sh : option nat) (v : vm) : option (Z * vm) :=
  if (max_size =? 0) || negb (Z.lor max_size addr mod 4096 =? 0) then None
  else
    size ← unmap_size (pages_of addr max_size) (g_pages v) 0 false;
    v ← unshare addr size sh v;
    Some (size, set_pages (release_all (pages_of addr size) 0 (g_pages v)) v).

(** ** Checks and protection of pages *)

Fixpoint check_loop (fuel : nat) (t : table) (flags i last : Z) : bool :=
  match fuel with
  | O => true
  | S fuel =>
      if last <? i then true
      else if lacks (word_at t i) flags then false
      else check_loop fuel t flags
        (if has (word_at t i) page_1m_size then alignUp (i + 1) (0x100000 / 4096)
         else if has (word_at t i) page_64k_size then alignUp (i + 1) (0x10000 / 4096)
         else i + 1) last
  end.

(** [check_addr]: the loop moves on by a page at least. *)
Definition check_addr (addr flags size : Z) (v : vm) : bool :=
  if size =? 0 then true
  else if 0x100000000 - addr <? size then false
  else let last := u32 (addr + size - 1) / 4096 in
       check_loop (Z.to_nat (last - addr / 4096 + 1)) (g_pages v) (Z.lor flags page_allocated) (addr / 4096) last.

Definition new_flags (flags_set flags_clear x : Z) : Z := Z.land (Z.lor x flags_set) (bnot 8 flags_clear).

(** The loop of [page_protect]: [start] is the first page of the run of pages
    that get the same value, [start_value]. *)
Fixpoint protect_loop (l : list Z) (last : Z) (flags_set flags_clear : Z) (start start_value : Z) (t : table) : table :=
  match l with
  | [] => t
  | i :: l =>
      let new_val := if i <? last then new_flags flags_set flags_clear (word_at t i) else page_executable in
      if negb (new_val =? start_value) then
        let t := if negb (u32 ((i - start) * 4096) =? 0) && negb (word_at t start =? start_value)
                 then release_all (seqZ start (i - start)) start_value t else t in
        protect_loop l last flags_set flags_clear i new_val t
      else protect_loop l last flags_set flags_clear start start_value t
  end.

Definition page_protect (addr size flags_test flags_set flags_clear : Z) (v : vm) : option (bool * vm) :=
  if (size =? 0) || negb (Z.lor size addr mod 4096 =? 0) then None
  else
    let flags_both := Z.land flags_set flags_clear in
    let flags_set := Z.land flags_set (bnot 8 flags_both) in
    let flags_clear := Z.land flags_clear (bnot 8 flags_both) in
    if negb (check_addr addr (Z.lor flags_test page_allocated) size v) then Some (false, v)
    else if (flags_set =? 0) && (flags_clear =? 0) then Some (true, v)
    else
      let start := addr / 4096 in
      let last := start + size / 4096 in
      Some (true, set_pages (protect_loop (seqZ start (size / 4096 + 1)) last flags_set flags_clear start page_executable (g_pages v)) v).

(** ** Areas *)

(** [operator[]] of the map and an assignment. *)
Definition assign (m : list (Z * (Z * option nat))) (k : Z) (e : Z * option nat) : list (Z * (Z * option nat)) :=
  match at_key m k with Some _ => set_at m k e | None => insert_entry m k e end.

Definition set_map (m : list (Z * (Z * option nat))) (b : block_t) : block_t := Block (b_addr b) (b_size b) (b_flags b) (b_id b) m.

(** The flags of the pages of an allocation. *)
Definition page_flags (bflags : Z) : Z :=
  let flags := if lacks bflags alloc_hidden then
                 if lacks bflags alloc_unwritable then Z.lor page_readable page_writable else page_readable
               else 0 in
  let flags := if has bflags alloc_executable then Z.lor flags page_executable else flags in
  if Z.land bflags page_size_mask =? page_size_64k then Z.lor flags page_64k_size
  else if negb (has bflags (Z.land page_size_mask (Z.lnot page_size_1m))) then Z.lor flags page_1m_size
  else flags.

(** The guard pages are marked as allocated; they were free. *)
Definition mark_guards (addr size : Z) (v : vm) : option vm :=
  t ← exchange_all [addr / 4096] page_allocated (g_pages v);
  t ← exchange_all [addr / 4096 + size / 4096 - 1] page_allocated t;
  Some (set_pages t v).

(** [block_t::try_alloc]. *)
Definition try_alloc (r : nat) (addr bflags size : Z) (sh : option nat) (v : vm) : option (bool * vm) :=
  b ← blocks v !! r;
  if existsb (fun i => negb (word_at (g_pages v) i =? 0)) (seqZ (addr / 4096) (u32 (addr + size - 1) / 4096 - addr / 4096 + 1))
  then Some (false, v)
  else
    v ← (if guarded b then mark_guards addr size v else Some v);
    v ← page_map (u32 (addr + if guarded b then 0x1000 else 0)) (page_flags bflags) (u32 (size - if guarded b then 0x2000 else 0)) sh (b_flags b) v;
    Some (true, set_blocks (alter (fun b => set_map (assign (m_map b) addr (size, sh)) b) r (blocks v)) v).

Definition process_block_flags (flags : Z) : Z :=
  let flags := if Z.land flags page_size_mask =? 0 then Z.lor flags page_size_1m else flags in
  if has flags page_size_4k then Z.lor flags preallocated else Z.land flags (Z.lnot stack_guarded).

(** The constructor of [block_t]: the new reference. *)
Definition make_block (addr size flags : Z) (v : vm) : nat * vm :=
  (length (blocks v),
   Vm (g_pages v) (g_shmem v) (g_locations v) (blocks v ++ [Block addr size (process_block_flags flags) (s_id v) []]) (shms v) (u64 (s_id v + 1))).

(** [make_shared<utils::shm>]. *)
Definition make_shm (flags : Z) (v : vm) : nat * vm := (length (shms v), set_shms (shms v ++ [Shm flags 0 0]) v).

Definition has_common (b : block_t) : bool := has (b_flags b) preallocated.

(** The shared memory of a new allocation: none in a preallocated area, the
    given one or a new one. *)
Definition import_shm (b : block_t) (src : option nat) (v : vm) : option (option nat * vm) :=
  if has_common b then match src with Some _ => None | None => Some (None, v) end
  else match src with
       | Some r => Some (Some r, v)
       | None => let '(r, v) := make_shm 0 v in Some (Some r, v)
       end.

(** The flags of an allocation: those of the area without a given shared
    memory, except for the protection. *)
Definition merge_flags (b : block_t) (src : option nat) (flags : Z) : Z :=
  match src with
  | Some _ => flags
  | None => Z.lor (Z.land (b_flags b) (Z.lnot alloc_prot_mask)) (Z.land flags alloc_prot_mask)
  end.

Definition min_page_size (flags : Z) : Z := if has flags page_size_4k then 0x1000 else 0x10000.

(** [align == (0x80000000u >> std::countl_zero(align))]. *)
Definition is_align (align : Z) : bool := align =? Z.shiftr 0x80000000 (countl_zero 32 align).

Fixpoint alloc_loop (fuel : nat) (r : nat) (addr max align flags size : Z) (sh : option nat) (v : vm) : option (Z * vm) :=
  match fuel with
  | O => Some (0, v)
  | S fuel =>
      '(ok, v) ← try_alloc r addr flags size sh v;
      if (ok : bool) then Some (u32 (addr + if has flags stack_guarded then 0x1000 else 0), v)
      else if addr =? max then Some (0, v)
      else alloc_loop fuel r (u32 (addr + align)) max align flags size sh v
  end.

(** [block_t::alloc]: the address or 0. *)
Definition block_alloc (r : nat) (orig_size : Z) (src : option nat) (align flags : Z) (v : vm) : option (Z * vm) :=
  b ← blocks v !! r;
  let flags := merge_flags b src flags in
  let size := u32 (alignUp orig_size (min_page_size flags) + if has flags stack_guarded then 0x2000 else 0) in
  if (align <? min_page_size flags) || negb (is_align align) then None
  else if (orig_size =? 0) || (size =? 0) || (orig_size >? size) || (size >? b_size b) then Some (0, v)
  else
    '(sh, v) ← import_shm b src v;
    let max := Z.land (u32 (b_addr b + b_size b - size)) (u32 (- align)) in
    let addr := alignUp (b_addr b) align in
    if (b_addr b >? max) || (addr >? max) then Some (0, v)
    else if b_id b =? 0 then Some (0, v)
    else alloc_loop (Z.to_nat ((max - addr) / align + 1)) r addr max align flags size sh v.

(** [block_t::falloc]. *)
Definition block_falloc (r : nat) (addr orig_size : Z) (src : option nat) (flags : Z) (v : vm) : option (bool * vm) :=
  b ← blocks v !! r;
  let flags := merge_flags b src flags in
  let m := min_page_size flags in
  let size0 := u32 (orig_size + addr mod m) in
  let size := alignUp size0 m in
  if (size =? 0) || (addr <? b_addr b) || (orig_size >? size0) || (orig_size >? size) ||
     (u32 (addr - addr mod m) + size >? b_addr b + b_size b) ||
     (match src with Some _ => negb (Z.lor orig_size addr mod m =? 0) | None => false end) || has flags stack_guarded
  then Some (false, v)
  else
    '(sh, v) ← import_shm b src v;
    if b_id b =? 0 then Some (false, v) else try_alloc r (u32 (addr - addr mod m)) flags size sh v.

(** The guard pages are freed; they were marked and nothing else. *)
Definition clear_guards (addr size : Z) (v : vm) : option vm :=
  let i := addr / 4096 - 1 in let j := addr / 4096 + size / 4096 in
  if negb (word_at (g_pages v) i =? page_allocated) then None
  else let t := <[i := 0]> (g_pages v) in
       if negb (word_at t j =? page_allocated) then None else Some (set_pages (<[j := 0]> t) v).

(** [block_t::dealloc]: the size or 0. *)
Definition block_dealloc (r : nat) (addr : Z) (src : option nat) (v : vm) : option (Z * vm) :=
  b ← blocks v !! r;
  let key := u32 (addr - if guarded b then 0x1000 else 0) in
  match at_key (m_map b) key with
  | None => Some (0, v)
  | Some (msize, sh) =>
      if match src with Some s => negb (bool_decide (sh = Some s)) | None => false end then Some (0, v)
      else
        let size := u32 (msize - if guarded b then 0x2000 else 0) in
        v ← (if guarded b then clear_guards addr size v else Some v);
        '(n, v) ← page_unmap addr size sh v;
        if negb (size =? n) then None
        else Some (size, set_blocks (alter (fun b => set_map (erase (m_map b) key) b) r (blocks v)) v)
  end.

(** The loop of [block_t::unmap]. *)
Fixpoint unmap_all (m : list (Z * (Z * option nat))) (v : vm) : option vm :=
  match m with
  | [] => Some v
  | (a, (size, sh)) :: m => '(n, v) ← page_unmap a size sh v; if size =? n then unmap_all m v else None
  end.

(** [block_t::unmap]. *)
Definition block_unmap (r : nat) (v : vm) : option (bool * vm) :=
  b ← blocks v !! r;
  if b_id b =? 0 then Some (false, v)
  else
    v ← unmap_all (m_map b) (set_blocks (alter (fun b => Block (b_addr b) (b_size b) (b_flags b) 0 (m_map b)) r (blocks v)) v);
    Some (true, v).

(** [block_t::peek], [block_t::imp_used] and [block_t::get_shm_addr].  The
    sizes of shared memory are the host's: [shm_size]. *)
Definition peek (shm_size : nat -> Z) (b : block_t) (addr size : Z) : Z * option nat :=
  if (addr <? b_addr b) || (addr + size >? b_addr b + b_size b) then (addr, None)
  else match prev (m_map b) (addr + 1) with
       | None => (addr, None)
       | Some a =>
           if (size =? 0) && negb (a =? addr) then (addr, None)
           else if has_common b then (addr, None)
           else match at_key (m_map b) a with
                | Some (_, Some s) => if addr + size >? a + shm_size s then (addr, None) else (a, Some s)
                | _ => (addr, None)
                end
       end.

Definition imp_used (b : block_t) : Z := foldl (fun n e => u32 (n + u32 (e.2.1 - if guarded b then 0x2000 else 0))) 0 (m_map b).

Definition get_shm_addr (b : block_t) (r : nat) : Z :=
  if has_common b then 0 else default 0 ((fun x => x.2.1) <$> list_find (is_shm r) (m_map b)).

(** ** Locations *)

(** [address_range::start_length] and [overlaps]; [None] is the invalid
    range. *)
Definition start_length (start length : Z) : option (Z * Z) :=
  if length =? 0 then None
  else let last := u32 (start + (length - 1)) in if start <=? last then Some (start, last) else None.

Definition overlaps (r r' : Z * Z) : bool := (r.1 <=? r'.2) && (r'.1 <=? r.2).

(** [_test_map]. *)
Definition test_map (addr size : Z) (v : vm) : bool :=
  match start_length addr size with
  | None => false
  | Some range =>
      forallb (fun l => match b ← (l ≫= (blocks v !!.)); start_length (b_addr b) (b_size b) with
                        | Some range' => negb (overlaps range range')
                        | None => true
                        end) (g_locations v)
  end.

Fixpoint find_map_loop (fuel : nat) (addr max align size : Z) (v : vm) : option Z :=
  match fuel with
  | O => None
  | S fuel =>
      if test_map addr size v then Some addr
      else if addr =? max then None
      else find_map_loop fuel (u32 (addr + align)) max align size v
  end.

(** [_find_map], without the block it makes. *)
Definition find_map_at (size align : Z) (v : vm) : option Z :=
  let max := Z.land (u32 (0xC0000000 - size)) (u32 (- align)) in
  if (size >? 0xC0000000 - 0x10000000) || (max <? 0x10000000) then None
  else let addr := alignUp 0x10000000 align in find_map_loop (Z.to_nat ((max - addr) / align + 1)) addr max align size v.

Definition push_location (r : nat) (v : vm) : vm := set_locations (g_locations v ++ [Some r]) v.

(** [_map]. *)
Definition map_at (addr size flags : Z) (v : vm) : option (option nat * vm) :=
  if (size =? 0) || negb (Z.lor size addr mod 4096 =? 0) then None
  else if negb (test_map addr size v) then Some (None, v)
  else if existsb (fun i => negb (word_at (g_pages v) i =? 0)) (pages_of addr size) then None
  else let '(r, v) := make_block addr size flags v in Some (Some r, push_location r v).

Definition in_block (addr : Z) (v : vm) (l : option nat) : bool :=
  match l ≫= (blocks v !!.) with
  | Some b => (b_addr b <=? addr) && (addr <=? u32 (b_addr b + b_size b - 1))
  | None => false
  end.

(** [_get_map]. *)
Definition get_map (location addr : Z) (v : vm) : option nat :=
  if negb (location =? any) then mjoin (g_locations v !! Z.to_nat location)
  else mjoin (snd <$> list_find (in_block addr v) (g_locations v)).

(** [map]. *)
Definition vm_map (addr size flags : Z) (v : vm) : option (option nat * vm) := map_at addr size flags v.

(** [find_map]. *)
Definition find_map (orig_size align flags : Z) (v : vm) : option (option nat * vm) :=
  let size := alignUp orig_size 0x10000 in
  if (align <? 0x10000) || negb (is_align align) then None
  else if size =? 0 then Some (None, v)
  else match find_map_at size align v with
       | Some addr => let '(r, v) := make_block addr size flags v in Some (Some r, push_location r v)
       | None => Some (None, v)
       end.

(** [reserve_map]. *)
Definition reserve_map (location addr area_size flags : Z) (v : vm) : option (option nat * vm) :=
  match get_map location addr v with
  | Some r => Some (Some r, v)
  | None =>
      if negb (location =? any) && (location <? Z.of_nat (length (g_locations v))) then
        match find_map_at area_size 0x10000000 v with
        | Some a => let '(r, v) := make_block a area_size flags v in
                    Some (Some r, set_locations (<[Z.to_nat location := Some r]> (g_locations v)) v)
        | None => Some (None, v)
        end
      else map_at addr area_size flags v
  end.

(** The loop of [unmap] over the locations, with the position: the block to
    look at, [None] at the end, or nothing at all when another block is
    there. *)
Fixpoint unmap_find (ls : list (option nat)) (i : nat) (addr : Z) (must_be_empty : bool) (ptr : option nat) (v : vm) : option (nat * nat) :=
  match ls with
  | [] => None
  | l :: ls =>
      let skip := unmap_find ls (S i) addr must_be_empty ptr v in
      match l with
      | Some r =>
          match blocks v !! r with
          | Some b =>
              if negb (b_addr b =? addr) then skip
              else if must_be_empty && has (b_flags b) bf0_mask then skip
              else if negb must_be_empty && negb (Z.land (b_flags b) bf0_mask =? bf0_0x2) then skip
              else if match ptr with Some p => negb (Nat.eqb r p) | None => false end then None
              else Some (i, r)
          | None => skip
          end
      | None => skip
      end
  end.

(** [unmap]: the area and whether it was unmapped. *)
Definition vm_unmap (addr : Z) (must_be_empty : bool) (ptr : option nat) (v : vm) : option (option nat * bool * vm) :=
  addr ← match ptr with Some p => b_addr <$> blocks v !! p | None => Some addr end;
  if Z.of_nat (length (g_locations v)) <? memory_location_max then None
  else
    match unmap_find (drop (Z.to_nat memory_location_max) (g_locations v)) (Z.to_nat memory_location_max) addr must_be_empty ptr v with
    | None => Some (None, false, v)
    | Some (i, r) =>
        b ← blocks v !! r;
        if must_be_empty && negb (imp_used b =? 0) then Some (Some r, false, v)
        else
          '(ok, v) ← block_unmap r (set_locations (delete i (g_locations v)) v);
          if (ok : bool) then Some (Some r, true, v) else None
    end.

(** [vm::alloc], [vm::falloc] and [vm::dealloc]: the location is looked up in a
    step of its own. *)
Definition vm_alloc (size location align : Z) (v : vm) : option (Z * vm) :=
  match get_map location 0 v with
  | None => if location <? memory_location_max then Some (0, v) else None
  | Some r => block_alloc r size None align 0 v
  end.

Definition vm_falloc (addr size location : Z) (src : option nat) (v : vm) : option (bool * vm) :=
  match get_map location addr v with
  | None => if (location =? any) || (location <? memory_location_max) then Some (false, v) else None
  | Some r => block_falloc r addr size src 0 v
  end.

Definition vm_dealloc (addr location : Z) (src : option nat) (v : vm) : option (Z * vm) :=
  match get_map location addr v with
  | None => if (location =? any) || (location <? memory_location_max) then Some (0, v) else None
  | Some r => block_dealloc r addr src v
  end.

(** [init]. *)
Definition init : vm :=
  let b addr size flags id := Block addr size (process_block_flags flags) id [] in
  Vm ∅ ∅ [Some 0; None; None; None; Some 1; Some 2; Some 3]%nat
    [b 0x00010000 0x0FFF0000 (Z.lor page_size_64k preallocated) 1;
     b 0xC0000000 0x10000000 (Z.lor page_size_64k preallocated) 2;
     b 0xD0000000 0x10000000 (Z.lor (Z.lor page_size_4k preallocated) (Z.lor stack_guarded bf0_0x1)) 3;
     b 0xE0000000 0x20000000 page_size_64k 4] [] 5.

(** ** Sequences of calls *)

(** Shared memory made by other code has the flags it gives. *)
Inductive call :=
  | MakeShm (flags : Z)
  | BlockAlloc (r : nat) (size : Z) (src : option nat) (align flags : Z)
  | BlockFalloc (r : nat) (addr size : Z) (src : option nat) (flags : Z)
  | BlockDealloc (r : nat) (addr : Z) (src : option nat)
  | PageProtect (addr size flags_test flags_set flags_clear : Z)
  | Map (addr size flags : Z)
  | FindMap (size align flags : Z)
  | ReserveMap (location addr area_size flags : Z)
  | Unmap (addr : Z) (must_be_empty : bool) (ptr : option nat).

(** The result: a number (an address, a size, a truth value) and an area or
    shared memory. *)
Definition result : Type := Z * option nat.

Definition num (r : option (Z * vm)) : option (result * vm) := '(n, v) ← r; Some ((n, None), v).
Definition flag (r : option (bool * vm)) : option (result * vm) := '(b, v) ← r; Some ((Z.b2z b, None), v).
Definition area (r : option (option nat * vm)) : option (result * vm) := '(o, v) ← r; Some ((0, o), v).

Definition step (c : call) (v : vm) : option (result * vm) :=
  match c with
  | MakeShm flags => let '(r, v) := make_shm flags v in Some ((0, Some r), v)
  | BlockAlloc r size src align flags => num (block_alloc r size src align flags v)
  | BlockFalloc r addr size src flags => flag (block_falloc r addr size src flags v)
  | BlockDealloc r addr src => num (block_dealloc r addr src v)
  | PageProtect addr size ft fs fc => flag (page_protect addr size ft fs fc v)
  | Map addr size flags => area (vm_map addr size flags v)
  | FindMap size align flags => area (find_map size align flags v)
  | ReserveMap location addr size flags => area (reserve_map location addr size flags v)
  | Unmap addr e ptr => '(o, b, v) ← vm_unmap addr e ptr v; Some ((Z.b2z b, o), v)
  end.

Fixpoint run (cs : list call) (v : vm) : option (list result * vm) :=
  match cs with
  | [] => Some ([], v)
  | c :: cs => '(x, v) ← step c v; '(xs, v) ← run cs v; Some (x :: xs, v)
  end.
End Host.
