(* ===== verification/VmTables.v ===== *)
(** * Guest virtual memory: tables, alignment, ordered maps

    Closed forms of the loops over pages and units, of the alignment
    arithmetic, and of the operations of the map of an area. *)
From stdpp Require Import gmap.
From S2P Require Import Prelude StdMap Vm.

(** ** Tables *)

Lemma word_at_insert t i x j : word_at (<[i := x]> t) j = if decide (i = j) then x else word_at t j.
Proof.
  unfold word_at. case_decide as H; [subst; now rewrite lookup_insert_eq|now rewrite lookup_insert_ne].
Qed.

Lemma word_at_empty i : word_at ∅ i = 0.
Proof. unfold word_at. now rewrite lookup_empty. Qed.

Lemma word_at_release_all l x t j : word_at (release_all l x t) j = if decide (j ∈ l) then x else word_at t j.
Proof.
  unfold release_all. revert t. induction l as [|i l IH]; intros t; cbn [foldl].
  - rewrite decide_False by apply not_elem_of_nil. done.
  - rewrite IH, word_at_insert. destruct (decide (j ∈ l)) as [Hl|Hl]; [now rewrite decide_True by now right|].
    destruct (decide (i = j)) as [->|Hne]; [now rewrite decide_True by left|]. rewrite decide_False; [done|]. intros [->|Hin]%elem_of_cons; done.
Qed.

Lemma exchange_all_eq l x t : NoDup l -> (forall i, i ∈ l -> word_at t i = 0) -> exchange_all l x t = Some (release_all l x t).
Proof.
  revert t. induction l as [|i l IH]; intros t Hd Hz; [done|]. apply NoDup_cons in Hd as [Hi Hd]. cbn [exchange_all].
  rewrite Hz by left. cbn [Z.eqb]. rewrite IH; [done|done|]. intros j Hj. rewrite word_at_insert, decide_False by (intros ->; done). apply Hz. now right.
Qed.

Lemma elem_pages addr size p : p ∈ pages_of addr size <-> addr / 4096 <= p < addr / 4096 + size / 4096.
Proof. unfold pages_of. rewrite elem_of_seqZ. done. Qed.

Lemma elem_units addr size i : i ∈ units_of addr size <-> addr / 65536 <= i < addr / 65536 + size / 65536.
Proof. unfold units_of. rewrite elem_of_seqZ. done. Qed.

Lemma nodup_pages addr size : NoDup (pages_of addr size).
Proof. apply NoDup_seqZ. Qed.

(** No page of a list is used. *)
Lemma existsb_used l t : existsb (fun i => negb (word_at t i =? 0)) l = false <-> forall i, i ∈ l -> word_at t i = 0.
Proof.
  rewrite <- not_true_iff_false, existsb_exists. split.
  - intros H i Hi%list_elem_of_In. destruct (Z.eqb_spec (word_at t i) 0) as [|Hne]; [done|]. contradict H. exists i. split; [done|]. now rewrite (proj2 (Z.eqb_neq _ _) Hne).
  - intros H (i & Hi & Hn). rewrite (H i) in Hn by now apply list_elem_of_In. done.
Qed.

Lemma seqZ_from_cons m n : 0 < n -> seqZ m n = m :: seqZ (m + 1) (n - 1).
Proof. intros H. rewrite seqZ_cons by done. f_equal; f_equal; lia. Qed.

(** Consecutive units hold consecutive addresses. *)
Lemma release_from_word n : forall a x t i,
  word_at (release_from (seqZ a (Z.of_nat n)) (u64 x) t).1 i = if decide (a <= i < a + Z.of_nat n) then u64 (x + (i - a) * 0x10000) else word_at t i.
Proof.
  induction n as [|n IH]; intros a x t i.
  - cbn. rewrite decide_False by lia. done.
  - rewrite seqZ_from_cons by lia. cbn [release_from]. replace (Z.of_nat (S n) - 1) with (Z.of_nat n) by lia.
    replace (u64 (u64 x + 0x10000)) with (u64 (x + 0x10000)) by (unfold wrap; rewrite Zplus_mod_idemp_l; done).
    rewrite IH, word_at_insert. destruct (decide (a + 1 <= i < a + 1 + Z.of_nat n)).
    + rewrite decide_True by lia. f_equal. lia.
    + destruct (decide (a = i)) as [->|]; [rewrite decide_True by lia|rewrite decide_False by lia; done]. f_equal. lia.
Qed.

Lemma release_units a s x t i : 0 <= s -> is_word 64 x ->
  word_at (release_from (units_of a s) x t).1 i = if decide (a / 65536 <= i < a / 65536 + s / 65536) then u64 (x + (i - a / 65536) * 0x10000) else word_at t i.
Proof.
  intros Hs Hx. unfold units_of. assert (0 <= s / 65536) by (apply Z.div_pos; lia).
  pose proof (release_from_word (Z.to_nat (s / 65536)) (a / 65536) x t i) as H'. rewrite Z2Nat.id, (wrap_small 64 x) in H' by done. exact H'.
Qed.

(** The scan of [_page_unmap] over pages of one allocation. *)
Lemma unmap_size_all ex l t : forall size e, (forall i, i ∈ l -> has (word_at t i) page_allocated = true /\ has (word_at t i) page_executable = ex) ->
  0 <= size -> size + 4096 * Z.of_nat (length l) < 2 ^ 32 -> size = 0 \/ e = ex -> unmap_size l t size e = Some (size + 4096 * Z.of_nat (length l)).
Proof.
  induction l as [|i l IH]; intros size e Hl Hs Hb He; [cbn; f_equal; lia|]. cbn [unmap_size length] in *.
  destruct (Hl i ltac:(left)) as [Ha Hx]. rewrite Ha, Hx. cbn [negb].
  rewrite (wrap_small 32) by (split; lia).
  assert ((size =? 0) || Bool.eqb e ex = true) as -> by (destruct He as [->| ->]; [done|rewrite eqb_reflx; apply orb_true_r]).
  rewrite IH; [f_equal; lia|intros; apply Hl; now right|lia|lia|]. right. destruct (Z.eqb_spec size 0) as [_|Hz]; [done|]. destruct He as [He|He]; [now rewrite He in Hz|exact He].
Qed.

Lemma length_pages addr size : 0 <= size -> size mod 4096 = 0 -> 4096 * Z.of_nat (length (pages_of addr size)) = size.
Proof. intros Hs Hm. unfold pages_of. rewrite length_seqZ, Z2Nat.id by (apply Z.div_pos; lia). Z.div_mod_to_equations; lia. Qed.

(** ** Alignment *)

Lemma land_lnot_pow2 x k : 0 <= k -> Z.land x (Z.lnot (2 ^ k - 1)) = x - x mod 2 ^ k.
Proof.
  intros Hk. replace (2 ^ k - 1) with (Z.ones k) by (rewrite Z.ones_equiv; lia). rewrite <- Z.ldiff_land, Z.ldiff_ones_r by done.
  rewrite Z.shiftl_mul_pow2, Z.shiftr_div_pow2 by done. pose proof (Z.div_mod x (2 ^ k) ltac:(apply Z.pow_nonzero; lia)). lia.
Qed.

Lemma alignUp_eq v k : 0 <= k -> 0 <= v -> v + (2 ^ k - 1) < 2 ^ 32 -> alignUp v (2 ^ k) = v + (2 ^ k - 1) - (v + (2 ^ k - 1)) mod 2 ^ k.
Proof.
  intros Hk Hv Hb. unfold alignUp. assert (0 < 2 ^ k) by (apply Z.pow_pos_nonneg; lia). rewrite wrap_small by (split; lia). now apply land_lnot_pow2.
Qed.

(** What [alignUp] promises. *)
Lemma alignUp_spec v k : 0 <= k -> 0 <= v -> v + (2 ^ k - 1) < 2 ^ 32 ->
  v <= alignUp v (2 ^ k) < v + 2 ^ k /\ alignUp v (2 ^ k) mod 2 ^ k = 0.
Proof.
  intros Hk Hv Hb. rewrite alignUp_eq by done. assert (Hp : 0 < 2 ^ k) by (apply Z.pow_pos_nonneg; lia).
  pose proof (Z.mod_pos_bound (v + (2 ^ k - 1)) (2 ^ k) Hp). split; [lia|]. rewrite Zminus_mod_idemp_r, Z.sub_diag. done.
Qed.

Lemma is_align_pow2 a : 0 < a < 2 ^ 32 -> is_align a = true -> exists k, 0 <= k < 32 /\ a = 2 ^ k.
Proof.
  intros Ha H. apply Z.eqb_eq in H. unfold countl_zero in H. rewrite (proj2 (Z.eqb_neq a 0)) in H by lia.
  assert (0 <= Z.log2 a < 32) as Hl by (split; [apply Z.log2_nonneg|apply Z.log2_lt_pow2; lia]). exists (Z.log2 a). split; [done|].
  rewrite H at 1. rewrite Z.shiftr_div_pow2 by lia. change 0x80000000 with (2 ^ 31). replace 31 with (Z.log2 a + (32 - 1 - Z.log2 a)) at 1 by lia.
  rewrite Z.pow_add_r, Z.div_mul by (lia || (apply Z.pow_nonzero; lia)). done.
Qed.

Lemma land_neg_pow2 x k : 0 <= k < 32 -> is_word 32 x -> Z.land x (u32 (- 2 ^ k)) = x - x mod 2 ^ k.
Proof.
  intros Hk Hx. rewrite <- (land_lnot_pow2 x k) by lia. replace (Z.lnot (2 ^ k - 1)) with (- 2 ^ k) by (unfold Z.lnot; lia).
  apply Z.bits_inj'. intros i Hi. rewrite !Z.land_spec, testbit_wrap by lia. destruct (Z.ltb_spec i 32); [done|]. now rewrite (testbit_above 32 x i Hx) by lia.
Qed.

Lemma lor_mod x y k : 0 <= k -> Z.lor x y mod 2 ^ k = 0 <-> x mod 2 ^ k = 0 /\ y mod 2 ^ k = 0.
Proof.
  intros Hk. rewrite <- !Z.land_ones by done. rewrite Z.land_lor_distr_l. apply Z.lor_eq_0_iff.
Qed.

Lemma divide_pow2 x j k : 0 <= j <= k -> x mod 2 ^ k = 0 -> x mod 2 ^ j = 0.
Proof.
  intros Hj Hx. apply Z.mod_divide in Hx; [|apply Z.pow_nonzero; lia]. apply Z.mod_divide; [apply Z.pow_nonzero; lia|].
  transitivity (2 ^ k); [|done]. exists (2 ^ (k - j)). rewrite <- Z.pow_add_r by lia. f_equal. lia.
Qed.

(** Two multiples less than a step apart. *)
Lemma multiple_le x y m : 0 < m -> x mod m = 0 -> y mod m = 0 -> x < y + m -> x <= y.
Proof.
  intros Hm Hx Hy Hlt. destruct (Z.le_gt_cases x y) as [|Hg]; [done|]. assert ((x - y) mod m = 0) as Hd by (rewrite Zminus_mod, Hx, Hy; done).
  rewrite Z.mod_small in Hd by lia. lia.
Qed.

(** ** Flags *)

Lemma has_bit x k : 0 <= k -> has x (2 ^ k) = Z.testbit x k.
Proof. apply land_pow2_test. Qed.

Lemma lacks_bits x f : lacks x f = false <-> forall i, 0 <= i -> Z.testbit f i = true -> Z.testbit x i = true.
Proof.
  unfold lacks. rewrite negb_false_iff, Z.eqb_eq. split.
  - intros H i Hi Hf. assert (Z.testbit (Z.land (Z.lnot x) f) i = false) as Hb by (rewrite H; apply Z.bits_0).
    rewrite Z.land_spec, Z.lnot_spec, Hf, andb_true_r in Hb by done. now apply negb_false_iff in Hb.
  - intros H. apply Z.bits_inj'. intros i Hi. rewrite Z.land_spec, Z.lnot_spec, Z.bits_0 by done.
    destruct (Z.testbit f i) eqn:Hf; [rewrite (H i Hi Hf); done|apply andb_false_r].
Qed.

(** ** The map of an area *)

Section map.
Context {V : Type}.
Implicit Types (m : list (Z * V)) (k : Z).

Lemma at_key_elem m k (v : V) : ordered m -> at_key m k = Some v <-> (k, v) ∈ m.
Proof.
  induction m as [|[k' v'] m IH]; cbn.
  - intros _. split; [done|]. intros H%not_elem_of_nil. done.
  - intros [Hf Ho]. rewrite elem_of_cons. destruct (Z.eqb_spec k' k) as [->|Hne].
    + split; [intros [= ->]; now left|]. intros [[= ->]|Hin]; [done|]. specialize (Hf _ Hin). cbn in Hf. lia.
    + rewrite (IH Ho). split; [now right|]. intros [[=]|Hin]; [congruence|done].
Qed.

Lemma at_key_insert m k k' (v : V) : ordered m -> at_key m k = None -> at_key (insert_entry m k v) k' = if decide (k = k') then Some v else at_key m k'.
Proof.
  induction m as [|[k0 v0] m IH]; cbn; intros Ho Hn.
  - case_decide as H; [subst; now rewrite Z.eqb_refl|]. now rewrite (proj2 (Z.eqb_neq k k')).
  - destruct Ho as [Hf Ho]. destruct (Z.eqb_spec k0 k) as [->|Hne]; [done|]. destruct (Z.ltb_spec k k0) as [Hlt|Hge].
    + cbn. case_decide as H; [subst; now rewrite Z.eqb_refl|]. now rewrite (proj2 (Z.eqb_neq k k')).
    + cbn. destruct (Z.eqb_spec k0 k') as [->|]; [rewrite decide_False by congruence; done|]. now apply IH.
Qed.

Lemma keys_from_insert m k j (v : V) : keys_from m j -> j <= k -> keys_from (insert_entry m k v) j.
Proof.
  revert j. induction m as [|[k0 v0] m IH]; intros j Hf Hj; cbn.
  - apply keys_from_cons. split; [done|]. intros e He%not_elem_of_nil. done.
  - apply keys_from_cons in Hf as Hf'. destruct Hf' as [H1 H2]. destruct (k <? k0); [apply keys_from_cons; done|]. destruct (k0 =? k); [done|].
    apply keys_from_cons. split; [done|]. now apply IH.
Qed.

Lemma ordered_insert m k (v : V) : ordered m -> ordered (insert_entry m k v).
Proof.
  induction m as [|[k0 v0] m IH]; cbn; intros Ho.
  - split; [|done]. intros e He%not_elem_of_nil. done.
  - destruct Ho as [Hf Ho]. destruct (Z.ltb_spec k k0) as [Hlt|Hge].
    + cbn. split; [apply keys_from_cons; split; [lia|]; apply (keys_from_mono (k0 + 1)); [done|lia]|done].
    + destruct (Z.eqb_spec k0 k) as [->|Hne]; [done|]. cbn. split; [apply keys_from_insert; [done|lia]|now apply IH].
Qed.

Lemma at_key_erase m k k' : at_key (erase m k) k' = if decide (k = k') then None else at_key m k'.
Proof.
  unfold erase. induction m as [|[k0 v0] m IH]; [now case_decide|]. rewrite filter_cons. cbn [fst]. destruct (decide (k0 <> k)) as [H0|H0].
  - cbn. rewrite IH. destruct (Z.eqb_spec k0 k') as [->|]; [now rewrite decide_False by congruence|done].
  - cbn. rewrite IH. case_decide as H1; [done|]. destruct (Z.eqb_spec k0 k') as [->|]; [now contradict H0|done].
Qed.

Lemma ordered_erase m k : ordered m -> ordered (erase m k).
Proof.
  unfold erase. induction m as [|[k0 v0] m IH]; [done|]. cbn. intros [Hf Ho]. case_decide; [|now apply IH]. cbn. split; [|now apply IH].
  intros e [_ He]%list_elem_of_filter. now apply Hf.
Qed.

Lemma ordered_keys m : ordered m -> NoDup m.*1.
Proof.
  induction m as [|[k v] m IH]; cbn; intros Ho; [constructor|]. destruct Ho as [Hf Ho]. constructor; [|now apply IH].
  intros ([k' v'] & -> & He)%list_elem_of_fmap. specialize (Hf _ He). cbn in Hf. lia.
Qed.
End map.
