(* ===== verification/VmProofs.v ===== *)
(** * Guest virtual memory: the invariant

    The page table, the maps of the areas and the shared-memory marks against
    one abstract state: the finite map from addresses to allocations.  An
    operation that changes the allocations keeps all three in step. *)
From stdpp Require Import gmap.
From S2P Require Import Prelude StdMap Vm VmTables.

(** An allocation: its size with the guard pages, its shared memory, whether it
    has guard pages and whether its area takes part in the search for
    mirrors. *)
Record alloc := Alloc { al_size : Z; al_shm : option nat; al_guard : bool; al_elig : bool }.

Implicit Types (A : gmap Z alloc) (x : alloc) (t : table) (b : block_t).

Definition guard_size x : Z := if al_guard x then 0x1000 else 0.

Definition covers (a : Z) x (p : Z) : Prop := a / 4096 <= p < a / 4096 + al_size x / 4096.

(** No allocation meets a range of addresses. *)
Definition free A (a size : Z) : Prop := forall a' x, A !! a' = Some x -> a' + al_size x <= a \/ a + size <= a'.

Definition fits (a size : Z) (guard : bool) : Prop :=
  0 <= a /\ a mod 4096 = 0 /\ size mod 4096 = 0 /\ 0 < size < 2 ^ 32 /\ a + size <= 2 ^ 32 /\ (guard = true -> 0x3000 <= size).

Record allocs_ok A : Prop := {
  al_fits a x : A !! a = Some x -> fits a (al_size x) (al_guard x);
  al_apart a a' x x' : a <> a' -> A !! a = Some x -> A !! a' = Some x' -> a + al_size x <= a' \/ a' + al_size x' <= a
}.

(** The pages of an allocation: guard pages are allocated and nothing else, the
    others agree on being executable. *)
Definition alloc_pages t (a : Z) x : Prop :=
  (al_guard x = true -> word_at t (a / 4096) = page_allocated /\ word_at t (a / 4096 + al_size x / 4096 - 1) = page_allocated) /\
  exists ex, (al_guard x = true -> ex = false) /\
    forall p, p ∈ pages_of (a + guard_size x) (al_size x - 2 * guard_size x) ->
      has (word_at t p) page_allocated = true /\ has (word_at t p) page_executable = ex.

Record pages_ok t A : Prop := {
  pg_used p : word_at t p <> 0 -> exists a x, A !! a = Some x /\ covers a x p;
  pg_alloc a x : A !! a = Some x -> alloc_pages t a x
}.

(** ** Pages and allocations *)

#[export] Instance free_dec A a s : Decision (free A a s).
Proof. change (Decision (map_Forall (fun a' x => a' + al_size x <= a \/ a + s <= a') A)). apply _. Defined.

Ltac page_lia := unfold covers, fits, guard_size in *; rewrite ?elem_pages in *; Z.div_mod_to_equations; lia.

Lemma free_none A a size : allocs_ok A -> 0 < size -> free A a size -> A !! a = None.
Proof.
  intros Hok Hs Hf. destruct (A !! a) as [x|] eqn:Ha; [|done]. pose proof (al_fits A Hok a x Ha) as Hx. pose proof (Hf a x Ha). unfold fits in Hx. lia.
Qed.

Lemma inner_covered a x p : fits a (al_size x) (al_guard x) -> p ∈ pages_of (a + guard_size x) (al_size x - 2 * guard_size x) -> covers a x p.
Proof. intros Hf Hp. destruct (al_guard x) eqn:Hg; unfold guard_size in Hp; rewrite Hg in Hp; page_lia. Qed.

Lemma covered_used t a x p : fits a (al_size x) (al_guard x) -> alloc_pages t a x -> covers a x p -> word_at t p <> 0.
Proof.
  intros Hf [Hg (ex & _ & Hin)] Hc. destruct (decide (p ∈ pages_of (a + guard_size x) (al_size x - 2 * guard_size x))) as [Hp|Hp].
  - destruct (Hin p Hp) as [Ha _]. intros Hz. rewrite Hz in Ha. discriminate.
  - destruct (al_guard x) eqn:Hx.
    + destruct (Hg eq_refl) as [H1 H2]. assert (p = a / 4096 \/ p = a / 4096 + al_size x / 4096 - 1) as [->| ->].
      { unfold guard_size in Hp. rewrite Hx in Hp. page_lia. }
      * rewrite H1. done.
      * rewrite H2. done.
    + contradict Hp. unfold guard_size. rewrite Hx. page_lia.
Qed.

Lemma alloc_pages_ext t t' a x : fits a (al_size x) (al_guard x) -> (forall p, covers a x p -> word_at t' p = word_at t p) ->
  alloc_pages t a x -> alloc_pages t' a x.
Proof.
  intros Hf Ht [Hg (ex & He & Hin)]. split.
  - intros Hx. rewrite !Ht by page_lia. now apply Hg.
  - exists ex. split; [done|]. intros p Hp. rewrite Ht by now apply inner_covered. now apply Hin.
Qed.

(** Pages that are not used are pages no allocation meets. *)
Lemma pages_free t A a size : allocs_ok A -> pages_ok t A -> fits a size false ->
  (forall p, p ∈ pages_of a size -> word_at t p = 0) <-> free A a size.
Proof.
  intros Hok Hp Hf. split.
  - intros Hz a' x Ha. destruct (decide (a' + al_size x <= a \/ a + size <= a')) as [|Hn]; [done|]. exfalso.
    pose proof (al_fits A Hok a' x Ha) as Hx. apply (covered_used t a' x (Z.max a a' / 4096) Hx (pg_alloc t A Hp a' x Ha)); [page_lia|]. apply Hz. page_lia.
  - intros Hfr p Hin. destruct (decide (word_at t p = 0)) as [|Hn]; [done|]. exfalso.
    destruct (pg_used t A Hp p Hn) as (a' & x & Ha & Hc). pose proof (al_fits A Hok a' x Ha) as Hx. pose proof (Hfr a' x Ha). page_lia.
Qed.

Lemma allocs_insert A a x : allocs_ok A -> fits a (al_size x) (al_guard x) -> free A a (al_size x) -> allocs_ok (<[a := x]> A).
Proof.
  intros Hok Hf Hfr. split.
  - intros a' x' [[-> ->]|[_ Ha]]%lookup_insert_Some; [done|]. now apply (al_fits A Hok).
  - intros a1 a2 x1 x2 Hne [[<- <-]|[_ H1]]%lookup_insert_Some [[<- <-]|[_ H2]]%lookup_insert_Some; [done| | |now apply (al_apart A Hok a1 a2)].
    + specialize (Hfr _ _ H2). lia.
    + specialize (Hfr _ _ H1). lia.
Qed.

Lemma allocs_delete A a : allocs_ok A -> allocs_ok (delete a A).
Proof.
  intros Hok. split.
  - intros a' x [_ Ha]%lookup_delete_Some. now apply (al_fits A Hok).
  - intros a1 a2 x1 x2 Hne [_ H1]%lookup_delete_Some [_ H2]%lookup_delete_Some. now apply (al_apart A Hok a1 a2).
Qed.

Lemma pages_insert t t' A a x : allocs_ok A -> pages_ok t A -> fits a (al_size x) (al_guard x) -> free A a (al_size x) ->
  (forall p, ~ covers a x p -> word_at t' p = word_at t p) -> alloc_pages t' a x -> pages_ok t' (<[a := x]> A).
Proof.
  intros Hok Hp Hf Hfr Ht Hx. split.
  - intros p Hn. destruct (decide (a / 4096 <= p < a / 4096 + al_size x / 4096)) as [Hc|Hc].
    + exists a, x. now rewrite lookup_insert_eq.
    + rewrite Ht in Hn by done. destruct (pg_used t A Hp p Hn) as (a' & x' & Ha & Hc'). exists a', x'. split; [|done]. rewrite lookup_insert_ne; [done|].
      intros <-. rewrite (free_none A a (al_size x)) in Ha; [done|done|unfold fits in Hf; lia|done].
  - intros a' x' [[<- <-]|[_ Ha]]%lookup_insert_Some; [done|]. pose proof (al_fits A Hok a' x' Ha) as Hx'. apply (alloc_pages_ext t); [done| |now apply (pg_alloc t A Hp)].
    intros p Hc. apply Ht. pose proof (Hfr a' x' Ha). page_lia.
Qed.

Lemma pages_delete t t' A a x : allocs_ok A -> pages_ok t A -> A !! a = Some x ->
  (forall p, ~ covers a x p -> word_at t' p = word_at t p) -> (forall p, covers a x p -> word_at t' p = 0) -> pages_ok t' (delete a A).
Proof.
  intros Hok Hp Hx Ht Hz. pose proof (al_fits A Hok a x Hx) as Hf. split.
  - intros p Hn. destruct (decide (a / 4096 <= p < a / 4096 + al_size x / 4096)) as [Hc|Hc]; [now rewrite Hz in Hn|].
    rewrite Ht in Hn by done. destruct (pg_used t A Hp p Hn) as (a' & x' & Ha & Hc'). exists a', x'. split; [|done]. apply lookup_delete_Some. split; [|done]. intros <-. assert (x' = x) as -> by congruence. done.
  - intros a' x' [Hne Ha]%lookup_delete_Some. pose proof (al_fits A Hok a' x' Ha) as Hx'. apply (alloc_pages_ext t); [done| |now apply (pg_alloc t A Hp)].
    intros p Hc. apply Ht. pose proof (al_apart A Hok a a' x x' Hne Hx Ha). page_lia.
Qed.

(** ** Areas and allocations *)

Record block_ok b : Prop := {
  bo_addr : 0 <= b_addr b /\ b_addr b mod 4096 = 0;
  bo_size : 0 < b_size b < 2 ^ 32 /\ b_size b mod 4096 = 0;
  bo_end : b_addr b + b_size b <= 2 ^ 32;
  bo_guard : guarded b = true -> has (b_flags b) page_size_4k = true;
  bo_4k : has (b_flags b) page_size_4k = true -> has_common b = true;
  bo_unit : has (b_flags b) page_size_4k = false -> b_addr b mod 65536 = 0;
  bo_order : ordered (m_map b);
  bo_inside a s sh : at_key (m_map b) a = Some (s, sh) -> b_addr b <= a /\ a + s <= b_addr b + b_size b;
  bo_common a s sh : at_key (m_map b) a = Some (s, sh) -> has_common b = true -> sh = None
}.

Definition alloc_of b (e : Z * option nat) : alloc := Alloc e.1 e.2 (guarded b) (eligible b).

Definition apart b b' : Prop := b_addr b + b_size b <= b_addr b' \/ b_addr b' + b_size b' <= b_addr b.

(** The areas of the locations are the ones that have not expired, they do not
    meet, and their maps are the allocations. *)
Record couples (ls : list (option nat)) (bs : list block_t) A : Prop := {
  co_nodup : NoDup (omap id ls);
  co_valid r : r ∈ omap id ls <-> exists b, bs !! r = Some b /\ b_id b <> 0;
  co_ok r b : bs !! r = Some b -> b_id b <> 0 -> block_ok b;
  co_apart r r' b b' : r <> r' -> bs !! r = Some b -> b_id b <> 0 -> bs !! r' = Some b' -> b_id b' <> 0 -> apart b b';
  co_alloc a x : A !! a = Some x <-> exists r b e, bs !! r = Some b /\ b_id b <> 0 /\ at_key (m_map b) a = Some e /\ x = alloc_of b e
}.

Lemma alter_lookup {X} (f : X -> X) r (l : list X) r' y : alter f r l !! r' = Some y <-> exists y0, l !! r' = Some y0 /\ y = if decide (r = r') then f y0 else y0.
Proof.
  destruct (decide (r = r')) as [->|Hne].
  - rewrite list_lookup_alter_eq. destruct (l !! r') as [y0|]; cbn; split; [intros [= <-]; eauto|intros (? & [= <-] & ->); done|done|intros (? & [=] & _)].
  - rewrite list_lookup_alter_ne by done. split; [eauto|]. intros (y0 & ? & ->). done.
Qed.

(** The areas with another map in one of them. *)
Lemma couples_map ls bs A A' r b m : couples ls bs A -> bs !! r = Some b -> b_id b <> 0 -> block_ok (set_map m b) ->
  (forall a x, A' !! a = Some x <-> (exists e, at_key m a = Some e /\ x = alloc_of b e) \/
    exists r' b' e, r' <> r /\ bs !! r' = Some b' /\ b_id b' <> 0 /\ at_key (m_map b') a = Some e /\ x = alloc_of b' e) ->
  couples ls (alter (fun b => set_map m b) r bs) A'.
Proof.
  intros Hc Hb Hid Hok HA. pose proof Hc as [Hn Hv Ho Hap _].
  assert (forall r' b', alter (fun b => set_map m b) r bs !! r' = Some b' -> b_id b' <> 0 ->
    exists b0, bs !! r' = Some b0 /\ b_id b0 <> 0 /\ b_addr b0 = b_addr b' /\ b_size b0 = b_size b') as Hold.
  { intros r' b' (b0 & H0 & ->)%alter_lookup H1. exists b0. destruct (decide (r = r')); done. }
  split; [done| | | |].
  - intros r'. rewrite Hv. split.
    + intros (b' & Hb' & Hid'). exists (if decide (r = r') then set_map m b' else b'). rewrite alter_lookup. split; [eauto|]. case_decide; done.
    + intros (b' & Hb' & Hid'). destruct (Hold r' b' Hb' Hid') as (b0 & ? & ? & _). eauto.
  - intros r' b' (b0 & H0 & ->)%alter_lookup Hid'. case_decide as Hr; [subst r'; rewrite Hb in H0; now injection H0 as <-|]. now apply (Ho r').
  - intros r1 r2 b1 b2 Hne H1 Hi1 H2 Hi2. destruct (Hold r1 b1 H1 Hi1) as (c1 & ? & ? & E1 & E2). destruct (Hold r2 b2 H2 Hi2) as (c2 & ? & ? & E3 & E4).
    pose proof (Hap r1 r2 c1 c2 Hne) as Hd. unfold apart in *. rewrite E1, E2, E3, E4 in Hd. now apply Hd.
  - intros a x. rewrite HA. split.
    + intros [(e & He & ->)|(r' & b' & e & Hne & Hb' & Hi & He & ->)].
      * exists r, (set_map m b), e. split_and!; [|done..]. rewrite alter_lookup. exists b. now rewrite decide_True.
      * exists r', b', e. split_and!; [|done..]. rewrite alter_lookup. exists b'. now rewrite decide_False by congruence.
    + intros (r' & b' & e & (b0 & H0 & ->)%alter_lookup & Hi & He & ->). case_decide as Hr.
      * left. subst r'. rewrite Hb in H0. injection H0 as <-. eauto.
      * right. exists r', b0, e. split_and!; done || congruence.
Qed.

(** An address belongs to one area. *)
Lemma alloc_area ls bs A r b r' b' a e e' : couples ls bs A -> allocs_ok A -> bs !! r = Some b -> b_id b <> 0 -> bs !! r' = Some b' -> b_id b' <> 0 ->
  b_addr b <= a < b_addr b + b_size b -> at_key (m_map b') a = Some e' -> e = e' -> r' = r.
Proof.
  intros Hc Hok Hb Hi Hb' Hi' Ha He' ->. destruct (decide (r' = r)) as [|Hne]; [done|]. exfalso. destruct e' as [s sh].
  pose proof (bo_inside b' (co_ok ls bs A Hc r' b' Hb' Hi') a s sh He') as Hin.
  assert (A !! a = Some (alloc_of b' (s, sh))) as Hx by (apply (co_alloc ls bs A Hc); eauto 10).
  pose proof (al_fits A Hok a _ Hx) as Hf. unfold fits in Hf. cbn in Hf.
  destruct (co_apart ls bs A Hc r r' b b' ltac:(congruence) Hb Hi Hb' Hi'); lia.
Qed.

Lemma couples_insert ls bs A r b a s sh : couples ls bs A -> allocs_ok A -> bs !! r = Some b -> b_id b <> 0 -> A !! a = None ->
  0 < s -> b_addr b <= a -> a + s <= b_addr b + b_size b -> (has_common b = true -> sh = None) ->
  couples ls (alter (fun b => set_map (assign (m_map b) a (s, sh)) b) r bs) (<[a := alloc_of b (s, sh)]> A).
Proof.
  intros Hc Hok Hb Hi Hn Hs Ha He Hcm. pose proof (co_ok ls bs A Hc r b Hb Hi) as Ho.
  assert (at_key (m_map b) a = None) as Hnone.
  { destruct (at_key (m_map b) a) as [e|] eqn:Hk; [|done]. assert (A !! a = Some (alloc_of b e)) by (apply (co_alloc ls bs A Hc); eauto 10). congruence. }
  assert (alter (fun b => set_map (assign (m_map b) a (s, sh)) b) r bs = alter (fun b => set_map (insert_entry (m_map b) a (s, sh)) b) r bs) as ->.
  { apply list_eq. intros i. destruct (decide (r = i)) as [<-|]; [rewrite !list_lookup_alter_eq, Hb; cbn; unfold assign; now rewrite Hnone|now rewrite !list_lookup_alter_ne]. }
  assert (alter (fun b => set_map (insert_entry (m_map b) a (s, sh)) b) r bs = alter (fun b' => set_map (insert_entry (m_map b) a (s, sh)) b') r bs) as ->.
  { apply list_eq. intros i. destruct (decide (r = i)) as [<-|]; [now rewrite !list_lookup_alter_eq, Hb|now rewrite !list_lookup_alter_ne]. }
  pose proof (fun a' => at_key_insert (m_map b) a a' (s, sh) (bo_order b Ho) Hnone) as Hins. eapply couples_map; [done..| |].
  - destruct Ho as [B1 B2 B3 B4 B5 Bu B6 B7 B8]. split; cbn; [done|done|done|done|done|done|now apply ordered_insert| |]; [intros a' s' sh'; rewrite Hins; case_decide; [|now apply B7]; intros [= <- <-]; lia|].
    intros a' s' sh'. rewrite Hins. case_decide; [|now apply B8]. now intros [= <- <-].
  - intros a' x. rewrite lookup_insert_Some, (co_alloc ls bs A Hc), Hins. split.
    + intros [[<- <-]|(Hne & r' & b' & e & Hb' & Hi' & He' & ->)].
      * left. rewrite decide_True by done. eauto.
      * destruct (decide (r' = r)) as [->|Hr]; [|right; eauto 10]. left. rewrite Hb in Hb'. injection Hb' as <-. rewrite decide_False by done. eauto.
    + intros [(e & Hk & ->)|(r' & b' & e & Hr & Hb' & Hi' & He' & ->)].
      * case_decide; [left; now injection Hk as <-|right; split; [done|]; eauto 10].
      * right. split; [|eauto 10]. intros <-. apply Hr. eapply alloc_area; [exact Hc|done|exact Hb|done|exact Hb'|done|split; [exact Ha|]; clear -Hs He; lia|exact He'|reflexivity].
Qed.

Lemma couples_delete ls bs A r b a e : couples ls bs A -> allocs_ok A -> bs !! r = Some b -> b_id b <> 0 -> at_key (m_map b) a = Some e ->
  couples ls (alter (fun b => set_map (erase (m_map b) a) b) r bs) (delete a A).
Proof.
  intros Hc Hok Hb Hi Hk. pose proof (co_ok ls bs A Hc r b Hb Hi) as Ho.
  assert (alter (fun b => set_map (erase (m_map b) a) b) r bs = alter (fun b' => set_map (erase (m_map b) a) b') r bs) as ->.
  { apply list_eq. intros i. destruct (decide (r = i)) as [<-|]; [now rewrite !list_lookup_alter_eq, Hb|now rewrite !list_lookup_alter_ne]. }
  eapply couples_map; [done..| |].
  - destruct Ho as [B1 B2 B3 B4 B5 Bu B6 B7 B8]. split; cbn; [done|done|done|done|done|done|now apply ordered_erase| |]; [intros a' s' sh'; rewrite at_key_erase; case_decide; [done|apply B7]|].
    intros a' s' sh'. rewrite at_key_erase. case_decide; [done|apply B8].
  - intros a' x. rewrite lookup_delete_Some, (co_alloc ls bs A Hc), at_key_erase. split.
    + intros (Hne & r' & b' & e' & Hb' & Hi' & He' & ->). rewrite decide_False by done.
      destruct (decide (r' = r)) as [->|Hr]; [left|right; eauto 10]. rewrite Hb in Hb'. injection Hb' as <-. eauto.
    + intros [(e' & Hk' & ->)|(r' & b' & e' & Hr & Hb' & Hi' & He' & ->)].
      * case_decide; [done|]. split; [done|]. eauto 10.
      * split; [|eauto 10]. intros <-. apply Hr. destruct e as [s sh]. pose proof (bo_inside b Ho a s sh Hk).
        assert (A !! a = Some (alloc_of b (s, sh))) as Hx by (apply (co_alloc ls bs A Hc); eauto 10). pose proof (al_fits A Hok a _ Hx) as Hf. unfold fits in Hf. cbn in Hf.
        eapply alloc_area; [exact Hc|done|exact Hb|done|exact Hb'|done| |exact He'|reflexivity]. lia.
Qed.
