(* ===== verification/VmShare.v ===== *)
(** * Guest virtual memory: mirrors of shared memory

    [utils::shm::info] counts the mappings of shared memory that more than one
    address may show, and [g_shmem] holds for every 64 KiB unit of such a
    mapping the host address of its bytes, so that two guest addresses of the
    same byte are seen to be the same. *)
From stdpp Require Import gmap.
From S2P Require Import Prelude StdMap Vm VmTables VmProofs.

Implicit Types (A : gmap Z alloc) (x : alloc) (b : block_t).

(** The allocations that show a shared-memory object. *)
Definition mirrors A (r : nat) : gmap Z alloc := base.filter (fun e => al_shm e.2 = Some r) A.

Lemma mirrors_lookup A r a x : mirrors A r !! a = Some x <-> A !! a = Some x /\ al_shm x = Some r.
Proof. unfold mirrors. rewrite map_lookup_filter_Some. done. Qed.

Lemma mirrors_insert_other A r a x : A !! a = None -> al_shm x <> Some r -> mirrors (<[a := x]> A) r = mirrors A r.
Proof.
  intros Hn Hx. apply map_filter_insert_not'; [done|]. intros y Hy. congruence.
Qed.

Lemma mirrors_insert A r a x : al_shm x = Some r -> mirrors (<[a := x]> A) r = <[a := x]> (mirrors A r).
Proof. intros Hx. now apply (map_filter_insert_True (fun e => al_shm e.2 = Some r)). Qed.

Lemma mirrors_delete A r a : mirrors (delete a A) r = delete a (mirrors A r).
Proof. apply map_filter_delete. Qed.

Lemma mirrors_delete_other A r a x : A !! a = Some x -> al_shm x <> Some r -> mirrors (delete a A) r = mirrors A r.
Proof. intros Ha Hx. apply map_filter_delete_not. intros y Hy. cbn. congruence. Qed.

Lemma mirrors_none A r a : A !! a = None -> mirrors A r !! a = None.
Proof. intros Ha. destruct (mirrors A r !! a) as [x|] eqn:H; [|done]. apply mirrors_lookup in H as [H _]. congruence. Qed.

(** There are no more allocations than pages. *)
Lemma size_bound A r : allocs_ok A -> Z.of_nat (size (mirrors A r)) <= 2 ^ 20.
Proof.
  intros Hok. rewrite <- length_map_to_list. set (l := map_to_list (mirrors A r)).
  assert (forall a x, (a, x) ∈ l -> A !! a = Some x) as Hl by (intros a x H%elem_of_map_to_list; now apply mirrors_lookup in H as [? _]).
  assert (NoDup l.*1) as Hd by apply NoDup_fst_map_to_list.
  assert (NoDup ((fun a => a / 4096) <$> l.*1)) as Hd'.
  { apply NoDup_fmap_2_strong; [|done]. intros a a' ([a1 x] & -> & H1)%list_elem_of_fmap ([a2 x'] & -> & H2)%list_elem_of_fmap He. cbn in *.
    pose proof (al_fits A Hok _ _ (Hl _ _ H1)) as F1. pose proof (al_fits A Hok _ _ (Hl _ _ H2)) as F2. unfold fits in *. Z.div_mod_to_equations; lia. }
  assert (((fun a => a / 4096) <$> l.*1) ⊆+ seqZ 0 (2 ^ 20)) as Hs.
  { apply NoDup_submseteq; [done|]. intros p (a & -> & ([a1 x] & -> & H1)%list_elem_of_fmap)%list_elem_of_fmap. cbn.
    pose proof (al_fits A Hok _ _ (Hl _ _ H1)) as F1. unfold fits in F1. apply elem_of_seqZ. Z.div_mod_to_equations; lia. }
  apply submseteq_length in Hs. rewrite !length_fmap, length_seqZ in Hs. lia.
Qed.

Section share.
Context (map_address : nat -> Z).

(** Host addresses of user programs: 47 bits, and aligned to 64 KiB. *)
Context (Hmap : forall r, 0 < map_address r < 2 ^ 47 /\ map_address r mod 2 ^ 16 = 0).

(** The word of the first unit of a mirror. *)
Definition shm_word (r : nat) : Z := Z.lxor (map_address r) range_locked.

Lemma shm_word_ok r : check_pointer (shm_word r) = true.
Proof.
  destruct (Hmap r) as [Hr Hm]. apply Z.eqb_eq. apply Z.bits_inj'. intros i Hi. unfold shm_word.
  change 0xffff00000000ffff with (Z.lor (Z.ones 16) (Z.shiftl (Z.ones 16) 48)). change range_locked with (2 ^ 63).
  rewrite Z.land_spec, Z.lxor_spec, Z.lor_spec, Z.shiftl_spec, Z.pow2_bits_eqb, !Z.testbit_ones by lia.
  assert (i < 16 -> Z.testbit (map_address r) i = false) as H1.
  { intros Hl. rewrite <- (Z.mod_pow2_bits_low _ 16) by lia. rewrite Hm. apply Z.bits_0. }
  assert (47 <= i -> Z.testbit (map_address r) i = false) as H2 by (intros Hl; apply (testbit_above 47); [unfold is_word; lia|lia]).
  destruct (Z.lt_ge_cases i 16); [rewrite H1 by done|destruct (Z.lt_ge_cases i 47); [|rewrite H2 by done]]; split_cmp; cbn; rewrite ?andb_false_r, ?andb_true_r; done.
Qed.

Lemma shm_word_range r : is_word 64 (shm_word r).
Proof. apply lxor_word; [done| |done]. destruct (Hmap r). unfold is_word. lia. Qed.

(** The word of a unit: its host address with the lock bit. *)
Lemma shm_word_unit r k : 0 <= k < 65536 -> u64 (shm_word r + k * 0x10000) = map_address r + k * 0x10000 + 2 ^ 63.
Proof.
  intros Hk. destruct (Hmap r) as [Hr _]. assert (shm_word r = map_address r + 2 ^ 63) as ->.
  { unfold shm_word. change range_locked with (2 ^ 63). symmetry. apply Z.add_nocarry_lxor. apply Z.bits_inj'. intros i Hi.
    rewrite Z.land_spec, Z.bits_0, Z.pow2_bits_eqb by lia. destruct (Z.eqb_spec 63 i) as [<-|]; [|apply andb_false_r].
    rewrite (testbit_above 47); [done|unfold is_word; lia|lia]. }
  rewrite wrap_small by (unfold is_word; lia). lia.
Qed.

Lemma shm_word_nonzero r k : 0 <= k < 65536 -> u64 (shm_word r + k * 0x10000) <> 0.
Proof. intros Hk. rewrite shm_word_unit by done. destruct (Hmap r). lia. Qed.

Definition marked (shmem : gmap Z Z) (r : nat) (a : Z) x : Prop :=
  forall k, 0 <= k < al_size x / 65536 -> word_at shmem (a / 65536 + k) = u64 (shm_word r + k * 0x10000).

Definition unmarked (shmem : gmap Z Z) (a : Z) x : Prop := forall i, i ∈ units_of a (al_size x) -> word_at shmem i = 0.

(** No mapping yet; one at most, not marked; or all mappings marked. *)
Definition count_ok (shmem : gmap Z Z) (r : nat) (s : shm) (M : gmap Z alloc) : Prop :=
  (s_info s = 0 /\ M = ∅) \/
  (s_info s = 1 /\ (size M <= 1)%nat /\ forall a x, M !! a = Some x -> unmarked shmem a x) \/
  (0xfffffffd + Z.of_nat (size M) <= s_info s <= 0xfffffffe + Z.of_nat (size M) /\ forall a x, M !! a = Some x -> marked shmem r a x).

Definition mirror_ok (a : Z) x : Prop := al_elig x = true /\ al_guard x = false /\ a mod 65536 = 0 /\ al_size x mod 65536 = 0.

Record shm_ok (shmem : gmap Z Z) (r : nat) (s : shm) (M : gmap Z alloc) : Prop := {
  so_ptr : s_ptr s = 0 \/ s_ptr s = map_address r;
  so_mapped : s_info s <> 0 -> s_ptr s = map_address r;
  so_mirror : s_flags s <> 0 -> forall a x, M !! a = Some x -> mirror_ok a x;
  so_count : s_flags s <> 0 -> count_ok shmem r s M
}.

(** A unit shows shareable memory. *)
Definition shows (ss : list shm) A (r : nat) (i : Z) : Prop :=
  exists s a x, ss !! r = Some s /\ s_flags s <> 0 /\ mirrors A r !! a = Some x /\ i ∈ units_of a (al_size x).

Record shared_ok (shmem : gmap Z Z) (ss : list shm) A : Prop := {
  sh_each r s : ss !! r = Some s -> shm_ok shmem r s (mirrors A r);
  sh_ref a x r : A !! a = Some x -> al_shm x = Some r -> is_Some (ss !! r);
  sh_only i : word_at shmem i <> 0 -> exists r, shows ss A r i
}.

(** The count depends on the units of the mirrors. *)
Lemma count_ext shmem shmem' r s M : (forall a x i, M !! a = Some x -> i ∈ units_of a (al_size x) -> word_at shmem' i = word_at shmem i) ->
  count_ok shmem r s M -> count_ok shmem' r s M.
Proof.
  intros H [?|[(? & ? & Hu)|(? & Hm)]]; [now left|right; left|right; right].
  - split_and!; [done|done|]. intros a x Ha i Hi. rewrite (H a x i Ha Hi). now apply (Hu a x Ha).
  - split; [done|]. intros a x Ha k Hk. rewrite (H a x); [exact (Hm a x Ha k Hk)|done|]. apply elem_units. lia.
Qed.

(** One object and its mirrors change, the others do not; [U] are the units
    that change. *)
Lemma shared_replace shmem shmem' ss A A' r s s' (U : list Z) : shared_ok shmem ss A -> ss !! r = Some s -> s_flags s' = s_flags s ->
  (forall r', r' <> r -> mirrors A' r' = mirrors A r') ->
  (forall a x r', A' !! a = Some x -> al_shm x = Some r' -> r' = r \/ A !! a = Some x) ->
  (forall i, i ∉ U -> word_at shmem' i = word_at shmem i) ->
  (forall i, i ∈ U -> word_at shmem' i <> 0 -> shows ss A' r i) ->
  (forall r' i, r' <> r -> shows ss A r' i -> i ∉ U) ->
  (forall i, i ∉ U -> shows ss A r i -> word_at shmem i <> 0 -> shows ss A' r i) ->
  shm_ok shmem' r s' (mirrors A' r) -> shared_ok shmem' (<[r := s']> ss) A'.
Proof.
  intros [He Hr Ho] Hs Hf HM HA HU HU2 HU3 HU4 Hok. pose proof (lookup_lt_Some _ _ _ Hs) as Hlt.
  assert (forall r' s0, ss !! r' = Some s0 -> <[r := s']> ss !! r' = Some (if decide (r = r') then s' else s0)) as Hlook.
  { intros r' s0 H0. case_decide as Hd; [subst; now apply list_lookup_insert_eq|now rewrite list_lookup_insert_ne]. }
  assert (forall i r', shows ss A' r' i -> shows (<[r := s']> ss) A' r' i) as Hsh.
  { intros i r' (s0 & a & x & H0 & H1 & H2 & H3). exists (if decide (r = r') then s' else s0), a, x. split_and!; [now apply Hlook|case_decide; [subst|]; congruence|done|done]. }
  split.
  - intros r' s0 H0. destruct (decide (r = r')) as [<-|Hne]; [rewrite list_lookup_insert_eq in H0 by done; now injection H0 as <-|].
    rewrite list_lookup_insert_ne in H0 by done. rewrite HM by congruence. destruct (He r' s0 H0) as [P1 P2 P3 P4]. split; [done..|]. intros Hfl.
    apply (count_ext shmem); [|now apply P4]. intros a x i Ha Hi. apply HU. apply (HU3 r'); [congruence|]. exists s0, a, x. done.
  - intros a x r' Ha Hx. destruct (HA a x r' Ha Hx) as [->|HA']; [exists s'; now apply list_lookup_insert_eq|].
    destruct (Hr a x r' HA' Hx) as [s0 H0]. exists (if decide (r = r') then s' else s0). now apply Hlook.
  - intros i Hi. destruct (decide (i ∈ U)) as [Hu|Hu]; [exists r; apply Hsh; now apply HU2|]. rewrite HU in Hi by done.
    destruct (Ho i Hi) as (r' & Hr'). exists r'. apply Hsh. destruct (decide (r' = r)) as [->|Hne]; [now apply HU4|].
    destruct Hr' as (s0 & a & x & H0 & H1 & H2 & H3). exists s0, a, x. now rewrite HM.
Qed.

(** Units of two allocations are apart. *)
Lemma units_apart a x a' x' i : mirror_ok a x -> mirror_ok a' x' -> a + al_size x <= a' \/ a' + al_size x' <= a ->
  i ∈ units_of a (al_size x) -> i ∈ units_of a' (al_size x') -> False.
Proof.
  intros (_ & _ & H1 & H2) (_ & _ & H3 & H4) Hd Hi Hi'. rewrite elem_units in Hi, Hi'. Z.div_mod_to_equations; lia.
Qed.

(** An allocation without shared memory. *)
Lemma shared_insert_none shmem ss A a x : shared_ok shmem ss A -> A !! a = None -> al_shm x = None -> shared_ok shmem ss (<[a := x]> A).
Proof.
  intros [He Hr Ho] Hn Hx. assert (forall r, mirrors (<[a := x]> A) r = mirrors A r) as HM by (intros r; apply mirrors_insert_other; [done|now rewrite Hx]).
  split.
  - intros r s Hs. rewrite HM. now apply He.
  - intros a' x' r [[<- <-]|[_ H]]%lookup_insert_Some Hs; [congruence|]. now apply (Hr a' x').
  - intros i Hi. destruct (Ho i Hi) as (r & s & a' & x' & Hsh). exists r, s, a', x'. now rewrite HM.
Qed.

Lemma shared_delete_none shmem ss A a x : shared_ok shmem ss A -> A !! a = Some x -> al_shm x = None -> shared_ok shmem ss (delete a A).
Proof.
  intros [He Hr Ho] Hn Hx. assert (forall r, mirrors (delete a A) r = mirrors A r) as HM by (intros r; apply (mirrors_delete_other _ _ _ x); [done|now rewrite Hx]).
  split.
  - intros r s Hs. rewrite HM. now apply He.
  - intros a' x' r [_ H]%lookup_delete_Some Hs. now apply (Hr a' x').
  - intros i Hi. destruct (Ho i Hi) as (r & s & a' & x' & Hsh). exists r, s, a', x'. now rewrite HM.
Qed.

(** A new object. *)
Lemma shared_make shmem ss A flags : shared_ok shmem ss A -> shared_ok shmem (ss ++ [Shm flags 0 0]) A.
Proof.
  intros [He Hr Ho]. assert (mirrors A (length ss) = ∅) as HM.
  { apply map_empty. intros a. destruct (mirrors A (length ss) !! a) as [x|] eqn:Ha; [|done]. apply mirrors_lookup in Ha as [Ha Hx].
    destruct (Hr a x _ Ha Hx) as [s Hs%lookup_lt_Some]. lia. }
  split.
  - intros r s [Hs|[Hl Hs]]%lookup_app_Some; [now apply He|]. apply list_lookup_singleton_Some in Hs as [Hz <-]. assert (r = length ss) as -> by lia. rewrite HM.
    split; cbn; [now left|done|intros _ a x Ha; rewrite lookup_empty in Ha; done|now left].
  - intros a x r Ha Hx. destruct (Hr a x r Ha Hx) as [s Hs]. exists s. now apply lookup_app_l_Some.
  - intros i Hi. destruct (Ho i Hi) as (r & s & a & x & Hs & H). exists r, s, a, x. split; [now apply lookup_app_l_Some|done].
Qed.

(** The same object with its own mapping. *)
Definition mapped (r : nat) (s : shm) : shm := Shm (s_flags s) (s_info s) (if s_ptr s =? 0 then map_address r else s_ptr s).

Lemma mapped_ptr r s : s_ptr s = 0 \/ s_ptr s = map_address r -> s_ptr (mapped r s) = map_address r.
Proof. unfold mapped. cbn. destruct (Z.eqb_spec (s_ptr s) 0); [done|]. intros [|]; done. Qed.

Lemma alter_insert {X} (f : X -> X) r (l : list X) y : l !! r = Some y -> alter f r l = <[r := f y]> l.
Proof.
  intros Hy. apply list_eq. intros i. destruct (decide (r = i)) as [<-|]; [|now rewrite list_lookup_alter_ne, list_lookup_insert_ne].
  rewrite list_lookup_alter_eq, Hy. cbn. symmetry. apply list_lookup_insert_eq. eapply lookup_lt_Some. exact Hy.
Qed.

(** ** The search for mirrors *)

Lemma search_shm_mirror ls bs A r0 b r a s : couples ls bs A -> r0 ∈ omap id ls -> bs !! r0 = Some b -> search_shm b r = Some (a, s) ->
  exists x, mirrors A r !! a = Some x /\ al_size x = s.
Proof.
  intros Hc Hr0 Hb Hs. apply (co_valid ls bs A Hc) in Hr0 as (b' & Hb' & Hid). rewrite Hb in Hb'. injection Hb' as <-.
  unfold search_shm in Hs. destruct (eligible b); [|done]. destruct (list_find (is_shm r) (m_map b)) as [[i [a' [s' sh]]]|] eqn:Hf; [|done]. injection Hs as -> ->.
  apply list_find_Some in Hf as (Hi & Hsh & _). unfold is_shm in Hsh. cbn in Hsh. destruct sh as [r'|]; [|done]. apply Is_true_true, Nat.eqb_eq in Hsh as <-.
  exists (alloc_of b (s, Some r)). split; [|done]. apply mirrors_lookup. split; [|done]. apply (co_alloc ls bs A Hc). exists r0, b, (s, Some r). split_and!; [done..| |done].
  apply at_key_elem; [now apply (bo_order b (co_ok ls bs A Hc r0 b Hb Hid))|]. now apply list_elem_of_lookup_2 in Hi.
Qed.

Lemma search_shm_finds ls bs A r a x : couples ls bs A -> mirrors A r !! a = Some x -> al_elig x = true ->
  exists r0 b p, r0 ∈ omap id ls /\ bs !! r0 = Some b /\ search_shm b r = Some p /\ is_Some (at_key (m_map b) a).
Proof.
  intros Hc [Ha Hx]%mirrors_lookup He. apply (co_alloc ls bs A Hc) in Ha as (r0 & b & [s sh] & Hb & Hid & Hk & ->). cbn in *. subst sh.
  assert (exists i y, list_find (is_shm r) (m_map b) = Some (i, y)) as (i & [a' [s' sh']] & Hf).
  { pose proof Hk as Hin. apply at_key_elem in Hin; [|now apply (bo_order b (co_ok ls bs A Hc r0 b Hb Hid))].
    destruct (list_find_elem_of (is_shm r) (m_map b) (a, (s, Some r)) Hin) as [[i y] Hy]; [|eauto]. unfold is_shm. cbn. now rewrite Nat.eqb_refl. }
  exists r0, b, (a', s'). split_and!; [apply (co_valid ls bs A Hc); eauto|done| |eauto]. unfold search_shm. rewrite He, Hf. done.
Qed.

Lemma mark_mirrors_none ls bs r p t : (forall r0, r0 ∈ omap id ls -> (b ← bs !! r0; search_shm b r) = None) -> mark_mirrors ls bs r p t = t.
Proof.
  induction ls as [|[r0|] ls IH]; intros H; cbn [mark_mirrors]; [done| |now apply IH]. cbn in H. rewrite (H r0) by left. apply IH. intros r1 Hr1. apply H. now right.
Qed.

Lemma mark_mirrors_one ls bs r p t r0 a s : NoDup (omap id ls) -> r0 ∈ omap id ls -> (b ← bs !! r0; search_shm b r) = Some (a, s) ->
  (forall r1, r1 ∈ omap id ls -> r1 <> r0 -> (b ← bs !! r1; search_shm b r) = None) -> mark_mirrors ls bs r p t = (release_from (units_of a s) p t).1.
Proof.
  induction ls as [|[r1|] ls IH]; cbn [mark_mirrors omap list_omap id]; intros Hd Hr0 Hs Hn; [now apply not_elem_of_nil in Hr0| |now apply IH].
  apply NoDup_cons in Hd as [Hr1 Hd]. destruct (decide (r1 = r0)) as [->|Hne].
  - rewrite Hs. destruct (release_from (units_of a s) p t) as [t' p']. cbn. apply mark_mirrors_none. intros r1 Hin. apply Hn; [now right|]. intros ->. done.
  - rewrite (Hn r1) by (done || left). apply elem_of_cons in Hr0 as [->|Hr0]; [done|]. apply IH; [done..|]. intros r2 H2. apply Hn. now right.
Qed.

(** All mirrors, of which there is one at most, are marked. *)
Lemma mark_mirrors_ok ls bs A r t : couples ls bs A -> allocs_ok A -> (size (mirrors A r) <= 1)%nat -> (forall a x, mirrors A r !! a = Some x -> mirror_ok a x) ->
  exists U : list Z, (forall i, i ∈ U <-> exists a x, mirrors A r !! a = Some x /\ i ∈ units_of a (al_size x)) /\
    (forall i, i ∉ U -> word_at (mark_mirrors ls bs r (shm_word r) t) i = word_at t i) /\
    (forall a x, mirrors A r !! a = Some x -> marked (mark_mirrors ls bs r (shm_word r) t) r a x).
Proof.
  intros Hc Hok Hsz Hmo. destruct (decide (mirrors A r = ∅)) as [Hm|Hm].
  - exists []. rewrite mark_mirrors_none.
    + split_and!; [|done|intros a x Ha; rewrite Hm, lookup_empty in Ha; done]. intros i. split; [now intros ?%not_elem_of_nil|]. intros (a & x & Ha & _). rewrite Hm, lookup_empty in Ha. done.
    + intros r0 Hr0. destruct (bs !! r0) as [b|] eqn:Hb; [|done]. cbn. destruct (search_shm b r) as [[a s]|] eqn:Hs; [|done]. exfalso.
      destruct (search_shm_mirror ls bs A r0 b r a s Hc Hr0 Hb Hs) as (x & Hx & _). rewrite Hm, lookup_empty in Hx. done.
  - destruct (map_choose _ Hm) as (a & x & Hx). assert (forall a' x', mirrors A r !! a' = Some x' -> a' = a /\ x' = x) as Huniq.
    { intros a' x' Hx'. destruct (decide (a' = a)) as [->|Hne]; [split; congruence|]. exfalso.
      assert (size (delete a' (mirrors A r)) = 0%nat) as Hz by (rewrite map_size_delete_Some by eauto; lia). apply map_size_empty_inv in Hz.
      assert (delete a' (mirrors A r) !! a = Some x) as Hl by (apply lookup_delete_Some; done). rewrite Hz, lookup_empty in Hl. done. }
    destruct (Hmo a x Hx) as (He & _ & Ha1 & Ha2). destruct (search_shm_finds ls bs A r a x Hc Hx He) as (r0 & b & [a' s'] & Hr0 & Hb & Hs & Hk).
    destruct (search_shm_mirror ls bs A r0 b r a' s' Hc Hr0 Hb Hs) as (x' & Hx' & <-). destruct (Huniq a' x' Hx') as [-> ->].
    assert (fits a (al_size x) (al_guard x)) as Hf by (apply (al_fits A Hok); now apply mirrors_lookup in Hx as [? _]).
    assert (mark_mirrors ls bs r (shm_word r) t = (release_from (units_of a (al_size x)) (shm_word r) t).1) as ->.
    { apply (mark_mirrors_one _ _ _ _ _ r0); [apply Hc|done|now rewrite Hb|]. intros r1 Hr1 Hne. destruct (bs !! r1) as [b1|] eqn:Hb1; [|done]. cbn.
      destruct (search_shm b1 r) as [[a1 s1]|] eqn:Hs1; [|done]. exfalso. apply Hne. destruct (search_shm_mirror ls bs A r1 b1 r a1 s1 Hc Hr1 Hb1 Hs1) as (x1 & Hx1 & _).
      destruct (Huniq a1 x1 Hx1) as [-> ->]. pose proof Hr0 as (b' & Hb' & Hid)%(co_valid ls bs A Hc). pose proof Hr1 as (b1' & Hb1' & Hid1)%(co_valid ls bs A Hc).
      rewrite Hb in Hb'. injection Hb' as <-. rewrite Hb1 in Hb1'. injection Hb1' as <-. destruct Hk as [[s sh] Hk].
      assert (is_Some (at_key (m_map b1) a)) as [e1 Hk1].
      { unfold search_shm in Hs1. destruct (eligible b1); [|done]. destruct (list_find (is_shm r) (m_map b1)) as [[i [a2 [s2 sh2]]]|] eqn:Hf1; [|done]. injection Hs1 as -> ->.
        apply list_find_Some in Hf1 as (Hi & _). eexists. apply at_key_elem; [now apply (bo_order b1 (co_ok ls bs A Hc r1 b1 Hb1 Hid1))|]. exact (list_elem_of_lookup_2 _ _ _ Hi). }
      pose proof (bo_inside b (co_ok ls bs A Hc r0 b Hb Hid) a s sh Hk) as Hin.
      assert (al_size x = s) as Hxs. { apply mirrors_lookup in Hx as [Hx _]. assert (A !! a = Some (alloc_of b (s, sh))) as Hx2 by (apply (co_alloc ls bs A Hc); eauto 10). rewrite Hx in Hx2. now injection Hx2 as ->. }
      eapply alloc_area; [exact Hc|exact Hok|exact Hb|done|exact Hb1|done| |exact Hk1|reflexivity]. unfold fits in Hf. lia. }
    exists (units_of a (al_size x)). assert (0 <= al_size x) by (unfold fits in Hf; lia). split_and!.
    + intros i. split; [eauto|]. intros (a1 & x1 & H1 & H2). now destruct (Huniq a1 x1 H1) as [-> ->].
    + intros i Hi. rewrite release_units by (done || apply shm_word_range). rewrite elem_units in Hi. now rewrite decide_False.
    + intros a1 x1 H1 k Hk'. destruct (Huniq a1 x1 H1) as [-> ->]. rewrite release_units by (done || apply shm_word_range). rewrite decide_True by lia. f_equal. f_equal. f_equal. lia.
Qed.

(** The part that counts and marks does not look at the pages. *)
Lemma share_pages a s sh v v' tp : share map_address a s sh v = Some v' -> share map_address a s sh (set_pages tp v) = Some (set_pages tp v').
Proof.
  destruct sh as [r|]; cbn [share]; [|now intros [= ->]]. cbn [set_pages shms]. destruct (shms v !! r) as [o|]; cbn [mbind option_bind]; [|done].
  destruct (s_flags o =? 0); [now intros [= ->]|]. destruct (s_info o =? 0); [now intros [= <-]|]. destruct (_ =? 2).
  - cbn [map_self set_shms shms]. destruct (_ !! r) as [o1|]; cbn [mbind option_bind]; [|done]. destruct (negb _); cbn [mbind option_bind]; [done|].
    cbn [set_shms set_shmem shms g_shmem g_locations blocks]. destruct (_ !! r) as [o2|]; cbn [mbind option_bind]; [|done]. destruct (negb _); [done|]. now intros [= <-].
  - cbn [mbind option_bind set_shms shms]. destruct (_ !! r) as [o2|]; cbn [mbind option_bind]; [|done]. destruct (negb _); [done|]. now intros [= <-].
Qed.

(** ** Mapping and unmapping *)

Lemma map_self_eq r y v : shms v !! r = Some y -> map_self map_address r v = set_shms (<[r := mapped r y]> (shms v)) v.
Proof. intros Hy. unfold map_self. now rewrite (alter_insert _ _ _ y Hy). Qed.

Lemma mapped_same r s : s_ptr s = map_address r -> mapped r s = s.
Proof. intros H. unfold mapped. destruct (Hmap r). rewrite H, (proj2 (Z.eqb_neq _ _)), <- H by lia. now destruct s. Qed.


Lemma shows_mirror ss A r i : allocs_ok A -> (forall r s, ss !! r = Some s -> s_flags s <> 0 -> forall a x, mirrors A r !! a = Some x -> mirror_ok a x) ->
  shows ss A r i -> exists a x, A !! a = Some x /\ al_shm x = Some r /\ mirror_ok a x /\ i ∈ units_of a (al_size x).
Proof. intros Hok Hm (s & a & x & Hs & Hf & Hx & Hi). pose proof (Hm r s Hs Hf a x Hx). apply mirrors_lookup in Hx as [? ?]. exists a, x. done. Qed.

Section insert.
Context (shmem : gmap Z Z) (ss : list shm) (A : gmap Z alloc) (a : Z) (x : alloc) (r : nat) (s : shm).
Context (Hok : allocs_ok A) (Hsh : shared_ok shmem ss A) (Hf : fits a (al_size x) (al_guard x)) (Hfr : free A a (al_size x)).
Context (Hx : al_shm x = Some r) (Hs : ss !! r = Some s) (Hmo : s_flags s <> 0 -> mirror_ok a x).

Lemma new_none : A !! a = None.
Proof. apply (free_none A a (al_size x)); [done|unfold fits in Hf; lia|done]. Qed.

Lemma mirrors_new : mirrors (<[a := x]> A) r = <[a := x]> (mirrors A r).
Proof. now apply mirrors_insert. Qed.

Lemma size_new : size (mirrors (<[a := x]> A) r) = S (size (mirrors A r)).
Proof. rewrite mirrors_new, map_size_insert_None; [done|apply mirrors_none, new_none]. Qed.

Lemma shows_old r' i : shows ss A r' i -> exists a' x', A !! a' = Some x' /\ al_shm x' = Some r' /\ mirror_ok a' x' /\ i ∈ units_of a' (al_size x').
Proof. apply shows_mirror; [done|]. intros r0 s0 H0 Hfl. now apply (so_mirror _ _ _ _ (sh_each _ _ _ Hsh r0 s0 H0)). Qed.

(** The units of the new mirror show nothing yet. *)
Lemma units_new r' i : s_flags s <> 0 -> shows ss A r' i -> i ∉ units_of a (al_size x).
Proof.
  intros Hfl (a' & x' & Ha' & _ & Hm' & Hi)%shows_old Hi'. eapply (units_apart a x a' x'); [now apply Hmo|done| |done|done]. destruct (Hfr a' x' Ha'); lia.
Qed.

Lemma units_zero i : s_flags s <> 0 -> i ∈ units_of a (al_size x) -> word_at shmem i = 0.
Proof.
  intros Hfl Hi. destruct (decide (word_at shmem i = 0)) as [|Hn]; [done|]. exfalso. destruct (sh_only _ _ _ Hsh i Hn) as (r' & Hr'). now apply (units_new r' i).
Qed.

(** The object [s'] with the units [U] for the new mirror; [U] belongs to its
    mirrors. *)
Lemma shared_insert shmem' s' (U : list Z) : s_flags s' = s_flags s -> s_ptr s' = map_address r ->
  (forall i, i ∉ U -> word_at shmem' i = word_at shmem i) ->
  (forall i, i ∈ U -> s_flags s <> 0 /\ exists a' x', mirrors (<[a := x]> A) r !! a' = Some x' /\ i ∈ units_of a' (al_size x')) ->
  (s_flags s <> 0 -> count_ok shmem' r s' (mirrors (<[a := x]> A) r)) -> shared_ok shmem' (<[r := s']> ss) (<[a := x]> A).
Proof.
  intros Hfl Hp HU HU2 Hc. pose proof (sh_each _ _ _ Hsh r s Hs) as [P1 P2 P3 P4]. eapply (shared_replace shmem shmem' ss A _ r s s' U); try done.
  - intros r' Hne. apply mirrors_insert_other; [apply new_none|congruence].
  - intros a' x' r' [[<- <-]|[_ Ha]]%lookup_insert_Some Hx'; [left; congruence|now right].
  - intros i Hi _. destruct (HU2 i Hi) as (Hfl' & a' & x' & H1 & H2). exists s, a', x'. done.
  - intros r' i Hne Hsh' Hi. destruct (HU2 i Hi) as (Hfl' & a' & x' & H1 & H2). rewrite mirrors_new in H1. apply lookup_insert_Some in H1 as [[<- <-]|[_ H1]]; [now apply (units_new r' i)|].
    pose proof (P3 Hfl' a' x' H1) as Hm'. apply mirrors_lookup in H1 as [H1 Hx1]. destruct (shows_old r' i Hsh') as (a2 & x2 & H3 & Hx2 & Hm2 & Hi2).
    assert (a' <> a2) as Hne' by (intros <-; congruence). eapply (units_apart a' x' a2 x2); [done|done|now apply (al_apart A Hok a' a2)|done|done].
  - intros i _ (s0 & a' & x' & H0 & H1 & H2 & H3) _. exists s0, a', x'. split_and!; [done|done| |done]. rewrite mirrors_new. rewrite lookup_insert_ne; [done|]. intros <-.
    apply mirrors_lookup in H2 as [H2 _]. rewrite new_none in H2. done.
  - split; [now right|done| |now rewrite Hfl]. intros Hfl' a' x'. rewrite Hfl in Hfl'. rewrite mirrors_new. intros [[<- <-]|[_ H1]]%lookup_insert_Some; [now apply Hmo|now apply P3].
Qed.
End insert.

(** [share] keeps the counts, for the allocation that follows. *)
Lemma share_ok v A a s sh g e : couples (g_locations v) (blocks v) A -> allocs_ok A -> shared_ok (g_shmem v) (shms v) A -> fits a s g -> free A a s ->
  (forall r, sh = Some r -> exists o, shms v !! r = Some o /\ (s_flags o <> 0 -> mirror_ok a (Alloc s sh g e))) ->
  exists t ss, share map_address a s sh v = Some (set_shms ss (set_shmem t v)) /\
    shared_ok t (match sh with Some r => alter (mapped r) r ss | None => ss end) (<[a := Alloc s sh g e]> A).
Proof.
  intros Hc Hok Hsh Hf Hfr Hsrc. set (x := Alloc s sh g e) in *. assert (A !! a = None) as Hn by (apply (free_none A a s); [done|unfold fits in Hf; lia|done]).
  destruct sh as [r|]; cbn [share].
  2:{ exists (g_shmem v), (shms v). split; [now destruct v|]. now apply shared_insert_none. }
  destruct (Hsrc r eq_refl) as (o & Ho & Hmo). rewrite Ho. cbn [mbind option_bind]. pose proof (sh_each _ _ _ Hsh r o Ho) as [P1 P2 P3 P4].
  pose proof (fun t o' U => shared_insert (g_shmem v) (shms v) A a x r o Hok Hsh Hf Hfr eq_refl Ho Hmo t o' U) as Hins.
  pose proof (lookup_lt_Some _ _ _ Ho) as Hlt.
  destruct (Z.eqb_spec (s_flags o) 0) as [Hfl|Hfl].
  { exists (g_shmem v), (shms v). split; [now destruct v|]. rewrite (alter_insert _ _ _ o Ho). apply (Hins _ _ []); [done|now apply mapped_ptr|done|now intros i ?%not_elem_of_nil|done]. }
  rewrite (alter_insert _ _ _ o Ho). assert (forall y, <[r := y]> (shms v) !! r = Some y) as Hlook by (intros y; now apply list_lookup_insert_eq).
  specialize (P4 Hfl). destruct (Z.eqb_spec (s_info o) 0) as [Hz|Hz].
  { exists (g_shmem v), (<[r := set_info (u64 (s_info o + 1)) o]> (shms v)). split; [reflexivity|]. rewrite (alter_insert _ _ _ _ (Hlook _)), list_insert_insert_eq.
    apply (Hins _ _ []); [done|now apply mapped_ptr|done|now intros i ?%not_elem_of_nil|]. intros _. right. left. rewrite Hz. split; [reflexivity|].
    assert (mirrors A r = ∅) as Hm by (destruct P4 as [[_ H]|[[H _]|[H _]]]; [done|congruence|lia]).
    rewrite (mirrors_new A a x r), Hm by done. split; [now rewrite insert_empty, map_size_singleton|]. intros a' x' [[<- <-]|[_ H]]%lookup_insert_Some; [|now rewrite lookup_empty in H].
    intros i Hi. exact (units_zero (g_shmem v) (shms v) A a x o Hok Hsh Hfr Hmo i Hfl Hi). }
  pose proof (P2 Hz) as Hptr. assert (forall n, mapped r (set_info n o) = set_info n o) as Hmapn by (intros n; now apply mapped_same).
  assert (0 <= s) as Hs0 by (unfold fits in Hf; lia). pose proof (size_new A a x r Hok Hf Hfr eq_refl) as Hsz. pose proof (mirrors_new A a x r eq_refl) as Hmn.
  destruct P4 as [[? _]|[(Hone & Hsz1 & _)|(Hmany & Hmk)]]; [done| |].
  - rewrite Hone. change (u64 (1 + 1)) with 2. cbn [Z.eqb Pos.eqb]. rewrite (map_self_eq r (set_info 2 o)), Hmapn by apply Hlook.
    cbn [set_shms shms]. rewrite list_insert_insert_eq, Hlook. cbn [mbind option_bind set_info s_ptr]. rewrite Hptr. fold (shm_word r). rewrite shm_word_ok.
    cbn [negb mbind option_bind set_shms set_shmem shms g_shmem g_locations blocks]. rewrite (alter_insert _ _ _ _ (Hlook _)), list_insert_insert_eq, Hlook.
    cbn [mbind option_bind set_info s_ptr]. rewrite Hptr. fold (shm_word r). rewrite shm_word_ok. cbn [negb].
    destruct (mark_mirrors_ok (g_locations v) (blocks v) A r (g_shmem v) Hc Hok Hsz1 (P3 Hfl)) as (U & HU & Hout & Hin).
    exists (release_from (units_of a s) (shm_word r) (mark_mirrors (g_locations v) (blocks v) r (shm_word r) (g_shmem v))).1, (<[r := set_info 0xffffffff o]> (shms v)).
    split; [reflexivity|]. rewrite (alter_insert _ _ _ _ (Hlook _)), list_insert_insert_eq, Hmapn.
    apply (Hins _ _ (units_of a s ++ U)); [done|exact Hptr| | |].
    + intros i Hi. rewrite release_units by (done || apply shm_word_range). rewrite decide_False by (rewrite <- elem_units; set_solver). apply Hout. set_solver.
    + intros i [Hi|Hi]%elem_of_app; (split; [done|]).
      * exists a, x. rewrite Hmn, lookup_insert_eq. done.
      * apply HU in Hi as (a' & x' & Ha' & Hi). exists a', x'. split; [|done]. rewrite Hmn, lookup_insert_ne; [done|]. intros <-. rewrite (mirrors_none A r a Hn) in Ha'. done.
    + intros _. right. right. rewrite Hsz. cbn [set_info s_info]. split; [lia|]. intros a' x'. rewrite Hmn. intros [[<- <-]|[Hne Ha']]%lookup_insert_Some k Hk.
      * rewrite release_units by (done || apply shm_word_range). cbn [al_size x] in Hk. rewrite decide_True by lia. f_equal. f_equal. f_equal. lia.
      * rewrite release_units by (done || apply shm_word_range). pose proof (P3 Hfl a' x' Ha') as Hm'. pose proof Ha' as [Ha2 _]%mirrors_lookup.
        rewrite decide_False; [now apply (Hin a' x')|]. rewrite <- elem_units. intros Hi. eapply (units_apart a x a' x'); [now apply Hmo|done|destruct (Hfr a' x' Ha2); [right|left]; done|done|]. apply elem_units. lia.
  - pose proof (size_bound A r Hok) as Hb. rewrite (wrap_small 64 (s_info o + 1)) by (unfold is_word; lia). rewrite (proj2 (Z.eqb_neq (s_info o + 1) 2)) by lia. cbn [mbind option_bind set_shms shms].
    rewrite Hlook. cbn [mbind option_bind set_info s_ptr]. rewrite Hptr. fold (shm_word r). rewrite shm_word_ok. cbn [negb].
    exists (release_from (units_of a s) (shm_word r) (g_shmem v)).1, (<[r := set_info (s_info o + 1) o]> (shms v)). split; [reflexivity|].
    rewrite (alter_insert _ _ _ _ (Hlook _)), list_insert_insert_eq. rewrite Hmapn. apply (Hins _ _ (units_of a s)); [done|exact Hptr| | |].
    + intros i Hi. cbn [set_shms g_shmem]. rewrite release_units by (done || apply shm_word_range). rewrite decide_False by now rewrite <- elem_units. done.
    + intros i Hi. split; [done|]. exists a, x. rewrite Hmn, lookup_insert_eq. done.
    + intros _. right. right. rewrite Hsz. cbn [mapped s_info set_info g_shmem set_shms]. split; [lia|]. intros a' x'. rewrite Hmn. intros [[<- <-]|[Hne Ha']]%lookup_insert_Some k Hk.
      * rewrite release_units by (done || apply shm_word_range). cbn [al_size x] in Hk. rewrite decide_True by lia. f_equal. f_equal. f_equal. lia.
      * rewrite release_units by (done || apply shm_word_range). pose proof (P3 Hfl a' x' Ha') as Hm'. pose proof Ha' as [Ha2 _]%mirrors_lookup.
        rewrite decide_False; [now apply (Hmk a' x')|]. rewrite <- elem_units. intros Hi. eapply (units_apart a x a' x'); [now apply Hmo|done|destruct (Hfr a' x' Ha2); [right|left]; done|done|]. apply elem_units. lia.
Qed.

(** A mirror is taken away. *)
Lemma count_delete t r o M a n : count_ok t r o M -> s_info o <> 0 -> is_Some (M !! a) -> n = (if s_info o =? 1 then 1 else s_info o - 1) ->
  count_ok t r (set_info n o) (delete a M).
Proof.
  intros Hc Hz Ha ->. assert (size (delete a M) = pred (size M)) as Hsz by now apply map_size_delete_Some.
  assert (0 < size M)%nat as Hpos by (destruct Ha as [x Hx]; apply Nat.neq_0_lt_0; intros H%map_size_empty_inv; subst; now rewrite lookup_empty in Hx).
  destruct Hc as [[? _]|[(H1 & H2 & H3)|(H1 & H2)]]; [done| |]; right.
  - left. rewrite H1. cbn. split_and!; [done|lia|]. intros a' x' [_ H]%lookup_delete_Some. now apply (H3 a').
  - right. rewrite (proj2 (Z.eqb_neq _ _)) by lia. cbn. split; [lia|]. intros a' x' [_ H]%lookup_delete_Some. now apply (H2 a').
Qed.

Section delete.
Context (v : vm) (A : gmap Z alloc) (a : Z) (x : alloc) (r : nat) (o : shm).
Context (Hok : allocs_ok A) (Hsh : shared_ok (g_shmem v) (shms v) A) (Ha : A !! a = Some x) (Hx : al_shm x = Some r) (Ho : shms v !! r = Some o).

Lemma mirror_here : mirrors A r !! a = Some x.
Proof. now apply mirrors_lookup. Qed.

(** The object [o'] with the units [U] of the mirror cleared; where they are
    not, nothing is shown there. *)
Lemma shared_delete t o' (U : list Z) : s_flags o' = s_flags o -> s_ptr o' = s_ptr o -> (s_info o' <> 0 -> s_info o <> 0) ->
  (forall i, word_at t i = if decide (i ∈ U) then 0 else word_at (g_shmem v) i) ->
  (s_flags o <> 0 -> forall i, i ∈ units_of a (al_size x) -> i ∉ U -> word_at (g_shmem v) i = 0) -> (forall i, i ∈ U -> s_flags o <> 0 /\ i ∈ units_of a (al_size x)) ->
  (s_flags o <> 0 -> count_ok (g_shmem v) r o' (delete a (mirrors A r))) -> shared_ok t (<[r := o']> (shms v)) (delete a A).
Proof.
  intros Hfl Hp Hi Ht HU HU2 Hc. pose proof (sh_each _ _ _ Hsh r o Ho) as [P1 P2 P3 P4].
  assert (forall i r', r' <> r -> shows (shms v) A r' i -> i ∉ units_of a (al_size x) \/ s_flags o = 0) as Hother.
  { intros i r' Hne Hs. destruct (decide (s_flags o = 0)) as [|Hf]; [now right|]. left. intros Hi'.
    apply (shows_mirror (shms v) A r' i Hok) in Hs as (a2 & x2 & H2 & Hx2 & Hm2 & Hi2); [|intros r0 s0 H0 Hf0; now apply (so_mirror _ _ _ _ (sh_each _ _ _ Hsh r0 s0 H0))].
    assert (a <> a2) as Hne' by (intros <-; congruence). eapply (units_apart a x a2 x2); [exact (P3 Hf a x mirror_here)|exact Hm2|exact (al_apart A Hok a a2 x x2 Hne' Ha H2)|done|done]. }
  eapply (shared_replace (g_shmem v) t (shms v) A _ r o o' U); try done.
  - intros r' Hne. apply (mirrors_delete_other _ _ _ x); [done|congruence].
  - intros a' x' r' [_ H]%lookup_delete_Some _. now right.
  - intros i Hi'. rewrite Ht. now rewrite decide_False.
  - intros i Hi' Hn. rewrite Ht, decide_True in Hn by done. done.
  - intros r' i Hne Hs Hi'. destruct (HU2 i Hi') as [Hf Hu]. destruct (Hother i r' Hne Hs); done.
  - intros i Hi' (s0 & a' & x' & H0 & H1 & H2 & H3) Hn. rewrite Ho in H0. injection H0 as <-. exists o, a', x'. split_and!; [done|done| |done].
    rewrite mirrors_delete. apply lookup_delete_Some. split; [|done]. intros <-. rewrite mirror_here in H2. injection H2 as <-. apply Hn. now apply HU.
  - rewrite mirrors_delete. split; [now rewrite Hp|intros H; rewrite Hp; auto| |].
    + rewrite Hfl. intros Hf a' x' [_ H]%lookup_delete_Some. now apply P3.
    + rewrite Hfl. intros Hf. apply (count_ext (g_shmem v)); [|now apply Hc]. intros a' x' i [Hne H]%lookup_delete_Some Hi'. rewrite Ht. rewrite decide_False; [done|].
      intros Hu. destruct (HU2 i Hu) as [_ Hu2]. pose proof (P3 Hf a' x' H) as Hm'. apply mirrors_lookup in H as [H _].
      eapply (units_apart a x a' x'); [exact (P3 Hf a x mirror_here)|exact Hm'|exact (al_apart A Hok a a' x x' Hne Ha H)|done|done].
Qed.
End delete.

Lemma unshare_ok v A a x : allocs_ok A -> shared_ok (g_shmem v) (shms v) A -> A !! a = Some x ->
  exists t ss, unshare a (al_size x) (al_shm x) v = Some (set_shms ss (set_shmem t v)) /\ shared_ok t ss (delete a A).
Proof.
  intros Hok Hsh Ha. destruct (al_shm x) as [r|] eqn:Hx; cbn [unshare].
  2:{ exists (g_shmem v), (shms v). split; [now destruct v|]. now apply (shared_delete_none _ _ _ _ x). }
  destruct (sh_ref _ _ _ Hsh a x r Ha Hx) as [o Ho]. rewrite Ho. cbn [mbind option_bind]. pose proof (sh_each _ _ _ Hsh r o Ho) as [P1 P2 P3 P4].
  pose proof (shared_delete v A a x r o Hok Hsh Ha Hx Ho) as Hdel. pose proof (mirror_here A a x r Ha Hx) as Hhere.
  pose proof (al_fits A Hok a x Ha) as Hf. unfold fits in Hf.
  destruct (Z.eqb_spec (s_flags o) 0) as [Hfl|Hfl]; cbn [negb andb].
  { exists (g_shmem v), (shms v). split; [now destruct v|]. rewrite <- (list_insert_id (shms v) r o Ho).
    apply (Hdel _ _ []); [done|done|done| |done|now intros i ?%not_elem_of_nil|done]. intros i. now rewrite decide_False by apply not_elem_of_nil. }
  specialize (P4 Hfl). destruct (P3 Hfl a x Hhere) as (_ & _ & Hm1 & Hm2).
  assert (s_info o <> 0) as Hz. { intros Hz. destruct P4 as [[_ H]|[(H & _)|(H & _)]]; [rewrite H, lookup_empty in Hhere; done|congruence|lia]. }
  rewrite Z.shiftr_div_pow2 by lia. change (2 ^ 16) with 65536. destruct (Z.eqb_spec (word_at (g_shmem v) (a / 65536)) 0) as [Hw|Hw]; cbn [negb].
  - assert (s_info o = 1 /\ unmarked (g_shmem v) a x) as [H1 Hu].
    { destruct P4 as [[? _]|[(H & _ & Hu)|(_ & H)]]; [done|split; [done|now apply Hu]|]. exfalso. apply (shm_word_nonzero r 0); [lia|]. rewrite <- (H a x Hhere 0), Z.add_0_r by (Z.div_mod_to_equations; lia). done. }
    exists (g_shmem v), (shms v). split; [now destruct v|]. rewrite <- (list_insert_id (shms v) r o Ho).
    apply (Hdel _ _ []); [done|done|done| |intros _ i Hi _; now apply Hu|now intros i ?%not_elem_of_nil|].
    + intros i. now rewrite decide_False by apply not_elem_of_nil.
    + intros _. replace o with (set_info 1 o) at 1 by (destruct o; cbn in *; now subst). apply count_delete; [done|done|eauto|]. now rewrite H1.
  - assert (s_info o <> 1 /\ s_info o = wrap 64 (s_info o) /\ 1 < s_info o) as (H1 & H64 & Hpos).
    { pose proof (size_bound A r Hok). destruct P4 as [[? _]|[(_ & _ & Hu)|(Hb & _)]]; [done| |rewrite wrap_small by (unfold is_word; lia); lia].
      exfalso. apply Hw, (Hu a x Hhere), elem_units. Z.div_mod_to_equations; lia. }
    exists (release_all (units_of a (al_size x)) 0 (g_shmem v)), (<[r := set_info (s_info o - 1) o]> (shms v)). split.
    + rewrite (alter_insert _ _ _ o Ho). rewrite wrap_small; [done|]. pose proof (wrap_range 64 (s_info o) ltac:(done)) as Hr. rewrite <- H64 in Hr. unfold is_word in *. lia.
    + apply (Hdel _ _ (units_of a (al_size x))); [done|done|done|intros i; now rewrite word_at_release_all|done|done|].
      intros _. apply count_delete; [done|done|eauto|]. now rewrite (proj2 (Z.eqb_neq _ _)).
Qed.

Lemma unshare_pages a s sh v v' tp : unshare a s sh v = Some v' -> unshare a s sh (set_pages tp v) = Some (set_pages tp v').
Proof.
  destruct sh as [r|]; cbn [unshare]; [|now intros [= ->]]. cbn [set_pages shms g_shmem]. destruct (shms v !! r) as [o|]; cbn [mbind option_bind]; [|done].
  destruct (_ && _); now intros [= <-].
Qed.
End share.
