(* ===== verification/VmAlloc.v ===== *)
(** * Guest virtual memory: allocation

    [try_alloc], [alloc], [falloc], [dealloc] of an area and the removal of all
    its allocations, on states that satisfy the invariant. *)
From stdpp Require Import gmap.
From S2P Require Import Prelude StdMap Vm VmTables VmProofs VmShare.

Implicit Types (A : gmap Z alloc) (x : alloc) (b : block_t) (v : vm).

Lemma page_flags_free bflags : has (page_flags bflags) page_allocated = false.
Proof. unfold page_flags. repeat case_match; reflexivity. Qed.

Lemma page_flags_allocated bflags : has (Z.lor (page_flags bflags) page_allocated) page_allocated = true.
Proof. unfold page_flags. repeat case_match; reflexivity. Qed.

Lemma page_flags_exec bflags : has (Z.lor (page_flags bflags) page_allocated) page_executable = has bflags alloc_executable.
Proof. unfold page_flags. destruct (has bflags alloc_executable); repeat case_match; reflexivity. Qed.

Lemma fits_weaken a s g : fits a s g -> fits a s false.
Proof. unfold fits. now intros (? & ? & ? & ? & ? & _). Qed.

(** The pages [try_alloc] looks at. *)
Lemma pages_to_last a s : fits a s false -> seqZ (a / 4096) (u32 (a + s - 1) / 4096 - a / 4096 + 1) = pages_of a s.
Proof.
  intros Hf. unfold fits in Hf. unfold pages_of. rewrite wrap_small by (unfold is_word; lia). f_equal. Z.div_mod_to_equations; lia.
Qed.

Section alloc.
Context (map_address : nat -> Z) (get_page_size : Z).
Context (Hmap : forall r, 0 < map_address r < 2 ^ 47 /\ map_address r mod 2 ^ 16 = 0).

(** A consistent state with the allocations [A]. *)
Record vm_ok v A : Prop := {
  ok_couples : couples (g_locations v) (blocks v) A;
  ok_allocs : allocs_ok A;
  ok_pages : pages_ok (g_pages v) A;
  ok_shared : shared_ok map_address (g_shmem v) (shms v) A;
  ok_fixed : memory_location_max <= Z.of_nat (length (g_locations v));
  ok_id : 0 < s_id v
}.

(** Only the shared-memory objects differ. *)
Definition same v v' : Prop := g_pages v' = g_pages v /\ g_shmem v' = g_shmem v /\ g_locations v' = g_locations v /\ blocks v' = blocks v /\ s_id v' = s_id v.

(** The state after an allocation. *)
Record allocated v (r : nat) b (a s : Z) (sh : option nat) (bflags : Z) v' : Prop := {
  ad_locs : g_locations v' = g_locations v;
  ad_blocks : blocks v' = alter (fun b => set_map (assign (m_map b) a (s, sh)) b) r (blocks v);
  ad_id : s_id v' = s_id v;
  ad_pages p : word_at (g_pages v') p =
    if decide (a / 4096 <= p < a / 4096 + s / 4096) then
      if guarded b && ((p =? a / 4096) || (p =? a / 4096 + s / 4096 - 1)) then page_allocated else Z.lor (page_flags bflags) page_allocated
    else word_at (g_pages v) p
}.

(** The shared memory of an allocation exists, and a shareable one is mapped to
    whole units of an area that is searched for mirrors. *)
Definition source_ok v b (a s : Z) (sh : option nat) : Prop :=
  (has_common b = true -> sh = None) /\
  forall q, sh = Some q -> exists o, shms v !! q = Some o /\ (s_flags o <> 0 -> eligible b = true /\ a mod 65536 = 0 /\ s mod 65536 = 0).

Lemma page_map_ok v A b a s sh bflags : vm_ok v A -> block_ok b -> fits a s (guarded b) -> free A a s -> source_ok v b a s sh ->
  (guarded b = true -> has bflags alloc_executable = false) ->
  exists v0 v', (if guarded b then mark_guards a s v else Some v) = Some v0 /\
    page_map map_address get_page_size (u32 (a + if guarded b then 0x1000 else 0)) (page_flags bflags) (u32 (s - if guarded b then 0x2000 else 0)) sh (b_flags b) v0 = Some v' /\
    g_locations v' = g_locations v /\ blocks v' = blocks v /\ s_id v' = s_id v /\
    shared_ok map_address (g_shmem v') (shms v') (<[a := alloc_of b (s, sh)]> A) /\
    (forall p, word_at (g_pages v') p = if decide (a / 4096 <= p < a / 4096 + s / 4096) then
      if guarded b && ((p =? a / 4096) || (p =? a / 4096 + s / 4096 - 1)) then page_allocated else Z.lor (page_flags bflags) page_allocated
      else word_at (g_pages v) p).
Proof.
  intros [Hc Hok Hp Hsh _ _] Hb Hf Hfr [Hcm Hsrc] Hex.
  pose proof (fits_weaken a s _ Hf) as Hf0. pose proof (proj2 (pages_free _ A a s Hok Hp Hf0) Hfr) as Hz.
  assert (forall p, word_at (g_pages v) p = 0 \/ ~ (a / 4096 <= p < a / 4096 + s / 4096)) as Hz2.
  { intros p. destruct (decide (a / 4096 <= p < a / 4096 + s / 4096)); [left; apply Hz, elem_pages; done|now right]. }
  assert (0 <= a /\ 0 < s < 2 ^ 32 /\ a + s <= 2 ^ 32 /\ a mod 4096 = 0 /\ s mod 4096 = 0) as (Ha0 & Hs0 & Has & Ha4 & Hs4) by (unfold fits in Hf; tauto).
  destruct (share_ok map_address Hmap v A a s sh (guarded b) (eligible b) Hc Hok Hsh Hf Hfr) as (t & ss & Hshare & Hshok).
  { intros q ->. destruct (Hsrc q eq_refl) as (o & Ho & Hmo). exists o. split; [done|]. intros Hfl. destruct (Hmo Hfl) as (He & H1 & H2). split_and!; [done| |done|done]. cbn.
    destruct (guarded b) eqn:Hg; [|done]. pose proof (Hcm (bo_4k b Hb (bo_guard b Hb Hg))). done. }
  set (g := if guarded b then 0x1000 else 0). set (g2 := if guarded b then 0x2000 else 0).
  assert (g2 = 2 * g /\ 0 <= g /\ g mod 4096 = 0 /\ 0 < s - g2) as (Hg2 & Hg0 & Hg4 & Hs2).
  { unfold g, g2. unfold fits in Hf. destruct (guarded b); [|split_and!; try done; lia]. split_and!; [done|done|done|]. destruct Hf as (_ & _ & _ & _ & _ & H). specialize (H eq_refl). lia. }
  assert (is_word 32 (a + g) /\ is_word 32 (s - g2)) as [Hw1 Hw2] by (unfold is_word; lia).
  rewrite (wrap_small 32 (a + g)), (wrap_small 32 (s - g2)) by done. set (w := Z.lor (page_flags bflags) page_allocated).
  assert (exists v0, (if guarded b then mark_guards a s v else Some v) = Some v0 /\ (exists tp, v0 = set_pages tp v /\
    forall p, word_at tp p = if guarded b && ((p =? a / 4096) || (p =? a / 4096 + s / 4096 - 1)) then page_allocated else word_at (g_pages v) p)) as (v0 & Hv0 & tp & -> & Htp).
  { destruct (guarded b) eqn:Hg; [|exists v; split; [done|]; exists (g_pages v); split; [now destruct v|done]].
    destruct Hf as (_ & _ & _ & _ & _ & H3). specialize (H3 eq_refl). unfold mark_guards. cbn [exchange_all].
    rewrite Hz by (apply elem_pages; Z.div_mod_to_equations; lia). cbn [Z.eqb mbind option_bind]. rewrite word_at_insert, decide_False by (Z.div_mod_to_equations; lia).
    rewrite Hz by (apply elem_pages; Z.div_mod_to_equations; lia). cbn [Z.eqb mbind option_bind]. eexists. split; [reflexivity|]. eexists. split; [reflexivity|].
    intros p. rewrite !word_at_insert. cbn [andb]. repeat case_decide; destruct (Z.eqb_spec p (a / 4096)), (Z.eqb_spec p (a / 4096 + s / 4096 - 1)); cbn; congruence. }
  rewrite Hv0. exists (set_pages tp v). unfold page_map. rewrite (proj2 (Z.eqb_neq (s - g2) 0)) by lia.
  assert (Z.lor (s - g2) (a + g) mod 4096 = 0) as -> by (apply (lor_mod _ _ 12); [done|]; change (2 ^ 12) with 4096; Z.div_mod_to_equations; lia). cbn [Z.eqb negb orb].
  rewrite page_flags_free. assert (forall p, p ∈ pages_of (a + g) (s - g2) -> word_at tp p = 0) as Hzt.
  { intros p Hp'%elem_pages. rewrite Htp. unfold g, g2 in Hp'. destruct (guarded b) eqn:Hg; cbn [andb].
    - rewrite (proj2 (Z.eqb_neq _ _)), (proj2 (Z.eqb_neq _ _)) by (Z.div_mod_to_equations; lia). cbn. apply Hz, elem_pages. Z.div_mod_to_equations; lia.
    - apply Hz, elem_pages. rewrite Z.add_0_r, Z.sub_0_r in Hp'. done. }
  cbn [set_pages g_pages]. rewrite (proj2 (existsb_used _ _) Hzt).
  assert (share map_address (a + g) (s - g2) sh (set_pages tp v) = Some (set_pages tp (set_shms ss (set_shmem t v)))) as ->.
  { destruct (guarded b) eqn:Hg.
    - pose proof (Hcm (bo_4k b Hb (bo_guard b Hb Hg))) as ->. cbn in Hshare |- *. injection Hshare as Hv. rewrite Hv at 1. done.
    - subst g g2. rewrite Z.add_0_r, Z.sub_0_r. apply (share_pages map_address a s sh v _ tp Hshare). }
  cbn [mbind option_bind]. set (v1 := match sh with Some r => if is_noop get_page_size (b_flags b) then _ else _ | None => _ end).
  assert (v1 = set_pages tp (set_shms (match sh with Some r => alter (mapped map_address r) r ss | None => ss end) (set_shmem t v))) as ->.
  { subst v1. destruct sh as [r|]; [|done]. assert (is_noop get_page_size (b_flags b) = false) as ->; [|done]. unfold is_noop.
    destruct (has (b_flags b) page_size_4k) eqn:H4; [|done]. pose proof (Hcm (bo_4k b Hb H4)). done. }
  cbn [set_pages g_pages]. rewrite exchange_all_eq by (done || apply nodup_pages). cbn [mbind option_bind]. eexists. split_and!; [reflexivity|reflexivity|done|done|done|exact Hshok|].
  intros p. cbn [set_pages g_pages]. rewrite word_at_release_all, Htp. unfold g, g2. destruct (decide (a / 4096 <= p < a / 4096 + s / 4096)) as [Hin|Hin].
  - destruct (guarded b) eqn:Hg; cbn [andb].
    + destruct Hf as (_ & _ & _ & _ & _ & H3). specialize (H3 eq_refl).
      destruct (Z.eqb_spec p (a / 4096)), (Z.eqb_spec p (a / 4096 + s / 4096 - 1)); cbn [orb]; [rewrite decide_False; [done|]|rewrite decide_False; [done|]|rewrite decide_False; [done|]|rewrite decide_True; [done|]]; rewrite elem_pages; Z.div_mod_to_equations; lia.
    + rewrite Z.add_0_r, Z.sub_0_r, decide_True by now apply elem_pages. done.
  - assert (p ∉ pages_of (a + g) (s - g2)) as Hnp by (rewrite elem_pages; Z.div_mod_to_equations; lia). fold g g2. rewrite decide_False by done.
    destruct (guarded b) eqn:Hg; cbn [andb]; [|done]. destruct Hf as (_ & _ & _ & _ & _ & H3). specialize (H3 eq_refl).
    rewrite (proj2 (Z.eqb_neq p (a / 4096))), (proj2 (Z.eqb_neq p (a / 4096 + s / 4096 - 1))) by (Z.div_mod_to_equations; lia). done.
Qed.

(** [try_alloc] on a range inside the area: whether the range was free. *)
Lemma try_alloc_taken v A r b a s sh bflags : vm_ok v A -> blocks v !! r = Some b -> fits a s (guarded b) -> ~ free A a s ->
  try_alloc map_address get_page_size r a bflags s sh v = Some (false, v).
Proof.
  intros [Hc Hok Hp _ _ _] Hb Hf Hn. unfold try_alloc. rewrite Hb. cbn [mbind option_bind]. rewrite pages_to_last by now apply fits_weaken in Hf.
  destruct (existsb _ _) eqn:He; [done|]. exfalso. apply Hn. apply fits_weaken in Hf. apply (pages_free (g_pages v) A a s Hok Hp Hf). now apply existsb_used.
Qed.

Lemma try_alloc_free v A r b a s sh bflags : vm_ok v A -> blocks v !! r = Some b -> b_id b <> 0 -> fits a s (guarded b) -> free A a s ->
  b_addr b <= a -> a + s <= b_addr b + b_size b -> source_ok v b a s sh -> (guarded b = true -> has bflags alloc_executable = false) ->
  exists v', try_alloc map_address get_page_size r a bflags s sh v = Some (true, v') /\ vm_ok v' (<[a := alloc_of b (s, sh)]> A) /\
    allocated v r b a s sh bflags v'.
Proof.
  intros Hv Hb Hid Hf Hfr Ha1 Ha2 Hsrc Hex. pose proof Hv as [Hc Hok Hp Hsh Hfx Hpos]. pose proof (co_ok _ _ _ Hc r b Hb Hid) as Hbo.
  destruct (page_map_ok v A b a s sh bflags Hv Hbo Hf Hfr Hsrc Hex) as (v0 & v' & H0 & H1 & Hl & Hbl & Hi & Hs' & Hp').
  exists (set_blocks (alter (fun b => set_map (assign (m_map b) a (s, sh)) b) r (blocks v')) v'). pose proof (fits_weaken a s _ Hf) as Hf0.
  assert (A !! a = None) as Hn by (apply (free_none A a s); [done|unfold fits in Hf; lia|done]). split; [|split].
  - unfold try_alloc. rewrite Hb. cbn [mbind option_bind]. rewrite pages_to_last by done. rewrite (proj2 (existsb_used _ _) (proj2 (pages_free _ A a s Hok Hp Hf0) Hfr)).
    rewrite H0. cbn [mbind option_bind]. now rewrite H1.
  - split; cbn; [| | |done|now rewrite Hl|now rewrite Hi].
    + rewrite Hl, Hbl. apply couples_insert; [done|done|done|done|done|unfold fits in Hf; lia|done|done|apply Hsrc].
    + now apply allocs_insert.
    + apply (pages_insert (g_pages v)); [done|done|exact Hf|done|intros p Hnc; rewrite Hp'; now rewrite decide_False|]. split; cbn.
      * intros Hg. unfold fits in Hf. destruct Hf as (? & ? & ? & ? & ? & H3). specialize (H3 Hg). rewrite !Hp', Hg, !Z.eqb_refl, orb_true_r. cbn. rewrite !decide_True by (Z.div_mod_to_equations; lia). done.
      * exists (has bflags alloc_executable). split; [done|]. intros p Hin%elem_pages. cbn in Hin. rewrite Hp'. unfold guard_size in Hin. cbn in Hin.
        unfold fits in Hf. destruct Hf as (? & ? & ? & ? & ? & H3).
        rewrite decide_True by (destruct (guarded b); Z.div_mod_to_equations; lia). destruct (guarded b) eqn:Hg; cbn [andb].
        -- specialize (H3 eq_refl). rewrite (proj2 (Z.eqb_neq p (a / 4096))), (proj2 (Z.eqb_neq p (a / 4096 + s / 4096 - 1))) by (Z.div_mod_to_equations; lia).
           split; [apply page_flags_allocated|apply page_flags_exec].
        -- split; [apply page_flags_allocated|apply page_flags_exec].
  - split; cbn; [done|now rewrite Hbl|done|done].
Qed.

(** ** The search for a place *)

(** A place an allocation in an area may have. *)
Definition place b (align s a : Z) : Prop := a mod align = 0 /\ b_addr b <= a /\ a + s <= b_addr b + b_size b.

Lemma alloc_loop_S n r addr max align flags s sh v : alloc_loop map_address get_page_size (S n) r addr max align flags s sh v =
  ('(ok, v) ← try_alloc map_address get_page_size r addr flags s sh v;
   if (ok : bool) then Some (u32 (addr + if has flags stack_guarded then 0x1000 else 0), v)
   else if addr =? max then Some (0, v) else alloc_loop map_address get_page_size n r (u32 (addr + align)) max align flags s sh v).
Proof. done. Qed.

Lemma alloc_loop_ok v A r b align flags s sh : vm_ok v A -> blocks v !! r = Some b -> b_id b <> 0 -> 0 < align -> has flags stack_guarded = guarded b ->
  (guarded b = true -> has flags alloc_executable = false) -> (forall a, place b align s a -> fits a s (guarded b) /\ source_ok v b a s sh) ->
  forall n addr max, max = addr + Z.of_nat n * align -> (forall a, addr <= a <= max -> a mod align = 0 -> place b align s a) -> addr mod align = 0 ->
  exists ret v', alloc_loop map_address get_page_size (S n) r addr max align flags s sh v = Some (ret, v') /\
    ((v' = v /\ ret = 0 /\ forall a, addr <= a <= max -> a mod align = 0 -> ~ free A a s) \/
     exists a, addr <= a <= max /\ place b align s a /\ free A a s /\ (forall a', addr <= a' < a -> a' mod align = 0 -> ~ free A a' s) /\
       ret = a + guard_size (alloc_of b (s, sh)) /\ vm_ok v' (<[a := alloc_of b (s, sh)]> A) /\ allocated v r b a s sh flags v').
Proof.
  intros Hv Hb Hid Hal Hg Hex Hpl. induction n as [|n IH]; intros addr max Hmax Hin Hmod.
  all: assert (place b align s addr) as Hp0 by (apply Hin; [lia|done]); destruct (Hpl addr Hp0) as [Hf Hsrc]; pose proof Hp0 as (_ & Hp1 & Hp2).
  all: assert (free A addr s \/ ~ free A addr s) as [Hfr|Hfr] by (destruct (free_dec A addr s); auto).
  1,3: destruct (try_alloc_free v A r b addr s sh flags Hv Hb Hid Hf Hfr Hp1 Hp2 Hsrc Hex) as (v' & Ht & Hv' & Had);
    rewrite alloc_loop_S, Ht; cbn [mbind option_bind]; do 2 eexists; (split; [reflexivity|]); right; exists addr;
    (split_and!; [lia|lia|exact Hp0|exact Hfr|intros; lia| |done|done]);
    unfold guard_size; cbn; rewrite Hg; (apply wrap_small); unfold fits in Hf; unfold is_word; destruct (guarded b); lia.
  - rewrite alloc_loop_S, (try_alloc_taken v A r b addr s sh flags Hv Hb Hf Hfr). cbn [mbind option_bind]. rewrite (proj2 (Z.eqb_eq addr max)) by lia.
    do 2 eexists. split; [reflexivity|]. left. split_and!; [done|done|]. intros a Ha _. now replace a with addr by lia.
  - assert (addr + align <= max) by nia. rewrite alloc_loop_S, (try_alloc_taken v A r b addr s sh flags Hv Hb Hf Hfr). cbn [mbind option_bind]. rewrite (proj2 (Z.eqb_neq addr max)) by lia.
    assert (place b align s max) as Hpm by (apply Hin; [lia|]; rewrite Hmax, Z_mod_plus_full; done). destruct (Hpl max Hpm) as [Hfm _]. unfold fits in Hfm, Hf.
    rewrite wrap_small by (unfold is_word; lia).
    destruct (IH (addr + align) max) as (ret & v' & He & Hr); [lia|intros a Ha; apply Hin; lia|rewrite <- Hmod; rewrite <- (Z_mod_plus_full addr 1 align); f_equal; lia|].
    assert (forall a, addr <= a < addr + align -> a mod align = 0 -> ~ free A a s) as Hfirst.
    { intros a Ha Hma. assert ((a - addr) mod align = 0) as Hd by (rewrite Zminus_mod, Hma, Hmod; done). rewrite Z.mod_small in Hd by lia. now replace a with addr by lia. }
    exists ret, v'. split; [exact He|]. destruct Hr as [(-> & -> & Hn)|(a & Ha & Hpa & Hfa & Hn & Hr)]; [left|right].
    + split_and!; [done|done|]. intros a Ha Hma. destruct (decide (a < addr + align)); [now apply Hfirst|apply Hn; [lia|done]].
    + exists a. split_and!; [lia|lia|done|done| |apply Hr..]. intros a' Ha' Hma. destruct (decide (a' < addr + align)); [now apply Hfirst|apply Hn; [lia|done]].
Qed.
End alloc.
