(* ===== verification/VmBlock.v ===== *)
(** * Guest virtual memory: operations of an area

    [alloc], [falloc] and [dealloc] of [block_t] and the removal of all
    allocations of an area, on states that satisfy the invariant. *)
From stdpp Require Import gmap.
From S2P Require Import Prelude StdMap Vm VmTables VmProofs VmShare VmAlloc.

Implicit Types (A : gmap Z alloc) (x : alloc) (b : block_t) (v : vm).

(** ** Flags and sizes *)

Lemma merge_flag b src flags k : 0 <= k < 12 -> has (merge_flags b src flags) (2 ^ k) = match src with Some _ => has flags (2 ^ k) | None => has (b_flags b) (2 ^ k) end.
Proof.
  intros Hk. destruct src; [done|]. cbn [merge_flags]. rewrite !has_bit by lia. rewrite Z.lor_spec, !Z.land_spec, Z.lnot_spec by lia.
  assert (Z.testbit alloc_prot_mask k = false) as ->; [|cbn; now rewrite andb_true_r, andb_false_r, orb_false_r].
  change alloc_prot_mask with (Z.shiftl 7 12). rewrite Z.shiftl_spec by lia. apply Z.testbit_neg_r. lia.
Qed.

Lemma merge_exec b src flags : has (merge_flags b src flags) alloc_executable = has flags alloc_executable.
Proof.
  destruct src; [done|]. cbn [merge_flags]. change alloc_executable with (2 ^ 14). rewrite !has_bit by lia. rewrite Z.lor_spec, !Z.land_spec, Z.lnot_spec by lia.
  change (Z.testbit alloc_prot_mask 14) with true. cbn. now rewrite andb_false_r, andb_true_r.
Qed.

Definition round_up (n m : Z) : Z := (n + (m - 1)) / m * m.

(** The arguments of an allocation that do not make it throw, and what is
    wanted of shared memory. *)
Record alloc_args v b (src : option nat) (flags : Z) : Prop := {
  aa_src q : src = Some q -> has_common b = false /\ has flags page_size_4k = false /\ has flags stack_guarded = false /\
    exists o, shms v !! q = Some o /\ (s_flags o <> 0 -> eligible b = true);
  aa_exec : guarded b = true -> has flags alloc_executable = false
}.

Lemma min_page_pow2 flags : exists k, 12 <= k <= 16 /\ min_page_size flags = 2 ^ k.
Proof. unfold min_page_size. destruct (has flags page_size_4k); [exists 12|exists 16]; done. Qed.

Lemma round_up_spec n k : 0 <= k -> 0 <= n -> n <= round_up n (2 ^ k) < n + 2 ^ k /\ round_up n (2 ^ k) mod 2 ^ k = 0.
Proof.
  intros Hk Hn. assert (0 < 2 ^ k) by (apply Z.pow_pos_nonneg; lia). unfold round_up. split; [|apply Z_mod_mult].
  pose proof (Z.div_mod (n + (2 ^ k - 1)) (2 ^ k) ltac:(lia)). pose proof (Z.mod_pos_bound (n + (2 ^ k - 1)) (2 ^ k) ltac:(lia)). lia.
Qed.

Lemma alignUp_round n k : 0 <= k <= 16 -> is_word 32 n -> alignUp n (2 ^ k) = if n + (2 ^ k - 1) <? 2 ^ 32 then round_up n (2 ^ k) else 0.
Proof.
  intros Hk [Hn Hn2]. assert (0 < 2 ^ k <= 65536) as Hp by (split; [apply Z.pow_pos_nonneg; lia|change 65536 with (2 ^ 16); apply Z.pow_le_mono_r; lia]).
  destruct (Z.ltb_spec (n + (2 ^ k - 1)) (2 ^ 32)).
  - rewrite alignUp_eq by lia. unfold round_up. pose proof (Z.div_mod (n + (2 ^ k - 1)) (2 ^ k) ltac:(lia)). lia.
  - unfold alignUp. rewrite land_lnot_pow2 by lia. assert (u32 (n + (2 ^ k - 1)) = n + (2 ^ k - 1) - 2 ^ 32) as ->.
    { symmetry. apply (Z.mod_unique _ _ 1); lia. } rewrite Z.mod_small by lia. lia.
Qed.

(** The size [alloc] computes, where it goes on. *)
Lemma alloc_size n k g : 12 <= k <= 16 -> g = 0 \/ g = 0x2000 /\ k = 12 -> is_word 32 n ->
  let size := u32 (alignUp n (2 ^ k) + g) in n <> 0 -> size <> 0 -> n <= size ->
  size = round_up n (2 ^ k) + g /\ 0 < size < 2 ^ 32 /\ size mod 4096 = 0 /\ (g <> 0 -> 0x3000 <= size) /\ (k = 16 -> size mod 65536 = 0).
Proof.
  intros Hk Hg [Hn Hn2] size Hn0 Hs0 Hle. pose proof (round_up_spec n k ltac:(lia) Hn) as [Hr Hm].
  assert (2 ^ k <= 65536) by (change 65536 with (2 ^ 16); apply Z.pow_le_mono_r; lia). subst size. rewrite alignUp_round in * by (lia || done).
  destruct (Z.ltb_spec (n + (2 ^ k - 1)) (2 ^ 32)) as [Hov|Hov].
  2:{ exfalso. destruct Hg as [->|[-> ->]]; [now cbn in Hs0|]. change (u32 (0 + 0x2000)) with 0x2000 in Hle. change (2 ^ 12) with 4096 in *. lia. }
  pose proof (divide_pow2 _ 12 k ltac:(lia) Hm) as Hm12. change (2 ^ 12) with 4096 in Hm12.
  assert (round_up n (2 ^ k) + g < 2 ^ 32) as Hb.
  { destruct (Z.lt_ge_cases (round_up n (2 ^ k) + g) (2 ^ 32)) as [|Hge]; [done|]. exfalso.
    assert (u32 (round_up n (2 ^ k) + g) = round_up n (2 ^ k) + g - 2 ^ 32) as He by (symmetry; apply (Z.mod_unique _ _ 1); [left|]; destruct Hg as [->|[-> _]]; lia).
    rewrite He in Hle. destruct Hg as [->|[-> _]]; lia. }
  rewrite wrap_small in * by (unfold is_word; destruct Hg as [->|[-> _]]; lia). split_and!; [done|destruct Hg as [->|[-> _]]; lia|done| | |].
  - destruct Hg as [->|[-> _]]; Z.div_mod_to_equations; lia.
  - intros Hg0. destruct Hg as [->|[-> ->]]; [done|]. change (2 ^ 12) with 4096 in *. Z.div_mod_to_equations; lia.
  - intros ->. destruct Hg as [->|[_ ?]]; [|lia]. now rewrite Z.add_0_r.
Qed.

Section block.
Context (map_address : nat -> Z) (get_page_size : Z).
Context (Hmap : forall r, 0 < map_address r < 2 ^ 47 /\ map_address r mod 2 ^ 16 = 0).
Abbreviation vm_ok := (vm_ok map_address).

Lemma same_refl v : same v v.
Proof. now unfold same. Qed.

Lemma vm_same v v' A : vm_ok v A -> same v v' -> shared_ok map_address (g_shmem v') (shms v') A -> vm_ok v' A.
Proof.
  intros [Hc Hok Hp Hsh Hf Hi] (E1 & E2 & E3 & E4 & E5) Hs. split; rewrite ?E1, ?E3, ?E4, ?E5; done.
Qed.

Lemma import_ok v A b src flags : vm_ok v A -> alloc_args v b src flags ->
  exists sh v1, import_shm b src v = Some (sh, v1) /\ vm_ok v1 A /\ same v v1 /\ (has_common b = true -> sh = None) /\
    (forall q, sh = Some q -> exists o, shms v1 !! q = Some o /\ (s_flags o <> 0 -> is_Some src /\ eligible b = true)).
Proof.
  intros Hv [Hsrc _]. unfold import_shm. destruct (has_common b) eqn:Hcm.
  - destruct src as [q|]; [destruct (Hsrc q eq_refl) as [[=] _]|]. exists None, v. split_and!; try done.
  - destruct src as [q|].
    + exists (Some q), v. split_and!; try done. intros q' [= <-]. destruct (Hsrc q eq_refl) as (_ & _ & _ & o & Ho & He). exists o. split; [done|]. intros Hf. split; [eauto|now apply He].
    + do 2 eexists. split; [reflexivity|]. split; [|split; [done|split; [done|]]].
      * apply (vm_same v); [done|done|]. cbn. apply shared_make. apply Hv.
      * intros q [= <-]. exists (Shm 0 0 0). cbn. split; [|done]. rewrite lookup_app_r, Nat.sub_diag by lia. done.
Qed.

(** ** [alloc] *)

(** The size of an allocation with its guard pages, and what [alloc] gives: an
    address or nothing. *)
Definition total_size b (src : option nat) (flags size : Z) : Z :=
  round_up size (min_page_size (merge_flags b src flags)) + if guarded b then 0x2000 else 0.

Lemma guarded_flags v b src flags : block_ok b -> alloc_args v b src flags ->
  has (merge_flags b src flags) stack_guarded = guarded b /\ (guarded b = true -> min_page_size (merge_flags b src flags) = 2 ^ 12) /\
  (is_Some src -> min_page_size (merge_flags b src flags) = 2 ^ 16 /\ guarded b = false).
Proof.
  intros Hb [Hsrc _]. change stack_guarded with (2 ^ 4) in *. unfold min_page_size. change page_size_4k with (2 ^ 8) in *. rewrite !merge_flag by lia. split_and!.
  - destruct src as [q|]; [|done]. destruct (Hsrc q eq_refl) as (Hc & _ & -> & _). symmetry. destruct (guarded b) eqn:Hg; [|done].
    pose proof (bo_4k b Hb (bo_guard b Hb Hg)). congruence.
  - intros Hg. pose proof (bo_guard b Hb Hg) as H4. destruct src as [q|]; [|change (2 ^ 8) with page_size_4k; now rewrite H4].
    destruct (Hsrc q eq_refl) as (Hc & _). pose proof (bo_4k b Hb H4). congruence.
  - intros [q ->]. destruct (Hsrc q eq_refl) as (Hc & H4 & _). rewrite H4. split; [done|]. destruct (guarded b) eqn:Hg; [|done].
    pose proof (bo_4k b Hb (bo_guard b Hb Hg)). congruence.
Qed.

(** Which objects are shareable does not change. *)
Abbreviation shm_flags v := (s_flags <$> shms v).

Lemma alter_flags r (f : shm -> shm) (ss : list shm) : (forall o, s_flags (f o) = s_flags o) -> s_flags <$> alter f r ss = s_flags <$> ss.
Proof. intros Hf. apply list_eq. intros i. rewrite !list_lookup_fmap, list_lookup_alter. case_decide as Hi; [|done]. subst i. destruct (ss !! r); cbn; now rewrite ?Hf. Qed.

Lemma map_self_flags r v : shm_flags (map_self map_address r v) = shm_flags v.
Proof. unfold map_self. cbn [shms set_shms]. now apply alter_flags. Qed.

Lemma share_flags a s sh v v' : share map_address a s sh v = Some v' -> shm_flags v' = shm_flags v.
Proof.
  destruct sh as [r|]; cbn [share]; [|now intros [= ->]]. destruct (shms v !! r) as [o|]; cbn [mbind option_bind]; [|done].
  destruct (_ =? 0); [now intros [= ->]|]. set (v0 := set_shms _ v). assert (shm_flags v0 = shm_flags v) as H0 by (unfold v0; cbn [shms set_shms]; now apply alter_flags). rewrite <- H0. clearbody v0.
  destruct (s_info o =? 0); [now intros [= ->]|].
  match goal with |- ((?m ≫= _) = _ -> _) => destruct m as [v1|] eqn:E end; cbn [mbind option_bind]; [|done].
  assert (shm_flags v1 = shm_flags v0) as H1.
  { destruct (_ =? 2); [|congruence]. rewrite <- (map_self_flags r v0).
    destruct (shms (map_self map_address r v0) !! r); cbn [mbind option_bind] in E; [|done]. destruct (negb _); [done|]. injection E as <-. cbn [shms set_shms]. rewrite alter_flags by done. done. }
  rewrite <- H1. destruct (shms v1 !! r); cbn [mbind option_bind]; [|done]. destruct (negb _); [done|]. now intros [= <-].
Qed.

Lemma try_alloc_flags r addr bflags size sh v ok v' : try_alloc map_address get_page_size r addr bflags size sh v = Some (ok, v') -> shm_flags v' = shm_flags v.
Proof.
  unfold try_alloc. destruct (blocks v !! r) as [b|]; cbn [mbind option_bind]; [|done]. destruct (existsb _ _); [now intros [= _ <-]|].
  destruct (if guarded b then mark_guards addr size v else Some v) as [v0|] eqn:E0; cbn [mbind option_bind]; [|done].
  assert (shms v0 = shms v) as H0.
  { destruct (guarded b); [|congruence]. unfold mark_guards in E0. destruct (exchange_all _ _ (g_pages v)) as [t|]; cbn [mbind option_bind] in E0; [|done].
    destruct (exchange_all _ _ t); cbn [mbind option_bind] in E0; [|done]. now injection E0 as <-. }
  rewrite <- H0. unfold page_map. destruct (_ || _); [done|]. destruct (existsb _ _); [done|].
  match goal with |- context [share map_address ?a ?n sh v0] => destruct (share map_address a n sh v0) as [v1|] eqn:E1 end; cbn [mbind option_bind]; [|done].
  rewrite <- (share_flags _ _ _ _ _ E1). set (v2 := match sh with Some r => _ | None => v1 end).
  assert (shm_flags v2 = shm_flags v1) as <- by (unfold v2; destruct sh as [q|]; [|done]; destruct (is_noop _ _); [done|]; apply map_self_flags). clearbody v2.
  destruct (exchange_all _ _ (g_pages v2)); cbn [mbind option_bind]; [|done]. now intros [= _ <-].
Qed.

Lemma alloc_loop_flags fuel r addr max align flags size sh v ret v' : alloc_loop map_address get_page_size fuel r addr max align flags size sh v = Some (ret, v') -> shm_flags v' = shm_flags v.
Proof.
  revert addr v. induction fuel as [|fuel IH]; intros addr v; cbn [alloc_loop]; [now intros [= _ <-]|].
  destruct (try_alloc _ _ r addr flags size sh v) as [[ok v1]|] eqn:E; cbn [mbind option_bind]; [|done]. rewrite <- (try_alloc_flags _ _ _ _ _ _ _ _ E).
  destruct ok; [now intros [= _ <-]|]. destruct (addr =? max); [now intros [= _ <-]|]. apply IH.
Qed.

(** The first place at or after the start of an area, and the last. *)
Lemma place_bounds b k s : block_ok b -> 0 <= k < 32 -> 0 < s <= b_size b ->
  let max := Z.land (u32 (b_addr b + b_size b - s)) (u32 (- 2 ^ k)) in let addr := alignUp (b_addr b) (2 ^ k) in
  (((b_addr b >? max) || (addr >? max)) = true -> forall a, ~ place b (2 ^ k) s a) /\
  (((b_addr b >? max) || (addr >? max)) = false -> addr mod 2 ^ k = 0 /\ max mod 2 ^ k = 0 /\ addr <= max /\
    forall a, place b (2 ^ k) s a <-> addr <= a <= max /\ a mod 2 ^ k = 0).
Proof.
  intros Hb Hk Hs max addr. destruct (bo_addr b Hb) as [Ha0 _]. destruct (bo_size b Hb) as [Hsz _]. pose proof (bo_end b Hb) as He.
  assert (0 < 2 ^ k) as Hp by (apply Z.pow_pos_nonneg; lia). assert (2 ^ 32 mod 2 ^ k = 0) as Hm32 by (apply Z_div_exact_full_2 || idtac; apply Z.mod_divide; [lia|]; exists (2 ^ (32 - k)); rewrite <- Z.pow_add_r by lia; f_equal; lia).
  set (w := b_addr b + b_size b - s). assert (max = w - w mod 2 ^ k) as Hmax.
  { subst max. rewrite (wrap_small 32) by (unfold is_word; lia). apply land_neg_pow2; [lia|unfold is_word; lia]. }
  assert (max mod 2 ^ k = 0) as Hmm by (rewrite Hmax, Zminus_mod_idemp_r, Z.sub_diag; done). pose proof (Z.mod_pos_bound w (2 ^ k) Hp) as Hwm.
  assert (forall a, a mod 2 ^ k = 0 -> a <= w -> a <= max) as Hle.
  { intros a Hma Haw. apply (multiple_le _ _ (2 ^ k)); [done|done|done|]. lia. }
  assert (b_addr b <= max -> b_addr b <= addr < b_addr b + 2 ^ k /\ addr mod 2 ^ k = 0) as Haddr.
  { intros Hba. apply alignUp_spec; [lia|lia|]. assert (max + 2 ^ k <= 2 ^ 32); [|lia]. apply (multiple_le _ _ (2 ^ k)); [done| |done|lia]. now rewrite <- (Z_mod_plus_full max 1 (2 ^ k)), Z.mul_1_l in Hmm. }
  assert (b_addr b <= max -> forall a, a mod 2 ^ k = 0 -> b_addr b <= a -> addr <= a) as Hge.
  { intros Hba a Hma Hba'. destruct (Haddr Hba) as [Hab Ham]. apply (multiple_le _ _ (2 ^ k)); [done|done|done|lia]. }
  split.
  - intros Ht a (H1 & H2 & H3). assert (a <= max) by (apply Hle; [done|lia]). apply orb_true_iff in Ht as [Ht|Ht]; rewrite Z.gtb_lt in Ht; [lia|]. pose proof (Hge ltac:(lia) a H1 H2). lia.
  - intros [H1 H2]%orb_false_iff. rewrite Z.gtb_ltb, Z.ltb_ge in H1, H2. destruct (Haddr H1) as [H3 H4]. split_and!; [done|done|lia|]. intros a. split.
    + intros (Hma & Ha1 & Ha2). split; [|done]. split; [now apply Hge|apply Hle; [done|lia]].
    + intros [[Ha1 Ha2] Hma]. split; [done|lia].
Qed.

(** The size does not wrap around where there is a place for it. *)
Lemma size_fits n k g : 0 <= k <= 16 -> is_word 32 n -> 0 <= g -> round_up n (2 ^ k) + g < 2 ^ 32 -> u32 (alignUp n (2 ^ k) + g) = round_up n (2 ^ k) + g.
Proof.
  intros Hk Hn Hg Hb. pose proof (round_up_spec n k ltac:(lia) ltac:(unfold is_word in Hn; lia)) as [Hr Hm]. rewrite alignUp_round by done.
  assert (0 < 2 ^ k) as Hp by (apply Z.pow_pos_nonneg; lia).
  destruct (Z.ltb_spec (n + (2 ^ k - 1)) (2 ^ 32)) as [|Hge]; [apply wrap_small; unfold is_word in *; lia|]. exfalso.
  assert (2 ^ 32 <= round_up n (2 ^ k)); [|lia]. unfold round_up. replace (2 ^ 32) with (2 ^ (32 - k) * 2 ^ k) in * by (rewrite <- Z.pow_add_r by lia; f_equal; lia).
  apply Z.mul_le_mono_nonneg_r; [lia|]. apply Z.div_le_lower_bound; lia.
Qed.

(** What [alloc] gives: nothing, or the lowest free place. *)
Definition alloc_none v A b align s v' : Prop := same v v' /\ vm_ok v' A /\ (b_id b = 0 \/ forall a, place b align s a -> ~ free A a s).

Definition alloc_lowest v A r b src align s bflags (ret : Z) v' : Prop :=
  exists a sh v1, import_shm b src v = Some (sh, v1) /\ shm_flags v' = shm_flags v1 /\ place b align s a /\ free A a s /\ (forall a', a' < a -> place b align s a' -> ~ free A a' s) /\ ret = a + (if guarded b then 0x1000 else 0) /\
    vm_ok v' (<[a := alloc_of b (s, sh)]> A) /\ same v v1 /\ allocated v1 r b a s sh bflags v'.

Lemma block_alloc_ok v A r b size src align flags : vm_ok v A -> blocks v !! r = Some b -> alloc_args v b src flags -> is_word 32 size -> is_word 32 align ->
  is_align align = true -> min_page_size (merge_flags b src flags) <= align ->
  exists ret v', block_alloc map_address get_page_size r size src align flags v = Some (ret, v') /\
    let s := total_size b src flags size in
    (ret = 0 /\ (size = 0 /\ v' = v \/ alloc_none v A b align s v')) \/
    (size <> 0 /\ b_id b <> 0 /\ alloc_lowest v A r b src align s (merge_flags b src flags) ret v').
Proof.
  intros Hv Hb Hargs Hsize Hal Hpow Hmin. set (s := total_size b src flags size). cbn zeta.
  destruct (min_page_pow2 (merge_flags b src flags)) as (km & Hkm & Hm). assert (0 < align) as Hal0 by (assert (0 < 2 ^ km) by (apply Z.pow_pos_nonneg; lia); lia).
  unfold block_alloc. rewrite Hb. cbn [mbind option_bind]. rewrite Hpow, (proj2 (Z.ltb_ge _ _) Hmin), Hm. cbn [negb orb].
  set (size' := u32 (alignUp size (2 ^ km) + if has (merge_flags b src flags) stack_guarded then 0x2000 else 0)).
  destruct (Z.eqb_spec size 0) as [Hs0|Hs0]; cbn [orb]; [exists 0, v; split; [done|]; left; split; [done|now left]|].
  destruct (import_ok v A b src flags Hv Hargs) as (sh & v1 & Himp & Hv1 & Hsame & Hcm & Hsh).
  assert (b_id b = 0 \/ b_id b <> 0) as [Hid|Hid] by lia.
  { rewrite Himp. destruct (_ || _); [exists 0, v; split; [done|]; left; split; [done|right; split_and!; [apply same_refl|done|now left]]|].
    cbn [mbind option_bind]. exists 0, v1. split; [destruct (_ || _); [done|now rewrite Hid]|]. left. split; [done|right; split_and!; [done|done|now left]]. }
  pose proof (co_ok _ _ _ (ok_couples _ _ _ Hv) r b Hb Hid) as Hbo. destruct (guarded_flags v b src flags Hbo Hargs) as (Hg & Hg12 & Hg16).
  assert (s = round_up size (2 ^ km) + if guarded b then 0x2000 else 0) as Hs by (subst s; unfold total_size; now rewrite Hm).
  destruct (is_align_pow2 align) as (k & Hk & ->); [unfold is_word in Hal; lia|done|].
  assert (forall a, place b (2 ^ k) s a -> size' = s /\ s <= b_size b) as Hplace.
  { intros a (_ & H1 & H2). pose proof (bo_size b Hbo). split; [|lia]. subst size'. rewrite Hg, Hs. apply size_fits; [lia|done|destruct (guarded b); lia|]. rewrite <- Hs. lia. }
  pose proof (round_up_spec size km ltac:(lia) ltac:(unfold is_word in Hsize; lia)) as [Hru _].
  destruct ((size' =? 0) || (size >? size') || (size' >? b_size b)) eqn:Hbad.
  { exists 0, v. split; [done|]. left. split; [done|right; split_and!; [apply same_refl|done|right]]. intros a Ha. exfalso. destruct (Hplace a Ha) as [He Hle]. rewrite He in Hbad.
    unfold is_word in Hsize. apply orb_true_iff in Hbad as [[Hx|Hx]%orb_true_iff|Hx]; rewrite ?Z.gtb_lt, ?Z.eqb_eq in Hx; rewrite Hs in Hx; destruct (guarded b); lia. }
  apply orb_false_iff in Hbad as [[Hb1 Hb2]%orb_false_iff Hb3]. rewrite Z.gtb_ltb, Z.ltb_ge in Hb2, Hb3. apply Z.eqb_neq in Hb1.
  destruct (alloc_size size km (if guarded b then 0x2000 else 0)) as (He & Hpos & Hm4 & Hgs & H16); [done| |done|done|now subst size'; rewrite Hg in *|now subst size'; rewrite Hg in *|].
  { destruct (guarded b) eqn:Hgb; [right|now left]. split; [done|]. specialize (Hg12 eq_refl). rewrite Hm in Hg12. apply Z.pow_inj_r in Hg12; lia. }
  assert (size' = s) as Hss by (subst size'; rewrite Hg, He, Hs; done). rewrite <- Hg in He, Hpos, Hm4, Hgs, H16. fold size' in He, Hpos, Hm4, Hgs, H16. rewrite Hss in *. rewrite Himp. cbn [mbind option_bind].
  destruct (place_bounds b k s Hbo Hk ltac:(lia)) as [Hnone Hsome]. set (max := Z.land (u32 (b_addr b + b_size b - s)) (u32 (- 2 ^ k))) in *. set (addr := alignUp (b_addr b) (2 ^ k)) in *.
  destruct ((b_addr b >? max) || (addr >? max)) eqn:Hrange.
  { exists 0, v1. split; [done|]. left. split; [done|right; split_and!; [done|done|right]]. intros a Ha. now destruct (Hnone eq_refl a). }
  destruct (Hsome eq_refl) as (Ha1 & Ha2 & Ha3 & Hpl). rewrite (proj2 (Z.eqb_neq _ _) Hid).
  assert (blocks v1 !! r = Some b) as Hb' by (destruct Hsame as (_ & _ & _ & -> & _); done). assert (0 < 2 ^ k) as Hpk by (apply Z.pow_pos_nonneg; lia).
  set (n := Z.to_nat ((max - addr) / 2 ^ k)). assert (max = addr + Z.of_nat n * 2 ^ k) as Hn.
  { assert (0 <= (max - addr) / 2 ^ k) by (apply Z.div_pos; lia). assert ((max - addr) mod 2 ^ k = 0) as Hdm by (rewrite Zminus_mod, Ha1, Ha2; done).
    pose proof (Z.div_mod (max - addr) (2 ^ k) ltac:(lia)). subst n. lia. }
  replace (Z.to_nat ((max - addr) / 2 ^ k + 1)) with (S n) by (subst n; assert (0 <= (max - addr) / 2 ^ k) by (apply Z.div_pos; lia); lia).
  destruct (alloc_loop_ok map_address get_page_size Hmap v1 A r b (2 ^ k) (merge_flags b src flags) s sh Hv1 Hb' Hid Hpk Hg) with (n := n) (addr := addr) (max := max) as (ret & v' & Hloop & Hr); [| |exact Hn|intros a Ha Hma; apply Hpl; done|done|].
  { rewrite merge_exec. apply Hargs. }
  { assert (km <= k) as Hkk by (apply (Z.pow_le_mono_r_iff 2); lia). intros a (Hma & Hab & Has). pose proof (bo_addr b Hbo). pose proof (bo_end b Hbo). split; [|split; [done|]].
    - unfold fits. pose proof (divide_pow2 a 12 k ltac:(lia) Hma). split_and!; try done; try lia. rewrite Hg in Hgs. intros Hgb. rewrite Hgb in Hgs. now apply Hgs.
    - intros q Hq. destruct (Hsh q Hq) as (o & Ho & Hfl). exists o. split; [done|]. intros Hfo. destruct (Hfl Hfo) as [Hsome' He']. destruct (Hg16 Hsome') as [Hmm _].
      rewrite Hm in Hmm. assert (km = 16) as Hkm16 by (apply (Z.pow_inj_r 2); [lia..|exact Hmm]). split_and!; [done| |now apply H16]. apply (divide_pow2 a 16 k); [lia|done]. }
  exists ret, v'. split; [exact Hloop|]. destruct Hr as [(-> & -> & Hn')|(a & Ha & Hpa & Hfa & Hlow & -> & Hok' & Had)].
  - left. split; [done|right; split_and!; [done|done|right]]. intros a Hpa. apply Hpl in Hpa as [? ?]. now apply Hn'.
  - right. split_and!; [done|done|]. exists a, sh, v1. split_and!; [done|exact (alloc_loop_flags _ _ _ _ _ _ _ _ _ _ _ Hloop)|done|done| |done|done|done|done]. intros a' Hlt Hpa'. apply Hpl in Hpa' as [? ?]. apply Hlow; [lia|done].
Qed.

(** ** [falloc] *)

(** Where [falloc] allocates, and when. *)
Definition falloc_base b (src : option nat) (flags addr : Z) : Z := addr - addr mod min_page_size (merge_flags b src flags).
Definition falloc_size b (src : option nat) (flags addr size : Z) : Z :=
  round_up (size + addr mod min_page_size (merge_flags b src flags)) (min_page_size (merge_flags b src flags)).

Definition falloc_fits A b (src : option nat) (flags addr size : Z) : Prop :=
  let m := min_page_size (merge_flags b src flags) in
  0 < size + addr mod m /\ b_addr b <= addr /\ falloc_base b src flags addr + falloc_size b src flags addr size <= b_addr b + b_size b /\
  (is_Some src -> Z.lor size addr mod m = 0) /\ guarded b = false /\ b_id b <> 0 /\ free A (falloc_base b src flags addr) (falloc_size b src flags addr size).

Lemma block_falloc_ok v A r b addr size src flags : vm_ok v A -> blocks v !! r = Some b -> alloc_args v b src flags -> is_word 32 addr -> is_word 32 size ->
  exists ok v', block_falloc map_address get_page_size r addr size src flags v = Some (ok, v') /\
    ((ok = false /\ same v v' /\ vm_ok v' A /\ ~ falloc_fits A b src flags addr size) \/
     (ok = true /\ falloc_fits A b src flags addr size /\ exists sh v1, same v v1 /\
       vm_ok v' (<[falloc_base b src flags addr := alloc_of b (falloc_size b src flags addr size, sh)]> A) /\
       allocated v1 r b (falloc_base b src flags addr) (falloc_size b src flags addr size) sh (merge_flags b src flags) v')).
Proof.
  intros Hv Hb Hargs Ha Hs. destruct (import_ok v A b src flags Hv Hargs) as (sh & v1 & Himp & Hv1 & Hsame & Hcm & Hsh).
  unfold block_falloc. rewrite Hb. cbn [mbind option_bind]. destruct (min_page_pow2 (merge_flags b src flags)) as (k & Hk & Hm).
  assert (b_id b = 0 \/ b_id b <> 0) as [Hid|Hid] by lia.
  { rewrite Himp. cbn [mbind option_bind]. rewrite Hid. assert (~ falloc_fits A b src flags addr size) as Hn by (unfold falloc_fits; tauto).
    destruct (_ || _); [exists false, v|exists false, v1]; (split; [done|]); left; (split_and!; [done|done || apply same_refl|done|done]). }
  pose proof (co_ok _ _ _ (ok_couples _ _ _ Hv) r b Hb Hid) as Hbo. destruct (guarded_flags v b src flags Hbo Hargs) as (Hg & Hg12 & Hg16).
  pose proof (bo_addr b Hbo) as [Hba Hba4]. pose proof (bo_size b Hbo) as [Hbs _]. pose proof (bo_end b Hbo) as Hbe. unfold is_word in Ha, Hs.
  set (m := min_page_size (merge_flags b src flags)) in *. assert (4096 <= m <= 65536) as Hmr by (rewrite Hm; change 4096 with (2 ^ 12); change 65536 with (2 ^ 16); split; apply Z.pow_le_mono_r; lia).
  pose proof (Z.mod_pos_bound addr m ltac:(lia)) as Hmod. set (d := addr mod m) in *.
  assert (falloc_base b src flags addr = addr - d) as HB by done. assert (falloc_size b src flags addr size = round_up (size + d) m) as HS by done.
  set (S := falloc_size b src flags addr size) in *. set (B := falloc_base b src flags addr) in *.
  assert (size + d <= S < size + d + m /\ S mod m = 0) as [HSb HSm] by (rewrite HS, Hm; apply round_up_spec; lia).
  assert (B mod m = 0) as HBm by (rewrite HB; unfold d; rewrite Zminus_mod_idemp_r, Z.sub_diag; done).
  assert (b_addr b <= addr -> b_addr b <= B) as HbB.
  { intros Hba'. apply (multiple_le _ _ m); [lia| |done|rewrite HB; lia]. destruct (has (b_flags b) page_size_4k) eqn:H4.
    - assert (m = 4096) as ->; [|done]. unfold m, min_page_size. destruct src as [q|]; [|change page_size_4k with (2 ^ 8); rewrite merge_flag by lia; change (2 ^ 8) with page_size_4k; now rewrite H4].
      destruct (aa_src _ _ _ _ Hargs q eq_refl) as (Hcc & _). pose proof (bo_4k b Hbo H4). congruence.
    - rewrite Hm. apply (divide_pow2 _ k 16); [lia|]. now apply (bo_unit b Hbo). }
  assert (S < 2 ^ 32 -> u32 (size + d) = size + d /\ alignUp (u32 (size + d)) m = S) as Hsz.
  { intros HSl. assert (u32 (size + d) = size + d) as E by (apply wrap_small; unfold is_word; lia). split; [done|]. rewrite E, Hm. pose proof (size_fits (size + d) k 0 ltac:(lia)) as Hf.
    rewrite <- Hm, <- HS, !Z.add_0_r in Hf. rewrite <- Hm. pose proof (Hf ltac:(unfold is_word; lia) ltac:(lia) HSl) as Hw. rewrite wrap_small in Hw; [done|]. rewrite Hm. rewrite alignUp_round by (unfold is_word; lia).
    rewrite <- Hm, <- HS. destruct (_ <? _); unfold is_word; lia. }
  rewrite (wrap_small 32 (addr - d)) by (unfold is_word; unfold d in *; pose proof (Z.mod_le addr m ltac:(lia) ltac:(lia)); lia).
  match goal with |- context [if ?c then Some (false, v) else _] => destruct c eqn:Hc end.
  { exists false, v. split; [done|]. left. split_and!; [done|apply same_refl|done|]. intros (H1 & H2 & H3 & H4 & H5 & _ & _). fold m d B S in H1, H3, H4. pose proof (HbB H2). destruct (Hsz ltac:(lia)) as [E1 E2].
    rewrite E2, E1, Hg, H5 in Hc. rewrite orb_false_r in Hc. repeat (apply orb_true_iff in Hc as [Hc|Hc]); rewrite ?Z.gtb_lt, ?Z.eqb_eq, ?Z.ltb_lt in Hc; try lia.
    destruct src as [q|]; [|done]. apply negb_true_iff, Z.eqb_neq in Hc. apply Hc, H4. eauto. }
  apply orb_false_iff in Hc as [[[[[[Hc1 Hc2]%orb_false_iff Hc3]%orb_false_iff Hc4]%orb_false_iff Hc5]%orb_false_iff Hc6]%orb_false_iff Hc7].
  rewrite Z.gtb_ltb, Z.ltb_ge in Hc3, Hc4, Hc5. rewrite Z.ltb_ge in Hc2. apply Z.eqb_neq in Hc1. rewrite Hg in Hc7.
  assert (u32 (size + d) = size + d) as E1.
  { apply wrap_small. split; [lia|]. destruct (Z.lt_ge_cases (size + d) (2 ^ 32)) as [|Hge]; [done|]. exfalso. assert (u32 (size + d) = size + d - 2 ^ 32) as E by (symmetry; apply (Z.mod_unique _ _ 1); lia). lia. }
  assert (S < 2 ^ 32) as HSl.
  { rewrite E1, Hm, alignUp_round in Hc1 by (lia || (unfold is_word; rewrite <- E1; apply (wrap_range 32); lia)). rewrite <- Hm, <- HS in Hc1. destruct (Z.ltb_spec (size + d + (m - 1)) (2 ^ 32)); lia. }
  destruct (Hsz HSl) as [_ E2]. rewrite E2 in *. rewrite Himp. cbn [mbind option_bind]. rewrite (proj2 (Z.eqb_neq _ _) Hid).
  assert (blocks v1 !! r = Some b) as Hb' by (destruct Hsame as (_ & _ & _ & -> & _); done).
  pose proof (divide_pow2 B 12 k ltac:(lia) ltac:(now rewrite <- Hm)) as HB4. pose proof (HbB Hc2). pose proof (divide_pow2 S 12 k ltac:(lia) ltac:(now rewrite <- Hm)) as HS4. change (2 ^ 12) with 4096 in HB4, HS4.
  assert (fits B S (guarded b)) as Hfit by (unfold fits; rewrite Hc7; split_and!; try done; lia).
  assert (0 < size + d) as Hpos by (destruct (Z.lt_ge_cases 0 (size + d)) as [|Hle]; [done|]; rewrite Z.mod_small in HSm by lia; lia).
  assert (falloc_fits A b src flags addr size <-> free A B S) as Hiff.
  { unfold falloc_fits. fold m d B S. split; [tauto|]. intros Hfr. split_and!; try done; try lia. intros [q ->]. now apply negb_false_iff, Z.eqb_eq in Hc6. }
  rewrite <- HB. destruct (decide (free A B S)) as [Hfr|Hfr].
  - destruct (try_alloc_free map_address get_page_size Hmap v1 A r b B S sh (merge_flags b src flags) Hv1 Hb' Hid Hfit Hfr (HbB Hc2) ltac:(lia)) as (v' & Ht & Hv' & Had).
    + split; [done|]. intros q Hq. destruct (Hsh q Hq) as (o & Ho & Hfl). exists o. split; [done|]. intros Hfo. destruct (Hfl Hfo) as [Hsome He]. split; [done|].
      destruct (Hg16 Hsome) as [Hmm _]. assert (k = 16) as -> by (apply (Z.pow_inj_r 2); [lia..|congruence]). change (2 ^ 16) with 65536 in Hm. rewrite <- Hm. done.
    + rewrite merge_exec. apply Hargs.
    + exists true, v'. split; [exact Ht|]. right. split; [done|]. split; [now apply Hiff|]. exists sh, v1. done.
  - rewrite (try_alloc_taken _ _ v1 A r b B S sh _ Hv1 Hb' Hfit Hfr). exists false, v1. split; [done|]. left. split_and!; [done|done|done|]. now rewrite Hiff.
Qed.

(** ** Taking allocations back *)

(** The pages of an allocation are zero, the others as before. *)
Definition cleared (t t' : gmap Z Z) (a : Z) x : Prop :=
  forall p, word_at t' p = if decide (a / 4096 <= p < a / 4096 + al_size x / 4096) then 0 else word_at t p.

Lemma page_unmap_ok v v1 a s sh t0 ex : 0 <= a -> a mod 4096 = 0 -> 0 < s < 2 ^ 32 -> s mod 4096 = 0 ->
  (forall p, p ∈ pages_of a s -> has (word_at t0 p) page_allocated = true /\ has (word_at t0 p) page_executable = ex) -> unshare a s sh v = Some v1 ->
  page_unmap a s sh (set_pages t0 v) = Some (s, set_pages (release_all (pages_of a s) 0 t0) v1).
Proof.
  intros Ha Ha4 Hs Hs4 Hp Hu. unfold page_unmap. rewrite (proj2 (Z.eqb_neq s 0)) by lia. assert (Z.lor s a mod 4096 = 0) as -> by (apply (lor_mod s a 12); [lia|done]). cbn [Z.eqb negb orb set_pages g_pages].
  pose proof (length_pages a s ltac:(lia) Hs4) as Hl. rewrite (unmap_size_all ex) by (try done; try (now left); lia). cbn [mbind option_bind Z.add]. rewrite Hl.
  rewrite (unshare_pages _ _ _ _ _ _ Hu). cbn [mbind option_bind set_pages]. f_equal.
Qed.

Lemma set_pages_id v : set_pages (g_pages v) v = v.
Proof. now destruct v. Qed.

(** Unmapping the whole range of an allocation, guard pages and all. *)
Lemma page_unmap_whole v A a x : allocs_ok A -> pages_ok (g_pages v) A -> shared_ok map_address (g_shmem v) (shms v) A -> A !! a = Some x ->
  exists v', page_unmap a (al_size x) (al_shm x) v = Some (al_size x, v') /\ pages_ok (g_pages v') (delete a A) /\ shared_ok map_address (g_shmem v') (shms v') (delete a A) /\
    g_locations v' = g_locations v /\ blocks v' = blocks v /\ s_id v' = s_id v /\ cleared (g_pages v) (g_pages v') a x.
Proof.
  intros Hok Hp Hsh Hx. pose proof (al_fits A Hok a x Hx) as Hf. destruct (pg_alloc _ _ Hp a x Hx) as [Hg (ex & He & Hin)].
  destruct (unshare_ok map_address Hmap v A a x Hok Hsh Hx) as (t & ss & Hu & Hsh'). pose proof Hf as (F1 & F2 & F3 & F4 & F5 & F6).
  pose proof (page_unmap_ok v (set_shms ss (set_shmem t v)) a (al_size x) (al_shm x) (g_pages v) ex F1 F2 F4 F3) as Hun. rewrite (set_pages_id v) in Hun. rewrite Hun; [| |exact Hu].
  - eexists. split; [reflexivity|]. cbn. assert (cleared (g_pages v) (release_all (pages_of a (al_size x)) 0 (g_pages v)) a x) as Hcl.
    { intros p. rewrite word_at_release_all. destruct (decide (p ∈ pages_of a (al_size x))) as [Hi|Hi]; rewrite elem_pages in Hi; [now rewrite decide_True|now rewrite decide_False]. }
    split_and!; [|done|done|done|done|exact Hcl]. apply (pages_delete (g_pages v) _ A a x); [done|done|done| |]; intros p Hc; rewrite Hcl; [now rewrite decide_False|now rewrite decide_True].
  - intros p Hpin%elem_pages. destruct (decide (p ∈ pages_of (a + guard_size x) (al_size x - 2 * guard_size x))) as [Hi|Hi]; [now apply Hin|].
    destruct (al_guard x) eqn:Hgx.
    + destruct (Hg eq_refl) as [G1 G2]. rewrite (He eq_refl). assert (p = a / 4096 \/ p = a / 4096 + al_size x / 4096 - 1) as [->| ->].
      { specialize (F6 eq_refl). unfold guard_size in Hi. rewrite Hgx in Hi. rewrite elem_pages in Hi. Z.div_mod_to_equations; lia. }
      * rewrite G1. done.
      * rewrite G2. done.
    + contradict Hi. unfold guard_size. rewrite Hgx. apply elem_pages. Z.div_mod_to_equations; lia.
Qed.

(** The address and size [dealloc] works with. *)
Definition guard_of b : Z := if guarded b then 0x1000 else 0.

(** The pages of an allocation taken back by [dealloc]: the guard pages are
    cleared first. *)
Lemma dealloc_pages v A b a s sh : vm_ok v A -> block_ok b -> A !! a = Some (alloc_of b (s, sh)) -> (has_common b = true -> sh = None) ->
  exists v0 v', (if guarded b then clear_guards (a + guard_of b) (s - 2 * guard_of b) v else Some v) = Some v0 /\
    page_unmap (a + guard_of b) (s - 2 * guard_of b) sh v0 = Some (s - 2 * guard_of b, v') /\
    pages_ok (g_pages v') (delete a A) /\ shared_ok map_address (g_shmem v') (shms v') (delete a A) /\
    g_locations v' = g_locations v /\ blocks v' = blocks v /\ s_id v' = s_id v /\ cleared (g_pages v) (g_pages v') a (alloc_of b (s, sh)).
Proof.
  intros [Hc Hok Hp Hsh _ _] Hb Hx Hcm. unfold guard_of. destruct (guarded b) eqn:Hgb.
  2:{ destruct (page_unmap_whole v A a _ Hok Hp Hsh Hx) as (v' & Hu & Hr). exists v, v'. cbn [al_size al_shm alloc_of fst snd] in *. rewrite Z.add_0_r, Z.sub_0_r. done. }
  pose proof (Hcm (bo_4k b Hb (bo_guard b Hb Hgb))) as ->. pose proof (al_fits A Hok a _ Hx) as (F1 & F2 & F3 & F4 & F5 & F6). destruct (pg_alloc _ _ Hp a _ Hx) as [Hg (ex & He & Hin)].
  cbn [al_size al_shm al_guard alloc_of fst snd] in *. destruct (Hg Hgb) as [G1 G2]. specialize (F6 Hgb). unfold guard_size in Hin. cbn in Hin. rewrite Hgb in Hin.
  set (t1 := <[a / 4096 + s / 4096 - 1 := 0]> (<[a / 4096 := 0]> (g_pages v))).
  assert (clear_guards (a + 0x1000) (s - 2 * 0x1000) v = Some (set_pages t1 v)) as ->.
  { unfold clear_guards. replace ((a + 0x1000) / 4096 - 1) with (a / 4096) by (Z.div_mod_to_equations; lia). replace ((a + 0x1000) / 4096 + (s - 2 * 0x1000) / 4096) with (a / 4096 + s / 4096 - 1) by (Z.div_mod_to_equations; lia).
    rewrite G1. cbn [Z.eqb negb]. rewrite word_at_insert, decide_False, G2 by (Z.div_mod_to_equations; lia). done. }
  assert (forall p, word_at t1 p = if decide (p = a / 4096 \/ p = a / 4096 + s / 4096 - 1) then 0 else word_at (g_pages v) p) as Ht1.
  { intros p. unfold t1. rewrite !word_at_insert. repeat case_decide; try done; lia. }
  eexists. rewrite (page_unmap_ok v v (a + 0x1000) (s - 2 * 0x1000) None t1 ex); [|lia|Z.div_mod_to_equations; lia|lia|Z.div_mod_to_equations; lia| |done].
  - eexists. split; [reflexivity|]. split; [reflexivity|]. cbn.
    assert (cleared (g_pages v) (release_all (pages_of (a + 0x1000) (s - 2 * 0x1000)) 0 t1) a (alloc_of b (s, None))) as Hcl.
    { intros p. rewrite word_at_release_all, Ht1. cbn [al_size alloc_of fst]. destruct (decide (p ∈ pages_of (a + 0x1000) (s - 2 * 0x1000))) as [Hi|Hi]; rewrite elem_pages in Hi.
      - rewrite decide_True by (Z.div_mod_to_equations; lia). done.
      - destruct (decide (p = a / 4096 \/ p = a / 4096 + s / 4096 - 1)); [rewrite decide_True|rewrite decide_False]; try done; Z.div_mod_to_equations; lia. }
    split_and!; [|now apply (shared_delete_none _ _ _ _ _ (alloc_of b (s, None)))|done|done|done|exact Hcl].
    apply (pages_delete (g_pages v) _ A a (alloc_of b (s, None))); [done|done|done| |]; intros p Hpc; rewrite Hcl; [now rewrite decide_False|now rewrite decide_True].
  - intros p Hi. rewrite Ht1. rewrite decide_False; [now apply Hin|]. rewrite elem_pages in Hi. Z.div_mod_to_equations; lia.
Qed.

(** [dealloc] takes back the allocation at an address, if there is one and the
    shared memory is the one that is named. *)
Lemma block_dealloc_ok v A r b addr src : vm_ok v A -> blocks v !! r = Some b -> b_id b <> 0 -> is_word 32 addr ->
  exists n v', block_dealloc r addr src v = Some (n, v') /\
    ((n = 0 /\ v' = v /\ forall s sh, at_key (m_map b) (addr - guard_of b) = Some (s, sh) -> is_Some src /\ src <> sh) \/
     exists s sh, at_key (m_map b) (addr - guard_of b) = Some (s, sh) /\ (is_Some src -> src = sh) /\ n = s - 2 * guard_of b /\ 0 < n /\
       vm_ok v' (delete (addr - guard_of b) A) /\ g_locations v' = g_locations v /\ s_id v' = s_id v /\
       blocks v' = alter (fun b' => set_map (erase (m_map b') (addr - guard_of b)) b') r (blocks v) /\
       cleared (g_pages v) (g_pages v') (addr - guard_of b) (alloc_of b (s, sh))).
Proof.
  intros Hv Hb Hid Ha. pose proof Hv as [Hc Hok Hp Hsh Hfx Hpos]. pose proof (co_ok _ _ _ Hc r b Hb Hid) as Hbo.
  assert (forall k s sh, at_key (m_map b) k = Some (s, sh) -> A !! k = Some (alloc_of b (s, sh))) as Hin by (intros k s sh Hk; apply (co_alloc _ _ _ Hc); eauto 10).
  assert (0 <= guard_of b /\ guard_of b <= 0x1000) as Hg by (unfold guard_of; destruct (guarded b); lia). unfold is_word in Ha.
  assert (at_key (m_map b) (u32 (addr - guard_of b)) = at_key (m_map b) (addr - guard_of b)) as Hkey.
  { destruct (Z.lt_ge_cases addr (guard_of b)) as [Hlt|Hge]; [|rewrite wrap_small by (unfold is_word; lia); done].
    assert (u32 (addr - guard_of b) = addr - guard_of b + 2 ^ 32) as -> by (symmetry; apply (Z.mod_unique _ _ (-1)); lia).
    destruct (at_key (m_map b) (addr - guard_of b + 2 ^ 32)) as [[s sh]|] eqn:H1.
    - exfalso. pose proof (al_fits A Hok _ _ (Hin _ _ _ H1)) as (F1 & F2 & F3 & F4 & F5 & F6). cbn in *. unfold guard_of in *. destruct (guarded b); [specialize (F6 eq_refl)|]; lia.
    - destruct (at_key (m_map b) (addr - guard_of b)) as [[s sh]|] eqn:H2; [|done]. pose proof (al_fits A Hok _ _ (Hin _ _ _ H2)) as F. unfold fits in F. lia. }
  unfold block_dealloc. rewrite Hb. cbn [mbind option_bind]. fold (guard_of b). rewrite Hkey. destruct (at_key (m_map b) (addr - guard_of b)) as [[s sh]|] eqn:Hk.
  2:{ exists 0, v. split; [done|]. left. done. }
  pose proof (Hin _ _ _ Hk) as Hx. pose proof (al_fits A Hok _ _ Hx) as (F1 & F2 & F3 & F4 & F5 & F6). cbn [al_size al_guard alloc_of fst] in *.
  assert ((match src with Some q => negb (bool_decide (sh = Some q)) | None => false end) = true <-> is_Some src /\ src <> sh) as Hsrc.
  { destruct src as [q|]; [|split; [done|intros [[? [=]] _]]]. rewrite negb_true_iff, bool_decide_eq_false. split; [intros H; split; [eauto|congruence]|intros [_ H]; congruence]. }
  destruct (match src with Some q => _ | None => _ end) eqn:Hm.
  { exists 0, v. split; [done|]. left. split_and!; [done|done|]. intros s' sh' [= <- <-]. now apply Hsrc. }
  assert (u32 (s - if guarded b then 0x2000 else 0) = s - 2 * guard_of b /\ 0 < s - 2 * guard_of b) as [-> Hn].
  { unfold guard_of in *. destruct (guarded b); [specialize (F6 eq_refl)|]; (split; [apply wrap_small; unfold is_word; lia|lia]). }
  destruct (dealloc_pages v A b _ s sh Hv Hbo Hx) as (v0 & v' & H0 & H1 & Hp' & Hsh' & Hl & Hbl & Hi & Hcl); [intros Hcm; now apply (bo_common b Hbo _ s sh Hk)|].
  replace (addr - guard_of b + guard_of b) with addr in H0, H1 by lia. rewrite H0. cbn [mbind option_bind]. rewrite H1. cbn [mbind option_bind]. rewrite Z.eqb_refl. cbn [negb].
  rewrite wrap_small by (unfold is_word; lia). do 2 eexists. split; [reflexivity|]. right. exists s, sh. split_and!; [done| |done|done| |done|done|cbn; now rewrite Hbl|done].
  - intros Hs. destruct (decide (src = sh)) as [|Hne]; [done|]. assert (is_Some src /\ src <> sh) as H by done. now apply Hsrc in H.
  - split; cbn; [rewrite Hl, Hbl; now apply (couples_delete (g_locations v) (blocks v) A r b (addr - guard_of b) (s, sh))|now apply allocs_delete|done|done|now rewrite Hl|now rewrite Hi].
Qed.
End block.
