(* ===== verification/VmAreas.v ===== *)
(** * Guest virtual memory: areas, protection and checks of pages

    Areas are made where no other area is, and unmapped with all their
    allocations; the protection of pages changes; [check_addr] looks at every
    page of a range. *)
From stdpp Require Import gmap.
From S2P Require Import Prelude StdMap Vm VmTables VmProofs VmShare VmAlloc VmBlock.

Implicit Types (A : gmap Z alloc) (x : alloc) (b : block_t) (v : vm).

(** Allocations without those at some addresses. *)
Definition remove (keys : list Z) A : gmap Z alloc := foldl (fun A k => delete k A) A keys.

Lemma remove_lookup keys A a x : remove keys A !! a = Some x <-> A !! a = Some x /\ a ∉ keys.
Proof.
  unfold remove. revert A. induction keys as [|k keys IH]; intros A; cbn [foldl].
  - split; [intros H; split; [done|apply not_elem_of_nil]|now intros [? _]].
  - rewrite IH, lookup_delete_Some, elem_of_cons. split; [intros [[? ?] ?]; split; [done|]; intros [->|?]; done|intros [? Hn]; split; [split; [intros <-|done]|]; auto].
Qed.

(** ** The flags of an area *)

Lemma has_lor (y z f : Z) : has (Z.lor y z) f = has y f || has z f.
Proof.
  unfold has. rewrite Z.land_lor_distr_l. destruct (Z.eqb_spec (Z.land y f) 0) as [->|Hx], (Z.eqb_spec (Z.land z f) 0) as [->|Hy]; cbn; rewrite ?negb_true_iff, ?negb_false_iff, ?Z.eqb_neq, ?Z.eqb_eq; try done;
    rewrite Z.lor_eq_0_iff; tauto.
Qed.

Lemma process_guard flags : has (process_block_flags flags) stack_guarded = true -> has (process_block_flags flags) page_size_4k = true.
Proof.
  unfold process_block_flags. set (f := if Z.land flags page_size_mask =? 0 then Z.lor flags page_size_1m else flags). destruct (has f page_size_4k) eqn:H4; [intros _; now rewrite has_lor, H4|].
  intros H. exfalso. change stack_guarded with (2 ^ 4) in H. rewrite has_bit in H by lia. rewrite Z.land_spec, Z.lnot_spec in H by lia. rewrite Z.pow2_bits_true in H by lia. now rewrite andb_false_r in H.
Qed.

Lemma process_common flags : has (process_block_flags flags) page_size_4k = true -> has (process_block_flags flags) preallocated = true.
Proof.
  unfold process_block_flags. set (f := if Z.land flags page_size_mask =? 0 then Z.lor flags page_size_1m else flags). destruct (has f page_size_4k) eqn:H4; [intros _; now rewrite has_lor, orb_true_r|].
  intros H. exfalso. change page_size_4k with (2 ^ 8) in *. rewrite has_bit in H, H4 by lia. rewrite Z.land_spec in H. now rewrite H4 in H.
Qed.

Lemma process_4k flags : has (process_block_flags flags) page_size_4k = has flags page_size_4k.
Proof.
  unfold process_block_flags. set (f := if Z.land flags page_size_mask =? 0 then Z.lor flags page_size_1m else flags). assert (has f page_size_4k = has flags page_size_4k) as Hf.
  { subst f. destruct (Z.land flags page_size_mask =? 0); [|done]. rewrite has_lor. change (has page_size_1m page_size_4k) with false. apply orb_false_r. }
  destruct (has f page_size_4k) eqn:H4; [rewrite has_lor, H4; done|]. rewrite <- Hf. change page_size_4k with (2 ^ 8) in *. rewrite has_bit in * by lia. now rewrite Z.land_spec, H4.
Qed.

Section areas.
Context (map_address : nat -> Z) (get_page_size : Z).
Context (Hmap : forall r, 0 < map_address r < 2 ^ 47 /\ map_address r mod 2 ^ 16 = 0).
Abbreviation vm_ok := (vm_ok map_address).

(** ** Unmapping an area *)

Lemma unmap_all_ok g e m : forall v A, allocs_ok A -> pages_ok (g_pages v) A -> shared_ok map_address (g_shmem v) (shms v) A -> NoDup m.*1 ->
  (forall a s sh, (a, (s, sh)) ∈ m -> A !! a = Some (Alloc s sh g e)) ->
  exists v', unmap_all m v = Some v' /\ allocs_ok (remove m.*1 A) /\ pages_ok (g_pages v') (remove m.*1 A) /\ shared_ok map_address (g_shmem v') (shms v') (remove m.*1 A) /\
    g_locations v' = g_locations v /\ blocks v' = blocks v /\ s_id v' = s_id v.
Proof.
  induction m as [|[a [s sh]] m IH]; intros v A Hok Hp Hsh Hd Hin; [exists v; done|]. apply NoDup_cons in Hd as [Ha Hd]. pose proof (Hin a s sh ltac:(left)) as Hx.
  destruct (page_unmap_whole map_address Hmap v A a _ Hok Hp Hsh Hx) as (v1 & Hu & Hp1 & Hsh1 & Hl & Hb & Hi & _). cbn [al_size al_shm] in Hu.
  destruct (IH v1 (delete a A)) as (v' & Hu' & H1 & H2 & H3 & Hl' & Hb' & Hi'); [now apply allocs_delete|done|done|done| |].
  - intros a' s' sh' Hin'. apply lookup_delete_Some. split; [|apply Hin; now right]. intros <-. apply Ha. apply list_elem_of_fmap. now exists (a, (s', sh')).
  - exists v'. cbn [unmap_all]. rewrite Hu. cbn [mbind option_bind]. rewrite Z.eqb_refl. split_and!; [done|done|done|done|congruence..].
Qed.

Lemma omap_delete_loc (ls : list (option nat)) i r : ls !! i = Some (Some r) -> omap id ls ≡ₚ r :: omap id (delete i ls).
Proof.
  revert i. induction ls as [|o ls IH]; intros [|i]; cbn; [done|done|intros [= ->]; done|]. intros Hi. specialize (IH i Hi). destruct o as [r'|]; cbn; [|exact IH].
  etransitivity; [apply perm_skip; exact IH|]. apply perm_swap.
Qed.

(** The area at a location expires with all its allocations. *)
Lemma block_unmap_ok v A r b i : vm_ok v A -> g_locations v !! i = Some (Some r) -> memory_location_max <= Z.of_nat i -> blocks v !! r = Some b ->
  exists v', block_unmap r (set_locations (delete i (g_locations v)) v) = Some (true, v') /\ vm_ok v' (remove (m_map b).*1 A) /\
    g_locations v' = delete i (g_locations v) /\ s_id v' = s_id v /\
    blocks v' = alter (fun b => Block (b_addr b) (b_size b) (b_flags b) 0 (m_map b)) r (blocks v).
Proof.
  intros [Hc Hok Hp Hsh Hfx Hpos] Hi Hi7 Hb. pose proof (omap_delete_loc _ _ _ Hi) as Hperm. pose proof Hc as [Hn Hv Ho Hap Hal].
  assert (r ∈ omap id (g_locations v)) as Hr by (rewrite Hperm; left). apply Hv in Hr as (b' & Hb' & Hid). rewrite Hb in Hb'. injection Hb' as <-.
  pose proof (Ho r b Hb Hid) as Hbo. rewrite Hperm in Hn. apply NoDup_cons in Hn as [Hnr Hn].
  unfold block_unmap. cbn [set_locations blocks]. rewrite Hb. cbn [mbind option_bind]. rewrite (proj2 (Z.eqb_neq _ _) Hid).
  set (bs' := alter _ r (blocks v)). set (v1 := set_blocks bs' (set_locations (delete i (g_locations v)) v)).
  destruct (unmap_all_ok (guarded b) (eligible b) (m_map b) v1 A Hok Hp Hsh) as (v' & Hu & H1 & H2 & H3 & Hl & Hbl & Hi').
  { apply ordered_keys, (bo_order b Hbo). }
  { intros a s sh Hin. apply Hal. exists r, b, (s, sh). split_and!; [done|done| |done]. apply at_key_elem; [apply (bo_order b Hbo)|done]. }
  rewrite Hu. cbn [mbind option_bind]. exists v'. split; [done|]. split_and!; [|rewrite Hl; done|rewrite Hi'; done|rewrite Hbl; done].
  split; [rewrite Hl, Hbl; cbn|done|done|done|rewrite Hl; cbn|rewrite Hi'; done].
  - assert (forall r' b', bs' !! r' = Some b' -> b_id b' <> 0 -> r' <> r /\ blocks v !! r' = Some b') as Hold.
    { intros r' b' (b0 & H0 & ->)%alter_lookup. case_decide; [done|]. intros _. split; [congruence|done]. }
    assert (forall r' b', r' <> r -> blocks v !! r' = Some b' -> bs' !! r' = Some b') as Hnew by (intros r' b' Hne H0; apply alter_lookup; exists b'; now rewrite decide_False by congruence).
    split; [done| | | |].
    + intros r'. specialize (Hv r'). rewrite Hperm, elem_of_cons in Hv. split.
      * intros Hin. destruct (proj1 Hv ltac:(now right)) as (b' & H0 & Hid'). exists b'. split; [apply Hnew; [intros ->; done|done]|done].
      * intros (b' & H0 & Hid'). destruct (Hold r' b' H0 Hid') as [Hne H0']. destruct (proj2 Hv ltac:(eauto)) as [|]; done.
    + intros r' b' H0 Hid'. destruct (Hold r' b' H0 Hid') as [_ H0']. now apply (Ho r').
    + intros r1 r2 b1 b2 Hne E1 I1 E2 I2. destruct (Hold r1 b1 E1 I1), (Hold r2 b2 E2 I2). now apply (Hap r1 r2).
    + intros a x. rewrite remove_lookup, Hal. split.
      * intros [(r' & b' & e & H0 & Hid' & Hk & ->) Hnk]. exists r', b', e. split_and!; [|done..]. apply Hnew; [|done]. intros ->. rewrite Hb in H0. injection H0 as <-.
        apply Hnk. apply list_elem_of_fmap. exists (a, e). split; [done|]. apply at_key_elem in Hk; [done|apply (bo_order b Hbo)].
      * intros (r' & b' & e & H0 & Hid' & Hk & ->). destruct (Hold r' b' H0 Hid') as [Hne H0']. split; [eauto 10|]. intros ([a' e'] & -> & Hin)%list_elem_of_fmap. cbn in *.
        apply at_key_elem in Hin; [|apply (bo_order b Hbo)]. apply Hne. destruct e' as [s sh]. pose proof (bo_inside b Hbo a' s sh Hin).
        assert (A !! a' = Some (alloc_of b (s, sh))) as Hx by (apply Hal; eauto 10). pose proof (al_fits A Hok _ _ Hx) as F. unfold fits in F. cbn in F.
        eapply alloc_area; [exact Hc|done|exact Hb|done|exact H0'|done| |exact Hk|reflexivity]. lia.
  - unfold memory_location_max in *. apply lookup_lt_Some in Hi as Hlt. rewrite length_delete by eauto. lia.
Qed.

Lemma unmap_find_ok ls : forall i addr e ptr v j r, unmap_find ls i addr e ptr v = Some (j, r) ->
  (i <= j)%nat /\ ls !! (j - i)%nat = Some (Some r) /\ exists b, blocks v !! r = Some b /\ b_addr b = addr /\
    (e = true -> has (b_flags b) bf0_mask = false) /\ (e = false -> Z.land (b_flags b) bf0_mask = bf0_0x2).
Proof.
  induction ls as [|l ls IH]; intros i addr e ptr v j r; cbn [unmap_find]; [done|].
  assert (unmap_find ls (S i) addr e ptr v = Some (j, r) -> (i <= j)%nat /\ (l :: ls) !! (j - i)%nat = Some (Some r) /\ exists b, blocks v !! r = Some b /\ b_addr b = addr /\
    (e = true -> has (b_flags b) bf0_mask = false) /\ (e = false -> Z.land (b_flags b) bf0_mask = bf0_0x2)) as Hskip.
  { intros H. destruct (IH _ _ _ _ _ _ _ H) as (H1 & H2 & H3). split; [lia|]. split; [|done]. replace (j - i)%nat with (S (j - S i)) by lia. done. }
  destruct l as [r0|]; [|done]. destruct (blocks v !! r0) as [b|] eqn:Hb; [|done]. destruct (Z.eqb_spec (b_addr b) addr) as [Ha|]; cbn [negb]; [|done].
  destruct (e && has (b_flags b) bf0_mask) eqn:H1; [done|]. destruct (negb e && negb _) eqn:H2; [done|]. destruct (match ptr with Some _ => _ | None => _ end); [done|].
  intros [= <- <-]. split; [lia|]. rewrite Nat.sub_diag. split; [done|]. exists b. split_and!; [done|done|intros ->; done|intros ->]. cbn in H2. now apply negb_false_iff, Z.eqb_eq in H2.
Qed.

(** [unmap]: nothing, an area that is in use, or an area that is gone. *)
Lemma vm_unmap_ok v A addr e ptr : vm_ok v A -> (forall p, ptr = Some p -> is_Some (blocks v !! p)) ->
  exists o ok v', vm_unmap addr e ptr v = Some (o, ok, v') /\
    ((ok = false /\ v' = v) \/
     (ok = true /\ exists r b i, o = Some r /\ (7 <= i)%nat /\ g_locations v !! i = Some (Some r) /\ blocks v !! r = Some b /\ b_id b <> 0 /\ (e = true -> imp_used b = 0) /\
       vm_ok v' (remove (m_map b).*1 A) /\ g_locations v' = delete i (g_locations v) /\ s_id v' = s_id v /\
       blocks v' = alter (fun b => Block (b_addr b) (b_size b) (b_flags b) 0 (m_map b)) r (blocks v))).
Proof.
  intros Hv Hptr. unfold vm_unmap. assert (exists a, (match ptr with Some p => b_addr <$> blocks v !! p | None => Some addr end) = Some a) as [a ->].
  { destruct ptr as [p|]; [|eauto]. destruct (Hptr p eq_refl) as [b ->]. eauto. }
  cbn [mbind option_bind]. rewrite (proj2 (Z.ltb_ge _ _) (ok_fixed _ _ _ Hv)). destruct (unmap_find _ _ _ _ _ _) as [[i r]|] eqn:Hf; [|eauto 10].
  apply unmap_find_ok in Hf as (Hi & Hl & b & Hb & _). rewrite lookup_drop in Hl. replace (Z.to_nat memory_location_max + (i - Z.to_nat memory_location_max))%nat with i in Hl by lia.
  rewrite Hb. cbn [mbind option_bind]. destruct (e && negb (imp_used b =? 0)) eqn:Hu; [eauto 10|]. assert (b_id b <> 0) as Hid.
  { pose proof (ok_couples _ _ _ Hv) as Hc. assert (r ∈ omap id (g_locations v)) as Hr by (rewrite (omap_delete_loc _ _ _ Hl); left).
    apply (co_valid _ _ _ Hc) in Hr as (b' & Hb' & ?). congruence. }
  destruct (block_unmap_ok v A r b i Hv Hl ltac:(unfold memory_location_max in *; lia) Hb) as (v' & -> & Hv' & Hl' & Hi' & Hb'). cbn [mbind option_bind].
  do 3 eexists. split; [reflexivity|]. right. split; [done|]. exists r, b, i. split_and!; try done. intros ->. now apply negb_false_iff, Z.eqb_eq in Hu.
Qed.

(** ** Making an area *)

(** A range where no area is. *)
Definition unused v (addr size : Z) : Prop := forall r b, blocks v !! r = Some b -> b_id b <> 0 -> b_addr b + b_size b <= addr \/ addr + size <= b_addr b.

Lemma test_map_ok v A addr size : vm_ok v A -> is_word 32 addr -> is_word 32 size ->
  test_map addr size v = true <-> 0 < size /\ addr + size <= 2 ^ 32 /\ unused v addr size.
Proof.
  intros Hv Ha Hs. pose proof (ok_couples _ _ _ Hv) as Hc. unfold is_word in Ha, Hs.
  assert (forall n l, 0 <= n -> 0 < l < 2 ^ 32 -> n + l <= 2 ^ 32 -> start_length n l = Some (n, n + l - 1)) as Hsl.
  { intros n l Hn Hl Hnl. unfold start_length. rewrite (proj2 (Z.eqb_neq l 0)) by lia. rewrite wrap_small by (unfold is_word; lia). rewrite (proj2 (Z.leb_le _ _)) by lia. f_equal. f_equal. lia. }
  unfold test_map. destruct (decide (0 < size /\ addr + size <= 2 ^ 32)) as [[H1 H2]|Hno].
  2:{ assert (start_length addr size = None) as ->; [|split; [done|tauto]]. unfold start_length. destruct (Z.eqb_spec size 0) as [|Hz]; [done|].
      assert (u32 (addr + (size - 1)) = addr + (size - 1) - 2 ^ 32) as -> by (symmetry; apply (Z.mod_unique _ _ 1); lia). now rewrite (proj2 (Z.leb_gt _ _)) by lia. }
  rewrite Hsl by lia. rewrite forallb_forall. split.
  - intros H. split; [done|]. split; [done|]. intros r b Hb Hid. assert (r ∈ omap id (g_locations v)) as Hr by (apply (co_valid _ _ _ Hc); eauto).
    apply list_elem_of_omap in Hr as (o & Ho & Hor). cbn in Hor. subst o. specialize (H (Some r) (proj1 (list_elem_of_In _ _) Ho)). cbn in H. rewrite Hb in H. cbn in H.
    pose proof (co_ok _ _ _ Hc r b Hb Hid) as Hbo. rewrite Hsl in H by (apply (bo_addr b Hbo) || apply (bo_size b Hbo) || apply (bo_end b Hbo)).
    unfold overlaps in H. cbn in H. apply negb_true_iff, andb_false_iff in H as [H|H]; apply Z.leb_gt in H; lia.
  - intros (_ & _ & Hun) o Ho%list_elem_of_In. destruct o as [r|]; [|done]. cbn. assert (r ∈ omap id (g_locations v)) as (b & Hb & Hid)%(co_valid _ _ _ Hc) by (apply list_elem_of_omap; eauto).
    rewrite Hb. cbn. pose proof (co_ok _ _ _ Hc r b Hb Hid) as Hbo. rewrite Hsl by (apply (bo_addr b Hbo) || apply (bo_size b Hbo) || apply (bo_end b Hbo)).
    unfold overlaps. cbn. destruct (Hun r b Hb Hid); apply negb_true_iff, andb_false_iff; rewrite !Z.leb_gt; lia.
Qed.

(** An area is added at a location. *)
Lemma couples_add ls ls' bs A addr size flags n : couples ls bs A -> omap id ls' ≡ₚ length bs :: omap id ls -> n <> 0 ->
  0 <= addr -> addr mod 4096 = 0 -> 0 < size < 2 ^ 32 -> size mod 4096 = 0 -> addr + size <= 2 ^ 32 -> (has flags page_size_4k = false -> addr mod 65536 = 0) ->
  (forall r b, bs !! r = Some b -> b_id b <> 0 -> b_addr b + b_size b <= addr \/ addr + size <= b_addr b) ->
  couples ls' (bs ++ [Block addr size (process_block_flags flags) n []]) A.
Proof.
  intros [Hn Hv Ho Hap Hal] Hperm Hid Ha Ha4 Hs Hs4 He Hu Hun. set (nb := Block _ _ _ _ _).
  assert (forall r b, (bs ++ [nb]) !! r = Some b <-> bs !! r = Some b \/ r = length bs /\ b = nb) as Hlook.
  { intros r b. rewrite lookup_app_Some, list_lookup_singleton_Some. split; [intros [?|(? & ? & ?)]; [now left|right; split; [lia|done]]|intros [?|[-> ->]]; [now left|right; split; [lia|split; [lia|done]]]]. }
  assert (length bs ∉ omap id ls) as Hnew by (intros (b & Hb%lookup_lt_Some & _)%Hv; lia).
  assert (block_ok nb) as Hnb.
  { split; cbn; try done; [intros Hg; now apply process_guard|intros H4; now apply process_common|intros H4; rewrite process_4k in H4; auto]. }
  split.
  - rewrite Hperm. now constructor.
  - intros r. rewrite Hperm, elem_of_cons. split.
    + intros [->|(b & Hb & Hi)%Hv]; [exists nb; split; [apply Hlook; now right|done]|exists b; split; [apply Hlook; now left|done]].
    + intros (b & [Hb|[-> ->]]%Hlook & Hi); [right; apply Hv; eauto|now left].
  - intros r b [Hb|[-> ->]]%Hlook Hi; [now apply (Ho r)|done].
  - intros r r' b b' Hne [Hb|[-> ->]]%Hlook Hi [Hb'|[-> ->]]%Hlook Hi'; [now apply (Hap r r')| | |done]; unfold apart; cbn.
    + destruct (Hun r b Hb Hi); [now left|now right].
    + destruct (Hun r' b' Hb' Hi'); [now right|now left].
  - intros a x. rewrite Hal. split.
    + intros (r & b & e & Hb & H). exists r, b, e. split; [apply Hlook; now left|done].
    + intros (r & b & e & [Hb|[-> ->]]%Hlook & Hi & Hk & ->); [eauto 10|done].
Qed.

(** What becomes of the state when an area is made. *)
Record made v (addr size flags : Z) (r : nat) v' : Prop := {
  md_ref : r = length (blocks v);
  md_blocks : blocks v' = blocks v ++ [Block addr size (process_block_flags flags) (s_id v) []];
  md_pages : g_pages v' = g_pages v /\ g_shmem v' = g_shmem v /\ shms v' = shms v;
  md_locs : omap id (g_locations v') ≡ₚ r :: omap id (g_locations v);
  md_length : (length (g_locations v) <= length (g_locations v'))%nat;
  md_id : s_id v' = u64 (s_id v + 1)
}.

Lemma made_ok v A addr size flags r v' : vm_ok v A -> made v addr size flags r v' -> s_id v < 2 ^ 64 - 1 -> 0 <= addr -> addr mod 4096 = 0 -> 0 < size < 2 ^ 32 -> size mod 4096 = 0 ->
  addr + size <= 2 ^ 32 -> (has flags page_size_4k = false -> addr mod 65536 = 0) -> unused v addr size -> vm_ok v' A.
Proof.
  intros [Hc Hok Hp Hsh Hfx Hpos] [-> Hb (E1 & E2 & E3) Hl Hlen Hi] Hid Ha Ha4 Hs Hs4 He Hu Hun. split; rewrite ?E1, ?E2, ?E3; try done.
  - rewrite Hb. apply (couples_add (g_locations v)); try done. lia.
  - lia.
  - rewrite Hi, wrap_small by (unfold is_word; lia). lia.
Qed.

Lemma push_made v addr size flags : made v addr size flags (make_block addr size flags v).1 (push_location (make_block addr size flags v).1 (make_block addr size flags v).2).
Proof. split; cbn; try done; [rewrite omap_app; cbn; now rewrite Permutation_app_comm|rewrite length_app; lia]. Qed.

(** [_map]. *)
Lemma map_at_ok v A addr size flags : vm_ok v A -> s_id v < 2 ^ 64 - 1 -> is_word 32 addr -> 0 < size < 2 ^ 32 -> addr mod 4096 = 0 -> size mod 4096 = 0 ->
  (has flags page_size_4k = false -> addr mod 65536 = 0) ->
  exists o v', map_at addr size flags v = Some (o, v') /\
    ((o = None /\ v' = v /\ ~ (addr + size <= 2 ^ 32 /\ unused v addr size)) \/
     (exists r, o = Some r /\ addr + size <= 2 ^ 32 /\ unused v addr size /\ made v addr size flags r v' /\ vm_ok v' A)).
Proof.
  intros Hv Hid Ha Hs Ha4 Hs4 Hu. pose proof (test_map_ok v A addr size Hv Ha ltac:(unfold is_word; lia)) as Ht. unfold is_word in Ha.
  unfold map_at. rewrite (proj2 (Z.eqb_neq size 0)) by lia. assert (Z.lor size addr mod 4096 = 0) as -> by (apply (lor_mod size addr 12); [lia|done]). cbn [Z.eqb negb orb].
  destruct (test_map addr size v); cbn [negb].
  - destruct (proj1 Ht eq_refl) as (_ & He & Hun). assert (existsb (fun i => negb (word_at (g_pages v) i =? 0)) (pages_of addr size) = false) as ->.
    { apply existsb_used. apply (pages_free _ A addr size (ok_allocs _ _ _ Hv) (ok_pages _ _ _ Hv)); [unfold fits; split_and!; try done; lia|]. intros a x Hx.
      apply (co_alloc _ _ _ (ok_couples _ _ _ Hv)) in Hx as (r & b & [s sh] & Hb & Hi & Hk & ->). cbn.
      pose proof (bo_inside b (co_ok _ _ _ (ok_couples _ _ _ Hv) r b Hb Hi) a s sh Hk). destruct (Hun r b Hb Hi); [left|right]; lia. }
    pose proof (push_made v addr size flags) as Hmd. cbn [make_block fst snd] in *. do 2 eexists. split; [reflexivity|]. right. eexists. split_and!; [reflexivity|done|done|exact Hmd|].
    now apply (made_ok v A addr size flags _ _ Hv Hmd).
  - exists None, v. split; [done|]. left. split_and!; [done|done|]. intros [H1 H2]. assert (false = true) by (apply Ht; split; [lia|done]). done.
Qed.

(** ** The search for an area *)

Lemma find_map_loop_ok size align v : 0 < align -> forall n addr max, max = addr + Z.of_nat n * align -> 0 <= addr -> max < 2 ^ 32 -> addr mod align = 0 ->
  (find_map_loop (S n) addr max align size v = None /\ forall a, addr <= a <= max -> a mod align = 0 -> test_map a size v = false) \/
  (exists a, find_map_loop (S n) addr max align size v = Some a /\ addr <= a <= max /\ a mod align = 0 /\ test_map a size v = true /\
    forall a', addr <= a' < a -> a' mod align = 0 -> test_map a' size v = false).
Proof.
  intros Hal. induction n as [|n IH]; intros addr max Hmax Ha Hm Hmod; change (find_map_loop (S ?k) addr max align size v) with
    (if test_map addr size v then Some addr else if addr =? max then None else find_map_loop k (u32 (addr + align)) max align size v);
    (destruct (test_map addr size v) eqn:Ht; [right; exists addr; split_and!; [done|lia|lia|done|done|intros; lia]|]).
  - rewrite (proj2 (Z.eqb_eq addr max)) by lia. left. split; [done|]. intros a Ha' _. now replace a with addr by lia.
  - assert (addr + align <= max) as Hle by nia. rewrite (proj2 (Z.eqb_neq addr max)) by lia. rewrite wrap_small by (unfold is_word; lia).
    assert (forall a, addr <= a -> a mod align = 0 -> a = addr \/ addr + align <= a) as Hstep.
    { intros a Ha' Hma. destruct (decide (a = addr)) as [|Hne]; [now left|right]. apply (multiple_le _ _ align); [done| |done|lia]. now rewrite <- Z.add_mod_idemp_r, Z_mod_same_full, Z.add_0_r by lia. }
    destruct (IH (addr + align) max) as [[He Hn]|(a & He & Hr & Hma & Hta & Hlow)]; [lia|lia|lia|now rewrite <- Z.add_mod_idemp_r, Z_mod_same_full, Z.add_0_r by lia| |].
    + left. split; [exact He|]. intros a [Ha1 Ha2] Hma. destruct (Hstep a Ha1 Hma) as [->|]; [done|now apply Hn].
    + right. exists a. split_and!; [exact He|lia|lia|done|done|]. intros a' [Ha1 Ha2] Hma'. destruct (Hstep a' Ha1 Hma') as [->|]; [done|now apply Hlow].
Qed.

(** A place for an area between the two bounds of the program. *)
Definition area_place v (align size a : Z) : Prop := a mod align = 0 /\ 0x10000000 <= a /\ a + size <= 0xC0000000 /\ unused v a size.

(** The lowest place for an area is found, or there is none. *)
Lemma find_map_at_ok v A size k : vm_ok v A -> 0 <= k < 32 -> 0 < size < 2 ^ 32 ->
  match find_map_at size (2 ^ k) v with
  | Some a => area_place v (2 ^ k) size a /\ forall a', a' < a -> ~ area_place v (2 ^ k) size a'
  | None => forall a, ~ area_place v (2 ^ k) size a
  end.
Proof.
  intros Hv Hk Hs. assert (0 < 2 ^ k) as Hp by (apply Z.pow_pos_nonneg; lia). assert (2 ^ k <= 2 ^ 31) as Hp2 by (apply Z.pow_le_mono_r; lia). unfold find_map_at.
  destruct (Z.gtb_spec size (0xC0000000 - 0x10000000)) as [Hbig|Hsmall]; [cbn [orb]; intros a (_ & H1 & H2 & _); lia|]. cbn [orb].
  assert (Z.land (u32 (0xC0000000 - size)) (u32 (- 2 ^ k)) = 0xC0000000 - size - (0xC0000000 - size) mod 2 ^ k) as ->.
  { rewrite (wrap_small 32) by (unfold is_word; lia). apply land_neg_pow2; [lia|unfold is_word; lia]. }
  set (max := 0xC0000000 - size - (0xC0000000 - size) mod 2 ^ k). pose proof (Z.mod_pos_bound (0xC0000000 - size) (2 ^ k) Hp) as Hm.
  assert (max mod 2 ^ k = 0) as Hmm by (unfold max; rewrite Zminus_mod_idemp_r, Z.sub_diag; done).
  assert (forall a, a mod 2 ^ k = 0 -> a + size <= 0xC0000000 -> a <= max) as Hmax by (intros a Hma Has; apply (multiple_le _ _ (2 ^ k)); [done|done|done|unfold max; lia]).
  destruct (Z.ltb_spec max 0x10000000) as [Hlow|Hlow]; [intros a (H1 & H2 & H3 & _); pose proof (Hmax a H1 H3); lia|].
  destruct (alignUp_spec 0x10000000 k) as [Ha1 Ha2]; [lia|lia|lia|]. set (addr := alignUp 0x10000000 (2 ^ k)) in *.
  assert (addr <= max) as Hle by (apply (multiple_le _ _ (2 ^ k)); [done|done|done|lia]).
  assert (forall a, a mod 2 ^ k = 0 -> 0x10000000 <= a -> addr <= a) as Hmin by (intros a Hma Hge; apply (multiple_le _ _ (2 ^ k)); [done|done|done|lia]).
  set (n := Z.to_nat ((max - addr) / 2 ^ k)). assert (0 <= (max - addr) / 2 ^ k) as Hn0 by (apply Z.div_pos; lia).
  assert (max = addr + Z.of_nat n * 2 ^ k) as Hn.
  { assert ((max - addr) mod 2 ^ k = 0) as Hdm by (rewrite Zminus_mod, Hmm, Ha2; done). pose proof (Z.div_mod (max - addr) (2 ^ k) ltac:(lia)). subst n. lia. }
  replace (Z.to_nat ((max - addr) / 2 ^ k + 1)) with (S n) by (subst n; lia).
  assert (forall a, addr <= a <= max -> a mod 2 ^ k = 0 -> test_map a size v = true <-> area_place v (2 ^ k) size a) as Hiff.
  { intros a Ha Hma. rewrite (test_map_ok v A a size Hv) by (unfold is_word; lia). unfold area_place. split; [intros (_ & _ & H); split_and!; [done|lia|unfold max in Ha; lia|done]|intros (_ & _ & _ & H); split_and!; [lia|lia|done]]. }
  destruct (find_map_loop_ok size (2 ^ k) v Hp n addr max Hn ltac:(lia) ltac:(lia) Ha2) as [[-> Hnone]|(a & -> & Har & Hma & Ht & Hlowest)].
  - intros a Hpl. pose proof Hpl as (H1 & H2 & H3 & _). assert (addr <= a <= max) as Ha by (split; [now apply Hmin|now apply Hmax]). apply (Hiff a Ha H1) in Hpl. rewrite Hnone in Hpl; done.
  - split; [now apply Hiff|]. intros a' Hlt Hpl. pose proof Hpl as (H1 & H2 & H3 & _). assert (addr <= a') as Ha' by now apply Hmin. apply (Hiff a' ltac:(lia) H1) in Hpl. rewrite Hlowest in Hpl; done || lia.
Qed.

Lemma find_map_ok v A size align flags : vm_ok v A -> s_id v < 2 ^ 64 - 1 -> is_word 32 size -> is_word 32 align -> 0x10000 <= align -> is_align align = true ->
  exists o v', find_map size align flags v = Some (o, v') /\
    ((o = None /\ v' = v) \/
     (exists r a, o = Some r /\ made v a (round_up size 0x10000) flags r v' /\ vm_ok v' A /\ area_place v align (round_up size 0x10000) a /\
       forall a', a' < a -> ~ area_place v align (round_up size 0x10000) a')).
Proof.
  intros Hv Hid Hs Ha Hal Hpow. unfold find_map. rewrite Hpow, (proj2 (Z.ltb_ge _ _) Hal). cbn [negb orb]. change 0x10000 with (2 ^ 16) in *. rewrite alignUp_round by (lia || done).
  pose proof (round_up_spec size 16 ltac:(lia) ltac:(unfold is_word in Hs; lia)) as [Hr Hm]. destruct (is_align_pow2 align) as (k & Hk & ->); [unfold is_word in Ha; lia|done|].
  destruct (Z.ltb_spec (size + (2 ^ 16 - 1)) (2 ^ 32)) as [Hov|Hov]; [|eauto 10]. destruct (Z.eqb_spec (round_up size (2 ^ 16)) 0) as [|Hz]; [eauto 10|].
  unfold is_word in Hs. pose proof (find_map_at_ok v A (round_up size (2 ^ 16)) k Hv Hk) as Hf. destruct (find_map_at _ _ v) as [a|]; [|eauto 10].
  destruct Hf as [Hpl Hlow]; [lia|]. pose proof Hpl as (Hma & Ha1 & Ha2 & Hun). assert (16 <= k) as Hk16 by (apply (Z.pow_le_mono_r_iff 2); lia).
  pose proof (push_made v a (round_up size (2 ^ 16)) flags) as Hmd. cbn [make_block fst snd] in *. do 2 eexists. split; [reflexivity|]. right. eexists _, a. split_and!; [reflexivity|exact Hmd| |done|done].
  apply (made_ok v A a (round_up size (2 ^ 16)) flags _ _ Hv Hmd); [done|lia|apply (divide_pow2 a 12 k); [lia|done]|lia|apply (divide_pow2 _ 12 16); [lia|done]|lia| |done].
  intros _. now apply (divide_pow2 a 16 k); [lia|].
Qed.

Lemma get_map_ok v A location addr r : vm_ok v A -> get_map location addr v = Some r -> exists b, blocks v !! r = Some b /\ b_id b <> 0.
Proof.
  intros Hv H. apply (co_valid _ _ _ (ok_couples _ _ _ Hv)). apply list_elem_of_omap. unfold get_map in H. destruct (negb _).
  - destruct (g_locations v !! Z.to_nat location) as [o|] eqn:Hl; [|done]. cbn in H. exists o. split; [now apply list_elem_of_lookup_2 in Hl|done].
  - destruct (list_find _ _) as [[i o]|] eqn:Hl; [|done]. apply list_find_Some in Hl as (Hl & _). cbn in H. exists o. split; [now apply list_elem_of_lookup_2 in Hl|done].
Qed.

Lemma reserve_map_ok v A location addr size flags : vm_ok v A -> s_id v < 2 ^ 64 - 1 -> 0 <= location -> is_word 32 addr -> 0 < size < 2 ^ 32 -> size mod 4096 = 0 -> addr mod 4096 = 0 ->
  (has flags page_size_4k = false -> addr mod 65536 = 0) ->
  exists o v', reserve_map location addr size flags v = Some (o, v') /\ vm_ok v' A /\ (v' = v \/ exists r a, o = Some r /\ made v a size flags r v' /\ unused v a size).
Proof.
  intros Hv Hid Hl0 Ha Hs Hs4 Ha4 Hu. unfold reserve_map. destruct (get_map location addr v) as [r|] eqn:Hg; [eauto 10|].
  destruct (negb (location =? any)) eqn:Hany; cbn [andb].
  2:{ destruct (map_at_ok v A addr size flags Hv Hid Ha Hs Ha4 Hs4 Hu) as (o & v' & -> & [(-> & -> & _)|(r & -> & _ & Hun & Hmd & Hv')]); eauto 15. }
  destruct (Z.ltb_spec location (Z.of_nat (length (g_locations v)))) as [Hlt|Hge].
  2:{ destruct (map_at_ok v A addr size flags Hv Hid Ha Hs Ha4 Hs4 Hu) as (o & v' & -> & [(-> & -> & _)|(r & -> & _ & Hun & Hmd & Hv')]); eauto 15. }
  pose proof (find_map_at_ok v A size 28 Hv ltac:(lia) Hs) as Hf. change (2 ^ 28) with 0x10000000 in Hf. destruct (find_map_at size 0x10000000 v) as [a|]; [|eauto 10].
  destruct Hf as [(Hma & Ha1 & Ha2 & Hun) _]. change 0x10000000 with (2 ^ 28) in Hma. unfold get_map in Hg. rewrite Hany in Hg.
  destruct (g_locations v !! Z.to_nat location) as [o|] eqn:Ho; [|apply lookup_ge_None in Ho; lia]. cbn in Hg. subst o. cbn [make_block].
  match goal with |- context [Some (?r, ?s)] => assert (made v a size flags (length (blocks v)) s) as Hmd end.
  { split; cbn; try done; [now apply omap_insert_perm|now rewrite length_insert]. }
  do 2 eexists. split; [reflexivity|]. split; [|right; exists (length (blocks v)), a; done].
  apply (made_ok v A a size flags _ _ Hv Hmd); [done|lia|apply (divide_pow2 a 12 28); [lia|done]|done|done|lia| |done]. intros _. now apply (divide_pow2 a 16 28); [lia|].
Qed.

(** ** Protection *)

(** Every page keeps its value or gets the new one. *)
Lemma protect_loop_each fs fc t0 first last : first <= last ->
  forall n i start sv t, Z.of_nat n = last + 1 - i -> first <= start <= i ->
  (forall p, p < start -> word_at t p = word_at t0 p \/ first <= p < last /\ word_at t p = new_flags fs fc (word_at t0 p)) ->
  (forall p, start <= p -> word_at t p = word_at t0 p) -> (forall p, start <= p < i -> p < last -> new_flags fs fc (word_at t0 p) = sv) ->
  forall p, let t' := protect_loop (seqZ i (Z.of_nat n)) last fs fc start sv t in
    word_at t' p = word_at t0 p \/ first <= p < last /\ word_at t' p = new_flags fs fc (word_at t0 p).
Proof.
  intros Hfl. induction n as [|n IH]; intros i start sv t Hn Hst Hdone Hrest Hrun p.
  - cbn. destruct (Z.lt_ge_cases p start); [now apply Hdone|left; now apply Hrest].
  - rewrite seqZ_from_cons by lia. cbn [protect_loop]. replace (Z.of_nat (S n) - 1) with (Z.of_nat n) by lia.
    set (nv := if i <? last then new_flags fs fc (word_at t i) else page_executable).
    assert (forall q, i <= q < i + 1 -> q < last -> new_flags fs fc (word_at t0 q) = nv) as Hnv.
    { intros q Hq Hql. assert (q = i) as -> by lia. subst nv. rewrite (proj2 (Z.ltb_lt _ _)) by lia. now rewrite Hrest by lia. }
    destruct (negb (nv =? sv)) eqn:Hne.
    + apply IH; [lia|lia| | |exact Hnv].
      * intros q Hq. destruct (negb _ && negb _); [|destruct (Z.lt_ge_cases q start); [now apply Hdone|left; apply Hrest; lia]].
        rewrite word_at_release_all. destruct (decide (q ∈ seqZ start (i - start))) as [Hin%elem_of_seqZ|Hin].
        -- right. split; [lia|]. symmetry. apply Hrun; lia.
        -- rewrite elem_of_seqZ in Hin. apply Hdone. lia.
      * intros q Hq. destruct (negb _ && negb _); [|apply Hrest; lia]. rewrite word_at_release_all, decide_False by (rewrite elem_of_seqZ; lia). apply Hrest. lia.
    + apply negb_false_iff, Z.eqb_eq in Hne. apply IH; [lia|lia|done|done|]. intros q Hq Hql. destruct (Z.lt_ge_cases q i); [now apply Hrun|]. rewrite <- Hne. apply Hnv; lia.
Qed.

(** The pages of a run with one value all get the new one. *)
Lemma protect_loop_run fs fc w last start sv t : sv = new_flags fs fc w -> sv <> page_executable -> 0 <= start < last -> last <= 2 ^ 20 -> (start = 0 -> last < 2 ^ 20) ->
  forall n i, Z.of_nat n = last + 1 - i -> start <= i <= last -> (forall p, start <= p < last -> word_at t p = w) ->
  forall p, word_at (protect_loop (seqZ i (Z.of_nat n)) last fs fc start sv t) p = if decide (start <= p < last) then sv else word_at t p.
Proof.
  intros Hsv Hne Hst Hl2 Hl0. induction n as [|n IH]; intros i Hn Hi Hw p; [lia|]. rewrite seqZ_from_cons by lia. cbn [protect_loop]. replace (Z.of_nat (S n) - 1) with (Z.of_nat n) by lia.
  destruct (Z.ltb_spec i last) as [Hlt|Hge].
  - rewrite Hw, <- Hsv, Z.eqb_refl by lia. cbn [negb]. apply IH; [lia|lia|done].
  - assert (n = 0%nat) as -> by lia. assert (i = last) as -> by lia. rewrite (proj2 (Z.eqb_neq page_executable sv)) by congruence. cbn [negb].
    change (seqZ (last + 1) (Z.of_nat 0)) with (@nil Z). cbn [protect_loop].
    rewrite (Hw start) by lia. rewrite wrap_small by (unfold is_word; lia). rewrite (proj2 (Z.eqb_neq ((last - start) * 4096) 0)) by lia. cbn [negb andb].
    destruct (Z.eqb_spec w sv) as [Hwv|Hwv]; cbn [negb].
    + case_decide; [rewrite Hw by lia; done|done].
    + rewrite word_at_release_all. destruct (decide (p ∈ seqZ start (last - start))) as [Hin|Hin]; rewrite elem_of_seqZ in Hin; [rewrite decide_True by lia; done|rewrite decide_False by lia; done].
Qed.
End areas.

(** ** Checks *)

(** Pages marked as part of a large page have one value over all of it. *)
Definition large_pages (t : gmap Z Z) : Prop := forall i j, 0 <= i ->
  (has (word_at t i) page_1m_size = true -> i / 256 = j / 256 -> word_at t j = word_at t i) /\
  (has (word_at t i) page_64k_size = true -> i / 16 = j / 16 -> word_at t j = word_at t i).

Lemma check_loop_ok t flags last : large_pages t -> last < 2 ^ 20 -> forall fuel i, 0 <= i -> last - i < Z.of_nat fuel ->
  check_loop fuel t flags i last = true <-> forall p, i <= p <= last -> lacks (word_at t p) flags = false.
Proof.
  intros Hlp Hl. induction fuel as [|fuel IH]; intros i Hi Hf; cbn [check_loop].
  - split; [intros _ p Hp; lia|done].
  - destruct (Z.ltb_spec last i) as [Hlt|Hge]; [split; [intros _ p Hp; lia|done]|]. destruct (lacks (word_at t i) flags) eqn:Hli.
    + split; [done|]. intros H. rewrite (H i) in Hli by lia. done.
    + assert (forall n, 0 < n <= 256 -> (forall j, i / n = j / n -> word_at t j = word_at t i) ->
        alignUp (i + 1) n = (i + 1 + (n - 1)) / n * n ->
        (check_loop fuel t flags (alignUp (i + 1) n) last = true <-> forall p, i <= p <= last -> lacks (word_at t p) flags = false)) as Hskip.
      { intros n Hn Hj ->. assert ((i + 1 + (n - 1)) / n = i / n + 1) as -> by (replace (i + 1 + (n - 1)) with (i + 1 * n) by lia; rewrite Z_div_plus_full by lia; done).
        pose proof (Z.div_mod i n ltac:(lia)). pose proof (Z.mod_pos_bound i n ltac:(lia)). rewrite IH by nia. split; [|intros H' p Hp; apply H'; nia].
        intros H' p Hp. destruct (Z.lt_ge_cases p ((i / n + 1) * n)) as [Hlt|Hge']; [|apply H'; lia]. rewrite (Hj p); [done|]. apply (Z.div_unique_pos _ _ _ (p - n * (i / n))); nia. }
      assert (forall k, 0 <= k <= 8 -> alignUp (i + 1) (2 ^ k) = (i + 1 + (2 ^ k - 1)) / 2 ^ k * 2 ^ k) as Hal.
      { intros k Hk. assert (0 < 2 ^ k <= 2 ^ 8) by (split; [apply Z.pow_pos_nonneg; lia|apply Z.pow_le_mono_r; lia]). change (2 ^ 8) with 256 in *.
        rewrite alignUp_eq by lia. pose proof (Z.div_mod (i + 1 + (2 ^ k - 1)) (2 ^ k) ltac:(lia)). lia. }
      destruct (has (word_at t i) page_1m_size) eqn:H1; [apply (Hskip 256); [lia|intros j Hj; exact (proj1 (Hlp i j Hi) H1 Hj)|exact (Hal 8 ltac:(lia))]|].
      destruct (has (word_at t i) page_64k_size) eqn:H2; [apply (Hskip 16); [lia|intros j Hj; exact (proj2 (Hlp i j Hi) H2 Hj)|exact (Hal 4 ltac:(lia))]|].
      rewrite IH by lia. split; [|intros H p Hp; apply H; lia]. intros H p Hp. destruct (decide (p = i)) as [->|]; [done|apply H; lia].
Qed.
