(* ===== verification/VmRun.v ===== *)
(** * Guest virtual memory: every sequence of calls

    What holds of every state that calls of the other parts of the program
    reach, and what allocation, deallocation, the search for an area and the
    check of an access promise there. *)
From stdpp Require Import gmap.
From S2P Require Import Prelude StdMap Vm VmTables VmProofs VmShare VmAlloc VmBlock VmAreas.

Implicit Types (A : gmap Z alloc) (b : block_t) (v : vm).

(** ** Calls that do not throw by their arguments *)

Definition is_wordb (w n : Z) : bool := (0 <=? n) && (n <? 2 ^ w).

Definition args_okb v b (src : option nat) (flags : Z) : bool :=
  match src with
  | Some q => negb (has_common b) && negb (has flags page_size_4k) && negb (has flags stack_guarded) &&
      match shms v !! q with Some o => (s_flags o =? 0) || eligible b | None => false end
  | None => true
  end && (negb (guarded b) || negb (has flags alloc_executable)).

(** A range of pages that leaves guard pages alone, and one that holds
    allocations as a whole. *)
Definition avoids (addr size : Z) b (e : Z * (Z * option nat)) : bool :=
  negb (guarded b) || (addr + size <=? e.1) || (e.1 + e.2.1 <=? addr) || ((e.1 + 0x1000 <=? addr) && (addr + size <=? e.1 + e.2.1 - 0x1000)).
Definition holds_whole (addr size : Z) (e : Z * (Z * option nat)) : bool :=
  (addr + size <=? e.1) || (e.1 + e.2.1 <=? addr) || ((addr <=? e.1) && (e.1 + e.2.1 <=? addr + size)).

Definition all_entries v (f : block_t -> Z * (Z * option nat) -> bool) : bool :=
  forallb (fun b => (b_id b =? 0) || forallb (f b) (m_map b)) (blocks v).

(** A change of protection of allocated pages that are no guard pages; pages
    become executable, or not, for whole allocations with one value. *)
Definition protect_okb (addr size ft fs fc : Z) v : bool :=
  is_wordb 32 addr && is_wordb 32 size && negb (size =? 0) && (Z.lor size addr mod 4096 =? 0) && is_wordb 8 ft && is_wordb 8 fs && is_wordb 8 fc &&
  negb (has (Z.lor fs fc) page_allocated) &&
  forallb (fun i => has (word_at (g_pages v) i) page_allocated) (pages_of addr size) && (addr + size <=? 2 ^ 32) &&
  all_entries v (avoids addr size) &&
  (negb (has (Z.lor fs fc) page_executable) ||
   forallb (fun i => word_at (g_pages v) i =? word_at (g_pages v) (addr / 4096)) (pages_of addr size) && all_entries v (fun _ => holds_whole addr size)).

Definition area_okb (addr size flags : Z) : bool :=
  is_wordb 32 addr && is_wordb 32 size && negb (size =? 0) && (size mod 4096 =? 0) && (addr mod 4096 =? 0) && (has flags page_size_4k || (addr mod 65536 =? 0)).

Definition call_ok (c : call) v : bool :=
  match c with
  | MakeShm _ => true
  | BlockAlloc r size src align flags =>
      match blocks v !! r with
      | Some b => args_okb v b src flags && is_wordb 32 size && is_wordb 32 align && is_align align && (min_page_size (merge_flags b src flags) <=? align)
      | None => false
      end
  | BlockFalloc r addr size src flags =>
      match blocks v !! r with Some b => args_okb v b src flags && is_wordb 32 addr && is_wordb 32 size | None => false end
  | BlockDealloc r addr src => match blocks v !! r with Some b => negb (b_id b =? 0) && is_wordb 32 addr | None => false end
  | PageProtect addr size ft fs fc => negb (check_addr addr (Z.lor ft page_allocated) size v) && (is_wordb 32 addr && is_wordb 32 size && negb (size =? 0) && (Z.lor size addr mod 4096 =? 0))
      || protect_okb addr size ft fs fc v
  | Map addr size flags => area_okb addr size flags
  | FindMap size align flags => is_wordb 32 size && is_wordb 32 align && (0x10000 <=? align) && is_align align
  | ReserveMap location addr size flags => (0 <=? location) && area_okb addr size flags
  | Unmap _ _ ptr => match ptr with Some p => bool_decide (is_Some (blocks v !! p)) | None => true end
  end.

Lemma is_wordb_spec w n : is_wordb w n = true <-> is_word w n.
Proof. unfold is_wordb, is_word. rewrite andb_true_iff, Z.leb_le, Z.ltb_lt. done. Qed.

#[local] Opaque is_wordb.

Lemma args_okb_spec v b src flags : args_okb v b src flags = true -> alloc_args v b src flags.
Proof.
  unfold args_okb. intros [H1 H2]%andb_true_iff. split.
  - intros q ->. repeat (apply andb_true_iff in H1 as [H1 ?]). destruct (shms v !! q) as [o|] eqn:Ho; [|done]. rewrite !negb_true_iff in *. split_and!; [done|done|done|]. exists o. split; [done|].
    intros Hf. match goal with H : _ || _ = true |- _ => apply orb_true_iff in H as [?%Z.eqb_eq|?] end; done.
  - intros Hg. rewrite Hg in H2. cbn in H2. now apply negb_true_iff.
Qed.

#[local] Opaque args_okb.

(** ** Protection *)

Lemma new_flags_bit fs fc y k : 0 <= k < 8 -> has (new_flags fs fc y) (2 ^ k) = (has y (2 ^ k) || has fs (2 ^ k)) && negb (has fc (2 ^ k)).
Proof.
  intros Hk. unfold new_flags. rewrite !has_bit by lia. rewrite Z.land_spec, Z.lor_spec, testbit_bnot by lia. now rewrite (proj2 (Z.ltb_lt k 8)) by lia.
Qed.

Lemma protect_mask fs fc k : 0 <= k < 8 -> has (Z.lor fs fc) (2 ^ k) = false -> has (Z.land fs (bnot 8 (Z.land fs fc))) (2 ^ k) = false /\ has (Z.land fc (bnot 8 (Z.land fs fc))) (2 ^ k) = false.
Proof.
  intros Hk. rewrite has_lor, orb_false_iff, !has_bit by lia. intros [H1 H2]. now rewrite !Z.land_spec, H1, H2.
Qed.

Section run.
Context (map_address : nat -> Z) (get_page_size : Z).
Context (Hmap : forall r, 0 < map_address r < 2 ^ 47 /\ map_address r mod 2 ^ 16 = 0).
Abbreviation vm_ok := (vm_ok map_address).
Abbreviation step := (step map_address get_page_size).
Abbreviation run := (run map_address get_page_size).

Lemma entries_ok v A f a y : vm_ok v A -> all_entries v f = true -> A !! a = Some y ->
  exists b e, f b (a, e) = true /\ y = alloc_of b e.
Proof.
  intros Hv Hf Hx. apply (co_alloc _ _ _ (ok_couples _ _ _ Hv)) in Hx as (r & b & e & Hb & Hid & Hk & ->). exists b, e. split; [|done].
  unfold all_entries in Hf. rewrite forallb_forall in Hf. specialize (Hf b (proj1 (list_elem_of_In _ _) (list_elem_of_lookup_2 _ _ _ Hb))).
  apply orb_true_iff in Hf as [Hf%Z.eqb_eq|Hf]; [done|]. rewrite forallb_forall in Hf. apply Hf, list_elem_of_In.
  apply at_key_elem; [|done]. apply (bo_order b (co_ok _ _ _ (ok_couples _ _ _ Hv) r b Hb Hid)).
Qed.

(** Pages that keep the allocated bit, in a range without guard pages. *)
Lemma pages_protect A t t' addr size : allocs_ok A -> pages_ok t A -> addr mod 4096 = 0 -> size mod 4096 = 0 ->
  (forall p, p ∉ pages_of addr size -> word_at t' p = word_at t p) ->
  (forall p, p ∈ pages_of addr size -> has (word_at t p) page_allocated = true /\ has (word_at t' p) page_allocated = true) ->
  (forall a y, A !! a = Some y -> al_guard y = true -> addr + size <= a \/ a + al_size y <= addr \/ a + 0x1000 <= addr /\ addr + size <= a + al_size y - 0x1000) ->
  (forall a y, A !! a = Some y -> (forall p, covers a y p -> has (word_at t' p) page_executable = has (word_at t p) page_executable) \/
    al_guard y = false /\ exists ex, forall p, covers a y p -> has (word_at t' p) page_executable = ex) ->
  pages_ok t' A.
Proof.
  intros Hok Hp Ha4 Hs4 Hout Hin Hg Hex. assert (forall p, has (word_at t p) page_allocated = true -> has (word_at t' p) page_allocated = true) as Hall.
  { intros p Hpa. destruct (decide (p ∈ pages_of addr size)) as [Hi|Hi]; [now apply Hin|now rewrite Hout]. }
  split.
  - intros p Hn. apply (pg_used t A Hp). destruct (decide (p ∈ pages_of addr size)) as [Hi|Hi]; [|now rewrite Hout in Hn].
    destruct (Hin p Hi) as [Hpa _]. intros Hz. now rewrite Hz in Hpa.
  - intros a y Hy. pose proof (al_fits A Hok a y Hy) as Hf. destruct (pg_alloc t A Hp a y Hy) as [Hgp (ex & He & Hpin)]. split.
    + intros Hgy. destruct (Hg a y Hy Hgy) as [Hd|[Hd|[Hd1 Hd2]]]; (rewrite !Hout by (rewrite elem_pages; unfold fits in Hf; specialize (proj2 (proj2 (proj2 (proj2 (proj2 Hf)))) Hgy); Z.div_mod_to_equations; lia)); now apply Hgp.
    + destruct (Hex a y Hy) as [Hsame|[Hng (ex' & Hex')]].
      * exists ex. split; [done|]. intros p Hi. pose proof (inner_covered a y p Hf Hi) as Hc. rewrite Hsame by done. destruct (Hpin p Hi). split; [now apply Hall|done].
      * exists ex'. split; [congruence|]. intros p Hi. pose proof (inner_covered a y p Hf Hi) as Hc. destruct (Hpin p Hi). split; [now apply Hall|now apply Hex'].
Qed.

(** [page_protect]: pages keep their value or get the new one; in a range with
    one value all pages get it. *)
Lemma page_protect_pages addr size ft fs fc v : is_word 32 addr -> 0 < size < 2 ^ 32 -> addr mod 4096 = 0 -> size mod 4096 = 0 -> addr + size <= 2 ^ 32 ->
  has (Z.lor fs fc) page_allocated = false ->
  exists ok t', page_protect addr size ft fs fc v = Some (ok, set_pages t' v) /\
    exists fs' fc', (forall k, 0 <= k < 8 -> has (Z.lor fs fc) (2 ^ k) = false -> has fs' (2 ^ k) = false /\ has fc' (2 ^ k) = false) /\
    (forall p, word_at t' p = word_at (g_pages v) p \/ p ∈ pages_of addr size /\ word_at t' p = new_flags fs' fc' (word_at (g_pages v) p)) /\
    (forall w, has w page_allocated = true -> (forall p, p ∈ pages_of addr size -> word_at (g_pages v) p = w) ->
      (forall p, p ∈ pages_of addr size -> word_at t' p = w) \/ forall p, p ∈ pages_of addr size -> word_at t' p = new_flags fs' fc' w).
Proof.
  intros Ha Hs Ha4 Hs4 He Hal. unfold is_word in Ha. unfold page_protect. rewrite (proj2 (Z.eqb_neq size 0)) by lia. assert (Z.lor size addr mod 4096 = 0) as -> by (apply (lor_mod size addr 12); [lia|done]).
  cbn [Z.eqb negb orb]. set (fs' := Z.land fs _). set (fc' := Z.land fc _). assert (forall k, 0 <= k < 8 -> has (Z.lor fs fc) (2 ^ k) = false -> has fs' (2 ^ k) = false /\ has fc' (2 ^ k) = false) as Hmask by (intros; now apply protect_mask).
  destruct (check_addr _ _ _ _) eqn:Hc; cbn [negb].
  2:{ exists false, (g_pages v). split; [now destruct v|]. exists fs', fc'. split_and!; [done|now left|]. intros w _ Hw. now left. }
  destruct ((fs' =? 0) && (fc' =? 0)); [exists true, (g_pages v); split; [now destruct v|]; exists fs', fc'; split_and!; [done|now left|intros w _ Hw; now left]|].
  eexists true, _. split; [reflexivity|]. exists fs', fc'. split; [done|]. set (first := addr / 4096). set (last := first + size / 4096).
  assert (0 <= first < last /\ last <= 2 ^ 20 /\ size / 4096 + 1 = Z.of_nat (Z.to_nat (last + 1 - first))) as (Hfl & Hl20 & Hn) by (unfold first, last; Z.div_mod_to_equations; lia).
  rewrite Hn. split.
  - intros p. rewrite elem_pages. fold first last. apply (protect_loop_each fs' fc' (g_pages v) first last); [lia|lia|lia|now left|done|intros; lia].
  - intros w Hwa Hw. right. intros p Hp. assert (new_flags fs' fc' w <> page_executable) as Hne.
    { intros Hx. assert (has (new_flags fs' fc' w) (2 ^ 7) = false) as Hz by (rewrite Hx; done). rewrite new_flags_bit in Hz by lia. destruct (Hmask 7 ltac:(lia) Hal) as [H1 H2].
      rewrite H1, H2, orb_false_r, andb_true_r in Hz. change (2 ^ 7) with page_allocated in Hz. congruence. }
    assert (forall p, first <= p < last -> word_at (g_pages v) p = w) as Hw' by (intros q Hq; apply Hw, elem_pages; done).
    rewrite elem_pages in Hp. fold first last in Hp. replace (Z.to_nat (last + 1 - first)) with (S (Z.to_nat (last - first))) by lia. rewrite seqZ_from_cons by lia. cbn [protect_loop].
    rewrite (proj2 (Z.ltb_lt first last)), Hw' by lia. rewrite (proj2 (Z.eqb_neq _ _) Hne). cbn [negb]. rewrite Z.sub_diag. cbn [Z.mul]. change (u32 0 =? 0) with true. cbn [negb andb].
    replace (Z.of_nat (S (Z.to_nat (last - first))) - 1) with (Z.of_nat (Z.to_nat (last - first))) by lia.
    rewrite (protect_loop_run fs' fc' w last first _ _ eq_refl Hne) by (done || lia || (unfold first, last in *; Z.div_mod_to_equations; lia)). now rewrite decide_True.
Qed.

Lemma page_protect_ok v A addr size ft fs fc : vm_ok v A -> protect_okb addr size ft fs fc v = true ->
  exists ok v', page_protect addr size ft fs fc v = Some (ok, v') /\ vm_ok v' A /\ s_id v' = s_id v.
Proof.
  intros Hv H. unfold protect_okb in H. repeat (apply andb_true_iff in H as [H ?]).
  repeat match goal with H : is_wordb _ _ = true |- _ => apply is_wordb_spec in H | H : negb _ = true |- _ => apply negb_true_iff in H | H : (_ =? _) = true |- _ => apply Z.eqb_eq in H | H : (_ =? _) = false |- _ => apply Z.eqb_neq in H | H : (_ <=? _) = true |- _ => apply Z.leb_le in H end.
  rename select (_ || _ = true) into Hex. rename select (all_entries v (avoids addr size) = true) into Hav. rename select (forallb _ _ = true) into Hpa. rename select (has (Z.lor fs fc) page_allocated = false) into Hal.
  rename select (Z.lor size addr mod 4096 = 0) into Hmod. apply (lor_mod size addr 12) in Hmod as [Hs4 Ha4]; [|lia]. rewrite forallb_forall in Hpa.
  destruct (page_protect_pages addr size ft fs fc v) as (ok & t' & -> & fs' & fc' & Hmask & Heach & Huni); [done|unfold is_word in *; lia|done|done|done|done|].
  exists ok, (set_pages t' v). split; [done|]. split; [|done]. pose proof Hv as [Hc Hok Hp Hsh Hfx Hpos]. split; cbn; try done.
  assert (forall k p, 0 <= k < 8 -> has (Z.lor fs fc) (2 ^ k) = false -> has (word_at t' p) (2 ^ k) = has (word_at (g_pages v) p) (2 ^ k)) as Hbit.
  { intros k p Hk Hf. destruct (Hmask k Hk Hf) as [E1 E2]. destruct (Heach p) as [-> |[_ ->]]; [done|]. now rewrite new_flags_bit, E1, E2, orb_false_r, andb_true_r by done. }
  assert (forall p, p ∈ pages_of addr size -> has (word_at (g_pages v) p) page_allocated = true) as Hpa' by (intros p Hi; apply Hpa; now apply list_elem_of_In).
  apply (pages_protect A (g_pages v) t' addr size); try done.
  - intros p Hni. destruct (Heach p) as [|[? _]]; done.
  - intros p Hi. split; [now apply Hpa'|]. change page_allocated with (2 ^ 7). rewrite Hbit by (done || lia). now apply Hpa'.
  - intros a y Hy Hg. destruct (entries_ok v A _ a y Hv Hav Hy) as (b & e & Hf & ->). unfold avoids in Hf. cbn in *. rewrite Hg in Hf. cbn in Hf.
    rewrite !orb_true_iff, andb_true_iff, !Z.leb_le in Hf. tauto.
  - intros a y Hy. apply orb_true_iff in Hex as [Hex|Hex]; [apply negb_true_iff in Hex; left; intros p _; change page_executable with (2 ^ 2); apply Hbit; [lia|done]|].
    apply andb_true_iff in Hex as [Hu Hw]. rewrite forallb_forall in Hu. destruct (entries_ok v A _ a y Hv Hw Hy) as (b & e & Hf & ->). destruct (entries_ok v A _ a _ Hv Hav Hy) as (b' & e' & Hf' & He').
    pose proof (al_fits A Hok a _ Hy) as F. unfold fits in F. cbn in F. unfold is_word in *. unfold holds_whole in Hf. cbn in Hf. rewrite !orb_true_iff, andb_true_iff, !Z.leb_le in Hf.
    assert (addr + size <= a \/ a + e.1 <= addr \/ addr <= a /\ a + e.1 <= addr + size) as [Hd|[Hd|Hd]] by tauto.
    1,2: left; intros p Hcv; f_equal; destruct (Heach p) as [->|[Hi _]]; [done|]; exfalso; rewrite elem_pages in Hi; unfold covers in Hcv; cbn in Hcv; Z.div_mod_to_equations; lia.
    right. split.
    + cbn. destruct (guarded b) eqn:Hg; [|done]. exfalso. unfold avoids in Hf'. injection He' as E1 _ E3 _. cbn in Hf'. rewrite <- E3, <- E1 in Hf'. cbn in Hf'. rewrite Hg in Hf'. cbn in Hf'. rewrite !orb_true_iff, andb_true_iff, !Z.leb_le in Hf'. lia.
    + assert (forall p, covers a (alloc_of b e) p -> p ∈ pages_of addr size) as Hcin by (intros p Hcv; apply elem_pages; unfold covers in Hcv; cbn in Hcv; Z.div_mod_to_equations; lia).
      assert (addr / 4096 ∈ pages_of addr size) as Hfirst by (apply elem_pages; Z.div_mod_to_equations; lia).
      destruct (Huni (word_at (g_pages v) (addr / 4096)) (Hpa' _ Hfirst)) as [Hold|Hnew].
      * intros p Hi. specialize (Hu p (proj1 (list_elem_of_In _ _) Hi)). now apply Z.eqb_eq in Hu.
      * eexists. intros p Hcv. rewrite Hold by now apply Hcin. reflexivity.
      * eexists. intros p Hcv. rewrite Hnew by now apply Hcin. reflexivity.
Qed.

(** ** Sequences of calls *)

Lemma step_ok v A c : vm_ok v A -> s_id v < 2 ^ 64 - 1 -> call_ok c v = true -> exists y v' A', step c v = Some (y, v') /\ vm_ok v' A' /\ s_id v' <= s_id v + 1.
Proof.
  intros Hv Hid H. assert (s_id v + 1 = u64 (s_id v + 1)) as Hnext by (symmetry; apply wrap_small; pose proof (ok_id _ _ _ Hv); unfold is_word; lia).
  destruct c; cbn [Vm.step call_ok] in *.
  - do 3 eexists. split; [reflexivity|]. split; [|cbn; lia]. apply (vm_same map_address v _ A Hv); [done|]. cbn. apply shared_make, Hv.
  - destruct (blocks v !! r) as [b|] eqn:Hb; [|done]. repeat (apply andb_true_iff in H as [H ?]). apply args_okb_spec in H. rewrite !is_wordb_spec in *. rename select (_ <=? _ = true) into Hle. apply Z.leb_le in Hle.
    destruct (block_alloc_ok map_address get_page_size Hmap v A r b size src align flags Hv Hb H) as (ret & v' & -> & Hr); [done..|].
    destruct Hr as [(-> & [[_ ->]|((_ & _ & _ & _ & E) & Hv' & _)])|(_ & _ & a & sh & v1 & _ & _ & _ & _ & _ & _ & Hv' & (_ & _ & _ & _ & E1) & Had)]; cbn; do 3 eexists; (split; [reflexivity|]); (split; [eassumption|]); [lia|lia|].
    rewrite (ad_id _ _ _ _ _ _ _ _ Had). lia.
  - destruct (blocks v !! r) as [b|] eqn:Hb; [|done]. repeat (apply andb_true_iff in H as [H ?]). apply args_okb_spec in H. rewrite !is_wordb_spec in *.
    destruct (block_falloc_ok map_address get_page_size Hmap v A r b addr size src flags Hv Hb H) as (ok & v' & -> & Hr); [done..|].
    destruct Hr as [(_ & (_ & _ & _ & _ & E) & Hv' & _)|(_ & _ & sh & v1 & (_ & _ & _ & _ & E1) & Hv' & Had)]; cbn; do 3 eexists; (split; [reflexivity|]); (split; [eassumption|]); [lia|].
    rewrite (ad_id _ _ _ _ _ _ _ _ Had). lia.
  - destruct (blocks v !! r) as [b|] eqn:Hb; [|done]. apply andb_true_iff in H as [Hi Ha]. apply negb_true_iff, Z.eqb_neq in Hi. apply is_wordb_spec in Ha.
    destruct (block_dealloc_ok map_address Hmap v A r b addr src Hv Hb Hi Ha) as (n & v' & -> & Hr).
    destruct Hr as [(_ & -> & _)|(s & sh & _ & _ & _ & _ & Hv' & _ & E & _)]; cbn; do 3 eexists; (split; [reflexivity|]); (split; [eassumption|]); lia.
  - apply orb_true_iff in H as [H|H].
    + apply andb_true_iff in H as [Hc H]. repeat (apply andb_true_iff in H as [H ?]). apply negb_true_iff in Hc. rename select (negb (size =? 0) = true) into Hs0. rename select (_ mod 4096 =? 0 = true) into Hm.
      apply negb_true_iff in Hs0. unfold page_protect. rewrite Hs0, Hm, Hc. cbn. do 3 eexists. split; [reflexivity|]. split; [eassumption|lia].
    + destruct (page_protect_ok v A addr size flags_test flags_set flags_clear Hv H) as (ok & v' & -> & Hv' & E). cbn. do 3 eexists. split; [reflexivity|]. split; [eassumption|lia].
  - unfold area_okb in H. repeat (apply andb_true_iff in H as [H ?]). rewrite !is_wordb_spec in *. rewrite negb_true_iff, Z.eqb_neq in *. rewrite !Z.eqb_eq in *. rename select (_ || _ = true) into Hu. unfold vm_map.
    destruct (map_at_ok map_address v A addr size flags Hv Hid) as (o & v' & -> & [(_ & -> & _)|(r & _ & _ & _ & Hmd & Hv')]); [done|unfold is_word in *; lia|done|done|intros E4; rewrite E4 in Hu; now apply Z.eqb_eq in Hu| |];
      cbn; do 3 eexists; (split; [reflexivity|]); (split; [eassumption|]); [lia|]. rewrite (md_id _ _ _ _ _ _ Hmd). lia.
  - repeat (apply andb_true_iff in H as [H ?]). rewrite !is_wordb_spec in *. rename select (_ <=? _ = true) into Hle. apply Z.leb_le in Hle.
    destruct (find_map_ok map_address v A size align flags Hv Hid) as (o & v' & -> & [(_ & ->)|(r & a & _ & Hmd & Hv' & _)]); [done..| |]; cbn; do 3 eexists; (split; [reflexivity|]); (split; [eassumption|]); [lia|].
    rewrite (md_id _ _ _ _ _ _ Hmd). lia.
  - apply andb_true_iff in H as [Hl H]. apply Z.leb_le in Hl. unfold area_okb in H. repeat (apply andb_true_iff in H as [H ?]). rewrite !is_wordb_spec in *. rewrite negb_true_iff, Z.eqb_neq in *. rewrite !Z.eqb_eq in *. rename select (_ || _ = true) into Hu.
    destruct (reserve_map_ok map_address v A location addr area_size flags Hv Hid Hl) as (o & v' & -> & Hv' & Hr); [done|unfold is_word in *; lia|done|done|intros E4; rewrite E4 in Hu; now apply Z.eqb_eq in Hu|].
    cbn. do 3 eexists. split; [reflexivity|]. split; [eassumption|]. destruct Hr as [->|(r & a & _ & Hmd & _)]; [lia|]. rewrite (md_id _ _ _ _ _ _ Hmd). lia.
  - destruct (vm_unmap_ok map_address Hmap v A addr must_be_empty ptr Hv) as (o & ok & v' & -> & Hr); [intros p ->; now apply bool_decide_eq_true in H|].
    destruct Hr as [(_ & ->)|(_ & r & b & i & _ & _ & _ & _ & _ & _ & Hv' & _ & E & _)]; cbn; do 3 eexists; (split; [reflexivity|]); (split; [eassumption|]); lia.
Qed.

Fixpoint calls_ok (cs : list call) v : bool :=
  match cs with
  | [] => true
  | c :: cs => call_ok c v && match step c v with Some (_, v) => calls_ok cs v | None => true end
  end.

Lemma run_ok cs : forall v A, vm_ok v A -> s_id v + Z.of_nat (length cs) < 2 ^ 64 -> calls_ok cs v = true -> exists ys v' A', run cs v = Some (ys, v') /\ vm_ok v' A'.
Proof.
  induction cs as [|c cs IH]; intros v A Hv Hid Hok; [cbn; eauto 10|]. cbn [calls_ok length] in *. apply andb_true_iff in Hok as [Hc Hok].
  destruct (step_ok v A c Hv ltac:(lia) Hc) as (y & v1 & A1 & Hs & Hv1 & Hid1). rewrite Hs in Hok. destruct (IH v1 A1 Hv1 ltac:(lia) Hok) as (ys & v' & A' & Hr & Hv').
  exists (y :: ys), v', A'. cbn [Vm.run]. rewrite Hs. cbn [mbind option_bind]. rewrite Hr. done.
Qed.
End run.
