(* ===== verification/VmMemory.v ===== *)
(** * Guest virtual memory: what its users rely on

    The states that calls reach from [init], in the words of the areas and the
    page table alone: allocations, free places, mirrors of shared memory, and
    what the operations promise there. *)
From stdpp Require Import gmap.
From S2P Require Import Prelude StdMap Vm VmTables VmProofs VmShare VmAlloc VmBlock VmAreas VmRun.

Implicit Types (A : gmap Z alloc) (b : block_t) (v : vm).

(** The host maps shared memory at addresses of user programs, in whole units. *)
Definition host (map_address : nat -> Z) : Prop := forall r, 0 < map_address r < 2 ^ 47 /\ map_address r mod 2 ^ 16 = 0.

(** The states of the program: calls whose arguments are in order, from the
    state after [init]; there are fewer of them than numbers of areas. *)
Definition reached (map_address : nat -> Z) (get_page_size : Z) v : Prop :=
  exists cs ys, calls_ok map_address get_page_size cs init = true /\ 5 + Z.of_nat (length cs) < 2 ^ 64 /\ run map_address get_page_size cs init = Some (ys, v).

(** An area in use, and an allocation of one. *)
Definition in_use v (r : nat) b : Prop := blocks v !! r = Some b /\ b_id b <> 0.
Definition allocation v (r : nat) b (a s : Z) (sh : option nat) : Prop := in_use v r b /\ at_key (m_map b) a = Some (s, sh).

(** No allocation meets a range. *)
Definition vacant v (a s : Z) : Prop := forall r b a' s' sh, allocation v r b a' s' sh -> a' + s' <= a \/ a + s <= a'.

(** Areas do not meet, allocations lie in their areas and do not meet, and a
    page is in use exactly where an allocation is; the pages around a stack are
    allocated and nothing else. *)
Record consistent v : Prop := {
  cs_located r : r ∈ omap id (g_locations v) <-> exists b, in_use v r b;
  cs_apart r r' b b' : in_use v r b -> in_use v r' b' -> r <> r' -> apart b b';
  cs_inside r b a s sh : allocation v r b a s sh -> 0 < s /\ a mod 4096 = 0 /\ s mod 4096 = 0 /\ b_addr b <= a /\ a + s <= b_addr b + b_size b /\ b_addr b + b_size b <= 2 ^ 32;
  cs_disjoint r r' b b' a a' s s' sh sh' : allocation v r b a s sh -> allocation v r' b' a' s' sh' -> (r, a) <> (r', a') -> a + s <= a' \/ a' + s' <= a;
  cs_pages p : word_at (g_pages v) p <> 0 <-> exists r b a s sh, allocation v r b a s sh /\ a / 4096 <= p < a / 4096 + s / 4096;
  cs_guard r b a s sh : allocation v r b a s sh -> guarded b = true -> word_at (g_pages v) (a / 4096) = page_allocated /\ word_at (g_pages v) (a / 4096 + s / 4096 - 1) = page_allocated;
  cs_shared r b a s q : allocation v r b a s (Some q) -> is_Some (shms v !! q)
}.

Section memory.
Context (map_address : nat -> Z) (get_page_size : Z).
Abbreviation vm_ok := (vm_ok map_address).

Lemma init_blocks r b : blocks init !! r = Some b -> block_ok b /\ m_map b = [] /\ (r < 4)%nat /\ b_id b = Z.of_nat r + 1.
Proof.
  intros Hb. assert (r < 4)%nat as Hr by (apply lookup_lt_Some in Hb; exact Hb).
  do 4 (destruct r as [|r]; [injection Hb as <-; split; [split; cbn; try done; lia|done]|]). lia.
Qed.

Lemma init_ok : vm_ok init ∅.
Proof.
  assert (forall r b a e, blocks init !! r = Some b -> at_key (m_map b) a = Some e -> False) as Hno.
  { intros r b a e Hb Hk. destruct (init_blocks r b Hb) as (_ & Hm & _). now rewrite Hm in Hk. }
  split; [| |split|split|done|done].
  - split.
    + change (omap id (g_locations init)) with [0; 1; 2; 3]%nat. apply (bool_decide_unpack _). vm_compute. exact I.
    + intros r. change (omap id (g_locations init)) with (seq 0 4). rewrite elem_of_seq. split.
      * intros Hr. destruct (blocks init !! r) as [b|] eqn:Hb; [|apply lookup_ge_None in Hb; cbn in Hb; lia]. exists b. split; [done|]. destruct (init_blocks r b Hb) as (_ & _ & _ & ->). lia.
      * intros (b & Hb & _). destruct (init_blocks r b Hb) as (_ & _ & ? & _). lia.
    + intros r b Hb _. now apply (init_blocks r).
    + intros r r' b b' Hne Hb _ Hb' _. destruct (init_blocks r b Hb) as (_ & _ & Hr & _), (init_blocks r' b' Hb') as (_ & _ & Hr' & _).
      do 4 (destruct r as [|r]; [injection Hb as <-; do 4 (destruct r' as [|r']; [injection Hb' as <-; first [done|unfold apart; cbn; lia]|]); lia|]). lia.
    + intros a x. split; [done|]. intros (r & b & e & Hb & _ & Hk & _). now destruct (Hno r b a e).
  - done.
  - intros p Hp. now rewrite word_at_empty in Hp.
  - done.
  - done.
  - done.
  - intros i Hi. now rewrite word_at_empty in Hi.
Qed.

Lemma reached_ok v : host map_address -> reached map_address get_page_size v -> exists A, vm_ok v A.
Proof.
  intros Hh (cs & ys & Hok & Hl & Hr). destruct (run_ok map_address get_page_size Hh cs init ∅ init_ok Hl Hok) as (ys' & v' & A & Hr' & Hv). rewrite Hr in Hr'. injection Hr' as <- <-. eauto.
Qed.

Lemma allocation_alloc v A a x : vm_ok v A -> A !! a = Some x <-> exists r b s sh, allocation v r b a s sh /\ x = alloc_of b (s, sh).
Proof.
  intros Hv. rewrite (co_alloc _ _ _ (ok_couples _ _ _ Hv)). split.
  - intros (r & b & [s sh] & Hb & Hid & Hk & ->). exists r, b, s, sh. done.
  - intros (r & b & s & sh & [[Hb Hid] Hk] & ->). exists r, b, (s, sh). done.
Qed.

Lemma allocation_of v A r b a s sh : vm_ok v A -> allocation v r b a s sh -> A !! a = Some (alloc_of b (s, sh)).
Proof. intros Hv H. apply (allocation_alloc v A a _ Hv). eauto 10. Qed.

Lemma vacant_free v A a s : vm_ok v A -> vacant v a s <-> free A a s.
Proof.
  intros Hv. split.
  - intros H a' x (r & b & s' & sh & Hal & ->)%(allocation_alloc v A a' x Hv). exact (H r b a' s' sh Hal).
  - intros H r b a' s' sh Hal. exact (H a' _ (allocation_of v A r b a' s' sh Hv Hal)).
Qed.

Lemma ok_consistent v A : vm_ok v A -> consistent v.
Proof.
  intros Hv. pose proof (ok_couples _ _ _ Hv) as Hc. pose proof (ok_allocs _ _ _ Hv) as Hok. pose proof (ok_pages _ _ _ Hv) as Hp. split.
  - apply (co_valid _ _ _ Hc).
  - intros r r' b b' [Hb Hi] [Hb' Hi'] Hne. now apply (co_apart _ _ _ Hc r r').
  - intros r b a s sh Hal. pose proof (al_fits A Hok _ _ (allocation_of v A r b a s sh Hv Hal)) as (F1 & F2 & F3 & F4 & _). destruct Hal as [[Hb Hi] Hk].
    pose proof (co_ok _ _ _ Hc r b Hb Hi) as Hbo. pose proof (bo_inside b Hbo a s sh Hk). pose proof (bo_end b Hbo). cbn in *. split_and!; try done; lia.
  - intros r r' b b' a a' s s' sh sh' Hal Hal' Hne. pose proof (allocation_of v A r b a s sh Hv Hal) as Hx. pose proof (allocation_of v A r' b' a' s' sh' Hv Hal') as Hx'.
    destruct (decide (a = a')) as [<-|Hn]; [|exact (al_apart A Hok a a' _ _ Hn Hx Hx')]. exfalso. apply Hne. f_equal. pose proof (al_fits A Hok _ _ Hx) as F. unfold fits in F. cbn in F.
    destruct Hal as [[Hb Hi] Hk], Hal' as [[Hb' Hi'] Hk']. symmetry. apply (alloc_area _ _ A r b r' b' a (s', sh') (s', sh') Hc Hok Hb Hi Hb' Hi'); [|done|done].
    pose proof (bo_inside b (co_ok _ _ _ Hc r b Hb Hi) a s sh Hk). lia.
  - intros p. split.
    + intros Hn. destruct (pg_used _ _ Hp p Hn) as (a & x & Hx & Hcv). apply (allocation_alloc v A a x Hv) in Hx as (r & b & s & sh & Hal & ->). exists r, b, a, s, sh. done.
    + intros (r & b & a & s & sh & Hal & Hcv). pose proof (allocation_of v A r b a s sh Hv Hal) as Hx. apply (covered_used _ a (alloc_of b (s, sh)) p); [exact (al_fits A Hok _ _ Hx)|exact (pg_alloc _ _ Hp _ _ Hx)|exact Hcv].
  - intros r b a s sh Hal Hg. exact (proj1 (pg_alloc _ _ Hp _ _ (allocation_of v A r b a s sh Hv Hal)) Hg).
  - intros r b a s q Hal. exact (sh_ref _ _ _ _ (ok_shared _ _ _ Hv) a _ q (allocation_of v A r b a s _ Hv Hal) eq_refl).
Qed.

Lemma erase_absent (m : list (Z * (Z * option nat))) k : at_key m k = None -> erase m k = m.
Proof.
  unfold erase. induction m as [|[k' e'] m IH]; [done|]. cbn [at_key]. destruct (Z.eqb_spec k' k) as [|Hne]; [done|]. intros Hk.
  rewrite filter_cons_True by done. f_equal. now apply IH.
Qed.

(** Erasing a new entry gives the old map. *)
Lemma erase_insert (m : list (Z * (Z * option nat))) k e : at_key m k = None -> erase (insert_entry m k e) k = m.
Proof.
  induction m as [|[k' e'] m IH]; cbn [insert_entry].
  - unfold erase. intros _. now rewrite filter_cons_False by (cbn; tauto).
  - intros Hk. destruct (k <? k').
    + unfold erase. rewrite filter_cons_False by (cbn; tauto). exact (erase_absent ((k', e') :: m) k Hk).
    + cbn in Hk. destruct (Z.eqb_spec k' k) as [|Hne]; [done|]. unfold erase in *. rewrite filter_cons_True by done. f_equal. now apply IH.
Qed.

Lemma no_key v A r b a s : vm_ok v A -> in_use v r b -> 0 < s -> free A a s -> at_key (m_map b) a = None.
Proof.
  intros Hv Hb Hs Hfr. destruct (at_key (m_map b) a) as [[s' sh]|] eqn:Hk; [|done]. exfalso. assert (allocation v r b a s' sh) as Hal by done.
  pose proof (allocation_of v A r b a s' sh Hv Hal) as Hx. rewrite (free_none A a s) in Hx; [done|apply Hv|done|done].
Qed.

Lemma two_mirrors A q a a' x x' : a <> a' -> mirrors A q !! a = Some x -> mirrors A q !! a' = Some x' -> (2 <= size (mirrors A q))%nat.
Proof.
  intros Hne Hm Hm'. rewrite <- (insert_delete_id _ _ _ Hm), map_size_insert_None by apply lookup_delete_eq.
  assert (delete a (mirrors A q) !! a' = Some x') as Hd by now rewrite lookup_delete_ne. rewrite <- (insert_delete_id _ _ _ Hd), map_size_insert_None by apply lookup_delete_eq. lia.
Qed.

(** The shared memory of a new allocation: the given object, none in a
    preallocated area, or a new object, which is not shareable. *)
Definition backed_by v v' b (src sh : option nat) : Prop :=
  match src with
  | Some q => sh = Some q
  | None => if has_common b then sh = None else sh = Some (length (shms v)) /\ s_flags <$> shms v' = (s_flags <$> shms v) ++ [0]
  end.

Lemma import_backed v v1 v' b src sh : import_shm b src v = Some (sh, v1) -> s_flags <$> shms v' = s_flags <$> shms v1 -> backed_by v v' b src sh.
Proof.
  unfold import_shm, backed_by. destruct (has_common b), src as [q|]; try done; intros [= <- <-]; [done..|]. intros ->. split; [done|]. cbn [shms set_shms]. now rewrite fmap_app.
Qed.

(** [alloc] in an area in use. *)
Lemma alloc_cases v A r b size src align flags : host map_address -> vm_ok v A -> in_use v r b -> call_ok (BlockAlloc r size src align flags) v = true ->
  exists ret v', block_alloc map_address get_page_size r size src align flags v = Some (ret, v') /\
    let s := total_size b src flags size in
    (ret = 0 /\ g_pages v' = g_pages v /\ blocks v' = blocks v /\ (size = 0 \/ forall a, place b align s a -> ~ free A a s)) \/
    (exists a sh, ret = a + guard_of b /\ place b align s a /\ free A a s /\ (forall a', a' < a -> place b align s a' -> ~ free A a' s) /\
      backed_by v v' b src sh /\ fits a s (guarded b) /\ at_key (m_map b) a = None /\ vm_ok v' (<[a := alloc_of b (s, sh)]> A) /\ g_locations v' = g_locations v /\
      blocks v' = alter (set_map (insert_entry (m_map b) a (s, sh))) r (blocks v) /\
      (forall p, ~ covers a (alloc_of b (s, sh)) p -> word_at (g_pages v') p = word_at (g_pages v) p)).
Proof.
  intros Hh Hv [Hb Hid] H. cbn [call_ok] in H. rewrite Hb in H. apply andb_true_iff in H as [H Hmin]. apply andb_true_iff in H as [H Hal]. apply andb_true_iff in H as [H Ha]. apply andb_true_iff in H as [H Hs].
  apply args_okb_spec in H. apply is_wordb_spec in Ha, Hs. apply Z.leb_le in Hmin.
  destruct (block_alloc_ok map_address get_page_size Hh v A r b size src align flags Hv Hb H Hs Ha Hal Hmin) as (ret & v' & Hrun & Hr). exists ret, v'. split; [exact Hrun|]. cbn zeta in *. set (s := total_size b src flags size) in *.
  destruct Hr as [(-> & [[-> ->]|((E1 & _ & _ & E4 & _) & _ & [?|Hno])])|(_ & _ & a & sh & v1 & Himp & Hfl & Hpl & Hfr & Hlow & -> & Hv' & (E1 & _ & E3 & E4 & _) & Had)]; [left; tauto|done|left; tauto|].
  right. exists a, sh. pose proof (al_fits _ (ok_allocs _ _ _ Hv') a (alloc_of b (s, sh)) ltac:(apply lookup_insert_eq)) as Hf. cbn [al_size al_guard alloc_of fst] in Hf.
  assert (at_key (m_map b) a = None) as Hnone by (apply (no_key v A r b a s Hv ltac:(done)); [unfold fits in Hf; lia|done]).
  split_and!; [done|done|done|done|exact (import_backed _ _ _ _ _ _ Himp Hfl)|done|done|done| | |].
  - now rewrite (ad_locs _ _ _ _ _ _ _ _ Had).
  - rewrite (ad_blocks _ _ _ _ _ _ _ _ Had), E4. apply list_eq. intros i. rewrite !list_lookup_alter. destruct (decide (r = i)) as [<-|]; [|done].
    rewrite Hb. cbn. unfold assign. now rewrite Hnone.
  - intros p Hn. rewrite (ad_pages _ _ _ _ _ _ _ _ Had p), E1. now rewrite decide_False.
Qed.

(** C36: every sequence of calls whose arguments are in order, from the state
    after [init], runs to its end without an exception or a failed check, and
    the areas, the allocations and the page table it leaves are consistent. *)
Theorem memory_consistent cs : host map_address -> 5 + Z.of_nat (length cs) < 2 ^ 64 -> calls_ok map_address get_page_size cs init = true ->
  exists ys v, run map_address get_page_size cs init = Some (ys, v) /\ consistent v.
Proof.
  intros Hh Hl Hok. destruct (run_ok map_address get_page_size Hh cs init ∅ init_ok Hl Hok) as (ys & v & A & Hr & Hv).
  exists ys, v. split; [exact Hr|exact (ok_consistent v A Hv)].
Qed.

(** The host's own mappings of different shareable objects do not overlap, each
    as long as the allocations that show it. *)
Definition mappings_apart v : Prop := forall q q' o o' r r' b b' a a' s s', shms v !! q = Some o -> shms v !! q' = Some o' -> s_flags o <> 0 -> s_flags o' <> 0 ->
  allocation v r b a s (Some q) -> allocation v r' b' a' s' (Some q') -> q <> q' ->
  map_address q + s <= map_address q' \/ map_address q' + s' <= map_address q.

(** What a unit of a mirror has: the host address of its bytes with the lock
    bit, or nothing if the mirror is the only one. *)
Lemma mirror_mark v A q o r b a s k : host map_address -> vm_ok v A -> shms v !! q = Some o -> s_flags o <> 0 -> allocation v r b a s (Some q) -> 0 <= k < s / 65536 ->
  k < 65536 /\ ((word_at (g_shmem v) (a / 65536 + k) = 0 /\ (size (mirrors A q) <= 1)%nat) \/
    word_at (g_shmem v) (a / 65536 + k) = map_address q + k * 0x10000 + 2 ^ 63).
Proof.
  intros Hh Hv Ho Hf Hal Hk. pose proof (allocation_of v A r b a s _ Hv Hal) as Hx. pose proof (al_fits A (ok_allocs _ _ _ Hv) _ _ Hx) as F. unfold fits in F. cbn in F.
  assert (k < 65536) as Hk' by (Z.div_mod_to_equations; lia). split; [done|].
  assert (mirrors A q !! a = Some (alloc_of b (s, Some q))) as Hm by (apply mirrors_lookup; done).
  destruct (so_count _ _ _ _ _ (sh_each _ _ _ _ (ok_shared _ _ _ Hv) q o Ho) Hf) as [(_ & He)|[(_ & Hsz & Hu)|(_ & Hmk)]].
  - now rewrite He in Hm.
  - left. split; [|done]. apply (Hu a _ Hm). apply elem_units. cbn. lia.
  - right. rewrite (Hmk _ _ Hm k) by done. apply shm_word_unit; [done|lia].
Qed.

(** C37: in every state the program reaches, as long as the host's own mappings
    of different shareable objects do not overlap: two different 64 KiB units of
    allocations of shareable memory have the same mark, which is not 0, exactly
    if they show the same unit of the same object; and a unit that shows no
    shareable memory has no mark.  So guest addresses of one byte of shareable
    memory are seen to be the same exactly through [g_shmem]. *)
Theorem mirrors_agree v : host map_address -> reached map_address get_page_size v -> mappings_apart v ->
  (forall q q' o o' r r' b b' a a' s s', shms v !! q = Some o -> shms v !! q' = Some o' -> s_flags o <> 0 -> s_flags o' <> 0 ->
    allocation v r b a s (Some q) -> allocation v r' b' a' s' (Some q') ->
    forall k k', 0 <= k < s / 65536 -> 0 <= k' < s' / 65536 -> a / 65536 + k <> a' / 65536 + k' ->
      word_at (g_shmem v) (a / 65536 + k) = word_at (g_shmem v) (a' / 65536 + k') /\ word_at (g_shmem v) (a / 65536 + k) <> 0 <-> q = q' /\ k = k') /\
  (forall i, word_at (g_shmem v) i <> 0 ->
    exists q o r b a s, shms v !! q = Some o /\ s_flags o <> 0 /\ allocation v r b a s (Some q) /\ i ∈ units_of a s).
Proof.
  intros Hh Hre Hap. destruct (reached_ok v Hh Hre) as [A Hv]. split.
  - intros q q' o o' r r' b b' a a' s s' Ho Ho' Hf Hf' Hal Hal' k k' Hk Hk' Hne.
    destruct (mirror_mark v A q o r b a s k Hh Hv Ho Hf Hal Hk) as [Hkb Hm], (mirror_mark v A q' o' r' b' a' s' k' Hh Hv Ho' Hf' Hal' Hk') as [Hkb' Hm']. split.
    + intros [He Hn]. destruct Hm as [[? _]|Hm]; [done|]. destruct Hm' as [[Hm' _]|Hm']; [congruence|]. rewrite Hm, Hm' in He.
      destruct (decide (q = q')) as [<-|Hq]; [split; [done|lia]|]. pose proof (Hap q q' o o' r r' b b' a a' s s' Ho Ho' Hf Hf' Hal Hal' Hq). exfalso. Z.div_mod_to_equations; lia.
    + intros [<- <-]. assert (a <> a') as Haa by (intros <-; done). assert (2 <= size (mirrors A q))%nat as H2.
      { eapply (two_mirrors A q a a'); [done| |]; apply mirrors_lookup; (split; [eapply allocation_of; done|done]). }
      destruct Hm as [[_ ?]|Hm]; [lia|]. destruct Hm' as [[_ ?]|Hm']; [lia|]. rewrite Hm, Hm'. split; [done|]. destruct (Hh q). lia.
  - intros i Hi. destruct (sh_only _ _ _ _ (ok_shared _ _ _ Hv) i Hi) as (q & o & a & x & Ho & Hf & Hm & Hu). apply mirrors_lookup in Hm as [Hx Hq].
    apply (allocation_alloc v A a x Hv) in Hx as (r & b & s & sh & Hal & ->). cbn in Hq. subst sh. exists q, o, r, b, a, s. done.
Qed.

(** C38: [alloc] in an area in use, of a 32-bit size and with arguments in order
    ([call_ok]: the alignment is a power of two, at least the size of the pages;
    shared memory is given only where the area is not preallocated, without 4 KiB
    pages or guards in the flags, and only to an area that is searched for
    mirrors if it is shareable; no executable pages between guards), does not
    throw.  It gives the lowest place of the area, at a multiple of the
    alignment, where the pages with their guards are vacant, and makes the
    allocation there, of the shared memory that was given, of none in a
    preallocated area, or else of a new object that is not shareable; it gives 0
    and changes no page and no area only if the size is 0 or no place is
    vacant. *)
Theorem alloc_takes_lowest v r b size src align flags : host map_address -> reached map_address get_page_size v -> in_use v r b ->
  call_ok (BlockAlloc r size src align flags) v = true ->
  exists ret v', block_alloc map_address get_page_size r size src align flags v = Some (ret, v') /\
    let s := total_size b src flags size in
    (ret = 0 /\ g_pages v' = g_pages v /\ blocks v' = blocks v /\ (size = 0 \/ forall a, place b align s a -> ~ vacant v a s)) \/
    (exists a sh, ret = a + guard_of b /\ place b align s a /\ vacant v a s /\ (forall a', a' < a -> place b align s a' -> ~ vacant v a' s) /\
      allocation v' r (set_map (insert_entry (m_map b) a (s, sh)) b) a s sh /\ backed_by v v' b src sh).
Proof.
  intros Hh Hre Hb H. destruct (reached_ok v Hh Hre) as [A Hv].
  destruct (alloc_cases v A r b size src align flags Hh Hv Hb H) as (ret & v' & Hrun & Hr). exists ret, v'. split; [exact Hrun|]. cbn zeta in *.
  destruct Hr as [(-> & E1 & E4 & Hr)|(a & sh & -> & Hpl & Hfr & Hlow & Hback & Hf & Hnone & Hv' & _ & E4 & _)].
  - left. split_and!; [done..|]. destruct Hr as [->|Hno]; [now left|right]. intros a Hpl Hva. apply (Hno a Hpl). now apply (vacant_free v A _ _ Hv).
  - right. exists a, sh. split_and!; [done|done|now apply (vacant_free v A _ _ Hv)|intros a' Hlt Hpl' Hva; apply (Hlow a' Hlt Hpl'); now apply (vacant_free v A _ _ Hv)| |exact Hback].
    destruct Hb as [Hb Hid]. split; [split; [|done]|].
    + rewrite E4. apply alter_lookup. exists b. split; [done|]. now rewrite decide_True.
    + cbn. rewrite at_key_insert by (done || apply (bo_order b (co_ok _ _ _ (ok_couples _ _ _ Hv) r b Hb Hid))). now rewrite decide_True.
Qed.

(** C39: [dealloc] of the address that [alloc] gave, in an area in use and with
    arguments in order ([call_ok]: 32-bit size, the alignment a power of two, at
    least the size of the pages; shared memory is given only where the area is
    not preallocated, without 4 KiB pages or guards in the flags, and only to an
    area that is searched for mirrors if it is shareable; no executable pages
    between guards), takes the allocation back: its size without the guards is
    returned, and every page, every area and every location is as it was before.
    (With guards in the flags but not in the area, which [call_ok] excludes, the
    address [alloc] gives is not the one [dealloc] looks for, see
    [dealloc_misses].) *)
Theorem alloc_dealloc v r b size src align flags ret v1 : host map_address -> reached map_address get_page_size v -> in_use v r b ->
  call_ok (BlockAlloc r size src align flags) v = true -> block_alloc map_address get_page_size r size src align flags v = Some (ret, v1) -> ret <> 0 ->
  exists v2, block_dealloc r ret None v1 = Some (total_size b src flags size - 2 * guard_of b, v2) /\
    (forall p, word_at (g_pages v2) p = word_at (g_pages v) p) /\ blocks v2 = blocks v /\ g_locations v2 = g_locations v /\ consistent v2.
Proof.
  intros Hh Hre Hb H Hrun Hn. destruct (reached_ok v Hh Hre) as [A Hv].
  destruct (alloc_cases v A r b size src align flags Hh Hv Hb H) as (ret' & v' & Hrun' & Hr). rewrite Hrun in Hrun'. injection Hrun' as <- <-. cbn zeta in Hr. set (s := total_size b src flags size) in *.
  destruct Hr as [(-> & _)|(a & sh & -> & Hpl & Hfr & _ & _ & Hf & Hnone & Hv' & El & Eb & Hp)]; [done|]. destruct Hb as [Hb Hid].
  pose proof (co_ok _ _ _ (ok_couples _ _ _ Hv) r b Hb Hid) as Hbo. set (b1 := set_map (insert_entry (m_map b) a (s, sh)) b).
  assert (blocks v1 !! r = Some b1) as Hb1 by (rewrite Eb; apply alter_lookup; exists b; now rewrite decide_True).
  assert (is_word 32 (a + guard_of b)) as Hw.
  { destruct Hf as (F1 & F2 & F3 & F4 & F5 & F6). unfold is_word, guard_of in *. destruct (guarded b); [specialize (F6 eq_refl)|]; lia. }
  destruct (block_dealloc_ok map_address Hh v1 _ r b1 (a + guard_of b) None Hv' Hb1 Hid Hw) as (n & v2 & Hd & Hr). change (guard_of b1) with (guard_of b) in Hr. rewrite Z.add_simpl_r in Hr.
  assert (at_key (m_map b1) a = Some (s, sh)) as Hk by (cbn; rewrite at_key_insert by (done || apply (bo_order b Hbo)); now rewrite decide_True).
  destruct Hr as [(_ & _ & Hno)|(s' & sh' & Hk' & _ & -> & _ & Hv2 & El2 & _ & Eb2 & Hcl)]; [destruct (Hno s sh Hk) as [[? [=]] _]|].
  rewrite Hk in Hk'. injection Hk' as <- <-. exists v2. split_and!; [exact Hd| | |congruence|exact (ok_consistent v2 _ Hv2)].
  - intros p. rewrite Hcl. cbn [al_size alloc_of fst]. case_decide as Hin; [|now apply Hp]. symmetry.
    apply (proj2 (pages_free _ A a s (ok_allocs _ _ _ Hv) (ok_pages _ _ _ Hv) (fits_weaken _ _ _ Hf)) Hfr). now apply elem_pages.
  - rewrite Eb2, Eb. apply list_eq. intros i. rewrite !list_lookup_alter. destruct (decide (r = i)) as [<-|]; [|done]. rewrite Hb, decide_True by done. cbn [fmap option_fmap option_map set_map m_map b_addr b_size b_flags b_id].
    rewrite erase_insert by done. now destruct b.
Qed.

(** [find_map] makes its area at the lowest place, between 0x10000000 and
    0xC0000000 and at a multiple of the alignment, where no area is, behind the
    areas there are; it makes none only if the size is 0 or there is no such
    place. *)
Theorem find_map_lowest v size align flags : host map_address -> reached map_address get_page_size v -> call_ok (FindMap size align flags) v = true ->
  exists o v', find_map size align flags v = Some (o, v') /\
    let s := round_up size 0x10000 in
    (o = None /\ v' = v /\ (size = 0 \/ forall a, ~ area_place v align s a)) \/
    (exists a, o = Some (length (blocks v)) /\ area_place v align s a /\ (forall a', a' < a -> ~ area_place v align s a') /\ g_pages v' = g_pages v /\
      g_locations v' = g_locations v ++ [o] /\ blocks v' = blocks v ++ [Block a s (process_block_flags flags) (s_id v) []]).
Proof.
  intros Hh Hre H. destruct (reached_ok v Hh Hre) as [A Hv]. cbn [call_ok] in H. apply andb_true_iff in H as [H Hpow]. apply andb_true_iff in H as [H Hal]. apply andb_true_iff in H as [Hs Ha].
  apply is_wordb_spec in Hs, Ha. apply Z.leb_le in Hal. unfold find_map. rewrite Hpow, (proj2 (Z.ltb_ge _ _) Hal). cbn [negb orb]. destruct (is_align_pow2 align) as (k & Hk & ->); [unfold is_word in Ha; lia|done|].
  change 0x10000 with (2 ^ 16) in *. rewrite alignUp_round by (lia || done). pose proof (round_up_spec size 16 ltac:(lia) ltac:(unfold is_word in Hs; lia)) as [Hr Hm]. cbn zeta. set (s := round_up size (2 ^ 16)) in *.
  unfold is_word in Hs. destruct (Z.ltb_spec (size + (2 ^ 16 - 1)) (2 ^ 32)) as [Hov|Hov].
  2:{ exists None, v. split; [done|]. left. split_and!; [done|done|right]. intros a (_ & H1 & H2 & _). lia. }
  destruct (Z.eqb_spec s 0) as [|Hz]; [exists None, v; split; [done|]; left; split_and!; [done|done|left; lia]|].
  pose proof (find_map_at_ok map_address v A s k Hv Hk) as Hf. destruct (find_map_at s (2 ^ k) v) as [a|].
  - destruct Hf as [Hpl Hlow]; [lia|]. do 2 eexists. split; [reflexivity|]. right. exists a. split_and!; done.
  - do 2 eexists. split; [reflexivity|]. left. split_and!; [done|done|right; apply Hf; lia].
Qed.
End memory.

(** C40: where the pages of every large page have one value, [check_addr] holds
    exactly if the range ends at the end of the address space at the latest and
    all its pages are allocated and have all the flags: skipping to the end of
    a large page misses nothing. *)
Theorem check_addr_exact v addr flags size : large_pages (g_pages v) -> is_word 32 addr -> is_word 32 size ->
  check_addr addr flags size v = true <->
  size = 0 \/ (addr + size <= 2 ^ 32 /\ forall p, addr / 4096 <= p <= (addr + size - 1) / 4096 ->
    forall k, 0 <= k -> Z.testbit (Z.lor flags page_allocated) k = true -> Z.testbit (word_at (g_pages v) p) k = true).
Proof.
  intros Hl Ha Hs. unfold is_word in *. unfold check_addr. destruct (Z.eqb_spec size 0) as [Hz|Hz]; [split; [now left|done]|].
  destruct (Z.ltb_spec (0x100000000 - addr) size) as [Hlt|Hge]; [split; [done|intros [?|[? _]]; lia]|]. rewrite (wrap_small 32) by (unfold is_word; lia).
  rewrite (check_loop_ok (g_pages v) _ _ Hl) by (Z.div_mod_to_equations; lia). split.
  - intros H. right. split; [lia|]. intros p Hp. now apply lacks_bits, H.
  - intros [?|[_ H]]; [done|]. intros p Hp. now apply lacks_bits, H.
Qed.

(** ** Examples *)

Definition example_map (r : nat) : Z := 0x100000000 + Z.of_nat r mod 0x1000 * 0x200000000.

(** Memory of the program, an area of the user, and two objects of shared memory,
    each at two addresses of it. *)
Definition example_calls : list call :=
  [BlockAlloc 0 0x20000 None 0x10000 0; FindMap 0x10000000 0x20000000 page_size_64k; MakeShm 1;
   BlockAlloc 4 0x20000 (Some 0%nat) 0x10000 page_size_64k; BlockFalloc 4 0x20100000 0x20000 (Some 0%nat) page_size_64k;
   MakeShm 1; BlockFalloc 4 0x20200000 0x20000 (Some 1%nat) page_size_64k; BlockFalloc 4 0x20300000 0x10000 (Some 1%nat) page_size_64k].

Definition example : vm := from_option snd init (run example_map 4096 example_calls init).
Definition example_results : list result := from_option fst [] (run example_map 4096 example_calls init).
Definition example_area : block_t := default (Block 0 0 0 0 []) (blocks example !! 4%nat).

Lemma example_host : host example_map.
Proof.
  intros r. unfold example_map. pose proof (Z.mod_pos_bound (Z.of_nat r) 0x1000 ltac:(done)). split; [lia|].
  apply Z.mod_divide; [done|]. exists (0x10000 + Z.of_nat r mod 0x1000 * 0x20000). lia.
Qed.

Lemma example_reached : reached example_map 4096 example.
Proof. exists example_calls, example_results. split_and!; vm_compute; reflexivity. Qed.

Lemma memory_consistent_witness : exists ys v, run example_map 4096 example_calls init = Some (ys, v) /\ consistent v.
Proof. apply (memory_consistent example_map 4096 example_calls example_host); vm_compute; reflexivity. Defined.

Lemma example_apart : mappings_apart example_map example.
Proof.
  destruct (reached_ok example_map 4096 example example_host example_reached) as [A Hv].
  intros q q' o o' r r' b b' a a' s s' Ho Ho' _ _ Hal Hal' Hne. pose proof (al_fits A (ok_allocs _ _ _ Hv) _ _ (allocation_of _ _ _ _ _ _ _ _ Hv Hal)) as F.
  pose proof (al_fits A (ok_allocs _ _ _ Hv) _ _ (allocation_of _ _ _ _ _ _ _ _ Hv Hal')) as F'. unfold fits in F, F'. cbn [al_size alloc_of fst] in F, F'.
  apply lookup_lt_Some in Ho, Ho'. change (length (shms example)) with 2%nat in Ho, Ho'.
  destruct q as [|[|]], q' as [|[|]]; try lia; change (example_map 0) with 0x100000000; change (example_map 1) with 0x300000000; lia.
Qed.

Definition example_mirrors : list (Z * Z * nat) := 
  [(0x20000000, 0x20000, 0%nat); (0x20100000, 0x20000, 0%nat); (0x20200000, 0x20000, 1%nat); (0x20300000, 0x10000, 1%nat)].

Lemma mirrors_agree_witness : let mark := word_at (g_shmem example) in
  (mark 0x2001 = mark 0x2011 /\ mark 0x2001 <> 0) /\ (mark 0x2020 = mark 0x2030 /\ mark 0x2020 <> 0) /\
  ~ (mark 0x2001 = mark 0x2010 /\ mark 0x2001 <> 0) /\ ~ (mark 0x2001 = mark 0x2021 /\ mark 0x2001 <> 0).
Proof.
  assert (forall a s q, (a, s, q) ∈ example_mirrors -> allocation example 4 example_area a s (Some q)) as Hal
    by (intros a s q H; repeat (apply elem_of_cons in H as [[= -> -> ->]|H]; [split; [split|]; vm_compute; done|]); by apply not_elem_of_nil in H).
  destruct (mirrors_agree example_map 4096 example example_host example_reached example_apart) as [H _].
  assert (forall q q' a a' s s' k k', (q < 2)%nat -> (q' < 2)%nat -> (a, s, q) ∈ example_mirrors -> (a', s', q') ∈ example_mirrors ->
    0 <= k < s / 65536 -> 0 <= k' < s' / 65536 -> a / 65536 + k <> a' / 65536 + k' ->
    word_at (g_shmem example) (a / 65536 + k) = word_at (g_shmem example) (a' / 65536 + k') /\ word_at (g_shmem example) (a / 65536 + k) <> 0 <-> q = q' /\ k = k') as H'.
  { intros q q' a a' s s' k k' Hq Hq' Hin Hin'. assert (forall q, (q < 2)%nat -> exists o, shms example !! q = Some o /\ s_flags o <> 0) as Hs
      by (intros [|[|]] ?; [eexists; split; [vm_compute; reflexivity|done]..|lia]).
    destruct (Hs q Hq) as (o & Ho & Hf), (Hs q' Hq') as (o' & Ho' & Hf'). exact (H q q' o o' 4%nat 4%nat _ _ a a' s s' Ho Ho' Hf Hf' (Hal _ _ _ Hin) (Hal _ _ _ Hin') k k'). }
  clear H Hal. cbn zeta. revert H'. generalize (word_at (g_shmem example)). intros mark H'.
  pose proof (H' 0%nat 0%nat 0x20000000 0x20100000 0x20000 0x20000 1 1 ltac:(lia) ltac:(lia) ltac:(left) ltac:(right; left) ltac:(done) ltac:(done) ltac:(done)) as H1.
  pose proof (H' 1%nat 1%nat 0x20200000 0x20300000 0x20000 0x10000 0 0 ltac:(lia) ltac:(lia) ltac:(do 2 right; left) ltac:(do 3 right; left) ltac:(done) ltac:(done) ltac:(done)) as H2.
  pose proof (H' 0%nat 0%nat 0x20000000 0x20100000 0x20000 0x20000 1 0 ltac:(lia) ltac:(lia) ltac:(left) ltac:(right; left) ltac:(done) ltac:(done) ltac:(done)) as H3.
  pose proof (H' 0%nat 1%nat 0x20000000 0x20200000 0x20000 0x20000 1 1 ltac:(lia) ltac:(lia) ltac:(left) ltac:(do 2 right; left) ltac:(done) ltac:(done) ltac:(done)) as H4.
  split_and!; [by apply H1|by apply H1|by apply H2|by apply H2|by intros [_ [=]]%H3|by intros [[=] _]%H4].
Defined.

(** The first places of the area are taken, the first vacant one is behind
    them; without shared memory the allocation is of a new object. *)
Lemma alloc_takes_lowest_witness : exists v', block_alloc example_map 4096 4 0x10000 None 0x10000 0 example = Some (0x20020000, v') /\
  backed_by example v' example_area None (Some 2%nat) /\ vacant example 0x20020000 0x10000 /\ ~ vacant example 0x20010000 0x10000.
Proof.
  destruct (alloc_takes_lowest example_map 4096 example 4 example_area 0x10000 None 0x10000 0 example_host example_reached) as (ret & v' & Hrun & H);
    [split; vm_compute; done|vm_compute; reflexivity|].
  assert (exists v1, block_alloc example_map 4096 4 0x10000 None 0x10000 0 example = Some (0x20020000, v1) /\
    (fun b => at_key (m_map b) 0x20020000) <$> blocks v1 !! 4%nat = Some (Some (0x10000, Some 2%nat))) as (v1 & Hrun1 & Hk).
  { eexists. split; vm_compute; reflexivity. }
  rewrite Hrun in Hrun1. injection Hrun1 as -> <-. exists v'. split; [exact Hrun|].
  change (total_size example_area None 0 0x10000) with 0x10000 in H. change (guard_of example_area) with 0 in H. cbn zeta in H.
  destruct H as [[[=] _]|(a & sh & Ha & Hpl & Hva & Hlow & [[Hb _] Hal] & Hbk)]. assert (a = 0x20020000) as -> by lia.
  rewrite Hb in Hk. cbn [fmap option_fmap option_map] in Hk. rewrite Hal in Hk. injection Hk as ->. split; [exact Hbk|]. split; [exact Hva|].
  apply Hlow; [done|]. vm_compute. done.
Defined.

Lemma alloc_dealloc_witness : exists v1 v2, block_alloc example_map 4096 4 0x10000 None 0x10000 0 example = Some (0x20020000, v1) /\
  block_dealloc 4 0x20020000 None v1 = Some (total_size example_area None 0 0x10000 - 2 * guard_of example_area, v2) /\ blocks v2 = blocks example.
Proof.
  eexists. destruct (alloc_dealloc example_map 4096 example 4 example_area 0x10000 None 0x10000 0 0x20020000
    (from_option snd init (block_alloc example_map 4096 4 0x10000 None 0x10000 0 example)) example_host example_reached) as (v2 & H & _ & Hb & _);
    [split; vm_compute; done|vm_compute; reflexivity|vm_compute; reflexivity|done|].
  exists v2. split; [|exact (conj H Hb)]. vm_compute. reflexivity.
Defined.

Lemma find_map_lowest_witness : exists o v', find_map 0x1000000 0x1000000 page_size_1m example = Some (o, v') /\
  ((o = None /\ v' = example /\ (0x1000000 = 0 \/ forall a, ~ area_place example 0x1000000 0x1000000 a)) \/
   (exists a, o = Some 5%nat /\ area_place example 0x1000000 0x1000000 a /\ (forall a', a' < a -> ~ area_place example 0x1000000 0x1000000 a') /\ g_pages v' = g_pages example /\
     g_locations v' = g_locations example ++ [o] /\ blocks v' = blocks example ++ [Block a 0x1000000 (process_block_flags page_size_1m) 6 []])).
Proof. apply (find_map_lowest example_map 4096 example 0x1000000 0x1000000 page_size_1m example_host example_reached). vm_compute. reflexivity. Defined.

(** Pages of one 64 KiB unit. *)
Definition unit_pages : vm := set_pages (release_all (pages_of 0x10000 0x10000) 163 ∅) init.

Lemma unit_large : large_pages (g_pages unit_pages).
Proof.
  intros i j Hi. unfold unit_pages. cbn [set_pages g_pages]. rewrite !word_at_release_all, !word_at_empty. split; intros Hf Hij.
  - exfalso. case_decide; discriminate.
  - case_decide as H1; [|discriminate]. rewrite decide_True; [done|]. apply elem_pages in H1. apply elem_pages. Z.div_mod_to_equations; lia.
Qed.

Lemma check_addr_exact_witness : check_addr 0x11000 page_writable 0x2000 unit_pages = true.
Proof.
  apply (check_addr_exact unit_pages 0x11000 page_writable 0x2000 unit_large); [unfold is_word; lia..|]. right. split; [lia|].
  intros p Hp. apply lacks_bits. unfold unit_pages. cbn [set_pages g_pages]. rewrite word_at_release_all, decide_True; [done|]. apply elem_pages. Z.div_mod_to_equations; lia.
Defined.

(** ** What the checks do not see *)

(** The mapping of the first 64 KiB unit of an area with shared memory of 1 MiB
    at an address that is no multiple of 1 MiB. *)
Definition odd_calls : list call :=
  [FindMap 0x10000000 0x20000000 page_size_64k; MakeShm 1; BlockFalloc 4 0x20010000 0x100000 (Some 0%nat) page_size_1m].

Lemma odd_reached : calls_ok example_map 4096 odd_calls init = true.
Proof. vm_compute. reflexivity. Qed.

(** [check_addr] goes on from an address in the allocation to the next multiple
    of 1 MiB, beyond its end: the range holds although its last pages are not
    allocated. *)
Lemma check_addr_skips : (fun x => (check_addr 0x20020000 page_readable 0x100000 x.2, check_addr 0x20110000 page_readable 0x1000 x.2)) <$>
  run example_map 4096 odd_calls init = Some (true, false).
Proof. vm_compute. reflexivity. Qed.

(** [page_protect] of two pages where the first has the new value already: the
    second is not changed. *)
Lemma page_protect_skips : (fun x => (word_at (g_pages x.2) 16, word_at (g_pages x.2) 17)) <$>
  run example_map 4096 [BlockAlloc 0 0x10000 None 0x10000 0; PageProtect 0x10000 0x2000 0 0 page_writable; PageProtect 0x10000 0x1000 0 page_writable 0;
    PageProtect 0x10000 0x2000 0 page_writable 0] init = Some (163, 161).
Proof. vm_compute. reflexivity. Qed.

(** Guards asked for in an area without them: [alloc] gives an address behind the
    place of the allocation, and [dealloc] does not find it. *)
Lemma dealloc_misses : fst <$> run example_map 4096 [FindMap 0x10000000 0x20000000 page_size_64k; MakeShm 1;
    BlockAlloc 4 0x20000 (Some 0%nat) 0x10000 (Z.lor stack_guarded page_size_64k); BlockDealloc 4 0x20001000 None] init =
  Some [(0, Some 4%nat); (0, Some 0%nat); (0x20001000, None); (0, None)].
Proof. vm_compute. reflexivity. Qed.

(** Shared memory in an area of 4 KiB pages fails a check. *)
Lemma falloc_common_throws : run example_map 4096 [FindMap 0x10000000 0x20000000 page_size_4k; MakeShm 1; BlockFalloc 4 0x20010000 0x100000 (Some 0%nat) page_size_1m] init = None.
Proof. vm_compute. reflexivity. Qed.

(** [dealloc] in an area that [unmap] has taken away fails a check. *)
Lemma dealloc_expired_throws : run example_map 4096 [FindMap 0x10000000 0x20000000 0x202; BlockAlloc 4 0x20000 None 0x10000 0; Unmap 0x20000000 false None;
  BlockDealloc 4 0x20000000 None] init = None.
Proof. vm_compute. reflexivity. Qed.
